(* ===== verification/_CoqProject ===== *)
-Q . S2P
Prelude.v
ActionArbiter.v
MovementArbiter.v
Doubles.v
RouteTypes.v
RouteInteraction.v
RouteCompletion.v
RouteTransport.v
RouteJson.v
RouteJsonPrint.v
RouteContract.v
LockoutPlan.v
LockoutGraph.v
LockoutSeed.v
LockoutValid.v
LockoutSeedSpec.v
LockoutReadback.v
LockoutReload.v
LockoutDefinition.v
LockoutRegistry.v
LockoutServer.v
LockoutSeeder.v
LockoutSeederSpec.v
LockoutToyServer.v
DutyClaims.v
DutyCallouts.v
PullTimer.v
PlaySession.v
PlayRoster.v
SpellQueue.v
AreaAuthority.v
CooldownReservation.v
NativeIntent.v
RouteFacts.v
RouteRuntime.v
RouteRuntimeSpec.v
MeleeLane.v
RouteHold.v
OwnerCheckpoint.v
VehicleLanding.v
Rbac.v
RbacSpec.v
EventMap.v
EventMapSpec.v
LfgRoles.v
LfgRolesSpec.v
LfgQueue.v
LfgQueueSpec.v
LfgTimers.v
LfgMgr.v
LfgJoin.v
LfgMgrBase.v
LfgJoinSpec.v
LfgRoleCheckSpec.v
LfgVoteSpec.v
LfgProposalSpec.v
ByteBuffer.v
BitStream.v
BitReader.v
MovementStructures.v
MovementInfo.v
MovementPackets.v
MovementView.v
MovementReadSpec.v
MovementWriteSpec.v
MovementRoundTrip.v
MovementSafety.v
MovementValidSpec.v
CombatManager.v
CombatLinks.v
CombatKeeps.v
CombatQuiet.v
CombatEnds.v
CombatSpec.v
