(* ===== verification/Prelude.v ===== *)
(** * A verification of the pure components of the server and its bots

    The repository is a TrinityCore server with autonomous bots. Its own code
    is [src/src/server/game/Bots/]; this library models the components there
    that decide, parse and plan without touching live world objects. The
    adapters around them collect facts about players, maps and spells, call
    these components, and carry out what they answer. Of the upstream server
    the components with a logic of their own are modelled too: access control,
    script timers, the dungeon finder, and packets with the movement data that
    clients and server exchange.

    ** Parts and files

    - [Prelude]: machine integers as [Z] with explicit wraps ([u8], [u16],
      [u32], [u64]), binary32 floats, byte strings, [std::stable_sort],
      lexicographic orders, list lemmas, and the tactics [b2p], [split_guard]
      and [wrap_small].
    - [ActionArbiter] ([BotActionArbiter.h]): one kernel per bot. Producers
      [Submit] candidates for a decision tick; [Resolve] sorts them
      ([Better]), masks them ([MaskReason]), attempts them in order while
      their resource lanes are free and records a [Lifecycle] per key
      ([ObserveLifecycle]). An attempt is a function on the world, which is a
      parameter, so attempts see the effects of earlier ones. [Tick] is the
      older priority ladder. Theorems: lanes are exclusive, the order is by
      priority and independent of submission order, backoff windows,
      escalation, timed waits.
    - [MovementArbiter] ([BotMovementArbiter.h]): leases on a bot's movement;
      [Evaluate] and [Apply]. Theorems: what a live lease admits, and that
      weaker owners never change it.
    - Native route contracts, in which a route node declares how a bot group
      interacts, rides a transport and completes the node:
      [RouteTypes] (contracts and the state kept per route scope,
      [BotValidationRouteNativeTypes.h]); [RouteJson] with [Doubles] (the
      strict JSON reader and its numbers, [..NativeJson.h]); [RouteJsonPrint]
      (a reference printer, the reader's inverse); [RouteContract] (the
      fail-closed parsers, [..NativeContract.h]); [RouteInteraction],
      [RouteCompletion] and [RouteTransport] (the decisions of a tick,
      [..NativeLogic.h]). The parsers build the contracts from the reader's
      values; the decisions read the contracts, the facts of the tick (the
      record [FactSource] stands for the abstract class of that name) and the
      scope's memory. Theorems: the reader always returns, what it accepts is
      well formed, it inverts the printer; accepted contracts are bounded and
      consistent; the owner election, attempt bounds, completion verdicts as a
      reading of the contract tree and of the objects seen so far, the rest
      window, and the safety of boarding.
    - The tick of native routes: [NativeIntent] (the typed actions a bot may
      submit and the lanes of the kernel they take,
      [BotNativeActionIntent.h]), [RouteFacts] (what of the world answers the
      decisions: targets, transports, members, the evaluator,
      [..ValidationRouteNativeFacts.cpp]), [RouteRuntime] (one bot's run,
      composing the decisions, with the outcomes of what it submitted,
      [..ValidationRouteNativeRuntime.cpp]) and [RouteRuntimeSpec]. Players,
      creatures and objects are records of what is read of them; callbacks and
      kernel submissions are the list of a run's effects, which a runtime
      monad collects. Theorems: a scope fails or completes once, completes
      only on an evaluation that found the node done, and cannot outlast its
      deadline.
    - Seeded raid lockouts. The plan ([BotRaidLockoutPlan.h]): [LockoutPlan] (definitions, keys,
      predecessor closure and cycle search), [LockoutGraph] (both against
      reachability), [LockoutSeed] ([ValidateDefinition], [BuildSaveData],
      [BuildSeedPlan], [ResolveDeadSpawns]), [LockoutValid] (the well-formed
      definitions and that validation decides them), [LockoutSeedSpec] (when
      a plan is granted and what it contains, the respawn rows),
      [LockoutReadback] (both parsers of save data, the comparison with the
      seed, doors, hexadecimal, JSON, the database readback) and
      [LockoutReload] (what a plan loads as, and that its seed is accepted).
      The files a definition is read from ([BotRaidLockoutDefinitionJson.h]):
      [LockoutDefinition]; a definition is accepted exactly when the document
      describes it member by member and it is well formed, and every definition
      can be written. The seeder
      ([BotRaidLockoutSeeder.cpp], [BotRaidLockoutRegistry.cpp]):
      [LockoutRegistry] (the records by cohort, and who is armed),
      [LockoutServer] (the class [Server], which states what the seeder calls
      of the map, save, group, player and database managers, and
      [ServerLaws], what those calls promise about the rows of an instance),
      [LockoutSeeder] ([SeedLockout], [ReadbackLockout], [ClearLockout] and
      the group binds, proved against that interface in [LockoutSeederSpec])
      and [LockoutToyServer] (a concrete server that has the laws, on which
      the theorems are run). Theorems: seeding is all or nothing, what it
      registers, exactly when a lockout is cleared, one leader per cohort.
    - Duty claims ([BotRaidDutyClaims.h]): [DutyClaims] (words, mentions,
      clauses, lines, and the claims of a raid) and [DutyCallouts] (what a
      line says, and who owns a duty after any history).
    - Play sessions, in which a human leads the bots: [PlayRoster] (the slots
      that humans take, [BotPlaySession.h]), [PullTimer] (the timers and the
      messages of raid addons and chat that start them, [BotPlayPullTimer.h])
      and [PlaySession] (the session's pull timer, boss fight and route
      permission, [BotWorldPopulationMgrPlay.cpp]). Theorems: which slot each
      human gets, that the messages are read and what chat can start, and that
      no bot pulls unless somebody entitled called it. [PlaySession] calls the
      parsers of [PullTimer], which call the word splitting of [DutyClaims].
    - [SpellQueue] ([BotSpellQueue.h], [.cpp] and [..NativeLock.cpp]): the
      queue of casts that wait for a lock. Theorems: it refines a set of
      intents, stays small, and wakes every intent on time.
    - [AreaAuthority] ([BotRaidAreaAuthority.h]): what area damage a bot may
      do; it refines one policy per owner.
    - [CooldownReservation] ([..RaidCooldownReservation.h]): which cooldowns
      a raid keeps. Theorems: tags are the comma-separated fields, the
      arithmetic of the next hit is exact, an emergency gets its defensive.
    - [MeleeLane] ([BotMeleeAutoAttackIntent.h]): the one toggle of a bot's
      auto attack. Theorems: which intent wins, and that the order of
      submissions does not matter.
    - Route holds ([BotChainwielderOwnerCheckpoint.h] and the manager's file
      of that name): [RouteHold] (the state machine of a hold, and its
      admission policy in the kernel of [ActionArbiter]) and [OwnerCheckpoint]
      (the checkpoint a hold is armed for, the identities both are compared
      under, the manager's steps, and when an update of a bot, [UpdateBot],
      comes to them). Theorems: a hold is lifted only by its whole protocol,
      what is admitted meanwhile, what a completed checkpoint has seen, and that
      an armed one ends after 241 updates that were not cut short.
    - [VehicleLanding] ([BotServerVehicleExitLanding.h], with the tick of
      [BotWorldPopulationMgrUpdateBotPreparation.cpp] and the binding of
      [..MovementExecutor.cpp]): when the falling flags a vehicle left on a
      bot are cleared. Theorem: only at a proved landing of that exit.
    - Access control of the server: [Rbac] ([Accounts/RBAC.cpp], the
      permission part of [AccountMgr.cpp], the session's use of it in
      [WorldSession.cpp], and the three statements of [LoginDatabase.cpp]) and
      [RbacSpec]. Theorems: what an account may do is inheritance over links
      (cycles included) of what is granted less what is denied; the commands
      keep the tables in step with the account; loading follows no dangling
      link.
    - The timers of scripts: [EventMap] ([common/Utilities/EventMap.cpp] and
      [.h]) and [EventMapSpec]. Theorems: the map of packed integers refines a
      timeline of events with an id, a group and a phase, and a script that
      polls it executes what is due, once and in order.
    - The dungeon finder ([DungeonFinding/]). [LfgRoles]
      ([LFGMgr::CheckGroupRoles]; specified in [LfgRolesSpec]) and [LfgQueue]
      ([LFGQueue.cpp]: the queue, its cache of combinations by key, and the
      search for groups; [LfgQueueSpec]) are pure but for what the queue asks
      of the manager, the class [LfgManager]. [LfgTimers] are the wait times
      of a queue. [LfgMgr] is the manager ([LFGMgr.cpp], [LFGPlayerData.cpp],
      [LFGGroupData.cpp]): its stores, role checks, proposals, votes to kick,
      leaving and the update of a tick, which passes itself to the queues as
      their [LfgManager]; [LfgJoin] is [JoinLfg] and the scripts of group
      events ([LFGScripts.cpp]). The state of the model is the record [LFGMgr]
      of stores by guid, with the messages sent. Theorems: the role check
      decides whether roles can be assigned, the search loses nobody and its
      proposals can be played ([LfgQueueSpec]), what a request to join leads
      to ([LfgJoinSpec]), how a role check ([LfgRoleCheckSpec]), a proposal
      ([LfgProposalSpec]) and a vote ([LfgVoteSpec]) end for any answers, and
      the bounds of the averages ([LfgTimers]). [LfgMgrBase] holds what single
      steps leave alone.

    - Packets: [ByteBuffer] ([shared/Packets/ByteBuffer.h], [.cpp]) is the
      buffer, its operations steps of a state monad that fails by an exception,
      a failed [ASSERT] or a step the language leaves undefined ([failure]).
      [BitStream] and [BitReader] describe a buffer being written and read as a
      list of bits and bytes ([writes], [takes]), and prove each operation
      against it.
    - Movement packets: [MovementStructures] (the layouts and the opcodes that
      select them, [Movement/MovementStructures.cpp]), [MovementInfo] (the
      record, with [Position] and the G3D functions it is read with) and
      [MovementPackets] ([Player::ReadMovementInfo] and
      [ValidateMovementInfo] of [Player.cpp], [Unit::WriteMovementInfo] of
      [Unit.cpp], the extra elements, and how each handler of the opcode table
      reads its packet). [MovementView] says what each element of a layout puts
      into a packet and what its reader learns; [MovementReadSpec] and
      [MovementWriteSpec] prove the reader and the writer against it. Theorems:
      what the writer sends, the handler reads, for every client opcode
      ([MovementRoundTrip]); any bytes end in a record or an exception
      ([MovementSafety]); which flags a validated record can have
      ([MovementValidSpec]); many bits at once are bit by bit ([BitStream]).
    - Combat states ([Combat/CombatManager.h], [.cpp]): [CombatManager] is both
      classes over a store of references that may be deleted while something
      still points to them. A unit's AI is told when the unit enters or leaves
      combat and may call anything back, in the middle of the call that told it:
      [run] makes a call with AIs that answer each notice and state with a list
      of calls, and [history] makes many. [CombatLinks] states what a consistent
      world is, [CombatKeeps] that every call keeps it for any AIs, [CombatQuiet]
      and [CombatEnds] what calls do when AIs call nothing back. Theorems
      ([CombatSpec]): the promises of the header in every state that calls can
      lead to; what [SetInCombatWith] answers and changes, what each call that
      ends combats leaves of every pair, that combat between players' units
      times out, that a unit may be destroyed; and concrete call-backs that make
      a call use a deleted reference.

    ** Conventions

    Definitions keep the source's names; a loop is a [Fixpoint] named after its
    function, an output parameter a component of the result, a set or map a
    [gset] or [gmap], read in key order where the source iterates it. A
    [char] is an [ascii], and character classes are those of the C locale. The
    lockout refusals are the type [Checked], whose [Stuck] stands for what the
    source has no value for (an exception, an index out of range, endless
    search); the theorems show it does not happen. Where the source sorts with
    [std::sort], the keys are distinct, so the stable sort of the model is the
    only result.

    ** Fuel

    [ParseMembers] and [ParseItems] take the length of the text left, and
    [ParseValue] the depth the source itself bounds by [MaxDepth]; each round
    consumes a character. [RestRemainingMs] takes its fuel as an argument and
    its theorem gives the amount. [PredecessorClosure] gets one round for each
    edge and each starting predecessor, [HasPredecessorCycle] one level for
    each boss and two more. Each has a theorem that this is enough. [HasTag]
    gets one round for each character and one more, and [HasTag_fields] shows
    it always answers. [AllocateInstanceId] has the bound of the source's own
    loop. [CheckGroupRoles] gets three levels for each player and one more, as
    each level takes a role from a player, the search for groups two for each
    entry of the queue and two more, and [FindGroups] one round for each new
    entry; their theorems show that they answer. [ExpandPermissions] gets one round for each listed permission and
    each link, which [expand_loop_ends] shows is enough. [WriteBits_bytes] gets the
    number of bits it has left, of which each round takes eight
    ([WriteBits_bytes_spec]); [get_string] one round more than the buffer has
    bytes; [pack_guid_from] the eight bytes of an identifier. [run] bounds how
    deep AIs answer each other, which nothing in the source bounds: its fuel is
    universally quantified, and what is proved holds for each.

    ** Parameters

    rapidjson's parser, which [LockoutDefinition] assumes to give numbers in
    the range their accessor has; and [Server] with [ServerLaws], stated in
    [LockoutServer]: each statement changes the rows it names and no other, a
    query reads the row, the memory managers write no rows of their own, and an
    unload of a map that is refused changes nothing (the source refuses before
    it touches the map); writes that the asynchronous connection has queued are
    taken to be done. What AIs do is a parameter of [run]; what units are, the
    record [Facts], which a call may change.
    What the route runtime asks of the world beyond positions (the native path
    length, floor tests, reach tests) is the record [Senses].
    What the dungeon finder asks of the rest of the server is [LfgManager] for
    a queue (with [Sound], what the search relies on), [LfgServer] for the
    manager and [LfgLocks] for those who join; random draws are a list.
    What the validation of movement asks of live units is the record
    [PlayerWorld], what the writer of a movement packet reads of a unit is
    [UnitView]; the theorems hold for all of them.
    The character set conversion of the save data column is a function of the
    model ([Stored]), about which nothing is assumed.

    ** Not modelled

    Live world objects and what acts on them: the population manager's
    updates, class profiles and encounter content, the start and stop of play
    sessions, recording and telemetry; and most of the upstream server (maps,
    entities, spells, scripts, network, database). Of the dungeon finder: the
    tables of dungeons and locks, rewards, teleports, saving, and the forming
    of a group, which is the group manager's. Within the modelled files: the
    rotation of a transport's local box (sine and cosine), the JSON rendering
    of the kernel's traces beyond its escaping, of the spell queue, of the
    route hold and of the seeder's records, and the test whether a spell has a global cooldown.
    Of combat: the threat manager, and what entering and leaving combat does to
    auras and pets; these are notices of the log that call nothing back, only
    AIs do, and an unordered map is iterated in one fixed order of its keys.
    Of packets: packed times, which need the calendar of the host, packed
    positions, and printing; of movement: what the handlers do with a record they
    have read and the senders of server packets, which act on live units.
    Logging has no effect on the models.

    A kernel that resolves under a route hold reads the hold as it was when
    the policy was installed: a candidate's callback that changed the hold
    during the resolution is not modelled, no callback of the source does.

    The combat range and native path checkpoints have the shape of
    [OwnerCheckpoint] over facts that the population manager collects, and are
    left out with it. *)
From Stdlib Require Import ZArith Lia String Ascii.
From Corelib Require Import SpecFloat.
From stdpp Require Import base gmap list strings pretty sorting.

Declare Scope tc_scope.
Delimit Scope tc_scope with tc.
Open Scope Z_scope.

(** ** Machine integers

    A [uintN] of the source is a [Z]; every arithmetic operation whose result
    may leave the type is wrapped explicitly by [uN]. *)

Definition u8 (x : Z) : Z := x mod 2 ^ 8.
Definition u16 (x : Z) : Z := x mod 2 ^ 16.
Definition u32 (x : Z) : Z := x mod 2 ^ 32.
Definition u64 (x : Z) : Z := x mod 2 ^ 64.

Definition u64_max : Z := 2 ^ 64 - 1.
Definition u32_max : Z := 2 ^ 32 - 1.

Notation "a +64 b" := (u64 (a + b)) (at level 50, left associativity) : tc_scope.
Notation "a -64 b" := (u64 (a - b)) (at level 50, left associativity) : tc_scope.
Notation "a +32 b" := (u32 (a + b)) (at level 50, left associativity) : tc_scope.
Notation "a -32 b" := (u32 (a - b)) (at level 50, left associativity) : tc_scope.
Open Scope tc_scope.

Lemma u8_small x : 0 <= x < 2 ^ 8 -> u8 x = x.
Proof. apply Z.mod_small. Qed.

Lemma u16_small x : 0 <= x < 2 ^ 16 -> u16 x = x.
Proof. apply Z.mod_small. Qed.

Lemma u32_small x : 0 <= x < 2 ^ 32 -> u32 x = x.
Proof. apply Z.mod_small. Qed.

Lemma u64_small x : 0 <= x < 2 ^ 64 -> u64 x = x.
Proof. apply Z.mod_small. Qed.

Lemma u8_bound x : 0 <= u8 x < 2 ^ 8.
Proof. apply Z.mod_pos_bound; lia. Qed.

Lemma u32_bound x : 0 <= u32 x < 2 ^ 32.
Proof. apply Z.mod_pos_bound; lia. Qed.

Lemma u64_bound x : 0 <= u64 x < 2 ^ 64.
Proof. apply Z.mod_pos_bound; lia. Qed.

(** [wrap_small] removes every wrap whose argument [lia] shows in range. *)
Ltac wrap_small :=
  repeat match goal with
    | |- context [u64 ?x] => rewrite (u64_small x) by lia
    | |- context [u32 ?x] => rewrite (u32_small x) by lia
    | |- context [u16 ?x] => rewrite (u16_small x) by lia
    | |- context [u8 ?x] => rewrite (u8_small x) by lia
    end.

(** ** Boolean guards *)

(** Turns the boolean guards of the source into propositions. *)
Create HintDb tc_bool.
#[export] Hint Rewrite andb_true_iff andb_false_iff orb_true_iff orb_false_iff
  negb_true_iff negb_false_iff Z.eqb_eq Z.eqb_neq Z.ltb_lt Z.ltb_ge
  Z.leb_le Z.leb_gt String.eqb_eq String.eqb_neq : tc_bool.

Ltac b2p := autorewrite with tc_bool in *.

(** One case split on the guard a [match] or an [if] of the goal inspects. *)
Ltac split_guard :=
  match goal with
  | |- context [if ?b then _ else _] =>
      lazymatch b with
      | context [if _ then _ else _] => fail
      | context [match _ with _ => _ end] => fail
      | _ => let E := fresh "G" in destruct b eqn:E
      end
  | |- context [match ?x with _ => _ end] =>
      lazymatch x with
      | context [if _ then _ else _] => fail
      | context [match _ with _ => _ end] => fail
      | _ => let E := fresh "G" in destruct x eqn:E
      end
  end.

Ltac split_guard_in H :=
  match type of H with
  | context [if ?b then _ else _] =>
      lazymatch b with
      | context [if _ then _ else _] => fail
      | context [match _ with _ => _ end] => fail
      | _ => let E := fresh "G" in destruct b eqn:E
      end
  | context [match ?x with _ => _ end] =>
      lazymatch x with
      | context [if _ then _ else _] => fail
      | context [match _ with _ => _ end] => fail
      | _ => let E := fresh "G" in destruct x eqn:E
      end
  end.

(** C++'s implicit conversion of an integer to [bool]. *)
Definition nz (x : Z) : bool := negb (x =? 0).

Lemma nz_true x : nz x = true <-> x <> 0.
Proof. unfold nz. b2p. done. Qed.

Lemma nz_false x : nz x = false <-> x = 0.
Proof. unfold nz. b2p. done. Qed.

#[export] Hint Rewrite nz_true nz_false : tc_bool.

(** ** Single precision floating point

    [float] of the source is IEEE 754 binary32 with round to nearest even,
    the standard's [spec_float] at precision 24 and exponent bound 128. *)

Definition f32 : Type := spec_float.

Definition f32_zero : f32 := S754_zero false.
Definition f32_add : f32 -> f32 -> f32 := SFadd 24 128.
Definition f32_sub : f32 -> f32 -> f32 := SFsub 24 128.
Definition f32_mul : f32 -> f32 -> f32 := SFmul 24 128.
Definition f32_div : f32 -> f32 -> f32 := SFdiv 24 128.
Definition f32_abs : f32 -> f32 := SFabs.
Definition f32_lt : f32 -> f32 -> bool := SFltb.
Definition f32_le : f32 -> f32 -> bool := SFleb.
Definition f32_eq : f32 -> f32 -> bool := SFeqb.
Definition f32_gt (a b : f32) : bool := f32_lt b a.

(** The [float] nearest to an integer, for literals and conversions. *)
Definition f32_of_Z (z : Z) : f32 := binary_normalize 24 128 z 0 false.

Definition f32_is_nan (x : f32) : bool :=
  match x with S754_nan => true | _ => false end.

Definition f32_is_finite (x : f32) : bool :=
  match x with S754_zero _ | S754_finite _ _ _ => true | _ => false end.

(** A number's place in the order of non-NaN floats: class, exponent and
    significand, compared lexicographically. *)
Definition f32_rank (x : f32) : Z * Z * Z :=
  match x with
  | S754_nan => (0, 0, 0)
  | S754_zero _ => (0, 0, 0)
  | S754_infinity s => (if s then -2 else 2, 0, 0)
  | S754_finite s m e => if s then (-1, - e, Z.neg m) else (1, e, Z.pos m)
  end.

Definition rank_lt (a b : Z * Z * Z) : Prop :=
  let '(a1, a2, a3) := a in
  let '(b1, b2, b3) := b in
  a1 < b1 \/ a1 = b1 /\ (a2 < b2 \/ a2 = b2 /\ a3 < b3).

Lemma SFcompare_rank x y :
  f32_is_nan x = false -> f32_is_nan y = false ->
  match SFcompare x y with
  | Some Lt => rank_lt (f32_rank x) (f32_rank y)
  | Some Eq => f32_rank x = f32_rank y
  | Some Gt => rank_lt (f32_rank y) (f32_rank x)
  | None => False
  end.
Proof.
  intros Hx Hy.
  destruct x as [sx|sx| |sx mx ex]; destruct y as [sy|sy| |sy my ey];
    try discriminate; destruct sx, sy; cbn -[Z.compare]; try lia; try done;
    change (Pos.compare_cont Eq mx my) with (Pos.compare mx my);
    destruct (Z.compare_spec ex ey); cbn; try lia;
    destruct (Pos.compare_spec mx my); cbn; subst; try lia; done.
Qed.

Lemma f32_lt_rank x y :
  f32_is_nan x = false -> f32_is_nan y = false ->
  f32_lt x y = true <-> rank_lt (f32_rank x) (f32_rank y).
Proof.
  intros Hx Hy. pose proof (SFcompare_rank x y Hx Hy) as H.
  unfold f32_lt, SFltb. unfold rank_lt in *.
  destruct (f32_rank x) as [[a1 a2] a3], (f32_rank y) as [[b1 b2] b3].
  destruct (SFcompare x y) as [[]|]; simplify_eq; split; intros; try done; lia.
Qed.

Lemma f32_eq_rank x y :
  f32_is_nan x = false -> f32_is_nan y = false ->
  f32_eq x y = true <-> f32_rank x = f32_rank y.
Proof.
  intros Hx Hy. pose proof (SFcompare_rank x y Hx Hy) as H.
  unfold f32_eq, SFeqb. unfold rank_lt in *.
  destruct (f32_rank x) as [[a1 a2] a3], (f32_rank y) as [[b1 b2] b3].
  destruct (SFcompare x y) as [[]|]; simplify_eq; split; intros; simplify_eq; try done; lia.
Qed.

(** [decide_rank] reduces a goal about [f32_lt] and [f32_eq] of non-NaN floats
    to linear arithmetic over their ranks. *)
Lemma f32_lt_false x y :
  f32_is_nan x = false -> f32_is_nan y = false ->
  f32_lt x y = false <-> ~ rank_lt (f32_rank x) (f32_rank y).
Proof.
  intros Hx Hy. rewrite <- f32_lt_rank by done. by rewrite not_true_iff_false.
Qed.

Lemma f32_eq_false x y :
  f32_is_nan x = false -> f32_is_nan y = false ->
  f32_eq x y = false <-> f32_rank x <> f32_rank y.
Proof.
  intros Hx Hy. rewrite <- f32_eq_rank by done. by rewrite not_true_iff_false.
Qed.

Lemma rank_dec_lt (a b : Z * Z * Z) : rank_lt a b \/ a = b \/ rank_lt b a.
Proof.
  destruct a as [[a1 a2] a3], b as [[b1 b2] b3]; cbn.
  destruct (Z.lt_trichotomy a1 b1) as [|[->|]]; [lia| |lia].
  destruct (Z.lt_trichotomy a2 b2) as [|[->|]]; [lia| |lia].
  destruct (Z.lt_trichotomy a3 b3) as [|[->|]]; [lia|auto|lia].
Qed.

Lemma rank_lt_trans a b c : rank_lt a b -> rank_lt b c -> rank_lt a c.
Proof.
  destruct a as [[a1 a2] a3], b as [[b1 b2] b3], c as [[c1 c2] c3]; cbn; lia.
Qed.

Lemma rank_lt_irrefl a : ~ rank_lt a a.
Proof. destruct a as [[a1 a2] a3]; cbn; lia. Qed.

(** A finite float minus itself is a zero: the binary32 fact behind every
    "same destination" test of the source. *)
Lemma f32_sub_diag x : f32_is_finite x = true -> exists s, f32_sub x x = S754_zero s.
Proof.
  destruct x as [s| | |s m e]; try discriminate; intros _; unfold f32_sub; cbn.
  - destruct s; eauto.
  - rewrite Z.sub_diag. cbn. eauto.
Qed.

(** ** Byte strings *)

(** [operator<] of [std::string]: bytes compared as unsigned values. *)
Definition str_lt (a b : string) : bool := String.ltb a b.

Definition str_empty (s : string) : bool := String.eqb s "".

Lemma str_empty_spec s : str_empty s = true <-> s = ""%string.
Proof. apply String.eqb_eq. Qed.

Lemma ascii_compare_refl a : Ascii.compare a a = Eq.
Proof. apply N.compare_refl. Qed.

Lemma str_lt_irrefl a : str_lt a a = false.
Proof.
  unfold str_lt, String.ltb. induction a as [|x a IH]; cbn; [done|].
  by rewrite ascii_compare_refl.
Qed.

Lemma str_lt_antisym a b : str_lt a b = true -> str_lt b a = false.
Proof.
  unfold str_lt, String.ltb. rewrite (String.compare_antisym b a).
  by destruct (String.compare a b).
Qed.

Lemma str_lt_total a b : a <> b -> str_lt a b = true \/ str_lt b a = true.
Proof.
  unfold str_lt, String.ltb. rewrite (String.compare_antisym b a). intros Hne.
  destruct (String.compare a b) eqn:E; cbn; auto.
  by apply String.compare_eq_iff in E.
Qed.

Lemma ascii_compare_trans a b c :
  Ascii.compare a b = Lt -> Ascii.compare b c = Lt -> Ascii.compare a c = Lt.
Proof. unfold Ascii.compare. rewrite !N.compare_lt_iff. lia. Qed.

Lemma str_compare_trans a b c :
  String.compare a b = Lt -> String.compare b c = Lt -> String.compare a c = Lt.
Proof.
  revert b c. induction a as [|x a IH]; intros [|y b] [|z c]; cbn; try done.
  destruct (Ascii.compare x y) eqn:Exy; try done;
  destruct (Ascii.compare y z) eqn:Eyz; try done; intros H1 H2.
  - apply Ascii.compare_eq_iff in Exy, Eyz. subst.
    rewrite ascii_compare_refl. eauto.
  - apply Ascii.compare_eq_iff in Exy. subst. by rewrite Eyz.
  - apply Ascii.compare_eq_iff in Eyz. subst. by rewrite Exy.
  - by rewrite (ascii_compare_trans _ _ _ Exy Eyz).
Qed.

Lemma str_lt_trans a b c : str_lt a b = true -> str_lt b c = true -> str_lt a c = true.
Proof.
  unfold str_lt, String.ltb.
  destruct (String.compare a b) eqn:E1; try done.
  destruct (String.compare b c) eqn:E2; try done.
  by rewrite (str_compare_trans _ _ _ E1 E2).
Qed.

Lemma app_assoc_str (a b c : string) : ((a ++ b) ++ c)%string = (a ++ b ++ c)%string.
Proof. induction a as [|x a IH]; [done|]. exact (f_equal (String x) IH). Qed.

Lemma app_cons c (a b : string) : (String c a ++ b)%string = String c (a ++ b).
Proof. done. Qed.

Lemma app_empty (a : string) : ("" ++ a)%string = a.
Proof. done. Qed.

Lemma app_nil_str (a : string) : (a ++ "")%string = a.
Proof. induction a as [|x a IH]; [done|]. exact (f_equal (String x) IH). Qed.

(** Strings without a separator, and what a separator joins. *)
Fixpoint avoids (c : ascii) (s : string) : bool :=
  match s with
  | EmptyString => true
  | String a s => negb (Ascii.eqb a c) && avoids c s
  end.

Definition digits_avoid (c : ascii) : bool :=
  forallb (fun n => negb (Ascii.eqb (pretty_N_char n) c)) [0; 1; 2; 3; 4; 5; 6; 7; 8; 9]%N.

Lemma digit_avoids c n : digits_avoid c = true -> (n < 10)%N -> Ascii.eqb (pretty_N_char n) c = false.
Proof.
  intros Hc H. apply negb_true_iff. unfold digits_avoid in Hc. rewrite forallb_forall in Hc. apply Hc.
  assert (Hn : n ∈ [0; 1; 2; 3; 4; 5; 6; 7; 8; 9]%N) by (rewrite !elem_of_cons, elem_of_nil; lia).
  by apply list_elem_of_In.
Qed.

Lemma pretty_N_go_avoids c x s : digits_avoid c = true -> avoids c s = true -> avoids c (pretty_N_go x s) = true.
Proof.
  intros Hc. revert s. induction (N.lt_wf_0 x) as [x _ IH]. intros s Hs.
  assert (x = 0 \/ 0 < x)%N as [->|Hx] by lia; [by rewrite pretty_N_go_0|].
  rewrite pretty_N_go_step by done. apply IH; [apply N.div_lt; lia|].
  cbn [avoids]. rewrite digit_avoids by (done || apply N.mod_lt; lia). done.
Qed.

Lemma pretty_avoids c (x : N) : digits_avoid c = true -> avoids c (pretty x) = true.
Proof.
  intros Hc. unfold pretty, pretty_N. destruct (decide (x = 0)%N); [|by apply pretty_N_go_avoids].
  change (negb (Ascii.eqb (pretty_N_char 0) c) && true = true). by rewrite digit_avoids.
Qed.

Lemma sep_split c a a' b b' : avoids c a = true -> avoids c a' = true ->
  (a ++ String c b)%string = (a' ++ String c b')%string -> a = a' /\ b = b'.
Proof.
  revert a'. induction a as [|x a IH]; intros [|x' a'] Ha Ha'; cbn [String.append avoids] in *.
  - by intros [= ->].
  - intros [= <- _]. by rewrite Ascii.eqb_refl in Ha'.
  - intros [= -> _]. by rewrite Ascii.eqb_refl in Ha.
  - intros [= -> E]. apply andb_true_iff in Ha as [_ Ha]. apply andb_true_iff in Ha' as [_ Ha'].
    by destruct (IH a' Ha Ha' E) as [-> ->].
Qed.

(** ** [std::stable_sort] *)

Section StableSort.
Context {A : Type} (lt : A -> A -> bool).

Fixpoint sort_insert (x : A) (l : list A) : list A :=
  match l with
  | [] => [x]
  | y :: l' => if lt y x then y :: sort_insert x l' else x :: l
  end.

Definition stable_sort (l : list A) : list A := foldr sort_insert [] l.

Lemma sort_insert_perm x l : sort_insert x l ≡ₚ x :: l.
Proof.
  induction l as [|y l IH]; cbn; [done|]. destruct (lt y x); [|done].
  rewrite IH. by rewrite Permutation_swap.
Qed.

Lemma stable_sort_perm l : stable_sort l ≡ₚ l.
Proof.
  induction l as [|x l IH]; cbn; [done|]. by rewrite sort_insert_perm, IH.
Qed.

(** Inserting keeps, and the sort makes, the order of every preorder the
    comparison refines. *)
Lemma sort_insert_sorted (R : A -> A -> Prop) x l :
  Transitive R ->
  (forall y, lt y x = true -> R y x) ->
  (forall y, lt y x = false -> R x y) ->
  StronglySorted R l -> StronglySorted R (sort_insert x l).
Proof.
  intros HR Ht Hf. induction 1 as [|y l Hl IH Hy]; cbn; [by repeat constructor|].
  destruct (lt y x) eqn:E.
  - constructor; [done|]. rewrite sort_insert_perm. constructor; auto.
  - constructor; [by constructor|]. constructor; [auto|].
    eapply Forall_impl; [exact Hy|]. intros z Hz. eapply HR; eauto.
Qed.

Lemma stable_sort_sorted (R : A -> A -> Prop) l :
  Transitive R ->
  (forall x y, lt y x = true -> R y x) ->
  (forall x y, lt y x = false -> R x y) ->
  StronglySorted R (stable_sort l).
Proof.
  intros HR Ht Hf. induction l as [|x l IH]; cbn; [constructor|].
  apply sort_insert_sorted; auto.
Qed.

(** Inserting two comparable elements commutes, so a list whose elements are
    pairwise comparable sorts to one result whatever its order. *)
Context (P : A -> Prop).
Hypothesis lt_asym : forall x y, P x -> P y -> lt x y = true -> lt y x = false.
Hypothesis lt_trans : forall x y z, P x -> P y -> P z ->
  lt x y = true -> lt y z = true -> lt x z = true.

Lemma sort_insert_comm x y l :
  P x -> P y -> Forall P l -> lt x y = true \/ lt y x = true ->
  sort_insert x (sort_insert y l) = sort_insert y (sort_insert x l).
Proof.
  intros Hx Hy Hl Hc'.
  assert (Hc : lt x y = true /\ lt y x = false \/ lt y x = true /\ lt x y = false)
    by (destruct Hc'; auto).
  clear Hc'. induction Hl as [|z l Hz Hl IH]; cbn.
  - destruct Hc as [[H H']|[H H']]; rewrite H, H'; done.
  - destruct (lt z x) eqn:Ex, (lt z y) eqn:Ey; cbn; rewrite ?Ex, ?Ey.
    + by rewrite IH.
    + assert (Hyx : lt y x = true).
      { destruct Hc as [[H _]|[H _]]; [|done].
        rewrite (lt_trans z x y) in Ey; done. }
      by rewrite Hyx.
    + assert (Hxy : lt x y = true).
      { destruct Hc as [[H _]|[H _]]; [done|].
        rewrite (lt_trans z y x) in Ex; done. }
      by rewrite Hxy.
    + destruct Hc as [[H H']|[H H']]; rewrite H, H'; done.
Qed.

Lemma stable_sort_perm_eq l1 l2 :
  l1 ≡ₚ l2 -> Forall P l1 ->
  (forall x y, x ∈ l1 -> y ∈ l1 -> x = y \/ lt x y = true \/ lt y x = true) ->
  stable_sort l1 = stable_sort l2.
Proof.
  induction 1 as [|x l l' Hp IH|x y l|l l' l'' Hp1 IH1 Hp2 IH2]; cbn; intros HP Hc.
  - done.
  - inversion_clear HP. f_equal. apply IH; [done|]. set_solver.
  - inversion_clear HP as [|? ? Hx Hl]. inversion_clear Hl as [|? ? Hy Hl'].
    destruct (Hc y x) as [->|Hc']; [set_solver..|done|].
    apply sort_insert_comm; try done. by rewrite stable_sort_perm.
  - rewrite IH1; [apply IH2| |]; [|intros u v|done..].
    + by rewrite <- Hp1.
    + rewrite <- !Hp1. auto.
Qed.
End StableSort.

Lemma sort_insert_map {A B} (f : A -> B) lt lt' x (l : list A) :
  Forall (fun y => lt y x = lt' (f y) (f x)) l ->
  f <$> sort_insert lt x l = sort_insert lt' (f x) (f <$> l).
Proof.
  induction 1 as [|y l Hy Hl IH]; cbn; [done|]. rewrite <- Hy.
  destruct (lt y x); cbn; [|done]. by rewrite IH.
Qed.

Lemma stable_sort_map {A B} (f : A -> B) lt lt' (l : list A) :
  ForallOrdPairs (fun x y => lt y x = lt' (f y) (f x)) l ->
  f <$> stable_sort lt l = stable_sort lt' (f <$> l).
Proof.
  induction 1 as [|x l Hx Hl IH]; cbn; [done|].
  etrans; [apply (sort_insert_map f lt lt')|by f_equal].
  by rewrite (stable_sort_perm lt l).
Qed.

(** ** Lists *)

Lemma FOP_snoc {A} (R : A -> A -> Prop) l x :
  ForallOrdPairs R l -> Forall (fun y => R y x) l -> ForallOrdPairs R (l ++ [x]).
Proof.
  induction 1 as [|y l Hy Hl IH]; cbn; intros Hx; inversion_clear Hx; repeat constructor.
  - apply Forall_app. auto.
  - auto.
Qed.

(** A mask that meets no bit of a union meets no bit of its parts. *)
Lemma land_foldl_lor a b masks :
  Z.land a (foldl Z.lor b masks) = 0 <->
  Z.land a b = 0 /\ Forall (fun m => Z.land a m = 0) masks.
Proof.
  revert b. induction masks as [|m masks IH]; intros b; cbn.
  - split; [auto|tauto].
  - rewrite IH, Z.land_lor_distr_r, Forall_cons. split.
    + intros [H1 H2]. by apply Z.lor_eq_0_iff in H1 as [? ?].
    + intros (H1 & H2 & H3). by rewrite H1, H2.
Qed.

(** ** Lexicographic orders

    The comparison functions of the source compare field by field; each is a
    lexicographic product of strict orders, and inherits their laws. *)

Definition lex {A B} (RA : relation A) (RB : relation B) : relation (A * B) :=
  fun x y => RA x.1 y.1 \/ x.1 = y.1 /\ RB x.2 y.2.

(** Two elements are always equal or ordered. *)
Class TotalCases {A} (R : relation A) : Prop :=
  total_cases : forall x y, R x y \/ x = y \/ R y x.

#[export] Instance lex_strict {A B} (RA : relation A) (RB : relation B) :
  StrictOrder RA -> StrictOrder RB -> StrictOrder (lex RA RB).
Proof.
  intros [IA TA] [IB TB]. split.
  - intros [a b] [H|[_ H]]; [by eapply IA|by eapply IB].
  - intros [a b] [a' b'] [a'' b'']; unfold lex; cbn.
    intros [H|[-> H]] [H'|[-> H']]; eauto.
Qed.

#[export] Instance lex_total {A B} (RA : relation A) (RB : relation B) :
  TotalCases RA -> TotalCases RB -> TotalCases (lex RA RB).
Proof.
  intros TA TB [a b] [a' b']; unfold lex; cbn.
  destruct (TA a a') as [|[->|]]; [tauto| |tauto].
  destruct (TB b b') as [|[->|]]; tauto.
Qed.

Lemma flip_total {A} (R : relation A) : TotalCases R -> TotalCases (flip R).
Proof. intros T x y. destruct (T x y) as [|[|]]; unfold flip; auto. Qed.

#[export] Instance Z_lt_total : TotalCases Z.lt.
Proof. intros x y. lia. Qed.

#[export] Instance rank_lt_strict : StrictOrder rank_lt.
Proof.
  split; [intros x; apply rank_lt_irrefl|intros x y z; apply rank_lt_trans].
Qed.

#[export] Instance rank_lt_total : TotalCases rank_lt.
Proof. exact rank_dec_lt. Qed.

(** Descending fields. *)
#[export] Instance Z_gt_total : TotalCases (flip Z.lt).
Proof. apply flip_total, _. Qed.

#[export] Instance rank_gt_total : TotalCases (flip rank_lt).
Proof. apply flip_total, _. Qed.

#[export] Instance str_lt_strict : StrictOrder (fun a b => str_lt a b = true).
Proof.
  split.
  - intros a. unfold complement. by rewrite str_lt_irrefl.
  - intros a b c. apply str_lt_trans.
Qed.

#[export] Instance str_lt_total' : TotalCases (fun a b => str_lt a b = true).
Proof.
  intros a b. destruct (String.eqb_spec a b) as [->|H]; [auto|].
  destruct (str_lt_total a b H); auto.
Qed.

(** ** Sorted lists *)

Lemma sorted_prefix {A} (R : relation A) l l' :
  l `prefix_of` l' -> StronglySorted R l' -> StronglySorted R l.
Proof.
  intros [m ->]. induction l as [|x l IH]; cbn; [constructor|].
  inversion_clear 1 as [|? ? Hs Hx]. apply Forall_app in Hx as [Hx _].
  constructor; auto.
Qed.

Lemma sorted_fmap {A B} (f : A -> B) (R : relation B) l :
  StronglySorted (fun x y => R (f x) (f y)) l -> StronglySorted R (f <$> l).
Proof.
  induction 1 as [|x l Hs IH Hx]; cbn; constructor; [done|]. by apply Forall_fmap.
Qed.

(** Two lists related element by element by a relation that carries one order
    to the other are sorted together. *)
Lemma sorted_Forall2 {A B} (R : relation A) (S : relation B) l m :
  StronglySorted R l ->
  forall (T : A -> B -> Prop),
  (forall x y x' y', T x x' -> T y y' -> R x y -> S x' y') ->
  Forall2 T l m -> StronglySorted S m.
Proof.
  intros Hs T HT Hm. revert Hs. induction Hm as [|x x' l m Hx Hm IH]; [constructor|].
  inversion_clear 1 as [|? ? Hl Hall]. constructor; [auto|].
  clear IH Hl. induction Hm as [|y y' l m Hy Hm IH]; constructor;
    inversion_clear Hall; eauto.
Qed.

Lemma NoDup_fmap_elem {A B} (f : A -> B) l x y :
  NoDup (f <$> l) -> x ∈ l -> y ∈ l -> f x = f y -> x = y.
Proof.
  induction l as [|z l IH]; cbn; [set_solver|].
  intros [Hz Hn]%NoDup_cons. rewrite !elem_of_cons.
  intros [->|Hx] [->|Hy] E; [done| | |by apply IH].
  - exfalso. apply Hz. rewrite E. by apply list_elem_of_fmap_2.
  - exfalso. apply Hz. rewrite <- E. by apply list_elem_of_fmap_2.
Qed.

(** ** [existsb] *)

Lemma existsb_elem {A} (p : A -> bool) l :
  existsb p l = true <-> exists x, x ∈ l /\ p x = true.
Proof. rewrite existsb_exists. by setoid_rewrite <- list_elem_of_In. Qed.

Lemma existsb_none {A} (p : A -> bool) l :
  existsb p l = false <-> Forall (fun x => p x = false) l.
Proof.
  rewrite <- not_true_iff_false, existsb_elem, Forall_forall. split.
  - intros H x Hx. apply not_true_iff_false. intros Hp. apply H. by exists x.
  - intros H (x & Hx & Hp). by rewrite (H x Hx) in Hp.
Qed.

Lemma elem_of_rev {A} (l : list A) x : x ∈ rev l <-> x ∈ l.
Proof. by rewrite !list_elem_of_In, <- in_rev. Qed.

(** ** [List.filter] *)

Lemma filter_id {A} (P : A -> bool) l : Forall (fun x => P x = true) l -> List.filter P l = l.
Proof. induction 1 as [|x l Hx Hl IH]; cbn; [done|]. by rewrite Hx, IH. Qed.

Lemma filter_ext_Forall {A} (P Q : A -> bool) l :
  Forall (fun x => P x = Q x) l -> List.filter P l = List.filter Q l.
Proof. induction 1 as [|x l Hx Hl IH]; cbn; [done|]. by rewrite Hx, IH. Qed.

Lemma filter_submseteq {A} (P : A -> bool) l : List.filter P l ⊆+ l.
Proof.
  induction l as [|x l IH]; cbn; [done|].
  destruct (P x); [by constructor|by apply submseteq_cons].
Qed.

Lemma filter_none {A} (P : A -> bool) l : Forall (fun x => P x = false) l -> List.filter P l = [].
Proof. induction 1 as [|x l Hx Hl IH]; cbn; [done|]. by rewrite Hx. Qed.

Lemma filter_le {A} (P : A -> bool) l : (length (List.filter P l) <= length l)%nat.
Proof. apply submseteq_length, filter_submseteq. Qed.

Lemma filter_Forall {A} (P : A -> Prop) f l : Forall P l -> Forall P (List.filter f l).
Proof. induction 1; cbn; [constructor|]. destruct (f x); auto. Qed.

Lemma filter_sorted {A} (R : relation A) f l : StronglySorted R l -> StronglySorted R (List.filter f l).
Proof.
  induction 1 as [|x l Hl IH Hx]; cbn; [constructor|]. destruct (f x); [|done].
  constructor; [done|]. by apply filter_Forall.
Qed.

(** Filtering the images is filtering the elements by what the test says of
    their images. *)
Lemma filter_fmap {A B} (h : A -> B) f g l :
  Forall (fun x => f (h x) = g x) l -> List.filter f (h <$> l) = h <$> List.filter g l.
Proof. induction 1 as [|x l Hx Hl IH]; cbn; [done|]. rewrite Hx, IH. by destruct (g x). Qed.

(** [empty()] of a container. *)
Definition list_is_empty {A} (l : list A) : bool :=
  match l with [] => true | _ => false end.
