(* ===== verification/ActionArbiter.v ===== *)
(** The bots' decision kernel: [Bots/BotActionArbiter.h].

    Producers submit candidate actions for one decision tick; [Resolve] sorts
    them, applies the hard masks, and attempts them in order while their
    resource lanes are free, keeping a retry lifecycle per action key. *)
From S2P Require Import Prelude.
From Stdlib Require Import ZArith Lia String Ascii.
From stdpp Require Import base gmap list strings sorting.

Open Scope Z_scope.
Open Scope tc_scope.

(** ** Enumerations *)

Inductive Priority : Type :=
| Priority_Idle | Priority_RouteMovement | Priority_CombatMovement
| Priority_TrainedDamage | Priority_ThreatControl | Priority_Support
| Priority_Interrupt | Priority_Mechanic | Priority_Survival | Priority_Terminal.

(** [uint8(priority)]. *)
Definition Priority_value (p : Priority) : Z :=
  match p with
  | Priority_Idle => 0
  | Priority_RouteMovement => 20
  | Priority_CombatMovement => 40
  | Priority_TrainedDamage => 60
  | Priority_ThreatControl => 80
  | Priority_Support => 100
  | Priority_Interrupt => 120
  | Priority_Mechanic => 140
  | Priority_Survival => 160
  | Priority_Terminal => 180
  end.

Inductive Disposition : Type :=
| Disposition_NotApplicable | Disposition_Retryable | Disposition_Unsafe
| Disposition_Committed | Disposition_Terminal.

Inductive Phase : Type :=
| Phase_Proposed | Phase_Deferred | Phase_Selected | Phase_Submitted
| Phase_Started | Phase_Progressed | Phase_Completed | Phase_Failed
| Phase_Terminal.

#[export] Instance Priority_eq_dec : EqDecision Priority.
Proof. solve_decision. Defined.
#[export] Instance Disposition_eq_dec : EqDecision Disposition.
Proof. solve_decision. Defined.
#[export] Instance Phase_eq_dec : EqDecision Phase.
Proof. solve_decision. Defined.

(** ** Outcomes of an attempt *)

Record Outcome : Type := mkOutcome {
  oc_Result : Disposition;
  oc_Reason : string;
  oc_LifecyclePhase : Phase;
  oc_RetryAtMs : Z
}.

Definition Outcome_NotApplicable (reason : string) : Outcome :=
  mkOutcome Disposition_NotApplicable reason Phase_Deferred 0.
Definition Outcome_Retryable (reason : string) : Outcome :=
  mkOutcome Disposition_Retryable reason Phase_Failed 0.
Definition Outcome_WaitUntil (reason : string) (readyAtMs : Z) : Outcome :=
  mkOutcome Disposition_Retryable reason Phase_Deferred readyAtMs.
Definition Outcome_Unsafe (reason : string) : Outcome :=
  mkOutcome Disposition_Unsafe reason Phase_Failed 0.
Definition Outcome_Committed (reason : string) : Outcome :=
  mkOutcome Disposition_Committed reason Phase_Completed 0.
Definition Outcome_Submitted (reason : string) : Outcome :=
  mkOutcome Disposition_Committed reason Phase_Submitted 0.
Definition Outcome_Selected (reason : string) : Outcome :=
  mkOutcome Disposition_NotApplicable reason Phase_Selected 0.
Definition Outcome_Started (reason : string) : Outcome :=
  mkOutcome Disposition_Committed reason Phase_Started 0.
Definition Outcome_Progressed (reason : string) : Outcome :=
  mkOutcome Disposition_Committed reason Phase_Progressed 0.
Definition Outcome_Terminal (reason : string) : Outcome :=
  mkOutcome Disposition_Terminal reason Phase_Terminal 0.

(** [BotActionResult] of [Bots/BotTypes.h]. *)
Inductive BotActionResult : Type :=
| BAR_Ok | BAR_Disabled | BAR_NoOwner | BAR_NoBot | BAR_InvalidTarget
| BAR_NotFriendly | BAR_DeadTarget | BAR_OutOfRange | BAR_NoLineOfSight
| BAR_Casting | BAR_GlobalCooldown | BAR_Cooldown | BAR_NoMana | BAR_BadSpell
| BAR_CastFailed | BAR_Throttled | BAR_NoAction.

Definition FromBotActionResult (result : BotActionResult) : Outcome :=
  match result with
  | BAR_Ok => Outcome_Submitted "native_action_submitted"
  | BAR_Casting => Outcome_Started "casting"
  | BAR_GlobalCooldown => Outcome_Retryable "global_cooldown"
  | BAR_NoOwner => Outcome_Retryable "owner_unavailable"
  | BAR_NoBot => Outcome_Terminal "bot_unavailable"
  | BAR_InvalidTarget => Outcome_Retryable "invalid_target"
  | BAR_NotFriendly => Outcome_Retryable "target_not_friendly"
  | BAR_DeadTarget => Outcome_Retryable "target_dead"
  | BAR_OutOfRange => Outcome_Retryable "out_of_range"
  | BAR_NoLineOfSight => Outcome_Retryable "no_line_of_sight"
  | BAR_Cooldown => Outcome_Retryable "cooldown"
  | BAR_NoMana => Outcome_Retryable "no_power"
  | BAR_BadSpell => Outcome_Retryable "spell_unavailable"
  | BAR_CastFailed => Outcome_Retryable "cast_failed"
  | BAR_Throttled => Outcome_Retryable "throttled"
  | BAR_Disabled => Outcome_NotApplicable "disabled"
  | BAR_NoAction => Outcome_NotApplicable "no_action"
  end.

(** ** Resource lanes *)

Inductive Resource : Type :=
| Resource_None | Resource_GlobalCooldown | Resource_Cast | Resource_Movement
| Resource_Target | Resource_Interaction | Resource_Pet
| Resource_AutoAttackToggle.

Definition Resource_mask (r : Resource) : Z :=
  match r with
  | Resource_None => 0
  | Resource_GlobalCooldown => Z.shiftl 1 0
  | Resource_Cast => Z.shiftl 1 1
  | Resource_Movement => Z.shiftl 1 2
  | Resource_Target => Z.shiftl 1 3
  | Resource_Interaction => Z.shiftl 1 4
  | Resource_Pet => Z.shiftl 1 5
  | Resource_AutoAttackToggle => Z.shiftl 1 6
  end.

Inductive AdmissionClass : Type :=
| AdmissionClass_Unknown | AdmissionClass_FormationMovement
| AdmissionClass_FriendlyHealing | AdmissionClass_BagConsumable
| AdmissionClass_OffenseSuppression | AdmissionClass_DefensiveSurvival
| AdmissionClass_ControllerCheckpointObservation.

(** [ResourceMask] is [uint16]. *)
Fixpoint Uses (first : Resource) (rest : list Resource) : Z :=
  match rest with
  | [] => Resource_mask first
  | r :: rest' => u16 (Z.lor (Resource_mask first) (Uses r rest'))
  end.

Definition Conflicts (left right : Z) : bool := nz (Z.land left right).

(** ** Lifecycles, traces and resolutions *)

Record AdmissionMetadata : Type := mkAdmissionMetadata {
  am_Classification : AdmissionClass;
  am_ScopeKey : string
}.

Record Lifecycle : Type := mkLifecycle {
  lc_CurrentPhase : Phase;
  lc_LastDisposition : Disposition;
  lc_LastReason : string;
  lc_FirstFailureAtMs : Z;
  lc_LastAttemptAtMs : Z;
  lc_LastProgressAtMs : Z;
  lc_RetryAfterMs : Z;
  lc_AttemptCount : Z;
  lc_ConsecutiveFailures : Z;
  lc_EscalateAfter : Z
}.

(** A [Lifecycle] as [operator[]] default-constructs it. *)
Definition Lifecycle_default : Lifecycle :=
  mkLifecycle Phase_Proposed Disposition_NotApplicable "not_attempted"
    0 0 0 0 0 0 5.

Record CandidateTrace : Type := mkCandidateTrace {
  ct_Key : string;
  ct_Source : string;
  ct_Status : string;
  ct_Reason : string;
  ct_ActionPriority : Priority;
  ct_Score : f32;
  ct_RequiredResources : Z;
  ct_LifecyclePhase : Phase
}.

Record Resolution : Type := mkResolution {
  rs_AnyCommitted : bool;
  rs_Terminal : bool;
  rs_ClaimedResources : Z;
  rs_CommittedCandidates : list string;
  rs_Trace : list CandidateTrace
}.

Definition Resolution_default : Resolution := mkResolution false false 0 [] [].

Definition Disposition_ToString (d : Disposition) : string :=
  match d with
  | Disposition_NotApplicable => "not_applicable"
  | Disposition_Retryable => "retryable"
  | Disposition_Unsafe => "unsafe"
  | Disposition_Committed => "committed"
  | Disposition_Terminal => "terminal"
  end.

Definition Phase_ToString (p : Phase) : string :=
  match p with
  | Phase_Proposed => "proposed"
  | Phase_Deferred => "deferred"
  | Phase_Selected => "selected"
  | Phase_Submitted => "submitted"
  | Phase_Started => "started"
  | Phase_Progressed => "progressed"
  | Phase_Completed => "completed"
  | Phase_Failed => "failed"
  | Phase_Terminal => "terminal"
  end.

(** ** Observing an outcome

    The lifecycle part of [Kernel::Observe]: what one outcome does to the
    lifecycle of its own key. *)
Definition ObserveLifecycle (lifecycle : Lifecycle) (outcome : Outcome)
    (nowMs retryBaseMs retryMaxMs escalateAfter : Z) : Lifecycle :=
  let attempted failures firstFailure retryAfter progress :=
    mkLifecycle (oc_LifecyclePhase outcome) (oc_Result outcome)
      (oc_Reason outcome) firstFailure nowMs progress retryAfter
      (lc_AttemptCount lifecycle) failures escalateAfter in
  match oc_Result outcome with
  | Disposition_Committed =>
      attempted 0 0 0
        (match oc_LifecyclePhase outcome with
         | Phase_Progressed | Phase_Completed => nowMs
         | _ => lc_LastProgressAtMs lifecycle
         end)
  | Disposition_NotApplicable => attempted 0 0 0 (lc_LastProgressAtMs lifecycle)
  | _ =>
      if bool_decide (oc_Result outcome = Disposition_Retryable)
         && nz (oc_RetryAtMs outcome)
      then
        attempted (lc_ConsecutiveFailures lifecycle)
          (lc_FirstFailureAtMs lifecycle)
          (Z.min (Z.max (oc_RetryAtMs outcome) nowMs) (nowMs +64 retryMaxMs))
          (lc_LastProgressAtMs lifecycle)
      else
        let firstFailure :=
          if nz (lc_ConsecutiveFailures lifecycle)
          then lc_FirstFailureAtMs lifecycle else nowMs in
        let failures := lc_ConsecutiveFailures lifecycle +32 1 in
        let shift := Z.min (failures -32 1) 8 in
        let delay := u64 (Z.shiftl retryBaseMs shift) in
        attempted failures firstFailure (nowMs +64 Z.min retryMaxMs delay)
          (lc_LastProgressAtMs lifecycle)
  end.

(** ** The kernel *)

Section Kernel.
(** The world the candidates' callbacks read and change. *)
Context {W : Type}.

(** The kernel calls a callback of the source makes on the kernel that runs
    it: route completion resets the history, combat execution observes other
    keys. *)
Inductive KernelCall : Type :=
| Call_ResetLifecycleHistory (nowMs : Z)
| Call_Observe (key : string) (outcome : Outcome)
    (nowMs retryBaseMs retryMaxMs escalateAfter : Z).

Record AttemptResult : Type := mkAttemptResult {
  ar_Outcome : Outcome;
  ar_World : W;
  ar_Calls : list KernelCall
}.

(** [Attempt] is a [std::function], empty or callable; it may read the
    lifecycles ([ShouldEscalate], [FindLifecycle]). *)
Record Candidate : Type := mkCandidate {
  cd_Key : string;
  cd_Source : string;
  cd_ActionPriority : Priority;
  cd_UtilityScore : f32;
  cd_PolicyScore : f32;
  cd_PolicyWeight : f32;
  cd_RequiredResources : Z;
  cd_ExpiresAtMs : Z;
  cd_RetryBaseMs : Z;
  cd_RetryMaxMs : Z;
  cd_EscalateAfter : Z;
  cd_Allowed : bool;
  cd_RejectReason : string;
  cd_Attempt : option (gmap string Lifecycle -> W -> AttemptResult)
}.

Definition Score (c : Candidate) : f32 :=
  f32_add (cd_UtilityScore c) (f32_mul (cd_PolicyScore c) (cd_PolicyWeight c)).

Record QueuedCandidate : Type := mkQueuedCandidate {
  qc_Value : Candidate;
  qc_Serial : Z
}.

Definition AdmissionPolicy : Type :=
  Candidate -> option AdmissionMetadata -> string.

Record Kernel : Type := mkKernel {
  _nowMs : Z;
  _nextSerial : Z;
  _candidates : list QueuedCandidate;
  _admissionMetadata : gmap string AdmissionMetadata;
  _lifecycles : gmap string Lifecycle;
  _lastResolution : Resolution;
  _admissionPolicy : option AdmissionPolicy
}.

Definition Kernel_default : Kernel :=
  mkKernel 0 0 [] ∅ ∅ Resolution_default None.

Definition set_candidates (k : Kernel) (cs : list QueuedCandidate) : Kernel :=
  mkKernel (_nowMs k) (_nextSerial k) cs (_admissionMetadata k)
    (_lifecycles k) (_lastResolution k) (_admissionPolicy k).
Definition set_lifecycles (k : Kernel) (m : gmap string Lifecycle) : Kernel :=
  mkKernel (_nowMs k) (_nextSerial k) (_candidates k) (_admissionMetadata k)
    m (_lastResolution k) (_admissionPolicy k).
Definition set_resolution (k : Kernel) (r : Resolution) : Kernel :=
  mkKernel (_nowMs k) (_nextSerial k) (_candidates k) (_admissionMetadata k)
    (_lifecycles k) r (_admissionPolicy k).

Definition Begin (k : Kernel) (nowMs : Z) : Kernel :=
  mkKernel nowMs 0 [] ∅ (_lifecycles k) Resolution_default None.

Definition ResetLifecycleHistory (k : Kernel) (nowMs : Z) : Kernel :=
  mkKernel nowMs (_nextSerial k) (_candidates k) (_admissionMetadata k)
    ∅ (_lastResolution k) (_admissionPolicy k).

Definition SetAdmissionPolicy (k : Kernel) (policy : option AdmissionPolicy)
    : Kernel :=
  mkKernel (_nowMs k) (_nextSerial k) (_candidates k) (_admissionMetadata k)
    (_lifecycles k) (_lastResolution k) policy.

Definition SetCandidateAdmission (k : Kernel) (key : string)
    (classification : AdmissionClass) (scopeKey : string) : Kernel :=
  mkKernel (_nowMs k) (_nextSerial k) (_candidates k)
    (<[key := mkAdmissionMetadata classification scopeKey]> (_admissionMetadata k))
    (_lifecycles k) (_lastResolution k) (_admissionPolicy k).

Definition Better (left right : QueuedCandidate) : bool :=
  let l := qc_Value left in
  let r := qc_Value right in
  if negb (Priority_value (cd_ActionPriority l)
           =? Priority_value (cd_ActionPriority r))
  then Priority_value (cd_ActionPriority r) <? Priority_value (cd_ActionPriority l)
  else if negb (f32_eq (Score l) (Score r)) then f32_gt (Score l) (Score r)
  else if negb (String.eqb (cd_Source l) (cd_Source r))
  then str_lt (cd_Source l) (cd_Source r)
  else if negb (String.eqb (cd_Key l) (cd_Key r))
  then str_lt (cd_Key l) (cd_Key r)
  else qc_Serial left <? qc_Serial right.

(** The loop of [Submit] over the queue: replace the entry with the same key
    when the new one is better, keeping its serial; [None] when there is no
    such entry. *)
Fixpoint SubmitReplace (queued : QueuedCandidate) (cs : list QueuedCandidate)
    : option (list QueuedCandidate) :=
  match cs with
  | [] => None
  | existing :: cs' =>
      if String.eqb (cd_Key (qc_Value existing)) (cd_Key (qc_Value queued))
      then Some ((if Better queued existing
                  then mkQueuedCandidate (qc_Value queued) (qc_Serial existing)
                  else existing) :: cs')
      else option_map (cons existing) (SubmitReplace queued cs')
  end.

Definition Submit (k : Kernel) (candidate : Candidate) : bool * Kernel :=
  if str_empty (cd_Key candidate) then (false, k)
  else match cd_Attempt candidate with
  | None => (false, k)
  | Some _ =>
      let queued := mkQueuedCandidate candidate (_nextSerial k) in
      let cs := match SubmitReplace queued (_candidates k) with
                | None => _candidates k ++ [queued]
                | Some cs => cs
                end in
      (true, mkKernel (_nowMs k) (_nextSerial k +64 1) cs
               (_admissionMetadata k) (_lifecycles k) (_lastResolution k)
               (_admissionPolicy k))
  end.

Definition Observe (k : Kernel) (key : string) (outcome : Outcome)
    (nowMs retryBaseMs retryMaxMs escalateAfter : Z) : Kernel :=
  let lifecycle := default Lifecycle_default (_lifecycles k !! key) in
  set_lifecycles k
    (<[key := ObserveLifecycle lifecycle outcome nowMs retryBaseMs
                retryMaxMs escalateAfter]> (_lifecycles k)).

Definition MarkProgress (k : Kernel) (key : string) (nowMs : Z)
    (reason : string) : Kernel :=
  Observe k key (Outcome_Progressed reason) nowMs 100 3000 5.

Definition ShouldEscalate (k : Kernel) (key : string)
    (nowMs minimumFailureDurationMs : Z) : bool :=
  match _lifecycles k !! key with
  | None => false
  | Some lifecycle =>
      (lc_EscalateAfter lifecycle <=? lc_ConsecutiveFailures lifecycle)
      && nz (lc_FirstFailureAtMs lifecycle)
      && (lc_FirstFailureAtMs lifecycle +64 minimumFailureDurationMs <=? nowMs)
  end.

Definition FindLifecycle (k : Kernel) (key : string) : option Lifecycle :=
  _lifecycles k !! key.

Definition Trace (k : Kernel) (candidate : Candidate) (status reason : string)
    (phase : Phase) : Kernel :=
  let r := _lastResolution k in
  set_resolution k
    (mkResolution (rs_AnyCommitted r) (rs_Terminal r) (rs_ClaimedResources r)
       (rs_CommittedCandidates r)
       (rs_Trace r ++
        [mkCandidateTrace (cd_Key candidate) (cd_Source candidate) status reason
           (cd_ActionPriority candidate) (Score candidate)
           (cd_RequiredResources candidate) phase])).

Definition RunCall (k : Kernel) (c : KernelCall) : Kernel :=
  match c with
  | Call_ResetLifecycleHistory now => ResetLifecycleHistory k now
  | Call_Observe key outcome now base max esc =>
      Observe k key outcome now base max esc
  end.

(** First lines of the loop body: the lifecycle reference, created on
    demand, is re-armed for this tick. *)
Definition Propose (k : Kernel) (candidate : Candidate) : Kernel :=
  let l := default Lifecycle_default (_lifecycles k !! cd_Key candidate) in
  set_lifecycles k
    (<[cd_Key candidate :=
        mkLifecycle Phase_Proposed (lc_LastDisposition l) (lc_LastReason l)
          (lc_FirstFailureAtMs l) (lc_LastAttemptAtMs l)
          (lc_LastProgressAtMs l) (lc_RetryAfterMs l) (lc_AttemptCount l)
          (lc_ConsecutiveFailures l) (cd_EscalateAfter candidate)]>
      (_lifecycles k)).

(** The masks of the loop body in their order: the status and reason of the
    trace row that makes [Resolve] continue, or [None] to attempt. *)
Definition MaskReason (k : Kernel) (candidate : Candidate)
    : option (string * string) :=
  let lifecycle :=
    default Lifecycle_default (_lifecycles k !! cd_Key candidate) in
  let policyReason :=
    match _admissionPolicy k with
    | None => ""%string
    | Some policy => policy candidate (_admissionMetadata k !! cd_Key candidate)
    end in
  if negb (str_empty policyReason) then Some ("hard_masked"%string, policyReason)
  else if negb (cd_Allowed candidate) then
    Some ("hard_masked"%string,
          if str_empty (cd_RejectReason candidate)
          then "hard_safety_mask"%string else cd_RejectReason candidate)
  else if nz (cd_ExpiresAtMs candidate) && (cd_ExpiresAtMs candidate <=? _nowMs k)
  then Some ("expired"%string, "candidate_expired"%string)
  else if _nowMs k <? lc_RetryAfterMs lifecycle
  then Some ("backoff"%string, lc_LastReason lifecycle)
  else if Conflicts (cd_RequiredResources candidate)
            (rs_ClaimedResources (_lastResolution k))
  then Some ("resource_conflict"%string, "resource_lane_owned"%string)
  else None.

(** The selected phase, the attempt count and the attempt time, written
    before the callback runs. *)
Definition Select (k : Kernel) (candidate : Candidate) : Kernel :=
  let l := default Lifecycle_default (_lifecycles k !! cd_Key candidate) in
  set_lifecycles k
    (<[cd_Key candidate :=
        mkLifecycle Phase_Selected (lc_LastDisposition l) (lc_LastReason l)
          (lc_FirstFailureAtMs l) (_nowMs k) (lc_LastProgressAtMs l)
          (lc_RetryAfterMs l) (lc_AttemptCount l +32 1)
          (lc_ConsecutiveFailures l) (lc_EscalateAfter l)]> (_lifecycles k)).

(** A committed outcome claims the candidate's lanes, a terminal one marks
    the resolution. *)
Definition Settle (k : Kernel) (candidate : Candidate) (outcome : Outcome)
    : Kernel :=
  let r := _lastResolution k in
  match oc_Result outcome with
  | Disposition_Committed =>
      set_resolution k
        (mkResolution true (rs_Terminal r)
           (Z.lor (rs_ClaimedResources r) (cd_RequiredResources candidate))
           (rs_CommittedCandidates r ++ [cd_Key candidate]) (rs_Trace r))
  | Disposition_Terminal =>
      set_resolution k
        (mkResolution (rs_AnyCommitted r) true (rs_ClaimedResources r)
           (rs_CommittedCandidates r) (rs_Trace r))
  | _ => k
  end.

(** One iteration of [Resolve]'s loop: [None] when the callback is empty and
    calling it throws, else whether the loop goes on. *)
Definition ResolveStep (k : Kernel) (w : W) (candidate : Candidate)
    : option (bool * Kernel * W) :=
  let k := Propose k candidate in
  match MaskReason k candidate with
  | Some (status, reason) =>
      Some (true, Trace k candidate status reason Phase_Deferred, w)
  | None =>
      match cd_Attempt candidate with
      | None => None
      | Some attempt =>
          let k := Select k candidate in
          let result := attempt (_lifecycles k) w in
          let outcome := ar_Outcome result in
          let k := foldl RunCall k (ar_Calls result) in
          let k := Observe k (cd_Key candidate) outcome (_nowMs k)
                     (cd_RetryBaseMs candidate) (cd_RetryMaxMs candidate)
                     (cd_EscalateAfter candidate) in
          let k := Trace k candidate "attempted" (oc_Reason outcome)
                     (oc_LifecyclePhase outcome) in
          Some (negb (bool_decide (oc_Result outcome = Disposition_Terminal)),
                Settle k candidate outcome, ar_World result)
      end
  end.

Fixpoint ResolveLoop (qs : list QueuedCandidate) (k : Kernel) (w : W)
    : option (Kernel * W) :=
  match qs with
  | [] => Some (k, w)
  | q :: qs' =>
      match ResolveStep k w (qc_Value q) with
      | None => None
      | Some (true, k', w') => ResolveLoop qs' k' w'
      | Some (false, k', w') => Some (k', w')
      end
  end.

Definition Resolve (k : Kernel) (w : W) : option (Kernel * W) :=
  let sorted := stable_sort Better (_candidates k) in
  match ResolveLoop sorted (set_candidates k sorted) w with
  | None => None
  | Some (k', w') => Some (set_candidates k' [], w')
  end.
End Kernel.

(** [Kernel::Escape], used by the resolution's JSON. *)
Fixpoint Escape (value : string) : string :=
  match value with
  | EmptyString => EmptyString
  | String c rest =>
      let quote := Ascii.eqb c (ascii_of_nat 92) || Ascii.eqb c (ascii_of_nat 34) in
      let tail :=
        if Ascii.eqb c (ascii_of_nat 10)
        then String (ascii_of_nat 92) (String (ascii_of_nat 110) (Escape rest))
        else String c (Escape rest) in
      if quote then String (ascii_of_nat 92) tail else tail
  end.

(** ** The priority-ordered tick *)

Record Tick : Type := mkTick {
  _lastPriority : Z;
  _attemptCount : Z;
  _resolved : bool;
  _orderingValid : bool;
  _candidate : string;
  _outcome : Outcome
}.

Definition Outcome_default : Outcome :=
  mkOutcome Disposition_NotApplicable "not_applicable" Phase_Deferred 0.

Definition Tick_default : Tick :=
  mkTick (Priority_value Priority_Terminal) 0 false true "" Outcome_default.

(** [attempt] runs only on the last branch; the flag of the result tells
    whether it ran. *)
Definition Try (t : Tick) (priority : Priority) (candidate : string)
    (attempt : Outcome) : bool * Outcome * Tick :=
  if _resolved t then (false, _outcome t, t)
  else
    let numericPriority := Priority_value priority in
    if nz (_attemptCount t) && (_lastPriority t <? numericPriority) then
      let outcome := Outcome_Terminal "action_priority_inversion" in
      (false, outcome,
       mkTick (_lastPriority t) (_attemptCount t) true false candidate outcome)
    else
      (true, attempt,
       mkTick numericPriority (u16 (_attemptCount t + 1))
         (match oc_Result attempt with
          | Disposition_Committed | Disposition_Terminal => true
          | _ => _resolved t
          end)
         (_orderingValid t) candidate attempt).

(** ** Facts about the loop of [Resolve] *)

Definition qkey {W} (q : @QueuedCandidate W) : string := cd_Key (qc_Value q).

(** The row [Trace] appends. *)
Definition trace_row {W} (c : @Candidate W) (status reason : string) (phase : Phase)
    : CandidateTrace :=
  mkCandidateTrace (cd_Key c) (cd_Source c) status reason (cd_ActionPriority c)
    (Score c) (cd_RequiredResources c) phase.

Definition claims (masks : list Z) : Z := foldl Z.lor 0 masks.

(** What a producer may do to a kernel between [Begin] and [Resolve]. *)
Inductive FrameOp {W : Type} : Type :=
| Op_Submit (c : @Candidate W)
| Op_SetAdmissionPolicy (p : option (@AdmissionPolicy W))
| Op_SetCandidateAdmission (key : string) (cl : AdmissionClass) (scope : string)
| Op_Call (c : KernelCall).

Definition run_op {W} (k : @Kernel W) (o : FrameOp) : Kernel :=
  match o with
  | Op_Submit c => (Submit k c).2
  | Op_SetAdmissionPolicy p => SetAdmissionPolicy k p
  | Op_SetCandidateAdmission key cl scope => SetCandidateAdmission k key cl scope
  | Op_Call c => RunCall k c
  end.

Definition run_ops {W} (k : @Kernel W) (ops : list FrameOp) : Kernel :=
  foldl run_op k ops.

Definition submitted {W} (ops : list (@FrameOp W)) : list Candidate :=
  omap (fun o => match o with Op_Submit c => Some c | _ => None end) ops.

Section KernelFacts.
Context {W : Type}.
Implicit Types (k : @Kernel W) (c : @Candidate W) (q : @QueuedCandidate W).

(** The queue of a frame: one entry per key, every entry callable. *)
Record frame_ok (cs : list (@Candidate W)) k : Prop := {
  frame_keys : NoDup (qkey <$> _candidates k);
  frame_callable : Forall (fun q => is_Some (cd_Attempt (qc_Value q))) (_candidates k);
  frame_from : Forall (fun q => qc_Value q ∈ cs) (_candidates k);
  frame_fresh : _lastResolution k = Resolution_default
}.

Lemma SubmitReplace_None q cs :
  SubmitReplace q cs = None -> qkey q ∉ (qkey <$> cs).
Proof.
  induction cs as [|e cs IH]; cbn; [by intros _ ?%not_elem_of_nil|].
  destruct (String.eqb_spec (cd_Key (qc_Value e)) (cd_Key (qc_Value q))) as [E|E]; [done|].
  destruct (SubmitReplace q cs); [done|]. intros _. unfold qkey in *. set_solver.
Qed.

Lemma SubmitReplace_Some q cs cs' :
  SubmitReplace q cs = Some cs' ->
  qkey <$> cs' = qkey <$> cs /\
  Forall (fun e => e ∈ cs \/ qc_Value e = qc_Value q) cs'.
Proof.
  revert cs'. induction cs as [|e cs IH]; cbn; [done|]. intros cs'.
  destruct (String.eqb_spec (cd_Key (qc_Value e)) (cd_Key (qc_Value q))) as [E|E].
  - intros [= <-]. split.
    + cbn. f_equal. unfold qkey. by destruct (Better q e).
    + constructor.
      * destruct (Better q e); set_solver.
      * apply Forall_forall. set_solver.
  - destruct (SubmitReplace q cs) as [l|]; [|done]. intros [= <-].
    destruct (IH l eq_refl) as [Hk Hf]. split; [cbn; by rewrite Hk|].
    constructor; [set_solver|]. eapply Forall_impl; [exact Hf|]. set_solver.
Qed.

Lemma frame_ok_submit cs k c :
  frame_ok cs k -> frame_ok (cs ++ [c]) (Submit k c).2.
Proof.
  intros [Hn Hc Hf Hr].
  assert (Hf' : Forall (fun q => qc_Value q ∈ cs ++ [c]) (_candidates k)).
  { eapply Forall_impl; [exact Hf|]. set_solver. }
  unfold Submit. destruct (str_empty (cd_Key c)); [by split|].
  destruct (cd_Attempt c) as [a|] eqn:Ea; [|by split].
  set (q := mkQueuedCandidate c (_nextSerial k)).
  destruct (SubmitReplace q (_candidates k)) as [cs'|] eqn:E; cbn.
  - destruct (SubmitReplace_Some _ _ _ E) as [Hk Hv]. split; cbn; [by rewrite Hk| | |done];
      apply Forall_forall; intros e He;
      destruct (proj1 (Forall_forall _ _) Hv e He) as [Hin| ->].
    + by eapply (proj1 (Forall_forall _ _) Hc).
    + eauto.
    + by eapply (proj1 (Forall_forall _ _) Hf').
    + cbn. set_solver.
  - apply SubmitReplace_None in E. split; cbn; [| | |done].
    + rewrite fmap_app. apply NoDup_app. split; [done|]. split; [|apply NoDup_singleton].
      set_solver.
    + apply Forall_app. split; [done|]. constructor; [eauto|constructor].
    + apply Forall_app. split; [done|]. constructor; [cbn; set_solver|constructor].
Qed.

Lemma frame_ok_ops k nowMs ops :
  frame_ok (submitted ops) (run_ops (Begin k nowMs) ops).
Proof.
  induction ops as [|o ops IH] using rev_ind; [by split; constructor|].
  unfold run_ops, submitted in *. rewrite foldl_app, omap_app. cbn.
  destruct o as [c| | |[]]; cbn; rewrite ?app_nil_r; [by apply frame_ok_submit|..];
    destruct IH; by split.
Qed.
End KernelFacts.

(** What the loop has built once it has visited [visited], committing
    [committed]. *)
Record resolved {W} (visited committed : list (@Candidate W)) (r : Resolution) : Prop := {
  res_keys : rs_CommittedCandidates r = cd_Key <$> committed;
  res_claims : rs_ClaimedResources r = claims (cd_RequiredResources <$> committed);
  res_exclusive : ForallOrdPairs (fun a b =>
    Conflicts (cd_RequiredResources a) (cd_RequiredResources b) = false) committed;
  res_sub : committed `sublist_of` visited;
  res_any : rs_AnyCommitted r = negb (bool_decide (committed = []));
  res_rows : Forall2 (fun c row =>
    ct_Key row = cd_Key c /\ ct_Source row = cd_Source c /\
    ct_ActionPriority row = cd_ActionPriority c) visited (rs_Trace r)
}.

Section ResolveFacts.
Context {W : Type}.
Implicit Types (k : @Kernel W) (c : @Candidate W) (q : @QueuedCandidate W).

Lemma RunCall_resolution k calls :
  _lastResolution (foldl RunCall k calls) = _lastResolution k.
Proof.
  revert k. induction calls as [|[] calls IH]; intros k; cbn; [done|..]; by rewrite IH.
Qed.

Lemma MaskReason_None k c :
  MaskReason k c = None ->
  Conflicts (cd_RequiredResources c) (rs_ClaimedResources (_lastResolution k)) = false.
Proof.
unfold MaskReason. cbv zeta. repeat (split_guard; try done).
Qed.

Lemma resolved_row vis com r c status reason phase :
  resolved vis com r ->
  resolved (vis ++ [c]) com
    (mkResolution (rs_AnyCommitted r) (rs_Terminal r) (rs_ClaimedResources r)
       (rs_CommittedCandidates r) (rs_Trace r ++ [trace_row c status reason phase])).
Proof.
  intros [H1 H2 H3 H4 H5 H6]. split; cbn; try done.
  - by apply sublist_inserts_r.
  - apply Forall2_app; [done|]. by repeat constructor.
Qed.

Lemma resolved_commit vis com r c :
  resolved (vis ++ [c]) com r -> com `sublist_of` vis ->
  Conflicts (cd_RequiredResources c) (rs_ClaimedResources r) = false ->
  resolved (vis ++ [c]) (com ++ [c])
    (mkResolution true (rs_Terminal r)
       (Z.lor (rs_ClaimedResources r) (cd_RequiredResources c))
       (rs_CommittedCandidates r ++ [cd_Key c]) (rs_Trace r)).
Proof.
  intros [H1 H2 H3 H4 H5 H6] Hs Hc. split; cbn; try done.
  - by rewrite H1, fmap_app.
  - unfold claims in *. by rewrite H2, fmap_app, foldl_app.
  - apply FOP_snoc; [done|].
    rewrite H2 in Hc. unfold Conflicts, claims in *. apply nz_false, land_foldl_lor in Hc.
    destruct Hc as [_ Hc]. apply Forall_fmap in Hc. eapply Forall_impl; [exact Hc|].
    cbn. intros d Hd. apply nz_false. by rewrite Z.land_comm.
  - by apply sublist_app.
  - by destruct com.
Qed.

(** One step visits its candidate, and commits it only when it was attempted
    on free lanes. *)
Lemma ResolveStep_resolved k w c go k' w' vis com :
  resolved vis com (_lastResolution k) ->
  ResolveStep k w c = Some (go, k', w') ->
  exists com', resolved (vis ++ [c]) com' (_lastResolution k') /\
    rs_Terminal (_lastResolution k') = negb go || rs_Terminal (_lastResolution k).
Proof.
  intros Hr. unfold ResolveStep.
  destruct (MaskReason (Propose k c) c) as [[status reason]|] eqn:Em.
  - intros [= <- <- <-]. exists com. split; [|done]. by apply resolved_row.
  - destruct (cd_Attempt c) as [attempt|]; [|done].
    apply MaskReason_None in Em.
    set (k1 := Select (Propose k c) c) in *.
    destruct (attempt (_lifecycles k1) w) as [o w1 calls].
    intros [= <- <- <-]. cbn [ar_Outcome ar_Calls].
    set (k2 := foldl RunCall k1 calls).
    assert (E2 : _lastResolution k2 = _lastResolution k)
      by (unfold k2; by rewrite RunCall_resolution).
    pose proof (resolved_row _ _ _ c "attempted" (oc_Reason o) (oc_LifecyclePhase o) Hr)
      as Hrow.
    rewrite <- E2 in Hrow. unfold Settle, Trace. cbn.
    destruct (oc_Result o); cbn; try (exists com; split; [exact Hrow|by rewrite E2]).
    + exists (com ++ [c]). split; [|by rewrite E2].
      apply (resolved_commit _ _ _ _ Hrow); cbn; [by destruct Hr|].
      rewrite E2. exact Em.
    + exists com. split; [|done]. destruct Hrow as [? ? ? ? ? ?]. by split.
Qed.

Lemma ResolveLoop_resolved qs k w k' w' vis com :
  resolved vis com (_lastResolution k) ->
  ResolveLoop qs k w = Some (k', w') ->
  exists done com', done `prefix_of` (qc_Value <$> qs) /\
    resolved (vis ++ done) com' (_lastResolution k') /\
    (rs_Terminal (_lastResolution k') = false -> done = qc_Value <$> qs).
Proof.
  revert k w vis com. induction qs as [|q qs IH]; intros k w vis com Hr; cbn.
  - intros [= <- <-]. exists [], com. by rewrite app_nil_r.
  - destruct (ResolveStep k w (qc_Value q)) as [[[go k1] w1]|] eqn:Es; [|done].
    destruct (ResolveStep_resolved _ _ _ _ _ _ _ _ Hr Es) as (com1 & Hr1 & Ht).
    destruct go.
    + intros Hl. destruct (IH _ _ _ _ Hr1 Hl) as (dn & com' & Hp & Hr' & Hd).
      exists (qc_Value q :: dn), com'. split; [by apply prefix_cons|].
      split; [by rewrite cons_middle, (assoc (++))|]. intros Ht'. by rewrite Hd.
    + intros [= <- <-]. exists [qc_Value q], com1.
      split; [by apply prefix_cons, prefix_nil|]. split; [done|]. by rewrite Ht.
Qed.

(** An empty callback never reaches the loop. *)
Lemma ResolveLoop_total qs k w :
  Forall (fun q => is_Some (cd_Attempt (qc_Value q))) qs ->
  exists k' w', ResolveLoop qs k w = Some (k', w').
Proof.
  revert k w. induction qs as [|q qs IH]; intros k w Hq; cbn; [eauto|].
  inversion_clear Hq as [|? ? [a Ha] Hqs]. unfold ResolveStep. rewrite Ha.
  destruct (MaskReason _ _) as [[]|]; [by apply IH|].
  destruct (negb _); [by apply IH|eauto].
Qed.
End ResolveFacts.

(** [Resolve] on the queue producers built returns, having visited a prefix of
    the sorted queue. *)
Lemma Resolve_spec {W} (k : @Kernel W) nowMs ops w :
  exists k' w' visited committed,
    Resolve (run_ops (Begin k nowMs) ops) w = Some (k', w') /\
    visited `prefix_of`
      (qc_Value <$> stable_sort Better (_candidates (run_ops (Begin k nowMs) ops))) /\
    resolved visited committed (_lastResolution k') /\
    (rs_Terminal (_lastResolution k') = false -> visited =
      (qc_Value <$> stable_sort Better (_candidates (run_ops (Begin k nowMs) ops)))).
Proof.
  destruct (frame_ok_ops k nowMs ops) as [Hn Hc Hf Hr].
  set (k0 := run_ops (Begin k nowMs) ops) in *. unfold Resolve.
  pose proof (stable_sort_perm Better (_candidates k0)) as Hp.
  set (qs := stable_sort Better (_candidates k0)) in *.
  destruct (ResolveLoop_total qs (set_candidates k0 qs) w) as (k' & w' & E);
    [by rewrite Hp|].
  rewrite E. eapply (ResolveLoop_resolved _ _ _ _ _ [] []) in E.
  2:{ cbn. rewrite Hr. split; cbn; constructor. }
  destruct E as (dn & com & Hpre & Hres & Hd).
  by exists (set_candidates k' []), w', dn, com.
Qed.

(** The keys of what [Resolve] visits are distinct. *)
Lemma visited_keys {W} (k : @Kernel W) nowMs ops visited :
  visited `prefix_of`
    (qc_Value <$> stable_sort Better (_candidates (run_ops (Begin k nowMs) ops))) ->
  NoDup (cd_Key <$> visited) /\ Forall (fun c => c ∈ submitted ops) visited.
Proof.
  destruct (frame_ok_ops k nowMs ops) as [Hn Hc Hf Hr].
  set (k0 := run_ops (Begin k nowMs) ops) in *. intros [l Hl].
  pose proof (stable_sort_perm Better (_candidates k0)) as Hp.
  set (qs := stable_sort Better (_candidates k0)) in *. split.
  - assert (H : NoDup (cd_Key <$> (qc_Value <$> qs))).
    { rewrite <- list_fmap_compose. change (NoDup (qkey <$> qs)). by rewrite Hp. }
    rewrite Hl, fmap_app in H. by apply NoDup_app in H as [? _].
  - assert (H : Forall (fun c => c ∈ submitted ops) (qc_Value <$> qs)).
    { apply Forall_fmap. by rewrite Hp. }
    rewrite Hl in H. by apply Forall_app in H as [? _].
Qed.

(** C1. Resource exclusivity: whatever producers and callbacks do, [Resolve]
    on the frame's queue returns normally, its committed candidates are
    submitted ones with pairwise disjoint resource lanes, the claimed mask is
    exactly the union of their masks, and [AnyCommitted] tells whether there
    is one. *)
Theorem Resolve_resource_exclusive {W} (k : @Kernel W) nowMs ops w :
  exists k' w' committed,
    Resolve (run_ops (Begin k nowMs) ops) w = Some (k', w') /\
    rs_CommittedCandidates (_lastResolution k') = cd_Key <$> committed /\
    Forall (fun c => c ∈ submitted ops) committed /\
    NoDup (cd_Key <$> committed) /\
    ForallOrdPairs (fun a b =>
      Conflicts (cd_RequiredResources a) (cd_RequiredResources b) = false) committed /\
    rs_ClaimedResources (_lastResolution k') =
      claims (cd_RequiredResources <$> committed) /\
    rs_AnyCommitted (_lastResolution k') = negb (bool_decide (committed = [])).
Proof.
  destruct (Resolve_spec k nowMs ops w)
    as (k' & w' & vis & com & E & Hpre & [H1 H2 H3 H4 H5 H6] & _).
  destruct (visited_keys _ _ _ _ Hpre) as [Hn Hin].
  exists k', w', com. repeat split; try done.
  - apply Forall_forall. intros c Hc. eapply elem_of_sublist in Hc; [|exact H4].
    by eapply (proj1 (Forall_forall _ _) Hin).
  - eapply sublist_NoDup; [|apply fmap_sublist, H4]. done.
Qed.

(** Decision order: the trace of a resolution has at most one row per action
    key, lists the candidates by descending priority, and covers the whole
    queue unless a terminal outcome ended the tick. *)
Theorem Resolve_priority_order {W} (k : @Kernel W) nowMs ops w :
  exists k' w', Resolve (run_ops (Begin k nowMs) ops) w = Some (k', w') /\
    let rows := rs_Trace (_lastResolution k') in
    let queue := _candidates (run_ops (Begin k nowMs) ops) in
    NoDup (ct_Key <$> rows) /\
    StronglySorted (fun a b => Priority_value (ct_ActionPriority b)
                               <= Priority_value (ct_ActionPriority a)) rows /\
    (rs_Terminal (_lastResolution k') = false -> ct_Key <$> rows ≡ₚ qkey <$> queue).
Proof.
  destruct (Resolve_spec k nowMs ops w)
    as (k' & w' & vis & com & E & Hpre & [_ _ _ _ _ Hrows] & Ht).
  destruct (visited_keys _ _ _ _ Hpre) as [Hn _].
  exists k', w'. split; [done|]. cbn.
  assert (Hk : ct_Key <$> rs_Trace (_lastResolution k') = cd_Key <$> vis).
  { clear -Hrows. induction Hrows as [|? ? ? ? [? _] ? IH]; cbn; [done|congruence]. }
  split_and!; [by rewrite Hk| |].
  - eapply (sorted_Forall2 (fun a b => Priority_value (cd_ActionPriority b)
             <= Priority_value (cd_ActionPriority a)) _ vis); [| |exact Hrows].
    + eapply sorted_prefix; [exact Hpre|]. apply sorted_fmap.
      apply stable_sort_sorted; unfold Better.
      * intros x y z. lia.
      * intros x y. split_guard; [b2p; lia|]. b2p. lia.
      * intros x y. split_guard; [b2p; lia|]. b2p. lia.
    + by intros x y x' y' (_ & _ & ->) (_ & _ & ->).
  - intros Hf. rewrite Hk, (Ht Hf), <- list_fmap_compose.
    by rewrite (stable_sort_perm Better).
Qed.

(** ** The order of the candidates *)

Section BetterOrder.
Context {W : Type}.
Implicit Types (x y z c : @Candidate W) (p q : @QueuedCandidate W).

(** What [Better] compares before the serial. *)
Definition better_value x y : bool :=
  Better (mkQueuedCandidate x 0) (mkQueuedCandidate y 0).

Definition order_key x : Z * (Z * Z * Z * (string * string)) :=
  (Priority_value (cd_ActionPriority x),
   (f32_rank (Score x), (cd_Source x, cd_Key x))).

Definition order_lt :=
  lex (flip Z.lt) (lex (flip rank_lt)
    (lex (fun a b => str_lt a b = true) (fun a b => str_lt a b = true))).

#[export] Instance order_lt_strict : StrictOrder order_lt.
Proof. unfold order_lt. apply _. Qed.

#[export] Instance order_lt_total : TotalCases order_lt.
Proof. unfold order_lt. apply _. Qed.

Definition comparable x : Prop := f32_is_nan (Score x) = false.

Lemma Better_spec p q :
  comparable (qc_Value p) -> comparable (qc_Value q) ->
  Better p q = true <->
  lex order_lt Z.lt (order_key (qc_Value p), qc_Serial p)
    (order_key (qc_Value q), qc_Serial q).
Proof.
  unfold comparable. intros Hp Hq.
  unfold Better, order_key, order_lt, lex, flip; cbn.
  destruct (Z.eqb_spec (Priority_value (cd_ActionPriority (qc_Value p)))
    (Priority_value (cd_ActionPriority (qc_Value q)))) as [E1|E1]; cbn.
  2:{ b2p. split; [tauto|]. intros [[?|[? _]]|[[=] _]]; [done|lia|lia]. }
  destruct (f32_eq (Score (qc_Value p)) (Score (qc_Value q))) eqn:E2; cbn.
  2:{ apply f32_eq_false in E2; [|done..]. unfold f32_gt. rewrite f32_lt_rank by done.
      split; [tauto|]. intros [[?|[_ [?|[? _]]]]|[[=] _]]; [lia|done|done|done]. }
  apply f32_eq_rank in E2; [|done..]. rewrite E1, E2.
  pose proof (rank_lt_irrefl (f32_rank (Score (qc_Value q)))).
  destruct (String.eqb_spec (cd_Source (qc_Value p)) (cd_Source (qc_Value q)))
    as [E3|E3]; cbn.
  2:{ split; [tauto|].
      intros [[?|[_ [?|[_ [?|[? _]]]]]]|[[=] _]]; [lia|done|done|done|done]. }
  rewrite E3, str_lt_irrefl.
  destruct (String.eqb_spec (cd_Key (qc_Value p)) (cd_Key (qc_Value q)))
    as [E4|E4]; cbn.
  2:{ split; [tauto|].
      intros [[?|[_ [?|[_ [?|[_ ?]]]]]]|[[=] _]]; [lia|done|done|done|done]. }
  rewrite E4, str_lt_irrefl, Z.ltb_lt. split; [tauto|].
  intros [[?|[_ [?|[_ [?|[_ ?]]]]]]|[_ ?]]; [lia|done..].
Qed.

Lemma better_value_spec x y :
  comparable x -> comparable y ->
  better_value x y = true <-> order_lt (order_key x) (order_key y).
Proof.
  intros Hx Hy. unfold better_value. rewrite Better_spec by done. unfold lex at 1.
  cbn. split; [|tauto]. intros [H|[_ H]]; [done|lia].
Qed.

Lemma Better_distinct p q :
  qkey p <> qkey q -> Better p q = better_value (qc_Value p) (qc_Value q).
Proof.
  unfold qkey, better_value, Better; cbn. intros Hk.
  apply String.eqb_neq in Hk. by rewrite Hk.
Qed.

Lemma better_value_asym x y :
  comparable x -> comparable y -> better_value x y = true -> better_value y x = false.
Proof.
  intros Hx Hy H. apply not_true_iff_false. intros H'.
  apply better_value_spec in H, H'; [|done..].
  apply (irreflexivity (order_lt) (order_key x)). by etrans.
Qed.

Lemma better_value_trans x y z :
  comparable x -> comparable y -> comparable z ->
  better_value x y = true -> better_value y z = true -> better_value x z = true.
Proof.
  intros Hx Hy Hz. rewrite !better_value_spec by done. intros. by etrans.
Qed.

Lemma better_value_total x y :
  comparable x -> comparable y -> cd_Key x <> cd_Key y ->
  better_value x y = true \/ better_value y x = true.
Proof.
  intros Hx Hy Hk. rewrite !better_value_spec by done.
  destruct (total_cases (R := order_lt) (order_key x) (order_key y)) as [|[E|]]; auto.
  exfalso. apply Hk. exact (f_equal (fun t => t.2.2.2) E).
Qed.
End BetterOrder.

(** [Better] meets the strict weak ordering [std::stable_sort] needs, as
    long as no score is NaN: irreflexive, transitive, and incomparability is
    transitive too. *)
Theorem Better_strict_weak {W} (p q r : @QueuedCandidate W)
    (Hp : f32_is_nan (Score (qc_Value p)) = false)
    (Hq : f32_is_nan (Score (qc_Value q)) = false)
    (Hr : f32_is_nan (Score (qc_Value r)) = false) :
  Better p p = false /\
  (Better p q = true -> Better q r = true -> Better p r = true) /\
  (Better p q = false -> Better q r = false -> Better p r = false).
Proof.
  rewrite <- !not_true_iff_false, !Better_spec by done.
  set (a := (_, qc_Serial p)); set (b := (_, qc_Serial q)); set (d := (_, qc_Serial r)).
  split_and!.
  - apply (irreflexivity (lex order_lt Z.lt)).
  - intros. by etrans.
  - intros Hab Hbd Had.
    destruct (total_cases (R := lex order_lt Z.lt) b a) as [H|[<-|?]]; [|done..].
    apply Hbd. by etrans.
Qed.

(** ** Submission order *)

(** What [Submit] takes into the queue. *)
Definition acceptable {W} (c : @Candidate W) : bool :=
  negb (str_empty (cd_Key c)) && match cd_Attempt c with Some _ => true | None => false end.

Definition submit_all {W} (k : @Kernel W) (cs : list Candidate) : Kernel :=
  run_ops k (Op_Submit <$> cs).

Section SubmissionOrder.
Context {W : Type}.
Implicit Types (k : @Kernel W) (c : @Candidate W) (q : @QueuedCandidate W).

(** Distinct keys queue in submission order, whatever their scores. *)
Lemma Submit_fresh k c :
  cd_Key c ∉ (qkey <$> _candidates k) ->
  (Submit k c).2 =
    if acceptable c
    then mkKernel (_nowMs k) (_nextSerial k +64 1)
           (_candidates k ++ [mkQueuedCandidate c (_nextSerial k)])
           (_admissionMetadata k) (_lifecycles k) (_lastResolution k)
           (_admissionPolicy k)
    else k.
Proof.
  intros Hk. unfold Submit, acceptable.
  destruct (str_empty (cd_Key c)); [done|]. destruct (cd_Attempt c); [|done]. cbn.
  destruct (SubmitReplace _ _) as [cs|] eqn:E; [|done].
  exfalso. revert cs Hk E. induction (_candidates k) as [|e l IH]; cbn; [done|].
  intros cs Hk. destruct (String.eqb_spec (cd_Key (qc_Value e)) (cd_Key c)) as [E|E].
  - unfold qkey in Hk. set_solver.
  - destruct (SubmitReplace _ l) as [l'|]; [|done]. intros _.
    eapply IH; [|done]. set_solver.
Qed.

Lemma submit_all_queue k nowMs cs :
  NoDup (cd_Key <$> cs) ->
  exists qs, submit_all (Begin k nowMs) cs =
      mkKernel nowMs (Nat.iter (length qs) (fun s => s +64 1) 0) qs ∅
        (_lifecycles k) Resolution_default None /\
    qc_Value <$> qs = List.filter acceptable cs.
Proof.
  induction cs as [|c cs IH] using rev_ind; intros Hn.
  { exists []. done. }
  rewrite fmap_app in Hn. apply NoDup_app in Hn as (Hn & Hd & _).
  destruct (IH Hn) as (qs & E & Hq). unfold submit_all, run_ops in *.
  rewrite fmap_app, foldl_app, E. cbn.
  rewrite Submit_fresh; cbn.
  2:{ intros Hin. unfold qkey in Hin. apply list_elem_of_fmap in Hin as (q & Hk & Hin).
      apply (Hd (cd_Key c)); [|set_solver]. rewrite Hk. apply list_elem_of_fmap.
      exists (qc_Value q). split; [done|].
      assert (Hin' : qc_Value q ∈ List.filter acceptable cs)
        by (rewrite <- Hq; by apply list_elem_of_fmap_2).
      apply list_elem_of_In, filter_In in Hin' as [? _]. by apply list_elem_of_In. }
  rewrite List.filter_app. cbn. destruct (acceptable c).
  - exists (qs ++ [mkQueuedCandidate c (Nat.iter (length qs) (fun s => s +64 1) 0)]).
    rewrite fmap_app, Hq, length_app, Nat.add_comm. done.
  - exists qs. by rewrite app_nil_r.
Qed.

(** The loop looks at the queue's values only. *)
Lemma RunCall_set_candidates k cs calls :
  foldl RunCall (set_candidates k cs) calls = set_candidates (foldl RunCall k calls) cs.
Proof.
  revert k. induction calls as [|c calls IH]; intros k; [done|].
  cbn [foldl]. rewrite <- IH. by destruct c.
Qed.

Lemma ResolveStep_set_candidates k cs w c :
  ResolveStep (set_candidates k cs) w c =
  match ResolveStep k w c with
  | Some (go, k', w') => Some (go, set_candidates k' cs, w')
  | None => None
  end.
Proof.
  unfold ResolveStep.
  change (Propose (set_candidates k cs) c) with (set_candidates (Propose k c) cs).
  change (MaskReason (set_candidates (Propose k c) cs) c) with (MaskReason (Propose k c) c).
  destruct (MaskReason (Propose k c) c) as [[]|]; [done|].
  destruct (cd_Attempt c) as [a|]; [|done].
  change (Select (set_candidates (Propose k c) cs) c)
    with (set_candidates (Select (Propose k c) c) cs).
  set (k1 := Select (Propose k c) c).
  change (_lifecycles (set_candidates k1 cs)) with (_lifecycles k1).
  destruct (a (_lifecycles k1) w) as [o w' calls]. cbn [ar_Calls ar_Outcome ar_World].
  rewrite RunCall_set_candidates. by destruct o as [[] ? ? ?].
Qed.

Lemma ResolveLoop_values qs1 qs2 k cs1 cs2 w :
  qc_Value <$> qs1 = qc_Value <$> qs2 ->
  (fun r => (set_candidates r.1 [], r.2)) <$> ResolveLoop qs1 (set_candidates k cs1) w =
  (fun r => (set_candidates r.1 [], r.2)) <$> ResolveLoop qs2 (set_candidates k cs2) w.
Proof.
  revert qs2 k w. induction qs1 as [|q1 qs1 IH]; intros [|q2 qs2] k w; try done.
  cbn. intros [= Hq Hqs]. rewrite !ResolveStep_set_candidates, Hq.
  destruct (ResolveStep k w (qc_Value q2)) as [[[[] k'] w']|]; [by apply IH|done|done].
Qed.

Lemma Resolve_loop_eq k w :
  Resolve k w = (fun r => (set_candidates r.1 [], r.2)) <$>
    ResolveLoop (stable_sort Better (_candidates k))
      (set_candidates k (stable_sort Better (_candidates k))) w.
Proof. unfold Resolve. by destruct (ResolveLoop _ _ _) as [[]|]. Qed.
End SubmissionOrder.

Lemma stable_sort_values {W} (qs : list (@QueuedCandidate W)) :
  NoDup (qkey <$> qs) ->
  qc_Value <$> stable_sort Better qs = stable_sort better_value (qc_Value <$> qs).
Proof.
  intros Hn. apply stable_sort_map. induction qs as [|q qs IH]; [constructor|].
  cbn in Hn. apply NoDup_cons in Hn as [Hq Hn]. constructor; [|auto].
  apply Forall_forall. intros p Hp. apply Better_distinct. intros E.
  apply Hq. rewrite <- E. by apply list_elem_of_fmap_2.
Qed.

#[export] Instance filter_perm {A} (f : A -> bool) :
  Proper ((≡ₚ) ==> (≡ₚ)) (List.filter f).
Proof. induction 1; cbn; repeat case_match; eauto using Permutation. Qed.

Lemma elem_of_filter_b {A} (f : A -> bool) x l : x ∈ List.filter f l -> x ∈ l.
Proof. rewrite !list_elem_of_In, filter_In. tauto. Qed.

Lemma filter_keys_NoDup {W} f (cs : list (@Candidate W)) :
  NoDup (cd_Key <$> cs) -> NoDup (cd_Key <$> List.filter f cs).
Proof.
  induction cs as [|c cs IH]; cbn; [constructor|]. intros [Hc Hn]%NoDup_cons.
  destruct (f c); cbn; [|auto]. apply NoDup_cons. split; [|auto]. intros Hin. apply Hc.
  apply list_elem_of_fmap in Hin as (d & -> & Hin%elem_of_filter_b).
  by apply list_elem_of_fmap_2.
Qed.

(** The resolution of submissions with distinct keys, as a function of the
    sorted acceptable candidates alone. *)
Lemma Resolve_submit_all {W} (k : @Kernel W) nowMs cs w qs0 :
  NoDup (cd_Key <$> cs) ->
  qc_Value <$> qs0 = stable_sort better_value (List.filter acceptable cs) ->
  Resolve (submit_all (Begin k nowMs) cs) w =
  (fun r => (set_candidates r.1 [], r.2)) <$>
    ResolveLoop qs0
      (mkKernel nowMs
         (Nat.iter (length (List.filter acceptable cs)) (fun s => s +64 1) 0)
         [] ∅ (_lifecycles k) Resolution_default None) w.
Proof.
  intros Hk Hq0. destruct (submit_all_queue k nowMs cs Hk) as (qs & E & V).
  rewrite Resolve_loop_eq, E. cbn [_candidates].
  assert (Hq : NoDup (qkey <$> qs)).
  { change (NoDup ((cd_Key ∘ qc_Value) <$> qs)). rewrite list_fmap_compose, V.
    by apply filter_keys_NoDup. }
  rewrite <- V, length_fmap. set (k0 := mkKernel _ _ [] _ _ _ _).
  apply (ResolveLoop_values _ _ k0 (stable_sort Better qs) []).
  by rewrite stable_sort_values, V, Hq0 by done.
Qed.

(** C2. Producers may submit in any order: for candidates with distinct keys
    and no NaN score, every permutation of the submissions gives the same
    resolution, the same lifecycles and the same world. *)
Theorem Resolve_submission_order {W} (k : @Kernel W) nowMs cs1 cs2 w
    (Hperm : cs1 ≡ₚ cs2) (Hkeys : NoDup (cd_Key <$> cs1))
    (Hscores : Forall (fun c => f32_is_nan (Score c) = false) cs1) :
  Resolve (submit_all (Begin k nowMs) cs1) w = Resolve (submit_all (Begin k nowMs) cs2) w.
Proof.
  set (v1 := List.filter acceptable cs1). set (v2 := List.filter acceptable cs2).
  assert (Hv : v1 ≡ₚ v2) by (unfold v1, v2; by rewrite Hperm).
  assert (Hc : forall x, x ∈ v1 -> comparable x).
  { intros x Hx%elem_of_filter_b. by apply (proj1 (Forall_forall _ _) Hscores). }
  assert (Hs : stable_sort better_value v1 = stable_sort better_value v2).
  { apply (stable_sort_perm_eq better_value comparable);
      eauto using better_value_asym, better_value_trans; [by apply Forall_forall|].
    intros x y Hx Hy. destruct (String.eqb_spec (cd_Key x) (cd_Key y)) as [E|E].
    - left. eapply NoDup_fmap_elem; [by apply filter_keys_NoDup|..]; done.
    - right. apply better_value_total; auto. }
  set (qs0 := (fun c => mkQueuedCandidate c 0) <$> stable_sort better_value v1).
  assert (Hq : qc_Value <$> qs0 = stable_sort better_value v1).
  { unfold qs0. rewrite <- list_fmap_compose. apply list_fmap_id. }
  rewrite (Resolve_submit_all k nowMs cs1 w qs0), (Resolve_submit_all k nowMs cs2 w qs0);
    [|by rewrite <- Hperm|by rewrite Hq|done..].
  fold v1 v2. by rewrite (Permutation_length Hv).
Qed.

(** ** Failure streaks, backoff and escalation *)

(** An outcome [Observe] counts as a failure. *)
Definition is_failure (o : Outcome) : bool :=
  match oc_Result o with
  | Disposition_Retryable => negb (nz (oc_RetryAtMs o))
  | Disposition_Unsafe | Disposition_Terminal => true
  | _ => false
  end.

(** A wait for a native lock with a known release time. *)
Definition is_timed_wait (o : Outcome) : bool :=
  match oc_Result o with Disposition_Retryable => nz (oc_RetryAtMs o) | _ => false end.

(** Observations of one key with one retry configuration, oldest first. *)
Definition ObserveAll {W} (k : @Kernel W) key (obs : list (Outcome * Z)) base max esc :=
  foldl (fun k ot => Observe k key ot.1 ot.2 base max esc) k obs.

Definition failures (obs : list (Outcome * Z)) : list (Outcome * Z) :=
  List.filter (fun ot => is_failure ot.1) obs.

Definition backoff_delay (base max : Z) (n : nat) : Z :=
  Z.min max (base * 2 ^ Z.min (Z.of_nat n - 1) 8).

Lemma ObserveLifecycle_wait l o now base max esc :
  is_timed_wait o = true ->
  ObserveLifecycle l o now base max esc =
  mkLifecycle (oc_LifecyclePhase o) (oc_Result o) (oc_Reason o)
    (lc_FirstFailureAtMs l) now (lc_LastProgressAtMs l)
    (Z.min (Z.max (oc_RetryAtMs o) now) (now +64 max))
    (lc_AttemptCount l) (lc_ConsecutiveFailures l) esc.
Proof.
  unfold is_timed_wait, ObserveLifecycle. destruct (oc_Result o); try done.
  intros H. by rewrite H.
Qed.

Lemma ObserveLifecycle_failure l o now base max esc :
  is_failure o = true ->
  ObserveLifecycle l o now base max esc =
  mkLifecycle (oc_LifecyclePhase o) (oc_Result o) (oc_Reason o)
    (if nz (lc_ConsecutiveFailures l) then lc_FirstFailureAtMs l else now) now
    (lc_LastProgressAtMs l)
    (now +64 Z.min max (u64 (Z.shiftl base
       (Z.min ((lc_ConsecutiveFailures l +32 1) -32 1) 8))))
    (lc_AttemptCount l) (lc_ConsecutiveFailures l +32 1) esc.
Proof.
  unfold is_failure, ObserveLifecycle.
  destruct (oc_Result o); try done; cbn.
  intros H%negb_true_iff. by rewrite H.
Qed.

(** The delay of the [n]-th consecutive failure, without wrap-around. *)
Lemma backoff_delay_eq base max n :
  0 <= base < 2 ^ 32 -> 0 <= max < 2 ^ 32 -> (0 < n)%nat -> Z.of_nat n < 2 ^ 32 ->
  Z.min max (u64 (Z.shiftl base
    (Z.min (((Z.of_nat n - 1) +32 1) -32 1) 8))) = backoff_delay base max n.
Proof.
  intros Hb Hm Hn Hw. unfold backoff_delay. wrap_small. f_equal.
  replace (Z.of_nat n - 1 + 1 - 1) with (Z.of_nat n - 1) by lia.
  assert (0 <= Z.min (Z.of_nat n - 1) 8 <= 8) by lia.
  generalize dependent (Z.min (Z.of_nat n - 1) 8). intros s Hs.
  rewrite Z.shiftl_mul_pow2 by lia. apply u64_small.
  assert (2 ^ s <= 2 ^ 8) by (apply Z.pow_le_mono_r; lia).
  assert (0 < 2 ^ s) by (apply Z.pow_pos_nonneg; lia).
  split; [nia|]. apply (Z.le_lt_trans _ (2 ^ 32 * 2 ^ 8)); [nia|reflexivity].
Qed.

Lemma ObserveAll_default {W} (k : @Kernel W) key obs base max esc :
  default Lifecycle_default (_lifecycles (ObserveAll k key obs base max esc) !! key) =
  foldl (fun l ot => ObserveLifecycle l ot.1 ot.2 base max esc)
    (default Lifecycle_default (_lifecycles k !! key)) obs.
Proof.
  unfold ObserveAll. induction obs as [|ot obs IH] using rev_ind; [done|].
  rewrite !foldl_app. cbn. by rewrite lookup_insert_eq, <- IH.
Qed.

Lemma ObserveAll_lifecycle {W} (k : @Kernel W) key obs base max esc :
  obs <> [] ->
  _lifecycles (ObserveAll k key obs base max esc) !! key =
  Some (foldl (fun l ot => ObserveLifecycle l ot.1 ot.2 base max esc)
    (default Lifecycle_default (_lifecycles k !! key)) obs).
Proof.
  destruct obs as [|ot obs _] using rev_ind; [done|]. intros _.
  rewrite foldl_app, <- (ObserveAll_default k key obs).
  unfold ObserveAll. rewrite foldl_app. cbn. by rewrite lookup_insert_eq.
Qed.

(** The streak a run of failures and timed waits leaves. *)
Lemma streak_lifecycle base max esc obs l :
  lc_ConsecutiveFailures l = 0 ->
  Forall (fun ot => is_failure ot.1 || is_timed_wait ot.1 = true) obs ->
  Z.of_nat (length (failures obs)) < 2 ^ 32 ->
  let l' := foldl (fun l ot => ObserveLifecycle l ot.1 ot.2 base max esc) l obs in
  lc_ConsecutiveFailures l' = Z.of_nat (length (failures obs)) /\
  lc_FirstFailureAtMs l' =
    match failures obs with ot :: _ => ot.2 | [] => lc_FirstFailureAtMs l end /\
  lc_AttemptCount l' = lc_AttemptCount l /\
  (obs <> [] -> lc_EscalateAfter l' = esc).
Proof.
  intros Hl. induction obs as [|[o t] obs IH] using rev_ind; [done|].
  unfold failures. rewrite Forall_app, List.filter_app, length_app. cbn.
  intros [Hobs Ho] Hn. apply Forall_inv in Ho. cbn in Ho.
  destruct IH as (IH1 & IH2 & IH3 & _); [done|unfold failures; lia|].
  rewrite foldl_app. cbn. revert Ho Hn. destruct (is_failure o) eqn:Ef; cbn; intros Ho Hn.
  - rewrite ObserveLifecycle_failure by done. cbn. rewrite IH1, IH2, IH3.
    unfold failures in *. rewrite u32_small by lia. split_and!; [lia| |done|done].
    destruct (List.filter _ obs); [done|]. cbn. by rewrite (proj2 (nz_true _)) by lia.
  - rewrite ObserveLifecycle_wait by done. cbn. rewrite IH1, IH2, IH3, app_nil_r.
    unfold failures. split_and!; [lia|done..].
Qed.

(** Timed waits never hide a failing candidate: over any run of failures
    and timed native waits of one key, the streak counts exactly the failures,
    and escalation holds exactly when there were enough of them and the first
    one is old enough (and not at time 0). *)
Theorem ShouldEscalate_streak {W} (k : @Kernel W) key obs base max esc now dur
    (Hnew : _lifecycles k !! key = None) (Hobs : obs <> [])
    (Hrun : Forall (fun ot => is_failure ot.1 || is_timed_wait ot.1 = true) obs)
    (Hlen : Z.of_nat (length (failures obs)) < 2 ^ 32)
    (Htimes : Forall (fun ot => 0 <= ot.2 < 2 ^ 63) obs) (Hdur : 0 <= dur < 2 ^ 63) :
  ShouldEscalate (ObserveAll k key obs base max esc) key now dur =
  (esc <=? Z.of_nat (length (failures obs))) &&
  match failures obs with
  | [] => false
  | (_, first) :: _ => nz first && (first + dur <=? now)
  end.
Proof.
  unfold ShouldEscalate. rewrite ObserveAll_lifecycle, Hnew by done. cbn [default].
  destruct (streak_lifecycle base max esc obs Lifecycle_default eq_refl Hrun Hlen)
    as (E1 & E2 & _ & E3).
  rewrite E1, E2, E3 by done. destruct (failures obs) as [|[o first] fs] eqn:Ef.
  { cbn. by rewrite !andb_false_r. }
  cbn [snd]. assert (Hf : 0 <= first < 2 ^ 63).
  { assert (Hin : (o, first) ∈ failures obs) by (rewrite Ef; set_solver).
    apply list_elem_of_In, filter_In in Hin as [Hin _].
    apply list_elem_of_In in Hin. by apply (proj1 (Forall_forall _ _) Htimes _ Hin). }
  wrap_small. by rewrite andb_assoc.
Qed.

Example ShouldEscalate_streak_witness :
  let fail := Outcome_Retryable "out_of_range" in
  let obs := [(fail, 1000); (Outcome_WaitUntil "global_cooldown" 1500, 1200);
              (fail, 1600); (fail, 2000)] in
  ShouldEscalate (ObserveAll (@Kernel_default unit) "move" obs 100 3000 3)
    "move" 6000 5000 = true.
Proof.
  cbv zeta. rewrite (ShouldEscalate_streak Kernel_default "move"); try done;
    repeat constructor; vm_compute; done.
Defined.

(** The backoff of a failing key: after [n] consecutive failures the last of
    them at [t], the candidate is masked with its last reason strictly before
    [t + min(max, base * 2^min(n-1, 8))] and attempted from that instant on,
    when no other mask applies. *)
Theorem failure_backoff_window {W} (k : @Kernel W) obs o t (c : @Candidate W)
    (Hnew : default Lifecycle_default (_lifecycles k !! cd_Key c) = Lifecycle_default)
    (Hrun : Forall (fun ot => is_failure ot.1 || is_timed_wait ot.1 = true) obs)
    (Hlast : is_failure o = true)
    (Hlen : Z.of_nat (S (length (failures obs))) < 2 ^ 32)
    (Hbase : 0 <= cd_RetryBaseMs c < 2 ^ 32) (Hmax : 0 <= cd_RetryMaxMs c < 2 ^ 32)
    (Ht : 0 <= t < 2 ^ 63) (Hpol : _admissionPolicy k = None)
    (Hall : cd_Allowed c = true) (Hexp : cd_ExpiresAtMs c = 0)
    (Hfree : rs_ClaimedResources (_lastResolution k) = 0) :
  let k' := ObserveAll k (cd_Key c) (obs ++ [(o, t)]) (cd_RetryBaseMs c)
              (cd_RetryMaxMs c) (cd_EscalateAfter c) in
  let retryAt := t + backoff_delay (cd_RetryBaseMs c) (cd_RetryMaxMs c)
                       (S (length (failures obs))) in
  MaskReason (Propose k' c) c =
  if _nowMs k <? retryAt then Some ("backoff"%string, oc_Reason o) else None.
Proof.
  cbv zeta. set (k' := ObserveAll _ _ _ _ _ _).
  assert (Hl : _lifecycles k' !! cd_Key c = Some
    (ObserveLifecycle (foldl (fun l ot => ObserveLifecycle l ot.1 ot.2
       (cd_RetryBaseMs c) (cd_RetryMaxMs c) (cd_EscalateAfter c)) Lifecycle_default obs)
       o t (cd_RetryBaseMs c) (cd_RetryMaxMs c) (cd_EscalateAfter c))).
  { unfold k'. rewrite ObserveAll_lifecycle by by destruct obs.
    by rewrite Hnew, foldl_app. }
  assert (Hk : _nowMs k' = _nowMs k /\ _admissionPolicy k' = None /\
    _lastResolution k' = _lastResolution k).
  { unfold k'. generalize (obs ++ [(o, t)]). intros l. unfold ObserveAll.
    induction l as [|x l IH] using rev_ind; [done|]. by rewrite foldl_app. }
  destruct Hk as (Hnow & Hpol' & Hres). clearbody k'.
  destruct (streak_lifecycle (cd_RetryBaseMs c) (cd_RetryMaxMs c) (cd_EscalateAfter c)
    obs Lifecycle_default eq_refl Hrun) as (E1 & _); [lia|].
  revert Hl. rewrite ObserveLifecycle_failure by done. rewrite E1. intros Hl.
  unfold MaskReason, Propose. cbn. rewrite Hl, lookup_insert_eq, Hpol', Hall, Hexp.
  cbn. rewrite Hres, Hfree, Hnow. unfold Conflicts. rewrite Z.land_0_r. cbn.
  rewrite <- (backoff_delay_eq _ _ (S (length (failures obs)))) by lia.
  replace (Z.of_nat (S (length (failures obs))) - 1) with
    (Z.of_nat (length (failures obs))) by lia.
  set (d := Z.min (cd_RetryMaxMs c) _).
  assert (0 <= d <= cd_RetryMaxMs c).
  { unfold d. pose proof (u64_bound (Z.shiftl (cd_RetryBaseMs c)
      (Z.min ((Z.of_nat (length (failures obs)) +32 1) -32 1) 8))). lia. }
  by rewrite u64_small by lia.
Qed.

(** A timed native wait is neither failure nor progress: it keeps the
    streak, the first failure and the attempt count, and makes the candidate
    eligible no earlier than now, no later than now plus its retry maximum, and
    at the lock's own release when that lies between. *)
Theorem timed_wait_bounds (l : Lifecycle) reason readyAt now base max esc
    (Hready : 0 < readyAt < 2 ^ 64) (Hnow : 0 <= now < 2 ^ 63)
    (Hmax : 0 <= max < 2 ^ 32) :
  let l' := ObserveLifecycle l (Outcome_WaitUntil reason readyAt) now base max esc in
  lc_ConsecutiveFailures l' = lc_ConsecutiveFailures l /\
  lc_FirstFailureAtMs l' = lc_FirstFailureAtMs l /\
  lc_AttemptCount l' = lc_AttemptCount l /\
  lc_LastProgressAtMs l' = lc_LastProgressAtMs l /\
  now <= lc_RetryAfterMs l' <= now + max /\
  (now <= readyAt <= now + max -> lc_RetryAfterMs l' = readyAt).
Proof.
  cbv zeta. rewrite ObserveLifecycle_wait.
  - cbn. wrap_small. split_and!; try done; lia.
  - cbn. apply nz_true. lia.
Qed.

Example timed_wait_bounds_witness :
  lc_RetryAfterMs (ObserveLifecycle Lifecycle_default
    (Outcome_WaitUntil "global_cooldown" 1500) 1000 100 3000 5) = 1500.
Proof.
  refine (proj2 (proj2 (proj2 (proj2 (proj2
    (timed_wait_bounds Lifecycle_default "global_cooldown" 1500 1000 100 3000 5
       _ _ _))))) _); lia.
Defined.

(** ** Ticks *)

(** Candidates tried in sequence, with those whose attempt ran. *)
Fixpoint TryAll (t : Tick) (l : list (Priority * string * Outcome))
    : list (Priority * string * Outcome) * Tick :=
  match l with
  | [] => ([], t)
  | (p, name, o) :: l' =>
      let '(ran, _, t') := Try t p name o in
      let '(ex, t'') := TryAll t' l' in
      (if ran then (p, name, o) :: ex else ex, t'')
  end.

Definition resolves (o : Outcome) : bool :=
  match oc_Result o with
  | Disposition_Committed | Disposition_Terminal => true
  | _ => false
  end.

Definition attempt_priority (a : Priority * string * Outcome) : Z :=
  Priority_value a.1.1.

Definition descending : list Z -> Prop := StronglySorted (fun a b => b <= a).

Lemma TryAll_resolved t l : _resolved t = true -> TryAll t l = ([], t).
Proof.
  intros H. induction l as [|[[p name] o] l IH]; cbn; [done|].
  unfold Try. rewrite H. by rewrite IH.
Qed.

(** How a run ends: everything ran without resolving; or the last attempt that
    ran resolved the tick; or an attempt above the priority before it was
    refused. *)
Inductive tick_end (last : Z) (l : list (Priority * string * Outcome))
    : list (Priority * string * Outcome) -> Tick -> Prop :=
| end_open t :
    Forall (fun a => resolves a.2 = false) l ->
    _resolved t = false -> _orderingValid t = true -> tick_end last l l t
| end_resolved pre a rest t :
    l = pre ++ a :: rest -> Forall (fun a => resolves a.2 = false) pre ->
    resolves a.2 = true -> _resolved t = true -> _orderingValid t = true ->
    _outcome t = a.2 -> tick_end last l (pre ++ [a]) t
| end_inversion ex a rest t :
    l = ex ++ a :: rest -> Forall (fun a => resolves a.2 = false) ex ->
    List.last (attempt_priority <$> ex) last < attempt_priority a ->
    _resolved t = true -> _orderingValid t = false ->
    _outcome t = Outcome_Terminal "action_priority_inversion" ->
    tick_end last l ex t.

Lemma last_cons_default {A} (d x : A) l : List.last (x :: l) d = List.last l x.
Proof.
  revert d x. induction l as [|y l IH]; intros d x; [done|].
  change (List.last (y :: l) d = List.last (y :: l) x). by rewrite !IH.
Qed.

Lemma tick_end_cons last l ex t a :
  resolves a.2 = false -> attempt_priority a <= last ->
  tick_end (attempt_priority a) l ex t -> tick_end last (a :: l) (a :: ex) t.
Proof.
  intros Ha Hp H. inversion H as [? H1 H2 H3|pre b rest ? E H1 H2 H3 H4 H5
    |? b rest ? E H1 H2 H3 H4 H5]; subst.
  - apply end_open; auto.
  - eapply (end_resolved last _ (a :: pre)); cbn; auto.
  - eapply end_inversion; cbn [app]; auto. rewrite fmap_cons, last_cons_default. done.
Qed.

Lemma TryAll_end t l :
  _resolved t = false -> _orderingValid t = true -> 0 <= _attemptCount t ->
  _attemptCount t + Z.of_nat (length l) < 2 ^ 16 ->
  (_attemptCount t = 0 -> _lastPriority t = Priority_value Priority_Terminal) ->
  tick_end (_lastPriority t) l (TryAll t l).1 (TryAll t l).2 /\
  descending (_lastPriority t :: (attempt_priority <$> (TryAll t l).1)).
Proof.
  revert t. induction l as [|[[p name] o] l IH]; intros t Hr Ho Hc Hn Hl.
  { split; [by apply end_open|repeat constructor]. }
  cbn [length] in Hn. cbn [TryAll]. unfold Try. rewrite Hr.
  assert (Hmax : Priority_value p <= Priority_value Priority_Terminal)
    by (destruct p; cbn; lia).
  destruct (nz (_attemptCount t) && (_lastPriority t <? Priority_value p)) eqn:E; b2p.
  - rewrite TryAll_resolved by done. cbn [fst snd fmap list_fmap]. split.
    + apply (end_inversion _ _ [] (p, name, o) l); try done. cbn. tauto.
    + repeat constructor.
  - assert (Hp : Priority_value p <= _lastPriority t) by lia.
    set (t1 := mkTick _ _ _ _ _ _).
    destruct (resolves o) eqn:Eo.
    + rewrite (TryAll_resolved t1) by (unfold resolves in Eo; cbn; by destruct (oc_Result o)).
      cbn [fst snd]. split.
      * apply (end_resolved _ _ [] (p, name, o) l); done.
      * repeat constructor. done.
    + assert (Hw : u16 (_attemptCount t + 1) = _attemptCount t + 1)
        by (apply u16_small; lia).
      subst t1. rewrite Hw.
      match goal with |- context [TryAll ?t1 l] => destruct (IH t1) as [H1 H2] end;
        cbn [_resolved _orderingValid _attemptCount _lastPriority] in *; try done; try lia.
      destruct (TryAll _ l) as [ex t2]. cbn [fst snd] in *. split.
      * by apply tick_end_cons.
      * rewrite fmap_cons. unfold descending in *. inversion H2 as [|? ? Hs Hall]; subst.
        constructor; [done|]. constructor; [done|].
        eapply Forall_impl; [exact Hall|]. cbn. intros. lia.
Qed.

(** The priority tick: of any sequence of candidates (fewer than 2^16), the
    attempts that run are a prefix in descending priority in which only the
    last may commit or terminate; what follows a resolution never runs, and an
    attempt above its predecessor's priority ends the tick as terminal without
    running. *)
Theorem Tick_runs_descending_prefix l (Hlen : Z.of_nat (length l) < 2 ^ 16) :
  let ran := (TryAll Tick_default l).1 in
  descending (attempt_priority <$> ran) /\
  tick_end (Priority_value Priority_Terminal) l ran (TryAll Tick_default l).2.
Proof.
  destruct (TryAll_end Tick_default l) as [H1 H2]; try done.
  split; [|done]. by inversion H2.
Qed.

Example Tick_runs_descending_prefix_witness :
  descending (attempt_priority <$> (TryAll Tick_default
    [(Priority_Survival, "a"%string, Outcome_Retryable "x");
     (Priority_Support, "b"%string, Outcome_Committed "y");
     (Priority_Mechanic, "c"%string, Outcome_Committed "z")]).1).
Proof. apply Tick_runs_descending_prefix. vm_compute. done. Defined.

(** ** Escaping *)

(** Reads back what [Escape] wrote. *)
Fixpoint Unescape (value : string) : string :=
  match value with
  | EmptyString => EmptyString
  | String c rest =>
      if Ascii.eqb c (ascii_of_nat 92) then
        match rest with
        | EmptyString => EmptyString
        | String d rest' =>
            if Ascii.eqb d (ascii_of_nat 110)
            then String (ascii_of_nat 10) (Unescape rest')
            else String d (Unescape rest')
        end
      else String c (Unescape rest)
  end.

Ltac eqb_ground :=
  repeat match goal with
    | |- context [Ascii.eqb (ascii_of_nat ?a) (ascii_of_nat ?b)] =>
        let v := eval vm_compute in (Ascii.eqb (ascii_of_nat a) (ascii_of_nat b)) in
        change (Ascii.eqb (ascii_of_nat a) (ascii_of_nat b)) with v
    end.

(** The JSON escaping of the kernel's traces loses nothing: unescaping
    gives the text back. *)
Theorem Unescape_Escape s : Unescape (Escape s) = s.
Proof.
  induction s as [|c s IH]; [done|]. cbn [Escape].
  destruct (Ascii.eqb_spec c (ascii_of_nat 92)) as [->|H1];
    [|destruct (Ascii.eqb_spec c (ascii_of_nat 34)) as [->|H2];
      [|destruct (Ascii.eqb_spec c (ascii_of_nat 10)) as [->|H3]]];
    cbn [orb]; eqb_ground; cbn [Unescape]; eqb_ground; cbn [Unescape];
    rewrite ?IH; try done.
  apply Ascii.eqb_neq in H1. by rewrite H1.
Qed.

(** ** Witnesses *)

Definition sample_attempt (o : Outcome) : option (gmap string Lifecycle -> nat -> AttemptResult) :=
  Some (fun _ w => mkAttemptResult o (S w) []).

Definition sample_candidate (key : string) (p : Priority) (mask : Z) (o : Outcome)
    : @Candidate nat :=
  mkCandidate key "world" p f32_zero f32_zero f32_zero mask 0 100 3000 5 true ""
    (sample_attempt o).

Example Better_strict_weak_witness :
  let c p := mkQueuedCandidate (sample_candidate "k" p 0 (Outcome_Committed "x")) 0 in
  Better (c Priority_Survival) (c Priority_Idle) = true.
Proof.
  cbv zeta.
  apply (proj1 (proj2 (Better_strict_weak
    (mkQueuedCandidate (sample_candidate "k" Priority_Survival 0 (Outcome_Committed "x")) 0)
    (mkQueuedCandidate (sample_candidate "k" Priority_Support 0 (Outcome_Committed "x")) 0)
    (mkQueuedCandidate (sample_candidate "k" Priority_Idle 0 (Outcome_Committed "x")) 0)
    eq_refl eq_refl eq_refl))); reflexivity.
Defined.

Example Resolve_submission_order_witness :
  let a := sample_candidate "heal" Priority_Support 3 (Outcome_Committed "a") in
  let b := sample_candidate "move" Priority_Mechanic 6 (Outcome_Committed "b") in
  Resolve (submit_all (Begin Kernel_default 1000) [a; b]) 0%nat =
  Resolve (submit_all (Begin Kernel_default 1000) [b; a]) 0%nat.
Proof.
  cbv zeta. apply Resolve_submission_order.
  - apply Permutation_swap.
  - cbn. repeat constructor; set_solver.
  - repeat constructor.
Defined.

Example failure_backoff_window_witness :
  let c := sample_candidate "heal" Priority_Support 3 (Outcome_Committed "a") in
  let fail := Outcome_Retryable "out_of_range" in
  let k := Begin Kernel_default 1350 in
  MaskReason (Propose (ObserveAll k "heal" ([(fail, 1000)] ++ [(fail, 1200)]) 100 3000 5) c) c
  = Some ("backoff"%string, "out_of_range"%string).
Proof.
  cbv zeta.
  eapply eq_trans; [apply (failure_backoff_window (Begin Kernel_default 1350)
    [(Outcome_Retryable "out_of_range", 1000)] (Outcome_Retryable "out_of_range") 1200
    (sample_candidate "heal" Priority_Support 3 (Outcome_Committed "a")));
    try reflexivity; try (cbn; lia); by repeat constructor|reflexivity].
Defined.
