(* ===== verification/MovementArbiter.v ===== *)
(** Movement leases: [Bots/BotMovementArbiter.h].

    One movement owner at a time holds a short lease on a bot's movement; a
    request acquires, refreshes or preempts it, or is turned away. *)
From S2P Require Import Prelude.
From Stdlib Require Import ZArith Lia SpecFloat.
From stdpp Require Import base list.

Open Scope Z_scope.
Open Scope tc_scope.

Inductive Owner : Type :=
| Owner_None | Owner_Route | Owner_Formation | Owner_CombatRange | Owner_Support
| Owner_Mechanic | Owner_Hazard | Owner_Recovery.

Inductive Priority : Type :=
| Priority_Idle | Priority_Route | Priority_Formation | Priority_Combat
| Priority_Support | Priority_Mechanic | Priority_Hazard | Priority_Recovery.

#[export] Instance Owner_eq_dec : EqDecision Owner.
Proof. solve_decision. Defined.
#[export] Instance Priority_eq_dec : EqDecision Priority.
Proof. solve_decision. Defined.

Definition Priority_value (p : Priority) : Z :=
  match p with
  | Priority_Idle => 0
  | Priority_Route => 20
  | Priority_Formation => 40
  | Priority_Combat => 60
  | Priority_Support => 80
  | Priority_Mechanic => 100
  | Priority_Hazard => 120
  | Priority_Recovery => 140
  end.

Record Scope : Type := mkScope {
  sc_AttemptId : Z;
  sc_WipeGeneration : Z;
  sc_RouteGeneration : Z;
  sc_MapId : Z;
  sc_InstanceId : Z
}.

Definition Scope_default : Scope := mkScope 0 0 0 u32_max 0.

Record Lease : Type := mkLease {
  ls_MovementOwner : Owner;
  ls_MovementPriority : Priority;
  ls_ExpiresAtMs : Z;
  ls_MovementScope : Scope;
  ls_X : f32;
  ls_Y : f32;
  ls_Z : f32;
  ls_DynamicTargetGuid : Z
}.

Definition Lease_default : Lease :=
  mkLease Owner_None Priority_Idle 0 Scope_default f32_zero f32_zero f32_zero 0.

Record Request : Type := mkRequest {
  rq_MovementOwner : Owner;
  rq_MovementPriority : Priority;
  rq_ExpiresAtMs : Z;
  rq_MovementScope : Scope;
  rq_X : f32;
  rq_Y : f32;
  rq_Z : f32;
  rq_DynamicTargetGuid : Z
}.

Record NativePathReceipt : Type := mkNativePathReceipt {
  np_Active : bool;
  np_Path : Lease
}.

Inductive Decision : Type :=
| Decision_Acquire | Decision_Refresh | Decision_Preempt
| Decision_PreserveExisting | Decision_RejectInvalid.

#[export] Instance Decision_eq_dec : EqDecision Decision.
Proof. solve_decision. Defined.

Definition ValidScope (scope : Scope) : bool := negb (sc_MapId scope =? u32_max).

Definition SameScope (left right : Scope) : bool :=
  (sc_AttemptId left =? sc_AttemptId right)
  && (sc_WipeGeneration left =? sc_WipeGeneration right)
  && (sc_RouteGeneration left =? sc_RouteGeneration right)
  && (sc_MapId left =? sc_MapId right)
  && (sc_InstanceId left =? sc_InstanceId right).

(** [0.1f]. *)
Definition default_epsilon : f32 := S754_finite false 13421773 (-27).

Definition SameDestination (lease : Lease) (request : Request) (epsilon : f32)
    : bool :=
  if nz (ls_DynamicTargetGuid lease) || nz (rq_DynamicTargetGuid request)
  then nz (ls_DynamicTargetGuid lease)
       && (ls_DynamicTargetGuid lease =? rq_DynamicTargetGuid request)
  else f32_le (f32_abs (f32_sub (ls_X lease) (rq_X request))) epsilon
       && f32_le (f32_abs (f32_sub (ls_Y lease) (rq_Y request))) epsilon
       && f32_le (f32_abs (f32_sub (ls_Z lease) (rq_Z request))) epsilon.

Definition MatchesNativePath (receipt : NativePathReceipt) (request : Request)
    (epsilon : f32) : bool :=
  np_Active receipt
  && bool_decide (ls_MovementOwner (np_Path receipt) = rq_MovementOwner request)
  && SameScope (ls_MovementScope (np_Path receipt)) (rq_MovementScope request)
  && SameDestination (np_Path receipt) request epsilon.

Definition ValidRequest (request : Request) (nowMs : Z) : bool :=
  bool_decide (rq_MovementOwner request <> Owner_None)
  && bool_decide (rq_MovementPriority request <> Priority_Idle)
  && (nowMs <? rq_ExpiresAtMs request)
  && ValidScope (rq_MovementScope request).

Definition Evaluate (lease : Lease) (request : Request) (nowMs : Z) : Decision :=
  if negb (ValidRequest request nowMs) then Decision_RejectInvalid
  else if bool_decide (ls_MovementOwner lease = Owner_None)
          || (ls_ExpiresAtMs lease <=? nowMs)
          || negb (SameScope (ls_MovementScope lease) (rq_MovementScope request))
  then Decision_Acquire
  else if bool_decide (ls_MovementOwner lease = rq_MovementOwner request)
          && SameDestination lease request default_epsilon
  then Decision_Refresh
  else if bool_decide (ls_MovementOwner lease = rq_MovementOwner request)
          && negb (nz (ls_DynamicTargetGuid lease))
          && nz (rq_DynamicTargetGuid request)
  then Decision_Preempt
  else if Priority_value (ls_MovementPriority lease)
          <? Priority_value (rq_MovementPriority request)
  then Decision_Preempt
  else Decision_PreserveExisting.

Definition Apply (lease : Lease) (request : Request) : Lease :=
  mkLease (rq_MovementOwner request) (rq_MovementPriority request)
    (rq_ExpiresAtMs request) (rq_MovementScope request)
    (rq_X request) (rq_Y request) (rq_Z request) (rq_DynamicTargetGuid request).

Definition Clear (lease : Lease) : Lease := Lease_default.

(** ** The lease protocol

    The executor admits a request when [Evaluate] neither rejects it nor
    preserves the existing lease, and applies it once native movement has
    started; planning may also fail and leave the lease as it was. *)

Definition admits (d : Decision) : bool :=
  match d with
  | Decision_Acquire | Decision_Refresh | Decision_Preempt => true
  | _ => false
  end.

Inductive lease_step (l : Lease) : Request * Z -> Lease -> Prop :=
| lease_applied r now :
    admits (Evaluate l r now) = true -> lease_step l (r, now) (Apply l r)
| lease_kept r now : lease_step l (r, now) l.

Inductive lease_run : Lease -> list (Request * Z) -> Lease -> Prop :=
| run_nil l : lease_run l [] l
| run_cons l e l' es l'' :
    lease_step l e l' -> lease_run l' es l'' -> lease_run l (e :: es) l''.

Definition live (l : Lease) (now : Z) : Prop :=
  ls_MovementOwner l <> Owner_None /\ now < ls_ExpiresAtMs l.

Lemma SameScope_refl s : SameScope s s = true.
Proof. unfold SameScope. by rewrite !Z.eqb_refl. Qed.

Lemma SameScope_eq s t : SameScope s t = true <-> s = t.
Proof.
  split; [|intros ->; apply SameScope_refl].
  unfold SameScope. destruct s, t; cbn. b2p. intros [[[[-> ->] ->] ->] ->]. done.
Qed.

#[export] Hint Rewrite SameScope_eq bool_decide_eq_true bool_decide_eq_false : tc_bool.

Definition finite_destination (r : Request) : bool :=
  f32_is_finite (rq_X r) && f32_is_finite (rq_Y r) && f32_is_finite (rq_Z r).

Lemma close_diag x :
  f32_is_finite x = true -> f32_le (f32_abs (f32_sub x x)) default_epsilon = true.
Proof. intros H. destruct (f32_sub_diag x H) as [s ->]. by destruct s. Qed.

Lemma SameDestination_apply l r :
  finite_destination r = true \/ rq_DynamicTargetGuid r <> 0 ->
  SameDestination (Apply l r) r default_epsilon = true.
Proof.
  unfold finite_destination, SameDestination. cbn.
  destruct (nz (rq_DynamicTargetGuid r)) eqn:E; cbn.
  - by rewrite Z.eqb_refl.
  - b2p. intros [[[]]|]; [|done]. by rewrite !close_diag by done.
Qed.

(** What a live lease admits: a request in the same scope is admitted
    exactly when it is valid and either comes from the lease's own owner with
    the same destination, or upgrades that owner's point to a live target, or
    has a strictly higher priority; everything else keeps the lease. *)
Theorem Evaluate_live_lease (l : Lease) (r : Request) (now : Z)
    (Hlive : live l now) (Hscope : ls_MovementScope l = rq_MovementScope r) :
  admits (Evaluate l r now) = true <->
  ValidRequest r now = true /\
  (ls_MovementOwner l = rq_MovementOwner r /\
     SameDestination l r default_epsilon = true \/
   ls_MovementOwner l = rq_MovementOwner r /\
     ls_DynamicTargetGuid l = 0 /\ rq_DynamicTargetGuid r <> 0 \/
   Priority_value (ls_MovementPriority l) < Priority_value (rq_MovementPriority r)).
Proof.
  destruct Hlive as [Ho Ht]. unfold Evaluate.
  destruct (ValidRequest r now); cbn [negb]; [|cbn; split; [done|by intros []]].
  rewrite (bool_decide_eq_false_2 _ Ho), Hscope, SameScope_refl.
  rewrite (proj2 (Z.leb_gt _ _)) by lia. cbn [orb negb].
  split.
  - intros H. split; [done|]. revert H. repeat (split_guard; b2p; try done); tauto.
  - intros [_ H]. repeat (split_guard; b2p; try done). exfalso.
    destruct (SameDestination l r default_epsilon); intuition (discriminate || lia).
Qed.

(** C3. A live lease cannot be stolen: over any run of requests of other owners
    in its scope, none of higher priority and all before its expiry, the lease
    does not change. *)
Theorem lease_protected (l : Lease) es l' (Hrun : lease_run l es l')
    (Hreqs : Forall (fun e => live l e.2 /\
       ls_MovementScope l = rq_MovementScope e.1 /\
       ls_MovementOwner l <> rq_MovementOwner e.1 /\
       Priority_value (rq_MovementPriority e.1)
         <= Priority_value (ls_MovementPriority l)) es) :
  l' = l.
Proof.
  induction Hrun as [|l e l1 es l2 Hs Hrun IH]; [done|].
  apply Forall_cons in Hreqs as [(Hl & Hsc & Ho & Hp) Hes].
  assert (l1 = l) as ->; [|by apply IH].
  inversion Hs as [r now Ha|]; subst; [|done]. exfalso. cbn in *.
  apply (Evaluate_live_lease l r now Hl Hsc) in Ha as [_ [[? _]|[[? _]|?]]]; [done..|lia].
Qed.

(** Applying an admitted request settles it: until it expires, the same
    request is refreshed in place, so a bot that repeats its request neither
    preempts itself nor is turned away. *)
Theorem Apply_then_refresh (l : Lease) (r : Request) (now now' : Z)
    (Hadm : admits (Evaluate l r now) = true) (Hlater : now <= now' < rq_ExpiresAtMs r)
    (Hdest : finite_destination r = true \/ rq_DynamicTargetGuid r <> 0) :
  Evaluate (Apply l r) r now' = Decision_Refresh /\ Apply (Apply l r) r = Apply l r /\
  MatchesNativePath (mkNativePathReceipt true (Apply l r)) r default_epsilon = true.
Proof.
  assert (Hv : ValidRequest r now' = true).
  { unfold Evaluate in Hadm. destruct (ValidRequest r now) eqn:E; [|done].
    revert E. unfold ValidRequest. b2p. intros [[[]] ]. repeat split; try done. lia. }
  assert (Ho : rq_MovementOwner r <> Owner_None).
  { unfold ValidRequest in Hv. b2p. tauto. }
  split_and!; [|done|].
  - unfold Evaluate. rewrite Hv. cbn. rewrite (bool_decide_eq_false_2 _ Ho), SameScope_refl.
    rewrite (proj2 (Z.leb_gt _ _)) by lia. cbn. rewrite bool_decide_eq_true_2 by done.
    by rewrite (SameDestination_apply l r Hdest).
  - unfold MatchesNativePath. cbn. rewrite bool_decide_eq_true_2, SameScope_refl by done.
    by rewrite (SameDestination_apply l r Hdest).
Qed.

(** ** Witnesses *)

Definition sample_scope : Scope := mkScope 1 0 0 0 0.
Definition sample_request (o : Owner) (p : Priority) (guid : Z) : Request :=
  mkRequest o p 2500 sample_scope (f32_of_Z 10) (f32_of_Z 20) (f32_of_Z 3) guid.
Definition sample_lease : Lease :=
  Apply Lease_default (sample_request Owner_Mechanic Priority_Mechanic 0).

Example Evaluate_live_lease_witness :
  admits (Evaluate sample_lease (sample_request Owner_Hazard Priority_Hazard 0) 1000) = true.
Proof.
  apply (proj2 (Evaluate_live_lease sample_lease
    (sample_request Owner_Hazard Priority_Hazard 0) 1000 ltac:(split; [done|reflexivity])
    eq_refl)).
  split; [reflexivity|]. right. right. reflexivity.
Defined.

Example lease_protected_witness :
  exists l', lease_run sample_lease [(sample_request Owner_Route Priority_Route 7, 1000)] l'
    /\ l' = sample_lease.
Proof.
  exists sample_lease.
  assert (Hrun : lease_run sample_lease
    [(sample_request Owner_Route Priority_Route 7, 1000)] sample_lease)
    by (econstructor; [apply lease_kept|constructor]).
  split; [exact Hrun|]. apply (lease_protected _ _ _ Hrun). constructor; [|constructor].
  split_and!; [split; [done|reflexivity]|done|done|done].
Defined.

Example Apply_then_refresh_witness :
  Evaluate sample_lease (sample_request Owner_Mechanic Priority_Mechanic 0) 1000
  = Decision_Refresh.
Proof.
  refine (proj1 (Apply_then_refresh Lease_default
    (sample_request Owner_Mechanic Priority_Mechanic 0) 900 1000 _ _ _));
    [reflexivity|cbn; lia|left; reflexivity].
Defined.
