(* ===== verification/Doubles.v ===== *)
(** Double precision numbers, as far as the route contracts use them: reading a
    decimal literal ([std::strtod]), comparing with integer bounds, and
    converting to integers and to [float].

    [double] of the source is IEEE 754 binary64 with round to nearest even,
    the standard's [spec_float] at precision 53 and exponent bound 1024. *)
From S2P Require Import Prelude.
From Stdlib Require Import ZArith Lia.
From Corelib Require Import SpecFloat.
From stdpp Require Import base tactics list.

Open Scope Z_scope.

Definition f64 : Type := spec_float.

Definition f64_zero : f64 := S754_zero false.
Definition f64_lt : f64 -> f64 -> bool := SFltb.
Definition f64_gt (a b : f64) : bool := SFltb b a.

(** [double(n)] of an integer. *)
Definition f64_of_Z (n : Z) : f64 := binary_normalize 53 1024 n 0 false.

Definition f64_is_finite (x : f64) : bool :=
  match x with S754_zero _ | S754_finite _ _ _ => true | _ => false end.

(** [float(x)]. *)
Definition f32_of_f64 (x : f64) : f32 :=
  match x with
  | S754_finite s m e => binary_normalize 24 128 (cond_Zopp s (Zpos m)) e s
  | S754_zero s => S754_zero s
  | S754_infinity s => S754_infinity s
  | S754_nan => S754_nan
  end.

(** The integral part of the value of a number, towards zero; the conversion of
    a [double] to an integer type that can hold it. *)
Definition f64_trunc (x : f64) : Z :=
  match x with
  | S754_finite s m e =>
      cond_Zopp s (if 0 <=? e then Zpos m * 2 ^ e else Zpos m / 2 ^ (- e))
  | _ => 0
  end.

(** [std::strtod] of the decimal number [(-1)^neg * digits * 10^e10], correctly
    rounded. *)
Definition decimal_to_f64 (neg : bool) (digits e10 : Z) : f64 :=
  match digits with
  | Zpos m =>
      if 0 <=? e10 then
        match 10 ^ e10 with
        | Zpos p => binary_round 53 1024 neg (m * p) 0
        | _ => S754_nan
        end
      else
        let '(q, e, l) := SFdiv_core_binary 53 1024 (Zpos m) 0 (10 ^ (- e10)) 0 in
        binary_round_aux 53 1024 neg q e l
  | _ => S754_zero neg
  end.

(** The significand fits the format. *)
Definition f64_fits (x : f64) : Prop :=
  match x with S754_finite _ m _ => Zpos m < 2 ^ 53 | _ => True end.

(** [n] is represented exactly, with a full significand. *)
Definition f64_exact (n : Z) : bool :=
  match f64_of_Z n with
  | S754_finite false m e => (2 ^ 52 <=? Zpos m) && (e <=? 0) && (Zpos m =? n * 2 ^ (- e))
  | _ => false
  end.

(** ** Rounding keeps the significand within the format *)

Lemma digits2_pos_size m : digits2_pos m = Pos.size m.
Proof. induction m as [m IH|m IH|]; cbn; rewrite ?IH; done. Qed.

Lemma Zdigits2_bound m n : 0 <= m -> 0 <= n -> Zdigits2 m <= n <-> m < 2 ^ n.
Proof.
  intros Hm Hn. destruct m as [|p|p]; [|cbn [Zdigits2]; rewrite digits2_pos_size|lia].
  - cbn. split; intros _; [by apply Z.pow_pos_nonneg|done].
  - pose proof (Pos.size_gt p). pose proof (Pos.size_le p). split; intros H1.
    + apply (Z.lt_le_trans _ (2 ^ Zpos (Pos.size p))); [by rewrite <- Pos2Z.inj_pow|].
      apply Z.pow_le_mono_r; lia.
    + destruct (Z.le_gt_cases (Zpos (Pos.size p)) n) as [|Hgt]; [done|].
      assert (2 ^ n <= 2 ^ (Zpos (Pos.size p) - 1)) by (apply Z.pow_le_mono_r; lia).
      assert (2 ^ Zpos (Pos.size p) = 2 * 2 ^ (Zpos (Pos.size p) - 1)).
      { rewrite <- Z.pow_succ_r by lia. f_equal. lia. }
      assert (2 ^ Zpos (Pos.size p) <= 2 * Zpos p) by (rewrite <- Pos2Z.inj_pow; lia).
      lia.
Qed.

Lemma shr_1_div r : 0 <= shr_m r -> shr_m (shr_1 r) = shr_m r / 2.
Proof.
  destruct r as [m r s]. cbn. rewrite <- Z.div2_div.
  destruct m as [|[p|p|]|p]; cbn; lia.
Qed.

Lemma iter_shr_1_div p r :
  0 <= shr_m r -> shr_m (SpecFloat.iter_pos shr_1 p r) = shr_m r / 2 ^ Zpos p.
Proof.
  revert r. induction p as [p IH|p IH|]; intros r Hr; cbn [SpecFloat.iter_pos].
  - assert (H1 : 0 <= shr_m (shr_1 r)) by (rewrite shr_1_div by done; apply Z.div_pos; lia).
    assert (H2 : 0 <= shr_m (SpecFloat.iter_pos shr_1 p (shr_1 r)))
      by (rewrite IH by done; apply Z.div_pos; lia).
    rewrite (IH _ H2), (IH _ H1), shr_1_div, !Z.div_div by lia. f_equal.
    rewrite (Pos2Z.inj_xI p), Z.pow_add_r by lia.
    replace (2 * Zpos p) with (Zpos p + Zpos p) by lia. rewrite Z.pow_add_r by lia. lia.
  - assert (H2 : 0 <= shr_m (SpecFloat.iter_pos shr_1 p r))
      by (rewrite IH by done; apply Z.div_pos; lia).
    rewrite (IH _ H2), (IH _ Hr), Z.div_div by lia. f_equal. rewrite (Pos2Z.inj_xO p).
    replace (2 * Zpos p) with (Zpos p + Zpos p) by lia. rewrite Z.pow_add_r by lia. lia.
  - by rewrite shr_1_div.
Qed.

Lemma shr_fexp_fits m e l : 0 <= m ->
  0 <= shr_m (shr_fexp 53 1024 m e l).1 < 2 ^ 53.
Proof.
  intros Hm. unfold shr_fexp, shr, fexp, emin.
  assert (Hl : shr_m (shr_record_of_loc m l) = m) by by destruct l as [|[]].
  pose proof (proj1 (Zdigits2_bound m (Zdigits2 m) Hm ltac:(by destruct m)) ltac:(lia)) as Hd.
  destruct (Z.max _ _ - e) as [|p|p] eqn:E; cbn [fst]; rewrite ?Hl.
  1, 3: split; [done|]; apply (Z.lt_le_trans _ (2 ^ Zdigits2 m)); [done|];
    apply Z.pow_le_mono_r; lia.
  rewrite iter_shr_1_div, Hl by by rewrite Hl.
  split; [apply Z.div_pos; lia|]. apply Z.div_lt_upper_bound; [lia|].
  rewrite <- Z.pow_add_r by lia.
  apply (Z.lt_le_trans _ (2 ^ Zdigits2 m)); [done|]. apply Z.pow_le_mono_r; lia.
Qed.

Lemma binary_round_aux_fits s m e l :
  0 <= m -> f64_fits (binary_round_aux 53 1024 s m e l).
Proof.
  intros Hm. unfold binary_round_aux.
  pose proof (shr_fexp_fits m e l Hm) as H1. destruct (shr_fexp _ _ m e l) as [r1 e1].
  cbn [fst] in H1.
  assert (Hr : 0 <= round_nearest_even (shr_m r1) (loc_of_shr_record r1)).
  { unfold round_nearest_even. destruct (loc_of_shr_record r1) as [|[]]; try case_match; lia. }
  pose proof (shr_fexp_fits _ e1 loc_Exact Hr) as H2.
  destruct (shr_fexp _ _ _ e1 loc_Exact) as [r2 e2]. cbn [fst] in H2.
  destruct (shr_m r2) as [|p|p]; [done| |done].
  destruct (e2 <=? 1024 - 53); [cbn; lia|done].
Qed.

Lemma decimal_to_f64_fits neg d e10 : f64_fits (decimal_to_f64 neg d e10).
Proof.
  unfold decimal_to_f64. destruct d as [|m|m]; [done| |done].
  destruct (0 <=? e10) eqn:E.
  - destruct (10 ^ e10) as [|p|p]; [done| |done]. unfold binary_round.
    destruct (shl_align _ _ _) as [mz ez]. by apply binary_round_aux_fits.
  - apply Z.leb_gt in E. unfold SFdiv_core_binary.
    set (x := match _ - _ - _ with 0 => _ | _ => _ end).
    assert (Hx : 0 <= x).
    { unfold x. case_match; try lia. apply Z.shiftl_nonneg. lia. }
    pose proof (Z.pow_pos_nonneg 10 (- e10) ltac:(lia) ltac:(lia)) as Hp.
    pose proof (Z.div_pos x _ Hx Hp) as Hd. unfold Z.div in Hd.
    destruct (Z.div_eucl x (10 ^ - e10)) as [q r]. by apply binary_round_aux_fits.
Qed.

(** ** Comparisons with integer bounds bound the integral part *)

Lemma f64_exact_spec n : f64_exact n = true -> exists m e,
  f64_of_Z n = S754_finite false m e /\ 2 ^ 52 <= Zpos m /\ e <= 0 /\ Zpos m = n * 2 ^ (- e).
Proof.
  unfold f64_exact. destruct (f64_of_Z n) as [| | |[] m e]; try done.
  intros H. b2p. exists m, e. tauto.
Qed.

Lemma trunc_le n m e k mk ek :
  Zpos m < 2 ^ 53 -> 2 ^ 52 <= Zpos mk -> ek <= 0 -> Zpos mk = k * 2 ^ (- ek) ->
  (e < ek \/ e = ek /\ Zpos m <= Zpos mk) -> n = f64_trunc (S754_finite false m e) -> n <= k.
Proof.
  intros Hm Hk He Ek Hlt ->. cbn. destruct (0 <=? e) eqn:E; b2p.
  - assert (e = 0 /\ ek = 0) as [-> ->] by lia. lia.
  - apply Z.div_le_upper_bound; [apply Z.pow_pos_nonneg; lia|].
    assert (0 < 2 ^ (- ek)) by (apply Z.pow_pos_nonneg; lia).
    destruct Hlt as [Hlt|[-> Hle]]; [|lia].
    replace (- e) with (- ek + (ek - e)) by lia. rewrite Z.pow_add_r by lia.
    assert (2 ^ 1 <= 2 ^ (ek - e)) by (apply Z.pow_le_mono_r; lia). nia.
Qed.

Lemma f64_trunc_upper x n :
  f64_fits x -> f64_exact n = true -> f64_gt x (f64_of_Z n) = false -> f64_trunc x <= n.
Proof.
  intros Hx Hn. destruct (f64_exact_spec n Hn) as (m & e & -> & H1 & H2 & H3).
  assert (0 < 2 ^ (- e)) by (apply Z.pow_pos_nonneg; lia).
  unfold f64_gt, SFltb. destruct x as [s|s| |s mx ex]; cbn [f64_trunc]; try (intros; nia).
  destruct s.
  - intros _. assert (0 <= (if 0 <=? ex then Zpos mx * 2 ^ ex else Zpos mx / 2 ^ - ex)); [|cbn; nia].
    destruct (0 <=? ex) eqn:E; b2p; [|apply Z.div_pos; [lia|apply Z.pow_pos_nonneg; lia]].
    assert (0 < 2 ^ ex) by (apply Z.pow_pos_nonneg; lia). nia.
  - cbn [SFcompare]. intros Hc. eapply (trunc_le _ mx ex n m e); eauto.
    destruct (e ?= ex) eqn:E; try done.
    + apply Z.compare_eq in E. change (Pos.compare_cont Eq m mx) with (m ?= mx)%positive in Hc.
      destruct (m ?= mx)%positive eqn:F; try done; right; split; try done;
        [apply Pos.compare_eq in F|apply Pos.compare_gt_iff in F]; lia.
    + apply Z.compare_gt_iff in E. lia.
Qed.

Lemma f64_trunc_nonneg x : SFltb x f64_zero = false -> 0 <= f64_trunc x.
Proof.
  destruct x as [| | |[] m e]; try done. intros _. cbn. destruct (0 <=? e) eqn:E; b2p.
  - assert (0 < 2 ^ e) by (apply Z.pow_pos_nonneg; lia). nia.
  - apply Z.div_pos; [lia|apply Z.pow_pos_nonneg; lia].
Qed.

Lemma f64_trunc_minus_one x :
  f64_fits x -> f64_lt x (f64_of_Z (-1)) = false -> -1 <= f64_trunc x.
Proof.
  intros Hx. replace (f64_of_Z (-1)) with (SFopp (f64_of_Z 1)) by by vm_compute.
  destruct (f64_exact_spec 1 ltac:(by vm_compute)) as (m & e & -> & H1 & H2 & H3).
  cbn [SFopp negb]. unfold f64_lt, SFltb.
  destruct x as [s|s| |s mx ex]; cbn [f64_trunc]; try (intros; lia). destruct s.
  - cbn [SFcompare]. intros Hc.
    assert (f64_trunc (S754_finite false mx ex) <= 1); [|cbn in *; lia].
    eapply (trunc_le _ mx ex 1 m e); eauto.
    destruct (ex ?= e) eqn:E; try done.
    + apply Z.compare_eq in E. right; split; [done|].
      change (Pos.compare_cont Eq mx m) with (mx ?= m)%positive in Hc.
      intros F. change ((mx ?= m)%positive = Gt) in F. by rewrite F in Hc.
    + left. by apply Z.compare_lt_iff in E.
  - intros _. pose proof (f64_trunc_nonneg (S754_finite false mx ex) eq_refl). cbn in *. lia.
Qed.

(** ** Signs *)

Lemma binary_round_aux_nonneg m e l :
  f64_lt (binary_round_aux 53 1024 false m e l) f64_zero = false.
Proof.
  unfold binary_round_aux. destruct (shr_fexp _ _ m e l) as [r1 e1].
  destruct (shr_fexp _ _ _ e1 loc_Exact) as [r2 e2].
  destruct (shr_m r2); [done| |done]. by destruct (_ <=? _).
Qed.

Lemma decimal_to_f64_nonneg d e10 : f64_lt (decimal_to_f64 false d e10) f64_zero = false.
Proof.
  unfold decimal_to_f64. destruct d as [|m|m]; [done| |done].
  destruct (0 <=? e10).
  - destruct (10 ^ e10); [done| |done]. unfold binary_round.
    destruct (shl_align _ _ _). apply binary_round_aux_nonneg.
  - destruct (SFdiv_core_binary _ _ _ _ _ _) as [[q e] l]. apply binary_round_aux_nonneg.
Qed.

Lemma f64_trunc_nonneg_one x : f64_lt x (f64_of_Z 1) = false -> 0 <= f64_trunc x.
Proof.
  destruct (f64_exact_spec 1 ltac:(by vm_compute)) as (m & e & -> & _).
  destruct x as [s|s| |[] mx ex]; try done; try (intros; cbn; lia).
  intros _. by apply (f64_trunc_nonneg (S754_finite false mx ex)).
Qed.
