(* ===== verification/RouteTypes.v ===== *)
(** Native route contracts and their route-scoped state:
    [Bots/BotValidationRouteNativeTypes.h]. *)
From S2P Require Import Prelude.
From Stdlib Require Import ZArith Lia String Ascii.
From stdpp Require Import base gmap list strings.

Open Scope Z_scope.
Open Scope tc_scope.

(** ** Interaction *)

Inductive InteractionAction : Type :=
| InteractionAction_None | InteractionAction_GameObjectUse | InteractionAction_GossipSelect
| InteractionAction_GossipSelectSequence | InteractionAction_SpellClick
| InteractionAction_VehicleEnter | InteractionAction_AreaTrigger.

Inductive TargetType : Type :=
| TargetType_None | TargetType_Any | TargetType_GameObject | TargetType_Creature.

#[export] Instance InteractionAction_eq_dec : EqDecision InteractionAction.
Proof. solve_decision. Defined.
#[export] Instance TargetType_eq_dec : EqDecision TargetType.
Proof. solve_decision. Defined.

Record InteractionContract : Type := mkInteraction {
  ic_Declared : bool;
  ic_Action : InteractionAction;
  ic_ActionName : string;
  ic_Target : TargetType;
  ic_Entry : Z;
  ic_SpawnId : Z;
  ic_Menus : list Z;
  ic_Option : Z;
  ic_Seat : Z;
  ic_AreaTriggerId : Z;
  ic_OwnerRole : string;
  ic_OwnerRosterSlot : Z;
  ic_BackupRosterSlot : Z;
  ic_TimeoutMs : Z;
  ic_MaxAttempts : Z;
  ic_RetryIntervalMs : Z;
  ic_Gather : bool;
  ic_GatherRadiusYards : f32;
  ic_RangeYards : f32
}.

Definition InteractionContract_default : InteractionContract :=
  mkInteraction false InteractionAction_None "" TargetType_None 0 0 [] 0 (-1) 0 "" 0 0
    0 0 0 false f32_zero f32_zero.

Definition IsGossip (c : InteractionContract) : bool :=
  bool_decide (ic_Action c = InteractionAction_GossipSelect) ||
  bool_decide (ic_Action c = InteractionAction_GossipSelectSequence).

Definition LegacyOwner (c : InteractionContract) : bool :=
  str_empty (ic_OwnerRole c) && negb (nz (ic_OwnerRosterSlot c)).

(** ** Completion *)

Inductive CompletionKind : Type :=
| CompletionKind_None | CompletionKind_GameObjectSelectable
| CompletionKind_GameObjectDespawned | CompletionKind_BossSummoned
| CompletionKind_CreatureSummoned | CompletionKind_AuraPresent
| CompletionKind_CreatureAggressiveWithVictim
| CompletionKind_CreatureGroundedAggressiveOrEngaged
| CompletionKind_InstanceBossState | CompletionKind_OnTransport
| CompletionKind_VehicleSeated | CompletionKind_TransportAtStop
| CompletionKind_AnyOf | CompletionKind_AllOf.

Inductive MemberScope : Type := MemberScope_All | MemberScope_Any | MemberScope_Owner.

#[export] Instance CompletionKind_eq_dec : EqDecision CompletionKind.
Proof. solve_decision. Defined.
#[export] Instance MemberScope_eq_dec : EqDecision MemberScope.
Proof. solve_decision. Defined.

Inductive CompletionContract : Type := mkCompletion {
  cc_Declared : bool;
  cc_Kind : CompletionKind;
  cc_KindName : string;
  cc_Entry : Z;
  cc_SpawnId : Z;
  cc_SpellId : Z;
  cc_BossIndex : Z;
  cc_BossState : Z;
  cc_TransportEntry : Z;
  cc_TransportSpawnId : Z;
  cc_StopFrame : Z;
  cc_VehicleEntry : Z;
  cc_Seat : Z;
  cc_Scope : MemberScope;
  cc_RequireObservedPresent : bool;
  cc_TimeoutMs : Z;
  cc_Children : list CompletionContract
}.

Definition CompletionContract_default : CompletionContract :=
  mkCompletion false CompletionKind_None "" 0 0 0 (-1) 0 0 0 (-1) 0 (-1) MemberScope_All
    true 0 [].

Fixpoint UsesOwnerScope (c : CompletionContract) : bool :=
  bool_decide (cc_Scope c = MemberScope_Owner) || existsb UsesOwnerScope (cc_Children c).

(** Induction over a contract and its children. *)
Lemma completion_ind (P : CompletionContract -> Prop) :
  (forall c, Forall P (cc_Children c) -> P c) -> forall c, P c.
Proof.
  intros H. fix IH 1. intros c. apply H. destruct c as [d k n e s sp bi bs te ts sf ve se sc r t cs].
  cbn. induction cs as [|x cs IHcs]; constructor; [apply IH|apply IHcs].
Qed.

(** ** Transport *)

Record Point3 : Type := mkPoint3 { p_X : f32; p_Y : f32; p_Z : f32; p_Valid : bool }.

Definition Point3_default : Point3 := mkPoint3 f32_zero f32_zero f32_zero false.

Record TransportContract : Type := mkTransport {
  tc_Declared : bool;
  tc_Entry : Z;
  tc_SpawnId : Z;
  tc_BoardStopFrame : Z;
  tc_HasBoardLevel : bool;
  tc_BoardTransportZ : f32;
  tc_ExitStopFrame : Z;
  tc_HasExitLevel : bool;
  tc_ExitTransportZ : f32;
  tc_LevelToleranceYards : f32;
  tc_WaitPoint : Point3;
  tc_BoardPoint : Point3;
  tc_DisembarkPoint : Point3;
  tc_ExitPoint : Point3;
  tc_ArrivalToleranceYards : f32;
  tc_FloorToleranceYards : f32;
  tc_TimeoutMs : Z;
  tc_MaxSubmissions : Z
}.

(** 0.75f, 1.5f and 0.5f: exact in binary. *)
Definition f32_0_75 : f32 := SpecFloat.S754_finite false 12582912 (-24).
Definition f32_1_5 : f32 := SpecFloat.S754_finite false 12582912 (-23).
Definition f32_0_5 : f32 := SpecFloat.S754_finite false 8388608 (-24).

Definition TransportContract_default : TransportContract :=
  mkTransport false 0 0 (-1) false f32_zero (-1) false f32_zero f32_0_75
    Point3_default Point3_default Point3_default Point3_default f32_1_5 f32_0_5 0 5.

Definition HasExit (c : TransportContract) : bool :=
  (0 <=? tc_ExitStopFrame c) || tc_HasExitLevel c.

(** ** Route-scoped state *)

Record RuntimeScope : Type := mkRuntimeScope {
  rs_AttemptId : Z; rs_WipeGeneration : Z; rs_RouteGeneration : Z }.

#[export] Instance RuntimeScope_eq_dec : EqDecision RuntimeScope.
Proof. solve_decision. Defined.

Definition RuntimeScope_default : RuntimeScope := mkRuntimeScope 0 0 0.

Definition RuntimeScope_eqb (a b : RuntimeScope) : bool :=
  (rs_AttemptId a =? rs_AttemptId b) && (rs_WipeGeneration a =? rs_WipeGeneration b)
  && (rs_RouteGeneration a =? rs_RouteGeneration b).

Record AttemptState : Type := mkAttemptState { as_LastSubmitAtMs : Z; as_Attempts : Z }.

Definition AttemptState_default : AttemptState := mkAttemptState 0 0.

(** [CompletionMemory], a list of keys. *)
Definition CompletionMemory : Type := list string.

Fixpoint Seen (m : CompletionMemory) (key : string) : bool :=
  match m with
  | [] => false
  | seen :: rest => if String.eqb seen key then true else Seen rest key
  end.

Definition Remember (m : CompletionMemory) (key : string) : CompletionMemory :=
  if negb (Seen m key) then m ++ [key] else m.

Record TransportMemberState : Type := mkMemberState {
  ms_Boarded : bool;
  ms_Left : bool;
  ms_BoardSubmissions : Z;
  ms_LeaveSubmissions : Z;
  ms_FailedSubmissions : Z;
  ms_PlatformFloorSeen : bool;
  ms_FloorlessObservations : Z;
  ms_FloorlessSinceMs : Z;
  ms_LastReason : string
}.

Definition TransportMemberState_default : TransportMemberState :=
  mkMemberState false false 0 0 0 false 0 0 "".

Record NodeRuntime : Type := mkNodeRuntime {
  nr_Scope : RuntimeScope;
  nr_Started : bool;
  nr_StartedAtMs : Z;
  nr_Attempt : AttemptState;
  nr_Completion : CompletionMemory;
  nr_TransportMembers : gmap Z TransportMemberState;
  nr_VerdictValid : bool;
  nr_VerdictTick : Z;
  nr_VerdictSatisfied : bool;
  nr_VerdictReason : string;
  nr_CompletionRecorded : bool;
  nr_FailureRecorded : bool;
  nr_LastDiagnostic : string
}.

Definition NodeRuntime_default : NodeRuntime :=
  mkNodeRuntime RuntimeScope_default false 0 AttemptState_default [] ∅ false 0 false ""
    false false "".

(** [NodeRuntime::Enter]. *)
Definition Enter (r : NodeRuntime) (scope : RuntimeScope) (nowMs : Z) : NodeRuntime :=
  if nr_Started r && RuntimeScope_eqb (nr_Scope r) scope then r
  else mkNodeRuntime scope true nowMs AttemptState_default [] ∅ false 0 false "" false false "".

Record NodeContract : Type := mkNodeContract {
  nc_Interaction : InteractionContract;
  nc_Completion : CompletionContract;
  nc_Transport : TransportContract;
  nc_Runtime : NodeRuntime
}.

Definition NodeContract_Declared (n : NodeContract) : bool :=
  ic_Declared (nc_Interaction n) || cc_Declared (nc_Completion n)
  || tc_Declared (nc_Transport n).

(** ** Facts *)

Lemma RuntimeScope_eqb_eq a b : RuntimeScope_eqb a b = true <-> a = b.
Proof.
  destruct a, b. unfold RuntimeScope_eqb. cbn. b2p. split; [intros [[-> ->] ->]; done|].
  intros [= -> -> ->]. done.
Qed.

Lemma Seen_elem m key : Seen m key = true <-> key ∈ m.
Proof.
  induction m as [|s m IH]; cbn; [set_solver|].
  destruct (String.eqb_spec s key); set_solver.
Qed.

Lemma Seen_false m key : Seen m key = false <-> key ∉ m.
Proof. rewrite <- Seen_elem. by destruct (Seen m key). Qed.

Lemma elem_of_Remember m key k : k ∈ Remember m key <-> k ∈ m \/ k = key.
Proof.
  unfold Remember. destruct (Seen m key) eqn:E; cbn; [|set_solver].
  apply Seen_elem in E. set_solver.
Qed.

Lemma Remember_NoDup m key : NoDup m -> NoDup (Remember m key).
Proof.
  intros H. unfold Remember. destruct (Seen m key) eqn:E; cbn; [done|].
  apply Seen_false in E. apply NoDup_app. split_and!; [done| |repeat constructor; set_solver].
  set_solver.
Qed.
