(* ===== verification/RouteInteraction.v ===== *)
(** Native interactions of a route node: who owns the interaction, how many
    attempts it may make and when, and what the owner does next
    ([Bots/BotValidationRouteNativeLogic.h]). *)
From S2P Require Import Prelude RouteTypes.
From Stdlib Require Import ZArith Lia String Ascii Sorting.
From stdpp Require Import base gmap list strings sorting.

Open Scope Z_scope.
Open Scope tc_scope.

(** ** Owner election *)

Record MemberView : Type := mkMemberView {
  mv_Guid : Z; mv_Alive : bool; mv_Role : string; mv_RosterSlot : Z }.

Record OwnerElection : Type := mkElection {
  el_Owner : Z; el_UsedBackup : bool; el_Reason : string }.

(** The [lowestAlive] lambda. *)
Fixpoint lowestAlive_from (best : Z) (accept : MemberView -> bool) (members : list MemberView) : Z :=
  match members with
  | [] => best
  | m :: rest =>
      lowestAlive_from
        (if mv_Alive m && accept m && (negb (nz best) || (mv_Guid m <? best))
         then mv_Guid m else best) accept rest
  end.

Definition lowestAlive : (MemberView -> bool) -> list MemberView -> Z := lowestAlive_from 0.

(** The loop of the [slotOwner] lambda. *)
Fixpoint slotOwner_loop (slot : Z) (members : list MemberView) : Z :=
  match members with
  | [] => 0
  | m :: rest =>
      if mv_Alive m && (mv_RosterSlot m =? slot) then mv_Guid m else slotOwner_loop slot rest
  end.

Definition slotOwner (slot : Z) (members : list MemberView) : Z :=
  if negb (nz slot) then 0 else slotOwner_loop slot members.

Definition ElectOwner (contract : InteractionContract) (members : list MemberView)
    : OwnerElection :=
  if LegacyOwner contract then
    let owner := lowestAlive (fun _ => true) members in
    mkElection owner false
      (if nz owner then "lowest_guid_default" else "interaction_owner_unavailable")
  else
    let '(owner, reason) :=
      if nz (ic_OwnerRosterSlot contract)
      then (slotOwner (ic_OwnerRosterSlot contract) members, "owner_roster_slot"%string)
      else (lowestAlive (fun m => String.eqb (mv_Role m) (ic_OwnerRole contract)) members,
            "owner_role"%string) in
    if negb (nz owner) then
      let owner := slotOwner (ic_BackupRosterSlot contract) members in
      mkElection owner (nz owner)
        (if nz owner then "backup_roster_slot" else "interaction_owner_unavailable")
    else mkElection owner false reason.

(** ** Bounded attempts *)

Inductive AttemptGate : Type :=
| AttemptGate_Allowed | AttemptGate_RetryWait | AttemptGate_AttemptsExhausted
| AttemptGate_TimedOut.

#[export] Instance AttemptGate_eq_dec : EqDecision AttemptGate.
Proof. solve_decision. Defined.

Definition AttemptGateName (gate : AttemptGate) : string :=
  match gate with
  | AttemptGate_Allowed => "allowed"
  | AttemptGate_RetryWait => "native_interaction_retry_wait"
  | AttemptGate_AttemptsExhausted => "native_interaction_attempts_exhausted"
  | AttemptGate_TimedOut => "native_interaction_timeout"
  end.

Definition EvaluateAttemptGate (contract : InteractionContract) (state : AttemptState)
    (startedAtMs nowMs : Z) : AttemptGate :=
  if nz (ic_TimeoutMs contract) && (startedAtMs +64 ic_TimeoutMs contract <=? nowMs)
  then AttemptGate_TimedOut
  else
    let retryWindowOpen := nz (ic_RetryIntervalMs contract) && nz (as_Attempts state)
      && (nowMs <? as_LastSubmitAtMs state +64 ic_RetryIntervalMs contract) in
    if nz (ic_MaxAttempts contract) && (ic_MaxAttempts contract <=? as_Attempts state)
    then if retryWindowOpen then AttemptGate_RetryWait else AttemptGate_AttemptsExhausted
    else if retryWindowOpen then AttemptGate_RetryWait else AttemptGate_Allowed.

Definition RecordAttempt (state : AttemptState) (nowMs : Z) : AttemptState :=
  mkAttemptState nowMs (as_Attempts state +32 1).

(** ** Interaction step *)

Inductive InteractionStep : Type :=
| InteractionStep_Hold | InteractionStep_Fail | InteractionStep_Approach
| InteractionStep_Use | InteractionStep_GossipOpen | InteractionStep_GossipSelect
| InteractionStep_SpellClick | InteractionStep_VehicleEnter | InteractionStep_AreaTrigger.

#[export] Instance InteractionStep_eq_dec : EqDecision InteractionStep.
Proof. solve_decision. Defined.

Record InteractionObservation : Type := mkInteractionObservation {
  io_TargetResolved : bool; io_TargetAmbiguous : bool; io_InRange : bool;
  io_GossipBoundToTarget : bool; io_CurrentGossipMenu : Z }.

Record InteractionDecision : Type := mkInteractionDecision {
  id_Step : InteractionStep; id_CountsAsAttempt : bool; id_Reason : string }.

Definition mem_Z (x : Z) (l : list Z) : bool := existsb (Z.eqb x) l.

(** The step that commits an action; [None] has none. *)
Definition CommitStep (a : InteractionAction) : option InteractionStep :=
  match a with
  | InteractionAction_GameObjectUse => Some InteractionStep_Use
  | InteractionAction_SpellClick => Some InteractionStep_SpellClick
  | InteractionAction_VehicleEnter => Some InteractionStep_VehicleEnter
  | InteractionAction_AreaTrigger => Some InteractionStep_AreaTrigger
  | InteractionAction_GossipSelect | InteractionAction_GossipSelectSequence =>
      Some InteractionStep_GossipOpen
  | InteractionAction_None => None
  end.

Definition DecideInteraction (contract : InteractionContract)
    (observation : InteractionObservation) (gate : AttemptGate) : InteractionDecision :=
  let area := bool_decide (ic_Action contract = InteractionAction_AreaTrigger) in
  if bool_decide (gate = AttemptGate_TimedOut)
  then mkInteractionDecision InteractionStep_Fail false (AttemptGateName gate)
  else if area && negb (io_TargetResolved observation)
  then mkInteractionDecision InteractionStep_Hold false "native_interaction_area_trigger_invalid"
  else if negb area && io_TargetAmbiguous observation
  then mkInteractionDecision InteractionStep_Hold false "native_interaction_target_ambiguous"
  else if negb area && negb (io_TargetResolved observation)
  then mkInteractionDecision InteractionStep_Hold false "native_interaction_target_missing"
  else if IsGossip contract && io_InRange observation && io_GossipBoundToTarget observation
    && mem_Z (io_CurrentGossipMenu observation) (ic_Menus contract)
  then mkInteractionDecision InteractionStep_GossipSelect false "native_gossip_select"
  else if bool_decide (gate = AttemptGate_AttemptsExhausted)
  then mkInteractionDecision InteractionStep_Fail false (AttemptGateName gate)
  else if negb (io_InRange observation)
  then mkInteractionDecision InteractionStep_Approach false "native_interaction_approach"
  else match CommitStep (ic_Action contract) with
  | None => mkInteractionDecision InteractionStep_Hold false "native_interaction_action_unknown"
  | Some step =>
      if negb (bool_decide (gate = AttemptGate_Allowed))
      then mkInteractionDecision InteractionStep_Hold false (AttemptGateName gate)
      else mkInteractionDecision step true "native_interaction_commit"
  end.

(** ** One tick of the owner

    [RunInteraction]: the gate and the decision at [now]; [submitted] says that
    the kernel ran the submitted candidate with an outcome that counts. *)
Definition InteractionTick (contract : InteractionContract) (startedAtMs : Z)
    (state : AttemptState) (now : Z) (observation : InteractionObservation) (submitted : bool)
    : InteractionDecision * AttemptState :=
  let gate := EvaluateAttemptGate contract state startedAtMs now in
  let decision := DecideInteraction contract observation gate in
  (decision,
   if id_CountsAsAttempt decision && submitted then RecordAttempt state now else state).

(** The times of the attempts a sequence of ticks records, and the state left. *)
Fixpoint InteractionRun (contract : InteractionContract) (startedAtMs : Z)
    (state : AttemptState) (ticks : list (Z * InteractionObservation * bool))
    : list Z * AttemptState :=
  match ticks with
  | [] => ([], state)
  | (now, observation, submitted) :: rest =>
      let '(d, state') := InteractionTick contract startedAtMs state now observation submitted in
      let '(times, final) := InteractionRun contract startedAtMs state' rest in
      (if id_CountsAsAttempt d && submitted then now :: times else times, final)
  end.

(** ** Owner election: facts *)

(** A living member the contract names as owner. *)
Definition primary (c : InteractionContract) (m : MemberView) : bool :=
  mv_Alive m &&
  (if LegacyOwner c then true
   else if nz (ic_OwnerRosterSlot c) then mv_RosterSlot m =? ic_OwnerRosterSlot c
   else String.eqb (mv_Role m) (ic_OwnerRole c)).

(** A living member in the declared backup slot. *)
Definition backup (c : InteractionContract) (m : MemberView) : bool :=
  mv_Alive m && negb (LegacyOwner c) && nz (ic_BackupRosterSlot c)
  && (mv_RosterSlot m =? ic_BackupRosterSlot c).

(** Solves [exists m, m ∈ x :: l /\ ... /\ ...] with the given member. *)
Ltac member_is m :=
  exists m; split_and!;
  [first [by apply list_elem_of_here | by apply list_elem_of_further]|done|done].

(** [r] is the GUID of some member [p] accepts, or 0 when there is none. *)
Definition some_guid (p : MemberView -> bool) (members : list MemberView) (r : Z) : Prop :=
  (exists m, m ∈ members /\ p m = true /\ mv_Guid m = r) \/
  (r = 0 /\ Forall (fun m => p m = false) members).

Lemma mem_Z_elem x l : mem_Z x l = true <-> x ∈ l.
Proof.
  unfold mem_Z. rewrite existsb_elem. split.
  - intros (y & Hy & E%Z.eqb_eq). by subst.
  - intros H. exists x. by rewrite Z.eqb_refl.
Qed.

Lemma mem_Z_false x l : mem_Z x l = false <-> x ∉ l.
Proof. rewrite <- mem_Z_elem. by destruct (mem_Z x l). Qed.

Lemma lowestAlive_from_spec accept members best :
  0 <= best -> Forall (fun m => 0 < mv_Guid m) members ->
  let p m := mv_Alive m && accept m in
  let r := lowestAlive_from best accept members in
  (best <> 0 -> r = best \/ exists m, m ∈ members /\ p m = true /\ mv_Guid m = r) /\
  (best = 0 -> some_guid p members r) /\
  (best <> 0 -> 0 < r <= best) /\
  (forall m, m ∈ members -> p m = true -> 0 < r <= mv_Guid m).
Proof.
  cbv zeta. revert best. induction members as [|m l IH]; intros best Hb Hg; cbn.
  { split_and!; [auto| |lia|by intros m Hm%elem_of_nil]. intros ->. right. by split. }
  inversion Hg as [|? ? Hm Hl]; subst.
  destruct (mv_Alive m && accept m) eqn:Ep; cbn [andb].
  - assert (Hn : forall b, 0 < b <= mv_Guid m ->
      let r := lowestAlive_from b accept l in
      (r = b \/ exists m', m' ∈ l /\ mv_Alive m' && accept m' = true /\ mv_Guid m' = r) /\
      0 < r <= b /\ (forall m', m' ∈ l -> mv_Alive m' && accept m' = true -> 0 < r <= mv_Guid m')).
    { intros b Hb'. destruct (IH b ltac:(lia) Hl) as (H1 & H2 & H3 & H4). cbv zeta.
      split_and!; [apply H1; lia|apply H3; lia|apply H3; lia|done]. }
    destruct (negb (nz best) || (mv_Guid m <? best)) eqn:E;
      [rewrite orb_true_iff, negb_true_iff, nz_false, Z.ltb_lt in E
      |rewrite orb_false_iff, negb_false_iff, nz_true, Z.ltb_ge in E].
    + destruct (Hn (mv_Guid m) ltac:(lia)) as (H1 & H2 & H3).
      split_and!.
      * intros _. right. destruct H1 as [H1|(m' & ? & ? & ?)];
          [member_is m|member_is m'].
      * intros _. left. destruct H1 as [H1|(m' & ? & ? & ?)];
          [member_is m|member_is m'].
      * intros Hnz. destruct E; lia.
      * intros m' [->|Hin]%elem_of_cons Hp; [lia|]. by apply H3.
    + destruct E as [E1 E2]. destruct (Hn best ltac:(lia)) as (H1 & H2 & H3).
      split_and!; [|lia|lia|].
      * intros _. destruct H1 as [H1|(m' & ? & ? & ?)]; [by left|].
        right. member_is m'.
      * intros m' [->|Hin]%elem_of_cons Hp; [lia|]. by apply H3.
  - destruct (IH best Hb Hl) as (H1 & H2 & H3 & H4). split_and!.
    + intros Hnz. destruct (H1 Hnz) as [|(m' & ? & ? & ?)]; [by left|].
      right. member_is m'.
    + intros Hz. destruct (H2 Hz) as [(m' & ? & ? & ?)|[? ?]].
      * left. member_is m'.
      * right. split; [done|]. by constructor.
    + done.
    + intros m' [->|Hin]%elem_of_cons Hp; [congruence|]. by apply H4.
Qed.

Lemma slotOwner_spec slot members :
  some_guid (fun m => mv_Alive m && nz slot && (mv_RosterSlot m =? slot)) members
    (slotOwner slot members).
Proof.
  unfold slotOwner. destruct (nz slot); cbn.
  - induction members as [|m l IH]; cbn; [right; by split|].
    destruct (mv_Alive m && (mv_RosterSlot m =? slot)) eqn:E.
    + left. exists m. rewrite andb_true_r. split_and!; [apply list_elem_of_here|done|done].
    + destruct IH as [(m' & ? & ? & ?)|[? ?]]; [left; member_is m'|].
      right. split; [done|]. constructor; [|done]. by rewrite andb_true_r.
  - right. split; [done|]. apply Forall_forall. intros. by rewrite andb_false_r.
Qed.

Lemma some_guid_ext p q members r :
  (forall m, p m = q m) -> some_guid p members r -> some_guid q members r.
Proof.
  intros H [(m & ? & Hp & ?)|[? Hn]].
  - left. exists m. by rewrite <- H.
  - right. split; [done|]. eapply Forall_impl; [exact Hn|]. intros m Hm. cbn. by rewrite <- H.
Qed.

Lemma some_guid_pos p members r :
  Forall (fun m => 0 < mv_Guid m) members -> some_guid p members r ->
  (nz r = true -> exists m, m ∈ members /\ p m = true /\ mv_Guid m = r) /\
  (nz r = false -> r = 0 /\ Forall (fun m => p m = false) members).
Proof.
  intros Hg [(m & Hin & Hp & <-)|[-> Hn]].
  - pose proof (proj1 (Forall_forall _ _) Hg m Hin). cbn in *.
    split; [intros _; by exists m|]. intros Hz. b2p. lia.
  - split; [done|]. by intros _.
Qed.

Lemma primary_legacy c m : LegacyOwner c = true -> mv_Alive m && true = primary c m.
Proof. intros H. unfold primary. by rewrite H. Qed.

Lemma backup_slot c m : LegacyOwner c = false ->
  mv_Alive m && nz (ic_BackupRosterSlot c) && (mv_RosterSlot m =? ic_BackupRosterSlot c)
  = backup c m.
Proof. intros H. unfold backup. rewrite H. cbn. by rewrite andb_true_r. Qed.

(** The owner a contract names, before any backup. *)
Definition named_owner (c : InteractionContract) (members : list MemberView) : Z :=
  if LegacyOwner c then lowestAlive (fun _ => true) members
  else if nz (ic_OwnerRosterSlot c) then slotOwner (ic_OwnerRosterSlot c) members
  else lowestAlive (fun m => String.eqb (mv_Role m) (ic_OwnerRole c)) members.

Lemma ElectOwner_cases c members :
  let e := ElectOwner c members in
  (nz (named_owner c members) = true /\ el_Owner e = named_owner c members /\
   el_UsedBackup e = false /\ el_Reason e <> "interaction_owner_unavailable"%string) \/
  (nz (named_owner c members) = false /\
   el_Owner e = (if LegacyOwner c then 0 else slotOwner (ic_BackupRosterSlot c) members) /\
   el_UsedBackup e = nz (el_Owner e) /\
   (el_Reason e = "interaction_owner_unavailable"%string <-> nz (el_Owner e) = false)).
Proof.
  cbv zeta. unfold ElectOwner, named_owner. destruct (LegacyOwner c); cbn.
  - destruct (nz (lowestAlive _ members)) eqn:E; [by left|]. right. b2p. by rewrite E.
  - destruct (nz (ic_OwnerRosterSlot c)); cbn;
      match goal with |- context [nz ?x] => destruct (nz x) eqn:E end; cbn; try (by left);
      right; destruct (nz (slotOwner (ic_BackupRosterSlot c) members)) eqn:Eb; cbn;
      rewrite ?Eb; done.
Qed.

Lemma named_owner_spec c members :
  Forall (fun m => 0 < mv_Guid m) members ->
  some_guid (primary c) members (named_owner c members) /\
  (ic_OwnerRosterSlot c = 0 -> forall m, m ∈ members -> primary c m = true ->
   named_owner c members <= mv_Guid m).
Proof.
  intros Hg. unfold named_owner. destruct (LegacyOwner c) eqn:El.
  - destruct (lowestAlive_from_spec (fun _ => true) members 0 ltac:(lia) Hg) as (_ & H2 & _ & H4).
    split; [eapply some_guid_ext; [|by apply H2]; intros; by apply primary_legacy|].
    intros _ m Hm Hp. apply H4; [done|]. by rewrite (primary_legacy c).
  - destruct (nz (ic_OwnerRosterSlot c)) eqn:Es.
    + split; [|by intros H; b2p]. eapply some_guid_ext, slotOwner_spec. intros m.
      unfold primary. by rewrite El, Es, andb_true_r.
    + assert (Ep : forall m, mv_Alive m && String.eqb (mv_Role m) (ic_OwnerRole c) = primary c m)
        by (intros m; unfold primary; by rewrite El, Es).
      destruct (lowestAlive_from_spec (fun m => String.eqb (mv_Role m) (ic_OwnerRole c))
        members 0 ltac:(lia) Hg) as (_ & H2 & _ & H4).
      split; [eapply some_guid_ext; [exact Ep|by apply H2]|].
      intros _ m Hm Hp. apply H4; [done|]. by rewrite Ep.
Qed.

Lemma backup_owner_spec c members :
  some_guid (backup c) members
    (if LegacyOwner c then 0 else slotOwner (ic_BackupRosterSlot c) members).
Proof.
  destruct (LegacyOwner c) eqn:El.
  - right. split; [done|]. apply Forall_forall. intros m _. unfold backup. rewrite El.
    cbn. by rewrite andb_false_r.
  - eapply some_guid_ext, slotOwner_spec. intros m. by apply backup_slot.
Qed.

(** Owner election: a living member the contract names wins, the one with
    the lowest GUID unless the contract names a slot; without one the living
    member in the backup slot wins and is reported as backup; without either
    there is no owner and the election says so. *)
Theorem ElectOwner_spec c members (Hguid : Forall (fun m => 0 < mv_Guid m) members) :
  let e := ElectOwner c members in
  (existsb (primary c) members = true ->
     (exists m, m ∈ members /\ primary c m = true /\ mv_Guid m = el_Owner e) /\
     el_UsedBackup e = false /\
     (ic_OwnerRosterSlot c = 0 ->
      forall m, m ∈ members -> primary c m = true -> el_Owner e <= mv_Guid m)) /\
  (existsb (primary c) members = false ->
     some_guid (backup c) members (el_Owner e) /\
     el_UsedBackup e = existsb (backup c) members) /\
  (el_Reason e = "interaction_owner_unavailable" <->
   Forall (fun m => primary c m = false /\ backup c m = false) members).
Proof.
  cbv zeta. destruct (named_owner_spec c members Hguid) as [Hpri Hlow].
  pose proof (backup_owner_spec c members) as Hbak.
  destruct (some_guid_pos _ _ _ Hguid Hpri) as [Py Pn].
  destruct (ElectOwner_cases c members) as [(Ez & Eo & Eu & Er)|(Ez & Eo & Eu & Er)].
  - destruct (Py Ez) as (m & Hm & Hp & Eg).
    rewrite (proj2 (existsb_elem _ _)) by eauto. rewrite Eo, Eu. split_and!; [|done|].
    + intros _. split_and!; [by exists m|done|done].
    + split; [done|]. rewrite Forall_forall. intros H. destruct (H m Hm). congruence.
  - destruct (Pn Ez) as [_ Hnone]. rewrite (proj2 (existsb_none _ _)) by done.
    rewrite <- Eo in Hbak. destruct (some_guid_pos _ _ _ Hguid Hbak) as [By Bn].
    rewrite Eu, Er. split_and!; [done| |].
    + intros _. split; [done|]. destruct (nz (el_Owner _)); symmetry.
      * apply existsb_elem. destruct (By eq_refl) as (m & ? & ? & _). eauto.
      * apply existsb_none. by apply Bn.
    + split.
      * intros Hz. destruct (Bn Hz) as [_ Hb]. rewrite Forall_forall in *. auto.
      * intros H. destruct (nz (el_Owner _)); [|done]. destruct (By eq_refl) as (m & Hm & Hb & _).
        rewrite Forall_forall in H. destruct (H m Hm). congruence.
Qed.

(** ** Attempts and decisions: facts *)

(** The contract's target can be acted on. *)
Definition target_ready (c : InteractionContract) (o : InteractionObservation) : bool :=
  io_TargetResolved o
  && (bool_decide (ic_Action c = InteractionAction_AreaTrigger) || negb (io_TargetAmbiguous o)).

(** A dialogue the contract names is open on the target. *)
Definition dialogue_open (c : InteractionContract) (o : InteractionObservation) : bool :=
  IsGossip c && io_InRange o && io_GossipBoundToTarget o
  && mem_Z (io_CurrentGossipMenu o) (ic_Menus c).

(** The interaction step: a tick starts a counted attempt exactly when the
    gate is open, the target is ready and in range, no named dialogue is open
    and the action is known, and then it takes that action's step; it fails
    exactly on a timeout, or on exhausted attempts with a ready target and no
    dialogue to continue; and it never commits or selects on a target that is
    not ready. *)
Theorem DecideInteraction_spec c o g :
  let d := DecideInteraction c o g in
  (id_CountsAsAttempt d = true <->
   g = AttemptGate_Allowed /\ target_ready c o = true /\ dialogue_open c o = false /\
   io_InRange o = true /\ CommitStep (ic_Action c) = Some (id_Step d)) /\
  (id_Step d = InteractionStep_Fail <->
   g = AttemptGate_TimedOut \/
   (g = AttemptGate_AttemptsExhausted /\ target_ready c o = true /\
    dialogue_open c o = false)) /\
  (id_Step d = InteractionStep_GossipSelect <->
   g <> AttemptGate_TimedOut /\ target_ready c o = true /\ dialogue_open c o = true).
Proof.
  cbv zeta. unfold DecideInteraction, target_ready, dialogue_open.
  generalize (IsGossip c && io_InRange o && io_GossipBoundToTarget o
    && mem_Z (io_CurrentGossipMenu o) (ic_Menus c)). intros dlg.
  destruct g, (ic_Action c), (io_TargetResolved o), (io_TargetAmbiguous o), dlg,
    (io_InRange o); vm_compute; intuition congruence.
Qed.

Section Attempts.
Context (c : InteractionContract) (started : Z).
Context (Htimeout : 0 < ic_TimeoutMs c < 2 ^ 32) (Hmax : 0 < ic_MaxAttempts c < 2 ^ 32 - 1)
  (Hretry : 0 < ic_RetryIntervalMs c < 2 ^ 32) (Hstarted : 0 <= started < 2 ^ 63).

Lemma gate_timed_out st now :
  EvaluateAttemptGate c st started now = AttemptGate_TimedOut <->
  started + ic_TimeoutMs c <= now.
Proof.
  unfold EvaluateAttemptGate. wrap_small. rewrite (proj2 (nz_true (ic_TimeoutMs c))) by lia.
  cbn. destruct (started + ic_TimeoutMs c <=? now) eqn:E; b2p; [done|].
  split; [|lia]. by repeat case_match.
Qed.

Lemma gate_allowed st now :
  0 <= as_LastSubmitAtMs st < 2 ^ 63 -> 0 <= as_Attempts st ->
  EvaluateAttemptGate c st started now = AttemptGate_Allowed ->
  now < started + ic_TimeoutMs c /\ as_Attempts st < ic_MaxAttempts c /\
  (as_Attempts st <> 0 -> as_LastSubmitAtMs st + ic_RetryIntervalMs c <= now).
Proof.
  intros Hl Ha. unfold EvaluateAttemptGate. wrap_small.
  rewrite (proj2 (nz_true (ic_TimeoutMs c))), (proj2 (nz_true (ic_RetryIntervalMs c))),
    (proj2 (nz_true (ic_MaxAttempts c))) by lia. cbn [andb].
  destruct (started + ic_TimeoutMs c <=? now) eqn:E1; [done|].
  destruct (nz (as_Attempts st)) eqn:E2; cbn [andb].
  - destruct (now <? _) eqn:E3; [by case_match|].
    destruct (ic_MaxAttempts c <=? as_Attempts st) eqn:E4; [done|]. b2p. intros _. lia.
  - destruct (ic_MaxAttempts c <=? as_Attempts st) eqn:E4; [done|]. b2p. intros _. lia.
Qed.

Lemma gate_exhausted st now :
  0 <= as_LastSubmitAtMs st < 2 ^ 63 -> as_Attempts st = ic_MaxAttempts c ->
  now < started + ic_TimeoutMs c -> as_LastSubmitAtMs st + ic_RetryIntervalMs c <= now ->
  EvaluateAttemptGate c st started now = AttemptGate_AttemptsExhausted.
Proof.
  intros Hl Ha Hn Hr. unfold EvaluateAttemptGate. wrap_small.
  rewrite (proj2 (nz_true (ic_TimeoutMs c))), (proj2 (nz_true (ic_RetryIntervalMs c))),
    (proj2 (nz_true (ic_MaxAttempts c))), (proj2 (nz_true (as_Attempts st))) by lia.
  cbn [andb]. rewrite (proj2 (Z.leb_gt _ _)), (proj2 (Z.leb_le _ _)) by lia.
  by rewrite (proj2 (Z.ltb_ge _ _)) by lia.
Qed.

(** The attempts a run adds to a state, and when. *)
Lemma InteractionRun_bounded st ticks :
  0 <= as_LastSubmitAtMs st < 2 ^ 63 -> 0 <= as_Attempts st <= ic_MaxAttempts c ->
  Forall (fun t => 0 <= t.1.1 < 2 ^ 63) ticks ->
  let '(times, final) := InteractionRun c started st ticks in
  as_Attempts final = as_Attempts st + Z.of_nat (length times) /\
  as_Attempts final <= ic_MaxAttempts c /\
  as_LastSubmitAtMs final = List.last times (as_LastSubmitAtMs st) /\
  0 <= as_LastSubmitAtMs final < 2 ^ 63 /\
  Forall (fun t => t < started + ic_TimeoutMs c) times /\
  Sorted (fun a b => a + ic_RetryIntervalMs c <= b) times /\
  (as_Attempts st <> 0 ->
   HdRel (fun a b => a + ic_RetryIntervalMs c <= b) (as_LastSubmitAtMs st) times).
Proof.
  revert st. induction ticks as [|[[now o] submitted] ticks IH]; intros st Hl Ha Ht; cbn.
  { split_and!; repeat constructor; lia. }
  inversion Ht as [|? ? Hnow Ht']; subst. cbn in Hnow.
  destruct (id_CountsAsAttempt _ && submitted) eqn:E.
  - apply andb_true_iff in E as [E _]. apply DecideInteraction_spec in E as [E _].
    apply gate_allowed in E as (E1 & E2 & E3); [|lia..].
    specialize (IH (RecordAttempt st now)). unfold RecordAttempt in *. cbn in IH.
    destruct (InteractionRun _ _ _ ticks) as [times final].
    rewrite u32_small in IH by lia.
    destruct IH as (I1 & I2 & I3 & I4 & I5 & I6 & I7); [lia..|done|].
    split_and!; try done; try lia.
    + rewrite I1. cbn [length]. lia.
    + rewrite I3. destruct times as [|t times]; [done|]. cbn [List.last].
      clear. revert t. induction times as [|x l IH]; intros t; [done|]. apply IH.
    + by constructor.
    + constructor; [done|]. apply I7. lia.
    + intros Hz. constructor. by apply E3.
  - specialize (IH st Hl Ha Ht').
    by destruct (InteractionRun _ _ _ ticks) as [times final].
Qed.

End Attempts.

(** Bounded interactions: over any ticks of a node, an owner records at most
    [MaxAttempts] attempts, each before the timeout and at least
    [RetryIntervalMs] after the one before; from the timeout on every tick
    fails; and once the attempts are used up and the last one has settled,
    every tick with a ready target and no open dialogue fails. *)
Theorem interaction_attempts_bounded c started ticks
    (Htimeout : 0 < ic_TimeoutMs c < 2 ^ 32) (Hmax : 0 < ic_MaxAttempts c < 2 ^ 32 - 1)
    (Hretry : 0 < ic_RetryIntervalMs c < 2 ^ 32) (Hstarted : 0 <= started < 2 ^ 63)
    (Hticks : Forall (fun t => 0 <= t.1.1 < 2 ^ 63) ticks) :
  let '(times, final) := InteractionRun c started AttemptState_default ticks in
  Z.of_nat (length times) <= ic_MaxAttempts c /\
  Forall (fun t => t < started + ic_TimeoutMs c) times /\
  Sorted (fun a b => a + ic_RetryIntervalMs c <= b) times /\
  (forall now o submitted, started + ic_TimeoutMs c <= now ->
   id_Step (InteractionTick c started final now o submitted).1 = InteractionStep_Fail) /\
  (forall now o submitted, Z.of_nat (length times) = ic_MaxAttempts c ->
   List.last times 0 + ic_RetryIntervalMs c <= now ->
   target_ready c o = true -> dialogue_open c o = false ->
   id_Step (InteractionTick c started final now o submitted).1 = InteractionStep_Fail).
Proof.
  pose proof (InteractionRun_bounded c started Htimeout Hmax Hretry Hstarted
    AttemptState_default ticks) as H.
  destruct (InteractionRun _ _ _ ticks) as [times final]. cbn in H.
  destruct H as (H1 & H2 & H3 & H4 & H5 & H6 & _); [lia..|done|].
  assert (Hout : forall now o submitted, started + ic_TimeoutMs c <= now ->
   id_Step (InteractionTick c started final now o submitted).1 = InteractionStep_Fail).
  { intros now o submitted Hnow. cbn. apply DecideInteraction_spec. left.
    by apply gate_timed_out. }
  split_and!; [lia|done|done|done|].
  intros now o submitted Hlen Hlast Hready Hdlg.
  destruct (Z.le_gt_cases (started + ic_TimeoutMs c) now) as [|Hnow]; [by apply Hout|].
  cbn. apply DecideInteraction_spec. right. split_and!; [|done|done].
  apply gate_exhausted; try done; lia.
Qed.

(** ** Agreement on the owner *)

Lemma some_guid_perm p l1 l2 r : l1 ≡ₚ l2 -> some_guid p l1 r -> some_guid p l2 r.
Proof.
  intros Hp [(m & Hm & Hr)|[Hr Hn]].
  - left. exists m. by rewrite <- Hp.
  - right. by rewrite <- Hp.
Qed.

Lemma some_guid_unique p l r1 r2 :
  Forall (fun m => 0 < mv_Guid m) l ->
  (forall m m', m ∈ l -> m' ∈ l -> p m = true -> p m' = true ->
   mv_Guid m = r1 -> mv_Guid m' = r2 -> r1 = r2) ->
  some_guid p l r1 -> some_guid p l r2 -> r1 = r2.
Proof.
  rewrite Forall_forall. intros Hg Hu [(m & Hm & Hp & Hr)|[Hr Hn]] [(m' & Hm' & Hp' & Hr')|[Hr' Hn']].
  - exact (Hu m m' Hm Hm' Hp Hp' Hr Hr').
  - rewrite Forall_forall in Hn'. by rewrite (Hn' m Hm) in Hp.
  - rewrite Forall_forall in Hn. by rewrite (Hn m' Hm') in Hp'.
  - congruence.
Qed.

Lemma lowestAlive_perm accept l1 l2 :
  l1 ≡ₚ l2 -> Forall (fun m => 0 < mv_Guid m) l1 ->
  lowestAlive accept l1 = lowestAlive accept l2.
Proof.
  intros Hp Hg. assert (Hg2 : Forall (fun m => 0 < mv_Guid m) l2) by by rewrite <- Hp.
  destruct (lowestAlive_from_spec accept l1 0 ltac:(lia) Hg) as (_ & H1 & _ & L1).
  destruct (lowestAlive_from_spec accept l2 0 ltac:(lia) Hg2) as (_ & H2 & _ & L2).
  fold (lowestAlive accept) in *. specialize (H1 eq_refl). specialize (H2 eq_refl).
  apply (some_guid_perm _ _ _ _ (symmetry Hp)) in H2.
  eapply some_guid_unique; [exact Hg| |exact H1|exact H2].
  intros m m' Hm Hm' Ha Ha' Hr1 Hr2.
  pose proof (L1 m' Hm' Ha'). assert (Hm2 : m ∈ l2) by by rewrite <- Hp.
  pose proof (L2 m Hm2 Ha). lia.
Qed.

Lemma slotOwner_perm slot l1 l2 :
  l1 ≡ₚ l2 -> Forall (fun m => 0 < mv_Guid m) l1 ->
  (forall m m', m ∈ l1 -> m' ∈ l1 -> mv_RosterSlot m = mv_RosterSlot m' ->
   mv_RosterSlot m <> 0 -> mv_Guid m = mv_Guid m') ->
  slotOwner slot l1 = slotOwner slot l2.
Proof.
  intros Hp Hg Hs. eapply some_guid_unique; [exact Hg| |apply slotOwner_spec|].
  2: { eapply some_guid_perm; [symmetry; exact Hp|apply slotOwner_spec]. }
  intros m m' Hm Hm' Ha Ha' <- <-. b2p. destruct Ha as [[_ Hnz] H1], Ha' as [_ H2].
  apply Hs; congruence.
Qed.

(** Every observer elects the same owner: the election does not depend on
    the order the members are listed in, when no two members share a roster
    slot. *)
Theorem ElectOwner_perm c l1 l2 (Hperm : l1 ≡ₚ l2)
    (Hguid : Forall (fun m => 0 < mv_Guid m) l1)
    (Hslots : forall m m', m ∈ l1 -> m' ∈ l1 -> mv_RosterSlot m = mv_RosterSlot m' ->
     mv_RosterSlot m <> 0 -> mv_Guid m = mv_Guid m') :
  ElectOwner c l1 = ElectOwner c l2.
Proof.
  unfold ElectOwner.
  by rewrite !(lowestAlive_perm _ l1 l2), !(slotOwner_perm _ l1 l2) by done.
Qed.

(** ** Witnesses *)

Definition sample_members : list MemberView :=
  [mkMemberView 7 true "dps" 2; mkMemberView 4 true "tank" 1; mkMemberView 9 false "healer" 3].

Definition sample_interaction : InteractionContract :=
  mkInteraction true InteractionAction_GameObjectUse "gameobject_use" TargetType_GameObject
    202234 0 [] 0 (-1) 0 "healer" 0 1 60000 2 500 false f32_zero f32_zero.

Example ElectOwner_spec_witness :
  el_UsedBackup (ElectOwner sample_interaction sample_members) = true.
Proof.
  assert (Hg : Forall (fun m => 0 < mv_Guid m) sample_members) by (repeat constructor).
  destruct (ElectOwner_spec sample_interaction sample_members Hg) as (_ & H & _).
  exact (proj2 (H eq_refl)).
Defined.

Example ElectOwner_perm_witness :
  ElectOwner sample_interaction sample_members =
  ElectOwner sample_interaction (rev sample_members).
Proof.
  apply ElectOwner_perm.
  - apply Permutation_rev.
  - repeat constructor.
  - intros m m' Hm Hm' Hs _. cbn in Hm, Hm'.
    repeat (apply elem_of_cons in Hm as [->|Hm]); repeat (apply elem_of_cons in Hm' as [->|Hm']);
      try (by apply elem_of_nil in Hm); try (by apply elem_of_nil in Hm'); done.
Defined.

Example interaction_attempts_bounded_witness :
  let o := mkInteractionObservation true false true false 0 in
  let '(times, final) := InteractionRun sample_interaction 1000 AttemptState_default
    [(1000, o, true); (1100, o, true); (1500, o, true); (1900, o, true)] in
  times = [1000; 1500] /\ Z.of_nat (length times) <= 2.
Proof.
  cbv zeta.
  pose proof (interaction_attempts_bounded sample_interaction 1000
    [(1000, mkInteractionObservation true false true false 0, true);
     (1100, mkInteractionObservation true false true false 0, true);
     (1500, mkInteractionObservation true false true false 0, true);
     (1900, mkInteractionObservation true false true false 0, true)]
    ltac:(cbn; lia) ltac:(cbn; lia) ltac:(cbn; lia) ltac:(lia)
    ltac:(repeat constructor; cbn; lia)) as H.
  split; [reflexivity|]. exact (proj1 H).
Defined.
