(* ===== verification/RouteCompletion.v ===== *)
(** Observed completion of a route node: the facts the server adapter supplies
    and the verdict over a contract and its memory
    ([Bots/BotValidationRouteNativeLogic.h]). *)
From S2P Require Import Prelude RouteTypes RouteInteraction.
From Stdlib Require Import ZArith Lia String Ascii Sorting.
From Corelib Require Import SpecFloat.
From stdpp Require Import base gmap list strings pretty sorting.

Open Scope Z_scope.
Open Scope tc_scope.

(** [std::to_string] of an unsigned integer. *)
Definition to_string (n : Z) : string := pretty n.

(** ** Completion evaluation *)

Record ActorFact : Type := mkActorFact {
  af_Entry : Z; af_SpawnId : Z; af_Alive : bool; af_Spawned : bool; af_Selectable : bool;
  af_Interactable : bool; af_ReactAggressive : bool; af_InCombat : bool; af_Flying : bool;
  af_HasVictim : bool; af_AuraIds : list Z }.

Record ObjectQuery : Type := mkObjectQuery {
  oq_Facts : list ActorFact; oq_AbsenceAuthoritative : bool }.

Record MemberFact : Type := mkMemberFact {
  mf_Guid : Z; mf_Alive : bool; mf_OnRouteInstance : bool; mf_Owner : bool;
  mf_OnTransport : bool; mf_TransportEntry : Z; mf_TransportSpawnId : Z;
  mf_VehicleEntry : Z; mf_Seat : Z }.

Record TransportFact : Type := mkTransportFact {
  tf_Present : bool; tf_Ambiguous : bool; tf_Entry : Z; tf_SpawnId : Z; tf_GoState : Z;
  tf_ArrivedAtStop : bool; tf_PositionX : f32; tf_PositionY : f32; tf_PositionZ : f32;
  tf_Orientation : f32; tf_StationaryZ : f32 }.

Definition GoStateTransportStopped : Z := 25.

(** The virtual interface the server adapter implements; [BossState] returns
    the state it writes when it succeeds. *)
Record FactSource : Type := mkFactSource {
  fs_Creatures : Z -> Z -> list ActorFact;
  fs_GameObjects : Z -> Z -> ObjectQuery;
  fs_BossState : Z -> option Z;
  fs_Members : list MemberFact;
  fs_Transport : Z -> Z -> TransportFact
}.

Record Verdict : Type := mkVerdict { vd_Satisfied : bool; vd_Reason : string }.

Definition TransportAtStop (fact : TransportFact) (frame : Z) : bool :=
  tf_Present fact && negb (tf_Ambiguous fact) && (0 <=? frame)
  && (tf_GoState fact =? GoStateTransportStopped +32 u32 frame) && tf_ArrivedAtStop fact.

Definition TransportAtLevel (fact : TransportFact) (levelZ tolerance : f32) : bool :=
  tf_Present fact && negb (tf_Ambiguous fact)
  && f32_le (f32_abs (f32_sub (tf_PositionZ fact) levelZ)) tolerance.

(** The [aliveCreatures] lambda. *)
Definition aliveCreatures (facts : FactSource) (contract : CompletionContract) : list ActorFact :=
  List.filter af_Alive (fs_Creatures facts (cc_Entry contract) (cc_SpawnId contract)).

(** The loop of the [members] lambda: an early verdict or the final counters. *)
Fixpoint members_loop (scope : MemberScope) (predicate : MemberFact -> bool)
    (l : list MemberFact) (considered satisfied : Z) : Verdict + (Z * Z) :=
  match l with
  | [] => inr (considered, satisfied)
  | m :: rest =>
      if negb (mf_Alive m) then members_loop scope predicate rest considered satisfied
      else if negb (mf_OnRouteInstance m) then
        if bool_decide (scope = MemberScope_All) then inl (mkVerdict false "members_off_route_map")
        else members_loop scope predicate rest considered satisfied
      else if bool_decide (scope = MemberScope_Owner) && negb (mf_Owner m)
      then members_loop scope predicate rest considered satisfied
      else members_loop scope predicate rest (considered +32 1)
             (if predicate m then satisfied +32 1 else satisfied)
  end.

Definition members (facts : FactSource) (contract : CompletionContract)
    (predicate : MemberFact -> bool) : Verdict :=
  match members_loop (cc_Scope contract) predicate (fs_Members facts) 0 0 with
  | inl v => v
  | inr (considered, satisfied) =>
      let ok := (0 <? considered) &&
        (if bool_decide (cc_Scope contract = MemberScope_Any)
         then 0 <? satisfied else satisfied =? considered) in
      mkVerdict ok (if ok then "members_satisfied"
        else ("members_pending:" ++ to_string satisfied ++ "/" ++ to_string considered)%string)
  end.

(** The memory key of a game object. *)
Definition go_key (contract : CompletionContract) : string :=
  ("go:" ++ to_string (cc_Entry contract) ++ ":" ++ to_string (cc_SpawnId contract))%string.

(** [CompletionKind::GameObjectDespawned]: the one kind that keeps memory. *)
Definition EvaluateDespawned (contract : CompletionContract) (facts : FactSource)
    (memory : CompletionMemory) : Verdict * CompletionMemory :=
  let key := go_key contract in
  let query := fs_GameObjects facts (cc_Entry contract) (cc_SpawnId contract) in
  if existsb af_Spawned (oq_Facts query)
  then (mkVerdict false "gameobject_still_spawned", Remember memory key)
  else if match oq_Facts query with [] => true | _ => false end
          && negb (oq_AbsenceAuthoritative query)
  then (mkVerdict false "gameobject_absence_unknown", memory)
  else if cc_RequireObservedPresent contract && negb (Seen memory key)
  then (mkVerdict false "gameobject_never_observed_spawned", memory)
  else (mkVerdict true "gameobject_despawned", memory).

(** The kinds that only look at the facts. *)
Definition EvaluateFact (contract : CompletionContract) (facts : FactSource) : Verdict :=
  match cc_Kind contract with
  | CompletionKind_GameObjectSelectable =>
      if existsb (fun o => af_Spawned o && af_Selectable o && af_Interactable o)
           (oq_Facts (fs_GameObjects facts (cc_Entry contract) (cc_SpawnId contract)))
      then mkVerdict true "gameobject_selectable"
      else mkVerdict false "gameobject_not_selectable"
  | CompletionKind_BossSummoned | CompletionKind_CreatureSummoned =>
      mkVerdict (negb (match aliveCreatures facts contract with [] => true | _ => false end))
        "creature_present"
  | CompletionKind_AuraPresent =>
      if existsb (fun a => mem_Z (cc_SpellId contract) (af_AuraIds a))
           (aliveCreatures facts contract)
      then mkVerdict true "aura_present" else mkVerdict false "aura_absent"
  | CompletionKind_CreatureAggressiveWithVictim =>
      if existsb (fun a => af_ReactAggressive a && af_HasVictim a)
           (aliveCreatures facts contract)
      then mkVerdict true "creature_aggressive_with_victim"
      else mkVerdict false "creature_not_aggressive"
  | CompletionKind_CreatureGroundedAggressiveOrEngaged =>
      if existsb (fun a => negb (af_Flying a)
             && (af_ReactAggressive a || af_InCombat a || af_HasVictim a))
           (aliveCreatures facts contract)
      then mkVerdict true "creature_grounded_engaged"
      else mkVerdict false "creature_not_grounded_engaged"
  | CompletionKind_InstanceBossState =>
      match fs_BossState facts (u32 (cc_BossIndex contract)) with
      | None => mkVerdict false "instance_script_unavailable"
      | Some state =>
          mkVerdict (state =? cc_BossState contract) ("boss_state_" ++ to_string state)
      end
  | CompletionKind_OnTransport =>
      let transport :=
        fs_Transport facts (cc_TransportEntry contract) (cc_TransportSpawnId contract) in
      if negb (tf_Present transport) || tf_Ambiguous transport
      then mkVerdict false
        (if tf_Ambiguous transport then "transport_ambiguous" else "transport_missing")
      else members facts contract (fun m =>
        mf_OnTransport m && (mf_TransportEntry m =? tf_Entry transport)
        && (negb (nz (tf_SpawnId transport))
            || (mf_TransportSpawnId m =? tf_SpawnId transport)))
  | CompletionKind_VehicleSeated =>
      members facts contract (fun m =>
        (mf_VehicleEntry m =? cc_VehicleEntry contract)
        && ((cc_Seat contract <? 0) || (mf_Seat m =? cc_Seat contract)))
  | CompletionKind_TransportAtStop =>
      let transport :=
        fs_Transport facts (cc_TransportEntry contract) (cc_TransportSpawnId contract) in
      mkVerdict (TransportAtStop transport (cc_StopFrame contract))
        ("transport_state_" ++ to_string (tf_GoState transport))
  | _ => mkVerdict false "completion_kind_unknown"
  end.

(** One child of a composite: the running result, reasons and memory. *)
Definition CombineChild (any : bool) (name : string) (childVerdict : Verdict)
    (result : bool) (reasons : string) : bool * string :=
  (if any then result || vd_Satisfied childVerdict else result && vd_Satisfied childVerdict,
   (reasons ++ (if str_empty reasons then "" else ",") ++ name ++ "="
     ++ (if vd_Satisfied childVerdict then "1" else "0"))%string).

Fixpoint EvaluateCompletion (contract : CompletionContract) (facts : FactSource)
    (memory : CompletionMemory) : Verdict * CompletionMemory :=
  let composite (any : bool) :=
    let '(result, reasons, memory') :=
      foldl (fun acc child =>
        let '(result, reasons, mem) := acc in
        let '(v, mem') := EvaluateCompletion child facts mem in
        (CombineChild any (cc_KindName child) v result reasons, mem'))
        ((negb any, ""%string), memory) (cc_Children contract) in
    (mkVerdict result ((if any then "any_of[" else "all_of[") ++ reasons ++ "]")%string, memory') in
  match cc_Kind contract with
  | CompletionKind_AnyOf => composite true
  | CompletionKind_AllOf => composite false
  | CompletionKind_GameObjectDespawned => EvaluateDespawned contract facts memory
  | _ => (EvaluateFact contract facts, memory)
  end.

(** ** Observation scope *)

(** Creature entries a contract's completion looks at, children included. *)
Fixpoint CollectObservedCreatureEntries (completion : CompletionContract) (entries : list Z)
    : list Z :=
  let entries :=
    match cc_Kind completion with
    | CompletionKind_BossSummoned | CompletionKind_CreatureSummoned
    | CompletionKind_AuraPresent | CompletionKind_CreatureAggressiveWithVictim
    | CompletionKind_CreatureGroundedAggressiveOrEngaged => entries ++ [cc_Entry completion]
    | _ => entries
    end in
  foldl (fun entries child => CollectObservedCreatureEntries child entries) entries
    (cc_Children completion).

(** [std::unique] with [erase]: keeps the first of each run of equal elements. *)
Fixpoint unique_Z (l : list Z) : list Z :=
  match l with
  | x :: ((y :: _) as rest) => if x =? y then unique_Z rest else x :: unique_Z rest
  | _ => l
  end.

Definition ObservedCreatureEntries (node : NodeContract) : list Z :=
  let entries :=
    if ic_Declared (nc_Interaction node) && nz (ic_Entry (nc_Interaction node))
       && negb (bool_decide (ic_Target (nc_Interaction node) = TargetType_GameObject))
    then [ic_Entry (nc_Interaction node)] else [] in
  let entries := CollectObservedCreatureEntries (nc_Completion node) entries in
  let entries := unique_Z (stable_sort Z.ltb entries) in
  List.filter (fun e => negb (e =? 0)) entries.

(** ** What a contract asks for, without memory threading *)

(** The contract holds of the current facts, where [seen] says which game
    objects were observed spawned earlier in the route scope. *)
Fixpoint Completed (c : CompletionContract) (facts : FactSource) (seen : string -> bool) : bool :=
  match cc_Kind c with
  | CompletionKind_AnyOf => existsb (fun ch => Completed ch facts seen) (cc_Children c)
  | CompletionKind_AllOf => forallb (fun ch => Completed ch facts seen) (cc_Children c)
  | CompletionKind_GameObjectDespawned =>
      let q := fs_GameObjects facts (cc_Entry c) (cc_SpawnId c) in
      negb (existsb af_Spawned (oq_Facts q))
      && (match oq_Facts q with [] => false | _ => true end || oq_AbsenceAuthoritative q)
      && (negb (cc_RequireObservedPresent c) || seen (go_key c))
  | _ => vd_Satisfied (EvaluateFact c facts)
  end.

(** The keys of the despawn leaves whose object is spawned in the facts. *)
Fixpoint spawned_keys (c : CompletionContract) (facts : FactSource) : list string :=
  match cc_Kind c with
  | CompletionKind_AnyOf | CompletionKind_AllOf =>
      flat_map (fun ch => spawned_keys ch facts) (cc_Children c)
  | CompletionKind_GameObjectDespawned =>
      if existsb af_Spawned (oq_Facts (fs_GameObjects facts (cc_Entry c) (cc_SpawnId c)))
      then [go_key c] else []
  | _ => []
  end.

(** A run of completion ticks in one route scope, and its last verdict. *)
Definition CompletionRun (c : CompletionContract) (ticks : list FactSource) : CompletionMemory :=
  foldl (fun mem facts => (EvaluateCompletion c facts mem).2) [] ticks.

(** ** Keys identify objects *)

Lemma to_string_no_colon n : avoids ":" (to_string n) = true.
Proof.
  destruct n as [|p|p]; [done|by apply (pretty_avoids ":" (Npos p))|].
  change (avoids ":" (String "-" (pretty (Npos p))) = true).
  cbn [avoids]. by rewrite pretty_avoids.
Qed.

Lemma go_key_inj c c' : go_key c = go_key c' ->
  cc_Entry c = cc_Entry c' /\ cc_SpawnId c = cc_SpawnId c'.
Proof.
  unfold go_key. cbn. intros [= H].
  apply sep_split in H as [H1 H2]; [|apply to_string_no_colon..].
  split; by apply (inj pretty).
Qed.

(** ** Evaluation *)

(** The key belongs to an object spawned in the facts. *)
Definition spawned_key (facts : FactSource) (k : string) : Prop :=
  exists c, k = go_key c /\
    existsb af_Spawned (oq_Facts (fs_GameObjects facts (cc_Entry c) (cc_SpawnId c))) = true.

Lemma spawned_key_inv facts c : spawned_key facts (go_key c) ->
  existsb af_Spawned (oq_Facts (fs_GameObjects facts (cc_Entry c) (cc_SpawnId c))) = true.
Proof. intros (c' & E & H). by destruct (go_key_inj _ _ E) as [-> ->]. Qed.

(** The memory of this tick differs from [mem0] only by spawned objects. *)
Definition memory_near (facts : FactSource) (mem0 mem : CompletionMemory) : Prop :=
  forall k, ~ spawned_key facts k -> Seen mem k = Seen mem0 k.

(** The result of evaluating from a memory near [mem0]. *)
Definition evaluates (c : CompletionContract) (facts : FactSource) : Prop :=
  forall mem0 mem, memory_near facts mem0 mem ->
  vd_Satisfied (EvaluateCompletion c facts mem).1 = Completed c facts (Seen mem0) /\
  (forall k, k ∈ (EvaluateCompletion c facts mem).2 <-> k ∈ mem \/ k ∈ spawned_keys c facts) /\
  memory_near facts mem0 (EvaluateCompletion c facts mem).2.

Lemma EvaluateDespawned_evaluates c facts :
  cc_Kind c = CompletionKind_GameObjectDespawned -> evaluates c facts.
Proof.
  intros Hk mem0 mem Hnear. destruct c as [d k n e s sp bi bs te ts sf ve se sc r t cs].
  cbn in Hk. subst k. cbn [EvaluateCompletion cc_Kind Completed spawned_keys].
  set (c := mkCompletion d _ n e s sp bi bs te ts sf ve se sc r t cs).
  unfold EvaluateDespawned. pose proof (spawned_key_inv facts c) as Hinv.
  assert (Hsp : existsb af_Spawned (oq_Facts (fs_GameObjects facts (cc_Entry c) (cc_SpawnId c)))
    = true -> spawned_key facts (go_key c)) by (intros ?; by exists c).
  destruct (existsb af_Spawned _) eqn:E; cbn.
  - split_and!; [done| |].
    + intros k. rewrite elem_of_Remember, list_elem_of_singleton. done.
    + intros k Hns. rewrite <- (Hnear k Hns).
      destruct (Seen mem k) eqn:E1; [apply Seen_elem in E1; apply Seen_elem, elem_of_Remember; auto|].
      apply Seen_false. apply Seen_false in E1. rewrite elem_of_Remember.
      intros [?| ->]; [done|]. auto.
  - assert (Hseen : Seen mem (go_key c) = Seen mem0 (go_key c)).
    { apply Hnear. intros H. by discriminate (Hinv H). }
    assert (Hnil : forall k, k ∈ mem <-> k ∈ mem \/ k ∈ @nil string).
    { intros k. rewrite elem_of_nil. tauto. }
    destruct (oq_Facts _) as [|f fs]; cbn; [destruct (oq_AbsenceAuthoritative _); cbn|];
      rewrite ?Hseen; unfold c in *; cbn; try done;
      destruct r; cbn; try done; destruct (Seen mem0 _); done.
Qed.

Lemma composite_evaluates any facts mem0 cs result reasons mem :
  Forall (fun c => evaluates c facts) cs -> memory_near facts mem0 mem ->
  let out := foldl (fun acc child =>
    let '(result, reasons, mem) := acc in
    let '(v, mem') := EvaluateCompletion child facts mem in
    (CombineChild any (cc_KindName child) v result reasons, mem'))
    ((result, reasons), mem) cs in
  out.1.1 = (if any : bool then result || existsb (fun ch => Completed ch facts (Seen mem0)) cs
             else result && forallb (fun ch => Completed ch facts (Seen mem0)) cs) /\
  (forall k, k ∈ out.2 <-> k ∈ mem \/ k ∈ flat_map (fun ch => spawned_keys ch facts) cs) /\
  memory_near facts mem0 out.2.
Proof.
  cbv zeta. intros Hall. revert result reasons mem.
  induction Hall as [|c cs Hc _ IH]; intros result reasons mem Hnear; cbn [foldl].
  - cbn. rewrite orb_false_r, andb_true_r. split_and!; [by destruct any| |done].
    intros k. rewrite elem_of_nil. tauto.
  - destruct (Hc mem0 mem Hnear) as (H1 & H2 & H3).
    destruct (EvaluateCompletion c facts mem) as [v mem']. cbn [fst snd] in *.
    unfold CombineChild at 2. cbv beta iota.
    destruct (IH (if any then result || vd_Satisfied v else result && vd_Satisfied v)
      (reasons ++ (if str_empty reasons then "" else ",") ++ cc_KindName c ++ "="
        ++ (if vd_Satisfied v then "1" else "0"))%string mem' H3) as (I1 & I2 & I3).
    split_and!; [|intros k; rewrite I2, H2; cbn; rewrite elem_of_app; tauto|done].
    rewrite I1. cbn. rewrite H1. destruct any; [by rewrite orb_assoc|by rewrite andb_assoc].
Qed.

Lemma EvaluateCompletion_evaluates facts c : evaluates c facts.
Proof.
  induction c as [c IH] using completion_ind.
  destruct (decide (cc_Kind c = CompletionKind_GameObjectDespawned)) as [Hd|Hd];
    [by apply EvaluateDespawned_evaluates|].
  intros mem0 mem Hnear. destruct c as [d k n e s sp bi bs te ts sf ve se sc r t cs].
  cbn in IH, Hd. destruct k; try done; cbn [EvaluateCompletion Completed spawned_keys cc_Kind
    cc_Children]; try (split_and!; [done| |done]; intros k; cbn; rewrite elem_of_nil; tauto).
  - pose proof (composite_evaluates true facts mem0 cs false "" mem IH Hnear) as H.
    cbv zeta in H. cbn [negb]. destruct (foldl _ _ cs) as [[result reasons] mem'].
    cbn [fst snd] in *. exact H.
  - pose proof (composite_evaluates false facts mem0 cs true "" mem IH Hnear) as H.
    cbv zeta in H. cbn [negb]. destruct (foldl _ _ cs) as [[result reasons] mem'].
    cbn [fst snd] in *. exact H.
Qed.

(** Completion refines its declarative meaning: whatever the nesting, the
    verdict is the boolean reading of the contract over the memory the tick
    began with (threading the memory through the children changes nothing),
    and the tick remembers exactly the despawn leaves whose object is spawned
    now. *)
Theorem EvaluateCompletion_refines c facts mem :
  vd_Satisfied (EvaluateCompletion c facts mem).1 = Completed c facts (Seen mem) /\
  (forall k, k ∈ (EvaluateCompletion c facts mem).2 <-> k ∈ mem \/ k ∈ spawned_keys c facts).
Proof.
  destruct (EvaluateCompletion_evaluates facts c mem mem) as (H1 & H2 & _); [by intros k|done].
Qed.

Lemma CompletionRun_memory c ticks k :
  k ∈ CompletionRun c ticks <-> exists facts, facts ∈ ticks /\ k ∈ spawned_keys c facts.
Proof.
  unfold CompletionRun. induction ticks as [|f ticks IH] using rev_ind.
  - cbn. split; [by intros ?%elem_of_nil|]. intros (facts & H%elem_of_nil & _). done.
  - rewrite foldl_app. cbn. rewrite (proj2 (EvaluateCompletion_refines c f _)), IH. split.
    + intros [(g & Hg & Hk)|Hk]; [exists g|exists f]; rewrite elem_of_app; split; auto.
      right. by apply list_elem_of_singleton.
    + intros (g & [Hg|Hg%list_elem_of_singleton]%elem_of_app & Hk); [left; eauto|].
      subst. by right.
Qed.

Lemma Completed_ext c facts p q :
  (forall k, p k = q k) -> Completed c facts p = Completed c facts q.
Proof.
  intros Hpq. induction c as [c IH] using completion_ind.
  destruct c as [d k n e s sp bi bs te ts sf ve se sc r t cs].
  cbn in IH. destruct k; cbn [Completed cc_Kind cc_Children]; try done.
  - cbn. by rewrite Hpq.
  - induction IH as [|x cs Hx _ IH]; cbn; [done|]. by rewrite Hx, IH.
  - induction IH as [|x cs Hx _ IH]; cbn; [done|]. by rewrite Hx, IH.
Qed.

(** C4. Completion over a route scope: starting from the empty memory a scope is
    entered with, the verdict of a tick depends on the earlier ticks only
    through the objects they saw spawned, so a despawn contract that requires
    it completes only when an earlier tick of the same scope observed its
    object spawned and the current tick knows it is gone. *)
Theorem completion_history c ticks now :
  vd_Satisfied (EvaluateCompletion c now (CompletionRun c ticks)).1 =
  Completed c now (fun k => existsb (fun f => bool_decide (k ∈ spawned_keys c f)) ticks).
Proof.
  rewrite (proj1 (EvaluateCompletion_refines c now _)). apply Completed_ext. intros k.
  apply Bool.eq_iff_eq_true. rewrite Seen_elem, CompletionRun_memory, existsb_elem.
  by setoid_rewrite bool_decide_eq_true.
Qed.

(** ** Member scopes *)

(** The members a scope considers, and the ones that block it. *)
Definition considered_by (scope : MemberScope) (m : MemberFact) : bool :=
  mf_Alive m && mf_OnRouteInstance m
  && (negb (bool_decide (scope = MemberScope_Owner)) || mf_Owner m).

Definition off_route (m : MemberFact) : bool := mf_Alive m && negb (mf_OnRouteInstance m).

Definition count (p : MemberFact -> bool) (l : list MemberFact) : Z :=
  Z.of_nat (length (List.filter p l)).

Lemma members_loop_spec scope p l a b :
  0 <= a -> 0 <= b -> a + Z.of_nat (length l) < 2 ^ 32 -> b + Z.of_nat (length l) < 2 ^ 32 ->
  members_loop scope p l a b =
  if bool_decide (scope = MemberScope_All) && existsb off_route l
  then inl (mkVerdict false "members_off_route_map")
  else inr (a + count (considered_by scope) l,
            b + count (fun m => considered_by scope m && p m) l).
Proof.
  unfold count. revert a b. induction l as [|m l IH]; intros a b Ha Hb Hla Hlb.
  { cbn. rewrite andb_false_r. f_equal. f_equal; lia. }
  cbn [length] in *. cbn [members_loop existsb List.filter].
  assert (Eo : off_route m = mf_Alive m && negb (mf_OnRouteInstance m)) by done.
  assert (Ec : considered_by scope m = mf_Alive m && mf_OnRouteInstance m
    && (negb (bool_decide (scope = MemberScope_Owner)) || mf_Owner m)) by done.
  rewrite Eo, Ec. clear Eo Ec.
  destruct (mf_Alive m); cbn [negb andb orb]; [|apply IH; lia].
  destruct (mf_OnRouteInstance m); cbn [negb andb orb].
  - destruct (bool_decide (scope = MemberScope_Owner)), (mf_Owner m); cbn [negb andb orb];
      try (apply IH; lia);
      rewrite ?u32_small by lia;
      (destruct (p m); rewrite IH by (rewrite ?u32_small; lia); rewrite ?u32_small by lia;
       (destruct (bool_decide (scope = MemberScope_All) && existsb off_route l);
        [done|f_equal; cbn [length]; f_equal; lia])).
  - destruct (bool_decide (scope = MemberScope_All)) eqn:E; cbn [negb andb orb]; [done|].
    rewrite IH by lia. done.
Qed.

Lemma count_pos p l : 0 < count p l <-> existsb p l = true.
Proof.
  unfold count. induction l as [|m l IH]; cbn; [split; [lia|done]|].
  destruct (p m); cbn; [split; [done|lia]|exact IH].
Qed.

Lemma count_all (p q : MemberFact -> bool) l :
  count (fun m => p m && q m) l = count p l <-> forallb (fun m => negb (p m) || q m) l = true.
Proof.
  unfold count.
  assert (Hle : forall l, (length (List.filter (fun m => p m && q m) l)
    <= length (List.filter p l))%nat).
  { clear. intros l. induction l as [|m l IH]; cbn; [done|].
    destruct (p m), (q m); cbn; lia. }
  induction l as [|m l IH]; cbn; [done|]. specialize (Hle l).
  destruct (p m), (q m); cbn; rewrite <- ?IH; split; (lia || done).
Qed.

(** Member conditions: scope [All] needs every living member on the route and
    satisfied (one elsewhere blocks it), [Any] one living member on the route,
    [Owner] the owners among them; every scope needs someone to consider. *)
Theorem members_verdict c facts p
    (Hlen : Z.of_nat (length (fs_Members facts)) < 2 ^ 32) :
  let ms := fs_Members facts in
  let considered := considered_by (cc_Scope c) in
  vd_Satisfied (members facts c p) =
  match cc_Scope c with
  | MemberScope_All =>
      negb (existsb off_route ms) && existsb considered ms
      && forallb (fun m => negb (considered m) || p m) ms
  | MemberScope_Any => existsb (fun m => considered m && p m) ms
  | MemberScope_Owner =>
      existsb considered ms && forallb (fun m => negb (considered m) || p m) ms
  end.
Proof.
  cbv zeta. unfold members. rewrite members_loop_spec by lia. rewrite !Z.add_0_l.
  set (ms := fs_Members facts). set (k := considered_by (cc_Scope c)).
  assert (Hpos : forall q : MemberFact -> bool, (0 <? count q ms) = existsb q ms).
  { intros q. apply Bool.eq_iff_eq_true. by rewrite Z.ltb_lt, count_pos. }
  assert (Hall : (count (fun m => k m && p m) ms =? count k ms)
    = forallb (fun m => negb (k m) || p m) ms).
  { apply Bool.eq_iff_eq_true. by rewrite Z.eqb_eq, count_all. }
  assert (Hany : existsb (fun m => k m && p m) ms = true -> existsb k ms = true).
  { rewrite !existsb_elem. intros (m & Hm & [? ?]%andb_true_iff). eauto. }
  destruct (cc_Scope c); cbn [andb].
  - rewrite (bool_decide_eq_true_2 (MemberScope_All = MemberScope_All)) by done. cbn [andb].
    destruct (existsb off_route ms); [done|]. cbn [vd_Satisfied negb andb].
    rewrite bool_decide_eq_false_2 by done. by rewrite Hpos, Hall.
  - rewrite bool_decide_eq_false_2 by done. cbn [andb vd_Satisfied].
    rewrite bool_decide_eq_true_2 by done. rewrite !Hpos.
    destruct (existsb (fun m => k m && p m) ms); [|by rewrite andb_false_r].
    by rewrite (Hany eq_refl).
  - rewrite bool_decide_eq_false_2 by done. cbn [andb vd_Satisfied].
    rewrite bool_decide_eq_false_2 by done. by rewrite Hpos, Hall.
Qed.

(** ** Observed entries *)

(** The entries a contract's tree names for creature kinds. *)
Fixpoint watched (c : CompletionContract) : list Z :=
  (match cc_Kind c with
   | CompletionKind_BossSummoned | CompletionKind_CreatureSummoned
   | CompletionKind_AuraPresent | CompletionKind_CreatureAggressiveWithVictim
   | CompletionKind_CreatureGroundedAggressiveOrEngaged => [cc_Entry c]
   | _ => []
   end) ++ flat_map watched (cc_Children c).

Lemma CollectObservedCreatureEntries_eq c entries :
  CollectObservedCreatureEntries c entries = entries ++ watched c.
Proof.
  revert entries. induction c as [c IH] using completion_ind. intros entries.
  destruct c as [d k n e s sp bi bs te ts sf ve se sc r t cs]. cbn in IH.
  cbn [CollectObservedCreatureEntries watched cc_Kind cc_Children cc_Entry].
  assert (H : forall entries, foldl (fun entries child =>
    CollectObservedCreatureEntries child entries) entries cs = entries ++ flat_map watched cs).
  { clear -IH. induction IH as [|x cs Hx _ IH]; intros es; cbn; [by rewrite app_nil_r|].
    by rewrite IH, Hx, app_assoc. }
  rewrite H. destruct k; rewrite <- ?app_assoc; done.
Qed.

Lemma unique_Z_elem x l : x ∈ unique_Z l <-> x ∈ l.
Proof.
  induction l as [|a [|b l] IH]; [done|done|]. cbn [unique_Z].
  destruct (a =? b) eqn:E; b2p; [subst|]; rewrite ?elem_of_cons in *; cbn in *; [|tauto].
  rewrite IH. tauto.
Qed.

Lemma unique_Z_sorted l :
  StronglySorted Z.le l -> StronglySorted Z.lt (unique_Z l).
Proof.
  induction l as [|a [|b l] IH]; intros H; [constructor|repeat constructor|].
  inversion H as [|? ? Hs Hall]; subst. specialize (IH Hs). cbn [unique_Z].
  destruct (a =? b) eqn:E; b2p; [done|]. constructor; [done|].
  inversion Hs as [|? ? _ Hb]; subst. inversion Hall as [|? ? Hab _]; subst.
  apply Forall_forall. intros y Hy. apply (unique_Z_elem y (b :: l)) in Hy.
  apply elem_of_cons in Hy as [->|Hy]; [lia|].
  rewrite Forall_forall in Hb. specialize (Hb y Hy). lia.
Qed.

Lemma StronglySorted_filter {A} (R : A -> A -> Prop) p l :
  StronglySorted R l -> StronglySorted R (List.filter p l).
Proof.
  induction 1 as [|x l Hs IH Hall]; cbn; [constructor|].
  destruct (p x); [|done]. constructor; [done|].
  apply Forall_forall. intros y Hy. apply list_elem_of_In, filter_In in Hy as [Hy _].
  rewrite Forall_forall in Hall. apply Hall. by apply list_elem_of_In.
Qed.

(** The observer's creature list is strictly increasing (so free of
    duplicates), never contains 0, and holds exactly the node's non-zero
    interaction entry (unless its target is a game object) and the entries of
    the creature kinds anywhere in its completion tree. *)
Theorem ObservedCreatureEntries_spec node :
  let i := nc_Interaction node in
  StronglySorted Z.lt (ObservedCreatureEntries node) /\
  forall e, e ∈ ObservedCreatureEntries node <->
    e <> 0 /\ ((e = ic_Entry i /\ ic_Declared i = true /\ ic_Target i <> TargetType_GameObject)
               \/ e ∈ watched (nc_Completion node)).
Proof.
  cbv zeta. unfold ObservedCreatureEntries. rewrite CollectObservedCreatureEntries_eq. split.
  - apply StronglySorted_filter, unique_Z_sorted, stable_sort_sorted.
    all: unfold Transitive; intros; b2p; lia.
  - intros e. rewrite list_elem_of_In, filter_In, <- list_elem_of_In, unique_Z_elem,
      stable_sort_perm, elem_of_app. b2p.
    destruct (ic_Declared _), (nz (ic_Entry _)) eqn:E; cbn;
      try (destruct (decide (ic_Target (nc_Interaction node) = TargetType_GameObject));
           [rewrite bool_decide_eq_true_2 by done|rewrite bool_decide_eq_false_2 by done]);
      cbn; b2p; rewrite ?list_elem_of_singleton, ?elem_of_nil; intuition congruence.
Qed.

(** ** Witnesses *)

Definition sample_member (guid : Z) (alive on_route owner : bool) (vehicle : Z) : MemberFact :=
  mkMemberFact guid alive on_route owner false 0 0 vehicle (-1).

Definition sample_facts (ms : list MemberFact) : FactSource :=
  mkFactSource (fun _ _ => []) (fun _ _ => mkObjectQuery [] true) (fun _ => None) ms
    (fun _ _ => mkTransportFact false false 0 0 0 false f32_zero f32_zero f32_zero f32_zero
                  f32_zero).

Example members_verdict_witness :
  vd_Satisfied (members
    (sample_facts [sample_member 1 true true true 5; sample_member 2 false false false 0;
                   sample_member 3 true true false 5])
    CompletionContract_default (fun m => mf_VehicleEntry m =? 5)) = true.
Proof.
  eapply eq_trans; [apply members_verdict; cbn; lia|reflexivity].
Defined.
