(* ===== verification/RouteTransport.v ===== *)
(** Riding transports: readiness and exit levels, the rest window of a cycling
    platform, and the boarding phases of one member
    ([Bots/BotValidationRouteNativeLogic.h]). *)
From S2P Require Import Prelude RouteTypes RouteCompletion.
From Stdlib Require Import ZArith Lia String Ascii.
From stdpp Require Import base gmap list strings.

Open Scope Z_scope.
Open Scope tc_scope.

(** ** Geometry and timeline *)

Record LocalBox : Type := mkLocalBox {
  lb_MinX : f32; lb_MinY : f32; lb_MinZ : f32; lb_MaxX : f32; lb_MaxY : f32; lb_MaxZ : f32;
  lb_Valid : bool }.

Definition InsideBox (local : Point3) (box : LocalBox) (margin : f32) : bool :=
  p_Valid local && lb_Valid box
  && f32_le (f32_sub (lb_MinX box) margin) (p_X local)
  && f32_le (p_X local) (f32_add (lb_MaxX box) margin)
  && f32_le (f32_sub (lb_MinY box) margin) (p_Y local)
  && f32_le (p_Y local) (f32_add (lb_MaxY box) margin)
  && f32_le (f32_sub (lb_MinZ box) margin) (p_Z local)
  && f32_le (p_Z local) (f32_add (lb_MaxZ box) margin).

Record TransportTimeline : Type := mkTimeline {
  tl_ZKeys : list (Z * f32); tl_PeriodMs : Z }.

Definition f32_one : f32 := f32_of_Z 1.

(** The loop of [OffsetAt] over the keys after the first; [prev] is the key
    before the one looked at. *)
Fixpoint OffsetAt_loop (prev : Z * f32) (keys : list (Z * f32)) (timeMs : Z) : f32 :=
  match keys with
  | [] => prev.2
  | (t1, z1) :: rest =>
      if timeMs <=? t1 then
        let '(t0, z0) := prev in
        let f := if t0 <? t1
          then f32_div (f32_of_Z (timeMs -32 t0)) (f32_of_Z (t1 -32 t0)) else f32_one in
        f32_add z0 (f32_mul (f32_sub z1 z0) f)
      else OffsetAt_loop (t1, z1) rest timeMs
  end.

Definition OffsetAt (timeline : TransportTimeline) (timeMs : Z) : f32 :=
  match tl_ZKeys timeline with
  | [] => f32_zero
  | k :: rest => if timeMs <=? k.1 then k.2 else OffsetAt_loop k rest timeMs
  end.

Definition UnboundedRestMs : Z := u64_max.

(** The [atLevel] lambda. *)
Definition atLevel (timeline : TransportTimeline) (levelOffset tolerance : f32) (t : Z) : bool :=
  f32_le (f32_abs (f32_sub (OffsetAt timeline (t mod tl_PeriodMs timeline)) levelOffset))
    tolerance.

(** The loop of [RestRemainingMs]; [None] when the fuel runs out. *)
Fixpoint RestRemaining_loop (fuel : nat) (at_level : Z -> bool) (period progress step elapsed : Z)
    : option Z :=
  match fuel with
  | O => None
  | S fuel =>
      if elapsed <=? period then
        if negb (at_level (progress +32 elapsed)) then Some (elapsed -32 step)
        else RestRemaining_loop fuel at_level period progress step (elapsed +32 step)
      else Some UnboundedRestMs
  end.

Definition RestRemainingMs (fuel : nat) (timeline : TransportTimeline) (progressMs : Z)
    (levelOffset tolerance : f32) (stepMs : Z) : option Z :=
  if negb (nz (tl_PeriodMs timeline)) || match tl_ZKeys timeline with [] => true | _ => false end
  then Some 0
  else if negb (atLevel timeline levelOffset tolerance progressMs) then Some 0
  else RestRemaining_loop fuel (atLevel timeline levelOffset tolerance)
         (tl_PeriodMs timeline) progressMs stepMs stepMs.

(** The default of the [stepMs] parameter. *)
Definition default_stepMs : Z := 25.

Definition TransportReadyToBoard (contract : TransportContract) (fact : TransportFact) : bool :=
  if 0 <=? tc_BoardStopFrame contract
  then TransportAtStop fact (tc_BoardStopFrame contract)
  else TransportAtLevel fact (tc_BoardTransportZ contract) (tc_LevelToleranceYards contract).

Definition TransportAtExit (contract : TransportContract) (fact : TransportFact) : bool :=
  if negb (HasExit contract) then false
  else if 0 <=? tc_ExitStopFrame contract
  then TransportAtStop fact (tc_ExitStopFrame contract)
  else TransportAtLevel fact (tc_ExitTransportZ contract) (tc_LevelToleranceYards contract).

(** ** Member phases *)

Inductive TransportStep : Type :=
| TransportStep_Hold | TransportStep_Stop | TransportStep_MoveToWait
| TransportStep_MoveToBoard | TransportStep_Board | TransportStep_HoldAboard
| TransportStep_MoveToDisembark | TransportStep_Leave | TransportStep_MoveToExit
| TransportStep_Done | TransportStep_Blocked | TransportStep_Fail.

#[export] Instance TransportStep_eq_dec : EqDecision TransportStep.
Proof. solve_decision. Defined.

Definition TransportStepName (step : TransportStep) : string :=
  match step with
  | TransportStep_Hold => "hold"
  | TransportStep_Stop => "stop"
  | TransportStep_MoveToWait => "move_to_wait"
  | TransportStep_MoveToBoard => "move_to_board"
  | TransportStep_Board => "board"
  | TransportStep_HoldAboard => "hold_aboard"
  | TransportStep_MoveToDisembark => "move_to_disembark"
  | TransportStep_Leave => "leave"
  | TransportStep_MoveToExit => "move_to_exit"
  | TransportStep_Done => "done"
  | TransportStep_Blocked => "blocked"
  | TransportStep_Fail => "fail"
  end.

Definition BoardWindowMarginMs : Z := 300.
Definition StrandedConfirmObservations : Z := 3.
Definition StrandedConfirmMs : Z := 400.

Record TransportMemberObservation : Type := mkMemberObservation {
  mo_Alive : bool;
  mo_TransportPresent : bool;
  mo_TransportAmbiguous : bool;
  mo_ReadyToBoard : bool;
  mo_AtExit : bool;
  mo_OnThisTransport : bool;
  mo_OnOtherTransportOrVehicle : bool;
  mo_Moving : bool;
  mo_Falling : bool;
  mo_NowMs : Z;
  mo_StaticFloorUnderfoot : bool;
  mo_TransportFloorUnderfoot : bool;
  mo_RestRemainingMs : Z;
  mo_TravelToBoardMs : Z;
  mo_DistanceToWait : f32;
  mo_DistanceToBoard : f32;
  mo_DistanceToDisembark : f32;
  mo_DistanceToExit : f32
}.

Record TransportDecision : Type := mkTransportDecision {
  td_Step : TransportStep; td_Reason : string }.

(** Assignments to one field of a member's state. *)
Definition set_Boarded (s : TransportMemberState) : TransportMemberState :=
  mkMemberState true (ms_Left s) (ms_BoardSubmissions s) (ms_LeaveSubmissions s)
    (ms_FailedSubmissions s) (ms_PlatformFloorSeen s) (ms_FloorlessObservations s)
    (ms_FloorlessSinceMs s) (ms_LastReason s).

Definition set_Left (s : TransportMemberState) : TransportMemberState :=
  mkMemberState (ms_Boarded s) true (ms_BoardSubmissions s) (ms_LeaveSubmissions s)
    (ms_FailedSubmissions s) (ms_PlatformFloorSeen s) (ms_FloorlessObservations s)
    (ms_FloorlessSinceMs s) (ms_LastReason s).

Definition set_PlatformFloorSeen (s : TransportMemberState) (seen : bool)
    : TransportMemberState :=
  mkMemberState (ms_Boarded s) (ms_Left s) (ms_BoardSubmissions s) (ms_LeaveSubmissions s)
    (ms_FailedSubmissions s) seen (ms_FloorlessObservations s)
    (ms_FloorlessSinceMs s) (ms_LastReason s).

Definition set_Floorless (s : TransportMemberState) (count since : Z) : TransportMemberState :=
  mkMemberState (ms_Boarded s) (ms_Left s) (ms_BoardSubmissions s) (ms_LeaveSubmissions s)
    (ms_FailedSubmissions s) (ms_PlatformFloorSeen s) count since (ms_LastReason s).

(** The passenger branch of [DecideTransportStep]. *)
Definition DecideAboard (contract : TransportContract) (o : TransportMemberObservation)
    : TransportDecision :=
  let static_floor := mo_StaticFloorUnderfoot o in
  if negb (HasExit contract) then mkTransportDecision TransportStep_Done "transport_boarded"
  else if negb (mo_AtExit o)
  then mkTransportDecision TransportStep_HoldAboard "transport_riding"
  else if negb static_floor && negb (p_Valid (tc_DisembarkPoint contract))
  then mkTransportDecision TransportStep_Blocked "transport_exit_no_static_floor"
  else if negb static_floor
    && f32_gt (mo_DistanceToDisembark o) (tc_ArrivalToleranceYards contract)
  then mkTransportDecision TransportStep_MoveToDisembark "transport_disembark_path"
  else if mo_Moving o
  then mkTransportDecision TransportStep_HoldAboard "transport_exit_settling"
  else if negb static_floor
  then mkTransportDecision TransportStep_Blocked "transport_disembark_no_static_floor"
  else mkTransportDecision TransportStep_Leave "transport_exit_level_reached".

(** The tail of [DecideTransportStep] for a member still to board, whose floor
    has been tracked. *)
Definition DecideBoarding (contract : TransportContract) (o : TransportMemberObservation)
    : TransportDecision :=
  let onPlatformFloor := mo_TransportFloorUnderfoot o && negb (mo_StaticFloorUnderfoot o) in
  let windowShort := negb (mo_RestRemainingMs o =? UnboundedRestMs)
    && (mo_RestRemainingMs o <? mo_TravelToBoardMs o +64 BoardWindowMarginMs) in
  let tolerance := tc_ArrivalToleranceYards contract in
  let canRetreat := p_Valid (tc_WaitPoint contract)
    && f32_gt (mo_DistanceToWait o) tolerance in
  if onPlatformFloor then
    if mo_Moving o
    then mkTransportDecision TransportStep_Stop "transport_board_stop_on_platform"
    else mkTransportDecision TransportStep_Board "transport_board_ready"
  else if negb (mo_ReadyToBoard o) then
    if canRetreat then mkTransportDecision TransportStep_MoveToWait "transport_wait_path"
    else if mo_Moving o
    then mkTransportDecision TransportStep_Stop "transport_not_ready_stop"
    else mkTransportDecision TransportStep_Hold "transport_waiting"
  else if f32_le (mo_DistanceToBoard o) tolerance
  then mkTransportDecision TransportStep_Blocked "transport_board_point_not_on_platform_floor"
  else if windowShort then
    if mo_Moving o then
      if canRetreat
      then mkTransportDecision TransportStep_MoveToWait "transport_rest_window_short_retreat"
      else mkTransportDecision TransportStep_Stop "transport_rest_window_short_stop"
    else mkTransportDecision TransportStep_Hold "transport_rest_window_too_short"
  else mkTransportDecision TransportStep_MoveToBoard "transport_board_path".

(** The floor memory of a member that is not a passenger. *)
Definition TrackFloor (o : TransportMemberObservation) (s : TransportMemberState)
    : TransportMemberState :=
  let onPlatformFloor := mo_TransportFloorUnderfoot o && negb (mo_StaticFloorUnderfoot o) in
  if mo_StaticFloorUnderfoot o then set_PlatformFloorSeen s false
  else if onPlatformFloor then set_PlatformFloorSeen s true else s.

(** The part of [DecideTransportStep] for a member that is not a passenger. *)
Definition DecideOffPlatform (contract : TransportContract) (o : TransportMemberObservation)
    (s : TransportMemberState) : TransportDecision * TransportMemberState :=
  let floorless := negb (mo_StaticFloorUnderfoot o) && negb (mo_TransportFloorUnderfoot o) in
  let s := TrackFloor o s in
  let settled := negb (mo_Moving o) && negb (mo_Falling o) in
  if floorless && settled && ms_PlatformFloorSeen s then
    let since := if negb (nz (ms_FloorlessObservations s)) then mo_NowMs o
                 else ms_FloorlessSinceMs s in
    let s := set_Floorless s (ms_FloorlessObservations s +32 1) since in
    if (StrandedConfirmObservations <=? ms_FloorlessObservations s)
       && (ms_FloorlessSinceMs s +64 StrandedConfirmMs <=? mo_NowMs o)
    then (mkTransportDecision TransportStep_Fail "transport_member_stranded_without_floor", s)
    else (mkTransportDecision TransportStep_Hold "transport_member_floor_lost_confirming", s)
  else
  let s := set_Floorless s 0 0 in
  if floorless && settled
  then (mkTransportDecision TransportStep_Hold "transport_member_floor_unverified", s)
  else if ms_Boarded s && HasExit contract then
    let s := set_Left s in
    if f32_le (mo_DistanceToExit o) (tc_ArrivalToleranceYards contract)
    then (mkTransportDecision TransportStep_Done "transport_exit_reached", s)
    else (mkTransportDecision TransportStep_MoveToExit "transport_exit_path", s)
  else (DecideBoarding contract o, s).

Definition DecideTransportStep (contract : TransportContract) (o : TransportMemberObservation)
    (s : TransportMemberState) : TransportDecision * TransportMemberState :=
  if negb (mo_Alive o)
  then (mkTransportDecision TransportStep_Hold "transport_member_dead", s)
  else
  let s := if mo_OnThisTransport o then set_Boarded s else s in
  if mo_TransportAmbiguous o
  then (mkTransportDecision TransportStep_Blocked "transport_ambiguous", s)
  else if negb (mo_TransportPresent o)
  then (mkTransportDecision TransportStep_Blocked "transport_missing", s)
  else if mo_OnOtherTransportOrVehicle o && negb (mo_OnThisTransport o)
  then (mkTransportDecision TransportStep_Blocked "transport_member_on_other_transport", s)
  else if tc_MaxSubmissions contract <=? ms_FailedSubmissions s
  then (mkTransportDecision TransportStep_Fail "transport_submissions_exhausted", s)
  else if mo_OnThisTransport o
  then (DecideAboard contract o, set_Floorless s 0 0)
  else DecideOffPlatform contract o s.

Definition MemberTransportDone (contract : TransportContract) (onThisTransport boarded : bool)
    (distanceToExit : f32) : bool :=
  if negb (HasExit contract) then onThisTransport
  else boarded && negb onThisTransport
       && f32_le distanceToExit (tc_ArrivalToleranceYards contract).

(** ** The rest window *)

Section Rest.
Context (at_level : Z -> bool) (period progress step : Z).
Context (Hstep : 0 < step) (Hperiod : 0 <= period) (Hfit : period + step < 2 ^ 32).

(** The sample [n] steps after [progress]. *)
Definition sample (n : nat) : bool := at_level (progress +32 (Z.of_nat n * step)).

Definition rest_window (r : Z) : Prop :=
  (exists k : nat, r = Z.of_nat k * step /\ Z.of_nat (S k) * step <= period /\
     (forall i, (i <= k)%nat -> sample i = true) /\ sample (S k) = false) \/
  (r = UnboundedRestMs /\ forall i, Z.of_nat i * step <= period -> sample i = true).

Lemma RestRemaining_loop_spec fuel k :
  (forall i, (i <= k)%nat -> sample i = true) ->
  Z.of_nat k * step <= period ->
  period / step - Z.of_nat k < Z.of_nat fuel - 1 ->
  exists r, RestRemaining_loop fuel at_level period progress step (Z.of_nat (S k) * step) = Some r
    /\ rest_window r.
Proof.
  revert k. induction fuel as [|fuel IH]; intros k Hk Hle Hf.
  { assert (Z.of_nat k <= period / step) by (apply Z.div_le_lower_bound; lia). lia. }
  cbn [RestRemaining_loop]. destruct (Z.of_nat (S k) * step <=? period) eqn:E; b2p.
  - fold (sample (S k)). destruct (sample (S k)) eqn:Es; cbn [negb].
    + rewrite u32_small by lia.
      replace (Z.of_nat (S k) * step + step) with (Z.of_nat (S (S k)) * step) by lia.
      apply IH; [|done|lia]. intros i Hi.
      destruct (decide (i = S k)) as [->|]; [done|apply Hk; lia].
    + eexists. split; [done|]. left. exists k. rewrite u32_small by lia.
      split_and!; [lia|done|done|done].
  - eexists. split; [done|]. right. split; [done|]. intros i Hi. apply Hk.
    destruct (decide (i <= k)%nat) as [|Hn]; [done|]. nia.
Qed.

End Rest.

(** The rest window: with a positive step and a period whose last step fits
    32 bits, [RestRemainingMs] terminates; it is 0 without a timeline or away
    from the level, and otherwise the platform is at the level at every sampled
    instant up to the returned time and away at the next sample, or at the level
    at every sample of the period when the result is unbounded. *)
Theorem RestRemainingMs_spec timeline progress level tolerance step
    (Hstep : 0 < step) (Hperiod : 0 <= tl_PeriodMs timeline)
    (Hfit : tl_PeriodMs timeline + step < 2 ^ 32) (Hprogress : 0 <= progress < 2 ^ 32) :
  let fuel := (Z.to_nat (tl_PeriodMs timeline / step) + 2)%nat in
  exists r, RestRemainingMs fuel timeline progress level tolerance step = Some r /\
  if (tl_PeriodMs timeline =? 0) || (match tl_ZKeys timeline with [] => true | _ => false end)
     || negb (atLevel timeline level tolerance progress)
  then r = 0
  else rest_window (atLevel timeline level tolerance) (tl_PeriodMs timeline) progress step r.
Proof.
  cbv zeta. unfold RestRemainingMs, nz. rewrite negb_involutive.
  destruct ((tl_PeriodMs timeline =? 0) || _) eqn:E; cbn [orb]; [by eexists|].
  destruct (atLevel timeline level tolerance progress) eqn:Ea; cbn [negb]; [|by eexists].
  apply orb_false_iff in E as [E _]. b2p.
  destruct (RestRemaining_loop_spec (atLevel timeline level tolerance) (tl_PeriodMs timeline)
    progress step Hstep Hfit (Z.to_nat (tl_PeriodMs timeline / step) + 2) 0)
    as (r & Hr & Hw); [|done| |exists r; by rewrite Z.mul_1_l in Hr].
  - intros i Hi. replace i with 0%nat by lia. unfold sample.
    by rewrite Z.mul_0_l, Z.add_0_r, u32_small.
  - pose proof (Z.div_pos (tl_PeriodMs timeline) step Hperiod Hstep). lia.
Qed.

(** Without that bound the loop need not end: its counter wraps. *)
Lemma RestRemaining_loop_diverges fuel progress step elapsed :
  RestRemaining_loop fuel (fun _ => true) u32_max progress step (u32 elapsed) = None.
Proof.
  revert elapsed. induction fuel as [|fuel IH]; intros elapsed; [done|]. cbn.
  pose proof (u32_bound elapsed). rewrite (proj2 (Z.leb_le _ _)) by (unfold u32_max; lia).
  apply IH.
Qed.

(** ** One member's ride *)

(** The member is in a state the phases act on. *)
Definition active (o : TransportMemberObservation) : bool :=
  mo_Alive o && negb (mo_TransportAmbiguous o) && mo_TransportPresent o
  && negb (mo_OnOtherTransportOrVehicle o && negb (mo_OnThisTransport o)).

Definition on_platform (o : TransportMemberObservation) : bool :=
  mo_TransportFloorUnderfoot o && negb (mo_StaticFloorUnderfoot o).

(** Off the platform's passenger list, at rest, with no floor at all. *)
Definition floorless_at_rest (o : TransportMemberObservation) : bool :=
  negb (mo_OnThisTransport o) && negb (mo_StaticFloorUnderfoot o)
  && negb (mo_TransportFloorUnderfoot o) && negb (mo_Moving o) && negb (mo_Falling o).

(** What a member may do: it boards only off the passenger list, at rest, on
    the platform's own floor; it leaves only from the passenger list, at rest,
    over static ground with the platform at the exit; it walks to the board
    point only while the platform is ready and its rest window outlasts the
    walk by the margin; and it is done only when the node counts it as done. *)
Theorem DecideTransportStep_safe c o s :
  let '(d, s') := DecideTransportStep c o s in
  (td_Step d = TransportStep_Board ->
     active o = true /\ mo_OnThisTransport o = false /\ on_platform o = true /\
     mo_Moving o = false /\ ms_FailedSubmissions s < tc_MaxSubmissions c) /\
  (td_Step d = TransportStep_Leave ->
     active o = true /\ mo_OnThisTransport o = true /\ HasExit c = true /\
     mo_AtExit o = true /\ mo_StaticFloorUnderfoot o = true /\ mo_Moving o = false /\
     ms_FailedSubmissions s < tc_MaxSubmissions c) /\
  (td_Step d = TransportStep_MoveToBoard ->
     mo_ReadyToBoard o = true /\ on_platform o = false /\ mo_OnThisTransport o = false /\
     (mo_RestRemainingMs o = UnboundedRestMs \/
      mo_TravelToBoardMs o +64 BoardWindowMarginMs <= mo_RestRemainingMs o)) /\
  (td_Step d = TransportStep_Done ->
     MemberTransportDone c (mo_OnThisTransport o) (ms_Boarded s') (mo_DistanceToExit o) = true).
Proof.
  unfold DecideTransportStep, DecideOffPlatform, active, on_platform, MemberTransportDone.
  destruct (mo_Alive o); [|done]. cbn [negb andb].
  destruct (mo_TransportAmbiguous o); [done|]. destruct (mo_TransportPresent o); [|done].
  cbn [negb andb]. destruct (mo_OnThisTransport o) eqn:Et; cbn [negb andb].
  - rewrite andb_false_r. destruct (tc_MaxSubmissions c <=? _) eqn:Em; [done|]. b2p.
    cbn in Em. unfold DecideAboard.
    destruct (HasExit c); cbn [negb]; [|by cbn].
    destruct (mo_AtExit o); cbn [negb]; [|done].
    destruct (mo_StaticFloorUnderfoot o), (p_Valid (tc_DisembarkPoint c)),
      (f32_gt _ _), (mo_Moving o); cbn; done.
  - rewrite andb_true_r. destruct (mo_OnOtherTransportOrVehicle o); [done|].
    destruct (tc_MaxSubmissions c <=? _) eqn:Em; [done|]. b2p.
    match goal with |- context [if ?g && ms_PlatformFloorSeen ?x then _ else _] =>
      set (s1 := x); destruct (g && ms_PlatformFloorSeen s1) end.
    { by destruct (_ && (_ <=? mo_NowMs o)). }
    destruct (negb (mo_StaticFloorUnderfoot o) && negb (mo_TransportFloorUnderfoot o)
      && _) eqn:Ef; [done|].
    destruct (ms_Boarded _ && HasExit c) eqn:Eb.
    + apply andb_true_iff in Eb as [Eb ->]. cbn [negb]. destruct (f32_le _ _) eqn:Ed; [|done].
      cbn. cbn in Eb. by rewrite Eb.
    + unfold DecideBoarding.
      destruct (mo_TransportFloorUnderfoot o && negb (mo_StaticFloorUnderfoot o)) eqn:Ep.
      { by destruct (mo_Moving o). }
      destruct (mo_ReadyToBoard o); cbn [negb].
      2: { destruct (p_Valid _ && _); [done|]. by destruct (mo_Moving o). }
      destruct (f32_le _ _); [done|].
      destruct (negb (_ =? UnboundedRestMs) && _) eqn:Ew.
      { destruct (mo_Moving o); [|done]. by destruct (p_Valid _ && _). }
      cbn. split_and!; try done. intros _. split_and!; try done. b2p. lia.
Qed.

(** ** Stranding takes a confirmed loss of the floor *)

(** A member's state after a sequence of observations. *)
Definition MemberRun (c : TransportContract) (obs : list TransportMemberObservation)
    : TransportMemberState :=
  foldl (fun s o => (DecideTransportStep c o s).2) TransportMemberState_default obs.

(** Nothing said since that the member stands on static ground. *)
Definition no_static_floor (o : TransportMemberObservation) : bool :=
  mo_OnThisTransport o || negb (mo_StaticFloorUnderfoot o).

Definition seen_on_platform (acts : list TransportMemberObservation) : Prop :=
  exists pre p post, acts = pre ++ p :: post /\ mo_OnThisTransport p = false /\
    on_platform p = true /\ Forall (fun o => no_static_floor o = true) post.

(** The last [n] observations are floorless at rest, the first of them at [t]. *)
Definition floorless_streak (acts : list TransportMemberObservation) (n t : Z) : Prop :=
  exists pre streak, acts = pre ++ streak /\ Z.of_nat (length streak) = n /\
    Forall (fun o => floorless_at_rest o = true) streak /\
    (forall o, head streak = Some o -> mo_NowMs o = t).

Definition member_inv (acts : list TransportMemberObservation) (s : TransportMemberState) : Prop :=
  (ms_PlatformFloorSeen s = true -> seen_on_platform acts) /\
  floorless_streak acts (ms_FloorlessObservations s) (ms_FloorlessSinceMs s).

Lemma seen_on_platform_snoc acts o :
  no_static_floor o = true -> seen_on_platform acts -> seen_on_platform (acts ++ [o]).
Proof.
  intros Ho (pre & p & post & -> & Hp & Hp' & Hall). exists pre, p, (post ++ [o]).
  split_and!; [by rewrite <- app_assoc|done|done|]. rewrite Forall_app. by repeat constructor.
Qed.

Lemma seen_on_platform_now acts o :
  mo_OnThisTransport o = false -> on_platform o = true -> seen_on_platform (acts ++ [o]).
Proof. intros Ho Hp. exists acts, o, []. by repeat constructor. Qed.

Lemma floorless_streak_reset acts t : floorless_streak acts 0 t.
Proof. exists acts, []. split_and!; [by rewrite app_nil_r|done|done|done]. Qed.

Lemma floorless_streak_snoc acts o n t :
  floorless_at_rest o = true -> floorless_streak acts n t ->
  floorless_streak (acts ++ [o]) (n + 1) (if negb (nz n) then mo_NowMs o else t).
Proof.
  intros Ho (pre & st & -> & <- & Hall & Hhd). exists pre, (st ++ [o]).
  split_and!.
  - by rewrite app_assoc.
  - rewrite length_app. cbn. lia.
  - rewrite Forall_app. by repeat constructor.
  - destruct st as [|o1 st]; cbn; [by intros ? [= ->]|]. intros o' [= ->].
    apply (Hhd o'). done.
Qed.

(** What a tick does to the floor memory. *)
Record tick_tracks (o : TransportMemberObservation) (s : TransportMemberState)
    (acts acts' : list TransportMemberObservation)
    (r : TransportDecision * TransportMemberState) : Prop := {
  tt_inv : member_inv acts' r.2;
  tt_failed : ms_FailedSubmissions r.2 = ms_FailedSubmissions s;
  tt_count : 0 <= ms_FloorlessObservations r.2 <= ms_FloorlessObservations s + 1;
  tt_since : 0 <= ms_FloorlessSinceMs r.2 < 2 ^ 63;
  tt_stranded : td_Reason r.1 = "transport_member_stranded_without_floor"%string ->
    active o = true /\ seen_on_platform acts' /\ 3 <= ms_FloorlessObservations r.2 /\
    ms_FloorlessSinceMs r.2 + 400 <= mo_NowMs o
}.

Section Tick.
Context (c : TransportContract) (o : TransportMemberObservation) (s : TransportMemberState)
  (acts : list TransportMemberObservation).
Context (Hinv : member_inv acts s) (Hcount : 0 <= ms_FloorlessObservations s < 2 ^ 32 - 1)
  (Hsince : 0 <= ms_FloorlessSinceMs s < 2 ^ 63) (Hnow : 0 <= mo_NowMs o < 2 ^ 63).

Lemma tick_unchanged d s' :
  ms_PlatformFloorSeen s' = ms_PlatformFloorSeen s ->
  ms_FloorlessObservations s' = ms_FloorlessObservations s ->
  ms_FloorlessSinceMs s' = ms_FloorlessSinceMs s ->
  ms_FailedSubmissions s' = ms_FailedSubmissions s ->
  td_Reason d <> "transport_member_stranded_without_floor"%string ->
  tick_tracks o s acts (acts ++ []) (d, s').
Proof.
  intros E1 E2 E3 E4 Hd. rewrite app_nil_r. destruct Hinv as [H1 H2].
  split; cbn [fst snd]; rewrite ?E2, ?E3; try lia; try done.
  split; [by rewrite E1|by rewrite E2, E3].
Qed.

Lemma tick_reset d s' seen' :
  (seen' = true -> seen_on_platform (acts ++ [o])) ->
  ms_PlatformFloorSeen s' = seen' -> ms_FloorlessObservations s' = 0 ->
  ms_FloorlessSinceMs s' = 0 -> ms_FailedSubmissions s' = ms_FailedSubmissions s ->
  td_Reason d <> "transport_member_stranded_without_floor"%string ->
  tick_tracks o s acts (acts ++ [o]) (d, s').
Proof.
  intros Hs E1 E2 E3 E4 Hd. split; cbn [fst snd]; rewrite ?E2, ?E3; try lia; try done.
  split; [by rewrite E1|]. rewrite E2. apply floorless_streak_reset.
Qed.

Lemma TrackFloor_seen : mo_OnThisTransport o = false ->
  ms_PlatformFloorSeen (TrackFloor o s) = true -> seen_on_platform (acts ++ [o]).
Proof.
  unfold TrackFloor. intros Ho. destruct (mo_StaticFloorUnderfoot o) eqn:Es; [done|].
  destruct (mo_TransportFloorUnderfoot o && negb false) eqn:Ep.
  - intros _. apply seen_on_platform_now; [done|]. unfold on_platform. by rewrite Es.
  - intros Hs. apply seen_on_platform_snoc; [|by apply Hinv].
    unfold no_static_floor. rewrite Es. by rewrite orb_true_r.
Qed.

Lemma TrackFloor_keeps :
  ms_FloorlessObservations (TrackFloor o s) = ms_FloorlessObservations s /\
  ms_FloorlessSinceMs (TrackFloor o s) = ms_FloorlessSinceMs s /\
  ms_FailedSubmissions (TrackFloor o s) = ms_FailedSubmissions s.
Proof. unfold TrackFloor. by repeat case_match. Qed.

Lemma DecideOffPlatform_tracks :
  mo_OnThisTransport o = false -> active o = true ->
  tick_tracks o s acts (acts ++ [o]) (DecideOffPlatform c o s).
Proof.
  intros Ho Hact. unfold DecideOffPlatform.
  destruct TrackFloor_keeps as (T1 & T2 & T3). pose proof (TrackFloor_seen Ho) as Hseen.
  set (t := TrackFloor o s) in *. rewrite T1, T2.
  destruct (negb (mo_StaticFloorUnderfoot o) && negb (mo_TransportFloorUnderfoot o)
    && (negb (mo_Moving o) && negb (mo_Falling o)) && ms_PlatformFloorSeen t) eqn:Ef.
  - apply andb_true_iff in Ef as [Ef Es].
    assert (Hrest : floorless_at_rest o = true).
    { unfold floorless_at_rest. rewrite Ho. b2p. tauto. }
    destruct Hinv as [_ Hstreak].
    pose proof (floorless_streak_snoc acts o _ _ Hrest Hstreak) as Hstreak'.
    rewrite u32_small by lia.
    set (since := if negb (nz (ms_FloorlessObservations s)) then _ else _) in *.
    assert (0 <= since < 2 ^ 63) by (unfold since; destruct (nz _); cbn; lia).
    cbn [set_Floorless ms_FloorlessObservations ms_FloorlessSinceMs].
    destruct (_ && (_ <=? mo_NowMs o)) eqn:Ec.
    + split; cbn; try done; try lia.
      unfold StrandedConfirmObservations, StrandedConfirmMs in Ec.
      rewrite u64_small in Ec by lia. b2p. intros _. split_and!; [done|auto|lia|lia].
    + split; cbn; try done; lia.
  - destruct (negb _ && negb _ && _); [by eapply tick_reset|].
    destruct (ms_Boarded _ && HasExit c).
    + destruct (f32_le _ _); by eapply tick_reset.
    + eapply tick_reset; try done. unfold DecideBoarding. by repeat case_match.
Qed.

Lemma DecideTransportStep_tracks :
  ms_FailedSubmissions s < tc_MaxSubmissions c ->
  tick_tracks o s acts (acts ++ if active o then [o] else []) (DecideTransportStep c o s).
Proof.
  intros Hmax. unfold DecideTransportStep. set (b := if mo_OnThisTransport o then set_Boarded s else s).
  assert (Hb : ms_PlatformFloorSeen b = ms_PlatformFloorSeen s /\
    ms_FloorlessObservations b = ms_FloorlessObservations s /\
    ms_FloorlessSinceMs b = ms_FloorlessSinceMs s /\
    ms_FailedSubmissions b = ms_FailedSubmissions s)
    by (unfold b; by destruct (mo_OnThisTransport o)).
  destruct Hb as (B1 & B2 & B3 & B4).
  pose proof DecideOffPlatform_tracks as Hoff. unfold active in *.
  destruct (mo_Alive o); cbn [negb andb]; [|by apply tick_unchanged].
  destruct (mo_TransportAmbiguous o); cbn [negb andb]; [by apply tick_unchanged|].
  destruct (mo_TransportPresent o); cbn [negb andb]; [|by apply tick_unchanged].
  rewrite B4, (proj2 (Z.leb_gt _ _)) by done.
  destruct (mo_OnThisTransport o) eqn:Et; cbn [negb andb].
  - rewrite andb_false_r. cbn [negb]. apply (tick_reset _ _ (ms_PlatformFloorSeen s)); try done.
    + intros Hs. apply seen_on_platform_snoc; [unfold no_static_floor; by rewrite Et|].
      by apply Hinv.
    + unfold DecideAboard. by repeat case_match.
  - destruct (mo_OnOtherTransportOrVehicle o); cbn [negb andb]; [by apply tick_unchanged|].
    by apply Hoff.
Qed.

End Tick.

(** The observations a member's phases acted on. *)
Definition acted (obs : list TransportMemberObservation) : list TransportMemberObservation :=
  List.filter active obs.

Lemma MemberRun_tracks c obs :
  0 < tc_MaxSubmissions c -> Z.of_nat (length obs) < 2 ^ 32 - 1 ->
  Forall (fun o => 0 <= mo_NowMs o < 2 ^ 63) obs ->
  member_inv (acted obs) (MemberRun c obs) /\
  ms_FailedSubmissions (MemberRun c obs) = 0 /\
  0 <= ms_FloorlessObservations (MemberRun c obs) <= Z.of_nat (length obs) /\
  0 <= ms_FloorlessSinceMs (MemberRun c obs) < 2 ^ 63.
Proof.
  intros Hmax. unfold MemberRun, acted. induction obs as [|o obs IH] using rev_ind.
  - intros _ _. cbn. split_and!; try lia. split; [done|apply floorless_streak_reset].
  - rewrite length_app. cbn [length]. intros Hlen [Hobs Ho]%Forall_app.
    destruct IH as (I1 & I2 & I3 & I4); [lia|done|].
    rewrite foldl_app, List.filter_app. cbn [foldl List.filter].
    destruct (DecideTransportStep_tracks c o _ _ I1 ltac:(lia) I4 ltac:(by inversion Ho)
      ltac:(lia)) as [T1 T2 T3 T4 _].
    split_and!; [exact T1|lia|lia|lia|lia|lia].
Qed.

(** A member is failed as stranded only on evidence: in the run of its
    observations, an earlier one stood on this platform's own floor with no
    static ground seen since, and the latest three or more that the phases acted
    on were floorless, off the passenger list, standing still and not falling,
    over at least 400 ms. *)
Theorem stranded_confirmed c obs o
    (Hmax : 0 < tc_MaxSubmissions c) (Hlen : Z.of_nat (length obs) < 2 ^ 32 - 1)
    (Htimes : Forall (fun o => 0 <= mo_NowMs o < 2 ^ 63) (obs ++ [o]))
    (Hfail : td_Reason (DecideTransportStep c o (MemberRun c obs)).1
             = "transport_member_stranded_without_floor"%string) :
  let acts := acted (obs ++ [o]) in
  seen_on_platform acts /\
  exists pre first rest, acts = pre ++ first :: rest /\
    Forall (fun o => floorless_at_rest o = true) (first :: rest) /\
    (2 <= length rest)%nat /\ mo_NowMs first + 400 <= mo_NowMs o.
Proof.
  cbv zeta. apply Forall_app in Htimes as [Hobs Ho].
  destruct (MemberRun_tracks c obs Hmax Hlen Hobs) as (I1 & I2 & I3 & I4).
  destruct (DecideTransportStep_tracks c o _ _ I1 ltac:(lia) I4 ltac:(by inversion Ho)
    ltac:(lia)) as [[_ (pre & st & E1 & E2 & E3 & E4)] _ _ _ T5].
  destruct (T5 Hfail) as (Hact & Hseen & Hn & Ht). unfold acted in *.
  rewrite List.filter_app. cbn [List.filter]. rewrite Hact in *. split; [done|].
  destruct st as [|first rest]; [cbn in E2; lia|].
  exists pre, first, rest. rewrite (E4 first eq_refl). cbn in E2.
  split_and!; [done|done|lia|done].
Qed.

(** ** Witnesses *)

Definition sample_transport : TransportContract :=
  mkTransport true 207834 0 (-1) true f32_zero (-1) false f32_zero f32_0_75
    Point3_default (mkPoint3 f32_zero f32_zero f32_zero true) Point3_default Point3_default
    f32_1_5 f32_0_5 600000 5.

(** A stationary member off the passenger list. *)
Definition sample_stand (now : Z) (static platform : bool) : TransportMemberObservation :=
  mkMemberObservation true true false false false false false false false now static platform
    0 0 f32_zero f32_zero f32_zero f32_zero.

Example RestRemainingMs_spec_witness :
  let t := mkTimeline [(0, f32_zero); (1000, f32_zero); (2000, f32_of_Z 10)] 4000 in
  RestRemainingMs 162 t 200 f32_zero f32_0_5 25 = Some 850 /\
  exists r, RestRemainingMs 162 t 200 f32_zero f32_0_5 25 = Some r /\
    rest_window (atLevel t f32_zero f32_0_5) 4000 200 25 r.
Proof.
  cbv zeta. split; [by vm_compute|].
  exact (RestRemainingMs_spec
    (mkTimeline [(0, f32_zero); (1000, f32_zero); (2000, f32_of_Z 10)] 4000) 200 f32_zero
    f32_0_5 25 eq_refl ltac:(done) eq_refl ltac:(done)).
Defined.

Example stranded_confirmed_witness :
  let obs := [sample_stand 1000 false true; sample_stand 1100 false false;
              sample_stand 1300 false false] in
  let o := sample_stand 1500 false false in
  td_Step (DecideTransportStep sample_transport o (MemberRun sample_transport obs)).1
    = TransportStep_Fail /\ seen_on_platform (acted (obs ++ [o])).
Proof.
  cbv zeta. split; [reflexivity|].
  apply (stranded_confirmed sample_transport
    [sample_stand 1000 false true; sample_stand 1100 false false; sample_stand 1300 false false]
    (sample_stand 1500 false false)); [reflexivity|reflexivity| |reflexivity].
  repeat constructor; cbn; lia.
Defined.
