(* ===== verification/RouteJson.v ===== *)
(** The strict JSON reader of the route contracts:
    [Bots/BotValidationRouteNativeJson.h].

    The reader's position in its text is modelled by the text that is left, and
    its first error by the left side of a sum; [json_invalid], the error of a
    reader that failed without one, never arises since every failure goes
    through [Fail]. *)
From S2P Require Import Prelude Doubles.
From Stdlib Require Import ZArith Lia String Ascii.
From stdpp Require Import base gmap list strings.

Open Scope Z_scope.
Open Scope tc_scope.

(** ** Values *)

Inductive Type_ : Type := Type_Null | Type_Bool | Type_Number | Type_String | Type_Array | Type_Object.

#[export] Instance Type_eq_dec : EqDecision Type_.
Proof. solve_decision. Defined.

Inductive Value : Type := mkValue {
  v_Kind : Type_;
  v_Boolean : bool;
  v_Number : f64;
  v_Integral : bool;
  v_Negative : bool;
  v_Text : string;
  v_Items : list Value;
  v_Members : list (string * Value)
}.

Definition Value_default : Value := mkValue Type_Null false f64_zero false false "" [] [].

Definition IsObject (v : Value) : bool := bool_decide (v_Kind v = Type_Object).
Definition IsArray (v : Value) : bool := bool_decide (v_Kind v = Type_Array).
Definition IsString (v : Value) : bool := bool_decide (v_Kind v = Type_String).
Definition IsNumber (v : Value) : bool := bool_decide (v_Kind v = Type_Number).
Definition IsBool (v : Value) : bool := bool_decide (v_Kind v = Type_Bool).

Fixpoint find_member (ms : list (string * Value)) (key : string) : option Value :=
  match ms with
  | [] => None
  | (name, v) :: rest => if String.eqb name key then Some v else find_member rest key
  end.

Definition Find (v : Value) (key : string) : option Value :=
  if negb (IsObject v) then None else find_member (v_Members v) key.

(** ** Reader *)

(** A reader that fails has a reason; running out of fuel is kept apart. *)
Inductive ReadError : Type := Failed (reason : string) | OutOfFuel.

Definition Read (A : Type) : Type := ReadError + (A * string).

Definition Fail_ {A} (reason : string) : Read A := inl (Failed reason).

Definition bind {A B} (m : Read A) (k : A -> string -> Read B) : Read B :=
  match m with inl e => inl e | inr (a, s) => k a s end.

Definition MaxDepth : nat := 32.

Definition is_space (c : ascii) : bool :=
  Ascii.eqb c " " || Ascii.eqb c "009" || Ascii.eqb c "010" || Ascii.eqb c "013".

Fixpoint SkipWhitespace (s : string) : string :=
  match s with
  | String c rest => if is_space c then SkipWhitespace rest else s
  | EmptyString => s
  end.

Definition Consume (expected : ascii) (s : string) : option string :=
  match s with
  | String c rest => if Ascii.eqb c expected then Some rest else None
  | EmptyString => None
  end.

Fixpoint ParseLiteral (literal s : string) : option string :=
  match literal with
  | EmptyString => Some s
  | String l literal =>
      match s with
      | String c rest => if Ascii.eqb c l then ParseLiteral literal rest else None
      | EmptyString => None
      end
  end.

(** [c >= lo && c <= hi] on plain characters. *)
Definition in_range (lo hi : ascii) (c : ascii) : bool :=
  (nat_of_ascii lo <=? nat_of_ascii c)%nat && (nat_of_ascii c <=? nat_of_ascii hi)%nat.

Definition is_digit : ascii -> bool := in_range "0" "9".

Definition hex_value (h : ascii) : option Z :=
  let n := Z.of_nat (nat_of_ascii h) in
  if in_range "0" "9" h then Some (n - 48)
  else if in_range "a" "f" h then Some (n - 97 + 10)
  else if in_range "A" "F" h then Some (n - 65 + 10)
  else None.

(** The character of a one-letter escape. *)
Definition simple_escape (e : ascii) : option ascii :=
  if Ascii.eqb e "034" then Some "034"%char
  else if Ascii.eqb e "\" then Some "\"%char
  else if Ascii.eqb e "/" then Some "/"%char
  else if Ascii.eqb e "b" then Some "008"%char
  else if Ascii.eqb e "f" then Some "012"%char
  else if Ascii.eqb e "n" then Some "010"%char
  else if Ascii.eqb e "r" then Some "013"%char
  else if Ascii.eqb e "t" then Some "009"%char
  else None.

(** The four digits of a [\u] escape. *)
Definition unicode_escape (h0 h1 h2 h3 : ascii) : ReadError + ascii :=
  match hex_value h0, hex_value h1, hex_value h2, hex_value h3 with
  | Some d0, Some d1, Some d2, Some d3 =>
      let value := Z.lor (Z.shiftl (Z.lor (Z.shiftl (Z.lor (Z.shiftl d0 4) d1) 4) d2) 4) d3 in
      if 128 <=? value then inl (Failed "json_string_non_ascii_escape")
      else inr (ascii_of_nat (Z.to_nat value))
  | _, _, _, _ => inl (Failed "json_string_escape_invalid")
  end.

(** The loop of [ParseString] after the opening quote. *)
Fixpoint ParseStringBody (s : string) : Read string :=
  match s with
  | EmptyString => Fail_ "json_string_unterminated"
  | String c s =>
      if Ascii.eqb c "034" then inr (""%string, s)
      else if (nat_of_ascii c <? 32)%nat then Fail_ "json_string_control_character"
      else if negb (Ascii.eqb c "\") then
        bind (ParseStringBody s) (fun out s => inr (String c out, s))
      else match s with
      | EmptyString => Fail_ "json_string_escape_truncated"
      | String e s =>
          match simple_escape e with
          | Some x => bind (ParseStringBody s) (fun out s => inr (String x out, s))
          | None =>
              if negb (Ascii.eqb e "u") then Fail_ "json_string_escape_invalid"
              else match s with
              | String h0 (String h1 (String h2 (String h3 s))) =>
                  match unicode_escape h0 h1 h2 h3 with
                  | inl err => inl err
                  | inr x => bind (ParseStringBody s) (fun out s => inr (String x out, s))
                  end
              | _ => Fail_ "json_string_escape_truncated"
              end
          end
      end
  end.

Definition ParseString (s : string) : Read string :=
  match Consume "034" s with
  | None => Fail_ "json_string_expected"
  | Some s => ParseStringBody s
  end.

(** The longest prefix of digits, and what follows. *)
Fixpoint span_digits (s : string) : string * string :=
  match s with
  | String c rest =>
      if is_digit c then let '(d, r) := span_digits rest in (String c d, r) else (""%string, s)
  | EmptyString => (""%string, s)
  end.

(** The value of a digit string after a prefix of value [acc]. *)
Fixpoint digits_value (acc : Z) (s : string) : Z :=
  match s with
  | EmptyString => acc
  | String c rest => digits_value (10 * acc + (Z.of_nat (nat_of_ascii c) - 48)) rest
  end.

(** The fraction of a number: its digits, or [None] without one. *)
Definition ParseFraction (s : string) : Read (option string) :=
  match Consume "." s with
  | None => inr (None, s)
  | Some s =>
      let '(fraction, s) := span_digits s in
      if str_empty fraction then Fail_ "json_number_invalid" else inr (Some fraction, s)
  end.

(** The exponent of a number: its sign and digits, or [None] without one. *)
Definition ParseExponent (s : string) : Read (option (bool * string)) :=
  match s with
  | String c rest =>
      if Ascii.eqb c "e" || Ascii.eqb c "E" then
        let '(minus, s) :=
          match rest with
          | String sgn rest' =>
              if Ascii.eqb sgn "+" || Ascii.eqb sgn "-"
              then (Ascii.eqb sgn "-", rest') else (false, rest)
          | EmptyString => (false, rest)
          end in
        let '(exponent, s) := span_digits s in
        if str_empty exponent then Fail_ "json_number_invalid"
        else inr (Some (minus, exponent), s)
      else inr (None, s)
  | EmptyString => inr (None, s)
  end.

(** [std::strtod] of the literal with these parts. *)
Definition strtod (negative : bool) (digits : string) (fraction : option string)
    (exponent : option (bool * string)) : f64 :=
  let f := default ""%string fraction in
  let e := match exponent with
           | None => 0
           | Some (minus, d) => if minus : bool then - digits_value 0 d else digits_value 0 d
           end in
  decimal_to_f64 negative (digits_value 0 (digits ++ f)) (e - Z.of_nat (String.length f)).

Definition ParseNumber (s : string) : Read Value :=
  let '(negative, s) :=
    match Consume "-" s with Some s => (true, s) | None => (false, s) end in
  let '(digits, s) := span_digits s in
  if str_empty digits then Fail_ "json_number_invalid"
  else if (match digits with String c (String _ _) => Ascii.eqb c "0" | _ => false end)
  then Fail_ "json_number_leading_zero"
  else bind (ParseFraction s) (fun fraction s =>
    bind (ParseExponent s) (fun exponent s =>
      inr (mkValue Type_Number false (strtod negative digits fraction exponent)
        (match fraction, exponent with None, None => true | _, _ => false end)
        negative "" [] [], s))).

Definition mem_key (ms : list (string * Value)) (key : string) : bool :=
  existsb (fun m => String.eqb m.1 key) ms.

Section Loops.
Context (parse : string -> Read Value).

(** The loop over the members of an object, after the opening brace. *)
Fixpoint ParseMembers (fuel : nat) (members : list (string * Value)) (s : string)
    : Read (list (string * Value)) :=
  match fuel with
  | O => inl OutOfFuel
  | S fuel =>
      bind (ParseString (SkipWhitespace s)) (fun key s =>
      if mem_key members key then Fail_ "json_duplicate_key"
      else match Consume ":" (SkipWhitespace s) with
      | None => Fail_ "json_colon_expected"
      | Some s =>
          bind (parse s) (fun member s =>
          let members := members ++ [(key, member)] in
          let s := SkipWhitespace s in
          match Consume "}" s with
          | Some s => inr (members, s)
          | None =>
              match Consume "," s with
              | None => Fail_ "json_object_separator_expected"
              | Some s => ParseMembers fuel members s
              end
          end)
      end)
  end.

(** The loop over the items of an array, after the opening bracket. *)
Fixpoint ParseItems (fuel : nat) (items : list Value) (s : string) : Read (list Value) :=
  match fuel with
  | O => inl OutOfFuel
  | S fuel =>
      bind (parse s) (fun item s =>
      let items := items ++ [item] in
      let s := SkipWhitespace s in
      match Consume "]" s with
      | Some s => inr (items, s)
      | None =>
          match Consume "," s with
          | None => Fail_ "json_array_separator_expected"
          | Some s => ParseItems fuel items s
          end
      end)
  end.

End Loops.

Definition object_value (members : list (string * Value)) : Value :=
  mkValue Type_Object false f64_zero false false "" [] members.
Definition array_value (items : list Value) : Value :=
  mkValue Type_Array false f64_zero false false "" items [].
Definition string_value (text : string) : Value :=
  mkValue Type_String false f64_zero false false text [] [].
Definition bool_value (b : bool) : Value :=
  mkValue Type_Bool b f64_zero false false "" [] [].

(** [ParseValue] at depth [MaxDepth + 1 - levels]. *)
Fixpoint ParseValue (levels : nat) (s : string) : Read Value :=
  match levels with
  | O => Fail_ "json_too_deep"
  | S levels =>
      let s := SkipWhitespace s in
      match s with
      | EmptyString => Fail_ "json_truncated"
      | String c rest =>
          if Ascii.eqb c "{" then
            let s := SkipWhitespace rest in
            match Consume "}" s with
            | Some s => inr (object_value [], s)
            | None =>
                bind (ParseMembers (ParseValue levels) (S (String.length s)) [] s)
                  (fun members s => inr (object_value members, s))
            end
          else if Ascii.eqb c "[" then
            let s := SkipWhitespace rest in
            match Consume "]" s with
            | Some s => inr (array_value [], s)
            | None =>
                bind (ParseItems (ParseValue levels) (S (String.length s)) [] s)
                  (fun items s => inr (array_value items, s))
            end
          else if Ascii.eqb c "034" then
            bind (ParseString s) (fun text s => inr (string_value text, s))
          else if Ascii.eqb c "t" || Ascii.eqb c "f" then
            match ParseLiteral (if Ascii.eqb c "t" then "true" else "false") s with
            | Some s => inr (bool_value (Ascii.eqb c "t"), s)
            | None => Fail_ "json_literal_invalid"
            end
          else if Ascii.eqb c "n" then
            match ParseLiteral "null" s with
            | Some s => inr (Value_default, s)
            | None => Fail_ "json_literal_invalid"
            end
          else ParseNumber s
      end
  end.

Definition Parse (text : string) : ReadError + Value :=
  match ParseValue (S MaxDepth) (SkipWhitespace text) with
  | inl e => inl e
  | inr (v, s) =>
      if negb (str_empty (SkipWhitespace s)) then inl (Failed "json_trailing_data") else inr v
  end.

(** ** Reading fields

    Each reader gives [None] where the source returns [false], and otherwise
    the value left in [out]. *)

Definition ReadUnsigned (object : Value) (key : string) (out maximum : Z) : option Z :=
  match Find object key with
  | None => Some out
  | Some value =>
      if negb (IsNumber value) || negb (v_Integral value) || v_Negative value
         || f64_gt (v_Number value) (f64_of_Z maximum)
      then None
      else Some (u64 (f64_trunc (v_Number value)))
  end.

Definition ReadSigned (object : Value) (key : string) (out minimum maximum : Z) : option Z :=
  match Find object key with
  | None => Some out
  | Some value =>
      if negb (IsNumber value) || negb (v_Integral value)
         || f64_lt (v_Number value) (f64_of_Z minimum)
         || f64_gt (v_Number value) (f64_of_Z maximum)
      then None
      else Some (f64_trunc (v_Number value))
  end.

Definition ReadFloat (object : Value) (key : string) (out : f32) : option f32 :=
  match Find object key with
  | None => Some out
  | Some value => if negb (IsNumber value) then None else Some (f32_of_f64 (v_Number value))
  end.

Definition ReadBool (object : Value) (key : string) (out : bool) : option bool :=
  match Find object key with
  | None => Some out
  | Some value => if negb (IsBool value) then None else Some (v_Boolean value)
  end.

Definition ReadString (object : Value) (key : string) (out : string) : option string :=
  match Find object key with
  | None => Some out
  | Some value => if negb (IsString value) then None else Some (v_Text value)
  end.

Definition TopLevelString (objectText key fallback : string) : string :=
  match Parse objectText with
  | inl _ => fallback
  | inr root =>
      if negb (IsObject root) then fallback
      else match Find root key with
      | Some value => if IsString value then v_Text value else fallback
      | None => fallback
      end
  end.

(** ** Reading terminates

    Every reader that succeeds consumes something, so the loops' fuel, the
    length of the text, is never used up. *)

Definition shrinks {A} (s : string) (r : Read A) : Prop :=
  match r with
  | inl e => e <> OutOfFuel
  | inr (_, s') => (String.length s' < String.length s)%nat
  end.

Lemma shrinks_bind {A B} (s : string) (m : Read A) (k : A -> string -> Read B) :
  shrinks s m -> (forall a s', (String.length s' < String.length s)%nat -> m = inr (a, s') ->
    shrinks s (k a s')) -> shrinks s (bind m k).
Proof. destruct m as [e|[a s']]; cbn; auto. Qed.

Lemma shrinks_weaken {A} (s s1 : string) (r : Read A) :
  (String.length s1 <= String.length s)%nat -> shrinks s1 r -> shrinks s r.
Proof. destruct r as [e|[a s']]; cbn; [done|lia]. Qed.

Lemma shrinks_ok {A} (s s' : string) (a : A) :
  (String.length s' < String.length s)%nat -> shrinks s (inr (a, s')).
Proof. done. Qed.

Lemma SkipWhitespace_length s : (String.length (SkipWhitespace s) <= String.length s)%nat.
Proof. induction s as [|c s IH]; cbn; [done|]. destruct (is_space c); cbn; lia. Qed.

Lemma Consume_length c s r : Consume c s = Some r -> String.length s = S (String.length r).
Proof. destruct s as [|d s]; cbn; [done|]. destruct (Ascii.eqb d c); [|done]. by intros [= ->]. Qed.

Lemma ParseLiteral_length l s r :
  ParseLiteral l s = Some r -> (String.length r + String.length l = String.length s)%nat.
Proof.
  revert s. induction l as [|a l IH]; intros [|b s]; cbn; try done.
  - intros [= <-]. done.
  - intros [= <-]. cbn. lia.
  - destruct (Ascii.eqb b a); [|done]. intros H. specialize (IH _ H). lia.
Qed.

Lemma ParseStringBody_shrinks_n n s :
  (String.length s < n)%nat -> shrinks s (ParseStringBody s).
Proof.
  revert s. induction n as [|n IH]; intros s Hn; [lia|].
  assert (Hrec : forall s' (x : ascii), (String.length s' < String.length s)%nat ->
    shrinks s (bind (ParseStringBody s') (fun out r => inr (String x out, r)))).
  { intros s' x Hs'. apply shrinks_bind.
    - eapply shrinks_weaken; [|apply IH]; lia.
    - intros a r Hr _. by apply shrinks_ok. }
  destruct s as [|c s]; cbn [ParseStringBody]; [done|].
  destruct (Ascii.eqb c "034"); [cbn; lia|].
  destruct (_ <? 32)%nat; [done|].
  destruct (Ascii.eqb c "\"); cbn [negb]; [|apply Hrec; cbn; lia].
  destruct s as [|e s]; [done|].
  destruct (simple_escape e); [apply Hrec; cbn; lia|].
  destruct (Ascii.eqb e "u"); cbn [negb]; [|done].
  destruct s as [|h0 [|h1 [|h2 [|h3 s]]]]; try done.
  destruct (unicode_escape h0 h1 h2 h3) as [err|x] eqn:E; [|apply Hrec; cbn; lia].
  unfold unicode_escape in E. cbn. intros ->. by repeat case_match.
Qed.

Lemma ParseString_shrinks s : shrinks s (ParseString s).
Proof.
  unfold ParseString. destruct (Consume "034" s) as [r|] eqn:E; [|done].
  apply Consume_length in E. eapply shrinks_weaken; [|exact (ParseStringBody_shrinks_n _ _ (Nat.lt_succ_diag_r _))]. lia.
Qed.

Lemma span_digits_length s :
  (String.length (span_digits s).1 + String.length (span_digits s).2 = String.length s)%nat.
Proof.
  induction s as [|c s IH]; cbn; [done|]. destruct (is_digit c); [|done].
  destruct (span_digits s). cbn in *. lia.
Qed.

Lemma str_empty_length s : str_empty s = false -> (0 < String.length s)%nat.
Proof. destruct s; cbn; [done|lia]. Qed.

Definition no_longer {A} (s : string) (r : Read A) : Prop :=
  match r with
  | inl e => e <> OutOfFuel
  | inr (_, s') => (String.length s' <= String.length s)%nat
  end.

Lemma ParseFraction_no_longer s : no_longer s (ParseFraction s).
Proof.
  unfold ParseFraction. destruct (Consume "." s) as [r|] eqn:E; [|cbn; lia].
  apply Consume_length in E. pose proof (span_digits_length r).
  destruct (span_digits r) as [f s']. cbn in *. destruct (str_empty f); cbn; [done|lia].
Qed.

Lemma ParseExponent_no_longer s : no_longer s (ParseExponent s).
Proof.
  unfold ParseExponent. destruct s as [|c s]; [cbn; lia|].
  destruct (_ || _); [|cbn; lia].
  set (p := match s with String _ _ => _ | EmptyString => _ end).
  assert (Hp : (String.length p.2 <= String.length s)%nat).
  { unfold p. destruct s as [|sgn s]; [done|]. destruct (_ || _); cbn; lia. }
  destruct p as [minus s1]. pose proof (span_digits_length s1).
  destruct (span_digits s1) as [ex s2]. cbn in *. destruct (str_empty ex); cbn; [done|lia].
Qed.

Lemma ParseNumber_shrinks s : shrinks s (ParseNumber s).
Proof.
  unfold ParseNumber. set (p := match Consume "-" s with Some _ => _ | None => _ end).
  assert (Hp : (String.length p.2 <= String.length s)%nat).
  { unfold p. destruct (Consume "-" s) eqn:E; [apply Consume_length in E|]; cbn; lia. }
  destruct p as [neg s1]. pose proof (span_digits_length s1) as H1.
  destruct (span_digits s1) as [d s2]. cbn in *.
  destruct (str_empty d) eqn:Ed; [done|]. apply str_empty_length in Ed.
  destruct (match d with String _ _ => _ | EmptyString => _ end); [done|].
  pose proof (ParseFraction_no_longer s2) as H2.
  destruct (ParseFraction s2) as [e|[f s3]]; cbn in *; [done|].
  pose proof (ParseExponent_no_longer s3) as H3.
  destruct (ParseExponent s3) as [e|[x s4]]; cbn in *; [done|lia].
Qed.

Section LoopsShrink.
Context (parse : string -> Read Value) (Hparse : forall s, shrinks s (parse s)).

Lemma ParseMembers_shrinks fuel ms s :
  (String.length s < fuel)%nat -> shrinks s (ParseMembers parse fuel ms s).
Proof.
  revert ms s. induction fuel as [|fuel IH]; intros ms s Hf; [lia|]. cbn [ParseMembers].
  pose proof (SkipWhitespace_length s) as Hw. apply shrinks_bind.
  { eapply shrinks_weaken; [|apply ParseString_shrinks]. lia. }
  intros key s1 H1 _. destruct (mem_key ms key); [done|].
  destruct (Consume ":" _) as [s2|] eqn:E2; [|done]. apply Consume_length in E2.
  pose proof (SkipWhitespace_length s1). apply shrinks_bind.
  { eapply shrinks_weaken; [|apply Hparse]. lia. }
  intros v s3 H3 _. pose proof (SkipWhitespace_length s3).
  destruct (Consume "}" _) as [s4|] eqn:E4; [apply Consume_length in E4; cbn; lia|].
  destruct (Consume "," _) as [s5|] eqn:E5; [|done]. apply Consume_length in E5.
  eapply shrinks_weaken; [|apply IH]; lia.
Qed.

Lemma ParseItems_shrinks fuel vs s :
  (String.length s < fuel)%nat -> shrinks s (ParseItems parse fuel vs s).
Proof.
  revert vs s. induction fuel as [|fuel IH]; intros vs s Hf; [lia|]. cbn [ParseItems].
  apply shrinks_bind; [apply Hparse|]. intros v s3 H3 _.
  pose proof (SkipWhitespace_length s3).
  destruct (Consume "]" _) as [s4|] eqn:E4; [apply Consume_length in E4; cbn; lia|].
  destruct (Consume "," _) as [s5|] eqn:E5; [|done]. apply Consume_length in E5.
  eapply shrinks_weaken; [|apply IH]; lia.
Qed.

End LoopsShrink.

Lemma ParseValue_shrinks n s : shrinks s (ParseValue n s).
Proof.
  revert s. induction n as [|n IH]; intros s; [done|]. cbn [ParseValue].
  pose proof (SkipWhitespace_length s) as Hw.
  destruct (SkipWhitespace s) as [|c r] eqn:Es; [done|]. cbn in Hw.
  pose proof (SkipWhitespace_length r) as Hr.
  destruct (Ascii.eqb c "{"); [|destruct (Ascii.eqb c "[");
    [|destruct (Ascii.eqb c "034"); [|destruct (Ascii.eqb c "t" || Ascii.eqb c "f");
      [|destruct (Ascii.eqb c "n")]]]].
  - destruct (Consume "}" _) as [s1|] eqn:E; [apply Consume_length in E; cbn; lia|].
    apply shrinks_bind; [|intros ms s1 H1 _; by apply shrinks_ok].
    eapply shrinks_weaken; [|apply ParseMembers_shrinks; [apply IH|lia]]. lia.
  - destruct (Consume "]" _) as [s1|] eqn:E; [apply Consume_length in E; cbn; lia|].
    apply shrinks_bind; [|intros vs s1 H1 _; by apply shrinks_ok].
    eapply shrinks_weaken; [|apply ParseItems_shrinks; [apply IH|lia]]. lia.
  - apply shrinks_bind; [|intros t s1 H1 _; by apply shrinks_ok].
    eapply shrinks_weaken; [|apply ParseString_shrinks]. done.
  - destruct (ParseLiteral _ _) as [s1|] eqn:E; [|done]. apply ParseLiteral_length in E.
    cbn in *. destruct (Ascii.eqb c "t"); cbn in E; lia.
  - destruct (ParseLiteral _ _) as [s1|] eqn:E; [|done]. apply ParseLiteral_length in E.
    cbn in *. lia.
  - eapply shrinks_weaken; [|apply ParseNumber_shrinks]. done.
Qed.

(** The reader terminates on every text: its loops never exhaust their fuel,
    the length of the text left, so every text is either read or rejected with
    a reason. *)
Theorem Parse_terminates text : Parse text <> inl OutOfFuel.
Proof.
  unfold Parse. pose proof (ParseValue_shrinks (S MaxDepth) (SkipWhitespace text)) as H.
  destruct (ParseValue _ _) as [e|[v s]]; cbn in H; [congruence|]. by destruct (str_empty _).
Qed.

(** ** What the reader accepts *)

(** A value as the reader builds it: at most [n] levels, numbers the format
    holds, and objects whose keys are distinct. *)
Inductive json_wf : nat -> Value -> Prop :=
| wf_null n : json_wf (S n) Value_default
| wf_bool n b : json_wf (S n) (bool_value b)
| wf_string n t : json_wf (S n) (string_value t)
| wf_number n x i neg :
    f64_fits x -> (neg = false -> f64_lt x f64_zero = false) ->
    json_wf (S n) (mkValue Type_Number false x i neg "" [] [])
| wf_array n items : Forall (json_wf n) items -> json_wf (S n) (array_value items)
| wf_object n members :
    NoDup (members.*1) -> Forall (fun m => json_wf n m.2) members ->
    json_wf (S n) (object_value members).

Lemma bind_inr {A B} (m : Read A) (k : A -> string -> Read B) r :
  bind m k = inr r -> exists a s, m = inr (a, s) /\ k a s = inr r.
Proof. destruct m as [e|[a s]]; cbn; [done|eauto]. Qed.

Lemma mem_key_false ms key : mem_key ms key = false -> key ∉ ms.*1.
Proof.
  unfold mem_key. rewrite existsb_none, Forall_forall.
  intros H (m & -> & Hm)%list_elem_of_fmap. specialize (H m Hm). cbn in H.
  by rewrite String.eqb_refl in H.
Qed.

Section LoopsWf.
Context (parse : string -> Read Value) (n : nat).
Context (Hparse : forall s v s', parse s = inr (v, s') -> json_wf n v).

Lemma ParseMembers_wf fuel ms s out s' :
  ParseMembers parse fuel ms s = inr (out, s') ->
  NoDup (ms.*1) -> Forall (fun m => json_wf n m.2) ms ->
  NoDup (out.*1) /\ Forall (fun m => json_wf n m.2) out.
Proof.
  revert ms s. induction fuel as [|fuel IH]; intros ms s; [done|]. cbn [ParseMembers].
  intros (key & s1 & _ & H)%bind_inr Hnd Hwf.
  destruct (mem_key ms key) eqn:Ek; [done|]. apply mem_key_false in Ek.
  destruct (Consume ":" _); [|done]. apply bind_inr in H as (v & s3 & Hv & H).
  apply Hparse in Hv.
  assert (Hnd' : NoDup ((ms ++ [(key, v)]).*1)).
  { rewrite fmap_app. apply NoDup_app. cbn. split_and!; [done| |apply NoDup_singleton].
    intros x Hx ->%list_elem_of_singleton. done. }
  assert (Hwf' : Forall (fun m => json_wf n m.2) (ms ++ [(key, v)])).
  { apply Forall_app. by repeat constructor. }
  destruct (Consume "}" _); [by injection H as <- <-|].
  destruct (Consume "," _); [|done]. by eapply IH.
Qed.

Lemma ParseItems_wf fuel vs s out s' :
  ParseItems parse fuel vs s = inr (out, s') -> Forall (json_wf n) vs -> Forall (json_wf n) out.
Proof.
  revert vs s. induction fuel as [|fuel IH]; intros vs s; [done|]. cbn [ParseItems].
  intros (v & s3 & Hv & H)%bind_inr Hwf. apply Hparse in Hv.
  assert (Hwf' : Forall (json_wf n) (vs ++ [v])) by (apply Forall_app; by repeat constructor).
  destruct (Consume "]" _); [by injection H as <- <-|].
  destruct (Consume "," _); [|done]. by eapply IH.
Qed.

End LoopsWf.

Lemma ParseNumber_wf n s v s' : ParseNumber s = inr (v, s') -> json_wf (S n) v.
Proof.
  unfold ParseNumber. destruct (match Consume "-" s with Some _ => _ | None => _ end) as [neg s1].
  destruct (span_digits s1) as [d s2]. destruct (str_empty d); [done|].
  destruct (match d with String _ _ => _ | EmptyString => _ end); [done|].
  intros (f & s3 & _ & H)%bind_inr. apply bind_inr in H as (x & s4 & _ & [= <- <-]).
  apply wf_number; [apply decimal_to_f64_fits|]. intros ->. apply decimal_to_f64_nonneg.
Qed.

Lemma ParseValue_wf n s v s' : ParseValue n s = inr (v, s') -> json_wf n v.
Proof.
  revert s v s'. induction n as [|n IH]; intros s v s'; [done|]. cbn [ParseValue].
  destruct (SkipWhitespace s) as [|c r]; [done|].
  destruct (Ascii.eqb c "{"); [|destruct (Ascii.eqb c "[");
    [|destruct (Ascii.eqb c "034"); [|destruct (Ascii.eqb c "t" || Ascii.eqb c "f");
      [|destruct (Ascii.eqb c "n")]]]].
  - destruct (Consume "}" _); [intros [= <- <-]; by repeat constructor|].
    intros (ms & s1 & H & [= <- <-])%bind_inr.
    apply (ParseMembers_wf _ n) in H as [H1 H2]; [by constructor|exact IH|constructor|done].
  - destruct (Consume "]" _); [intros [= <- <-]; by repeat constructor|].
    intros (vs & s1 & H & [= <- <-])%bind_inr.
    apply (ParseItems_wf _ n) in H; [by constructor|exact IH|done].
  - intros (t & s1 & H & [= <- <-])%bind_inr. constructor.
  - destruct (ParseLiteral _ _); [|done]. intros [= <- <-]. constructor.
  - destruct (ParseLiteral _ _); [|done]. intros [= <- <-]. constructor.
  - apply ParseNumber_wf.
Qed.

(** C27. What the reader accepts is well formed: nesting is at most [MaxDepth]
    levels below the top, no object repeats a key, and every number is one the
    double format holds, with the sign its literal has. *)
Theorem Parse_wf text v (Hparse : Parse text = inr v) : json_wf (S MaxDepth) v.
Proof.
  revert Hparse. unfold Parse. destruct (ParseValue _ _) as [e|[w s]] eqn:E; [done|].
  destruct (str_empty _); [|done]. intros [= <-]. by eapply ParseValue_wf.
Qed.

(** ** Fields stay within their bounds *)

Lemma json_wf_object n v : json_wf n v -> IsObject v = true ->
  exists m, n = S m /\ v = object_value (v_Members v) /\ NoDup ((v_Members v).*1) /\
    Forall (fun x => json_wf m x.2) (v_Members v).
Proof. intros H. destruct H; cbn; try done. intros _. exists n. done. Qed.

Lemma find_member_elem ms key v : find_member ms key = Some v -> (key, v) ∈ ms.
Proof.
  induction ms as [|[k w] ms IH]; cbn; [done|]. destruct (String.eqb_spec k key) as [->|].
  - intros [= ->]. apply list_elem_of_here.
  - intros H. apply list_elem_of_further. auto.
Qed.

Lemma Find_wf n o key v :
  json_wf n o -> Find o key = Some v -> exists m, json_wf m v /\ n = S m.
Proof.
  unfold Find. intros Hwf. destruct (IsObject o) eqn:Eo; [|done]. cbn.
  destruct (json_wf_object _ _ Hwf Eo) as (m & -> & _ & _ & Hall).
  intros H%find_member_elem. exists m. split; [|done].
  rewrite Forall_forall in Hall. by specialize (Hall _ H).
Qed.

Lemma json_wf_number n v : json_wf n v -> IsNumber v = true ->
  f64_fits (v_Number v) /\ (v_Negative v = false -> f64_lt (v_Number v) f64_zero = false).
Proof. intros H. by destruct H. Qed.

Lemma ReadUnsigned_bound n o key out maximum r :
  json_wf n o -> f64_exact maximum = true -> maximum < 2 ^ 64 -> 0 <= out <= maximum ->
  ReadUnsigned o key out maximum = Some r -> 0 <= r <= maximum.
Proof.
  unfold ReadUnsigned. intros Hwf Hex Hmax Hout.
  destruct (Find o key) as [v|] eqn:Ef; [|intros [= <-]; lia].
  destruct (Find_wf _ _ _ _ Hwf Ef) as (m & Hv & _).
  destruct (IsNumber v) eqn:En; [|done]. destruct (v_Integral v); [|done].
  destruct (json_wf_number _ _ Hv En) as [H1 H2].
  destruct (v_Negative v); [done|]. cbn.
  destruct (f64_gt _ _) eqn:Eg; [done|]. intros [= <-].
  pose proof (f64_trunc_upper _ _ H1 Hex Eg). pose proof (f64_trunc_nonneg _ (H2 eq_refl)).
  rewrite u64_small; lia.
Qed.

Lemma ReadSigned_bound n o key out minimum maximum r :
  json_wf n o -> f64_exact maximum = true -> minimum = -1 \/ minimum = 0 ->
  -1 <= out <= maximum ->
  ReadSigned o key out minimum maximum = Some r ->
  -1 <= r <= maximum /\ (is_Some (Find o key) -> minimum <= r).
Proof.
  unfold ReadSigned. intros Hwf Hex Hmin Hout.
  destruct (Find o key) as [v|] eqn:Ef.
  2: { intros [= <-]. split; [lia|]. intros H. by apply is_Some_None in H. }
  destruct (Find_wf _ _ _ _ Hwf Ef) as (m & Hv & _).
  destruct (IsNumber v) eqn:En; [|done]. destruct (v_Integral v); [|done].
  destruct (json_wf_number _ _ Hv En) as [H1 _]. cbn.
  destruct (f64_lt _ _) eqn:El; [done|]. cbn. destruct (f64_gt _ _) eqn:Eg; [done|].
  intros [= <-]. pose proof (f64_trunc_upper _ _ H1 Hex Eg) as Hu.
  assert (minimum <= f64_trunc (v_Number v)); [|split; [lia|done]].
  destruct Hmin as [-> | ->]; [by apply f64_trunc_minus_one|].
  apply f64_trunc_nonneg. exact El.
Qed.

(** ** Witnesses *)

Example Parse_wf_witness :
  Parse "[1, true, [null]]" = inr (array_value
    [mkValue Type_Number false (f64_of_Z 1) true false "" [] []; bool_value true;
     array_value [Value_default]]) /\
  json_wf 33 (array_value
    [mkValue Type_Number false (f64_of_Z 1) true false "" [] []; bool_value true;
     array_value [Value_default]]).
Proof.
  split; [by vm_compute|]. apply (Parse_wf "[1, true, [null]]"). by vm_compute.
Defined.
