(* ===== verification/RouteJsonPrint.v ===== *)
(** A reference printer for the JSON reader of the route contracts, and the
    theorem that the reader inverts it. *)
From S2P Require Import Prelude Doubles RouteJson.
From Stdlib Require Import ZArith Lia String Ascii.
From stdpp Require Import base gmap list strings.

Open Scope Z_scope.
Open Scope tc_scope.

#[local] Arguments String.append !_ _ / : simpl nomatch.

(** ** Documents and their text

    A printer takes the text that follows, so nothing is appended. *)

Inductive Doc : Type :=
| DNull
| DBool (b : bool)
| DNumber (negative : bool) (digits : string) (fraction : option string)
    (exponent : option (bool * string))
| DString (s : string)
| DArray (items : list Doc)
| DObject (members : list (string * Doc)).

Definition hex_digit (n : nat) : ascii :=
  ascii_of_nat (if (n <? 10)%nat then n + 48 else n + 87).

Definition escape_char (c : ascii) (k : string) : string :=
  if Ascii.eqb c "034" || Ascii.eqb c "\" then String "\" (String c k)
  else if (nat_of_ascii c <? 32)%nat then
    String "\" (String "u" (String "0" (String "0"
      (String (hex_digit (nat_of_ascii c / 16)) (String (hex_digit (nat_of_ascii c mod 16)) k)))))
  else String c k.

Fixpoint escape (s k : string) : string :=
  match s with EmptyString => k | String c s => escape_char c (escape s k) end.

Definition print_string (s k : string) : string := String "034" (escape s (String "034" k)).

Definition print_number (negative : bool) (digits : string) (fraction : option string)
    (exponent : option (bool * string)) (k : string) : string :=
  let k := match exponent with
           | None => k
           | Some (minus, d) => String "e" ((if minus : bool then "-" else "+") ++ d ++ k)
           end in
  let k := match fraction with None => k | Some f => String "." (f ++ k) end in
  ((if negative then "-" else "") ++ digits ++ k)%string.

Section Lists.
Context {A : Type} (print : A -> string -> string).

(** The elements of a list, separated by commas and closed by [close]. *)
Fixpoint print_list (close : ascii) (l : list A) (k : string) : string :=
  match l with
  | [] => String close k
  | x :: rest =>
      print x (match rest with [] => String close k
               | _ => String "," (print_list close rest k) end)
  end.

End Lists.

Fixpoint print_doc (d : Doc) (k : string) : string :=
  match d with
  | DNull => ("null" ++ k)%string
  | DBool b => ((if b then "true" else "false") ++ k)%string
  | DNumber n d f e => print_number n d f e k
  | DString s => print_string s k
  | DArray items => String "[" (print_list print_doc "]" items k)
  | DObject members =>
      String "{" (print_list (fun m k => print_string m.1 (String ":" (print_doc m.2 k)))
                    "}" members k)
  end.

(** The value a document stands for. *)
Fixpoint denote (d : Doc) : Value :=
  match d with
  | DNull => Value_default
  | DBool b => bool_value b
  | DNumber n d f e =>
      mkValue Type_Number false (strtod n d f e)
        (match f, e with None, None => true | _, _ => false end) n "" [] []
  | DString s => string_value s
  | DArray items => array_value (map denote items)
  | DObject members => object_value (map (fun m => (m.1, denote m.2)) members)
  end.

Fixpoint all_digits (s : string) : bool :=
  match s with EmptyString => true | String c s => is_digit c && all_digits s end.

Definition is_number (digits : string) : bool := negb (str_empty digits) && all_digits digits.

(** Documents of at most [n] levels whose numbers are JSON literals and whose
    objects have distinct keys. *)
Inductive doc_wf : nat -> Doc -> Prop :=
| dw_null n : doc_wf (S n) DNull
| dw_bool n b : doc_wf (S n) (DBool b)
| dw_number n neg d f e :
    is_number d = true ->
    (match d with String c (String _ _) => Ascii.eqb c "0" | _ => false end) = false ->
    (forall x, f = Some x -> is_number x = true) ->
    (forall m x, e = Some (m, x) -> is_number x = true) ->
    doc_wf (S n) (DNumber neg d f e)
| dw_string n s : doc_wf (S n) (DString s)
| dw_array n items : Forall (doc_wf n) items -> doc_wf (S n) (DArray items)
| dw_object n members :
    NoDup (members.*1) -> Forall (fun m => doc_wf n m.2) members ->
    doc_wf (S n) (DObject members).

(** ** Tokens *)

(** The text does not continue a number. *)
Definition stops (k : string) : bool :=
  match k with
  | EmptyString => true
  | String c _ => negb (is_digit c) && negb (Ascii.eqb c ".")
      && negb (Ascii.eqb c "e") && negb (Ascii.eqb c "E")
  end.

Ltac each_char c :=
  destruct c as [[] [] [] [] [] [] [] []].

Lemma ParseStringBody_escape_char c k :
  ParseStringBody (escape_char c k) =
  bind (ParseStringBody k) (fun out s => inr (String c out, s)).
Proof. each_char c; reflexivity. Qed.

Lemma ParseStringBody_escape s k : ParseStringBody (escape s (String "034" k)) = inr (s, k).
Proof.
  induction s as [|c s IH]; [reflexivity|]. cbn [escape].
  by rewrite ParseStringBody_escape_char, IH.
Qed.

Lemma ParseString_print s k : ParseString (print_string s k) = inr (s, k).
Proof. apply ParseStringBody_escape. Qed.

Lemma digit_first c : is_digit c = true ->
  is_space c = false /\ Ascii.eqb c "{" = false /\ Ascii.eqb c "[" = false /\
  Ascii.eqb c "034" = false /\ Ascii.eqb c "t" || Ascii.eqb c "f" = false /\
  Ascii.eqb c "n" = false /\ Ascii.eqb c "-" = false /\ Ascii.eqb c "+" = false.
Proof. each_char c; vm_compute; intuition congruence. Qed.

Lemma span_digits_app d k :
  all_digits d = true ->
  match k with String c _ => is_digit c = false | EmptyString => True end ->
  span_digits (d ++ k) = (d, k).
Proof.
  induction d as [|c d IH].
  - intros _. change (""%string ++ k)%string with k. destruct k as [|c k]; [done|].
    intros Hc. cbn [span_digits]. by rewrite Hc.
  - intros [Hc H]%andb_true_iff Hk. change (String c d ++ k)%string with (String c (d ++ k)).
    cbn [span_digits]. by rewrite Hc, (IH H Hk).
Qed.

Lemma is_number_cons d : is_number d = true ->
  all_digits d = true /\ str_empty d = false /\
  exists c r, d = String c r /\ is_digit c = true.
Proof.
  unfold is_number. intros [H1%negb_true_iff H2]%andb_true_iff. split_and!; [done|done|].
  destruct d as [|c r]; [done|]. cbn in H2. apply andb_true_iff in H2 as [H2 _]. eauto.
Qed.

(** The part of a number after its integer digits. *)
Definition print_exponent (e : option (bool * string)) (k : string) : string :=
  match e with
  | None => k
  | Some (minus, d) => String "e" ((if minus : bool then "-" else "+") ++ d ++ k)
  end.

Lemma stops_digit k : stops k = true ->
  match k with String c _ => is_digit c = false | EmptyString => True end.
Proof. destruct k as [|c k]; [done|]. cbn. intros H. b2p. tauto. Qed.

Lemma ParseExponent_print e k :
  stops k = true -> (forall m x, e = Some (m, x) -> is_number x = true) ->
  ParseExponent (print_exponent e k) = inr (e, k).
Proof.
  intros Hk He. pose proof (stops_digit k Hk). destruct e as [[m d]|]; cbn [print_exponent].
  - destruct (is_number_cons d (He m d eq_refl)) as (H1 & H2 & c & r & Ed & Hc).
    unfold ParseExponent. destruct m; cbn; by rewrite span_digits_app, H2.
  - destruct k as [|c k]; [done|]. cbn [ParseExponent]. cbn in Hk. b2p.
    destruct Hk as [[[_ _] H1] H2]. by rewrite H1, H2.
Qed.

Lemma print_exponent_digit e k : stops k = true ->
  match print_exponent e k with
  | String c _ => is_digit c = false /\ Ascii.eqb c "." = false
  | EmptyString => True
  end.
Proof.
  destruct e as [[m d]|]; cbn; [by destruct m|]. destruct k as [|c k]; [done|]. cbn.
  intros H. b2p. tauto.
Qed.

Lemma ParseFraction_print f k :
  match k with String c _ => is_digit c = false /\ Ascii.eqb c "." = false
             | EmptyString => True end ->
  (forall x, f = Some x -> is_number x = true) ->
  ParseFraction (match f with None => k | Some x => String "." (x ++ k) end) = inr (f, k).
Proof.
  intros Hk Hf. unfold ParseFraction. destruct f as [x|].
  - destruct (is_number_cons x (Hf x eq_refl)) as (H1 & H2 & _). cbn.
    rewrite span_digits_app; [by rewrite H2|done|]. destruct k; [done|tauto].
  - destruct k as [|c k]; [done|]. cbn. destruct Hk as [_ ->]. done.
Qed.

Lemma print_number_eq n d f e k :
  print_number n d f e k =
  ((if n then "-" else "") ++ d ++
   match f with None => print_exponent e k | Some x => String "." (x ++ print_exponent e k) end)%string.
Proof. done. Qed.

Lemma ParseNumber_print n d f e k :
  doc_wf 1 (DNumber n d f e) -> stops k = true ->
  ParseNumber (print_number n d f e k) = inr (denote (DNumber n d f e), k).
Proof.
  intros Hwf Hk. inversion Hwf as [| |? ? ? ? ? Hd Hz Hf He| | |]; subst.
  rewrite print_number_eq. set (rest := match f with None => _ | Some _ => _ end).
  assert (Hrest : match rest with String c _ => is_digit c = false | EmptyString => True end).
  { unfold rest. destruct f; [done|]. pose proof (print_exponent_digit e k Hk) as H.
    destruct (print_exponent e k); [done|]. tauto. }
  destruct (is_number_cons d Hd) as (H1 & H2 & c & r & -> & Hc).
  destruct (digit_first c Hc) as (_ & _ & _ & _ & _ & _ & Hm & _).
  assert (Hsign : (match Consume "-" ((if n then "-" else "") ++ String c r ++ rest)%string with
    | Some s => (true, s)
    | None => (false, ((if n then "-" else "") ++ String c r ++ rest)%string) end)
    = (n, (String c r ++ rest)%string)).
  { destruct n; [done|]. cbn. by rewrite Hm. }
  unfold ParseNumber. rewrite Hsign, span_digits_app by done. rewrite H2, Hz.
  unfold rest. rewrite ParseFraction_print; [|by apply print_exponent_digit|done].
  cbn [bind]. by rewrite ParseExponent_print.
Qed.

(** ** Documents *)

Lemma doc_number_level n neg d f e : doc_wf n (DNumber neg d f e) -> doc_wf 1 (DNumber neg d f e).
Proof. intros H. inversion H; subst. by constructor. Qed.

(** What follows an element of a list. *)
Lemma stops_list {A} (p : A -> string -> string) close l k :
  (close = "]" \/ close = "}")%char ->
  stops (match l with [] => String close k | _ => String "," (print_list p close l k) end) = true.
Proof. intros [-> | ->]; by destruct l. Qed.

Section Loops.
Context (n : nat) (Hdoc : forall d, doc_wf n d -> forall k, stops k = true ->
  ParseValue n (print_doc d k) = inr (denote d, k)).

Lemma ParseItems_print items fuel acc k :
  items <> [] -> Forall (doc_wf n) items ->
  (String.length (print_list print_doc "]" items k) < fuel)%nat ->
  ParseItems (ParseValue n) fuel acc (print_list print_doc "]" items k) =
  inr (acc ++ map denote items, k).
Proof.
  revert fuel acc. induction items as [|x items IH]; [done|]. intros fuel acc _ Hwf Hfuel.
  inversion Hwf as [|? ? Hx Hitems]; subst. destruct fuel as [|fuel]; [lia|].
  cbn [print_list ParseItems]. cbn [print_list] in Hfuel.
  pose proof (Hdoc x Hx _ (stops_list print_doc "]" items k ltac:(by left))) as Hp.
  pose proof (ParseValue_shrinks n (print_doc x
    (match items with [] => String "]" k | _ => String "," (print_list print_doc "]" items k) end)))
    as Hs. rewrite Hp in *. cbn [shrinks bind] in *.
  destruct items as [|y items]; [done|].
  cbn [SkipWhitespace is_space Consume]. cbn -[ParseItems print_list].
  rewrite IH; [by rewrite <- app_assoc|done|done|]. cbn -[print_list] in Hs, Hfuel. lia.
Qed.

Definition print_member (m : string * Doc) (k : string) : string :=
  print_string m.1 (String ":" (print_doc m.2 k)).

Lemma mem_key_fresh ms key : key ∉ ms.*1 -> mem_key ms key = false.
Proof.
  intros H. unfold mem_key. apply existsb_none, Forall_forall. intros m Hm.
  apply String.eqb_neq. intros <-. apply H. by apply list_elem_of_fmap_2.
Qed.

Lemma ParseMembers_print ms fuel acc k :
  ms <> [] -> NoDup (acc.*1 ++ ms.*1) -> Forall (fun m => doc_wf n m.2) ms ->
  (String.length (print_list print_member "}" ms k) < fuel)%nat ->
  ParseMembers (ParseValue n) fuel acc (print_list print_member "}" ms k) =
  inr (acc ++ map (fun m => (m.1, denote m.2)) ms, k).
Proof.
  revert fuel acc. induction ms as [|[key x] ms IH]; [done|]. intros fuel acc _ Hnd Hwf Hfuel.
  inversion Hwf as [|? ? Hx Hms]; subst. cbn in Hx. destruct fuel as [|fuel]; [lia|].
  cbn [print_list ParseMembers]. cbn [print_list] in Hfuel.
  set (rest := match ms with [] => _ | _ => _ end) in *.
  pose proof (Hdoc x Hx rest (stops_list print_member "}" ms k ltac:(by right))) as Hp.
  unfold print_member at 1. cbn [fst snd].
  change (SkipWhitespace (print_string key (String ":" (print_doc x rest))))
    with (print_string key (String ":" (print_doc x rest))).
  rewrite ParseString_print. cbn [bind].
  rewrite mem_key_fresh.
  2: { cbn in Hnd. apply NoDup_app in Hnd as (_ & H & _). intros Hin.
       apply (H key Hin). apply list_elem_of_here. }
  change (SkipWhitespace (String ":" (print_doc x rest))) with (String ":" (print_doc x rest)).
  cbn [Consume]. rewrite Ascii.eqb_refl, Hp. cbn [bind].
  pose proof (ParseValue_shrinks n (print_doc x rest)) as Hs. rewrite Hp in Hs.
  assert (Hlen : (String.length (print_doc x rest) <
    String.length (print_member (key, x) rest))%nat).
  { pose proof (ParseString_shrinks (print_member (key, x) rest)) as H.
    unfold print_member in *. rewrite ParseString_print in H. cbn in *. lia. }
  cbn [shrinks] in Hs. unfold rest in *. destruct ms as [|m ms]; [done|].
  cbn -[ParseMembers print_list print_member] in *.
  rewrite IH; [by rewrite <- app_assoc|done| |done|lia].
  rewrite fmap_app. cbn. by rewrite <- app_assoc.
Qed.

End Loops.

Lemma print_list_member_eq members k :
  print_list (fun m k => print_string m.1 (String ":" (print_doc m.2 k))) "}" members k =
  print_list print_member "}" members k.
Proof. done. Qed.

Lemma SkipWhitespace_doc d n k : doc_wf n d -> exists c r, print_doc d k = String c r /\
  is_space c = false /\ Ascii.eqb c "}" = false /\ Ascii.eqb c "]" = false.
Proof.
  intros H. destruct H as [n|n b|n neg d f e Hd _ _ _|n s|n items _|n members _ _]; cbn [print_doc].
  - by eexists _, _.
  - destruct b; by eexists _, _.
  - rewrite print_number_eq. destruct neg; [by eexists _, _|].
    destruct (is_number_cons d Hd) as (_ & _ & c & r & -> & Hc).
    eexists _, _. split; [reflexivity|]. clear -Hc. revert Hc. each_char c; by vm_compute.
  - by eexists _, _.
  - by eexists _, _.
  - by eexists _, _.
Qed.

Lemma ParseValue_object n r :
  ParseValue (S n) (String "{" (String "034" r)) =
  bind (ParseMembers (ParseValue n) (S (String.length (String "034" r))) [] (String "034" r))
    (fun ms s => inr (object_value ms, s)).
Proof. reflexivity. Qed.

Lemma ParseValue_print n d : doc_wf n d -> forall k, stops k = true ->
  ParseValue n (print_doc d k) = inr (denote d, k).
Proof.
  revert d. induction n as [|n IH]; intros d Hwf k Hk; [inversion Hwf|].
  inversion Hwf as [|? b|? neg ds f e Hd|? s|? items Hitems|? members Hnd Hms]; subst.
  - done.
  - by destruct b.
  - pose proof (ParseNumber_print neg ds f e k (doc_number_level _ _ _ _ _ Hwf) Hk) as Hp.
    cbn [print_doc]. revert Hp. rewrite print_number_eq.
    destruct (is_number_cons ds Hd) as (_ & _ & c & r & -> & Hc).
    destruct (digit_first c Hc) as (E1 & E2 & E3 & E4 & E5 & E6 & _). intros Hp.
    destruct neg; [exact Hp|]. cbn -[ParseNumber denote] in *.
    by rewrite E1, E2, E3, E4, E5, E6.
  - cbn -[ParseString print_string]. unfold print_string.
    cbn -[ParseString]. change (String "034" (escape s (String "034" k))) with (print_string s k).
    by rewrite ParseString_print.
  - destruct items as [|x items]; [done|].
    destruct (SkipWhitespace_doc x n (match items with [] => String "]" k
      | _ => String "," (print_list print_doc "]" items k) end) ltac:(by inversion Hitems))
      as (c & r & E & E1 & _ & E2).
    pose proof (ParseItems_print n IH (x :: items) (S (String.length
      (print_list print_doc "]" (x :: items) k))) [] k ltac:(done) Hitems ltac:(lia)) as Hp.
    cbn [print_list] in Hp. rewrite E in Hp.
    cbn [print_doc print_list ParseValue SkipWhitespace]. rewrite E.
    change (is_space "[") with false. cbv iota.
    cbn [SkipWhitespace]. rewrite E1. cbn [Consume]. rewrite E2.
    cbn -[ParseItems denote] in *. by rewrite Hp.
  - cbn [print_doc]. rewrite print_list_member_eq. destruct members as [|x ms]; [done|].
    pose proof (ParseMembers_print n IH (x :: ms) (S (String.length
      (print_list print_member "}" (x :: ms) k))) [] k ltac:(done) Hnd Hms ltac:(lia)) as Hp.
    assert (Hq : exists r, print_list print_member "}" (x :: ms) k = String "034" r)
      by by eexists.
    destruct Hq as [r Hr]. rewrite Hr in *. rewrite ParseValue_object, Hp. done.
Qed.

Lemma Parse_print_doc d : doc_wf (S MaxDepth) d -> Parse (print_doc d "") = inr (denote d).
Proof.
  intros Hwf.   destruct (SkipWhitespace_doc d _ "" Hwf) as (c & r & E & Hc & _).
  unfold Parse.
  assert (Hs : SkipWhitespace (print_doc d "") = print_doc d "") by (rewrite E; cbn; by rewrite Hc).
  by rewrite Hs, (ParseValue_print _ d Hwf).
Qed.

(** C28. Round trip: every document of at most [MaxDepth] nested levels below the
    top, whose numbers are JSON literals and whose objects have distinct keys,
    is read back from its text as the value it stands for; strings are kept
    byte for byte and numbers with the value of their literal. *)
Theorem Parse_print d (Hwf : doc_wf (S MaxDepth) d) : Parse (print_doc d "") = inr (denote d).
Proof. by apply Parse_print_doc. Qed.

(** ** Witnesses *)

Definition sample_doc : Doc :=
  DObject [("kind"%string, DString "any_of");
           ("contracts"%string, DArray [DNumber true "12" (Some "5"%string) (Some (true, "2"%string));
                                        DNull; DBool true])].

Example Parse_print_witness : Parse (print_doc sample_doc "") = inr (denote sample_doc).
Proof.
  apply Parse_print. unfold sample_doc. constructor.
  - cbn. repeat constructor; rewrite ?elem_of_cons, ?elem_of_nil; intros H; by destruct H.
  - repeat constructor; cbn; try done; by intros; simplify_eq.
Defined.
