(* ===== verification/RouteContract.v ===== *)
(** The fail-closed parsers of native route contracts:
    [Bots/BotValidationRouteNativeContract.h]. *)
From S2P Require Import Prelude Doubles RouteTypes RouteJson RouteInteraction.
From Stdlib Require Import ZArith Lia String Ascii.
From stdpp Require Import base gmap list strings.

Open Scope Z_scope.
Open Scope tc_scope.

(** ** Errors *)

Inductive Code : Type := Code_None | Code_UnknownField | Code_Invalid.

Record ParseError : Type := mkParseError { pe_Kind : Code; pe_Detail : string }.

Definition Unknown {A} (field : string) : ParseError + A :=
  inl (mkParseError Code_UnknownField field).
Definition Invalid {A} (detail : string) : ParseError + A :=
  inl (mkParseError Code_Invalid detail).

(** A parser either fails or leaves a contract in [out]. *)
Definition Parsed (A : Type) : Type := ParseError + A.

Definition parse_bind {A B} (m : Parsed A) (k : A -> Parsed B) : Parsed B :=
  match m with inl e => inl e | inr a => k a end.

(** One field of the [||] chains of field readers. *)
Definition field {A B} (m : option A) (k : A -> Parsed B) : Parsed B :=
  match m with None => Invalid "field_type_or_range" | Some a => k a end.

Notation "x <-? m ; k" := (field m (fun x => k))
  (at level 60, m at next level, right associativity) : tc_scope.
Notation "x <-! m ; k" := (parse_bind m (fun x => k))
  (at level 60, m at next level, right associativity) : tc_scope.

Definition MaxInteractionRangeYards : f32 := f32_of_Z 5.
Definition MinRetryIntervalMs : Z := 500.
Definition MaxFloorToleranceYards : f32 := f32_of_Z 1.

Definition KnownField (key : string) (allowed : list string) : bool :=
  existsb (String.eqb key) allowed.

(** The check of a contract object's keys: the first unknown one is reported. *)
Fixpoint CheckKnown (allowed : list string) (members : list (string * Value)) : Parsed unit :=
  match members with
  | [] => inr ()
  | (key, _) :: rest => if negb (KnownField key allowed) then Unknown key else CheckKnown allowed rest
  end.

Definition has (object : Value) (key : string) : bool :=
  match Find object key with Some _ => true | None => false end.

(** ** Interaction *)

Definition InteractionActionFromName (name : string) : InteractionAction :=
  if String.eqb name "gameobject_use" then InteractionAction_GameObjectUse
  else if String.eqb name "gossip_select" then InteractionAction_GossipSelect
  else if String.eqb name "gossip_select_sequence" then InteractionAction_GossipSelectSequence
  else if String.eqb name "spellclick" then InteractionAction_SpellClick
  else if String.eqb name "vehicle_enter" then InteractionAction_VehicleEnter
  else if String.eqb name "area_trigger" then InteractionAction_AreaTrigger
  else InteractionAction_None.

Definition interaction_fields : list string :=
  ["action"; "entry"; "spawn_id"; "target_type"; "menu"; "menus"; "option"; "seat";
   "area_trigger_id"; "owner_role"; "owner_roster_slot"; "backup_roster_slot"; "timeout_ms";
   "max_attempts"; "retry_interval_ms"; "gather"; "gather_radius_yards"; "range_yards"]%string.

(** The loop over the ["menus"] array. *)
Fixpoint ReadMenus (items : list Value) (menus : list Z) : Parsed (list Z) :=
  match items with
  | [] => inr menus
  | item :: rest =>
      if negb (IsNumber item) || negb (v_Integral item) || v_Negative item
         || f64_lt (v_Number item) (f64_of_Z 1) || f64_gt (v_Number item) (f64_of_Z 4294967295)
      then Invalid "menus_shape"
      else
        let value := u32 (f64_trunc (v_Number item)) in
        if mem_Z value menus then Invalid "menus_duplicate"
        else ReadMenus rest (menus ++ [value])
  end.

Definition ParseMenus (object : Value) (menu : Z) : Parsed (list Z) :=
  menus <-!
    match Find object "menus" with
    | None => inr []
    | Some menus =>
        if negb (IsArray menus) || match v_Items menus with [] => true | _ => false end
        then Invalid "menus_shape" else ReadMenus (v_Items menus) []
    end;
  if has object "menu" then
    if match menus with [] => false | _ => true end then Invalid "gossip_menu_ambiguous"
    else if negb (nz menu) then Invalid "menus_shape"
    else inr (menus ++ [u32 menu])
  else inr menus.

(** The target type an action and the declared type give. *)
Definition ResolveTarget (c : InteractionContract) (targetType : string) : Parsed TargetType :=
  let hasTarget := nz (ic_Entry c) || nz (ic_SpawnId c) in
  if bool_decide (ic_Action c = InteractionAction_AreaTrigger) then
    if negb (nz (ic_AreaTriggerId c)) || hasTarget || negb (str_empty targetType)
    then Invalid "area_trigger_shape" else inr TargetType_None
  else if negb hasTarget then Invalid "target_missing"
  else if nz (ic_AreaTriggerId c) then Invalid "area_trigger_unexpected"
  else
    let implied :=
      if bool_decide (ic_Action c = InteractionAction_GameObjectUse) then TargetType_GameObject
      else if bool_decide (ic_Action c = InteractionAction_SpellClick)
              || bool_decide (ic_Action c = InteractionAction_VehicleEnter)
      then TargetType_Creature else TargetType_Any in
    target <-!
      (if str_empty targetType then inr implied
       else if String.eqb targetType "gameobject" then inr TargetType_GameObject
       else if String.eqb targetType "creature" then inr TargetType_Creature
       else Invalid "target_type_unknown");
    if negb (bool_decide (implied = TargetType_Any)) && negb (bool_decide (target = implied))
    then Invalid "target_type_conflicts_with_action" else inr target.

(** The owner checks. *)
Definition CheckOwner (object : Value) (c : InteractionContract) : Parsed unit :=
  if negb (str_empty (ic_OwnerRole c)) && negb (String.eqb (ic_OwnerRole c) "tank")
     && negb (String.eqb (ic_OwnerRole c) "healer") && negb (String.eqb (ic_OwnerRole c) "dps")
  then Invalid "owner_role_unknown"
  else if has object "owner_roster_slot" && negb (nz (ic_OwnerRosterSlot c))
  then Invalid "owner_roster_slot_invalid"
  else if negb (str_empty (ic_OwnerRole c)) && nz (ic_OwnerRosterSlot c)
  then Invalid "owner_ambiguous"
  else if has object "backup_roster_slot" then
    if negb (nz (ic_BackupRosterSlot c)) then Invalid "backup_roster_slot_invalid"
    else if LegacyOwner c then Invalid "backup_without_owner"
    else if ic_BackupRosterSlot c =? ic_OwnerRosterSlot c then Invalid "backup_equals_owner"
    else inr ()
  else inr ().

(** The distance checks. *)
Definition CheckRanges (object : Value) (c : InteractionContract) : Parsed unit :=
  _ <-!
    (if ic_Gather c then
       if negb (f32_gt (ic_GatherRadiusYards c) f32_zero
                && f32_le (ic_GatherRadiusYards c) (f32_of_Z 60))
       then Invalid "gather_radius_invalid" else inr ()
     else if has object "gather_radius_yards" then Invalid "gather_radius_without_gather"
     else inr ());
  if has object "range_yards" then
    if bool_decide (ic_Target c = TargetType_GameObject)
       || bool_decide (ic_Target c = TargetType_None)
    then Invalid "range_not_supported_for_target"
    else if negb (f32_gt (ic_RangeYards c) f32_zero
                  && f32_le (ic_RangeYards c) MaxInteractionRangeYards)
    then Invalid "range_invalid" else inr ()
  else inr ().

(** The gossip, seat and time checks around them. *)
Definition CheckShape (object : Value) (c : InteractionContract) : Parsed unit :=
  let noMenus := match ic_Menus c with [] => true | _ => false end in
  if IsGossip c && noMenus then Invalid "gossip_menu_missing"
  else if negb (IsGossip c) && (negb noMenus || has object "option")
  then Invalid "menu_unexpected"
  else if negb (bool_decide (ic_Action c = InteractionAction_VehicleEnter)) && has object "seat"
  then Invalid "seat_unexpected"
  else inr ().

Definition CheckBounds (c : InteractionContract) : Parsed unit :=
  if negb (nz (ic_TimeoutMs c)) then Invalid "timeout_required"
  else if negb (nz (ic_MaxAttempts c)) then Invalid "max_attempts_required"
  else if ic_RetryIntervalMs c <? MinRetryIntervalMs then Invalid "retry_interval_required"
  else inr ().

Definition set_Target (c : InteractionContract) (t : TargetType) : InteractionContract :=
  mkInteraction (ic_Declared c) (ic_Action c) (ic_ActionName c) t (ic_Entry c) (ic_SpawnId c)
    (ic_Menus c) (ic_Option c) (ic_Seat c) (ic_AreaTriggerId c) (ic_OwnerRole c)
    (ic_OwnerRosterSlot c) (ic_BackupRosterSlot c) (ic_TimeoutMs c) (ic_MaxAttempts c)
    (ic_RetryIntervalMs c) (ic_Gather c) (ic_GatherRadiusYards c) (ic_RangeYards c).

Definition set_Declared (c : InteractionContract) : InteractionContract :=
  mkInteraction true (ic_Action c) (ic_ActionName c) (ic_Target c) (ic_Entry c) (ic_SpawnId c)
    (ic_Menus c) (ic_Option c) (ic_Seat c) (ic_AreaTriggerId c) (ic_OwnerRole c)
    (ic_OwnerRosterSlot c) (ic_BackupRosterSlot c) (ic_TimeoutMs c) (ic_MaxAttempts c)
    (ic_RetryIntervalMs c) (ic_Gather c) (ic_GatherRadiusYards c) (ic_RangeYards c).

(** The fields of an interaction object, before any check between them. *)
Definition ReadInteraction (object : Value) : Parsed (InteractionContract * string) :=
  match ReadString object "action" "" with
  | None => Invalid "action_type"
  | Some actionName =>
      entry <-? ReadUnsigned object "entry" 0 4294967295;
      spawnId <-? ReadUnsigned object "spawn_id" 0 281474976710655;
      menu <-? ReadUnsigned object "menu" 0 4294967295;
      option <-? ReadUnsigned object "option" 0 4294967295;
      trigger <-? ReadUnsigned object "area_trigger_id" 0 4294967295;
      ownerSlot <-? ReadUnsigned object "owner_roster_slot" 0 40;
      backupSlot <-? ReadUnsigned object "backup_roster_slot" 0 40;
      timeout <-? ReadUnsigned object "timeout_ms" 0 600000;
      attempts <-? ReadUnsigned object "max_attempts" 0 100;
      retry <-? ReadUnsigned object "retry_interval_ms" 0 60000;
      seat <-? ReadSigned object "seat" (-1) (-1) 7;
      targetType <-? ReadString object "target_type" "";
      ownerRole <-? ReadString object "owner_role" "";
      gather <-? ReadBool object "gather" false;
      gatherRadius <-? ReadFloat object "gather_radius_yards" f32_zero;
      range <-? ReadFloat object "range_yards" f32_zero;
      menus <-! ParseMenus object menu;
      inr (mkInteraction false (InteractionActionFromName actionName) actionName TargetType_None
             (u32 entry) spawnId menus (u32 option) seat (u32 trigger) ownerRole (u32 ownerSlot)
             (u32 backupSlot) (u32 timeout) (u32 attempts) (u32 retry) gather gatherRadius range,
           targetType)
  end.

Definition ParseInteraction (object : Value) : Parsed InteractionContract :=
  if negb (IsObject object) then Invalid "not_object"
  else
    _ <-! CheckKnown interaction_fields (v_Members object);
    r <-! ReadInteraction object;
    let '(c, targetType) := r in
    if bool_decide (ic_Action c = InteractionAction_None) then Invalid "action_unknown"
    else
      target <-! ResolveTarget c targetType;
      let c := set_Target c target in
      _ <-! CheckShape object c;
      _ <-! CheckOwner object c;
      _ <-! CheckRanges object c;
      _ <-! CheckBounds c;
      inr (set_Declared c).

(** ** Completion *)

Definition BossStateFromName (name : string) : option Z :=
  if String.eqb name "not_started" then Some 0
  else if String.eqb name "in_progress" then Some 1
  else if String.eqb name "fail" then Some 2
  else if String.eqb name "done" then Some 3
  else if String.eqb name "special" then Some 4
  else if String.eqb name "to_be_decided" then Some 5
  else None.

Definition CompletionKindFromName (name : string) : CompletionKind :=
  if String.eqb name "gameobject_selectable" then CompletionKind_GameObjectSelectable
  else if String.eqb name "gameobject_despawned" then CompletionKind_GameObjectDespawned
  else if String.eqb name "boss_summoned" then CompletionKind_BossSummoned
  else if String.eqb name "creature_summoned" then CompletionKind_CreatureSummoned
  else if String.eqb name "aura_present" then CompletionKind_AuraPresent
  else if String.eqb name "creature_aggressive_with_victim"
  then CompletionKind_CreatureAggressiveWithVictim
  else if String.eqb name "creature_grounded_aggressive_or_engaged"
  then CompletionKind_CreatureGroundedAggressiveOrEngaged
  else if String.eqb name "instance_boss_state" then CompletionKind_InstanceBossState
  else if String.eqb name "on_transport" then CompletionKind_OnTransport
  else if String.eqb name "vehicle_seated" then CompletionKind_VehicleSeated
  else if String.eqb name "transport_at_stop" then CompletionKind_TransportAtStop
  else if String.eqb name "any_of" then CompletionKind_AnyOf
  else if String.eqb name "all_of" then CompletionKind_AllOf
  else CompletionKind_None.

Definition completion_fields : list string :=
  ["kind"; "entry"; "spawn_id"; "spell_id"; "boss_index"; "boss_state"; "transport_entry";
   "transport_spawn_id"; "stop_frame"; "vehicle_entry"; "seat"; "scope"; "contracts";
   "require_observed_present"; "timeout_ms"]%string.

(** The [onlyFields] lambda. *)
Fixpoint onlyFields (allowed : list string) (members : list (string * Value)) : Parsed unit :=
  match members with
  | [] => inr ()
  | (key, _) :: rest =>
      if negb (String.eqb key "kind") && negb (String.eqb key "timeout_ms")
         && negb (KnownField key allowed)
      then Invalid ("field_unexpected:" ++ key)%string
      else onlyFields allowed rest
  end.

(** The fields of a completion object, with its boss state and scope names. *)
Definition ReadCompletion (object : Value)
    : Parsed (CompletionContract * string * string) :=
  kindName <-? ReadString object "kind" "";
  entry <-? ReadUnsigned object "entry" 0 4294967295;
  spawnId <-? ReadUnsigned object "spawn_id" 0 281474976710655;
  spell <-? ReadUnsigned object "spell_id" 0 4294967295;
  bossIndex <-? ReadSigned object "boss_index" (-1) 0 63;
  bossState <-? ReadString object "boss_state" "";
  transportEntry <-? ReadUnsigned object "transport_entry" 0 4294967295;
  transportSpawn <-? ReadUnsigned object "transport_spawn_id" 0 281474976710655;
  stopFrame <-? ReadSigned object "stop_frame" (-1) 0 8;
  vehicleEntry <-? ReadUnsigned object "vehicle_entry" 0 4294967295;
  seat <-? ReadSigned object "seat" (-1) (-1) 7;
  scope <-? ReadString object "scope" "";
  requireObserved <-? ReadBool object "require_observed_present" true;
  timeout <-? ReadUnsigned object "timeout_ms" 0 1800000;
  inr (mkCompletion false (CompletionKindFromName kindName) kindName (u32 entry) spawnId
         (u32 spell) bossIndex 0 (u32 transportEntry) transportSpawn stopFrame
         (u32 vehicleEntry) seat MemberScope_All requireObserved (u32 timeout) [],
       bossState, scope).

(** A contract with the fields the later steps set. *)
Definition complete_contract (c : CompletionContract) (bossState : Z) (scope : MemberScope)
    (children : list CompletionContract) : CompletionContract :=
  mkCompletion true (cc_Kind c) (cc_KindName c) (cc_Entry c) (cc_SpawnId c) (cc_SpellId c)
    (cc_BossIndex c) bossState (cc_TransportEntry c) (cc_TransportSpawnId c) (cc_StopFrame c)
    (cc_VehicleEntry c) (cc_Seat c) scope (cc_RequireObservedPresent c) (cc_TimeoutMs c)
    children.

(** The scope a name declares. *)
Definition ScopeFromName (scope : string) : Parsed MemberScope :=
  if str_empty scope then inr MemberScope_All
  else if String.eqb scope "all" then inr MemberScope_All
  else if String.eqb scope "any" then inr MemberScope_Any
  else if String.eqb scope "owner" then inr MemberScope_Owner
  else Invalid "scope_unknown".

(** The shape checks of the kinds without children; the boss state they set. *)
Definition CheckKind (members : list (string * Value)) (c : CompletionContract)
    (bossState : string) : Parsed Z :=
  let only allowed := onlyFields allowed members in
  match cc_Kind c with
  | CompletionKind_GameObjectSelectable =>
      _ <-! only ["entry"; "spawn_id"]%string;
      if negb (nz (cc_Entry c) || nz (cc_SpawnId c)) then Invalid "target_missing" else inr 0
  | CompletionKind_GameObjectDespawned =>
      _ <-! only ["entry"; "spawn_id"; "require_observed_present"]%string;
      if negb (nz (cc_SpawnId c)) then Invalid "despawn_requires_spawn_id" else inr 0
  | CompletionKind_BossSummoned | CompletionKind_CreatureSummoned
  | CompletionKind_CreatureAggressiveWithVictim
  | CompletionKind_CreatureGroundedAggressiveOrEngaged =>
      _ <-! only ["entry"]%string;
      if negb (nz (cc_Entry c)) then Invalid "entry_missing" else inr 0
  | CompletionKind_AuraPresent =>
      _ <-! only ["entry"; "spell_id"]%string;
      if negb (nz (cc_Entry c)) || negb (nz (cc_SpellId c)) then Invalid "aura_shape" else inr 0
  | CompletionKind_InstanceBossState =>
      _ <-! only ["boss_index"; "boss_state"]%string;
      if cc_BossIndex c <? 0 then Invalid "boss_state_shape"
      else match BossStateFromName bossState with
           | None => Invalid "boss_state_shape"
           | Some state => inr state
           end
  | CompletionKind_OnTransport =>
      _ <-! only ["transport_entry"; "transport_spawn_id"; "scope"]%string;
      if negb (nz (cc_TransportEntry c)) && negb (nz (cc_TransportSpawnId c))
      then Invalid "transport_missing" else inr 0
  | CompletionKind_VehicleSeated =>
      _ <-! only ["vehicle_entry"; "seat"; "scope"]%string;
      if negb (nz (cc_VehicleEntry c)) then Invalid "vehicle_missing" else inr 0
  | CompletionKind_TransportAtStop =>
      _ <-! only ["transport_entry"; "transport_spawn_id"; "stop_frame"]%string;
      if (negb (nz (cc_TransportEntry c)) && negb (nz (cc_TransportSpawnId c)))
         || (cc_StopFrame c <? 0)
      then Invalid "transport_stop_shape" else inr 0
  | CompletionKind_AnyOf | CompletionKind_AllOf =>
      _ <-! only ["contracts"]%string; inr 0
  | CompletionKind_None => inr 0
  end.

Definition is_composite (k : CompletionKind) : bool :=
  bool_decide (k = CompletionKind_AnyOf) || bool_decide (k = CompletionKind_AllOf).

Section Children.
Context (parse : Value -> Parsed CompletionContract).

(** The loop over ["contracts"]. *)
Fixpoint ParseChildren (items : list Value) (children : list CompletionContract)
    : Parsed (list CompletionContract) :=
  match items with
  | [] => inr children
  | item :: rest =>
      match parse item with
      | inl error =>
          match pe_Kind error with
          | Code_UnknownField => inl error
          | _ => Invalid ("child:" ++ pe_Detail error)%string
          end
      | inr child => ParseChildren rest (children ++ [child])
      end
  end.

End Children.

(** [ParseCompletion] at depth [2 - levels]. *)
Fixpoint ParseCompletion (levels : nat) (object : Value) : Parsed CompletionContract :=
  if negb (IsObject object) then Invalid "not_object"
  else
    _ <-! CheckKnown completion_fields (v_Members object);
    r <-! ReadCompletion object;
    let '(c, bossState, scope) := r in
    _ <-!
      (if has object "timeout_ms" then
         if negb (levels =? 2)%nat then Invalid "timeout_only_top_level"
         else if negb (nz (cc_TimeoutMs c)) then Invalid "timeout_invalid" else inr ()
       else inr ());
    if bool_decide (cc_Kind c = CompletionKind_None)
    then Invalid ("kind_unknown:" ++ cc_KindName c)%string
    else
      state <-! CheckKind (v_Members object) c bossState;
      children <-!
        (if is_composite (cc_Kind c) then
           match levels with
           | O => Invalid "composite_too_deep"
           | S levels =>
               match Find object "contracts" with
               | None => Invalid "composite_shape"
               | Some cs =>
                   if negb (IsArray cs) || match v_Items cs with [] => true | _ => false end
                      || (8 <? Z.of_nat (length (v_Items cs)))
                   then Invalid "composite_shape"
                   else ParseChildren (ParseCompletion levels) (v_Items cs) []
               end
           end
         else inr []);
      scope <-! ScopeFromName scope;
      inr (complete_contract c state scope children).

(** ** Transport *)

Definition finite_number (v : Value) : option f32 :=
  if negb (IsNumber v) || negb (f64_is_finite (v_Number v)) then None
  else Some (f32_of_f64 (v_Number v)).

Definition ReadPoint (object : Value) (key : string) (out : Point3) : option Point3 :=
  match Find object key with
  | None => Some out
  | Some value =>
      if negb (IsArray value) then None
      else match v_Items value with
      | [x; y; z] =>
          match finite_number x, finite_number y, finite_number z with
          | Some x, Some y, Some z => Some (mkPoint3 x y z true)
          | _, _, _ => None
          end
      | _ => None
      end
  end.

Definition transport_fields : list string :=
  ["entry"; "spawn_id"; "board_stop_frame"; "board_transport_z"; "exit_stop_frame";
   "exit_transport_z"; "level_tolerance_yards"; "wait_point"; "board_point"; "disembark_point";
   "exit_point"; "arrival_tolerance_yards"; "floor_tolerance_yards"; "max_submissions";
   "timeout_ms"]%string.

Definition ReadTransport (object : Value) : Parsed TransportContract :=
  let d := TransportContract_default in
  entry <-? ReadUnsigned object "entry" 0 4294967295;
  spawnId <-? ReadUnsigned object "spawn_id" 0 281474976710655;
  timeout <-? ReadUnsigned object "timeout_ms" 0 1800000;
  boardFrame <-? ReadSigned object "board_stop_frame" (-1) 0 8;
  exitFrame <-? ReadSigned object "exit_stop_frame" (-1) 0 8;
  boardZ <-? ReadFloat object "board_transport_z" (tc_BoardTransportZ d);
  exitZ <-? ReadFloat object "exit_transport_z" (tc_ExitTransportZ d);
  levelTol <-? ReadFloat object "level_tolerance_yards" (tc_LevelToleranceYards d);
  arrivalTol <-? ReadFloat object "arrival_tolerance_yards" (tc_ArrivalToleranceYards d);
  floorTol <-? ReadFloat object "floor_tolerance_yards" (tc_FloorToleranceYards d);
  submissions <-? ReadUnsigned object "max_submissions" (tc_MaxSubmissions d) 50;
  wait <-? ReadPoint object "wait_point" (tc_WaitPoint d);
  board <-? ReadPoint object "board_point" (tc_BoardPoint d);
  disembark <-? ReadPoint object "disembark_point" (tc_DisembarkPoint d);
  exit <-? ReadPoint object "exit_point" (tc_ExitPoint d);
  inr (mkTransport false (u32 entry) spawnId boardFrame (has object "board_transport_z") boardZ
         exitFrame (has object "exit_transport_z") exitZ levelTol wait board disembark exit
         arrivalTol floorTol (u32 timeout) (u32 submissions)).

(** [x > 0.0f && x <= bound]. *)
Definition positive_up_to (bound x : f32) : bool := f32_gt x f32_zero && f32_le x bound.

Definition CheckTransport (c : TransportContract) : Parsed unit :=
  if negb (nz (tc_Entry c)) && negb (nz (tc_SpawnId c)) then Invalid "transport_missing"
  else if Bool.eqb (0 <=? tc_BoardStopFrame c) (tc_HasBoardLevel c)
  then Invalid "board_readiness_ambiguous"
  else if (0 <=? tc_ExitStopFrame c) && tc_HasExitLevel c
  then Invalid "exit_readiness_ambiguous"
  else if negb (p_Valid (tc_BoardPoint c)) then Invalid "board_point_missing"
  else if negb (Bool.eqb (HasExit c) (p_Valid (tc_ExitPoint c)))
          || (p_Valid (tc_DisembarkPoint c) && negb (HasExit c))
  then Invalid "exit_shape"
  else if negb (positive_up_to (f32_of_Z 10) (tc_LevelToleranceYards c))
          || negb (positive_up_to (f32_of_Z 10) (tc_ArrivalToleranceYards c))
          || negb (positive_up_to MaxFloorToleranceYards (tc_FloorToleranceYards c))
  then Invalid "tolerance_invalid"
  else if negb (nz (tc_MaxSubmissions c)) then Invalid "max_submissions_invalid"
  else if negb (nz (tc_TimeoutMs c)) then Invalid "timeout_required"
  else inr ().

Definition set_TransportDeclared (c : TransportContract) : TransportContract :=
  mkTransport true (tc_Entry c) (tc_SpawnId c) (tc_BoardStopFrame c) (tc_HasBoardLevel c)
    (tc_BoardTransportZ c) (tc_ExitStopFrame c) (tc_HasExitLevel c) (tc_ExitTransportZ c)
    (tc_LevelToleranceYards c) (tc_WaitPoint c) (tc_BoardPoint c) (tc_DisembarkPoint c)
    (tc_ExitPoint c) (tc_ArrivalToleranceYards c) (tc_FloorToleranceYards c) (tc_TimeoutMs c)
    (tc_MaxSubmissions c).

Definition ParseTransport (object : Value) : Parsed TransportContract :=
  if negb (IsObject object) then Invalid "not_object"
  else
    _ <-! CheckKnown transport_fields (v_Members object);
    c <-! ReadTransport object;
    _ <-! CheckTransport c;
    inr (set_TransportDeclared c).

(** ** Node shape *)

Definition ParseObjectText (text : string) : Parsed Value :=
  match Parse text with
  | inl (Failed error) => Invalid error
  | inl OutOfFuel => Invalid ""
  | inr out => if negb (IsObject out) then Invalid "not_object" else inr out
  end.

Definition ValidateNodeShape (kind : string) (interaction : InteractionContract)
    (completion : CompletionContract) (transport : TransportContract) : Parsed unit :=
  if negb (Bool.eqb (tc_Declared transport) (String.eqb kind "transport"))
  then Invalid (if tc_Declared transport then "transport_contract_requires_transport_kind"
                else "transport_kind_requires_transport_contract")
  else if ic_Declared interaction && negb (String.eqb kind "interaction")
  then Invalid "interaction_contract_requires_interaction_kind"
  else if String.eqb kind "interaction" && negb (ic_Declared interaction)
          && negb (cc_Declared completion)
  then Invalid "interaction_kind_requires_contract"
  else if ic_Declared interaction && negb (cc_Declared completion)
  then Invalid "interaction_requires_completion"
  else if cc_Declared completion && UsesOwnerScope completion && negb (ic_Declared interaction)
  then Invalid "owner_scope_requires_interaction"
  else inr ().

(** ** What the parsers accept *)

(** One successful step of a parser. *)
Ltac parse_step H :=
  match type of H with
  | parse_bind ?m _ = inr _ =>
      let E := fresh "E" in destruct m eqn:E; cbn [parse_bind] in H; [discriminate H|]
  | field ?m _ = inr _ =>
      let E := fresh "E" in destruct m eqn:E; cbn [field] in H; [|discriminate H]
  | (if ?b then Invalid _ else _) = inr _ =>
      let E := fresh "E" in destruct b eqn:E; [discriminate H|]
  | (let '(_, _) := ?p in _) = inr _ => destruct p
  end.

Ltac parse_steps H := repeat (parse_step H; cbv beta iota zeta in H).

(** The bounds of every field read from a well-formed object. *)
Ltac bound_reads Hwf :=
  repeat match goal with
  | H : ReadUnsigned _ _ _ _ = Some _ |- _ =>
      apply (ReadUnsigned_bound _ _ _ _ _ _ Hwf) in H; [|by vm_compute|lia|cbn; lia]
  | H : ReadSigned _ _ _ _ _ = Some _ |- _ =>
      apply (ReadSigned_bound _ _ _ _ _ _ _ Hwf) in H;
        [|by vm_compute|by (left; reflexivity) || by (right; reflexivity)|cbn; lia]
  end.

(** An interaction the runtime may execute. *)
Record interaction_ok (c : InteractionContract) : Prop := {
  iok_declared : ic_Declared c = true;
  iok_action : ic_Action c <> InteractionAction_None;
  iok_timeout : 0 < ic_TimeoutMs c <= 600000;
  iok_attempts : 0 < ic_MaxAttempts c <= 100;
  iok_retry : 500 <= ic_RetryIntervalMs c <= 60000;
  iok_area : ic_Action c = InteractionAction_AreaTrigger <-> ic_Target c = TargetType_None;
  iok_target : if bool_decide (ic_Action c = InteractionAction_AreaTrigger)
    then ic_AreaTriggerId c <> 0 /\ ic_Entry c = 0 /\ ic_SpawnId c = 0
    else ic_AreaTriggerId c = 0 /\ (ic_Entry c <> 0 \/ ic_SpawnId c <> 0);
  iok_use : ic_Action c = InteractionAction_GameObjectUse -> ic_Target c = TargetType_GameObject;
  iok_creature : ic_Action c = InteractionAction_SpellClick \/
    ic_Action c = InteractionAction_VehicleEnter -> ic_Target c = TargetType_Creature;
  iok_menus : IsGossip c = true <-> ic_Menus c <> [];
  iok_menus_unique : NoDup (ic_Menus c);
  iok_menus_range : Forall (fun m => 0 <= m < 2 ^ 32) (ic_Menus c);
  iok_seat : -1 <= ic_Seat c <= 7;
  iok_role : ic_OwnerRole c ∈ [""; "tank"; "healer"; "dps"]%string;
  iok_owner : ic_OwnerRole c = ""%string \/ ic_OwnerRosterSlot c = 0;
  iok_slots : 0 <= ic_OwnerRosterSlot c <= 40 /\ 0 <= ic_BackupRosterSlot c <= 40;
  iok_backup : ic_BackupRosterSlot c <> 0 ->
    LegacyOwner c = false /\ ic_BackupRosterSlot c <> ic_OwnerRosterSlot c
}.

Definition menus_ok (menus : list Z) : Prop :=
  NoDup menus /\ Forall (fun m => 0 <= m < 2 ^ 32) menus.

Lemma NoDup_snoc (l : list Z) x : NoDup l -> x ∉ l -> NoDup (l ++ [x]).
Proof.
  intros Hl Hx. apply NoDup_app. split_and!; [done| |apply NoDup_singleton].
  by intros y Hy ->%list_elem_of_singleton.
Qed.

Lemma ReadMenus_ok n items menus out :
  Forall (json_wf n) items -> menus_ok menus -> ReadMenus items menus = inr out ->
  menus_ok out /\ (length menus <= length out)%nat /\
  (items <> [] -> (length menus < length out)%nat).
Proof.
  revert menus. induction items as [|v items IH]; intros menus Hwf Hm H.
  { injection H as <-. done. }
  inversion Hwf as [|? ? Hv Hitems]; subst. cbn [ReadMenus] in H. parse_steps H.
  apply orb_false_iff in E as [E Eu]. apply orb_false_iff in E as [E El]. b2p.
  destruct E as [[En _] _]. destruct (json_wf_number _ _ Hv En) as [Hf _].
  pose proof (f64_trunc_upper _ 4294967295 Hf ltac:(by vm_compute) Eu) as Hu.
  pose proof (f64_trunc_nonneg_one _ El) as Hl.
  rewrite u32_small in * by lia. apply mem_Z_false in E0.
  destruct Hm as [Hm1 Hm2].
  destruct (IH (menus ++ [f64_trunc (v_Number v)])) as (H1 & H2 & _); [done| |done|].
  - split; [by apply NoDup_snoc|]. apply Forall_app. repeat constructor; [done|lia..].
  - rewrite length_app in H2. cbn in H2. split_and!; [done|lia|intros; lia].
Qed.

Lemma json_wf_items n v : json_wf n v -> IsArray v = true ->
  exists m, n = S m /\ Forall (json_wf m) (v_Items v).
Proof. intros H. destruct H; try done. intros _. exists n. done. Qed.

Lemma ParseMenus_ok n object menu menus :
  json_wf n object -> 0 <= menu < 2 ^ 32 -> ParseMenus object menu = inr menus -> menus_ok menus.
Proof.
  intros Hwf Hm. unfold ParseMenus. intros H. parse_step H.
  assert (Hl : menus_ok l).
  { destruct (Find object "menus") as [v|] eqn:Ef; [|injection E as <-; by repeat constructor].
    parse_step E. b2p. destruct E0 as [Ea _].
    destruct (Find_wf _ _ _ _ Hwf Ef) as (m & Hv & _).
    destruct (json_wf_items _ _ Hv Ea) as (m' & _ & Hitems).
    apply (ReadMenus_ok m' _ []) in E as [E _]; [done|done|by repeat constructor]. }
  destruct (has object "menu"); [|by injection H as <-]. parse_steps H.
  destruct l; [|done]. injection H as <-. rewrite u32_small by lia.
  split; [apply NoDup_singleton|by apply Forall_singleton].
Qed.

Lemma CheckShape_ok object c u : CheckShape object c = inr u ->
  IsGossip c = true <-> ic_Menus c <> [].
Proof.
  unfold CheckShape. destruct (IsGossip c), (ic_Menus c); cbn; try done.
Qed.

Lemma CheckOwner_ok object c u :
  CheckOwner object c = inr u ->
  (has object "backup_roster_slot" = false -> ic_BackupRosterSlot c = 0) ->
  ic_OwnerRole c ∈ [""; "tank"; "healer"; "dps"]%string /\
  (ic_OwnerRole c = ""%string \/ ic_OwnerRosterSlot c = 0) /\
  (ic_BackupRosterSlot c <> 0 ->
    LegacyOwner c = false /\ ic_BackupRosterSlot c <> ic_OwnerRosterSlot c).
Proof.
  unfold CheckOwner. intros H Habs. parse_steps H.
  assert (Hrole : ic_OwnerRole c ∈ [""; "tank"; "healer"; "dps"]%string).
  { rewrite !elem_of_cons. unfold str_empty in E. b2p. tauto. }
  assert (Howner : ic_OwnerRole c = ""%string \/ ic_OwnerRosterSlot c = 0).
  { unfold str_empty in E1. b2p. tauto. }
  split_and!; [done|done|]. intros Hb.
  destruct (has object "backup_roster_slot"); [|by rewrite Habs in Hb].
  parse_steps H. b2p. done.
Qed.

Lemma CheckBounds_ok c u : CheckBounds c = inr u ->
  ic_TimeoutMs c <> 0 /\ ic_MaxAttempts c <> 0 /\ 500 <= ic_RetryIntervalMs c.
Proof. unfold CheckBounds, MinRetryIntervalMs. intros H. parse_steps H. b2p. done. Qed.

Lemma ResolveTarget_ok c t target : ResolveTarget c t = inr target ->
  (ic_Action c = InteractionAction_AreaTrigger <-> target = TargetType_None) /\
  (if bool_decide (ic_Action c = InteractionAction_AreaTrigger)
   then ic_AreaTriggerId c <> 0 /\ ic_Entry c = 0 /\ ic_SpawnId c = 0
   else ic_AreaTriggerId c = 0 /\ (ic_Entry c <> 0 \/ ic_SpawnId c <> 0)) /\
  (ic_Action c = InteractionAction_GameObjectUse -> target = TargetType_GameObject) /\
  (ic_Action c = InteractionAction_SpellClick \/ ic_Action c = InteractionAction_VehicleEnter ->
   target = TargetType_Creature).
Proof.
  unfold ResolveTarget. intros H.
  destruct (bool_decide (ic_Action c = InteractionAction_AreaTrigger)) eqn:Ea.
  - apply bool_decide_eq_true in Ea. parse_steps H. injection H as <-. b2p.
    rewrite Ea. destruct E as [[? [? ?]] ?]. split_and!; try done. by intros [|].
  - apply bool_decide_eq_false in Ea. parse_steps H.
    assert (Ht : target <> TargetType_None).
    { injection H as <-. repeat case_match; simplify_eq; try done;
        destruct (ic_Action c); done. }
    injection H as <-. apply andb_false_iff in E2.
    rewrite !negb_false_iff, !bool_decide_eq_true in E2. b2p.
    split_and!; [by split; intros|done|done|..].
    + intros Eu. rewrite Eu in E2. by destruct E2.
    + intros Eu. by destruct Eu as [Eu|Eu]; rewrite Eu in E2; destruct E2.
Qed.

Lemma ReadUnsigned_absent object key out maximum r :
  has object key = false -> ReadUnsigned object key out maximum = Some r -> r = out.
Proof. unfold has, ReadUnsigned. destruct (Find object key); [done|]. by intros _ [= ->]. Qed.

Lemma ReadInteraction_ok n object c t :
  json_wf n object -> ReadInteraction object = inr (c, t) ->
  0 <= ic_TimeoutMs c <= 600000 /\ 0 <= ic_MaxAttempts c <= 100 /\
  ic_RetryIntervalMs c <= 60000 /\ -1 <= ic_Seat c <= 7 /\
  (0 <= ic_OwnerRosterSlot c <= 40 /\ 0 <= ic_BackupRosterSlot c <= 40) /\
  menus_ok (ic_Menus c) /\
  (has object "backup_roster_slot" = false -> ic_BackupRosterSlot c = 0).
Proof.
  intros Hwf. unfold ReadInteraction. destruct (ReadString object "action" ""); [|done].
  intros H. parse_steps H. injection H as <- _. cbn.
  match goal with H : ReadUnsigned _ "backup_roster_slot" _ _ = Some _ |- _ =>
    pose proof (fun A => ReadUnsigned_absent _ _ _ _ _ A H) as Habs end.
  bound_reads Hwf. repeat match goal with H : _ /\ (is_Some _ -> _) |- _ => destruct H as [H _] end.
  match goal with H : ParseMenus _ _ = inr _ |- _ =>
    apply (ParseMenus_ok _ _ _ _ Hwf) in H; [|lia] end.
  rewrite !u32_small by lia. split_and!; try lia; done.
Qed.

Lemma ParseInteraction_wf n object c (Hwf : json_wf n object)
    (Hparse : ParseInteraction object = inr c) : interaction_ok c.
Proof.
  revert Hparse. unfold ParseInteraction. intros H. parse_steps H.
  match goal with H : ReadInteraction _ = inr _ |- _ =>
    destruct (ReadInteraction_ok _ _ _ _ Hwf H) as (T & A & R & S & O & [M1 M2] & B) end.
  match goal with H : ResolveTarget _ _ = inr _ |- _ =>
    apply ResolveTarget_ok in H as (G1 & G2 & G3 & G4) end.
  match goal with H : CheckShape _ _ = inr _ |- _ => apply CheckShape_ok in H as Hshape end.
  match goal with H : CheckOwner _ _ = inr _ |- _ =>
    apply CheckOwner_ok in H as (W1 & W2 & W3); [|done] end.
  match goal with H : CheckBounds _ = inr _ |- _ => apply CheckBounds_ok in H as (Q1 & Q2 & Q3) end.
  injection H as <-. cbn in *. apply bool_decide_eq_false in E2.
  split; cbn; try done; lia.
Qed.

(** What each kind of completion needs. *)
Definition kind_ok (c : CompletionContract) : Prop :=
  match cc_Kind c with
  | CompletionKind_None => False
  | CompletionKind_GameObjectSelectable => cc_Entry c <> 0 \/ cc_SpawnId c <> 0
  | CompletionKind_GameObjectDespawned => cc_SpawnId c <> 0
  | CompletionKind_BossSummoned | CompletionKind_CreatureSummoned
  | CompletionKind_CreatureAggressiveWithVictim
  | CompletionKind_CreatureGroundedAggressiveOrEngaged => cc_Entry c <> 0
  | CompletionKind_AuraPresent => cc_Entry c <> 0 /\ cc_SpellId c <> 0
  | CompletionKind_InstanceBossState => 0 <= cc_BossIndex c <= 63 /\ 0 <= cc_BossState c <= 5
  | CompletionKind_OnTransport => cc_TransportEntry c <> 0 \/ cc_TransportSpawnId c <> 0
  | CompletionKind_VehicleSeated => cc_VehicleEntry c <> 0
  | CompletionKind_TransportAtStop =>
      (cc_TransportEntry c <> 0 \/ cc_TransportSpawnId c <> 0) /\ 0 <= cc_StopFrame c <= 8
  | CompletionKind_AnyOf | CompletionKind_AllOf => (1 <= length (cc_Children c) <= 8)%nat
  end.

(** Only these kinds take a member scope, and only despawning takes a waiver of
    the observation it requires. *)
Definition fields_ok (c : CompletionContract) : Prop :=
  (cc_Scope c <> MemberScope_All ->
   cc_Kind c = CompletionKind_OnTransport \/ cc_Kind c = CompletionKind_VehicleSeated) /\
  (cc_RequireObservedPresent c = false -> cc_Kind c = CompletionKind_GameObjectDespawned).

(** A completion contract with at most [levels] levels of composites; only the
    top one may be timed. *)
Inductive completion_ok (top : nat) : nat -> CompletionContract -> Prop :=
| cok levels c :
    cc_Declared c = true -> kind_ok c -> fields_ok c ->
    0 <= cc_TimeoutMs c <= 1800000 -> (levels <> top -> cc_TimeoutMs c = 0) ->
    (is_composite (cc_Kind c) = false -> cc_Children c = []) ->
    (is_composite (cc_Kind c) = true -> levels <> 0%nat) ->
    Forall (completion_ok top (pred levels)) (cc_Children c) ->
    completion_ok top levels c.

Lemma onlyFields_ok allowed members u key v :
  onlyFields allowed members = inr u -> (key, v) ∈ members ->
  key ∈ (["kind"; "timeout_ms"]%string ++ allowed).
Proof.
  induction members as [|[k w] members IH]; cbn [onlyFields]; [by intros _ ?%elem_of_nil|].
  intros H. parse_steps H. intros [[= -> ->]|Hin]%elem_of_cons; [|by apply IH].
  rewrite elem_of_app, !elem_of_cons. b2p. unfold KnownField in E.
  destruct E as [[E|E]|E]; [by left; left|by left; right; left|].
  right. apply existsb_elem in E as (x & Hx & E). apply String.eqb_eq in E. by subst.
Qed.

Lemma onlyFields_absent allowed object u key :
  onlyFields allowed (v_Members object) = inr u ->
  key ∉ (["kind"; "timeout_ms"]%string ++ allowed) -> has object key = false.
Proof.
  intros H Hk. unfold has, Find. destruct (negb (IsObject object)); [done|].
  destruct (find_member _ key) as [v|] eqn:E; [|done].
  apply find_member_elem in E. by destruct Hk; eapply onlyFields_ok.
Qed.

Lemma ReadString_absent object key out r :
  has object key = false -> ReadString object key out = Some r -> r = out.
Proof. unfold has, ReadString. destruct (Find object key); [done|]. by intros _ [= ->]. Qed.

Lemma ReadBool_absent object key out r :
  has object key = false -> ReadBool object key out = Some r -> r = out.
Proof. unfold has, ReadBool. destruct (Find object key); [done|]. by intros _ [= ->]. Qed.

(** The fields a completion object was read with. *)
Lemma ReadCompletion_ok n object c bossState scope :
  json_wf n object -> ReadCompletion object = inr (c, bossState, scope) ->
  0 <= cc_TimeoutMs c <= 1800000 /\ (has object "timeout_ms" = false -> cc_TimeoutMs c = 0) /\
  cc_BossIndex c <= 63 /\ cc_StopFrame c <= 8 /\
  (has object "scope" = false -> scope = ""%string) /\
  (has object "require_observed_present" = false -> cc_RequireObservedPresent c = true).
Proof.
  intros Hwf. unfold ReadCompletion. intros H. parse_steps H. injection H as <- _ <-. cbn.
  repeat match goal with
  | H : ReadUnsigned _ "timeout_ms" _ _ = Some _ |- _ =>
      pose proof (fun A => ReadUnsigned_absent _ _ _ _ _ A H); revert H
  | H : ReadString _ "scope" _ = Some _ |- _ =>
      pose proof (fun A => ReadString_absent _ _ _ _ A H); clear H
  | H : ReadBool _ "require_observed_present" _ = Some _ |- _ =>
      pose proof (fun A => ReadBool_absent _ _ _ _ A H); clear H
  end.
  intros Htimeout. bound_reads Hwf. rewrite (u32_small _) by lia. split_and!; try lia; done.
Qed.

Lemma BossStateFromName_bound name s : BossStateFromName name = Some s -> 0 <= s <= 5.
Proof. unfold BossStateFromName. repeat case_match; intros [= <-]; lia. Qed.

(** The keys a kind's checks rule out. *)
Lemma CheckKind_absent object c bossState s :
  CheckKind (v_Members object) c bossState = inr s -> cc_Kind c <> CompletionKind_None ->
  (has object "scope" = false \/
   cc_Kind c = CompletionKind_OnTransport \/ cc_Kind c = CompletionKind_VehicleSeated) /\
  (has object "require_observed_present" = false \/
   cc_Kind c = CompletionKind_GameObjectDespawned).
Proof.
  unfold CheckKind. cbv beta zeta. intros H Hn. destruct (cc_Kind c); try done;
    parse_step H; (split; [first [by right; left|by right; right|left]|first [by right|left]]);
    match goal with E : onlyFields _ _ = inr _ |- _ =>
      apply (onlyFields_absent _ _ _ _ E), (proj1 (bool_decide_eq_true (_ ∉ _)));
      by vm_compute end.
Qed.

(** The shape a kind's checks establish, whatever the scope. *)
Lemma CheckKind_kind_ok ms c bossState s scope children :
  CheckKind ms c bossState = inr s -> cc_Kind c <> CompletionKind_None ->
  cc_BossIndex c <= 63 -> cc_StopFrame c <= 8 ->
  (is_composite (cc_Kind c) = true -> (1 <= length children <= 8)%nat) ->
  kind_ok (complete_contract c s scope children).
Proof.
  unfold CheckKind, kind_ok. cbv beta zeta. cbn [complete_contract cc_Kind cc_Entry cc_SpawnId cc_SpellId
    cc_BossIndex cc_BossState cc_TransportEntry cc_TransportSpawnId cc_StopFrame
    cc_VehicleEntry cc_Children].
  intros H Hn Hb Hs Hch. destruct (cc_Kind c); try done; try (by apply Hch);
    parse_step H; parse_steps H; b2p; try done; try tauto.
  - destruct (BossStateFromName bossState) as [b|] eqn:E1; [|done].
    injection H as <-. apply BossStateFromName_bound in E1. lia.
Qed.

Lemma ParseChildren_ok (parse : Value -> Parsed CompletionContract) items acc out (P : CompletionContract -> Prop) :
  Forall (fun v => forall c, parse v = inr c -> P c) items -> Forall P acc ->
  ParseChildren parse items acc = inr out ->
  Forall P out /\ length out = (length acc + length items)%nat.
Proof.
  intros Hall. revert acc. induction Hall as [|v items Hv _ IH]; intros acc Hacc; cbn.
  - intros [= <-]. by rewrite Nat.add_0_r.
  - destruct (parse v) as [e|c] eqn:E; [by destruct (pe_Kind e)|]. intros H.
    destruct (IH _ (proj2 (Forall_app _ _ _) (conj Hacc (proj2 (Forall_singleton _ _) (Hv c eq_refl)))) H)
      as [H1 H2]. split; [done|]. rewrite H2, length_app. cbn. lia.
Qed.

Lemma ScopeFromName_ok scope r :
  ScopeFromName scope = inr r -> scope = ""%string -> r = MemberScope_All.
Proof. unfold ScopeFromName. intros H ->. by injection H. Qed.

(** A successful parse, taken apart. *)
Lemma ParseCompletion_inv levels object c : ParseCompletion levels object = inr c ->
  exists c0 bossState sc state scope children,
    ReadCompletion object = inr (c0, bossState, sc) /\
    (has object "timeout_ms" = true -> levels = 2%nat) /\
    cc_Kind c0 <> CompletionKind_None /\
    CheckKind (v_Members object) c0 bossState = inr state /\
    ScopeFromName sc = inr scope /\ c = complete_contract c0 state scope children /\
    (is_composite (cc_Kind c0) = false -> children = []) /\
    (is_composite (cc_Kind c0) = true -> exists l cs, levels = S l /\
       Find object "contracts" = Some cs /\ IsArray cs = true /\
       (1 <= length (v_Items cs) <= 8)%nat /\
       ParseChildren (ParseCompletion l) (v_Items cs) [] = inr children).
Proof.
  intros H. destruct levels as [|levels]; cbn [ParseCompletion] in H; parse_steps H;
    injection H as <-;
    match goal with E : bool_decide _ = false |- _ => apply bool_decide_eq_false in E end;
    (do 6 eexists); (split_and!; [done| |done|done|done|done| |]).
  - by destruct (has object "timeout_ms").
  - intros Hk. rewrite Hk in *. congruence.
  - intros Hk. rewrite Hk in *. done.
  - intros Ht. rewrite Ht in *. parse_steps E2.
    by apply Nat.eqb_eq, negb_false_iff.
  - intros Hk. rewrite Hk in *. congruence.
  - intros Hk. rewrite Hk in *. destruct (Find object "contracts") as [cs|]; [|done].
    parse_steps E5. exists levels, cs. b2p.
    match goal with H : (_ /\ _) /\ _ |- _ => destruct H as [[H1 H2] H3] end.
    split_and!; try done; [|lia]. destruct (v_Items cs); [done|cbn; lia].
Qed.

Lemma ParseCompletion_wf levels n object c (Hlevels : (levels <= 2)%nat)
    (Hwf : json_wf n object) (Hparse : ParseCompletion levels object = inr c) :
  completion_ok 2 levels c.
Proof.
  revert n object c Hlevels Hwf Hparse. induction levels as [levels IH] using lt_wf_ind.
  intros n object c Hlevels Hwf H.
  destruct (ParseCompletion_inv _ _ _ H) as (c0 & bs & sc & state & scope & children & Hr & Ht &
    Hn & Hk & Hs & -> & Hleaf & Hcomp).
  destruct (ReadCompletion_ok _ _ _ _ _ Hwf Hr) as (T1 & T2 & T3 & T4 & T5 & T6).
  destruct (CheckKind_absent _ _ _ _ Hk Hn) as [A1 A2].
  assert (Hch : is_composite (cc_Kind c0) = true ->
    levels <> 0%nat /\ (1 <= length children <= 8)%nat).
  { intros Hc. destruct (Hcomp Hc) as (l & cs & -> & Hf & Ha & Hlen & Hp).
    apply (ParseChildren_ok _ _ _ _ (fun _ => True)) in Hp as [_ Hp]; [|by apply Forall_true|done].
    rewrite Hp. cbn. lia. }
  apply cok; cbn; try done; try tauto.
  - apply (CheckKind_kind_ok _ _ _ _ _ _ Hk); [done|lia|lia|tauto].
  - split; cbn.
    + intros Hsc. destruct A1 as [A1|A1]; [|done]. destruct Hsc.
      eapply ScopeFromName_ok; eauto.
    + intros Hr'. destruct A2 as [A2|A2]; [|done]. rewrite T6 in Hr'; done.
  - intros Hl. apply T2. destruct (has object "timeout_ms"); [by destruct Hl; apply Ht|done].
  - destruct (is_composite (cc_Kind c0)) eqn:Hc; [|by rewrite Hleaf].
    destruct (Hcomp eq_refl) as (l & cs & -> & Hf & Ha & _ & Hp).
    destruct (Find_wf _ _ _ _ Hwf Hf) as (m & Hcs & _).
    destruct (json_wf_items _ _ Hcs Ha) as (m' & _ & Hitems).
    apply (ParseChildren_ok _ _ _ _ (completion_ok 2 l)) in Hp as [Hp _]; [done| |done].
    eapply Forall_impl; [exact Hitems|]. intros v Hv c' Hc'. eapply IH; eauto; lia.
Qed.

(** A ride the runtime may execute. *)
Record transport_ok (c : TransportContract) : Prop := {
  tok_declared : tc_Declared c = true;
  tok_target : tc_Entry c <> 0 \/ tc_SpawnId c <> 0;
  tok_board : (0 <= tc_BoardStopFrame c <= 8 /\ tc_HasBoardLevel c = false) \/
    (tc_BoardStopFrame c = -1 /\ tc_HasBoardLevel c = true);
  tok_board_point : p_Valid (tc_BoardPoint c) = true;
  tok_exit : tc_ExitStopFrame c = -1 \/
    (0 <= tc_ExitStopFrame c <= 8 /\ tc_HasExitLevel c = false);
  tok_exit_point : HasExit c = p_Valid (tc_ExitPoint c);
  tok_disembark : p_Valid (tc_DisembarkPoint c) = true -> HasExit c = true;
  tok_level : positive_up_to (f32_of_Z 10) (tc_LevelToleranceYards c) = true;
  tok_arrival : positive_up_to (f32_of_Z 10) (tc_ArrivalToleranceYards c) = true;
  tok_floor : positive_up_to (f32_of_Z 1) (tc_FloorToleranceYards c) = true;
  tok_submissions : 0 < tc_MaxSubmissions c <= 50;
  tok_timeout : 0 < tc_TimeoutMs c <= 1800000
}.

Lemma ReadSigned_absent object key out minimum maximum r :
  ReadSigned object key out minimum maximum = Some r ->
  r = out \/ is_Some (Find object key).
Proof.
  unfold ReadSigned. destruct (Find object key); [by right; eexists|]. intros [= ->]. by left.
Qed.

Lemma ReadTransport_ok n object c : json_wf n object -> ReadTransport object = inr c ->
  (tc_BoardStopFrame c = -1 \/ 0 <= tc_BoardStopFrame c <= 8) /\
  (tc_ExitStopFrame c = -1 \/ 0 <= tc_ExitStopFrame c <= 8) /\
  0 <= tc_MaxSubmissions c <= 50 /\ 0 <= tc_TimeoutMs c <= 1800000.
Proof.
  intros Hwf. unfold ReadTransport. cbv zeta. intros H. parse_steps H. injection H as <-. cbn.
  repeat match goal with
  | H : ReadSigned _ _ _ _ _ = Some _ |- _ =>
      pose proof (ReadSigned_absent _ _ _ _ _ _ H);
      apply (ReadSigned_bound _ _ _ _ _ _ _ Hwf) in H;
        [|by vm_compute|by right|cbn; lia]
  end.
  bound_reads Hwf. rewrite !u32_small by lia. intuition lia.
Qed.

Lemma CheckTransport_ok c u : CheckTransport c = inr u ->
  (tc_BoardStopFrame c = -1 \/ 0 <= tc_BoardStopFrame c <= 8) ->
  (tc_ExitStopFrame c = -1 \/ 0 <= tc_ExitStopFrame c <= 8) ->
  0 <= tc_MaxSubmissions c <= 50 -> 0 <= tc_TimeoutMs c <= 1800000 ->
  transport_ok (set_TransportDeclared c).
Proof.
  unfold CheckTransport. intros H Hb He Hs Ht. parse_steps H.
  apply Bool.eqb_false_iff in E0. unfold HasExit in *. b2p.
  repeat match goal with
  | H : _ /\ _ |- _ => destruct H
  | H : Bool.eqb _ _ = true |- _ => apply Bool.eqb_prop in H
  end.
  split; cbn; unfold HasExit; cbn; try done; try lia; try tauto.
  - destruct (0 <=? tc_BoardStopFrame c) eqn:Eb, (tc_HasBoardLevel c); try done; b2p;
      [left|right]; (split; [lia|done]).
  - destruct He as [He|He]; [by left|]. right. split; [done|]. destruct E1; [lia|done].
  - intros Hd. b2p. destruct H8 as [H8|H8]; [congruence|done].
Qed.

Lemma ParseTransport_wf n object c (Hwf : json_wf n object)
    (Hparse : ParseTransport object = inr c) : transport_ok c.
Proof.
  revert Hparse. unfold ParseTransport. intros H. parse_steps H. injection H as <-.
  destruct (ReadTransport_ok _ _ _ Hwf E1) as (H1 & H2 & H3 & H4).
  by eapply CheckTransport_ok.
Qed.

Lemma ParseObjectText_wf text object :
  ParseObjectText text = inr object -> json_wf (S MaxDepth) object.
Proof.
  unfold ParseObjectText, Parse.
  destruct (ParseValue _ _) as [[]|[v r]] eqn:E; [done|done|].
  destruct (str_empty _); cbn; [|done]. destruct (IsObject v); [|done]. intros [= <-].
  by eapply ParseValue_wf.
Qed.

(** Interaction contracts are fail-closed: one parsed from a text
    has a known action,
    a positive bounded timeout, attempt count and retry interval, exactly one
    kind of target that fits its action, gossip menus exactly when the action
    is gossip and without repeats, a valid seat, and a consistent owner and
    backup. *)
Theorem ParseInteraction_ok text object c (Htext : ParseObjectText text = inr object)
    (Hparse : ParseInteraction object = inr c) : interaction_ok c.
Proof. eapply ParseInteraction_wf; [by eapply ParseObjectText_wf|done]. Qed.

(** Completion contracts are fail-closed: one parsed from a text
    has a known kind
    with the fields that kind needs, a member scope or an observation waiver
    only where they apply, one to eight children exactly when it is composite,
    at most two levels of composites, and a timeout only at the top. *)
Theorem ParseCompletion_ok text object c (Htext : ParseObjectText text = inr object)
    (Hparse : ParseCompletion 2 object = inr c) : completion_ok 2 2 c.
Proof. eapply ParseCompletion_wf; [done|by eapply ParseObjectText_wf|done]. Qed.

(** Transport contracts are fail-closed: one parsed from a text names its
    platform, boards at exactly one of a stop frame and a level, leaves at no
    more than one of them, has an exit point exactly when it has an exit and a
    disembark point only then, tolerances within their caps, and positive
    bounded submissions and timeout. *)
Theorem ParseTransport_ok text object c (Htext : ParseObjectText text = inr object)
    (Hparse : ParseTransport object = inr c) : transport_ok c.
Proof. eapply ParseTransport_wf; [by eapply ParseObjectText_wf|done]. Qed.

(** Node shapes: a node is accepted exactly when it carries a transport
    contract if and only if its kind is transport, an interaction only under the
    interaction kind and with a completion that proves it, an interaction kind
    with some contract, and an owner scope only with an interaction to own. *)
Theorem ValidateNodeShape_spec kind i c t :
  ValidateNodeShape kind i c t = inr () <->
  (tc_Declared t = true <-> kind = "transport"%string) /\
  (ic_Declared i = true -> kind = "interaction"%string /\ cc_Declared c = true) /\
  (kind = "interaction"%string -> ic_Declared i = true \/ cc_Declared c = true) /\
  (cc_Declared c = true -> UsesOwnerScope c = true -> ic_Declared i = true).
Proof.
  unfold ValidateNodeShape.
  destruct (String.eqb_spec kind "transport") as [->|Ht];
    [|destruct (String.eqb_spec kind "interaction") as [->|Hi]];
    destruct (tc_Declared t), (ic_Declared i), (cc_Declared c), (UsesOwnerScope c);
    cbn; try (change (String.eqb "transport" "interaction") with false); cbn;
    rewrite ?(proj2 (String.eqb_neq _ _) Hi); cbn; intuition (congruence || discriminate).
Qed.

(** ** Witnesses *)

(** A JSON object text from its keys and the texts of their values. *)
Definition quoted (s : string) : string := (String "034" (s ++ String "034" ""))%string.

Fixpoint object_text (members : list (string * string)) : string :=
  match members with
  | [] => ""
  | [(k, v)] => (quoted k ++ ":" ++ v)%string
  | (k, v) :: rest => (quoted k ++ ":" ++ v ++ "," ++ object_text rest)%string
  end.

Definition sample_interaction_text : string :=
  ("{" ++ object_text
    [("action", quoted "gameobject_use"); ("entry", "202234"); ("max_attempts", "3");
     ("owner_role", quoted "tank"); ("retry_interval_ms", "1500"); ("timeout_ms", "60000")]
   ++ "}")%string.

Definition sample_completion_text : string :=
  ("{" ++ object_text
    [("kind", quoted "any_of");
     ("contracts", "[{" ++ object_text [("kind", quoted "gameobject_despawned");
        ("spawn_id", "77")] ++ "},{" ++ object_text [("kind", quoted "vehicle_seated");
        ("scope", quoted "any"); ("vehicle_entry", "40305")] ++ "}]")]
   ++ "}")%string.

Definition sample_transport_text : string :=
  ("{" ++ object_text
    [("board_point", "[1.5, -2, 30]"); ("board_stop_frame", "0"); ("entry", "207834");
     ("timeout_ms", "600000")] ++ "}")%string.

(** The object and the contract a text parses to. *)
Definition parsed_object (text : string) : Value :=
  match ParseObjectText text with inr o => o | inl _ => Value_default end.

Definition parsed {A} (d : A) (parse : Value -> Parsed A) (text : string) : A :=
  match parse (parsed_object text) with inr c => c | inl _ => d end.

Definition sample_parsed_interaction : InteractionContract :=
  parsed InteractionContract_default ParseInteraction sample_interaction_text.
Definition sample_parsed_completion : CompletionContract :=
  parsed CompletionContract_default (ParseCompletion 2) sample_completion_text.
Definition sample_parsed_transport : TransportContract :=
  parsed TransportContract_default ParseTransport sample_transport_text.

Example ParseInteraction_ok_witness :
  ic_MaxAttempts sample_parsed_interaction = 3 /\ interaction_ok sample_parsed_interaction.
Proof.
  split; [vm_compute; reflexivity|].
  apply (ParseInteraction_ok sample_interaction_text (parsed_object sample_interaction_text));
    vm_compute; reflexivity.
Defined.

Example ParseCompletion_ok_witness :
  length (cc_Children sample_parsed_completion) = 2%nat /\
  completion_ok 2 2 sample_parsed_completion.
Proof.
  split; [vm_compute; reflexivity|].
  apply (ParseCompletion_ok sample_completion_text (parsed_object sample_completion_text));
    vm_compute; reflexivity.
Defined.

Example ParseTransport_ok_witness :
  tc_MaxSubmissions sample_parsed_transport = 5 /\ transport_ok sample_parsed_transport.
Proof.
  split; [vm_compute; reflexivity|].
  apply (ParseTransport_ok sample_transport_text (parsed_object sample_transport_text));
    vm_compute; reflexivity.
Defined.
