(* ===== verification/LockoutPlan.v ===== *)
(** Seeded raid lockouts, planning: [Bots/BotRaidLockoutPlan.h] (definitions,
    their validation, predecessor graphs and the plan for a set of bosses). *)
From S2P Require Import Prelude RouteInteraction RouteCompletion.
From Stdlib Require Import ZArith Lia String Ascii Sorting.
From stdpp Require Import base gmap list strings sorting relations.

Open Scope Z_scope.
Open Scope tc_scope.

(** ** Data *)

Definition StateNotStarted : Z := 0.
Definition StateInProgress : Z := 1.
Definition StateFail : Z := 2.
Definition StateDone : Z := 3.
Definition StateSpecial : Z := 4.
Definition StateToBeDecided : Z := 5.

Definition SchemaVersion : string := "raid_prerequisites_v1".
Definition MaxRaidDifficulty : Z := 4.
Definition MaxEncounterCount : Z := 32.

Inductive SaveExtraEncoding : Type := SaveExtraEncoding_RawUint8.

Record SaveExtraDefinition : Type := mkSaveExtra {
  se_Name : string; se_Encoding : SaveExtraEncoding; se_Default : Z }.

Record BossDefinition : Type := mkBoss {
  bd_Key : string;
  bd_Name : string;
  bd_BossIndex : Z;
  bd_CreatureEntry : Z;
  bd_CreditEntry : Z;
  bd_DungeonEncounterId : Z;
  bd_DungeonEncounterIdByDifficulty : gmap Z Z;
  bd_DungeonEncounterBit : Z;
  bd_Predecessors : list string;
  bd_ExtraSaveValues : gmap string Z;
  bd_DeadDbSpawnEntriesKnown : bool;
  bd_DeadDbSpawnEntries : list Z;
  bd_SummonedEntries : list Z;
  bd_Difficulties : list Z
}.

Record DoorReadback : Type := mkDoor { dr_Entry : Z; dr_OpenWhenDone : list string }.

Record SpawnFact : Type := mkSpawnFact {
  sf_SpawnId : Z; sf_Entry : Z; sf_SpawnMask : Z; sf_ManualSpawnGroup : bool }.

Record RespawnRow : Type := mkRespawnRow { rr_SpawnId : Z; rr_Entry : Z }.

Record RaidDefinition : Type := mkRaid {
  rd_Schema : string;
  rd_Raid : string;
  rd_MapId : Z;
  rd_ScriptName : string;
  rd_ScriptHeader : string;
  rd_InitialBossState : Z;
  rd_Difficulties : list Z;
  rd_EncounterCount : gmap Z Z;
  rd_Bosses : list BossDefinition;
  rd_SaveExtras : list SaveExtraDefinition;
  rd_ReadbackDoors : list DoorReadback
}.

Record SeedPlan : Type := mkSeedPlan {
  sp_Difficulty : Z;
  sp_EncounterCount : Z;
  sp_BossStates : list Z;
  sp_BossesDone : list string;
  sp_BossIndicesDone : list Z;
  sp_CompletedEncounterMask : Z;
  sp_ExtraValues : list (string * Z);
  sp_SaveData : string;
  sp_DeadDbSpawns : list (string * Z);
  sp_SummonedEntries : list (string * Z)
}.

(** ** Keys and lists *)

(** [A-Za-z] in the C locale, and the character classes of the checks. *)
Definition char_in (lo hi : nat) (c : ascii) : bool :=
  (lo <=? nat_of_ascii c)%nat && (nat_of_ascii c <=? hi)%nat.

Definition is_lower : ascii -> bool := char_in 97 122.
Definition is_upper : ascii -> bool := char_in 65 90.
Definition is_decimal : ascii -> bool := char_in 48 57.
Definition isalpha (c : ascii) : bool := is_lower c || is_upper c.

(** [std::tolower]. *)
Definition tolower (c : ascii) : ascii :=
  if is_upper c then ascii_of_nat (nat_of_ascii c + 32) else c.

Fixpoint string_map (f : ascii -> ascii) (s : string) : string :=
  match s with EmptyString => EmptyString | String c s => String (f c) (string_map f s) end.

Fixpoint string_all (p : ascii -> bool) (s : string) : bool :=
  match s with EmptyString => true | String c s => p c && string_all p s end.

Fixpoint string_any (p : ascii -> bool) (s : string) : bool :=
  match s with EmptyString => false | String c s => p c || string_any p s end.

Definition ParseDifficulty (token : string) : option Z :=
  let lowered := string_map tolower token in
  if String.eqb lowered "10n" || String.eqb lowered "0" then Some 0
  else if String.eqb lowered "25n" || String.eqb lowered "1" then Some 1
  else if String.eqb lowered "10h" || String.eqb lowered "2" then Some 2
  else if String.eqb lowered "25h" || String.eqb lowered "3" then Some 3
  else None.

Definition DifficultyToken (difficulty : Z) : string :=
  if difficulty =? 0 then "10n" else if difficulty =? 1 then "25n"
  else if difficulty =? 2 then "10h" else if difficulty =? 3 then "25h" else "".

Definition IsValidCohortId (cohortId : string) : bool :=
  negb (str_empty cohortId) && (Z.of_nat (String.length cohortId) <=? 64)
  && string_all (fun c => is_lower c || is_upper c || is_decimal c
       || Ascii.eqb c "." || Ascii.eqb c "_" || Ascii.eqb c "-") cohortId.

Definition IsValidKey (key : string) : bool :=
  negb (str_empty key) && (Z.of_nat (String.length key) <=? 64)
  && string_all (fun c => is_lower c || is_decimal c || Ascii.eqb c "_") key.

(** The items [std::getline] delivers for the separator [','] until the stream
    fails: a final empty item is not delivered. *)
Fixpoint getlines (current : string) (text : string) : list string :=
  match text with
  | EmptyString => if str_empty current then [] else [current]
  | String c rest =>
      if Ascii.eqb c "," then current :: getlines "" rest
      else getlines (current ++ String c "") rest
  end.

Fixpoint last_char (text : string) : option ascii :=
  match text with
  | EmptyString => None
  | String c EmptyString => Some c
  | String _ rest => last_char rest
  end.

(** The loop of [ParseBossList]: the keys read so far are also the seen set. *)
Fixpoint ParseBossItems (items keys : list string) : string + list string :=
  match items with
  | [] => inr keys
  | item :: rest =>
      if negb (IsValidKey item) then inl ("invalid_boss_key:" ++ item)%string
      else if bool_decide (item ∈ keys) then inl ("duplicate_boss:" ++ item)%string
      else ParseBossItems rest (keys ++ [item])
  end.

Definition ParseBossList (text : string) : string + list string :=
  if String.eqb text "none" then inr []
  else if str_empty text then inl "boss_list_required"%string
  else match ParseBossItems (getlines "" text) [] with
  | inl e => inl e
  | inr keys =>
      if bool_decide (last_char text = Some ","%char) then inl "invalid_boss_key:"%string
      else inr keys
  end.

(** ** Bosses and predecessors *)

Definition FindBoss (def : RaidDefinition) (key : string) : option BossDefinition :=
  List.find (fun boss => String.eqb (bd_Key boss) key) (rd_Bosses def).

Definition BossAvailableOn (boss : BossDefinition) (difficulty : Z) : bool :=
  match bd_Difficulties boss with [] => true | ds => mem_Z difficulty ds end.

Definition DungeonEncounterIdFor (boss : BossDefinition) (difficulty : Z) : Z :=
  match bd_DungeonEncounterIdByDifficulty boss !! difficulty with
  | Some id => id
  | None => bd_DungeonEncounterId boss
  end.

Definition predecessors_of (def : RaidDefinition) (key : string) : list string :=
  match FindBoss def key with Some boss => bd_Predecessors boss | None => [] end.

(** The loop of [PredecessorClosure]; [pending] has the vector's back first.
    [None] when the fuel runs out. *)
Fixpoint closure_loop (fuel : nat) (def : RaidDefinition) (key : string)
    (closure : gset string) (pending : list string) : option (gset string) :=
  match fuel with
  | O => None
  | S fuel =>
      match pending with
      | [] => Some closure
      | next :: pending =>
          if String.eqb next key || bool_decide (next ∈ closure)
          then closure_loop fuel def key closure pending
          else closure_loop fuel def key ({[next]} ∪ closure)
                 (rev (predecessors_of def next) ++ pending)
      end
  end.

(** Every boss's predecessors are pushed at most once, the first ones twice. *)
Definition closure_fuel (def : RaidDefinition) (key : string) : nat :=
  S (length (predecessors_of def key)
     + sum_list (map (fun b => length (bd_Predecessors b)) (rd_Bosses def))).

Definition PredecessorClosure (def : RaidDefinition) (key : string) : option (gset string) :=
  closure_loop (closure_fuel def key) def key ∅ (rev (predecessors_of def key)).

(** [color]: absent or 0 unvisited, 1 on stack, 2 finished. *)
Definition mark_of (color : gmap string Z) (key : string) : Z := default 0 (color !! key).

(** The key found on the stack, when there is one, and the colors left. *)
Definition VisitResult : Type := option (option string * gmap string Z).

Section Visit.
Context (visit : gmap string Z -> string -> VisitResult).

(** The loop over a boss's predecessors. *)
Fixpoint visit_all (color : gmap string Z) (keys : list string) : VisitResult :=
  match keys with
  | [] => Some (None, color)
  | key :: rest =>
      match visit color key with
      | None => None
      | Some (Some cycle, color) => Some (Some cycle, color)
      | Some (None, color) => visit_all color rest
      end
  end.

End Visit.

(** The [visit] lambda; [None] when the fuel, the depth of the stack, runs out. *)
Fixpoint visit (fuel : nat) (def : RaidDefinition) (color : gmap string Z) (key : string)
    : VisitResult :=
  match fuel with
  | O => None
  | S fuel =>
      if mark_of color key =? 1 then Some (Some key, color)
      else if mark_of color key =? 2 then Some (None, color)
      else match visit_all (visit fuel def) (<[key := 1]> color) (predecessors_of def key) with
      | Some (None, color) => Some (None, <[key := 2]> color)
      | r => r
      end
  end.

Definition visit_fuel (def : RaidDefinition) : nat := (length (rd_Bosses def) + 2)%nat.

(** The cycle key when there is a cycle. *)
Definition HasPredecessorCycle (def : RaidDefinition) : option (option string) :=
  match visit_all (visit (visit_fuel def) def) ∅ (map bd_Key (rd_Bosses def)) with
  | Some (cycle, _) => Some cycle
  | None => None
  end.

(** A raw byte read back with [>>] must not be whitespace. *)
Definition RawByteRoundTrips (value : Z) : bool :=
  (value <=? 255) && negb ((value =? 32) || ((9 <=? value) && (value <=? 13))).
