(* ===== verification/LockoutGraph.v ===== *)
(** Predecessor graphs of raid definitions: the closure and the cycle search of
    [Bots/BotRaidLockoutPlan.h] against reachability. *)
From S2P Require Import Prelude LockoutPlan.
From Stdlib Require Import ZArith Lia String Ascii.
From stdpp Require Import base gmap list strings relations.

Open Scope Z_scope.
Open Scope tc_scope.

Section Graph.
Context (def : RaidDefinition).

(** [b] is a direct predecessor of [a], and a predecessor at any distance. *)
Definition edge (a b : string) : Prop := b ∈ predecessors_of def a.
Definition reach : string -> string -> Prop := tc edge.

(** ** Closure *)

(** What the unvisited bosses can still push. *)
Definition unvisited (closure : gset string) (bosses : list BossDefinition) : nat :=
  sum_list (map (fun b => if bool_decide (bd_Key b ∈ closure) then 0%nat
                          else length (bd_Predecessors b)) bosses).

Lemma unvisited_mono closure closure' bosses :
  closure ⊆ closure' -> (unvisited closure' bosses <= unvisited closure bosses)%nat.
Proof.
  intros H. unfold unvisited. induction bosses as [|b bosses IH]; cbn; [done|].
  destruct (decide (bd_Key b ∈ closure)) as [Hb|Hb].
  - rewrite !bool_decide_eq_true_2 by set_solver. done.
  - rewrite (bool_decide_eq_false_2 _ Hb). case_bool_decide; lia.
Qed.

Lemma unvisited_visit closure next bosses :
  next ∉ closure ->
  (unvisited ({[next]} ∪ closure) bosses +
   match List.find (fun b => String.eqb (bd_Key b) next) bosses with
   | Some b => length (bd_Predecessors b) | None => 0 end <= unvisited closure bosses)%nat.
Proof.
  intros Hn. induction bosses as [|b bosses IH]; cbn; [done|].
  pose proof (unvisited_mono closure ({[next]} ∪ closure) bosses ltac:(set_solver)) as Hm.
  fold (unvisited closure bosses) (unvisited ({[next]} ∪ closure) bosses).
  destruct (String.eqb_spec (bd_Key b) next) as [->|E].
  - rewrite bool_decide_eq_true_2 by set_solver. rewrite bool_decide_eq_false_2 by done. lia.
  - destruct (decide (bd_Key b ∈ closure)) as [Hb|Hb].
    + rewrite !bool_decide_eq_true_2 by set_solver. lia.
    + rewrite !bool_decide_eq_false_2 by set_solver. lia.
Qed.

(** The closure and the stack of the loop, part way. *)
Record closure_inv (key : string) (closure : gset string) (pending : list string) : Prop := {
  ci_key : key ∉ closure;
  ci_closure : forall k, k ∈ closure -> reach key k;
  ci_pending : forall k, k ∈ pending -> reach key k;
  ci_succ : forall a b, a = key \/ a ∈ closure -> edge a b ->
    b = key \/ b ∈ closure \/ b ∈ pending
}.

Lemma closure_loop_spec fuel key closure pending :
  closure_inv key closure pending ->
  (length pending + unvisited closure (rd_Bosses def) < fuel)%nat ->
  exists result, closure_loop fuel def key closure pending = Some result /\
    closure_inv key result [].
Proof.
  revert closure pending. induction fuel as [|fuel IH]; intros closure pending Hinv Hf; [lia|].
  destruct Hinv as [H1 H2 H3 H4]. destruct pending as [|next pending]; cbn [closure_loop].
  { by exists closure. }
  assert (Hn : reach key next) by (apply H3, list_elem_of_here).
  destruct (String.eqb_spec next key) as [->|E]; cbn [orb].
  - apply IH; [|cbn in Hf; lia]. split; [done|done|intros k Hk; apply H3; by right|].
    intros a b Ha Hab. destruct (H4 a b Ha Hab) as [|[|[->|]%elem_of_cons]]; auto.
  - case_bool_decide as Hc.
    + apply IH; [|cbn in Hf; lia]. split; [done|done|intros k Hk; apply H3; by right|].
      intros a b Ha Hab. destruct (H4 a b Ha Hab) as [|[|[->|]%elem_of_cons]]; auto.
    + apply IH.
      * split.
        -- set_solver.
        -- intros k [->%elem_of_singleton|Hk]%elem_of_union; auto.
        -- intros k. rewrite elem_of_app, elem_of_rev. intros [Hk|Hk]; [|apply H3; by right].
           eapply tc_r; [exact Hn|exact Hk].
        -- intros a b [->|[->%elem_of_singleton|Ha]%elem_of_union] Hab.
           ++ destruct (H4 key b (or_introl eq_refl) Hab) as [|[|[->|]%elem_of_cons]];
                rewrite ?elem_of_app; set_solver.
           ++ right; right. rewrite elem_of_app, elem_of_rev. by left.
           ++ destruct (H4 a b (or_intror Ha) Hab) as [|[|[->|]%elem_of_cons]];
                rewrite ?elem_of_app; set_solver.
      * pose proof (unvisited_visit closure next (rd_Bosses def) Hc) as Hu.
        rewrite length_app, length_rev. unfold predecessors_of, FindBoss.
        cbn in Hf. destruct (List.find _ (rd_Bosses def)); cbn in *; lia.
Qed.

(** C29. The predecessor closure terminates and is exactly the set of keys
    reachable from the boss over predecessor edges, the boss itself excluded,
    even when the definition has cycles. *)
Theorem PredecessorClosure_spec key :
  exists closure, PredecessorClosure def key = Some closure /\
    forall k, k ∈ closure <-> k <> key /\ reach key k.
Proof.
  destruct (closure_loop_spec (closure_fuel def key) key ∅ (rev (predecessors_of def key)))
    as (closure & Hc & [H1 H2 _ H4]).
  - split; [set_solver|set_solver| |].
    + intros k. rewrite elem_of_rev. intros Hk. by apply tc_once.
    + intros a b [->|Ha] Hab; [|set_solver]. right; right. by apply elem_of_rev.
  - unfold closure_fuel, unvisited. rewrite length_rev.
    assert (forall l : list BossDefinition, sum_list (map (fun b =>
      if bool_decide (bd_Key b ∈ (∅ : gset string)) then 0%nat else length (bd_Predecessors b)) l)
      = sum_list (map (fun b => length (bd_Predecessors b)) l)) as ->; [by intros l; f_equal|lia].
  - exists closure. split; [exact Hc|]. intros k. split; [intros Hk; split; [set_solver|auto]|].
    intros [Hne Hr].
    assert (Hall : forall a b, (a = key \/ a ∈ closure) -> tc edge a b -> b = key \/ b ∈ closure).
    { intros a b Ha Hab. induction Hab as [a b Hab|a b c Hab _ IH].
      - destruct (H4 a b Ha Hab) as [|[|[]%elem_of_nil]]; auto.
      - apply IH. destruct (H4 a b Ha Hab) as [|[|[]%elem_of_nil]]; auto. }
    by destruct (Hall key k (or_introl eq_refl) Hr).
Qed.

(** ** Cycles *)

(** Bosses whose key is not marked yet. *)
Definition unmarked (color : gmap string Z) : nat :=
  length (List.filter (fun b => mark_of color (bd_Key b) =? 0) (rd_Bosses def)).

Definition marks_grow (color color' : gmap string Z) : Prop :=
  forall k, mark_of color k <> 0 -> mark_of color' k <> 0.

Lemma unmarked_mono color color' :
  marks_grow color color' -> (unmarked color' <= unmarked color)%nat.
Proof.
  intros H. unfold unmarked. induction (rd_Bosses def) as [|b l IH]; cbn; [done|].
  destruct (mark_of color (bd_Key b) =? 0) eqn:E1, (mark_of color' (bd_Key b) =? 0) eqn:E2;
    cbn; b2p; try lia. by destruct (H _ E1).
Qed.

Lemma mark_of_insert color k v x :
  mark_of (<[k := v]> color) x = if String.eqb k x then v else mark_of color x.
Proof.
  unfold mark_of. destruct (String.eqb_spec k x) as [->|E].
  - by rewrite lookup_insert_eq.
  - by rewrite lookup_insert_ne.
Qed.

Lemma unmarked_visit color key b :
  FindBoss def key = Some b -> mark_of color key = 0 ->
  (unmarked (<[key := 1%Z]> color) < unmarked color)%nat.
Proof.
  unfold FindBoss. intros [Hin Hk]%find_some Hm. apply String.eqb_eq in Hk.
  assert (Hgrow : marks_grow color (<[key := 1%Z]> color)).
  { intros k Hk'. rewrite mark_of_insert. by destruct (String.eqb _ _). }
  unfold unmarked. induction (rd_Bosses def) as [|b' l IH]; [done|].
  assert (Hle : (length (List.filter (fun b => (mark_of (<[key := 1%Z]> color) (bd_Key b) =? 0)%Z) l)
    <= length (List.filter (fun b => (mark_of color (bd_Key b) =? 0)%Z) l))%nat).
  { clear -Hgrow. induction l as [|x l IH]; cbn; [done|].
    destruct (mark_of color (bd_Key x) =? 0) eqn:E1,
      (mark_of (<[key:=1]> color) (bd_Key x) =? 0) eqn:E2; cbn; b2p; try lia.
    by destruct (Hgrow _ E1). }
  destruct Hin as [->|Hin]; cbn [List.filter].
  - rewrite mark_of_insert, Hk, String.eqb_refl, Hm. cbn. lia.
  - specialize (IH Hin). rewrite mark_of_insert.
    destruct (String.eqb_spec key (bd_Key b')) as [<-|E]; [rewrite Hm; cbn; lia|].
    destruct (mark_of color (bd_Key b') =? 0); cbn; lia.
Qed.

(** Finished keys are closed under predecessors and lie on no cycle. *)
Definition color_inv (color : gmap string Z) : Prop :=
  (forall k, mark_of color k = 0 \/ mark_of color k = 1 \/ mark_of color k = 2) /\
  (forall a b, mark_of color a = 2 -> edge a b -> mark_of color b = 2) /\
  (forall k, mark_of color k = 2 -> ~ reach k k).

(** Every key on the stack reaches [key]. *)
Definition stack_reaches (color : gmap string Z) (key : string) : Prop :=
  forall g, mark_of color g = 1 -> reach g key.

(** The outcome of a visit: a key on a cycle, or the same stack and more
    finished keys, [keys] among them. *)
Definition visited (color : gmap string Z) (keys : list string) (r : VisitResult) : Prop :=
  match r with
  | None => False
  | Some (Some cycle, _) => reach cycle cycle
  | Some (None, color') =>
      color_inv color' /\ marks_grow color color' /\
      (forall k, mark_of color' k = 1 <-> mark_of color k = 1) /\
      (forall k, mark_of color k = 2 -> mark_of color' k = 2) /\
      Forall (fun k => mark_of color' k = 2) keys
  end.

Lemma visited_same color keys :
  color_inv color -> Forall (fun k => mark_of color k = 2) keys ->
  visited color keys (Some (None, color)).
Proof. intros H1 H2. cbn. split; [done|]. split; [by intros k|]. done. Qed.

Lemma visit_all_visited (f : gmap string Z -> string -> VisitResult) n keys color :
  (forall color key, color_inv color -> stack_reaches color key -> (unmarked color <= n)%nat ->
     visited color [key] (f color key)) ->
  color_inv color -> Forall (stack_reaches color) keys -> (unmarked color <= n)%nat ->
  visited color keys (visit_all f color keys).
Proof.
  intros Hf. revert color. induction keys as [|key keys IH]; intros color Hinv Hst Hn;
    cbn [visit_all].
  { by apply visited_same. }
  inversion Hst as [|? ? Hk Hks]; subst. specialize (Hf color key Hinv Hk Hn).
  destruct (f color key) as [[[cycle|] color']|]; cbn in Hf; [done| |done].
  destruct Hf as (I1 & I2 & I3 & I4 & I5). inversion I5 as [|? ? I6 _]; subst.
  assert (Hst' : Forall (stack_reaches color') keys).
  { eapply Forall_impl; [exact Hks|]. intros k Hk' g Hg. apply Hk'. by apply I3. }
  pose proof (unmarked_mono _ _ I2).
  specialize (IH color' I1 Hst' ltac:(lia)).
  destruct (visit_all f color' keys) as [[[cycle|] color'']|]; cbn in *; [done| |done].
  destruct IH as (J1 & J2 & J3 & J4 & J5). split_and!; [done| | | |].
  - intros k Hk'. by apply J2, I2.
  - intros k. by rewrite J3, I3.
  - intros k Hk'. by apply J4, I4.
  - constructor; [by apply J4|done].
Qed.

Lemma reach_closed color a b :
  color_inv color -> mark_of color a = 2 -> reach a b -> mark_of color b = 2.
Proof.
  intros (_ & Hc & _) Ha Hr. induction Hr as [a b Hab|a b c Hab _ IH]; eauto.
Qed.

Lemma gray_inv color key : color_inv color -> mark_of color key = 0 -> color_inv (<[key := 1]> color).
Proof.
  intros (M1 & M2 & M3) E0. split_and!.
  - intros k. rewrite mark_of_insert. destruct (String.eqb key k); [lia|apply M1].
  - intros a b. rewrite !mark_of_insert. destruct (String.eqb_spec key a) as [<-|Ea]; [done|].
    intros Ha Hab. destruct (String.eqb_spec key b) as [<-|Eb]; [|by eapply M2].
    rewrite (M2 a key Ha Hab) in E0. done.
  - intros k. rewrite mark_of_insert. destruct (String.eqb key k); [done|apply M3].
Qed.

Lemma black_inv key color : color_inv color -> mark_of color key = 1 ->
  (forall p, edge key p -> mark_of color p = 2) -> color_inv (<[key := 2]> color).
Proof.
  intros V1 Hkey V5. pose proof V1 as (W1 & W2 & W3). split_and!.
  - intros k. rewrite mark_of_insert. destruct (String.eqb key k); [lia|apply W1].
  - intros a b. rewrite !mark_of_insert. destruct (String.eqb_spec key b) as [<-|Eb]; [done|].
    destruct (String.eqb_spec key a) as [<-|Ea]; intros Ha Hab; [by apply V5|by eapply W2].
  - intros k. rewrite mark_of_insert. destruct (String.eqb_spec key k) as [<-|Ek]; [|by apply W3].
    intros _ Hr. assert (exists p, edge key p /\ (p = key \/ reach p key)) as (p & Hp & Hpk).
    { inversion Hr; subst; eauto. }
    specialize (V5 p Hp). destruct Hpk as [->|Hpk]; [lia|].
    rewrite (reach_closed _ _ _ V1 V5 Hpk) in Hkey. done.
Qed.

(** A key whose predecessors were all visited is marked as done. *)
Lemma blacken color key color' : mark_of color key = 0 ->
  visited (<[key := 1]> color) (predecessors_of def key) (Some (None, color')) ->
  visited color [key] (Some (None, <[key := 2]> color')).
Proof.
  intros E0 (V1 & V2 & V3 & V4 & V5). rewrite Forall_forall in V5.
  assert (Hkey : mark_of color' key = 1) by (apply V3; by rewrite mark_of_insert, String.eqb_refl).
  split_and!; [by apply black_inv| | | |].
  - intros k Hk. rewrite mark_of_insert. destruct (String.eqb key k) eqn:Ek; [done|].
    apply V2. rewrite mark_of_insert. by rewrite Ek.
  - intros k. rewrite mark_of_insert. destruct (String.eqb_spec key k) as [<-|Ek].
    + rewrite E0. done.
    + rewrite V3, mark_of_insert. by destruct (String.eqb_spec key k).
  - intros k Hk. rewrite mark_of_insert. destruct (String.eqb_spec key k) as [<-|Ek]; [done|].
    apply V4. rewrite mark_of_insert. by destruct (String.eqb_spec key k).
  - apply Forall_singleton. by rewrite mark_of_insert, String.eqb_refl.
Qed.

Lemma visit_visited fuel color key :
  color_inv color -> stack_reaches color key -> (unmarked color + 1 < fuel)%nat ->
  visited color [key] (visit fuel def color key).
Proof.
  revert color key. induction fuel as [|fuel IH]; intros color key Hinv Hst Hf; [lia|].
  cbn [visit]. destruct (mark_of color key =? 1) eqn:E1; b2p; [by apply Hst|].
  destruct (mark_of color key =? 2) eqn:E2; b2p.
  { apply visited_same; [done|]. by apply Forall_singleton. }
  assert (E0 : mark_of color key = 0) by (destruct (proj1 Hinv key); lia).
  set (gray := <[key := 1]> color). pose proof (gray_inv color key Hinv E0) as Hginv. fold gray in Hginv.
  assert (Hpre : forall g k, mark_of gray g = 1 -> edge key k -> reach g k).
  { intros g k. unfold gray. rewrite mark_of_insert. destruct (String.eqb_spec key g) as [<-|Eg]; intros Hg Hk.
    - by apply tc_once.
    - eapply tc_r; [by apply Hst|exact Hk]. }
  assert (Hvis : visited gray (predecessors_of def key)
                   (visit_all (visit fuel def) gray (predecessors_of def key))).
  { destruct (FindBoss def key) as [b|] eqn:Eb.
    - pose proof (unmarked_visit color key b Eb E0) as Hu. fold gray in Hu.
      apply (visit_all_visited _ (unmarked gray)); [|done| |lia].
      + intros c k Hc Hk Hle. apply IH; [done|done|lia].
      + apply Forall_forall. intros k Hk g Hg. by apply Hpre.
    - unfold predecessors_of. rewrite Eb. apply visited_same; [done|]. by apply Forall_nil_2. }
  fold gray. destruct (visit_all _ gray _) as [[[cycle|] color']|]; [done| |done].
  by apply blacken.
Qed.

Lemma HasPredecessorCycle_result :
  exists result, HasPredecessorCycle def = Some result /\
  match result with
  | Some key => reach key key
  | None => forall boss key, boss ∈ rd_Bosses def ->
      bd_Key boss = key \/ reach (bd_Key boss) key -> ~ reach key key
  end.
Proof.
  unfold HasPredecessorCycle.
  assert (Hempty : forall k, mark_of ∅ k = 0) by (intros k; reflexivity).
  pose proof (visit_all_visited (visit (visit_fuel def) def) (unmarked ∅)
    (map bd_Key (rd_Bosses def)) ∅) as H.
  assert (Hlen : (unmarked ∅ <= length (rd_Bosses def))%nat).
  { unfold unmarked. apply List.filter_length_le. }
  assert (Hv : visited ∅ (map bd_Key (rd_Bosses def))
     (visit_all (visit (visit_fuel def) def) ∅ (map bd_Key (rd_Bosses def)))).
  { apply H; [| | |done].
    - intros c k Hc Hk Hle. apply visit_visited; [done..|]. unfold visit_fuel. lia.
    - split; [by left|]. split; intros *; by rewrite Hempty.
    - apply Forall_forall. intros k _ g. by rewrite Hempty. }
  clear H. destruct (visit_all _ ∅ _) as [[[cycle|] color']|]; cbn in Hv; [by eexists| |done].
  destruct Hv as (V1 & _ & _ & _ & V5). exists None. split; [done|].
  intros boss key Hb Hk. rewrite Forall_forall in V5. apply V1.
  assert (Hbk : mark_of color' (bd_Key boss) = 2).
  { apply V5. by apply (list_elem_of_fmap_2 bd_Key). }
  destruct Hk as [<-|Hk]; [done|]. by eapply reach_closed.
Qed.

(** The cycle search terminates; it reports a key exactly when some boss
    precedes itself, the reported key lies on a cycle, and with no report the
    predecessor relation below every boss is acyclic. *)
Theorem HasPredecessorCycle_spec :
  exists result, HasPredecessorCycle def = Some result /\
  match result with
  | Some key => reach key key
  | None => forall boss key, boss ∈ rd_Bosses def ->
      bd_Key boss = key \/ reach (bd_Key boss) key -> ~ reach key key
  end.
Proof. exact HasPredecessorCycle_result. Qed.

End Graph.
