(* ===== verification/LockoutSeed.v ===== *)
(** Seeded raid lockouts, the plan: [ValidateDefinition], [BuildSaveData],
    [BuildSeedPlan] and [ResolveDeadSpawns] of [Bots/BotRaidLockoutPlan.h]. *)
From S2P Require Import Prelude RouteInteraction RouteCompletion LockoutPlan LockoutGraph.
From Stdlib Require Import ZArith Lia String Ascii Sorting.
From stdpp Require Import base gmap list strings sorting relations list_numbers.

Open Scope Z_scope.
Open Scope tc_scope.

(** ** Refusals

    The source returns the empty string or a failure. [Stuck] stands for what
    it has no value for: an exception of [std::map::at], an index out of a
    vector's range, or a search that runs out of fuel. *)
Inductive Checked : Type := Pass | Refuse (failure : string) | Stuck.

Definition andThen (a b : Checked) : Checked := match a with Pass => b | _ => a end.
Notation "a ;;; b" := (andThen a b) (at level 60, right associativity) : tc_scope.

Definition refuse_if (condition : bool) (failure : string) : Checked :=
  if condition then Refuse failure else Pass.

Section Loops.
Context {A K : Type} `{EqDecision K}.

(** A loop that stops at the first refusal. *)
Fixpoint check_all (check : A -> Checked) (l : list A) : Checked :=
  match l with [] => Pass | x :: l => check x ;;; check_all check l end.

(** A loop that also refuses a key it has already inserted in its set. *)
Fixpoint check_unique (key : A -> K) (bad : A -> bool) (failure : A -> string)
    (check : A -> Checked) (seen : list K) (l : list A) : Checked :=
  match l with
  | [] => Pass
  | x :: l =>
      refuse_if (bad x || bool_decide (key x ∈ seen)) (failure x) ;;;
      check x ;;;
      check_unique key bad failure check (key x :: seen) l
  end.

End Loops.

(** The entries of a [std::map] and the elements of a [std::set], in order. *)
Definition items_Z {V} (m : gmap Z V) : list (Z * V) :=
  stable_sort (fun a b => a.1 <? b.1) (map_to_list m).
Definition items_str {V} (m : gmap string V) : list (string * V) :=
  stable_sort (fun a b => str_lt a.1 b.1) (map_to_list m).
Definition items_set (s : gset string) : list string := stable_sort str_lt (elements s).

(** ** [ValidateDefinition] *)

Definition sep (a b : string) : string := (a ++ ":" ++ b)%string.

Definition CheckDifficulties (def : RaidDefinition) : Checked :=
  check_unique (fun d => d) (fun d => MaxRaidDifficulty <=? d) (fun _ => "invalid_difficulty"%string)
    (fun _ => Pass) [] (rd_Difficulties def).

Definition CheckEncounterCounts (def : RaidDefinition) : Checked :=
  refuse_if (negb (Z.of_nat (size (rd_EncounterCount def))
                   =? Z.of_nat (size (list_to_set (rd_Difficulties def) : gset Z))))
    "encounter_count_difficulty_mismatch" ;;;
  check_all (fun '(difficulty, count) =>
      refuse_if (negb (mem_Z difficulty (rd_Difficulties def)) || (count =? 0)
                 || (MaxEncounterCount <? count)) "invalid_encounter_count")
    (items_Z (rd_EncounterCount def)).

Definition CheckExtras (def : RaidDefinition) : Checked :=
  check_unique se_Name (fun extra => negb (IsValidKey (se_Name extra)))
    (fun extra => sep "invalid_save_extra" (se_Name extra))
    (fun extra => refuse_if (255 <? se_Default extra) (sep "invalid_save_extra_default" (se_Name extra)))
    [] (rd_SaveExtras def).

Definition CheckBossKeys (def : RaidDefinition) : Checked :=
  check_unique bd_Key (fun boss => negb (IsValidKey (bd_Key boss)))
    (fun boss => sep "invalid_boss_key" (bd_Key boss)) (fun _ => Pass) [] (rd_Bosses def).

(** [seen] counts the bosses of each index so far. *)
Fixpoint CheckIndices (difficulty count : Z) (seen : list Z) (bosses : list BossDefinition)
    : Checked :=
  match bosses with
  | [] =>
      check_all (fun index => refuse_if (seen !!! Z.to_nat index =? 0)
          (sep "missing_boss_index" (sep (to_string index) (DifficultyToken difficulty))))
        (seqZ 0 count)
  | boss :: bosses =>
      let index := bd_BossIndex boss in
      if negb (BossAvailableOn boss difficulty) then CheckIndices difficulty count seen bosses
      else if count <=? index then Refuse (sep "boss_index_out_of_range" (bd_Key boss))
      else if nz (seen !!! Z.to_nat index) then Refuse (sep "duplicate_boss_index" (bd_Key boss))
      else CheckIndices difficulty count
             (<[Z.to_nat index := seen !!! Z.to_nat index + 1]> seen) bosses
  end.

Definition CheckDifficultyIndices (def : RaidDefinition) (difficulty : Z) : Checked :=
  match rd_EncounterCount def !! difficulty with
  | Some count => CheckIndices difficulty count (replicate (Z.to_nat count) 0) (rd_Bosses def)
  | None => Stuck
  end.

Definition CheckPredecessors (def : RaidDefinition) (boss : BossDefinition) : Checked :=
  check_unique (fun predecessor => predecessor)
    (fun predecessor => bool_decide (FindBoss def predecessor = None)
                        || String.eqb predecessor (bd_Key boss))
    (fun predecessor => sep "invalid_predecessor" (sep (bd_Key boss) predecessor))
    (fun predecessor =>
       match FindBoss def predecessor with
       | None => Stuck
       | Some other =>
           check_all (fun difficulty =>
               refuse_if (BossAvailableOn boss difficulty && negb (BossAvailableOn other difficulty))
                 (sep "predecessor_unavailable" (sep (bd_Key boss) predecessor)))
             (rd_Difficulties def)
       end)
    [] (bd_Predecessors boss).

Definition CheckBoss (def : RaidDefinition) (boss : BossDefinition) : Checked :=
  check_all (fun difficulty =>
      refuse_if (negb (mem_Z difficulty (rd_Difficulties def)))
        (sep "boss_difficulty_not_in_raid" (bd_Key boss))) (bd_Difficulties boss) ;;;
  check_all (fun '(difficulty, encounterId) =>
      refuse_if (negb (mem_Z difficulty (rd_Difficulties def)) || (encounterId =? 0))
        (sep "invalid_dungeon_encounter_id" (bd_Key boss)))
    (items_Z (bd_DungeonEncounterIdByDifficulty boss)) ;;;
  refuse_if ((bd_DungeonEncounterBit boss <? -1)
             || (MaxEncounterCount <=? bd_DungeonEncounterBit boss))
    (sep "invalid_dungeon_encounter_bit" (bd_Key boss)) ;;;
  CheckPredecessors def boss ;;;
  check_all (fun '(name, value) =>
      refuse_if (bool_decide (name ∉ map se_Name (rd_SaveExtras def)))
        (sep "unknown_extra_save_value" (sep (bd_Key boss) name)) ;;;
      refuse_if (negb (RawByteRoundTrips value))
        (sep "extra_save_value_not_round_trip" (sep (bd_Key boss) name)))
    (items_str (bd_ExtraSaveValues boss)) ;;;
  check_all (fun entry => refuse_if (entry =? 0) (sep "invalid_dead_db_spawn_entry" (bd_Key boss)))
    (bd_DeadDbSpawnEntries boss) ;;;
  check_all (fun entry => refuse_if (entry =? 0) (sep "invalid_summoned_entry" (bd_Key boss)))
    (bd_SummonedEntries boss).

(** No entry is both left dead as a spawn and kept away as a summon. *)
Definition CheckEntries (def : RaidDefinition) : Checked :=
  let deadEntries := flat_map bd_DeadDbSpawnEntries (rd_Bosses def) in
  check_all (fun boss =>
      check_all (fun entry => refuse_if (mem_Z entry deadEntries)
          (sep "entry_both_dead_spawn_and_summoned" (to_string entry)))
        (bd_SummonedEntries boss))
    (rd_Bosses def).

Definition CheckCycle (def : RaidDefinition) : Checked :=
  match HasPredecessorCycle def with
  | None => Stuck
  | Some (Some cycleKey) => Refuse (sep "predecessor_cycle" cycleKey)
  | Some None => Pass
  end.

Definition CheckDoor (def : RaidDefinition) (door : DoorReadback) : Checked :=
  refuse_if ((dr_Entry door =? 0) || bool_decide (dr_OpenWhenDone door = []))
    "invalid_readback_door" ;;;
  check_all (fun key => refuse_if (bool_decide (key ∉ map bd_Key (rd_Bosses def)))
      (sep "invalid_readback_door_boss" key)) (dr_OpenWhenDone door).

Definition ValidateDefinition (def : RaidDefinition) : Checked :=
  refuse_if (negb (String.eqb (rd_Schema def) SchemaVersion)) "schema_mismatch" ;;;
  refuse_if (negb (IsValidKey (rd_Raid def))) "invalid_raid_key" ;;;
  refuse_if (rd_MapId def =? 0) "invalid_map_id" ;;;
  refuse_if (str_empty (rd_ScriptName def)) "script_name_required" ;;;
  refuse_if (negb (string_any isalpha (rd_ScriptHeader def))) "script_header_required" ;;;
  refuse_if (negb (rd_InitialBossState def =? StateNotStarted)
             && negb (rd_InitialBossState def =? StateToBeDecided)) "invalid_initial_boss_state" ;;;
  refuse_if (bool_decide (rd_Difficulties def = [])) "difficulties_required" ;;;
  CheckDifficulties def ;;;
  CheckEncounterCounts def ;;;
  CheckExtras def ;;;
  CheckBossKeys def ;;;
  check_all (CheckDifficultyIndices def) (rd_Difficulties def) ;;;
  check_all (CheckBoss def) (rd_Bosses def) ;;;
  CheckEntries def ;;;
  CheckCycle def ;;;
  check_all (CheckDoor def) (rd_ReadbackDoors def).

(** ** [BuildSaveData] *)

Fixpoint header_data (header : string) : string :=
  match header with
  | EmptyString => ""
  | String c header =>
      if isalpha c then String c (String " " (header_data header)) else header_data header
  end.

Definition state_data (states : list Z) : string :=
  foldr (fun state data => (to_string state ++ " " ++ data)%string) ""%string states.

Definition raw_byte (value : Z) : ascii := ascii_of_nat (Z.to_nat (u8 value)).

Definition extra_data (extras : list (SaveExtraEncoding * Z)) : string :=
  foldr (fun extra data => match extra.1 with
    | SaveExtraEncoding_RawUint8 => String (raw_byte extra.2) data end) ""%string extras.

Definition BuildSaveData (header : string) (states : list Z)
    (extras : list (SaveExtraEncoding * Z)) : string :=
  (header_data header ++ state_data states ++ extra_data extras)%string.

(** ** [BuildSeedPlan] *)

(** The plan under construction and the two maps of the boss loop. *)
Record SeedState : Type := mkSeedState {
  ss_plan : SeedPlan;
  ss_extraValues : gmap string Z;
  ss_extraOwner : gmap string string
}.

(** The key loop: the set [done], or the failure. *)
Fixpoint CheckKeys (def : RaidDefinition) (difficulty : Z) (done : gset string)
    (bossKeys : list string) : Checked * gset string :=
  match bossKeys with
  | [] => (Pass, done)
  | key :: bossKeys =>
      match FindBoss def key with
      | None => (Refuse (sep "unknown_boss" key), done)
      | Some boss =>
          if negb (BossAvailableOn boss difficulty)
          then (Refuse (sep "boss_not_available_on_difficulty" key), done)
          else if bool_decide (key ∈ done) then (Refuse (sep "duplicate_boss" key), done)
          else CheckKeys def difficulty ({[key]} ∪ done) bossKeys
      end
  end.

(** The pointers [FindBoss] gives for the keys of [done], none of them null
    after the key loop, by boss index. *)
Definition OrderedBosses (def : RaidDefinition) (done : gset string) : list BossDefinition :=
  stable_sort (fun a b => bd_BossIndex a <? bd_BossIndex b) (omap (FindBoss def) (items_set done)).

Fixpoint SeedExtras (boss : BossDefinition) (values : list (string * Z)) (st : SeedState)
    : Checked * SeedState :=
  match values with
  | [] => (Pass, st)
  | (name, value) :: values =>
      if bool_decide (is_Some (ss_extraOwner st !! name))
         && negb (default 0 (ss_extraValues st !! name) =? value)
      then (Refuse (sep "extra_save_value_conflict" name), st)
      else SeedExtras boss values
             (mkSeedState (ss_plan st) (<[name := value]> (ss_extraValues st))
                (<[name := bd_Key boss]> (ss_extraOwner st)))
  end.

(** The checks before a boss is marked done. *)
Definition CheckSeedBoss (done : gset string) (boss : BossDefinition) : Checked :=
  check_all (fun predecessor => refuse_if (bool_decide (predecessor ∉ done))
      (sep "bosses_done_not_predecessor_closed" (sep (bd_Key boss) predecessor)))
    (bd_Predecessors boss) ;;;
  refuse_if (bd_DungeonEncounterBit boss <? 0) (sep "boss_encounter_bit_unknown" (bd_Key boss)) ;;;
  refuse_if (negb (bd_DeadDbSpawnEntriesKnown boss)) (sep "boss_dead_spawns_unverified" (bd_Key boss)).

(** The plan with the boss done. *)
Definition PlanBoss (boss : BossDefinition) (plan : SeedPlan) : SeedPlan :=
  mkSeedPlan (sp_Difficulty plan) (sp_EncounterCount plan)
    (<[Z.to_nat (bd_BossIndex boss) := StateDone]> (sp_BossStates plan))
    (sp_BossesDone plan ++ [bd_Key boss])
    (sp_BossIndicesDone plan ++ [bd_BossIndex boss])
    (u32 (Z.lor (sp_CompletedEncounterMask plan)
                (u32 (Z.shiftl 1 (u32 (bd_DungeonEncounterBit boss))))))
    (sp_ExtraValues plan) (sp_SaveData plan)
    (sp_DeadDbSpawns plan) (sp_SummonedEntries plan).

Definition PlanEntries (boss : BossDefinition) (plan : SeedPlan) : SeedPlan :=
  mkSeedPlan (sp_Difficulty plan) (sp_EncounterCount plan) (sp_BossStates plan)
    (sp_BossesDone plan) (sp_BossIndicesDone plan) (sp_CompletedEncounterMask plan)
    (sp_ExtraValues plan) (sp_SaveData plan)
    (sp_DeadDbSpawns plan ++ map (fun entry => (bd_Key boss, entry)) (bd_DeadDbSpawnEntries boss))
    (sp_SummonedEntries plan ++ map (fun entry => (bd_Key boss, entry)) (bd_SummonedEntries boss)).

Definition with_plan (st : SeedState) (plan : SeedPlan) : SeedState :=
  mkSeedState plan (ss_extraValues st) (ss_extraOwner st).

(** The boss loop. *)
Fixpoint SeedBosses (done : gset string) (bosses : list BossDefinition) (st : SeedState)
    : Checked * SeedState :=
  match bosses with
  | [] => (Pass, st)
  | boss :: bosses =>
      match CheckSeedBoss done boss with
      | Pass =>
          if Z.of_nat (length (sp_BossStates (ss_plan st))) <=? bd_BossIndex boss then (Stuck, st)
          else match SeedExtras boss (items_str (bd_ExtraSaveValues boss))
                       (with_plan st (PlanBoss boss (ss_plan st))) with
          | (Pass, st) => SeedBosses done bosses (with_plan st (PlanEntries boss (ss_plan st)))
          | r => r
          end
      | failure => (failure, st)
      end
  end.

Definition SeedPlan_default : SeedPlan := mkSeedPlan 0 0 [] [] [] 0 [] "" [] [].

Definition SeedPlan_start (def : RaidDefinition) (difficulty count : Z) : SeedPlan :=
  mkSeedPlan difficulty count (replicate (Z.to_nat count) (rd_InitialBossState def))
    [] [] 0 [] "" [] [].

(** [extraValues] before the boss loop. *)
Definition DefaultExtras (def : RaidDefinition) : gmap string Z :=
  foldl (fun values extra => <[se_Name extra := se_Default extra]> values) ∅ (rd_SaveExtras def).

Definition extra_value (values : gmap string Z) (extra : SaveExtraDefinition) : Z :=
  default 0 (values !! se_Name extra).

(** What follows the boss loop: the extras in save order and the save data. *)
Definition FinishPlan (def : RaidDefinition) (values : gmap string Z) (plan : SeedPlan) : SeedPlan :=
  mkSeedPlan (sp_Difficulty plan) (sp_EncounterCount plan) (sp_BossStates plan)
    (sp_BossesDone plan) (sp_BossIndicesDone plan) (sp_CompletedEncounterMask plan)
    (map (fun extra => (se_Name extra, extra_value values extra)) (rd_SaveExtras def))
    (BuildSaveData (rd_ScriptHeader def) (sp_BossStates plan)
       (map (fun extra => (se_Encoding extra, extra_value values extra)) (rd_SaveExtras def)))
    (sp_DeadDbSpawns plan) (sp_SummonedEntries plan).

Definition BuildSeedPlan (def : RaidDefinition) (difficulty : Z) (bossKeys : list string)
    : Checked * SeedPlan :=
  match ValidateDefinition def with
  | Stuck => (Stuck, SeedPlan_default)
  | Refuse invalid => (Refuse (sep "invalid_definition" invalid), SeedPlan_default)
  | Pass =>
      match rd_EncounterCount def !! difficulty with
      | None => (Refuse (sep "difficulty_not_supported" (DifficultyToken difficulty)), SeedPlan_default)
      | Some count =>
          let plan := SeedPlan_start def difficulty count in
          match CheckKeys def difficulty ∅ bossKeys with
          | (Pass, done) =>
              match SeedBosses done (OrderedBosses def done)
                      (mkSeedState plan (DefaultExtras def) ∅) with
              | (Pass, st) => (Pass, FinishPlan def (ss_extraValues st) (ss_plan st))
              | (failure, st) => (failure, ss_plan st)
              end
          | (failure, _) => (failure, plan)
          end
      end
  end.

(** ** [ResolveDeadSpawns] *)

Definition onDifficulty (plan : SeedPlan) (spawn : SpawnFact) : bool :=
  negb (Z.land (sf_SpawnMask spawn) (Z.shiftl 1 (sp_Difficulty plan)) =? 0).

(** The spawns of one entry: the ids added so far and the rows grow. *)
Fixpoint AddRows (plan : SeedPlan) (entry : Z) (spawns : list SpawnFact)
    (found : bool) (added : gset Z) (rows : list RespawnRow)
    : bool * gset Z * list RespawnRow :=
  match spawns with
  | [] => (found, added, rows)
  | spawn :: spawns =>
      if (sf_Entry spawn =? entry) && onDifficulty plan spawn then
        if bool_decide (sf_SpawnId spawn ∈ added)
        then AddRows plan entry spawns true added rows
        else AddRows plan entry spawns true ({[sf_SpawnId spawn]} ∪ added)
               (rows ++ [mkRespawnRow (sf_SpawnId spawn) (sf_Entry spawn)])
      else AddRows plan entry spawns found added rows
  end.

Fixpoint DeadRows (plan : SeedPlan) (spawns : list SpawnFact) (dead : list (string * Z))
    (added : gset Z) (rows : list RespawnRow) : Checked * list RespawnRow :=
  match dead with
  | [] => (Pass, rows)
  | (boss, entry) :: dead =>
      match AddRows plan entry spawns false added rows with
      | (true, added, rows) => DeadRows plan spawns dead added rows
      | (false, _, _) => (Refuse (sep "dead_spawn_missing" (sep boss (to_string entry))), [])
      end
  end.

Definition CheckSummoned (plan : SeedPlan) (spawns : list SpawnFact) : Checked :=
  check_all (fun '(boss, entry) =>
      check_all (fun spawn =>
          refuse_if ((sf_Entry spawn =? entry) && onDifficulty plan spawn
                     && negb (sf_ManualSpawnGroup spawn))
            (sep "summoned_entry_has_database_spawn" (sep boss (to_string entry)))) spawns)
    (sp_SummonedEntries plan).

Definition ResolveDeadSpawns (plan : SeedPlan) (spawns : list SpawnFact)
    : Checked * list RespawnRow :=
  match DeadRows plan spawns (sp_DeadDbSpawns plan) ∅ [] with
  | (Pass, rows) =>
      match CheckSummoned plan spawns with
      | Pass => (Pass, stable_sort (fun a b => rr_SpawnId a <? rr_SpawnId b) rows)
      | failure => (failure, [])
      end
  | r => r
  end.
