(* ===== verification/LockoutValid.v ===== *)
(** What a raid definition must satisfy, and that [ValidateDefinition] decides it. *)
From S2P Require Import Prelude RouteInteraction RouteCompletion LockoutPlan LockoutGraph LockoutSeed.
From Stdlib Require Import ZArith Lia String Ascii Sorting.
From stdpp Require Import base gmap list strings sorting relations list_numbers.

Open Scope Z_scope.
Open Scope tc_scope.

(** ** Specification *)

(** Encounter counts and boss indices, which are unsigned in the source, are not
    negative. *)
Record typed (def : RaidDefinition) : Prop := {
  ty_counts : map_Forall (fun _ count => 0 <= count) (rd_EncounterCount def);
  ty_index : Forall (fun boss => 0 <= bd_BossIndex boss) (rd_Bosses def)
}.

(** The boss indices of a difficulty are exactly [0 .. count - 1], each once. *)
Definition indices_on (def : RaidDefinition) (difficulty : Z) : list Z :=
  map bd_BossIndex (List.filter (fun boss => BossAvailableOn boss difficulty) (rd_Bosses def)).

(** [other] is a boss, and available wherever [boss] is. *)
Definition valid_predecessor (def : RaidDefinition) (boss : BossDefinition) (key : string) : Prop :=
  key <> bd_Key boss /\
  exists other, FindBoss def key = Some other /\
    Forall (fun d => BossAvailableOn boss d = true -> BossAvailableOn other d = true)
      (rd_Difficulties def).

Record WellFormedBoss (def : RaidDefinition) (boss : BossDefinition) : Prop := {
  wb_difficulties : Forall (fun d => d ∈ rd_Difficulties def) (bd_Difficulties boss);
  wb_encounters : map_Forall (fun d id => d ∈ rd_Difficulties def /\ id <> 0)
    (bd_DungeonEncounterIdByDifficulty boss);
  wb_bit : -1 <= bd_DungeonEncounterBit boss < 32;
  wb_predecessors : NoDup (bd_Predecessors boss) /\
    Forall (valid_predecessor def boss) (bd_Predecessors boss);
  wb_extras : map_Forall (fun name value =>
      name ∈ map se_Name (rd_SaveExtras def) /\ RawByteRoundTrips value = true)
    (bd_ExtraSaveValues boss);
  wb_dead : Forall (fun entry => entry <> 0) (bd_DeadDbSpawnEntries boss);
  wb_summoned : Forall (fun entry => entry <> 0) (bd_SummonedEntries boss)
}.

Record WellFormed (def : RaidDefinition) : Prop := {
  wf_schema : rd_Schema def = SchemaVersion;
  wf_raid : IsValidKey (rd_Raid def) = true;
  wf_map : rd_MapId def <> 0;
  wf_script : rd_ScriptName def <> ""%string;
  wf_header : string_any isalpha (rd_ScriptHeader def) = true;
  wf_initial : rd_InitialBossState def = StateNotStarted \/
               rd_InitialBossState def = StateToBeDecided;
  wf_difficulties : rd_Difficulties def <> [] /\ NoDup (rd_Difficulties def) /\
    Forall (fun d => d < MaxRaidDifficulty) (rd_Difficulties def);
  wf_counts : dom (rd_EncounterCount def) = list_to_set (rd_Difficulties def) /\
    map_Forall (fun _ count => 0 < count <= MaxEncounterCount) (rd_EncounterCount def);
  wf_extras : NoDup (map se_Name (rd_SaveExtras def)) /\
    Forall (fun e => IsValidKey (se_Name e) = true /\ se_Default e <= 255) (rd_SaveExtras def);
  wf_keys : NoDup (map bd_Key (rd_Bosses def)) /\
    Forall (fun boss => IsValidKey (bd_Key boss) = true) (rd_Bosses def);
  wf_indices : map_Forall (fun d count => indices_on def d ≡ₚ seqZ 0 count) (rd_EncounterCount def);
  wf_bosses : Forall (WellFormedBoss def) (rd_Bosses def);
  wf_entries : forall boss boss' entry, boss ∈ rd_Bosses def -> boss' ∈ rd_Bosses def ->
    entry ∈ bd_SummonedEntries boss -> entry ∉ bd_DeadDbSpawnEntries boss';
  wf_acyclic : forall key, ~ reach def key key;
  wf_doors : Forall (fun door => dr_Entry door <> 0 /\ dr_OpenWhenDone door <> [] /\
      Forall (fun key => key ∈ map bd_Key (rd_Bosses def)) (dr_OpenWhenDone door))
    (rd_ReadbackDoors def)
}.

(** ** Checks that decide propositions *)

Definition decides (c : Checked) (P : Prop) : Prop := c <> Stuck /\ (c = Pass <-> P).

Lemma decides_iff c P Q : decides c P -> (P <-> Q) -> decides c Q.
Proof. unfold decides. tauto. Qed.

#[export] Instance decides_proper c : Proper (iff ==> iff) (decides c).
Proof. intros P Q H. unfold decides. by rewrite H. Qed.

Lemma decides_refuse_if b f (P : Prop) : (b = false <-> P) -> decides (refuse_if b f) P.
Proof. unfold decides. intros <-. by destruct b. Qed.

Lemma decides_then a b P Q :
  decides a P -> (P -> decides b Q) -> decides (a ;;; b) (P /\ Q).
Proof.
  unfold decides. intros [Ha HP] Hb. destruct a; cbn; [|split; [done|]..].
  - destruct Hb as [? HQ]; [tauto|]. tauto.
  - split; [done|]. intros [?%HP _]. done.
  - done.
Qed.

Lemma decides_all {A} (check : A -> Checked) (P : A -> Prop) l :
  (forall x, x ∈ l -> decides (check x) (P x)) -> decides (check_all check l) (Forall P l).
Proof.
  induction l as [|x l IH]; intros H; cbn [check_all].
  - by split; [|split; [constructor|]].
  - eapply decides_iff; [|by rewrite Forall_cons].
    apply decides_then; [apply H, list_elem_of_here|]. intros _. apply IH.
    intros y Hy. apply H. by right.
Qed.

Lemma decides_unique {A K} `{EqDecision K} (key : A -> K) bad f check (P Q : A -> Prop) seen l :
  (forall x, x ∈ l -> (bad x = false <-> P x)) ->
  (forall x, x ∈ l -> P x -> decides (check x) (Q x)) ->
  decides (check_unique key bad f check seen l)
    (NoDup (map key l) /\ Forall (fun k => k ∉ seen) (map key l) /\
     Forall (fun x => P x /\ Q x) l).
Proof.
  revert seen. induction l as [|x l IH]; intros seen Hbad Hcheck; cbn [check_unique].
  - split; [done|]. by repeat split; repeat constructor.
  - eapply decides_iff.
    + apply (decides_then _ _ (P x /\ key x ∉ seen)); [|intros [HP Hs]; apply decides_then].
      * apply decides_refuse_if. rewrite orb_false_iff, bool_decide_eq_false.
        rewrite Hbad by apply list_elem_of_here. done.
      * apply Hcheck; [apply list_elem_of_here|done].
      * intros _. apply IH; intros y Hy; [apply Hbad|apply Hcheck]; by right.
    + cbn [map]. rewrite NoDup_cons, !Forall_cons. rewrite !Forall_forall.
      setoid_rewrite not_elem_of_cons. split.
      * intros ((HP & Hs) & HQ & Hnd & Hseen & Hl). split_and!; auto.
        -- intros Hx. by destruct (Hseen _ Hx).
        -- intros k Hk. by apply Hseen.
      * intros ((Hx & Hnd) & (Hs & Hseen) & (HP & HQ) & Hl). split_and!; auto.
        intros k Hk. split; [|by apply Hseen]. by intros ->.
Qed.

Lemma str_empty_false s : str_empty s = false <-> s <> ""%string.
Proof. rewrite <- str_empty_spec. by destruct (str_empty s). Qed.

(** ** Ordered items *)

Lemma Forall_items_Z {V} (P : Z * V -> Prop) (m : gmap Z V) :
  Forall P (items_Z m) <-> map_Forall (fun k v => P (k, v)) m.
Proof.
  unfold items_Z. rewrite stable_sort_perm, map_Forall_to_list. apply Forall_iff. by intros [].
Qed.

Lemma Forall_items_str {V} (P : string * V -> Prop) (m : gmap string V) :
  Forall P (items_str m) <-> map_Forall (fun k v => P (k, v)) m.
Proof.
  unfold items_str. rewrite stable_sort_perm, map_Forall_to_list. apply Forall_iff. by intros [].
Qed.

(** ** The checks of [ValidateDefinition] *)

Section Checks.
Context (def : RaidDefinition) (Htyped : typed def).

Lemma CheckDifficulties_decides :
  decides (CheckDifficulties def) (NoDup (rd_Difficulties def) /\
    Forall (fun d => d < MaxRaidDifficulty) (rd_Difficulties def)).
Proof.
  eapply decides_iff; [apply (decides_unique _ _ _ _ (fun d => d < MaxRaidDifficulty) (fun _ => True))|].
  - intros d _. b2p. done.
  - intros d _ _. done.
  - rewrite map_id. setoid_rewrite Forall_forall. set_solver.
Qed.

Lemma CheckEncounterCounts_decides :
  decides (CheckEncounterCounts def)
    (dom (rd_EncounterCount def) = list_to_set (rd_Difficulties def) /\
     map_Forall (fun _ count => 0 < count <= MaxEncounterCount) (rd_EncounterCount def)).
Proof.
  unfold CheckEncounterCounts. rewrite <- size_dom. eapply decides_iff.
  - apply decides_then; [apply decides_refuse_if; b2p; reflexivity|]. intros _.
    apply (decides_all _ (fun '(d, count) =>
      d ∈ rd_Difficulties def /\ count <> 0 /\ count <= MaxEncounterCount)).
    intros [d count] _. apply decides_refuse_if. b2p.
    rewrite mem_Z_elem. tauto.
  - rewrite Forall_items_Z. destruct Htyped as [Hc _]. rewrite map_Forall_lookup in *.
    setoid_rewrite map_Forall_lookup. split.
    + intros [Hs H]. assert (dom (rd_EncounterCount def) ⊆ list_to_set (rd_Difficulties def)).
      { intros d [count Hd]%elem_of_dom. apply elem_of_list_to_set. by eapply H. }
      split; [|intros d count Hd; specialize (H d count Hd); specialize (Hc d count Hd); lia].
      apply leibniz_equiv, (set_subseteq_size_equiv _ _ ltac:(done)). lia.
    + intros [Hd H]. rewrite Hd. split; [done|]. intros d count Hdc.
      specialize (H d count Hdc). split; [|lia].
      apply (elem_of_list_to_set (C := gset Z)). rewrite <- Hd. by apply elem_of_dom_2 in Hdc.
Qed.

Lemma CheckExtras_decides :
  decides (CheckExtras def) (NoDup (map se_Name (rd_SaveExtras def)) /\
    Forall (fun e => IsValidKey (se_Name e) = true /\ se_Default e <= 255) (rd_SaveExtras def)).
Proof.
  eapply decides_iff; [apply (decides_unique _ _ _ _
    (fun e => IsValidKey (se_Name e) = true) (fun e => se_Default e <= 255))|].
  - intros e _. by b2p.
  - intros e _ _. apply decides_refuse_if. by b2p.
  - setoid_rewrite Forall_forall. set_solver.
Qed.

Lemma CheckBossKeys_decides :
  decides (CheckBossKeys def) (NoDup (map bd_Key (rd_Bosses def)) /\
    Forall (fun boss => IsValidKey (bd_Key boss) = true) (rd_Bosses def)).
Proof.
  eapply decides_iff; [apply (decides_unique _ _ _ _
    (fun boss => IsValidKey (bd_Key boss) = true) (fun _ => True))|].
  - intros e _. by b2p.
  - intros e _ _. done.
  - setoid_rewrite Forall_forall. set_solver.
Qed.

Lemma CheckIndices_decides d count seen bosses :
  length seen = Z.to_nat count -> Forall (fun boss => 0 <= bd_BossIndex boss) bosses ->
  (forall i, 0 <= seen !!! i) ->
  let idx := map bd_BossIndex (List.filter (fun boss => BossAvailableOn boss d) bosses) in
  decides (CheckIndices d count seen bosses)
    (NoDup idx /\ Forall (fun i => i < count) idx /\
     Forall (fun i => seen !!! Z.to_nat i = 0) idx /\
     Forall (fun i => seen !!! Z.to_nat i <> 0 \/ i ∈ idx) (seqZ 0 count)).
Proof.
  intros Hlen Hidx. revert seen Hlen. induction Hidx as [|boss bosses Hb Hidx IH];
    intros seen Hlen Hpos idx; subst idx; cbn [CheckIndices List.filter].
  - eapply decides_iff; [apply (decides_all _ (fun i => seen !!! Z.to_nat i <> 0))|].
    + intros i _. apply decides_refuse_if. by b2p.
    + rewrite !Forall_forall. split.
      * intros H. split_and!; [constructor|by intros ? ?%elem_of_nil..|]. intros i Hi. left. auto.
      * intros (_ & _ & _ & H) i Hi. by destruct (H i Hi) as [|[]%elem_of_nil].
  - destruct (BossAvailableOn boss d); cbn [negb]; [|by apply IH].
    cbn [map]. set (idx := map _ _). set (index := bd_BossIndex boss) in *.
    destruct (count <=? index) eqn:E1; b2p.
    { split; [done|]. split; [done|]. intros (_ & H & _). inversion_clear H. lia. }
    destruct (nz _) eqn:E2; b2p.
    { split; [done|]. split; [done|]. intros (_ & _ & H & _). inversion_clear H. lia. }
    rewrite E2. eapply decides_iff; [apply IH; [by rewrite length_insert|]|].
    + intros i. destruct (decide (i = Z.to_nat index)) as [->|Hi].
      * rewrite list_lookup_total_insert_eq by lia. lia.
      * rewrite list_lookup_total_insert_ne by done. apply Hpos.
    + fold idx. assert (Hget : forall i, 0 <= i -> <[Z.to_nat index := 0 + 1]> seen !!! Z.to_nat i
        = if i =? index then 1 else seen !!! Z.to_nat i).
      { intros i Hi. destruct (Z.eqb_spec i index) as [->|Hne].
        - rewrite list_lookup_total_insert_eq by lia. done.
        - rewrite list_lookup_total_insert_ne by lia. done. }
      assert (Hpi : Forall (fun i => 0 <= i) idx).
      { subst idx. apply Forall_map, Forall_forall. intros b Hb'. rewrite Forall_forall in Hidx.
        apply Hidx, list_elem_of_In. apply list_elem_of_In, filter_In in Hb'. tauto. }
      rewrite NoDup_cons, !Forall_cons. rewrite !Forall_forall in *.
      setoid_rewrite elem_of_cons. setoid_rewrite elem_of_seqZ.
      split.
      * intros (H1 & H2 & H3 & H4). split_and!; auto.
        -- intros Hi. specialize (H3 index Hi). rewrite Hget, Z.eqb_refl in H3 by done. done.
        -- intros i Hi. specialize (H3 i Hi). rewrite Hget in H3 by auto.
           destruct (i =? index); [done|done].
        -- intros i Hi. specialize (H4 i Hi). rewrite Hget in H4 by lia.
           destruct (Z.eqb_spec i index); [auto|]. tauto.
      * intros ((H1 & H1') & (_ & H2) & (_ & H3) & H4). split_and!; auto.
        -- intros i Hi. rewrite Hget by auto. destruct (Z.eqb_spec i index) as [->|]; auto. done.
        -- intros i Hi. specialize (H4 i Hi). rewrite Hget by lia.
           destruct (Z.eqb_spec i index); [left; lia|]. tauto.
Qed.

Lemma CheckDifficultyIndices_decides d count :
  rd_EncounterCount def !! d = Some count ->
  decides (CheckDifficultyIndices def d) (indices_on def d ≡ₚ seqZ 0 count).
Proof.
  intros Hc. unfold CheckDifficultyIndices. rewrite Hc. destruct Htyped as [Hcounts Hidx].
  eapply decides_iff.
  - apply CheckIndices_decides; [by rewrite length_replicate|exact Hidx|].
    intros i. destruct (decide (i < Z.to_nat count)%nat).
    + by rewrite lookup_total_replicate_2.
    + rewrite list_lookup_total_alt. rewrite (proj1 (lookup_replicate_None _ _ _)) by lia. done.
  - fold (indices_on def d).
    assert (Hpos : forall i, i ∈ indices_on def d -> 0 <= i).
    { unfold indices_on. intros i (b & -> & Hb)%list_elem_of_fmap.
      rewrite Forall_forall in Hidx. apply Hidx, list_elem_of_In.
      apply list_elem_of_In, filter_In in Hb. tauto. }
    rewrite !Forall_forall. setoid_rewrite elem_of_seqZ.
    assert (Hz : forall i, i < count -> replicate (Z.to_nat count) 0 !!! Z.to_nat i = 0
      \/ i < 0).
    { intros i Hi. destruct (decide (i < 0)); [auto|left].
      rewrite lookup_total_replicate_2; [done|lia]. }
    split.
    + intros (H1 & H2 & H3 & H4). apply NoDup_Permutation; [done|apply NoDup_seqZ|].
      intros i. rewrite elem_of_seqZ. split; intros Hi.
      * split; [by apply Hpos|]. rewrite Z.add_0_l. by apply H2.
      * destruct (H4 i Hi) as [Hne|]; [|done].
        destruct (Hz i); lia.
    + intros Hp. split; [rewrite Hp; apply NoDup_seqZ|]. setoid_rewrite Hp.
      setoid_rewrite elem_of_seqZ. split_and!; [lia| |auto].
      intros i Hi. destruct (Hz i); lia.
Qed.

Lemma CheckPredecessors_decides boss :
  decides (CheckPredecessors def boss) (NoDup (bd_Predecessors boss) /\
    Forall (valid_predecessor def boss) (bd_Predecessors boss)).
Proof.
  eapply decides_iff; [apply (decides_unique _ _ _ _
    (fun key => key <> bd_Key boss /\ is_Some (FindBoss def key))
    (fun key => exists other, FindBoss def key = Some other /\
       Forall (fun d => BossAvailableOn boss d = true -> BossAvailableOn other d = true)
         (rd_Difficulties def)))|].
  - intros key _. rewrite orb_false_iff, bool_decide_eq_false. b2p.
    rewrite <- not_eq_None_Some. tauto.
  - intros key _ [_ [other ->]]. eapply decides_iff; [apply (decides_all _ (fun d =>
      BossAvailableOn boss d = true -> BossAvailableOn other d = true))|].
    + intros d _. apply decides_refuse_if.
      destruct (BossAvailableOn boss d), (BossAvailableOn other d); cbn; intuition done.
    + split; [eauto|]. intros (? & [= <-] & ?). done.
  - rewrite map_id. split.
    + intros (H1 & _ & H2). split; [done|]. eapply Forall_impl; [exact H2|].
      intros key [[? _] ?]. by split.
    + intros (H1 & H2). split; [done|]. split; [apply Forall_forall; intros ? _; apply not_elem_of_nil|].
      eapply Forall_impl; [exact H2|]. intros key (? & other & Ho & ?). rewrite Ho. eauto.
Qed.

Lemma CheckBoss_decides boss : decides (CheckBoss def boss) (WellFormedBoss def boss).
Proof.
  eapply decides_iff.
  - apply decides_then; [apply decides_all|intros _; apply decides_then; [apply decides_all|intros _]].
    + intros d _. apply decides_refuse_if. etrans; [apply negb_false_iff|apply mem_Z_elem].
    + intros [d id] _. 
      instantiate (1 := fun p => p.1 ∈ rd_Difficulties def /\ p.2 <> 0).
      apply decides_refuse_if. b2p. rewrite mem_Z_elem. done.
    + apply decides_then; [idtac|intros _].
      { instantiate (1 := -1 <= bd_DungeonEncounterBit boss < 32). apply decides_refuse_if. unfold MaxEncounterCount. b2p. lia. }
      apply decides_then; [apply CheckPredecessors_decides|intros _].
      apply decides_then; [apply decides_all|intros _; apply decides_then; [|intros _]].
      * intros [name value] _.
        apply (decides_iff _ (name ∈ map se_Name (rd_SaveExtras def) /\ RawByteRoundTrips value = true)).
        -- apply decides_then; [|intros _]; apply decides_refuse_if.
           ++ rewrite bool_decide_eq_false. split; [apply dec_stable|tauto].
           ++ by b2p.
        -- instantiate (1 := fun p => p.1 ∈ map se_Name (rd_SaveExtras def)
             /\ RawByteRoundTrips p.2 = true). done.
      * apply decides_all. intros entry _. apply decides_refuse_if, Z.eqb_neq.
      * apply decides_all. intros entry _. apply decides_refuse_if, Z.eqb_neq.
  - rewrite Forall_items_Z, Forall_items_str. split.
    + intros (? & ? & ? & ? & ? & ? & ?). by constructor.
    + intros []. repeat (split; [done|]). done.
Qed.

Lemma CheckEntries_decides :
  decides (CheckEntries def) (forall boss boss' entry, boss ∈ rd_Bosses def ->
    boss' ∈ rd_Bosses def -> entry ∈ bd_SummonedEntries boss -> entry ∉ bd_DeadDbSpawnEntries boss').
Proof.
  eapply decides_iff; [apply decides_all; intros boss _; apply decides_all; intros entry _;
    apply decides_refuse_if, mem_Z_false|].
  setoid_rewrite Forall_forall. setoid_rewrite Forall_forall. split.
  - intros H boss boss' entry Hb Hb' He Hd. apply (H boss Hb entry He).
    apply list_elem_of_In, in_flat_map. exists boss'. by rewrite <- !list_elem_of_In.
  - intros H boss Hb entry He Hin. apply list_elem_of_In, in_flat_map in Hin as (boss' & H1 & H2).
    apply list_elem_of_In in H1, H2. exact (H boss boss' entry Hb H1 He H2).
Qed.

Lemma reach_pred a b : reach def a b -> exists boss, FindBoss def a = Some boss.
Proof.
  assert (forall b, edge def a b -> exists boss, FindBoss def a = Some boss).
  { unfold edge, predecessors_of. intros c. destruct (FindBoss def a); [eauto|].
    by intros ?%elem_of_nil. }
  induction 1; eauto.
Qed.

Lemma FindBoss_key key boss : FindBoss def key = Some boss -> boss ∈ rd_Bosses def /\ bd_Key boss = key.
Proof.
  intros [H1 H2]%find_some. apply String.eqb_eq in H2. by apply list_elem_of_In in H1.
Qed.

Lemma CheckCycle_decides : decides (CheckCycle def) (forall key, ~ reach def key key).
Proof.
  unfold CheckCycle. destruct (HasPredecessorCycle_result def) as (r & -> & Hr).
  destruct r as [key|].
  - split; [done|]. split; [done|]. intros H. by destruct (H key).
  - split; [done|]. split; [|done]. intros _ key Hk.
    destruct (reach_pred _ _ Hk) as [boss Hb]. apply FindBoss_key in Hb as [Hb <-].
    by apply (Hr boss (bd_Key boss)); [|left|].
Qed.

Lemma CheckDoor_decides door :
  decides (CheckDoor def door) (dr_Entry door <> 0 /\ dr_OpenWhenDone door <> [] /\
    Forall (fun key => key ∈ map bd_Key (rd_Bosses def)) (dr_OpenWhenDone door)).
Proof.
  eapply decides_iff; [|symmetry; apply and_assoc]. apply decides_then; [|intros _].
  - apply decides_refuse_if. rewrite orb_false_iff, bool_decide_eq_false. by b2p.
  - apply decides_all. intros key _. apply decides_refuse_if. rewrite bool_decide_eq_false.
    split; [apply dec_stable|tauto].
Qed.

Lemma ValidateDefinition_decides : decides (ValidateDefinition def) (WellFormed def).
Proof.
  eapply decides_iff.
  - do 7 (apply decides_then; [apply decides_refuse_if; b2p; reflexivity|intros _]).
    apply decides_then; [exact CheckDifficulties_decides|intros _].
    apply decides_then; [exact CheckEncounterCounts_decides|intros [Hdom _]].
    do 2 (apply decides_then; [first [exact CheckExtras_decides|exact CheckBossKeys_decides]|intros _]).
    apply decides_then; [apply (decides_all _ (fun d => forall count,
      rd_EncounterCount def !! d = Some count -> indices_on def d ≡ₚ seqZ 0 count))|intros _].
    + intros d Hd. apply (elem_of_list_to_set (C := gset Z)) in Hd. rewrite <- Hdom in Hd.
      apply elem_of_dom in Hd as [count Hc]. eapply decides_iff; [by apply CheckDifficultyIndices_decides|].
      rewrite Hc. split; [intros ? ? [= <-]; done|auto].
    + apply decides_then; [apply decides_all; intros ? _; apply CheckBoss_decides|intros _].
      apply decides_then; [exact CheckEntries_decides|intros _].
      apply decides_then; [exact CheckCycle_decides|intros _].
      apply decides_all. intros ? _. apply CheckDoor_decides.
  - assert (Hidx : dom (rd_EncounterCount def) = list_to_set (rd_Difficulties def) ->
      Forall (fun d => forall count, rd_EncounterCount def !! d = Some count ->
        indices_on def d ≡ₚ seqZ 0 count) (rd_Difficulties def) <->
      map_Forall (fun d count => indices_on def d ≡ₚ seqZ 0 count) (rd_EncounterCount def)).
    { intros Hdom. rewrite Forall_forall, map_Forall_lookup. split; [|eauto].
      intros H d count Hd. apply H; [|done]. apply (elem_of_list_to_set (C := gset Z)).
      rewrite <- Hdom. by eapply elem_of_dom_2. }
    rewrite bool_decide_eq_false, str_empty_false.
    split.
    + intros (? & ? & ? & ? & ? & ? & ? & [? ?] & [? ?] & ? & ? & ? & ? & ? & ? & ?).
      constructor; try done. by apply Hidx.
    + intros [? ? ? ? ? ? (? & ? & ?) [? ?] ? ? ? ? ? ? ?]. rewrite Hidx by done.
      repeat (split; [done|]). done.
Qed.

(** C30. On definitions whose values fit their types, [ValidateDefinition]
    returns (no exception, no endless search) and accepts exactly the
    well-formed ones: unique keys, boss indices that enumerate the encounters
    of every difficulty, predecessors that exist, are available and form no
    cycle, save values that survive the raw byte encoding, and consistent
    spawns and doors. *)
Theorem ValidateDefinition_spec :
  ValidateDefinition def <> Stuck /\ (ValidateDefinition def = Pass <-> WellFormed def).
Proof. exact ValidateDefinition_decides. Qed.

End Checks.

(** ** A raid for the witnesses

    Two bosses on difficulty 0, a third one on difficulty 2. *)
Definition sample_boss (key : string) (index : Z) (predecessors : list string)
    (extras : gmap string Z) (dead summoned difficulties : list Z) : BossDefinition :=
  mkBoss key key index 100 0 0 ∅ index predecessors extras true dead summoned difficulties.

Definition sample_raid : RaidDefinition :=
  mkRaid SchemaVersion "vault" 669 "instance_vault" "V" StateNotStarted [0; 2]
    {[0 := 2; 2 := 3]}
    [sample_boss "first" 0 [] ∅ [41570] [] [];
     sample_boss "second" 1 ["first"%string] {["gate"%string := 7]} [41442] [41807] [];
     sample_boss "last" 2 ["second"%string] ∅ [] [] [2]]
    [mkSaveExtra "gate" SaveExtraEncoding_RawUint8 1]
    [mkDoor 205830 ["first"%string]].

Lemma sample_typed : typed sample_raid.
Proof.
  split; [|by repeat constructor]. intros d count. cbn.
  rewrite lookup_insert_Some, lookup_singleton_Some. lia.
Qed.

Lemma sample_valid : ValidateDefinition sample_raid = Pass.
Proof. vm_compute. reflexivity. Qed.

Lemma ValidateDefinition_spec_witness : typed sample_raid /\ WellFormed sample_raid.
Proof.
  split; [exact sample_typed|].
  apply (ValidateDefinition_spec sample_raid sample_typed). exact sample_valid.
Defined.
