(* ===== verification/LockoutSeedSpec.v ===== *)
(** The seed plan of a set of bosses: when [BuildSeedPlan] grants it and what
    it contains. *)
From S2P Require Import Prelude RouteInteraction RouteCompletion LockoutPlan LockoutGraph LockoutSeed LockoutValid.
From Stdlib Require Import ZArith Lia String Ascii Sorting.
From stdpp Require Import base gmap list strings sorting relations list_numbers.

Open Scope Z_scope.
Open Scope tc_scope.

(** ** Specification *)

Section Spec.
Context (def : RaidDefinition) (difficulty : Z) (keys : list string).

(** [boss] is one of the bosses asked for. *)
Definition asked (boss : BossDefinition) : Prop :=
  exists key, key ∈ keys /\ FindBoss def key = Some boss.

(** The bosses exist, are listed once with all their predecessors, are fully
    known, and do not disagree on a save value. *)
Record SeedAllowed : Prop := {
  sa_unique : NoDup keys;
  sa_known : Forall (fun key => exists boss, FindBoss def key = Some boss /\
    BossAvailableOn boss difficulty = true) keys;
  sa_closed : forall boss key, asked boss -> key ∈ bd_Predecessors boss -> key ∈ keys;
  sa_bit : forall boss, asked boss -> 0 <= bd_DungeonEncounterBit boss;
  sa_dead : forall boss, asked boss -> bd_DeadDbSpawnEntriesKnown boss = true;
  sa_agree : forall boss boss' name v v', asked boss -> asked boss' ->
    bd_ExtraSaveValues boss !! name = Some v -> bd_ExtraSaveValues boss' !! name = Some v' -> v = v'
}.

(** The value of a save extra: what the bosses asked for give it, else its
    default. *)
Definition seeded_extra (extra : SaveExtraDefinition) (value : Z) : Prop :=
  (exists boss, asked boss /\ bd_ExtraSaveValues boss !! se_Name extra = Some value) \/
  ((forall boss, asked boss -> bd_ExtraSaveValues boss !! se_Name extra = None) /\
   value = se_Default extra).

Record PlanOf (count : Z) (plan : SeedPlan) : Prop := {
  po_difficulty : sp_Difficulty plan = difficulty;
  po_count : sp_EncounterCount plan = count;
  po_length : length (sp_BossStates plan) = Z.to_nat count;
  po_states : forall i state, sp_BossStates plan !! Z.to_nat i = Some state -> 0 <= i ->
    (exists boss, asked boss /\ bd_BossIndex boss = i) /\ state = StateDone \/
    (forall boss, asked boss -> bd_BossIndex boss <> i) /\ state = rd_InitialBossState def;
  po_done : sp_BossesDone plan ≡ₚ keys;
  po_order : StronglySorted Z.lt (sp_BossIndicesDone plan);
  po_index : Forall2 (fun key index => exists boss,
    FindBoss def key = Some boss /\ bd_BossIndex boss = index)
    (sp_BossesDone plan) (sp_BossIndicesDone plan);
  po_mask : forall i, 0 <= i -> Z.testbit (sp_CompletedEncounterMask plan) i = true <->
    exists boss, asked boss /\ bd_DungeonEncounterBit boss = i;
  po_extras : Forall2 (fun extra value => value.1 = se_Name extra /\ seeded_extra extra value.2)
    (rd_SaveExtras def) (sp_ExtraValues plan);
  po_save : sp_SaveData plan = BuildSaveData (rd_ScriptHeader def) (sp_BossStates plan)
    (zip (map se_Encoding (rd_SaveExtras def)) (map snd (sp_ExtraValues plan)));
  po_dead : forall key entry, (key, entry) ∈ sp_DeadDbSpawns plan <->
    exists boss, asked boss /\ bd_Key boss = key /\ entry ∈ bd_DeadDbSpawnEntries boss;
  po_summoned : forall key entry, (key, entry) ∈ sp_SummonedEntries plan <->
    exists boss, asked boss /\ bd_Key boss = key /\ entry ∈ bd_SummonedEntries boss
}.

End Spec.

(** ** The key loop *)

Lemma CheckKeys_spec def difficulty keys done :
  let '(c, done') := CheckKeys def difficulty done keys in
  decides c (NoDup keys /\ Forall (fun key => exists boss, FindBoss def key = Some boss /\
      BossAvailableOn boss difficulty = true) keys /\ (forall key, key ∈ keys -> key ∉ done)) /\
  (c = Pass -> done' = list_to_set keys ∪ done).
Proof.
  revert done. induction keys as [|key keys IH]; intros done; cbn [CheckKeys].
  - split; [|set_solver]. split; [done|]. split; [|done]. intros _.
    split; [constructor|]. split; [constructor|]. by intros ? ?%elem_of_nil.
  - assert (Href : forall f (P : Prop), ~ P -> decides (Refuse f) P /\
      (Refuse f = Pass -> done = list_to_set (key :: keys) ∪ done)).
    { intros f P HP. split; [|done]. by split. }
    destruct (FindBoss def key) as [boss|] eqn:E; [|apply Href].
    + destruct (BossAvailableOn boss difficulty) eqn:Ea; cbn [negb]; [|apply Href].
      * case_bool_decide as Hd; [apply Href|].
        -- intros (_ & _ & H). apply (H key); [apply list_elem_of_here|done].
        -- specialize (IH ({[key]} ∪ done)). destruct (CheckKeys _ _ _ keys) as [c done'].
           destruct IH as [Hc Hdone]. split; [|intros Hp; rewrite (Hdone Hp); set_solver].
           eapply decides_iff; [exact Hc|]. rewrite NoDup_cons, Forall_cons. split.
           ++ intros (H1 & H2 & H3). split; [split; [|done]|split; [split; [by exists boss|done]|]].
              ** intros Hk. apply (H3 key Hk). set_solver.
              ** intros k [->|Hk]%elem_of_cons; [done|]. specialize (H3 k Hk). set_solver.
           ++ intros ([H1 H1'] & [_ H2] & H3). split; [done|]. split; [done|]. intros k Hk.
              specialize (H3 k (list_elem_of_further _ _ _ Hk)). set_solver.
      * intros (_ & [(b & Eb & Hb) _]%Forall_cons & _). congruence.
    + intros (_ & [(b & Eb & _) _]%Forall_cons & _). congruence.
Qed.

(** ** The bosses in order *)

Section Ordered.
Context (def : RaidDefinition) (difficulty : Z) (keys : list string).
Hypothesis Hkeys : NoDup keys.
Hypothesis Hknown : Forall (fun key => exists boss, FindBoss def key = Some boss /\
  BossAvailableOn boss difficulty = true) keys.

Let ordered := OrderedBosses def (list_to_set keys ∪ ∅).

Lemma ordered_perm : ordered ≡ₚ omap (FindBoss def) keys.
Proof.
  unfold ordered, OrderedBosses, items_set.
  rewrite !stable_sort_perm, (right_id_L ∅ (∪)), elements_list_to_set; done.
Qed.

Lemma ordered_asked boss : boss ∈ ordered <-> asked def keys boss.
Proof. rewrite ordered_perm. unfold asked. rewrite list_elem_of_omap. done. Qed.

Lemma ordered_keys : map bd_Key ordered ≡ₚ keys.
Proof.
  change (map bd_Key ordered) with (bd_Key <$> ordered). rewrite ordered_perm.
  clear Hkeys ordered. revert Hknown. induction 1 as [|key l (boss & E & _) _ IH]; cbn; [done|].
  rewrite E. cbn. rewrite IH. apply FindBoss_key in E as [_ ->]. done.
Qed.

(** The indices of the bosses asked for are distinct and in range. *)
Context (count : Z) (Hidx : indices_on def difficulty ≡ₚ seqZ 0 count).

Lemma asked_on boss : asked def keys boss ->
  boss ∈ List.filter (fun boss => BossAvailableOn boss difficulty) (rd_Bosses def).
Proof.
  intros (key & Hk & E). rewrite Forall_forall in Hknown.
  destruct (Hknown key Hk) as (b & E' & Ha). rewrite E in E'. injection E' as <-.
  apply list_elem_of_In, filter_In. split; [|done]. by apply find_some in E as [? _].
Qed.

Lemma asked_index boss : asked def keys boss -> 0 <= bd_BossIndex boss < count.
Proof.
  intros H%asked_on. assert (Hin : bd_BossIndex boss ∈ indices_on def difficulty).
  { by apply (list_elem_of_fmap_2 bd_BossIndex). }
  rewrite Hidx in Hin. apply elem_of_seqZ in Hin. lia.
Qed.

Lemma asked_index_inj boss boss' :
  asked def keys boss -> asked def keys boss' ->
  bd_BossIndex boss = bd_BossIndex boss' -> boss = boss'.
Proof.
  intros H%asked_on H'%asked_on. intros E. eapply (NoDup_fmap_elem bd_BossIndex); [|exact H|exact H'|exact E].
  change (NoDup (indices_on def difficulty)). rewrite Hidx. apply NoDup_seqZ.
Qed.

Lemma ordered_sorted : StronglySorted Z.lt (map bd_BossIndex ordered).
Proof.
  assert (Hle : StronglySorted (fun a b => bd_BossIndex a <= bd_BossIndex b) ordered).
  { apply (stable_sort_sorted _ _); [intros ? ? ? ? ?; lia|intros ? ?; b2p; lia..]. }
  assert (Hnd : NoDup (bd_Key <$> ordered)).
  { change (bd_Key <$> ordered) with (map bd_Key ordered). by rewrite ordered_keys. }
  assert (Hall : forall b, b ∈ ordered -> asked def keys b) by (intros b; apply ordered_asked).
  revert Hle Hnd Hall. generalize ordered. intros l Hle. induction Hle as [|b l Hl IH Hb]; cbn;
    intros Hnd Hall; [constructor|]. apply NoDup_cons in Hnd as [Hn Hnd]. constructor.
  - apply IH; [done|]. intros c Hc. apply Hall. by right.
  - apply Forall_map, Forall_forall. intros c Hc. rewrite Forall_forall in Hb. specialize (Hb c Hc).
    assert (bd_BossIndex b <> bd_BossIndex c); [|lia]. intros E.
    assert (b = c) as <-.
    { apply asked_index_inj; [apply Hall, list_elem_of_here|apply Hall; by right|done]. }
    by apply Hn, (list_elem_of_fmap_2 bd_Key).
Qed.

End Ordered.

(** ** Save extras *)

Lemma items_str_nodup {V} (m : gmap string V) : NoDup ((items_str m).*1).
Proof. unfold items_str. rewrite stable_sort_perm. apply NoDup_fst_map_to_list. Qed.

Lemma items_str_elem {V} (m : gmap string V) n v : (n, v) ∈ items_str m <-> m !! n = Some v.
Proof. unfold items_str. rewrite stable_sort_perm. apply elem_of_map_to_list. Qed.

(** What the extras of one boss do: names already owned must agree. *)
Lemma SeedExtras_spec boss items st :
  NoDup items.*1 ->
  (forall n, is_Some (ss_extraOwner st !! n) -> is_Some (ss_extraValues st !! n)) ->
  let '(c, st') := SeedExtras boss items st in
  ss_plan st' = ss_plan st /\
  decides c (forall n v, (n, v) ∈ items -> is_Some (ss_extraOwner st !! n) ->
    ss_extraValues st !! n = Some v) /\
  (c = Pass ->
   (forall n v, (n, v) ∈ items -> ss_extraValues st' !! n = Some v) /\
   (forall n, n ∉ items.*1 -> ss_extraValues st' !! n = ss_extraValues st !! n) /\
   (forall n, is_Some (ss_extraOwner st' !! n) <-> n ∈ items.*1 \/ is_Some (ss_extraOwner st !! n))).
Proof.
  revert st. induction items as [|[n v] items IH]; intros st Hnd Hown; cbn [SeedExtras].
  { split; [done|]. split; [split; [done|]; split; [|done]; by intros _ ? ? ?%elem_of_nil|].
    intros _. split; [by intros ? ? ?%elem_of_nil|]. split; [done|]. intros n.
    split; [auto|]. by intros [?%elem_of_nil|]. }
  cbn [fmap list_fmap] in Hnd. apply NoDup_cons in Hnd as [Hn Hnd]. cbn [fst] in Hn.
  destruct (_ && _) eqn:E.
  - apply andb_true_iff in E as [E1%bool_decide_eq_true E2]. b2p.
    split; [done|]. split; [split; [done|]; split; [done|]|done].
    intros H. specialize (H n v (list_elem_of_here _ _) E1). by rewrite H in E2.
  - specialize (IH (mkSeedState (ss_plan st) (<[n:=v]> (ss_extraValues st))
                     (<[n:=bd_Key boss]> (ss_extraOwner st))) Hnd).
    destruct (SeedExtras boss items _) as [c st']. cbn [ss_plan ss_extraValues ss_extraOwner] in IH.
    assert (Hne : forall n' v', (n', v') ∈ items -> n' <> n).
    { intros n' v' Hin ->. by apply Hn, (list_elem_of_fmap_2' fst _ (n, v')). }
    destruct IH as (H1 & H2 & H3).
    { intros n'. destruct (decide (n' = n)) as [->|Hnn].
      - rewrite !lookup_insert_eq. eauto.
      - rewrite !lookup_insert_ne by done. apply Hown. }
    split; [done|]. split.
    + eapply decides_iff; [exact H2|]. split.
      * intros H n' v' [[= -> ->]|Hin]%elem_of_cons Ho.
        -- apply andb_false_iff in E as [E%bool_decide_eq_false|E]; [done|]. b2p.
           destruct (Hown n Ho) as [x Hx]. rewrite Hx in E |- *. cbn in E. congruence.
        -- specialize (H n' v' Hin). specialize (Hne n' v' Hin).
           rewrite !lookup_insert_ne in H by done. auto.
      * intros H n' v' Hin. specialize (Hne n' v' Hin). rewrite !lookup_insert_ne by done.
        apply H. by right.
    + intros Hc. specialize (H3 Hc) as (H4 & H5 & H6). cbn [fmap list_fmap fst].
      split; [|split].
      * intros n' v' [[= -> ->]|Hin]%elem_of_cons; [|by apply H4].
        rewrite (H5 n Hn). by rewrite lookup_insert_eq.
      * intros n' [Hn1 Hn2]%not_elem_of_cons. rewrite (H5 n' Hn2). by rewrite lookup_insert_ne.
      * intros n'. rewrite H6, elem_of_cons. destruct (decide (n' = n)) as [->|Hnn].
        -- rewrite lookup_insert_eq. split; [auto|]. eauto.
        -- rewrite lookup_insert_ne by done. tauto.
Qed.

(** ** The boss loop *)

(** The bosses of [l] agree on every save value. *)
Definition agree (l : list BossDefinition) : Prop :=
  forall b b' n v v', b ∈ l -> b' ∈ l -> bd_ExtraSaveValues b !! n = Some v ->
    bd_ExtraSaveValues b' !! n = Some v' -> v = v'.

(** The two maps after the bosses of [P]. *)
Record extras_inv (defaults : gmap string Z) (P : list BossDefinition) (st : SeedState) : Prop := {
  ei_owner : forall n, is_Some (ss_extraOwner st !! n) <->
    exists b, b ∈ P /\ is_Some (bd_ExtraSaveValues b !! n);
  ei_set : forall b n v, b ∈ P -> bd_ExtraSaveValues b !! n = Some v ->
    ss_extraValues st !! n = Some v;
  ei_unset : forall n, (forall b, b ∈ P -> bd_ExtraSaveValues b !! n = None) ->
    ss_extraValues st !! n = defaults !! n
}.

Definition seed_ok (done : gset string) (boss : BossDefinition) : Prop :=
  Forall (fun p => p ∈ done) (bd_Predecessors boss) /\
  0 <= bd_DungeonEncounterBit boss /\ bd_DeadDbSpawnEntriesKnown boss = true.

Lemma CheckSeedBoss_decides done boss : decides (CheckSeedBoss done boss) (seed_ok done boss).
Proof.
  apply decides_then; [|intros _; apply decides_then; [|intros _]].
  - apply decides_all. intros p _. apply decides_refuse_if. rewrite bool_decide_eq_false.
    split; [apply dec_stable|tauto].
  - apply decides_refuse_if. by b2p.
  - apply decides_refuse_if. by b2p.
Qed.

Definition PlanStep (plan : SeedPlan) (boss : BossDefinition) : SeedPlan :=
  PlanEntries boss (PlanBoss boss plan).

Lemma SeedExtras_boss defaults P boss st :
  extras_inv defaults P st -> agree P ->
  let '(c, st') := SeedExtras boss (items_str (bd_ExtraSaveValues boss)) st in
  ss_plan st' = ss_plan st /\ decides c (agree (P ++ [boss])) /\
  (c = Pass -> extras_inv defaults (P ++ [boss]) st').
Proof.
  intros [I1 I2 I3] Hag. pose proof (SeedExtras_spec boss _ st (items_str_nodup (bd_ExtraSaveValues boss))) as H.
  destruct (SeedExtras _ _ st) as [c st']. destruct H as (H1 & H2 & H3).
  { intros n (b & Hb & v & Hv)%I1. rewrite (I2 b n v); eauto. }
  split; [done|].
  assert (Hdec : (forall n v, bd_ExtraSaveValues boss !! n = Some v ->
      is_Some (ss_extraOwner st !! n) -> ss_extraValues st !! n = Some v) <-> agree (P ++ [boss])).
  { split.
    - intros H b b' n v v'. rewrite !elem_of_app, !list_elem_of_singleton.
      intros [Hb| ->] [Hb'| ->] Hv Hv'; [by apply (Hag b b' n)| | |congruence].
      + assert (Ho : is_Some (ss_extraOwner st !! n)) by (apply I1; eauto).
        specialize (H n v' Hv' Ho). rewrite (I2 b n v Hb Hv) in H. congruence.
      + assert (Ho : is_Some (ss_extraOwner st !! n)) by (apply I1; eauto).
        specialize (H n v Hv Ho). rewrite (I2 b' n v' Hb' Hv') in H. congruence.
    - intros H n v Hv (b & Hb & v' & Hv')%I1. rewrite (I2 b n v' Hb Hv'). f_equal.
      apply (H b boss n); [apply elem_of_app; by left|apply elem_of_app; right; by left|done..]. }
  split; [eapply decides_iff; [exact H2|]; rewrite <- Hdec; by setoid_rewrite items_str_elem|].
  intros Hc. specialize (H3 Hc) as (H4 & H5 & H6).
  assert (Hag' : agree (P ++ [boss])).
  { apply Hdec. intros n v Hv. apply H2; [done|]. by apply items_str_elem. }
  assert (Hmem : forall n, n ∈ (items_str (bd_ExtraSaveValues boss)).*1 <->
      is_Some (bd_ExtraSaveValues boss !! n)).
  { intros n. rewrite list_elem_of_fmap. split.
    - intros ([n' v] & -> & Hin%items_str_elem). eauto.
    - intros [v Hv%items_str_elem]. by exists (n, v). }
  constructor.
  - intros n. rewrite H6, Hmem, I1. setoid_rewrite elem_of_app. setoid_rewrite list_elem_of_singleton.
    split; [intros [?|(b & ? & ?)]; eauto|]. intros (b & [?| ->] & ?); eauto.
  - intros b n v. rewrite elem_of_app, list_elem_of_singleton. intros Hb Hv.
    destruct (bd_ExtraSaveValues boss !! n) as [v'|] eqn:E.
    + rewrite (H4 n v') by (by apply items_str_elem). f_equal.
      apply (Hag' boss b n); [apply elem_of_app; right; by left| |done..].
      apply elem_of_app. destruct Hb as [|<-]; [by left|right; by left].
    + rewrite H5; [|rewrite Hmem, E; by intros []]. destruct Hb as [Hb| ->]; [by eapply I2|congruence].
  - intros n Hn. rewrite H5.
    + apply I3. intros b Hb. apply Hn, elem_of_app. by left.
    + rewrite Hmem, Hn; [by intros []|]. apply elem_of_app. right. by left.
Qed.

Lemma SeedBosses_spec defaults done bosses P st :
  extras_inv defaults P st -> agree P ->
  Forall (fun b => bd_BossIndex b < Z.of_nat (length (sp_BossStates (ss_plan st)))) bosses ->
  let '(c, st') := SeedBosses done bosses st in
  decides c (Forall (seed_ok done) bosses /\ agree (P ++ bosses)) /\
  (c = Pass -> extras_inv defaults (P ++ bosses) st' /\
     ss_plan st' = foldl PlanStep (ss_plan st) bosses).
Proof.
  revert P st. induction bosses as [|boss bosses IH]; intros P st Hinv Hag Hlen; cbn [SeedBosses].
  { rewrite app_nil_r. split; [|done]. split; [done|]. split; [|done]. by repeat constructor. }
  apply Forall_cons in Hlen as [Hb Hlen].
  destruct (CheckSeedBoss_decides done boss) as [Hns Hok].
  assert (Hno : forall c, c <> Stuck -> CheckSeedBoss done boss = c -> c <> Pass ->
    decides c (Forall (seed_ok done) (boss :: bosses) /\ agree (P ++ boss :: bosses)) /\
    (c = Pass -> extras_inv defaults (P ++ boss :: bosses) st /\
       ss_plan st = foldl PlanStep (ss_plan st) (boss :: bosses))).
  { intros c Hc E Hp. split; [|done]. split; [done|]. split; [done|].
    intros [[H _]%Forall_cons _]. apply Hok in H. congruence. }
  destruct (CheckSeedBoss done boss) eqn:E; [|by apply Hno..]. clear Hno.
  rewrite (proj2 (Z.leb_gt _ _) Hb).
  pose proof (SeedExtras_boss defaults P boss (with_plan st (PlanBoss boss (ss_plan st)))) as HE.
  destruct (SeedExtras _ _ _) as [c st']. destruct HE as (H1 & H2 & H3); [by destruct Hinv; constructor|done|].
  assert (Happ : P ++ boss :: bosses = (P ++ [boss]) ++ bosses) by (by rewrite <- app_assoc).
  destruct c as [|f|].
  - assert (Hag' : agree (P ++ [boss])) by (by apply H2).
    specialize (H3 eq_refl). specialize (IH (P ++ [boss]) (with_plan st' (PlanEntries boss (ss_plan st')))).
    destruct (SeedBosses _ _ _) as [c' st''].
    destruct IH as [IH1 IH2]; [by destruct H3; constructor|done| |].
    { cbn [with_plan ss_plan PlanEntries sp_BossStates]. rewrite H1. cbn. by rewrite length_insert. }
    split.
    + eapply decides_iff; [exact IH1|]. rewrite Happ, Forall_cons. tauto.
    + intros Hp. rewrite Happ. destruct (IH2 Hp) as [? HP]. split; [done|]. rewrite HP.
      cbn [with_plan ss_plan foldl]. by rewrite H1.
  - split; [|done]. split; [done|]. split; [done|]. intros [_ Hagree].
    apply H2. intros b b' n v v' Hb1 Hb2. apply Hagree; rewrite Happ; apply elem_of_app; by left.
  - by destruct H2.
Qed.

(** ** The plan the loop builds *)

Lemma mask_bit m bit i :
  0 <= m < 2 ^ 32 -> 0 <= bit < 32 -> 0 <= i ->
  let m' := u32 (Z.lor m (u32 (Z.shiftl 1 (u32 bit)))) in
  0 <= m' < 2 ^ 32 /\ (Z.testbit m' i = true <-> Z.testbit m i = true \/ bit = i).
Proof.
  intros Hm Hb Hi m'. assert (E : u32 (Z.shiftl 1 (u32 bit)) = 2 ^ bit).
  { rewrite (u32_small bit) by lia. rewrite Z.shiftl_1_l. apply u32_small.
    split; [lia|]. apply Z.pow_lt_mono_r; lia. }
  subst m'. rewrite E. unfold u32. rewrite <- Z.land_ones by lia. split.
  - rewrite Z.land_ones by lia. apply Z.mod_pos_bound. lia.
  - rewrite Z.land_spec, Z.lor_spec, Z.pow2_bits_eqb by lia.
    destruct (decide (i < 32)) as [Hlt|Hge].
    + rewrite (Z.ones_spec_low 32) by lia. rewrite andb_true_r, orb_true_iff, Z.eqb_eq. done.
    + rewrite (Z.ones_spec_high 32) by lia. rewrite andb_false_r. split; [done|].
      intros [H|]; [|lia]. destruct (decide (m = 0)) as [->|]; [by rewrite Z.bits_0 in H|].
      rewrite Z.bits_above_log2 in H; [done|lia|].
      apply Z.log2_lt_pow2; [lia|]. eapply Z.lt_le_trans; [apply Hm|]. apply Z.pow_le_mono_r; lia.
Qed.

Lemma fold_lists l plan :
  let plan' := foldl PlanStep plan l in
  sp_Difficulty plan' = sp_Difficulty plan /\ sp_EncounterCount plan' = sp_EncounterCount plan /\
  sp_BossesDone plan' = sp_BossesDone plan ++ map bd_Key l /\
  sp_BossIndicesDone plan' = sp_BossIndicesDone plan ++ map bd_BossIndex l /\
  sp_DeadDbSpawns plan' = sp_DeadDbSpawns plan ++
    flat_map (fun b => map (fun e => (bd_Key b, e)) (bd_DeadDbSpawnEntries b)) l /\
  sp_SummonedEntries plan' = sp_SummonedEntries plan ++
    flat_map (fun b => map (fun e => (bd_Key b, e)) (bd_SummonedEntries b)) l.
Proof.
  revert plan. induction l as [|b l IH]; intros plan; cbn -[app]; [by rewrite !app_nil_r|].
  destruct (IH (PlanStep plan b)) as (-> & -> & -> & -> & -> & ->). cbn -[app].
  by rewrite <- !app_assoc.
Qed.

Lemma fold_mask l plan :
  Forall (fun b => 0 <= bd_DungeonEncounterBit b < 32) l ->
  0 <= sp_CompletedEncounterMask plan < 2 ^ 32 -> forall i, 0 <= i ->
  Z.testbit (sp_CompletedEncounterMask (foldl PlanStep plan l)) i = true <->
  Z.testbit (sp_CompletedEncounterMask plan) i = true \/
  exists b, b ∈ l /\ bd_DungeonEncounterBit b = i.
Proof.
  intros Hl. revert plan. induction Hl as [|b l Hb Hl IH]; intros plan Hp i Hi; cbn [foldl].
  - split; [auto|]. intros [?|(b & []%elem_of_nil & _)]. done.
  - destruct (mask_bit _ _ i Hp Hb Hi) as [Hr Hm]. rewrite IH by done. cbn. rewrite Hm.
    setoid_rewrite elem_of_cons. split.
    + intros [[?|?]|(c & ? & ?)]; eauto 6.
    + intros [?|(c & [->|?] & ?)]; eauto 6.
Qed.

Lemma fold_states l plan :
  length (sp_BossStates (foldl PlanStep plan l)) = length (sp_BossStates plan) /\
  forall i state, sp_BossStates (foldl PlanStep plan l) !! Z.to_nat i = Some state -> 0 <= i ->
    Forall (fun b => 0 <= bd_BossIndex b) l ->
    (exists b, b ∈ l /\ bd_BossIndex b = i) /\ state = StateDone \/
    (forall b, b ∈ l -> bd_BossIndex b <> i) /\ sp_BossStates plan !! Z.to_nat i = Some state.
Proof.
  revert plan. induction l as [|b l IH]; intros plan; cbn [foldl].
  - split; [done|]. intros i state H _ _. right. split; [by intros ? ?%elem_of_nil|done].
  - destruct (IH (PlanStep plan b)) as [IH1 IH2]. cbn in IH1. rewrite length_insert in IH1.
    split; [done|]. intros i state H Hi [Hb Hl]%Forall_cons.
    destruct (IH2 i state H Hi Hl) as [[(c & Hc & E) ->]|[Hn Hs]].
    + left. split; [|done]. exists c. split; [by right|done].
    + cbn in Hs. destruct (decide (bd_BossIndex b = i)) as [<-|Hne].
      * left. rewrite list_lookup_insert_Some in Hs.
        destruct Hs as [(_ & <- & _)|[[] _]]; [|done].
        split; [|done]. exists b. split; [apply list_elem_of_here|done].
      * right. rewrite list_lookup_insert_ne in Hs by lia. split; [|done].
        intros c [->|Hc]%elem_of_cons; auto.
Qed.

Lemma default_extras l (values : gmap string Z) extra :
  NoDup (map se_Name l) -> extra ∈ l ->
  foldl (fun values extra => <[se_Name extra := se_Default extra]> values) values l
    !! se_Name extra = Some (se_Default extra).
Proof.
  assert (Hout : forall l values n, n ∉ map se_Name l ->
    foldl (fun values extra => <[se_Name extra := se_Default extra]> values) values l !! n
    = (values : gmap string Z) !! n).
  { clear. induction l as [|x l IH]; intros values n; cbn; [done|].
    intros [Hx Hn]%not_elem_of_cons. rewrite IH by done. by rewrite lookup_insert_ne. }
  revert values. induction l as [|x l IH]; intros values Hnd; cbn; [by intros ?%elem_of_nil|].
  cbn in Hnd. apply NoDup_cons in Hnd as [Hx Hnd]. intros [->|Hin]%elem_of_cons; [|by apply IH].
  rewrite Hout by done. by rewrite lookup_insert_eq.
Qed.

Lemma sorted_asked def keys ordered :
  (forall b, b ∈ ordered <-> asked def keys b) ->
  forall (entries : BossDefinition -> list Z) key entry,
  (key, entry) ∈ flat_map (fun b => map (fun e => (bd_Key b, e)) (entries b)) ordered <->
  exists boss, asked def keys boss /\ bd_Key boss = key /\ entry ∈ entries boss.
Proof.
  intros Hasked entries key entry. rewrite list_elem_of_In, in_flat_map.
  setoid_rewrite <- list_elem_of_In. setoid_rewrite <- Hasked. split.
  - intros (b & Hb & (e & [= -> ->] & He)%list_elem_of_fmap). eauto.
  - intros (b & Hb & <- & He). exists b. split; [done|]. apply list_elem_of_fmap. eauto.
Qed.

Lemma FinishPlan_spec def difficulty keys count st :
  WellFormed def -> rd_EncounterCount def !! difficulty = Some count -> 0 < count ->
  NoDup keys ->
  Forall (fun key => exists boss, FindBoss def key = Some boss /\
    BossAvailableOn boss difficulty = true) keys ->
  indices_on def difficulty ≡ₚ seqZ 0 count ->
  let ordered := OrderedBosses def (list_to_set keys ∪ ∅) in
  Forall (fun b => 0 <= bd_DungeonEncounterBit b) ordered ->
  extras_inv (DefaultExtras def) ordered st ->
  PlanOf def difficulty keys count
    (FinishPlan def (ss_extraValues st) (foldl PlanStep (SeedPlan_start def difficulty count) ordered)).
Proof.
  intros Hw Ec Hcount Hnd Hknown Hidx ordered Hbit [I1 I2 I3].
  assert (Hasked : forall b, b ∈ ordered <-> asked def keys b) by (by apply ordered_asked).
  destruct (fold_lists ordered (SeedPlan_start def difficulty count)) as (F1 & F2 & F3 & F4 & F5 & F6).
  destruct (fold_states ordered (SeedPlan_start def difficulty count)) as [F7 F8].
  cbn in F1, F2, F3, F4, F5, F6, F7. rewrite length_replicate in F7.
  constructor; cbn [FinishPlan sp_Difficulty sp_EncounterCount sp_BossStates sp_BossesDone
    sp_BossIndicesDone sp_CompletedEncounterMask sp_ExtraValues sp_SaveData sp_DeadDbSpawns
    sp_SummonedEntries]; rewrite ?F1, ?F2, ?F3, ?F4, ?F5, ?F6; try done.
  - intros i state Hs Hi. setoid_rewrite <- Hasked.
    destruct (F8 i state Hs Hi) as [?|[Hn Hr]]; [|by left|].
    + apply Forall_forall. intros b Hb%Hasked. by eapply (asked_index def difficulty keys Hknown count).
    + right. split; [done|]. cbn in Hr. by apply lookup_replicate_1 in Hr as [-> _].
  - by apply (ordered_keys def difficulty).
  - by apply (ordered_sorted def difficulty keys Hnd Hknown count).
  - apply Forall2_fmap, Forall_Forall2_diag, Forall_forall. intros b (key & _ & Hb)%Hasked.
    exists b. split; [|done]. pose proof (FindBoss_key _ _ _ Hb) as [_ ->]. done.
  - intros i Hi. setoid_rewrite <- Hasked. rewrite fold_mask; [|..|done]; cbn; [|..|lia].
    + rewrite Z.bits_0. split; [by intros [|?]|auto].
    + apply Forall_forall. intros b Hb. rewrite Forall_forall in Hbit. split; [by apply Hbit|].
      apply Hasked in Hb as (key & _ & [Hb _]%FindBoss_key). pose proof (wf_bosses _ Hw) as Hwb.
      rewrite Forall_forall in Hwb. by apply Hwb.
  - apply Forall2_fmap_r, Forall_Forall2_diag, Forall_forall. intros extra He. split; [done|]. cbn.
    unfold extra_value, seeded_extra. setoid_rewrite <- Hasked.
    destruct (decide (Exists (fun b => is_Some (bd_ExtraSaveValues b !! se_Name extra)) ordered))
      as [(b & Hb & v & Hv)%Exists_exists|Hn].
    + left. exists b. split; [done|]. rewrite Hv. by rewrite (I2 b _ v).
    + right. assert (Hnone : forall b, b ∈ ordered -> bd_ExtraSaveValues b !! se_Name extra = None).
      { intros b Hb. apply eq_None_not_Some. intros Hs. apply Hn, Exists_exists. eauto. }
      split; [done|]. rewrite (I3 _ Hnone). unfold DefaultExtras.
      rewrite default_extras; [done|apply (wf_extras _ Hw)|done].
  - f_equal. clear. induction (rd_SaveExtras def) as [|x l IH]; cbn; [done|]. by f_equal.
  - by apply sorted_asked.
  - by apply sorted_asked.
Qed.

(** ** The plan *)

(** The bosses pass their checks exactly when the set is allowed. *)
Lemma seed_ok_allowed def difficulty keys ordered : NoDup keys ->
  Forall (fun key => exists boss, FindBoss def key = Some boss /\ BossAvailableOn boss difficulty = true) keys ->
  (forall b, b ∈ ordered <-> asked def keys b) ->
  Forall (seed_ok (list_to_set keys ∪ ∅)) ordered /\ agree ordered <-> SeedAllowed def difficulty keys.
Proof.
  intros Hnd Hknown Hasked. split.
  - intros [Hok Hag]. rewrite Forall_forall in Hok. constructor; [done|done|..].
    + intros b p Hb%Hasked Hp. apply Hok in Hb as [Hb _]. rewrite Forall_forall in Hb.
      specialize (Hb p Hp). set_solver.
    + intros b Hb%Hasked. apply Hok in Hb as (_ & ? & ?). done.
    + intros b Hb%Hasked. apply Hok in Hb as (_ & ? & ?). done.
    + intros b b' n v v' Hb%Hasked Hb'%Hasked. by apply (Hag b b' n).
  - intros [_ _ A1 A2 A3 A4]. split.
    + apply Forall_forall. intros b Hb%Hasked. split; [|by auto].
      apply Forall_forall. intros p Hp. specialize (A1 b p Hb Hp). set_solver.
    + intros b b' n v v' Hb%Hasked Hb'%Hasked. by apply (A4 b b' n).
Qed.

Lemma BuildSeedPlan_lemma def difficulty keys : typed def ->
  let '(c, plan) := BuildSeedPlan def difficulty keys in
  c <> Stuck /\
  (c = Pass <-> WellFormed def /\ is_Some (rd_EncounterCount def !! difficulty) /\
     SeedAllowed def difficulty keys) /\
  (c = Pass -> exists count, rd_EncounterCount def !! difficulty = Some count /\
     PlanOf def difficulty keys count plan).
Proof.
  intros Hty. unfold BuildSeedPlan. destruct (ValidateDefinition_decides def Hty) as [Hns Hwf].
  destruct (ValidateDefinition def) as [|f|]; [|split; [done|]; split; [|done]; split; [done|];
    intros [?%Hwf _]; done|done].
  assert (Hw : WellFormed def) by (by apply Hwf). clear Hwf Hns.
  destruct (rd_EncounterCount def !! difficulty) as [count|] eqn:Ec;
    [|split; [done|]; split; [|done]; split; [done|]; by intros (_ & [] & _)].
  pose proof (CheckKeys_spec def difficulty keys ∅) as Hk.
  destruct (CheckKeys _ _ _ keys) as [c done']. destruct Hk as [[Hns Hk] Hdone].
  destruct c as [|f|]; [| |done].
  2: { split; [done|]. split; [|done]. split; [done|]. intros (_ & _ & Ha). apply Hk.
       split; [apply Ha|]. split; [apply Ha|]. by intros ? _ ?%elem_of_empty. }
  rewrite (Hdone eq_refl). apply proj1 in Hk. destruct (Hk eq_refl) as (Hnd & Hknown & _).
  pose proof (wf_indices _ Hw) as Hidx. specialize (Hidx difficulty count Ec). cbn beta in Hidx.
  set (ordered := OrderedBosses def (list_to_set keys ∪ ∅)).
  assert (Hasked : forall b, b ∈ ordered <-> asked def keys b) by (by apply ordered_asked).
  assert (Hrange : forall b, b ∈ ordered -> 0 <= bd_BossIndex b < count).
  { intros b Hb%Hasked. by eapply asked_index. }
  assert (Hcount : 0 < count).
  { destruct (wf_counts _ Hw) as [_ Hc]. by apply (Hc difficulty count). }
  pose proof (SeedBosses_spec (DefaultExtras def) (list_to_set keys ∪ ∅) ordered []
    (mkSeedState (SeedPlan_start def difficulty count) (DefaultExtras def) ∅)) as HS.
  destruct (SeedBosses _ _ _) as [c st]. destruct HS as [[HSn HS1] HS2].
  - constructor; cbn.
    + intros n. rewrite lookup_empty. split; [by intros []|]. by intros (b & ?%elem_of_nil & _).
    + by intros ? ? ? ?%elem_of_nil.
    + done.
  - by intros ? ? ? ? ? ?%elem_of_nil.
  - cbn. rewrite length_replicate. apply Forall_forall. intros b Hb. specialize (Hrange b Hb). lia.
  - assert (Hall : c = Pass <-> WellFormed def /\ is_Some (Some count) /\
      SeedAllowed def difficulty keys).
    { rewrite HS1, (seed_ok_allowed def difficulty keys ordered Hnd Hknown Hasked). split; [done|]. by intros (_ & _ & H). }
    destruct c as [|f|]; [|split; [done|split; [exact Hall|done]]|done].
    split; [done|]. split; [exact Hall|]. intros _. exists count. split; [done|].
    destruct (HS2 eq_refl) as [Hinv HP]. rewrite HP.
    apply FinishPlan_spec; try done. apply Forall_forall. intros b Hb.
    destruct (proj1 HS1 eq_refl) as [Hok _]. rewrite Forall_forall in Hok. by apply Hok in Hb as (_ & ? & _).
Qed.

(** C31. [BuildSeedPlan] always returns; it grants a plan exactly when the
    definition is well formed, has the difficulty, and the bosses asked for
    exist there, are listed once, include all their predecessors, have a known
    encounter bit and known dead spawns, and agree on the save values. The plan
    then marks exactly those bosses done (states, keys by boss index, encounter
    mask), gives every save extra its value, carries the matching save data and
    lists the bosses' dead spawns and summons. *)
Theorem BuildSeedPlan_spec def difficulty keys (Hty : typed def) :
  let '(c, plan) := BuildSeedPlan def difficulty keys in
  c <> Stuck /\
  (c = Pass <-> WellFormed def /\ is_Some (rd_EncounterCount def !! difficulty) /\
     SeedAllowed def difficulty keys) /\
  (c = Pass -> exists count, rd_EncounterCount def !! difficulty = Some count /\
     PlanOf def difficulty keys count plan).
Proof. by apply BuildSeedPlan_lemma. Qed.

Definition sample_plan : SeedPlan := (BuildSeedPlan sample_raid 2 ["second"; "first"]%string).2.

Lemma sample_plan_eq : BuildSeedPlan sample_raid 2 ["second"; "first"]%string = (Pass, sample_plan).
Proof. vm_compute. reflexivity. Qed.

Lemma BuildSeedPlan_spec_witness :
  PlanOf sample_raid 2 ["second"; "first"]%string 3 sample_plan /\
  sp_BossStates sample_plan = [3; 3; 0] /\ sp_CompletedEncounterMask sample_plan = 3.
Proof.
  split; [|by vm_compute].
  pose proof (BuildSeedPlan_spec sample_raid 2 ["second"; "first"]%string sample_typed) as H.
  rewrite sample_plan_eq in H. destruct H as (_ & _ & H).
  destruct (H eq_refl) as (count & Hc & Hp). injection Hc as <-. exact Hp.
Defined.

(** ** Respawn rows *)

Lemma onDifficulty_testbit plan spawn : 0 <= sp_Difficulty plan ->
  onDifficulty plan spawn = Z.testbit (sf_SpawnMask spawn) (sp_Difficulty plan).
Proof.
  intros Hd. unfold onDifficulty. rewrite Z.shiftl_1_l.
  destruct (Z.testbit _ _) eqn:E.
  - apply negb_true_iff, Z.eqb_neq. intros H.
    assert (H' : Z.testbit (Z.land (sf_SpawnMask spawn) (2 ^ sp_Difficulty plan)) (sp_Difficulty plan) = true).
    { rewrite Z.land_spec, E, Z.pow2_bits_true; done. }
    by rewrite H, Z.bits_0 in H'.
  - apply negb_false_iff, Z.eqb_eq. apply Z.bits_inj'. intros i Hi.
    rewrite Z.land_spec, Z.pow2_bits_eqb, Z.bits_0 by done.
    destruct (Z.eqb_spec (sp_Difficulty plan) i) as [<-|]; [by rewrite E|by rewrite andb_false_r].
Qed.

(** [spawn] is a spawn of [entry] on the plan's difficulty. *)
Definition spawn_of (plan : SeedPlan) (entry : Z) (spawn : SpawnFact) : bool :=
  (sf_Entry spawn =? entry) && onDifficulty plan spawn.

(** The rows so far: one for each id added, each of a spawn that [Q] covers. *)
Record rows_inv (Q : SpawnFact -> Prop) (added : gset Z) (rows : list RespawnRow) : Prop := {
  ri_nodup : NoDup (map rr_SpawnId rows);
  ri_added : forall id, id ∈ added <-> id ∈ map rr_SpawnId rows;
  ri_rows : forall row, row ∈ rows -> exists spawn, Q spawn /\
    row = mkRespawnRow (sf_SpawnId spawn) (sf_Entry spawn);
  ri_all : forall spawn, Q spawn -> sf_SpawnId spawn ∈ added
}.

Lemma rows_inv_iff Q Q' added rows :
  (forall s, Q s <-> Q' s) -> rows_inv Q added rows -> rows_inv Q' added rows.
Proof.
  intros H [H1 H2 H3 H4]. constructor; [done|done| |].
  - intros row Hr. destruct (H3 row Hr) as (s & ? & ?). exists s. by rewrite <- H.
  - intros s Hs. by apply H4, H.
Qed.

Lemma AddRows_spec plan entry spawns found added rows Q :
  rows_inv Q added rows ->
  let '(found', added', rows') := AddRows plan entry spawns found added rows in
  found' = found || existsb (spawn_of plan entry) spawns /\
  rows_inv (fun s => Q s \/ s ∈ spawns /\ spawn_of plan entry s = true) added' rows'.
Proof.
  revert found added rows Q. induction spawns as [|spawn spawns IH]; intros found added rows Q Hinv;
    cbn [AddRows existsb].
  { rewrite orb_false_r. split; [done|]. eapply rows_inv_iff; [|exact Hinv].
    intros s. split; [auto|]. by intros [|[?%elem_of_nil _]]. }
  fold (spawn_of plan entry spawn). destruct (spawn_of plan entry spawn) eqn:E; cbn [orb].
  - set (Q' := fun s => Q s \/ s = spawn).
    assert (Hstep : exists added' rows', rows_inv Q' added' rows' /\
      AddRows plan entry (spawn :: spawns) found added rows = AddRows plan entry spawns true added' rows').
    { cbn [AddRows]. fold (spawn_of plan entry spawn). rewrite E. destruct Hinv as [H1 H2 H3 H4].
      case_bool_decide as Hd.
      - exists added, rows. split; [|done]. constructor; [done|done| |].
        + intros row Hr. destruct (H3 row Hr) as (s & ? & ?). exists s. by split; [left|].
        + intros s [Hs| ->]; auto.
      - eexists _, _. split; [|done]. constructor.
        + rewrite map_app. apply NoDup_app. split; [done|]. split; [|apply NoDup_singleton].
          intros id Hid ->%list_elem_of_singleton. by apply Hd, H2.
        + intros id. rewrite map_app, elem_of_app, elem_of_union, elem_of_singleton, H2.
          cbn. rewrite list_elem_of_singleton. tauto.
        + intros row [Hr|Hr]%elem_of_app.
          * destruct (H3 row Hr) as (s & ? & ?). exists s. by split; [left|].
          * apply list_elem_of_singleton in Hr as ->. exists spawn. by split; [right|].
        + intros s [Hs| ->]; [apply elem_of_union_r; auto|set_solver]. }
    destruct Hstep as (added' & rows' & Hinv' & Heq).
    cbn [AddRows] in Heq. fold (spawn_of plan entry spawn) in Heq. rewrite E in Heq. rewrite Heq.
    specialize (IH true added' rows' Q' Hinv'). destruct (AddRows _ _ _ _ _ _) as [[f a] r].
    destruct IH as [-> IH]. rewrite orb_true_r. split; [done|]. eapply rows_inv_iff; [|exact IH].
    intros s. subst Q'. cbn. rewrite elem_of_cons. split; [|tauto].
    intros [[?| ->]|[? ?]]; auto.
  - specialize (IH found added rows Q Hinv). destruct (AddRows _ _ _ _ _ _) as [[f a] r].
    destruct IH as [-> IH]. split; [done|]. eapply rows_inv_iff; [|exact IH].
    intros s. cbn. rewrite elem_of_cons. split; [tauto|]. intros [|[[->|] ?]]; auto. congruence.
Qed.

Lemma DeadRows_spec plan spawns dead added rows Q :
  rows_inv Q added rows ->
  let '(c, rows') := DeadRows plan spawns dead added rows in
  decides c (Forall (fun d => existsb (spawn_of plan d.2) spawns = true) dead) /\
  (c = Pass -> exists added', rows_inv (fun s => Q s \/
     s ∈ spawns /\ exists d, d ∈ dead /\ spawn_of plan d.2 s = true) added' rows') /\
  (c <> Pass -> rows' = []).
Proof.
  revert added rows Q. induction dead as [|[boss entry] dead IH]; intros added rows Q Hinv;
    cbn [DeadRows].
  { split; [by split; [|split; [constructor|]]|]. split; [|done]. intros _. exists added.
    eapply rows_inv_iff; [|exact Hinv]. intros s. split; [auto|].
    by intros [|(_ & d & ?%elem_of_nil & _)]. }
  pose proof (AddRows_spec plan entry spawns false added rows Q Hinv) as HA.
  destruct (AddRows _ _ _ _ _ _) as [[f a] r]. destruct HA as [-> HA]. cbn [orb].
  destruct (existsb (spawn_of plan entry) spawns) eqn:E.
  - specialize (IH a r _ HA). destruct (DeadRows _ _ _ _ _) as [c rows'].
    destruct IH as (IH1 & IH2 & IH3). split; [|split; [|done]].
    + eapply decides_iff; [exact IH1|]. rewrite Forall_cons. cbn. tauto.
    + intros Hp. destruct (IH2 Hp) as [a' Ha]. exists a'. eapply rows_inv_iff; [|exact Ha].
      intros s. cbn. setoid_rewrite elem_of_cons. split.
      * intros [[?|[? ?]]|(? & d & ? & ?)]; [auto| |eauto 6]. right. split; [done|]. by exists (boss, entry); auto.
      * intros [?|(? & d & [->|?] & ?)]; [auto| |eauto 6]. cbn in *. auto.
  - split; [|done]. split; [done|]. split; [done|]. intros [H _]%Forall_cons. cbn in H. congruence.
Qed.

Lemma sorted_strict (l : list RespawnRow) :
  StronglySorted (fun a b => rr_SpawnId a <= rr_SpawnId b) l -> NoDup (map rr_SpawnId l) ->
  StronglySorted (fun a b => rr_SpawnId a < rr_SpawnId b) l.
Proof.
  induction 1 as [|x l Hl IH Hx]; cbn; [constructor|]. intros [Hn Hnd]%NoDup_cons.
  constructor; [auto|]. rewrite Forall_forall in Hx |- *. intros y Hy. specialize (Hx y Hy).
  assert (rr_SpawnId x <> rr_SpawnId y); [|lia]. intros E. apply Hn. rewrite E.
  by apply (list_elem_of_fmap_2 rr_SpawnId).
Qed.

Lemma CheckSummoned_decides plan spawns :
  decides (CheckSummoned plan spawns) (forall boss entry spawn,
    (boss, entry) ∈ sp_SummonedEntries plan -> spawn ∈ spawns ->
    sf_Entry spawn = entry -> onDifficulty plan spawn = true -> sf_ManualSpawnGroup spawn = true).
Proof.
  eapply decides_iff; [apply (decides_all _ (fun d => Forall (fun spawn =>
    sf_Entry spawn = d.2 -> onDifficulty plan spawn = true -> sf_ManualSpawnGroup spawn = true) spawns))|].
  - intros [boss entry] _. apply decides_all. intros spawn _. apply decides_refuse_if. cbn.
    destruct (onDifficulty plan spawn), (sf_ManualSpawnGroup spawn); b2p; cbn; intuition lia.
  - setoid_rewrite Forall_forall. setoid_rewrite Forall_forall. split.
    + intros H boss entry spawn Hin. by apply (H (boss, entry) Hin).
    + intros H [boss entry] Hin spawn. by apply (H boss entry spawn Hin).
Qed.

Lemma dead_spawns_iff plan spawns :
  Forall (fun d => existsb (spawn_of plan d.2) spawns = true) (sp_DeadDbSpawns plan) <->
  forall boss entry, (boss, entry) ∈ sp_DeadDbSpawns plan -> exists spawn, spawn ∈ spawns /\
    sf_Entry spawn = entry /\ onDifficulty plan spawn = true.
Proof.
  rewrite Forall_forall. setoid_rewrite existsb_elem. unfold spawn_of.
  setoid_rewrite andb_true_iff. setoid_rewrite Z.eqb_eq. split.
  - intros H boss entry Hin. by apply (H (boss, entry)).
  - intros H [boss entry] Hin. by apply (H boss entry).
Qed.

Lemma ResolveDeadSpawns_lemma plan spawns (Hd : 0 <= sp_Difficulty plan) :
  let on spawn := Z.testbit (sf_SpawnMask spawn) (sp_Difficulty plan) = true in
  let '(c, rows) := ResolveDeadSpawns plan spawns in
  c <> Stuck /\
  (c = Pass <->
     (forall boss entry, (boss, entry) ∈ sp_DeadDbSpawns plan ->
        exists spawn, spawn ∈ spawns /\ sf_Entry spawn = entry /\ on spawn) /\
     (forall boss entry spawn, (boss, entry) ∈ sp_SummonedEntries plan -> spawn ∈ spawns ->
        sf_Entry spawn = entry -> on spawn -> sf_ManualSpawnGroup spawn = true)) /\
  (c <> Pass -> rows = []) /\
  (c = Pass -> StronglySorted (fun a b => rr_SpawnId a < rr_SpawnId b) rows /\
     (forall row, row ∈ rows -> exists spawn boss, spawn ∈ spawns /\ on spawn /\
        (boss, sf_Entry spawn) ∈ sp_DeadDbSpawns plan /\
        row = mkRespawnRow (sf_SpawnId spawn) (sf_Entry spawn)) /\
     (forall spawn boss, spawn ∈ spawns -> on spawn ->
        (boss, sf_Entry spawn) ∈ sp_DeadDbSpawns plan -> sf_SpawnId spawn ∈ map rr_SpawnId rows)).
Proof.
  cbv beta zeta.
  assert (Hon : forall s, Z.testbit (sf_SpawnMask s) (sp_Difficulty plan) = onDifficulty plan s).
  { intros s. by rewrite onDifficulty_testbit. }
  unfold ResolveDeadSpawns.
  pose proof (DeadRows_spec plan spawns (sp_DeadDbSpawns plan) ∅ [] (fun _ => False)) as HD.
  destruct (DeadRows _ _ _ _ _) as [c rows]. destruct HD as (HD1 & HD2 & HD3).
  { constructor; [constructor| |by intros ? ?%elem_of_nil|done]. set_solver. }
  pose proof (CheckSummoned_decides plan spawns) as HS.
  pose proof (dead_spawns_iff plan spawns) as HF.
  rewrite HF in HD1. destruct HD1 as [Hns1 HD1], HS as [Hns2 HS].
  setoid_rewrite <- Hon in HD1. setoid_rewrite <- Hon in HS.
  destruct c as [|f|]; [|split; [done|]; split; [|split; [auto|done]]|done].
  2: { split; [done|]. intros [H _]. by apply HD1 in H. }
  destruct (CheckSummoned plan spawns) as [|f|]; [|split; [done|]; split; [|split; [auto|done]]|done].
  2: { split; [done|]. intros [_ H]. by apply HS in H. }
  split; [done|]. split; [tauto|]. split; [done|]. intros _.
  destruct (HD2 eq_refl) as [added [R1 R2 R3 R4]].
  set (sorted := stable_sort _ rows).
  assert (Hperm : sorted ≡ₚ rows) by apply stable_sort_perm.
  split; [|split].
  - apply sorted_strict.
    + apply stable_sort_sorted; [intros ? ? ? ? ?; lia|intros ? ?; b2p; lia..].
    + change (NoDup (rr_SpawnId <$> sorted)). by rewrite Hperm.
  - intros row Hr. rewrite Hperm in Hr. destruct (R3 row Hr) as (s & [[]|(Hs & [boss e] & Hin & E)] & ->).
    unfold spawn_of in E. cbn in E; b2p; destruct E as [<- E]. exists s, boss. by rewrite Hon.
  - intros s boss Hs Ho Hin. rewrite Hon in Ho. change (sf_SpawnId s ∈ rr_SpawnId <$> sorted). rewrite Hperm.
    apply R2, R4. right. split; [done|]. exists (boss, sf_Entry s). split; [done|].
    unfold spawn_of. cbn. by rewrite Z.eqb_refl, Ho.
Qed.

(** [ResolveDeadSpawns] accepts exactly when every dead entry of the plan
    has a spawn on its difficulty and every spawn of a summoned entry there
    belongs to a manual spawn group; it then returns, by increasing spawn id
    and without duplicates, the rows of exactly the spawns of the dead entries
    on that difficulty, and no row otherwise. *)
Theorem ResolveDeadSpawns_spec plan spawns (Hd : 0 <= sp_Difficulty plan) :
  let on spawn := Z.testbit (sf_SpawnMask spawn) (sp_Difficulty plan) = true in
  let '(c, rows) := ResolveDeadSpawns plan spawns in
  c <> Stuck /\
  (c = Pass <->
     (forall boss entry, (boss, entry) ∈ sp_DeadDbSpawns plan ->
        exists spawn, spawn ∈ spawns /\ sf_Entry spawn = entry /\ on spawn) /\
     (forall boss entry spawn, (boss, entry) ∈ sp_SummonedEntries plan -> spawn ∈ spawns ->
        sf_Entry spawn = entry -> on spawn -> sf_ManualSpawnGroup spawn = true)) /\
  (c <> Pass -> rows = []) /\
  (c = Pass -> StronglySorted (fun a b => rr_SpawnId a < rr_SpawnId b) rows /\
     (forall row, row ∈ rows -> exists spawn boss, spawn ∈ spawns /\ on spawn /\
        (boss, sf_Entry spawn) ∈ sp_DeadDbSpawns plan /\
        row = mkRespawnRow (sf_SpawnId spawn) (sf_Entry spawn)) /\
     (forall spawn boss, spawn ∈ spawns -> on spawn ->
        (boss, sf_Entry spawn) ∈ sp_DeadDbSpawns plan -> sf_SpawnId spawn ∈ map rr_SpawnId rows)).
Proof. by apply ResolveDeadSpawns_lemma. Qed.

Definition sample_spawns : list SpawnFact :=
  [mkSpawnFact 12 41570 15 false; mkSpawnFact 9 41442 12 false; mkSpawnFact 5 41570 2 false;
   mkSpawnFact 7 41807 15 true; mkSpawnFact 3 41570 4 false].

Lemma ResolveDeadSpawns_spec_witness :
  ResolveDeadSpawns sample_plan sample_spawns
    = (Pass, [mkRespawnRow 3 41570; mkRespawnRow 9 41442; mkRespawnRow 12 41570]) /\
  (ResolveDeadSpawns sample_plan sample_spawns).1 <> Stuck.
Proof.
  split; [by vm_compute|].
  pose proof (ResolveDeadSpawns_spec sample_plan sample_spawns ltac:(by vm_compute)) as H.
  destruct (ResolveDeadSpawns sample_plan sample_spawns). by destruct H.
Defined.
