(* ===== verification/LockoutReadback.v ===== *)
(** Seeded raid lockouts, readback: parsing save data, comparing the live
    lockout with its seed, doors, and the hexadecimal and JSON renderings, of
    [Bots/BotRaidLockoutPlan.h] and [Bots/BotRaidLockoutSeeder.cpp]. *)
From S2P Require Import Prelude RouteInteraction RouteCompletion RouteJson LockoutPlan LockoutSeed.
From Stdlib Require Import ZArith Lia String Ascii Sorting.
From stdpp Require Import base gmap list strings sorting relations list_numbers.

Open Scope Z_scope.
Open Scope tc_scope.

(** ** [std::istringstream]

    The characters left and whether the stream is good: the end of the input or
    a failed extraction stops every later extraction. *)
Record IStream : Type := mkIStream { is_text : string; is_good : bool }.

Definition isspace (c : ascii) : bool := char_in 9 13 c || Ascii.eqb c " ".

Fixpoint skip_ws (s : string) : string :=
  match s with
  | String c rest => if isspace c then skip_ws rest else s
  | EmptyString => s
  end.

(** [stream >> c] for a [char] or [unsigned char]. *)
Definition get_char (s : IStream) : option ascii * IStream :=
  if is_good s then
    match skip_ws (is_text s) with
    | String c rest => (Some c, mkIStream rest true)
    | EmptyString => (None, mkIStream "" false)
    end
  else (None, s).

(** [stream >> value] for a [uint32_t]: an optional sign, then digits; a value
    out of range fails, a minus sign negates modulo 2^32. *)
Definition get_u32 (s : IStream) : option Z * IStream :=
  if is_good s then
    let text := skip_ws (is_text s) in
    let '(negative, text) :=
      match text with
      | String c rest =>
          if Ascii.eqb c "-" then (true, rest) else if Ascii.eqb c "+" then (false, rest)
          else (false, text)
      | EmptyString => (false, text)
      end in
    let '(digits, rest) := span_digits text in
    let value := digits_value 0 digits in
    if str_empty digits || (u32_max <? value) then (None, mkIStream rest false)
    else (Some (if negative : bool then u32 (- value) else value),
          mkIStream rest (negb (str_empty rest)))
  else (None, s).

(** ** [ParseSaveData] *)

(** The C string of the bytes: what precedes the first NUL. *)
Fixpoint c_str (s : string) : string :=
  match s with
  | String c rest => if Ascii.eqb c "000" then "" else String c (c_str rest)
  | EmptyString => ""
  end.

Fixpoint ReadHeader (header : string) (s : IStream) : bool * IStream :=
  match header with
  | EmptyString => (true, s)
  | String c header =>
      if negb (isalpha c) then ReadHeader header s
      else match get_char s with
      | (Some observed, s) => if Ascii.eqb observed c then ReadHeader header s else (false, s)
      | (None, s) => (false, s)
      end
  end.

(** How a saved state loads. *)
Definition loaded_state (value : Z) : Z :=
  let value := if (value =? StateInProgress) || (value =? StateFail) || (value =? StateSpecial)
               then StateNotStarted else value in
  u8 (if value <? StateToBeDecided then value else StateToBeDecided).

Fixpoint ReadStates (count : nat) (states : list Z) (s : IStream) : bool * list Z * IStream :=
  match count with
  | O => (true, states, s)
  | S count =>
      match get_u32 s with
      | (Some value, s) => ReadStates count (states ++ [loaded_state value]) s
      | (None, s) => (false, states, s)
      end
  end.

Fixpoint ReadExtras (extras : list SaveExtraDefinition) (s : IStream) : list (string * Z) :=
  match extras with
  | [] => []
  | extra :: extras =>
      match get_char s with
      | (Some raw, s) => (se_Name extra, Z.of_nat (nat_of_ascii raw)) :: ReadExtras extras s
      | (None, s) => (se_Name extra, se_Default extra) :: ReadExtras extras s
      end
  end.

(** The result, the states and the extras. *)
Definition ParseSaveData (data : string) (header : string) (saveExtras : list SaveExtraDefinition)
    (encounterCount : Z) : bool * list Z * list (string * Z) :=
  match ReadHeader header (mkIStream (c_str data) true) with
  | (false, _) => (false, [], [])
  | (true, s) =>
      match ReadStates (Z.to_nat encounterCount) [] s with
      | (false, states, _) => (false, states, [])
      | (true, states, s) => (true, states, ReadExtras saveExtras s)
      end
  end.

(** ** [ParseSaveDataWritten] *)

(** The data after the header, when it starts with it. *)
Fixpoint TakeHeader (header data : string) : option string :=
  match header with
  | EmptyString => Some data
  | String c header =>
      if negb (isalpha c) then TakeHeader header data
      else match data with
      | String a (String b rest) =>
          if Ascii.eqb a c && Ascii.eqb b " " then TakeHeader header rest else None
      | _ => None
      end
  end.

(** At most [limit] digits: how many, their value, and the rest. *)
Fixpoint TakeDigits (limit : nat) (value : Z) (data : string) : nat * Z * string :=
  match limit, data with
  | S limit, String c rest =>
      if is_digit c then
        let '(n, value, rest) :=
          TakeDigits limit (u64 (value * 10 + (Z.of_nat (nat_of_ascii c) - 48))) rest in
        (S n, value, rest)
      else (O, value, data)
  | _, _ => (O, value, data)
  end.

Fixpoint TakeStates (count : nat) (states : list Z) (data : string)
    : bool * list Z * string :=
  match count with
  | O => (true, states, data)
  | S count =>
      match TakeDigits 10 0 data with
      | (S _, value, String " " rest) =>
          if u32_max <? value then (false, states, rest)
          else TakeStates count (states ++ [u32 value]) rest
      | (_, _, rest) => (false, states, rest)
      end
  end.

(** The result, the states and the extra bytes. *)
Definition ParseSaveDataWritten (data header : string) (encounterCount extraCount : Z)
    : bool * list Z * string :=
  match TakeHeader header data with
  | None => (false, [], ""%string)
  | Some data =>
      match TakeStates (Z.to_nat encounterCount) [] data with
      | (false, states, _) => (false, states, ""%string)
      | (true, states, extras) =>
          if negb (Z.of_nat (String.length extras) =? extraCount) then (false, states, ""%string)
          else (true, states, extras)
      end
  end.

(** ** [CompareReadback] *)

Record LockoutExpectation : Type := mkExpectation {
  le_ScriptHeader : string;
  le_EncounterCount : Z;
  le_States : list Z;
  le_BossesDone : list string;
  le_BossIndexByKey : gmap string Z;
  le_CompletedEncounterMask : Z;
  le_SaveData : string;
  le_ExtraCount : Z
}.

Record ReadbackComparison : Type := mkComparison {
  rc_ExtraDone : list string;
  rc_MissingDone : list string;
  rc_LockoutIntact : bool;
  rc_StatesEquivalent : bool;
  rc_MaskMatches : bool;
  rc_SaveDataMatches : bool;
  rc_SaveDataEquivalent : bool;
  rc_SeedMatch : bool
}.

Definition IsUntouchedState (state : Z) : bool :=
  (state =? StateNotStarted) || (state =? StateToBeDecided).

Fixpoint StatesEquivalent_loop (expected observed : list Z) : bool :=
  match expected, observed with
  | e :: expected, o :: observed =>
      if (if e =? StateDone then negb (o =? StateDone)
          else negb (IsUntouchedState o) || negb (IsUntouchedState e)) then false
      else StatesEquivalent_loop expected observed
  | _, _ => true
  end.

Definition StatesEquivalentForSeed (expected observed : list Z) : bool :=
  if negb (Nat.eqb (length expected) (length observed)) then false
  else StatesEquivalent_loop expected observed.

(** [byIndex]: the pairs (index, key) in lexicographic order. *)
Definition byIndex (indexByKey : gmap string Z) : list (Z * string) :=
  stable_sort (fun a b => (a.1 <? b.1) || ((a.1 =? b.1) && str_lt a.2 b.2))
    (map (fun '(key, index) => (index, key)) (items_str indexByKey)).

Definition observed_done (observedStates : list Z) (index : Z) : bool :=
  (index <? Z.of_nat (length observedStates))
  && (observedStates !!! Z.to_nat index =? StateDone).

Definition seeded_done (expected : LockoutExpectation) (key : string) : bool :=
  bool_decide (key ∈ le_BossesDone expected).

Definition written_equivalent (expected : LockoutExpectation) (observedSaveData : string) : bool :=
  match ParseSaveDataWritten (le_SaveData expected) (le_ScriptHeader expected)
          (le_EncounterCount expected) (le_ExtraCount expected),
        ParseSaveDataWritten observedSaveData (le_ScriptHeader expected)
          (le_EncounterCount expected) (le_ExtraCount expected) with
  | (true, expectedWritten, expectedExtras), (true, observedWritten, observedExtras) =>
      String.eqb expectedExtras observedExtras
      && StatesEquivalentForSeed expectedWritten observedWritten
  | _, _ => false
  end.

Definition CompareReadback (expected : LockoutExpectation) (observedEncounterCount : Z)
    (observedStates : list Z) (observedMask : Z) (observedSaveData : string) : ReadbackComparison :=
  let bosses := byIndex (le_BossIndexByKey expected) in
  let extraDone := map snd (List.filter (fun '(index, key) =>
    observed_done observedStates index && negb (seeded_done expected key)) bosses) in
  let missingDone := map snd (List.filter (fun '(index, key) =>
    negb (observed_done observedStates index) && seeded_done expected key) bosses) in
  let intact := (observedEncounterCount =? le_EncounterCount expected)
    && (Z.of_nat (length observedStates) =? le_EncounterCount expected)
    && list_is_empty extraDone && list_is_empty missingDone in
  let equivalent := StatesEquivalentForSeed (le_States expected) observedStates in
  let mask := observedMask =? le_CompletedEncounterMask expected in
  let matches := String.eqb observedSaveData (le_SaveData expected) in
  let saveEquivalent := matches || written_equivalent expected observedSaveData in
  mkComparison extraDone missingDone intact equivalent mask matches saveEquivalent
    (intact && equivalent && mask && saveEquivalent).

(** ** Doors *)

Definition DoorExpectedOpen (door : DoorReadback) (indexByKey : gmap string Z)
    (states : list Z) : bool :=
  if list_is_empty states || list_is_empty (dr_OpenWhenDone door) then false
  else forallb (fun key =>
      match indexByKey !! key with
      | None => false
      | Some index =>
          negb ((Z.of_nat (length states) <=? index)
                || negb (states !!! Z.to_nat index =? StateDone))
      end) (dr_OpenWhenDone door).

Definition DoorObservedState (openCount closedCount : Z) : string :=
  if (openCount =? 0) && (closedCount =? 0) then "not_loaded"
  else if nz closedCount then "closed" else "open".

Definition DoorMismatch (expectedOpen : bool) (observed : string) : bool :=
  negb (String.eqb observed "not_loaded")
  && negb (Bool.eqb (String.eqb observed "open") expectedOpen).

(** ** Hexadecimal *)

Definition hex_upper (n : nat) : ascii :=
  if (n <? 10)%nat then ascii_of_nat (48 + n) else ascii_of_nat (55 + n).

Fixpoint ToHex (bytes : string) : string :=
  match bytes with
  | EmptyString => ""
  | String c bytes =>
      let n := nat_of_ascii c in
      String (hex_upper (n / 16)) (String (hex_upper (n mod 16)) (ToHex bytes))
  end.

(** -1 when the character is no hexadecimal digit. *)
Definition nibble (c : ascii) : Z :=
  let n := Z.of_nat (nat_of_ascii c) in
  if is_decimal c then n - 48
  else if char_in 97 102 c then n - 97 + 10
  else if char_in 65 70 c then n - 65 + 10
  else -1.

(** The loop of [FromHex]: the result and the bytes so far. *)
Fixpoint FromHex_loop (hex : string) : bool * string :=
  match hex with
  | String a (String b rest) =>
      let high := nibble a in
      let low := nibble b in
      if (high <? 0) || (low <? 0) then (false, ""%string)
      else let '(ok, bytes) := FromHex_loop rest in
           (ok, String (raw_byte (Z.lor (Z.shiftl high 4) low)) bytes)
  | _ => (true, ""%string)
  end.

Definition FromHex (hex : string) : bool * string :=
  if negb (Z.of_nat (String.length hex) mod 2 =? 0) then (false, ""%string)
  else FromHex_loop hex.

(** ** JSON rendering *)

Definition hex_lower (n : nat) : ascii :=
  if (n <? 10)%nat then ascii_of_nat (48 + n) else ascii_of_nat (87 + n).

Definition json_escape_char (c : ascii) (rest : string) : string :=
  let n := nat_of_ascii c in
  if Ascii.eqb c "034" || Ascii.eqb c "\" then String "\" (String c rest)
  else if (n <? 32)%nat then
    String "\" (String "u" (String "0" (String "0"
      (String (hex_lower (n / 16)) (String (hex_lower (n mod 16)) rest)))))
  else String c rest.

Fixpoint JsonEscape (value : string) : string :=
  match value with
  | EmptyString => ""
  | String c value => json_escape_char c (JsonEscape value)
  end.

(** The elements [json += ','] separates. *)
Fixpoint json_items (items : list string) : string :=
  match items with
  | [] => ""
  | [item] => item
  | item :: items => (item ++ "," ++ json_items items)%string
  end.

Definition JsonStringArray (values : list string) : string :=
  ("[" ++ json_items (map (fun v => String "034" (JsonEscape v ++ String "034" "")) values) ++ "]")%string.

Definition JsonNumberArray (values : list Z) : string :=
  ("[" ++ json_items (map (fun v => to_string (u64 v)) values) ++ "]")%string.

(** ** The seeder's record and database readback *)

(** [record.BossIndexByKey]: every boss of the difficulty. *)
Definition BossIndexByKey (def : RaidDefinition) (difficulty : Z) : gmap string Z :=
  foldl (fun indices boss =>
      if BossAvailableOn boss difficulty then <[bd_Key boss := bd_BossIndex boss]> indices else indices)
    ∅ (rd_Bosses def).

(** [ExpectationOf] of the record [SeedLockout] fills from a plan. *)
Definition ExpectationOf (def : RaidDefinition) (difficulty : Z) (plan : SeedPlan)
    : LockoutExpectation :=
  mkExpectation (rd_ScriptHeader def) (sp_EncounterCount plan) (sp_BossStates plan)
    (sp_BossesDone plan) (BossIndexByKey def difficulty) (sp_CompletedEncounterMask plan)
    (sp_SaveData plan) (Z.of_nat (length (sp_ExtraValues plan))).

(** [ReadbackLockout] from the database row, its identity matching and the map
    not loaded: the failure of the read, the boss states and the comparison.
    The shape's extras have no defaults. *)
Definition DbReadback (expected : LockoutExpectation) (extraNames : list string)
    (saveDataHex : string) (completedEncounterMask : Z) : string * list Z * ReadbackComparison :=
  let shape := map (fun name => mkSaveExtra name SaveExtraEncoding_RawUint8 0) extraNames in
  let '(decoded, saveData) := FromHex saveDataHex in
  let '(parsed, states) :=
    if decoded : bool then
      let '(parsed, states, _) :=
        ParseSaveData saveData (le_ScriptHeader expected) shape (le_EncounterCount expected) in
      (parsed, states)
    else (false, []) in
  (if parsed : bool then ""%string else "seeded_lockout_db_save_data_unreadable"%string, states,
   CompareReadback expected (le_EncounterCount expected) states completedEncounterMask saveData).
