(* ===== verification/LockoutReload.v ===== *)
(** What a seeded lockout loads as, and that the readback accepts it. *)
From S2P Require Import Prelude RouteInteraction RouteCompletion RouteJson RouteJsonPrint LockoutPlan LockoutGraph LockoutSeed LockoutValid LockoutSeedSpec LockoutReadback.
From Stdlib Require Import ZArith Lia String Ascii Sorting.
From stdpp Require Import base gmap list strings sorting relations list_numbers.

Open Scope Z_scope.
Open Scope tc_scope.

(** ** Bytes *)

(** Facts about bytes, checked on all of them. *)
Lemma byte_forall (p : ascii -> bool) :
  forallb (fun n => p (ascii_of_nat n)) (seq 0 256) = true -> forall c, p c = true.
Proof.
  rewrite forallb_forall. intros H c. rewrite <- (ascii_nat_embedding c). apply H.
  apply in_seq. pose proof (nat_ascii_bounded c). lia.
Qed.

Lemma byte_value_forall (p : Z -> bool) :
  forallb p (seqZ 0 256) = true -> forall n, 0 <= n < 256 -> p n = true.
Proof.
  rewrite forallb_forall. intros H n Hn. apply H, list_elem_of_In, elem_of_seqZ. lia.
Qed.

(** ** Numbers in a save *)

Definition state_text_ok (n : Z) : bool :=
  let s := to_string n in
  all_digits s && negb (str_empty s) && (digits_value 0 s =? n) && (String.length s <=? 3)%nat.

Lemma state_text n : 0 <= n < 256 ->
  all_digits (to_string n) = true /\ str_empty (to_string n) = false /\
  digits_value 0 (to_string n) = n /\ (String.length (to_string n) <= 3)%nat.
Proof.
  intros Hn. pose proof (byte_value_forall state_text_ok ltac:(vm_compute; reflexivity) n Hn) as H.
  unfold state_text_ok in H. rewrite !andb_true_iff, negb_true_iff, Z.eqb_eq, Nat.leb_le in H. tauto.
Qed.

Lemma digit_not_space c : is_digit c = true ->
  isspace c = false /\ Ascii.eqb c "-" = false /\ Ascii.eqb c "+" = false.
Proof.
  pose proof (byte_forall (fun c => implb (is_digit c)
    (negb (isspace c) && negb (Ascii.eqb c "-") && negb (Ascii.eqb c "+")))
    ltac:(vm_compute; reflexivity) c) as H.
  intros E. cbn beta in H. rewrite E in H. cbn [implb] in H.
  rewrite !andb_true_iff, !negb_true_iff in H. tauto.
Qed.

Lemma alpha_not_space c : isalpha c = true -> isspace c = false /\ Ascii.eqb c "000" = false.
Proof.
  pose proof (byte_forall (fun c => implb (isalpha c) (negb (isspace c) && negb (Ascii.eqb c "000")))
    ltac:(vm_compute; reflexivity) c) as H.
  intros E. cbn beta in H. rewrite E in H. cbn [implb] in H.
  rewrite !andb_true_iff, !negb_true_iff in H. tauto.
Qed.

(** The streams a reader does not tell apart. *)
Definition reads (s : IStream) (text : string) : Prop :=
  is_good s = true /\ skip_ws (is_text s) = skip_ws text.

Lemma get_u32_state s n rest :
  reads s (to_string n ++ " " ++ rest) -> 0 <= n < 256 ->
  exists s', get_u32 s = (Some n, s') /\ reads s' rest.
Proof.
  intros [Hg Ht] Hn. destruct (state_text n Hn) as (D1 & D2 & D3 & _).
  exists (mkIStream (" " ++ rest) true). split; [|by split].
  unfold get_u32. rewrite Hg, Ht. clear Hg Ht.
  pose proof (span_digits_app (to_string n) (" " ++ rest)%string D1 ltac:(done)) as Hs.
  destruct (to_string n) as [|c d] eqn:E; [done|]. cbn [all_digits] in D1.
  apply andb_true_iff in D1 as [Dc _]. destruct (digit_not_space c Dc) as (S1 & S2 & S3).
  change ((String c d ++ " " ++ rest)%string) with (String c (d ++ " " ++ rest)%string) in *.
  cbn [skip_ws]. rewrite S1, S2, S3, Hs, D2, D3. unfold u32_max. cbn [orb].
  destruct (Z.ltb_spec (2 ^ 32 - 1) n); [lia|]. done.
Qed.

Lemma ReadStates_data states rest acc s :
  Forall (fun n => 0 <= n < 256) states -> reads s (state_data states ++ rest) ->
  exists s', ReadStates (length states) acc s = (true, acc ++ map loaded_state states, s') /\
    reads s' rest.
Proof.
  intros Hs. revert acc s. induction Hs as [|n states Hn Hs IH]; intros acc s Hr.
  { exists s. cbn. by rewrite app_nil_r. }
  cbn [state_data foldr length ReadStates] in *. rewrite !app_assoc_str in Hr.
  destruct (get_u32_state s n _ Hr Hn) as (s1 & -> & Hr1).
  destruct (IH (acc ++ [loaded_state n]) s1 Hr1) as (s2 & -> & Hr2).
  exists s2. split; [|done]. cbn [map]. by rewrite <- app_assoc.
Qed.

Lemma ReadHeader_data header rest s :
  reads s (header_data header ++ rest) ->
  exists s', ReadHeader header s = (true, s') /\ reads s' rest.
Proof.
  revert s. induction header as [|c header IH]; intros s Hr; cbn [header_data ReadHeader] in *.
  { by exists s. }
  destruct (isalpha c) eqn:E; cbn [negb]; [|by apply IH].
  destruct (alpha_not_space c E) as [Es _]. destruct Hr as [Hg Ht].
  unfold get_char. rewrite Hg, Ht. 
  rewrite !app_cons.
  cbn [skip_ws]. rewrite Es, Ascii.eqb_refl.
  apply IH. split; [done|]. cbn [is_text skip_ws]. done.
Qed.

(** ** NUL *)

Lemma string_all_app p a b : string_all p (a ++ b) = string_all p a && string_all p b.
Proof. induction a as [|c a IH]; [done|]. rewrite app_cons. cbn [string_all]. by rewrite IH, andb_assoc. Qed.

Lemma c_str_app a b : string_all (fun c => negb (Ascii.eqb c "000")) a = true ->
  c_str (a ++ b) = (a ++ c_str b)%string.
Proof.
  induction a as [|c a IH]; [done|]. rewrite app_cons. cbn [string_all c_str].
  intros [H1%negb_true_iff H2]%andb_true_iff. rewrite H1. exact (f_equal _ (IH H2)).
Qed.

Definition not_nul (c : ascii) : bool := negb (Ascii.eqb c "000").

Lemma header_not_nul header : string_all not_nul (header_data header) = true.
Proof.
  induction header as [|c header IH]; cbn [header_data]; [done|].
  destruct (isalpha c) eqn:E; [|done]. destruct (alpha_not_space c E) as [_ H].
  cbn [string_all]. unfold not_nul at 1. rewrite H. done.
Qed.

Lemma all_digits_not_nul s : all_digits s = true -> string_all not_nul s = true.
Proof.
  induction s as [|c s IH]; cbn [all_digits string_all]; [done|].
  intros [H1 H2]%andb_true_iff. rewrite (IH H2), andb_true_r.
  pose proof (byte_forall (fun c => implb (is_digit c) (not_nul c)) ltac:(vm_compute; reflexivity) c) as H.
  cbn beta in H. by rewrite H1 in H.
Qed.

Lemma states_not_nul states : Forall (fun n => 0 <= n < 256) states ->
  string_all not_nul (state_data states) = true.
Proof.
  induction 1 as [|n states Hn Hs IH]; cbn [state_data foldr]; [done|].
  fold (state_data states). rewrite !string_all_app, IH. destruct (state_text n Hn) as (D & _).
  by rewrite (all_digits_not_nul _ D).
Qed.

(** ** Raw bytes *)

Lemma raw_byte_value n : 0 <= n < 256 -> Z.of_nat (nat_of_ascii (raw_byte n)) = n.
Proof.
  intros Hn. unfold raw_byte. rewrite u8_small by lia. rewrite nat_ascii_embedding; lia.
Qed.

Lemma raw_byte_space n : 0 <= n -> RawByteRoundTrips n = true -> isspace (raw_byte n) = false.
Proof.
  intros Hn H. assert (Hr : 0 <= n < 256) by (unfold RawByteRoundTrips in H; b2p; lia).
  pose proof (byte_value_forall (fun n => implb (RawByteRoundTrips n) (negb (isspace (raw_byte n))))
    ltac:(vm_compute; reflexivity) n Hr) as Hb. cbn beta in Hb. rewrite H in Hb. by apply negb_true_iff in Hb.
Qed.

Lemma raw_byte_nul n : 0 <= n < 256 -> Ascii.eqb (raw_byte n) "000" = (n =? 0).
Proof.
  intros Hn. pose proof (byte_value_forall (fun n => Bool.eqb (Ascii.eqb (raw_byte n) "000") (n =? 0))
    ltac:(vm_compute; reflexivity) n Hn) as H. by apply Bool.eqb_prop in H.
Qed.

(** What the extras load as: the save ends at the first zero byte. *)
Fixpoint loaded_extras (extras : list SaveExtraDefinition) (values : list Z) : list (string * Z) :=
  match extras, values with
  | extra :: extras', value :: values =>
      if value =? 0 then map (fun e => (se_Name e, se_Default e)) extras
      else (se_Name extra, value) :: loaded_extras extras' values
  | _, _ => []
  end.

Lemma ReadExtras_ended extras s :
  is_good s = false -> ReadExtras extras s = map (fun e => (se_Name e, se_Default e)) extras.
Proof.
  induction extras as [|e extras IH]; intros Hs; cbn; [done|].
  unfold get_char. rewrite Hs. by rewrite IH.
Qed.

Lemma ReadExtras_data extras values s :
  length extras = length values ->
  Forall (fun v => 0 <= v /\ RawByteRoundTrips v = true) values ->
  reads s (c_str (extra_data (zip (map se_Encoding extras) values))) ->
  ReadExtras extras s = loaded_extras extras values.
Proof.
  revert values s. induction extras as [|e extras IH]; intros [|v values] s Hl Hv [Hg Ht];
    try discriminate; [done|].
  apply Forall_cons in Hv as [[Hv0 Hv1] Hv]. cbn [map zip zip_with extra_data foldr fst snd] in Ht.
  assert (Hr : 0 <= v < 256) by (unfold RawByteRoundTrips in Hv1; b2p; lia).
  destruct (se_Encoding e). cbn [c_str] in Ht. rewrite raw_byte_nul in Ht by done.
  cbn [ReadExtras loaded_extras]. unfold get_char. rewrite Hg, Ht.
  destruct (Z.eqb_spec v 0) as [->|Hne].
  - cbn [skip_ws]. by rewrite ReadExtras_ended.
  - cbn [skip_ws]. rewrite (raw_byte_space v Hv0 Hv1), raw_byte_value by done. f_equal.
    apply IH; [by injection Hl|done|]. by split.
Qed.

(** The states load whatever the extras are. *)
Lemma ParseSaveData_states header states data extras :
  Forall (fun n => 0 <= n < 256) states ->
  exists s, reads s (c_str (extra_data data)) /\
    ParseSaveData (BuildSaveData header states data) header extras (Z.of_nat (length states))
    = (true, map loaded_state states, ReadExtras extras s).
Proof.
  intros Hs. unfold ParseSaveData, BuildSaveData. rewrite Nat2Z.id.
  rewrite c_str_app by apply header_not_nul. rewrite c_str_app by (by apply states_not_nul).
  destruct (ReadHeader_data header (state_data states ++ c_str (extra_data data))
    (mkIStream (header_data header ++ state_data states ++ c_str (extra_data data)) true))
    as (s1 & -> & Hr1); [done|].
  destruct (ReadStates_data states _ [] s1 Hs Hr1) as (s2 & -> & Hr2). by exists s2.
Qed.

Lemma ParseSaveData_BuildSaveData header states extras values :
  Forall (fun n => 0 <= n < 256) states -> length extras = length values ->
  Forall (fun v => 0 <= v /\ RawByteRoundTrips v = true) values ->
  ParseSaveData (BuildSaveData header states (zip (map se_Encoding extras) values)) header extras
    (Z.of_nat (length states))
  = (true, map loaded_state states, loaded_extras extras values).
Proof.
  intros Hs Hl Hv. destruct (ParseSaveData_states header states
    (zip (map se_Encoding extras) values) extras Hs) as (s & Hr & ->).
  by rewrite (ReadExtras_data extras values s Hl Hv Hr).
Qed.

(** ** Save data as written *)

Lemma TakeHeader_data header rest : TakeHeader header (header_data header ++ rest) = Some rest.
Proof.
  induction header as [|c header IH]; cbn [header_data TakeHeader]; [done|].
  destruct (isalpha c); cbn [negb]; [|done].
  rewrite !app_cons, Ascii.eqb_refl. cbn [andb Ascii.eqb Bool.eqb]. exact IH.
Qed.

Lemma digit_value_nonneg c : is_digit c = true -> 48 <= Z.of_nat (nat_of_ascii c).
Proof.
  pose proof (byte_forall (fun c => implb (is_digit c) (48 <=? Z.of_nat (nat_of_ascii c)))
    ltac:(vm_compute; reflexivity) c) as H.
  intros E. cbn beta in H. rewrite E in H. by apply Z.leb_le in H.
Qed.

Lemma digits_value_ge acc d : 0 <= acc -> all_digits d = true -> acc <= digits_value acc d.
Proof.
  revert acc. induction d as [|c d IH]; intros acc Ha; cbn [all_digits digits_value]; [lia|].
  intros [Hc Hd]%andb_true_iff. apply digit_value_nonneg in Hc.
  etrans; [|apply IH; [|done]]; lia.
Qed.

Lemma TakeDigits_digits limit v d rest :
  (String.length d < limit)%nat -> all_digits d = true -> 0 <= v -> digits_value v d < 2 ^ 64 ->
  TakeDigits limit v (d ++ String " " rest) = (String.length d, digits_value v d, String " " rest).
Proof.
  revert limit v. induction d as [|c d IH]; intros [|limit] v Hl Hd Hv Hb; try (cbn in Hl; lia).
  { done. }
  rewrite app_cons. cbn [TakeDigits all_digits digits_value String.length] in *.
  apply andb_true_iff in Hd as [Hc Hd]. rewrite Hc. pose proof (digit_value_nonneg c Hc).
  pose proof (digits_value_ge (10 * v + (Z.of_nat (nat_of_ascii c) - 48)) d ltac:(lia) Hd).
  replace (v * 10) with (10 * v) by lia. rewrite u64_small by lia.
  rewrite IH; [done|lia|done|lia|done].
Qed.

Lemma TakeStates_data states rest acc :
  Forall (fun n => 0 <= n < 256) states ->
  TakeStates (length states) acc (state_data states ++ rest) = (true, acc ++ states, rest).
Proof.
  intros Hs. revert acc. induction Hs as [|n states Hn Hs IH]; intros acc.
  { cbn. by rewrite app_nil_r. }
  destruct (state_text n Hn) as (D1 & D2 & D3 & D4).
  cbn [length TakeStates state_data foldr]. fold (state_data states).
  rewrite !app_assoc_str, app_cons, app_empty, TakeDigits_digits; [|lia|done|lia|rewrite D3; lia].
  rewrite D3. destruct (to_string n) as [|c d]; [done|]. cbn [String.length].
  unfold u32_max. destruct (Z.ltb_spec (2 ^ 32 - 1) n); [lia|].
  rewrite u32_small by lia. rewrite IH. by rewrite <- app_assoc.
Qed.

Lemma extra_data_length extras : String.length (extra_data extras) = length extras.
Proof.
  induction extras as [|[[] v] extras IH]; cbn [extra_data foldr String.length length fst snd]; [done|].
  by f_equal.
Qed.

Lemma ParseSaveDataWritten_lemma header states extras
    (Hs : Forall (fun n => 0 <= n < 256) states) :
  ParseSaveDataWritten (BuildSaveData header states extras) header
    (Z.of_nat (length states)) (Z.of_nat (length extras))
  = (true, states, extra_data extras).
Proof.
  unfold ParseSaveDataWritten, BuildSaveData. rewrite TakeHeader_data, Nat2Z.id.
  rewrite TakeStates_data by done. by rewrite extra_data_length, Z.eqb_refl.
Qed.

(** Save data read as written: for every header, boss states and raw
    extras, [ParseSaveDataWritten] recovers exactly the states and the extra
    bytes [BuildSaveData] wrote, whatever bytes they are. *)
Theorem ParseSaveDataWritten_BuildSaveData header states extras
    (Hs : Forall (fun n => 0 <= n < 256) states) :
  ParseSaveDataWritten (BuildSaveData header states extras) header
    (Z.of_nat (length states)) (Z.of_nat (length extras))
  = (true, states, extra_data extras).
Proof. by apply ParseSaveDataWritten_lemma. Qed.

Lemma ParseSaveDataWritten_BuildSaveData_witness :
  ParseSaveDataWritten (BuildSaveData "BWD" [3; 5; 255] [(SaveExtraEncoding_RawUint8, 0)]) "BWD" 3 1
  = (true, [3; 5; 255], String "000" "").
Proof.
  apply (ParseSaveDataWritten_BuildSaveData "BWD" [3; 5; 255] [(SaveExtraEncoding_RawUint8, 0)]).
  repeat constructor; lia.
Defined.

(** ** The states of a plan *)

Section Plan.
Context (def : RaidDefinition) (difficulty : Z) (keys : list string) (count : Z) (plan : SeedPlan).
Hypothesis Hwf : WellFormed def.
Hypothesis Hcount : rd_EncounterCount def !! difficulty = Some count.
Hypothesis Hallowed : SeedAllowed def difficulty keys.
Hypothesis Hplan : PlanOf def difficulty keys count plan.

Lemma plan_states : Forall (fun n => n = StateDone \/ n = rd_InitialBossState def) (sp_BossStates plan).
Proof.
  apply Forall_lookup. intros i n Hn.
  destruct (po_states _ _ _ _ _ Hplan (Z.of_nat i) n) as [[_ ?]|[_ ?]]; auto; [|lia].
  by rewrite Nat2Z.id.
Qed.

Lemma plan_states_byte : Forall (fun n => 0 <= n < 256) (sp_BossStates plan).
Proof.
  eapply Forall_impl; [apply plan_states|]. cbn.
  intros n [->| ->]; [|destruct (wf_initial _ Hwf) as [-> | ->]]; vm_compute; intuition done.
Qed.

Lemma plan_states_load : map loaded_state (sp_BossStates plan) = sp_BossStates plan.
Proof.
  rewrite <- (map_id (sp_BossStates plan)) at 2. apply map_ext_in. intros n Hn%list_elem_of_In.
  pose proof plan_states as H. rewrite Forall_forall in H.
  destruct (H n Hn) as [->| ->]; [|destruct (wf_initial _ Hwf) as [-> | ->]]; done.
Qed.

Lemma plan_count : Z.of_nat (length (sp_BossStates plan)) = count.
Proof.
  rewrite (po_length _ _ _ _ _ Hplan). destruct (wf_counts _ Hwf) as [_ H].
  specialize (H difficulty count Hcount). cbn in H. lia.
Qed.

End Plan.

Lemma loaded_extras_all extras values :
  Forall2 (fun e v => v.1 = se_Name e) extras values -> Forall (fun v => v.2 <> 0) values ->
  loaded_extras extras (map snd values) = values.
Proof.
  induction 1 as [|e [n v] extras values E _ IH]; intros Hv; [done|].
  apply Forall_cons in Hv as [Hv Hvs]. cbn [map loaded_extras fst snd] in *. subst n.
  rewrite (proj2 (Z.eqb_neq _ _) Hv). by f_equal; auto.
Qed.

(** C32. A granted plan loads as the native script would load it: the states
    are exactly the plan's, and, when every save extra is a byte that is not
    whitespace, the extras are the plan's up to the first zero byte and
    defaults from there on; without a zero byte they are all the plan's. A
    default may be whitespace, and such a plan need not load
    ([whitespace_default_lost]). *)
Theorem seed_save_loads def difficulty keys plan (Hty : typed def)
    (H : BuildSeedPlan def difficulty keys = (Pass, plan))
    (Hextras : Forall (fun e => 0 <= e.2 /\ RawByteRoundTrips e.2 = true) (sp_ExtraValues plan)) :
  ParseSaveData (sp_SaveData plan) (rd_ScriptHeader def) (rd_SaveExtras def) (sp_EncounterCount plan)
  = (true, sp_BossStates plan, loaded_extras (rd_SaveExtras def) (map snd (sp_ExtraValues plan))) /\
  (Forall (fun e => e.2 <> 0) (sp_ExtraValues plan) ->
   loaded_extras (rd_SaveExtras def) (map snd (sp_ExtraValues plan)) = sp_ExtraValues plan).
Proof.
  pose proof (BuildSeedPlan_lemma def difficulty keys Hty) as HB. rewrite H in HB.
  destruct HB as (_ & Hiff & HP). destruct (proj1 Hiff eq_refl) as (Hwf & _ & Hal).
  destruct (HP eq_refl) as (count & Hc & Hplan).
  pose proof (po_extras _ _ _ _ _ Hplan) as He. split.
  - rewrite (po_save _ _ _ _ _ Hplan), (po_count _ _ _ _ _ Hplan).
    rewrite <- (plan_count def difficulty keys count plan Hwf Hc Hplan).
    rewrite ParseSaveData_BuildSaveData.
    + by rewrite (plan_states_load def difficulty keys count plan Hwf Hplan).
    + by apply (plan_states_byte def difficulty keys count plan).
    + rewrite length_map. by apply Forall2_length in He.
    + by apply Forall_map.
  - apply loaded_extras_all. eapply Forall2_impl; [exact He|]. by intros e v [? _].
Qed.

Lemma seed_save_loads_witness :
  ParseSaveData (sp_SaveData sample_plan) "V" (rd_SaveExtras sample_raid) 3
  = (true, [3; 3; 0], [("gate"%string, 7)]).
Proof.
  destruct (seed_save_loads sample_raid 2 ["second"; "first"]%string sample_plan sample_typed
    sample_plan_eq) as [H1 H2].
  - vm_compute. repeat constructor; done.
  - exact H1.
Defined.

(** [RawByteRoundTrips] lets a boss set a save extra to zero, and a zero does
    not load: the C string ends there and the extra keeps its default. *)
Definition zero_extra_raid : RaidDefinition :=
  mkRaid SchemaVersion "vault" 669 "instance_vault" "V" StateNotStarted [0] {[0 := 1]}
    [sample_boss "first" 0 [] {["gate"%string := 0]} [41570] [] []]
    [mkSaveExtra "gate" SaveExtraEncoding_RawUint8 1] [].

Lemma zero_extra_lost : exists plan,
  BuildSeedPlan zero_extra_raid 0 ["first"%string] = (Pass, plan) /\
  sp_ExtraValues plan = [("gate"%string, 0)] /\
  ParseSaveData (sp_SaveData plan) "V" (rd_SaveExtras zero_extra_raid) 1
  = (true, [3], [("gate"%string, 1)]).
Proof. eexists. split; [vm_compute; reflexivity|]. split; vm_compute; reflexivity. Qed.

(** [ValidateDefinition] does not ask [RawByteRoundTrips] of a default: one that
    is whitespace is granted and skipped by the load, and what follows it loads
    one place early. *)
Definition whitespace_default_raid : RaidDefinition :=
  mkRaid SchemaVersion "vault" 669 "instance_vault" "V" StateNotStarted [0] {[0 := 1]}
    [sample_boss "first" 0 [] {["wing"%string := 7]} [41570] [] []]
    [mkSaveExtra "gate" SaveExtraEncoding_RawUint8 32; mkSaveExtra "wing" SaveExtraEncoding_RawUint8 1] [].

Lemma whitespace_default_lost : exists plan,
  BuildSeedPlan whitespace_default_raid 0 ["first"%string] = (Pass, plan) /\
  sp_ExtraValues plan = [("gate"%string, 32); ("wing"%string, 7)] /\
  ParseSaveData (sp_SaveData plan) "V" (rd_SaveExtras whitespace_default_raid) 1
  = (true, [3], [("gate"%string, 7); ("wing"%string, 1)]).
Proof. eexists. split; [vm_compute; reflexivity|]. split; vm_compute; reflexivity. Qed.

(** ** Hexadecimal *)

Lemma hex_byte c :
  let n := nat_of_ascii c in
  let high := nibble (hex_upper (n / 16)) in
  let low := nibble (hex_upper (n mod 16)) in
  (high <? 0) || (low <? 0) = false /\ raw_byte (Z.lor (Z.shiftl high 4) low) = c.
Proof.
  pose proof (byte_forall (fun c =>
    let n := nat_of_ascii c in
    let high := nibble (hex_upper (n / 16)) in
    let low := nibble (hex_upper (n mod 16)) in
    negb ((high <? 0) || (low <? 0)) && Ascii.eqb (raw_byte (Z.lor (Z.shiftl high 4) low)) c)
    ltac:(vm_compute; reflexivity) c) as H.
  cbv zeta beta in *. apply andb_true_iff in H as [H1 H2]. split.
  - by apply negb_true_iff in H1.
  - by apply Ascii.eqb_eq in H2.
Qed.

Lemma FromHex_ToHex bytes : FromHex (ToHex bytes) = (true, bytes).
Proof.
  assert (Hl : Z.of_nat (String.length (ToHex bytes)) = 2 * Z.of_nat (String.length bytes)).
  { induction bytes as [|c bytes IH]; cbn [ToHex String.length]; [done|]. lia. }
  unfold FromHex. rewrite Hl. rewrite Z.mul_comm, Z_mod_mult. cbn [Z.eqb negb].
  clear Hl. induction bytes as [|c bytes IH]; cbn [ToHex FromHex_loop]; [done|].
  destruct (hex_byte c) as [H1 H2]. cbv zeta in H1, H2. by rewrite H1, H2, IH.
Qed.

(** ** State comparison *)

(** A seeded boss is done, any other untouched. *)
Definition state_equivalent (expected observed : Z) : Prop :=
  expected = StateDone /\ observed = StateDone \/
  expected <> StateDone /\ IsUntouchedState expected = true /\ IsUntouchedState observed = true.

Lemma StatesEquivalentForSeed_spec expected observed :
  StatesEquivalentForSeed expected observed = true <-> Forall2 state_equivalent expected observed.
Proof.
  unfold StatesEquivalentForSeed. destruct (Nat.eqb_spec (length expected) (length observed)) as [E|E].
  - cbn [negb]. revert observed E. induction expected as [|e expected IH]; intros [|o observed] E;
      try discriminate; cbn [StatesEquivalent_loop]; [done|].
    injection E as E. specialize (IH observed E). rewrite Forall2_cons.
    unfold state_equivalent at 1. destruct (Z.eqb_spec e StateDone) as [->|Hne].
    + destruct (Z.eqb_spec o StateDone) as [->|Ho]; cbn [negb]; [tauto|]. split; [done|]. tauto.
    + destruct (IsUntouchedState e), (IsUntouchedState o); cbn [negb orb]; intuition done.
  - split; [done|]. intros H%Forall2_length. done.
Qed.

Lemma state_equivalent_refl s : s = StateDone \/ IsUntouchedState s = true -> state_equivalent s s.
Proof.
  intros H. unfold state_equivalent. destruct (decide (s = StateDone)) as [->|]; [auto|].
  right. destruct H; auto.
Qed.

(** ** Comparison *)

Lemma byIndex_elem m key index : (index, key) ∈ byIndex m <-> m !! key = Some index.
Proof.
  unfold byIndex. rewrite stable_sort_perm. rewrite <- items_str_elem. split.
  - intros ([k i] & [= -> ->] & H)%list_elem_of_fmap. done.
  - intros H. apply list_elem_of_fmap. by exists (key, index).
Qed.

Lemma observed_done_spec states index : 0 <= index ->
  observed_done states index = true <-> states !! Z.to_nat index = Some StateDone.
Proof.
  intros Hi. unfold observed_done. rewrite andb_true_iff, Z.ltb_lt, Z.eqb_eq. split.
  - intros [Hl E]. rewrite list_lookup_alt. split; [lia|done].
  - intros H. apply list_lookup_alt in H as [Hl E]. split; [lia|done].
Qed.

Lemma filter_is_empty {A} (p : A -> bool) l :
  list_is_empty (List.filter p l) = true <-> forall x, x ∈ l -> p x = false.
Proof.
  induction l as [|x l IH]; cbn.
  - split; [by intros _ ? ?%elem_of_nil|done].
  - destruct (p x) eqn:E; cbn; setoid_rewrite elem_of_cons.
    + split; [done|]. intros H. rewrite (H x) in E; auto.
    + rewrite IH. split; [intros H y [->|?]; auto|auto].
Qed.

Lemma list_is_empty_map {A B} (f : A -> B) l : list_is_empty (map f l) = list_is_empty l.
Proof. by destruct l. Qed.

Lemma filter_keys m (p : Z * string -> bool) key :
  key ∈ map snd (List.filter p (byIndex m)) <->
  exists index, m !! key = Some index /\ p (index, key) = true.
Proof.
  rewrite list_elem_of_In, in_map_iff. setoid_rewrite filter_In. setoid_rewrite <- list_elem_of_In. split.
  - intros ([i k] & <- & H & Hp). exists i. by rewrite <- byIndex_elem.
  - intros (i & H & Hp). exists (i, key). by rewrite byIndex_elem.
Qed.

Section Compare.
Context (expected : LockoutExpectation).
Hypothesis Hindex : map_Forall (fun _ index => 0 <= index) (le_BossIndexByKey expected).

(** The save data differs from the seed's at most in untouched states. *)
Definition save_equivalent (observed : string) : Prop :=
  observed = le_SaveData expected \/
  exists written states extras,
    ParseSaveDataWritten (le_SaveData expected) (le_ScriptHeader expected)
      (le_EncounterCount expected) (le_ExtraCount expected) = (true, written, extras) /\
    ParseSaveDataWritten observed (le_ScriptHeader expected)
      (le_EncounterCount expected) (le_ExtraCount expected) = (true, states, extras) /\
    Forall2 state_equivalent written states.

Lemma written_equivalent_spec observed :
  String.eqb observed (le_SaveData expected) || written_equivalent expected observed = true
  <-> save_equivalent observed.
Proof.
  unfold written_equivalent, save_equivalent. rewrite orb_true_iff, String.eqb_eq.
  destruct (ParseSaveDataWritten (le_SaveData expected) _ _ _) as [[[] w] e].
  - destruct (ParseSaveDataWritten observed _ _ _) as [[[] w'] e'].
    + rewrite andb_true_iff, String.eqb_eq, StatesEquivalentForSeed_spec. split.
      * intros [?|[<- ?]]; [auto|]. right. by exists w, w', e.
      * intros [?|(a & b & c & [= <- <-] & [= <- <-] & ?)]; [auto|]. right. done.
    + split; [intros [?|?]; [auto|done]|]. intros [?|(a & b & c & _ & ? & _)]; [auto|done].
  - split; [intros [?|?]; [auto|done]|]. intros [?|(a & b & c & ? & _)]; [auto|done].
Qed.

Lemma CompareReadback_lemma count states mask save :
  let r := CompareReadback expected count states mask save in
  let done_at index := states !! Z.to_nat index = Some StateDone in
  (forall key, key ∈ rc_ExtraDone r <-> exists index,
     le_BossIndexByKey expected !! key = Some index /\ done_at index /\ key ∉ le_BossesDone expected) /\
  (forall key, key ∈ rc_MissingDone r <-> exists index,
     le_BossIndexByKey expected !! key = Some index /\ ~ done_at index /\ key ∈ le_BossesDone expected) /\
  (rc_SeedMatch r = true <->
     count = le_EncounterCount expected /\ Z.of_nat (length states) = le_EncounterCount expected /\
     (forall key index, le_BossIndexByKey expected !! key = Some index ->
        (done_at index <-> key ∈ le_BossesDone expected)) /\
     Forall2 state_equivalent (le_States expected) states /\
     mask = le_CompletedEncounterMask expected /\ save_equivalent save).
Proof.
  cbv zeta. cbn [CompareReadback rc_ExtraDone rc_MissingDone rc_SeedMatch].
  assert (Hd : forall key index, le_BossIndexByKey expected !! key = Some index ->
    observed_done states index = true <-> states !! Z.to_nat index = Some StateDone).
  { intros key index Hk. apply observed_done_spec. by apply (Hindex key index). }
  assert (Hdn : forall key index, le_BossIndexByKey expected !! key = Some index ->
    observed_done states index = false <-> ~ states !! Z.to_nat index = Some StateDone).
  { intros key index Hk. rewrite <- (Hd key index Hk). by destruct (observed_done _ _). }
  unfold seeded_done. split; [|split].
  - intros key. rewrite filter_keys. apply exist_proper. intros index. split.
    + intros (Hk & [H1 H2%negb_true_iff]%andb_true_iff). rewrite bool_decide_eq_false in H2.
      by rewrite <- (Hd key index Hk).
    + intros (Hk & H1 & H2). split; [done|]. rewrite (proj2 (Hd key index Hk) H1).
      by rewrite bool_decide_eq_false_2.
  - intros key. rewrite filter_keys. apply exist_proper. intros index. split.
    + intros (Hk & [H1%negb_true_iff H2]%andb_true_iff). rewrite bool_decide_eq_true in H2.
      by rewrite <- (Hdn key index Hk).
    + intros (Hk & H1 & H2). split; [done|]. rewrite (proj2 (Hdn key index Hk) H1).
      by rewrite bool_decide_eq_true_2.
  - rewrite !andb_true_iff, !Z.eqb_eq, StatesEquivalentForSeed_spec, written_equivalent_spec.
    rewrite !list_is_empty_map, !filter_is_empty.
    assert (Hall : ((forall x, x ∈ byIndex (le_BossIndexByKey expected) ->
        (let '(index, key) := x in observed_done states index
           && negb (bool_decide (key ∈ le_BossesDone expected))) = false) /\
      (forall x, x ∈ byIndex (le_BossIndexByKey expected) ->
        (let '(index, key) := x in negb (observed_done states index)
           && bool_decide (key ∈ le_BossesDone expected)) = false)) <->
      forall key index, le_BossIndexByKey expected !! key = Some index ->
        (states !! Z.to_nat index = Some StateDone <-> key ∈ le_BossesDone expected)).
    { split.
      - intros [H1 H2] key index Hk. pose proof Hk as Hin. apply byIndex_elem in Hin.
        specialize (H1 _ Hin). specialize (H2 _ Hin). cbn beta iota in H1, H2.
        rewrite <- (Hd key index Hk). destruct (observed_done states index); cbn in H1, H2.
        + apply negb_false_iff, bool_decide_eq_true in H1. done.
        + apply bool_decide_eq_false in H2. done.
      - intros H. split; intros [index key] Hk%byIndex_elem; specialize (H key index Hk);
          rewrite <- (Hd key index Hk) in H; destruct (observed_done states index); cbn; [|done..|].
        + apply negb_false_iff, bool_decide_eq_true. tauto.
        + apply bool_decide_eq_false. intros Hin. by apply H in Hin. }
    tauto.
Qed.

(** The seed acceptance test is exact: it reports precisely the bosses
    done but not seeded and those seeded but not done, and matches exactly
    when the encounter count, every boss's done state, the equivalence of all
    states, the encounter mask and the save data (equal, or the same extras
    with equivalent states) agree with the seed. *)
Theorem CompareReadback_spec count states mask save :
  let r := CompareReadback expected count states mask save in
  let done_at index := states !! Z.to_nat index = Some StateDone in
  (forall key, key ∈ rc_ExtraDone r <-> exists index,
     le_BossIndexByKey expected !! key = Some index /\ done_at index /\ key ∉ le_BossesDone expected) /\
  (forall key, key ∈ rc_MissingDone r <-> exists index,
     le_BossIndexByKey expected !! key = Some index /\ ~ done_at index /\ key ∈ le_BossesDone expected) /\
  (rc_SeedMatch r = true <->
     count = le_EncounterCount expected /\ Z.of_nat (length states) = le_EncounterCount expected /\
     (forall key index, le_BossIndexByKey expected !! key = Some index ->
        (done_at index <-> key ∈ le_BossesDone expected)) /\
     Forall2 state_equivalent (le_States expected) states /\
     mask = le_CompletedEncounterMask expected /\ save_equivalent save).
Proof. apply CompareReadback_lemma. Qed.

End Compare.

Definition sample_expectation : LockoutExpectation := ExpectationOf sample_raid 2 sample_plan.

Lemma CompareReadback_spec_witness :
  rc_SeedMatch (CompareReadback sample_expectation 3 [3; 3; 5] 3 "V 3 3 5 " ) = false /\
  ~ save_equivalent sample_expectation "V 3 3 5 ".
Proof.
  split; [by vm_compute|]. intros H.
  destruct (CompareReadback_spec sample_expectation
    ltac:(by apply (bool_decide_unpack _); vm_compute) 3 [3; 3; 5] 3 "V 3 3 5 ") as (_ & _ & Hm).
  assert (Hf : rc_SeedMatch (CompareReadback sample_expectation 3 [3; 3; 5] 3 "V 3 3 5 ") = false)
    by (by vm_compute).
  rewrite Hf in Hm. assert (false = true); [|done]. apply Hm. split; [done|]. split; [done|].
  split; [|split; [|split; [done|exact H]]].
  - intros key index Hk. assert (Ha : Forall (fun p => ([3; 3; 5] !! Z.to_nat p.2 = Some StateDone)
      <-> p.1 ∈ le_BossesDone sample_expectation) (map_to_list (le_BossIndexByKey sample_expectation))).
    { apply (bool_decide_unpack _). by vm_compute. }
    rewrite Forall_forall in Ha. apply (Ha (key, index)). by apply elem_of_map_to_list.
  - change (Forall2 state_equivalent [3; 3; 0] [3; 3; 5]).
    apply StatesEquivalentForSeed_spec. by vm_compute.
Defined.

(** ** Readback of a seed *)

Section SeedReadback.
Context (def : RaidDefinition) (difficulty : Z) (keys : list string) (count : Z) (plan : SeedPlan).
Hypothesis Hwf : WellFormed def.
Hypothesis Hcount : rd_EncounterCount def !! difficulty = Some count.
Hypothesis Hallowed : SeedAllowed def difficulty keys.
Hypothesis Hplan : PlanOf def difficulty keys count plan.

Lemma BossIndexByKey_spec key index :
  BossIndexByKey def difficulty !! key = Some index ->
  exists boss, boss ∈ rd_Bosses def /\ BossAvailableOn boss difficulty = true /\
    bd_Key boss = key /\ bd_BossIndex boss = index.
Proof.
  unfold BossIndexByKey. enough (Hgen : forall l (m : gmap string Z),
    foldl (fun indices boss => if BossAvailableOn boss difficulty
        then <[bd_Key boss := bd_BossIndex boss]> indices else indices) m l !! key = Some index ->
    m !! key = Some index \/ exists boss, boss ∈ l /\ BossAvailableOn boss difficulty = true /\
      bd_Key boss = key /\ bd_BossIndex boss = index).
  { intros H. apply Hgen in H as [H|H]; [by rewrite lookup_empty in H|done]. }
  induction l as [|b l IH]; intros m H; cbn in H; [auto|].
  setoid_rewrite elem_of_cons. apply IH in H as [H|(boss & ? & ?)]; [|by eauto 6].
  destruct (BossAvailableOn b difficulty) eqn:E; [|auto].
  apply lookup_insert_Some in H as [[<- <-]|[_ H]]; [|auto]. right. exists b. auto.
Qed.

Lemma find_key boss : boss ∈ rd_Bosses def -> FindBoss def (bd_Key boss) = Some boss.
Proof.
  destruct (wf_keys _ Hwf) as [Hnd _]. unfold FindBoss. revert Hnd.
  induction (rd_Bosses def) as [|b l IH]; [by intros _ ?%elem_of_nil|]. cbn [map List.find].
  intros [Hb Hnd]%NoDup_cons [->|Hin]%elem_of_cons; [by rewrite String.eqb_refl|].
  destruct (String.eqb_spec (bd_Key b) (bd_Key boss)) as [E|]; [|by apply IH].
  destruct Hb. rewrite E. by apply (list_elem_of_fmap_2 bd_Key).
Qed.

(** A boss of the difficulty is done in the plan exactly when it was asked for. *)
Lemma plan_done key index : BossIndexByKey def difficulty !! key = Some index ->
  0 <= index /\
  (sp_BossStates plan !! Z.to_nat index = Some StateDone <-> key ∈ sp_BossesDone plan).
Proof.
  intros (boss & Hb & Ha & <- & <-)%BossIndexByKey_spec.
  pose proof (wf_indices _ Hwf difficulty count Hcount) as Hidx. cbn beta in Hidx.
  assert (Hon : boss ∈ List.filter (fun b => BossAvailableOn b difficulty) (rd_Bosses def)).
  { apply list_elem_of_In, filter_In. by rewrite <- list_elem_of_In. }
  assert (Hr : 0 <= bd_BossIndex boss < count).
  { assert (Hin : bd_BossIndex boss ∈ indices_on def difficulty)
      by (by apply (list_elem_of_fmap_2 bd_BossIndex)).
    rewrite Hidx in Hin. apply elem_of_seqZ in Hin. lia. }
  split; [lia|]. rewrite (po_done _ _ _ _ _ Hplan).
  destruct (lookup_lt_is_Some_2 (sp_BossStates plan) (Z.to_nat (bd_BossIndex boss))) as [s Hs].
  { rewrite (po_length _ _ _ _ _ Hplan). lia. }
  rewrite Hs. destruct (po_states _ _ _ _ _ Hplan _ _ Hs ltac:(lia)) as [[(b & Hask & E) ->]|[Hn ->]].
  - split; [intros _|done]. assert (b = boss) as ->.
    { assert (Hbon := asked_on def difficulty keys (sa_known _ _ _ Hallowed) b Hask).
      eapply (NoDup_fmap_elem bd_BossIndex); [|exact Hbon|exact Hon|exact E].
      change (NoDup (indices_on def difficulty)). rewrite Hidx. apply NoDup_seqZ. }
    destruct Hask as (k & Hk & Hf). apply FindBoss_key in Hf as [_ ->]. done.
  - split.
    + destruct (wf_initial _ Hwf) as [-> | ->]; done.
    + intros Hk. destruct (Hn boss); [|done]. exists (bd_Key boss). split; [done|by apply find_key].
Qed.

Lemma plan_extras_length : length (sp_ExtraValues plan) = length (rd_SaveExtras def).
Proof. symmetry. by apply (Forall2_length _ _ _ (po_extras _ _ _ _ _ Hplan)). Qed.

(** What the script writes for the observed states, with the plan's extras. *)
Definition observed_save (states : list Z) : string :=
  BuildSaveData (rd_ScriptHeader def) states
    (zip (map se_Encoding (rd_SaveExtras def)) (map snd (sp_ExtraValues plan))).

Lemma plan_readback states :
  Forall (fun n => 0 <= n < 256) states ->
  Forall2 state_equivalent (sp_BossStates plan) states ->
  let r := CompareReadback (ExpectationOf def difficulty plan) (sp_EncounterCount plan) states
    (sp_CompletedEncounterMask plan) (observed_save states) in
  rc_SeedMatch r = true /\ rc_ExtraDone r = [] /\ rc_MissingDone r = [].
Proof.
  intros Hbytes Heq. cbv zeta.
  assert (Hpc := plan_count def difficulty keys count plan Hwf Hcount Hplan).
  assert (Hlen := Forall2_length _ _ _ Heq).
  assert (Hdone : forall key index, BossIndexByKey def difficulty !! key = Some index ->
    states !! Z.to_nat index = Some StateDone <-> key ∈ sp_BossesDone plan).
  { intros key index Hk. destruct (plan_done key index Hk) as [Hi <-].
    split; intros Hs.
    - destruct (Forall2_lookup_r _ _ _ _ _ Heq Hs) as (e & He & [[-> _]|(_ & _ & Hu)]); [done|done].
    - destruct (Forall2_lookup_l _ _ _ _ _ Heq Hs) as (o & Ho & [[_ ->]|(Hne & _)]); done. }
  destruct (CompareReadback_lemma (ExpectationOf def difficulty plan)) with
    (count := sp_EncounterCount plan) (states := states) (mask := sp_CompletedEncounterMask plan)
    (save := observed_save states) as (HE & HM & HS).
  { intros key index Hk. by apply (plan_done key index). }
  cbn [ExpectationOf le_BossIndexByKey le_BossesDone le_EncounterCount le_States
    le_CompletedEncounterMask] in HE, HM, HS.
  split; [|split].
  - apply HS. split; [done|]. rewrite (po_count _ _ _ _ _ Hplan).
    split; [by rewrite <- Hlen|]. split; [done|]. split; [done|]. split; [done|].
    right. exists (sp_BossStates plan), states,
      (extra_data (zip (map se_Encoding (rd_SaveExtras def)) (map snd (sp_ExtraValues plan)))).
    cbn [ExpectationOf le_SaveData le_ScriptHeader le_EncounterCount le_ExtraCount].
    assert (Hz : length (sp_ExtraValues plan) =
      length (zip (map se_Encoding (rd_SaveExtras def)) (map snd (sp_ExtraValues plan)))).
    { rewrite length_zip_with, !length_map, plan_extras_length. lia. }
    rewrite (po_save _ _ _ _ _ Hplan), (po_count _ _ _ _ _ Hplan), <- Hpc, Hz.
    split; [|split; [|done]].
    + apply ParseSaveDataWritten_lemma. by apply (plan_states_byte def difficulty keys count plan).
    + rewrite Hlen. by apply ParseSaveDataWritten_lemma.
  - destruct (rc_ExtraDone _) as [|key l] eqn:El; [done|]. destruct (HE key) as [H _].
    destruct H as (index & Hk & Hd & Hn); [by left|]. destruct Hn. by apply (Hdone key index).
  - destruct (rc_MissingDone _) as [|key l] eqn:El; [done|]. destruct (HM key) as [H _].
    destruct H as (index & Hk & Hd & Hn); [by left|]. destruct Hd. by apply (Hdone key index).
Qed.

End SeedReadback.

(** A granted seed is accepted. Written and read back from its database
    row it decodes, loads the planned states and matches; and a live script
    matches for any states equivalent to the planned ones, saved with the
    planned extras. *)
Theorem seed_readback def difficulty keys plan extraNames (Hty : typed def)
    (H : BuildSeedPlan def difficulty keys = (Pass, plan)) :
  (let '(failure, states, comparison) := DbReadback (ExpectationOf def difficulty plan) extraNames
       (ToHex (sp_SaveData plan)) (sp_CompletedEncounterMask plan) in
   failure = ""%string /\ states = sp_BossStates plan /\ rc_SeedMatch comparison = true) /\
  (forall states, Forall (fun n => 0 <= n < 256) states ->
     Forall2 state_equivalent (sp_BossStates plan) states ->
     let r := CompareReadback (ExpectationOf def difficulty plan) (sp_EncounterCount plan) states
       (sp_CompletedEncounterMask plan) (observed_save def plan states) in
     rc_SeedMatch r = true /\ rc_ExtraDone r = [] /\ rc_MissingDone r = []).
Proof.
  pose proof (BuildSeedPlan_lemma def difficulty keys Hty) as HB. rewrite H in HB.
  destruct HB as (_ & Hiff & HP). destruct (proj1 Hiff eq_refl) as (Hwf & _ & Hal).
  destruct (HP eq_refl) as (count & Hc & Hplan).
  pose proof (plan_readback def difficulty keys count plan Hwf Hc Hal Hplan) as Hlive.
  split; [|exact Hlive].
  destruct (ParseSaveData_states (rd_ScriptHeader def) (sp_BossStates plan)
    (zip (map se_Encoding (rd_SaveExtras def)) (map snd (sp_ExtraValues plan)))
    (map (fun name => mkSaveExtra name SaveExtraEncoding_RawUint8 0) extraNames)) as (s & _ & Hp).
  { by apply (plan_states_byte def difficulty keys count plan). }
  rewrite <- (po_save _ _ _ _ _ Hplan) in Hp.
  rewrite (plan_count def difficulty keys count plan Hwf Hc Hplan) in Hp.
  rewrite <- (po_count _ _ _ _ _ Hplan) in Hp.
  rewrite (plan_states_load def difficulty keys count plan Hwf Hplan) in Hp.
  unfold DbReadback. rewrite FromHex_ToHex.
  cbn [ExpectationOf le_ScriptHeader le_EncounterCount]. rewrite Hp.
  split; [done|]. split; [done|].
  pose proof (plan_states def difficulty keys count plan Hplan) as Hst.
  destruct (Hlive (sp_BossStates plan)) as [Hm _].
  - by apply (plan_states_byte def difficulty keys count plan).
  - apply Forall_Forall2_diag. eapply Forall_impl; [exact Hst|]. cbn. intros st Hs.
    apply state_equivalent_refl. destruct Hs as [-> | ->]; [auto|].
    right. destruct (wf_initial _ Hwf) as [-> | ->]; done.
  - rewrite (po_save _ _ _ _ _ Hplan). exact Hm.
Qed.

Lemma seed_readback_witness :
  rc_SeedMatch (CompareReadback sample_expectation 3 [3; 3; 5] 3
    (observed_save sample_raid sample_plan [3; 3; 5])) = true.
Proof.
  destruct (seed_readback sample_raid 2 ["second"; "first"]%string sample_plan ["gate"%string]
    sample_typed sample_plan_eq) as [_ H].
  apply H; [repeat constructor; lia|].
  change (Forall2 state_equivalent [3; 3; 0] [3; 3; 5]).
  apply StatesEquivalentForSeed_spec. by vm_compute.
Defined.

(** ** JSON *)

Lemma JsonEscape_escape s k : (JsonEscape s ++ k)%string = escape s k.
Proof.
  induction s as [|c s IH]; [done|]. cbn [JsonEscape escape]. rewrite <- IH.
  unfold json_escape_char, escape_char, hex_lower, hex_digit.
  destruct (Ascii.eqb c "034" || Ascii.eqb c "\"); [done|].
  destruct (nat_of_ascii c <? 32)%nat; [|done]. rewrite !app_cons.
  assert (Hd : forall n, (if (n <? 10)%nat then ascii_of_nat (48 + n) else ascii_of_nat (87 + n))
    = ascii_of_nat (if (n <? 10)%nat then n + 48 else n + 87)).
  { intros n. destruct (n <? 10)%nat; by rewrite Nat.add_comm. }
  by rewrite !Hd.
Qed.

Lemma json_items_cons a b l :
  json_items (a :: b :: l) = (a ++ "," ++ json_items (b :: l))%string.
Proof. done. Qed.

Lemma json_items_print values k :
  (json_items (map (fun v => String "034" (JsonEscape v ++ String "034" "")) values) ++ String "]" k)%string
  = print_list print_doc "]" (map DString values) k.
Proof.
  induction values as [|v values IH]; [done|]. cbn [map print_list print_doc]. unfold print_string.
  rewrite <- JsonEscape_escape. destruct values as [|v' values]; cbn [map] in *.
  - cbn [json_items]. rewrite app_cons, app_assoc_str, app_cons. done.
  - rewrite json_items_cons, !app_assoc_str, !app_cons, app_assoc_str, !app_cons, !app_empty.
    by rewrite IH.
Qed.

(** The readback's string arrays are JSON: the route contract reader reads
    every list of strings back byte for byte. *)
Theorem Parse_JsonStringArray values :
  Parse (JsonStringArray values) = inr (array_value (map string_value values)).
Proof.
  unfold JsonStringArray. rewrite app_cons, app_empty, json_items_print.
  change (String "[" (print_list print_doc "]" (map DString values) ""))
    with (print_doc (DArray (map DString values)) "").
  rewrite Parse_print_doc.
  - cbn [denote]. by rewrite map_map.
  - constructor. apply Forall_map, Forall_forall. intros v _. constructor.
Qed.
