(* ===== verification/LockoutDefinition.v ===== *)
(** Reading a raid definition from its prerequisite file:
    [Bots/BotRaidLockoutDefinitionJson.h]. rapidjson's parser is a parameter;
    [Json] is the document it delivers. *)
From S2P Require Import Prelude RouteInteraction RouteCompletion LockoutPlan LockoutGraph LockoutSeed LockoutValid.
From Stdlib Require Import ZArith Lia String.
From stdpp Require Import base gmap list strings sorting.

Open Scope Z_scope.
Open Scope tc_scope.

(** A [rapidjson::Value]: [JUint] is a number with [IsUint], [JOther] any other
    number or a boolean. Members keep their order. *)
Inductive Json : Type :=
| JNull
| JUint (n : Z)
| JString (s : string)
| JArray (items : list Json)
| JObject (members : list (string * Json))
| JOther.

Definition IsObject (value : Json) : bool := match value with JObject _ => true | _ => false end.

(** [FindMember]: the first member of the name. *)
Fixpoint find_member (members : list (string * Json)) (name : string) : option Json :=
  match members with
  | [] => None
  | (key, value) :: members => if String.eqb key name then Some value else find_member members name
  end.

Definition FindMember (object : Json) (name : string) : option Json :=
  match object with JObject members => find_member members name | _ => None end.

(** ** Errors *)

(** A reader's result: the failure or the value. *)
Definition Result (A : Type) : Type := (string + A)%type.

Notation ok a := (@inr string _ a).
Notation fail failure := (@inl string _ failure%string).

Definition bind {A B} (r : Result A) (k : A -> Result B) : Result B :=
  match r with inl failure => inl failure | inr a => k a end.

Notation "x <~ r ;; k" := (bind r (fun x => k)) (at level 100, r at next level, right associativity)
  : tc_scope.

Definition require {A} (o : option A) (failure : string) : Result A :=
  match o with Some a => inr a | None => inl failure end.

(** Reads a list item by item, stopping at the first failure. *)
Fixpoint read_all {A B} (read : A -> Result B) (l : list A) : Result (list B) :=
  match l with
  | [] => ok []
  | x :: l => y <~ read x ;; ys <~ read_all read l ;; ok (y :: ys)
  end.

(** ** Readers of members *)

(** [ReadUInt]: fails, or says null, or delivers the number. *)
Definition ReadUInt (object : Json) (name : string) (nullable : bool) : option (option Z) :=
  match FindMember object name with
  | Some JNull => if nullable then Some None else None
  | Some (JUint value) => Some (Some value)
  | _ => None
  end.

Definition ReadString (object : Json) (name : string) : option string :=
  match FindMember object name with Some (JString value) => Some value | _ => None end.

Fixpoint read_items {A} (read : Json -> option A) (items : list Json) : option (list A) :=
  match items with
  | [] => Some []
  | item :: items =>
      match read item, read_items read items with
      | Some a, Some l => Some (a :: l)
      | _, _ => None
      end
  end.

Definition ReadStringArray (value : Json) : option (list string) :=
  match value with
  | JArray items => read_items (fun item => match item with JString s => Some s | _ => None end) items
  | _ => None
  end.

Definition ReadUIntArray (value : Json) : option (list Z) :=
  match value with
  | JArray items => read_items (fun item => match item with JUint n => Some n | _ => None end) items
  | _ => None
  end.

(** A difficulty token in its canonical form. *)
Definition read_difficulty (token : string) : option Z :=
  match ParseDifficulty token with
  | Some difficulty => if String.eqb (DifficultyToken difficulty) token then Some difficulty else None
  | None => None
  end.

Fixpoint read_difficulties (tokens : list string) : option (list Z) :=
  match tokens with
  | [] => Some []
  | token :: tokens =>
      match read_difficulty token, read_difficulties tokens with
      | Some d, Some l => Some (d :: l)
      | _, _ => None
      end
  end.

Definition ReadDifficultyArray (value : Json) : option (list Z) :=
  match ReadStringArray value with
  | Some tokens => read_difficulties tokens
  | None => None
  end.

(** The loops over the members of an object of numbers. *)
Fixpoint read_by_difficulty (failure : string) (members : list (string * Json)) (m : gmap Z Z)
    : Result (gmap Z Z) :=
  match members with
  | [] => ok m
  | (token, value) :: members =>
      match read_difficulty token, value with
      | Some difficulty, JUint n => read_by_difficulty failure members (<[difficulty := n]> m)
      | _, _ => fail failure
      end
  end.

Fixpoint read_by_name (failure : string) (members : list (string * Json)) (m : gmap string Z)
    : Result (gmap string Z) :=
  match members with
  | [] => ok m
  | (name, JUint n) :: members => read_by_name failure members (<[name := n]> m)
  | _ => fail failure
  end.

Definition members_of (value : Json) : option (list (string * Json)) :=
  match value with JObject members => Some members | _ => None end.

Definition items_of (value : Json) : option (list Json) :=
  match value with JArray items => Some items | _ => None end.

(** [int32_t] of a [uint32_t]. *)
Definition i32 (n : Z) : Z := if n <? 2 ^ 31 then n else n - 2 ^ 32.

(** ** [ReadBoss] *)

(** A nullable number whose default is 0. *)
Definition nullable (value : Json) (name failure : string) : Result Z :=
  n <~ require (ReadUInt value name true) failure ;; ok (default 0 n).

Definition read_dead (value : Json) (context : string) : Result (bool * list Z) :=
  match FindMember value "dead_db_spawn_entries" with
  | None => fail ("dead_db_spawn_entries_required" ++ context)
  | Some JNull => ok (false, [])
  | Some dead =>
      entries <~ require (ReadUIntArray dead) ("invalid_dead_db_spawn_entries" ++ context) ;;
      ok (true, entries)
  end.

Definition ReadBoss (value : Json) : Result BossDefinition :=
  key <~ require (if IsObject value then ReadString value "key" else None) "boss_key_required" ;;
  let context := (":" ++ key)%string in
  let name := default ""%string (ReadString value "name") in
  index <~ require (ReadUInt value "boss_index" false) ("boss_index_required" ++ context) ;;
  creature <~ nullable value "creature_entry" ("creature_entry_required" ++ context) ;;
  credit <~ nullable value "credit_entry" ("credit_entry_required" ++ context) ;;
  bit <~ require (ReadUInt value "dungeon_encounter_bit" true)
    ("dungeon_encounter_bit_required" ++ context) ;;
  encounter <~ nullable value "dungeon_encounter_id" ("dungeon_encounter_id_required" ++ context) ;;
  let badEncounters := ("invalid_dungeon_encounter_id_by_difficulty" ++ context)%string in
  encounters <~
    match FindMember value "dungeon_encounter_id_by_difficulty" with
    | None => ok ∅
    | Some byDifficulty =>
        members <~ require (members_of byDifficulty) badEncounters ;;
        read_by_difficulty badEncounters members ∅
    end ;;
  predecessors <~ require (FindMember value "predecessors" ≫= ReadStringArray)
    ("predecessors_required" ++ context) ;;
  members <~ require (FindMember value "extra_save_values" ≫= members_of)
    ("extra_save_values_required" ++ context) ;;
  extras <~ read_by_name ("invalid_extra_save_value" ++ context) members ∅ ;;
  dead <~ read_dead value context ;;
  summoned <~ require (FindMember value "summoned_entries" ≫= ReadUIntArray)
    ("summoned_entries_required" ++ context) ;;
  difficulties <~
    match FindMember value "difficulties" with
    | None => ok []
    | Some difficulties =>
        require (ReadDifficultyArray difficulties) ("invalid_boss_difficulties" ++ context)
    end ;;
  ok (mkBoss key name (default 0 index) creature credit encounter encounters
        (match bit with Some bit => i32 bit | None => -1 end) predecessors extras
        dead.1 dead.2 summoned difficulties).

(** ** [ParseRaidDefinitionJson] *)

Definition ReadSaveExtra (value : Json) : Result SaveExtraDefinition :=
  let failure := "invalid_save_extra"%string in
  name <~ require (if IsObject value then ReadString value "name" else None) failure ;;
  encoding <~ require (ReadString value "encoding") failure ;;
  if negb (String.eqb encoding "raw_uint8") then fail failure
  else
    default_ <~ require (ReadUInt value "default" false) failure ;;
    ok (mkSaveExtra name SaveExtraEncoding_RawUint8 (default 0 default_)).

Definition ReadDoor (value : Json) : Result DoorReadback :=
  let failure := "invalid_readback_doors"%string in
  entry <~ require (if IsObject value then ReadUInt value "entry" false else None) failure ;;
  open <~ require (FindMember value "open_when_done" ≫= ReadStringArray) failure ;;
  ok (mkDoor (default 0 entry) open).

Definition ReadIdentity (document : Json) : option (string * string * Z * string * string) :=
  match ReadString document "schema", ReadString document "raid", ReadUInt document "map_id" false,
        ReadString document "script_name", ReadString document "script_header" with
  | Some schema, Some raid, Some mapId, Some scriptName, Some scriptHeader =>
      Some (schema, raid, default 0 mapId, scriptName, scriptHeader)
  | _, _, _, _, _ => None
  end.

(** The document's definition, before [ValidateDefinition]. *)
Definition ReadRaidDefinition (document : Json) : Result RaidDefinition :=
  if negb (IsObject document) then fail "json_parse_error"
  else
  identity <~ require (ReadIdentity document) "raid_identity_required" ;;
  let '(schema, raid, mapId, scriptName, scriptHeader) := identity in
  initialState <~ require (ReadString document "initial_boss_state") "invalid_initial_boss_state" ;;
  if negb (String.eqb initialState "not_started") && negb (String.eqb initialState "to_be_decided")
  then fail "invalid_initial_boss_state"
  else
  let initial := if String.eqb initialState "to_be_decided" then StateToBeDecided else StateNotStarted in
  difficulties <~ require (FindMember document "difficulties" ≫= ReadDifficultyArray)
    "invalid_difficulties" ;;
  countMembers <~ require (FindMember document "encounter_count" ≫= members_of)
    "encounter_count_required" ;;
  counts <~ read_by_difficulty "invalid_encounter_count" countMembers ∅ ;;
  bossItems <~ require (FindMember document "bosses" ≫= items_of) "bosses_required" ;;
  if list_is_empty bossItems then fail "bosses_required"
  else
  bosses <~ read_all ReadBoss bossItems ;;
  extraItems <~ require (FindMember document "save_extras" ≫= items_of) "save_extras_required" ;;
  extras <~ read_all ReadSaveExtra extraItems ;;
  doors <~
    match FindMember document "readback_doors" with
    | None => ok []
    | Some doors =>
        doorItems <~ require (items_of doors) "invalid_readback_doors" ;;
        read_all ReadDoor doorItems
    end ;;
  ok (mkRaid schema raid mapId scriptName scriptHeader initial difficulties counts bosses extras doors).

(** [document.Parse]: the document, or none on a parse error. *)
Definition Parser : Type := string -> option Json.

Definition RaidDefinition_default : RaidDefinition :=
  mkRaid "" "" 0 "" "" StateNotStarted [] ∅ [] [] [].

(** The failure or [Pass], and the definition. Of a document that could not be
    read the code leaves the definition filled up to the failure; here it is the
    default, and no caller looks at it. *)
Definition ParseRaidDefinitionJson (Parse : Parser) (text : string) : Checked * RaidDefinition :=
  match Parse text with
  | None => (Refuse "json_parse_error", RaidDefinition_default)
  | Some document =>
      match ReadRaidDefinition document with
      | inl failure => (Refuse failure, RaidDefinition_default)
      | inr def => (ValidateDefinition def, def)
      end
  end.

(** ** What is accepted *)

(** The numbers of a document are what [IsUint] promises. *)
Fixpoint uints_ok (value : Json) : bool :=
  match value with
  | JUint n => (0 <=? n) && (n <? 2 ^ 32)
  | JArray items => forallb uints_ok items
  | JObject members => forallb (fun member => uints_ok member.2) members
  | _ => true
  end.

Definition Parser_ok (Parse : Parser) : Prop :=
  forall text document, Parse text = Some document -> uints_ok document = true.

Lemma find_member_ok members name value :
  forallb (fun member => uints_ok member.2) members = true ->
  find_member members name = Some value -> uints_ok value = true.
Proof.
  induction members as [|[key v] members IH]; cbn; [done|]. intros [Hv Hm]%andb_true_iff.
  destruct (String.eqb key name); [by intros [= <-]|by apply IH].
Qed.

Lemma FindMember_ok object name value :
  uints_ok object = true -> FindMember object name = Some value -> uints_ok value = true.
Proof. destruct object; cbn; try done. apply find_member_ok. Qed.

Lemma ReadUInt_nonneg object name b n :
  uints_ok object = true -> ReadUInt object name b = Some n -> 0 <= default 0 n.
Proof.
  unfold ReadUInt. intros Ho. destruct (FindMember object name) as [value|] eqn:E; [|done].
  apply (FindMember_ok _ _ _ Ho) in E. destruct value; try done; [destruct b|].
  - by intros [= <-].
  - done.
  - intros [= <-]. cbn in *. b2p. lia.
Qed.

Lemma result_inr {A B} (r : Result A) (k : A -> Result B) b :
  bind r k = inr b <-> exists a, r = inr a /\ k a = inr b.
Proof.
  destruct r as [f|a]; cbn; split.
  - done.
  - by intros (? & ? & _).
  - eauto.
  - by intros (? & [= ->] & ?).
Qed.

Lemma require_inr {A} (o : option A) f a : require o f = inr a <-> o = Some a.
Proof. destruct o; cbn; split; congruence. Qed.

Lemma bind_require {A B} (o : option A) f (k : A -> Result B) b :
  bind (require o f) k = inr b <-> exists a, o = Some a /\ k a = inr b.
Proof. rewrite result_inr. by setoid_rewrite require_inr. Qed.

(** Takes a reader apart, one step at a time. *)
Ltac read_step H :=
  first [ apply bind_require in H as (? & ? & H) | apply result_inr in H as (? & ? & H) ];
  cbv zeta beta in H.

Lemma read_all_Forall {A B} (read : A -> Result B) (P : A -> Prop) (Q : B -> Prop) l m :
  Forall P l -> (forall x y, P x -> read x = inr y -> Q y) -> read_all read l = inr m -> Forall Q m.
Proof.
  intros Hl HQ. revert m. induction Hl as [|x l Hx Hl IH]; intros m H; cbn in H; [by simplify_eq|].
  read_step H. read_step H. simplify_eq. constructor; eauto.
Qed.

Lemma ReadBoss_typed value boss :
  uints_ok value = true -> ReadBoss value = inr boss -> 0 <= bd_BossIndex boss.
Proof.
  unfold ReadBoss. intros Hv H. read_step H. read_step H.
  match goal with E : ReadUInt value "boss_index" false = Some ?n |- _ =>
    pose proof (ReadUInt_nonneg _ _ _ _ Hv E) end.
  repeat read_step H. by simplify_eq.
Qed.

Lemma read_by_difficulty_nonneg f members : forall m m',
  forallb (fun member : string * Json => uints_ok member.2) members = true ->
  map_Forall (fun _ n => 0 <= n) m -> read_by_difficulty f members m = inr m' ->
  map_Forall (fun _ n => 0 <= n) m'.
Proof.
  induction members as [|[token value] members IH]; intros m m' Hm H0 H; cbn in *; [by simplify_eq|].
  apply andb_true_iff in Hm as [Hv Hm]. destruct (read_difficulty token); [|done].
  destruct value; try done. eapply IH; [done| |exact H].
  apply map_Forall_insert_2; [|done]. cbn in Hv. b2p. lia.
Qed.

Lemma ReadRaidDefinition_typed document def :
  uints_ok document = true -> ReadRaidDefinition document = inr def -> typed def.
Proof.
  unfold ReadRaidDefinition. intros Hd H. destruct (IsObject document) eqn:Ho; [|done]. cbn [negb] in H.
  read_step H. match goal with i : (string * string * Z * string * string)%type |- _ =>
    destruct i as [[[[schema raid] mapId] scriptName] scriptHeader] end.
  read_step H. destruct (_ && _); [done|].
  read_step H. read_step H.
  match goal with E : FindMember document "encounter_count" ≫= members_of = Some ?m |- _ =>
    rename m into counts; rename E into Hcounts end.
  read_step H. match goal with E : read_by_difficulty _ _ _ = inr ?m |- _ =>
    rename m into countMap; rename E into Hmap end.
  read_step H. match goal with E : FindMember document "bosses" ≫= items_of = Some ?m |- _ =>
    rename m into bosses; rename E into Hbosses end.
  destruct (list_is_empty bosses); [done|]. read_step H.
  match goal with E : read_all ReadBoss _ = inr ?m |- _ => rename m into bs; rename E into Hbs end.
  repeat read_step H. simplify_eq. apply bind_Some in Hcounts as (v & Hv & Hm).
  apply bind_Some in Hbosses as (w & Hw & Hi).
  apply (FindMember_ok _ _ _ Hd) in Hv, Hw. destruct v, w; simplify_eq. cbn in Hv, Hw, Hm, Hi.
  injection Hm as <-. injection Hi as <-. split; cbn.
  - by eapply read_by_difficulty_nonneg; [exact Hv| |exact Hmap].
  - eapply read_all_Forall; [|intros ? ?; apply ReadBoss_typed|exact Hbs].
    apply Forall_forall. intros v Hv'. apply list_elem_of_In in Hv'.
    rewrite forallb_forall in Hw. by apply Hw.
Qed.

Lemma ParseRaidDefinitionJson_lemma Parse text :
  Parser_ok Parse ->
  (ParseRaidDefinitionJson Parse text).1 <> Stuck /\
  ((ParseRaidDefinitionJson Parse text).1 = Pass <->
   exists document def, Parse text = Some document /\ ReadRaidDefinition document = inr def /\
     (ParseRaidDefinitionJson Parse text).2 = def /\ typed def /\ WellFormed def).
Proof.
  intros Hp. unfold ParseRaidDefinitionJson. destruct (Parse text) as [document|] eqn:E.
  2:{ split; [done|]. split; [done|]. by intros (? & ? & ? & _). }
  pose proof (Hp _ _ E) as Hok. destruct (ReadRaidDefinition document) as [failure|def] eqn:Er.
  { split; [done|]. split; [done|]. intros (? & ? & ? & ? & _). congruence. }
  pose proof (ReadRaidDefinition_typed _ _ Hok Er) as Ht.
  destruct (ValidateDefinition_decides def Ht) as [Hn Hiff]. cbn. split; [done|]. rewrite Hiff. split.
  - intros Hwf. by exists document, def.
  - intros (? & ? & ? & ? & <- & _ & ?). done.
Qed.

(** ** The reference printer *)

Definition JStrings (l : list string) : Json := JArray (map JString l).
Notation JUints l := (JArray (map JUint l)).
Definition JTokens (l : list Z) : Json := JStrings (map DifficultyToken l).

Definition print_by_difficulty (m : gmap Z Z) : Json :=
  JObject (map (fun '(d, n) => (DifficultyToken d, JUint n)) (map_to_list m)).

Definition print_by_name (m : gmap string Z) : Json :=
  JObject (map (fun '(name, n) => (name, JUint n)) (map_to_list m)).

Definition print_boss (boss : BossDefinition) : Json :=
  JObject [
    ("key", JString (bd_Key boss)); ("name", JString (bd_Name boss));
    ("boss_index", JUint (bd_BossIndex boss)); ("creature_entry", JUint (bd_CreatureEntry boss));
    ("credit_entry", JUint (bd_CreditEntry boss));
    ("dungeon_encounter_bit",
      if (bd_DungeonEncounterBit boss =? -1)%Z then JNull else JUint (bd_DungeonEncounterBit boss));
    ("dungeon_encounter_id", JUint (bd_DungeonEncounterId boss));
    ("dungeon_encounter_id_by_difficulty",
      print_by_difficulty (bd_DungeonEncounterIdByDifficulty boss));
    ("predecessors", JStrings (bd_Predecessors boss));
    ("extra_save_values", print_by_name (bd_ExtraSaveValues boss));
    ("dead_db_spawn_entries",
      if bd_DeadDbSpawnEntriesKnown boss then JUints (bd_DeadDbSpawnEntries boss) else JNull);
    ("summoned_entries", JUints (bd_SummonedEntries boss));
    ("difficulties", JTokens (bd_Difficulties boss))
  ]%string.

Definition print_extra (extra : SaveExtraDefinition) : Json :=
  JObject [("name", JString (se_Name extra)); ("encoding", JString "raw_uint8");
           ("default", JUint (se_Default extra))]%string.

Definition print_door (door : DoorReadback) : Json :=
  JObject [("entry", JUint (dr_Entry door)); ("open_when_done", JStrings (dr_OpenWhenDone door))]%string.

Definition print_raid (def : RaidDefinition) : Json :=
  JObject [
    ("schema", JString (rd_Schema def)); ("raid", JString (rd_Raid def)); ("map_id", JUint (rd_MapId def));
    ("script_name", JString (rd_ScriptName def)); ("script_header", JString (rd_ScriptHeader def));
    ("initial_boss_state",
      JString (if (rd_InitialBossState def =? StateToBeDecided)%Z then "to_be_decided" else "not_started"));
    ("difficulties", JTokens (rd_Difficulties def));
    ("encounter_count", print_by_difficulty (rd_EncounterCount def));
    ("bosses", JArray (map print_boss (rd_Bosses def)));
    ("save_extras", JArray (map print_extra (rd_SaveExtras def)));
    ("readback_doors", JArray (map print_door (rd_ReadbackDoors def)))
  ]%string.

(** Difficulties have a token, a boss bit fits its type, and unknown dead
    entries are listed as none. *)
Definition has_token (d : Z) : Prop := 0 <= d < MaxRaidDifficulty.

Record printable_boss (boss : BossDefinition) : Prop := {
  pb_bit : -1 <= bd_DungeonEncounterBit boss < 2 ^ 31;
  pb_difficulties : Forall has_token (bd_Difficulties boss);
  pb_encounters : map_Forall (fun d _ => has_token d) (bd_DungeonEncounterIdByDifficulty boss);
  pb_dead : bd_DeadDbSpawnEntriesKnown boss = false -> bd_DeadDbSpawnEntries boss = []
}.

Record printable (def : RaidDefinition) : Prop := {
  pr_initial : rd_InitialBossState def = StateNotStarted \/ rd_InitialBossState def = StateToBeDecided;
  pr_difficulties : Forall has_token (rd_Difficulties def);
  pr_counts : map_Forall (fun d _ => has_token d) (rd_EncounterCount def);
  pr_nonempty : rd_Bosses def <> [];
  pr_bosses : Forall printable_boss (rd_Bosses def)
}.

(** ** The reader inverts the printer *)

Lemma read_difficulty_token d : has_token d -> read_difficulty (DifficultyToken d) = Some d.
Proof.
  unfold has_token, MaxRaidDifficulty. intros H.
  assert (d = 0 \/ d = 1 \/ d = 2 \/ d = 3) as [-> | [-> | [-> | ->]]] by lia; reflexivity.
Qed.

Lemma ReadStringArray_print l : ReadStringArray (JStrings l) = Some l.
Proof. cbn. induction l as [|s l IH]; cbn; [done|]. by rewrite IH. Qed.

Lemma ReadUIntArray_print l : ReadUIntArray (JUints l) = Some l.
Proof. unfold ReadUIntArray. induction l as [|s l IH]; cbn; [done|]. by rewrite IH. Qed.

Lemma ReadDifficultyArray_print l : Forall has_token l -> ReadDifficultyArray (JTokens l) = Some l.
Proof.
  unfold ReadDifficultyArray, JTokens. rewrite ReadStringArray_print.
  induction 1 as [|d l Hd Hl IH]; cbn; [done|]. by rewrite (read_difficulty_token d Hd), IH.
Qed.

Lemma read_by_difficulty_list f l : forall m,
  Forall (fun p => has_token p.1) l -> NoDup l.*1 ->
  read_by_difficulty f (map (fun '(d, n) => (DifficultyToken d, JUint n)) l) m
  = ok (list_to_map l ∪ m).
Proof.
  induction l as [|[d n] l IH]; intros m Hl Hn; cbn.
  - by rewrite (left_id_L ∅ (∪)).
  - inversion_clear Hl as [|? ? Hd Hl']. cbn in Hn. apply NoDup_cons in Hn as [Hd' Hn].
    rewrite (read_difficulty_token d Hd), IH by done. f_equal.
    rewrite <- insert_union_r; [|by apply not_elem_of_list_to_map_1]. by rewrite insert_union_l.
Qed.

Lemma read_by_difficulty_print f m :
  map_Forall (fun d _ => has_token d) m ->
  read_by_difficulty f (map (fun '(d, n) => (DifficultyToken d, JUint n)) (map_to_list m)) ∅ = ok m.
Proof.
  intros Hm. rewrite read_by_difficulty_list.
  - by rewrite (right_id_L ∅ (∪)), list_to_map_to_list.
  - apply map_Forall_to_list in Hm. eapply Forall_impl; [exact Hm|]. by intros [].
  - apply NoDup_fst_map_to_list.
Qed.

Lemma members_of_by_difficulty m :
  members_of (print_by_difficulty m)
  = Some (map (fun '(d, n) => (DifficultyToken d, JUint n)) (map_to_list m)).
Proof. done. Qed.

Lemma members_of_by_name m :
  members_of (print_by_name m) = Some (map (fun '(name, n) => (name, JUint n)) (map_to_list m)).
Proof. done. Qed.

Lemma read_by_name_list f l : forall m,
  NoDup l.*1 ->
  read_by_name f (map (fun '(name, n) => (name, JUint n)) l) m = ok (list_to_map l ∪ m).
Proof.
  induction l as [|[d n] l IH]; intros m Hn; cbn.
  - by rewrite (left_id_L ∅ (∪)).
  - cbn in Hn. apply NoDup_cons in Hn as [Hd' Hn]. rewrite IH by done. f_equal.
    rewrite <- insert_union_r; [|by apply not_elem_of_list_to_map_1]. by rewrite insert_union_l.
Qed.

Lemma read_by_name_print f m :
  read_by_name f (map (fun '(name, n) => (name, JUint n)) (map_to_list m)) ∅ = ok m.
Proof.
  rewrite read_by_name_list by apply NoDup_fst_map_to_list.
  by rewrite (right_id_L ∅ (∪)), list_to_map_to_list.
Qed.

Lemma i32_bit bit : -1 <= bit < 2 ^ 31 -> bit <> -1 -> i32 bit = bit.
Proof. intros H Hn. unfold i32. by rewrite (proj2 (Z.ltb_lt _ _)) by lia. Qed.

#[local] Arguments ReadStringArray : simpl never.
#[local] Arguments ReadUIntArray : simpl never.
#[local] Arguments ReadDifficultyArray : simpl never.
#[local] Arguments print_by_difficulty : simpl never.
#[local] Arguments print_by_name : simpl never.
#[local] Arguments JStrings : simpl never.
#[local] Arguments JTokens : simpl never.
#[local] Arguments append : simpl never.

Lemma ReadBoss_print boss : printable_boss boss -> ReadBoss (print_boss boss) = ok boss.
Proof.
  intros [Hb Hd He Hdead]. unfold ReadBoss, nullable, read_dead. cbn -[i32].
  rewrite members_of_by_difficulty. cbn -[i32]. rewrite read_by_difficulty_print by done. cbn -[i32].
  rewrite ReadStringArray_print. cbn -[i32]. rewrite members_of_by_name.
  cbn -[i32]. rewrite read_by_name_print. cbn -[i32].
  destruct (Z.eqb_spec (bd_DungeonEncounterBit boss) (-1)) as [Ebit|Ebit];
    destruct (bd_DeadDbSpawnEntriesKnown boss) eqn:Ek; cbn -[i32];
    rewrite !ReadUIntArray_print; cbn -[i32]; rewrite ReadDifficultyArray_print by done; cbn -[i32];
    rewrite ?i32_bit by done; destruct boss; cbn in *; subst; try rewrite Hdead by done; done.
Qed.

Lemma ReadSaveExtra_print extra : ReadSaveExtra (print_extra extra) = ok extra.
Proof. by destruct extra as [name [] value]. Qed.

Lemma ReadDoor_print door : ReadDoor (print_door door) = ok door.
Proof.
  unfold ReadDoor. cbn. rewrite ReadStringArray_print. cbn. by destruct door.
Qed.

Lemma read_all_print {A} (read : Json -> Result A) (print : A -> Json) l :
  Forall (fun x => read (print x) = ok x) l -> read_all read (map print l) = ok l.
Proof. induction 1 as [|x l Hx Hl IH]; cbn; [done|]. by rewrite Hx; cbn; rewrite IH. Qed.

Lemma ReadRaidDefinition_print def : printable def -> ReadRaidDefinition (print_raid def) = ok def.
Proof.
  intros [Hi Hd Hc Hn Hb]. unfold ReadRaidDefinition. cbn -[read_all].
  rewrite ReadDifficultyArray_print, members_of_by_difficulty by done.
  set (init := if (rd_InitialBossState def =? StateToBeDecided)%Z then "to_be_decided"%string else "not_started"%string).
  assert (Hinit : negb (String.eqb init "not_started") && negb (String.eqb init "to_be_decided") = false)
    by (subst init; by destruct (rd_InitialBossState def =? StateToBeDecided)).
  assert (Hback : (if String.eqb init "to_be_decided" then StateToBeDecided else StateNotStarted)
    = rd_InitialBossState def) by (subst init; by destruct Hi as [-> | ->]).
  rewrite Hinit, Hback. cbn -[read_all]. rewrite read_by_difficulty_print by done. cbn -[read_all].
  replace (list_is_empty _) with false by (by destruct (rd_Bosses def)).
  rewrite !read_all_print; [by destruct def| | |].
  - apply Forall_forall. intros d _. apply ReadDoor_print.
  - apply Forall_forall. intros e _. apply ReadSaveExtra_print.
  - eapply Forall_impl; [exact Hb|]. apply ReadBoss_print.
Qed.

(** Every definition has a document that the reader reads back as exactly
    it, so each well-formed raid can be written down, and is then accepted. *)
Theorem ReadRaidDefinition_roundtrip Parse text def :
  printable def -> Parse text = Some (print_raid def) ->
  ReadRaidDefinition (print_raid def) = ok def /\
  (WellFormed def -> typed def -> ParseRaidDefinitionJson Parse text = (Pass, def)).
Proof.
  intros Hp Ht. pose proof (ReadRaidDefinition_print def Hp) as Hr. split; [done|].
  intros Hwf Hty. unfold ParseRaidDefinitionJson. rewrite Ht, Hr.
  f_equal. by apply ValidateDefinition_decides.
Qed.

(** ** What a document says

    A definition is described by a document member by member; the reader is
    not mentioned. *)

(** A number, or null for 0. *)
Definition number_or_null (object : Json) (name : string) (n : Z) : Prop :=
  FindMember object name = Some (JUint n) \/ FindMember object name = Some JNull /\ n = 0.

(** The members of an object of numbers by difficulty; of two of the same
    difficulty the later counts. *)
Definition by_difficulty (value : Json) (m : gmap Z Z) : Prop :=
  exists l, value = JObject (map (fun '(d, n) => (DifficultyToken d, JUint n)) l)
    /\ Forall (fun p => has_token p.1) l /\ m = foldl (fun m p => <[p.1 := p.2]> m) ∅ l.

Definition by_name (value : Json) (m : gmap string Z) : Prop :=
  exists l, value = JObject (map (fun '(name, n) => (name, JUint n)) l)
    /\ m = foldl (fun m p => <[p.1 := p.2]> m) ∅ l.

(** A member that may be missing, and is then [missing]. *)
Definition optional {A} (object : Json) (name : string) (says : Json -> A -> Prop) (missing a : A) : Prop :=
  match FindMember object name with Some value => says value a | None => a = missing end.

Definition member (object : Json) (name : string) (says : Json -> Prop) : Prop :=
  exists value, FindMember object name = Some value /\ says value.

Definition says_tokens (value : Json) (l : list Z) : Prop := value = JTokens l /\ Forall has_token l.

Record BossDescribed (value : Json) (boss : BossDefinition) : Prop := {
  bs_key : FindMember value "key" = Some (JString (bd_Key boss));
  bs_name : bd_Name boss = match FindMember value "name" with Some (JString s) => s | _ => ""%string end;
  bs_index : FindMember value "boss_index" = Some (JUint (bd_BossIndex boss));
  bs_creature : number_or_null value "creature_entry" (bd_CreatureEntry boss);
  bs_credit : number_or_null value "credit_entry" (bd_CreditEntry boss);
  bs_bit : member value "dungeon_encounter_bit" (fun bit =>
    bit = JNull /\ bd_DungeonEncounterBit boss = -1 \/ exists n, bit = JUint n /\ bd_DungeonEncounterBit boss = i32 n);
  bs_encounter : number_or_null value "dungeon_encounter_id" (bd_DungeonEncounterId boss);
  bs_encounters : optional value "dungeon_encounter_id_by_difficulty" by_difficulty ∅
    (bd_DungeonEncounterIdByDifficulty boss);
  bs_predecessors : FindMember value "predecessors" = Some (JStrings (bd_Predecessors boss));
  bs_extras : member value "extra_save_values" (fun v => by_name v (bd_ExtraSaveValues boss));
  bs_dead : member value "dead_db_spawn_entries" (fun dead =>
    dead = JNull /\ bd_DeadDbSpawnEntriesKnown boss = false /\ bd_DeadDbSpawnEntries boss = []
    \/ dead = JUints (bd_DeadDbSpawnEntries boss) /\ bd_DeadDbSpawnEntriesKnown boss = true);
  bs_summoned : FindMember value "summoned_entries" = Some (JUints (bd_SummonedEntries boss));
  bs_difficulties : optional value "difficulties" says_tokens [] (bd_Difficulties boss)
}.

Record ExtraDescribed (value : Json) (extra : SaveExtraDefinition) : Prop := {
  es_name : FindMember value "name" = Some (JString (se_Name extra));
  es_encoding : FindMember value "encoding" = Some (JString "raw_uint8");
  es_default : FindMember value "default" = Some (JUint (se_Default extra))
}.

Record DoorDescribed (value : Json) (door : DoorReadback) : Prop := {
  ds_entry : FindMember value "entry" = Some (JUint (dr_Entry door));
  ds_open : FindMember value "open_when_done" = Some (JStrings (dr_OpenWhenDone door))
}.

Definition each {A} (says : Json -> A -> Prop) (value : Json) (l : list A) : Prop :=
  exists items, value = JArray items /\ Forall2 says items l.

Record RaidDescribed (document : Json) (def : RaidDefinition) : Prop := {
  rs_schema : FindMember document "schema" = Some (JString (rd_Schema def));
  rs_raid : FindMember document "raid" = Some (JString (rd_Raid def));
  rs_map : FindMember document "map_id" = Some (JUint (rd_MapId def));
  rs_script : FindMember document "script_name" = Some (JString (rd_ScriptName def));
  rs_header : FindMember document "script_header" = Some (JString (rd_ScriptHeader def));
  rs_initial :
    FindMember document "initial_boss_state" = Some (JString "not_started") /\ rd_InitialBossState def = StateNotStarted
    \/ FindMember document "initial_boss_state" = Some (JString "to_be_decided") /\ rd_InitialBossState def = StateToBeDecided;
  rs_difficulties : member document "difficulties" (fun v => says_tokens v (rd_Difficulties def));
  rs_counts : member document "encounter_count" (fun v => by_difficulty v (rd_EncounterCount def));
  rs_bosses : member document "bosses" (fun v => each BossDescribed v (rd_Bosses def));
  rs_nonempty : rd_Bosses def <> [];
  rs_extras : member document "save_extras" (fun v => each ExtraDescribed v (rd_SaveExtras def));
  rs_doors : optional document "readback_doors" (each DoorDescribed) [] (rd_ReadbackDoors def)
}.

(** ** The reader reads what the document says *)

Lemma FindMember_object value name v : FindMember value name = Some v -> IsObject value = true.
Proof. by destruct value. Qed.

Lemma ReadString_iff object name s : ReadString object name = Some s <-> FindMember object name = Some (JString s).
Proof. unfold ReadString. destruct (FindMember object name) as [[]|]; split; congruence. Qed.

Lemma ReadUInt_iff object name o :
  ReadUInt object name false = Some o <-> exists n, o = Some n /\ FindMember object name = Some (JUint n).
Proof. unfold ReadUInt. destruct (FindMember object name) as [[]|]; split; naive_solver. Qed.

Lemma ReadUInt_null_iff object name o :
  ReadUInt object name true = Some o <->
  match o with Some n => FindMember object name = Some (JUint n) | None => FindMember object name = Some JNull end.
Proof. unfold ReadUInt. destruct (FindMember object name) as [[]|], o; split; congruence. Qed.

Lemma nullable_iff object name f n : nullable object name f = inr n <-> number_or_null object name n.
Proof.
  unfold nullable, number_or_null. rewrite bind_require. setoid_rewrite ReadUInt_null_iff. split.
  - intros ([m|] & H & E); injection E as <-; auto.
  - intros [H|[H ->]]; [by exists (Some n)|by exists None].
Qed.

Lemma read_items_iff {A} (read : Json -> option A) (say : A -> Json) items l :
  (forall x a, read x = Some a <-> x = say a) -> read_items read items = Some l <-> items = map say l.
Proof.
  intros Hr. revert l. induction items as [|x items IH]; intros l; cbn.
  - destruct l; cbn; split; congruence.
  - destruct (read x) as [a|] eqn:E.
    + apply Hr in E. subst x. destruct (read_items read items) as [l'|].
      * rewrite (proj1 (IH l') eq_refl). split; [by intros [= <-]|]. destruct l as [|b l]; cbn; [done|].
        intros E. injection E as E1 E2. pose proof (proj2 (Hr (say a) b) E1) as Hb. rewrite (proj2 (Hr (say a) a) eq_refl) in Hb. injection Hb as ->.
        do 2 f_equal. assert (Some l' = Some l) as [= ->]; [|done]. apply IH. by rewrite (proj1 (IH l') eq_refl).
      * split; [done|]. destruct l as [|b l]; [done|]. cbn. intros E. injection E as _ E2. by apply IH in E2.
    + split; [done|]. destruct l as [|b l]; [done|]. cbn. intros E'. injection E' as -> _.
      by rewrite (proj2 (Hr _ _) eq_refl) in E.
Qed.

Lemma ReadStringArray_iff value l : ReadStringArray value = Some l <-> value = JStrings l.
Proof.
  unfold ReadStringArray, JStrings. destruct value as [| | |items| |]; try (split; congruence).
  rewrite (read_items_iff _ JString) by (intros [] a; split; congruence). split; congruence.
Qed.

Lemma ReadUIntArray_iff value l : ReadUIntArray value = Some l <-> value = JUints l.
Proof.
  unfold ReadUIntArray. destruct value as [| | |items| |]; try (split; congruence).
  rewrite (read_items_iff _ JUint) by (intros [] a; split; congruence). split; congruence.
Qed.

Lemma read_difficulty_iff token d : read_difficulty token = Some d <-> has_token d /\ token = DifficultyToken d.
Proof.
  split; [|intros [H ->]; by apply read_difficulty_token]. unfold read_difficulty.
  destruct (ParseDifficulty token) as [d'|] eqn:E; [|done].
  destruct (String.eqb_spec (DifficultyToken d') token); [|done]. intros [= <-]. split; [|done].
  unfold ParseDifficulty in E. unfold has_token, MaxRaidDifficulty.
  repeat (destruct (_ || _) in E; [injection E as <-; lia|]). done.
Qed.

Lemma ReadDifficultyArray_iff value l : ReadDifficultyArray value = Some l <-> says_tokens value l.
Proof.
  unfold says_tokens. split; [|intros [-> H]; by apply ReadDifficultyArray_print].
  unfold ReadDifficultyArray, JTokens. destruct (ReadStringArray value) as [tokens|] eqn:E; [|done].
  apply ReadStringArray_iff in E. subst value. revert l. induction tokens as [|t tokens IH]; intros l; cbn.
  { by intros [= <-]. }
  destruct (read_difficulty t) as [d|] eqn:Ed; [|done]. destruct (read_difficulties tokens) as [l'|]; [|done].
  intros [= <-]. apply read_difficulty_iff in Ed as [Hd ->]. destruct (IH l' eq_refl) as [E Hl].
  unfold JStrings in *. injection E as E. split; [cbn; by rewrite E|by constructor].
Qed.

Lemma read_by_difficulty_iff f members m : forall m0,
  read_by_difficulty f members m0 = inr m <->
  exists l, members = map (fun '(d, n) => (DifficultyToken d, JUint n)) l
    /\ Forall (fun p => has_token p.1) l /\ m = foldl (fun m p => <[p.1 := p.2]> m) m0 l.
Proof.
  induction members as [|[token value] members IH]; intros m0; cbn.
  { split; [intros [= ->]; by exists []|]. intros ([|[d n] l] & E & _ & ->); [done|discriminate]. }
  split.
  - destruct (read_difficulty token) as [d|] eqn:Ed; [|done]. destruct value as [|n| | | |]; try done.
    intros (l & -> & Hl & ->)%IH. apply read_difficulty_iff in Ed as [Hd ->]. exists ((d, n) :: l).
    split; [done|]. split; [by constructor|done].
  - intros ([|[d n] l] & E & Hl & ->); [discriminate|]. cbn in E. injection E as -> -> ->.
    inversion_clear Hl as [|? ? Hd Hl']. rewrite (read_difficulty_token d Hd). apply IH. by exists l.
Qed.

Lemma read_by_name_iff f members m : forall m0,
  read_by_name f members m0 = inr m <->
  exists l, members = map (fun '(name, n) => (name, JUint n)) l /\ m = foldl (fun m p => <[p.1 := p.2]> m) m0 l.
Proof.
  induction members as [|[name value] members IH]; intros m0; cbn.
  { split; [intros [= ->]; by exists []|]. intros ([|[d n] l] & E & ->); [done|discriminate]. }
  split.
  - destruct value as [|n| | | |]; try done. intros (l & -> & ->)%IH. by exists ((name, n) :: l).
  - intros ([|[d n] l] & E & ->); [discriminate|]. cbn in E. injection E as -> -> ->. apply IH. by exists l.
Qed.

Lemma read_all_iff {A} (read : Json -> Result A) (says : Json -> A -> Prop) items l :
  (forall x a, read x = inr a <-> says x a) -> read_all read items = inr l <-> Forall2 says items l.
Proof.
  intros Hr. revert l. induction items as [|x items IH]; intros l; cbn [read_all].
  - split; [by intros [= <-]|]. intros H. by inversion H.
  - rewrite result_inr. split.
    + intros (a & Ha & H). apply result_inr in H as (l' & Hl & E). injection E as <-. constructor; [by apply Hr|by apply IH].
    + intros H. inversion_clear H as [|? a ? l' Ha Hl]. exists a. split; [by apply Hr|]. apply result_inr.
      exists l'. split; [by apply IH|done].
Qed.

Lemma required_iff {A} object name (read : Json -> option A) (says : Json -> A -> Prop) f a :
  (forall v, read v = Some a <-> says v a) ->
  require (FindMember object name ≫= read) f = inr a <-> member object name (fun v => says v a).
Proof.
  intros Hr. rewrite require_inr, bind_Some. unfold member. by setoid_rewrite Hr.
Qed.

Lemma optional_iff {A} object name (read : Json -> Result A) (says : Json -> A -> Prop) missing a :
  (forall v, read v = inr a <-> says v a) ->
  match FindMember object name with Some v => read v | None => ok missing end = inr a <->
  optional object name says missing a.
Proof. intros Hr. unfold optional. destruct (FindMember object name); [apply Hr|split; congruence]. Qed.

Lemma found_strings_iff object name l :
  FindMember object name ≫= ReadStringArray = Some l <-> FindMember object name = Some (JStrings l).
Proof. rewrite bind_Some. setoid_rewrite ReadStringArray_iff. naive_solver. Qed.

Lemma found_uints_iff object name l :
  FindMember object name ≫= ReadUIntArray = Some l <-> FindMember object name = Some (JUints l).
Proof. rewrite bind_Some. setoid_rewrite ReadUIntArray_iff. naive_solver. Qed.

Lemma members_of_iff value members : members_of value = Some members <-> value = JObject members.
Proof. destruct value; cbn; split; congruence. Qed.

Lemma items_of_iff value items : items_of value = Some items <-> value = JArray items.
Proof. destruct value; cbn; split; congruence. Qed.

Lemma by_difficulty_iff f value m :
  (members <~ require (members_of value) f ;; read_by_difficulty f members ∅) = inr m <-> by_difficulty value m.
Proof.
  rewrite bind_require. unfold by_difficulty. setoid_rewrite members_of_iff. setoid_rewrite read_by_difficulty_iff.
  naive_solver.
Qed.

Lemma read_dead_iff value context known l :
  read_dead value context = inr (known, l) <->
  member value "dead_db_spawn_entries" (fun dead => dead = JNull /\ known = false /\ l = [] \/ dead = JUints l /\ known = true).
Proof.
  unfold read_dead, member. destruct (FindMember value _) as [dead|]; [|split; [done|by intros (? & ? & _)]].
  assert (E : forall f, (entries <~ require (ReadUIntArray dead) f ;; ok (true, entries)) = inr (known, l)
    <-> dead = JUints l /\ known = true).
  { intros f. rewrite bind_require. setoid_rewrite ReadUIntArray_iff. naive_solver. }
  split.
  - intros H. exists dead. split; [done|]. destruct dead; try (right; by eapply E). left. by simplify_eq.
  - intros (? & [= <-] & [(-> & -> & ->)|H]); [done|]. destruct H as [-> ->]. by apply (proj2 (E _)).
Qed.

Lemma optional_difficulties_iff value f l :
  match FindMember value "difficulties" with None => ok [] | Some v => require (ReadDifficultyArray v) f end = inr l <->
  optional value "difficulties" says_tokens [] l.
Proof.
  apply (optional_iff value _ (fun v => require (ReadDifficultyArray v) f)). intros v.
  by rewrite require_inr, ReadDifficultyArray_iff.
Qed.

Lemma optional_encounters_iff value f m :
  match FindMember value "dungeon_encounter_id_by_difficulty" with
  | None => ok ∅
  | Some v => members <~ require (members_of v) f ;; read_by_difficulty f members ∅
  end = inr m <-> optional value "dungeon_encounter_id_by_difficulty" by_difficulty ∅ m.
Proof.
  apply (optional_iff value _ (fun v => members <~ require (members_of v) f ;; read_by_difficulty f members ∅)).
  intros v. apply by_difficulty_iff.
Qed.

Lemma ReadBoss_sound value boss : ReadBoss value = inr boss -> BossDescribed value boss.
Proof.
  unfold ReadBoss. intros H.
  apply bind_require in H as (key & Hkey & H). destruct (IsObject value); [|done]. apply ReadString_iff in Hkey. cbv zeta in H.
  apply bind_require in H as (index & Hindex & H). apply ReadUInt_iff in Hindex as (n & -> & Hindex).
  apply result_inr in H as (creature & Hcreature%nullable_iff & H). apply result_inr in H as (credit & Hcredit%nullable_iff & H).
  apply bind_require in H as (bit & Hbit%ReadUInt_null_iff & H). apply result_inr in H as (encounter & Hencounter%nullable_iff & H).
  apply result_inr in H as (encounters & Hencounters%optional_encounters_iff & H).
  apply bind_require in H as (predecessors & Hpredecessors%found_strings_iff & H).
  apply bind_require in H as (members & Hmembers & H). apply bind_Some in Hmembers as (v & Hv & ->%members_of_iff).
  apply result_inr in H as (extras & (l & -> & ->)%read_by_name_iff & H).
  apply result_inr in H as ([known dead] & Hdead%read_dead_iff & H).
  apply bind_require in H as (summoned & Hsummoned%found_uints_iff & H).
  apply result_inr in H as (difficulties & Hdifficulties%optional_difficulties_iff & H).
  injection H as <-. split; try done.
  - cbn. unfold ReadString. by destruct (FindMember value "name") as [[]|].
  - unfold member. cbn. destruct bit as [n'|]; eexists; (split; [exact Hbit|]); [right; by exists n'|by left].
  - eexists. split; [exact Hv|]. by exists l.
Qed.

Lemma ReadBoss_complete value boss : BossDescribed value boss -> ReadBoss value = inr boss.
Proof.
  intros [Hkey Hname Hindex Hcreature Hcredit (bit & Hbit & Hb) Hencounter Hencounters Hpredecessors
    (v & Hv & l & -> & Hl) Hdead Hsummoned Hdifficulties].
  unfold ReadBoss. rewrite (FindMember_object _ _ _ Hkey). cbv zeta.
  rewrite (proj2 (ReadString_iff _ _ _) Hkey). cbn [require bind].
  rewrite (proj2 (ReadUInt_iff _ _ _) (ex_intro _ _ (conj eq_refl Hindex))). cbn [require bind].
  rewrite (proj2 (nullable_iff _ _ _ _) Hcreature), (proj2 (nullable_iff _ _ _ _) Hcredit). cbn [bind].
  assert (Eb : exists o, ReadUInt value "dungeon_encounter_bit" true = Some o
    /\ match o with Some bit => i32 bit | None => -1 end = bd_DungeonEncounterBit boss).
  { destruct Hb as [[-> ->]|(n & -> & ->)]; [exists None|exists (Some n)]; split; try done; by apply ReadUInt_null_iff. }
  destruct Eb as (o & -> & Eb). cbn [require bind]. rewrite (proj2 (nullable_iff _ _ _ _) Hencounter). cbn [bind].
  rewrite (proj2 (optional_encounters_iff _ _ _) Hencounters). cbn [bind].
  rewrite (proj2 (found_strings_iff _ _ _) Hpredecessors). cbn [require bind]. rewrite Hv. cbn [mbind option_bind members_of require bind].
  rewrite (proj2 (read_by_name_iff _ _ _ _) (ex_intro _ l (conj eq_refl Hl))). cbn [bind].
  rewrite (proj2 (read_dead_iff _ _ _ _) Hdead). cbn [bind]. rewrite (proj2 (found_uints_iff _ _ _) Hsummoned). cbn [require bind].
  rewrite (proj2 (optional_difficulties_iff _ _ _) Hdifficulties). cbn [bind default fst snd]. rewrite Eb.
  replace (default ""%string (ReadString value "name")) with (bd_Name boss); [by destruct boss|].
  rewrite Hname. unfold ReadString. by destruct (FindMember value "name") as [[]|].
Qed.

Lemma ReadBoss_iff value boss : ReadBoss value = inr boss <-> BossDescribed value boss.
Proof. split; [apply ReadBoss_sound|apply ReadBoss_complete]. Qed.

Lemma ReadSaveExtra_iff value extra : ReadSaveExtra value = inr extra <-> ExtraDescribed value extra.
Proof.
  unfold ReadSaveExtra. split.
  - intros H. apply bind_require in H as (name & Hn & H). destruct (IsObject value); [|done]. apply ReadString_iff in Hn.
    apply bind_require in H as (encoding & He%ReadString_iff & H).
    destruct (String.eqb_spec encoding "raw_uint8") as [->|]; [|done]. cbn [negb] in H.
    apply bind_require in H as (d & (n & -> & Hd)%ReadUInt_iff & H). by injection H as <-.
  - intros [Hn He Hd]. rewrite (FindMember_object _ _ _ Hn), (proj2 (ReadString_iff _ _ _) Hn), (proj2 (ReadString_iff _ _ _) He).
    cbn. rewrite (proj2 (ReadUInt_iff _ _ _) (ex_intro _ _ (conj eq_refl Hd))). by destruct extra as [? [] ?].
Qed.

Lemma ReadDoor_iff value door : ReadDoor value = inr door <-> DoorDescribed value door.
Proof.
  unfold ReadDoor. split.
  - intros H. apply bind_require in H as (entry & He & H). destruct (IsObject value); [|done].
    apply ReadUInt_iff in He as (n & -> & He). apply bind_require in H as (l & Hl%found_strings_iff & H). by injection H as <-.
  - intros [He Ho]. rewrite (FindMember_object _ _ _ He), (proj2 (ReadUInt_iff _ _ _) (ex_intro _ _ (conj eq_refl He))).
    cbn [require bind]. rewrite (proj2 (found_strings_iff _ _ _) Ho). by destruct door.
Qed.

Lemma found_each_iff {A} object name (read : Json -> Result A) (says : Json -> A -> Prop) f l :
  (forall x a, read x = inr a <-> says x a) ->
  (items <~ require (FindMember object name ≫= items_of) f ;; read_all read items) = inr l
  <-> member object name (fun v => each says v l).
Proof.
  intros Hr. rewrite bind_require. unfold member, each. split.
  - intros (items & (v & Hv & ->%items_of_iff)%bind_Some & Hl%(read_all_iff _ _ _ _ Hr)). exists (JArray items). eauto.
  - intros (v & Hv & items & -> & Hl). exists items. rewrite Hv. split; [done|]. by apply (read_all_iff _ _ _ _ Hr).
Qed.

Lemma optional_doors_iff document f l :
  match FindMember document "readback_doors" with
  | None => ok []
  | Some doors => items <~ require (items_of doors) f ;; read_all ReadDoor items
  end = inr l <-> optional document "readback_doors" (each DoorDescribed) [] l.
Proof.
  apply (optional_iff document _ (fun v => items <~ require (items_of v) f ;; read_all ReadDoor items)). intros v.
  rewrite bind_require. unfold each. setoid_rewrite items_of_iff.
  by setoid_rewrite (read_all_iff _ _ _ _ ReadDoor_iff).
Qed.

Lemma ReadIdentity_iff document schema raid mapId scriptName scriptHeader :
  ReadIdentity document = Some (schema, raid, mapId, scriptName, scriptHeader) <->
  FindMember document "schema" = Some (JString schema) /\ FindMember document "raid" = Some (JString raid)
  /\ FindMember document "map_id" = Some (JUint mapId)
  /\ FindMember document "script_name" = Some (JString scriptName)
  /\ FindMember document "script_header" = Some (JString scriptHeader).
Proof.
  unfold ReadIdentity. rewrite <- !ReadString_iff.
  assert (E : FindMember document "map_id" = Some (JUint mapId) <-> ReadUInt document "map_id" false = Some (Some mapId))
    by (rewrite ReadUInt_iff; naive_solver). rewrite E.
  destruct (ReadString document "schema"), (ReadString document "raid"), (ReadUInt document "map_id" false) as [o|] eqn:Eo,
    (ReadString document "script_name"), (ReadString document "script_header"); split;
    try (intros [=]; fail); try (intros (? & ? & ? & ? & ?); simplify_eq; done).
  intros [= -> -> <- -> ->]. apply ReadUInt_iff in Eo as (n & -> & _). done.
Qed.

Lemma ReadRaidDefinition_sound document def : ReadRaidDefinition document = inr def -> RaidDescribed document def.
Proof.
  unfold ReadRaidDefinition. destruct (negb (IsObject document)); [done|]. intros H.
  apply bind_require in H as ([[[[schema raid] mapId] name] header] & (H1 & H2 & H3 & H4 & H5)%ReadIdentity_iff & H).
  apply bind_require in H as (initial & Hinitial%ReadString_iff & H).
  destruct (negb (String.eqb initial "not_started") && _) eqn:Ei; [done|]. cbv zeta in H.
  apply bind_require in H as (difficulties & (v & Hv & Hd%ReadDifficultyArray_iff)%bind_Some & H).
  apply bind_require in H as (members & (w & Hw & ->%members_of_iff)%bind_Some & H).
  apply result_inr in H as (counts & (lc & -> & Hlc & ->)%read_by_difficulty_iff & H).
  apply bind_require in H as (bossItems & (x & Hx & ->%items_of_iff)%bind_Some & H).
  destruct (list_is_empty bossItems) eqn:Ee; [done|].
  apply result_inr in H as (bosses & Hb%(read_all_iff _ _ _ _ ReadBoss_iff) & H).
  apply bind_require in H as (extraItems & (y & Hy & ->%items_of_iff)%bind_Some & H).
  apply result_inr in H as (extras & He%(read_all_iff _ _ _ _ ReadSaveExtra_iff) & H).
  apply result_inr in H as (doors & Hdoors%optional_doors_iff & H). injection H as <-. split; try done.
  - cbn. destruct (String.eqb_spec initial "not_started") as [->|]; [by left|].
    destruct (String.eqb_spec initial "to_be_decided") as [->|]; [by right|done].
  - by exists v.
  - exists (JObject (map (fun '(d, n) => (DifficultyToken d, JUint n)) lc)). split; [exact Hw|]. by exists lc.
  - exists (JArray bossItems). split; [exact Hx|]. by exists bossItems.
  - cbn. inversion Hb; subst; done.
  - exists (JArray extraItems). split; [exact Hy|]. by exists extraItems.
Qed.

Lemma ReadRaidDefinition_complete document def : RaidDescribed document def -> ReadRaidDefinition document = inr def.
Proof.
  intros [H1 H2 H3 H4 H5 Hinitial (v & Hv & Hd) (w & Hw & lc & -> & Hlc & Hcounts) (x & Hx & bossItems & -> & Hb) Hne
    (y & Hy & extraItems & -> & He) Hdoors].
  unfold ReadRaidDefinition. rewrite (FindMember_object _ _ _ H1). cbn [negb].
  rewrite (proj2 (ReadIdentity_iff _ _ _ _ _ _) (conj H1 (conj H2 (conj H3 (conj H4 H5))))). cbn [require bind].
  assert (Ei : exists initial, ReadString document "initial_boss_state" = Some initial
    /\ negb (String.eqb initial "not_started") && negb (String.eqb initial "to_be_decided") = false
    /\ (if String.eqb initial "to_be_decided" then StateToBeDecided else StateNotStarted) = rd_InitialBossState def).
  { destruct Hinitial as [[E ->]|[E ->]]; apply ReadString_iff in E; eexists; split; [exact E|done|exact E|done]. }
  destruct Ei as (initial & Es & E1 & E2). rewrite Es. cbn [require bind]. rewrite E1, E2. cbv zeta.
  rewrite Hv. cbn [mbind option_bind]. rewrite (proj2 (ReadDifficultyArray_iff _ _) Hd). cbn [require bind].
  rewrite Hw. cbn [mbind option_bind members_of require bind].
  rewrite (proj2 (read_by_difficulty_iff _ _ _ _) (ex_intro _ lc (conj eq_refl (conj Hlc Hcounts)))). cbn [bind].
  rewrite Hx. cbn [mbind option_bind items_of require bind].
  replace (list_is_empty bossItems) with false by (destruct Hb; [done|done]).
  rewrite (proj2 (read_all_iff _ _ _ _ ReadBoss_iff) Hb). cbn [bind].
  rewrite Hy. cbn [mbind option_bind items_of require bind].
  rewrite (proj2 (read_all_iff _ _ _ _ ReadSaveExtra_iff) He). cbn [bind].
  rewrite (proj2 (optional_doors_iff _ _ _) Hdoors). cbn [bind]. by destruct def.
Qed.

Lemma ReadRaidDefinition_iff document def : ReadRaidDefinition document = inr def <-> RaidDescribed document def.
Proof. split; [apply ReadRaidDefinition_sound|apply ReadRaidDefinition_complete]. Qed.

(** C37. A prerequisite file is accepted, with a definition, exactly when the
    document in it describes that definition, member by member, and the
    definition is well formed: each required member is there with a value of its
    kind and is the field of its name, an optional one may be missing, and a
    null stands for its field's default where one is allowed. Reading always
    ends in a verdict, and every definition whose values can be written is
    described by a document. *)
Theorem ParseRaidDefinitionJson_accepts Parse text :
  Parser_ok Parse ->
  (ParseRaidDefinitionJson Parse text).1 <> Stuck /\
  (forall def, ParseRaidDefinitionJson Parse text = (Pass, def) <->
     exists document, Parse text = Some document /\ RaidDescribed document def /\ WellFormed def) /\
  (forall def, printable def -> RaidDescribed (print_raid def) def).
Proof.
  intros Hp. destruct (ParseRaidDefinitionJson_lemma Parse text Hp) as [Hn Hpass]. split; [done|]. split.
  - intros def. setoid_rewrite <- ReadRaidDefinition_iff. split.
    + intros E. rewrite E in Hpass. destruct (proj1 Hpass eq_refl) as (document & def' & H1 & H2 & <- & _ & H3).
      by exists document.
    + intros (document & Ht & Hr & Hwf).
      pose proof (ReadRaidDefinition_typed _ _ (Hp _ _ Ht) Hr) as Hty.
      destruct (ValidateDefinition_decides def Hty) as [_ Hv]. unfold ParseRaidDefinitionJson.
      by rewrite Ht, Hr, (proj2 Hv Hwf).
  - intros def Hpr. by apply ReadRaidDefinition_iff, ReadRaidDefinition_print.
Qed.

(** ** Witnesses *)

Lemma sample_printable : printable sample_raid.
Proof.
  split; cbn.
  - by left.
  - repeat constructor; unfold has_token, MaxRaidDifficulty; lia.
  - intros d n. rewrite lookup_insert_Some, lookup_singleton_Some.
    unfold has_token, MaxRaidDifficulty. lia.
  - done.
  - repeat constructor; cbn; try done; unfold has_token, MaxRaidDifficulty; lia.
Qed.

Definition sample_parser (text : string) : option Json :=
  if String.eqb text "{}" then Some (print_raid sample_raid) else None.

Lemma ParseRaidDefinitionJson_accepts_witness :
  Parser_ok sample_parser /\ ParseRaidDefinitionJson sample_parser "{}" = (Pass, sample_raid).
Proof.
  assert (Hp : Parser_ok sample_parser).
  { intros text document. unfold sample_parser. destruct (String.eqb text "{}"); [|done].
    intros [= <-]. vm_compute. reflexivity. }
  split; [exact Hp|]. destruct (ParseRaidDefinitionJson_accepts sample_parser "{}" Hp) as (_ & H & Hd).
  apply H. exists (print_raid sample_raid). split; [reflexivity|]. split; [exact (Hd sample_raid sample_printable)|].
  apply (ValidateDefinition_decides sample_raid sample_typed). exact sample_valid.
Defined.

Lemma ReadRaidDefinition_roundtrip_witness :
  ReadRaidDefinition (print_raid sample_raid) = ok sample_raid /\
  ParseRaidDefinitionJson sample_parser "{}" = (Pass, sample_raid).
Proof.
  destruct (ReadRaidDefinition_roundtrip sample_parser "{}" sample_raid sample_printable eq_refl)
    as [H1 H2].
  split; [exact H1|]. apply H2; [|exact sample_typed].
  apply (ValidateDefinition_decides sample_raid sample_typed). exact sample_valid.
Defined.
