(* ===== verification/LockoutRegistry.v ===== *)
(** The registry of seeded raid lockouts: [Bots/BotRaidLockoutRegistry.h] and
    the functions of [Bots/BotRaidLockoutRegistry.cpp] under its mutex. *)
From S2P Require Import Prelude RouteInteraction RouteCompletion LockoutPlan LockoutSeed.
From Stdlib Require Import ZArith Lia String.
From stdpp Require Import base gmap list strings sorting.

Open Scope Z_scope.
Open Scope tc_scope.

Record LockoutRecord : Type := mkRecord {
  lr_CohortId : string;
  lr_Raid : string;
  lr_ScriptName : string;
  lr_ScriptHeader : string;
  lr_MapId : Z;
  lr_InstanceId : Z;
  lr_Difficulty : Z;
  lr_EncounterCount : Z;
  lr_BossesDone : list string;
  lr_BossIndicesDone : list Z;
  lr_ExpectedStates : list Z;
  lr_BossIndexByKey : gmap string Z;
  lr_CompletedEncounterMask : Z;
  lr_SaveData : string;
  lr_ExtraValues : list (string * Z);
  lr_RespawnRows : list RespawnRow;
  lr_Doors : list DoorReadback;
  lr_CreditEntryMismatches : list string;
  lr_SeededAtUnix : Z;
  lr_ArmedLeaderGuid : Z;
  lr_BoundGroupGuid : Z
}.

(** The two members that change after the seed. *)
Definition set_armed (armed bound : Z) (r : LockoutRecord) : LockoutRecord :=
  mkRecord (lr_CohortId r) (lr_Raid r) (lr_ScriptName r) (lr_ScriptHeader r) (lr_MapId r)
    (lr_InstanceId r) (lr_Difficulty r) (lr_EncounterCount r) (lr_BossesDone r)
    (lr_BossIndicesDone r) (lr_ExpectedStates r) (lr_BossIndexByKey r)
    (lr_CompletedEncounterMask r) (lr_SaveData r) (lr_ExtraValues r) (lr_RespawnRows r)
    (lr_Doors r) (lr_CreditEntryMismatches r) (lr_SeededAtUnix r) armed bound.

(** [Records]. *)
Notation Registry := (gmap string LockoutRecord).

Definition FindArmed (leaderGuid : Z) (records : Registry) : option LockoutRecord :=
  snd <$> List.find (fun entry => lr_ArmedLeaderGuid entry.2 =? leaderGuid) (items_str records).

Definition Find (cohortId : string) (records : Registry) : option LockoutRecord := records !! cohortId.

Definition Insert (record : LockoutRecord) (records : Registry) : bool * Registry :=
  match records !! lr_CohortId record with
  | Some _ => (false, records)
  | None => (true, <[lr_CohortId record := record]> records)
  end.

Definition Erase (cohortId : string) (records : Registry) : Registry := delete cohortId records.

Definition Arm (cohortId : string) (leaderGuid : Z) (records : Registry) : bool * Registry :=
  match records !! cohortId with
  | None => (false, records)
  | Some record =>
      if negb (nz leaderGuid) then (false, records)
      else if existsb (fun entry => negb (String.eqb entry.1 cohortId)
                                    && (lr_ArmedLeaderGuid entry.2 =? leaderGuid)) (items_str records)
      then (false, records)
      else (true, <[cohortId := set_armed leaderGuid 0 record]> records)
  end.

Definition Disarm (cohortId : string) (records : Registry) : Registry :=
  match records !! cohortId with
  | None => records
  | Some record => <[cohortId := set_armed 0 (lr_BoundGroupGuid record) record]> records
  end.

Definition SetBoundGroup (cohortId : string) (groupGuid : Z) (records : Registry) : Registry :=
  match records !! cohortId with
  | None => records
  | Some record => <[cohortId := set_armed (lr_ArmedLeaderGuid record) groupGuid record]> records
  end.

Definition HasInstance (instanceId : Z) (records : Registry) : bool :=
  existsb (fun entry => lr_InstanceId entry.2 =? instanceId) (items_str records).

(** ** Reachable registries *)

(** One call; the seeder inserts records that are not armed. *)
Inductive reg_step : Registry -> Registry -> Prop :=
| reg_insert record records :
    lr_ArmedLeaderGuid record = 0 -> reg_step records (Insert record records).2
| reg_erase cohortId records : reg_step records (Erase cohortId records)
| reg_arm cohortId leaderGuid records : reg_step records (Arm cohortId leaderGuid records).2
| reg_disarm cohortId records : reg_step records (Disarm cohortId records)
| reg_bound cohortId groupGuid records : reg_step records (SetBoundGroup cohortId groupGuid records).

Definition reachable (records : Registry) : Prop := rtc reg_step ∅ records.

(** Records are kept under their cohort, and a leader is armed for one cohort
    at most. *)
Definition Registry_ok (records : Registry) : Prop :=
  (forall id r, records !! id = Some r -> lr_CohortId r = id) /\
  (forall id1 id2 r1 r2, records !! id1 = Some r1 -> records !! id2 = Some r2 ->
     lr_ArmedLeaderGuid r1 = lr_ArmedLeaderGuid r2 -> lr_ArmedLeaderGuid r1 <> 0 -> id1 = id2).

Lemma elem_of_items (records : Registry) id r :
  (id, r) ∈ items_str records <-> records !! id = Some r.
Proof. unfold items_str. by rewrite stable_sort_perm, elem_of_map_to_list. Qed.

(** Replacing a record by one that is armed for nobody else keeps the invariant. *)
Lemma Registry_ok_insert records id r :
  Registry_ok records -> lr_CohortId r = id ->
  (lr_ArmedLeaderGuid r <> 0 -> forall id' r', id' <> id -> records !! id' = Some r' ->
     lr_ArmedLeaderGuid r' <> lr_ArmedLeaderGuid r) ->
  Registry_ok (<[id := r]> records).
Proof.
  intros [Hid Huniq] Hr Hother. split.
  - intros id' r'. rewrite lookup_insert_Some. intros [[<- <-]|[_ H]]; [done|by apply Hid].
  - intros id1 id2 r1 r2 [[<- <-]|[Hn1 H1]]%lookup_insert_Some [[<- <-]|[Hn2 H2]]%lookup_insert_Some
      Heq Hnz; [done| | |by eapply Huniq].
    + destruct (Hother Hnz id2 r2 (not_eq_sym Hn2) H2). done.
    + rewrite Heq in Hnz. destruct (Hother Hnz id1 r1 (not_eq_sym Hn1) H1). done.
Qed.

Lemma reg_step_ok records records' :
  reg_step records records' -> Registry_ok records -> Registry_ok records'.
Proof.
  intros Hstep Hok. pose proof Hok as [Hid Huniq].
  destruct Hstep as [record records H0|cohortId records|cohortId leaderGuid records
    |cohortId records|cohortId groupGuid records].
  - unfold Insert. destruct (records !! lr_CohortId record) eqn:E; [done|].
    apply Registry_ok_insert; [done..|]. by rewrite H0.
  - unfold Erase. split.
    + intros id r [_ H]%lookup_delete_Some. by apply Hid.
    + intros id1 id2 r1 r2 [_ H1]%lookup_delete_Some [_ H2]%lookup_delete_Some. by apply Huniq.
  - unfold Arm. destruct (records !! cohortId) as [record|] eqn:E; [|done].
    destruct (negb (nz leaderGuid)) eqn:Hnz; [done|].
    destruct (existsb _ _) eqn:Hex; [done|]. cbn. apply Registry_ok_insert; [done| |].
    + cbn. by apply Hid.
    + cbn. intros _ id' r' Hne Hr' Heq. apply existsb_none in Hex. rewrite Forall_forall in Hex.
      specialize (Hex (id', r') (proj2 (elem_of_items _ _ _) Hr')). cbn in Hex. b2p.
      destruct Hex as [Hex|Hex]; [by apply Hne|done].
  - unfold Disarm. destruct (records !! cohortId) as [record|] eqn:E; [|done].
    apply Registry_ok_insert; [done|by cbn; apply Hid|done].
  - unfold SetBoundGroup. destruct (records !! cohortId) as [record|] eqn:E; [|done].
    apply Registry_ok_insert; [done|by cbn; apply Hid|]. cbn.
    intros Hnz id' r' Hne Hr' Heq. apply Hne. eapply Huniq; eauto. by rewrite Heq.
Qed.

Lemma reachable_ok records : reachable records -> Registry_ok records.
Proof.
  intros H. assert (H0 : Registry_ok ∅) by (split; intros *; by rewrite lookup_empty).
  unfold reachable in H. revert H0. induction H as [|x y z Hxy _ IH]; [done|].
  intros Hx. apply IH. by eapply reg_step_ok.
Qed.

(** In every registry the calls can produce, a raid leader is armed for at
    most one cohort, so the record that the seed-raid hook finds for a leader
    is that cohort's, whatever order the records are searched in. *)
Theorem FindArmed_unique records leaderGuid r :
  reachable records -> leaderGuid <> 0 ->
  FindArmed leaderGuid records = Some r <->
  records !! lr_CohortId r = Some r /\ lr_ArmedLeaderGuid r = leaderGuid.
Proof.
  intros [Hid Huniq]%reachable_ok Hnz. unfold FindArmed. split.
  - intros H. apply fmap_Some in H as ([id r'] & Hf & ->). apply find_some in Hf as [Hin Ha]. cbn in *.
    apply list_elem_of_In, elem_of_items in Hin. apply Z.eqb_eq in Ha. split; [|done].
    by rewrite (Hid id r' Hin).
  - intros [Hr Ha]. destruct (List.find _ _) as [[id r']|] eqn:Hf; cbn.
    + apply find_some in Hf as [Hin Ha']. cbn in *.
      apply list_elem_of_In, elem_of_items in Hin. apply Z.eqb_eq in Ha'.
      assert (id = lr_CohortId r) as -> by (eapply Huniq; eauto; congruence). congruence.
    + pose proof (find_none _ _ Hf (lr_CohortId r, r)) as Hn.
      rewrite <- list_elem_of_In in Hn. specialize (Hn (proj2 (elem_of_items _ _ _) Hr)).
      cbn in Hn. b2p. done.
Qed.

Definition sample_record (cohortId : string) : LockoutRecord :=
  mkRecord cohortId "raid" "script" "B W D" 669 40 0 6 [] [] [] ∅ 0 "" [] [] [] [] 0 0 0.

Lemma FindArmed_unique_witness :
  let records := (Arm "b" 7 (Insert (sample_record "b") (Insert (sample_record "a") ∅).2).2).2 in
  (FindArmed 7 records = Some (set_armed 7 0 (sample_record "b")) <->
   records !! "b"%string = Some (set_armed 7 0 (sample_record "b")) /\ 7 = 7) /\
  (Arm "a" 7 records).1 = false.
Proof.
  split; [|vm_compute; reflexivity].
  apply (FindArmed_unique _ 7 (set_armed 7 0 (sample_record "b"))); [|done].
  eapply rtc_l; [by apply (reg_insert (sample_record "a"))|].
  eapply rtc_l; [by apply (reg_insert (sample_record "b"))|].
  eapply rtc_l; [apply (reg_arm "b" 7)|]. apply rtc_refl.
Defined.
