(* ===== verification/LockoutServer.v ===== *)
(** What the raid lockout seeder relies on: the rows of the characters
    database, and the map, save and object managers of the server.

    The class [Server] lists the calls [Bots/BotRaidLockoutSeeder.cpp] makes;
    [ServerLaws] states what its correctness needs of them: SQL does to the
    rows what the statements say, and nothing touches another instance's rows. *)
From S2P Require Import Prelude LockoutPlan.
From Stdlib Require Import ZArith Lia String.
From stdpp Require Import base gmap list strings.

Open Scope Z_scope.
Open Scope tc_scope.

(** ** The rows of one instance id *)

(** [`map`, `difficulty`, `completedEncounters`, HEX(`data`)] of [`instance`]. *)
Record DbRow : Type := mkDbRow {
  db_MapId : Z; db_Difficulty : Z; db_CompletedEncounterMask : Z; db_SaveDataHex : string }.

(** The rows that carry an instance id in [`instance`], [`character_instance`]
    and [`group_instance`] (by guid), and [`respawn`] (by type and spawn, with
    the time and the map). *)
Record Rows : Type := mkRows {
  rw_instance : option DbRow;
  rw_characters : gset Z;
  rw_groups : gset Z;
  rw_respawn : gmap (Z * Z) (Z * Z)
}.

Definition no_rows : Rows := mkRows None ∅ ∅ ∅.

(** The statements the seeder and the registry execute. [InsertInstance]
    carries the text of [CONVERT(UNHEX('..') USING utf8mb4)]. *)
Inductive Statement : Type :=
| DeleteInstance (instanceId : Z)
| DeleteCharacterInstance (instanceId : Z)
| DeleteGroupInstance (instanceId : Z)
| DeleteGroupInstanceOf (groupGuid instanceId : Z)
| DeleteRespawn (instanceId : Z)
| ReplaceRespawn (spawnType spawnId respawnTime mapId instanceId : Z)
| InsertInstance (instanceId mapId difficulty completedEncounterMask : Z) (hex : string).

(** What the column keeps of the bytes that are written, as [HEX] shows it:
    the character set of the column, which the seeder checks by reading back. *)
Definition Stored : Type := string -> string.

(** What a statement does to the rows of [id]. *)
Definition statement_effect (stored : Stored) (st : Statement) (id : Z) (r : Rows) : Rows :=
  match st with
  | DeleteInstance i =>
      if i =? id then mkRows None (rw_characters r) (rw_groups r) (rw_respawn r) else r
  | DeleteCharacterInstance i =>
      if i =? id then mkRows (rw_instance r) ∅ (rw_groups r) (rw_respawn r) else r
  | DeleteGroupInstance i =>
      if i =? id then mkRows (rw_instance r) (rw_characters r) ∅ (rw_respawn r) else r
  | DeleteGroupInstanceOf guid i =>
      if i =? id
      then mkRows (rw_instance r) (rw_characters r) (rw_groups r ∖ {[ guid ]}) (rw_respawn r) else r
  | DeleteRespawn i =>
      if i =? id then mkRows (rw_instance r) (rw_characters r) (rw_groups r) ∅ else r
  | ReplaceRespawn ty spawn time map i =>
      if i =? id
      then mkRows (rw_instance r) (rw_characters r) (rw_groups r)
             (<[(ty, spawn) := (time, map)]> (rw_respawn r)) else r
  | InsertInstance i map difficulty mask hex =>
      if i =? id
      then match rw_instance r with
           | Some _ => r
           | None => mkRows (Some (mkDbRow map difficulty mask (stored hex)))
                       (rw_characters r) (rw_groups r) (rw_respawn r)
           end
      else r
  end.

(** ** Facts of the loaded world *)

Record SaveFacts : Type := mkSave {
  sv_MapId : Z; sv_Difficulty : Z; sv_PlayerCount : Z; sv_GroupCount : Z }.

(** A live instance script: [sc_BossState] and [sc_RespawnTime] by index and
    spawn, [sc_GameObjects] the entry of each spawned object and whether it is
    [GO_STATE_ACTIVE]. *)
Record ScriptFacts : Type := mkScript {
  sc_ScriptName : string;
  sc_EncounterCount : Z;
  sc_BossState : Z -> Z;
  sc_CompletedEncounterMask : Z;
  sc_SaveData : string;
  sc_RespawnTime : Z -> Z
}.

Record InstanceFacts : Type := mkInstance {
  in_Script : option ScriptFacts; in_GameObjects : list (Z * bool) }.

(** A loaded map; [mp_Instance] when it is an instance map. *)
Record MapFacts : Type := mkMap {
  mp_PlayerCount : Z; mp_HavePlayers : bool; mp_Instance : option InstanceFacts }.

(** [DungeonEncounterEntry] and the world database's list for a map. *)
Record EncounterEntry : Type := mkEncounter {
  ee_MapID : Z; ee_DifficultyID : Z; ee_Bit : Z }.

(** One row of the object manager's creature spawns. *)
Record CreatureSpawn : Type := mkSpawn {
  cs_SpawnId : Z; cs_MapId : Z; cs_Entry : Z; cs_SpawnMask : Z; cs_DbData : bool; cs_Manual : bool }.

(** A bind of an online player on one map and difficulty: its guid, the
    instance of its save if it has one, and whether it is permanent. *)
Record PlayerBind : Type := mkBind { pb_Guid : Z; pb_Instance : option Z; pb_Perm : bool }.

(** ** The calls *)

Class Server (W : Type) : Type := {
  (** Database *)
  execute : Statement -> W -> W;
  query_instance : Z -> W -> option DbRow;
  (** Static stores *)
  raid_map : Z -> W -> option bool;                        (* sMapStore, IsRaid *)
  instance_script : Z -> W -> option string;               (* GetInstanceTemplate, GetScriptName *)
  map_difficulty : Z -> Z -> W -> bool;                    (* GetMapDifficultyData *)
  dungeon_encounter : Z -> W -> option EncounterEntry;     (* sDungeonEncounterStore *)
  live_encounters : Z -> Z -> W -> list (Z * Z);           (* GetDungeonEncounterList: ID, credit *)
  creature_spawns : W -> list CreatureSpawn;               (* GetAllCreatureData *)
  definition_file : string -> W -> string + string;        (* the file's text, or why it is not read *)
  game_time : W -> Z;
  (** Maps *)
  instance_id_capacity : W -> Z;
  generate_instance_id : W -> Z * W;
  was_instance_id_freed : Z -> W -> bool;
  find_map : Z -> Z -> W -> option MapFacts;
  load_instance : Z -> Z -> Z -> W -> bool * W;            (* LoadInstanceForSave: map, id, difficulty *)
  unload_empty_instance : Z -> Z -> W -> bool * W;
  (** Saves *)
  get_save : Z -> W -> option SaveFacts;
  add_save : Z -> Z -> Z -> W -> option SaveFacts * W;     (* map, id, difficulty *)
  unload_save : Z -> W -> W;
  (** Groups and players *)
  group_bind : Z -> Z -> Z -> W -> option Z;               (* group, difficulty, map: bound instance *)
  group_difficulty : Z -> W -> Z;
  group_store_id : Z -> W -> Z;
  group_unbind : Z -> Z -> Z -> W -> W;                    (* group, map, difficulty *)
  group_bind_to : Z -> Z -> W -> W;                        (* group, instance, permanent, load *)
  player_binds : Z -> Z -> W -> list PlayerBind;           (* map, difficulty: online players *)
  player_connected : Z -> W -> bool;
  player_unbind : Z -> Z -> Z -> W -> W                    (* player, map, difficulty *)
}.

(** [rows w id] are the rows that carry [id]. *)
Class ServerLaws (W : Type) `{Server W} (rows : W -> Z -> Rows) (stored : Stored) : Prop := {
  execute_rows st w id : rows (execute st w) id = statement_effect stored st id (rows w id);
  query_rows id w : query_instance id w = rw_instance (rows w id);
  generate_rows w id : rows (generate_instance_id w).2 id = rows w id;
  load_frame map id difficulty w id' : id' <> id -> rows (load_instance map id difficulty w).2 id' = rows w id';
  unload_frame map id w id' : id' <> id -> rows (unload_empty_instance map id w).2 id' = rows w id';
  unload_refused map id w : (unload_empty_instance map id w).1 = false -> (unload_empty_instance map id w).2 = w;
  add_save_rows map id difficulty w id' : rows (add_save map id difficulty w).2 id' = rows w id';
  unload_save_rows id w id' : rows (unload_save id w) id' = rows w id';
  player_unbind_rows guid map difficulty w id' : rows (player_unbind guid map difficulty w) id' = rows w id';
  group_unbind_rows guid map difficulty w id' : rows (group_unbind guid map difficulty w) id' = rows w id'
}.

(** ** Row arithmetic *)

Lemma statement_other stored st id r :
  match st with
  | DeleteInstance i | DeleteCharacterInstance i | DeleteGroupInstance i
  | DeleteGroupInstanceOf _ i | DeleteRespawn i | ReplaceRespawn _ _ _ _ i
  | InsertInstance i _ _ _ _ => i <> id
  end -> statement_effect stored st id r = r.
Proof. destruct st; cbn; intros Hne; by rewrite (proj2 (Z.eqb_neq _ _) Hne). Qed.
