(* ===== verification/LockoutSeeder.v ===== *)
(** Seeding, reading back and clearing raid lockouts on the server:
    [Bots/BotRaidLockoutSeeder.cpp], and the seed group's bind of
    [Bots/BotRaidLockoutRegistry.cpp]. *)
From S2P Require Import Prelude RouteInteraction RouteCompletion RouteJson LockoutPlan LockoutSeed LockoutReadback LockoutDefinition LockoutRegistry LockoutServer.
From Stdlib Require Import ZArith Lia String.
From stdpp Require Import base gmap list strings.

Open Scope Z_scope.
Open Scope tc_scope.

(** [std::numeric_limits<time_t>::max()]. *)
Definition NeverRespawn : Z := 2 ^ 63 - 1.
Definition MaxDefinitionBytes : Z := 1024 * 1024.
Definition SPAWN_TYPE_CREATURE : Z := 0.

Record DoorObservation : Type := mkDoorObservation {
  do_Entry : Z; do_ExpectedOpen : bool; do_Observed : string }.

Record Readback : Type := mkReadback {
  rb_Source : string;
  rb_MapLoaded : bool;
  rb_SaveLoaded : bool;
  rb_SavePlayerBinds : Z;
  rb_SaveGroupBinds : Z;
  rb_DbRowPresent : bool;
  rb_DbIdentityMatches : bool;
  rb_DbSaveDataHex : string;
  rb_DbCompletedEncounterMask : Z;
  rb_ScriptName : string;
  rb_EncounterCount : Z;
  rb_BossStates : list Z;
  rb_CompletedEncounterMask : Z;
  rb_SaveDataHex : string;
  rb_Comparison : ReadbackComparison;
  rb_RespawnRowsLoaded : Z;
  rb_MapPlayers : Z;
  rb_Doors : list DoorObservation;
  rb_Failure : string
}.

Definition ReadbackComparison_default : ReadbackComparison :=
  mkComparison [] [] false false false false false false.

Definition Readback_default : Readback :=
  mkReadback "none" false false 0 0 false false "" 0 "" 0 [] 0 "" ReadbackComparison_default 0 0 [] "".

Definition LockoutRecord_default : LockoutRecord :=
  mkRecord "" "" "" "" 0 0 0 0 [] [] [] ∅ 0 "" [] [] [] [] 0 0 0.

Section Seeder.
Context {W : Type} `{Server W}.

(** rapidjson's parser. *)
Variable Parse : Parser.

(** ** Rows *)

Definition ReadDbRow (instanceId : Z) (w : W) : option DbRow := query_instance instanceId w.

Definition DeleteRowsSync (instanceId : Z) (w : W) : W :=
  execute (DeleteRespawn instanceId)
    (execute (DeleteGroupInstance instanceId)
      (execute (DeleteCharacterInstance instanceId)
        (execute (DeleteInstance instanceId) w))).

Definition WriteRowsSync (record : LockoutRecord) (w : W) : W :=
  let w := DeleteRowsSync (lr_InstanceId record) w in
  let w := foldl (fun w row =>
      execute (ReplaceRespawn SPAWN_TYPE_CREATURE (rr_SpawnId row) NeverRespawn (lr_MapId record)
        (lr_InstanceId record)) w) w (lr_RespawnRows record) in
  execute (InsertInstance (lr_InstanceId record) (lr_MapId record) (lr_Difficulty record)
    (lr_CompletedEncounterMask record) (ToHex (lr_SaveData record))) w.

(** ** Checks before anything is written *)

(** One boss: the failure, or the credit entries that differ. *)
Definition VerifyBoss (def : RaidDefinition) (difficulty : Z) (plan : SeedPlan)
    (boss : BossDefinition) (w : W) : string * list string :=
  if negb (BossAvailableOn boss difficulty) then (""%string, [])
  else
    let done := bool_decide (bd_Key boss ∈ sp_BossesDone plan) in
    let encounterId := DungeonEncounterIdFor boss difficulty in
    if negb (nz encounterId) then
      (if done then sep "dungeon_encounter_id_unknown" (bd_Key boss) else ""%string, [])
    else
      match dungeon_encounter encounterId w with
      | Some dbc =>
          if negb (ee_MapID dbc =? rd_MapId def) || negb (ee_Bit dbc =? bd_DungeonEncounterBit boss)
            || (negb (ee_DifficultyID dbc =? -1) && negb (ee_DifficultyID dbc =? difficulty))
          then (sep "dungeon_encounter_mismatch" (bd_Key boss), [])
          else (""%string, flat_map (fun encounter =>
              if (encounter.1 =? encounterId) && negb (encounter.2 =? bd_CreditEntry boss)
              then [sep (bd_Key boss) (to_string encounter.2)] else [])
            (live_encounters (rd_MapId def) difficulty w))
      | None => (sep "dungeon_encounter_mismatch" (bd_Key boss), [])
      end.

Fixpoint VerifyBosses (def : RaidDefinition) (difficulty : Z) (plan : SeedPlan)
    (bosses : list BossDefinition) (creditMismatches : list string) (w : W) : string * list string :=
  match bosses with
  | [] => (""%string, creditMismatches)
  | boss :: bosses =>
      let '(failure, credits) := VerifyBoss def difficulty plan boss w in
      if str_empty failure
      then VerifyBosses def difficulty plan bosses (creditMismatches ++ credits) w
      else (failure, creditMismatches)
  end.

Definition VerifyOnServer (def : RaidDefinition) (difficulty : Z) (plan : SeedPlan) (w : W)
    : string * list string :=
  if negb (default false (raid_map (rd_MapId def) w)) then ("map_not_a_raid"%string, [])
  else if negb (bool_decide (instance_script (rd_MapId def) w = Some (rd_ScriptName def)))
  then ("instance_script_mismatch"%string, [])
  else if negb (map_difficulty (rd_MapId def) difficulty w)
  then ("map_difficulty_unavailable"%string, [])
  else VerifyBosses def difficulty plan (rd_Bosses def) [] w.

Definition MapCreatureSpawns (mapId : Z) (w : W) : list SpawnFact :=
  map (fun data => mkSpawnFact (cs_SpawnId data) (cs_Entry data) (cs_SpawnMask data) (cs_Manual data))
    (List.filter (fun data => (cs_MapId data =? mapId) && cs_DbData data) (creature_spawns w)).

(** ** Instance ids *)

(** The id is used by nothing the seeder knows. *)
Definition held (mapId id : Z) (records : Registry) (w : W) : bool :=
  bool_decide (is_Some (find_map mapId id w)) || bool_decide (is_Some (get_save id w))
  || HasInstance id records || bool_decide (is_Some (ReadDbRow id w)).

Fixpoint allocate (attempts : nat) (mapId : Z) (records : Registry) (w : W) : option Z * W :=
  match attempts with
  | O => (None, w)
  | S attempts =>
      let '(id, w) := generate_instance_id w in
      if negb (nz id) || (id =? u32_max) then (None, w)
      else if was_instance_id_freed id w || held mapId id records w
      then allocate attempts mapId records w
      else (Some id, w)
  end.

(** [attempt <= bound] with [bound] one more than the capacity. *)
Definition AllocateInstanceId (mapId : Z) (records : Registry) (w : W) : option Z * W :=
  allocate (Z.to_nat (instance_id_capacity w) + 2) mapId records w.

(** ** Reading back *)

Definition ExpectationOfRecord (record : LockoutRecord) : LockoutExpectation :=
  mkExpectation (lr_ScriptHeader record) (lr_EncounterCount record) (lr_ExpectedStates record)
    (lr_BossesDone record) (lr_BossIndexByKey record) (lr_CompletedEncounterMask record)
    (lr_SaveData record) (Z.of_nat (length (lr_ExtraValues record))).

Definition count_doors (entry : Z) (active : bool) (gos : list (Z * bool)) : Z :=
  u32 (Z.of_nat (length (List.filter (fun go => (go.1 =? entry) && Bool.eqb go.2 active) gos))).

Definition ObserveDoors (record : LockoutRecord) (instance : option InstanceFacts)
    (bossStates : list Z) : list DoorObservation :=
  map (fun door =>
      let gos := match instance with Some i => in_GameObjects i | None => [] end in
      mkDoorObservation (dr_Entry door)
        (DoorExpectedOpen door (lr_BossIndexByKey record) bossStates)
        (DoorObservedState (count_doors (dr_Entry door) true gos)
           (count_doors (dr_Entry door) false gos)))
    (lr_Doors record).

(** The boss states and save data of the row, and the failure to read them. *)
Definition read_row (record : LockoutRecord) (hex : string) : string * list Z * string :=
  let shape := map (fun extra => mkSaveExtra extra.1 SaveExtraEncoding_RawUint8 0)
                 (lr_ExtraValues record) in
  let '(decoded, saveData) := FromHex hex in
  if decoded : bool then
    let '(parsed, states, _) :=
      ParseSaveData saveData (lr_ScriptHeader record) shape (lr_EncounterCount record) in
    (if parsed : bool then ""%string else "seeded_lockout_db_save_data_unreadable"%string,
     states, saveData)
  else ("seeded_lockout_db_save_data_unreadable"%string, [], saveData).

(** What the live script or the row says: source, script name, encounter
    count, states, mask, save data, loaded respawn rows and failure. *)
Record Observed : Type := mkObserved {
  ob_Source : string; ob_ScriptName : string; ob_EncounterCount : Z; ob_BossStates : list Z;
  ob_Mask : Z; ob_SaveData : string; ob_RespawnRows : Z; ob_Failure : string }.

Definition observe (record : LockoutRecord) (script : option ScriptFacts) (row : option DbRow)
    (identity : bool) : Observed :=
  match script, row with
  | Some script, _ =>
      mkObserved "live_instance_script" (sc_ScriptName script) (sc_EncounterCount script)
        (map (fun index => u8 (sc_BossState script index)) (seqZ 0 (sc_EncounterCount script)))
        (sc_CompletedEncounterMask script) (sc_SaveData script)
        (u32 (Z.of_nat (length (List.filter (fun row => nz (sc_RespawnTime script (rr_SpawnId row)))
          (lr_RespawnRows record))))) ""
  | None, Some row =>
      if identity then
        let '(failure, states, saveData) := read_row record (db_SaveDataHex row) in
        mkObserved "database" (lr_ScriptName record) (lr_EncounterCount record) states
          (db_CompletedEncounterMask row) saveData 0 failure
      else mkObserved "none" "" 0 [] 0 "" 0 ""
  | None, None => mkObserved "none" "" 0 [] 0 "" 0 ""
  end.

Fixpoint door_failure (doors : list DoorObservation) : string :=
  match doors with
  | [] => ""
  | door :: doors =>
      if DoorMismatch (do_ExpectedOpen door) (do_Observed door)
      then sep "door_state_mismatch" (to_string (do_Entry door)) else door_failure doors
  end.

Definition readback_failure (record : LockoutRecord) (live present identity : bool) (o : Observed)
    (comparison : ReadbackComparison) (doors : list DoorObservation) : string :=
  if negb (str_empty (ob_Failure o)) then ob_Failure o
  else if negb present then "seeded_lockout_db_row_missing"
  else if negb identity then "seeded_lockout_db_identity_mismatch"
  else if live && negb (String.eqb (ob_ScriptName o) (lr_ScriptName record))
  then "instance_script_mismatch"
  else if negb (ob_EncounterCount o =? lr_EncounterCount record) then "encounter_count_mismatch"
  else match rc_MissingDone comparison with
  | key :: _ => sep "seeded_boss_not_done" key
  | [] => door_failure doors
  end.

Definition ReadbackLockout (record : LockoutRecord) (w : W) : Readback :=
  let save := get_save (lr_InstanceId record) w in
  let row := ReadDbRow (lr_InstanceId record) w in
  let identity := match row with
    | Some row => (db_MapId row =? lr_MapId record) && (db_Difficulty row =? lr_Difficulty record)
    | None => false
    end in
  let map := find_map (lr_MapId record) (lr_InstanceId record) w in
  let instance := match map with Some map => mp_Instance map | None => None end in
  let script := match instance with Some i => in_Script i | None => None end in
  let o := observe record script row identity in
  let comparison := CompareReadback (ExpectationOfRecord record) (ob_EncounterCount o)
    (ob_BossStates o) (ob_Mask o) (ob_SaveData o) in
  let doors := ObserveDoors record instance (ob_BossStates o) in
  mkReadback (ob_Source o) (bool_decide (is_Some map)) (bool_decide (is_Some save))
    (match save with Some save => sv_PlayerCount save | None => 0 end)
    (match save with Some save => sv_GroupCount save | None => 0 end)
    (bool_decide (is_Some row)) identity
    (match row with Some row => db_SaveDataHex row | None => ""%string end)
    (match row with Some row => db_CompletedEncounterMask row | None => 0 end)
    (ob_ScriptName o) (ob_EncounterCount o) (ob_BossStates o) (ob_Mask o) (ToHex (ob_SaveData o))
    comparison (ob_RespawnRows o)
    (match map with Some map => u32 (mp_PlayerCount map) | None => 0 end) doors
    (readback_failure record (bool_decide (is_Some script)) (bool_decide (is_Some row)) identity o
       comparison doors).

(** ** The save and the rollback *)

Definition save_matches (record : LockoutRecord) (save : option SaveFacts) : bool :=
  match save with
  | Some save => (sv_MapId save =? lr_MapId record) && (u8 (sv_Difficulty save) =? lr_Difficulty record)
  | None => false
  end.

Definition EnsureSaveLoaded (record : LockoutRecord) (w : W) : bool * W :=
  match get_save (lr_InstanceId record) w with
  | Some save => (save_matches record (Some save), w)
  | None =>
      let '(save, w) := add_save (lr_MapId record) (lr_InstanceId record) (lr_Difficulty record) w in
      (save_matches record save, w)
  end.

Definition RollbackSeed (record : LockoutRecord) (w : W) : W :=
  let w := (unload_empty_instance (lr_MapId record) (lr_InstanceId record) w).2 in
  let w := match get_save (lr_InstanceId record) w with
    | Some save =>
        if negb (nz (sv_PlayerCount save)) && negb (nz (sv_GroupCount save))
        then unload_save (lr_InstanceId record) w else w
    | None => w
    end in
  DeleteRowsSync (lr_InstanceId record) w.

(** ** Seeding *)

(** The directory, file and size checks before the parser are one call of
    [Server]; what it returns as a failure is one of the [prerequisite] ones. *)
Definition LoadDefinition (raid : string) (w : W) : Checked * RaidDefinition :=
  if negb (IsValidKey raid) then (Refuse "invalid_raid_key", RaidDefinition_default)
  else match definition_file raid w with
  | inl failure => (Refuse failure, RaidDefinition_default)
  | inr text =>
      if MaxDefinitionBytes <? Z.of_nat (String.length text)
      then (Refuse "prerequisite_file_too_large", RaidDefinition_default)
      else match ParseRaidDefinitionJson Parse text with
      | (Pass, def) =>
          if String.eqb (rd_Raid def) raid then (Pass, def)
          else (Refuse "raid_key_file_name_mismatch", def)
      | (Refuse failure, def) => (Refuse (sep "invalid_prerequisite_file" failure), def)
      | (Stuck, def) => (Stuck, def)
      end
  end.

(** The record as it is filled from a plan, its id still to come. *)
Definition fill_record (cohortId : string) (def : RaidDefinition) (difficulty : Z) (plan : SeedPlan)
    (credits : list string) (rows : list RespawnRow) (doors : list DoorReadback) (seededAt : Z)
    : LockoutRecord :=
  mkRecord cohortId (rd_Raid def) (rd_ScriptName def) (rd_ScriptHeader def) (rd_MapId def) 0
    difficulty (sp_EncounterCount plan) (sp_BossesDone plan) (sp_BossIndicesDone plan)
    (sp_BossStates plan) (BossIndexByKey def difficulty) (sp_CompletedEncounterMask plan)
    (sp_SaveData plan) (sp_ExtraValues plan) rows doors credits seededAt 0 0.

Definition only_credits (credits : list string) : LockoutRecord :=
  mkRecord "" "" "" "" 0 0 0 0 [] [] [] ∅ 0 "" [] [] [] credits 0 0 0.

Definition set_InstanceId (id : Z) (r : LockoutRecord) : LockoutRecord :=
  mkRecord (lr_CohortId r) (lr_Raid r) (lr_ScriptName r) (lr_ScriptHeader r) (lr_MapId r)
    id (lr_Difficulty r) (lr_EncounterCount r) (lr_BossesDone r)
    (lr_BossIndicesDone r) (lr_ExpectedStates r) (lr_BossIndexByKey r)
    (lr_CompletedEncounterMask r) (lr_SaveData r) (lr_ExtraValues r) (lr_RespawnRows r)
    (lr_Doors r) (lr_CreditEntryMismatches r) (lr_SeededAtUnix r) (lr_ArmedLeaderGuid r)
    (lr_BoundGroupGuid r).

(** [SeedLockout] up to the allocation of the id: nothing is written. *)
Definition PrepareSeed (cohortId raid difficultyToken bossList : string) (w : W)
    : Checked * LockoutRecord :=
  if negb (IsValidCohortId cohortId) then (Refuse "invalid_cohort_id", LockoutRecord_default)
  else match ParseDifficulty difficultyToken with
  | None => (Refuse "invalid_difficulty", LockoutRecord_default)
  | Some difficulty =>
  match ParseBossList bossList with
  | inl failure => (Refuse failure, LockoutRecord_default)
  | inr keys =>
  match LoadDefinition raid w with
  | (Pass, def) =>
  match BuildSeedPlan def difficulty keys with
  | (Pass, plan) =>
      let '(failure, credits) := VerifyOnServer def difficulty plan w in
      if negb (str_empty failure) then (Refuse failure, only_credits credits)
      else match ResolveDeadSpawns plan (MapCreatureSpawns (rd_MapId def) w) with
      | (Pass, rows) =>
          (Pass, fill_record cohortId def difficulty plan credits rows (rd_ReadbackDoors def)
                   (u64 (game_time w)))
      | (failure, rows) => (failure, fill_record cohortId def difficulty plan credits rows [] 0)
      end
  | (failure, _) => (failure, LockoutRecord_default)
  end
  | (failure, _) => (failure, LockoutRecord_default)
  end end end.

(** The row as it was written. *)
Definition row_written (record : LockoutRecord) (w : W) : bool :=
  match ReadDbRow (lr_InstanceId record) w with
  | Some row =>
      (db_MapId row =? lr_MapId record) && (db_Difficulty row =? lr_Difficulty record)
      && (db_CompletedEncounterMask row =? lr_CompletedEncounterMask record)
      && String.eqb (db_SaveDataHex row) (ToHex (lr_SaveData record))
  | None => false
  end.

(** The verdict on the readback of the freshly loaded map. *)
Definition seed_readback_failure (record : LockoutRecord) (readback : Readback) : string :=
  if negb (str_empty (rb_Failure readback)) then rb_Failure readback
  else if negb (String.eqb (rb_Source readback) "live_instance_script")
  then "seeded_lockout_live_readback_missing"
  else if negb (rc_SeedMatch (rb_Comparison readback)) then "seeded_lockout_readback_mismatch"
  else if negb (rb_RespawnRowsLoaded readback =? Z.of_nat (length (lr_RespawnRows record)))
  then "seeded_lockout_respawn_rows_not_loaded"
  else "".

(** [SeedLockout] once the record has its id. *)
Definition CommitSeed (record : LockoutRecord) (records : Registry) (w : W)
    : Checked * Readback * Registry * W :=
  let w := WriteRowsSync record w in
  if negb (row_written record w)
  then (Refuse "seeded_lockout_db_write_mismatch", Readback_default, records, RollbackSeed record w)
  else
  let '(save, w) := add_save (lr_MapId record) (lr_InstanceId record) (lr_Difficulty record) w in
  if negb (save_matches record save)
  then (Refuse "instance_save_create_failed", Readback_default, records, RollbackSeed record w)
  else
  let '(loaded, w) :=
    load_instance (lr_MapId record) (lr_InstanceId record) (lr_Difficulty record) w in
  if negb loaded
  then (Refuse "instance_map_load_failed", Readback_default, records, RollbackSeed record w)
  else
  let readback := ReadbackLockout record w in
  let failure := seed_readback_failure record readback in
  let '(unloaded, w) := unload_empty_instance (lr_MapId record) (lr_InstanceId record) w in
  let failure :=
    if negb unloaded && str_empty failure then "seeding_map_unload_refused"%string else failure in
  if negb (str_empty failure) then (Refuse failure, readback, records, RollbackSeed record w)
  else match LockoutRegistry.Insert record records with
  | (true, records) => (Pass, readback, records, w)
  | (false, records) => (Refuse "lockout_exists", readback, records, RollbackSeed record w)
  end.

Definition SeedLockout (cohortId raid difficultyToken bossList : string) (records : Registry) (w : W)
    : Checked * LockoutRecord * Readback * Registry * W :=
  match PrepareSeed cohortId raid difficultyToken bossList w with
  | (Pass, record) =>
      match AllocateInstanceId (lr_MapId record) records w with
      | (None, w) => (Refuse "instance_id_exhausted", record, Readback_default, records, w)
      | (Some id, w) =>
          let record := set_InstanceId id record in
          let '(failure, readback, records, w) := CommitSeed record records w in
          (failure, record, readback, records, w)
      end
  | (failure, record) => (failure, record, Readback_default, records, w)
  end.

(** ** Clearing *)

Definition recorded_group (record : LockoutRecord) (w : W) : option Z :=
  if nz (lr_BoundGroupGuid record) then
    match group_bind (lr_BoundGroupGuid record) (lr_Difficulty record) (lr_MapId record) w with
    | Some instance =>
        if instance =? lr_InstanceId record then Some (lr_BoundGroupGuid record) else None
    | None => None
    end
  else None.

(** The players bound to the lockout, or the permanent holder. *)
Fixpoint transient_binds (instanceId : Z) (binds : list PlayerBind) (transient : list Z)
    : string + list Z :=
  match binds with
  | [] => inr transient
  | bind :: binds =>
      if bool_decide (pb_Instance bind = Some instanceId) then
        if pb_Perm bind
        then inl (sep "lockout_bound_by_online_player" (to_string (pb_Guid bind)))
        else transient_binds instanceId binds (transient ++ [pb_Guid bind])
      else transient_binds instanceId binds transient
  end.

(** Every refusal, before anything changes: the failure or the binds. *)
Definition CheckClear (record : LockoutRecord) (w : W) : string + list Z :=
  if match find_map (lr_MapId record) (lr_InstanceId record) w with
     | Some map => mp_HavePlayers map
     | None => false
     end
  then inl "lockout_map_has_players"%string
  else match get_save (lr_InstanceId record) w with
  | None => inr []
  | Some save =>
      if (if bool_decide (is_Some (recorded_group record w)) then 1 else 0) <? sv_GroupCount save
      then inl "lockout_bound_by_foreign_group"%string
      else
        match (if nz (sv_PlayerCount save)
               then transient_binds (lr_InstanceId record)
                      (player_binds (lr_MapId record) (lr_Difficulty record) w) []
               else inr []) with
        | inl failure => inl failure
        | inr transient =>
            if sv_PlayerCount save =? Z.of_nat (length transient) then inr transient
            else inl "lockout_bound_by_unlisted_player"%string
        end
  end.

Definition ClearLockout (record : LockoutRecord) (w : W) : string * W :=
  let group := recorded_group record w in
  match CheckClear record w with
  | inl failure => (failure, w)
  | inr transient =>
      let '(unloaded, w) := unload_empty_instance (lr_MapId record) (lr_InstanceId record) w in
      if negb unloaded then ("lockout_map_unload_refused"%string, w)
      else
        let w := foldl (fun w guid =>
            if player_connected guid w
            then player_unbind guid (lr_MapId record) (lr_Difficulty record) w else w) w transient in
        let w := match group with
          | Some guid => group_unbind guid (lr_MapId record) (lr_Difficulty record) w
          | None => w
          end in
        let w := match get_save (lr_InstanceId record) w with
          | Some _ => unload_save (lr_InstanceId record) w
          | None => w
          end in
        (""%string, DeleteRowsSync (lr_InstanceId record) w)
  end.

(** ** The seed group's bind *)

(** A [Group*] by its guid. *)
Definition BindArmedSeedGroup (leaderGuid : Z) (seed : option Z) (placementMapId : Z)
    (records : Registry) (w : W) : Registry * W :=
  match seed with
  | None => (records, w)
  | Some seed =>
      if negb (nz leaderGuid) then (records, w)
      else match FindArmed leaderGuid records with
      | None => (records, w)
      | Some record =>
          let '(save, w) :=
            match get_save (lr_InstanceId record) w with
            | Some save => (Some save, w)
            | None => add_save (lr_MapId record) (lr_InstanceId record) (lr_Difficulty record) w
            end in
          if match save with
             | None => true
             | Some save =>
                 negb (sv_MapId save =? placementMapId) || negb (sv_MapId save =? lr_MapId record)
                 || negb (u8 (sv_Difficulty save) =? lr_Difficulty record)
                 || negb (u8 (group_difficulty seed w) =? lr_Difficulty record)
             end
          then (records, w)
          else (SetBoundGroup (lr_CohortId record) seed records,
                group_bind_to seed (lr_InstanceId record) w)
      end
  end.

Definition ReleaseBoundGroup (record : LockoutRecord) (records : Registry) (w : W) : Registry * W :=
  if negb (nz (lr_BoundGroupGuid record)) then (records, w)
  else
    let w := match recorded_group record w with
      | Some group =>
          let storeId := group_store_id group w in
          let w := group_unbind group (lr_MapId record) (lr_Difficulty record) w in
          execute (DeleteGroupInstanceOf storeId (lr_InstanceId record)) w
      | None => w
      end in
    (SetBoundGroup (lr_CohortId record) 0 records, w).

Definition ReleaseArmedSeedGroup (leaderGuid : Z) (records : Registry) (w : W) : Registry * W :=
  if negb (nz leaderGuid) then (records, w)
  else match FindArmed leaderGuid records with
  | Some record => ReleaseBoundGroup record records w
  | None => (records, w)
  end.

Definition ReleaseSeedGroupBind (cohortId : string) (records : Registry) (w : W) : Registry * W :=
  match Find cohortId records with
  | Some record => ReleaseBoundGroup record records w
  | None => (records, w)
  end.
End Seeder.
