(* ===== verification/LockoutSeederSpec.v ===== *)
(** What seeding and clearing a lockout promise: nothing is left behind by a
    refusal, and what success registers was written, loaded and read back. *)
From S2P Require Import Prelude RouteInteraction RouteCompletion RouteJson LockoutPlan LockoutGraph LockoutSeed LockoutValid LockoutSeedSpec LockoutReadback LockoutReload LockoutDefinition LockoutRegistry LockoutServer LockoutSeeder.
From Stdlib Require Import ZArith Lia String.
From stdpp Require Import base gmap list strings.

Open Scope Z_scope.
Open Scope tc_scope.

Section Spec.
Context {W : Type} `{Server W} (rows : W -> Z -> Rows) (stored : Stored) `{Hlaws : !ServerLaws W rows stored}.
Variable Parse : Parser.

(** ** Frames *)

(** Every row outside the instance [id] is untouched. *)
Definition same_except (id : Z) (w w' : W) : Prop := forall id', id' <> id -> rows w' id' = rows w id'.

#[local] Instance same_except_preorder id : PreOrder (same_except id).
Proof using Type.
  split; [by intros w id'|]. intros w1 w2 w3 H1 H2 id' Hne. by rewrite H2, H1.
Qed.

Lemma DeleteRowsSync_rows id w : rows (DeleteRowsSync id w) id = no_rows.
Proof using Hlaws.
  unfold DeleteRowsSync. rewrite !execute_rows. unfold statement_effect.
  by rewrite !Z.eqb_refl.
Qed.

Lemma DeleteRowsSync_frame id w : same_except id w (DeleteRowsSync id w).
Proof using Hlaws.
  intros id' Hne. unfold DeleteRowsSync. rewrite !execute_rows.
  rewrite !statement_other; done || by apply not_eq_sym.
Qed.

Lemma unload_save_frame id w : same_except id w (unload_save id w).
Proof using Hlaws. intros id' _. apply unload_save_rows. Qed.

Lemma unload_empty_frame map id w : same_except id w (unload_empty_instance map id w).2.
Proof using Hlaws. intros id' Hne. by apply unload_frame. Qed.

(** A rollback leaves no row of the id and touches no other. *)
Lemma RollbackSeed_effect record w :
  rows (RollbackSeed record w) (lr_InstanceId record) = no_rows /\
  same_except (lr_InstanceId record) w (RollbackSeed record w).
Proof using Hlaws.
  unfold RollbackSeed. split; [apply DeleteRowsSync_rows|].
  etrans; [apply (unload_empty_frame (lr_MapId record))|].
  etrans; [|apply DeleteRowsSync_frame].
  destruct (get_save _ _) as [save|]; [|done]. destruct (_ && _); [apply unload_save_frame|done].
Qed.

(** ** What is written *)

(** The respawn rows of the seed. *)
Definition seeded_respawn (record : LockoutRecord) : gmap (Z * Z) (Z * Z) :=
  foldl (fun m row => <[(SPAWN_TYPE_CREATURE, rr_SpawnId row) := (NeverRespawn, lr_MapId record)]> m)
    ∅ (lr_RespawnRows record).

Definition seeded_rows (record : LockoutRecord) : Rows :=
  mkRows (Some (mkDbRow (lr_MapId record) (lr_Difficulty record) (lr_CompletedEncounterMask record)
                  (stored (ToHex (lr_SaveData record)))))
    ∅ ∅ (seeded_respawn record).

Lemma respawn_writes record rs : forall w r,
  rows w (lr_InstanceId record) = r ->
  let w' := foldl (fun w row => execute (ReplaceRespawn SPAWN_TYPE_CREATURE (rr_SpawnId row)
      NeverRespawn (lr_MapId record) (lr_InstanceId record)) w) w rs in
  rows w' (lr_InstanceId record) = mkRows (rw_instance r) (rw_characters r) (rw_groups r)
    (foldl (fun m row => <[(SPAWN_TYPE_CREATURE, rr_SpawnId row) := (NeverRespawn, lr_MapId record)]> m)
       (rw_respawn r) rs) /\
  same_except (lr_InstanceId record) w w'.
Proof using Hlaws.
  induction rs as [|row rs IH]; intros w r Hr; cbn; [split; [by destruct r|done]|].
  match goal with |- context [foldl _ ?w1 rs] => destruct (IH w1 _ eq_refl) as [H1 H2] end.
  rewrite execute_rows in H1. cbn in H1, H2. rewrite Z.eqb_refl, Hr in H1. cbn in H1.
  split; [exact H1|]. etrans; [|exact H2].
  intros id' Hne. rewrite execute_rows. apply statement_other. by apply not_eq_sym.
Qed.

Lemma WriteRowsSync_lemma record w :
  rows (WriteRowsSync record w) (lr_InstanceId record) = seeded_rows record /\
  same_except (lr_InstanceId record) w (WriteRowsSync record w).
Proof using Hlaws.
  unfold WriteRowsSync.
  destruct (respawn_writes record (lr_RespawnRows record) (DeleteRowsSync (lr_InstanceId record) w)
    no_rows (DeleteRowsSync_rows _ _)) as [H1 H2].
  split.
  - rewrite execute_rows, H1. cbn. by rewrite Z.eqb_refl.
  - etrans; [apply DeleteRowsSync_frame|]. etrans; [exact H2|].
    intros id' Hne. rewrite execute_rows. apply statement_other. by apply not_eq_sym.
Qed.

(** The row reads back as it was written exactly when the column keeps the
    save data's bytes. *)
Lemma row_written_lemma record w :
  row_written record (WriteRowsSync record w) = true <->
  stored (ToHex (lr_SaveData record)) = ToHex (lr_SaveData record).
Proof using Hlaws.
  unfold row_written, ReadDbRow. rewrite query_rows.
  destruct (WriteRowsSync_lemma record w) as [-> _]. cbn.
  rewrite !Z.eqb_refl. cbn. apply String.eqb_eq.
Qed.

(** ** Allocation *)

Definition clean (mapId id : Z) (records : Registry) (w : W) : Prop :=
  id <> 0 /\ id <> u32_max /\ was_instance_id_freed id w = false /\ find_map mapId id w = None /\
  get_save id w = None /\ HasInstance id records = false /\ rw_instance (rows w id) = None.

Lemma held_false mapId id records w :
  held mapId id records w = false ->
  find_map mapId id w = None /\ get_save id w = None /\ HasInstance id records = false /\
  rw_instance (rows w id) = None.
Proof using Hlaws.
  unfold held, ReadDbRow. rewrite query_rows. intros [[[H1 H2]%orb_false_iff H3]%orb_false_iff H4]%orb_false_iff.
  apply bool_decide_eq_false in H1, H2, H4. rewrite <- !eq_None_not_Some in *. done.
Qed.

Lemma allocate_spec attempts mapId records : forall w,
  let '(id, w') := allocate attempts mapId records w in
  (forall i, rows w' i = rows w i) /\
  match id with Some id => clean mapId id records w' | None => True end.
Proof using Hlaws.
  induction attempts as [|n IH]; intros w; cbn; [done|].
  pose proof (generate_rows w) as Hg. destruct (generate_instance_id w) as [id w1]. cbn in Hg.
  destruct (negb (nz id) || (id =? u32_max)) eqn:E; [done|].
  destruct (was_instance_id_freed id w1 || held mapId id records w1) eqn:Eh.
  - specialize (IH w1). destruct (allocate n mapId records w1) as [id' w'].
    destruct IH as [IH1 IH2]. split; [|done]. intros i. by rewrite IH1, Hg.
  - split; [done|]. apply orb_false_iff in Eh as [Hf Hh]. b2p. unfold clean.
    destruct E as [E1 E2]. apply held_false in Hh. split_and!; tauto.
Qed.

(** ** Committing a seed *)

Lemma Insert_spec record (records : Registry) :
  match LockoutRegistry.Insert record records with
  | (true, records') =>
      records !! lr_CohortId record = None /\ records' = <[lr_CohortId record := record]> records
  | (false, records') => records' = records
  end.
Proof using Type. unfold LockoutRegistry.Insert. by destruct (records !! lr_CohortId record) eqn:E. Qed.

(** What a commit leaves: on success the record, accepted by its readback, on
    a refusal nothing. *)
Definition committed (record : LockoutRecord) (records records' : Registry) (readback : Readback) : Prop :=
  records !! lr_CohortId record = None /\ records' = <[lr_CohortId record := record]> records /\
  stored (ToHex (lr_SaveData record)) = ToHex (lr_SaveData record) /\
  seed_readback_failure record readback = ""%string.

Definition commit_effect (record : LockoutRecord) (records : Registry) (w : W)
    (r : Checked * Readback * Registry * W) : Prop :=
  let '(failure, readback, records', w') := r in
  same_except (lr_InstanceId record) w w' /\
  match failure with
  | Pass => committed record records records' readback
  | Refuse _ => records' = records /\ rows w' (lr_InstanceId record) = no_rows
  | Stuck => False
  end.

(** A refusal after any frame-respecting step is rolled back. *)
Lemma commit_refuse record records w w1 failure readback :
  same_except (lr_InstanceId record) w w1 ->
  commit_effect record records w (Refuse failure, readback, records, RollbackSeed record w1).
Proof using Hlaws.
  intros Hw. destruct (RollbackSeed_effect record w1) as [H1 H2]. split; [by etrans|done].
Qed.

Lemma CommitSeed_effect record records w :
  commit_effect record records w (CommitSeed record records w).
Proof using Hlaws.
  unfold CommitSeed. set (w1 := WriteRowsSync record w).
  assert (H1 : same_except (lr_InstanceId record) w w1) by apply WriteRowsSync_lemma.
  destruct (row_written record w1) eqn:Hwritten; cbn [negb]; [|by apply commit_refuse].
  apply row_written_lemma in Hwritten.
  pose proof (add_save_rows (lr_MapId record) (lr_InstanceId record) (lr_Difficulty record) w1) as H2.
  destruct (add_save _ _ _ w1) as [save w2]. cbn in H2.
  assert (H2' : same_except (lr_InstanceId record) w w2) by (etrans; [exact H1|]; intros i _; apply H2).
  destruct (save_matches record save); cbn [negb]; [|by apply commit_refuse].
  pose proof (load_frame (lr_MapId record) (lr_InstanceId record) (lr_Difficulty record) w2) as H3.
  destruct (load_instance _ _ _ w2) as [loaded w3]. cbn in H3.
  assert (H3' : same_except (lr_InstanceId record) w w3)
    by (etrans; [exact H2'|]; intros i Hi; by apply H3).
  destruct loaded; cbn [negb]; [|by apply commit_refuse].
  pose proof (unload_frame (lr_MapId record) (lr_InstanceId record) w3) as H4.
  destruct (unload_empty_instance _ _ w3) as [unloaded w4]. cbn in H4.
  assert (H4' : same_except (lr_InstanceId record) w w4)
    by (etrans; [exact H3'|]; intros i Hi; by apply H4).
  destruct (negb (str_empty (if _ : bool then _ else _))) eqn:Hf; [by apply commit_refuse|].
  pose proof (Insert_spec record records) as Hins.
  destruct (LockoutRegistry.Insert record records) as [[] records']; [|subst; by apply commit_refuse].
  split; [done|]. destruct Hins as [Hn ->]. split_and!; try done.
  apply negb_false_iff, str_empty_spec in Hf. destruct unloaded; cbn [negb andb] in Hf; [exact Hf|].
  destruct (str_empty (seed_readback_failure _ _)); [discriminate Hf|exact Hf].
Qed.

(** The readback a seed accepts. *)
Lemma seed_readback_ok record readback :
  seed_readback_failure record readback = ""%string ->
  rb_Failure readback = ""%string /\ rb_Source readback = "live_instance_script"%string /\
  rc_SeedMatch (rb_Comparison readback) = true /\
  rb_RespawnRowsLoaded readback = Z.of_nat (length (lr_RespawnRows record)).
Proof using Type.
  unfold seed_readback_failure. destruct (str_empty (rb_Failure readback)) eqn:E1; cbn [negb].
  - apply str_empty_spec in E1. destruct (String.eqb_spec (rb_Source readback) "live_instance_script"); [|done].
    destruct (rc_SeedMatch _); [|done]. cbn [negb]. destruct (Z.eqb_spec (rb_RespawnRowsLoaded readback)
      (Z.of_nat (length (lr_RespawnRows record)))); [done|done].
  - intros E. by rewrite E in E1.
Qed.

(** The record a plan fills, for a definition read from the raid's file. *)
Definition planned (cohortId raid difficultyToken bossList : string) (record : LockoutRecord) : Prop :=
  exists def difficulty keys count plan text credits rows seededAt,
    ParseRaidDefinitionJson Parse text = (Pass, def) /\ WellFormed def /\ rd_Raid def = raid /\
    ParseDifficulty difficultyToken = Some difficulty /\ ParseBossList bossList = inr keys /\
    PlanOf def difficulty keys count plan /\
    record = fill_record cohortId def difficulty plan credits rows (rd_ReadbackDoors def) seededAt.

Lemma LoadDefinition_spec raid w :
  Parser_ok Parse ->
  let '(c, def) := LoadDefinition Parse raid w in
  c <> Stuck /\
  (c = Pass -> typed def /\ WellFormed def /\ rd_Raid def = raid /\
     exists text, ParseRaidDefinitionJson Parse text = (Pass, def)).
Proof using Type.
  intros Hp. unfold LoadDefinition. destruct (negb (IsValidKey raid)); [done|].
  destruct (definition_file raid w) as [failure|text]; [done|].
  destruct (MaxDefinitionBytes <? _); [done|].
  destruct (ParseRaidDefinitionJson_lemma Parse text Hp) as [Hn Hpass].
  destruct (ParseRaidDefinitionJson Parse text) as [[|failure|] def] eqn:E; cbn in *; [|done|done].
  destruct (String.eqb_spec (rd_Raid def) raid); [|done]. split; [done|]. intros _.
  destruct Hpass as [Hpass _]. destruct (Hpass eq_refl) as (document & d & _ & _ & <- & Ht & Hw).
  by eauto 10.
Qed.

Lemma ParseDifficulty_nonneg token d : ParseDifficulty token = Some d -> 0 <= d.
Proof using Type. unfold ParseDifficulty. repeat split_guard; intros; simplify_eq; lia. Qed.

Lemma PrepareSeed_spec cohortId raid difficultyToken bossList w :
  Parser_ok Parse ->
  let '(c, record) := PrepareSeed Parse cohortId raid difficultyToken bossList w in
  c <> Stuck /\ (c = Pass -> planned cohortId raid difficultyToken bossList record).
Proof using Type.
  intros Hp. unfold PrepareSeed. destruct (negb (IsValidCohortId cohortId)); [done|].
  destruct (ParseDifficulty difficultyToken) as [difficulty|] eqn:Ed; [|done].
  destruct (ParseBossList bossList) as [failure|keys] eqn:Eb; [done|].
  pose proof (LoadDefinition_spec raid w Hp) as Hl.
  destruct (LoadDefinition Parse raid w) as [[|failure|] def]; destruct Hl as [Hn Hl]; [|done|done].
  destruct (Hl eq_refl) as (Hty & Hwf & Hraid & text & Htext).
  pose proof (BuildSeedPlan_lemma def difficulty keys Hty) as Hb.
  destruct (BuildSeedPlan def difficulty keys) as [c plan]. destruct Hb as (Hbn & _ & Hplan).
  destruct c as [|failure|]; [|done|done]. destruct (Hplan eq_refl) as (count & _ & Hpl).
  destruct (VerifyOnServer def difficulty plan w) as [failure credits].
  destruct (negb (str_empty failure)); [done|].
  pose proof (ResolveDeadSpawns_lemma plan (MapCreatureSpawns (rd_MapId def) w)) as Hr.
  destruct (ResolveDeadSpawns _ _) as [c rows0]. destruct Hr as [Hrn _].
  { rewrite (po_difficulty _ _ _ _ _ Hpl). by eapply ParseDifficulty_nonneg. }
  destruct c as [|failure'|]; [|done|done]. split; [done|]. intros _.
  exists def, difficulty, keys, count, plan, text, credits, rows0. eexists. split_and!; done.
Qed.

(** The rows of every instance are what they were, but for an instance whose
    rows are gone. *)
Definition rows_undone (id : Z) (w w' : W) : Prop :=
  forall other, rows w' other = rows w other \/ other = id /\ rows w' other = no_rows.

Lemma rows_undone_refl id w w' : (forall other, rows w' other = rows w other) -> rows_undone id w w'.
Proof using Type. intros Hrows i. left. apply Hrows. Qed.

(** C34. A seeding always ends in a verdict, and one that is refused, at
    whatever step, leaves the registry as it was and no row in the database: no
    row of any other instance is touched, and the rows of the id it had
    allocated are gone. *)
Theorem SeedLockout_rolls_back cohortId raid difficultyToken bossList records w :
  Parser_ok Parse ->
  let '(failure, record, readback, records', w') :=
    SeedLockout Parse cohortId raid difficultyToken bossList records w in
  failure <> Stuck /\
  (failure <> Pass ->
   records' = records /\
   rows_undone (lr_InstanceId record) w w').
Proof using Hlaws.
  intros Hp. unfold SeedLockout.
  pose proof (PrepareSeed_spec cohortId raid difficultyToken bossList w Hp) as Hprep.
  destruct (PrepareSeed _ _ _ _ _ _) as [failure record]. destruct Hprep as [Hn _].
  destruct failure as [|failure|]; [|by split; [|intros _; split; [|apply rows_undone_refl]]|done].
  pose proof (allocate_spec (Z.to_nat (instance_id_capacity w) + 2) (lr_MapId record) records w) as Ha.
  unfold AllocateInstanceId. destruct (allocate _ _ _ w) as [[id|] w1]; [|by destruct Ha; auto using rows_undone_refl].
  destruct Ha as [Ha _]. pose proof (CommitSeed_effect (set_InstanceId id record) records w1) as Hc.
  destruct (CommitSeed _ _ w1) as [[[failure readback] records'] w']. destruct Hc as [Hframe Hc].
  destruct failure as [|failure|]; [done| |done]. split; [done|]. intros _.
  destruct Hc as [-> Hno]. split; [done|].
  intros i. destruct (decide (i = id)) as [->|Hne]; [right; done|left].
  rewrite <- Ha. by apply Hframe.
Qed.

(** C35. A seeding that succeeds registers a record, for a cohort that had none,
    that a plan of a well-formed definition of the raid fills for the bosses that
    were asked, under an instance id that nothing used; the column kept the save
    data's bytes, the live script read the seed back with those bosses dead and
    every respawn row loaded, and no row of another instance was touched. *)
Theorem SeedLockout_registers cohortId raid difficultyToken bossList records w :
  Parser_ok Parse ->
  let '(failure, record, readback, records', w') :=
    SeedLockout Parse cohortId raid difficultyToken bossList records w in
  failure = Pass ->
  records !! cohortId = None /\ records' = <[cohortId := record]> records /\
  (exists record0, planned cohortId raid difficultyToken bossList record0 /\
     record = set_InstanceId (lr_InstanceId record) record0) /\
  HasInstance (lr_InstanceId record) records = false /\
  rw_instance (rows w (lr_InstanceId record)) = None /\
  stored (ToHex (lr_SaveData record)) = ToHex (lr_SaveData record) /\
  rb_Failure readback = ""%string /\ rb_Source readback = "live_instance_script"%string /\
  rc_SeedMatch (rb_Comparison readback) = true /\
  rb_RespawnRowsLoaded readback = Z.of_nat (length (lr_RespawnRows record)) /\
  same_except (lr_InstanceId record) w w'.
Proof using Hlaws.
  intros Hp. unfold SeedLockout.
  pose proof (PrepareSeed_spec cohortId raid difficultyToken bossList w Hp) as Hprep.
  destruct (PrepareSeed _ _ _ _ _ _) as [failure record]. destruct Hprep as [_ Hplan].
  destruct failure as [|failure|]; [|done..]. specialize (Hplan eq_refl).
  assert (Hcid : lr_CohortId record = cohortId)
    by (by destruct Hplan as (? & ? & ? & ? & ? & ? & ? & ? & ? & _ & _ & _ & _ & _ & _ & ->)).
  pose proof (allocate_spec (Z.to_nat (instance_id_capacity w) + 2) (lr_MapId record) records w) as Ha.
  unfold AllocateInstanceId. destruct (allocate _ _ _ w) as [[id|] w1]; [|done].
  destruct Ha as [Ha (Hid & _ & _ & _ & _ & Hi & Hr)].
  pose proof (CommitSeed_effect (set_InstanceId id record) records w1) as Hc.
  destruct (CommitSeed _ _ w1) as [[[failure readback] records'] w'].
  destruct Hc as [Hframe Hc]. intros ->. destruct Hc as (Hnone & Hins & Hst & Hrb).
  cbn in Hnone, Hins. rewrite Hcid in Hnone, Hins.
  apply seed_readback_ok in Hrb as (? & ? & ? & ?).
  split_and!; try done.
  - by exists record.
  - by rewrite <- Ha.
  - intros i Hne. rewrite <- Ha. by apply Hframe.
Qed.

(** ** Clearing *)






End Spec.
