(* ===== verification/LockoutToyServer.v ===== *)
(** A small server that satisfies [ServerLaws], on which the seeder runs. *)
From S2P Require Import Prelude RouteInteraction RouteCompletion RouteJson LockoutPlan LockoutSeed LockoutValid LockoutSeedSpec LockoutReadback LockoutReload LockoutDefinition LockoutRegistry LockoutServer LockoutSeeder LockoutSeederSpec.
From Stdlib Require Import ZArith Lia String.
From stdpp Require Import base gmap list strings.

Open Scope Z_scope.
Open Scope tc_scope.

(** ** A raid with live encounters *)

Definition toy_boss (key : string) (index : Z) (predecessors : list string)
    (extras : gmap string Z) (dead summoned difficulties : list Z) : BossDefinition :=
  mkBoss key key index 100 0 (1000 + index) ∅ index predecessors extras true dead summoned difficulties.

Definition toy_raid : RaidDefinition :=
  mkRaid SchemaVersion "vault" 669 "instance_vault" "V" StateNotStarted [0; 2]
    {[0 := 2; 2 := 3]}
    [toy_boss "first" 0 [] ∅ [41570] [] [];
     toy_boss "second" 1 ["first"%string] {["gate"%string := 7]} [41442] [41807] [];
     toy_boss "last" 2 ["second"%string] ∅ [] [] [2]]
    [mkSaveExtra "gate" SaveExtraEncoding_RawUint8 1]
    [mkDoor 205830 ["first"%string]].

Definition toy_plan : SeedPlan := (BuildSeedPlan toy_raid 2 ["second"; "first"]%string).2.

(** ** Its state *)

(** The rows by instance id, the next id, the saves and the maps. *)
Record Toy : Type := mkToy {
  ty_rows : gmap Z Rows; ty_next : Z; ty_saves : gmap Z SaveFacts; ty_maps : gmap (Z * Z) MapFacts }.

Definition toy_rows (w : Toy) (id : Z) : Rows := default no_rows (ty_rows w !! id).

Definition statement_id (st : Statement) : Z :=
  match st with
  | DeleteInstance i | DeleteCharacterInstance i | DeleteGroupInstance i
  | DeleteGroupInstanceOf _ i | DeleteRespawn i | ReplaceRespawn _ _ _ _ i
  | InsertInstance i _ _ _ _ => i
  end.

(** The column keeps every byte. *)
Definition toy_stored : Stored := fun hex => hex.

Definition toy_execute (st : Statement) (w : Toy) : Toy :=
  let id := statement_id st in
  mkToy (<[id := statement_effect toy_stored st id (toy_rows w id)]> (ty_rows w))
    (ty_next w) (ty_saves w) (ty_maps w).

(** The script a map of the saved instance runs. *)
Definition toy_map (r : Rows) : MapFacts :=
  mkMap 0 false (Some (mkInstance
    (Some (mkScript "instance_vault" 3 (fun i => nth (Z.to_nat i) (sp_BossStates toy_plan) 0)
       (match rw_instance r with Some row => db_CompletedEncounterMask row | None => 0 end)
       (sp_SaveData toy_plan)
       (fun spawn => match rw_respawn r !! (SPAWN_TYPE_CREATURE, spawn) with
                     | Some (time, _) => time | None => 0 end)))
    [(205830, true)])).

#[export] Instance toy_server : Server Toy := {
  execute := toy_execute;
  query_instance id w := rw_instance (toy_rows w id);
  raid_map id _ := if id =? 669 then Some true else None;
  instance_script id _ := if id =? 669 then Some "instance_vault"%string else None;
  map_difficulty _ _ _ := true;
  dungeon_encounter id _ := if 1000 <=? id then Some (mkEncounter 669 (-1) (id - 1000)) else None;
  live_encounters _ _ _ := [];
  creature_spawns _ := [mkSpawn 11 669 41570 15 true false; mkSpawn 12 669 41442 4 true false;
                        mkSpawn 13 1 41442 4 true false];
  definition_file raid _ := if String.eqb raid "vault" then inr "{}"%string
                            else inl "prerequisite_file_unreadable"%string;
  game_time _ := 1700000000;
  instance_id_capacity _ := 4;
  generate_instance_id w := (ty_next w, mkToy (ty_rows w) (ty_next w + 1) (ty_saves w) (ty_maps w));
  was_instance_id_freed id _ := id =? 5;
  find_map map id w := ty_maps w !! (map, id);
  load_instance map id _ w :=
    (true, mkToy (ty_rows w) (ty_next w) (ty_saves w) (<[(map, id) := toy_map (toy_rows w id)]> (ty_maps w)));
  unload_empty_instance map id w :=
    (true, mkToy (ty_rows w) (ty_next w) (ty_saves w) (delete (map, id) (ty_maps w)));
  get_save id w := ty_saves w !! id;
  add_save map id difficulty w :=
    (Some (mkSave map difficulty 0 0),
     mkToy (ty_rows w) (ty_next w) (<[id := mkSave map difficulty 0 0]> (ty_saves w)) (ty_maps w));
  unload_save id w := mkToy (ty_rows w) (ty_next w) (delete id (ty_saves w)) (ty_maps w);
  group_bind _ _ _ _ := None;
  group_difficulty _ _ := 0;
  group_store_id group _ := group;
  group_unbind _ _ _ w := w;
  group_bind_to _ _ w := w;
  player_binds _ _ _ := [];
  player_connected _ _ := false;
  player_unbind _ _ _ w := w
}.

#[export] Instance toy_laws : ServerLaws Toy toy_rows toy_stored.
Proof.
  split; try done. intros st w id. unfold toy_rows. cbn. unfold toy_execute; cbn.
  destruct (decide (statement_id st = id)) as [<-|Hne].
  - by rewrite lookup_insert_eq.
  - rewrite lookup_insert_ne by done. symmetry. apply statement_other. by destruct st.
Qed.

Definition toy_parse (text : string) : option Json :=
  if String.eqb text "{}" then Some (print_raid toy_raid) else None.

Lemma toy_parse_ok : Parser_ok toy_parse.
Proof.
  intros text document. unfold toy_parse. destruct (String.eqb text "{}"); [|done].
  intros [= <-]. vm_compute. reflexivity.
Qed.

(** Instance 5 was freed, 6 belongs to an unknown lockout; 7 is clean but holds
    an orphaned respawn row. *)
Definition toy_world : Toy :=
  mkToy {[6 := mkRows (Some (mkDbRow 669 0 0 "56")) ∅ ∅ ∅;
          7 := mkRows None {[ 9 ]} ∅ {[(0, 77) := (1, 669)]}]} 5 ∅ ∅.

Definition toy_seed (records : Registry) : Checked * LockoutRecord * Readback * Registry * Toy :=
  SeedLockout toy_parse "cohort_a" "vault" "10h" "second,first" records toy_world.

(** ** Witnesses *)

Definition taken_registry : Registry := {["cohort_a"%string := sample_record "cohort_a"]}.

Lemma SeedLockout_rolls_back_witness :
  let r := toy_seed taken_registry in
  r.1.1.1.1 = Refuse "lockout_exists" /\ lr_InstanceId r.1.1.1.2 = 7 /\ r.1.2 = taken_registry /\
  forall id, toy_rows r.2 id = toy_rows toy_world id \/
    id = lr_InstanceId r.1.1.1.2 /\ toy_rows r.2 id = no_rows.
Proof.
  assert (Hf : (toy_seed taken_registry).1.1.1.1 = Refuse "lockout_exists") by (vm_compute; reflexivity).
  assert (Hi : lr_InstanceId (toy_seed taken_registry).1.1.1.2 = 7) by (vm_compute; reflexivity).
  pose proof (SeedLockout_rolls_back toy_rows toy_stored toy_parse "cohort_a" "vault" "10h"
    "second,first" taken_registry toy_world toy_parse_ok) as H.
  fold (toy_seed taken_registry) in H.
  destruct (toy_seed taken_registry) as [[[[failure record] readback] records'] w'].
  cbn in Hf, Hi |- *. split; [exact Hf|]. split; [exact Hi|]. apply H. by rewrite Hf.
Defined.

Lemma SeedLockout_registers_witness :
  let r := toy_seed ∅ in
  r.1.1.1.1 = Pass /\ lr_InstanceId r.1.1.1.2 = 7 /\ r.1.2 = <["cohort_a"%string := r.1.1.1.2]> ∅ /\
  rc_SeedMatch (rb_Comparison r.1.1.2) = true /\
  rb_RespawnRowsLoaded r.1.1.2 = Z.of_nat (length (lr_RespawnRows r.1.1.1.2)) /\
  same_except toy_rows (lr_InstanceId r.1.1.1.2) toy_world r.2.
Proof.
  assert (Hf : (toy_seed ∅).1.1.1.1 = Pass) by (vm_compute; reflexivity).
  assert (Hi : lr_InstanceId (toy_seed ∅).1.1.1.2 = 7) by (vm_compute; reflexivity).
  pose proof (SeedLockout_registers toy_rows toy_stored toy_parse "cohort_a" "vault" "10h"
    "second,first" ∅ toy_world toy_parse_ok) as H.
  fold (toy_seed ∅) in H.
  destruct (toy_seed ∅) as [[[[failure record] readback] records'] w'].
  cbn in Hf, Hi |- *. destruct (H Hf) as (_ & H2 & _ & _ & _ & _ & _ & _ & H10 & H11 & H12).
  split_and!; done.
Defined.


