(* ===== verification/DutyClaims.v ===== *)
(** Human duty callouts: [Bots/BotRaidDutyClaims.h], from the raid-chat text to
    the external owners of the claimed duties. *)
From S2P Require Import Prelude LockoutPlan.
From Stdlib Require Import ZArith Lia String Ascii.
From stdpp Require Import base gmap list strings.

Open Scope Z_scope.
Open Scope tc_scope.

(** ** Data *)

Record DutyKeywords : Type := mkKeywords {
  dk_Duty : string;
  dk_Keywords : list string;
  dk_NotFollowedBy : list string;
  dk_NotPrecededBy : list string
}.

Definition Bloodlust : string := "bloodlust".
Definition BattleRes : string := "battle_res".

Definition SharedDutyKeywords : list DutyKeywords := [
  mkKeywords Bloodlust ["lust"; "bloodlust"; "bl"; "heroism"; "timewarp"; "time warp"]%string [] [];
  mkKeywords Bloodlust ["hero"%string] [] ["the"; "a"]%string;
  mkKeywords BattleRes ["brez"; "bres"; "brezz"; "rebirth"; "battle res"; "battle rez";
    "combat res"; "combat rez"]%string [] []
].

Inductive CalloutIntent : Type := CalloutIntent_Claim | CalloutIntent_Release.

Record Callout : Type := mkCallout {
  co_Duty : string; co_Intent : CalloutIntent; co_Personal : bool }.

#[export] Instance CalloutIntent_eq_dec : EqDecision CalloutIntent.
Proof. solve_decision. Defined.

#[export] Instance Callout_eq_dec : EqDecision Callout.
Proof. solve_decision. Defined.

(** ** Words *)

Definition isalnum (c : ascii) : bool := isalpha c || is_decimal c.

Definition apostrophe : ascii := "039".

(** The words of a text, [word] being the one under construction. *)
Fixpoint NormalizeWords_from (word text : string) : list string :=
  match text with
  | EmptyString => if str_empty word then [] else [word]
  | String c rest =>
      if Ascii.eqb c apostrophe then NormalizeWords_from word rest
      else
        let other :=
          if isalnum c then NormalizeWords_from (word ++ String (tolower c) "") rest
          else if str_empty word then NormalizeWords_from "" rest
          else word :: NormalizeWords_from "" rest in
        match rest with
        | String c1 (String c2 rest2) =>
            if Ascii.eqb c "226" && Ascii.eqb c1 "128" && Ascii.eqb c2 "153"
            then NormalizeWords_from word rest2 else other
        | _ => other
        end
  end.

Definition NormalizeWords (text : string) : list string := NormalizeWords_from "" text.

Definition IsOneOf (word : string) (values : list string) : bool :=
  existsb (String.eqb word) values.

Definition IsFirstPerson (word : string) : bool :=
  IsOneOf word ["i"; "ill"; "im"; "ive"; "id"]%string.
Definition IsBotWord (word : string) : bool := IsOneOf word ["bot"; "bots"]%string.
Definition IsNegation (word : string) : bool :=
  IsOneOf word ["not"; "no"; "dont"; "cant"; "wont"; "never"; "cannot"; "isnt"; "stop"]%string.
Definition IsReleaseVerb (word : string) : bool :=
  IsOneOf word ["release"; "unclaim"; "drop"]%string.
Definition IsRequest (word : string) : bool :=
  IsOneOf word ["need"; "needs"; "want"; "who"; "someone"; "anyone"; "somebody"; "anybody";
    "please"; "pls"; "plz"]%string.

(** ** Mentions *)

Record Mention : Type := mkMention { me_Index : nat; me_Length : nat; me_Duty : string }.

(** The keyword around its first space, when it has one. *)
Fixpoint split_space (keyword : string) : option (string * string) :=
  match keyword with
  | EmptyString => None
  | String c rest =>
      if Ascii.eqb c " " then Some (""%string, rest)
      else match split_space rest with
      | Some (a, b) => Some (String c a, b)
      | None => None
      end
  end.

(** The number of words a keyword matches at the front of [words]. *)
Definition keyword_length (keyword : string) (words : list string) : nat :=
  match split_space keyword, words with
  | None, word :: _ => if String.eqb word keyword then 1 else 0
  | Some (a, b), word :: next :: _ => if String.eqb word a && String.eqb next b then 2 else 0
  | _, _ => 0
  end.

(** The first keyword of a duty that matches. *)
Fixpoint keywords_length (keywords : list string) (words : list string) : nat :=
  match keywords with
  | [] => 0
  | keyword :: keywords =>
      match keyword_length keyword words with
      | O => keywords_length keywords words
      | n => n
      end
  end.

(** The first duty of the table that matches, and how many words. *)
Fixpoint match_duty (table : list DutyKeywords) (words : list string)
    : option (DutyKeywords * nat) :=
  match table with
  | [] => None
  | duty :: table =>
      match keywords_length (dk_Keywords duty) words with
      | O => match_duty table words
      | n => Some (duty, n)
      end
  end.

Definition excluded (duty : DutyKeywords) (previous : option string) (after : list string) : bool :=
  match after with word :: _ => IsOneOf word (dk_NotFollowedBy duty) | [] => false end
  || match previous with Some word => IsOneOf word (dk_NotPrecededBy duty) | None => false end.

(** The loop over the words from [index] on; [previous] is the word before. *)
Fixpoint FindMentions_from (table : list DutyKeywords) (index : nat) (previous : option string)
    (words : list string) : list Mention :=
  match words with
  | [] => []
  | word :: rest =>
      match match_duty table words with
      | None => FindMentions_from table (S index) (Some word) rest
      | Some (duty, n) =>
          let after := drop n words in
          let mention := if excluded duty previous after then [] else [mkMention index n (dk_Duty duty)] in
          match n, rest with
          | S (S _), next :: rest => mention ++ FindMentions_from table (index + 2) (Some next) rest
          | _, _ => mention ++ FindMentions_from table (S index) (Some word) rest
          end
      end
  end.

Definition FindMentions (words : list string) (table : list DutyKeywords) : list Mention :=
  FindMentions_from table 0 None words.

(** ** Clauses *)

(** The subject search, from the word before the first duty word backwards. *)
Inductive Subject : Type := Subject_None | Subject_Bots | Subject_First (negated : bool).

Fixpoint FindSubject (negationSeen : bool) (before : list string) : Subject :=
  match before with
  | [] => Subject_None
  | word :: before =>
      if IsBotWord word then Subject_Bots
      else if IsFirstPerson word then Subject_First negationSeen
      else FindSubject (negationSeen || IsNegation word) before
  end.

Definition suffixClaim (after : list string) : bool :=
  match after with
  | word :: rest =>
      String.eqb word "mine"
      || match rest with next :: _ => String.eqb word "on" && String.eqb next "me" | [] => false end
  | [] => false
  end.

(** The intent of the clause, with its personal flag, when it has one. *)
Definition ClauseIntent (releaseVerb : bool) (subject : Subject) (suffix : bool)
    : option (CalloutIntent * bool) :=
  if releaseVerb || match subject with Subject_Bots => true | _ => false end
  then Some (CalloutIntent_Release, false)
  else match subject with
  | Subject_First true => Some (CalloutIntent_Release, true)
  | Subject_First false => Some (CalloutIntent_Claim, false)
  | _ => if suffix then Some (CalloutIntent_Claim, false) else None
  end.

(** One callout for each duty mentioned, in order of first mention. *)
Definition add_callout (intent : CalloutIntent) (personal : bool) (callouts : list Callout)
    (mention : Mention) : list Callout :=
  if existsb (fun c => String.eqb (co_Duty c) (me_Duty mention)) callouts then callouts
  else callouts ++ [mkCallout (me_Duty mention) intent personal].

Definition ParseClause (words : list string) (table : list DutyKeywords) : list Callout :=
  let mentions := FindMentions words table in
  match mentions with
  | [] => []
  | first :: _ =>
      if existsb IsRequest words then []
      else
        let back := List.last mentions first in
        let before := take (me_Index first) words in
        let after := drop (me_Index back + me_Length back) words in
        match ClauseIntent (existsb IsReleaseVerb before) (FindSubject false (rev before))
                (suffixClaim after) with
        | None => []
        | Some (intent, personal) => foldl (add_callout intent personal) [] mentions
        end
  end.

(** ** Callouts *)

(** The text between the separators [, ; . !]. *)
Fixpoint Segments (current text : string) : list string :=
  match text with
  | EmptyString => [current]
  | String c rest =>
      if Ascii.eqb c "," || Ascii.eqb c ";" || Ascii.eqb c "." || Ascii.eqb c "!"
      then current :: Segments "" rest
      else Segments (current ++ String c "") rest
  end.

(** The words of a segment, cut at "but". *)
Fixpoint SplitBut (clause words : list string) : list (list string) :=
  match words with
  | [] => [clause]
  | word :: words =>
      if String.eqb word "but" then clause :: SplitBut [] words
      else SplitBut (clause ++ [word]) words
  end.

(** [merge] of one callout: it replaces the one of the same duty. *)
Fixpoint merge_callout (callouts : list Callout) (callout : Callout) : list Callout :=
  match callouts with
  | [] => [callout]
  | c :: callouts =>
      if String.eqb (co_Duty c) (co_Duty callout) then callout :: callouts
      else c :: merge_callout callouts callout
  end.

Definition merge (callouts clause : list Callout) : list Callout := foldl merge_callout callouts clause.

Fixpoint has_char (x : ascii) (text : string) : bool :=
  match text with EmptyString => false | String c rest => Ascii.eqb c x || has_char x rest end.

(** The clauses of a text, in order. *)
Definition Clauses (text : string) : list (list string) :=
  flat_map (fun segment => SplitBut [] (NormalizeWords segment)) (Segments "" text).

Definition ParseCallouts (text : string) (table : list DutyKeywords) : list Callout :=
  if has_char "?" text then []
  else foldl (fun callouts clause => merge callouts (ParseClause clause table)) [] (Clauses text).

(** ** Claims *)

(** An [ObjectGuid] is its raw value, 0 when empty. *)
Record Entry : Type := mkEntry { en_Owner : Z; en_ClaimedAtMs : Z }.

#[export] Instance Entry_eq_dec : EqDecision Entry.
Proof. solve_decision. Defined.

Notation Claims := (gmap string Entry).

Definition Claim (duty : string) (owner atMs : Z) (claims : Claims) : Claims :=
  <[duty := mkEntry owner atMs]> claims.

Definition Release (duty : string) (claims : Claims) : bool * Claims :=
  (bool_decide (is_Some (claims !! duty)), delete duty claims).

Definition IsClaimed (duty : string) (claims : Claims) : bool :=
  bool_decide (is_Some (claims !! duty)).

Definition Owner (duty : string) (claims : Claims) : Z :=
  match claims !! duty with Some entry => en_Owner entry | None => 0 end.

Definition Apply (callout : Callout) (speaker atMs : Z) (claims : Claims) : bool * Claims :=
  match co_Intent callout with
  | CalloutIntent_Release =>
      if co_Personal callout && negb (Owner (co_Duty callout) claims =? speaker) then (false, claims)
      else Release (co_Duty callout) claims
  | CalloutIntent_Claim =>
      match claims !! co_Duty callout with
      | Some existing =>
          if en_Owner existing =? speaker then (false, claims)
          else (true, Claim (co_Duty callout) speaker atMs claims)
      | None => (true, Claim (co_Duty callout) speaker atMs claims)
      end
  end.

(** The iteration of [ReleaseAllOwnedBy] over the entries. *)
Fixpoint ReleaseAll_loop (owner : Z) (entries : list (string * Entry)) (released : nat)
    (claims : Claims) : nat * Claims :=
  match entries with
  | [] => (released, claims)
  | (duty, entry) :: entries =>
      if en_Owner entry =? owner then ReleaseAll_loop owner entries (S released) (delete duty claims)
      else ReleaseAll_loop owner entries released claims
  end.

Definition ReleaseAllOwnedBy (owner : Z) (claims : Claims) : nat * Claims :=
  ReleaseAll_loop owner (map_to_list claims) 0 claims.

Definition Empty (claims : Claims) : bool := bool_decide (claims = ∅).
