(* ===== verification/DutyCallouts.v ===== *)
(** What a raid-chat line says about duties, and who owns a duty after any
    history of callouts. *)
From S2P Require Import Prelude LockoutPlan DutyClaims.
From Stdlib Require Import ZArith Lia String Ascii.
From stdpp Require Import base gmap list strings.

Open Scope Z_scope.
Open Scope tc_scope.

(** ** Mentions *)

(** [words] has one of the duty's keywords at [index], in [length] words. *)
Definition keyword_at (duty : DutyKeywords) (words : list string) (index length : nat) : Prop :=
  exists keyword, keyword ∈ dk_Keywords duty /\
    (split_space keyword = None /\ length = 1%nat /\ words !! index = Some keyword \/
     exists a b, split_space keyword = Some (a, b) /\ length = 2%nat /\
       words !! index = Some a /\ words !! S index = Some b).

(** No neighbouring word excludes it. *)
Definition not_excluded (duty : DutyKeywords) (words : list string) (index length : nat) : Prop :=
  (forall w, words !! (index + length)%nat = Some w -> w ∉ dk_NotFollowedBy duty) /\
  (forall i w, index = S i -> words !! i = Some w -> w ∉ dk_NotPrecededBy duty).

Lemma IsOneOf_spec w l : IsOneOf w l = true <-> w ∈ l.
Proof.
  unfold IsOneOf. rewrite existsb_elem. split.
  - intros (x & H & E%String.eqb_eq). by subst.
  - intros H. exists w. by rewrite String.eqb_refl.
Qed.

Lemma keyword_length_spec keyword words n : keyword_length keyword words = S n ->
  split_space keyword = None /\ S n = 1%nat /\ words !! 0%nat = Some keyword \/
  exists a b, split_space keyword = Some (a, b) /\ S n = 2%nat /\
    words !! 0%nat = Some a /\ words !! 1%nat = Some b.
Proof.
  unfold keyword_length. destruct (split_space keyword) as [[a b]|].
  - destruct words as [|w [|w' words]]; try done.
    destruct (String.eqb_spec w a) as [->|]; [|done]. destruct (String.eqb_spec w' b) as [->|]; [|done].
    cbn [andb]. intros [= <-]. right. exists a, b. done.
  - destruct words as [|w words]; [done|]. destruct (String.eqb_spec w keyword) as [->|]; [|done].
    intros [= <-]. by left.
Qed.

Lemma match_duty_spec table words duty n : match_duty table words = Some (duty, n) ->
  duty ∈ table /\ (n = 1 \/ n = 2)%nat /\ keyword_at duty words 0 n.
Proof.
  assert (Hk : forall l m, keywords_length l words = S m -> exists k, k ∈ l /\ keyword_length k words = S m).
  { induction l as [|k l IH]; intros m; cbn [keywords_length]; [done|].
    destruct (keyword_length k words) eqn:E.
    - intros (x & ? & ?)%IH. exists x. by split; [right|].
    - intros [= <-]. exists k. by split; [left|]. }
  induction table as [|d table IH]; cbn [match_duty]; [done|].
  destruct (keywords_length (dk_Keywords d) words) eqn:E.
  - intros (? & ? & ?)%IH. by split; [right|].
  - intros [= <- <-]. apply Hk in E as (k & Hin & E). split; [by left|].
    apply keyword_length_spec in E. split.
    + destruct E as [(_ & -> & _)|(a & b & _ & -> & _)]; auto.
    + exists k. split; [done|]. destruct E as [?|?]; [by left|by right].
Qed.

Lemma FindMentions_from_spec table index previous words all :
  drop index all = words -> (forall i, index = S i -> all !! i = previous) -> (index = 0%nat -> previous = None) ->
  Forall (fun m => exists duty, duty ∈ table /\ me_Duty m = dk_Duty duty /\
    keyword_at duty all (me_Index m) (me_Length m) /\
    not_excluded duty all (me_Index m) (me_Length m)) (FindMentions_from table index previous words).
Proof.
  remember (length words) as k eqn:Hk. revert index previous words Hk.
  induction (lt_wf k) as [k _ IH]. intros index previous words -> Hdrop Hprev H0.
  assert (Hlk : forall i, words !! i = all !! (index + i)%nat) by (intros i; by rewrite <- Hdrop, lookup_drop).
  destruct words as [|word rest]; [constructor|].
  assert (Hhere : all !! index = Some word) by (by rewrite <- (Nat.add_0_r index), <- Hlk).
  assert (Hnext : drop (S index) all = rest).
  { rewrite <- Nat.add_1_r, <- drop_drop. by rewrite Hdrop. }
  cbn [FindMentions_from]. destruct (match_duty table (word :: rest)) as [[duty n]|] eqn:E.
  2: { eapply (IH (length rest)); [cbn; lia|done|done| |done]. by intros i [= <-]. }
  apply match_duty_spec in E as (Hd & Hn & Hkw).
  assert (Hm : Forall (fun m => exists duty, duty ∈ table /\ me_Duty m = dk_Duty duty /\
    keyword_at duty all (me_Index m) (me_Length m) /\ not_excluded duty all (me_Index m) (me_Length m))
    (if excluded duty previous (drop n (word :: rest)) then [] else [mkMention index n (dk_Duty duty)])).
  { destruct (excluded duty previous _) eqn:Ex; [constructor|]. apply Forall_singleton.
    exists duty. split; [done|]. split; [done|]. cbn [me_Index me_Length]. split.
    - destruct Hkw as (kw & Hkw & Hc). exists kw. split; [done|]. rewrite !Hlk in Hc.
      rewrite Nat.add_0_r, Nat.add_1_r in Hc. done.
    - unfold excluded in Ex. apply orb_false_iff in Ex as [Ex1 Ex2]. split.
      + intros w Hw Hin. rewrite <- Hlk in Hw. rewrite <- (Nat.add_0_r n), <- lookup_drop in Hw.
        destruct (drop n (word :: rest)) as [|w' l]; [done|]. injection Hw as ->.
        apply IsOneOf_spec in Hin. congruence.
      + intros i w -> Hw Hin. rewrite (Hprev i eq_refl) in Hw. subst previous.
        apply IsOneOf_spec in Hin. congruence. }
  destruct Hn as [-> | ->].
  - apply Forall_app. split; [exact Hm|].
    eapply (IH (length rest)); [cbn; lia|done|done| |done]. by intros i [= <-].
  - destruct Hkw as (kw & _ & [(_ & ? & _)|(a & b & _ & _ & _ & Hb)]); [done|].
    destruct rest as [|next rest]; [done|]. apply Forall_app. split; [exact Hm|].
    eapply (IH (length rest)); [cbn; lia|done| | |lia].
    + rewrite <- drop_drop, Hdrop. done.
    + intros i Hi. assert (i = S index) as -> by lia. rewrite <- Nat.add_1_r, <- Hlk. done.
Qed.

(** ** Clauses *)

Definition is_subject (w : string) : bool := IsBotWord w || IsFirstPerson w.

(** The subject nearest the end of [before] and the words after it. *)
Definition nearest_subject (before : list string) (subject : string) (between : list string) : Prop :=
  exists front, before = front ++ subject :: between /\ is_subject subject = true /\
    Forall (fun w => is_subject w = false) between.

(** What a clause says of the duties it mentions: [before] and [after] are the
    words before the first and after the last mention. *)
Inductive says (before after : list string) : CalloutIntent -> bool -> Prop :=
| says_release_verb w :
    w ∈ before -> IsReleaseVerb w = true -> says before after CalloutIntent_Release false
| says_bots subject between :
    nearest_subject before subject between -> IsBotWord subject = true ->
    says before after CalloutIntent_Release false
| says_refuse subject between w :
    Forall (fun w => IsReleaseVerb w = false) before ->
    nearest_subject before subject between -> IsBotWord subject = false ->
    w ∈ between -> IsNegation w = true -> says before after CalloutIntent_Release true
| says_claim subject between :
    Forall (fun w => IsReleaseVerb w = false) before ->
    nearest_subject before subject between -> IsBotWord subject = false ->
    Forall (fun w => IsNegation w = false) between -> says before after CalloutIntent_Claim false
| says_suffix :
    Forall (fun w => IsReleaseVerb w = false) before ->
    Forall (fun w => is_subject w = false) before ->
    suffixClaim after = true -> says before after CalloutIntent_Claim false.

Lemma FindSubject_spec seen before :
  match FindSubject seen (rev before) with
  | Subject_None => Forall (fun w => is_subject w = false) before
  | Subject_Bots => exists s between, nearest_subject before s between /\ IsBotWord s = true
  | Subject_First negated => exists s between, nearest_subject before s between /\
      IsBotWord s = false /\ negated = seen || existsb IsNegation between
  end.
Proof.
  revert seen. induction before as [|w before IH] using rev_ind; intros seen; [constructor|].
  rewrite rev_unit. cbn [FindSubject].
  destruct (IsBotWord w) eqn:Eb.
  { exists w, []. split; [|done]. exists before. split; [done|]. unfold is_subject. by rewrite Eb. }
  destruct (IsFirstPerson w) eqn:Ef.
  { exists w, []. split; [|split; [done|by rewrite orb_false_r]]. exists before.
    split; [done|]. unfold is_subject. by rewrite Eb, Ef. }
  assert (Hw : is_subject w = false) by (unfold is_subject; by rewrite Eb, Ef).
  assert (Hext : forall s b, nearest_subject before s b -> nearest_subject (before ++ [w]) s (b ++ [w])).
  { intros s b (f & -> & Hs & Hb). exists f. split; [by rewrite <- app_assoc|]. split; [done|].
    apply Forall_app. by split; [|constructor]. }
  specialize (IH (seen || IsNegation w)). destruct (FindSubject _ (rev before)) as [| |neg].
  - apply Forall_app. by split; [|constructor].
  - destruct IH as (s & b & Hn & Hs). exists s, (b ++ [w]). auto.
  - destruct IH as (s & b & Hn & Hs & ->). exists s, (b ++ [w]). split; [auto|]. split; [done|].
    rewrite existsb_app. cbn [existsb]. rewrite orb_false_r. by rewrite <- orb_assoc, (orb_comm (IsNegation w)).
Qed.

Lemma nearest_unique before s b s' b' :
  nearest_subject before s b -> nearest_subject before s' b' -> s = s' /\ b = b'.
Proof.
  intros (f & -> & Hs & Hb) (f' & E & Hs' & Hb'). revert f' E.
  induction f as [|x f IH]; intros [|x' f'] E; cbn in E.
  - by injection E as -> ->.
  - injection E as -> ->. apply Forall_app in Hb as [_ Hb]. inversion Hb. congruence.
  - injection E as -> <-. apply Forall_app in Hb' as [_ Hb']. inversion Hb'. congruence.
  - injection E as -> E. by eapply IH.
Qed.

Lemma nearest_none before s b :
  nearest_subject before s b -> Forall (fun w => is_subject w = false) before -> False.
Proof.
  intros (f & -> & Hs & _) H. apply Forall_app in H as [_ H]. inversion H. congruence.
Qed.

Lemma ClauseIntent_says before after intent personal :
  ClauseIntent (existsb IsReleaseVerb before) (FindSubject false (rev before)) (suffixClaim after)
    = Some (intent, personal) <-> says before after intent personal.
Proof.
  pose proof (FindSubject_spec false before) as HS. unfold ClauseIntent.
  destruct (existsb IsReleaseVerb before) eqn:Ev; cbn [orb].
  { apply existsb_elem in Ev as (v & Hv & Ev). split.
    - intros [= <- <-]. by eapply says_release_verb.
    - assert (Hno : ~ Forall (fun w => IsReleaseVerb w = false) before).
      { intros H. rewrite Forall_forall in H. specialize (H v Hv). congruence. }
      intros []; done. }
  apply existsb_none in Ev.
  assert (Hnv : forall w, w ∈ before -> IsReleaseVerb w = true -> False).
  { intros w Hw E. rewrite Forall_forall in Ev. specialize (Ev w Hw). congruence. }
  destruct (FindSubject false (rev before)) as [| |negated].
  - split.
    + destruct (suffixClaim after) eqn:E; [|done]. intros [= <- <-]. by apply says_suffix.
    + intros [w Hw Hv|s b Hn|s b w _ Hn|s b _ Hn|_ _ ->]; try done;
        exfalso; eauto using nearest_none.
  - destruct HS as (s & b & Hn & Hs). split.
    + intros [= <- <-]. by eapply says_bots.
    + intros [w Hw Hv|s' b' Hn'|s' b' w _ Hn' Hs'|s' b' _ Hn' Hs'|_ Hall _]; try done;
        exfalso; eauto using nearest_none;
        destruct (nearest_unique _ _ _ _ _ Hn Hn') as [-> ->]; congruence.
  - destruct HS as (s & b & Hn & Hs & E). cbn [orb] in E. subst negated. split.
    + destruct (existsb IsNegation b) eqn:En; intros [= <- <-].
      * apply existsb_elem in En as (w & Hw & En). by eapply says_refuse.
      * apply existsb_none in En. by eapply says_claim.
    + intros [w Hw Hv|s' b' Hn' Hs'|s' b' w _ Hn' Hs' Hw Hneg|s' b' _ Hn' Hs' Hneg|_ Hall _];
        try (exfalso; by eauto using nearest_none);
        destruct (nearest_unique _ _ _ _ _ Hn Hn') as [<- <-]; [congruence| |].
      * rewrite (proj2 (existsb_elem IsNegation b)); [done|]. by exists w.
      * apply existsb_none in Hneg. by rewrite Hneg.
Qed.

Lemma add_callouts_spec intent personal mentions acc :
  NoDup (map co_Duty acc) ->
  Forall (fun c => co_Intent c = intent /\ co_Personal c = personal) acc ->
  let r := foldl (add_callout intent personal) acc mentions in
  NoDup (map co_Duty r) /\
  forall c, c ∈ r <-> co_Intent c = intent /\ co_Personal c = personal /\
    (c ∈ acc \/ exists m, m ∈ mentions /\ me_Duty m = co_Duty c).
Proof.
  revert acc. induction mentions as [|m mentions IH]; intros acc Hnd Hall; cbv zeta; cbn [foldl].
  { split; [done|]. intros c. rewrite Forall_forall in Hall. split.
    - intros Hc. split; [by apply Hall|]. split; [by apply Hall|by left].
    - intros (_ & _ & [?|(m & ?%elem_of_nil & _)]); done. }
  unfold add_callout at 2 4. destruct (existsb _ acc) eqn:E.
  - destruct (IH acc Hnd Hall) as [H1 H2]. split; [done|]. intros c. rewrite H2.
    apply existsb_elem in E as (d & Hd & Ed%String.eqb_eq). rewrite Forall_forall in Hall.
    setoid_rewrite elem_of_cons. split; [intros (? & ? & [?|(m' & ? & ?)]); eauto 8|].
    intros (Hi & Hp & [?|(m' & [->|?] & Em)]); [auto| |by eauto 6].
    split; [done|]. split; [done|]. left. destruct (Hall d Hd) as [Hi' Hp'].
    assert (c = d) as ->; [|done]. destruct c, d. cbn in *. congruence.
  - apply existsb_none in E. rewrite Forall_forall in E.
    destruct (IH (acc ++ [mkCallout (me_Duty m) intent personal])) as [H1 H2].
    + rewrite map_app. apply NoDup_app. split; [done|]. split; [|apply NoDup_singleton].
      intros d (c & -> & Hc)%list_elem_of_fmap Hin%list_elem_of_singleton. cbn in Hin.
      specialize (E c Hc). by rewrite Hin, String.eqb_refl in E.
    + apply Forall_app. split; [done|]. by repeat constructor.
    + split; [done|]. intros c. rewrite H2, elem_of_app, list_elem_of_singleton.
      setoid_rewrite elem_of_cons. split.
      * intros (Hi & Hp & [[?| ->]|(m' & ? & ?)]); [auto|by eauto 7|by eauto 7].
      * intros (Hi & Hp & [?|(m' & [->|?] & Em)]); [auto| |by eauto 7].
        split; [done|]. split; [done|]. left. right. destruct c. cbn in *. congruence.
Qed.

Lemma last_last {A} (l : list A) x d : last (x :: l) = Some (List.last (x :: l) d).
Proof. revert x. induction l as [|y l IH]; intros x; [done|]. exact (IH y). Qed.

Lemma ParseClause_lemma words table :
  NoDup (map co_Duty (ParseClause words table)) /\
  forall c, c ∈ ParseClause words table <->
  exists first back, head (FindMentions words table) = Some first /\
    last (FindMentions words table) = Some back /\
    (exists m, m ∈ FindMentions words table /\ me_Duty m = co_Duty c) /\
    Forall (fun w => IsRequest w = false) words /\
    says (take (me_Index first) words) (drop (me_Index back + me_Length back) words)
      (co_Intent c) (co_Personal c).
Proof.
  unfold ParseClause. destruct (FindMentions words table) as [|first mentions] eqn:E.
  { split; [constructor|]. intros c. split; [by intros ?%elem_of_nil|]. by intros (? & ? & ? & _). }
  destruct (existsb IsRequest words) eqn:Er.
  { split; [constructor|]. intros c. split; [by intros ?%elem_of_nil|].
    intros (_ & _ & _ & _ & _ & H%existsb_none & _). congruence. }
  apply existsb_none in Er. rewrite (last_last mentions first first).
  pose proof (ClauseIntent_says (take (me_Index first) words)
    (drop (me_Index (List.last (first :: mentions) first) + me_Length (List.last (first :: mentions) first)) words))
    as HC. destruct (ClauseIntent _ _ _) as [[intent personal]|].
  - destruct (add_callouts_spec intent personal (first :: mentions) []) as [H1 H2]; [constructor..|].
    split; [exact H1|]. intros c. rewrite H2. split.
    + intros (Hi & Hp & [?%elem_of_nil|Hm]); [done|]. eexists _, _. split; [done|]. split; [done|].
      split; [done|]. split; [done|]. apply HC. by rewrite Hi, Hp.
    + intros (f & b & [= <-] & [= <-] & Hm & _ & [= -> ->]%HC). auto.
  - split; [constructor|]. intros c. split; [by intros ?%elem_of_nil|].
    intros (f & b & [= <-] & [= <-] & _ & _ & ?%HC). done.
Qed.

(** What one clause of a raid-chat line says: its callouts are exactly the
    duties it mentions, each once and all with the clause's one meaning, and
    only when it has no request word. A release verb before the first duty, or
    a nearest subject naming bots, releases; a nearest first person releases
    for the speaker alone when a negation follows it and claims otherwise; with
    no subject only "mine" or "on me" after the last duty claims. Every mention
    is a keyword of its duty's table row with no excluding neighbour. *)
Theorem ParseClause_spec words table :
  NoDup (map co_Duty (ParseClause words table)) /\
  (forall c, c ∈ ParseClause words table <->
   exists first back, head (FindMentions words table) = Some first /\
    last (FindMentions words table) = Some back /\
    (exists m, m ∈ FindMentions words table /\ me_Duty m = co_Duty c) /\
    Forall (fun w => IsRequest w = false) words /\
    says (take (me_Index first) words) (drop (me_Index back + me_Length back) words)
      (co_Intent c) (co_Personal c)) /\
  Forall (fun m => exists duty, duty ∈ table /\ me_Duty m = dk_Duty duty /\
    keyword_at duty words (me_Index m) (me_Length m) /\
    not_excluded duty words (me_Index m) (me_Length m)) (FindMentions words table).
Proof.
  destruct (ParseClause_lemma words table) as [H1 H2]. split; [done|]. split; [done|].
  by apply FindMentions_from_spec.
Qed.

(** ** Lines *)

Lemma merge_callout_spec l x : NoDup (map co_Duty l) ->
  NoDup (map co_Duty (merge_callout l x)) /\
  forall c, c ∈ merge_callout l x <-> c = x \/ c ∈ l /\ co_Duty c <> co_Duty x.
Proof.
  induction l as [|y l IH]; cbn [map merge_callout]; intros Hnd.
  - split; [apply NoDup_singleton|]. intros c. rewrite list_elem_of_singleton.
    split; [auto|]. by intros [?|[?%elem_of_nil _]].
  - apply NoDup_cons in Hnd as [Hy Hnd]. destruct (IH Hnd) as [IH1 IH2].
    destruct (String.eqb_spec (co_Duty y) (co_Duty x)) as [E|E].
    + split; [cbn [map]; rewrite <- E; by constructor|]. intros c. rewrite !elem_of_cons. split.
      * intros [?|Hc]; [auto|]. right. split; [auto|]. rewrite <- E. intros Ec. apply Hy. rewrite <- Ec.
        by apply (list_elem_of_fmap_2 co_Duty).
      * intros [?|[[->|?] ?]]; auto. done.
    + split.
      * cbn [map]. constructor; [|done]. intros (c & Ec & Hc)%list_elem_of_fmap.
        apply IH2 in Hc as [->|[Hc _]]; [done|]. apply Hy. rewrite Ec. by apply (list_elem_of_fmap_2 co_Duty).
      * intros c. rewrite !elem_of_cons, IH2. split; [|tauto]. intros [->|[?|[? ?]]]; auto.
Qed.

Lemma merge_spec l clause : NoDup (map co_Duty l) -> NoDup (map co_Duty clause) ->
  NoDup (map co_Duty (DutyClaims.merge l clause)) /\
  forall c, c ∈ DutyClaims.merge l clause <-> c ∈ clause \/ c ∈ l /\ co_Duty c ∉ map co_Duty clause.
Proof.
  unfold DutyClaims.merge. revert l. induction clause as [|x clause IH]; intros l Hl Hc; cbn [foldl map].
  - split; [done|]. intros c. split.
    + intros H. right. split; [done|apply not_elem_of_nil].
    + by intros [?%elem_of_nil|[? _]].
  - apply NoDup_cons in Hc as [Hx Hc]. destruct (merge_callout_spec l x Hl) as [M1 M2].
    destruct (IH _ M1 Hc) as [I1 I2]. split; [done|]. intros c. rewrite I2, M2, not_elem_of_cons, elem_of_cons.
    split; [intros [?|[[->|[? ?]] ?]]; auto|]. intros [[->|?]|(? & ? & ?)]; auto.
Qed.

(** The callout of the last clause of the line that speaks of its duty. *)
Definition spoken_last (text : string) (table : list DutyKeywords) (c : Callout) : Prop :=
  exists earlier clause later, Clauses text = earlier ++ clause :: later /\
    c ∈ ParseClause clause table /\
    Forall (fun clause => co_Duty c ∉ map co_Duty (ParseClause clause table)) later.

(** C33. The callouts of a line: none for a question, and otherwise at most one
    for each duty, exactly the one of the last clause that speaks of it. *)
Theorem ParseCallouts_spec text table :
  NoDup (map co_Duty (ParseCallouts text table)) /\
  forall c, c ∈ ParseCallouts text table <->
    has_char "?" text = false /\ spoken_last text table c.
Proof.
  unfold ParseCallouts, spoken_last. destruct (has_char "?" text).
  { split; [constructor|]. intros c. split; [by intros ?%elem_of_nil|]. by intros [? _]. }
  induction (Clauses text) as [|clause clauses [IH1 IH2]] using rev_ind.
  { split; [constructor|]. intros c. split; [by intros ?%elem_of_nil|].
    intros (_ & [|? ?] & ? & ? & ? & _); done. }
  rewrite foldl_snoc. destruct (ParseClause_lemma clause table) as [Hnd _].
  destruct (merge_spec _ _ IH1 Hnd) as [M1 M2]. split; [done|]. intros c. rewrite M2, IH2. split.
  - intros [Hc|((_ & e & cl & l & -> & Hc & Hl) & Hn)]; (split; [done|]).
    + exists clauses, clause, []. split; [done|]. split; [done|constructor].
    + exists e, cl, (l ++ [clause]). split; [by rewrite <- app_assoc|]. split; [done|].
      apply Forall_app. split; [done|by constructor].
  - intros (_ & e & cl & l & E & Hc & Hl). destruct l as [|x l _] using rev_ind.
    + apply app_inj_tail in E as [_ ->]. by left.
    + rewrite app_comm_cons, app_assoc in E. apply app_inj_tail in E as [-> ->].
      apply Forall_app in Hl as [Hl Hx]. inversion Hx; subst. right. split; [|done].
      split; [done|]. by exists e, cl, l.
Qed.

(** ** Owners *)

(** A callout spoken, or a member leaving the raid. *)
Inductive DutyEvent : Type :=
| Said (callout : Callout) (speaker atMs : Z)
| Left (owner : Z).

Definition step (claims : Claims) (e : DutyEvent) : Claims :=
  match e with
  | Said callout speaker atMs => (Apply callout speaker atMs claims).2
  | Left owner => (ReleaseAllOwnedBy owner claims).2
  end.

Definition run (events : list DutyEvent) : Claims := foldl step ∅ events.

Lemma ReleaseAllOwnedBy_spec owner claims :
  (forall duty, (ReleaseAllOwnedBy owner claims).2 !! duty =
     match claims !! duty with
     | Some entry => if en_Owner entry =? owner then None else Some entry
     | None => None
     end) /\
  (ReleaseAllOwnedBy owner claims).1 =
    length (List.filter (fun e => (en_Owner e.2 =? owner)%Z) (map_to_list claims)).
Proof.
  unfold ReleaseAllOwnedBy.
  assert (H : forall entries released m,
    (forall duty, (ReleaseAll_loop owner entries released m).2 !! duty =
       if existsb (fun e => String.eqb e.1 duty && (en_Owner e.2 =? owner)%Z) entries
       then None else m !! duty) /\
    (ReleaseAll_loop owner entries released m).1 =
      (released + length (List.filter (fun e => (en_Owner e.2 =? owner)%Z) entries))%nat).
  { induction entries as [|[d e] entries IH]; intros released m; cbn [ReleaseAll_loop existsb List.filter fst snd].
    - split; [done|]. cbn. lia.
    - destruct (en_Owner e =? owner)%Z eqn:E.
      + destruct (IH (S released) (delete d m)) as [H1 H2]. split; [|rewrite H2; cbn; lia].
        intros duty. rewrite H1. destruct (String.eqb_spec d duty) as [->|Hne]; cbn [andb orb].
        * rewrite lookup_delete_eq. by destruct (existsb _ _).
        * by rewrite lookup_delete_ne.
      + destruct (IH released m) as [H1 H2]. split; [|done]. intros duty. rewrite H1.
        by rewrite andb_false_r. }
  destruct (H (map_to_list claims) 0%nat claims) as [H1 H2]. split; [|exact H2]. intros duty. rewrite H1.
  destruct (existsb _ _) eqn:E.
  - apply existsb_elem in E as ([d e] & Hin & [E1%String.eqb_eq E2]%andb_true_iff). cbn in *. subst d.
    apply elem_of_map_to_list in Hin. by rewrite Hin, E2.
  - destruct (claims !! duty) as [e|] eqn:Hd; [|done]. apply existsb_none in E.
    rewrite Forall_forall in E. apply elem_of_map_to_list in Hd. specialize (E _ Hd). cbn in E.
    rewrite String.eqb_refl in E. cbn in E. by rewrite E.
Qed.

(** The event ends [owner]'s claim of [duty]. *)
Definition ends (duty : string) (owner : Z) (e : DutyEvent) : bool :=
  match e with
  | Left o => o =? owner
  | Said c speaker _ =>
      String.eqb (co_Duty c) duty &&
      match co_Intent c with
      | CalloutIntent_Claim => negb (speaker =? owner)
      | CalloutIntent_Release => negb (co_Personal c) || (speaker =? owner)
      end
  end.

(** The event is a claim of [duty] by [owner] at [atMs]. *)
Definition claims_at (duty : string) (owner atMs : Z) (e : DutyEvent) : Prop :=
  exists personal, e = Said (mkCallout duty CalloutIntent_Claim personal) owner atMs.

(** How one event changes the entry of a duty. *)
Lemma step_lookup claims e duty entry :
  step claims e !! duty = Some entry <->
  claims !! duty = Some entry /\ ends duty (en_Owner entry) e = false \/
  claims_at duty (en_Owner entry) (en_ClaimedAtMs entry) e /\
    (forall old, claims !! duty = Some old -> en_Owner old <> en_Owner entry).
Proof.
  destruct e as [[d intent personal] speaker atMs|owner].
  - unfold step, Apply, ends, claims_at. cbn [co_Duty co_Intent co_Personal].
    destruct (String.eqb_spec d duty) as [->|Hne].
    2: { assert (Hother : (Apply (mkCallout d intent personal) speaker atMs claims).2 !! duty = claims !! duty).
         { unfold Apply, Release, Claim. cbn [co_Duty co_Intent co_Personal].
           repeat split_guard; cbn [snd]; by rewrite ?lookup_delete_ne, ?lookup_insert_ne. }
         unfold Apply in Hother. cbn [co_Duty co_Intent co_Personal] in Hother. rewrite Hother.
         cbn [andb]. split; [auto|]. intros [[? _]|[(p & [= ? _ _ _ _]) _]]; [done|]. done. }
    cbn [andb]. destruct intent.
    + destruct (claims !! duty) as [old|] eqn:Eo.
      * destruct (Z.eqb_spec (en_Owner old) speaker) as [Es|Es]; cbn [snd].
        -- rewrite Eo. split.
           ++ intros [= <-]. left. split; [done|]. by rewrite negb_false_iff, Z.eqb_eq.
           ++ intros [[? _]|[(p & Hc) Hold]]; [done|]. injection Hc as _ Ho Ht. destruct (Hold old eq_refl). congruence.
        -- unfold Claim. rewrite lookup_insert_eq. split.
           ++ intros [= <-]. right. cbn. split; [by eexists|]. by intros ? [= <-].
           ++ intros [[[= <-] H]|[(p & Hc) Hold]].
              2: { injection Hc as _ -> ->. by destruct entry. }
              apply negb_false_iff, Z.eqb_eq in H. congruence.
      * cbn [snd]. unfold Claim. rewrite lookup_insert_eq. split.
        -- intros [= <-]. right. cbn. split; [by eexists|done].
        -- intros [[? _]|[(p & Hc) _]]; [done|]. injection Hc as _ -> ->. by destruct entry.
    + unfold Owner. destruct (personal && _) eqn:E; cbn [snd].
      * apply andb_true_iff in E as [-> E]. cbn [negb orb]. split.
        -- intros H. left. split; [done|]. rewrite H in E. apply Z.eqb_neq.
           apply negb_true_iff, Z.eqb_neq in E. congruence.
        -- intros [[? _]|[(p & ?) _]]; done.
      * unfold Release. cbn [snd]. rewrite lookup_delete_eq. split; [done|].
        intros [[H He]|[(p & ?) _]]; [|done]. rewrite H in E.
        destruct personal; [|done]. cbn in E, He. apply negb_false_iff, Z.eqb_eq in E.
        apply Z.eqb_neq in He. congruence.
  - cbn [step ends]. destruct (ReleaseAllOwnedBy_spec owner claims) as [-> _]. unfold claims_at.
    destruct (claims !! duty) as [old|]; [|split; [done|]; by intros [[? _]|[(p & ?) _]]].
    destruct (Z.eqb_spec (en_Owner old) owner) as [E|E].
    + split; [done|]. intros [[[= ->] H]|[(p & ?) _]]; [|done]. apply Z.eqb_neq in H. congruence.
    + split; [|by intros [[? _]|[(p & ?) _]]]. intros [= ->]. left. split; [done|]. apply Z.eqb_neq. congruence.
Qed.

(** Ownership of a duty after any history of callouts and departures: the
    owner is the one who claimed it, at the time of a claim made while not
    already owning it, after which nobody else claimed it, nobody released it
    for the raid, and the owner neither gave it up nor left. *)
Theorem claims_history events duty entry :
  run events !! duty = Some entry <->
  exists earlier claim later, events = earlier ++ claim :: later /\
    claims_at duty (en_Owner entry) (en_ClaimedAtMs entry) claim /\
    (forall old, run earlier !! duty = Some old -> en_Owner old <> en_Owner entry) /\
    Forall (fun e => ends duty (en_Owner entry) e = false) later.
Proof.
  induction events as [|e events IH] using rev_ind.
  { split; [unfold run; cbn; by rewrite lookup_empty|]. by intros ([|? ?] & ? & ? & ? & _). }
  unfold run. rewrite foldl_snoc. fold (run events). rewrite step_lookup, IH. split.
  - intros [[(earlier & c & later & -> & Hc & Hold & Hl) He]|[Hc Hold]].
    + exists earlier, c, (later ++ [e]). split; [by rewrite <- app_assoc|]. split; [done|].
      split; [done|]. apply Forall_app. split; [done|by constructor].
    + exists events, e, []. split; [done|]. split; [done|]. split; [done|constructor].
  - intros (earlier & c & later & E & Hc & Hold & Hl). destruct later as [|x later _] using rev_ind.
    + apply app_inj_tail in E as [-> ->]. by right.
    + rewrite app_comm_cons, app_assoc in E. apply app_inj_tail in E as [-> ->].
      apply Forall_app in Hl as [Hl Hx]. inversion Hx; subst. left. split; [|done].
      by exists earlier, c, later.
Qed.

(** [Apply] reports a change exactly when the claims differ afterwards. *)
Theorem Apply_changed callout speaker atMs claims :
  (Apply callout speaker atMs claims).1 = true <->
  (Apply callout speaker atMs claims).2 <> claims.
Proof.
  unfold Apply, Release, Claim. destruct callout as [duty [] personal]; cbn [co_Duty co_Intent co_Personal].
  - destruct (claims !! duty) as [old|] eqn:E.
    + destruct (Z.eqb_spec (en_Owner old) speaker) as [Es|Es]; cbn; [done|]. split; [|done]. intros _ H.
      assert (claims !! duty = Some (mkEntry speaker atMs)) by (by rewrite <- H, lookup_insert_eq).
      rewrite E in H0. by simplify_eq.
    + cbn. split; [|done]. intros _ H. by rewrite <- H, lookup_insert_eq in E.
  - destruct (personal && _); cbn; [done|]. rewrite bool_decide_eq_true. split.
    + intros [old E] H. by rewrite <- H, lookup_delete_eq in E.
    + intros H. destruct (claims !! duty) eqn:E; [done|]. destruct H. by apply delete_id.
Qed.
