(* ===== verification/PullTimer.v ===== *)
(** Pull timers read from raid chat and boss-mod addons: the parsers of
    [Bots/BotPlayPullTimer.h]. *)
From S2P Require Import Prelude RouteCompletion LockoutPlan DutyClaims.
From Stdlib Require Import ZArith Lia String Ascii.
From stdpp Require Import base list strings.

Open Scope Z_scope.
Open Scope tc_scope.

Definition MaxSeconds : Z := 300.
Definition ReleaseWindowMs : Z := 30000.

Definition Running (pullAtMs nowMs : Z) : bool := nz pullAtMs && (nowMs <? pullAtMs).

Definition Released (pullAtMs nowMs : Z) : bool :=
  nz pullAtMs && (pullAtMs <=? nowMs) && (nowMs <? pullAtMs +64 ReleaseWindowMs).

Record Signal : Type := mkSignal { sg_Cancel : bool; sg_Seconds : Z }.

(** ** Tokens *)

Fixpoint Split_from (separator : ascii -> bool) (token text : string) : list string :=
  match text with
  | EmptyString => if str_empty token then [] else [token]
  | String c rest =>
      if separator c then
        if str_empty token then Split_from separator "" rest
        else token :: Split_from separator "" rest
      else Split_from separator (token ++ String c "") rest
  end.

Definition Split (text : string) (separator : ascii -> bool) : list string :=
  Split_from separator "" text.

Fixpoint Number_from (value : Z) (token : string) : option Z :=
  match token with
  | EmptyString => Some value
  | String c rest =>
      if is_decimal c
      then Number_from (u32 (value * 10) +32 (Z.of_nat (nat_of_ascii c) - 48)) rest
      else None
  end.

Definition Number (token : string) : option Z :=
  if str_empty token || (4 <? String.length token)%nat then None else Number_from 0 token.

Definition FromSeconds (seconds : Z) : option Signal :=
  if MaxSeconds <? seconds then None else Some (mkSignal (seconds =? 0) seconds).

(** ** Addon messages *)

Definition tab : ascii := "009".

Fixpoint ParseDbm_from (fields : list string) : option Signal :=
  match fields with
  | field :: ((value :: rest) as fields) =>
      let pullTimer := String.eqb field "PT" in
      let pizzaPull := String.eqb field "U"
        && match rest with text :: _ => String.prefix "Pull" text | [] => false end in
      if pullTimer || pizzaPull then
        match Number value with
        | Some seconds => FromSeconds seconds
        | None => ParseDbm_from fields
        end
      else ParseDbm_from fields
  | _ => None
  end.

Definition ParseDbm (prefix message : string) : option Signal :=
  if negb (String.eqb prefix "D4") && negb (String.eqb prefix "D5") then None
  else ParseDbm_from (Split message (Ascii.eqb tab)).

(** The loop over the tokens from [index] on; [first] is [tokens[0]]. *)
Fixpoint ParseBigWigs_from (index : nat) (first : string) (tokens : list string) : option Signal :=
  match tokens with
  | token :: ((value :: _) as tokens) =>
      let oldSync := String.eqb token "BWPull" in
      let newSync := Nat.eqb index 1 && String.eqb first "P" && String.eqb token "Pull" in
      if oldSync || newSync then
        match Number value with
        | Some seconds => FromSeconds seconds
        | None => ParseBigWigs_from (S index) first tokens
        end
      else ParseBigWigs_from (S index) first tokens
  | _ => None
  end.

Definition ParseBigWigs (prefix message : string) : option Signal :=
  if negb (String.eqb prefix "BigWigs") then None
  else
    let tokens := Split message (fun c => negb (isalnum c)) in
    ParseBigWigs_from 0 (hd ""%string tokens) tokens.

Definition ParseAddon (prefix message : string) : option Signal :=
  match ParseDbm prefix message with
  | Some dbm => Some dbm
  | None => ParseBigWigs prefix message
  end.

(** ** Raid chat *)

Definition isSecondsUnit (word : string) : bool :=
  IsOneOf word ["s"; "sec"; "secs"; "second"; "seconds"]%string.

Definition holds (word : string) : bool :=
  IsOneOf word ["cancel"; "stop"; "no"; "dont"; "don"; "not"; "never"; "cant"; "wait"; "hold"]%string.

Definition is_pull (word : string) : bool := String.eqb word "pull" || String.eqb word "pulling".

Definition cancels_after (rest : list string) : bool :=
  match rest with
  | word :: _ => IsOneOf word ["cancelled"; "canceled"; "cancel"]%string
  | [] => false
  end.

Definition skip_in (rest : list string) : list string :=
  match rest with word :: rest' => if String.eqb word "in" then rest' else rest | [] => [] end.

Definition opt_holds (word : option string) : bool :=
  match word with Some word => holds word | None => false end.

(** The loop over the words; [back1] and [back2] are the two words before. *)
Fixpoint ParseChat_from (back2 back1 : option string) (words : list string) : option Signal :=
  match words with
  | [] => None
  | word :: rest =>
      if negb (is_pull word) then ParseChat_from back1 (Some word) rest
      else if opt_holds back1 || opt_holds back2 || cancels_after rest
      then Some (mkSignal true 0)
      else match skip_in rest with
      | [] => ParseChat_from back1 (Some word) rest
      | next :: after =>
          if String.eqb next "now" then
            match after with [] => Some (mkSignal false 0) | _ => None end
          else
            let endsCall := match after with [] => true | unit :: _ => isSecondsUnit unit end in
            match Number next with
            | Some seconds =>
                if endsCall && (seconds <=? MaxSeconds) then Some (mkSignal false seconds)
                else ParseChat_from back1 (Some word) rest
            | None => ParseChat_from back1 (Some word) rest
            end
      end
  end.

Definition ParseChat (text : string) : option Signal :=
  if string_any (Ascii.eqb "?") text then None
  else
    let words := NormalizeWords text in
    if (8 <? length words)%nat then None else ParseChat_from None None words.

#[export] Instance Signal_eq_dec : EqDecision Signal.
Proof. solve_decision. Defined.

(** ** The messages the leader's tools send *)

(** The pull calls for [n] seconds: DBM's addon syncs, BigWigs' old and new
    ones, then what a leader or a raid warning writes. *)
Definition addon_messages (n : string) : list (string * string) :=
  let t := String tab "" in
  [("D4", "U" ++ t ++ n ++ t ++ "Pull in"); ("D4", "PT" ++ t ++ n);
   ("D5", "Leader" ++ t ++ "1" ++ t ++ "PT" ++ t ++ n);
   ("BigWigs", "T:BWPull " ++ n); ("BigWigs", "P^Pull^" ++ n)]%string.

Definition chat_messages (n : string) : list string :=
  ["pull " ++ n; "pull in " ++ n; "Pulling in " ++ n ++ "!"; "Pull in " ++ n ++ " sec";
   "ok, pull in " ++ n ++ " seconds everyone"]%string.

(** What every message of one form reads as. *)
Definition messages_read (n : Z) (addon chat : option Signal) : Prop :=
  Forall (fun m => ParseAddon m.1 m.2 = addon) (addon_messages (to_string n)) /\
  Forall (fun m => ParseChat m = chat) (chat_messages (to_string n)).

Lemma messages_read_small n :
  0 <= n < 301 -> messages_read n (Some (mkSignal (n =? 0) n)) (Some (mkSignal false n)).
Proof.
  intros Hn. assert (H : Forall (fun n => messages_read n (Some (mkSignal (n =? 0) n))
    (Some (mkSignal false n))) (seqZ 0 301)).
  { apply (bool_decide_unpack _). vm_compute. exact I. }
  rewrite Forall_forall in H. apply H, elem_of_seqZ. lia.
Qed.

Lemma messages_read_large n : 301 <= n < 1000 -> messages_read n None None.
Proof.
  intros Hn. assert (H : Forall (fun n => messages_read n None None) (seqZ 301 699)).
  { apply (bool_decide_unpack _). vm_compute. exact I. }
  rewrite Forall_forall in H. apply H, elem_of_seqZ. lia.
Qed.

(** Each of the formats the pull tools and leaders use reads back as the
    number of seconds that was written, up to five minutes; zero cancels when
    an addon sends it; a longer timer is ignored rather than shortened. *)
Theorem pull_messages_read n :
  0 <= n < 1000 ->
  if n <=? MaxSeconds
  then messages_read n (Some (mkSignal (n =? 0) n)) (Some (mkSignal false n))
  else messages_read n None None.
Proof.
  unfold MaxSeconds. intros Hn. destruct (Z.leb_spec n 300).
  - apply messages_read_small. lia.
  - apply messages_read_large. lia.
Qed.

Lemma pull_messages_read_witness :
  ParseChat "Pull in 10 sec" = Some (mkSignal false 10) /\
  messages_read 10 (Some (mkSignal false 10)) (Some (mkSignal false 10)).
Proof. split; [vm_compute; reflexivity|]. apply (pull_messages_read 10). lia. Defined.

(** ** What starts a timer *)

Lemma FromSeconds_bounds seconds s :
  0 <= seconds -> FromSeconds seconds = Some s ->
  0 <= sg_Seconds s <= MaxSeconds /\ (sg_Cancel s = true <-> sg_Seconds s = 0).
Proof. unfold FromSeconds. intros H Hs. split_guard_in Hs; simplify_eq. cbn. b2p. lia. Qed.

Lemma Number_from_nonneg token : forall value n,
  0 <= value -> Number_from value token = Some n -> 0 <= n.
Proof.
  induction token as [|c token IH]; intros value n Hv H; cbn in H; [by simplify_eq|].
  destruct (is_decimal c); [|done]. eapply IH; [|exact H]. apply u32_bound.
Qed.

Lemma Number_nonneg token n : Number token = Some n -> 0 <= n.
Proof. unfold Number. split_guard; [done|]. by apply Number_from_nonneg. Qed.

Lemma ParseDbm_from_bounds fields s :
  ParseDbm_from fields = Some s ->
  0 <= sg_Seconds s <= MaxSeconds /\ (sg_Cancel s = true <-> sg_Seconds s = 0).
Proof.
  induction fields as [|field [|value rest] IH]; cbn [ParseDbm_from]; try done.
  destruct (_ || _); [|by apply IH]. destruct (Number value) as [seconds|] eqn:E; [|by apply IH].
  apply FromSeconds_bounds. by eapply Number_nonneg.
Qed.

Lemma ParseBigWigs_from_bounds tokens : forall index first s,
  ParseBigWigs_from index first tokens = Some s ->
  0 <= sg_Seconds s <= MaxSeconds /\ (sg_Cancel s = true <-> sg_Seconds s = 0).
Proof.
  induction tokens as [|token [|value rest] IH]; intros index first s; cbn [ParseBigWigs_from]; try done.
  destruct (_ || _); [|by apply IH]. destruct (Number value) as [seconds|] eqn:E; [|by apply IH].
  apply FromSeconds_bounds. by eapply Number_nonneg.
Qed.

Lemma ParseAddon_bounds prefix message s :
  ParseAddon prefix message = Some s ->
  0 <= sg_Seconds s <= MaxSeconds /\ (sg_Cancel s = true <-> sg_Seconds s = 0).
Proof.
  unfold ParseAddon, ParseDbm, ParseBigWigs.
  destruct (negb (String.eqb prefix "D4") && negb (String.eqb prefix "D5")).
  - destruct (negb _); [done|]. apply ParseBigWigs_from_bounds.
  - destruct (ParseDbm_from _) eqn:E; [intros [= <-]; by eapply ParseDbm_from_bounds|].
    destruct (negb _); [done|]. apply ParseBigWigs_from_bounds.
Qed.

Lemma ParseChat_from_bounds words : forall back2 back1 s,
  ParseChat_from back2 back1 words = Some s -> 0 <= sg_Seconds s <= MaxSeconds.
Proof.
  unfold MaxSeconds. induction words as [|word rest IH]; intros back2 back1 s; cbn [ParseChat_from]; [done|].
  destruct (is_pull word); cbn [negb]; [|by apply IH].
  destruct (_ || _ || _); [by intros [= <-]|].
  destruct (skip_in rest) as [|next after]; [by apply IH|].
  destruct (String.eqb next "now"); [destruct after; [by intros [= <-]|done]|].
  destruct (Number next) as [seconds|] eqn:E; [|by apply IH]. apply Number_nonneg in E.
  destruct (_ && (seconds <=? MaxSeconds)) eqn:G; [|by apply IH].
  unfold MaxSeconds in G. b2p. intros [= <-]. cbn. lia.
Qed.

Lemma ParseChat_bounds text s : ParseChat text = Some s -> 0 <= sg_Seconds s <= MaxSeconds.
Proof.
  unfold ParseChat. destruct (string_any _ _); [done|]. destruct (_ <? _)%nat; [done|].
  apply ParseChat_from_bounds.
Qed.

(** What a pull call says after its verb: [now], or a number of seconds. *)
Definition says_when (words : list string) (seconds : Z) : Prop :=
  words = ["now"%string] /\ seconds = 0 \/
  exists next after, words = next :: after /\ Number next = Some seconds /\
    match after with [] => True | unit :: _ => isSecondsUnit unit = true end.

(** The words of a call that starts a timer: nobody holds in the two words
    before [pull], no word cancels it, and what follows is [now] or a number
    that ends the call or has a unit. *)
Definition starts_pull (words : list string) (seconds : Z) : Prop :=
  exists pre word rest, words = pre ++ word :: rest /\ is_pull word = true /\
    Forall (fun w => holds w = false) (take 2 (rev pre)) /\ cancels_after rest = false /\
    says_when (skip_in rest) seconds.

Lemma ParseChat_from_starts words : forall pre s,
  ParseChat_from (rev pre !! 1%nat) (rev pre !! 0%nat) words = Some s -> sg_Cancel s = false ->
  starts_pull (pre ++ words) (sg_Seconds s) /\ 0 <= sg_Seconds s <= MaxSeconds.
Proof.
  induction words as [|word rest IH]; intros pre s H Hc; [done|].
  assert (Hnext : ParseChat_from (rev pre !! 0%nat) (Some word) rest = Some s ->
    starts_pull (pre ++ word :: rest) (sg_Seconds s) /\ 0 <= sg_Seconds s <= MaxSeconds).
  { intros Hr. rewrite (app_assoc pre [word] rest : pre ++ word :: rest = _). apply IH; [|done].
    by rewrite rev_app_distr. }
  cbn [ParseChat_from] in H. destruct (is_pull word) eqn:Hp; [|by apply Hnext]. cbn in H.
  destruct (opt_holds _ || opt_holds _ || cancels_after rest) eqn:Hh; [by simplify_eq|].
  assert (Hstart : forall seconds, says_when (skip_in rest) seconds -> starts_pull (pre ++ word :: rest) seconds).
  { intros seconds Hs. exists pre, word, rest. do 2 (split; [done|]). b2p. destruct Hh as [[Hh1 Hh2] Hh3].
    split; [|split; [exact Hh3|exact Hs]].
    destruct (rev pre) as [|a [|b l]]; cbn in *; repeat constructor; done. }
  destruct (skip_in rest) as [|next after] eqn:Hs; [by apply Hnext|].
  destruct (String.eqb_spec next "now") as [->|_].
  - destruct after; [|done]. simplify_eq. split; [apply Hstart; by left|]. unfold MaxSeconds; cbn. lia.
  - destruct (Number next) as [seconds|] eqn:Hn; [|by apply Hnext].
    destruct (_ && (seconds <=? MaxSeconds)) eqn:He; [|by apply Hnext]. simplify_eq. cbn.
    apply andb_true_iff in He as [He Hle]. b2p. split.
    + apply Hstart. right. exists next, after. do 2 (split; [done|]). by destruct after.
    + split; [by eapply Number_nonneg|done].
Qed.

(** A raid line starts a timer only when it says so: it asks nothing, is at
    most eight words, says pull with nobody holding right before or
    cancelling right after, and goes on with [now] or with a number of seconds;
    and no timer exceeds five minutes. *)
Theorem ParseChat_starts text s :
  ParseChat text = Some s -> sg_Cancel s = false ->
  string_any (Ascii.eqb "?") text = false /\ (length (NormalizeWords text) <= 8)%nat /\
  starts_pull (NormalizeWords text) (sg_Seconds s) /\ 0 <= sg_Seconds s <= MaxSeconds.
Proof.
  unfold ParseChat. intros H Hc. destruct (string_any _ text); [done|].
  destruct (Nat.ltb_spec 8 (length (NormalizeWords text))); [done|].
  do 2 (split; [done|]). by apply (ParseChat_from_starts _ []).
Qed.

Lemma ParseChat_starts_witness :
  ParseChat "wait, don't pull in 10" = Some (mkSignal true 0) /\
  ParseChat "pull 1 more pack" = None /\
  string_any (Ascii.eqb "?") "pull in 10s" = false /\
  (length (NormalizeWords "pull in 10s") <= 8)%nat /\
  ParseChat "pull in 10 s" = Some (mkSignal false 10) /\
  starts_pull (NormalizeWords "pull in 10 s") 10.
Proof.
  do 2 (split; [vm_compute; reflexivity|]).
  split; [vm_compute; reflexivity|]. split; [vm_compute; lia|]. split; [vm_compute; reflexivity|].
  apply (ParseChat_starts "pull in 10 s" (mkSignal false 10)); vm_compute; reflexivity.
Defined.
