(* ===== verification/PlaySession.v ===== *)
(** The pull and the advance of a raid that humans lead: the session of
    [Bots/BotPlaySession.h], [ObserveEncounter] of [Bots/BotPlayPullTimer.h],
    and the decisions of [Bots/BotWorldPopulationMgrPlay.cpp]. *)
From S2P Require Import Prelude RouteInteraction RouteCompletion LockoutPlan DutyClaims PullTimer.
From Stdlib Require Import ZArith Lia String Ascii.
From stdpp Require Import base list strings.

Open Scope Z_scope.
Open Scope tc_scope.

(** ** State *)

(** The members of [BotPlaySession] that change while the session runs, with
    its group. *)
Record BotPlaySession : Type := mkSession {
  ps_Active : bool;
  ps_GroupGuid : Z;
  ps_PermittedGeneration : Z;
  ps_PullAtMs : Z;
  ps_PullWipeGeneration : Z;
  ps_PullSource : string;
  ps_BossEngaged : bool;
  ps_BossesDoneAtEngage : Z;
  ps_LastEvent : string;
  ps_LastHoldEvent : string
}.

Definition set_PullAtMs (v : Z) (s : BotPlaySession) : BotPlaySession :=
  mkSession (ps_Active s) (ps_GroupGuid s) (ps_PermittedGeneration s) v (ps_PullWipeGeneration s)
    (ps_PullSource s) (ps_BossEngaged s) (ps_BossesDoneAtEngage s) (ps_LastEvent s) (ps_LastHoldEvent s).

Definition set_PullWipeGeneration (v : Z) (s : BotPlaySession) : BotPlaySession :=
  mkSession (ps_Active s) (ps_GroupGuid s) (ps_PermittedGeneration s) (ps_PullAtMs s) v
    (ps_PullSource s) (ps_BossEngaged s) (ps_BossesDoneAtEngage s) (ps_LastEvent s) (ps_LastHoldEvent s).

Definition set_PullSource (v : string) (s : BotPlaySession) : BotPlaySession :=
  mkSession (ps_Active s) (ps_GroupGuid s) (ps_PermittedGeneration s) (ps_PullAtMs s)
    (ps_PullWipeGeneration s) v (ps_BossEngaged s) (ps_BossesDoneAtEngage s) (ps_LastEvent s)
    (ps_LastHoldEvent s).

Definition set_LastEvent (v : string) (s : BotPlaySession) : BotPlaySession :=
  mkSession (ps_Active s) (ps_GroupGuid s) (ps_PermittedGeneration s) (ps_PullAtMs s)
    (ps_PullWipeGeneration s) (ps_PullSource s) (ps_BossEngaged s) (ps_BossesDoneAtEngage s) v
    (ps_LastHoldEvent s).

Definition set_fight (engaged : bool) (doneAtEngage : Z) (s : BotPlaySession) : BotPlaySession :=
  mkSession (ps_Active s) (ps_GroupGuid s) (ps_PermittedGeneration s) (ps_PullAtMs s)
    (ps_PullWipeGeneration s) (ps_PullSource s) engaged doneAtEngage (ps_LastEvent s)
    (ps_LastHoldEvent s).

Definition set_advance (generation : Z) (lastEvent lastHold : string) (s : BotPlaySession)
    : BotPlaySession :=
  mkSession (ps_Active s) (ps_GroupGuid s) generation (ps_PullAtMs s) (ps_PullWipeGeneration s)
    (ps_PullSource s) (ps_BossEngaged s) (ps_BossesDoneAtEngage s) lastEvent lastHold.

(** What the manager's raid refresh found. *)
Record Raid : Type := mkRaid {
  rd_WipeGeneration : Z;
  rd_DifficultyMemberCount : Z;
  rd_EncounterInProgress : bool;
  rd_BossStates : list Z
}.

Record Cohort : Type := mkCohort {
  ch_Active : bool; ch_PurposeIsPlay : bool; ch_Play : BotPlaySession; ch_Raid : Raid }.

Definition set_Play (s : BotPlaySession) (c : Cohort) : Cohort :=
  mkCohort (ch_Active c) (ch_PurposeIsPlay c) s (ch_Raid c).

(** What is read of a [Player*]: [IsHuman], its group, and whether it leads
    that group or assists. *)
Record Sender : Type := mkSender {
  sn_IsHuman : bool; sn_Group : option Z; sn_LeaderOrAssistant : bool }.

(** ** The boss fight *)

Definition ObserveEncounter (session : BotPlaySession) (observed inProgress : bool)
    (bossesDone nowMs : Z) : string * BotPlaySession :=
  if negb observed || Bool.eqb inProgress (ps_BossEngaged session) then (""%string, session)
  else
    if negb inProgress then
      let session := set_fight false (ps_BossesDoneAtEngage session) session in
      let session :=
        if nz (ps_PullAtMs session) && (ps_PullAtMs session <=? nowMs)
        then set_PullAtMs 0 session else session in
      if ps_BossesDoneAtEngage session <? bossesDone then ("boss_killed"%string, session)
      else
        (if Running (ps_PullAtMs session) nowMs
         then "boss_reset:pull_timer_running"%string
         else "boss_reset:start_a_new_pull_timer"%string, session)
    else
      let session := set_fight true bossesDone session in
      let how :=
        if PullTimer.Released (ps_PullAtMs session) nowMs then "pull_timer"%string
        else if Running (ps_PullAtMs session) nowMs then "before_timer"%string
        else if nz (ps_PullAtMs session) then "after_window"%string
        else "without_timer"%string in
      (("boss_engaged:" ++ how)%string, set_PullAtMs 0 session).

(** ** May the bots pull *)

(** [EncounterState::DONE]. *)
Definition DONE : Z := 3.

Definition bosses_done (raid : Raid) : Z :=
  u32 (Z.of_nat (length (List.filter (fun state => state =? DONE) (rd_BossStates raid)))).

(** A wipe consumes the timer. *)
Definition consume_by_wipe (raid : Raid) (session : BotPlaySession) : BotPlaySession :=
  if nz (ps_PullAtMs session) && negb (rd_WipeGeneration raid =? ps_PullWipeGeneration session)
  then set_LastEvent "pull_timer_consumed_by_wipe" (set_PullAtMs 0 session) else session.

Definition record_edge (edge : string) (session : BotPlaySession) : BotPlaySession :=
  if str_empty edge then session else set_LastEvent edge session.

Definition report_expired (nowMs : Z) (session : BotPlaySession) : BotPlaySession :=
  if nz (ps_PullAtMs session) && (ps_PullAtMs session <=? nowMs) && negb (ps_BossEngaged session)
    && negb (String.prefix "pull_window_expired" (ps_LastEvent session))
  then set_LastEvent "pull_window_expired:start_a_new_pull_timer" session else session.

Definition PullPermitted (c : Cohort) (nowMs : Z) : bool * Cohort :=
  let raid := ch_Raid c in
  let session := consume_by_wipe raid (ch_Play c) in
  let '(edge, session) := ObserveEncounter session (nz (rd_DifficultyMemberCount raid))
    (rd_EncounterInProgress raid) (bosses_done raid) nowMs in
  let session := record_edge edge session in
  if PullTimer.Released (ps_PullAtMs session) nowMs then (true, set_Play session c)
  else (false, set_Play (report_expired nowMs session) c).

(** ** Who may call a pull, and what a call does *)

Definition in_play_group (c : Cohort) (sender : Sender) : bool :=
  match sn_Group sender with
  | Some group => (group =? ps_GroupGuid (ch_Play c)) && sn_LeaderOrAssistant sender
  | None => false
  end.

(** The reason the call is refused, and the cohort. *)
Definition Pull (cohort : option Cohort) (invoker : option Sender) (cancel : bool) (seconds : Z)
    (source : string) (nowMs : Z) : option string * option Cohort :=
  match cohort with
  | Some c =>
      if negb (ch_Active c && ps_Active (ch_Play c))
      then (Some "no_active_play_session"%string, cohort)
      else if match invoker with
              | Some invoker => sn_IsHuman invoker && negb (in_play_group c invoker)
              | None => false
              end
      then (Some "only_the_raid_leader_or_assistant_can_pull"%string, cohort)
      else
        let session := set_PullSource source (ch_Play c) in
        if cancel then
          (None, Some (set_Play
            (set_LastEvent ("pull_cancelled:" ++ source) (set_PullAtMs 0 session)) c))
        else if MaxSeconds <? seconds then
          (Some ("pull_timer_over_" ++ to_string MaxSeconds ++ "_seconds")%string,
           Some (set_Play session c))
        else
          let session := set_PullAtMs (nowMs +64 u64 (seconds * 1000)) session in
          let session := set_PullWipeGeneration (rd_WipeGeneration (ch_Raid c)) session in
          (None, Some (set_Play
            (set_LastEvent ("pull_timer:" ++ to_string seconds ++ "s:" ++ source) session) c))
  | None => (Some "no_active_play_session"%string, None)
  end.

Definition FromPlayLeadership (cohort : option Cohort) (sender : option Sender) : bool :=
  match cohort, sender with
  | Some c, Some sender =>
      ch_Active c && ch_PurposeIsPlay c && ps_Active (ch_Play c) && sn_IsHuman sender
      && in_play_group c sender
  | _, _ => false
  end.

Definition CHAT_MSG_PARTY : Z := 2.
Definition CHAT_MSG_RAID : Z := 3.
Definition CHAT_MSG_RAID_LEADER : Z := 39.
Definition CHAT_MSG_RAID_WARNING : Z := 40.
Definition CHAT_MSG_PARTY_LEADER : Z := 51.

Definition OnAddonMessage (cohort : option Cohort) (sender : option Sender) (chatType : Z)
    (prefix message : string) (nowMs : Z) : option Cohort :=
  if negb (chatType =? CHAT_MSG_RAID) && negb (chatType =? CHAT_MSG_PARTY)
    || negb (FromPlayLeadership cohort sender)
  then cohort
  else match ParseAddon prefix message with
  | None => cohort
  | Some signal =>
      (Pull cohort sender (sg_Cancel signal) (sg_Seconds signal) ("addon:" ++ prefix) nowMs).2
  end.

Definition OnGroupChat (cohort : option Cohort) (sender : option Sender) (chatType : Z)
    (message : string) (nowMs : Z) : option Cohort :=
  if negb (chatType =? CHAT_MSG_RAID) && negb (chatType =? CHAT_MSG_RAID_LEADER)
    && negb (chatType =? CHAT_MSG_RAID_WARNING) && negb (chatType =? CHAT_MSG_PARTY)
    && negb (chatType =? CHAT_MSG_PARTY_LEADER)
  then cohort
  else if negb (FromPlayLeadership cohort sender) then cohort
  else match ParseChat message with
  | None => cohort
  | Some signal =>
      (Pull cohort sender (sg_Cancel signal) (sg_Seconds signal) "chat" nowMs).2
  end.

(** ** Following the raid *)

(** What is read of each registered human, in the order of their keys:
    [hf_Present] is the condition of the first [continue], negated. *)
Record HumanFacts : Type := mkHuman {
  hf_Name : string;
  hf_Present : bool;
  hf_DistToNext : f32;
  hf_DistToCurrent : f32;
  hf_VictimIsNodeCreature : bool;
  hf_AttackersAreNodeCreatures : list bool
}.

Definition AdvanceArrivalRange : f32 := f32_of_Z 45.

(** The reason one human gives to advance, or none. *)
Definition human_reason (human : HumanFacts) : string :=
  if negb (hf_Present human) then ""
  else if f32_le (hf_DistToNext human) AdvanceArrivalRange
  then ("human_at_next:" ++ hf_Name human)%string
  else if f32_lt (hf_DistToNext human) (hf_DistToCurrent human)
  then ("human_moving_ahead:" ++ hf_Name human)%string
  else if hf_VictimIsNodeCreature human || existsb id (hf_AttackersAreNodeCreatures human)
  then ("human_engaged:" ++ hf_Name human)%string
  else "".

Fixpoint humans_reason (reason : string) (humans : list HumanFacts) : string :=
  match humans with
  | [] => reason
  | human :: humans =>
      if negb (str_empty reason) then reason else humans_reason (human_reason human) humans
  end.

(** [manifest] holds the route's node ids. *)
Definition PermitRouteAdvance (c : Cohort) (manifest : list string) (humans : list HumanFacts)
    (prospectiveGeneration nowMs : Z) : bool * Cohort :=
  let session := ch_Play c in
  if prospectiveGeneration <=? ps_PermittedGeneration session then (true, c)
  else
    let targetIndex := prospectiveGeneration -64 1 in
    if (targetIndex =? 0) || (Z.of_nat (length manifest) <=? targetIndex) then (true, c)
    else
      let nextId := nth (Z.to_nat targetIndex) manifest ""%string in
      let reason :=
        if Running (ps_PullAtMs session) nowMs || PullTimer.Released (ps_PullAtMs session) nowMs
        then "pull_timer"%string else ""%string in
      let reason := humans_reason reason humans in
      if str_empty reason then
        let holding := ("following_raid_to:" ++ nextId)%string in
        (false,
         if negb (String.eqb (ps_LastHoldEvent session) holding)
         then set_Play (set_advance (ps_PermittedGeneration session) holding holding session) c
         else c)
      else
        (true, set_Play (set_advance prospectiveGeneration
          ("advance:" ++ nextId ++ ":" ++ reason)%string "" session) c).

(** ** Histories *)

Inductive PlayEvent : Type :=
| ECommand (invoker : option Sender) (cancel : bool) (seconds : Z) (source : string) (nowMs : Z)
| EAddon (sender : option Sender) (chatType : Z) (prefix message : string) (nowMs : Z)
| EChat (sender : option Sender) (chatType : Z) (message : string) (nowMs : Z)
| ERefresh (raid : Raid)
| EPullPermitted (nowMs : Z)
| EAdvance (manifest : list string) (humans : list HumanFacts) (generation nowMs : Z).

Definition or_same (c : Cohort) (after : option Cohort) : Cohort :=
  match after with Some c => c | None => c end.

Definition play_step (c : Cohort) (event : PlayEvent) : Cohort :=
  match event with
  | ECommand invoker cancel seconds source nowMs =>
      or_same c (Pull (Some c) invoker cancel seconds source nowMs).2
  | EAddon sender chatType prefix message nowMs =>
      or_same c (OnAddonMessage (Some c) sender chatType prefix message nowMs)
  | EChat sender chatType message nowMs =>
      or_same c (OnGroupChat (Some c) sender chatType message nowMs)
  | ERefresh raid => mkCohort (ch_Active c) (ch_PurposeIsPlay c) (ch_Play c) raid
  | EPullPermitted nowMs => (PullPermitted c nowMs).2
  | EAdvance manifest humans generation nowMs =>
      (PermitRouteAdvance c manifest humans generation nowMs).2
  end.

Definition run (c : Cohort) (events : list PlayEvent) : Cohort := foldl play_step c events.

(** An event by which somebody who may call a pull calls one (or cancels it). *)
Inductive Called (c : Cohort) : PlayEvent -> bool -> Z -> Z -> Prop :=
| Called_command invoker cancel seconds source nowMs :
    match invoker with
    | Some invoker => sn_IsHuman invoker = true -> in_play_group c invoker = true
    | None => True
    end ->
    Called c (ECommand invoker cancel seconds source nowMs) cancel seconds nowMs
| Called_addon sender chatType prefix message cancel seconds nowMs :
    FromPlayLeadership (Some c) sender = true ->
    ParseAddon prefix message = Some (mkSignal cancel seconds) ->
    Called c (EAddon sender chatType prefix message nowMs) cancel seconds nowMs
| Called_chat sender chatType message cancel seconds nowMs :
    FromPlayLeadership (Some c) sender = true ->
    ParseChat message = Some (mkSignal cancel seconds) ->
    Called c (EChat sender chatType message nowMs) cancel seconds nowMs.

(** A timer that [event] starts in state [c]. *)
Definition Starts (c : Cohort) (event : PlayEvent) (pullAtMs wipe : Z) : Prop :=
  exists seconds nowMs, Called c event false seconds nowMs /\ 0 <= seconds <= MaxSeconds /\ 0 <= nowMs /\
    pullAtMs = nowMs + seconds * 1000 /\ wipe = rd_WipeGeneration (ch_Raid c).

(** A step that leaves the timer running: when the bots ask, the raid has not
    wiped since, and they did not just see the fight begin. *)
Definition Quiet (wipe : Z) (c : Cohort) (event : PlayEvent) : Prop :=
  ps_PullAtMs (ch_Play (play_step c event)) = ps_PullAtMs (ch_Play c) /\
  match event with
  | EPullPermitted _ =>
      rd_WipeGeneration (ch_Raid c) = wipe /\
      ~ (rd_DifficultyMemberCount (ch_Raid c) <> 0 /\
         rd_EncounterInProgress (ch_Raid c) = true /\ ps_BossEngaged (ch_Play c) = false)
  | _ => True
  end.

(** The timer that is set was called by the event at the end of [pre], and
    every step after it was quiet. *)
Definition Armed (c0 : Cohort) (events : list PlayEvent) (c : Cohort) : Prop :=
  exists pre event post, events = pre ++ event :: post /\
    Starts (run c0 pre) event (ps_PullAtMs (ch_Play c)) (ps_PullWipeGeneration (ch_Play c)) /\
    forall post1 e post2, post = post1 ++ e :: post2 ->
      Quiet (ps_PullWipeGeneration (ch_Play c)) (run c0 (pre ++ event :: post1)) e.

Definition event_ok (event : PlayEvent) : Prop :=
  match event with
  | ECommand _ _ seconds _ nowMs => 0 <= seconds < 2 ^ 32 /\ 0 <= nowMs < 2 ^ 63
  | EAddon _ _ _ _ nowMs | EChat _ _ _ nowMs | EPullPermitted nowMs => 0 <= nowMs < 2 ^ 63
  | ERefresh _ | EAdvance _ _ _ _ => True
  end.

(** What a step does to the timer: it is a start, or quiet, or clears it. *)
Lemma Pull_effect c invoker cancel seconds source nowMs :
  0 <= seconds < 2 ^ 32 -> 0 <= nowMs < 2 ^ 63 ->
  let c' := or_same c (Pull (Some c) invoker cancel seconds source nowMs).2 in
  ps_PullAtMs (ch_Play c') = 0 \/
  (ps_PullAtMs (ch_Play c') = ps_PullAtMs (ch_Play c) /\
   ps_PullWipeGeneration (ch_Play c') = ps_PullWipeGeneration (ch_Play c)) \/
  (cancel = false /\ seconds <= MaxSeconds /\
   match invoker with
   | Some invoker => sn_IsHuman invoker = true -> in_play_group c invoker = true
   | None => True
   end /\
   ps_PullAtMs (ch_Play c') = nowMs + seconds * 1000 /\
   ps_PullWipeGeneration (ch_Play c') = rd_WipeGeneration (ch_Raid c)).
Proof.
  intros Hs Hn. unfold Pull. destruct (negb _); [by right; left|].
  destruct invoker as [invoker|]; cbn.
  - destruct (sn_IsHuman invoker) eqn:Hh; cbn;
      [destruct (in_play_group c invoker); cbn; [|by right; left]|];
      (destruct cancel; [by left|]); destruct (Z.ltb_spec MaxSeconds seconds); cbn;
      unfold MaxSeconds in *; (by right; left) || (right; right; wrap_small; done).
  - destruct cancel; [by left|]. destruct (Z.ltb_spec MaxSeconds seconds); cbn; [by right; left|].
    unfold MaxSeconds in *. right; right. by wrap_small.
Qed.


Lemma ObserveEncounter_effect session observed inProgress bossesDone nowMs :
  let session' := (ObserveEncounter session observed inProgress bossesDone nowMs).2 in
  ps_PullAtMs session' = 0 \/
  ps_PullAtMs session' = ps_PullAtMs session /\
  ps_PullWipeGeneration session' = ps_PullWipeGeneration session /\
  ~ (observed = true /\ inProgress = true /\ ps_BossEngaged session = false).
Proof.
  unfold ObserveEncounter. destruct observed, inProgress, (ps_BossEngaged session) eqn:E; cbn; try (right; split_and!; done || intros (?&?&?); done).
  - by left.
  - destruct (nz _ && _); cbn; destruct (_ <? _); cbn; (by left) || (right; split_and!; done || intros (?&?&?); done).
Qed.

(** The timer of a session, and the wipe it was set at. *)
Definition timer (session : BotPlaySession) : Z * Z :=
  (ps_PullAtMs session, ps_PullWipeGeneration session).

Lemma timer_record_edge edge session : timer (record_edge edge session) = timer session.
Proof. unfold record_edge. by split_guard. Qed.

Lemma timer_report_expired nowMs session : timer (report_expired nowMs session) = timer session.
Proof. unfold report_expired. by split_guard. Qed.

Lemma consume_by_wipe_effect raid session :
  ps_PullAtMs (consume_by_wipe raid session) = 0 \/
  consume_by_wipe raid session = session /\
  rd_WipeGeneration raid = ps_PullWipeGeneration session.
Proof.
  unfold consume_by_wipe. destruct (Z.eq_dec (ps_PullAtMs session) 0) as [H0|H0].
  - left. rewrite H0. done.
  - rewrite (proj2 (nz_true _) H0).
    destruct (Z.eqb_spec (rd_WipeGeneration raid) (ps_PullWipeGeneration session)); cbn; auto.
Qed.

(** The bots may pull only while the timer that is set is in its window, and
    asking keeps the timer only when the raid has not wiped or engaged. *)
Lemma PullPermitted_effect c nowMs :
  let c' := (PullPermitted c nowMs).2 in
  ((PullPermitted c nowMs).1 = true -> PullTimer.Released (ps_PullAtMs (ch_Play c')) nowMs = true) /\
  (ps_PullAtMs (ch_Play c') = 0 \/
   timer (ch_Play c') = timer (ch_Play c) /\
   Quiet (ps_PullWipeGeneration (ch_Play c)) c (EPullPermitted nowMs)).
Proof.
  cut (exists session', timer (ch_Play (PullPermitted c nowMs).2) = timer session' /\
    ((PullPermitted c nowMs).1 = true -> PullTimer.Released (ps_PullAtMs session') nowMs = true) /\
    (ps_PullAtMs session' = 0 \/ timer session' = timer (ch_Play c) /\
      rd_WipeGeneration (ch_Raid c) = ps_PullWipeGeneration (ch_Play c) /\
      ~ (nz (rd_DifficultyMemberCount (ch_Raid c)) = true /\
         rd_EncounterInProgress (ch_Raid c) = true /\ ps_BossEngaged (ch_Play c) = false))).
  { intros (s & Ht & Hr & Hq). unfold Quiet. cbn [play_step]. unfold timer in *. injection Ht as -> ->.
    split; [done|]. destruct Hq as [|(Heq & Hw & He)]; [by left|right].
    injection Heq as H1 H2. split; [congruence|]. split; [done|]. split; [done|]. by rewrite nz_true in He. }
  unfold PullPermitted. set (session := consume_by_wipe _ _).
  pose proof (ObserveEncounter_effect session (nz (rd_DifficultyMemberCount (ch_Raid c)))
    (rd_EncounterInProgress (ch_Raid c)) (bosses_done (ch_Raid c)) nowMs) as H.
  destruct (ObserveEncounter _ _ _ _ _) as [edge session']. cbn in H. exists session'.
  pose proof (timer_record_edge edge session') as Hrec. injection Hrec as Hrec _.
  split; [|split].
  - destruct (PullTimer.Released _ _); cbn; rewrite ?timer_report_expired; apply timer_record_edge.
  - rewrite Hrec. by destruct (PullTimer.Released _ _).
  - destruct H as [|(H1 & H2 & H3)]; [by left|]. unfold timer. rewrite H1, H2. subst session.
    destruct (consume_by_wipe_effect (ch_Raid c) (ch_Play c)) as [|[E Hw]]; [by left|].
    rewrite E in *. by right.
Qed.

Lemma PermitRouteAdvance_effect c manifest humans generation nowMs :
  timer (ch_Play (PermitRouteAdvance c manifest humans generation nowMs).2) = timer (ch_Play c).
Proof. unfold PermitRouteAdvance. cbv zeta. repeat split_guard; done. Qed.

(** ** The pull was called *)

Lemma run_snoc c events event : run c (events ++ [event]) = play_step (run c events) event.
Proof. apply foldl_snoc. Qed.

Lemma Armed_quiet c0 events event :
  let c := run c0 events in
  Armed c0 events c -> timer (ch_Play (play_step c event)) = timer (ch_Play c) ->
  Quiet (ps_PullWipeGeneration (ch_Play c)) c event ->
  Armed c0 (events ++ [event]) (run c0 (events ++ [event])).
Proof.
  intros c (pre & e0 & post & He & Hs & Hq) Ht Hquiet.
  exists pre, e0, (post ++ [event]). rewrite run_snoc. fold c. injection Ht as -> ->.
  split; [rewrite He, <- app_assoc; done|]. split; [done|].
  intros post1 e post2 Hpost. destruct post2 as [|x post2 _] using rev_ind.
  - apply app_inj_tail in Hpost as [<- <-]. by rewrite <- He.
  - rewrite app_comm_cons, app_assoc in Hpost. apply app_inj_tail in Hpost as [Hpost _].
    by apply (Hq post1 e post2).
Qed.

Lemma Armed_start c0 events event :
  Starts (run c0 events) event (ps_PullAtMs (ch_Play (run c0 (events ++ [event]))))
    (ps_PullWipeGeneration (ch_Play (run c0 (events ++ [event])))) ->
  Armed c0 (events ++ [event]) (run c0 (events ++ [event])).
Proof.
  intros H. exists events, event, []. do 2 (split; [done|]).
  intros post1 e post2 Hp. by destruct post1.
Qed.

(** One step: it clears the timer, starts one, or is quiet. *)
Definition step_effect (c : Cohort) (event : PlayEvent) : Prop :=
  let session := ch_Play (play_step c event) in
  ps_PullAtMs session = 0 \/
  timer session = timer (ch_Play c) /\ Quiet (ps_PullWipeGeneration (ch_Play c)) c event \/
  Starts c event (ps_PullAtMs session) (ps_PullWipeGeneration session).

Lemma called_effect c event invoker cancel seconds source nowMs :
  0 <= seconds < 2 ^ 32 -> 0 <= nowMs < 2 ^ 63 ->
  play_step c event = or_same c (Pull (Some c) invoker cancel seconds source nowMs).2 ->
  match event with EPullPermitted _ => False | _ => True end ->
  (match invoker with
   | Some invoker => sn_IsHuman invoker = true -> in_play_group c invoker = true
   | None => True
   end -> Called c event cancel seconds nowMs) ->
  step_effect c event.
Proof.
  intros Hs Hn Hstep Hk Hcalled. unfold step_effect, Quiet. rewrite Hstep.
  destruct (Pull_effect c invoker cancel seconds source nowMs Hs Hn)
    as [H|[[H1 H2]|(-> & Hle & Hi & H1 & H2)]]; [by left| |].
  - right; left. unfold timer. rewrite H1, H2. split; [done|]. split; [done|]. by destruct event.
  - right; right. rewrite H1, H2. exists seconds, nowMs. split; [auto|]. lia.
Qed.

Lemma quiet_effect c event :
  timer (ch_Play (play_step c event)) = timer (ch_Play c) ->
  match event with EPullPermitted _ => False | _ => True end -> step_effect c event.
Proof.
  intros Ht Hk. right; left. split; [done|]. injection Ht as H1 H2.
  split; [done|]. by destruct event.
Qed.

Lemma play_step_effect c event : event_ok event -> step_effect c event.
Proof.
  destruct event as [invoker cancel seconds source nowMs|sender chatType prefix message nowMs
    |sender chatType message nowMs|raid|nowMs|manifest humans generation nowMs]; intros Hok.
  - destruct Hok as [Hs Hn]. eapply called_effect; [exact Hs|exact Hn|done|done|].
    intros Hi. by constructor.
  - destruct (FromPlayLeadership (Some c) sender) eqn:Hl;
      [|apply quiet_effect; [cbn; unfold OnAddonMessage; by rewrite Hl, orb_true_r|done]].
    destruct (ParseAddon prefix message) as [[cancel seconds]|] eqn:Hp;
      [|apply quiet_effect; [cbn; unfold OnAddonMessage; rewrite Hp; by repeat split_guard|done]].
    destruct (negb (chatType =? CHAT_MSG_RAID) && negb (chatType =? CHAT_MSG_PARTY)) eqn:Ht;
      [apply quiet_effect; [cbn; unfold OnAddonMessage; by rewrite Ht|done]|].
    pose proof (ParseAddon_bounds _ _ _ Hp) as [Hb _]. unfold MaxSeconds in Hb. cbn in Hb, Hok.
    eapply called_effect; [|exact Hok| |done|]; [instantiate (1 := seconds); lia| |].
    + cbn. unfold OnAddonMessage. rewrite Ht, Hl, Hp. done.
    + intros _. econstructor; [done|exact Hp].
  - destruct (FromPlayLeadership (Some c) sender) eqn:Hl;
      [|apply quiet_effect; [cbn; unfold OnGroupChat; rewrite Hl; by repeat split_guard|done]].
    destruct (ParseChat message) as [[cancel seconds]|] eqn:Hp;
      [|apply quiet_effect; [cbn; unfold OnGroupChat; rewrite Hp; by repeat split_guard|done]].
    destruct (play_step c (EChat sender chatType message nowMs)) eqn:Hstep.
    pose proof (ParseChat_bounds _ _ Hp) as Hb. unfold MaxSeconds in Hb. cbn in Hb, Hok.
    cbn in Hstep. unfold OnGroupChat in Hstep. rewrite Hl, Hp in Hstep.
    destruct (_ && _) eqn:Ht in Hstep.
    + apply quiet_effect; [|done]. cbn. unfold OnGroupChat. by rewrite Ht.
    + eapply called_effect; [|exact Hok| |done|]; [instantiate (1 := seconds); lia| |].
      * cbn. unfold OnGroupChat. rewrite Ht, Hl, Hp. done.
      * intros _. econstructor; [done|exact Hp].
  - by apply quiet_effect.
  - destruct (PullPermitted_effect c nowMs) as [_ [H|[Ht Hq]]]; [by left|]. right; left. done.
  - apply quiet_effect; [|done]. apply PermitRouteAdvance_effect.
Qed.

Lemma run_armed c0 events :
  Forall event_ok events -> ps_PullAtMs (ch_Play c0) = 0 ->
  ps_PullAtMs (ch_Play (run c0 events)) <> 0 -> Armed c0 events (run c0 events).
Proof.
  intros Hok H0. induction events as [|event events IH] using rev_ind; [done|].
  apply Forall_app in Hok as [Hok He]. inversion_clear He as [|? ? He' _].
  specialize (IH Hok). intros Hnz.
  pose proof (play_step_effect (run c0 events) event He') as Heff.
  rewrite run_snoc in Hnz. destruct Heff as [Hz|[[Ht Hq]|Hs]]; [done| |].
  - apply Armed_quiet; [|done..]. apply IH. by injection Ht as <- _.
  - apply Armed_start. by rewrite run_snoc.
Qed.

(** C40. The bots pull the boss only on a timer that somebody entitled to call
    it called, of at most five minutes, between its zero and thirty seconds
    later, while nobody cancelled or replaced it, the raid has not wiped since
    and the bots have not seen the fight begin. *)
Theorem pull_was_called c0 events nowMs :
  Forall event_ok events -> 0 <= nowMs < 2 ^ 63 -> ps_PullAtMs (ch_Play c0) = 0 ->
  (PullPermitted (run c0 events) nowMs).1 = true ->
  exists pre call post pullAtMs wipe, events = pre ++ call :: post /\
    Starts (run c0 pre) call pullAtMs wipe /\
    pullAtMs <= nowMs < pullAtMs + ReleaseWindowMs /\
    (forall post1 e post2, post ++ [EPullPermitted nowMs] = post1 ++ e :: post2 ->
       Quiet wipe (run c0 (pre ++ call :: post1)) e).
Proof.
  intros Hok Hn H0 Hb. destruct (PullPermitted_effect (run c0 events) nowMs) as [Hr Hq].
  specialize (Hr Hb). unfold PullTimer.Released in Hr. b2p. destruct Hr as [[Hnz Hle] Hlt].
  destruct Hq as [?|[Ht Hq]]; [done|]. pose proof Ht as Ht'. injection Ht' as Hp _.
  rewrite Hp in Hnz, Hle, Hlt. pose proof (run_armed c0 events Hok H0 Hnz) as Harm.
  destruct (Armed_quiet c0 events (EPullPermitted nowMs) Harm Ht Hq) as (pre & call & post & He & Hs & Hquiet).
  rewrite run_snoc in Hs, Hquiet. cbn [play_step] in Hs, Hquiet. rewrite Hp in Hs.
  destruct post as [|last post _] using rev_ind.
  - apply app_inj_tail in He as [<- <-]. destruct Hs as (seconds & t & Hc & _). inversion Hc.
  - rewrite app_comm_cons, app_assoc in He. apply app_inj_tail in He as [-> <-].
    exists pre, call, post. eexists _, _. split; [done|]. split; [exact Hs|].
    destruct Hs as (seconds & t & _ & Hsec & Ht0 & Heq & _). split; [|done].
    unfold ReleaseWindowMs in *. rewrite u64_small in Hlt; lia.
Qed.

(** ** A boss fight is read once *)

(** What the bots see of a fight after it began: the raid refresh that found
    none of them inside, or the fight still going on. *)
Definition fight_goes_on (o : bool * bool * Z * Z) : Prop :=
  o.1.1.1 = false \/ o.1.1.2 = true.

Definition observe (session : BotPlaySession) (o : bool * bool * Z * Z) : BotPlaySession :=
  (ObserveEncounter session o.1.1.1 o.1.1.2 o.1.2 o.2).2.

Lemma fight_goes_on_step session o :
  ps_BossEngaged session = true -> fight_goes_on o -> observe session o = session.
Proof.
  unfold observe, fight_goes_on, ObserveEncounter. destruct o as [[[observed inProgress] done'] now]; cbn.
  intros -> [->| ->]; [done|]. by rewrite orb_true_r.
Qed.

(** A fight is announced once when it begins, with how it was pulled, and
    spends the timer; until it ends nothing is announced; at its end it is a
    kill exactly when more bosses are done than when it began, and otherwise a
    reset that asks for a new timer. *)
Theorem fight_is_read_once session bossesDone nowMs during doneAtEnd endMs :
  ps_BossEngaged session = false -> Forall fight_goes_on during ->
  let engaged := ObserveEncounter session true true bossesDone nowMs in
  let after := foldl observe engaged.2 during in
  let ended := ObserveEncounter after true false doneAtEnd endMs in
  engaged.1 = ("boss_engaged:" ++
    (if PullTimer.Released (ps_PullAtMs session) nowMs then "pull_timer"
     else if Running (ps_PullAtMs session) nowMs then "before_timer"
     else if nz (ps_PullAtMs session) then "after_window" else "without_timer"))%string /\
  after = engaged.2 /\ ps_PullAtMs after = 0 /\
  (ended.1 = "boss_killed"%string <-> bossesDone < doneAtEnd) /\
  (doneAtEnd <= bossesDone -> ended.1 = "boss_reset:start_a_new_pull_timer"%string) /\
  ps_BossEngaged ended.2 = false.
Proof.
  intros He Hd. cbv zeta.
  set (engaged := ObserveEncounter session true true bossesDone nowMs).
  assert (H2 : engaged.2 = set_PullAtMs 0 (set_fight true bossesDone session)).
  { unfold engaged, ObserveEncounter. by rewrite He. }
  assert (Ha : foldl observe engaged.2 during = engaged.2).
  { assert (Hb : ps_BossEngaged engaged.2 = true) by (by rewrite H2).
    clear H2. induction Hd as [|o during Ho Hd IH]; cbn; [done|].
    by rewrite (fight_goes_on_step _ _ Hb Ho). }
  rewrite Ha, H2. split; [unfold engaged, ObserveEncounter; by rewrite He|].
  do 2 (split; [done|]). unfold ObserveEncounter. cbn.
  destruct (Z.ltb_spec bossesDone doneAtEnd); cbn; (split; [split; done || lia|]; split; done || lia).
Qed.

(** ** Witnesses *)

Definition sample_session : BotPlaySession :=
  mkSession true 77 1 0 0 "" false 0 "filling" "".

Definition sample_cohort : Cohort := mkCohort true true sample_session (mkRaid 3 5 false [0; 3]).

Definition leader : Sender := mkSender true (Some 77) true.

Definition sample_events : list PlayEvent :=
  [EChat (Some leader) CHAT_MSG_RAID_WARNING "pull in 10" 50000; EPullPermitted 55000;
   EAddon (Some leader) CHAT_MSG_RAID "D4" "PT	8" 56000; ERefresh (mkRaid 3 6 false [0; 3])].

Lemma pull_was_called_witness :
  (PullPermitted (run sample_cohort sample_events) 63999).1 = false /\
  exists pre call post pullAtMs wipe, sample_events = pre ++ call :: post /\
    Starts (run sample_cohort pre) call pullAtMs wipe /\
    pullAtMs <= 64000 < pullAtMs + ReleaseWindowMs /\
    (forall post1 e post2, post ++ [EPullPermitted 64000] = post1 ++ e :: post2 ->
       Quiet wipe (run sample_cohort (pre ++ call :: post1)) e).
Proof.
  split; [vm_compute; reflexivity|].
  apply (pull_was_called sample_cohort sample_events 64000).
  - repeat constructor; vm_compute; congruence.
  - lia.
  - reflexivity.
  - vm_compute. reflexivity.
Defined.

Lemma fight_is_read_once_witness :
  let session := set_PullAtMs 64000 sample_session in
  let engaged := ObserveEncounter session true true 1 65000 in
  engaged.1 = "boss_engaged:pull_timer"%string /\
  (ObserveEncounter (foldl observe engaged.2 [(true, true, 1, 66000); (false, false, 0, 67000)])
    true false 2 90000).1 = "boss_killed"%string /\
  ps_PullAtMs (foldl observe engaged.2 [(true, true, 1, 66000); (false, false, 0, 67000)]) = 0.
Proof.
  destruct (fight_is_read_once (set_PullAtMs 64000 sample_session) 1 65000
    [(true, true, 1, 66000); (false, false, 0, 67000)] 2 90000)
    as (H1 & _ & H3 & H4 & _).
  - reflexivity.
  - repeat constructor; unfold fight_goes_on; cbn; tauto.
  - split; [exact H1|]. split; [apply H4; lia|exact H3].
Defined.
