(* ===== verification/PlayRoster.v ===== *)
(** Which trained bots stay out of a raid that humans join:
    [BotPlayRoster] of [Bots/BotPlaySession.h]. *)
From S2P Require Import Prelude.
From Stdlib Require Import ZArith Lia String.
From stdpp Require Import base gmap list strings sorting.

Open Scope Z_scope.
Open Scope tc_scope.

Record TemplateSlot : Type := mkSlot {
  ts_SlotId : string; ts_Role : string; ts_ClassSpec : string }.

Definition DisruptionOrder (scenario : string) : list string :=
  if String.eqb scenario "blackwing_descent_10n_magmaw_diagnostic"
  then ["raid_dps_5"; "raid_dps_3"; "raid_dps_1"; "raid_dps_2"; "raid_dps_4"; "raid_tank_1";
        "raid_healer_3"; "raid_healer_1"; "raid_healer_2"; "raid_tank_2"]%string
  else [].

(** A [TemplateSlot const*] into the roster: the slot with its position. *)
Definition SlotRef : Type := (nat * TemplateSlot)%type.

Definition roster_refs (roster : list TemplateSlot) : list SlotRef := imap pair roster.

Definition ref_in (ordered : list SlotRef) (slot : SlotRef) : bool :=
  existsb (fun s => Nat.eqb s.1 slot.1) ordered.

(** The slots the order names, slot by slot of the order. *)
Definition ordered_named (roster : list TemplateSlot) (disruptionOrder : list string)
    : list SlotRef :=
  flat_map (fun slotId => List.filter (fun slot => String.eqb (ts_SlotId slot.2) slotId)
    (roster_refs roster)) disruptionOrder.

(** Then every slot that is not listed yet, in roster order. *)
Definition ordered_slots (roster : list TemplateSlot) (disruptionOrder : list string)
    : list SlotRef :=
  foldl (fun ordered slot => if ref_in ordered slot then ordered else ordered ++ [slot])
    (ordered_named roster disruptionOrder) (roster_refs roster).

Fixpoint pick (ordered : list SlotRef) (taken : gset string) (predicate : TemplateSlot -> bool)
    : string :=
  match ordered with
  | [] => ""
  | slot :: ordered =>
      if negb (bool_decide (ts_SlotId slot.2 ∈ taken)) && predicate slot.2
      then ts_SlotId slot.2 else pick ordered taken predicate
  end.

(** The three searches for one human, from the most fitting. *)
Definition pick_role (ordered : list SlotRef) (taken : gset string) (role : string) : string :=
  let slotId := pick ordered taken (fun slot => String.eqb (ts_Role slot) role) in
  let slotId := if str_empty slotId
    then pick ordered taken (fun slot => String.eqb (ts_Role slot) "dps") else slotId in
  if str_empty slotId then pick ordered taken (fun _ => true) else slotId.

Fixpoint choose (ordered : list SlotRef) (taken : gset string) (chosen humanRoles : list string)
    : list string * option string :=
  match humanRoles with
  | [] => (chosen, None)
  | role :: humanRoles =>
      let slotId := pick_role ordered taken role in
      if str_empty slotId then ([], Some "play_no_free_roster_slot"%string)
      else choose ordered ({[ slotId ]} ∪ taken) (chosen ++ [slotId]) humanRoles
  end.

(** The slots chosen, and the failure when the caller asked for it. *)
Definition ChooseExternalSlots (roster : list TemplateSlot) (humanRoles disruptionOrder : list string)
    : list string * option string :=
  match humanRoles with
  | [] => ([], None)
  | _ =>
      if (length roster <=? length humanRoles)%nat
      then ([], Some "play_requires_at_least_one_bot"%string)
      else choose (ordered_slots roster disruptionOrder) ∅ [] humanRoles
  end.

(** ** What is chosen *)

(** How disruptive taking a slot is: its place in the order, and behind the
    order its place in the roster. *)
Fixpoint position (slotId : string) (order : list string) : nat :=
  match order with
  | [] => 0
  | id :: order => if String.eqb id slotId then 0 else S (position slotId order)
  end.

Definition disruption (order : list string) (slot : SlotRef) : nat :=
  let p := position (ts_SlotId slot.2) order in
  if (p <? length order)%nat then p else (length order + slot.1)%nat.

(** How well a slot fits a human: its own role, a damage slot, or any. *)
Definition tier (role : string) (slot : TemplateSlot) : nat :=
  if String.eqb (ts_Role slot) role then 0
  else if String.eqb (ts_Role slot) "dps" then 1 else 2.

(** [slot] is the best slot for [role] among those whose ids are not taken. *)
Definition BestSlot (roster : list TemplateSlot) (order : list string) (taken : gset string)
    (role : string) (slot : SlotRef) : Prop :=
  slot ∈ roster_refs roster /\ ~ ts_SlotId slot.2 ∈ taken /\
  forall other, other ∈ roster_refs roster -> ~ ts_SlotId other.2 ∈ taken ->
    (tier role slot.2 < tier role other.2)%nat \/
    tier role slot.2 = tier role other.2 /\
    (disruption order slot <= disruption order other)%nat.

Definition roster_ok (roster : list TemplateSlot) : Prop :=
  NoDup (ts_SlotId <$> roster) /\ ~ ""%string ∈ (ts_SlotId <$> roster).

Lemma elem_of_refs roster i slot : (i, slot) ∈ roster_refs roster <-> roster !! i = Some slot.
Proof.
  unfold roster_refs. rewrite elem_of_lookup_imap. split.
  - by intros (? & ? & [= <- <-] & H).
  - intros H. by exists i, slot.
Qed.

Lemma ref_in_spec ordered slot : ref_in ordered slot = true <-> slot.1 ∈ (fst <$> ordered).
Proof.
  unfold ref_in. rewrite existsb_elem, list_elem_of_fmap.
  setoid_rewrite Nat.eqb_eq. split; intros (x & H1 & H2); exists x; done.
Qed.

(** Slots that are not in the list come in order behind it. *)
Lemma append_missing l : forall ordered,
  NoDup (fst <$> l) ->
  foldl (fun ordered slot => if ref_in ordered slot then ordered else ordered ++ [slot]) ordered l
  = ordered ++ List.filter (fun slot => negb (ref_in ordered slot)) l.
Proof.
  induction l as [|x l IH]; intros ordered Hn; cbn; [by rewrite app_nil_r|].
  cbn in Hn. apply NoDup_cons in Hn as [Hx Hn]. destruct (ref_in ordered x) eqn:E; cbn; [by apply IH|].
  rewrite IH, <- app_assoc by done. cbn. do 2 f_equal.
  apply filter_ext_Forall, Forall_forall. intros y Hy. f_equal.
  unfold ref_in. rewrite existsb_app. cbn. rewrite orb_false_r.
  replace (Nat.eqb x.1 y.1) with false; [by rewrite orb_false_r|].
  symmetry. apply Nat.eqb_neq. intros Heq. apply Hx. rewrite Heq. by apply list_elem_of_fmap_2.
Qed.

Lemma fst_refs roster : fst <$> roster_refs roster = seq 0 (length roster).
Proof.
  unfold roster_refs. rewrite fmap_imap. cut (forall n, imap (fun i (_ : TemplateSlot) => (n + i)%nat) roster
    = seq n (length roster)); [intros H; apply (H O)|].
  induction roster as [|x roster IH]; intros n; cbn; [done|]. f_equal; [lia|].
  rewrite <- IH. apply imap_ext. intros. cbn. lia.
Qed.

Lemma refs_NoDup roster : NoDup (fst <$> roster_refs roster).
Proof. rewrite fst_refs. apply NoDup_seq. Qed.

Lemma refs_sorted roster :
  StronglySorted (fun a b : SlotRef => (a.1 <= b.1)%nat) (roster_refs roster).
Proof.
  unfold roster_refs. cut (forall n, StronglySorted (fun a b : SlotRef => (a.1 <= b.1)%nat)
    (imap (fun i (x : TemplateSlot) => ((n + i)%nat, x)) roster)); [intros H; apply (H O)|].
  induction roster as [|x roster IH]; intros n; cbn; [constructor|].
  constructor.
  - erewrite imap_ext; [apply (IH (S n))|]. intros i y _. cbn. f_equal. lia.
  - apply Forall_forall. intros [i y] (j & z & [= -> ->] & _)%elem_of_lookup_imap. cbn. lia.
Qed.

Lemma ordered_slots_eq roster order :
  ordered_slots roster order = ordered_named roster order
    ++ List.filter (fun slot => negb (ref_in (ordered_named roster order) slot)) (roster_refs roster).
Proof. apply append_missing, refs_NoDup. Qed.

Lemma elem_of_named roster order ref :
  ref ∈ ordered_named roster order <-> ref ∈ roster_refs roster /\ ts_SlotId ref.2 ∈ order.
Proof.
  unfold ordered_named. rewrite !list_elem_of_In, in_flat_map. setoid_rewrite filter_In.
  setoid_rewrite String.eqb_eq. split.
  - by intros (id & Hid & Hr & ->).
  - intros [Hr Hid]. by exists (ts_SlotId ref.2).
Qed.

Lemma refs_unique roster a b :
  a ∈ roster_refs roster -> b ∈ roster_refs roster -> a.1 = b.1 -> a = b.
Proof. eapply NoDup_fmap_elem, refs_NoDup. Qed.

Lemma ref_in_named roster order ref :
  ref ∈ roster_refs roster ->
  ref_in (ordered_named roster order) ref = bool_decide (ts_SlotId ref.2 ∈ order).
Proof.
  intros Hr. apply eq_true_iff_eq. rewrite ref_in_spec, bool_decide_eq_true, list_elem_of_fmap. split.
  - intros (x & Hx & Hin). apply elem_of_named in Hin as [Hin Hid].
    by rewrite (refs_unique roster ref x Hr Hin Hx).
  - intros Hid. exists ref. split; [done|]. by apply elem_of_named.
Qed.

Lemma elem_of_ordered roster order ref :
  ref ∈ ordered_slots roster order <-> ref ∈ roster_refs roster.
Proof.
  rewrite ordered_slots_eq, elem_of_app, elem_of_named, (list_elem_of_In (List.filter _ _)), filter_In,
    <- (list_elem_of_In (roster_refs roster)).
  split; [tauto|]. intros Hr. rewrite (ref_in_named _ _ _ Hr).
  case_bool_decide; cbn; auto.
Qed.

(** ** The order of the slots *)

Lemma position_lt slotId order : (position slotId order < length order)%nat <-> slotId ∈ order.
Proof.
  induction order as [|id order IH]; cbn; [split; [lia|by intros ?%elem_of_nil]|].
  rewrite elem_of_cons. destruct (String.eqb_spec id slotId) as [->|Hne]; [split; [auto|lia]|].
  split; intros H; [right; apply IH; lia|]. destruct H as [->|H]; [done|]. apply IH in H. lia.
Qed.

Lemma position_app slotId pre order :
  ~ slotId ∈ pre -> position slotId (pre ++ slotId :: order) = length pre.
Proof.
  induction pre as [|id pre IH]; cbn; [by rewrite String.eqb_refl|]. intros H.
  apply not_elem_of_cons in H as [Hne H]. destruct (String.eqb_spec id slotId); [congruence|].
  by rewrite IH.
Qed.

Notation by_disruption order :=
  (StronglySorted (fun a b => (disruption order a <= disruption order b)%nat)).

Lemma sorted_app {A} (R : relation A) l m :
  StronglySorted R l -> StronglySorted R m -> (forall x y, x ∈ l -> y ∈ m -> R x y) ->
  StronglySorted R (l ++ m).
Proof.
  induction 1 as [|x l Hl IH Hx]; cbn; intros Hm HR; [done|]. constructor.
  - apply IH; [done|]. intros y z Hy. apply HR. by right.
  - apply Forall_app. split; [done|]. apply Forall_forall. intros y Hy. apply HR; [left|done].
Qed.

(** A list on which a measure is constant is sorted by it. *)
Lemma sorted_const {A} (f : A -> nat) n l :
  Forall (fun x => f x = n) l -> StronglySorted (fun a b => (f a <= f b)%nat) l.
Proof.
  induction 1 as [|x l Hx Hl IH]; constructor; [done|].
  eapply Forall_impl; [exact Hl|]. cbn. lia.
Qed.

Lemma disruption_named order pre id suffix slot :
  NoDup order -> order = pre ++ id :: suffix -> ts_SlotId slot.2 = id ->
  disruption order slot = length pre.
Proof.
  intros Hn -> Hid. unfold disruption. rewrite Hid, position_app.
  - rewrite length_app, (proj2 (Nat.ltb_lt _ _)); [done|]. cbn. lia.
  - apply NoDup_app in Hn as (_ & Hd & _). intros Hin. apply (Hd id Hin). left.
Qed.

Lemma named_sorted roster order suffix : forall pre,
  NoDup order -> order = pre ++ suffix ->
  by_disruption order (ordered_named roster suffix) /\
  Forall (fun slot => (length pre <= disruption order slot)%nat) (ordered_named roster suffix).
Proof.
  induction suffix as [|id suffix IH]; intros pre Hn Ho; cbn; [done || split; constructor|].
  destruct (IH (pre ++ [id]) Hn) as [Hs Hb]; [by rewrite <- app_assoc|].
  rewrite length_app in Hb. cbn in Hb.
  assert (Hc : Forall (fun slot => disruption order slot = length pre)
    (List.filter (fun slot : SlotRef => String.eqb (ts_SlotId slot.2) id) (roster_refs roster))).
  { apply Forall_forall. intros slot Hslot. apply list_elem_of_In, filter_In in Hslot as [_ Hid].
    apply String.eqb_eq in Hid. by eapply disruption_named. }
  split.
  - apply sorted_app; [by eapply sorted_const|done|].
    rewrite Forall_forall in Hb, Hc. intros x y Hx Hy. rewrite (Hc x Hx). specialize (Hb y Hy). cbn in Hb. lia.
  - apply Forall_app. split; (eapply Forall_impl; [eassumption|]); cbn; lia.
Qed.

Lemma ordered_slots_sorted roster order :
  NoDup order -> by_disruption order (ordered_slots roster order).
Proof.
  intros Hn. rewrite ordered_slots_eq.
  assert (Hrest : forall x, x ∈ List.filter (fun slot => negb (ref_in (ordered_named roster order) slot))
      (roster_refs roster) -> disruption order x = (length order + x.1)%nat).
  { intros x Hx. apply list_elem_of_In, filter_In in Hx as [Hx Hr]. apply list_elem_of_In in Hx.
    rewrite ref_in_named in Hr by done. apply negb_true_iff, bool_decide_eq_false in Hr.
    unfold disruption. rewrite (proj2 (Nat.ltb_ge _ _)); [done|].
    rewrite <- position_lt in Hr. lia. }
  apply sorted_app; [by apply (named_sorted roster order order [])| |].
  - revert Hrest. pose proof (refs_sorted roster) as Hs. induction Hs as [|x l Hs IH Hx]; cbn; [constructor|].
    destruct (negb _); intros Hrest; [|by apply IH].
    constructor; [apply IH; intros; apply Hrest; by right|].
    apply Forall_forall. intros y Hy. rewrite (Hrest x), (Hrest y) by (by left || by right).
    apply list_elem_of_In, filter_In in Hy as [Hy _]. apply list_elem_of_In in Hy.
    rewrite Forall_forall in Hx. specialize (Hx y Hy). cbn in Hx. lia.
  - intros x y Hx Hy. rewrite (Hrest y Hy). apply elem_of_named in Hx as [_ Hx].
    apply position_lt in Hx. unfold disruption.
    rewrite (proj2 (Nat.ltb_lt _ _)) by done. lia.
Qed.

(** ** The choices *)

Section Choices.
Context (roster : list TemplateSlot) (order : list string).
Hypothesis Hroster : roster_ok roster.
Hypothesis Horder : NoDup order.

Notation free taken slot := (negb (bool_decide (ts_SlotId (snd slot) ∈ taken))).

Lemma ref_id_nonempty ref : ref ∈ roster_refs roster -> ts_SlotId ref.2 <> ""%string.
Proof using Hroster.
  destruct ref as [i slot]. intros H%elem_of_refs E. destruct Hroster as [_ Hne]. apply Hne.
  rewrite <- E. apply list_elem_of_fmap_2. by eapply list_elem_of_lookup_2.
Qed.

Lemma pick_spec taken P ordered :
  by_disruption order ordered -> (forall ref, ref ∈ ordered -> ts_SlotId ref.2 <> ""%string) ->
  pick ordered taken P = ""%string /\
    Forall (fun ref => (free taken ref && P (snd ref)) = false) ordered \/
  exists slot, slot ∈ ordered /\ pick ordered taken P = ts_SlotId slot.2 /\
    pick ordered taken P <> ""%string /\ (free taken slot && P (snd slot)) = true /\
    forall other, other ∈ ordered -> (free taken other && P (snd other)) = true ->
      (disruption order slot <= disruption order other)%nat.
Proof using.
  induction 1 as [|x l Hl IH Hx]; intros Hne; cbn; [by left|].
  destruct (free taken x && P x.2) eqn:E.
  - right. exists x. split; [by left|]. do 2 (split; [done || by apply Hne; left|]).
    split; [done|]. intros other [->|Ho]%elem_of_cons _; [done|].
    rewrite Forall_forall in Hx. by apply Hx.
  - destruct IH as [[H1 H2]|(slot & Hin & Heq & Hn & Hs & Hmin)].
    + intros ref Hr. apply Hne. by right.
    + left. by repeat constructor.
    + right. exists slot. split; [by right|]. do 3 (split; [done|]).
      intros other [->|Ho]%elem_of_cons; [by rewrite E|by apply Hmin].
Qed.

Lemma free_true (taken : gset string) (ref : SlotRef) P :
  (free taken ref && P) = true <-> ~ ts_SlotId ref.2 ∈ taken /\ P = true.
Proof using. rewrite andb_true_iff, negb_true_iff, bool_decide_eq_false. done. Qed.

Lemma free_false (taken : gset string) (ref : SlotRef) P :
  (free taken ref && P) = false <-> (~ ts_SlotId ref.2 ∈ taken -> P = false).
Proof using.
  rewrite <- not_true_iff_false, free_true. destruct P; split; intros H; try done.
  - intros Hf. by destruct H.
  - intros [Hf _]. by specialize (H Hf).
  - by intros [_ ?].
Qed.

(** All free slots are of tier [k] at least. *)
Definition from_tier (taken : gset string) (role : string) (k : nat) : Prop :=
  forall other, other ∈ roster_refs roster -> ~ ts_SlotId other.2 ∈ taken ->
    (k <= tier role other.2)%nat.

(** One search: it finds the best slot of tier [k], or there is none. *)
Lemma pick_tier taken role k P :
  from_tier taken role k ->
  (forall slot, (k <= tier role slot)%nat -> P slot = true <-> tier role slot = k) ->
  let slotId := pick (ordered_slots roster order) taken P in
  slotId = ""%string /\ from_tier taken role (S k) \/
  slotId <> ""%string /\
    exists slot, slotId = ts_SlotId slot.2 /\ BestSlot roster order taken role slot.
Proof using Hroster Horder.
  unfold from_tier, BestSlot. setoid_rewrite <- (elem_of_ordered roster order). intros Hk HP.
  destruct (pick_spec taken P _ (ordered_slots_sorted roster order Horder))
    as [[-> H0]|(slot & Hin & -> & Hn & [Hf Hp]%free_true & Hmin)].
  - intros x Hx. apply ref_id_nonempty. by rewrite <- elem_of_ordered.
  - left. split; [done|]. intros other Ho Hof. rewrite Forall_forall in H0.
    specialize (H0 other Ho). cbn in H0. apply free_false in H0; [|done].
    apply not_true_iff_false in H0. rewrite HP in H0 by auto. specialize (Hk other Ho Hof). lia.
  - right. split; [by apply ref_id_nonempty, (elem_of_ordered roster order)|].
    exists slot. do 3 (split; [done|]). intros other Ho Hof.
    specialize (Hk other Ho Hof) as Hko. apply HP in Hp; [|by apply Hk]. rewrite Hp.
    destruct (decide (tier role other.2 = k)) as [E|]; [right|left; lia].
    split; [done|]. apply Hmin; [done|]. apply free_true. split; [done|]. by apply HP.
Qed.

(** The three searches find the best free slot. *)
Lemma pick_role_best taken role :
  (exists ref, ref ∈ roster_refs roster /\ ~ ts_SlotId ref.2 ∈ taken) ->
  pick_role (ordered_slots roster order) taken role <> ""%string /\
  exists slot, pick_role (ordered_slots roster order) taken role = ts_SlotId slot.2 /\
    BestSlot roster order taken role slot.
Proof using Hroster Horder.
  intros (ref & Hr & Hfree). unfold pick_role.
  destruct (pick_tier taken role 0 (fun slot => String.eqb (ts_Role slot) role)) as [[-> H1]|[Hn Hs]].
  { intros other _ _. lia. }
  { intros slot _. unfold tier. by repeat split_guard. }
  2:{ by rewrite !(proj2 (String.eqb_neq _ _) Hn : str_empty _ = false). }
  change (str_empty "") with true. cbv iota.
  destruct (pick_tier taken role 1 (fun slot => String.eqb (ts_Role slot) "dps")) as [[-> H2]|[Hn Hs]].
  { done. }
  { intros slot. unfold tier. repeat split_guard; done || lia. }
  2:{ by rewrite (proj2 (String.eqb_neq _ _) Hn : str_empty _ = false). }
  change (str_empty "") with true. cbv iota.
  destruct (pick_tier taken role 2 (fun slot => true)) as [[_ H3]|H]; [done| | |done].
  { intros slot. unfold tier. repeat split_guard; done || lia. }
  specialize (H3 ref Hr Hfree). unfold tier in H3. repeat split_guard_in H3; lia.
Qed.

(** The choices of a list of humans, one after the other. *)
Fixpoint BestSlots (taken : gset string) (roles : list string) (slots : list SlotRef) : Prop :=
  match roles, slots with
  | [], [] => True
  | role :: roles, slot :: slots =>
      BestSlot roster order taken role slot /\
      BestSlots ({[ ts_SlotId slot.2 ]} ∪ taken) roles slots
  | _, _ => False
  end.

(** As long as fewer ids are taken than the roster has, a slot is free. *)
Lemma free_slot (taken : gset string) :
  (size taken < length roster)%nat ->
  exists ref, ref ∈ roster_refs roster /\ ~ ts_SlotId ref.2 ∈ taken.
Proof using Hroster.
  intros Hlt. destruct Hroster as [Hn _].
  destruct (decide (Forall (fun id => id ∈ taken) (ts_SlotId <$> roster))) as [Hall|Hnot].
  - exfalso. assert (Hsub : list_to_set (ts_SlotId <$> roster) ⊆ taken).
    { intros id Hid. apply elem_of_list_to_set in Hid. rewrite Forall_forall in Hall. by apply Hall. }
    apply subseteq_size in Hsub. rewrite size_list_to_set, length_fmap in Hsub by done. lia.
  - apply not_Forall_Exists in Hnot; [|apply _]. apply Exists_exists in Hnot as (id & Hid & Hf).
    apply list_elem_of_fmap in Hid as (slot & -> & Hin).
    apply list_elem_of_lookup in Hin as [i Hi]. exists (i, slot). split; [by apply elem_of_refs|done].
Qed.

Lemma choose_best roles : forall taken chosen,
  (size taken + length roles < length roster)%nat ->
  exists slots, choose (ordered_slots roster order) taken chosen roles
      = (chosen ++ ((fun ref => ts_SlotId ref.2) <$> slots), None) /\
    BestSlots taken roles slots.
Proof using Hroster Horder.
  induction roles as [|role roles IH]; intros taken chosen Hlt; cbn in *.
  - exists []. by rewrite app_nil_r.
  - destruct (pick_role_best taken role) as (Hn & slot & Heq & Hbest); [apply free_slot; lia|].
    rewrite (proj2 (String.eqb_neq _ _) Hn : str_empty _ = false), Heq.
    destruct (IH ({[ ts_SlotId slot.2 ]} ∪ taken) (chosen ++ [ts_SlotId slot.2])) as (slots & Hc & Hb).
    { rewrite size_union, size_singleton; [lia|]. destruct Hbest as (_ & Hf & _). set_solver. }
    exists (slot :: slots). cbn. rewrite Hc, <- app_assoc. done.
Qed.

Lemma BestSlots_distinct roles : forall taken slots,
  BestSlots taken roles slots ->
  length slots = length roles /\ NoDup ((fun ref => ts_SlotId ref.2) <$> slots) /\
  Forall (fun ref => ref ∈ roster_refs roster /\ ~ ts_SlotId ref.2 ∈ taken) slots.
Proof using.
  clear Hroster Horder. induction roles as [|role roles IH]; intros taken [|slot slots]; cbn; try done; [by repeat constructor|].
  intros [(Hr & Hf & _) (Hl & Hn & Hall)%IH]. split_and!; [by rewrite Hl| |].
  - constructor; [|done]. intros (ref & Heq & Hin)%list_elem_of_fmap.
    rewrite Forall_forall in Hall. destruct (Hall ref Hin) as [_ Hnot]. set_solver.
  - constructor; [done|]. eapply Forall_impl; [exact Hall|]. cbn. set_solver.
Qed.
End Choices.

(** When fewer humans than roster slots join, each gets a slot of its own,
    and the best one still free at its turn: of its role, else a damage slot,
    else any, the least disruptive first; at least one bot remains. Otherwise
    the request is refused and nobody is displaced. *)
Theorem ChooseExternalSlots_best roster humanRoles order :
  roster_ok roster -> NoDup order -> humanRoles <> [] ->
  ((length humanRoles < length roster)%nat ->
   exists slots, ChooseExternalSlots roster humanRoles order
       = ((fun ref => ts_SlotId ref.2) <$> slots, None) /\
     BestSlots roster order ∅ humanRoles slots /\
     length slots = length humanRoles /\ NoDup ((fun ref => ts_SlotId ref.2) <$> slots) /\
     exists bot, bot ∈ roster /\ ~ ts_SlotId bot ∈ ((fun ref => ts_SlotId ref.2) <$> slots)) /\
  ((length roster <= length humanRoles)%nat ->
   ChooseExternalSlots roster humanRoles order
     = ([], Some "play_requires_at_least_one_bot"%string)).
Proof.
  intros Hr Ho Hne. unfold ChooseExternalSlots.
  destruct humanRoles as [|role roles] eqn:E; [done|]. rewrite <- E. clear Hne. split; intros Hlt.
  - rewrite (proj2 (Nat.leb_gt _ _)) by done.
    destruct (choose_best roster order Hr Ho humanRoles ∅ []) as (slots & Hc & Hb).
    { by rewrite size_empty. }
    exists slots. destruct (BestSlots_distinct roster order humanRoles ∅ slots Hb) as (Hl & Hn & Hall).
    do 4 (split; [done|]).
    destruct (free_slot roster Hr (list_to_set ((fun ref : SlotRef => ts_SlotId ref.2) <$> slots)))
      as ([i bot] & Hin & Hf).
    { by rewrite size_list_to_set, length_fmap, Hl. }
    exists bot. rewrite elem_of_list_to_set in Hf. split; [|done].
    apply elem_of_refs in Hin. by eapply list_elem_of_lookup_2.
  - by rewrite (proj2 (Nat.leb_le _ _)).
Qed.

Definition magmaw_roster : list TemplateSlot :=
  [mkSlot "raid_tank_1" "tank" "blood_dk"; mkSlot "raid_healer_1" "healer" "holy_paladin";
   mkSlot "raid_dps_1" "dps" "fire_mage"; mkSlot "raid_dps_5" "dps" "elemental_shaman"]%string.

Lemma ChooseExternalSlots_best_witness :
  let order := DisruptionOrder "blackwing_descent_10n_magmaw_diagnostic" in
  ChooseExternalSlots magmaw_roster ["dps"; "healer"; "tank"]%string order
    = (["raid_dps_5"; "raid_healer_1"; "raid_tank_1"]%string, None) /\
  (exists slots, ChooseExternalSlots magmaw_roster ["dps"; "healer"; "tank"]%string order
       = ((fun ref => ts_SlotId ref.2) <$> slots, None) /\
     BestSlots magmaw_roster order ∅ ["dps"; "healer"; "tank"]%string slots /\
     length slots = 3%nat /\ NoDup ((fun ref => ts_SlotId ref.2) <$> slots) /\
     exists bot, bot ∈ magmaw_roster /\ ~ ts_SlotId bot ∈ ((fun ref => ts_SlotId ref.2) <$> slots)).
Proof.
  split; [vm_compute; reflexivity|].
  apply (ChooseExternalSlots_best magmaw_roster ["dps"; "healer"; "tank"]%string
    (DisruptionOrder "blackwing_descent_10n_magmaw_diagnostic")).
  - split; [|by apply (bool_decide_unpack _); vm_compute].
    apply (bool_decide_unpack _). vm_compute. exact I.
  - apply (bool_decide_unpack _). vm_compute. exact I.
  - discriminate.
  - cbn. lia.
Defined.
