(* ===== verification/SpellQueue.v ===== *)
(** The bots' spell queue: [Bots/BotSpellQueue.h], [Bots/BotSpellQueue.cpp] and
    [Bots/BotSpellQueueNativeLock.cpp]. *)
From S2P Require Import Prelude.
From Stdlib Require Import ZArith Lia String.
From stdpp Require Import base gmap list strings sorting.

Open Scope Z_scope.
Open Scope tc_scope.

(** ** Native locks *)

Definition MaxWaitMs : Z := 3000.
Definition RegenerationPollMs : Z := 100.
Definition CombatDecisionIntervalMs : Z := 100.
Definition PausedReleaseGapMs : Z := 5 * CombatDecisionIntervalMs.

Record NativeLock : Type := mkLock {
  nl_GlobalCooldownEndsAtMs : Z; nl_CastEndsAtMs : Z; nl_ChannelEndsAtMs : Z }.

Definition ReleaseAtMs (lock : NativeLock) : Z :=
  Z.max (Z.max (nl_GlobalCooldownEndsAtMs lock) (nl_CastEndsAtMs lock)) (nl_ChannelEndsAtMs lock).

Definition Locked (lock : NativeLock) (nowMs : Z) : bool := nowMs <? ReleaseAtMs lock.

Definition Casting (lock : NativeLock) (nowMs : Z) : bool :=
  (nowMs <? nl_CastEndsAtMs lock) || (nowMs <? nl_ChannelEndsAtMs lock).

Definition LockRetryAtMs (lock : NativeLock) (nowMs : Z) : Z :=
  if negb (Locked lock nowMs) then nowMs +64 RegenerationPollMs
  else if Casting lock nowMs then Z.min (ReleaseAtMs lock) (nowMs +64 CombatDecisionIntervalMs)
  else nl_GlobalCooldownEndsAtMs lock.

(** What a player shows of its current spells: the remaining global cooldown of
    the probe spell, when there is one, and the remaining time (an [int32]) of
    a generic cast being prepared and of a channel. *)
Record LockView : Type := mkLockView {
  lv_RemainingGlobalCooldown : option Z;
  lv_PreparingCast : option Z;
  lv_ActiveChannel : option Z
}.

Definition cast_ends (remaining : option Z) (nowMs : Z) : Z :=
  match remaining with
  | Some remaining => if 0 <? remaining then nowMs +64 u32 remaining +64 1 else 0
  | None => 0
  end.

Definition ObserveNativeLock (bot : option LockView) (nowMs : Z) : NativeLock :=
  match bot with
  | None => mkLock 0 0 0
  | Some bot =>
      mkLock
        (match lv_RemainingGlobalCooldown bot with
         | Some remaining => if nz remaining then nowMs +64 remaining +64 1 else 0
         | None => 0
         end)
        (cast_ends (lv_PreparingCast bot) nowMs) (cast_ends (lv_ActiveChannel bot) nowMs)
  end.

Definition IsRegenerationWaitReason (reason : string) : bool :=
  existsb (String.eqb reason)
    ["insufficient_resource"; "cooldown_not_ready"; "cooldown_group_not_aligned";
     "insufficient_combo_points"; "global_cooldown"; "already_casting"]%string.

(** ** The queue *)

Record Entry : Type := mkEntry {
  en_Key : string; en_Reason : string; en_Priority : Z;
  en_ReadyAtMs : Z; en_QueuedAtMs : Z; en_Serial : Z }.

Definition ReleasedLater (left right : Entry) : bool :=
  if negb (en_ReadyAtMs left =? en_ReadyAtMs right) then en_ReadyAtMs right <? en_ReadyAtMs left
  else if negb (en_Priority left =? en_Priority right) then en_Priority left <? en_Priority right
  else en_Serial right <? en_Serial left.

(** [a] surfaces before [b]. *)
Definition before (a b : Entry) : bool := ReleasedLater b a.

(** The [std::priority_queue] is the list of its entries in the order they
    surface: serials are distinct, so that order does not depend on the heap. *)
Record Queue : Type := mkQueue {
  _pending : list Entry;
  _currentSerialByKey : gmap string Z;
  _nextSerial : Z;
  _scheduled : Z;
  _released : Z;
  _releasedAfterPause : Z;
  _lastReleaseCheckMs : Z;
  _totalReleaseLatencyMs : Z;
  _maxReleaseLatencyMs : Z;
  _lastReleasedKey : string;
  _lastReleasedReason : string
}.

Definition Queue_default : Queue := mkQueue [] ∅ 0 0 0 0 0 0 0 "" "".

Definition push (entry : Entry) (pending : list Entry) : list Entry :=
  sort_insert before entry pending.

Definition is_current (current : gmap string Z) (entry : Entry) : bool :=
  bool_decide (current !! en_Key entry = Some (en_Serial entry)).

Definition IsCurrent (q : Queue) (entry : Entry) : bool := is_current (_currentSerialByKey q) entry.

Definition set_pending (pending : list Entry) (q : Queue) : Queue :=
  mkQueue pending (_currentSerialByKey q) (_nextSerial q) (_scheduled q) (_released q)
    (_releasedAfterPause q) (_lastReleaseCheckMs q) (_totalReleaseLatencyMs q)
    (_maxReleaseLatencyMs q) (_lastReleasedKey q) (_lastReleasedReason q).

Definition DropSuperseded (q : Queue) : Queue :=
  let current := List.filter (IsCurrent q) (_pending q) in
  set_pending (foldl (fun pending entry => push entry pending) [] current) q.

(** The part of [Queue::Schedule] before the compaction. *)
Definition enqueue (key reason : string) (priority readyAtMs nowMs : Z) (q : Queue) : Queue :=
  let serial := _nextSerial q +64 1 in
  let entry := mkEntry key reason priority
    (Z.min (Z.max readyAtMs nowMs) (nowMs +64 MaxWaitMs)) nowMs serial in
  mkQueue (push entry (_pending q)) (<[key := serial]> (_currentSerialByKey q)) serial
    (_scheduled q +64 1) (_released q) (_releasedAfterPause q) (_lastReleaseCheckMs q)
    (_totalReleaseLatencyMs q) (_maxReleaseLatencyMs q) (_lastReleasedKey q) (_lastReleasedReason q).

Definition Schedule (key reason : string) (priority readyAtMs nowMs : Z) (q : Queue) : Queue :=
  let q := enqueue key reason priority readyAtMs nowMs q in
  if (4 * size (_currentSerialByKey q) + 8 <? length (_pending q))%nat then DropSuperseded q else q.

(** The bookkeeping of one released intent. *)
Definition Released (resumedAfterPause : bool) (nowMs : Z) (top : Entry) (q : Queue) : Queue :=
  let latencyMs := nowMs -64 en_ReadyAtMs top in
  mkQueue (_pending q) (delete (en_Key top) (_currentSerialByKey q)) (_nextSerial q) (_scheduled q)
    (_released q +64 1)
    (if resumedAfterPause then _releasedAfterPause q +64 1 else _releasedAfterPause q)
    (_lastReleaseCheckMs q)
    (if resumedAfterPause then _totalReleaseLatencyMs q else _totalReleaseLatencyMs q +64 latencyMs)
    (if resumedAfterPause then _maxReleaseLatencyMs q else Z.max (_maxReleaseLatencyMs q) latencyMs)
    (en_Key top) (en_Reason top).

(** The loop over the entries that are due. *)
Fixpoint ReleaseDue_loop (resumedAfterPause : bool) (nowMs released : Z) (pending : list Entry)
    (q : Queue) : Z * Queue :=
  match pending with
  | [] => (released, set_pending [] q)
  | top :: rest =>
      if en_ReadyAtMs top <=? nowMs then
        if IsCurrent q top
        then ReleaseDue_loop resumedAfterPause nowMs (released +32 1) rest
               (Released resumedAfterPause nowMs top q)
        else ReleaseDue_loop resumedAfterPause nowMs released rest q
      else (released, set_pending pending q)
  end.

Definition ReleaseDue (nowMs : Z) (q : Queue) : Z * Queue :=
  let resumedAfterPause := nz (_lastReleaseCheckMs q)
    && (_lastReleaseCheckMs q +64 PausedReleaseGapMs <? nowMs) in
  let q := mkQueue (_pending q) (_currentSerialByKey q) (_nextSerial q) (_scheduled q)
    (_released q) (_releasedAfterPause q) nowMs (_totalReleaseLatencyMs q)
    (_maxReleaseLatencyMs q) (_lastReleasedKey q) (_lastReleasedReason q) in
  ReleaseDue_loop resumedAfterPause nowMs 0 (_pending q) q.

(** The loop that discards superseded entries from the top. *)
Fixpoint drop_superseded (current : gmap string Z) (pending : list Entry) : list Entry :=
  match pending with
  | top :: rest => if is_current current top then pending else drop_superseded current rest
  | [] => []
  end.

Definition Surface (q : Queue) : Queue :=
  set_pending (drop_superseded (_currentSerialByKey q) (_pending q)) q.

Definition WakeDelayMs (nowMs currentTimerMs : Z) (q : Queue) : Z * Queue :=
  let q := Surface q in
  match _pending q with
  | [] => (currentTimerMs, q)
  | top :: _ =>
      let readyAtMs := en_ReadyAtMs top in
      let delayMs := if nowMs <? readyAtMs then readyAtMs -64 nowMs else 1 in
      (u32 (Z.max 1 (Z.min currentTimerMs delayMs)), q)
  end.

Definition Clear (q : Queue) : Queue :=
  if list_is_empty (_pending q) && bool_decide (_currentSerialByKey q = ∅) then q
  else mkQueue [] ∅ (_nextSerial q) (_scheduled q) (_released q) (_releasedAfterPause q)
    (_lastReleaseCheckMs q) (_totalReleaseLatencyMs q) (_maxReleaseLatencyMs q)
    (_lastReleasedKey q) (_lastReleasedReason q).

Definition Empty (q : Queue) : bool * Queue :=
  let q := Surface q in (list_is_empty (_pending q), q).

(** ** The operations as a client calls them *)

Inductive Op : Type :=
| OSchedule (key reason : string) (priority readyAtMs nowMs : Z)
| OReleaseDue (nowMs : Z)
| OWakeDelayMs (nowMs currentTimerMs : Z)
| OClear
| OEmpty.

Inductive Out : Type :=
| Unit
| Number (n : Z)
| Truth (b : bool).

Definition step (op : Op) (q : Queue) : Out * Queue :=
  match op with
  | OSchedule key reason priority readyAtMs nowMs =>
      (Unit, Schedule key reason priority readyAtMs nowMs q)
  | OReleaseDue nowMs => let '(n, q) := ReleaseDue nowMs q in (Number n, q)
  | OWakeDelayMs nowMs timer => let '(n, q) := WakeDelayMs nowMs timer q in (Number n, q)
  | OClear => (Unit, Clear q)
  | OEmpty => let '(b, q) := Empty q in (Truth b, q)
  end.

Fixpoint run {S} (step : Op -> S -> Out * S) (ops : list Op) (s : S) : list Out * S :=
  match ops with
  | [] => ([], s)
  | op :: ops =>
      let '(out, s) := step op s in
      let '(outs, s) := run step ops s in (out :: outs, s)
  end.

(** ** The specification

    A queue is the list of its current intents, one per key, in the order
    they surface; its counters are unbounded integers. *)

Record Spec : Type := mkSpec {
  sp_intents : list Entry;
  sp_serial : Z;
  sp_scheduled : Z;
  sp_released : Z;
  sp_releasedAfterPause : Z;
  sp_lastCheckMs : Z;
  sp_totalLatencyMs : Z;
  sp_maxLatencyMs : Z;
  sp_last : option Entry
}.

Definition Spec_default : Spec := mkSpec [] 0 0 0 0 0 0 0 None.

Definition due (nowMs : Z) (e : Entry) : bool := en_ReadyAtMs e <=? nowMs.

Definition spec_Schedule (key reason : string) (priority readyAtMs nowMs : Z) (s : Spec) : Spec :=
  let e := mkEntry key reason priority
    (Z.min (Z.max readyAtMs nowMs) (nowMs + MaxWaitMs)) nowMs (sp_serial s + 1) in
  mkSpec
    (sort_insert before e
       (List.filter (fun e => negb (String.eqb (en_Key e) key)) (sp_intents s)))
    (sp_serial s + 1) (sp_scheduled s + 1) (sp_released s) (sp_releasedAfterPause s)
    (sp_lastCheckMs s) (sp_totalLatencyMs s) (sp_maxLatencyMs s) (sp_last s).

Definition sum_list (l : list Z) : Z := foldr Z.add 0 l.

(** All intents that are due go, and the counters follow. *)
Definition spec_release (resumed : bool) (nowMs : Z) (s : Spec) : Spec :=
  let ready := List.filter (due nowMs) (sp_intents s) in
  let n := Z.of_nat (length ready) in
  let lateness := (fun e => nowMs - en_ReadyAtMs e) <$> ready in
  mkSpec (List.filter (fun e => negb (due nowMs e)) (sp_intents s)) (sp_serial s) (sp_scheduled s)
    (sp_released s + n)
    (if resumed then sp_releasedAfterPause s + n else sp_releasedAfterPause s)
    (sp_lastCheckMs s)
    (if resumed then sp_totalLatencyMs s else sp_totalLatencyMs s + sum_list lateness)
    (if resumed then sp_maxLatencyMs s else foldl Z.max (sp_maxLatencyMs s) lateness)
    (match last ready with Some e => Some e | None => sp_last s end).

Definition spec_check (nowMs : Z) (s : Spec) : Spec :=
  mkSpec (sp_intents s) (sp_serial s) (sp_scheduled s) (sp_released s) (sp_releasedAfterPause s)
    nowMs (sp_totalLatencyMs s) (sp_maxLatencyMs s) (sp_last s).

Definition spec_ReleaseDue (nowMs : Z) (s : Spec) : Z * Spec :=
  let resumed := nz (sp_lastCheckMs s) && (sp_lastCheckMs s + PausedReleaseGapMs <? nowMs) in
  (Z.of_nat (length (List.filter (due nowMs) (sp_intents s))),
   spec_release resumed nowMs (spec_check nowMs s)).

Definition spec_WakeDelayMs (nowMs timer : Z) (s : Spec) : Z :=
  match head (sp_intents s) with
  | None => timer
  | Some e => Z.max 1 (Z.min timer (en_ReadyAtMs e - nowMs))
  end.

Definition spec_Clear (s : Spec) : Spec :=
  mkSpec [] (sp_serial s) (sp_scheduled s) (sp_released s) (sp_releasedAfterPause s)
    (sp_lastCheckMs s) (sp_totalLatencyMs s) (sp_maxLatencyMs s) (sp_last s).

Definition spec_step (op : Op) (s : Spec) : Out * Spec :=
  match op with
  | OSchedule key reason priority readyAtMs nowMs =>
      (Unit, spec_Schedule key reason priority readyAtMs nowMs s)
  | OReleaseDue nowMs => let '(n, s) := spec_ReleaseDue nowMs s in (Number n, s)
  | OWakeDelayMs nowMs timer => (Number (spec_WakeDelayMs nowMs timer s), s)
  | OClear => (Unit, spec_Clear s)
  | OEmpty => (Truth (list_is_empty (sp_intents s)), s)
  end.

(** Times a call may carry: clocks below the wrap by the longest wait. *)
Definition op_ok (op : Op) : Prop :=
  match op with
  | OSchedule _ _ _ readyAtMs nowMs =>
      0 <= readyAtMs < 2 ^ 64 /\ 0 <= nowMs < 2 ^ 64 - MaxWaitMs
  | OReleaseDue nowMs => 0 <= nowMs < 2 ^ 64 - MaxWaitMs
  | OWakeDelayMs nowMs timer => 0 <= nowMs < 2 ^ 64 - MaxWaitMs /\ 0 <= timer < 2 ^ 32
  | OClear | OEmpty => True
  end.

(** ** The order of the queue *)

Lemma before_spec a b :
  before a b = true <->
  en_ReadyAtMs a < en_ReadyAtMs b \/
  en_ReadyAtMs a = en_ReadyAtMs b /\
  (en_Priority b < en_Priority a \/
   en_Priority a = en_Priority b /\ en_Serial a < en_Serial b).
Proof. unfold before, ReleasedLater. repeat split_guard; b2p; lia. Qed.

Notation queue_sorted := (StronglySorted (fun a b => before a b = true)).

Lemma before_trans a b c : before a b = true -> before b c = true -> before a c = true.
Proof. rewrite !before_spec. lia. Qed.

Lemma before_false a b :
  en_Serial a <> en_Serial b -> before a b = false -> before b a = true.
Proof. rewrite <- not_true_iff_false, !before_spec. lia. Qed.

Lemma sorted_before_ready e l :
  Forall (fun x => before e x = true) l -> Forall (fun x => en_ReadyAtMs e <= en_ReadyAtMs x) l.
Proof. intros H. eapply Forall_impl; [exact H|]. intros x. rewrite before_spec. lia. Qed.

Lemma push_sorted e l :
  queue_sorted l -> ~ en_Serial e ∈ (en_Serial <$> l) -> queue_sorted (push e l).
Proof.
  unfold push. induction 1 as [|x l Hs IH Hx]; cbn; intros Hn; [by repeat constructor|].
  apply not_elem_of_cons in Hn as [Hne Hn]. destruct (before x e) eqn:E.
  - constructor; [by apply IH|]. rewrite sort_insert_perm. by constructor.
  - apply before_false in E; [|done]. constructor; [by constructor|].
    constructor; [done|]. eapply Forall_impl; [exact Hx|]. intros y. by apply before_trans.
Qed.

(** On a sorted queue, keeping some entries commutes with pushing one. *)
Lemma filter_push P e l :
  queue_sorted l ->
  List.filter P (push e l) = if P e then push e (List.filter P l) else List.filter P l.
Proof.
  unfold push. induction 1 as [|x l Hs IH Hx]; cbn; [by destruct (P e)|].
  destruct (before x e) eqn:E; cbn.
  - rewrite IH. destruct (P x), (P e); cbn; rewrite ?E; done.
  - destruct (P e) eqn:He, (P x) eqn:Hxe; cbn; rewrite ?E; try done.
    destruct (List.filter P l) as [|y l'] eqn:Hf; [done|]. cbn.
    assert (Hy : before x y = true).
    { rewrite Forall_forall in Hx. apply Hx, list_elem_of_In.
      apply (filter_In P y l). rewrite Hf. by left. }
    destruct (before y e) eqn:E'; [|done]. by rewrite (before_trans x y e) in E.
Qed.

Lemma foldl_push_sorted l : forall acc,
  queue_sorted (acc ++ l) -> foldl (fun p e => push e p) acc l = acc ++ l.
Proof.
  induction l as [|x l IH]; intros acc Hs; cbn; [by rewrite app_nil_r|].
  assert (Hp : push x acc = acc ++ [x]).
  { clear IH. unfold push. induction acc as [|y acc IH]; cbn; [done|].
    inversion_clear Hs as [|? ? Hs' Hy]. apply Forall_app in Hy as [_ Hy].
    inversion_clear Hy as [|? ? Hyx]. rewrite Hyx. f_equal. by apply IH. }
  rewrite Hp, IH; by rewrite <- app_assoc.
Qed.

(** ** The invariant of the lazy representation *)

Record Pending_ok (pending : list Entry) (current : gmap string Z) (serial : Z) : Prop := {
  po_sorted : queue_sorted pending;
  po_serials : NoDup (en_Serial <$> pending);
  po_bound : Forall (fun e => 1 <= en_Serial e <= serial) pending;
  po_ready : Forall (fun e => 0 <= en_ReadyAtMs e < 2 ^ 64) pending;
  po_current : forall k s, current !! k = Some s ->
    exists e, e ∈ pending /\ en_Key e = k /\ en_Serial e = s
}.

(** The intents behind a queue: its entries that no newer one supersedes. *)
Definition intents (current : gmap string Z) (pending : list Entry) : list Entry :=
  List.filter (is_current current) pending.

Definition Intents (q : Queue) : list Entry := intents (_currentSerialByKey q) (_pending q).

Lemma is_current_true current e :
  is_current current e = true <-> current !! en_Key e = Some (en_Serial e).
Proof. apply bool_decide_eq_true. Qed.

Lemma elem_of_intents current pending e :
  e ∈ intents current pending <-> e ∈ pending /\ current !! en_Key e = Some (en_Serial e).
Proof. rewrite !list_elem_of_In. unfold intents. by rewrite filter_In, is_current_true. Qed.

(** Entries with one serial number are one entry. *)
Lemma po_unique pending current serial a b :
  Pending_ok pending current serial -> a ∈ pending -> b ∈ pending ->
  en_Serial a = en_Serial b -> a = b.
Proof. intros H. eapply NoDup_fmap_elem, H. Qed.

Lemma po_empty serial : Pending_ok [] ∅ serial.
Proof. split; try constructor. intros k s. by rewrite lookup_empty. Qed.

Lemma po_sub pending pending' current current' serial :
  Pending_ok pending current serial ->
  queue_sorted pending' -> pending' ⊆+ pending ->
  (forall k s, current' !! k = Some s -> current !! k = Some s) ->
  (forall e, e ∈ pending -> current' !! en_Key e = Some (en_Serial e) -> e ∈ pending') ->
  Pending_ok pending' current' serial.
Proof.
  intros [_ Hn Hb Hr Hc] Hs Hsub Hcur Hkeep. split; [done| | | |].
  - destruct (submseteq_Permutation _ _ Hsub) as [k Hk]. rewrite Hk, fmap_app in Hn.
    apply NoDup_app in Hn as [Hn _]. done.
  - rewrite Forall_forall in *. intros e He. by apply Hb, (elem_of_submseteq _ _ _ He Hsub).
  - rewrite Forall_forall in *. intros e He. by apply Hr, (elem_of_submseteq _ _ _ He Hsub).
  - intros k s H. destruct (Hc k s) as (e & He & <- & <-); [by apply Hcur|].
    exists e. split; [|done]. by apply Hkeep.
Qed.

Lemma po_push pending current serial e :
  Pending_ok pending current serial -> 0 <= serial ->
  en_Serial e = serial + 1 -> 0 <= en_ReadyAtMs e < 2 ^ 64 ->
  Pending_ok (push e pending) (<[en_Key e := serial + 1]> current) (serial + 1).
Proof.
  intros [Hs Hn Hb Hr Hc] H0 He Hre.
  assert (Hfresh : ~ en_Serial e ∈ (en_Serial <$> pending)).
  { rewrite list_elem_of_fmap. intros (x & Hx & Hin). rewrite Forall_forall in Hb.
    specialize (Hb x Hin). lia. }
  split.
  - by apply push_sorted.
  - unfold push. rewrite sort_insert_perm. cbn. by constructor.
  - unfold push. rewrite sort_insert_perm. constructor; [lia|].
    eapply Forall_impl; [exact Hb|]. cbn. lia.
  - unfold push. rewrite sort_insert_perm. by constructor.
  - intros k s. unfold push. setoid_rewrite sort_insert_perm.
    setoid_rewrite elem_of_cons. destruct (decide (en_Key e = k)) as [<-|Hk].
    + rewrite lookup_insert_eq. intros [= <-]. eauto.
    + rewrite lookup_insert_ne by done. intros H.
      destruct (Hc k s H) as (x & Hx & Hxk & Hxs). eauto.
Qed.

(** Scheduling supersedes the intent of the same key, whatever else is queued. *)
Lemma intents_push pending current serial e :
  Pending_ok pending current serial -> en_Serial e = serial + 1 ->
  intents (<[en_Key e := serial + 1]> current) (push e pending)
  = push e (List.filter (fun x => negb (String.eqb (en_Key x) (en_Key e)))
              (intents current pending)).
Proof.
  intros [Hs _ Hb _ _] He. unfold intents. rewrite filter_push by done.
  replace (is_current _ e) with true
    by (symmetry; apply is_current_true; by rewrite lookup_insert_eq, He).
  f_equal. clear Hs. induction Hb as [|x l Hx Hb IH]; cbn; [done|].
  rewrite IH. unfold is_current at 1. destruct (decide (en_Key e = en_Key x)) as [E|E].
  - rewrite <- E, lookup_insert_eq. rewrite bool_decide_false by (intros [=]; lia).
    destruct (is_current current x) eqn:Hcur; cbn; rewrite ?Hcur; [|done].
    by rewrite <- E, String.eqb_refl.
  - rewrite lookup_insert_ne by done. fold (is_current current x).
    destruct (is_current current x) eqn:Hcur; cbn; [|done].
    by rewrite (proj2 (String.eqb_neq _ _) (not_eq_sym E)).
Qed.

(** The scan that discards superseded entries changes no intent. *)
Lemma intents_intents current pending :
  intents current (intents current pending) = intents current pending.
Proof.
  apply filter_id, Forall_forall. intros x Hx%elem_of_intents. apply is_current_true, Hx.
Qed.

Lemma po_intents pending current serial :
  Pending_ok pending current serial -> Pending_ok (intents current pending) current serial.
Proof.
  intros H. apply (po_sub pending _ current _ _ H); [apply filter_sorted, H|apply filter_submseteq|done|].
  intros e He Hc. by apply elem_of_intents.
Qed.

(** ** The simulation *)

Record Sim (q : Queue) (s : Spec) : Prop := {
  sim_ok : Pending_ok (_pending q) (_currentSerialByKey q) (_nextSerial q);
  sim_intents : Intents q = sp_intents s;
  sim_serial : _nextSerial q = sp_serial s;
  sim_serial_pos : 0 <= sp_serial s;
  sim_scheduled : _scheduled q = u64 (sp_scheduled s);
  sim_released : _released q = u64 (sp_released s);
  sim_afterPause : _releasedAfterPause q = u64 (sp_releasedAfterPause s);
  sim_check : _lastReleaseCheckMs q = sp_lastCheckMs s;
  sim_check_bound : 0 <= sp_lastCheckMs s < 2 ^ 64 - MaxWaitMs;
  sim_total : _totalReleaseLatencyMs q = u64 (sp_totalLatencyMs s);
  sim_max : _maxReleaseLatencyMs q = sp_maxLatencyMs s;
  sim_last : _lastReleasedKey q = from_option en_Key EmptyString (sp_last s);
  sim_last_reason : _lastReleasedReason q = from_option en_Reason EmptyString (sp_last s)
}.

Lemma sim_default : Sim Queue_default Spec_default.
Proof. split; try done. apply po_empty. Qed.

Lemma u64_add_l x y : u64 x +64 y = u64 (x + y).
Proof. unfold u64. apply Zplus_mod_idemp_l. Qed.

Lemma u32_add_l x y : u32 x +32 y = u32 (x + y).
Proof. unfold u32. apply Zplus_mod_idemp_l. Qed.

(** Superseded entries may be dropped: the simulation sees only intents. *)
Lemma sim_set_pending pending q s :
  Sim q s -> Pending_ok pending (_currentSerialByKey q) (_nextSerial q) ->
  intents (_currentSerialByKey q) pending = Intents q -> Sim (set_pending pending q) s.
Proof. intros [] Hok Hi. split; cbn; try done. change (intents (_currentSerialByKey q) pending = sp_intents s). by rewrite Hi. Qed.

Lemma sim_DropSuperseded q s :
  Sim q s -> Sim (DropSuperseded q) s /\ _pending (DropSuperseded q) = Intents q.
Proof.
  intros H. pose proof (sim_ok _ _ H) as Hok. unfold DropSuperseded, IsCurrent. cbn.
  pose proof (po_intents _ _ _ Hok) as Hok'.
  change (List.filter _ _) with (Intents q).
  rewrite (foldl_push_sorted (Intents q) []) by apply Hok'. cbn.
  split; [|done]. apply sim_set_pending; [done..|apply intents_intents].
Qed.

Lemma sim_enqueue key reason priority readyAtMs nowMs q s :
  op_ok (OSchedule key reason priority readyAtMs nowMs) -> sp_serial s < 2 ^ 64 - 1 ->
  Sim q s ->
  Sim (enqueue key reason priority readyAtMs nowMs q)
    (spec_Schedule key reason priority readyAtMs nowMs s).
Proof.
  intros [Hr Hn] Hlt H. unfold MaxWaitMs in *. unfold enqueue.
  rewrite (u64_small (_nextSerial q + 1)), (u64_small (nowMs + MaxWaitMs))
    by (unfold MaxWaitMs; destruct H; lia).
  destruct H. unfold spec_Schedule. split; cbn; try done; try lia.
  - match goal with |- Pending_ok (push ?e _) _ _ =>
      apply (po_push _ _ _ e) end; cbn; unfold MaxWaitMs; [done|lia..].
  - unfold Intents; cbn -[intents push]. rewrite <- sim_intents0, <- sim_serial0.
    match goal with |- context [push ?e (_pending q)] =>
      exact (intents_push _ _ _ e sim_ok0 eq_refl) end.
  - by rewrite sim_scheduled0, u64_add_l.
Qed.

Lemma sim_Schedule key reason priority readyAtMs nowMs q s :
  op_ok (OSchedule key reason priority readyAtMs nowMs) -> sp_serial s < 2 ^ 64 - 1 ->
  Sim q s ->
  Sim (Schedule key reason priority readyAtMs nowMs q)
    (spec_Schedule key reason priority readyAtMs nowMs s).
Proof.
  intros Hop Hlt H. unfold Schedule. pose proof (sim_enqueue _ _ _ _ _ _ _ Hop Hlt H) as Hs.
  destruct (_ <? _)%nat; [by apply sim_DropSuperseded|done].
Qed.

Lemma po_drop top rest current serial :
  Pending_ok (top :: rest) current serial -> is_current current top = false ->
  Pending_ok rest current serial.
Proof.
  intros H Hf. apply (po_sub _ _ _ _ _ H); [|by apply submseteq_cons|done|].
  - destruct H as [Hs _ _ _ _]. by inversion Hs.
  - intros e [->|He]%elem_of_cons Hc; [|done].
    by rewrite (proj2 (is_current_true _ _) Hc) in Hf.
Qed.

Lemma sim_Surface q s :
  Sim q s -> Sim (Surface q) s /\
    (_pending (Surface q) = [] /\ sp_intents s = [] \/
     exists top rest rest', _pending (Surface q) = top :: rest /\ sp_intents s = top :: rest').
Proof.
  intros H. unfold Surface.
  cut (Pending_ok (drop_superseded (_currentSerialByKey q) (_pending q))
         (_currentSerialByKey q) (_nextSerial q) /\
       intents (_currentSerialByKey q) (drop_superseded (_currentSerialByKey q) (_pending q))
         = Intents q /\
       match drop_superseded (_currentSerialByKey q) (_pending q) with
       | [] => True | top :: _ => is_current (_currentSerialByKey q) top = true end).
  { intros (Hok & Hi & Htop). split; [by apply sim_set_pending|]. rewrite <- (sim_intents _ _ H), <- Hi.
    cbn. destruct (drop_superseded _ _) as [|top rest]; [auto|]. right. cbn. rewrite Htop. eauto. }
  pose proof (sim_ok _ _ H) as Hok. unfold Intents. clear H.
  induction (_pending q) as [|top rest IH]; cbn; [done|].
  destruct (is_current _ top) eqn:Hc; cbn; rewrite ?Hc; [done|].
  apply IH. by eapply po_drop.
Qed.

(** Removing one key from the map removes that key's intent only. *)
Lemma intents_delete top rest current serial :
  Pending_ok (top :: rest) current serial -> is_current current top = true ->
  intents (delete (en_Key top) current) rest = intents current rest.
Proof.
  intros H Hc%is_current_true. apply filter_ext_Forall, Forall_forall. intros e He.
  unfold is_current. apply bool_decide_ext. destruct (decide (en_Key e = en_Key top)) as [E|E].
  - rewrite E, lookup_delete_eq. split; [done|]. rewrite Hc. intros [= Hs].
    destruct H as [_ Hn _ _ _]. cbn in Hn. apply NoDup_cons in Hn as [Hn _].
    destruct Hn. rewrite Hs. by apply list_elem_of_fmap_2.
  - by rewrite lookup_delete_ne.
Qed.

Lemma po_delete top rest current serial :
  Pending_ok (top :: rest) current serial -> is_current current top = true ->
  Pending_ok rest (delete (en_Key top) current) serial.
Proof.
  intros H Htop. apply (po_sub _ _ _ _ _ H); [|by apply submseteq_cons| |].
  - destruct H as [Hs _ _ _ _]. by inversion Hs.
  - intros k s H'. apply lookup_delete_Some in H' as [_ H']. done.
  - intros e [->|He]%elem_of_cons; [|done]. by rewrite lookup_delete_eq.
Qed.

(** One intent leaves the specification. *)
Definition spec_release1 (resumed : bool) (nowMs : Z) (top : Entry) (rest : list Entry) (s : Spec)
    : Spec :=
  mkSpec rest (sp_serial s) (sp_scheduled s) (sp_released s + 1)
    (if resumed then sp_releasedAfterPause s + 1 else sp_releasedAfterPause s) (sp_lastCheckMs s)
    (if resumed then sp_totalLatencyMs s else sp_totalLatencyMs s + (nowMs - en_ReadyAtMs top))
    (if resumed then sp_maxLatencyMs s else Z.max (sp_maxLatencyMs s) (nowMs - en_ReadyAtMs top))
    (Some top).

Lemma spec_release_cons resumed nowMs top rest s :
  sp_intents s = top :: rest -> due nowMs top = true ->
  spec_release resumed nowMs (spec_release1 resumed nowMs top rest s)
  = spec_release resumed nowMs s.
Proof.
  intros Hi Hd. unfold spec_release, spec_release1; cbn. rewrite Hi. cbn. rewrite Hd. cbn.
  f_equal; try (destruct resumed; lia).
  rewrite last_cons. by destruct (last _).
Qed.

Lemma spec_release_none resumed nowMs s :
  Forall (fun e => due nowMs e = false) (sp_intents s) -> spec_release resumed nowMs s = s.
Proof.
  intros H. unfold spec_release. rewrite (filter_none (due nowMs)) by done. rewrite filter_id.
  - destruct s, resumed; cbn; f_equal; (done || lia).
  - eapply Forall_impl; [exact H|]. intros e He. cbn. by rewrite He.
Qed.

Lemma sim_Released resumed nowMs top rest q s :
  0 <= nowMs < 2 ^ 64 - MaxWaitMs -> due nowMs top = true ->
  Pending_ok (top :: rest) (_currentSerialByKey q) (_nextSerial q) ->
  is_current (_currentSerialByKey q) top = true ->
  Sim (set_pending (top :: rest) q) s ->
  sp_intents s = top :: intents (_currentSerialByKey q) rest /\
  Sim (set_pending rest (Released resumed nowMs top q))
    (spec_release1 resumed nowMs top (intents (_currentSerialByKey q) rest) s).
Proof.
  unfold MaxWaitMs, due. intros Hn Hd Hok Hc []. cbn in *. b2p.
  assert (Hready : 0 <= en_ReadyAtMs top) by (destruct Hok as [_ _ _ Hr _]; inversion Hr; lia).
  unfold Intents in sim_intents0; cbn in sim_intents0. rewrite Hc in sim_intents0.
  split; [done|]. split; cbn; try done.
  - by apply po_delete.
  - unfold Intents; cbn. by apply (intents_delete _ _ _ (_nextSerial q)).
  - by rewrite sim_released0, u64_add_l.
  - destruct resumed; [by rewrite sim_afterPause0, u64_add_l|done].
  - destruct resumed; [done|]. wrap_small. by rewrite sim_total0, u64_add_l.
  - destruct resumed; [done|]. wrap_small. by rewrite sim_max0.
Qed.

Lemma ReleaseDue_loop_sim resumed nowMs pending : forall n q s,
  0 <= nowMs < 2 ^ 64 - MaxWaitMs -> Sim (set_pending pending q) s ->
  exists q', ReleaseDue_loop resumed nowMs (u32 n) pending q
    = (u32 (n + Z.of_nat (length (List.filter (due nowMs) (sp_intents s)))), q') /\
  Sim q' (spec_release resumed nowMs s).
Proof.
  induction pending as [|top rest IH]; intros n q s Hn H; cbn.
  - pose proof (sim_intents _ _ H) as Hi. cbn in Hi. rewrite <- Hi. cbn. rewrite Z.add_0_r.
    eexists. split; [done|]. rewrite spec_release_none; [done|]. rewrite <- Hi. constructor.
  - pose proof (sim_ok _ _ H) as Hok. cbn in Hok. fold (due nowMs top).
    destruct (due nowMs top) eqn:Hd.
    + destruct (IsCurrent q top) eqn:Hc.
      * destruct (sim_Released resumed nowMs top rest q s Hn Hd Hok Hc H) as [Hi Hs].
        rewrite u32_add_l, <- (spec_release_cons _ _ _ _ _ Hi Hd).
        destruct (IH (n + 1) _ _ Hn Hs) as (q' & Hl & Hq'). exists q'. split; [|done].
        rewrite Hl, Hi. cbn. rewrite Hd. cbn. do 2 f_equal. lia.
      * apply IH; [done|]. change (set_pending rest q) with
          (set_pending rest (set_pending (top :: rest) q)).
        apply sim_set_pending; [done|by eapply po_drop|].
        unfold Intents; cbn. change (is_current _ top) with (IsCurrent q top). by rewrite Hc.
    + assert (Hnone : Forall (fun e => due nowMs e = false) (sp_intents s)).
      { rewrite <- (sim_intents _ _ H). apply Forall_forall. intros e [He _]%elem_of_intents.
        destruct Hok as [Hs _ _ _ _]. inversion_clear Hs as [|? ? _ Htop].
        apply sorted_before_ready in Htop. unfold due in *. b2p.
        apply elem_of_cons in He as [->|He]; [done|]. rewrite Forall_forall in Htop.
        specialize (Htop e He). cbn in Htop. lia. }
      rewrite (filter_none (due nowMs)), spec_release_none by done. cbn. rewrite Z.add_0_r. eauto.
Qed.

Lemma sim_ReleaseDue nowMs q s :
  op_ok (OReleaseDue nowMs) -> Sim q s -> Z.of_nat (length (sp_intents s)) < 2 ^ 32 ->
  exists q', ReleaseDue nowMs q = ((spec_ReleaseDue nowMs s).1, q') /\
  Sim q' (spec_ReleaseDue nowMs s).2.
Proof.
  intros Hn H Hlen. unfold ReleaseDue, spec_ReleaseDue. cbn -[ReleaseDue_loop].
  rewrite (sim_check _ _ H), (u64_small (sp_lastCheckMs s + _))
    by (destruct H; unfold MaxWaitMs, PausedReleaseGapMs, CombatDecisionIntervalMs in *; lia).
  set (resumed := nz _ && _).
  match goal with |- context [ReleaseDue_loop _ _ _ _ ?q0] =>
    destruct (ReleaseDue_loop_sim resumed nowMs (_pending q) 0 q0 (spec_check nowMs s) Hn)
      as (q' & Hl & Hq'); [by destruct H|] end.
  exists q'. split; [|done]. change (u32 0) with 0 in Hl. rewrite Hl. f_equal.
  apply u32_small. split; [lia|]. cbn.
  pose proof (submseteq_length _ _ (filter_submseteq (due nowMs) (sp_intents s))). lia.
Qed.

Lemma sim_Clear q s : Sim q s -> Sim (Clear q) (spec_Clear s).
Proof.
  intros H. unfold Clear. destruct (list_is_empty (_pending q)) eqn:He; cbn;
    [case_bool_decide as Hc|]; destruct H; (split; cbn; try done; try apply po_empty).
  unfold Intents. by destruct (_pending q).
Qed.

Lemma sim_WakeDelayMs nowMs timer q s :
  op_ok (OWakeDelayMs nowMs timer) -> Sim q s ->
  exists q', WakeDelayMs nowMs timer q = (spec_WakeDelayMs nowMs timer s, q') /\ Sim q' s.
Proof.
  intros [Hn Ht] H. unfold MaxWaitMs in *. unfold WakeDelayMs, spec_WakeDelayMs.
  cbv zeta. destruct (sim_Surface q s H) as [Hs [[-> ->]|(top & rest & rest' & Hp & ->)]]; [by eauto|].
  rewrite Hp. cbn [head]. exists (Surface q). split; [|done]. f_equal. pose proof (sim_ok _ _ Hs) as [_ _ _ Hr _].
  rewrite Hp in Hr. inversion_clear Hr as [|? ? Hr' _].
  destruct (Z.ltb_spec nowMs (en_ReadyAtMs top)); wrap_small; lia.
Qed.

Lemma sim_step op q s :
  op_ok op -> Sim q s -> sp_serial s < 2 ^ 32 - 1 ->
  Z.of_nat (length (sp_intents s)) <= sp_serial s ->
  (step op q).1 = (spec_step op s).1 /\ Sim (step op q).2 (spec_step op s).2.
Proof.
  intros Hop H Hlt Hlen. destruct op as [key reason priority readyAtMs nowMs|nowMs|nowMs timer| |].
  - split; [done|]. apply sim_Schedule; [done|lia|done].
  - destruct (sim_ReleaseDue nowMs q s Hop H) as (q' & Hq & Hs); [lia|].
    unfold step, spec_step. rewrite Hq. by destruct (spec_ReleaseDue nowMs s).
  - destruct (sim_WakeDelayMs nowMs timer q s Hop H) as (q' & Hq & Hs). unfold step. by rewrite Hq.
  - split; [done|]. by apply sim_Clear.
  - destruct (sim_Surface q s H) as [Hs Hcase]. cbn. split; [|done]. f_equal.
    by destruct Hcase as [[Hp ->]|(top & rest & rest' & Hp & ->)]; cbn in Hp; rewrite Hp.
Qed.

Lemma spec_step_length op s :
  Z.of_nat (length (sp_intents s)) <= sp_serial s ->
  Z.of_nat (length (sp_intents (spec_step op s).2)) <= sp_serial (spec_step op s).2
    <= sp_serial s + 1 /\ sp_serial s <= sp_serial (spec_step op s).2.
Proof.
  intros H. destruct op as [key reason priority readyAtMs nowMs|nowMs|nowMs timer| |]; cbn; try lia.
  - rewrite (Permutation_length (sort_insert_perm _ _ _)). cbn.
    match goal with |- context [List.filter ?P ?l] => pose proof (filter_le P l) end. lia.
  - match goal with |- context [List.filter ?P ?l] => pose proof (filter_le P l) end. lia.
Qed.

Lemma sim_run ops : forall q s,
  Forall op_ok ops -> Sim q s ->
  Z.of_nat (length (sp_intents s)) <= sp_serial s ->
  sp_serial s + Z.of_nat (length ops) < 2 ^ 32 ->
  (run step ops q).1 = (run spec_step ops s).1 /\
  Sim (run step ops q).2 (run spec_step ops s).2 /\
  Z.of_nat (length (sp_intents (run spec_step ops s).2)) <= sp_serial (run spec_step ops s).2
    <= sp_serial s + Z.of_nat (length ops).
Proof.
  induction ops as [|op ops IH]; intros q s Hops Hs Hl Hn; cbn [length] in Hn |- *; [cbn; split_and!; done || lia|].
  inversion_clear Hops as [|? ? Hop Hops'].
  destruct (sim_step op q s Hop Hs) as [Ho Hs']; [lia..|].
  pose proof (spec_step_length op s Hl) as Hl'.
  cbn. destruct (step op q) as [o q1], (spec_step op s) as [o' s1]; cbn in *.
  destruct (IH q1 s1 Hops' Hs') as (H1 & H2 & H3); [lia..|].
  destruct (run step ops q1), (run spec_step ops s1); cbn in *. subst. split_and!; done || lia.
Qed.

(** C38. Whatever sequence of calls a bot makes, the queue answers exactly as a
    plain list of intents does, one per key and sorted by release time, priority
    and age, in which scheduling replaces the key's intent, releasing removes
    and counts what is due, and the wake delay reads the first; and its counters
    are that list's, at 64 bits. *)
Theorem Queue_refines_Spec ops :
  Forall op_ok ops -> Z.of_nat (length ops) < 2 ^ 32 ->
  (run step ops Queue_default).1 = (run spec_step ops Spec_default).1 /\
  Sim (run step ops Queue_default).2 (run spec_step ops Spec_default).2.
Proof.
  intros Hops Hn. destruct (sim_run ops _ _ Hops sim_default) as (H1 & H2 & _); [done|done|].
  by split.
Qed.

Definition sample_ops : list Op :=
  [OSchedule "heal" "global_cooldown" 5 1500 1000; OSchedule "bolt" "global_cooldown" 9 1500 1000;
   OSchedule "heal" "already_casting" 7 2500 1100; OWakeDelayMs 1100 1000; OReleaseDue 1500;
   OWakeDelayMs 1500 5000; OEmpty; OReleaseDue 2600; OEmpty; OClear]%string.

Lemma Queue_refines_Spec_witness :
  (run step sample_ops Queue_default).1
    = [Unit; Unit; Unit; Number 400; Number 1; Number 1000; Truth false; Number 1; Truth true; Unit] /\
  (run step sample_ops Queue_default).1 = (run spec_step sample_ops Spec_default).1 /\
  Sim (run step sample_ops Queue_default).2 (run spec_step sample_ops Spec_default).2.
Proof.
  split; [vm_compute; reflexivity|]. apply Queue_refines_Spec; [|vm_compute; reflexivity].
  repeat constructor; vm_compute; congruence.
Defined.

(** ** The size of the heap *)

Lemma intents_length pending current serial :
  Pending_ok pending current serial -> (length (intents current pending) <= size current)%nat.
Proof.
  intros H. pose proof (po_intents _ _ _ H) as [_ Hn _ _ _].
  rewrite <- (length_fmap (fun e => (en_Key e, en_Serial e)) (intents current pending)).
  rewrite <- length_map_to_list. apply submseteq_length, NoDup_submseteq.
  - apply (NoDup_fmap_1 snd). by rewrite <- list_fmap_compose.
  - intros x (e & -> & He)%list_elem_of_fmap.
    apply elem_of_intents in He as [_ He]. by apply elem_of_map_to_list.
Qed.

Definition op_key (op : Op) : gset string :=
  match op with OSchedule key _ _ _ _ => {[ key ]} | _ => ∅ end.

Definition Bounded (keys : gset string) (q : Queue) : Prop :=
  dom (_currentSerialByKey q) ⊆ keys /\ (length (_pending q) <= 4 * size keys + 8)%nat.

Lemma drop_superseded_length current pending :
  (length (drop_superseded current pending) <= length pending)%nat.
Proof.
  induction pending as [|top rest IH]; cbn; [done|]. destruct (is_current _ _); cbn; lia.
Qed.

Lemma ReleaseDue_loop_shrinks resumed nowMs pending : forall n q,
  let q' := (ReleaseDue_loop resumed nowMs n pending q).2 in
  (length (_pending q') <= length pending)%nat /\
  dom (_currentSerialByKey q') ⊆ dom (_currentSerialByKey q).
Proof.
  induction pending as [|top rest IH]; intros n q; cbn; [done|].
  destruct (_ <=? _); [|done]. destruct (IsCurrent q top); cbn.
  - destruct (IH (n +32 1) (Released resumed nowMs top q)) as [H1 H2]. cbn in H1, H2.
    rewrite dom_delete_L in H2. split; [lia|set_solver].
  - destruct (IH n q) as [H1 H2]. cbn in H1, H2. split; [lia|done].
Qed.

Lemma Schedule_bounded key reason priority readyAtMs nowMs q s keys :
  op_ok (OSchedule key reason priority readyAtMs nowMs) -> sp_serial s < 2 ^ 64 - 1 ->
  Sim q s -> key ∈ keys -> Bounded keys q ->
  Bounded keys (Schedule key reason priority readyAtMs nowMs q).
Proof.
  intros Hop Hlt H Hk [Hd Hl]. unfold Schedule.
  pose proof (sim_enqueue _ _ _ _ _ _ _ Hop Hlt H) as Hs.
  assert (Hd' : dom (_currentSerialByKey (enqueue key reason priority readyAtMs nowMs q)) ⊆ keys)
    by (cbn; rewrite dom_insert_L; set_solver).
  revert Hs Hd'. generalize (enqueue key reason priority readyAtMs nowMs q). intros q' Hs Hd'.
  assert (Hsize : (size (_currentSerialByKey q') <= size keys)%nat).
  { rewrite <- (size_dom (D := gset string)). by apply subseteq_size. }
  destruct (Nat.ltb_spec (4 * size (_currentSerialByKey q') + 8) (length (_pending q')));
    (split; [done|]); [|lia].
  destruct (sim_DropSuperseded _ _ Hs) as [_ ->].
  pose proof (intents_length _ _ _ (sim_ok _ _ Hs)) as Hle. unfold Intents. lia.
Qed.

Lemma step_bounded op q s keys :
  op_ok op -> Sim q s -> sp_serial s < 2 ^ 32 - 1 -> op_key op ⊆ keys -> Bounded keys q ->
  Bounded keys (step op q).2.
Proof.
  intros Hop H Hlt Hk Hb. destruct op as [key reason priority readyAtMs nowMs|nowMs|nowMs timer| |].
  - cbn in Hk |- *. apply (Schedule_bounded _ _ _ _ _ q s); [done|lia|done|set_solver|done].
  - unfold step, ReleaseDue. cbv zeta.
    match goal with |- context [ReleaseDue_loop ?r ?now ?n ?p ?q0] =>
      pose proof (ReleaseDue_loop_shrinks r now p n q0) as Hl;
      destruct (ReleaseDue_loop r now n p q0) as [n' q'] end.
    cbn in Hl |- *. destruct Hb, Hl. split; [set_solver|lia].
  - cbn. destruct Hb. pose proof (drop_superseded_length (_currentSerialByKey q) (_pending q)).
    unfold WakeDelayMs, Surface. cbn. destruct (drop_superseded _ _) eqn:E;
      split; cbn; rewrite ?E; cbn in *; done || lia.
  - cbn. unfold Clear. destruct (_ && _); [done|]. split; cbn; [set_solver|lia].
  - cbn. destruct Hb. pose proof (drop_superseded_length (_currentSerialByKey q) (_pending q)).
    split; cbn; [done|lia].
Qed.

Lemma run_bounded ops : forall q s keys,
  Forall op_ok ops -> Sim q s ->
  Z.of_nat (length (sp_intents s)) <= sp_serial s ->
  sp_serial s + Z.of_nat (length ops) < 2 ^ 32 ->
  Forall (fun op => op_key op ⊆ keys) ops -> Bounded keys q ->
  Bounded keys (run step ops q).2.
Proof.
  induction ops as [|op ops IH]; intros q s keys Hops Hs Hl Hn Hks Hb; [done|].
  cbn [length] in Hn. inversion_clear Hops as [|? ? Hop Hops'].
  inversion_clear Hks as [|? ? Hk Hks'].
  destruct (sim_step op q s Hop Hs) as [_ Hs']; [lia..|].
  pose proof (spec_step_length op s Hl) as Hl'.
  pose proof (step_bounded op q s keys Hop Hs ltac:(lia) Hk Hb) as Hb'.
  cbn. destruct (step op q) as [o q1]; cbn in *.
  pose proof (IH q1 _ keys Hops' Hs' ltac:(lia) ltac:(lia) Hks' Hb').
  by destruct (run step ops q1).
Qed.

(** A bot that waits on [n] different keys never holds more than [4 n + 8]
    heap entries, however often it re-times them: superseded entries are
    compacted away. *)
Theorem pending_bounded ops keys :
  Forall op_ok ops -> Z.of_nat (length ops) < 2 ^ 32 ->
  Forall (fun op => op_key op ⊆ keys) ops ->
  (length (_pending (run step ops Queue_default).2) <= 4 * size keys + 8)%nat.
Proof.
  intros Hops Hn Hk. apply (run_bounded ops _ _ keys Hops sim_default); try done.
  split; cbn; [set_solver|lia].
Qed.

Definition retimed : list Op :=
  (fun i => OSchedule "bolt" "global_cooldown" 5 (2000 + Z.of_nat i) 1000) <$> seq 0 20.

Lemma pending_bounded_witness :
  length (_pending (run step (take 12 retimed) Queue_default).2) = 12%nat /\
  length (_pending (run step (take 13 retimed) Queue_default).2) = 1%nat /\
  (length (_pending (run step retimed Queue_default).2) <= 12)%nat.
Proof.
  do 2 (split; [vm_compute; reflexivity|]).
  change 12%nat with (4 * size ({[ "bolt"%string ]} : gset string) + 8)%nat.
  apply (pending_bounded retimed).
  - repeat constructor; vm_compute; congruence.
  - vm_compute. reflexivity.
  - repeat constructor; cbn; set_solver.
Defined.

(** ** Waking on time

    The decision scheduler sleeps for the delay the queue asks for and then
    releases what is due; [timer n] is the delay it would have slept anyway. *)

Fixpoint wakes (timer : nat -> Z) (n : nat) (nowMs : Z) (q : Queue) : Z * Queue :=
  match n with
  | O => (nowMs, q)
  | S n =>
      let '(nowMs, q) := wakes timer n nowMs q in
      let '(delay, q) := WakeDelayMs nowMs (timer n) q in
      let nowMs := nowMs + delay in
      (nowMs, (ReleaseDue nowMs q).2)
  end.

Lemma spec_sorted q s : Sim q s -> queue_sorted (sp_intents s).
Proof. intros H. rewrite <- (sim_intents _ _ H). apply filter_sorted, H. Qed.

Lemma spec_WakeDelayMs_range nowMs timer q s e :
  Sim q s -> e ∈ sp_intents s -> nowMs < en_ReadyAtMs e -> 0 <= timer ->
  1 <= spec_WakeDelayMs nowMs timer s <= en_ReadyAtMs e - nowMs.
Proof.
  intros H He Hlt Ht. unfold spec_WakeDelayMs. pose proof (spec_sorted _ _ H) as Hs.
  destruct (sp_intents s) as [|top rest]; [by apply elem_of_nil in He|]. cbn.
  inversion_clear Hs as [|? ? _ Htop]. apply sorted_before_ready in Htop.
  apply elem_of_cons in He as [->|He]; [lia|].
  rewrite Forall_forall in Htop. specialize (Htop e He). lia.
Qed.

(** One round: the clock moves forward, never past an intent that waits. *)
Lemma wake_step timer nowMs q s e :
  0 <= timer < 2 ^ 32 -> 0 <= nowMs -> nowMs < en_ReadyAtMs e < 2 ^ 64 - MaxWaitMs ->
  Sim q s -> e ∈ sp_intents s -> Z.of_nat (length (sp_intents s)) < 2 ^ 32 ->
  exists delay q1 q2 s2, WakeDelayMs nowMs timer q = (delay, q1) /\
    (ReleaseDue (nowMs + delay) q1).2 = q2 /\ Sim q2 s2 /\
    (length (sp_intents s2) <= length (sp_intents s))%nat /\
    nowMs + 1 <= nowMs + delay <= en_ReadyAtMs e /\
    (nowMs + delay < en_ReadyAtMs e -> e ∈ sp_intents s2) /\
    (nowMs + delay = en_ReadyAtMs e -> ~ e ∈ sp_intents s2).
Proof.
  intros Ht H0 Hlt H He Hlen.
  pose proof (spec_WakeDelayMs_range nowMs timer q s e H He ltac:(lia) ltac:(lia)) as Hd.
  destruct (sim_WakeDelayMs nowMs timer q s) as (q1 & Hq1 & Hs1); [cbn; lia|done|].
  destruct (sim_ReleaseDue (nowMs + spec_WakeDelayMs nowMs timer s) q1 s) as (q2 & Hq2 & Hs2);
    [cbn; lia|done..|].
  exists (spec_WakeDelayMs nowMs timer s), q1, q2, (spec_ReleaseDue (nowMs + spec_WakeDelayMs nowMs timer s) s).2.
  split_and!; try done; try lia.
  - by rewrite Hq2.
  - cbn. apply filter_le.
  - intros Hlt'. cbn. apply list_elem_of_In, filter_In. split; [by apply list_elem_of_In|].
    unfold due. b2p. lia.
  - intros Heq. cbn. rewrite list_elem_of_In, filter_In. unfold due. b2p. lia.
Qed.

Lemma wakes_until timer nowMs q s e :
  (forall n, 0 <= timer n < 2 ^ 32) -> 0 <= nowMs ->
  nowMs < en_ReadyAtMs e < 2 ^ 64 - MaxWaitMs ->
  Sim q s -> e ∈ sp_intents s -> Z.of_nat (length (sp_intents s)) < 2 ^ 32 ->
  forall n,
  (exists k, (k <= n)%nat /\ (wakes timer k nowMs q).1 = en_ReadyAtMs e /\
     ~ e ∈ Intents (wakes timer k nowMs q).2 /\
     forall m, (m < k)%nat -> e ∈ Intents (wakes timer m nowMs q).2) \/
  (nowMs + Z.of_nat n <= (wakes timer n nowMs q).1 < en_ReadyAtMs e /\
     (forall m, (m <= n)%nat -> e ∈ Intents (wakes timer m nowMs q).2) /\
     exists sn, Sim (wakes timer n nowMs q).2 sn /\ (length (sp_intents sn) <= length (sp_intents s))%nat).
Proof.
  intros Ht H0 Hlt H He Hlen. induction n as [|n [(k & Hk & H1)|(Hnow & Hall & sn & Hsn & Hle)]].
  - right. cbn. split_and!; [lia|lia| |by exists s].
    intros m Hm. replace m with O by lia. cbn. by rewrite (sim_intents _ _ H).
  - left. exists k. split; [lia|done].
  - assert (Hen : e ∈ sp_intents sn) by (rewrite <- (sim_intents _ _ Hsn); by apply Hall).
    destruct (wakes timer n nowMs q) as [nown qn] eqn:Hw. cbn in Hnow, Hsn.
    destruct (wake_step (timer n) nown qn sn e (Ht n)) as
      (d & q1 & q2 & s2 & Hd & Hr & Hs2 & Hl2 & Hrange & Hin & Hout); [lia|lia|done|done|lia|].
    assert (Hw' : wakes timer (S n) nowMs q = (nown + d, q2)) by (cbn -[ReleaseDue WakeDelayMs]; by rewrite Hw, Hd, Hr).
    destruct (Z.eq_dec (nown + d) (en_ReadyAtMs e)) as [Heq|Hne].
    + left. exists (S n). rewrite Hw'. cbn. split_and!; [lia|done| |].
      * rewrite (sim_intents _ _ Hs2). by apply Hout.
      * intros m Hm. apply Hall. lia.
    + right. rewrite Hw'. cbn. split_and!; [lia|lia| |exists s2; split; [done|lia]].
      intros m Hm. destruct (decide (m = S n)) as [->|Hm']; [|apply Hall; lia].
      rewrite Hw'. cbn. rewrite (sim_intents _ _ Hs2). apply Hin. lia.
Qed.

(** C39. A bot that sleeps as long as the queue tells it wakes for every pending
    intent at exactly the millisecond its lock clears, after finitely many
    wake-ups, and the intent is pending until then and released there. *)
Theorem wakes_on_time ops timer nowMs e :
  Forall op_ok ops -> Z.of_nat (length ops) < 2 ^ 32 ->
  (forall n, 0 <= timer n < 2 ^ 32) -> 0 <= nowMs ->
  let q := (run step ops Queue_default).2 in
  e ∈ Intents q -> nowMs < en_ReadyAtMs e < 2 ^ 64 - MaxWaitMs ->
  exists n, (n <= Z.to_nat (en_ReadyAtMs e - nowMs))%nat /\
    (wakes timer n nowMs q).1 = en_ReadyAtMs e /\
    ~ e ∈ Intents (wakes timer n nowMs q).2 /\
    forall m, (m < n)%nat -> e ∈ Intents (wakes timer m nowMs q).2.
Proof.
  intros Hops Hn Ht H0 q He Hlt.
  destruct (sim_run ops _ _ Hops sim_default) as (_ & Hs & Hl); [done|done|].
  unfold q in He; rewrite (sim_intents _ _ Hs) in He; fold q in Hs.
  destruct (wakes_until timer nowMs q _ e Ht H0 Hlt Hs He ltac:(cbn in *; lia)
    (Z.to_nat (en_ReadyAtMs e - nowMs))) as [H|(Hnow & _)]; [done|lia].
Qed.

Definition two_intents : list Op :=
  [OSchedule "heal" "global_cooldown" 5 1500 1000; OSchedule "bolt" "already_casting" 9 1300 1000]%string.

Definition heal_intent : Entry := mkEntry "heal" "global_cooldown" 5 1500 1000 1.

Lemma wakes_on_time_witness :
  let q := (run step two_intents Queue_default).2 in
  (wakes (fun _ => 100000) 2 1000 q).1 = 1500 /\
  exists n, (n <= 500)%nat /\ (wakes (fun _ => 1000) n 1000 q).1 = 1500 /\
    ~ heal_intent ∈ Intents (wakes (fun _ => 1000) n 1000 q).2 /\
    forall m, (m < n)%nat -> heal_intent ∈ Intents (wakes (fun _ => 1000) m 1000 q).2.
Proof.
  split; [vm_compute; reflexivity|].
  apply (wakes_on_time two_intents (fun _ => 1000) 1000 heal_intent).
  - repeat constructor; vm_compute; congruence.
  - vm_compute. reflexivity.
  - intros _. lia.
  - lia.
  - vm_compute. right. left.
  - cbn. unfold MaxWaitMs. lia.
Defined.
