(* ===== verification/AreaAuthority.v ===== *)
(** Which targets a raid's bots may not attack: [Bots/BotRaidAreaAuthority.h].
    Every function of the source holds one mutex, so a history is a sequence of
    calls. *)
From S2P Require Import Prelude.
From Stdlib Require Import ZArith Lia.
From stdpp Require Import base gmap list.

Open Scope Z_scope.
Open Scope tc_scope.

(** ** The tables *)

Record Tables : Type := mkTables {
  SuppressedOwners : gset Z;
  AllOffenseSuppressedOwners : gset Z;
  ProtectedEncounterEntriesByOwner : gmap Z (gset Z);
  ProtectedEncounterSpawnIdsByOwner : gmap Z (gset Z);
  AllowedEncounterGuidsByOwner : gmap Z (gset Z);
  CurrentRestrictedEntriesByOwner : gmap Z (gset Z);
  CurrentAllowedGuidsByOwner : gmap Z (gset Z)
}.

Definition Tables_default : Tables := mkTables ∅ ∅ ∅ ∅ ∅ ∅ ∅.

Definition SetCurrentEncounterRestrictions (ownerGuid : Z) (entries allowedGuids : list Z) (t : Tables)
    : Tables :=
  if negb (nz ownerGuid) then t
  else if list_is_empty entries then
    mkTables (SuppressedOwners t) (AllOffenseSuppressedOwners t) (ProtectedEncounterEntriesByOwner t)
      (ProtectedEncounterSpawnIdsByOwner t) (AllowedEncounterGuidsByOwner t)
      (delete ownerGuid (CurrentRestrictedEntriesByOwner t))
      (delete ownerGuid (CurrentAllowedGuidsByOwner t))
  else
    mkTables (SuppressedOwners t) (AllOffenseSuppressedOwners t) (ProtectedEncounterEntriesByOwner t)
      (ProtectedEncounterSpawnIdsByOwner t) (AllowedEncounterGuidsByOwner t)
      (<[ownerGuid := list_to_set entries]> (CurrentRestrictedEntriesByOwner t))
      (<[ownerGuid := list_to_set allowedGuids ∖ {[ 0 ]}]> (CurrentAllowedGuidsByOwner t)).

Definition IsCurrentEncounterRestrictedEntry (ownerGuid entry : Z) (t : Tables) : bool :=
  match CurrentRestrictedEntriesByOwner t !! ownerGuid with
  | Some entries => bool_decide (entry ∈ entries)
  | None => false
  end.

Definition Set_ (ownerGuid : Z) (suppressed : bool) (t : Tables) : Tables :=
  if negb (nz ownerGuid) then t
  else
    mkTables
      (if suppressed then {[ ownerGuid ]} ∪ SuppressedOwners t
       else SuppressedOwners t ∖ {[ ownerGuid ]})
      (AllOffenseSuppressedOwners t) (ProtectedEncounterEntriesByOwner t)
      (ProtectedEncounterSpawnIdsByOwner t) (AllowedEncounterGuidsByOwner t)
      (CurrentRestrictedEntriesByOwner t) (CurrentAllowedGuidsByOwner t).

Definition IsSuppressed (ownerGuid : Z) (t : Tables) : bool :=
  bool_decide (ownerGuid ∈ SuppressedOwners t).

Definition SetAllOffenseSuppressed (ownerGuid : Z) (suppressed : bool) (t : Tables) : Tables :=
  if negb (nz ownerGuid) then t
  else
    mkTables (SuppressedOwners t)
      (if suppressed then {[ ownerGuid ]} ∪ AllOffenseSuppressedOwners t
       else AllOffenseSuppressedOwners t ∖ {[ ownerGuid ]})
      (ProtectedEncounterEntriesByOwner t)
      (ProtectedEncounterSpawnIdsByOwner t) (AllowedEncounterGuidsByOwner t)
      (CurrentRestrictedEntriesByOwner t) (CurrentAllowedGuidsByOwner t).

Definition IsAllOffenseSuppressed (ownerGuid : Z) (t : Tables) : bool :=
  bool_decide (ownerGuid ∈ AllOffenseSuppressedOwners t).

(** A table without an owner's row when the row would be empty. *)
Definition set_row (ownerGuid : Z) (values : list Z) (m : gmap Z (gset Z)) : gmap Z (gset Z) :=
  if list_is_empty values then delete ownerGuid m else <[ownerGuid := list_to_set values]> m.

Definition SetProtectedEncounterEntries (ownerGuid : Z) (entries : list Z) (t : Tables) : Tables :=
  if negb (nz ownerGuid) then t
  else
    mkTables (SuppressedOwners t) (AllOffenseSuppressedOwners t)
      (set_row ownerGuid entries (ProtectedEncounterEntriesByOwner t))
      (ProtectedEncounterSpawnIdsByOwner t) (AllowedEncounterGuidsByOwner t)
      (CurrentRestrictedEntriesByOwner t) (CurrentAllowedGuidsByOwner t).

(** Whether an owner has a row that is not empty. *)
Definition has_row (ownerGuid : Z) (m : gmap Z (gset Z)) : bool :=
  match m !! ownerGuid with Some row => negb (bool_decide (row = ∅)) | None => false end.

Definition in_row (ownerGuid value : Z) (m : gmap Z (gset Z)) : bool :=
  match m !! ownerGuid with Some row => bool_decide (value ∈ row) | None => false end.

Definition HasProtectedEncounterEntries (ownerGuid : Z) (t : Tables) : bool :=
  if has_row ownerGuid (CurrentRestrictedEntriesByOwner t) then true
  else if has_row ownerGuid (ProtectedEncounterEntriesByOwner t) then true
  else has_row ownerGuid (ProtectedEncounterSpawnIdsByOwner t).

Definition IsProtectedEncounterEntry (ownerGuid entry : Z) (t : Tables) : bool :=
  if negb (nz entry) then false
  else in_row ownerGuid entry (ProtectedEncounterEntriesByOwner t).

Definition SetProtectedEncounterSpawnIds (ownerGuid : Z) (spawnIds : list Z) (t : Tables) : Tables :=
  if negb (nz ownerGuid) then t
  else
    mkTables (SuppressedOwners t) (AllOffenseSuppressedOwners t) (ProtectedEncounterEntriesByOwner t)
      (set_row ownerGuid spawnIds (ProtectedEncounterSpawnIdsByOwner t))
      (AllowedEncounterGuidsByOwner t)
      (CurrentRestrictedEntriesByOwner t) (CurrentAllowedGuidsByOwner t).

Definition SetAllowedEncounterGuids (ownerGuid : Z) (guids : list Z) (t : Tables) : Tables :=
  if negb (nz ownerGuid) then t
  else
    mkTables (SuppressedOwners t) (AllOffenseSuppressedOwners t) (ProtectedEncounterEntriesByOwner t)
      (ProtectedEncounterSpawnIdsByOwner t)
      (set_row ownerGuid guids (AllowedEncounterGuidsByOwner t))
      (CurrentRestrictedEntriesByOwner t) (CurrentAllowedGuidsByOwner t).

Definition IsProtectedEncounterTarget (ownerGuid entry spawnId rawGuid : Z) (t : Tables) : bool :=
  if negb (nz ownerGuid) then false
  else
    let futureAllowed := in_row ownerGuid rawGuid (AllowedEncounterGuidsByOwner t) in
    if negb futureAllowed
      && (in_row ownerGuid entry (ProtectedEncounterEntriesByOwner t)
          || in_row ownerGuid spawnId (ProtectedEncounterSpawnIdsByOwner t))
    then true
    else if negb (in_row ownerGuid entry (CurrentRestrictedEntriesByOwner t)) then false
    else negb (in_row ownerGuid rawGuid (CurrentAllowedGuidsByOwner t)).

Definition Clear (ownerGuid : Z) (t : Tables) : Tables :=
  if negb (nz ownerGuid) then t
  else
    mkTables (SuppressedOwners t ∖ {[ ownerGuid ]}) (AllOffenseSuppressedOwners t ∖ {[ ownerGuid ]})
      (delete ownerGuid (ProtectedEncounterEntriesByOwner t))
      (delete ownerGuid (ProtectedEncounterSpawnIdsByOwner t))
      (delete ownerGuid (AllowedEncounterGuidsByOwner t))
      (delete ownerGuid (CurrentRestrictedEntriesByOwner t))
      (delete ownerGuid (CurrentAllowedGuidsByOwner t)).

(** ** Calls and questions *)

Inductive Call : Type :=
| CSetCurrent (entries allowedGuids : list Z)
| CSet (suppressed : bool)
| CSetAllOffense (suppressed : bool)
| CSetEntries (entries : list Z)
| CSetSpawnIds (spawnIds : list Z)
| CSetAllowed (guids : list Z)
| CClear.

Definition call (ownerGuid : Z) (c : Call) (t : Tables) : Tables :=
  match c with
  | CSetCurrent entries allowed => SetCurrentEncounterRestrictions ownerGuid entries allowed t
  | CSet suppressed => Set_ ownerGuid suppressed t
  | CSetAllOffense suppressed => SetAllOffenseSuppressed ownerGuid suppressed t
  | CSetEntries entries => SetProtectedEncounterEntries ownerGuid entries t
  | CSetSpawnIds spawnIds => SetProtectedEncounterSpawnIds ownerGuid spawnIds t
  | CSetAllowed guids => SetAllowedEncounterGuids ownerGuid guids t
  | CClear => Clear ownerGuid t
  end.

Definition history (calls : list (Z * Call)) : Tables :=
  foldl (fun t c => call c.1 c.2 t) Tables_default calls.

Inductive Question : Type :=
| QSuppressed
| QAllOffenseSuppressed
| QRestrictedEntry (entry : Z)
| QHasProtected
| QProtectedEntry (entry : Z)
| QProtectedTarget (entry spawnId rawGuid : Z).

Definition answer (ownerGuid : Z) (q : Question) (t : Tables) : bool :=
  match q with
  | QSuppressed => IsSuppressed ownerGuid t
  | QAllOffenseSuppressed => IsAllOffenseSuppressed ownerGuid t
  | QRestrictedEntry entry => IsCurrentEncounterRestrictedEntry ownerGuid entry t
  | QHasProtected => HasProtectedEncounterEntries ownerGuid t
  | QProtectedEntry entry => IsProtectedEncounterEntry ownerGuid entry t
  | QProtectedTarget entry spawnId rawGuid =>
      IsProtectedEncounterTarget ownerGuid entry spawnId rawGuid t
  end.

(** ** The specification

    One owner's policy, which only that owner's calls change. *)

Record Policy : Type := mkPolicy {
  suppressed : bool; allOffense : bool; entries : list Z; spawnIds : list Z; allowed : list Z;
  restricted : list Z; currentAllowed : list Z }.

Definition no_policy : Policy := mkPolicy false false [] [] [] [] [].

Definition policy_call (p : Policy) (c : Call) : Policy :=
  match c with
  | CSetCurrent es gs =>
      mkPolicy (suppressed p) (allOffense p) (entries p) (spawnIds p) (allowed p) es
        (match es with [] => [] | _ => gs end)
  | CSet b =>
      mkPolicy b (allOffense p) (entries p) (spawnIds p) (allowed p) (restricted p) (currentAllowed p)
  | CSetAllOffense b =>
      mkPolicy (suppressed p) b (entries p) (spawnIds p) (allowed p) (restricted p) (currentAllowed p)
  | CSetEntries es =>
      mkPolicy (suppressed p) (allOffense p) es (spawnIds p) (allowed p) (restricted p) (currentAllowed p)
  | CSetSpawnIds ids =>
      mkPolicy (suppressed p) (allOffense p) (entries p) ids (allowed p) (restricted p) (currentAllowed p)
  | CSetAllowed gs =>
      mkPolicy (suppressed p) (allOffense p) (entries p) (spawnIds p) gs (restricted p) (currentAllowed p)
  | CClear => no_policy
  end.

(** An owner's policy is what its own calls made it. *)
Definition policy (ownerGuid : Z) (calls : list (Z * Call)) : Policy :=
  foldl policy_call no_policy (snd <$> List.filter (fun c => c.1 =? ownerGuid) calls).

Definition Holds (p : Policy) (q : Question) : Prop :=
  match q with
  | QSuppressed => suppressed p = true
  | QAllOffenseSuppressed => allOffense p = true
  | QRestrictedEntry entry => entry ∈ restricted p
  | QHasProtected => restricted p <> [] \/ entries p <> [] \/ spawnIds p <> []
  | QProtectedEntry entry => entry <> 0 /\ entry ∈ entries p
  | QProtectedTarget entry spawnId rawGuid =>
      ~ rawGuid ∈ allowed p /\ (entry ∈ entries p \/ spawnId ∈ spawnIds p) \/
      entry ∈ restricted p /\ ~ (rawGuid ∈ currentAllowed p /\ rawGuid <> 0)
  end.

(** ** The tables hold every owner's policy *)

Definition row (ownerGuid : Z) (m : gmap Z (gset Z)) : gset Z := default ∅ (m !! ownerGuid).

Record Represents (t : Tables) (ownerGuid : Z) (p : Policy) : Prop := {
  re_suppressed : bool_decide (ownerGuid ∈ SuppressedOwners t) = suppressed p;
  re_allOffense : bool_decide (ownerGuid ∈ AllOffenseSuppressedOwners t) = allOffense p;
  re_entries : row ownerGuid (ProtectedEncounterEntriesByOwner t) = list_to_set (entries p);
  re_spawnIds : row ownerGuid (ProtectedEncounterSpawnIdsByOwner t) = list_to_set (spawnIds p);
  re_allowed : row ownerGuid (AllowedEncounterGuidsByOwner t) = list_to_set (allowed p);
  re_restricted : row ownerGuid (CurrentRestrictedEntriesByOwner t) = list_to_set (restricted p);
  re_current : row ownerGuid (CurrentAllowedGuidsByOwner t) = list_to_set (currentAllowed p) ∖ {[ 0 ]}
}.

Lemma in_row_spec ownerGuid value m : in_row ownerGuid value m = bool_decide (value ∈ row ownerGuid m).
Proof.
  unfold in_row, row. destruct (m !! ownerGuid); cbn; [done|].
  symmetry. apply bool_decide_eq_false. set_solver.
Qed.

Lemma has_row_spec ownerGuid m (l : list Z) :
  row ownerGuid m = list_to_set l -> has_row ownerGuid m = true <-> l <> [].
Proof.
  intros H. transitivity (row ownerGuid m <> ∅).
  - unfold has_row, row. destruct (m !! ownerGuid); cbn; [|by split].
    by rewrite negb_true_iff, bool_decide_eq_false.
  - rewrite H. by destruct l; cbn; split; try done; set_solver.
Qed.

Lemma row_set_row ownerGuid values m :
  row ownerGuid (set_row ownerGuid values m) = list_to_set values.
Proof.
  unfold row, set_row. destruct values; cbn; [by rewrite lookup_delete_eq|].
  by rewrite lookup_insert_eq.
Qed.

Lemma row_set_row_ne a b values m : a <> b -> row b (set_row a values m) = row b m.
Proof.
  intros H. unfold row, set_row. destruct values; cbn; [by rewrite lookup_delete_ne|].
  by rewrite lookup_insert_ne.
Qed.

Lemma row_delete ownerGuid m : row ownerGuid (delete ownerGuid m) = ∅.
Proof. unfold row. by rewrite lookup_delete_eq. Qed.

Lemma row_delete_ne a b m : a <> b -> row b (delete a m) = row b m.
Proof. intros H. unfold row. by rewrite lookup_delete_ne. Qed.

Lemma row_insert ownerGuid r m : row ownerGuid (<[ownerGuid := r]> m) = r.
Proof. unfold row. by rewrite lookup_insert_eq. Qed.

Lemma row_insert_ne a b r m : a <> b -> row b (<[a := r]> m) = row b m.
Proof. intros H. unfold row. by rewrite lookup_insert_ne. Qed.

(** The owners of a flag after one owner's flag is set. *)
Lemma toggle_own (b : bool) a (owners : gset Z) :
  bool_decide (a ∈ if b then {[ a ]} ∪ owners else owners ∖ {[ a ]}) = b.
Proof. destruct b; [apply bool_decide_eq_true|apply bool_decide_eq_false]; set_solver. Qed.

Lemma remove_own a (owners : gset Z) : bool_decide (a ∈ owners ∖ {[ a ]}) = false.
Proof. apply bool_decide_eq_false. set_solver. Qed.

Lemma toggle_other (b : bool) a x (owners : gset Z) :
  a <> x ->
  bool_decide (x ∈ if b then {[ a ]} ∪ owners else owners ∖ {[ a ]}) = bool_decide (x ∈ owners).
Proof. intros H. apply bool_decide_ext. destruct b; set_solver. Qed.

Lemma remove_other a x (owners : gset Z) :
  a <> x -> bool_decide (x ∈ owners ∖ {[ a ]}) = bool_decide (x ∈ owners).
Proof. intros H. apply bool_decide_ext. set_solver. Qed.

Lemma empty_minus (x : gset Z) : ∅ ∖ x = ∅.
Proof. set_solver. Qed.

Create HintDb area_rows.
#[local] Hint Rewrite row_set_row row_delete row_insert toggle_own remove_own : area_rows.
#[local] Hint Rewrite row_set_row_ne row_delete_ne row_insert_ne toggle_other remove_other
  using done : area_rows.

Lemma call_own t ownerGuid c p :
  ownerGuid <> 0 -> Represents t ownerGuid p ->
  Represents (call ownerGuid c t) ownerGuid (policy_call p c).
Proof.
  intros H0 []. assert (Hnz : negb (nz ownerGuid) = false) by (b2p; done).
  destruct c as [es gs|b|b|es|ids|gs|]; cbn; unfold SetCurrentEncounterRestrictions, Set_,
    SetAllOffenseSuppressed, SetProtectedEncounterEntries, SetProtectedEncounterSpawnIds,
    SetAllowedEncounterGuids, Clear; rewrite Hnz.
  1: destruct es as [|e es]; cbn [list_is_empty].
  all: split; cbn -[row list_to_set]; autorewrite with area_rows; try done.
  all: symmetry; apply empty_minus.
Qed.

Lemma call_other t a b c p :
  a <> b -> Represents t b p -> Represents (call a c t) b p.
Proof.
  intros Hab H. destruct (negb (nz a)) eqn:Hnz.
  { destruct c; cbn; unfold SetCurrentEncounterRestrictions, Set_,
      SetAllOffenseSuppressed, SetProtectedEncounterEntries, SetProtectedEncounterSpawnIds,
      SetAllowedEncounterGuids, Clear; by rewrite Hnz. }
  destruct H. destruct c as [es gs|s|s|es|ids|gs|]; cbn; unfold SetCurrentEncounterRestrictions, Set_,
    SetAllOffenseSuppressed, SetProtectedEncounterEntries, SetProtectedEncounterSpawnIds,
    SetAllowedEncounterGuids, Clear; rewrite Hnz.
  1: destruct es as [|e es]; cbn [list_is_empty].
  all: split; cbn -[row list_to_set]; by autorewrite with area_rows.
Qed.

Lemma history_represents calls ownerGuid :
  ownerGuid <> 0 -> Represents (history calls) ownerGuid (policy ownerGuid calls).
Proof.
  intros H0. unfold history, policy. induction calls as [|[a c] calls IH] using rev_ind.
  - split; try done; cbn; set_solver.
  - rewrite foldl_snoc. cbn [fst snd]. rewrite List.filter_app, fmap_app, foldl_app. cbn.
    destruct (Z.eqb_spec a ownerGuid) as [->|Hne]; [by apply call_own|by apply call_other].
Qed.

(** Whatever calls are made for whatever owners, each question about an
    owner is answered from that owner's own latest settings: a target is
    protected when a future encounter claims its entry or spawn and its guid is
    not excepted, or when the current one restricts its entry and its guid is
    not allowed, and an exception to the first never lifts the second. *)
Theorem AreaAuthority_answers calls ownerGuid q :
  ownerGuid <> 0 ->
  answer ownerGuid q (history calls) = true <-> Holds (policy ownerGuid calls) q.
Proof.
  intros H0. destruct (history_represents calls ownerGuid H0) as [H1 H2 H3 H4 H5 H6 H7].
  destruct q as [| |entry| |entry|entry spawnId rawGuid]; cbn.
  - unfold IsSuppressed. by rewrite H1.
  - unfold IsAllOffenseSuppressed. by rewrite H2.
  - change (IsCurrentEncounterRestrictedEntry ownerGuid entry (history calls))
      with (in_row ownerGuid entry (CurrentRestrictedEntriesByOwner (history calls))).
    rewrite in_row_spec, H6, bool_decide_eq_true. set_solver.
  - unfold HasProtectedEncounterEntries. pose proof (has_row_spec _ _ _ H3) as E3.
    pose proof (has_row_spec _ _ _ H4) as E4. pose proof (has_row_spec _ _ _ H6) as E6.
    rewrite <- E3, <- E4, <- E6. by repeat destruct (has_row _ _); intuition.
  - unfold IsProtectedEncounterEntry. rewrite in_row_spec, H3. destruct (nz entry) eqn:E; cbn; b2p.
    + rewrite bool_decide_eq_true. set_solver.
    + split; [done|]. by intros [].
  - unfold IsProtectedEncounterTarget. rewrite (proj2 (nz_true _) H0). cbn.
    rewrite !in_row_spec, H3, H4, H5, H6, H7.
    repeat (case_bool_decide; cbn); split; try done; set_solver.
Qed.

Lemma AreaAuthority_answers_witness :
  let calls := [(7, CSetEntries [41570; 42180]); (8, CSetEntries [1]); (7, CSetAllowed [900]);
    (7, CSetCurrent [41570] [0; 901])] in
  answer 7 (QProtectedTarget 42180 5 900) (history calls) = false /\
  (answer 7 (QProtectedTarget 41570 5 900) (history calls) = true <->
   Holds (policy 7 calls) (QProtectedTarget 41570 5 900)) /\
  answer 7 (QProtectedTarget 41570 5 900) (history calls) = true.
Proof.
  split; [vm_compute; reflexivity|]. split; [|vm_compute; reflexivity].
  apply (AreaAuthority_answers _ 7 (QProtectedTarget 41570 5 900)). done.
Defined.
