(* ===== verification/CooldownReservation.v ===== *)
(** Which cooldowns a raid keeps for later:
    [Bots/BotWorldPopulationMgrRaidCooldownReservation.h]. *)
From S2P Require Import Prelude.
From Stdlib Require Import ZArith Lia String Ascii.
From Corelib Require Import SpecFloat.
From stdpp Require Import base list strings.

Open Scope Z_scope.
Open Scope tc_scope.

(** [BotCombatActionCategory] of [Bots/BotCombatActionCatalog.h]. *)
Inductive BotCombatActionCategory : Type :=
| Movement | Wait | TargetSelect | TargetSwitch | AutoAttack | Builder | Spender | Dot | Buff
| Debuff | Interrupt | StunCc | Defensive | OffensiveCooldown | Execute | Aoe | Cleave
| DispelCleanse | Taunt | ThreatBuild | Mitigation | HealEfficient | HealFast | HealAoe
| ExternalDefensive | ResurrectRecover | Loot | QuestInteract | UseItem | EmoteMechanic
| ProfessionAction | ResourceGenerator.

#[export] Instance BotCombatActionCategory_eq_dec : EqDecision BotCombatActionCategory.
Proof. solve_decision. Defined.

Record RouteContext : Type := mkRoute {
  rx_ValidationRouteEnabled : bool;
  rx_RaidInstance : bool;
  rx_EncounterInProgress : bool;
  rx_ContractAllowsReservedCooldowns : bool;
  rx_RouteKind : string;
  rx_NodeKind : string;
  rx_EncounterPhase : string
}.

Record CandidateContext : Type := mkCandidate {
  cx_Category : BotCombatActionCategory; cx_MechanicTags : string }.

(** ** Tags *)

Definition comma : string := ",".

(** The loop of [HasTag]; it ends when no comma follows [start]. *)
Fixpoint HasTag_loop (fuel : nat) (tags required : string) (start : nat) : option bool :=
  match fuel with
  | O => None
  | S fuel =>
      if (String.length tags <? start)%nat then Some false
      else
        let end_ := String.index start comma tags in
        let len := match end_ with
          | Some e => (e - start)%nat
          | None => (String.length tags - start)%nat
          end in
        if String.eqb (String.substring start len tags) required then Some true
        else match end_ with
        | None => Some false
        | Some e => HasTag_loop fuel tags required (S e)
        end
  end.

Definition HasTag (tags required : string) : bool :=
  default false (HasTag_loop (String.length tags + 2) tags required 0).

Definition HasAnyTag (tags : string) (required : list string) : bool :=
  existsb (HasTag tags) required.

(** ** The reservation window *)

Definition IsReservationWindow (route : RouteContext) : bool :=
  if negb (rx_ValidationRouteEnabled route) || negb (rx_RaidInstance route)
    || rx_ContractAllowsReservedCooldowns route then false
  else if String.eqb (rx_RouteKind route) "trash" || String.eqb (rx_RouteKind route) "regroup"
    || String.eqb (rx_RouteKind route) "prepull" || String.eqb (rx_NodeKind route) "prepull"
    || String.eqb (rx_NodeKind route) "pre_pull" then true
  else String.eqb (rx_RouteKind route) "boss" && negb (rx_EncounterInProgress route)
    && negb (String.eqb (rx_EncounterPhase route) "combat").

Definition IsEmergencyOrSurvival (candidate : CandidateContext) : bool :=
  match cx_Category candidate with
  | Defensive | Mitigation | HealEfficient | HealFast | HealAoe | ExternalDefensive
  | ResurrectRecover | DispelCleanse => true
  | _ => HasAnyTag (cx_MechanicTags candidate)
      ["emergency"; "survival"; "survival_cooldown"; "defensive"; "mitigation";
       "healing_cooldown"; "guardian_spirit"; "spirit_link_totem"]%string
  end.

Definition IsBloodlust (candidate : CandidateContext) : bool :=
  HasAnyTag (cx_MechanicTags candidate)
    ["bloodlust"; "heroism"; "time_warp"; "ancient_hysteria"; "primal_rage"; "raid_lust"; "lust"]%string.

Definition IsCombatPotion (candidate : CandidateContext) : bool :=
  if negb (bool_decide (cx_Category candidate = UseItem))
    || HasAnyTag (cx_MechanicTags candidate) ["health_potion"; "healing_potion"; "survival"]%string
  then false
  else HasAnyTag (cx_MechanicTags candidate)
    ["combat_potion"; "potion"; "volcanic_potion"; "prepot"]%string.

Definition IsOffensiveGuardian (candidate : CandidateContext) : bool :=
  HasAnyTag (cx_MechanicTags candidate)
    ["guardian"; "fire_elemental_totem"; "greater_fire_elemental"; "summon_gargoyle";
     "summon_doomguard"; "treants"]%string.

Definition ReservationReason (route : RouteContext) (candidate : CandidateContext) : option string :=
  if negb (IsReservationWindow route) || IsEmergencyOrSurvival candidate then None
  else if IsBloodlust candidate then Some "raid_bloodlust_reserved"%string
  else if IsCombatPotion candidate then Some "raid_combat_potion_reserved"%string
  else if IsOffensiveGuardian candidate then Some "raid_offensive_guardian_reserved"%string
  else if bool_decide (cx_Category candidate = OffensiveCooldown)
  then Some "raid_offensive_cooldown_reserved"%string else None.

(** ** Defensives and the boss's big hits *)

Record BossOpeningHit : Type := mkOpeningHit {
  oh_NodeId : string; oh_AfterPullMs : Z; oh_TimerSpellId : Z }.

Definition BossOpeningHits : list BossOpeningHit :=
  [mkOpeningHit "bwd.magmaw.encounter" 90000 88253].

Definition FindBossOpeningHit (nodeId : string) : option BossOpeningHit :=
  List.find (fun hit => String.eqb (oh_NodeId hit) nodeId) BossOpeningHits.

Definition BossOpeningHitAfterPullMs (nodeKind nodeId : string) : Z :=
  match (if String.eqb nodeKind "boss" then FindBossOpeningHit nodeId else None) with
  | Some hit => oh_AfterPullMs hit
  | None => 0
  end.

(** The literals [0.35f] and [0.25f]: the quotients are rounded to nearest. *)
Definition BossHitEmergencyHealthPct : f32 := f32_div (f32_of_Z 35) (f32_of_Z 100).
Definition TrashBeforeBossEmergencyHealthPct : f32 := f32_div (f32_of_Z 25) (f32_of_Z 100).

Definition BossDefensiveReservationReason (route : RouteContext) (nextBossOpeningHitMs : Z)
    (healthPct : f32) (category : BotCombatActionCategory) (cooldownMs : Z) : option string :=
  if negb (rx_ValidationRouteEnabled route) || negb (rx_RaidInstance route)
    || negb (String.eqb (rx_RouteKind route) "trash") || negb (nz nextBossOpeningHitMs)
    || f32_le healthPct TrashBeforeBossEmergencyHealthPct
    || negb (bool_decide (category = Defensive))
    || (cooldownMs <=? nextBossOpeningHitMs)
  then None else Some "raid_boss_defensive_reserved"%string.

Record BossHitTimer : Type := mkTimer { bt_Running : bool; bt_HitInProgress : bool }.

Definition BossHitDefensiveReservationReason (route : RouteContext) (bigHitSpacingMs : Z)
    (timer : BossHitTimer) (healthPct : f32) (category : BotCombatActionCategory) (cooldownMs : Z)
    : option string :=
  if negb (rx_ValidationRouteEnabled route) || negb (rx_RaidInstance route)
    || negb (String.eqb (rx_RouteKind route) "boss") || negb (rx_EncounterInProgress route)
    || negb (nz bigHitSpacingMs) || negb (bt_Running timer) || bt_HitInProgress timer
    || f32_le healthPct BossHitEmergencyHealthPct
    || negb (bool_decide (category = Defensive))
    || (cooldownMs <=? bigHitSpacingMs)
  then None else Some "raid_boss_big_hit_defensive_reserved"%string.

Definition ReturnsBeforeNextBigHit (nextHitDueMs cooldownMs leadMs : Z) : bool :=
  (cooldownMs <=? nextHitDueMs) && (leadMs <=? nextHitDueMs -32 cooldownMs).

Definition BossHitEmergencyDefensiveKeptReason (timer : BossHitTimer) (nextHitDueMs leadMs : Z)
    (healthPct : f32) (cooldownMs : Z) (shorterOptionCastable : bool) : option string :=
  if negb (bt_Running timer) || bt_HitInProgress timer
    || f32_lt BossHitEmergencyHealthPct healthPct
    || (nextHitDueMs <=? leadMs) || negb shorterOptionCastable
    || ReturnsBeforeNextBigHit nextHitDueMs cooldownMs leadMs
  then None else Some "raid_boss_big_hit_defensive_kept_for_hit"%string.

(** ** Tags are the fields between commas *)

Fixpoint fields (current text : string) : list string :=
  match text with
  | EmptyString => [current]
  | String c rest =>
      if Ascii.eqb c "," then current :: fields "" rest else fields (current ++ String c "") rest
  end.

(** The text up to the first comma, and what follows it. *)
Fixpoint split_comma (text : string) : string * option string :=
  match text with
  | EmptyString => (""%string, None)
  | String c rest =>
      if Ascii.eqb c "," then (""%string, Some rest)
      else let '(a, b) := split_comma rest in (String c a, b)
  end.

Lemma fields_split text : forall current,
  fields current text = (current ++ (split_comma text).1)%string ::
    match (split_comma text).2 with Some rest => fields "" rest | None => [] end.
Proof.
  induction text as [|c text IH]; intros current; cbn; [by rewrite app_nil_str|].
  destruct (Ascii.eqb c ","); cbn [fst snd]; [by rewrite app_nil_str|].
  rewrite IH. destruct (split_comma text) as [a b]; cbn. by rewrite app_assoc_str.
Qed.

(** The text from position [n] on. *)
Fixpoint str_drop (n : nat) (s : string) : string :=
  match n, s with
  | O, _ => s
  | S n, String _ s => str_drop n s
  | S _, EmptyString => EmptyString
  end.

Lemma str_drop_length n s : String.length (str_drop n s) = (String.length s - n)%nat.
Proof. revert n. induction s as [|c s IH]; intros [|n]; cbn; done || apply IH. Qed.

Lemma index_drop n s :
  (n <= String.length s)%nat ->
  String.index n comma s = (fun e => (n + e)%nat) <$> String.index 0 comma (str_drop n s).
Proof.
  revert n. induction s as [|c s IH]; intros [|n] Hn.
  - done.
  - cbn in Hn. lia.
  - cbn [str_drop]. by destruct (String.index 0 comma (String c s)).
  - cbn [String.index str_drop]. rewrite IH by (cbn in Hn; lia).
    by destruct (String.index 0 comma (str_drop n s)).
Qed.

Lemma substring_drop n len s : String.substring n len s = String.substring 0 len (str_drop n s).
Proof.
  revert n. induction s as [|c s IH]; intros [|n]; try done.
  - by destruct len.
  - apply IH.
Qed.

Lemma str_drop_drop n m s : str_drop m (str_drop n s) = str_drop (n + m) s.
Proof.
  revert n. induction s as [|c s IH]; intros [|n]; try done.
  - by destruct m.
  - apply IH.
Qed.

(** The first comma of a text, its first field and its rest. *)
Lemma split_comma_spec s :
  match split_comma s with
  | (a, Some rest) => String.index 0 comma s = Some (String.length a) /\
      String.substring 0 (String.length a) s = a /\ rest = str_drop (S (String.length a)) s /\
      (String.length a < String.length s)%nat
  | (a, None) => String.index 0 comma s = None /\ String.substring 0 (String.length s) s = a
  end.
Proof.
  induction s as [|c s IH]; [done|]. cbn [split_comma].
  destruct (Ascii.eqb_spec c ",") as [->|Hc].
  - split; [by destruct s|]. do 2 (split; [done|]). cbn. lia.
  - assert (Hp : String.index 0 comma (String c s) = S <$> String.index 0 comma s).
    { cbn [String.index]. replace (String.prefix comma (String c s)) with false.
      - by destruct (String.index 0 comma s).
      - unfold comma. cbn [String.prefix]. destruct (Ascii.ascii_dec "," c); [congruence|done]. }
    rewrite Hp. destruct (split_comma s) as [a [rest|]].
    + destruct IH as (-> & H2 & H3 & H4). subst rest. cbn. rewrite H2. split_and!; done || lia.
    + destruct IH as (-> & H2). cbn. by rewrite H2.
Qed.

Lemma elem_of_fields text required :
  bool_decide (required ∈ fields "" text) =
  String.eqb (split_comma text).1 required ||
  match (split_comma text).2 with
  | Some rest => bool_decide (required ∈ fields "" rest)
  | None => false
  end.
Proof.
  apply eq_true_iff_eq. rewrite orb_true_iff, bool_decide_eq_true, String.eqb_eq, fields_split.
  cbn. rewrite elem_of_cons. destruct (split_comma text) as [a [rest|]]; cbn.
  - rewrite bool_decide_eq_true. split; intros [H|H]; auto.
  - rewrite elem_of_nil. split; intros [H|H]; auto; done.
Qed.

Lemma HasTag_loop_spec fuel tags required : forall start,
  (start <= String.length tags)%nat -> (String.length tags - start < fuel)%nat ->
  HasTag_loop fuel tags required start
  = Some (bool_decide (required ∈ fields "" (str_drop start tags))).
Proof.
  induction fuel as [|fuel IH]; intros start Hs Hf; [lia|]. cbn [HasTag_loop].
  rewrite (proj2 (Nat.ltb_ge _ _)) by lia. rewrite index_drop, elem_of_fields by lia.
  pose proof (split_comma_spec (str_drop start tags)) as Hc.
  destruct (split_comma (str_drop start tags)) as [a [rest|]]; cbn [fst snd].
  - destruct Hc as (-> & Ha & -> & Hlt). rewrite str_drop_length in Hlt. cbn [fmap option_fmap option_map].
    rewrite substring_drop. replace (start + String.length a - start)%nat with (String.length a) by lia.
    rewrite Ha. destruct (String.eqb a required); [done|]. cbn [orb].
    rewrite str_drop_drop, Nat.add_succ_r. apply IH; lia.
  - destruct Hc as (-> & <-). cbn [fmap option_fmap option_map].
    rewrite substring_drop, str_drop_length, orb_false_r. by destruct (String.eqb _ _).
Qed.

(** A tag list contains a tag exactly when one of its comma-separated
    fields is that tag, the scan always ending within the text. *)
Theorem HasTag_fields tags required :
  HasTag tags required = true <-> required ∈ fields "" tags.
Proof.
  unfold HasTag. rewrite HasTag_loop_spec by lia. cbn. apply bool_decide_eq_true.
Qed.

(** ** A defensive is back in time *)

(** A cooldown counts as back before the next big hit exactly when the
    unbounded sum of the cooldown and the lead is within the time left: the
    32-bit test never wraps. *)
Theorem ReturnsBeforeNextBigHit_exact nextHitDueMs cooldownMs leadMs :
  0 <= nextHitDueMs < 2 ^ 32 -> 0 <= cooldownMs < 2 ^ 32 -> 0 <= leadMs < 2 ^ 32 ->
  ReturnsBeforeNextBigHit nextHitDueMs cooldownMs leadMs = true <->
  cooldownMs + leadMs <= nextHitDueMs.
Proof.
  intros Hn Hc Hl. unfold ReturnsBeforeNextBigHit. b2p.
  destruct (Z.le_gt_cases cooldownMs nextHitDueMs); [wrap_small; lia|]. split; lia.
Qed.

Lemma ReturnsBeforeNextBigHit_exact_witness :
  ReturnsBeforeNextBigHit 4000000000 4000000000 500000000 = false /\
  (ReturnsBeforeNextBigHit 90000 60000 3000 = true <-> 60000 + 3000 <= 90000).
Proof.
  split; [reflexivity|]. apply ReturnsBeforeNextBigHit_exact; lia.
Defined.

(** ** What is never reserved *)

Lemma f32_le_rank x y :
  f32_is_nan y = false ->
  f32_le x y = true <-> f32_is_nan x = false /\ ~ rank_lt (f32_rank y) (f32_rank x).
Proof.
  intros Hy. destruct (f32_is_nan x) eqn:Hx.
  - split; [|by intros []]. unfold f32_le, SFleb. by destruct x, y.
  - pose proof (SFcompare_rank x y Hx Hy) as H. unfold f32_le, SFleb.
    destruct (SFcompare x y) as [[]|]; try done.
    + split; [|done]. intros _. split; [done|]. rewrite H. apply rank_lt_irrefl.
    + split; [|done]. intros _. split; [done|]. intros H'.
      eapply rank_lt_irrefl, rank_lt_trans; eauto.
    + split; [done|]. by intros [_ ?].
Qed.

(** The trash threshold lies below the boss one. *)
Lemma emergency_order healthPct :
  f32_le healthPct TrashBeforeBossEmergencyHealthPct = true ->
  f32_le healthPct BossHitEmergencyHealthPct = true.
Proof.
  rewrite !f32_le_rank by reflexivity. intros [Hn Hr]. split; [done|]. intros H. apply Hr.
  eapply rank_lt_trans; [|exact H].
  change (rank_lt (1, -25, 8388608) (1, -25, 11744051)). cbn. lia.
Qed.

(** An emergency always gets its defensive: at a quarter of the health or
    less, no rule reserves one on any route, except the rule that keeps a long
    defensive for the next big hit, and that one only while a shorter survival
    option can be cast and the long one would come back too late. *)
Theorem emergency_releases_defensives route tags healthPct nextBossOpeningHitMs bigHitSpacingMs timer
    nextHitDueMs leadMs cooldownMs shorterOptionCastable :
  f32_le healthPct TrashBeforeBossEmergencyHealthPct = true ->
  0 <= nextHitDueMs < 2 ^ 32 -> 0 <= cooldownMs < 2 ^ 32 -> 0 <= leadMs < 2 ^ 32 ->
  ReservationReason route (mkCandidate Defensive tags) = None /\
  BossDefensiveReservationReason route nextBossOpeningHitMs healthPct Defensive cooldownMs = None /\
  BossHitDefensiveReservationReason route bigHitSpacingMs timer healthPct Defensive cooldownMs = None /\
  (BossHitEmergencyDefensiveKeptReason timer nextHitDueMs leadMs healthPct cooldownMs
     shorterOptionCastable <> None ->
   shorterOptionCastable = true /\ bt_HitInProgress timer = false /\ leadMs < nextHitDueMs
     < cooldownMs + leadMs).
Proof.
  intros Hh Hn Hc Hl. pose proof (emergency_order _ Hh) as Hb. split_and!.
  - unfold ReservationReason. by rewrite orb_true_r.
  - unfold BossDefensiveReservationReason. by rewrite Hh, !orb_true_r.
  - unfold BossHitDefensiveReservationReason. by rewrite Hb, !orb_true_r.
  - unfold BossHitEmergencyDefensiveKeptReason. destruct (_ || _) eqn:E; [done|]. intros _.
    rewrite !orb_false_iff in E. destruct E as [[[[[_ E1] _] E2] E3] E4].
    apply Z.leb_gt in E2. apply negb_false_iff in E3. split_and!; [done|done|done|].
    apply not_true_iff_false in E4. apply Z.nle_gt. intros Hle. apply E4.
    unfold ReturnsBeforeNextBigHit. b2p. wrap_small. lia.
Qed.

Lemma emergency_releases_defensives_witness :
  BossHitEmergencyDefensiveKeptReason (mkTimer true false) 40000 3000
    TrashBeforeBossEmergencyHealthPct 180000 true = Some "raid_boss_big_hit_defensive_kept_for_hit"%string /\
  BossHitDefensiveReservationReason (mkRoute true true true false "boss" "boss" "combat") 90000
    (mkTimer true false) TrashBeforeBossEmergencyHealthPct Defensive 180000 = None.
Proof.
  split; [vm_compute; reflexivity|].
  apply (emergency_releases_defensives (mkRoute true true true false "boss" "boss" "combat") ""
    TrashBeforeBossEmergencyHealthPct 0 90000 (mkTimer true false) 40000 3000 180000 true);
    [vm_compute; reflexivity|lia..].
Defined.
