(* ===== verification/NativeIntent.v ===== *)
(** The typed native actions a bot may submit and the lanes each one needs
    ([Bots/BotNativeActionIntent.h], [Bots/BotHazardEscapeEvidence.h]).

    An [ObjectGuid] is its raw value. The facing angle of a directional spell
    (arc tangent) is left out. *)
From S2P Require Import Prelude ActionArbiter.
From Stdlib Require Import ZArith Lia String Ascii.
From stdpp Require Import base list strings.

Open Scope Z_scope.
Open Scope tc_scope.

Record HazardEscapeBasis : Type := mkHazardBasis {
  hb_HazardGuid : Z; hb_HazardX : f32; hb_HazardY : f32; hb_HazardZ : f32 }.

Record MoveAction : Type := mkMove {
  mv_X : f32; mv_Y : f32; mv_Z : f32; mv_IntentReason : string; mv_PreemptCasting : bool;
  mv_HazardEscape : option HazardEscapeBasis; mv_DiagnosticCandidateKey : string }.

(** The constructor [Move(x, y, z, reason)]. *)
Definition Move_to (x y z : f32) (reason : string) : MoveAction :=
  mkMove x y z reason false None "".

Inductive DirectionalMobilityFacing : Type := Facing_Forward | Facing_Backward.

Record DirectionalAction : Type := mkDirectional {
  dm_X : f32; dm_Y : f32; dm_Z : f32; dm_SpellId : Z; dm_Facing : DirectionalMobilityFacing;
  dm_IntentReason : string }.

(** The reservation of a combat resurrection, the same for its three actions. *)
Record CombatRes : Type := mkCombatRes {
  cr_Target : Z; cr_SpellId : Z; cr_ReservationAtMs : Z; cr_ReservationUntilMs : Z }.

Record DescentAction : Type := mkDescent {
  nd_LandingX : f32; nd_LandingY : f32; nd_LandingZ : f32; nd_NextGoalX : f32;
  nd_NextGoalY : f32; nd_NextGoalZ : f32; nd_RouteGeneration : Z; nd_HasNextGoal : bool }.

Inductive Intent : Type :=
| CastSpell (target spellId : Z)
| Move (action : MoveAction)
| DirectionalMobility (action : DirectionalAction)
| CombatResApproach (reservation : CombatRes)
| CombatResCast (reservation : CombatRes)
| CombatResAccept (reservation : CombatRes)
| NativeDescent (action : DescentAction)
| GossipOpen (target : Z)
| GossipSelect (target menuId optionId : Z)
| SpellClick (target : Z)
| GameObjectUse (target : Z)
| AreaTrigger (triggerId : Z)
| VehicleEnter (target seat : Z)
| VehicleAction (spellId target : Z)
| VehicleExit
| PetCommand (pet target command : Z)
| UseItem (item target spellId : Z)
| ReleaseSpirit
| ReclaimCorpse (corpse : Z)
| TransportBoard (transport : Z) (floorToleranceYards : f32)
| TransportLeave (transport : Z) (floorToleranceYards : f32).

Definition WithMovementReason (intent : Intent) (reason : string) : Intent :=
  match intent with
  | Move a => Move (mkMove (mv_X a) (mv_Y a) (mv_Z a) reason (mv_PreemptCasting a)
      (mv_HazardEscape a) (mv_DiagnosticCandidateKey a))
  | DirectionalMobility a => DirectionalMobility (mkDirectional (dm_X a) (dm_Y a) (dm_Z a)
      (dm_SpellId a) (dm_Facing a) reason)
  | _ => intent
  end.

Definition WithMovementDiagnosticCandidateKey (intent : Intent) (candidateKey : string) : Intent :=
  match intent with
  | Move a => Move (mkMove (mv_X a) (mv_Y a) (mv_Z a) (mv_IntentReason a) (mv_PreemptCasting a)
      (mv_HazardEscape a) candidateKey)
  | _ => intent
  end.

(** The lanes an intent claims in the kernel. *)
Definition RequiredResources (intent : Intent) : Z :=
  match intent with
  | Move a =>
      if mv_PreemptCasting a
      then Uses Resource_Movement [Resource_GlobalCooldown; Resource_Cast]
      else Uses Resource_Movement []
  | DirectionalMobility _ => Uses Resource_Movement [Resource_GlobalCooldown; Resource_Cast]
  | NativeDescent _ | TransportBoard _ _ | TransportLeave _ _ => Uses Resource_Movement []
  | CombatResApproach _ => Uses Resource_Movement []
  | CombatResCast _ =>
      Uses Resource_Movement [Resource_GlobalCooldown; Resource_Cast; Resource_Target]
  | CombatResAccept _ => Uses Resource_Interaction [Resource_Target]
  | CastSpell _ _ => Uses Resource_GlobalCooldown [Resource_Cast; Resource_Target]
  | PetCommand _ _ _ => Uses Resource_Pet [Resource_Target]
  | VehicleAction _ _ => Uses Resource_Cast [Resource_Target]
  | UseItem _ _ _ => Uses Resource_GlobalCooldown [Resource_Cast; Resource_Target]
  | GossipOpen _ | GossipSelect _ _ _ | SpellClick _ | GameObjectUse _ | AreaTrigger _
  | VehicleEnter _ _ | VehicleExit | ReleaseSpirit | ReclaimCorpse _ =>
      Uses Resource_Interaction []
  end.

Record CandidateIdentity : Type := mkIdentity {
  ci_ScopeKey : string; ci_Strategy : string; ci_Mechanic : string; ci_Actor : Z;
  ci_EventGeneration : Z }.

(** ** What shares a lane with what *)

(** The intent walks the bot, or must keep it where it is. *)
Definition moves (intent : Intent) : bool :=
  match intent with
  | Move _ | DirectionalMobility _ | CombatResApproach _ | CombatResCast _ | NativeDescent _
  | TransportBoard _ _ | TransportLeave _ _ => true
  | _ => false
  end.

(** The intent starts a cast or uses the global cooldown. *)
Definition casts (intent : Intent) : bool :=
  match intent with
  | CastSpell _ _ | DirectionalMobility _ | CombatResCast _ | VehicleAction _ _
  | UseItem _ _ _ => true
  | Move a => mv_PreemptCasting a
  | _ => false
  end.

(** The intent chooses the bot's target. *)
Definition targets (intent : Intent) : bool :=
  match intent with
  | CastSpell _ _ | CombatResCast _ | CombatResAccept _ | PetCommand _ _ _ | VehicleAction _ _
  | UseItem _ _ _ => true
  | _ => false
  end.

(** The intent is an interaction request. *)
Definition interacts (intent : Intent) : bool :=
  match intent with
  | CombatResAccept _ | GossipOpen _ | GossipSelect _ _ _ | SpellClick _ | GameObjectUse _
  | AreaTrigger _ | VehicleEnter _ _ | VehicleExit | ReleaseSpirit | ReclaimCorpse _ => true
  | _ => false
  end.

(** Two intents conflict in the kernel exactly when both move the bot, both
    cast, both choose its target or both interact; so of two intents committed
    in one resolution at most one does each of these, and walking never blocks
    an interaction or a cast. *)
Theorem RequiredResources_conflicts a b :
  Conflicts (RequiredResources a) (RequiredResources b) =
  (moves a && moves b) || (casts a && casts b) || (targets a && targets b)
  || (interacts a && interacts b).
Proof.
  destruct a as [| m| | | | | | | | | | | | | | | | | | |];
    try destruct m as [? ? ? ? p ? ?], p;
    destruct b as [| m| | | | | | | | | | | | | | | | | | |];
    try destruct m as [? ? ? ? p ? ?], p; vm_compute; reflexivity.
Qed.
