(* ===== verification/RouteFacts.v ===== *)
(** World observations of native route contracts: what is read of live players,
    creatures and game objects, the evaluator, the fact source of completion and
    the targets of interactions and transports
    ([Bots/BotWorldPopulationMgrValidationRouteNativeFacts.cpp], and the input
    types of [..NativeRuntime.h]).

    A live object is the record of what is read of it, and the maps and grids it
    is looked up in are the record [World]; a [Player*] is its guid, a [Map*] a
    number. Where the world asserts (a player without a map) the model does not
    go: [pl_Map] is the map of a player that has one. *)
From S2P Require Import Prelude RouteTypes RouteInteraction RouteCompletion.
From Stdlib Require Import ZArith Lia String Ascii.
From stdpp Require Import base gmap list strings.

Open Scope Z_scope.
Open Scope tc_scope.

(** ** Live objects *)

Record PlayerFacts : Type := mkPlayer {
  pl_Guid : Z;
  pl_IsInWorld : bool;
  pl_IsAlive : bool;
  pl_Map : Z;
  pl_TransportGuid : option Z;
  (** Entry of the vehicle's base unit. *)
  pl_VehicleBase : option Z;
  pl_TransSeat : Z
}.

Record CreatureFacts : Type := mkCreature {
  cf_Guid : Z; cf_Entry : Z; cf_SpawnId : Z; cf_IsInWorld : bool; cf_IsAlive : bool;
  cf_NotSelectable : bool; cf_NpcFlags : Z; cf_ReactAggressive : bool; cf_InCombat : bool;
  cf_Flying : bool; cf_HasVictim : bool; cf_AppliedAuras : list Z;
  cf_X : f32; cf_Y : f32; cf_Z : f32 }.

Record GameObjectFacts : Type := mkGameObject {
  gf_Guid : Z; gf_Entry : Z; gf_SpawnId : Z; gf_Map : Z; gf_IsInWorld : bool;
  gf_IsSpawned : bool; gf_NotSelectable : bool;
  (** [GAMEOBJECT_TYPE_TRANSPORT] with a transport base, and what
      [ObserveTransport] reads of it. *)
  gf_IsTransport : bool; gf_Transport : TransportFact;
  gf_X : f32; gf_Y : f32; gf_Z : f32 }.

Record World : Type := mkWorld {
  (** The spawn-id stores of a map. *)
  wd_GameObjectsBySpawn : Z -> Z -> list GameObjectFacts;
  wd_CreaturesBySpawn : Z -> Z -> list CreatureFacts;
  (** The grid search by entry around a player, within [TargetSearchRadius]. *)
  wd_GameObjectsNear : Z -> Z -> list GameObjectFacts;
  wd_CreaturesNear : Z -> Z -> list CreatureFacts;
  (** [Map::GetGameObject]. *)
  wd_GameObject : Z -> Z -> option GameObjectFacts;
  (** [Map::GetId]; the map id of a spawn's data; whether its grid is loaded. *)
  wd_MapId : Z -> Z;
  wd_GameObjectData : Z -> option Z;
  wd_IsGridLoaded : Z -> Z -> bool;
  (** The instance script of a map: encounter count and boss states. *)
  wd_InstanceScript : Z -> option (Z * (Z -> Z))
}.

Record MemberInput : Type := mkMemberInput {
  mi_Bot : option PlayerFacts; mi_OnRouteInstance : bool }.

(** ** Facts of objects *)

Definition FromCreature (creature : CreatureFacts) : ActorFact :=
  mkActorFact (cf_Entry creature) (cf_SpawnId creature) (cf_IsAlive creature)
    (cf_IsInWorld creature) (negb (cf_NotSelectable creature)) (nz (cf_NpcFlags creature))
    (cf_ReactAggressive creature) (cf_InCombat creature) (cf_Flying creature)
    (cf_HasVictim creature) (cf_AppliedAuras creature).

Definition FromGameObject (object : GameObjectFacts) : ActorFact :=
  let selectable := gf_IsSpawned object && negb (gf_NotSelectable object) in
  mkActorFact (gf_Entry object) (gf_SpawnId object) (gf_IsSpawned object) (gf_IsSpawned object)
    selectable selectable false false false false [].

Section Facts.
Variable w : World.

Definition FindGameObjects (observer : option PlayerFacts) (entry spawnId : Z)
    : list GameObjectFacts :=
  match observer with
  | None => []
  | Some observer =>
      if nz spawnId
      then List.filter (fun object => gf_IsInWorld object
             && (negb (nz entry) || (gf_Entry object =? entry)))
             (wd_GameObjectsBySpawn w (pl_Map observer) (u32 spawnId))
      else List.filter gf_IsInWorld (wd_GameObjectsNear w (pl_Guid observer) entry)
  end.

Definition FindCreatures (observer : option PlayerFacts) (entry spawnId : Z)
    : list CreatureFacts :=
  match observer with
  | None => []
  | Some observer =>
      if nz spawnId
      then List.filter (fun creature => cf_IsInWorld creature
             && (negb (nz entry) || (cf_Entry creature =? entry)))
             (wd_CreaturesBySpawn w (pl_Map observer) (u32 spawnId))
      else List.filter cf_IsInWorld (wd_CreaturesNear w (pl_Guid observer) entry)
  end.

Definition GameObjectAbsenceAuthoritative (map : option Z) (spawnId : Z) : bool :=
  match map with
  | Some map =>
      nz spawnId &&
      match wd_GameObjectData w (u32 spawnId) with
      | Some mapId => (mapId =? wd_MapId w map) && wd_IsGridLoaded w map (u32 spawnId)
      | None => false
      end
  | None => false
  end.

(** ** Transports and interaction targets *)

Record TransportTarget : Type := mkTransportTarget {
  tt_Object : option GameObjectFacts; tt_Fact : TransportFact }.

Definition TransportFact_default : TransportFact :=
  mkTransportFact false false 0 0 0 false f32_zero f32_zero f32_zero f32_zero f32_zero.

(** Two of them: present and ambiguous. *)
Definition TransportFact_ambiguous : TransportFact :=
  mkTransportFact true true 0 0 0 false f32_zero f32_zero f32_zero f32_zero f32_zero.

Definition ResolveTransport (observer : option PlayerFacts) (entry spawnId : Z)
    : TransportTarget :=
  match List.filter gf_IsTransport (FindGameObjects observer entry spawnId) with
  | [] => mkTransportTarget None TransportFact_default
  | [object] => mkTransportTarget (Some object) (gf_Transport object)
  | _ => mkTransportTarget None TransportFact_ambiguous
  end.

Definition OnTransport (member : PlayerFacts) (transport : option GameObjectFacts) : bool :=
  match pl_TransportGuid member, transport with
  | Some current, Some transport => current =? gf_Guid transport
  | _, _ => false
  end.

(** A [WorldObject*]: one of the two kinds of candidates. *)
Inductive WorldObject : Type := WObject (object : GameObjectFacts) | WCreature (creature : CreatureFacts).

Record ResolvedTarget : Type := mkResolvedTarget {
  rt_Object : option WorldObject; rt_Ambiguous : bool }.

Definition is_target (target : TargetType) (kind : TargetType) : bool :=
  bool_decide (target = kind) || bool_decide (target = TargetType_Any).

Definition target_candidates (bot : option PlayerFacts) (contract : InteractionContract)
    : list WorldObject :=
  (if is_target (ic_Target contract) TargetType_GameObject
   then map WObject (List.filter gf_IsSpawned
     (FindGameObjects bot (ic_Entry contract) (ic_SpawnId contract))) else [])
  ++ (if is_target (ic_Target contract) TargetType_Creature
   then map WCreature (List.filter cf_IsAlive
     (FindCreatures bot (ic_Entry contract) (ic_SpawnId contract))) else []).

Definition ResolveInteractionTarget (bot : option PlayerFacts) (contract : InteractionContract)
    : ResolvedTarget :=
  match target_candidates bot contract with
  | [] => mkResolvedTarget None false
  | [object] => mkResolvedTarget (Some object) false
  | _ => mkResolvedTarget None true
  end.

(** ** The fact source of completion *)

(** [ServerFacts::Members], one member; [map] is the evaluator's. *)
Definition member_fact (map : option Z) (owner : Z) (input : MemberInput) (member : PlayerFacts)
    : MemberFact :=
  let onRoute := mi_OnRouteInstance input && pl_IsInWorld member
    && bool_decide (map = Some (pl_Map member)) in
  let transport :=
    match pl_TransportGuid member with
    | Some guid => wd_GameObject w (pl_Map member) guid
    | None => None
    end in
  let isOwner := pl_Guid member =? owner in
  if onRoute then
    mkMemberFact (pl_Guid member) (pl_IsAlive member) true isOwner
      (bool_decide (is_Some (pl_TransportGuid member)))
      (match transport with Some object => gf_Entry object | None => 0 end)
      (match transport with Some object => gf_SpawnId object | None => 0 end)
      (match pl_VehicleBase member with Some entry => entry | None => 0 end)
      (match pl_VehicleBase member with Some _ => pl_TransSeat member | None => -1 end)
  else mkMemberFact (pl_Guid member) (pl_IsAlive member) false isOwner false 0 0 0 (-1).

Definition member_facts (map : option Z) (owner : Z) (members : list MemberInput)
    : list MemberFact :=
  flat_map (fun input =>
    match mi_Bot input with Some member => [member_fact map owner input member] | None => [] end)
    members.

Definition ServerFacts (evaluator : option PlayerFacts) (members : list MemberInput) (owner : Z)
    : FactSource :=
  let map := pl_Map <$> evaluator in
  mkFactSource
    (fun entry spawnId => List.map FromCreature (FindCreatures evaluator entry spawnId))
    (fun entry spawnId =>
      mkObjectQuery (List.map FromGameObject (FindGameObjects evaluator entry spawnId))
        (nz spawnId && GameObjectAbsenceAuthoritative map spawnId))
    (fun index =>
      match map ≫= wd_InstanceScript w with
      | Some (count, state) => if count <=? index then None else Some (u32 (state index))
      | None => None
      end)
    (member_facts map owner members)
    (fun entry spawnId => tt_Fact (ResolveTransport evaluator entry spawnId)).

(** [Facts::EvaluateCompletion]. *)
Definition EvaluateFacts (contract : CompletionContract) (evaluator : option PlayerFacts)
    (members : list MemberInput) (ownerGuid : Z) (memory : CompletionMemory)
    : Verdict * CompletionMemory :=
  match evaluator with
  | None => (mkVerdict false "no_evaluator_in_route_instance", memory)
  | Some _ => EvaluateCompletion contract (ServerFacts evaluator members ownerGuid) memory
  end.

End Facts.

(** ** The evaluator *)

(** One round of the loop: the lowest living and the lowest member so far. *)
Definition select_round (best : option PlayerFacts * option PlayerFacts) (member : MemberInput)
    : option PlayerFacts * option PlayerFacts :=
  let '(living, any) := best in
  match mi_Bot member with
  | Some bot =>
      if negb (mi_OnRouteInstance member) || negb (pl_IsInWorld bot) then best
      else
        let lower current :=
          match current with Some c => pl_Guid bot <? pl_Guid c | None => true end in
        (if pl_IsAlive bot && lower living then Some bot else living,
         if lower any then Some bot else any)
  | None => best
  end.

Definition SelectEvaluator (members : list MemberInput) : option PlayerFacts :=
  let '(living, any) := foldl select_round (None, None) members in
  match living with Some _ => living | None => any end.

(** ** Who evaluates *)

(** A loaded member in the world of the route's instance. *)
Definition observer (member : MemberInput) : option PlayerFacts :=
  match mi_Bot member with
  | Some bot => if mi_OnRouteInstance member && pl_IsInWorld bot then Some bot else None
  | None => None
  end.

Definition lowest (players : list PlayerFacts) (best : option PlayerFacts) : Prop :=
  match best with
  | None => players = []
  | Some p => p ∈ players /\ Forall (fun q => pl_Guid p <= pl_Guid q) players
  end.

Lemma lowest_snoc players best p : lowest players best ->
  lowest (players ++ [p])
    (if match best with Some c => pl_Guid p <? pl_Guid c | None => true end then Some p else best).
Proof.
  destruct best as [c|]; cbn [lowest].
  - intros [Hin Hall]. destruct (Z.ltb_spec (pl_Guid p) (pl_Guid c)) as [Hlt|Hge]; cbn [lowest].
    + split; [set_solver|]. rewrite Forall_app, Forall_singleton. split; [|lia].
      eapply Forall_impl; [done|]. cbn. lia.
    + split; [set_solver|]. by rewrite Forall_app, Forall_singleton.
  - intros ->. split; [set_solver|]. by apply Forall_singleton.
Qed.

Lemma select_rounds members :
  let '(living, any) := foldl select_round (None, None) members in
  lowest (List.filter pl_IsAlive (omap observer members)) living /\
  lowest (omap observer members) any.
Proof.
  induction members as [|m members IH] using rev_ind; [done|]. rewrite foldl_app. cbn [foldl].
  destruct (foldl _ _ members) as [living any]. destruct IH as [Hl Ha].
  rewrite omap_app, List.filter_app. unfold select_round. cbn [omap list_omap].
  assert (Hsame : observer m = None -> lowest (List.filter pl_IsAlive (omap observer members) ++
      List.filter pl_IsAlive (match observer m with Some y => [y] | None => [] end)) living /\
    lowest (omap observer members ++ match observer m with Some y => [y] | None => [] end) any).
  { intros ->. cbn. by rewrite !app_nil_r. }
  unfold observer in *. destruct (mi_Bot m) as [bot|]; [|by apply Hsame].
  destruct (mi_OnRouteInstance m), (pl_IsInWorld bot); cbn [negb orb andb]; try (by apply Hsame).
  split; [|by apply lowest_snoc]. cbn. destruct (pl_IsAlive bot); cbn [andb].
  - by apply lowest_snoc.
  - by rewrite app_nil_r.
Qed.

(** The evaluator is the living member of the route's instance with the lowest
    guid, the lowest member there when all are dead, and none when none is
    there; so every member of a cohort that sees the same members picks the
    same one. *)
Theorem SelectEvaluator_spec members :
  let present := omap observer members in
  let living := List.filter pl_IsAlive present in
  (living <> [] -> lowest living (SelectEvaluator members)) /\
  (living = [] -> lowest present (SelectEvaluator members)).
Proof.
  cbv zeta. unfold SelectEvaluator. pose proof (select_rounds members) as H.
  destruct (foldl _ _ _) as [living any]. destruct H as [Hl Ha]. destruct living as [p|].
  - split; [done|]. intros E. cbn in Hl. rewrite E in Hl. by destruct Hl as [?%elem_of_nil _].
  - by cbn in Hl.
Qed.
