(* ===== verification/RouteRuntime.v ===== *)
(** The tick of native route contracts: one bot's run over the node's shared
    runtime, what it records and submits, and what the outcomes of its
    submissions do later
    ([Bots/BotWorldPopulationMgrValidationRouteNativeRuntime.cpp]).

    A run is a function of the node's runtime and of what the bot observes; the
    callbacks and the kernel submissions are the list of its effects, in order.
    The callbacks are set, as the only caller sets them. A submitted candidate
    keeps an [Observer] for the outcome of its attempt, which may come in a
    later tick, or in another scope. *)
From S2P Require Import Prelude ActionArbiter Doubles NativeIntent RouteTypes RouteInteraction RouteCompletion RouteTransport RouteFacts.
From Stdlib Require Import ZArith Lia String Ascii.
From stdpp Require Import base gmap list strings.

Open Scope Z_scope.
Open Scope tc_scope.

(** ** Inputs *)

Record RosterMember : Type := mkRosterMember { rm_Slot : Z; rm_Role : string }.

(** What is read of the acting bot and of what it can touch. A distance is from
    the bot to a point, a floor test has the tolerance as its argument. *)
Record Senses : Type := mkSenses {
  se_HasVehicle : bool;
  se_Moving : bool;
  se_Falling : bool;
  se_RunSpeed : f32;
  se_Distance : f32 -> f32 -> f32 -> f32;
  (** [PathLengthTo]: the length of the native path. *)
  se_PathLengthTo : Point3 -> f32;
  se_StaticFloorUnderfoot : f32 -> bool;
  (** The floor of a transport, and whether its model is available. *)
  se_TransportFloorUnderfoot : GameObjectFacts -> f32 -> bool * bool;
  se_RestRemainingAtLevelMs : GameObjectFacts -> f32 -> f32 -> Z;
  (** The area trigger store: continent and position; the native radius test. *)
  se_AreaTrigger : Z -> option (Z * (f32 * f32 * f32));
  se_IsInAreaTriggerRadius : Z -> bool;
  se_IsAtInteractDistance : GameObjectFacts -> bool;
  se_IsWithinDistInMap : CreatureFacts -> f32 -> bool;
  se_GossipMenuId : Z;
  se_GossipSourceGuid : Z;
  (** Distance from another member to the exit point. *)
  se_MemberDistance : Z -> f32 -> f32 -> f32 -> f32
}.

Record Input : Type := mkInput {
  in_Bot : option PlayerFacts;
  (** State, board, node, situation and action are all set. *)
  in_Complete : bool;
  in_ScopeKey : string;
  in_Revision : Z;
  in_AnchorX : f32;
  in_AnchorY : f32;
  in_AnchorZ : f32;
  in_Members : list MemberInput;
  in_Roster : gmap Z RosterMember;
  in_Scope : RuntimeScope;
  in_NowMs : Z;
  in_Tick : Z;
  in_CompletionAlreadyRecorded : bool;
  in_World : World;
  in_Senses : Senses
}.

Record Result : Type := mkResult { rt_OwnsNode : bool; rt_Satisfied : bool }.

(** ** Effects *)

(** What the outcome of a submitted attempt is counted for. *)
Inductive Observer : Type :=
| NoObserver
| CountAttempt (scope : RuntimeScope) (nowMs : Z)
| CountSubmission (scope : RuntimeScope) (guid : Z) (boarding : bool).

Inductive SubmittedAction : Type :=
| Native (id : CandidateIdentity) (intent : Intent)
| HoldMovement (key reason : string)
| StopMovement (key reason : string).

Record Submission : Type := mkSubmission {
  sb_Action : SubmittedAction; sb_Priority : Priority; sb_Utility : f32; sb_Resources : Z;
  sb_ExpiresAtMs : Z; sb_Label : string; sb_Observer : Observer }.

Inductive Effect : Type :=
| Record_ (reason : string) (target : option WorldObject) (value : f32) (entry : Z)
| Complete (label : string)
| Fail (reason : string)
| Submit_ (submission : Submission).

(** ** Assignments to the runtime *)

Definition set_Attempt (a : AttemptState) (r : NodeRuntime) : NodeRuntime :=
  mkNodeRuntime (nr_Scope r) (nr_Started r) (nr_StartedAtMs r) a (nr_Completion r)
    (nr_TransportMembers r) (nr_VerdictValid r) (nr_VerdictTick r) (nr_VerdictSatisfied r)
    (nr_VerdictReason r) (nr_CompletionRecorded r) (nr_FailureRecorded r) (nr_LastDiagnostic r).

Definition set_Completion (m : CompletionMemory) (r : NodeRuntime) : NodeRuntime :=
  mkNodeRuntime (nr_Scope r) (nr_Started r) (nr_StartedAtMs r) (nr_Attempt r) m
    (nr_TransportMembers r) (nr_VerdictValid r) (nr_VerdictTick r) (nr_VerdictSatisfied r)
    (nr_VerdictReason r) (nr_CompletionRecorded r) (nr_FailureRecorded r) (nr_LastDiagnostic r).

Definition set_TransportMembers (m : gmap Z TransportMemberState) (r : NodeRuntime) : NodeRuntime :=
  mkNodeRuntime (nr_Scope r) (nr_Started r) (nr_StartedAtMs r) (nr_Attempt r) (nr_Completion r)
    m (nr_VerdictValid r) (nr_VerdictTick r) (nr_VerdictSatisfied r)
    (nr_VerdictReason r) (nr_CompletionRecorded r) (nr_FailureRecorded r) (nr_LastDiagnostic r).

Definition set_Verdict (tick : Z) (satisfied : bool) (reason : string) (r : NodeRuntime)
    : NodeRuntime :=
  mkNodeRuntime (nr_Scope r) (nr_Started r) (nr_StartedAtMs r) (nr_Attempt r) (nr_Completion r)
    (nr_TransportMembers r) true tick satisfied reason (nr_CompletionRecorded r)
    (nr_FailureRecorded r) (nr_LastDiagnostic r).

Definition set_CompletionRecorded (r : NodeRuntime) : NodeRuntime :=
  mkNodeRuntime (nr_Scope r) (nr_Started r) (nr_StartedAtMs r) (nr_Attempt r) (nr_Completion r)
    (nr_TransportMembers r) (nr_VerdictValid r) (nr_VerdictTick r) (nr_VerdictSatisfied r)
    (nr_VerdictReason r) true (nr_FailureRecorded r) (nr_LastDiagnostic r).

Definition set_FailureRecorded (r : NodeRuntime) : NodeRuntime :=
  mkNodeRuntime (nr_Scope r) (nr_Started r) (nr_StartedAtMs r) (nr_Attempt r) (nr_Completion r)
    (nr_TransportMembers r) (nr_VerdictValid r) (nr_VerdictTick r) (nr_VerdictSatisfied r)
    (nr_VerdictReason r) (nr_CompletionRecorded r) true (nr_LastDiagnostic r).

Definition set_LastDiagnostic (reason : string) (r : NodeRuntime) : NodeRuntime :=
  mkNodeRuntime (nr_Scope r) (nr_Started r) (nr_StartedAtMs r) (nr_Attempt r) (nr_Completion r)
    (nr_TransportMembers r) (nr_VerdictValid r) (nr_VerdictTick r) (nr_VerdictSatisfied r)
    (nr_VerdictReason r) (nr_CompletionRecorded r) (nr_FailureRecorded r) reason.

(** [TransportMembers[guid]]: a member without a state gets the default one. *)
Definition member_state (guid : Z) (r : NodeRuntime) : TransportMemberState :=
  default TransportMemberState_default (nr_TransportMembers r !! guid).

Definition set_member (guid : Z) (s : TransportMemberState) (r : NodeRuntime) : NodeRuntime :=
  set_TransportMembers (<[guid := s]> (nr_TransportMembers r)) r.

Definition set_LastReason (reason : string) (s : TransportMemberState) : TransportMemberState :=
  mkMemberState (ms_Boarded s) (ms_Left s) (ms_BoardSubmissions s) (ms_LeaveSubmissions s)
    (ms_FailedSubmissions s) (ms_PlatformFloorSeen s) (ms_FloorlessObservations s)
    (ms_FloorlessSinceMs s) reason.

(** ** The monad of a run: the runtime and the effects so far *)

Definition M (A : Type) : Type := NodeRuntime -> A * NodeRuntime * list Effect.

Definition ret {A} (a : A) : M A := fun r => (a, r, []).
Definition bind {A B} (m : M A) (k : A -> M B) : M B := fun r =>
  let '(a, r, effects) := m r in
  let '(b, r, effects') := k a r in (b, r, effects ++ effects').
Definition read : M NodeRuntime := fun r => (r, r, []).
Definition modify (f : NodeRuntime -> NodeRuntime) : M unit := fun r => (tt, f r, []).
Definition emit (effect : Effect) : M unit := fun r => (tt, r, [effect]).

Declare Scope run_scope.
Delimit Scope run_scope with run.
Notation "x <- m ;; k" := (bind m (fun x => k))
  (at level 100, m at next level, right associativity) : run_scope.
Notation "m ;; k" := (bind m (fun _ => k)) (at level 100, right associativity) : run_scope.
Open Scope run_scope.

(** ** Submissions *)

Definition Submit (input : Input) (mechanic : string) (actor : Z) (priority : Priority)
    (utility : f32) (intent : Intent) (actionLabel : string) (observe : Observer) : M unit :=
  emit (Submit_ (mkSubmission
    (Native (mkIdentity (in_ScopeKey input) "native_route_interaction" mechanic actor
      (in_Revision input)) intent)
    priority utility (RequiredResources intent) (in_NowMs input +64 500) actionLabel observe)).

Definition SubmitHold (input : Input) (reason : string) : M unit :=
  emit (Submit_ (mkSubmission
    (HoldMovement (in_ScopeKey input ++ ":native_route_hold") reason)
    Priority_Mechanic (f32_of_Z 1) (Uses Resource_Movement []) (in_NowMs input +64 500)
    ("native_route_" ++ reason) NoObserver)).

Definition SubmitStop (input : Input) (reason : string) : M unit :=
  emit (Submit_ (mkSubmission
    (StopMovement (in_ScopeKey input ++ ":native_route_stop") reason)
    Priority_Mechanic (f32_of_Z 5) (Uses Resource_Movement []) (in_NowMs input +64 500)
    ("native_route_" ++ reason) NoObserver)).

Definition FailOnce (reason : string) : M unit :=
  runtime <- read ;;
  if nr_FailureRecorded runtime then ret tt
  else modify set_FailureRecorded ;; emit (Fail reason).

(** [RecordOnChange] on the runtime's own diagnostic. *)
Definition RecordDiagnostic (reason : string) (target : option WorldObject) (value : f32)
    (entry : Z) : M unit :=
  runtime <- read ;;
  if String.eqb (nr_LastDiagnostic runtime) reason then ret tt
  else modify (set_LastDiagnostic reason) ;; emit (Record_ reason target value entry).

(** [RecordOnChange] on a member's reason. *)
Definition RecordMember (guid : Z) (reason : string) (target : option WorldObject) (value : f32)
    (entry : Z) : M unit :=
  runtime <- read ;;
  let member := member_state guid runtime in
  if String.eqb (ms_LastReason member) reason then ret tt
  else modify (set_member guid (set_LastReason reason member)) ;;
       emit (Record_ reason target value entry).

Definition Retried (outcome : Outcome) : bool :=
  bool_decide (oc_Result outcome = Disposition_Retryable)
  || bool_decide (oc_Result outcome = Disposition_Unsafe).

(** ** What an outcome does *)

Definition count_submission (boarding : bool) (outcome : Outcome) (s : TransportMemberState)
    : TransportMemberState :=
  let committed := bool_decide (oc_Result outcome = Disposition_Committed) in
  mkMemberState (ms_Boarded s) (ms_Left s)
    (if committed && boarding then ms_BoardSubmissions s +32 1 else ms_BoardSubmissions s)
    (if committed && negb boarding then ms_LeaveSubmissions s +32 1 else ms_LeaveSubmissions s)
    (if negb committed && Retried outcome then ms_FailedSubmissions s +32 1
     else ms_FailedSubmissions s)
    (ms_PlatformFloorSeen s) (ms_FloorlessObservations s) (ms_FloorlessSinceMs s)
    (ms_LastReason s).

(** The observer of a submission, when its attempt has an outcome. *)
Definition Observe (observer : Observer) (outcome : Outcome) : M unit :=
  match observer with
  | NoObserver => ret tt
  | CountAttempt scope now =>
      runtime <- read ;;
      if negb (RuntimeScope_eqb (nr_Scope runtime) scope) then ret tt
      else if bool_decide (oc_Result outcome = Disposition_Committed) || Retried outcome
      then modify (fun r => set_Attempt (RecordAttempt (nr_Attempt r) now) r)
      else ret tt
  | CountSubmission scope guid boarding =>
      runtime <- read ;;
      if negb (RuntimeScope_eqb (nr_Scope runtime) scope) then ret tt
      else
        modify (fun r => set_member guid (count_submission boarding outcome (member_state guid r)) r) ;;
        if bool_decide (oc_Result outcome = Disposition_Unsafe) then FailOnce (oc_Reason outcome)
        else ret tt
  end.

(** ** The interaction of a tick *)

(** [MemberViews]. *)
Definition member_view (input : Input) (member : MemberInput) : list MemberView :=
  match mi_Bot member with
  | None => []
  | Some bot =>
      let roster := in_Roster input !! pl_Guid bot in
      [mkMemberView (pl_Guid bot) (mi_OnRouteInstance member && pl_IsAlive bot)
         (match roster with Some r => rm_Role r | None => ""%string end)
         (match roster with Some r => rm_Slot r | None => 0 end)]
  end.

Definition MemberViews (input : Input) : list MemberView :=
  flat_map (member_view input) (in_Members input).

(** [int8(seat)]. *)
Definition i8 (n : Z) : Z := if u8 n <? 128 then u8 n else u8 n - 256.

Definition INTERACTION_DISTANCE : f32 := f32_of_Z 5.

(** [std::min] and [std::max] of floats. *)
Definition f32_min (a b : f32) : f32 := if f32_lt b a then b else a.
Definition f32_max (a b : f32) : f32 := if f32_lt a b then b else a.

Definition target_position (target : WorldObject) : f32 * f32 * f32 :=
  match target with
  | WObject object => (gf_X object, gf_Y object, gf_Z object)
  | WCreature creature => (cf_X creature, cf_Y creature, cf_Z creature)
  end.

Definition target_guid (target : option WorldObject) : Z :=
  match target with
  | Some (WObject object) => gf_Guid object
  | Some (WCreature creature) => cf_Guid creature
  | None => 0
  end.

Definition target_in_range (contract : InteractionContract) (se : Senses) (target : WorldObject)
    : bool :=
  match target with
  | WObject object => se_IsAtInteractDistance se object
  | WCreature creature =>
      se_IsWithinDistInMap se creature
        (if f32_gt (ic_RangeYards contract) f32_zero
         then f32_min (ic_RangeYards contract) INTERACTION_DISTANCE else INTERACTION_DISTANCE)
  end.

(** The observation, the target and its position. *)
Definition ObserveInteraction (input : Input) (bot : PlayerFacts) (contract : InteractionContract)
    : InteractionObservation * option WorldObject * (f32 * f32 * f32) :=
  let se := in_Senses input in
  let nowhere := (f32_zero, f32_zero, f32_zero) in
  if bool_decide (ic_Action contract = InteractionAction_AreaTrigger) then
    match se_AreaTrigger se (ic_AreaTriggerId contract) with
    | Some (continent, position) =>
        if continent =? wd_MapId (in_World input) (pl_Map bot)
        then (mkInteractionObservation true false
                (se_IsInAreaTriggerRadius se (ic_AreaTriggerId contract)) false 0, None, position)
        else (mkInteractionObservation false false false false 0, None, nowhere)
    | None => (mkInteractionObservation false false false false 0, None, nowhere)
    end
  else
    let resolved := ResolveInteractionTarget (in_World input) (Some bot) contract in
    match rt_Object resolved with
    | Some target =>
        (mkInteractionObservation true (rt_Ambiguous resolved) (target_in_range contract se target)
           (se_GossipSourceGuid se =? target_guid (Some target)) (se_GossipMenuId se),
         Some target, target_position target)
    | None =>
        (mkInteractionObservation false (rt_Ambiguous resolved) false false 0, None, nowhere)
    end.

(** The intent of a step; [None] for the steps that submit none. *)
Definition StepIntent (contract : InteractionContract) (step : InteractionStep)
    (targetGuid currentMenu : Z) (position : f32 * f32 * f32) : option Intent :=
  let '(x, y, z) := position in
  match step with
  | InteractionStep_Hold | InteractionStep_Fail => None
  | InteractionStep_Approach => Some (Move (Move_to x y z "native_interaction_approach"))
  | InteractionStep_Use => Some (GameObjectUse targetGuid)
  | InteractionStep_GossipOpen => Some (GossipOpen targetGuid)
  | InteractionStep_GossipSelect => Some (GossipSelect targetGuid currentMenu (ic_Option contract))
  | InteractionStep_SpellClick => Some (SpellClick targetGuid)
  | InteractionStep_VehicleEnter => Some (VehicleEnter targetGuid (i8 (ic_Seat contract)))
  | InteractionStep_AreaTrigger => Some (AreaTrigger (ic_AreaTriggerId contract))
  end.

(** Everyone but the owner holds or gathers at the node's anchor. *)
Definition RunBystander (input : Input) (bot : PlayerFacts) (contract : InteractionContract)
    : M unit :=
  if ic_Gather contract && pl_IsAlive bot
    && f32_gt (se_Distance (in_Senses input) (in_AnchorX input) (in_AnchorY input)
         (in_AnchorZ input)) (ic_GatherRadiusYards contract)
  then Submit input "gather" (pl_Guid bot) Priority_RouteMovement (f32_of_Z 1)
         (Move (Move_to (in_AnchorX input) (in_AnchorY input) (in_AnchorZ input)
            "native_interaction_gather")) "native_route_interaction_gather" NoObserver
  else ret tt.

Definition RunOwner (input : Input) (bot : PlayerFacts) (contract : InteractionContract)
    : M unit :=
  let '(observation, target, position) := ObserveInteraction input bot contract in
  runtime <- read ;;
  let gate := EvaluateAttemptGate contract (nr_Attempt runtime) (nr_StartedAtMs runtime)
    (in_NowMs input) in
  let decision := DecideInteraction contract observation gate in
  RecordDiagnostic (id_Reason decision) target (f32_of_Z (as_Attempts (nr_Attempt runtime)))
    (ic_Entry contract) ;;
  match StepIntent contract (id_Step decision) (target_guid target)
          (io_CurrentGossipMenu observation) position with
  | None =>
      if bool_decide (id_Step decision = InteractionStep_Fail)
      then FailOnce (id_Reason decision) else ret tt
  | Some intent =>
      Submit input (ic_ActionName contract) (target_guid target) Priority_Mechanic (f32_of_Z 6)
        intent "native_route_interaction_submitted"
        (if id_CountsAsAttempt decision then CountAttempt (in_Scope input) (in_NowMs input)
         else NoObserver)
  end.

Definition RunInteraction (input : Input) (bot : PlayerFacts) (contract : InteractionContract)
    (election : OwnerElection) : M unit :=
  (if nz (el_Owner election) then ret tt
   else RecordDiagnostic (el_Reason election) None f32_zero 0) ;;
  if negb (el_Owner election =? pl_Guid bot) then RunBystander input bot contract
  else RunOwner input bot contract.

(** ** The transport of a tick *)

Definition point_distance (se : Senses) (point : Point3) : f32 :=
  if p_Valid point then se_Distance se (p_X point) (p_Y point) (p_Z point) else f32_zero.

(** [uint64(walk / runSpeed * 1000.0f)], for a walk in range. *)
Definition travel_ms (walk runSpeed : f32) : Z :=
  u64 (f64_trunc (f32_mul (f32_div walk runSpeed) (f32_of_Z 1000))).

(** [0.1f]. *)
Definition min_run_speed : f32 := f32_div (f32_of_Z 1) (f32_of_Z 10).

(** The observation, and whether the platform's model is available. *)
Definition ObserveTransportMember (input : Input) (bot : PlayerFacts)
    (contract : TransportContract) (transport : TransportTarget)
    : TransportMemberObservation * bool :=
  let se := in_Senses input in
  let onThis := OnTransport bot (tt_Object transport) in
  let ready := TransportReadyToBoard contract (tt_Fact transport) in
  let staticFloor := se_StaticFloorUnderfoot se (tc_FloorToleranceYards contract) in
  let '(platformFloor, modelAvailable) :=
    match tt_Object transport with
    | Some object => se_TransportFloorUnderfoot se object (tc_FloorToleranceYards contract)
    | None => (false, true)
    end in
  let rest :=
    match tt_Object transport with
    | Some object =>
        if ready then
          if 0 <=? tc_BoardStopFrame contract then UnboundedRestMs
          else se_RestRemainingAtLevelMs se object (tc_BoardTransportZ contract)
                 (tc_LevelToleranceYards contract)
        else 0
    | None => 0
    end in
  let toBoard := point_distance se (tc_BoardPoint contract) in
  let travel :=
    if ready && p_Valid (tc_BoardPoint contract) then
      travel_ms (if platformFloor && negb staticFloor then toBoard
                 else se_PathLengthTo se (tc_BoardPoint contract))
        (f32_max (se_RunSpeed se) min_run_speed)
    else 0 in
  (mkMemberObservation (pl_IsAlive bot) (tf_Present (tt_Fact transport))
     (tf_Ambiguous (tt_Fact transport)) ready (TransportAtExit contract (tt_Fact transport))
     onThis
     ((bool_decide (is_Some (pl_TransportGuid bot)) && negb onThis) || se_HasVehicle se)
     (se_Moving se) (se_Falling se) (in_NowMs input) staticFloor platformFloor rest travel
     (point_distance se (tc_WaitPoint contract)) toBoard
     (point_distance se (tc_DisembarkPoint contract)) (point_distance se (tc_ExitPoint contract)),
   modelAvailable).

Definition move_to_point (point : Point3) (reason : string) : Intent :=
  Move (Move_to (p_X point) (p_Y point) (p_Z point) reason).

(** What a transport step submits or records. *)
Definition PerformTransport (input : Input) (bot : PlayerFacts) (contract : TransportContract)
    (transportGuid : Z) (decision : TransportDecision) : M unit :=
  let submit mechanic utility intent label observe :=
    Submit input mechanic transportGuid Priority_Mechanic (f32_of_Z utility) intent label observe in
  match td_Step decision with
  | TransportStep_Fail => FailOnce (td_Reason decision)
  | TransportStep_Stop => SubmitStop input (td_Reason decision)
  | TransportStep_Hold | TransportStep_HoldAboard | TransportStep_Done | TransportStep_Blocked =>
      SubmitHold input (td_Reason decision)
  | TransportStep_MoveToWait =>
      submit "transport_wait"%string 4 (move_to_point (tc_WaitPoint contract) "native_transport_wait")
        "native_route_transport_wait"%string NoObserver
  | TransportStep_MoveToBoard =>
      submit "transport_board_path"%string 4
        (move_to_point (tc_BoardPoint contract) "native_transport_board_path")
        "native_route_transport_board_path"%string NoObserver
  | TransportStep_Board =>
      submit "transport_board"%string 6
        (TransportBoard transportGuid (tc_FloorToleranceYards contract))
        "native_route_transport_board"%string (CountSubmission (in_Scope input) (pl_Guid bot) true)
  | TransportStep_MoveToDisembark =>
      submit "transport_disembark_path"%string 4
        (move_to_point (tc_DisembarkPoint contract) "native_transport_disembark_path")
        "native_route_transport_disembark_path"%string NoObserver
  | TransportStep_Leave =>
      submit "transport_leave"%string 6
        (TransportLeave transportGuid (tc_FloorToleranceYards contract))
        "native_route_transport_leave"%string (CountSubmission (in_Scope input) (pl_Guid bot) false)
  | TransportStep_MoveToExit =>
      submit "transport_exit_path"%string 4
        (move_to_point (tc_ExitPoint contract) "native_transport_exit_path")
        "native_route_transport_exit_path"%string NoObserver
  end.

Definition RunTransport (input : Input) (bot : PlayerFacts) (contract : TransportContract)
    (transport : TransportTarget) : M unit :=
  if negb (pl_IsAlive bot) then ret tt
  else
    let guid := pl_Guid bot in
    let '(observation, modelAvailable) := ObserveTransportMember input bot contract transport in
    runtime <- read ;;
    let '(decision, member) :=
      if bool_decide (is_Some (tt_Object transport)) && negb modelAvailable
      then (mkTransportDecision TransportStep_Fail "transport_model_unavailable",
            member_state guid runtime)
      else DecideTransportStep contract observation (member_state guid runtime) in
    modify (set_member guid member) ;;
    RecordMember guid ("native_route_transport_" ++ TransportStepName (td_Step decision)
        ++ ":" ++ td_Reason decision)
      (WObject <$> tt_Object transport) (tf_PositionZ (tt_Fact transport)) (tc_Entry contract) ;;
    PerformTransport input bot contract
      (match tt_Object transport with Some object => gf_Guid object | None => 0 end) decision.

(** ** The verdict of a tick *)

(** The loop over the members; [living] counts them. *)
Fixpoint TransportMembersDone (input : Input) (contract : TransportContract)
    (object : GameObjectFacts) (members : list MemberInput) (living : Z) : M (bool * string) :=
  match members with
  | [] => ret (nz living, if nz living then "transport_route_complete"%string
                          else "transport_no_living_members"%string)
  | m :: members =>
      match mi_Bot m with
      | None => TransportMembersDone input contract object members living
      | Some member =>
          if negb (pl_IsAlive member)
          then TransportMembersDone input contract object members living
          else if negb (pl_IsInWorld member) || negb (mi_OnRouteInstance m)
            || negb (pl_Map member =? gf_Map object)
          then ret (false, "transport_member_off_route_map"%string)
          else
            let aboard := OnTransport member (Some object) in
            runtime <- read ;;
            let state := member_state (pl_Guid member) runtime in
            let state := if aboard then set_Boarded state else state in
            modify (set_member (pl_Guid member) state) ;;
            let exit := tc_ExitPoint contract in
            let distance := if p_Valid exit
              then se_MemberDistance (in_Senses input) (pl_Guid member) (p_X exit) (p_Y exit)
                     (p_Z exit) else f32_zero in
            if negb (MemberTransportDone contract aboard (ms_Boarded state) distance)
            then ret (false, "transport_members_pending"%string)
            else TransportMembersDone input contract object members (living +32 1)
      end
  end.

Definition TransportNodeDone (input : Input) (contract : TransportContract)
    (transport : TransportTarget) : M (bool * string) :=
  match tt_Object transport with
  | None => ret (false, if tf_Ambiguous (tt_Fact transport) then "transport_ambiguous"%string
                        else "transport_missing"%string)
  | Some object => TransportMembersDone input contract object (in_Members input) 0
  end.

(** The parts of the node's contract, which do not change. *)
Record Contract : Type := mkContract {
  ct_Interaction : InteractionContract;
  ct_Completion : CompletionContract;
  ct_Transport : TransportContract
}.

Definition EvaluateNode (input : Input) (node : Contract) (election : OwnerElection)
    (evaluator : option PlayerFacts) : M (bool * string) :=
  let declared := cc_Declared (ct_Completion node) || tc_Declared (ct_Transport node) in
  let none := if declared then ""%string else "native_contract_without_completion"%string in
  verdict <- (if cc_Declared (ct_Completion node) then
      runtime <- read ;;
      let '(verdict, memory) := EvaluateFacts (in_World input) (ct_Completion node) evaluator
        (in_Members input) (el_Owner election) (nr_Completion runtime) in
      modify (set_Completion memory) ;;
      ret (vd_Satisfied verdict, vd_Reason verdict)
    else ret (declared, none)) ;;
  let '(satisfied, reason) := verdict in
  if tc_Declared (ct_Transport node) && satisfied then
    let transport := ResolveTransport (in_World input) evaluator (tc_Entry (ct_Transport node))
      (tc_SpawnId (ct_Transport node)) in
    match evaluator with
    | Some _ => TransportNodeDone input (ct_Transport node) transport
    | None => ret (false, reason)
    end
  else ret (satisfied, reason).

Definition RefreshVerdict (input : Input) (node : Contract) (election : OwnerElection)
    (evaluator : option PlayerFacts) : M unit :=
  runtime <- read ;;
  if nr_VerdictValid runtime && (nr_VerdictTick runtime =? in_Tick input) then ret tt
  else
    verdict <- EvaluateNode input node election evaluator ;;
    modify (set_Verdict (in_Tick input) verdict.1 verdict.2).

Definition TimedOut (timeoutMs : Z) (runtime : NodeRuntime) (nowMs : Z) : bool :=
  nz timeoutMs && (nr_StartedAtMs runtime +64 timeoutMs <=? nowMs).

(** ** The run *)

Definition Contract_Declared (node : Contract) : bool :=
  ic_Declared (ct_Interaction node) || cc_Declared (ct_Completion node)
  || tc_Declared (ct_Transport node).

Definition acting_on_route (input : Input) (bot : PlayerFacts) : bool :=
  match List.find (fun member => match mi_Bot member with
          | Some other => pl_Guid other =? pl_Guid bot | None => false end)
        (in_Members input) with
  | Some acting => mi_OnRouteInstance acting
  | None => false
  end.

Definition elect (input : Input) (node : Contract) : OwnerElection :=
  if ic_Declared (ct_Interaction node)
  then ElectOwner (ct_Interaction node) (MemberViews input) else mkElection 0 false "".

Definition RunTransportOf (input : Input) (bot : PlayerFacts) (node : Contract) : M unit :=
  RunTransport input bot (ct_Transport node)
    (ResolveTransport (in_World input) (Some bot) (tc_Entry (ct_Transport node))
       (tc_SpawnId (ct_Transport node))).

(** The satisfied node: completion is called once, members stay aboard. *)
Definition RunSatisfied (input : Input) (bot : PlayerFacts) (node : Contract) : M Result :=
  runtime <- read ;;
  (if negb (in_CompletionAlreadyRecorded input) && negb (nr_CompletionRecorded runtime) then
     modify set_CompletionRecorded ;;
     emit (Complete (if cc_Declared (ct_Completion node) then cc_KindName (ct_Completion node)
                     else nr_VerdictReason runtime))
   else ret tt) ;;
  (if tc_Declared (ct_Transport node) && acting_on_route input bot
   then RunTransportOf input bot node else ret tt) ;;
  ret (mkResult true true).

Definition RunPending (input : Input) (bot : PlayerFacts) (node : Contract)
    (election : OwnerElection) : M Result :=
  runtime <- read ;;
  let timedOut timeoutMs := TimedOut timeoutMs runtime (in_NowMs input) in
  (if timedOut (ic_TimeoutMs (ct_Interaction node)) then FailOnce "native_interaction_timeout"
   else if timedOut (tc_TimeoutMs (ct_Transport node)) then FailOnce "native_transport_timeout"
   else if timedOut (cc_TimeoutMs (ct_Completion node)) then FailOnce "native_completion_timeout"
   else if negb (acting_on_route input bot) then ret tt
   else
     (if tc_Declared (ct_Transport node) then RunTransportOf input bot node else ret tt) ;;
     runtime <- read ;;
     if ic_Declared (ct_Interaction node) && negb (nr_FailureRecorded runtime)
     then RunInteraction input bot (ct_Interaction node) election else ret tt) ;;
  ret (mkResult true false).

Definition Run (input : Input) (node : Contract) : M Result :=
  match in_Bot input with
  | Some bot =>
      if negb (in_Complete input) || negb (Contract_Declared node) then ret (mkResult false false)
      else
        modify (fun runtime => Enter runtime (in_Scope input) (in_NowMs input)) ;;
        runtime <- read ;;
        if nr_FailureRecorded runtime then ret (mkResult true false)
        else
          let evaluator := SelectEvaluator (in_Members input) in
          let election := elect input node in
          RefreshVerdict input node election evaluator ;;
          runtime <- read ;;
          if nr_VerdictSatisfied runtime then RunSatisfied input bot node
          else RunPending input bot node election
  | None => ret (mkResult false false)
  end.
