(* ===== verification/RouteRuntimeSpec.v ===== *)
(** A route node's contract over a scope: whatever members run it and whenever
    the outcomes of their submissions come, it fails at most once and for good,
    completes at most once and only on an evaluation that found it complete, and
    ends by its timeouts. *)
From S2P Require Import Prelude ActionArbiter NativeIntent RouteTypes RouteInteraction RouteCompletion RouteTransport RouteFacts RouteRuntime.
From Stdlib Require Import ZArith Lia String Ascii.
From stdpp Require Import base gmap list strings.

Open Scope Z_scope.
Open Scope tc_scope.
Open Scope run_scope.

(** ** What one computation does *)

Definition is_fail (e : Effect) : bool := match e with Fail _ => true | _ => false end.
Definition is_complete (e : Effect) : bool := match e with Complete _ => true | _ => false end.
Definition fails (es : list Effect) : list Effect := List.filter is_fail es.
Definition completes (es : list Effect) : list Effect := List.filter is_complete es.

(** The members of the runtime that a tick keeps. *)
Record keeps (r r' : NodeRuntime) : Prop := {
  kp_scope : nr_Scope r' = nr_Scope r;
  kp_started : nr_Started r' = nr_Started r;
  kp_since : nr_StartedAtMs r' = nr_StartedAtMs r;
  kp_completed : nr_CompletionRecorded r' = nr_CompletionRecorded r;
  kp_valid : nr_VerdictValid r' = nr_VerdictValid r;
  kp_tick : nr_VerdictTick r' = nr_VerdictTick r;
  kp_verdict : nr_VerdictSatisfied r' = nr_VerdictSatisfied r }.

(** It records no failure and no completion. *)
Definition harmless {A} (m : M A) : Prop := forall r,
  let '(_, r', es) := m r in
  keeps r r' /\ nr_FailureRecorded r' = nr_FailureRecorded r /\ fails es = [] /\ completes es = [].

(** It may record a failure, as its last effect. *)
Definition fails_last {A} (m : M A) : Prop := forall r, nr_FailureRecorded r = false ->
  let '(_, r', es) := m r in
  keeps r r' /\ completes es = [] /\
  if nr_FailureRecorded r' then exists before reason, es = before ++ [Fail reason] /\ fails before = []
  else fails es = [].

Lemma keeps_refl r : keeps r r.
Proof. done. Qed.

Lemma keeps_trans a b c : keeps a b -> keeps b c -> keeps a c.
Proof. intros [] []. split; congruence. Qed.

Lemma fails_app a b : fails (a ++ b) = fails a ++ fails b.
Proof. apply List.filter_app. Qed.

Lemma completes_app a b : completes (a ++ b) = completes a ++ completes b.
Proof. apply List.filter_app. Qed.

Lemma harmless_ret {A} (a : A) : harmless (ret a).
Proof. by intros r. Qed.

Lemma harmless_get {A} (k : NodeRuntime -> M A) : (forall r, harmless (k r)) -> harmless (bind read k).
Proof. intros H r. specialize (H r r). unfold bind, read. by destruct (k r r) as [[? ?] ?]. Qed.

Lemma harmless_modify f :
  (forall r, keeps r (f r) /\ nr_FailureRecorded (f r) = nr_FailureRecorded r) -> harmless (modify f).
Proof. intros H r. by destruct (H r). Qed.

Lemma harmless_emit e : is_fail e = false -> is_complete e = false -> harmless (emit e).
Proof. intros Hf Hc r. cbn. by rewrite Hf, Hc. Qed.

Lemma harmless_bind {A B} (m : M A) (k : A -> M B) :
  harmless m -> (forall a, harmless (k a)) -> harmless (bind m k).
Proof.
  intros Hm Hk r. specialize (Hm r). unfold bind. destruct (m r) as [[a r1] es1].
  specialize (Hk a r1). destruct (k a r1) as [[b r2] es2]. destruct Hm as (K1 & F1 & E1 & C1), Hk as (K2 & F2 & E2 & C2).
  split_and!; [by eapply keeps_trans|congruence|by rewrite fails_app, E1|by rewrite completes_app, C1].
Qed.

Lemma fails_last_harmless {A} (m : M A) : harmless m -> fails_last m.
Proof. intros Hm r Hr. specialize (Hm r). destruct (m r) as [[a r1] es]. destruct Hm as (K & F & E & C). by rewrite F, Hr. Qed.

Lemma fails_last_get {A} (k : NodeRuntime -> M A) :
  (forall r, fails_last (k r)) -> fails_last (bind read k).
Proof. intros H r Hr. specialize (H r r Hr). unfold bind, read. by destruct (k r r) as [[? ?] ?]. Qed.

Lemma fails_last_bind {A B} (m : M A) (k : A -> M B) :
  harmless m -> (forall a, fails_last (k a)) -> fails_last (bind m k).
Proof.
  intros Hm Hk r Hr. specialize (Hm r). unfold bind. destruct (m r) as [[a r1] es1].
  destruct Hm as (K1 & F1 & E1 & C1). specialize (Hk a r1 ltac:(congruence)).
  destruct (k a r1) as [[b r2] es2]. destruct Hk as (K2 & C2 & H2).
  split_and!; [by eapply keeps_trans|by rewrite completes_app, C1|].
  destruct (nr_FailureRecorded r2).
  - destruct H2 as (before & reason & -> & Hb). exists (es1 ++ before), reason.
    by rewrite app_assoc, fails_app, E1.
  - by rewrite fails_app, E1.
Qed.

(** A failure ends the computation when what follows looks at the flag. *)
Lemma fails_last_then {A B} (m : M A) (k : A -> M B) :
  fails_last m -> (forall a, fails_last (k a)) ->
  (forall a r, nr_FailureRecorded r = true -> exists b, k a r = (b, r, [])) ->
  fails_last (bind m k).
Proof.
  intros Hm Hk Hend r Hr. specialize (Hm r Hr). unfold bind. destruct (m r) as [[a r1] es1].
  destruct Hm as (K1 & C1 & H1). destruct (nr_FailureRecorded r1) eqn:E1.
  - destruct (Hend a r1 E1) as [b ->]. rewrite app_nil_r. by rewrite E1.
  - specialize (Hk a r1 E1). destruct (k a r1) as [[b r2] es2]. destruct Hk as (K2 & C2 & H2).
    split_and!; [by eapply keeps_trans|by rewrite completes_app, C1|].
    destruct (nr_FailureRecorded r2).
    + destruct H2 as (before & reason & -> & Hb). exists (es1 ++ before), reason.
      by rewrite app_assoc, fails_app, H1.
    + by rewrite fails_app, H1.
Qed.

Lemma FailOnce_fails_last reason : fails_last (FailOnce reason).
Proof.
  intros r Hr. unfold FailOnce, bind, read. rewrite Hr. cbn. split_and!; [done|done|]. by exists [], reason.
Qed.

Create HintDb runtime.
#[export] Hint Resolve harmless_ret harmless_emit FailOnce_fails_last fails_last_harmless : runtime.

(** Walks through a computation made of the pieces above. *)
Ltac runtime_step :=
  match goal with
  | |- harmless (bind read _) => apply harmless_get; intros ?
  | |- harmless (bind _ _) => apply harmless_bind; [|intros ?]
  | |- harmless (modify _) => apply harmless_modify; intros ?; by split
  | |- fails_last (modify _) => apply fails_last_harmless
  | |- fails_last (bind read _) => apply fails_last_get; intros ?
  | |- fails_last (bind _ _) => apply fails_last_bind; [|intros ?]
  | |- context [if ?c then _ else _] => destruct c
  | |- context [match ?x with _ => _ end] => destruct x
  | |- _ => progress eauto with runtime
  end.
Ltac runtime_walk := cbv zeta; repeat runtime_step.

(** ** The pieces of a tick *)

Lemma RecordDiagnostic_harmless reason target value entry :
  harmless (RecordDiagnostic reason target value entry).
Proof. unfold RecordDiagnostic. runtime_walk. Qed.

Lemma RecordMember_harmless guid reason target value entry :
  harmless (RecordMember guid reason target value entry).
Proof. unfold RecordMember. runtime_walk. Qed.

Lemma Submit_harmless input mechanic actor priority utility intent label observe :
  harmless (Submit input mechanic actor priority utility intent label observe).
Proof. by apply harmless_emit. Qed.

#[export] Hint Resolve RecordDiagnostic_harmless RecordMember_harmless Submit_harmless : runtime.

Lemma RunInteraction_fails_last input bot contract election :
  fails_last (RunInteraction input bot contract election).
Proof. unfold RunInteraction, RunBystander, RunOwner. runtime_walk. Qed.

Lemma RunTransport_fails_last input bot contract transport :
  fails_last (RunTransport input bot contract transport).
Proof. unfold RunTransport, PerformTransport, SubmitHold, SubmitStop. runtime_walk. Qed.

#[export] Hint Resolve RunInteraction_fails_last RunTransport_fails_last : runtime.

Lemma TransportMembersDone_harmless input contract object members : forall living,
  harmless (TransportMembersDone input contract object members living).
Proof. induction members as [|m members IH]; intros living; cbn [TransportMembersDone]; runtime_walk. Qed.

#[export] Hint Resolve TransportMembersDone_harmless : runtime.

Lemma EvaluateNode_harmless input node election evaluator :
  harmless (EvaluateNode input node election evaluator).
Proof. unfold EvaluateNode, TransportNodeDone. runtime_walk. Qed.

(** ** One run *)

(** The verdict is that of an earlier tick's evaluation or of this one's. *)
Definition evaluation (input : Input) (node : Contract) (r : NodeRuntime) : bool :=
  (EvaluateNode input node (elect input node) (SelectEvaluator (in_Members input)) r).1.1.1.

Record refreshed (input : Input) (node : Contract) (r r' : NodeRuntime) : Prop := {
  rf_scope : nr_Scope r' = nr_Scope r;
  rf_started : nr_Started r' = nr_Started r;
  rf_since : nr_StartedAtMs r' = nr_StartedAtMs r;
  rf_valid : nr_VerdictValid r' = true;
  rf_tick : nr_VerdictTick r' = in_Tick input;
  rf_verdict : nr_VerdictSatisfied r' =
    if nr_VerdictValid r && (nr_VerdictTick r =? in_Tick input)
    then nr_VerdictSatisfied r else evaluation input node r }.

Lemma RefreshVerdict_effect input node r :
  let '(_, r', es) :=
    RefreshVerdict input node (elect input node) (SelectEvaluator (in_Members input)) r in
  refreshed input node r r' /\ nr_FailureRecorded r' = nr_FailureRecorded r /\
  nr_CompletionRecorded r' = nr_CompletionRecorded r /\ fails es = [] /\ completes es = [].
Proof.
  unfold RefreshVerdict, bind, read. destruct (nr_VerdictValid r && _) eqn:E.
  - pose proof E as E'. apply andb_true_iff in E as [E1 E2%Z.eqb_eq].
    split; [split; try done; by rewrite E'|done].
  - pose proof (EvaluateNode_harmless input node (elect input node)
      (SelectEvaluator (in_Members input)) r) as H.
    unfold evaluation. destruct (EvaluateNode _ _ _ _ r) as [[v r1] es1] eqn:Ev.
    destruct H as ([] & Hf & E1 & E2). cbn. rewrite !app_nil_r. split_and!; try done.
    split; try done. by rewrite E; unfold evaluation; rewrite Ev.
Qed.

Lemma refreshed_keeps input node r r1 r2 : refreshed input node r r1 -> keeps r1 r2 ->
  refreshed input node r r2.
Proof. intros [] []. split; congruence. Qed.

Lemma RunPending_fails_last input bot node election : fails_last (RunPending input bot node election).
Proof.
  unfold RunPending. apply fails_last_get; intros r0. cbv zeta.
  apply fails_last_then; [|auto with runtime|by intros a r; exists (mkResult true false)].
  do 4 (match goal with |- context [if ?c then _ else _] => destruct c end; [auto with runtime|]).
  apply fails_last_then.
  - unfold RunTransportOf. runtime_walk.
  - intros _. runtime_walk.
  - intros _ r Hr. exists tt. unfold bind, read. rewrite Hr. by rewrite andb_false_r.
Qed.

Lemma RunSatisfied_effect input bot node r : nr_FailureRecorded r = false ->
  let '(res, r', es) := RunSatisfied input bot node r in
  rt_Satisfied res = true /\
  exists r1, keeps r1 r' /\
    (r1 = r /\ completes es = [] \/
     r1 = set_CompletionRecorded r /\ nr_CompletionRecorded r = false /\
       exists label, completes es = [Complete label]) /\
    if nr_FailureRecorded r' then exists before reason, es = before ++ [Fail reason] /\ fails before = []
    else fails es = [].
Proof.
  intros Hr. unfold RunSatisfied.
  set (tail := bind (if tc_Declared (ct_Transport node) && acting_on_route input bot
    then RunTransportOf input bot node else ret tt) (fun _ => ret (mkResult true true))).
  assert (Ht : fails_last tail).
  { apply fails_last_then; [|auto with runtime|by intros a r0; exists (mkResult true true)].
    unfold RunTransportOf. runtime_walk. }
  assert (Hres : forall r, rt_Satisfied (tail r).1.1 = true).
  { intros r0. unfold tail, bind. destruct (_ r0) as [[? ?] ?] eqn:E. done. }
  unfold bind at 1, read. unfold bind at 1. fold tail. destruct (negb _ && _) eqn:E.
  - apply andb_true_iff in E as [_ E%negb_true_iff]. unfold bind at 1, modify, emit. cbn -[tail].
    pose proof (Ht (set_CompletionRecorded r) Hr) as H. pose proof (Hres (set_CompletionRecorded r)) as Hs.
    destruct (tail _) as [[res r'] es]. destruct H as (K & C & F). split; [done|].
    exists (set_CompletionRecorded r). split; [done|]. unfold completes, fails in *. cbn. rewrite C.
    split; [right; eauto|]. destruct (nr_FailureRecorded r'); [|done]. destruct F as (before & reason & -> & F).
    by exists (Complete (if cc_Declared (ct_Completion node) then cc_KindName (ct_Completion node)
      else nr_VerdictReason r) :: before), reason.
  - cbn -[tail]. pose proof (Ht r Hr) as H. pose proof (Hres r) as Hs.
    destruct (tail r) as [[res r'] es]. destruct H as (K & C & F). split; [done|]. exists r. eauto.
Qed.

(** The runtime is in the scope. *)
Definition in_scope (scope : RuntimeScope) (r : NodeRuntime) : Prop :=
  nr_Started r = true /\ nr_Scope r = scope.

Lemma Enter_in_scope scope r now : in_scope scope r -> Enter r scope now = r.
Proof.
  intros [Hs <-]. unfold Enter. rewrite Hs. cbn. by rewrite (proj2 (RuntimeScope_eqb_eq _ _) eq_refl).
Qed.

Definition runs (input : Input) (node : Contract) : bool :=
  match in_Bot input with Some _ => in_Complete input && Contract_Declared node | None => false end.

(** What a run does to a runtime of its scope that has not failed. *)
Record run_effect (input : Input) (node : Contract) (r r' : NodeRuntime) (es : list Effect)
    (satisfied : bool) : Prop := {
  re_refreshed : refreshed input node r r';
  re_satisfied : satisfied = nr_VerdictSatisfied r';
  re_failed : if nr_FailureRecorded r'
    then exists before reason, es = before ++ [Fail reason] /\ fails before = []
    else fails es = [];
  re_completed :
    nr_CompletionRecorded r' = nr_CompletionRecorded r /\ completes es = [] \/
    nr_CompletionRecorded r = false /\ nr_CompletionRecorded r' = true /\ satisfied = true /\
      exists label, completes es = [Complete label] }.

Lemma RunPending_result input bot node election r :
  rt_Satisfied (RunPending input bot node election r).1.1 = false.
Proof.
  unfold RunPending, bind at 1, read. cbv zeta. unfold bind at 1.
  by match goal with |- context [match ?m r with _ => _ end] => destruct (m r) as [[? ?] ?] end.
Qed.

Lemma Run_effect input node r scope :
  in_scope scope r -> in_Scope input = scope -> nr_FailureRecorded r = false ->
  runs input node = true ->
  let '(res, r', es) := Run input node r in run_effect input node r r' es (rt_Satisfied res).
Proof.
  intros Hin <- Hf Hruns. unfold runs in Hruns. unfold Run.
  destruct (in_Bot input) as [bot|]; [|done]. rewrite <- negb_andb, Hruns. cbn [negb].
  unfold bind at 1, modify. rewrite (Enter_in_scope _ _ _ Hin). unfold bind at 1, read. rewrite Hf. cbv zeta.
  unfold bind at 1. pose proof (RefreshVerdict_effect input node r) as H.
  destruct (RefreshVerdict _ _ _ _ r) as [[u r1] es1]. destruct H as (Hr & Hf1 & Hc1 & E1 & C1).
  rewrite Hf in Hf1. unfold bind at 1, read. destruct (nr_VerdictSatisfied r1) eqn:Ev.
  - pose proof (RunSatisfied_effect input bot node r1 Hf1) as H.
    destruct (RunSatisfied _ _ _ _) as [[res r'] es]. destruct H as (Hs & r2 & K & Hcomp & Hfail). cbn.
    assert (Hr2 : refreshed input node r r' /\ nr_VerdictSatisfied r' = true).
    { destruct Hcomp as [[-> _]|[-> _]]; [split; [by eapply refreshed_keeps|by rewrite (kp_verdict _ _ K)]|].
      split; [|by rewrite (kp_verdict _ _ K)]. destruct Hr, K; cbn in *. split; congruence. }
    destruct Hr2 as [Hr2 Hv]. split; [done|by rewrite Hs, Hv| |].
    + destruct (nr_FailureRecorded r'); [|by rewrite fails_app, E1].
      destruct Hfail as (before & reason & -> & Hb). exists (es1 ++ before), reason.
      by rewrite app_assoc, fails_app, E1.
    + rewrite completes_app, C1. cbn. pose proof (kp_completed _ _ K) as Hk.
      destruct Hcomp as [[-> Hn]|(-> & Hn & label & Hl)]; [left; split; [congruence|done]|].
      right. cbn in Hk. split_and!; [congruence|done|done|eauto].
  - pose proof (RunPending_fails_last input bot node (elect input node) r1 Hf1) as H.
    pose proof (RunPending_result input bot node (elect input node) r1) as Hs.
    destruct (RunPending _ _ _ _ _) as [[res r'] es]. destruct H as (K & C & Hfail). cbn in *.
    split; [by eapply refreshed_keeps|by rewrite Hs, (kp_verdict _ _ K)| |].
    + destruct (nr_FailureRecorded r'); [|by rewrite fails_app, E1].
      destruct Hfail as (before & reason & -> & Hb). exists (es1 ++ before), reason.
      by rewrite app_assoc, fails_app, E1.
    + left. rewrite completes_app, C1, (kp_completed _ _ K). done.
Qed.

(** ** When a node is found complete *)

(** A member that rode: aboard, or at the exit after it was seen aboard. *)
Definition boarded_by (input : Input) (object : GameObjectFacts) (r : NodeRuntime) (guid : Z) : Prop :=
  ms_Boarded (member_state guid r) = true \/
  exists m member, m ∈ in_Members input /\ mi_Bot m = Some member /\ pl_Guid member = guid /\
    OnTransport member (Some object) = true.

Definition exit_distance (input : Input) (contract : TransportContract) (guid : Z) : f32 :=
  let exit := tc_ExitPoint contract in
  if p_Valid exit
  then se_MemberDistance (in_Senses input) guid (p_X exit) (p_Y exit) (p_Z exit) else f32_zero.

Record member_rode (input : Input) (contract : TransportContract) (object : GameObjectFacts)
    (r : NodeRuntime) (m : MemberInput) (member : PlayerFacts) : Prop := {
  mr_world : pl_IsInWorld member = true;
  mr_route : mi_OnRouteInstance m = true;
  mr_map : pl_Map member = gf_Map object;
  mr_ride : if HasExit contract
    then boarded_by input object r (pl_Guid member) /\ OnTransport member (Some object) = false /\
      f32_le (exit_distance input contract (pl_Guid member)) (tc_ArrivalToleranceYards contract) = true
    else OnTransport member (Some object) = true }.

(** Some member lives, and all that live rode. *)
Definition transport_complete (input : Input) (contract : TransportContract)
    (object : GameObjectFacts) (r : NodeRuntime) : Prop :=
  (exists m member, m ∈ in_Members input /\ mi_Bot m = Some member /\ pl_IsAlive member = true) /\
  forall m member, m ∈ in_Members input -> mi_Bot m = Some member -> pl_IsAlive member = true ->
    member_rode input contract object r m member.

(** Every declared part of the node is complete on what the run observes. *)
Definition node_complete (input : Input) (node : Contract) (r : NodeRuntime) : Prop :=
  let evaluator := SelectEvaluator (in_Members input) in
  (cc_Declared (ct_Completion node) = true \/ tc_Declared (ct_Transport node) = true) /\
  (cc_Declared (ct_Completion node) = true ->
   vd_Satisfied (EvaluateFacts (in_World input) (ct_Completion node) evaluator (in_Members input)
     (el_Owner (elect input node)) (nr_Completion r)).1 = true) /\
  (tc_Declared (ct_Transport node) = true ->
   exists player object, evaluator = Some player /\
     tt_Object (ResolveTransport (in_World input) (Some player) (tc_Entry (ct_Transport node))
       (tc_SpawnId (ct_Transport node))) = Some object /\
     transport_complete input (ct_Transport node) object r).

Lemma member_state_set guid other s r :
  member_state guid (set_member other s r) = if decide (guid = other) then s else member_state guid r.
Proof.
  unfold member_state, set_member. cbn. destruct (decide (guid = other)) as [->|Hne].
  - by rewrite lookup_insert_eq.
  - by rewrite lookup_insert_ne.
Qed.

Lemma TransportMembersDone_true input contract object r0 members : forall living r,
  members ⊆ in_Members input ->
  (forall guid, ms_Boarded (member_state guid r) = true -> boarded_by input object r0 guid) ->
  (TransportMembersDone input contract object members living r).1.1.1 = true ->
  (nz living = true \/
   exists m member, m ∈ members /\ mi_Bot m = Some member /\ pl_IsAlive member = true) /\
  forall m member, m ∈ members -> mi_Bot m = Some member -> pl_IsAlive member = true ->
    member_rode input contract object r0 m member.
Proof.
  induction members as [|m0 members IH]; intros living r Hsub Hb; cbn [TransportMembersDone].
  { intros H. split; [by left|]. by intros ? ? ?%elem_of_nil. }
  assert (Hsub' : members ⊆ in_Members input) by set_solver.
  assert (Hskip : forall l r', (forall guid, ms_Boarded (member_state guid r') = true -> boarded_by input object r0 guid) ->
    (TransportMembersDone input contract object members l r').1.1.1 = true ->
    (forall member, mi_Bot m0 = Some member -> pl_IsAlive member = true -> member_rode input contract object r0 m0 member) ->
    (nz l = true -> nz living = true \/ exists m member, m ∈ m0 :: members /\ mi_Bot m = Some member /\ pl_IsAlive member = true) ->
    (nz living = true \/ exists m member, m ∈ m0 :: members /\ mi_Bot m = Some member /\ pl_IsAlive member = true) /\
    forall m member, m ∈ m0 :: members -> mi_Bot m = Some member -> pl_IsAlive member = true ->
      member_rode input contract object r0 m member).
  { intros l r' Hb' H Hm Hl. destruct (IH l r' Hsub' Hb' H) as [Hsome Hall]. split.
    - destruct Hsome as [Hnz|(m & member & ? & ?)]; [auto|]. right. exists m, member. set_solver.
    - intros m member [->|Hin]%elem_of_cons; eauto. }
  destruct (mi_Bot m0) as [member|] eqn:Em; [|by intros H; apply (Hskip living r); auto].
  destruct (pl_IsAlive member) eqn:Ea; cbn [negb];
    [|by intros H; apply (Hskip living r); auto; intros ? [= <-]; congruence].
  destruct (pl_IsInWorld member) eqn:Ew; [|done]. destruct (mi_OnRouteInstance m0) eqn:Er; [|done].
  destruct (Z.eqb_spec (pl_Map member) (gf_Map object)) as [Emap|]; [|done]. cbn [negb orb].
  unfold bind, read, modify. cbv beta zeta.
  set (s := if OnTransport member (Some object) then _ else _). fold (exit_distance input contract (pl_Guid member)).
  destruct (MemberTransportDone _ _ _ _) eqn:Ed; cbn [negb]; [|done].
  destruct (TransportMembersDone _ _ _ _ _ _) as [[v r'] es] eqn:E. intros H.
  assert (Hs : ms_Boarded s = true -> boarded_by input object r0 (pl_Guid member)).
  { unfold s. destruct (OnTransport member (Some object)) eqn:Eo; [|apply Hb].
    intros _. right. exists m0, member. split_and!; try done. set_solver. }
  apply (Hskip (living +32 1) (set_member (pl_Guid member) s r)).
  - intros guid. rewrite member_state_set. destruct (decide _) as [->|]; [done|apply Hb].
  - by rewrite E.
  - intros ? [= <-] _. split; [done..|]. unfold MemberTransportDone in Ed. destruct (HasExit contract); [|done].
    cbn [negb] in Ed. apply andb_true_iff in Ed as [[Hd Ho%negb_true_iff]%andb_true_iff Hf]. auto.
  - intros _. right. exists m0, member. set_solver.
Qed.

Lemma evaluation_complete input node r : evaluation input node r = true -> node_complete input node r.
Proof.
  unfold evaluation, EvaluateNode, node_complete. set (evaluator := SelectEvaluator _).
  intros H. destruct (cc_Declared (ct_Completion node)) eqn:Ec.
  - unfold bind, read, modify, ret in H. destruct (EvaluateFacts _ _ _ _ _ _) as [v memory].
    cbn [fst snd vd_Satisfied] in *. destruct (vd_Satisfied v) eqn:Ev.
    + rewrite andb_true_r in H. split; [by left|split; [done|]]. intros Et. rewrite Et in H.
      destruct evaluator as [player|]; [|done]. unfold TransportNodeDone in H.
      destruct (tt_Object _) as [object|] eqn:Eo; [|done]. exists player, object. split_and!; [done..|].
      destruct (TransportMembersDone_true input (ct_Transport node) object r (in_Members input) 0
        (set_Completion memory r)) as [Hsome Hall]; [done|by left| |].
      { by destruct (TransportMembersDone _ _ _ _ _ _) as [[? ?] ?]. }
      split; [by destruct Hsome|done].
    + by rewrite andb_false_r in H.
  - unfold bind, ret in H. cbn [orb] in H. destruct (tc_Declared (ct_Transport node)) eqn:Et; [|done].
    split; [by right|split; [done|]]. intros _. cbn [andb] in H. destruct evaluator as [player|]; [|done].
    unfold TransportNodeDone in H. destruct (tt_Object _) as [object|] eqn:Eo; [|done].
    exists player, object. split_and!; [done..|].
    destruct (TransportMembersDone_true input (ct_Transport node) object r (in_Members input) 0 r)
      as [Hsome Hall]; [done|by left| |].
    { by destruct (TransportMembersDone _ _ _ _ _ _) as [[? ?] ?]. }
    split; [by destruct Hsome|done].
Qed.

(** ** A scope *)

(** What can happen to a node's runtime: a member's run, or the outcome of a
    submission, whenever it was made and whatever it counts for. *)
Inductive Step : Type :=
| SRun (input : Input)
| SOutcome (observer : Observer) (outcome : Outcome).

Definition step (node : Contract) (s : Step) (r : NodeRuntime) : NodeRuntime * list Effect :=
  match s with
  | SRun input => let '(_, r, es) := Run input node r in (r, es)
  | SOutcome observer outcome => let '(_, r, es) := Observe observer outcome r in (r, es)
  end.

(** The runtime and every effect after some steps. *)
Definition trace (node : Contract) (steps : list Step) (r : NodeRuntime)
    : NodeRuntime * list Effect :=
  foldl (fun '(r, es) s => let '(r, es') := step node s r in (r, es ++ es')) (r, []) steps.

Definition of_scope (scope : RuntimeScope) (s : Step) : Prop :=
  match s with SRun input => in_Scope input = scope | SOutcome _ _ => True end.

Lemma trace_snoc node steps s r :
  trace node (steps ++ [s]) r =
  ((step node s (trace node steps r).1).1,
   (trace node steps r).2 ++ (step node s (trace node steps r).1).2).
Proof.
  unfold trace at 1. rewrite foldl_app. fold (trace node steps r).
  destruct (trace node steps r) as [r1 es1]. cbn. by destruct (step node s r1).
Qed.

Lemma Observe_fails_last observer outcome : fails_last (Observe observer outcome).
Proof. unfold Observe. runtime_walk. Qed.

Lemma Observe_failed observer outcome r : nr_FailureRecorded r = true ->
  let '(_, r', es) := Observe observer outcome r in
  keeps r r' /\ nr_FailureRecorded r' = true /\ es = [].
Proof.
  intros Hr. unfold Observe, FailOnce, bind, read, modify, ret.
  destruct observer as [|scope now|scope guid boarding]; [done|..];
    destruct (negb _); [done| |done|]; cbn.
  - by destruct (_ || _).
  - destruct (bool_decide _); [|done]. cbn. by rewrite Hr.
Qed.

(** Nothing happens in a run without a node or after a failure. *)
Lemma Run_idle input node r scope : in_scope scope r -> in_Scope input = scope ->
  runs input node = false \/ nr_FailureRecorded r = true ->
  exists owns, Run input node r = (mkResult owns false, r, []).
Proof.
  intros Hin <- H. unfold runs in H. unfold Run. destruct (in_Bot input) as [bot|]; [|by eexists].
  rewrite <- negb_andb. destruct (in_Complete input && _) eqn:E; cbn [negb]; [|by eexists].
  destruct H as [|Hf]; [done|]. unfold bind, modify, read. rewrite (Enter_in_scope _ _ _ Hin), Hf.
  cbn. by eexists.
Qed.

(** The node was found complete by one of the steps. *)
Definition found_complete (node : Contract) (r0 : NodeRuntime) (steps : list Step) (tick : Z) : Prop :=
  exists pre input post, steps = pre ++ SRun input :: post /\ in_Tick input = tick /\
    node_complete input node (trace node pre r0).1.

Record scope_ok (node : Contract) (scope : RuntimeScope) (since : Z) (r0 : NodeRuntime)
    (steps : list Step) (r : NodeRuntime) (es : list Effect) : Prop := {
  so_scope : in_scope scope r;
  so_since : nr_StartedAtMs r = since;
  so_failed : if nr_FailureRecorded r
    then exists before reason, es = before ++ [Fail reason] /\ fails before = []
    else fails es = [];
  so_completed : if nr_CompletionRecorded r
    then exists label tick, completes es = [Complete label] /\ found_complete node r0 steps tick
    else completes es = [];
  so_verdict : nr_VerdictSatisfied r = true -> found_complete node r0 steps (nr_VerdictTick r) }.

Lemma found_complete_snoc node r0 steps tick s :
  found_complete node r0 steps tick -> found_complete node r0 (steps ++ [s]) tick.
Proof.
  intros (pre & input & post & -> & H). exists pre, input, (post ++ [s]). by rewrite <- app_assoc.
Qed.

Lemma scope_ok_idle node scope since r0 steps r es s r' :
  scope_ok node scope since r0 steps r es -> keeps r r' ->
  nr_FailureRecorded r' = nr_FailureRecorded r ->
  scope_ok node scope since r0 (steps ++ [s]) r' (es ++ []).
Proof.
  intros [[H1 H2] H3 H4 H5 H6] [] Hf. rewrite app_nil_r. split; [split; congruence|congruence| | |].
  - by rewrite Hf.
  - rewrite kp_completed0. destruct (nr_CompletionRecorded r); [|done].
    destruct H5 as (label & tick & ? & ?). eauto using found_complete_snoc.
  - rewrite kp_verdict0, kp_tick0. intros Hv. by apply found_complete_snoc, H6.
Qed.

(** An unfailed runtime's effects, and then one more step's. *)
Lemma failed_app (failed : bool) es es' : fails es = [] ->
  (if failed then exists before reason, es' = before ++ [Fail reason] /\ fails before = []
   else fails es' = []) ->
  if failed then exists before reason, es ++ es' = before ++ [Fail reason] /\ fails before = []
  else fails (es ++ es') = [].
Proof.
  intros H. destruct failed; [|by rewrite fails_app, H].
  intros (before & reason & -> & Hb). exists (es ++ before), reason. by rewrite app_assoc, fails_app, H.
Qed.

Lemma scope_ok_outcome node scope since r0 steps r es observer outcome :
  scope_ok node scope since r0 steps r es -> nr_FailureRecorded r = false ->
  let '(r', es') := step node (SOutcome observer outcome) r in
  scope_ok node scope since r0 (steps ++ [SOutcome observer outcome]) r' (es ++ es').
Proof.
  intros H Hf. cbn. pose proof (Observe_fails_last observer outcome r Hf) as Ho.
  destruct (Observe observer outcome r) as [[u r'] es']. destruct Ho as (K & C & F).
  destruct H as [[H1 H2] H3 H4 H5 H6]. rewrite Hf in H4. destruct K.
  split; [split; congruence|congruence|by apply failed_app| |].
  - rewrite kp_completed0. destruct (nr_CompletionRecorded r); [|by rewrite completes_app, H5, C].
    destruct H5 as (label & tick & Hc & ?). exists label, tick. rewrite completes_app, Hc, C.
    eauto using found_complete_snoc.
  - rewrite kp_verdict0, kp_tick0. intros Hv. by apply found_complete_snoc, H6.
Qed.

Lemma scope_ok_run node scope since r0 steps input :
  let '(r, es) := trace node steps r0 in
  scope_ok node scope since r0 steps r es -> nr_FailureRecorded r = false ->
  in_Scope input = scope -> runs input node = true ->
  let '(r', es') := step node (SRun input) r in
  scope_ok node scope since r0 (steps ++ [SRun input]) r' (es ++ es').
Proof.
  destruct (trace node steps r0) as [r es] eqn:Et. intros [Hin H3 H4 H5 H6] Hf Hsc Hruns. cbn.
  pose proof (Run_effect input node r scope Hin Hsc Hf Hruns) as H.
  destruct (Run input node r) as [[res r'] es']. destruct H as [[R1 R2 R3 R4 R5 R6] Hs Hfail Hc].
  rewrite Hf in H4. assert (Hv : nr_VerdictSatisfied r' = true ->
    found_complete node r0 (steps ++ [SRun input]) (nr_VerdictTick r')).
  { rewrite R6, R5. destruct (nr_VerdictValid r && _) eqn:E; intros Hv.
    - apply andb_true_iff in E as [_ E%Z.eqb_eq]. rewrite <- E. by apply found_complete_snoc, H6.
    - exists steps, input, []. rewrite Et. auto using evaluation_complete. }
  destruct Hin as [H1 H2]. split; [split; congruence|congruence|by apply failed_app| |done].
  destruct Hc as [[-> Hc]|(Hn & -> & Hsat & label & Hc)].
  - destruct (nr_CompletionRecorded r); [|by rewrite completes_app, H5, Hc].
    destruct H5 as (label & tick & Hl & ?). exists label, tick. rewrite completes_app, Hl, Hc.
    eauto using found_complete_snoc.
  - rewrite Hn in H5. exists label, (nr_VerdictTick r'). rewrite completes_app, H5, Hc.
    split; [done|]. apply Hv. congruence.
Qed.

Lemma scope_ok_trace node scope since r0 steps :
  scope_ok node scope since r0 [] r0 [] -> Forall (of_scope scope) steps ->
  scope_ok node scope since r0 steps (trace node steps r0).1 (trace node steps r0).2.
Proof.
  intros H0. induction steps as [|s steps IH] using rev_ind; [done|].
  intros [Hs Hsc]%Forall_app. specialize (IH Hs). rewrite Forall_singleton in Hsc.
  rewrite trace_snoc. pose proof (scope_ok_run node scope since r0 steps) as Hrun.
  destruct (trace node steps r0) as [r es]. cbn [fst snd] in *.
  destruct (nr_FailureRecorded r) eqn:Hf.
  - destruct s as [input|observer outcome]; cbn [step].
    + destruct (Run_idle input node r scope (so_scope _ _ _ _ _ _ _ IH) Hsc) as [owns ->]; [by right|].
      by eapply scope_ok_idle.
    + pose proof (Observe_failed observer outcome r Hf) as H.
      destruct (Observe _ _ _) as [[u r'] es']. destruct H as (K & Hf' & ->).
      cbn. eapply scope_ok_idle; [done|done|congruence].
  - destruct s as [input|observer outcome].
    + destruct (runs input node) eqn:Hr; [specialize (Hrun input IH eq_refl Hsc Hr); by destruct (step _ _ _)|].
      cbn [step]. destruct (Run_idle input node r scope (so_scope _ _ _ _ _ _ _ IH) Hsc) as [owns ->]; [by left|].
      by eapply scope_ok_idle.
    + pose proof (scope_ok_outcome node scope since r0 steps r es observer outcome IH Hf) as H.
      by destruct (step _ _ _).
Qed.

(** A runtime that enters a scope. *)
Lemma scope_ok_enter node scope r now : ~ in_scope scope r ->
  scope_ok node scope now (Enter r scope now) [] (Enter r scope now) [].
Proof.
  intros Hn. unfold Enter. destruct (nr_Started r && _) eqn:E; [|done].
  apply andb_true_iff in E as [E1 E2%RuntimeScope_eqb_eq]. by destruct Hn.
Qed.

(** C5. From the tick at which a node's runtime enters a scope, whichever members
    run it, however often in a tick, and whenever the outcomes of what they
    submitted come, the scope's failure is reported at most once and is the
    last thing the runtime does, and its completion is reported at most once,
    on an evaluation in one of the ticks that found every declared part of the
    node complete. *)
Theorem route_scope_ends_once node scope r0 now steps :
  ~ in_scope scope r0 -> Forall (of_scope scope) steps ->
  let start := Enter r0 scope now in
  let '(r, es) := trace node steps start in
  (fails es = [] \/ exists before reason, es = before ++ [Fail reason] /\ fails before = []) /\
  (completes es = [] \/ exists label tick, completes es = [Complete label] /\
     found_complete node start steps tick).
Proof.
  intros Hn Hs start. pose proof (scope_ok_trace node scope now start steps
    (scope_ok_enter node scope r0 now Hn) Hs) as H.
  destruct (trace node steps start) as [r es]. destruct H as [_ _ H1 H2 _]. cbn [fst snd] in *. split.
  - destruct (nr_FailureRecorded r); auto.
  - destruct (nr_CompletionRecorded r); auto.
Qed.

(** ** Timeouts *)

Definition timeouts (node : Contract) : list Z :=
  [ic_TimeoutMs (ct_Interaction node); tc_TimeoutMs (ct_Transport node);
   cc_TimeoutMs (ct_Completion node)].

Lemma FailOnce_records reason r : nr_FailureRecorded (FailOnce reason r).1.2 = true.
Proof. unfold FailOnce, bind, read. by destruct (nr_FailureRecorded r) eqn:E. Qed.

Lemma bind_read_state {A} (k : NodeRuntime -> M A) r : (bind read k r).1.2 = (k r r).1.2.
Proof. unfold bind, read. by destruct (k r r) as [[? ?] ?]. Qed.

Lemma bind_ret_state {A B} (m : M A) (b : B) r : (bind m (fun _ => ret b) r).1.2 = (m r).1.2.
Proof. unfold bind. by destruct (m r) as [[? ?] ?]. Qed.

Lemma RunPending_timed_out input bot node election r timeoutMs :
  timeoutMs ∈ timeouts node -> TimedOut timeoutMs r (in_NowMs input) = true ->
  nr_FailureRecorded (RunPending input bot node election r).1.2 = true.
Proof.
  intros Hin Ht. unfold RunPending. rewrite bind_read_state, bind_ret_state. unfold timeouts in Hin.
  destruct (TimedOut (ic_TimeoutMs _) _ _) eqn:E1; [apply FailOnce_records|].
  destruct (TimedOut (tc_TimeoutMs _) _ _) eqn:E2; [apply FailOnce_records|].
  destruct (TimedOut (cc_TimeoutMs _) _ _) eqn:E3; [apply FailOnce_records|].
  rewrite !elem_of_cons, elem_of_nil in Hin. destruct Hin as [->|[->|[->|[]]]]; congruence.
Qed.

Lemma Run_timed_out input node r scope timeoutMs :
  in_scope scope r -> in_Scope input = scope -> nr_FailureRecorded r = false ->
  runs input node = true -> timeoutMs ∈ timeouts node ->
  TimedOut timeoutMs r (in_NowMs input) = true ->
  let '(res, r', _) := Run input node r in
  rt_Satisfied res = true \/ nr_FailureRecorded r' = true.
Proof.
  intros Hin <- Hf Hruns Ht Hto. unfold runs in Hruns. unfold Run.
  destruct (in_Bot input) as [bot|]; [|done]. rewrite <- negb_andb, Hruns. cbn [negb].
  unfold bind at 1, modify. rewrite (Enter_in_scope _ _ _ Hin). unfold bind at 1, read. rewrite Hf. cbv zeta.
  unfold bind at 1. pose proof (RefreshVerdict_effect input node r) as H.
  destruct (RefreshVerdict _ _ _ _ r) as [[u r1] es1]. destruct H as ([] & Hf1 & _).
  rewrite Hf in Hf1. unfold bind at 1, read. destruct (nr_VerdictSatisfied r1).
  - pose proof (RunSatisfied_effect input bot node r1 Hf1) as H.
    destruct (RunSatisfied _ _ _ _) as [[res r'] es]. left. by destruct H as [Hs _].
  - assert (Hto1 : TimedOut timeoutMs r1 (in_NowMs input) = true) by (unfold TimedOut in *; congruence).
    pose proof (RunPending_timed_out input bot node (elect input node) r1 timeoutMs Ht Hto1) as H.
    destruct (RunPending _ _ _ _ _) as [[res r'] es]. by right.
Qed.

(** From the timeout of any declared part on, counted from the tick that
    entered the scope, every run of a member either finds the node satisfied or
    has reported the scope's failure: no node holds its bots for ever. *)
Theorem route_scope_times_out node scope r0 now steps input timeoutMs :
  ~ in_scope scope r0 -> Forall (of_scope scope) steps ->
  in_Scope input = scope -> runs input node = true ->
  timeoutMs ∈ timeouts node -> 0 < timeoutMs -> 0 <= now -> now + timeoutMs < 2 ^ 64 ->
  now + timeoutMs <= in_NowMs input ->
  let '(r, es) := trace node steps (Enter r0 scope now) in
  let '(result, _, es') := Run input node r in
  rt_Satisfied result = true \/ exists reason, Fail reason ∈ es ++ es'.
Proof.
  intros Hn Hs Hsc Hruns Hin Hpos Hnow Hlt Hle.
  pose proof (scope_ok_trace node scope now _ steps (scope_ok_enter node scope r0 now Hn) Hs) as H.
  destruct (trace _ _ _) as [r es]. destruct H as [Hscope Hsince Hfail _ _]. cbn [fst snd] in *.
  destruct (nr_FailureRecorded r) eqn:Hf.
  - destruct (Run input node r) as [[res r'] es']. right. destruct Hfail as (before & reason & -> & _).
    exists reason. set_solver.
  - assert (Hto : TimedOut timeoutMs r (in_NowMs input) = true).
    { unfold TimedOut, nz. rewrite Hsince, u64_small by lia. apply andb_true_iff. split; b2p; lia. }
    pose proof (Run_timed_out input node r scope timeoutMs Hscope Hsc Hf Hruns Hin Hto) as H1.
    pose proof (Run_effect input node r scope Hscope Hsc Hf Hruns) as H2.
    destruct (Run input node r) as [[res r'] es']. destruct H1 as [H1|H1]; [by left|right].
    pose proof (re_failed _ _ _ _ _ _ H2) as H3. rewrite H1 in H3.
    destruct H3 as (before & reason & -> & _). exists reason. set_solver.
Qed.

(** ** A node that waits for a boss *)

Definition sample_contract (timeoutMs : Z) : Contract :=
  mkContract InteractionContract_default
    (mkCompletion true CompletionKind_InstanceBossState "instance_boss_state" 0 0 0 2 3 0 0 (-1) 0 (-1)
       MemberScope_All true timeoutMs [])
    TransportContract_default.

Definition sample_world (state : Z) : World :=
  mkWorld (fun _ _ => []) (fun _ _ => []) (fun _ _ => []) (fun _ _ => []) (fun _ _ => None)
    (fun map => map) (fun _ => None) (fun _ _ => true) (fun _ => Some (6, fun _ => state)).

Definition sample_senses : Senses :=
  mkSenses false false false (f32_of_Z 7) (fun _ _ _ => f32_zero) (fun _ => f32_zero)
    (fun _ => true) (fun _ _ => (false, true)) (fun _ _ _ => 0) (fun _ => None) (fun _ => false)
    (fun _ => false) (fun _ _ => false) 0 0 (fun _ _ _ _ => f32_zero).

Definition sample_bot (guid : Z) : PlayerFacts := mkPlayer guid true true 1 None None (-1).

Definition sample_scope : RuntimeScope := mkRuntimeScope 1 0 4.

Definition sample_input (guid now tick state : Z) : Input :=
  mkInput (Some (sample_bot guid)) true "cohort" tick f32_zero f32_zero f32_zero
    [mkMemberInput (Some (sample_bot 7)) true; mkMemberInput (Some (sample_bot 5)) true] ∅
    sample_scope now tick false (sample_world state) sample_senses.

(** Two members run each of two ticks; the boss dies between them. *)
Definition sample_steps : list Step :=
  [SRun (sample_input 7 1000 1 1); SRun (sample_input 5 1010 1 1); SRun (sample_input 7 2000 2 3);
   SOutcome (CountAttempt sample_scope 1000) (Outcome_Committed "used"); SRun (sample_input 5 2010 2 3)].

Definition sample_start : NodeRuntime := Enter NodeRuntime_default sample_scope 1000.

Lemma sample_steps_of_scope : Forall (of_scope sample_scope) sample_steps.
Proof. unfold sample_steps. repeat constructor. Qed.

Lemma route_scope_ends_once_witness :
  completes (trace (sample_contract 5000) sample_steps sample_start).2 = [Complete "instance_boss_state"] /\
  let '(r, es) := trace (sample_contract 5000) sample_steps sample_start in
  (fails es = [] \/ exists before reason, es = before ++ [Fail reason] /\ fails before = []) /\
  (completes es = [] \/ exists label tick, completes es = [Complete label] /\
     found_complete (sample_contract 5000) sample_start sample_steps tick).
Proof.
  split; [vm_compute; reflexivity|].
  apply (route_scope_ends_once (sample_contract 5000) sample_scope NodeRuntime_default 1000 sample_steps).
  - intros [H _]. discriminate H.
  - exact sample_steps_of_scope.
Defined.

Lemma route_scope_times_out_witness :
  (Run (sample_input 5 6000 9 1) (sample_contract 5000)
     (trace (sample_contract 5000) (take 2 sample_steps) sample_start).1).2
  = [Fail "native_completion_timeout"] /\
  let '(r, es) := trace (sample_contract 5000) (take 2 sample_steps) sample_start in
  let '(result, _, es') := Run (sample_input 5 6000 9 1) (sample_contract 5000) r in
  rt_Satisfied result = true \/ exists reason, Fail reason ∈ es ++ es'.
Proof.
  split; [vm_compute; reflexivity|].
  apply (route_scope_times_out (sample_contract 5000) sample_scope NodeRuntime_default 1000
    (take 2 sample_steps) (sample_input 5 6000 9 1) 5000).
  - intros [H _]. discriminate H.
  - repeat constructor.
  - reflexivity.
  - reflexivity.
  - unfold timeouts. cbn. set_solver.
  - lia.
  - lia.
  - lia.
  - cbn. lia.
Defined.
