(* ===== verification/MeleeLane.v ===== *)
(** The lane of a bot's melee auto attack, a toggle that outlives single
    actions ([Bots/BotMeleeAutoAttackIntent.h]): producers submit intents, one
    per identity is kept, and the best that has not expired is resolved. *)
From S2P Require Import Prelude ActionArbiter.
From Stdlib Require Import ZArith Lia String Ascii.
From stdpp Require Import base gmap list strings sorting.

Open Scope Z_scope.
Open Scope tc_scope.

Inductive Kind : Type := Kind_StartOrSwitch | Kind_Stop | Kind_Suppress.

Inductive Owner : Type :=
| Owner_Profile | Owner_TargetSelection | Owner_Route | Owner_Threat | Owner_Mechanic
| Owner_Recovery | Owner_Safety.

#[export] Instance Kind_eq_dec : EqDecision Kind.
Proof. solve_decision. Defined.
#[export] Instance Owner_eq_dec : EqDecision Owner.
Proof. solve_decision. Defined.

Definition Owner_value (owner : Owner) : Z :=
  match owner with
  | Owner_Profile => 0 | Owner_TargetSelection => 1 | Owner_Route => 2 | Owner_Threat => 3
  | Owner_Mechanic => 4 | Owner_Recovery => 5 | Owner_Safety => 6
  end.

Definition Kind_ToString (kind : Kind) : string :=
  match kind with
  | Kind_StartOrSwitch => "start_or_switch" | Kind_Stop => "stop" | Kind_Suppress => "suppress"
  end.

Definition Owner_ToString (owner : Owner) : string :=
  match owner with
  | Owner_Profile => "profile" | Owner_TargetSelection => "target_selection"
  | Owner_Route => "route" | Owner_Threat => "threat" | Owner_Mechanic => "mechanic"
  | Owner_Recovery => "recovery" | Owner_Safety => "safety"
  end.

Record Intent : Type := mkIntent {
  it_Toggle : Kind;
  it_IntentOwner : Owner;
  it_ActionPriority : Priority;
  it_Target : Z;
  it_Reason : string;
  it_ExpiresAtMs : Z
}.

#[export] Instance Intent_eq_dec : EqDecision Intent.
Proof. solve_decision. Defined.

Definition Resources (intent : Intent) : Z := Uses Resource_AutoAttackToggle [].

Record Lane : Type := mkLane { _nowMs : Z; _rows : list Intent }.

Definition Lane_default : Lane := mkLane 0 [].

Definition KindRank (kind : Kind) : Z :=
  match kind with Kind_Suppress => 2 | Kind_Stop => 1 | Kind_StartOrSwitch => 0 end.

(** [std::tie] compares its fields in order. *)
Definition Better (left right : Intent) : bool :=
  if negb (bool_decide (it_ActionPriority left = it_ActionPriority right))
  then Priority_value (it_ActionPriority right) <? Priority_value (it_ActionPriority left)
  else if negb (KindRank (it_Toggle left) =? KindRank (it_Toggle right))
  then KindRank (it_Toggle right) <? KindRank (it_Toggle left)
  else if negb (bool_decide (it_IntentOwner left = it_IntentOwner right))
  then Owner_value (it_IntentOwner left) <? Owner_value (it_IntentOwner right)
  else if negb (String.eqb (it_Reason left) (it_Reason right))
  then str_lt (it_Reason left) (it_Reason right)
  else it_Target left <? it_Target right.

Definition Begin (lane : Lane) (nowMs : Z) : Lane := mkLane nowMs (_rows lane).

(** The row an intent takes the place of. *)
Definition same_row (intent row : Intent) : bool :=
  bool_decide (it_Toggle row = it_Toggle intent)
  && bool_decide (it_IntentOwner row = it_IntentOwner intent)
  && (it_Target row =? it_Target intent) && String.eqb (it_Reason row) (it_Reason intent).

(** The search for the row, and what is done with it. *)
Fixpoint put (intent : Intent) (rows : list Intent) : list Intent :=
  match rows with
  | [] => [intent]
  | row :: rows =>
      if same_row intent row then (if Better intent row then intent else row) :: rows
      else row :: put intent rows
  end.

Definition accepted (intent : Intent) : bool :=
  negb (str_empty (it_Reason intent)
        || (bool_decide (it_Toggle intent = Kind_StartOrSwitch) && (it_Target intent =? 0))).

Definition Submit (intent : Intent) (lane : Lane) : bool * Lane :=
  if negb (accepted intent) then (false, lane)
  else (true, mkLane (_nowMs lane) (put intent (_rows lane))).

Definition expired (nowMs : Z) (intent : Intent) : bool :=
  nz (it_ExpiresAtMs intent) && (it_ExpiresAtMs intent <=? nowMs).

Definition Resolve (lane : Lane) : option Intent * Lane :=
  let rows := List.filter (fun intent => negb (expired (_nowMs lane) intent)) (_rows lane) in
  (head (stable_sort Better rows), mkLane (_nowMs lane) []).

Definition CandidateCount (lane : Lane) : Z := Z.of_nat (length (_rows lane)).

(** ** The order of intents *)

(** What [Better] compares. *)
Definition order_key (i : Intent) : Z * (Z * (Z * (string * Z))) :=
  (Priority_value (it_ActionPriority i), (KindRank (it_Toggle i),
    (Owner_value (it_IntentOwner i), (it_Reason i, it_Target i)))).

Definition order : relation (Z * (Z * (Z * (string * Z)))) :=
  lex (flip Z.lt) (lex (flip Z.lt) (lex Z.lt (lex (fun a b => str_lt a b = true) Z.lt))).

Definition identity (i : Intent) : Kind * Owner * Z * string :=
  (it_Toggle i, it_IntentOwner i, it_Target i, it_Reason i).

Lemma Priority_value_inj p q : Priority_value p = Priority_value q -> p = q.
Proof. by destruct p, q. Qed.

Lemma Owner_value_inj p q : Owner_value p = Owner_value q -> p = q.
Proof. by destruct p, q. Qed.

Lemma KindRank_inj p q : KindRank p = KindRank q -> p = q.
Proof. by destruct p, q. Qed.

Lemma value_guard {A} `{EqDecision A} (f : A -> Z) (Hf : forall p q, f p = f q -> p = q) p q :
  bool_decide (p = q) = (f p =? f q).
Proof.
  destruct (decide (p = q)) as [->|Hn]; [by rewrite bool_decide_eq_true_2, Z.eqb_refl|].
  rewrite bool_decide_eq_false_2 by done. symmetry. apply Z.eqb_neq. auto.
Qed.

(** One field of a comparison: decide on it, or go on to the next. *)
Lemma field_guard (same less next : bool) (Same Less Next : Prop) :
  (same = true <-> Same) -> (less = true <-> Less) -> (next = true <-> Next) -> (Less -> ~ Same) ->
  (if negb same then less else next) = true <-> Less \/ Same /\ Next.
Proof. intros H1 H2 H3 H. destruct same; cbn; naive_solver. Qed.

Lemma intent_Better_spec a b : Better a b = true <-> order (order_key a) (order_key b).
Proof.
  unfold Better, order, order_key, lex, flip. cbn [fst snd].
  rewrite (value_guard Priority_value Priority_value_inj), (value_guard Owner_value Owner_value_inj).
  do 3 (apply field_guard; [by b2p|by b2p| |lia]).
  apply field_guard; [by b2p|done|by b2p|].
  intros H E. by rewrite E, str_lt_irrefl in H.
Qed.

Lemma order_strict : StrictOrder order.
Proof. unfold order. typeclasses eauto. Qed.

Lemma order_total : TotalCases order.
Proof. unfold order. typeclasses eauto. Qed.

Lemma Better_trans a b c : Better a b = true -> Better b c = true -> Better a c = true.
Proof. rewrite !intent_Better_spec. apply order_strict. Qed.

Lemma Better_irrefl a : Better a a = false.
Proof. apply not_true_iff_false. rewrite intent_Better_spec. apply order_strict. Qed.

Lemma Better_asym a b : Better a b = true -> Better b a = false.
Proof.
  intros H. apply not_true_iff_false. intros H'. pose proof (Better_trans a b a H H') as E.
  by rewrite Better_irrefl in E.
Qed.

(** Intents of different identities are never tied. *)
Lemma Better_identity a b : identity a <> identity b -> Better a b = true \/ Better b a = true.
Proof.
  intros Hn. rewrite !intent_Better_spec.
  destruct (order_total (order_key a) (order_key b)) as [|[E|]]; [auto| |auto].
  destruct Hn. unfold order_key in E. unfold identity.
  injection E as _ H2%KindRank_inj H3%Owner_value_inj H4 H5. congruence.
Qed.

Lemma same_row_spec i row : same_row i row = true <-> identity row = identity i.
Proof.
  unfold same_row, identity. rewrite !andb_true_iff, !bool_decide_eq_true. b2p.
  split; [by intros [[[-> ->] ->] ->]|]. intros [= -> -> -> ->]. auto.
Qed.

(** Of two intents of one identity the better is the one of higher priority. *)
Lemma Better_same a b : identity a = identity b ->
  Better a b = (Priority_value (it_ActionPriority b) <? Priority_value (it_ActionPriority a)).
Proof.
  intros [= H1 H2 H3 H4]. unfold Better. rewrite H1, H2, H3, H4, Z.eqb_refl, String.eqb_refl, Z.ltb_irrefl.
  rewrite bool_decide_eq_true_2 with (P := it_IntentOwner b = it_IntentOwner b) by done. cbn [negb].
  destruct (decide (it_ActionPriority a = it_ActionPriority b)) as [->|Hn].
  - by rewrite bool_decide_eq_true_2, !Z.ltb_irrefl.
  - by rewrite bool_decide_eq_false_2.
Qed.

(** ** What the lane keeps *)

(** The intents of a history that are accepted, in order. *)
Inductive Call : Type := CBegin (nowMs : Z) | CSubmit (intent : Intent).

Definition call (lane : Lane) (c : Call) : Lane :=
  match c with CBegin nowMs => Begin lane nowMs | CSubmit intent => (Submit intent lane).2 end.

Definition run (calls : list Call) (lane : Lane) : Lane := foldl call lane calls.

Definition submitted_by (c : Call) : list Intent :=
  match c with CBegin _ => [] | CSubmit intent => if accepted intent then [intent] else [] end.

Definition submitted (calls : list Call) : list Intent := flat_map submitted_by calls.

Definition last_now (calls : list Call) (lane : Lane) : Z :=
  foldl (fun now c => match c with CBegin nowMs => nowMs | CSubmit _ => now end) (_nowMs lane) calls.

(** The first of the submissions of its identity that have the highest priority. *)
Definition champion (l : list Intent) (i : Intent) : Prop :=
  exists before after, l = before ++ i :: after /\
    Forall (fun j => identity j = identity i -> Better i j = true) before /\
    Forall (fun j => identity j = identity i -> Better j i = false) after.

Lemma put_identity i rows : identity <$> put i rows =
  if existsb (same_row i) rows then identity <$> rows else (identity <$> rows) ++ [identity i].
Proof.
  induction rows as [|row rows IH]; cbn [put existsb fmap list_fmap]; [done|].
  destruct (same_row i row) eqn:E; cbn [fmap list_fmap orb].
  - apply same_row_spec in E. by destruct (Better i row); rewrite ?E.
  - rewrite IH. by destruct (existsb _ rows).
Qed.

Lemma put_elem i rows r : NoDup (identity <$> rows) ->
  r ∈ put i rows <->
    r ∈ rows /\ (identity r = identity i -> Better i r = false) \/
    r = i /\ Forall (fun j => identity j = identity i -> Better i j = true) rows.
Proof.
  induction rows as [|row rows IH]; cbn [put fmap list_fmap].
  { rewrite list_elem_of_singleton, elem_of_nil, Forall_nil. naive_solver. }
  intros [Hrow Hnd]%NoDup_cons. rewrite Forall_cons.
  destruct (same_row i row) eqn:E.
  - apply same_row_spec in E.
    assert (Hother : forall j, j ∈ rows -> identity j <> identity i).
    { intros j Hj Hid. apply Hrow. rewrite E, <- Hid. by apply list_elem_of_fmap_2. }
    assert (Hall : Forall (fun j => identity j = identity i -> Better i j = true) rows).
    { apply Forall_forall. intros j Hj Hid. by destruct (Hother j Hj). }
    destruct (Better i row) eqn:Hb; rewrite !elem_of_cons; split.
    + intros [->|Hr]; [by right|]. left. split; [by right|]. intros Hid. by destruct (Hother r Hr).
    + intros [[[->|Hr] Hf]|[-> _]]; [|by right|by left]. specialize (Hf E); congruence.
    + intros [->|Hr]; left; [by split; [left|]|]. split; [by right|]. intros Hid. by destruct (Hother r Hr).
    + intros [[[->|Hr] _]|[-> [Hf _]]]; [by left|by right|]. specialize (Hf E); congruence.
  - assert (Hn : identity row <> identity i) by (intros ?%same_row_spec; congruence).
    rewrite !elem_of_cons, IH by done. naive_solver.
Qed.

Lemma champion_in l i : champion l i -> i ∈ l.
Proof. intros (before & after & -> & _). set_solver. Qed.

Lemma champion_snoc rows l i r : NoDup (identity <$> rows) ->
  (forall j, j ∈ l -> identity j ∈ identity <$> rows) ->
  (forall j, j ∈ rows <-> champion l j) ->
  champion l r /\ (identity r = identity i -> Better i r = false) \/
  r = i /\ Forall (fun j => identity j = identity i -> Better i j = true) rows <->
  champion (l ++ [i]) r.
Proof.
  intros Hnd Hall Hrows. split.
  - intros [[(before & after & -> & Hb & Ha) Hi]|[-> Hf]].
    + exists before, (after ++ [i]). rewrite <- app_assoc. split_and!; [done|done|].
      apply Forall_app. split; [done|]. constructor; [|constructor]. intros E. apply Hi. done.
    + exists l, []. split_and!; [done| |constructor]. apply Forall_forall. intros j Hj Hid.
      destruct (proj1 (list_elem_of_fmap _ _ _) (Hall j Hj)) as (r & Hr & Hin).
      rewrite Forall_forall in Hf. specialize (Hf r Hin). rewrite <- Hr in Hf. specialize (Hf Hid).
      apply Hrows in Hin as (before & after & -> & Hbef & Haft).
      rewrite elem_of_app, elem_of_cons in Hj. rewrite Forall_forall in Hbef, Haft.
      destruct Hj as [Hj|[->|Hj]]; [| done|].
      * eapply Better_trans; [exact Hf|]. by apply Hbef.
      * specialize (Haft j Hj Hr). rewrite !Better_same in * by congruence. b2p. lia.
  - intros (before & after & E & Hb & Ha). destruct after as [|x after _] using rev_ind.
    + apply app_inj_tail in E as [-> <-]. right. split; [done|]. apply Forall_forall. intros j Hj Hid.
      rewrite Forall_forall in Hb. apply Hb; [|done]. apply Hrows in Hj. by apply champion_in.
    + rewrite app_comm_cons, app_assoc in E. apply app_inj_tail in E as [-> <-].
      apply Forall_app in Ha as [Ha Hi]. left. split; [by exists before, after|].
      intros Hid. inversion_clear Hi as [|? ? Hi' _]. by apply Hi'.
Qed.

(** The rows of a history are one champion for each identity. *)
Lemma rows_spec calls lane : _rows lane = [] ->
  let lane' := run calls lane in
  _nowMs lane' = last_now calls lane /\ NoDup (identity <$> _rows lane') /\
  (forall i, i ∈ submitted calls -> identity i ∈ identity <$> _rows lane') /\
  forall r, r ∈ _rows lane' <-> champion (submitted calls) r.
Proof.
  intros He. unfold run, last_now, submitted.
  induction calls as [|c calls (IH1 & IH2 & IH3 & IH4)] using rev_ind; cbn [foldl flat_map].
  { rewrite He. split_and!; [done|constructor|by intros ? ?%elem_of_nil|]. intros r.
    rewrite elem_of_nil. split; [done|]. by intros ([|? ?] & ? & ? & _). }
  rewrite flat_map_app, !foldl_app. cbn [foldl flat_map]. rewrite app_nil_r.
  set (rest := foldl call lane calls) in *. set (l := flat_map submitted_by calls) in *.
  destruct c as [now|i]; cbn [submitted_by call]; [by rewrite app_nil_r|].
  unfold Submit. destruct (accepted i); cbn [negb snd _rows _nowMs]; [|by rewrite app_nil_r].
  split; [done|]. split.
  - rewrite put_identity. destruct (existsb _ _) eqn:E; [done|]. apply NoDup_app. split; [done|]. split.
    + intros id Hid ->%list_elem_of_singleton. apply list_elem_of_fmap in Hid as (r & Hr & Hin).
      rewrite existsb_none, Forall_forall in E. specialize (E r Hin).
      by rewrite (proj2 (same_row_spec i r)) in E.
    + apply NoDup_singleton.
  - split.
    + intros j Hj. rewrite put_identity.
      destruct (existsb _ _) eqn:E; rewrite ?elem_of_app in *; [|set_solver].
      destruct Hj as [Hj| ->%list_elem_of_singleton]; [auto|].
      apply existsb_elem in E as (r & Hr & Hs%same_row_spec). rewrite <- Hs. by apply list_elem_of_fmap_2.
    + intros r. rewrite put_elem, IH4 by done. rewrite <- champion_snoc; [reflexivity|done..].
Qed.

(** ** What is resolved *)

(** The best champion that has not expired. *)
Definition winner (l : list Intent) (nowMs : Z) (w : Intent) : Prop :=
  champion l w /\ expired nowMs w = false /\
  forall i, champion l i -> expired nowMs i = false -> i = w \/ Better w i = true.

Definition no_winner (l : list Intent) (nowMs : Z) : Prop :=
  forall i, champion l i -> expired nowMs i = true.

Lemma head_sorted {A} (R : relation A) l x : StronglySorted R l -> head l = Some x ->
  forall y, y ∈ l -> y = x \/ R x y.
Proof.
  intros Hs Hh y Hy. destruct l as [|z l]; [done|]. injection Hh as ->.
  inversion_clear Hs as [|? ? _ Hall]. rewrite Forall_forall in Hall.
  apply elem_of_cons in Hy as [->|Hy]; auto.
Qed.

(** Not better, as a preorder on intents of different identities. *)
Definition at_least (a b : Intent) : Prop :=
  order (order_key a) (order_key b) \/ order_key a = order_key b.

Lemma at_least_trans : Transitive at_least.
Proof.
  intros a b c. unfold at_least. intros [H|H] [H'|H'].
  - left. by etrans.
  - left. by rewrite <- H'.
  - left. by rewrite H.
  - right. congruence.
Qed.

(** Whatever is submitted since the lane was last resolved, and whenever, a
    resolution empties the lane and answers with the best of the champions
    alive at its time, and with nothing only if every champion has expired: at
    most one toggle wins a tick, suppression before a stop before a start. *)
Theorem Lane_resolves calls start :
  let l := submitted calls in
  let now := last_now calls (mkLane start []) in
  let '(result, lane) := Resolve (run calls (mkLane start [])) in
  CandidateCount lane = 0 /\
  match result with Some w => winner l now w | None => no_winner l now end.
Proof.
  cbv zeta. destruct (rows_spec calls (mkLane start []) eq_refl) as (Hnow & Hnd & _ & Hrows).
  unfold Resolve. rewrite Hnow. split; [done|]. set (now := last_now _ _) in *.
  set (live := List.filter _ _).
  assert (Hlive : forall i, i ∈ stable_sort Better live <-> champion (submitted calls) i /\ expired now i = false).
  { intros i. rewrite (stable_sort_perm Better). unfold live.
    rewrite !list_elem_of_In, filter_In, <- list_elem_of_In, Hrows. by b2p. }
  assert (Hsort : StronglySorted at_least (stable_sort Better live)).
  { apply stable_sort_sorted; [apply at_least_trans| |].
    - intros x y H%intent_Better_spec. by left.
    - intros x y H. destruct (order_total (order_key x) (order_key y)) as [|[E|E]]; [by left|by right|].
      apply intent_Better_spec in E. congruence. }
  destruct (head (stable_sort Better live)) as [w|] eqn:E.
  - destruct (proj1 (Hlive w)) as [Hw Hl]. { destruct (stable_sort Better live); [done|]. injection E as ->. by left. }
    split_and!; [done|done|]. intros i Hi Hli.
    destruct (head_sorted _ _ _ Hsort E i) as [->|Hat]; [by apply Hlive|by left|].
    destruct (decide (identity i = identity w)) as [Hid|Hid].
    + left. eapply (NoDup_fmap_elem identity); [exact Hnd|by apply Hrows..|done].
    + right. destruct (Better_identity i w Hid) as [Hb%intent_Better_spec|]; [|done].
      pose proof order_strict as [Hirr Htr]. exfalso.
      destruct Hat as [Hat|Hat]; [by eapply Hirr, Htr|]. rewrite Hat in Hb. by eapply Hirr.
  - intros i Hi. apply not_false_iff_true. intros Hli.
    destruct (stable_sort Better live) as [|x s] eqn:Es; [|done].
    by apply (elem_of_nil i), Hlive.
Qed.

(** Submissions of one identity and priority differ in nothing. *)
Definition consistent (l : list Intent) : Prop :=
  forall i j, i ∈ l -> j ∈ l -> identity i = identity j ->
    it_ActionPriority i = it_ActionPriority j -> i = j.

(** A champion is then a submission none of its identity is better than. *)
Lemma champion_consistent l i : consistent l ->
  champion l i <-> i ∈ l /\ forall j, j ∈ l -> identity j = identity i -> Better j i = false.
Proof.
  intros Hc. split.
  - intros (before & after & -> & Hb & Ha). split; [set_solver|]. intros j Hj Hid.
    rewrite Forall_forall in Hb, Ha. apply elem_of_app in Hj as [Hj|Hj].
    + apply Better_asym. by apply Hb.
    + apply elem_of_cons in Hj as [->|Hj]; [apply Better_irrefl|by apply Ha].
  - intros [Hi Hbest]. destruct (list_elem_of_split_l _ _ Hi) as (before & after & -> & Hn).
    exists before, after. split_and!; [done|..]; apply Forall_forall; intros j Hj Hid.
    + pose proof (Hbest j ltac:(set_solver) Hid) as Hb. rewrite !Better_same in * by congruence.
      assert (it_ActionPriority i <> it_ActionPriority j).
      { intros Hp. apply Hn. by rewrite (Hc i j) by set_solver. }
      assert (Priority_value (it_ActionPriority i) <> Priority_value (it_ActionPriority j))
        by (by intros ?%Priority_value_inj). b2p. lia.
    + apply Hbest; [set_solver|done].
Qed.

(** C10. The order of submissions and the ticks between them do not matter, as long
    as submissions of one identity and priority expire together. *)
Theorem Lane_submission_order calls calls' start start' :
  submitted calls ≡ₚ submitted calls' -> consistent (submitted calls) ->
  last_now calls (mkLane start []) = last_now calls' (mkLane start' []) ->
  (Resolve (run calls (mkLane start []))).1 = (Resolve (run calls' (mkLane start' []))).1.
Proof.
  intros Hp Hc Hnow. pose proof (Lane_resolves calls start) as H.
  pose proof (Lane_resolves calls' start') as H'. cbv zeta in H, H'. rewrite <- Hnow in H'.
  destruct (Resolve (run calls _)) as [r lane], (Resolve (run calls' _)) as [r' lane'].
  destruct H as [_ H], H' as [_ H']. cbn [fst]. set (now := last_now _ _) in *.
  assert (Hch : forall i, champion (submitted calls) i <-> champion (submitted calls') i).
  { assert (Hc' : consistent (submitted calls')) by (intros i j; rewrite <- !Hp; apply Hc).
    intros i. rewrite !champion_consistent by done. setoid_rewrite Hp. done. }
  destruct r as [w|], r' as [w'|]; [|exfalso..|done].
  - destruct H as (H1 & H2 & H3), H' as (H1' & H2' & H3'). f_equal.
    destruct (H3 w') as [->|Hb]; [by apply Hch|done|done|].
    destruct (H3' w) as [->|Hb']; [by apply Hch|done|done|]. apply Better_asym in Hb. congruence.
  - destruct H as (H1 & H2 & _). apply Hch, H' in H1. congruence.
  - destruct H' as (H1 & H2 & _). apply Hch, H in H1. congruence.
Qed.

(** ** The producers *)

(** [SubmitMeleeAutoAttackIntent], the only producer of intents
    ([Bots/BotWorldPopulationMgrCombatMovement.cpp]); a null reason is [None]. *)
Definition manager_intent (kind : Kind) (target : Z) (owner : Owner) (priority : Priority)
    (reason : option string) : Intent :=
  mkIntent kind owner priority target (default "unspecified"%string reason) 0.

Definition SubmitMeleeAutoAttackIntent (kind : Kind) (target : Z) (owner : Owner)
    (priority : Priority) (reason : option string) (lane : Lane) : bool * Z * Lane :=
  let '(submitted, lane) := Submit (manager_intent kind target owner priority reason) lane in
  (submitted, u32 (CandidateCount lane), lane).

(** What the manager submits never expires, so the order of its producers
    does not matter. *)
Lemma manager_consistent l : Forall (fun i => it_ExpiresAtMs i = 0) l -> consistent l.
Proof.
  intros Hf [? ? ? ? ? ?] [? ? ? ? ? ?] Hi Hj. rewrite Forall_forall in Hf.
  pose proof (Hf _ Hi) as H1. pose proof (Hf _ Hj) as H2. unfold identity. cbn in *. congruence.
Qed.

(** Were there expiries, the order would matter: of two intents of one identity
    and priority the lane keeps the first, so a renewal is lost when the first
    expires. *)
Lemma Lane_renewal_lost :
  let suppress expiresAtMs :=
    mkIntent Kind_Suppress Owner_Safety Priority_Mechanic 0 "forbidden" expiresAtMs in
  (Resolve (run [CSubmit (suppress 1100); CSubmit (suppress 1600); CBegin 1200] Lane_default)).1
    = None /\
  (Resolve (run [CSubmit (suppress 1600); CSubmit (suppress 1100); CBegin 1200] Lane_default)).1
    = Some (suppress 1600).
Proof. split; reflexivity. Qed.

Lemma Lane_submission_order_witness :
  let stop := manager_intent Kind_Stop 0 Owner_Route Priority_Mechanic (Some "route"%string) in
  let suppress := manager_intent Kind_Suppress 0 Owner_Safety Priority_Mechanic None in
  (Resolve (run [CBegin 1200; CSubmit stop; CSubmit suppress] (mkLane 0 []))).1 = Some suppress
  /\ (Resolve (run [CBegin 1200; CSubmit stop; CSubmit suppress] (mkLane 0 []))).1
     = (Resolve (run [CSubmit suppress; CSubmit stop; CBegin 1200] (mkLane 7 []))).1.
Proof.
  split; [reflexivity|].
  apply Lane_submission_order; [apply Permutation_swap| |reflexivity].
  apply manager_consistent. by repeat constructor.
Defined.
