(* ===== verification/RouteHold.v ===== *)
(** The hold a controller keeps on a route while a checkpoint is taken
    ([BotControllerRouteHold] in [Bots/BotChainwielderOwnerCheckpoint.h]): a
    state machine that is acquired, armed, sees its checkpoint terminate and is
    released, and the admission of actions and of route advances meanwhile. *)
From S2P Require Import Prelude ActionArbiter RouteCompletion.
From Stdlib Require Import ZArith Lia String Ascii.
From stdpp Require Import base gmap list strings.

Open Scope Z_scope.
Open Scope tc_scope.

(** [std::isdigit] or a letter from [a] to [f]. *)
Definition is_lower_hex (c : ascii) : bool :=
  let n := Z.of_nat (nat_of_ascii c) in
  ((48 <=? n) && (n <=? 57)) || ((97 <=? n) && (n <=? 102)).

Definition IsLowerHex (value : string) (length : nat) : bool :=
  (String.length value =? length)%nat && forallb is_lower_hex (list_ascii_of_string value).

(** ** Identities *)

Inductive Phase : Type :=
| Phase_Disabled | Phase_Acquiring | Phase_Held | Phase_Armed | Phase_CheckpointTerminal
| Phase_Released | Phase_Failed.

#[export] Instance hold_Phase_eq_dec : EqDecision Phase.
Proof. solve_decision. Defined.

Definition PhaseName (phase : Phase) : string :=
  match phase with
  | Phase_Disabled => "disabled" | Phase_Acquiring => "acquiring" | Phase_Held => "held"
  | Phase_Armed => "armed" | Phase_CheckpointTerminal => "checkpoint_terminal"
  | Phase_Released => "released" | Phase_Failed => "failed"
  end.

Inductive Admission : Type :=
| Admission_Ordinary | Admission_FormationMovement | Admission_FriendlyHealing
| Admission_BagConsumable | Admission_OffenseSuppression | Admission_DefensiveSurvival
| Admission_CheckpointObservation.

#[export] Instance Admission_eq_dec : EqDecision Admission.
Proof. solve_decision. Defined.

Record SourceIdentityComparison : Type := mkSourceIdentity {
  sc_Accepted : bool;
  sc_ConfiguredPresent : bool;
  sc_RequestedPresent : bool;
  sc_ConfiguredFormatValid : bool;
  sc_RequestedFormatValid : bool;
  sc_AuthoritiesMatch : bool;
  sc_BinaryRevisionPresent : bool;
  sc_BinaryRevisionFormatValid : bool;
  sc_BinaryRevisionMatchesSource : bool;
  sc_ConfiguredLength : nat;
  sc_RequestedLength : nat;
  sc_BinaryRevisionLength : nat
}.

Definition CompareSourceIdentity (configuredSource requestedSource binaryRevision : string)
    : SourceIdentityComparison :=
  let configuredPresent := negb (str_empty configuredSource) in
  let requestedPresent := negb (str_empty requestedSource) in
  let configuredValid := IsLowerHex configuredSource 40 in
  let requestedValid := IsLowerHex requestedSource 40 in
  let match_ := String.eqb configuredSource requestedSource in
  let binaryPresent := negb (str_empty binaryRevision) in
  let binaryValid := IsLowerHex binaryRevision 12 || IsLowerHex binaryRevision 40 in
  let binaryMatches := binaryValid && configuredValid
    && String.eqb (substring 0 (String.length binaryRevision) configuredSource) binaryRevision in
  mkSourceIdentity
    (configuredPresent && requestedPresent && configuredValid && requestedValid && match_
     && binaryPresent && binaryValid && binaryMatches)
    configuredPresent requestedPresent configuredValid requestedValid match_ binaryPresent
    binaryValid binaryMatches (String.length configuredSource) (String.length requestedSource)
    (String.length binaryRevision).

Record Identity : Type := mkIdentity {
  hi_CohortId : string;
  hi_ServerEpoch : Z;
  hi_AttemptId : Z;
  hi_ScenarioId : string;
  hi_RuntimeProfile : string;
  hi_RouteManifestSha256 : string;
  hi_RouteGeneration : Z;
  hi_RouteNodeId : string;
  hi_ActorGuid : Z;
  hi_FixtureId : string;
  hi_SealSha256 : string;
  hi_SourceCommit : string
}.

Definition Identity_default : Identity := mkIdentity "" 0 0 "" "" "" 0 "" 0 "" "" "".

Definition SameCore (a b : Identity) : bool :=
  String.eqb (hi_CohortId a) (hi_CohortId b) && (hi_ServerEpoch a =? hi_ServerEpoch b)
  && (hi_AttemptId a =? hi_AttemptId b) && (hi_ActorGuid a =? hi_ActorGuid b)
  && String.eqb (hi_FixtureId a) (hi_FixtureId b)
  && String.eqb (hi_SealSha256 a) (hi_SealSha256 b)
  && String.eqb (hi_SourceCommit a) (hi_SourceCommit b).

Definition Identity_eqb (a b : Identity) : bool :=
  SameCore a b && String.eqb (hi_ScenarioId a) (hi_ScenarioId b)
  && String.eqb (hi_RuntimeProfile a) (hi_RuntimeProfile b)
  && String.eqb (hi_RouteManifestSha256 a) (hi_RouteManifestSha256 b)
  && (hi_RouteGeneration a =? hi_RouteGeneration b)
  && String.eqb (hi_RouteNodeId a) (hi_RouteNodeId b).

Definition ValidBootstrap (i : Identity) : bool :=
  negb (str_empty (hi_CohortId i)) && nz (hi_ServerEpoch i) && nz (hi_AttemptId i)
  && nz (hi_ActorGuid i) && negb (str_empty (hi_FixtureId i))
  && IsLowerHex (hi_SealSha256 i) 64 && IsLowerHex (hi_SourceCommit i) 40.

Definition ValidComplete (i : Identity) : bool :=
  ValidBootstrap i && negb (str_empty (hi_ScenarioId i)) && negb (str_empty (hi_RuntimeProfile i))
  && IsLowerHex (hi_RouteManifestSha256 i) 64 && nz (hi_RouteGeneration i)
  && negb (str_empty (hi_RouteNodeId i)).

Definition ScopeKey (i : Identity) : string :=
  hi_CohortId i ++ ":" ++ to_string (hi_ServerEpoch i) ++ ":" ++ to_string (hi_AttemptId i) ++ ":"
  ++ to_string (hi_RouteGeneration i) ++ ":" ++ to_string (hi_ActorGuid i).

(** ** The state *)

Record TransitionResult : Type := mkTransition { tr_Accepted : bool; tr_Reason : string }.

Record State : Type := mkState {
  hs_CurrentPhase : Phase;
  hs_Scope : Identity;
  hs_AcquireCount : Z;
  hs_ArmAckCount : Z;
  hs_ReleaseCount : Z;
  hs_SuppressedRouteActionCount : Z;
  hs_SuppressedRouteAdvanceCount : Z;
  hs_AcquiredAtMs : Z;
  hs_ArmedAtMs : Z;
  hs_TerminalAtMs : Z;
  hs_ReleasedAtMs : Z;
  hs_CheckpointStage : string;
  hs_CheckpointTerminal : bool;
  hs_CheckpointIdentityPreserved : bool;
  hs_FailureReason : string
}.

Definition State_default : State :=
  mkState Phase_Disabled Identity_default 0 0 0 0 0 0 0 0 0 "disabled" false false "".

(** What a call assigns: the phase, the failure reason, the suppression counts. *)
Definition assign (st : State) (phase : Phase) (failure : string) (actions advances : Z) : State :=
  mkState phase (hs_Scope st) (hs_AcquireCount st) (hs_ArmAckCount st) (hs_ReleaseCount st)
    actions advances (hs_AcquiredAtMs st) (hs_ArmedAtMs st) (hs_TerminalAtMs st)
    (hs_ReleasedAtMs st) (hs_CheckpointStage st) (hs_CheckpointTerminal st)
    (hs_CheckpointIdentityPreserved st) failure.

Definition Holding (st : State) : bool :=
  match hs_CurrentPhase st with
  | Phase_Disabled | Phase_Released => false
  | _ => true
  end.

Definition Reject (st : State) (reason : string) (retainReleased : bool)
    : TransitionResult * State :=
  (mkTransition false reason,
   assign st (if retainReleased then hs_CurrentPhase st else Phase_Failed)
     (if str_empty (hs_FailureReason st) then reason else hs_FailureReason st)
     (hs_SuppressedRouteActionCount st) (hs_SuppressedRouteAdvanceCount st)).

Definition BeginAcquire (st : State) (bootstrap : Identity) (nowMs : Z) : TransitionResult * State :=
  if Holding st && (hi_AttemptId (hs_Scope st) =? hi_AttemptId bootstrap)
  then Reject st "controller_route_hold_duplicate_acquire" false
  else if negb (ValidBootstrap bootstrap)
  then Reject State_default "controller_route_hold_bootstrap_identity_invalid" false
  else (mkTransition true "controller_route_hold_acquire_started",
        mkState Phase_Acquiring bootstrap 0 0 0 0 0 nowMs 0 0 0 "disabled" false false "").

Definition CompleteAcquire (st : State) (identity : Identity) (nowMs : Z) : TransitionResult * State :=
  if negb (bool_decide (hs_CurrentPhase st = Phase_Acquiring))
  then Reject st "controller_route_hold_acquire_not_pending" false
  else if negb (ValidComplete identity) || negb (SameCore (hs_Scope st) identity)
  then Reject st "controller_route_hold_acquire_identity_drift" false
  else (mkTransition true "controller_route_hold_acquired",
        mkState Phase_Held identity 1 (hs_ArmAckCount st) (hs_ReleaseCount st)
          (hs_SuppressedRouteActionCount st) (hs_SuppressedRouteAdvanceCount st) nowMs
          (hs_ArmedAtMs st) (hs_TerminalAtMs st) (hs_ReleasedAtMs st) (hs_CheckpointStage st)
          (hs_CheckpointTerminal st) (hs_CheckpointIdentityPreserved st) (hs_FailureReason st)).

Definition ValidateIdentity (st : State) (identity : Identity) : bool * State :=
  match hs_CurrentPhase st with
  | Phase_Disabled | Phase_Released => (true, st)
  | _ =>
      if Identity_eqb (hs_Scope st) identity then (true, st)
      else (false, (Reject st "controller_route_hold_identity_drift" false).2)
  end.

Definition AcknowledgeArm (st : State) (identity : Identity) (nowMs : Z) : TransitionResult * State :=
  if bool_decide (hs_CurrentPhase st = Phase_Armed) || nz (hs_ArmAckCount st)
  then Reject st "controller_route_hold_duplicate_arm" false
  else if negb (bool_decide (hs_CurrentPhase st = Phase_Held))
  then Reject st "controller_route_hold_arm_before_acquire" false
  else
    let '(valid, st) := ValidateIdentity st identity in
    if negb valid then (mkTransition false (hs_FailureReason st), st)
    else (mkTransition true "controller_route_hold_arm_acknowledged",
          mkState Phase_Armed (hs_Scope st) (hs_AcquireCount st) 1 (hs_ReleaseCount st)
            (hs_SuppressedRouteActionCount st) (hs_SuppressedRouteAdvanceCount st)
            (hs_AcquiredAtMs st) nowMs (hs_TerminalAtMs st) (hs_ReleasedAtMs st)
            (hs_CheckpointStage st) (hs_CheckpointTerminal st)
            (hs_CheckpointIdentityPreserved st) (hs_FailureReason st)).

Definition ObserveCheckpointTerminal (st : State) (identity : Identity) (stage : string)
    (terminal identityPreserved : bool) (nowMs : Z) : TransitionResult * State :=
  if negb (bool_decide (hs_CurrentPhase st = Phase_Armed))
  then Reject st "controller_route_hold_checkpoint_terminal_stale" false
  else
    let '(valid, st) := ValidateIdentity st identity in
    if negb valid then (mkTransition false (hs_FailureReason st), st)
    else
      let observed phase :=
        mkState phase (hs_Scope st) (hs_AcquireCount st) (hs_ArmAckCount st) (hs_ReleaseCount st)
          (hs_SuppressedRouteActionCount st) (hs_SuppressedRouteAdvanceCount st)
          (hs_AcquiredAtMs st) (hs_ArmedAtMs st) nowMs (hs_ReleasedAtMs st) stage terminal
          identityPreserved (hs_FailureReason st) in
      if negb terminal
      then Reject (observed (hs_CurrentPhase st)) "controller_route_hold_checkpoint_terminal_missing" false
      else if negb identityPreserved
      then Reject (observed (hs_CurrentPhase st))
             "controller_route_hold_checkpoint_identity_not_preserved" false
      else (mkTransition true "controller_route_hold_checkpoint_terminal",
            observed Phase_CheckpointTerminal).

Definition Release (st : State) (identity : Identity) (nowMs : Z) : TransitionResult * State :=
  if bool_decide (hs_CurrentPhase st = Phase_Released) || nz (hs_ReleaseCount st)
  then Reject st "controller_route_hold_duplicate_release" true
  else if negb (bool_decide (hs_CurrentPhase st = Phase_CheckpointTerminal))
  then Reject st "controller_route_hold_release_before_terminal" false
  else
    let '(valid, st) := ValidateIdentity st identity in
    if negb valid then (mkTransition false (hs_FailureReason st), st)
    else (mkTransition true "controller_route_hold_released",
          mkState Phase_Released (hs_Scope st) (hs_AcquireCount st) (hs_ArmAckCount st) 1
            (hs_SuppressedRouteActionCount st) (hs_SuppressedRouteAdvanceCount st)
            (hs_AcquiredAtMs st) (hs_ArmedAtMs st) (hs_TerminalAtMs st) nowMs
            (hs_CheckpointStage st) (hs_CheckpointTerminal st)
            (hs_CheckpointIdentityPreserved st) (hs_FailureReason st)).

(** What is admitted whatever the phase of a hold. *)
Definition safe (scope : Identity) (actingActorGuid : Z) (classification : Admission)
    (survival movement : bool) : bool :=
  match classification with
  | Admission_FormationMovement | Admission_FriendlyHealing | Admission_BagConsumable
  | Admission_OffenseSuppression | Admission_DefensiveSurvival => true
  | _ => survival && (negb movement || negb (actingActorGuid =? hi_ActorGuid scope))
  end.

Definition AdmitCandidate (st : State) (identity : Identity) (actingActorGuid : Z)
    (classification : Admission) (survival movement : bool) : bool * State :=
  if negb (Holding st) then (true, st)
  else
    let st := (ValidateIdentity st identity).2 in
    let checkpointObservation :=
      bool_decide (classification = Admission_CheckpointObservation)
      && bool_decide (hs_CurrentPhase st = Phase_Armed)
      && (actingActorGuid =? hi_ActorGuid (hs_Scope st)) in
    if safe (hs_Scope st) actingActorGuid classification survival movement || checkpointObservation
    then (true, st)
    else (false, assign st (hs_CurrentPhase st) (hs_FailureReason st)
                   (hs_SuppressedRouteActionCount st +64 1) (hs_SuppressedRouteAdvanceCount st)).

Definition suppress_advance (st : State) : State :=
  assign st (hs_CurrentPhase st) (hs_FailureReason st) (hs_SuppressedRouteActionCount st)
    (hs_SuppressedRouteAdvanceCount st +64 1).

Definition PermitRouteAdvance (st : State) (identity : Identity) (prospectiveGeneration : Z)
    : bool * State :=
  match hs_CurrentPhase st with
  | Phase_Disabled | Phase_Released => (true, st)
  | Phase_Acquiring =>
      if SameCore identity (hs_Scope st) && (hi_RouteGeneration identity =? 0)
         && (prospectiveGeneration =? 1)
      then (true, st)
      else (false, suppress_advance (Reject st "controller_route_hold_bootstrap_route_drift" false).2)
  | _ => (false, suppress_advance (ValidateIdentity st identity).2)
  end.

Definition AdmittedIdentity (st : State) : Identity := hs_Scope st.

Definition GateRouteMutation (hold : State) (identity : Identity) (prospectiveGeneration : Z)
    : bool * State := PermitRouteAdvance hold identity prospectiveGeneration.

(** ** The hold as an admission policy of a bot's kernel *)

(** [find(part) != npos]. *)
Definition contains (part s : string) : bool :=
  match String.index 0 part s with Some _ => true | None => false end.

Section Policy.
Context {W : Type}.
Implicit Types (c : @Candidate W) (k : @Kernel W).

(** The class a candidate without a class of its own is given. *)
Definition infer_class c : AdmissionClass :=
  if String.eqb (cd_Source c) "raid_prepull_consumables" then AdmissionClass_BagConsumable
  else if String.eqb (cd_Source c) "adaptive_raid_support" then AdmissionClass_FriendlyHealing
  else if contains "formation" (cd_Key c) then AdmissionClass_FormationMovement
  else if contains "suppress" (cd_Key c) then AdmissionClass_OffenseSuppression
  else AdmissionClass_Unknown.

Definition ClassifyCandidate c (metadata : option AdmissionMetadata) (hold : State) : Admission :=
  let declared := match metadata with
    | Some m => am_Classification m | None => AdmissionClass_Unknown end in
  let classification := match declared with
    | AdmissionClass_Unknown => infer_class c | _ => declared end in
  match classification with
  | AdmissionClass_FormationMovement => Admission_FormationMovement
  | AdmissionClass_FriendlyHealing => Admission_FriendlyHealing
  | AdmissionClass_BagConsumable => Admission_BagConsumable
  | AdmissionClass_OffenseSuppression => Admission_OffenseSuppression
  | AdmissionClass_DefensiveSurvival => Admission_DefensiveSurvival
  | AdmissionClass_ControllerCheckpointObservation =>
      match metadata with
      | Some m =>
          if negb (String.eqb (am_ScopeKey m) (ScopeKey (hs_Scope hold)))
             || negb (String.eqb (cd_Source c) "validation_route_adapter")
          then Admission_Ordinary else Admission_CheckpointObservation
      | None => Admission_Ordinary
      end
  | AdmissionClass_Unknown => Admission_Ordinary
  end.

(** What the policy asks of the hold for a candidate. *)
Definition Ask (hold : State) (identity : Identity) (actingActorGuid : Z) c
    (metadata : option AdmissionMetadata) : bool * State :=
  AdmitCandidate hold identity actingActorGuid (ClassifyCandidate c metadata hold)
    (bool_decide (cd_ActionPriority c = Priority_Survival))
    (Conflicts (cd_RequiredResources c) (Uses Resource_Movement [])).

(** The policy, with the hold as it is when the kernel resolves: what asking
    changes of the hold changes none of its later answers ([Ask_repeat]). *)
Definition hold_policy (hold : State) (identity : Identity) (actingActorGuid : Z)
    : @AdmissionPolicy W := fun c metadata =>
  if (Ask hold identity actingActorGuid c metadata).1 then ""%string
  else "controller_route_hold_suppressed"%string.

Definition InstallAdmissionPolicy k (hold : State) (identity : Identity) (actingActorGuid : Z)
    : Kernel :=
  SetAdmissionPolicy k (Some (hold_policy hold identity actingActorGuid)).

Definition MarkCheckpointObservationCandidate k (candidateKey : string) (hold : State)
    (actingActorGuid : Z) : bool * Kernel :=
  if negb (bool_decide (hs_CurrentPhase hold = Phase_Armed))
     || negb (actingActorGuid =? hi_ActorGuid (hs_Scope hold))
  then (false, k)
  else (true, SetCandidateAdmission k candidateKey AdmissionClass_ControllerCheckpointObservation
                (ScopeKey (hs_Scope hold))).
End Policy.

(** ** Identities are compared field by field *)

Lemma Identity_eqb_eq a b : Identity_eqb a b = true <-> a = b.
Proof.
  destruct a, b. unfold Identity_eqb, SameCore. cbn. rewrite !andb_true_iff. b2p.
  split; [naive_solver congruence|]. intros [=]. subst. tauto.
Qed.

Lemma ValidateIdentity_result st identity : Holding st = true ->
  (ValidateIdentity st identity).1 = Identity_eqb (hs_Scope st) identity /\
  (ValidateIdentity st identity).2 =
    if Identity_eqb (hs_Scope st) identity then st
    else (Reject st "controller_route_hold_identity_drift" false).2.
Proof.
  unfold Holding, ValidateIdentity. intros H.
  destruct (hs_CurrentPhase st); try done; by destruct (Identity_eqb _ _).
Qed.

(** ** The protocol *)

Inductive Call : Type :=
| CBeginAcquire (bootstrap : Identity) (nowMs : Z)
| CCompleteAcquire (identity : Identity) (nowMs : Z)
| CAcknowledgeArm (identity : Identity) (nowMs : Z)
| CObserveCheckpointTerminal (identity : Identity) (stage : string)
    (terminal identityPreserved : bool) (nowMs : Z)
| CRelease (identity : Identity) (nowMs : Z)
| CReject (reason : string)
| CValidateIdentity (identity : Identity)
| CAdmitCandidate (identity : Identity) (actor : Z) (classification : Admission)
    (survival movement : bool)
| CPermitRouteAdvance (identity : Identity) (prospectiveGeneration : Z).

(** The state after a call, and whether it was a transition that was accepted. *)
Definition call (st : State) (c : Call) : bool * State :=
  let transition (r : TransitionResult * State) := (tr_Accepted r.1, r.2) in
  match c with
  | CBeginAcquire bootstrap nowMs => transition (BeginAcquire st bootstrap nowMs)
  | CCompleteAcquire identity nowMs => transition (CompleteAcquire st identity nowMs)
  | CAcknowledgeArm identity nowMs => transition (AcknowledgeArm st identity nowMs)
  | CObserveCheckpointTerminal identity stage terminal preserved nowMs =>
      transition (ObserveCheckpointTerminal st identity stage terminal preserved nowMs)
  | CRelease identity nowMs => transition (Release st identity nowMs)
  | CReject reason => (false, (Reject st reason false).2)
  | CValidateIdentity identity => (false, (ValidateIdentity st identity).2)
  | CAdmitCandidate identity actor classification survival movement =>
      (false, (AdmitCandidate st identity actor classification survival movement).2)
  | CPermitRouteAdvance identity generation =>
      (false, (PermitRouteAdvance st identity generation).2)
  end.

(** The state after a history, and its accepted transitions. *)
Definition run (calls : list Call) : State * list Call :=
  foldl (fun s c => let '(accepted, st) := call s.1 c in
           (st, if accepted then s.2 ++ [c] else s.2)) (State_default, []) calls.

(** The accepted transitions of a phase, from the acquisition that started it,
    all under one complete identity that the acquisition announced. *)
Definition acquired (bootstrap identity : Identity) (t0 t1 : Z) : list Call :=
  [CBeginAcquire bootstrap t0; CCompleteAcquire identity t1].

Definition phase_log (phase : Phase) (scope : Identity) (log : list Call) : Prop :=
  match phase with
  | Phase_Disabled => log = []
  | Phase_Acquiring => exists before t0,
      log = before ++ [CBeginAcquire scope t0] /\ ValidBootstrap scope = true
  | Phase_Failed => True
  | _ => exists before bootstrap t0 t1,
      ValidBootstrap bootstrap = true /\ SameCore bootstrap scope = true /\
      ValidComplete scope = true /\
      match phase with
      | Phase_Held => log = before ++ acquired bootstrap scope t0 t1
      | Phase_Armed => exists t2, log = before ++ acquired bootstrap scope t0 t1
          ++ [CAcknowledgeArm scope t2]
      | Phase_CheckpointTerminal => exists t2 t3 stage, log = before
          ++ acquired bootstrap scope t0 t1
          ++ [CAcknowledgeArm scope t2; CObserveCheckpointTerminal scope stage true true t3]
      | _ => exists t2 t3 t4 stage, log = before ++ acquired bootstrap scope t0 t1
          ++ [CAcknowledgeArm scope t2; CObserveCheckpointTerminal scope stage true true t3;
              CRelease scope t4]
      end
  end.

(** The counters that guard the transitions agree with the phase. *)
Definition counts_ok (st : State) : Prop :=
  match hs_CurrentPhase st with
  | Phase_Disabled | Phase_Acquiring =>
      hs_AcquireCount st = 0 /\ hs_ArmAckCount st = 0 /\ hs_ReleaseCount st = 0
  | Phase_Held => hs_AcquireCount st = 1 /\ hs_ArmAckCount st = 0 /\ hs_ReleaseCount st = 0
  | Phase_Armed | Phase_CheckpointTerminal =>
      hs_AcquireCount st = 1 /\ hs_ArmAckCount st = 1 /\ hs_ReleaseCount st = 0
  | Phase_Released => hs_AcquireCount st = 1 /\ hs_ArmAckCount st = 1 /\ hs_ReleaseCount st = 1
  | Phase_Failed => True
  end.

Record hold_ok (st : State) (log : list Call) : Prop := {
  ho_log : phase_log (hs_CurrentPhase st) (hs_Scope st) log;
  ho_counts : counts_ok st
}.

Lemma Reject_ok st reason log : hold_ok (Reject st reason false).2 log.
Proof. by split. Qed.

Lemma assign_ok st failure actions advances log :
  hold_ok st log -> hold_ok (assign st (hs_CurrentPhase st) failure actions advances) log.
Proof. by intros [H1 H2]. Qed.

Lemma ValidateIdentity_ok st identity log :
  hold_ok st log -> hold_ok (ValidateIdentity st identity).2 log.
Proof.
  intros H. unfold ValidateIdentity.
  by destruct (hs_CurrentPhase st); [|destruct (Identity_eqb _ _)..| |destruct (Identity_eqb _ _)].
Qed.

Create HintDb hold.
#[local] Hint Resolve Reject_ok assign_ok ValidateIdentity_ok : hold.

(** A transition that validates the identity goes on with the state it had. *)
Lemma validated st identity : Holding st = true -> forall valid st',
  ValidateIdentity st identity = (valid, st') ->
  if valid then st' = st /\ identity = hs_Scope st
  else st' = (Reject st "controller_route_hold_identity_drift" false).2.
Proof.
  intros Hh valid st' E. destruct (ValidateIdentity_result st identity Hh) as [H1 H2].
  rewrite E in H1, H2. cbn in H1, H2. subst.
  destruct (Identity_eqb (hs_Scope st) identity) eqn:Ee; [|done].
  apply Identity_eqb_eq in Ee. auto.
Qed.

Lemma BeginAcquire_ok st bootstrap nowMs log : hold_ok st log ->
  let '(r, st') := BeginAcquire st bootstrap nowMs in
  hold_ok st' (if tr_Accepted r then log ++ [CBeginAcquire bootstrap nowMs] else log).
Proof.
  intros H. unfold BeginAcquire. destruct (_ && _); [apply Reject_ok|].
  destruct (ValidBootstrap bootstrap) eqn:E; cbn [negb]; [|apply Reject_ok].
  split; [|done]. by exists log, nowMs.
Qed.

Lemma CompleteAcquire_ok st identity nowMs log : hold_ok st log ->
  let '(r, st') := CompleteAcquire st identity nowMs in
  hold_ok st' (if tr_Accepted r then log ++ [CCompleteAcquire identity nowMs] else log).
Proof.
  intros [Hl Hc]. unfold CompleteAcquire. case_bool_decide as Hp; [|apply Reject_ok]. cbn [negb].
  destruct (negb _ || negb _) eqn:E; [apply Reject_ok|].
  apply orb_false_iff in E as [E1%negb_false_iff E2%negb_false_iff].
  unfold counts_ok in Hc. rewrite Hp in Hl, Hc. destruct Hl as (before & t0 & -> & Hv). split.
  - exists before, (hs_Scope st), t0, nowMs. split_and!; [done|done|done|]. by rewrite <- app_assoc.
  - unfold counts_ok. naive_solver.
Qed.

Lemma AcknowledgeArm_ok st identity nowMs log : hold_ok st log ->
  let '(r, st') := AcknowledgeArm st identity nowMs in
  hold_ok st' (if tr_Accepted r then log ++ [CAcknowledgeArm identity nowMs] else log).
Proof.
  intros Hok. pose proof Hok as [Hl Hc]. unfold AcknowledgeArm. destruct (_ || _); [apply Reject_ok|].
  case_bool_decide as Hp; [|apply Reject_ok]. cbn [negb].
  assert (Hh : Holding st = true) by (unfold Holding; by rewrite Hp).
  destruct (ValidateIdentity st identity) as [valid st'] eqn:E. apply (validated _ _ Hh) in E.
  destruct valid; cbn [negb]; [|subst; apply Reject_ok]. destruct E as [-> ->].
  unfold counts_ok in Hc. rewrite Hp in Hl, Hc.
  destruct Hl as (before & b & t0 & t1 & H1 & H2 & H3 & ->). split; [|unfold counts_ok; naive_solver].
  exists before, b, t0, t1. split_and!; [done..|]. exists nowMs. by rewrite <- app_assoc.
Qed.

Lemma ObserveCheckpointTerminal_ok st identity stage terminal preserved nowMs log : hold_ok st log ->
  let '(r, st') := ObserveCheckpointTerminal st identity stage terminal preserved nowMs in
  hold_ok st' (if tr_Accepted r
               then log ++ [CObserveCheckpointTerminal identity stage terminal preserved nowMs] else log).
Proof.
  intros Hok. pose proof Hok as [Hl Hc]. unfold ObserveCheckpointTerminal.
  case_bool_decide as Hp; [|apply Reject_ok]. cbn [negb].
  assert (Hh : Holding st = true) by (unfold Holding; by rewrite Hp).
  destruct (ValidateIdentity st identity) as [valid st'] eqn:E. apply (validated _ _ Hh) in E.
  destruct valid; cbn [negb]; [|subst; apply Reject_ok]. destruct E as [-> ->].
  destruct terminal; cbn [negb]; [|apply Reject_ok]. destruct preserved; cbn [negb]; [|apply Reject_ok].
  unfold counts_ok in Hc. rewrite Hp in Hl, Hc.
  destruct Hl as (before & b & t0 & t1 & H1 & H2 & H3 & t2 & ->). split; [|unfold counts_ok; naive_solver].
  exists before, b, t0, t1. split_and!; [done..|]. exists t2, nowMs, stage. by rewrite <- !app_assoc.
Qed.

Lemma Release_ok st identity nowMs log : hold_ok st log ->
  let '(r, st') := Release st identity nowMs in
  hold_ok st' (if tr_Accepted r then log ++ [CRelease identity nowMs] else log).
Proof.
  intros Hok. pose proof Hok as [Hl Hc]. unfold Release. destruct (_ || _); [by apply assign_ok|].
  case_bool_decide as Hp; [|apply Reject_ok]. cbn [negb].
  assert (Hh : Holding st = true) by (unfold Holding; by rewrite Hp).
  destruct (ValidateIdentity st identity) as [valid st'] eqn:E. apply (validated _ _ Hh) in E.
  destruct valid; cbn [negb]; [|subst; apply Reject_ok]. destruct E as [-> ->].
  unfold counts_ok in Hc. rewrite Hp in Hl, Hc.
  destruct Hl as (before & b & t0 & t1 & H1 & H2 & H3 & t2 & t3 & stage & ->). split; [|unfold counts_ok; naive_solver].
  exists before, b, t0, t1. split_and!; [done..|]. exists t2, t3, nowMs, stage. by rewrite <- !app_assoc.
Qed.

Lemma call_ok st log c : hold_ok st log ->
  let '(accepted, st') := call st c in hold_ok st' (if accepted then log ++ [c] else log).
Proof.
  intros H. destruct c; cbn [call].
  - pose proof (BeginAcquire_ok st bootstrap nowMs log H) as H'. by destruct (BeginAcquire _ _ _).
  - pose proof (CompleteAcquire_ok st identity nowMs log H) as H'. by destruct (CompleteAcquire _ _ _).
  - pose proof (AcknowledgeArm_ok st identity nowMs log H) as H'. by destruct (AcknowledgeArm _ _ _).
  - pose proof (ObserveCheckpointTerminal_ok st identity stage terminal identityPreserved nowMs log H) as H'.
    by destruct (ObserveCheckpointTerminal _ _ _ _ _ _).
  - pose proof (Release_ok st identity nowMs log H) as H'. by destruct (Release _ _ _).
  - apply Reject_ok.
  - auto with hold.
  - unfold AdmitCandidate. destruct (negb _); [done|]. destruct (_ || _); cbn [snd]; auto with hold.
  - unfold PermitRouteAdvance, suppress_advance.
    destruct (hs_CurrentPhase st) eqn:E; try done; cbn [snd]; auto with hold.
    by destruct (_ && _); [|apply assign_ok, Reject_ok].
Qed.

Lemma hold_run_ok calls : hold_ok (run calls).1 (run calls).2.
Proof.
  unfold run. induction calls as [|c calls IH] using rev_ind; [by split|].
  rewrite foldl_app. cbn. destruct (foldl _ _ calls) as [st log]. cbn in *.
  pose proof (call_ok st log c IH) as H. by destruct (call st c) as [[] st'].
Qed.

(** ** What a hold holds *)

(** What a holding state lets through: safe actions, and the observation of
    its checkpoint by its own actor while it is armed. *)
Definition admissible (st : State) (identity : Identity) (actor : Z) (classification : Admission)
    (survival movement : bool) : Prop :=
  safe (hs_Scope st) actor classification survival movement = true \/
  classification = Admission_CheckpointObservation /\ hs_CurrentPhase st = Phase_Armed /\
  identity = hs_Scope st /\ actor = hi_ActorGuid (hs_Scope st).

Lemma if_fst {A} (b : bool) (x y : A) : (if b then (true, x) else (false, y)).1 = b.
Proof. by destruct b. Qed.

Lemma AdmitCandidate_spec st identity actor classification survival movement :
  Holding st = true ->
  (AdmitCandidate st identity actor classification survival movement).1 = true <->
  admissible st identity actor classification survival movement.
Proof.
  intros Hh. unfold AdmitCandidate, admissible. rewrite Hh. cbn [negb].
  destruct (ValidateIdentity_result st identity Hh) as [_ ->].
  destruct (Identity_eqb (hs_Scope st) identity) eqn:E.
  - apply Identity_eqb_eq in E as <-. rewrite if_fst. b2p. rewrite !bool_decide_eq_true. naive_solver.
  - assert (Hn : identity <> hs_Scope st).
    { intros ->. by rewrite (proj2 (Identity_eqb_eq _ _)) in E. }
    rewrite if_fst. b2p. rewrite !bool_decide_eq_true. cbn. naive_solver.
Qed.

(** A route may advance under a hold only to its first generation, while the
    hold is being acquired for it. *)
Lemma PermitRouteAdvance_spec st identity generation : Holding st = true ->
  (PermitRouteAdvance st identity generation).1 = true <->
  hs_CurrentPhase st = Phase_Acquiring /\ SameCore identity (hs_Scope st) = true /\
  hi_RouteGeneration identity = 0 /\ generation = 1.
Proof.
  unfold Holding, PermitRouteAdvance. intros Hh.
  destruct (hs_CurrentPhase st); try done; cbn; [|naive_solver..].
  destruct (_ && _) eqn:E; cbn; b2p; naive_solver.
Qed.

(** C6. The hold keeps its promise over every history of calls. It is lifted only
    before its first use, or by the whole protocol: an acquisition, its
    completion by an identity of the same core, the arming, the terminal
    checkpoint and the release, all accepted, in this order and under that
    identity, with nothing accepted in between. While it is not lifted, no
    ordinary action is admitted and no route advances past its first
    generation. *)
Theorem hold_lifted calls :
  let '(st, log) := run calls in
  if Holding st then
    (forall identity actor classification survival movement,
       (AdmitCandidate st identity actor classification survival movement).1 = true ->
       admissible st identity actor classification survival movement) /\
    (forall identity generation, (PermitRouteAdvance st identity generation).1 = true ->
       hs_CurrentPhase st = Phase_Acquiring /\ generation = 1)
  else
    log = [] \/
    exists before bootstrap identity t0 t1 t2 t3 t4 stage,
      log = before ++ acquired bootstrap identity t0 t1 ++
        [CAcknowledgeArm identity t2; CObserveCheckpointTerminal identity stage true true t3;
         CRelease identity t4] /\
      SameCore bootstrap identity = true /\ ValidComplete identity = true.
Proof.
  pose proof (hold_run_ok calls) as [H _]. destruct (run calls) as [st log]. cbn [fst snd] in H.
  destruct (Holding st) eqn:Hh.
  - split; intros; [by apply AdmitCandidate_spec|].
    by apply (PermitRouteAdvance_spec st identity generation Hh) in H0 as (? & _ & _ & ?).
  - unfold Holding in Hh. destruct (hs_CurrentPhase st); try done; [by left|]. right.
    destruct H as (before & b & t0 & t1 & _ & H2 & H3 & t2 & t3 & t4 & stage & ->).
    by exists before, b, (hs_Scope st), t0, t1, t2, t3, t4, stage.
Qed.

(** ** The kernel under a hold *)

(** Asking the hold changes none of its later answers under the same identity,
    so a policy may read the hold as it was before the kernel resolved. *)
Lemma Ask_repeat {W} hold identity actor actor' (c c' : @Candidate W) metadata metadata' :
  (Ask (Ask hold identity actor c metadata).2 identity actor' c' metadata').1
  = (Ask hold identity actor' c' metadata').1.
Proof.
  unfold Ask. destruct (Holding hold) eqn:Hh.
  2:{ unfold AdmitCandidate. rewrite !Hh. cbn [negb fst snd]. by rewrite Hh. }
  set (cl := ClassifyCandidate c metadata hold).
  set (st := (AdmitCandidate hold identity actor cl _ _).2).
  assert (Hs : hs_Scope st = hs_Scope hold /\
    hs_CurrentPhase st = hs_CurrentPhase (ValidateIdentity hold identity).2).
  { unfold st, AdmitCandidate. rewrite Hh. cbn [negb].
    destruct (ValidateIdentity_result hold identity Hh) as [_ ->].
    by destruct (Identity_eqb _ _); destruct (_ || _). }
  destruct Hs as [Hs Hp]. assert (Hh' : Holding st = true).
  { unfold Holding in *. rewrite Hp. destruct (ValidateIdentity_result hold identity Hh) as [_ ->].
    by destruct (Identity_eqb _ _). }
  assert (Hcl : ClassifyCandidate c' metadata' st = ClassifyCandidate c' metadata' hold)
    by (unfold ClassifyCandidate; by rewrite Hs).
  rewrite Hcl. set (cl' := ClassifyCandidate c' metadata' hold). unfold AdmitCandidate.
  rewrite Hh, Hh'. cbn [negb]. rewrite !if_fst.
  destruct (ValidateIdentity_result hold identity Hh) as [_ H1].
  destruct (ValidateIdentity_result st identity Hh') as [_ H2]. rewrite Hs in H2.
  rewrite H1 in Hp. rewrite H1, H2.
  destruct (Identity_eqb (hs_Scope hold) identity); cbn; by rewrite Hs, ?Hp.
Qed.

Section HeldKernel.
Context {W : Type}.
Implicit Types (k : @Kernel W) (c : @Candidate W).

(** The policy and the metadata of a frame, which a resolution keeps. *)
Definition frame_of k : option (@AdmissionPolicy W) * gmap string AdmissionMetadata :=
  (_admissionPolicy k, _admissionMetadata k).

Lemma frame_calls k calls : frame_of (foldl RunCall k calls) = frame_of k.
Proof. revert k. induction calls as [|[] calls IH]; intros k; cbn; [done|..]; by rewrite IH. Qed.

(** The rows a resolution adds for attempted candidates are of candidates its
    policy has nothing against. *)
Definition row_allowed k (cs : list Candidate) (row : CandidateTrace) : Prop :=
  ct_Status row = "attempted"%string ->
  exists c, c ∈ cs /\ cd_Key c = ct_Key row /\
    match _admissionPolicy k with
    | Some policy => policy c (_admissionMetadata k !! cd_Key c) = ""%string
    | None => True
    end.

Lemma MaskReason_policy k c : MaskReason k c = None ->
  match _admissionPolicy k with
  | Some policy => policy c (_admissionMetadata k !! cd_Key c) = ""%string
  | None => True
  end.
Proof.
  unfold MaskReason. destruct (_admissionPolicy k) as [policy|]; [|done].
  destruct (str_empty (policy c _)) eqn:E; [|done]. intros _. by apply str_empty_spec.
Qed.

Lemma ResolveStep_allowed k w c go k' w' : ResolveStep k w c = Some (go, k', w') ->
  frame_of k' = frame_of k /\ exists row,
    rs_Trace (_lastResolution k') = rs_Trace (_lastResolution k) ++ [row] /\ row_allowed k [c] row.
Proof.
  unfold ResolveStep. destruct (MaskReason (Propose k c) c) as [[status reason]|] eqn:Em.
  - intros [= <- <- <-]. split; [done|]. eexists. split; [done|]. intros Hs.
    assert (Hn : status <> "attempted"%string).
    { clear Hs. revert Em. unfold MaskReason. repeat (split_guard; try by intros [= <- _]). }
    by destruct Hn.
  - destruct (cd_Attempt c) as [attempt|]; [|done]. apply MaskReason_policy in Em.
    set (k1 := Select (Propose k c) c) in *. destruct (attempt (_lifecycles k1) w) as [o w1 calls].
    intros [= <- <- <-]. cbn [ar_Outcome ar_Calls].
    pose proof (frame_calls k1 calls) as Hf. pose proof (RunCall_resolution k1 calls) as Hr.
    set (k2 := foldl RunCall k1 calls) in *.
    assert (Ht : rs_Trace (_lastResolution k2) = rs_Trace (_lastResolution k)) by (by rewrite Hr).
    change (frame_of k1) with (frame_of k) in Hf. unfold frame_of in Hf. injection Hf as Hf1 Hf2.
    unfold frame_of, Settle. destruct (oc_Result o); cbn; rewrite Hf1, Hf2, Ht; (split; [done|]);
      (eexists; split; [done|]); intros _; exists c; (split; [by left|]); done.
Qed.

Lemma ResolveLoop_allowed qs k w k' w' : ResolveLoop qs k w = Some (k', w') ->
  exists rows, rs_Trace (_lastResolution k') = rs_Trace (_lastResolution k) ++ rows /\
    Forall (row_allowed k (qc_Value <$> qs)) rows.
Proof.
  revert k w. induction qs as [|q qs IH]; intros k w; cbn.
  { intros [= <- <-]. exists []. by rewrite app_nil_r. }
  destruct (ResolveStep k w (qc_Value q)) as [[[go k1] w1]|] eqn:Es; [|done].
  destruct (ResolveStep_allowed _ _ _ _ _ _ Es) as (Hf & row & Ht & Hrow).
  unfold frame_of in Hf. injection Hf as Hf1 Hf2.
  assert (Hhead : row_allowed k (qc_Value q :: (qc_Value <$> qs)) row).
  { intros Hs. destruct (Hrow Hs) as (c & ->%list_elem_of_singleton & H). exists (qc_Value q).
    split; [by left|done]. }
  destruct go.
  - intros Hl. destruct (IH _ _ Hl) as (rows & Hrows & Hall). exists (row :: rows).
    rewrite Hrows, Ht, <- app_assoc. split; [done|]. constructor; [done|].
    eapply Forall_impl; [exact Hall|]. intros r Hr Hs. destruct (Hr Hs) as (c & Hc & H).
    rewrite Hf1, Hf2 in H. exists c. split; [by right|done].
  - intros [= <- <-]. exists [row]. split; [done|]. by repeat constructor.
Qed.

(** C7. A bot's kernel that resolves while a route is held attempts, whatever was
    submitted and in whatever order the frame was built, only candidates the
    hold lets through: safe actions, and the marked observation of the
    checkpoint by its own actor while the hold is armed and the identity
    unchanged. *)
Theorem held_resolution k nowMs ops hold identity actor w : Holding hold = true ->
  let held := InstallAdmissionPolicy (run_ops (Begin k nowMs) ops) hold identity actor in
  exists k' w', Resolve held w = Some (k', w') /\
    Forall (fun row => ct_Status row = "attempted"%string ->
      exists c, c ∈ submitted ops /\ cd_Key c = ct_Key row /\
        admissible hold identity actor
          (ClassifyCandidate c (_admissionMetadata held !! cd_Key c) hold)
          (bool_decide (cd_ActionPriority c = Priority_Survival))
          (Conflicts (cd_RequiredResources c) (Uses Resource_Movement [])))
      (rs_Trace (_lastResolution k')).
Proof.
  intros Hh held.
  set (ops' := ops ++ [Op_SetAdmissionPolicy (Some (hold_policy hold identity actor))]).
  assert (Hheld : held = run_ops (Begin k nowMs) ops') by (unfold ops', run_ops; by rewrite foldl_app).
  destruct (frame_ok_ops k nowMs ops') as [_ Hcall Hfrom Hfresh]. rewrite <- Hheld in *.
  assert (Hsub : submitted ops' = submitted ops)
    by (unfold submitted, ops'; by rewrite omap_app, app_nil_r).
  unfold Resolve. pose proof (stable_sort_perm ActionArbiter.Better (_candidates held)) as Hp.
  set (qs := stable_sort _ _) in *.
  destruct (ResolveLoop_total qs (set_candidates held qs) w) as (k' & w' & E); [by rewrite Hp|].
  rewrite E. exists (set_candidates k' []), w'. split; [done|].
  apply ResolveLoop_allowed in E as (rows & Ht & Hrows). cbn [_lastResolution set_candidates] in *.
  rewrite Hfresh in Ht. cbn in Ht. rewrite Ht. eapply Forall_impl; [exact Hrows|].
  intros row Hrow Hs. destruct (Hrow Hs) as (c & Hc & Hkey & Hpol). exists c. split; [|split; [done|]].
  - apply list_elem_of_fmap in Hc as (q & -> & Hq). rewrite Hp, <- Hsub in *.
    by eapply (proj1 (Forall_forall _ _) Hfrom).
  - apply AdmitCandidate_spec; [done|]. cbn in Hpol. unfold hold_policy, Ask in Hpol.
    by destruct (AdmitCandidate _ _ _ _ _ _).1.
Qed.
End HeldKernel.

(** ** A hold in use *)

Definition hex (c : string) (n : nat) : string := String.concat "" (repeat c n).

Definition sample_identity : Identity :=
  mkIdentity "cohort" 1 7 "scenario" "profile" (hex "a" 64) 3 "node" 42 "fixture" (hex "b" 64)
    (hex "c" 40).

Definition sample_bootstrap : Identity :=
  mkIdentity "cohort" 1 7 "" "" "" 0 "" 42 "fixture" (hex "b" 64) (hex "c" 40).

Definition sample_calls : list Call :=
  [CBeginAcquire sample_bootstrap 10; CPermitRouteAdvance sample_bootstrap 1;
   CCompleteAcquire sample_identity 20; CAdmitCandidate sample_identity 42 Admission_Ordinary false true;
   CAcknowledgeArm sample_identity 30].

Definition sample_finish : list Call :=
  [CObserveCheckpointTerminal sample_identity "completed" true true 40; CRelease sample_identity 50].

Example sample_calls_armed : hs_CurrentPhase (run sample_calls).1 = Phase_Armed
  /\ hs_SuppressedRouteActionCount (run sample_calls).1 = 1.
Proof. split; reflexivity. Qed.

Example sample_calls_released : hs_CurrentPhase (run (sample_calls ++ sample_finish)).1 = Phase_Released
  /\ length (run (sample_calls ++ sample_finish)).2 = 5%nat.
Proof. split; reflexivity. Qed.

(** A late arm fails a released hold, which holds again. *)
Example late_arm_holds :
  let st := (run (sample_calls ++ sample_finish ++ [CAcknowledgeArm sample_identity 60])).1 in
  hs_CurrentPhase st = Phase_Failed /\ Holding st = true.
Proof. split; reflexivity. Qed.

Definition sample_candidate (key source : string) (priority : Priority) : @Candidate unit :=
  mkCandidate key source priority f32_zero f32_zero f32_zero (Uses Resource_Movement []) 0 100 1000 5
    true "" (Some (fun _ w => mkAttemptResult (Outcome_Retryable "busy") w [])).

Definition sample_ops : list (@FrameOp unit) :=
  [Op_Submit (sample_candidate "walk" "route" Priority_RouteMovement);
   Op_Submit (sample_candidate "formation_step" "party" Priority_RouteMovement);
   Op_Submit (sample_candidate "observe" "validation_route_adapter" Priority_Mechanic);
   Op_SetCandidateAdmission "observe" AdmissionClass_ControllerCheckpointObservation
     (ScopeKey sample_identity)].

Lemma held_resolution_witness :
  let hold := (run sample_calls).1 in
  let held := InstallAdmissionPolicy (run_ops (Begin Kernel_default 1000) sample_ops) hold
    sample_identity 42 in
  (exists k' w', Resolve held tt = Some (k', w') /\
     (fun row => (ct_Key row, ct_Status row)) <$> rs_Trace (_lastResolution k') =
       [("observe", "attempted"); ("formation_step", "attempted"); ("walk", "hard_masked")]%string) /\
  exists k' w', Resolve held tt = Some (k', w') /\
    Forall (fun row => ct_Status row = "attempted"%string ->
      exists c, c ∈ submitted sample_ops /\ cd_Key c = ct_Key row /\
        admissible hold sample_identity 42
          (ClassifyCandidate c (_admissionMetadata held !! cd_Key c) hold)
          (bool_decide (cd_ActionPriority c = Priority_Survival))
          (Conflicts (cd_RequiredResources c) (Uses Resource_Movement [])))
      (rs_Trace (_lastResolution k')).
Proof.
  split.
  - eexists _, _. split; [vm_compute; reflexivity|reflexivity].
  - apply (held_resolution Kernel_default 1000 sample_ops). reflexivity.
Defined.
