(* ===== verification/OwnerCheckpoint.v ===== *)
(** The checkpoint that proves a rejected movement leaves a bot's route alone
    ([BotChainwielderOwnerCheckpoint] in [Bots/BotChainwielderOwnerCheckpoint.h],
    [Bots/BotWorldPopulationMgrChainwielderOwnerCheckpoint.cpp]), the identity
    it is armed under, and how its end reaches the route hold. *)
From S2P Require Import Prelude MovementArbiter RouteHold.
From Stdlib Require Import ZArith Lia String Ascii.
From stdpp Require Import base gmap list strings.

Open Scope Z_scope.
Open Scope tc_scope.

(** ** Which authority a held fixture has
    ([Bots/BotControllerRouteHoldIdentitySelector.h]) *)

Definition ProfileCombatRange_FixtureId : string := "generic_profile_min_range_production_boundary_v1".
Definition NativePath_FixtureId : string := "map669_native_path_production_boundary_v1".
Definition MagmawTransfer_FixtureId : string := "map669_magmaw_transfer_lane_authority_off_v1".
Definition FixtureId : string := "chainwielder_pre_admission_rejection_isolation_v1".

Record AuthorityTriple : Type := mkAuthority {
  at_FixtureId : string; at_SealSha256 : string; at_SourceCommit : string }.

Record AuthorityCatalog : Type := mkCatalog {
  ac_ProfileCombatRange : AuthorityTriple; ac_NativePath : AuthorityTriple;
  ac_MagmawTransfer : AuthorityTriple; ac_Chainwielder : AuthorityTriple }.

Definition Select (heldFixtureId : string) (authorities : AuthorityCatalog) : AuthorityTriple :=
  if String.eqb heldFixtureId ProfileCombatRange_FixtureId then ac_ProfileCombatRange authorities
  else if String.eqb heldFixtureId NativePath_FixtureId then ac_NativePath authorities
  else if String.eqb heldFixtureId MagmawTransfer_FixtureId then ac_MagmawTransfer authorities
  else ac_Chainwielder authorities.

(** ** The comparison of the configured and the requested identity *)

Record Comparison : Type := mkComparison {
  cm_Accepted : bool;
  cm_FailureField : string;
  cm_FailureReason : option string;
  cm_Source : SourceIdentityComparison
}.

(** The chain of refusals: the field and the reason of the first. *)
Definition ConfigFailure (configuredFixture requestedFixture configuredSeal requestedSeal : string)
    (source : SourceIdentityComparison) : option (string * string) :=
  if str_empty configuredFixture || str_empty requestedFixture
  then Some ("fixture_id", "controller_route_hold_config_fixture_id_missing")%string
  else if negb (String.eqb configuredFixture requestedFixture)
  then Some ("fixture_id", "controller_route_hold_config_fixture_id_mismatch")%string
  else if str_empty configuredSeal || str_empty requestedSeal
  then Some ("seal_sha256", "controller_route_hold_config_seal_missing")%string
  else if negb (IsLowerHex configuredSeal 64) || negb (IsLowerHex requestedSeal 64)
  then Some ("seal_sha256", "controller_route_hold_config_seal_invalid")%string
  else if negb (String.eqb configuredSeal requestedSeal)
  then Some ("seal_sha256", "controller_route_hold_config_seal_mismatch")%string
  else if negb (sc_ConfiguredPresent source) || negb (sc_RequestedPresent source)
  then Some ("source_commit", "controller_route_hold_config_source_commit_missing")%string
  else if negb (sc_ConfiguredFormatValid source) || negb (sc_RequestedFormatValid source)
  then Some ("source_commit", "controller_route_hold_config_source_commit_invalid")%string
  else if negb (sc_AuthoritiesMatch source)
  then Some ("source_commit", "controller_route_hold_config_source_commit_mismatch")%string
  else if negb (sc_BinaryRevisionPresent source)
  then Some ("git_revision", "controller_route_hold_git_revision_missing")%string
  else if negb (sc_BinaryRevisionFormatValid source)
  then Some ("git_revision", "controller_route_hold_git_revision_invalid")%string
  else if negb (sc_BinaryRevisionMatchesSource source)
  then Some ("git_revision", "controller_route_hold_git_revision_mismatch")%string
  else None.

Definition Compare (configuredFixture requestedFixture configuredSeal requestedSeal
    configuredSource requestedSource binaryRevision : string) : Comparison :=
  let source := CompareSourceIdentity configuredSource requestedSource binaryRevision in
  match ConfigFailure configuredFixture requestedFixture configuredSeal requestedSeal source with
  | Some (field, reason) => mkComparison false field (Some reason) source
  | None => mkComparison true "none" None source
  end.

(** ** The gate of the checkpoint *)

Definition ProfileId : string := "blackwing_descent_10n_magmaw_diagnostic".
Definition PoolTag : string := "blackwing_descent_10n_magmaw_diagnostic".
Definition NodeId : string := "bwd.magmaw.chainwielder".
Definition MapId : Z := 669.
Definition TargetEntry : Z := 42649.
Definition ActorCount : Z := 10.
Definition MaximumAwaitTicks : Z := 240.

Inductive Stage : Type :=
| Stage_Disabled | Stage_Armed | Stage_RejectionObserved | Stage_Completed | Stage_Failed.

#[export] Instance Stage_eq_dec : EqDecision Stage.
Proof. solve_decision. Defined.

Definition StageName (stage : Stage) : string :=
  match stage with
  | Stage_Disabled => "disabled" | Stage_Armed => "armed"
  | Stage_RejectionObserved => "rejection_observed" | Stage_Completed => "completed"
  | Stage_Failed => "failed"
  end.

Record GateInput : Type := mkGate {
  gi_Enabled : bool;
  gi_CohortActive : bool;
  gi_SelectedProfile : string;
  gi_AdmittedRuntimeProfile : string;
  gi_PoolTagFilter : string;
  gi_ScenarioId : string;
  gi_RouteNodeId : string;
  gi_RuntimeMapId : Z;
  gi_TargetPopulation : Z;
  gi_ActiveActorCount : Z;
  gi_TargetEntry : Z;
  gi_ValidationRouteEnabled : bool;
  gi_AllowRaids : bool;
  gi_AttemptId : Z;
  gi_ConfigFixtureId : string;
  gi_ConfigSealSha256 : string;
  gi_RequestedSealSha256 : string;
  gi_ConfigSourceCommit : string;
  gi_RequestedSourceCommit : string;
  gi_BinarySourceCommit : string
}.

Definition RejectionReason (input : GateInput) : option string :=
  let source := CompareSourceIdentity (gi_ConfigSourceCommit input)
    (gi_RequestedSourceCommit input) (gi_BinarySourceCommit input) in
  if negb (gi_Enabled input) then Some "chainwielder_checkpoint_disabled"%string
  else if negb (gi_CohortActive input) then Some "chainwielder_checkpoint_runtime_inactive"%string
  else if negb (String.eqb (gi_SelectedProfile input) ProfileId)
    || negb (String.eqb (gi_AdmittedRuntimeProfile input) ProfileId)
    || negb (String.eqb (gi_PoolTagFilter input) PoolTag)
    || negb (String.eqb (gi_ScenarioId input) ProfileId)
  then Some "chainwielder_checkpoint_profile_identity_mismatch"%string
  else if negb (gi_ValidationRouteEnabled input) || negb (gi_AllowRaids input)
    || negb (gi_RuntimeMapId input =? MapId) || negb (gi_TargetEntry input =? TargetEntry)
    || negb (String.eqb (gi_RouteNodeId input) NodeId)
  then Some "chainwielder_checkpoint_route_identity_mismatch"%string
  else if negb (gi_TargetPopulation input =? ActorCount)
    || negb (gi_ActiveActorCount input =? ActorCount)
  then Some "chainwielder_checkpoint_actor_contract_mismatch"%string
  else if negb (nz (gi_AttemptId input))
  then Some "chainwielder_checkpoint_attempt_identity_missing"%string
  else if negb (String.eqb (gi_ConfigFixtureId input) FixtureId)
  then Some "chainwielder_checkpoint_fixture_identity_mismatch"%string
  else if negb (IsLowerHex (gi_ConfigSealSha256 input) 64)
    || negb (String.eqb (gi_ConfigSealSha256 input) (gi_RequestedSealSha256 input))
  then Some "chainwielder_checkpoint_seal_mismatch"%string
  else if negb (sc_ConfiguredPresent source) || negb (sc_RequestedPresent source)
  then Some "chainwielder_checkpoint_source_identity_missing"%string
  else if negb (sc_ConfiguredFormatValid source) || negb (sc_RequestedFormatValid source)
  then Some "chainwielder_checkpoint_source_identity_invalid"%string
  else if negb (sc_AuthoritiesMatch source)
  then Some "chainwielder_checkpoint_source_authority_mismatch"%string
  else if negb (sc_BinaryRevisionPresent source)
  then Some "chainwielder_checkpoint_git_revision_missing"%string
  else if negb (sc_BinaryRevisionFormatValid source)
  then Some "chainwielder_checkpoint_git_revision_invalid"%string
  else if negb (sc_BinaryRevisionMatchesSource source)
  then Some "chainwielder_checkpoint_git_revision_mismatch"%string
  else None.

(** ** Snapshots *)

Record OwnerSnapshot : Type := mkSnapshot {
  os_MovementOwner : Owner;
  os_ActivePathValid : bool;
  os_ActivePathSegmentValid : bool;
  os_ActivePathTraversalMode : string;
  os_ActivePathTargetGuid : Z;
  os_ActivePathAttemptId : Z;
  os_ActivePathWipeGeneration : Z;
  os_ActivePathRouteGeneration : Z;
  os_ActivePathRouteNodeId : string;
  os_ActivePathToX : f32;
  os_ActivePathToY : f32;
  os_ActivePathToZ : f32;
  os_DodgeCasterGuid : Z;
  os_DodgeSpellId : Z;
  os_DodgeUntilMs : Z;
  os_DodgeBearingAttempt : Z;
  os_LastPathRejectReason : string
}.

Definition OwnerSnapshot_default : OwnerSnapshot :=
  mkSnapshot Owner_None false false "" 0 0 0 0 "" f32_zero f32_zero f32_zero 0 0 0 0 "".

Record HazardRejectionObservation : Type := mkRejection {
  hr_Submitted : bool;
  hr_MovementOwner : Owner;
  hr_Gate : string;
  hr_Result : string;
  hr_Reason : string;
  hr_LaunchReceiptId : Z
}.

Definition IsExactReceiptlessHazardRejection (o : HazardRejectionObservation) : bool :=
  negb (hr_Submitted o) && bool_decide (hr_MovementOwner o = Owner_Hazard)
  && String.eqb (hr_Gate o) "future_pack_destination" && String.eqb (hr_Result o) "rejected"
  && String.eqb (hr_Reason o) "route_destination_future_pack_unsafe" && (hr_LaunchReceiptId o =? 0).

Definition SameRouteIdentity (a b : OwnerSnapshot) : bool :=
  bool_decide (os_MovementOwner a = os_MovementOwner b)
  && Bool.eqb (os_ActivePathValid a) (os_ActivePathValid b)
  && Bool.eqb (os_ActivePathSegmentValid a) (os_ActivePathSegmentValid b)
  && String.eqb (os_ActivePathTraversalMode a) (os_ActivePathTraversalMode b)
  && (os_ActivePathTargetGuid a =? os_ActivePathTargetGuid b)
  && (os_ActivePathAttemptId a =? os_ActivePathAttemptId b)
  && (os_ActivePathWipeGeneration a =? os_ActivePathWipeGeneration b)
  && (os_ActivePathRouteGeneration a =? os_ActivePathRouteGeneration b)
  && String.eqb (os_ActivePathRouteNodeId a) (os_ActivePathRouteNodeId b)
  && f32_eq (os_ActivePathToX a) (os_ActivePathToX b)
  && f32_eq (os_ActivePathToY a) (os_ActivePathToY b)
  && f32_eq (os_ActivePathToZ a) (os_ActivePathToZ b)
  && (os_DodgeCasterGuid a =? os_DodgeCasterGuid b)
  && (os_DodgeSpellId a =? os_DodgeSpellId b)
  && (os_DodgeUntilMs a =? os_DodgeUntilMs b)
  && (os_DodgeBearingAttempt a =? os_DodgeBearingAttempt b)
  && String.eqb (os_LastPathRejectReason a) (os_LastPathRejectReason b).

(** The trigger is its only field. *)
Definition SelectInjectionTrigger (actorGuid expectedActorGuid : Z) (current : OwnerSnapshot)
    (attemptId wipeGeneration routeGeneration : Z) (routeNodeId : string)
    (nativeRouteMotion : bool) : bool :=
  if negb (nz actorGuid) || negb (actorGuid =? expectedActorGuid) then false
  else os_ActivePathValid current && bool_decide (os_MovementOwner current = Owner_Route)
    && (os_ActivePathAttemptId current =? attemptId)
    && (os_ActivePathWipeGeneration current =? wipeGeneration)
    && (os_ActivePathRouteGeneration current =? routeGeneration)
    && String.eqb (os_ActivePathRouteNodeId current) routeNodeId && nativeRouteMotion.

(** ** The checkpoint *)

Record Checkpoint : Type := mkCheckpoint {
  ck_ControllerRouteHold : State;
  ck_CurrentStage : Stage;
  ck_AttemptId : Z;
  ck_ActorGuid : Z;
  ck_AwaitTicks : Z;
  ck_InjectionCount : Z;
  ck_ArmedAtMs : Z;
  ck_RejectionObservedAtMs : Z;
  ck_AfterObservedAtMs : Z;
  ck_OutcomeObservedAtMs : Z;
  ck_TriggeredByActiveRoutePath : bool;
  ck_TriggeredByArmedRouteHazardRetry : bool;
  ck_BeforeAfterIdentityPreserved : bool;
  ck_RejectionReceiptId : Z;
  ck_RejectionGate : string;
  ck_RejectionReason : string;
  ck_Outcome : string;
  ck_Before : OwnerSnapshot;
  ck_After : OwnerSnapshot
}.

Definition Checkpoint_default : Checkpoint :=
  mkCheckpoint State_default Stage_Disabled 0 0 0 0 0 0 0 0 false false false 0 "" "" ""
    OwnerSnapshot_default OwnerSnapshot_default.

Definition set_hold (c : Checkpoint) (hold : State) : Checkpoint :=
  mkCheckpoint hold (ck_CurrentStage c) (ck_AttemptId c) (ck_ActorGuid c) (ck_AwaitTicks c)
    (ck_InjectionCount c) (ck_ArmedAtMs c) (ck_RejectionObservedAtMs c) (ck_AfterObservedAtMs c)
    (ck_OutcomeObservedAtMs c) (ck_TriggeredByActiveRoutePath c)
    (ck_TriggeredByArmedRouteHazardRetry c) (ck_BeforeAfterIdentityPreserved c)
    (ck_RejectionReceiptId c) (ck_RejectionGate c) (ck_RejectionReason c) (ck_Outcome c)
    (ck_Before c) (ck_After c).

Definition set_stage (c : Checkpoint) (stage : Stage) (awaitTicks : Z) (outcome : string)
    : Checkpoint :=
  mkCheckpoint (ck_ControllerRouteHold c) stage (ck_AttemptId c) (ck_ActorGuid c) awaitTicks
    (ck_InjectionCount c) (ck_ArmedAtMs c) (ck_RejectionObservedAtMs c) (ck_AfterObservedAtMs c)
    (ck_OutcomeObservedAtMs c) (ck_TriggeredByActiveRoutePath c)
    (ck_TriggeredByArmedRouteHazardRetry c) (ck_BeforeAfterIdentityPreserved c)
    (ck_RejectionReceiptId c) (ck_RejectionGate c) (ck_RejectionReason c) outcome
    (ck_Before c) (ck_After c).

Definition ObserveInjectionBoundary (c : Checkpoint) (activeRoutePath : bool)
    (before : OwnerSnapshot) (rejection : HazardRejectionObservation)
    (immediateAfter : OwnerSnapshot) (nowMs : Z) : bool * Checkpoint :=
  if negb activeRoutePath then (false, c)
  else
    let count := ck_InjectionCount c +32 1 in
    let exact := IsExactReceiptlessHazardRejection rejection in
    let preserved := SameRouteIdentity before immediateAfter in
    let observed stage outcome :=
      mkCheckpoint (ck_ControllerRouteHold c) stage (ck_AttemptId c) (ck_ActorGuid c)
        (ck_AwaitTicks c) count (ck_ArmedAtMs c) nowMs (ck_AfterObservedAtMs c)
        (ck_OutcomeObservedAtMs c) true false preserved (hr_LaunchReceiptId rejection)
        (hr_Gate rejection) (hr_Reason rejection) outcome before (ck_After c) in
    if negb exact || negb preserved || negb (count =? 1)
    then (false, observed Stage_Failed
            (if exact then "foreign_route_identity_changed_during_rejection"
             else "exact_receiptless_hazard_rejection_not_observed"))
    else (true, observed Stage_RejectionObserved "awaiting_subsequent_tick").

Definition ObserveSubsequentTickBoundary (c : Checkpoint) (after : OwnerSnapshot) (nowMs : Z)
    : bool * Checkpoint :=
  if negb (bool_decide (ck_CurrentStage c = Stage_RejectionObserved)) then (false, c)
  else
    let preserved := SameRouteIdentity (ck_Before c) after in
    let observed stage outcome outcomeAt :=
      mkCheckpoint (ck_ControllerRouteHold c) stage (ck_AttemptId c) (ck_ActorGuid c)
        (ck_AwaitTicks c) (ck_InjectionCount c) (ck_ArmedAtMs c) (ck_RejectionObservedAtMs c)
        nowMs outcomeAt (ck_TriggeredByActiveRoutePath c)
        (ck_TriggeredByArmedRouteHazardRetry c) preserved (ck_RejectionReceiptId c)
        (ck_RejectionGate c) (ck_RejectionReason c) outcome (ck_Before c) after in
    if negb preserved
    then (false, observed Stage_Failed "foreign_route_identity_changed_before_subsequent_tick"
            (ck_OutcomeObservedAtMs c))
    else (true, observed Stage_Completed
            "route_identity_preserved_after_receiptless_hazard_rejection" nowMs).

(** ** The manager's steps *)

Definition terminal (stage : Stage) : bool :=
  bool_decide (stage = Stage_Completed) || bool_decide (stage = Stage_Failed).

Definition SyncControllerTerminal (c : Checkpoint) (identity : Identity) (nowMs : Z) : Checkpoint :=
  let controller := ck_ControllerRouteHold c in
  if negb (bool_decide (hs_CurrentPhase controller = Phase_Armed)) then c
  else if negb (terminal (ck_CurrentStage c)) then c
  else set_hold c (ObserveCheckpointTerminal controller identity (StageName (ck_CurrentStage c)) true
         (ck_BeforeAfterIdentityPreserved c) nowMs).2.

(** What arming reads: the gate, the cohort's attempt, the actor and the
    identity of the hold. *)
Record ArmInput : Type := mkArm {
  ai_Gate : GateInput;
  ai_AttemptId : Z;
  ai_ActorGuid : Z;
  (** The actor is a bot of the party, loaded and in the world. *)
  ai_ActorInWorld : bool;
  ai_Identity : Identity;
  ai_NowMs : Z
}.

Definition ArmChainwielderOwnerCheckpoint (c : Checkpoint) (input : ArmInput) : Checkpoint :=
  let hold := ck_ControllerRouteHold c in
  let refuse outcome reason :=
    set_hold (set_stage c (ck_CurrentStage c) (ck_AwaitTicks c) outcome) (Reject hold reason false).2 in
  match RejectionReason (ai_Gate input) with
  | Some reason => refuse reason reason
  | None =>
      if negb (nz (ai_ActorGuid input)) || negb (ai_ActorInWorld input)
      then refuse "chainwielder_checkpoint_actor_not_in_cohort"%string
             "controller_route_hold_actor_not_in_cohort"%string
      else if (ck_AttemptId c =? ai_AttemptId input)
        && negb (bool_decide (ck_CurrentStage c = Stage_Disabled))
      then refuse "chainwielder_checkpoint_already_armed"%string
             "controller_route_hold_duplicate_arm"%string
      else
        let '(arm, hold) := AcknowledgeArm hold (ai_Identity input) (ai_NowMs input) in
        if negb (tr_Accepted arm)
        then set_hold (set_stage c (ck_CurrentStage c) (ck_AwaitTicks c) (tr_Reason arm)) hold
        else mkCheckpoint hold Stage_Armed (ai_AttemptId input) (ai_ActorGuid input) 0 0
               (ai_NowMs input) 0 0 0 false false false 0 "" "" "awaiting_real_route_owner"
               OwnerSnapshot_default OwnerSnapshot_default
  end.

(** A later node of the manifest, and where a spawn is: its map and position. *)
Record FutureNode : Type := mkFutureNode {
  fn_Kind : string; fn_MapId : Z; fn_TargetSpawnId : Z; fn_SplitSourceGuids : list Z }.

Definition Spawns : Type := Z -> option (Z * (f32 * f32 * f32)).

(** The first source of a node whose position is unsafe for the bot. *)
Fixpoint unsafe_source (spawns : Spawns) (isSafe : f32 * f32 * f32 -> bool) (sources : list Z)
    : option (f32 * f32 * f32) :=
  match sources with
  | [] => None
  | sourceId :: sources =>
      match (if nz sourceId then spawns sourceId else None) with
      | Some (map, point) =>
          if (map =? MapId) && negb (isSafe point) then Some point
          else unsafe_source spawns isSafe sources
      | None => unsafe_source spawns isSafe sources
      end
  end.

Fixpoint unsafe_future_pack (spawns : Spawns) (isSafe : f32 * f32 * f32 -> bool)
    (nodes : list FutureNode) : option (f32 * f32 * f32) :=
  match nodes with
  | [] => None
  | node :: nodes =>
      match (if negb (String.eqb (fn_Kind node) "trash") || negb (fn_MapId node =? MapId) then None
             else unsafe_source spawns isSafe (fn_TargetSpawnId node :: fn_SplitSourceGuids node)) with
      | Some point => Some point
      | None => unsafe_future_pack spawns isSafe nodes
      end
  end.

(** What an update of a bot reads, and what the movement executor answers to an
    unsafe point: whether it submitted, the latest planner observation (none
    when not available) and the bot's state then. *)
Record Update : Type := mkUpdate {
  up_Bot : bool;
  up_Guid : Z;
  up_MapId : Z;
  up_RouteNodeId : string;
  up_AttemptId : Z;
  up_WipeGeneration : Z;
  up_RouteGeneration : Z;
  (** The active motion is a point or a chase. *)
  up_RouteMotion : bool;
  up_Snapshot : OwnerSnapshot;
  up_FutureNodes : list FutureNode;
  up_Spawns : Spawns;
  up_PointSafe : f32 * f32 * f32 -> bool;
  up_Execute : f32 * f32 * f32 -> option HazardRejectionObservation * OwnerSnapshot;
  up_Identity : Identity;
  up_NowMs : Z
}.

Definition fail_checkpoint (c : Checkpoint) (outcome : string) (u : Update) : Checkpoint :=
  SyncControllerTerminal (set_stage c Stage_Failed (ck_AwaitTicks c) outcome) (up_Identity u)
    (up_NowMs u).

(** After the rejected movement. *)
Definition InjectRejection (c : Checkpoint) (u : Update) (point : f32 * f32 * f32) : Checkpoint :=
  match up_Execute u point with
  | (None, _) => fail_checkpoint c "exact_receiptless_hazard_rejection_not_observed" u
  | (Some rejection, after) =>
      let '(observed, c) := ObserveInjectionBoundary c true (up_Snapshot u) rejection after (up_NowMs u) in
      if observed then c else SyncControllerTerminal c (up_Identity u) (up_NowMs u)
  end.

Definition MaybeInjectAfterUpdate (c : Checkpoint) (u : Update) : Checkpoint :=
  if negb (bool_decide (ck_CurrentStage c = Stage_Armed)) || negb (up_Bot u)
     || negb (up_Guid u =? ck_ActorGuid c) then c
  else
    let c := set_stage c (ck_CurrentStage c) (ck_AwaitTicks c +32 1) (ck_Outcome c) in
    if MaximumAwaitTicks <? ck_AwaitTicks c
    then fail_checkpoint c "real_route_owner_not_observed" u
    else if negb (up_MapId u =? MapId) || negb (String.eqb (up_RouteNodeId u) NodeId)
      || negb (up_AttemptId u =? ck_AttemptId c) then c
    else if negb (SelectInjectionTrigger (up_Guid u) (ck_ActorGuid c) (up_Snapshot u)
                    (up_AttemptId u) (up_WipeGeneration u) (up_RouteGeneration u) NodeId
                    (up_RouteMotion u)) then c
    else
      match unsafe_future_pack (up_Spawns u) (up_PointSafe u) (up_FutureNodes u) with
      | None => fail_checkpoint c "future_pack_destination_not_resolved" u
      | Some point => InjectRejection c u point
      end.

Definition ObserveBeforeUpdate (c : Checkpoint) (u : Update) : Checkpoint :=
  if negb (up_Bot u) || negb (up_Guid u =? ck_ActorGuid c)
     || negb (ck_AttemptId c =? up_AttemptId u) then c
  else if negb (bool_decide (ck_CurrentStage c = Stage_RejectionObserved)) then c
  else SyncControllerTerminal (ObserveSubsequentTickBoundary c (up_Snapshot u) (up_NowMs u)).2
         (up_Identity u) (up_NowMs u).

(** [UpdateBot]: what the bot is before its update, whether [PrepareBotUpdate]
    and [RunBotDecisionKernel] let it go on, and what it is after. *)
Record BotUpdate : Type := mkBotUpdate {
  bu_Before : Update;
  bu_Prepared : bool;
  bu_Decided : bool;
  bu_After : Update
}.

(** Its steps on the checkpoint. *)
Definition UpdateBot (c : Checkpoint) (b : BotUpdate) : Checkpoint :=
  if negb (up_Bot (bu_Before b)) then c
  else
    let c := ObserveBeforeUpdate c (bu_Before b) in
    if negb (bu_Prepared b) then c
    else if negb (bu_Decided b) then c
    else MaybeInjectAfterUpdate c (bu_After b).

(** ** Acquiring and releasing the hold for a cohort *)

(** What the start of a held cohort reads: the cohort is active, the attempt,
    the epoch, whether autonomy started, the actor is in the party, and the
    identity the hold has then. *)
Record StartInput : Type := mkStart {
  si_CohortId : string;
  si_Active : bool;
  si_ServerEpoch : Z;
  si_AttemptId : Z;
  si_ActorGuid : Z;
  si_FixtureId : string;
  si_SealSha256 : string;
  si_SourceCommit : string;
  si_Started : bool;
  si_ActorInCohort : bool;
  si_Identity : Identity;
  si_GitRevision : string;
  si_NowMs : Z
}.

Definition bootstrap_of (i : StartInput) : Identity :=
  mkIdentity (si_CohortId i) (si_ServerEpoch i) (si_AttemptId i +64 1) "" "" "" 0 ""
    (si_ActorGuid i) (si_FixtureId i) (si_SealSha256 i) (si_SourceCommit i).

Definition StartAutonomyHeldForCohort (hold : State) (i : StartInput) : State :=
  if si_Active i then (Reject hold "controller_route_hold_active_attempt_acquire" false).2
  else
    let '(begin, hold) := BeginAcquire hold (bootstrap_of i) (si_NowMs i) in
    if negb (tr_Accepted begin) then hold
    else if negb (si_Started i)
    then (Reject hold "controller_route_hold_runtime_start_failed" false).2
    else if negb (si_ActorInCohort i)
    then (Reject hold "controller_route_hold_actor_not_in_cohort" false).2
    else
      let comparison := Compare (hi_FixtureId (si_Identity i)) (si_FixtureId i)
        (hi_SealSha256 (si_Identity i)) (si_SealSha256 i) (hi_SourceCommit (si_Identity i))
        (si_SourceCommit i) (si_GitRevision i) in
      if negb (cm_Accepted comparison)
      then (Reject hold (default ""%string (cm_FailureReason comparison)) false).2
      else (CompleteAcquire hold (si_Identity i) (si_NowMs i)).2.

Definition ReleaseControllerRouteHoldForCohort (hold : State) (identity : Identity)
    (sealSha256 sourceCommit : string) (nowMs : Z) : State :=
  (Release hold
     (mkIdentity (hi_CohortId identity) (hi_ServerEpoch identity) (hi_AttemptId identity)
        (hi_ScenarioId identity) (hi_RuntimeProfile identity) (hi_RouteManifestSha256 identity)
        (hi_RouteGeneration identity) (hi_RouteNodeId identity) (hi_ActorGuid identity)
        (hi_FixtureId identity) sealSha256 sourceCommit) nowMs).2.

(** ** What the gate accepts *)

(** [g] refuses exactly when [P] fails, and then goes on with [next]. *)
Lemma refusal {A} (g : bool) (x : A) (next : option A) (P Q : Prop) :
  (g = false <-> P) -> (next = None <-> Q) -> (if g then Some x else next) = None <-> P /\ Q.
Proof. intros HP HQ. destruct g; naive_solver. Qed.

Lemma last_refusal {A} (g : bool) (x : A) (P : Prop) :
  (g = false <-> P) -> (if g then Some x else None) = None <-> P.
Proof. intros HP. destruct g; naive_solver. Qed.

(** The comparison of source identities is accepted when all its parts hold. *)
Definition source_ok (configured requested binary : string) : Prop :=
  IsLowerHex configured 40 = true /\ requested = configured /\
  (IsLowerHex binary 12 = true \/ IsLowerHex binary 40 = true) /\
  binary = substring 0 (String.length binary) configured.

Lemma IsLowerHex_nonempty s n : n <> 0%nat -> IsLowerHex s n = true -> str_empty s = false.
Proof. intros Hn H. destruct s; [|done]. unfold IsLowerHex in H. by destruct n. Qed.

Lemma CompareSourceIdentity_spec configured requested binary :
  let c := CompareSourceIdentity configured requested binary in
  (sc_Accepted c = true <-> source_ok configured requested binary) /\
  sc_Accepted c = sc_ConfiguredPresent c && sc_RequestedPresent c && sc_ConfiguredFormatValid c
    && sc_RequestedFormatValid c && sc_AuthoritiesMatch c && sc_BinaryRevisionPresent c
    && sc_BinaryRevisionFormatValid c && sc_BinaryRevisionMatchesSource c.
Proof.
  unfold CompareSourceIdentity, source_ok. cbn [sc_Accepted]. split; [|done].
  rewrite !andb_true_iff, !orb_true_iff, !negb_true_iff, !String.eqb_eq. split; [intuition congruence|].
  intros (H1 & -> & H2 & H3).
  assert (str_empty configured = false) by (eapply IsLowerHex_nonempty; [|exact H1]; done).
  assert (str_empty binary = false)
    by (destruct H2 as [H2|H2]; (eapply IsLowerHex_nonempty; [|exact H2]; done)).
  intuition congruence.
Qed.

(** The refusals of a source identity, whatever they are called. *)
Lemma source_refusals {A} (c : SourceIdentityComparison) (r1 r2 r3 r4 r5 r6 : A) :
  (if negb (sc_ConfiguredPresent c) || negb (sc_RequestedPresent c) then Some r1
   else if negb (sc_ConfiguredFormatValid c) || negb (sc_RequestedFormatValid c) then Some r2
   else if negb (sc_AuthoritiesMatch c) then Some r3
   else if negb (sc_BinaryRevisionPresent c) then Some r4
   else if negb (sc_BinaryRevisionFormatValid c) then Some r5
   else if negb (sc_BinaryRevisionMatchesSource c) then Some r6 else None) = None <->
  sc_ConfiguredPresent c && sc_RequestedPresent c && sc_ConfiguredFormatValid c
    && sc_RequestedFormatValid c && sc_AuthoritiesMatch c && sc_BinaryRevisionPresent c
    && sc_BinaryRevisionFormatValid c && sc_BinaryRevisionMatchesSource c = true.
Proof.
  destruct c as [? [] [] [] [] [] [] [] [] ? ? ?]; cbn; done.
Qed.

(** The gate lets through exactly the enabled, active run of the diagnostic
    profile and its route node, with all its actors, under a sealed fixture and
    a source the binary was built from. *)
Theorem RejectionReason_accepts input :
  RejectionReason input = None <->
  gi_Enabled input = true /\ gi_CohortActive input = true /\
  (gi_SelectedProfile input = ProfileId /\ gi_AdmittedRuntimeProfile input = ProfileId /\
   gi_PoolTagFilter input = PoolTag /\ gi_ScenarioId input = ProfileId) /\
  (gi_ValidationRouteEnabled input = true /\ gi_AllowRaids input = true /\
   gi_RuntimeMapId input = MapId /\ gi_TargetEntry input = TargetEntry /\
   gi_RouteNodeId input = NodeId) /\
  (gi_TargetPopulation input = ActorCount /\ gi_ActiveActorCount input = ActorCount) /\
  gi_AttemptId input <> 0 /\ gi_ConfigFixtureId input = FixtureId /\
  (IsLowerHex (gi_ConfigSealSha256 input) 64 = true /\
   gi_ConfigSealSha256 input = gi_RequestedSealSha256 input) /\
  source_ok (gi_ConfigSourceCommit input) (gi_RequestedSourceCommit input)
    (gi_BinarySourceCommit input).
Proof.
  unfold RejectionReason.
  destruct (CompareSourceIdentity_spec (gi_ConfigSourceCommit input) (gi_RequestedSourceCommit input)
    (gi_BinarySourceCommit input)) as [Hs Ha]. rewrite <- Hs, Ha. clear Hs Ha.
  do 8 (apply refusal; [rewrite ?orb_false_iff, ?negb_false_iff, ?Z.eqb_eq, ?String.eqb_eq, ?nz_true; tauto|]).
  apply source_refusals.
Qed.

(** The configured identity is accepted exactly when fixture and seal are the
    requested ones, well formed, and the source is accepted. *)
Lemma Compare_accepts fixture requestedFixture seal requestedSeal source requestedSource binary :
  cm_Accepted (Compare fixture requestedFixture seal requestedSeal source requestedSource binary) = true <->
  fixture <> ""%string /\ requestedFixture = fixture /\
  IsLowerHex seal 64 = true /\ requestedSeal = seal /\ source_ok source requestedSource binary.
Proof.
  unfold Compare. set (c := CompareSourceIdentity _ _ _).
  assert (H : ConfigFailure fixture requestedFixture seal requestedSeal c = None <->
    fixture <> ""%string /\ requestedFixture = fixture /\
    IsLowerHex seal 64 = true /\ requestedSeal = seal /\ source_ok source requestedSource binary).
  { unfold ConfigFailure. destruct (CompareSourceIdentity_spec source requestedSource binary) as [Hs Ha].
    fold c in Hs, Ha. rewrite <- Hs, Ha. clear Hs Ha.
    erewrite (refusal _ _ _ (_ /\ _)); [|rewrite orb_false_iff; reflexivity|].
    2:{ do 4 (apply refusal; [rewrite ?orb_false_iff, ?negb_false_iff; reflexivity|]).
        apply source_refusals. }
    assert (He : IsLowerHex seal 64 = true -> str_empty seal = false) by by apply IsLowerHex_nonempty.
    unfold str_empty in *. rewrite ?String.eqb_eq, ?String.eqb_neq in *. intuition congruence. }
  rewrite <- H. by destruct (ConfigFailure _ _ _ _ _) as [[field reason]|].
Qed.

(** ** What a completed checkpoint has seen *)

Inductive Step : Type :=
| SArm (input : ArmInput) | SAfterUpdate (u : Update) | SBeforeUpdate (u : Update)
(** Whatever else the manager does to the hold. *)
| SHold (c : Call).

Definition step (c : Checkpoint) (s : Step) : Checkpoint :=
  match s with
  | SArm input => ArmChainwielderOwnerCheckpoint c input
  | SAfterUpdate u => MaybeInjectAfterUpdate c u
  | SBeforeUpdate u => ObserveBeforeUpdate c u
  | SHold hold => set_hold c (call (ck_ControllerRouteHold c) hold).2
  end.

Definition run (steps : list Step) : Checkpoint := foldl step Checkpoint_default steps.

(** One movement of a hazard was rejected without a receipt, under an active
    path of the route, and left the bot's route as it was. *)
Definition rejection_seen (c : Checkpoint) : Prop :=
  ck_InjectionCount c = 1 /\
  os_ActivePathValid (ck_Before c) = true /\ os_MovementOwner (ck_Before c) = Owner_Route /\
  os_ActivePathAttemptId (ck_Before c) = ck_AttemptId c /\
  exists rejection after, IsExactReceiptlessHazardRejection rejection = true /\
    SameRouteIdentity (ck_Before c) after = true.

Definition stage_ok (c : Checkpoint) : Prop :=
  match ck_CurrentStage c with
  | Stage_Disabled => True
  | Stage_Armed => ck_InjectionCount c = 0 /\ 0 <= ck_AwaitTicks c <= MaximumAwaitTicks
  | Stage_RejectionObserved => rejection_seen c
  | Stage_Completed => rejection_seen c /\ ck_BeforeAfterIdentityPreserved c = true /\
      SameRouteIdentity (ck_Before c) (ck_After c) = true
  | Stage_Failed => True
  end.

Lemma set_hold_ok c hold : stage_ok c -> stage_ok (set_hold c hold).
Proof. done. Qed.

Lemma Sync_ok c identity nowMs : stage_ok c -> stage_ok (SyncControllerTerminal c identity nowMs).
Proof. unfold SyncControllerTerminal. by repeat destruct (negb _). Qed.

Lemma fail_ok c outcome u : stage_ok (fail_checkpoint c outcome u).
Proof. by apply Sync_ok. Qed.

Lemma Arm_ok c input : stage_ok c -> stage_ok (ArmChainwielderOwnerCheckpoint c input).
Proof.
  intros H. unfold ArmChainwielderOwnerCheckpoint. destruct (RejectionReason _); [done|].
  destruct (_ || _); [done|]. destruct (_ && _); [done|].
  destruct (AcknowledgeArm _ _ _) as [arm hold]. by destruct (negb _).
Qed.

Lemma trigger_route guid actor s attempt wipe generation node motion :
  SelectInjectionTrigger guid actor s attempt wipe generation node motion = true ->
  os_ActivePathValid s = true /\ os_MovementOwner s = Owner_Route /\ os_ActivePathAttemptId s = attempt.
Proof.
  unfold SelectInjectionTrigger. destruct (_ || _); [done|]. rewrite !andb_true_iff, bool_decide_eq_true.
  rewrite !Z.eqb_eq. tauto.
Qed.

Lemma Inject_ok c u point : ck_CurrentStage c = Stage_Armed -> ck_InjectionCount c = 0 ->
  os_ActivePathValid (up_Snapshot u) = true -> os_MovementOwner (up_Snapshot u) = Owner_Route ->
  os_ActivePathAttemptId (up_Snapshot u) = ck_AttemptId c ->
  stage_ok (InjectRejection c u point).
Proof.
  intros Hs Hc H1 H2 H3. unfold InjectRejection.
  destruct (up_Execute u point) as [[rejection|] after]; [|apply fail_ok].
  unfold ObserveInjectionBoundary. cbn [negb]. rewrite Hc. change (0 +32 1) with 1. cbn [Z.eqb negb].
  destruct (IsExactReceiptlessHazardRejection rejection) eqn:E1; cbn [negb orb]; [|by apply Sync_ok].
  destruct (SameRouteIdentity (up_Snapshot u) after) eqn:E2; cbn [negb orb]; [|by apply Sync_ok].
  split_and!; try done. by exists rejection, after.
Qed.

Lemma AfterUpdate_ok c u : stage_ok c -> stage_ok (MaybeInjectAfterUpdate c u).
Proof.
  intros H. unfold MaybeInjectAfterUpdate. case_bool_decide as Hs; [|done]. cbn [negb orb].
  destruct (negb (up_Bot u) || _); [done|]. unfold stage_ok in H. rewrite Hs in H.
  set (c' := set_stage c _ _ _).
  assert (Hw : ck_AwaitTicks c' = ck_AwaitTicks c + 1)
    by (cbn; unfold MaximumAwaitTicks in *; wrap_small; lia).
  destruct (_ <? _) eqn:Em; [apply fail_ok|]. apply Z.ltb_ge in Em.
  assert (Hok : stage_ok c').
  { unfold stage_ok. rewrite Hw in *. cbn [c' set_stage ck_CurrentStage]. rewrite Hs. split; [apply H|lia]. }
  destruct (_ || negb (up_AttemptId u =? _)) eqn:E; [done|].
  apply orb_false_iff in E as [_ E%negb_false_iff%Z.eqb_eq].
  destruct (SelectInjectionTrigger _ _ _ _ _ _ _ _) eqn:Et; cbn [negb]; [|done].
  apply trigger_route in Et as (H1 & H2 & H3).
  destruct (unsafe_future_pack _ _ _) as [point|]; [|apply fail_ok].
  apply Inject_ok; [done|apply H|done|done|]. by rewrite H3, E.
Qed.

Lemma BeforeUpdate_ok c u : stage_ok c -> stage_ok (ObserveBeforeUpdate c u).
Proof.
  intros H. unfold ObserveBeforeUpdate. destruct (_ || _); [done|].
  case_bool_decide as Hs; [|done]. cbn [negb]. apply Sync_ok.
  unfold ObserveSubsequentTickBoundary. rewrite bool_decide_eq_true_2 by done. cbn [negb].
  unfold stage_ok in H. rewrite Hs in H.
  destruct (SameRouteIdentity (ck_Before c) (up_Snapshot u)) eqn:E; cbn [negb snd]; done.
Qed.

Lemma checkpoint_run_ok steps : stage_ok (run steps).
Proof.
  unfold run. induction steps as [|s steps IH] using rev_ind; [done|].
  rewrite foldl_app. destruct s; cbn; auto using Arm_ok, AfterUpdate_ok, BeforeUpdate_ok, set_hold_ok.
Qed.

(** Over every history of arming, of updates of any bot and of calls to the
    hold, a completed checkpoint has injected exactly one movement, since it
    was last armed: it was rejected as an unsafe hazard movement without a
    receipt, under an active path of the route that this attempt owned, and
    neither the rejection nor the next tick changed the identity of that
    path. *)
Theorem checkpoint_completed steps :
  let c := run steps in
  ck_CurrentStage c = Stage_Completed ->
  rejection_seen c /\ SameRouteIdentity (ck_Before c) (ck_After c) = true.
Proof.
  intros c Hs. pose proof (checkpoint_run_ok steps) as H. fold c in H. unfold stage_ok in H. rewrite Hs in H. tauto.
Qed.

(** ** An armed checkpoint ends *)

Definition ended (c : Checkpoint) : Prop :=
  terminal (ck_CurrentStage c) = true /\ hs_CurrentPhase (ck_ControllerRouteHold c) <> Phase_Armed.

Definition own_update (c : Checkpoint) (u : Update) : Prop :=
  up_Bot u = true /\ up_Guid u = ck_ActorGuid c /\ up_AttemptId u = ck_AttemptId c.

Definition own_bot_update (c : Checkpoint) (b : BotUpdate) : Prop :=
  own_update c (bu_Before b) /\ own_update c (bu_After b).

Lemma ObserveCheckpointTerminal_phase st identity stage preserved nowMs :
  hs_CurrentPhase (ObserveCheckpointTerminal st identity stage true preserved nowMs).2 <> Phase_Armed.
Proof.
  unfold ObserveCheckpointTerminal. case_bool_decide as Hp; [|done]. cbn [negb].
  assert (Hh : Holding st = true) by (unfold Holding; by rewrite Hp).
  destruct (ValidateIdentity st identity) as [valid st'] eqn:E. apply (validated _ _ Hh) in E.
  destruct valid; cbn [negb]; [|by rewrite E]. destruct E as [-> ->]. by destruct preserved.
Qed.

Lemma Sync_ended c identity nowMs : terminal (ck_CurrentStage c) = true ->
  ended (SyncControllerTerminal c identity nowMs) /\
  ck_ActorGuid (SyncControllerTerminal c identity nowMs) = ck_ActorGuid c /\
  ck_AttemptId (SyncControllerTerminal c identity nowMs) = ck_AttemptId c.
Proof.
  intros H. unfold SyncControllerTerminal, ended. case_bool_decide as Hp; [|done]. cbn [negb].
  rewrite H. cbn [negb set_hold]. split; [|done]. split; [done|]. apply ObserveCheckpointTerminal_phase.
Qed.

(** The injection step of an armed checkpoint: it waits on, has seen the
    rejection, or has ended; who it is for does not change. *)
Lemma armed_inject c u : ck_CurrentStage c = Stage_Armed -> 0 <= ck_AwaitTicks c <= MaximumAwaitTicks ->
  own_update c u ->
  let c' := MaybeInjectAfterUpdate c u in
  ck_ActorGuid c' = ck_ActorGuid c /\ ck_AttemptId c' = ck_AttemptId c /\
  (ck_CurrentStage c' = Stage_Armed /\ ck_AwaitTicks c' = ck_AwaitTicks c + 1 /\
     ck_AwaitTicks c' <= MaximumAwaitTicks \/
   ck_CurrentStage c' = Stage_RejectionObserved /\ ck_AwaitTicks c < MaximumAwaitTicks \/ ended c').
Proof.
  intros Hs Hn (Hb & Hg & Ha). cbv zeta.
  unfold MaybeInjectAfterUpdate. rewrite Hs, Hb, Hg, Z.eqb_refl.
  rewrite bool_decide_eq_true_2 by done. cbn [negb orb].
  assert (Hw : ck_AwaitTicks c +32 1 = ck_AwaitTicks c + 1) by (unfold MaximumAwaitTicks in *; wrap_small; lia).
  rewrite Hw. set (c' := set_stage c _ _ _). cbn [c' set_stage ck_AwaitTicks].
  assert (Hfail : forall outcome, ck_ActorGuid (fail_checkpoint c' outcome u) = ck_ActorGuid c /\
    ck_AttemptId (fail_checkpoint c' outcome u) = ck_AttemptId c /\ ended (fail_checkpoint c' outcome u)).
  { intros outcome. unfold fail_checkpoint.
    destruct (Sync_ended (set_stage c' Stage_Failed (ck_AwaitTicks c') outcome) (up_Identity u)
      (up_NowMs u)) as (He & -> & ->); [done|]. done. }
  destruct (_ <? _) eqn:E1; [destruct (Hfail "real_route_owner_not_observed"%string) as (? & ? & ?); auto|]. apply Z.ltb_ge in E1.
  destruct (_ || _); [split_and!; [done|done|left; auto]|].
  destruct (negb _); [split_and!; [done|done|left; auto]|].
  destruct (unsafe_future_pack _ _ _) as [point|];
    [|destruct (Hfail "future_pack_destination_not_resolved"%string) as (? & ? & ?); auto].
  unfold InjectRejection. destruct (up_Execute u point) as [[rejection|] after];
    [|destruct (Hfail "exact_receiptless_hazard_rejection_not_observed"%string) as (? & ? & ?); auto].
  unfold ObserveInjectionBoundary. cbn [negb]. destruct (_ || _); [|split_and!; [done|done|right; left; split; [done|lia]]].
  match goal with |- context [SyncControllerTerminal ?x _ _] => set (failed := x) end.
  destruct (Sync_ended failed (up_Identity u) (up_NowMs u)) as (He & -> & ->); [done|]. auto.
Qed.

(** An ended checkpoint stays as it is. *)
Lemma ended_inject c u : ended c -> MaybeInjectAfterUpdate c u = c.
Proof.
  intros [H _]. unfold MaybeInjectAfterUpdate. rewrite bool_decide_eq_false_2; [done|]. intros E. by rewrite E in H.
Qed.

Lemma not_observed_before c u : ck_CurrentStage c <> Stage_RejectionObserved -> ObserveBeforeUpdate c u = c.
Proof. intros H. unfold ObserveBeforeUpdate. destruct (_ || _); [done|]. by rewrite bool_decide_eq_false_2. Qed.

(** The first observation after the rejection ends the checkpoint. *)
Lemma observed_before c u : ck_CurrentStage c = Stage_RejectionObserved -> own_update c u ->
  ended (ObserveBeforeUpdate c u).
Proof.
  intros Hs (Hb & Hg & Ha). unfold ObserveBeforeUpdate. rewrite Hb, Hg, Ha, !Z.eqb_refl, Hs.
  rewrite bool_decide_eq_true_2 by done. cbn [negb orb].
  apply Sync_ended. unfold ObserveSubsequentTickBoundary. rewrite bool_decide_eq_true_2 by done. cbn [negb].
  by destruct (negb _).
Qed.

Lemma ended_update c b : ended c -> UpdateBot c b = c.
Proof.
  intros H. unfold UpdateBot. rewrite not_observed_before by (intros E; destruct H as [H _]; by rewrite E in H).
  rewrite ended_inject by done. by repeat destruct (negb _).
Qed.

Lemma observed_update c b : ck_CurrentStage c = Stage_RejectionObserved -> own_bot_update c b ->
  ended (UpdateBot c b).
Proof.
  intros Hs [Hu _]. pose proof (observed_before c _ Hs Hu) as He. unfold UpdateBot.
  destruct Hu as (-> & _). cbn [negb]. rewrite ended_inject by done. by repeat destruct (negb _).
Qed.

Lemma ended_updates bs c : ended c -> foldl UpdateBot c bs = c.
Proof. intros H. induction bs as [|b bs IH]; cbn; [done|]. by rewrite ended_update. Qed.

(** The updates that reach the injection. *)
Definition completed (b : BotUpdate) : bool := bu_Prepared b && bu_Decided b.

Lemma updates_end bs : forall c,
  ck_CurrentStage c = Stage_Armed /\ 0 <= ck_AwaitTicks c <= MaximumAwaitTicks /\
    MaximumAwaitTicks - ck_AwaitTicks c < Z.of_nat (length (List.filter completed bs)) \/
  ck_CurrentStage c = Stage_RejectionObserved /\ bs <> [] \/ ended c ->
  Forall (own_bot_update c) bs -> ended (foldl UpdateBot c bs).
Proof.
  induction bs as [|b bs IH]; intros c H Hu; cbn [foldl].
  { destruct H as [(_ & ? & H)|[[_ []]|H]]; [cbn in H; lia|done|done]. }
  inversion_clear Hu as [|? ? [Hb Ha] Hbs]. destruct H as [(Hs & Hn & Hl)|[[Hs _]|He]].
  - unfold UpdateBot at 2. destruct Hb as (-> & _). cbn [negb]. rewrite not_observed_before by congruence.
    cbn [List.filter] in Hl. unfold completed in Hl at 1.
    destruct (bu_Prepared b); cbn [negb andb] in *; [|by apply IH; [left|]].
    destruct (bu_Decided b); cbn [negb length] in *; [|by apply IH; [left|]].
    destruct (armed_inject c _ Hs Hn Ha) as (E1 & E2 & H). set (c' := MaybeInjectAfterUpdate c _) in *.
    assert (Hbs' : Forall (own_bot_update c') bs).
    { eapply Forall_impl; [exact Hbs|]. unfold own_bot_update, own_update. by rewrite E1, E2. }
    apply IH; [|done]. destruct H as [(Hs' & Hw & Hm)|[[Hs' Hw]|He]]; [left|right; left|auto].
    + split_and!; [done|lia..].
    + split; [done|]. intros ->. cbn in Hl. lia.
  - rewrite ended_updates; by apply observed_update.
  - by rewrite ended_update, ended_updates.
Qed.

(** Once armed, a checkpoint cannot wait for ever: after whatever history, if it
    is armed, any updates of its actor in its attempt of which 241 run to their
    end, whatever the others meet and the movement executor answers, complete or
    fail it and take its hold out of the armed phase, if nothing else calls the
    hold. *)
Theorem checkpoint_ends steps bs :
  let c := run steps in
  ck_CurrentStage c = Stage_Armed -> Forall (own_bot_update c) bs ->
  MaximumAwaitTicks < Z.of_nat (length (List.filter completed bs)) -> ended (foldl UpdateBot c bs).
Proof.
  intros c Hs Hu Hl. pose proof (checkpoint_run_ok steps) as H. fold c in H. unfold stage_ok in H. rewrite Hs in H.
  destruct H as [_ H]. apply updates_end; [|done]. left. split_and!; [done|lia..].
Qed.

(** ** A completed checkpoint *)

Definition sample_gate : GateInput :=
  mkGate true true ProfileId ProfileId PoolTag ProfileId NodeId MapId 10 10 TargetEntry true true 7
    FixtureId (hex "b" 64) (hex "b" 64) (hex "c" 40) (hex "c" 40) (hex "c" 12).

Definition sample_snapshot : OwnerSnapshot :=
  mkSnapshot Owner_Route true true "ground" 5 7 0 3 NodeId (f32_of_Z 1) (f32_of_Z 2) (f32_of_Z 3)
    0 0 0 0 "".

Definition sample_rejection : HazardRejectionObservation :=
  mkRejection false Owner_Hazard "future_pack_destination" "rejected"
    "route_destination_future_pack_unsafe" 0.

Definition sample_update : Update :=
  mkUpdate true 42 MapId NodeId 7 0 3 true sample_snapshot [mkFutureNode "trash" MapId 11 []]
    (fun _ => Some (MapId, (f32_of_Z 9, f32_of_Z 9, f32_of_Z 9))) (fun _ => false)
    (fun _ => (Some sample_rejection, sample_snapshot)) sample_identity 100.

(** The hold's calls up to its being held. *)
Definition sample_start : list Step :=
  [SHold (CBeginAcquire sample_bootstrap 10); SHold (CCompleteAcquire sample_identity 20);
   SArm (mkArm sample_gate 7 42 true sample_identity 30)].

Lemma checkpoint_completed_witness :
  let c := run (sample_start ++ [SAfterUpdate sample_update; SBeforeUpdate sample_update]) in
  ck_CurrentStage c = Stage_Completed /\
  hs_CurrentPhase (ck_ControllerRouteHold c) = Phase_CheckpointTerminal /\
  rejection_seen c /\ SameRouteIdentity (ck_Before c) (ck_After c) = true.
Proof.
  split; [vm_compute; reflexivity|]. split; [vm_compute; reflexivity|].
  apply checkpoint_completed. vm_compute; reflexivity.
Defined.

(** A bot that never walks its route. *)
Definition idle_update : Update :=
  mkUpdate true 42 MapId NodeId 7 0 3 false OwnerSnapshot_default [] (fun _ => None) (fun _ => true)
    (fun _ => (None, OwnerSnapshot_default)) sample_identity 100.

(** Every other update is cut short. *)
Definition idle_updates : list BotUpdate :=
  repeat (mkBotUpdate idle_update true true idle_update) 120
  ++ repeat (mkBotUpdate idle_update true false idle_update) 9
  ++ repeat (mkBotUpdate idle_update true true idle_update) 121.

Lemma checkpoint_ends_witness :
  ck_CurrentStage (run sample_start) = Stage_Armed /\ ended (foldl UpdateBot (run sample_start) idle_updates).
Proof.
  split; [vm_compute; reflexivity|]. apply checkpoint_ends; [vm_compute; reflexivity| |vm_compute; reflexivity].
  apply Forall_forall. intros b Hb%list_elem_of_In. unfold idle_updates in Hb. rewrite !in_app_iff in Hb.
  by destruct Hb as [Hb%repeat_spec|[Hb%repeat_spec|Hb%repeat_spec]]; subst b; vm_compute.
Defined.
