(* ===== verification/VehicleLanding.v ===== *)
(** Landing after a vehicle lets a bot out
    ([Bots/BotServerVehicleExitLanding.h], and its tick in
    [Bots/BotWorldPopulationMgrUpdateBotPreparation.cpp] and
    [Bots/BotWorldPopulationMgrMovementExecutor.cpp]): the episode of an exit,
    the ground movement that is bound to it, and when the falling flags the
    vehicle left behind may be cleared. *)
From S2P Require Import Prelude MovementArbiter.
From Stdlib Require Import ZArith Lia String Ascii SpecFloat.
From stdpp Require Import base gmap list strings.

Open Scope Z_scope.
Open Scope tc_scope.

(** ** The episode *)

Record NativeFall : Type := mkFall {
  nf_Attempted : bool;
  nf_SubmittedAtMs : Z;
  nf_SplineId : Z;
  nf_DestinationX : f32;
  nf_DestinationY : f32;
  nf_DestinationZ : f32
}.

Definition NativeFall_default : NativeFall := mkFall false 0 0 f32_zero f32_zero f32_zero.

(** Who was seen, and where: the fields [BotGuid], [MapId], [InstanceId],
    [ScopeAvailable] and [Scope] that an episode keeps for the occupant and for
    the one who left. *)
Record Who : Type := mkWho {
  wh_BotGuid : Z;
  wh_MapId : Z;
  wh_InstanceId : Z;
  wh_ScopeAvailable : bool;
  wh_Scope : Scope
}.

Definition Who_default : Who := mkWho 0 0 0 false Scope_default.

(** The ground movement that was submitted last. *)
Record Submitted : Type := mkSubmitted {
  su_ReceiptId : Z;
  su_AtMs : Z;
  su_Awaiting : bool;
  su_BotGuid : Z;
  su_MapId : Z;
  su_InstanceId : Z;
  su_Scope : Scope
}.

Definition Submitted_default : Submitted := mkSubmitted 0 0 false 0 0 0 Scope_default.

Record LandingEvidence : Type := mkEvidence {
  le_Who : Who;
  le_ActorInWorld : bool;
  le_ActorAlive : bool;
  le_HasVehicle : bool;
  le_HasTransport : bool;
  le_GravityDisabled : bool;
  le_NativeFlight : bool;
  le_ControlledState : bool;
  le_FallingFlagsPresent : bool;
  le_NativeFalling : bool;
  le_CurrentSplineFinalized : bool;
  le_MotionSlotsSettled : bool;
  le_Rooted : bool;
  le_NativeFallObservation : bool;
  le_VerticalMovementFlags : bool;
  le_SplineInitialized : bool;
  le_SplineId : Z;
  le_NativeFloorValid : bool;
  le_NativeFloorZ : f32;
  le_NativeFloorGap : f32;
  le_NativeFallEndpointMatches : bool;
  le_NativeFallDestinationMatches : bool;
  le_ReceiptAvailable : bool;
  le_ReceiptId : Z;
  le_Receipt : Who;
  le_ReceiptArmedAtMs : Z;
  le_ReceiptTerminal : bool;
  le_ReceiptSuperseded : bool;
  le_ReceiptTerminalOutcome : string;
  le_TerminalSampleAvailable : bool;
  le_TerminalActorAlive : bool;
  le_TerminalActorInWorld : bool;
  le_TerminalEndpointReached : bool;
  le_TerminalFloorValid : bool;
  le_TerminalPlatformCompatible : bool;
  le_CurrentEndpointMatches : bool;
  le_FlagsBefore : Z;
  le_CurrentMotionType : Z;
  le_ActiveMotionType : Z;
  le_ControlledMotionType : Z
}.

(** The latest evaluation, kept for diagnosis: the [Last...] fields that copy
    the evidence are that evidence. *)
Record Evaluation : Type := mkEvaluation {
  ev_LastObservedAtMs : Z;
  ev_EvaluationCount : Z;
  ev_LastReconciliationAtMs : Z;
  ev_LastFlagsAfter : Z;
  ev_LastReceiptId : Z;
  ev_LastReason : string;
  ev_LastEvidence : option LandingEvidence;
  ev_LastFall : NativeFall
}.

Definition Evaluation_default : Evaluation :=
  mkEvaluation 0 0 0 0 0 "none" None NativeFall_default.

Record Episode : Type := mkEpisode {
  ep_VehicleObserved : bool;
  ep_VehicleOccupiedLastTick : bool;
  ep_ObservedVehicleGuid : Z;
  ep_Occupied : Who;
  ep_ExitPending : bool;
  ep_ExitObservedAtMs : Z;
  ep_Exit : Who;
  ep_BoundReceiptId : Z;
  ep_BoundReceiptArmedAtMs : Z;
  ep_Submitted : Submitted;
  ep_Fall : NativeFall;
  ep_Last : Evaluation
}.

Definition Episode_default : Episode :=
  mkEpisode false false 0 Who_default false 0 Who_default 0 0 Submitted_default NativeFall_default
    Evaluation_default.

Record VehicleTransitionObservation : Type := mkTransition {
  vt_HasVehicle : bool;
  vt_VehicleGuid : Z;
  vt_Who : Who;
  vt_ObservedAtMs : Z
}.

Definition SameEpisodeScope (left right : Scope) : bool :=
  (sc_AttemptId left =? sc_AttemptId right) && (sc_WipeGeneration left =? sc_WipeGeneration right)
  && (sc_RouteGeneration left =? sc_RouteGeneration right) && (sc_MapId left =? sc_MapId right)
  && (sc_InstanceId left =? sc_InstanceId right).

Definition set_bound (e : Episode) (receiptId armedAtMs : Z) : Episode :=
  mkEpisode (ep_VehicleObserved e) (ep_VehicleOccupiedLastTick e) (ep_ObservedVehicleGuid e)
    (ep_Occupied e) (ep_ExitPending e) (ep_ExitObservedAtMs e) (ep_Exit e) receiptId armedAtMs
    (ep_Submitted e) (ep_Fall e) (ep_Last e).

Definition set_submitted (e : Episode) (s : Submitted) : Episode :=
  mkEpisode (ep_VehicleObserved e) (ep_VehicleOccupiedLastTick e) (ep_ObservedVehicleGuid e)
    (ep_Occupied e) (ep_ExitPending e) (ep_ExitObservedAtMs e) (ep_Exit e) (ep_BoundReceiptId e)
    (ep_BoundReceiptArmedAtMs e) s (ep_Fall e) (ep_Last e).

Definition set_fall (e : Episode) (fall : NativeFall) : Episode :=
  mkEpisode (ep_VehicleObserved e) (ep_VehicleOccupiedLastTick e) (ep_ObservedVehicleGuid e)
    (ep_Occupied e) (ep_ExitPending e) (ep_ExitObservedAtMs e) (ep_Exit e) (ep_BoundReceiptId e)
    (ep_BoundReceiptArmedAtMs e) (ep_Submitted e) fall (ep_Last e).

Definition set_last (e : Episode) (last : Evaluation) : Episode :=
  mkEpisode (ep_VehicleObserved e) (ep_VehicleOccupiedLastTick e) (ep_ObservedVehicleGuid e)
    (ep_Occupied e) (ep_ExitPending e) (ep_ExitObservedAtMs e) (ep_Exit e) (ep_BoundReceiptId e)
    (ep_BoundReceiptArmedAtMs e) (ep_Submitted e) (ep_Fall e) last.

Definition ResetBoundReceipt (e : Episode) : Episode := set_bound e 0 0.
Definition ResetSubmittedReceipt (e : Episode) : Episode := set_submitted e Submitted_default.

Definition stop_awaiting (e : Episode) : Episode :=
  let s := ep_Submitted e in
  set_submitted e (mkSubmitted (su_ReceiptId s) (su_AtMs s) false (su_BotGuid s) (su_MapId s)
    (su_InstanceId s) (su_Scope s)).

(** Bot, map and instance. *)
Definition same_place (botGuid mapId instanceId : Z) (who : Who) : bool :=
  (botGuid =? wh_BotGuid who) && (mapId =? wh_MapId who) && (instanceId =? wh_InstanceId who).

Definition RememberGroundPointSubmission (e : Episode) (receiptId botGuid mapId instanceId
    submittedAtMs : Z) (scope : Scope) : bool * Episode :=
  let old := ep_Submitted e in
  if negb (nz receiptId) || negb (nz botGuid) || negb (nz submittedAtMs)
    || negb (sc_MapId scope =? mapId) || negb (sc_InstanceId scope =? instanceId)
  then (false, e)
  else if ep_ExitPending e
    && (negb (same_place botGuid mapId instanceId (ep_Exit e))
        || (submittedAtMs <? ep_ExitObservedAtMs e)
        || (wh_ScopeAvailable (ep_Exit e) && negb (SameEpisodeScope scope (wh_Scope (ep_Exit e)))))
  then (false, e)
  else if ep_VehicleOccupiedLastTick e
    && (negb (same_place botGuid mapId instanceId (ep_Occupied e))
        || negb (wh_ScopeAvailable (ep_Occupied e))
        || negb (SameEpisodeScope scope (wh_Scope (ep_Occupied e))))
  then (false, e)
  else if nz (su_ReceiptId old)
    && ((submittedAtMs <? su_AtMs old)
        || ((submittedAtMs =? su_AtMs old) && (receiptId <=? su_ReceiptId old)))
  then (false, e)
  else (true, set_submitted e (mkSubmitted receiptId submittedAtMs true botGuid mapId instanceId scope)).

Definition SameSubmissionIdentity (e : Episode) (o : VehicleTransitionObservation) : bool :=
  let s := ep_Submitted e in
  wh_ScopeAvailable (vt_Who o)
  && same_place (su_BotGuid s) (su_MapId s) (su_InstanceId s) (vt_Who o)
  && SameEpisodeScope (su_Scope s) (wh_Scope (vt_Who o)) && (su_AtMs s <=? vt_ObservedAtMs o).

Definition BeginVehicleOccupancy (e : Episode) (o : VehicleTransitionObservation) : Episode :=
  let carrySubmission := negb (ep_VehicleOccupiedLastTick e) && negb (ep_ExitPending e)
    && nz (vt_VehicleGuid o) && SameSubmissionIdentity e o in
  mkEpisode true true (vt_VehicleGuid o) (vt_Who o) false 0 Who_default 0 0
    (if carrySubmission then ep_Submitted e else Submitted_default) NativeFall_default (ep_Last e).

Definition SameOccupancyIdentity (e : Episode) (o : VehicleTransitionObservation) : bool :=
  let who := vt_Who o in
  same_place (wh_BotGuid (ep_Occupied e)) (wh_MapId (ep_Occupied e)) (wh_InstanceId (ep_Occupied e)) who
  && Bool.eqb (wh_ScopeAvailable (ep_Occupied e)) (wh_ScopeAvailable who)
  && (negb (wh_ScopeAvailable who) || SameEpisodeScope (wh_Scope (ep_Occupied e)) (wh_Scope who)).

Definition ObserveVehicleTransition (e : Episode) (o : VehicleTransitionObservation) : Episode :=
  if vt_HasVehicle o then
    if negb (ep_VehicleOccupiedLastTick e) || negb (ep_ObservedVehicleGuid e =? vt_VehicleGuid o)
       || negb (SameOccupancyIdentity e o)
    then BeginVehicleOccupancy e o else e
  else if negb (ep_VehicleOccupiedLastTick e) then
    if negb (ep_ExitPending e) && negb (SameSubmissionIdentity e o) then ResetSubmittedReceipt e else e
  else
    let carrySubmission := nz (ep_ObservedVehicleGuid e) && SameOccupancyIdentity e o
      && (su_AtMs (ep_Submitted e) <=? vt_ObservedAtMs o) in
    mkEpisode true false (ep_ObservedVehicleGuid e) (ep_Occupied e) true (vt_ObservedAtMs o) (vt_Who o)
      0 0 (if carrySubmission then ep_Submitted e else Submitted_default) NativeFall_default (ep_Last e).

Record ReceiptBindingObservation : Type := mkBinding {
  rb_ActualPointSubmission : bool;
  rb_ProgressReceiptArmed : bool;
  rb_ReceiptId : Z;
  rb_Who : Who;
  rb_ArmedAtMs : Z;
  rb_SplineInitialized : bool;
  rb_SplineId : Z
}.

Definition BindGroundingReceipt (e : Episode) (r : ReceiptBindingObservation) : bool * Episode :=
  let who := rb_Who r in
  if negb (ep_ExitPending e) || negb (rb_ActualPointSubmission r) || negb (rb_ProgressReceiptArmed r)
    || negb (nz (rb_ReceiptId r)) || negb (nz (wh_BotGuid who)) || negb (rb_SplineInitialized r)
    || negb (nz (rb_SplineId r))
  then (false, e)
  else if negb (same_place (wh_BotGuid who) (wh_MapId who) (wh_InstanceId who) (ep_Exit e))
    || (rb_ArmedAtMs r <? ep_ExitObservedAtMs e)
  then (false, e)
  else if negb (Bool.eqb (wh_ScopeAvailable who) (wh_ScopeAvailable (ep_Exit e)))
    || (wh_ScopeAvailable (ep_Exit e) && negb (SameEpisodeScope (wh_Scope who) (wh_Scope (ep_Exit e))))
  then (false, e)
  else if nz (ep_BoundReceiptId e)
    && negb ((ep_BoundReceiptArmedAtMs e <? rb_ArmedAtMs r)
             || ((rb_ArmedAtMs r =? ep_BoundReceiptArmedAtMs e)
                 && (ep_BoundReceiptId e <? rb_ReceiptId r)))
  then (false, e)
  else (true, set_bound e (rb_ReceiptId r) (rb_ArmedAtMs r)).

(** What the progress diagnostics know of a receipt; the last sample, if any. *)
Record ProgressSample : Type := mkSample {
  ps_ReceiptId : Z; ps_ActorInWorld : bool; ps_ActorAlive : bool; ps_FloorValid : bool;
  ps_SelectedPlatformCompatible : bool; ps_EndpointReached : bool; ps_Terminal : bool }.

Record Progress : Type := mkProgress {
  pg_Available : bool;
  pg_ReceiptId : Z;
  pg_BotGuid : Z;
  pg_MapId : Z;
  pg_InstanceId : Z;
  pg_Scope : Scope;
  pg_SelectedX : f32;
  pg_SelectedY : f32;
  pg_SelectedZ : f32;
  pg_LaunchedSplineInitialized : bool;
  pg_LaunchedSplineId : Z;
  pg_ArmedAtMs : Z;
  pg_Terminal : bool;
  pg_TerminalOutcome : string;
  pg_SupersededByReceiptId : Z;
  pg_LastSample : option ProgressSample
}.

Definition BindSubmittedGroundReceipt (e : Episode) (p : Progress) : bool * Episode :=
  let s := ep_Submitted e in
  if negb (su_Awaiting s) || negb (pg_Available p) || negb (pg_ReceiptId p =? su_ReceiptId s)
  then (false, e)
  else if nz (pg_SupersededByReceiptId p)
    || (pg_Terminal p && negb (String.eqb (pg_TerminalOutcome p) "selected_endpoint_reached"))
  then (false, stop_awaiting e)
  else if negb (nz (pg_ArmedAtMs p)) || (pg_ArmedAtMs p <? su_AtMs s) then (false, e)
  else if pg_ArmedAtMs p <? ep_ExitObservedAtMs e then (false, ResetSubmittedReceipt e)
  else
    let '(bound, e) := BindGroundingReceipt e
      (mkBinding true true (pg_ReceiptId p)
         (mkWho (pg_BotGuid p) (pg_MapId p) (pg_InstanceId p) (wh_ScopeAvailable (ep_Exit e)) (pg_Scope p))
         (pg_ArmedAtMs p) (pg_LaunchedSplineInitialized p) (pg_LaunchedSplineId p)) in
    if negb bound then (false, e) else (true, stop_awaiting e).

(** ** The decision *)

Inductive Decision : Type :=
| Decision_NoEpisode | Decision_KeepPending | Decision_CloseEpisode | Decision_StartNativeFall
| Decision_ClearStaleLandingFlag.

#[export] Instance landing_Decision_eq_dec : EqDecision Decision.
Proof. solve_decision. Defined.

Record ReconciliationResult : Type := mkResult {
  rr_Decision : Decision; rr_DropBoundReceipt : bool; rr_Reason : string }.

Definition Keep (reason : string) (dropReceipt : bool) : ReconciliationResult :=
  mkResult Decision_KeepPending dropReceipt reason.

(** [0.5f] and [1.5f]. *)
Definition NativePathEndpointHorizontalTolerance : f32 := f32_div (f32_of_Z 1) (f32_of_Z 2).
Definition NativePathEndpointVerticalTolerance : f32 := f32_div (f32_of_Z 3) (f32_of_Z 2).

Definition NativePathEndpointComponentsMatch (horizontalDistance verticalDistance : f32) : bool :=
  f32_is_finite horizontalDistance && f32_is_finite verticalDistance
  && f32_le horizontalDistance NativePathEndpointHorizontalTolerance
  && f32_le verticalDistance NativePathEndpointVerticalTolerance.

(** The exit without a submitted ground movement. *)
Definition ResolveNativeFall (e : Episode) (v : LandingEvidence) : ReconciliationResult :=
  let fall := ep_Fall e in
  if le_Rooted v || le_VerticalMovementFlags v
  then Keep "vehicle_exit_native_fall_controlled_motion" false
  else if nf_Attempted fall && negb (nz (nf_SplineId fall))
  then Keep "vehicle_exit_native_fall_launch_unobserved" false
  else if nz (nf_SplineId fall)
    && (negb (le_SplineId v =? nf_SplineId fall) || negb (le_NativeFallDestinationMatches v))
  then Keep "vehicle_exit_native_fall_spline_replaced" false
  else if negb (le_CurrentSplineFinalized v) || negb (le_SplineInitialized v)
  then Keep "vehicle_exit_native_fall_motion_unsettled" false
  else if negb (le_MotionSlotsSettled v) then Keep "vehicle_exit_native_fall_slots_active" false
  else if negb (le_NativeFloorValid v) then Keep "vehicle_exit_native_fall_floor_unavailable" false
  else if negb (nf_Attempted fall) then
    if f32_le (le_NativeFloorGap v) NativePathEndpointVerticalTolerance
    then Keep "vehicle_exit_native_fall_no_material_gap" false
    else mkResult Decision_StartNativeFall false "vehicle_exit_native_fall_required"
  else if negb (le_NativeFallEndpointMatches v)
    || f32_gt (f32_abs (le_NativeFloorGap v)) NativePathEndpointVerticalTolerance
  then Keep "vehicle_exit_native_fall_not_on_floor" false
  else mkResult Decision_ClearStaleLandingFlag false "vehicle_exit_native_fall_reconciled".

(** The exit whose ground movement is bound. *)
Definition ResolveReceipt (e : Episode) (v : LandingEvidence) : ReconciliationResult :=
  let receipt := le_Receipt v in
  if negb (le_CurrentSplineFinalized v) || le_NativeFalling v
  then Keep "vehicle_exit_landing_native_motion_unsettled" false
  else if negb (le_MotionSlotsSettled v) then Keep "vehicle_exit_landing_motion_slots_active" false
  else if negb (nz (ep_BoundReceiptId e)) then Keep "vehicle_exit_landing_ground_receipt_pending" false
  else if negb (le_ReceiptAvailable v)
  then Keep "vehicle_exit_landing_ground_receipt_unavailable" true
  else if negb (le_ReceiptId v =? ep_BoundReceiptId e)
    || negb (same_place (wh_BotGuid receipt) (wh_MapId receipt) (wh_InstanceId receipt) (ep_Exit e))
    || (le_ReceiptArmedAtMs v <? ep_ExitObservedAtMs e)
    || negb (le_ReceiptArmedAtMs v =? ep_BoundReceiptArmedAtMs e)
  then mkResult Decision_CloseEpisode false "vehicle_exit_landing_receipt_identity_changed"
  else if negb (Bool.eqb (wh_ScopeAvailable receipt) (wh_ScopeAvailable (ep_Exit e)))
    || (wh_ScopeAvailable (ep_Exit e)
        && negb (SameEpisodeScope (wh_Scope receipt) (wh_Scope (ep_Exit e))))
  then mkResult Decision_CloseEpisode false "vehicle_exit_landing_receipt_scope_changed"
  else if le_ReceiptSuperseded v then Keep "vehicle_exit_landing_ground_receipt_not_usable" true
  else if negb (le_ReceiptTerminal v)
  then Keep "vehicle_exit_landing_ground_receipt_awaiting_terminal" false
  else if negb (String.eqb (le_ReceiptTerminalOutcome v) "selected_endpoint_reached")
  then Keep "vehicle_exit_landing_ground_receipt_not_usable" true
  else if negb (le_TerminalSampleAvailable v) || negb (le_TerminalActorAlive v)
    || negb (le_TerminalActorInWorld v) || negb (le_TerminalEndpointReached v)
    || negb (le_TerminalFloorValid v) || negb (le_TerminalPlatformCompatible v)
  then Keep "vehicle_exit_landing_ground_proof_incomplete" true
  else if negb (le_CurrentEndpointMatches v)
  then Keep "vehicle_exit_landing_current_endpoint_mismatch" true
  else mkResult Decision_ClearStaleLandingFlag false "vehicle_exit_landing_ground_receipt_reconciled".

Definition Resolve (e : Episode) (v : LandingEvidence) : ReconciliationResult :=
  let who := le_Who v in
  if negb (ep_VehicleObserved e) || negb (ep_ExitPending e)
  then mkResult Decision_NoEpisode false "no_vehicle_exit_episode"
  else if negb (same_place (wh_BotGuid who) (wh_MapId who) (wh_InstanceId who) (ep_Exit e))
    || negb (Bool.eqb (wh_ScopeAvailable who) (wh_ScopeAvailable (ep_Exit e)))
    || (wh_ScopeAvailable (ep_Exit e)
        && negb (SameEpisodeScope (wh_Scope who) (wh_Scope (ep_Exit e))))
  then mkResult Decision_CloseEpisode false "vehicle_exit_landing_scope_changed"
  else if negb (le_FallingFlagsPresent v)
  then mkResult Decision_CloseEpisode false "vehicle_exit_landing_flags_already_clear"
  else if negb (le_ActorInWorld v) || negb (le_ActorAlive v)
  then Keep "vehicle_exit_landing_actor_unavailable" false
  else if le_HasVehicle v || le_HasTransport v
  then Keep "vehicle_exit_landing_vehicle_or_transport_present" false
  else if le_GravityDisabled v || le_NativeFlight v then Keep "vehicle_exit_landing_aerial_state" false
  else if le_ControlledState v then Keep "vehicle_exit_landing_controlled_state" false
  else if le_NativeFallObservation v && negb (nz (ep_BoundReceiptId e))
    && negb (nz (su_ReceiptId (ep_Submitted e)))
  then ResolveNativeFall e v
  else ResolveReceipt e v.

(** [actor->SetFall(false)], when the flag is cleared. *)
Definition clears (result : ReconciliationResult) : bool :=
  bool_decide (rr_Decision result = Decision_ClearStaleLandingFlag).

Definition RecordEvaluation (e : Episode) (v : LandingEvidence) (result : ReconciliationResult)
    (observedAtMs flagsAfter : Z) : Episode :=
  let last := ep_Last e in
  set_last e (mkEvaluation observedAtMs
    (if ev_EvaluationCount last <? 64 then ev_EvaluationCount last +32 1 else ev_EvaluationCount last)
    (if clears result then observedAtMs else ev_LastReconciliationAtMs last)
    flagsAfter (if nz (le_ReceiptId v) then le_ReceiptId v else ep_BoundReceiptId e)
    (rr_Reason result) (Some v) (ep_Fall e)).

Definition CloseEpisode (e : Episode) : Episode :=
  mkEpisode (ep_VehicleObserved e) (ep_VehicleOccupiedLastTick e) (ep_ObservedVehicleGuid e)
    (ep_Occupied e) false 0 Who_default 0 0 Submitted_default NativeFall_default (ep_Last e).

(** ** The bot as an update reads it *)

Definition MOVEMENTFLAG_FALLING : Z := 0x800.
Definition MOVEMENTFLAG_FALLING_FAR : Z := 0x1000.
Definition MOVEMENTFLAG_ASCENDING : Z := 0x200000.
Definition MOVEMENTFLAG_DESCENDING : Z := 0x400000.
Definition MOVEMENTFLAG_SPLINE_ELEVATION : Z := 0x2000000.
Definition IDLE_MOTION_TYPE : Z := 0.
Definition EFFECT_MOTION_TYPE : Z := 16.
Definition MAX_MOTION_TYPE : Z := 19.
Definition INVALID_HEIGHT : f32 := f32_of_Z (-100000).

(** A spline: [None] for a bot without one, or with one that is not
    initialized where only its identity matters. *)
Record Spline : Type := mkSpline {
  sl_Initialized : bool; sl_Id : Z; sl_Finalized : bool; sl_Falling : bool;
  sl_FinalDestination : f32 * f32 * f32 }.

Record Actor : Type := mkActor {
  ac_Guid : Z;
  ac_MapId : Z;
  ac_InstanceId : Z;
  ac_InWorld : bool;
  ac_Alive : bool;
  ac_HasVehicle : bool;
  ac_HasTransport : bool;
  ac_GravityDisabled : bool;
  ac_InFlight : bool;
  ac_Controlled : bool;
  ac_Rooted : bool;
  ac_Flags : Z;
  ac_Spline : option Spline;
  (** The current, active and controlled motion types; [None] without a motion
      master. *)
  ac_Motion : option (Z * Z * Z);
  ac_Position : f32 * f32 * f32;
  ac_MapHeight : f32;
  ac_HoverOffset : f32
}.

Definition has_flags (flags mask : Z) : bool := nz (Z.land flags mask).

Definition falling_flags : Z := Z.lor MOVEMENTFLAG_FALLING MOVEMENTFLAG_FALLING_FAR.
Definition vertical_flags : Z :=
  Z.lor (Z.lor MOVEMENTFLAG_ASCENDING MOVEMENTFLAG_DESCENDING) MOVEMENTFLAG_SPLINE_ELEVATION.

(** [std::sqrt] of floats. *)
Definition f32_sqrt : f32 -> f32 := SFsqrt 24 128.

(** The bot stands at a point, within the tolerances of a path's endpoint. *)
Definition at_point (a : Actor) (point : f32 * f32 * f32) : bool :=
  let '(x, y, z) := ac_Position a in
  let '(px, py, pz) := point in
  let dx := f32_sub x px in
  let dy := f32_sub y py in
  NativePathEndpointComponentsMatch (f32_sqrt (f32_add (f32_mul dx dx) (f32_mul dy dy)))
    (f32_abs (f32_sub z pz)).

Definition same_point (a b : f32 * f32 * f32) : bool :=
  f32_eq a.1.1 b.1.1 && f32_eq a.1.2 b.1.2 && f32_eq a.2 b.2.

Definition fall_destination (fall : NativeFall) : f32 * f32 * f32 :=
  (nf_DestinationX fall, nf_DestinationY fall, nf_DestinationZ fall).

(** Who the bot is, in the scope of its update. *)
Definition actor_who (a : Actor) (scopeAvailable : bool) (scope : Scope) : Who :=
  mkWho (ac_Guid a) (ac_MapId a) (ac_InstanceId a) scopeAvailable scope.

(** The fields that do not depend on a receipt, for a loaded bot; [floor] is
    whether the floor under it is valid, its height and the gap. *)
Definition evidence_of (a : Actor) (who : Who) (nativeFall : bool) (floor : bool * f32 * f32)
    (fallEndpoint fallDestination : bool) (receipt : option (Progress * bool)) : LandingEvidence :=
  let spline := ac_Spline a in
  let on f := match spline with Some s => f s | None => false end in
  let vertical := has_flags (ac_Flags a) vertical_flags in
  let initialized := on sl_Initialized in
  let '(current, active, controlled) := default (0, 0, 0) (ac_Motion a) in
  let sample f := match receipt with
    | Some (p, _) => match pg_LastSample p with Some s => f p s | None => false end
    | None => false end in
  mkEvidence who (ac_InWorld a) (ac_Alive a) (ac_HasVehicle a) (ac_HasTransport a)
    (ac_GravityDisabled a) (ac_InFlight a) (ac_Controlled a)
    (has_flags (ac_Flags a) falling_flags) (on sl_Falling || vertical)
    (match spline with Some s => sl_Finalized s | None => true end)
    (bool_decide (is_Some (ac_Motion a)) && (current =? IDLE_MOTION_TYPE)
     && (active =? MAX_MOTION_TYPE) && (controlled =? MAX_MOTION_TYPE))
    (ac_Rooted a) nativeFall vertical initialized
    (if initialized then match spline with Some s => sl_Id s | None => 0 end else 0)
    floor.1.1 floor.1.2 floor.2 fallEndpoint fallDestination
    (bool_decide (is_Some receipt))
    (match receipt with Some (p, _) => pg_ReceiptId p | None => 0 end)
    (match receipt with
     | Some (p, _) => mkWho (pg_BotGuid p) (pg_MapId p) (pg_InstanceId p) (wh_ScopeAvailable who) (pg_Scope p)
     | None => Who_default end)
    (match receipt with Some (p, _) => pg_ArmedAtMs p | None => 0 end)
    (match receipt with Some (p, _) => pg_Terminal p | None => false end)
    (match receipt with Some (p, _) => nz (pg_SupersededByReceiptId p) | None => false end)
    (match receipt with Some (p, _) => pg_TerminalOutcome p | None => "pending"%string end)
    (sample (fun p s => pg_Terminal p && ps_Terminal s && (ps_ReceiptId s =? pg_ReceiptId p)))
    (sample (fun _ s => ps_ActorAlive s)) (sample (fun _ s => ps_ActorInWorld s))
    (sample (fun _ s => ps_EndpointReached s)) (sample (fun _ s => ps_FloorValid s))
    (sample (fun _ s => ps_SelectedPlatformCompatible s))
    (match receipt with Some (_, matches) => matches | None => false end)
    (ac_Flags a) current active controlled.

(** The floor under the bot, as a native fall would find it. *)
Definition native_floor (a : Actor) : bool * f32 * f32 :=
  if ac_InWorld a && ac_Alive a then
    let floor := ac_MapHeight a in
    let gap := f32_sub (ac_Position a).2 (f32_add floor (ac_HoverOffset a)) in
    (f32_is_finite floor && f32_gt floor INVALID_HEIGHT && f32_is_finite gap,
     if f32_is_finite floor then floor else f32_zero, if f32_is_finite gap then gap else f32_zero)
  else (false, f32_zero, f32_zero).

(** The evidence of a loaded bot; [progress] is what the diagnostics know of a
    receipt. *)
Definition BuildVehicleExitLandingEvidence (e : Episode) (a : Actor) (scopeAvailable : bool)
    (scope : Scope) (progress : Z -> Progress) : LandingEvidence :=
  let who := actor_who a scopeAvailable scope in
  let receiptId := ep_BoundReceiptId e in
  let nofloor := (false, f32_zero, f32_zero) in
  if negb (nz receiptId) then
    let fall := ep_Fall e in
    let spline := match ac_Spline a with
      | Some s => if nz (nf_SplineId fall) && sl_Initialized s then Some s else None
      | None => None end in
    match spline with
    | Some s => evidence_of a who true (native_floor a) (at_point a (fall_destination fall))
                  (same_point (sl_FinalDestination s) (fall_destination fall)) None
    | None => evidence_of a who true (native_floor a) false false None
    end
  else
    let p := progress receiptId in
    if negb (pg_Available p && (pg_ReceiptId p =? receiptId))
    then evidence_of a who false nofloor false false None
    else evidence_of a who false nofloor false false
           (Some (p, at_point a (pg_SelectedX p, pg_SelectedY p, pg_SelectedZ p))).

(** ** The tick of a bot *)

(** [Launched] is the bot as it is read again after a native fall was started,
    and [FlagsAfter] its movement flags after the decision. *)
Record TickInput : Type := mkTick {
  ti_Actor : Actor;
  ti_Vehicle : bool * Z;
  ti_ScopeAvailable : bool;
  ti_Scope : Scope;
  ti_Progress : Z -> Progress;
  ti_Launched : Actor;
  ti_FlagsAfter : Z;
  ti_NowMs : Z
}.

Definition finite_point (p : f32 * f32 * f32) : bool :=
  f32_is_finite p.1.1 && f32_is_finite p.1.2 && f32_is_finite p.2.

(** The pending submission of an exit is bound before it is judged. *)
Definition BindPendingVehicleExitReceipt (e : Episode) (t : TickInput) : Episode :=
  let a := ti_Actor t in
  if negb (ep_ExitPending e) || negb (su_Awaiting (ep_Submitted e)) then e
  else if negb (same_place (ac_Guid a) (ac_MapId a) (ac_InstanceId a) (ep_Exit e))
    || negb (Bool.eqb (ti_ScopeAvailable t) (wh_ScopeAvailable (ep_Exit e)))
    || (ti_ScopeAvailable t && negb (SameEpisodeScope (ti_Scope t) (wh_Scope (ep_Exit e))))
  then ResetSubmittedReceipt e
  else (BindSubmittedGroundReceipt e (ti_Progress t (su_ReceiptId (ep_Submitted e)))).2.

(** The spline of the fall, when it was launched from the admitted slots. *)
Definition launched_spline (v : LandingEvidence) (launched : Actor) : option Spline :=
  match ac_Spline launched, ac_Motion launched with
  | Some s, Some (_, _, controlled) =>
      if sl_Initialized s && nz (sl_Id s) && negb (sl_Id s =? le_SplineId v) && sl_Falling s
         && (controlled =? EFFECT_MOTION_TYPE) && finite_point (sl_FinalDestination s)
      then Some s else None
  | _, _ => None
  end.

(** [motion->MoveFall()] is called exactly when the result is [true]. *)
Definition StartVehicleExitNativeFall (e : Episode) (v : LandingEvidence) (launched : Actor)
    (observedAtMs : Z) : bool * ReconciliationResult * Episode :=
  if negb (bool_decide (rr_Decision (Resolve e v) = Decision_StartNativeFall))
  then (false, Keep "vehicle_exit_native_fall_not_admitted" false, e)
  else
    let old := ep_Fall e in
    let fall := match launched_spline v launched with
      | Some s => let '(x, y, z) := sl_FinalDestination s in mkFall true observedAtMs (sl_Id s) x y z
      | None => mkFall true (nf_SubmittedAtMs old) (nf_SplineId old) (nf_DestinationX old)
                  (nf_DestinationY old) (nf_DestinationZ old)
      end in
    (true, Keep (if nz (nf_SplineId fall) then "vehicle_exit_native_fall_launched"
                 else "vehicle_exit_native_fall_launch_unobserved") false, set_fall e fall).

Definition VehicleExitNativeFallOwnsMotion (e : Episode) (a : Actor) (t : TickInput) : bool :=
  if negb (ep_ExitPending e) || negb (nz (nf_SplineId (ep_Fall e))) then false
  else
    let v := BuildVehicleExitLandingEvidence e a (ti_ScopeAvailable t) (ti_Scope t) (ti_Progress t) in
    let who := le_Who v in
    same_place (wh_BotGuid who) (wh_MapId who) (wh_InstanceId who) (ep_Exit e)
    && Bool.eqb (ti_ScopeAvailable t) (wh_ScopeAvailable (ep_Exit e))
    && (negb (ti_ScopeAvailable t) || SameEpisodeScope (ti_Scope t) (wh_Scope (ep_Exit e)))
    && le_ActorAlive v && le_ActorInWorld v && negb (le_HasVehicle v) && negb (le_HasTransport v)
    && negb (le_ControlledState v) && negb (le_Rooted v) && negb (le_GravityDisabled v)
    && negb (le_NativeFlight v) && negb (le_VerticalMovementFlags v) && le_SplineInitialized v
    && (le_SplineId v =? nf_SplineId (ep_Fall e)) && le_NativeFallDestinationMatches v
    && negb (le_CurrentSplineFinalized v) && le_NativeFalling v
    && (le_CurrentMotionType v =? EFFECT_MOTION_TYPE)
    && (le_ControlledMotionType v =? EFFECT_MOTION_TYPE)
    && (le_ActiveMotionType v =? MAX_MOTION_TYPE).

(** What a tick does to the bot, and whether its update goes on. *)
Record TickResult : Type := mkTickResult {
  tr_SetFallFalse : bool;
  tr_MoveFall : bool;
  tr_Continue : bool;
  tr_Result : option ReconciliationResult;
  tr_Evidence : option LandingEvidence
}.

(** The observation of the vehicle, then the reconciliation of a pending exit,
    of a bot the server has provisioned. *)
Definition ObserveExit (e : Episode) (t : TickInput) : Episode :=
  ObserveVehicleTransition e (mkTransition (ti_Vehicle t).1 (ti_Vehicle t).2
    (actor_who (ti_Actor t) (ti_ScopeAvailable t) (ti_Scope t)) (ti_NowMs t)).

Definition ReconcileExit (e : Episode) (t : TickInput) : TickResult * Episode :=
  if negb (ep_ExitPending e) then (mkTickResult false false true None None, e)
  else
    let e := BindPendingVehicleExitReceipt e t in
    let build e a := BuildVehicleExitLandingEvidence e a (ti_ScopeAvailable t) (ti_Scope t) (ti_Progress t) in
    let v := build e (ti_Actor t) in
    let result := Resolve e v in
    let cleared := clears result in
    let starts := bool_decide (rr_Decision result = Decision_StartNativeFall) in
    let '(moveFall, result', e, a) :=
      if starts then (StartVehicleExitNativeFall e v (ti_Launched t) (ti_NowMs t), ti_Launched t)
      else ((false, result, e), ti_Actor t) in
    let v' := if starts then build e a else v in
    let e := RecordEvaluation e v' result' (ti_NowMs t) (ti_FlagsAfter t) in
    let e :=
      if clears result' then CloseEpisode e
      else
        let e := if rr_DropBoundReceipt result' then ResetBoundReceipt e else e in
        if bool_decide (rr_Decision result' = Decision_CloseEpisode) then CloseEpisode e else e in
    (mkTickResult cleared moveFall (negb (VehicleExitNativeFallOwnsMotion e a t)) (Some result') (Some v), e).

(** A ground movement that was launched, by the movement executor. *)
Record Launch : Type := mkLaunch {
  la_ReceiptId : Z;
  la_BotGuid : Z;
  la_MapId : Z;
  la_InstanceId : Z;
  la_NowMs : Z;
  la_Scope : Scope;
  la_Progress : Z -> Progress
}.

Definition BindVehicleExitGroundReceipt (e : Episode) (l : Launch) : Episode :=
  if negb (ep_ExitPending e) || negb (nz (la_ReceiptId l)) then e
  else (BindSubmittedGroundReceipt e (la_Progress l (la_ReceiptId l))).2.

Definition ExecuteLaunch (e : Episode) (l : Launch) : bool * Episode :=
  let '(remembered, e) := RememberGroundPointSubmission e (la_ReceiptId l) (la_BotGuid l) (la_MapId l)
    (la_InstanceId l) (la_NowMs l) (la_Scope l) in
  (remembered, BindVehicleExitGroundReceipt e l).

(** ** What an episode remembers *)

Inductive Step : Type := SObserve (t : TickInput) | SReconcile (t : TickInput) | SLaunch (l : Launch).

(** The movement as it was submitted. *)
Definition sent (s : Submitted) : Submitted :=
  mkSubmitted (su_ReceiptId s) (su_AtMs s) true (su_BotGuid s) (su_MapId s) (su_InstanceId s) (su_Scope s).

(** The episode after a history, and the ground movements it accepted. *)
Definition step (state : Episode * list Submitted) (s : Step) : Episode * list Submitted :=
  let '(e, log) := state in
  match s with
  | SObserve t => (ObserveExit e t, log)
  | SReconcile t => ((ReconcileExit e t).2, log)
  | SLaunch l =>
      let '(remembered, e') := ExecuteLaunch e l in
      (e', if remembered
           then log ++ [mkSubmitted (la_ReceiptId l) (la_NowMs l) true (la_BotGuid l) (la_MapId l)
                          (la_InstanceId l) (la_Scope l)]
           else log)
  end.

Definition run (steps : list Step) : Episode * list Submitted :=
  foldl step (Episode_default, []) steps.

(** A movement of this bot, here, in this scope where there is one. *)
Definition made_by (s : Submitted) (who : Who) : Prop :=
  same_place (su_BotGuid s) (su_MapId s) (su_InstanceId s) who = true /\
  (wh_ScopeAvailable who = true -> SameEpisodeScope (su_Scope s) (wh_Scope who) = true).

Definition bound_ok (e : Episode) (log : list Submitted) : Prop :=
  ep_BoundReceiptId e <> 0 -> ep_ExitPending e = true /\
  exists s, s ∈ log /\ su_ReceiptId s = ep_BoundReceiptId e /\ made_by s (ep_Exit e) /\
    su_AtMs s <= ep_BoundReceiptArmedAtMs e /\ ep_ExitObservedAtMs e <= ep_BoundReceiptArmedAtMs e.

Record landing_ok (e : Episode) (log : list Submitted) : Prop := {
  lo_sent : su_ReceiptId (ep_Submitted e) <> 0 -> sent (ep_Submitted e) ∈ log;
  lo_exit : su_ReceiptId (ep_Submitted e) <> 0 -> ep_ExitPending e = true ->
    made_by (ep_Submitted e) (ep_Exit e);
  lo_occupied : su_ReceiptId (ep_Submitted e) <> 0 -> ep_VehicleOccupiedLastTick e = true ->
    made_by (ep_Submitted e) (ep_Occupied e);
  lo_exclusive : ep_VehicleOccupiedLastTick e = true -> ep_ExitPending e = false;
  lo_bound : bound_ok e log;
  lo_fall : nf_SplineId (ep_Fall e) <> 0 -> ep_ExitPending e = true /\ nf_Attempted (ep_Fall e) = true
}.

Lemma landing_ok_default log : landing_ok Episode_default log.
Proof. by split. Qed.

Lemma landing_ok_log e log s : landing_ok e log -> landing_ok e (log ++ [s]).
Proof.
  intros [H1 H2 H3 H4 H5 H6]. split; try done.
  - intros H. specialize (H1 H). set_solver.
  - intros H. destruct (H5 H) as (? & s' & Hin & ?). split; [done|]. exists s'. split; [set_solver|done].
Qed.

(** Forgetting keeps the episode in order. *)
Ltac forget :=
  intros [H1 H2 H3 H4 H5 H6]; split; cbn; auto; try done; try by (intros []; done).

Lemma reset_submitted_ok e log : landing_ok e log -> landing_ok (ResetSubmittedReceipt e) log.
Proof. forget. Qed.

Lemma reset_bound_ok e log : landing_ok e log -> landing_ok (ResetBoundReceipt e) log.
Proof. forget. Qed.

Lemma stop_awaiting_ok e log : landing_ok e log -> landing_ok (stop_awaiting e) log.
Proof. forget. Qed.

Lemma set_last_ok e log last : landing_ok e log -> landing_ok (set_last e last) log.
Proof. forget. Qed.

Lemma close_ok e log : landing_ok e log -> landing_ok (CloseEpisode e) log.
Proof. forget. Qed.

Lemma RecordEvaluation_ok e v result nowMs flags log :
  landing_ok e log -> landing_ok (RecordEvaluation e v result nowMs flags) log.
Proof. apply set_last_ok. Qed.

Create HintDb landing.
#[export] Hint Resolve reset_submitted_ok reset_bound_ok stop_awaiting_ok RecordEvaluation_ok close_ok
  : landing.

Lemma same_place_eq g m i who :
  same_place g m i who = true <-> g = wh_BotGuid who /\ m = wh_MapId who /\ i = wh_InstanceId who.
Proof. unfold same_place. b2p. tauto. Qed.

Lemma SameEpisodeScope_eq a b : SameEpisodeScope a b = true <-> a = b.
Proof.
  destruct a, b. unfold SameEpisodeScope. cbn. b2p. split; [by intros [[[[-> ->] ->] ->] ->]|].
  intros [=]. by subst.
Qed.

(** Two guards of the source in one: here, and in the same scope. *)
Lemma place_guard g m i scope who (later : bool) :
  negb (same_place g m i who) || later || (wh_ScopeAvailable who && negb (SameEpisodeScope scope (wh_Scope who)))
  = false ->
  same_place g m i who = true /\ later = false /\
  (wh_ScopeAvailable who = true -> SameEpisodeScope scope (wh_Scope who) = true).
Proof. rewrite !orb_false_iff, negb_false_iff, andb_false_iff, negb_false_iff. naive_solver congruence. Qed.

(** The next refusal of a call: nothing changes. *)
Ltac refuse G :=
  lazymatch goal with |- context [if ?b then (false, _) else _] => destruct b eqn:G; [done|] end.

Lemma Remember_ok e log receiptId botGuid mapId instanceId atMs scope : landing_ok e log ->
  let '(remembered, e') :=
    RememberGroundPointSubmission e receiptId botGuid mapId instanceId atMs scope in
  landing_ok e' (if remembered
    then log ++ [mkSubmitted receiptId atMs true botGuid mapId instanceId scope] else log).
Proof.
  intros H. unfold RememberGroundPointSubmission. cbv zeta. refuse Ga. refuse Gx. refuse Go. refuse Gd. pose proof (landing_ok_log e log (mkSubmitted receiptId atMs true botGuid
    mapId instanceId scope) H) as [_ _ _ H4 H5 H6]. split; try done.
  - intros _. cbn. set_solver.
  - intros _ He. cbn in He. rewrite He in Gx. cbn in Gx.
    rewrite <- orb_assoc in Gx.
    destruct (place_guard botGuid mapId instanceId scope (ep_Exit e) (atMs <? ep_ExitObservedAtMs e)) as (? & _ & ?);
      [by rewrite <- orb_assoc|done].
  - intros _ Ho. cbn in Ho. rewrite Ho in Go. cbn in Go. apply orb_false_iff in Go as [Go G3%negb_false_iff].
    apply orb_false_iff in Go as [G1%negb_false_iff G2]. done.
Qed.

(** The transitions of the vehicle. *)
Lemma occupancy_made_by e o s : SameOccupancyIdentity e o = true ->
  made_by s (ep_Occupied e) -> made_by s (vt_Who o).
Proof.
  unfold SameOccupancyIdentity, made_by. rewrite !andb_true_iff, orb_true_iff, negb_true_iff, !same_place_eq.
  rewrite !SameEpisodeScope_eq. intros [[(E1 & E2 & E3) Ea%eqb_prop] Es] [(F1 & F2 & F3) Fs].
  rewrite F1, F2, F3. split; [done|]. intros Hw. rewrite Ea in Fs. rewrite (Fs Hw). destruct Es as [Es|Es]; congruence.
Qed.

Lemma ObserveVehicleTransition_ok e o log : landing_ok e log -> landing_ok (ObserveVehicleTransition e o) log.
Proof.
  intros H. pose proof H as [H1 H2 H3 H4 H5 H6]. unfold ObserveVehicleTransition. destruct (vt_HasVehicle o).
  - destruct (_ || _); [|done]. unfold BeginVehicleOccupancy. destruct (_ && _) eqn:Ec; split; cbn; auto; try done.
    intros _ _. rewrite !andb_true_iff in Ec. destruct Ec as [_ Ec].
    unfold SameSubmissionIdentity in Ec. rewrite !andb_true_iff in Ec. by destruct Ec as [[[_ ?] ?] _].
  - destruct (ep_VehicleOccupiedLastTick e) eqn:Eo; cbn [negb].
    + destruct (_ && _) eqn:Ec; split; cbn; auto; try done.
      intros Hs _. rewrite !andb_true_iff in Ec. destruct Ec as [[_ Ec] _].
      eapply occupancy_made_by; [exact Ec|]. auto.
    + destruct (_ && _); auto with landing.
Qed.

(** A binding takes the submitted movement. *)
Lemma BindGrounding_ok e r log s : landing_ok e log -> s ∈ log -> su_ReceiptId s = rb_ReceiptId r ->
  made_by s (ep_Exit e) -> su_AtMs s <= rb_ArmedAtMs r ->
  landing_ok (BindGroundingReceipt e r).2 log.
Proof.
  intros H Hs Hid Hmade Hat. unfold BindGroundingReceipt. cbv zeta.
  destruct (ep_ExitPending e) eqn:Ep; [|by cbn].
  refuse G1. refuse G2. refuse G3. refuse G4. apply orb_false_iff in G2 as [_ G2%Z.ltb_ge].
  destruct H as [H1 H2 H3 H4 H5 H6]. split; try done. intros _. split; [done|]. exists s. split_and!; done.
Qed.

Lemma BindSubmitted_ok e p log : landing_ok e log -> landing_ok (BindSubmittedGroundReceipt e p).2 log.
Proof.
  intros H. unfold BindSubmittedGroundReceipt. cbv zeta. refuse G1.
  apply orb_false_iff in G1 as [G1 Gid%negb_false_iff%Z.eqb_eq].
  destruct (nz _ || _); [by apply stop_awaiting_ok|]. refuse G2.
  apply orb_false_iff in G2 as [_ G2%Z.ltb_ge].
  destruct (_ <? _); [by apply reset_submitted_ok|].
  set (r := mkBinding _ _ _ _ _ _ _).
  assert (Hb : landing_ok (BindGroundingReceipt e r).2 log).
  { destruct (ep_ExitPending e) eqn:Ep; [|unfold BindGroundingReceipt; rewrite Ep; by cbn].
    destruct (decide (su_ReceiptId (ep_Submitted e) = 0)) as [E0|E0].
    - unfold BindGroundingReceipt. cbn [r rb_ReceiptId]. rewrite Gid, E0, Ep. by cbn.
    - apply (BindGrounding_ok e r log (sent (ep_Submitted e))); [done|by apply (lo_sent _ _ H)|done| |done].
      apply (lo_exit _ _ H); done. }
  destruct (BindGroundingReceipt e r) as [bound e']. destruct bound; cbn in *; auto with landing.
Qed.

Lemma BindPending_ok e t log : landing_ok e log -> landing_ok (BindPendingVehicleExitReceipt e t) log.
Proof.
  intros H. unfold BindPendingVehicleExitReceipt. destruct (_ || _); [done|].
  destruct (_ || _); [auto with landing|by apply BindSubmitted_ok].
Qed.

Lemma StartFall_ok e v launched nowMs log : landing_ok e log ->
  landing_ok (StartVehicleExitNativeFall e v launched nowMs).2 log.
Proof.
  intros H. unfold StartVehicleExitNativeFall. case_bool_decide as Hd; [|done]. cbn [negb].
  assert (Ep : ep_ExitPending e = true).
  { unfold Resolve in Hd. destruct (ep_ExitPending e); [done|]. by rewrite orb_true_r in Hd. }
  destruct H as [H1 H2 H3 H4 H5 H6]. cbn [snd].
  destruct (launched_spline v launched) as [s|]; [destruct (sl_FinalDestination s) as [[x y] z]|];
    split; cbn; auto.
Qed.

Lemma Reconcile_ok e t log : landing_ok e log -> landing_ok (ReconcileExit e t).2 log.
Proof.
  intros H. unfold ReconcileExit. destruct (negb _); [done|]. apply (BindPending_ok e t log) in H.
  set (e1 := BindPendingVehicleExitReceipt e t) in *. set (v := BuildVehicleExitLandingEvidence e1 _ _ _ _).
  pose proof (StartFall_ok e1 v (ti_Launched t) (ti_NowMs t) log H) as Hf.
  destruct (bool_decide (rr_Decision (Resolve e1 v) = _)).
  - destruct (StartVehicleExitNativeFall _ _ _ _) as [[moveFall r] e2]. cbn [snd] in *.
    cbv zeta. cbn [snd]. repeat split_guard; auto with landing.
  - cbv zeta. cbn [snd]. repeat split_guard; auto with landing.
Qed.

Lemma landing_run_ok steps : landing_ok (run steps).1 (run steps).2.
Proof.
  unfold run. induction steps as [|s steps IH] using rev_ind; [apply landing_ok_default|].
  rewrite foldl_app. cbn [foldl]. destruct (foldl step _ steps) as [e log]. cbn [fst snd] in IH.
  destruct s as [t|t|l]; cbn [step fst snd].
  - by apply ObserveVehicleTransition_ok.
  - by apply Reconcile_ok.
  - unfold ExecuteLaunch. pose proof (Remember_ok e log (la_ReceiptId l) (la_BotGuid l) (la_MapId l)
      (la_InstanceId l) (la_NowMs l) (la_Scope l) IH) as H.
    destruct (RememberGroundPointSubmission _ _ _ _ _ _ _) as [remembered e']. cbn [fst snd].
    unfold BindVehicleExitGroundReceipt. destruct (_ || _); [done|]. by apply BindSubmitted_ok.
Qed.

(** ** When the flags are cleared *)

(** The bot is the one that left, as itself, alive and on its own. *)
Definition free_actor (e : Episode) (t : TickInput) : Prop :=
  let a := ti_Actor t in
  ep_ExitPending e = true /\ has_flags (ac_Flags a) falling_flags = true /\
  (ac_Guid a = wh_BotGuid (ep_Exit e) /\ ac_MapId a = wh_MapId (ep_Exit e) /\
   ac_InstanceId a = wh_InstanceId (ep_Exit e)) /\
  ti_ScopeAvailable t = wh_ScopeAvailable (ep_Exit e) /\
  (ti_ScopeAvailable t = true -> ti_Scope t = wh_Scope (ep_Exit e)) /\
  ac_InWorld a = true /\ ac_Alive a = true /\ ac_HasVehicle a = false /\ ac_HasTransport a = false /\
  ac_GravityDisabled a = false /\ ac_InFlight a = false /\ ac_Controlled a = false.

(** It walked to the end of a ground movement of this exit. *)
Definition walked (e : Episode) (log : list Submitted) (t : TickInput) : Prop :=
  exists s sample, s ∈ log /\ made_by s (ep_Exit e) /\
    let p := ti_Progress t (su_ReceiptId s) in
    pg_ReceiptId p = su_ReceiptId s /\ ep_ExitObservedAtMs e <= pg_ArmedAtMs p /\
    su_AtMs s <= pg_ArmedAtMs p /\
    pg_Terminal p = true /\ pg_TerminalOutcome p = "selected_endpoint_reached"%string /\
    pg_SupersededByReceiptId p = 0 /\
    pg_LastSample p = Some sample /\ ps_EndpointReached sample = true /\ ps_FloorValid sample = true /\
    at_point (ti_Actor t) (pg_SelectedX p, pg_SelectedY p, pg_SelectedZ p) = true.

(** It fell to the floor by the native fall of this exit. *)
Definition fell (e : Episode) (t : TickInput) : Prop :=
  let a := ti_Actor t in
  exists s, ac_Spline a = Some s /\ nf_Attempted (ep_Fall e) = true /\ nf_SplineId (ep_Fall e) <> 0 /\
    sl_Id s = nf_SplineId (ep_Fall e) /\ sl_Finalized s = true /\
    same_point (sl_FinalDestination s) (fall_destination (ep_Fall e)) = true /\
    at_point a (fall_destination (ep_Fall e)) = true /\
    (native_floor a).1.1 = true /\
    f32_gt (f32_abs (native_floor a).2) NativePathEndpointVerticalTolerance = false.

Lemma if_same {A} (b : bool) (x : A) : (if b then x else x) = x.
Proof. by destruct b. Qed.

(** Every guard before the flag is cleared was passed. *)
Ltac passed H :=
  repeat (split_guard_in H; try discriminate H); clear H;
  rewrite ?orb_false_iff, ?andb_true_iff, ?negb_false_iff, ?negb_true_iff, ?Z.eqb_eq, ?Z.ltb_ge,
    ?String.eqb_eq, ?nz_true, ?nz_false in *.

(** The next guard of a decision that cleared the flag. *)
Ltac unguard H G :=
  lazymatch type of H with
  | clears (if ?b then _ else _) = true => destruct b eqn:G; [discriminate H|]
  end.

Lemma ResolveReceipt_clears e v : clears (ResolveReceipt e v) = true ->
  ep_BoundReceiptId e <> 0 /\ le_ReceiptAvailable v = true /\ le_ReceiptId v = ep_BoundReceiptId e /\
  ep_ExitObservedAtMs e <= le_ReceiptArmedAtMs v /\ le_ReceiptArmedAtMs v = ep_BoundReceiptArmedAtMs e /\
  le_ReceiptSuperseded v = false /\ le_ReceiptTerminal v = true /\
  le_ReceiptTerminalOutcome v = "selected_endpoint_reached"%string /\
  le_TerminalSampleAvailable v = true /\ le_TerminalEndpointReached v = true /\
  le_TerminalFloorValid v = true /\ le_CurrentEndpointMatches v = true.
Proof. unfold ResolveReceipt. cbv zeta. intros H. passed H. tauto. Qed.

Lemma ResolveNativeFall_clears e v : clears (ResolveNativeFall e v) = true ->
  nf_Attempted (ep_Fall e) = true /\ nf_SplineId (ep_Fall e) <> 0 /\
  le_SplineId v = nf_SplineId (ep_Fall e) /\ le_NativeFallDestinationMatches v = true /\
  le_CurrentSplineFinalized v = true /\ le_SplineInitialized v = true /\ le_NativeFloorValid v = true /\
  le_NativeFallEndpointMatches v = true /\
  f32_gt (f32_abs (le_NativeFloorGap v)) NativePathEndpointVerticalTolerance = false.
Proof.
  unfold ResolveNativeFall. cbv zeta. intros H.
  destruct (nf_Attempted (ep_Fall e)) eqn:Ea, (nz (nf_SplineId (ep_Fall e))) eqn:En; cbn [negb andb] in H;
    passed H; try done; tauto.
Qed.

Lemma Resolve_clears e v : clears (Resolve e v) = true ->
  ep_ExitPending e = true /\
  same_place (wh_BotGuid (le_Who v)) (wh_MapId (le_Who v)) (wh_InstanceId (le_Who v)) (ep_Exit e) = true /\
  wh_ScopeAvailable (le_Who v) = wh_ScopeAvailable (ep_Exit e) /\
  (wh_ScopeAvailable (ep_Exit e) = true ->
     SameEpisodeScope (wh_Scope (le_Who v)) (wh_Scope (ep_Exit e)) = true) /\
  le_FallingFlagsPresent v = true /\ le_ActorInWorld v = true /\ le_ActorAlive v = true /\
  le_HasVehicle v = false /\ le_HasTransport v = false /\ le_GravityDisabled v = false /\
  le_NativeFlight v = false /\ le_ControlledState v = false /\
  (clears (ResolveReceipt e v) = true \/
   ep_BoundReceiptId e = 0 /\ su_ReceiptId (ep_Submitted e) = 0 /\ clears (ResolveNativeFall e v) = true).
Proof.
  unfold Resolve. cbv zeta. intros H. unguard H G1. unguard H G2. unguard H G3. unguard H G4. unguard H G5. unguard H G6.
  unguard H G7. rewrite ?orb_false_iff, ?andb_false_iff, ?negb_false_iff in *.
  destruct G2 as [[? ?%eqb_prop] Gs]. split_and!; try tauto; try done.
  - intros E. destruct Gs; congruence.
  - destruct (_ && _) eqn:En; [right|by left].
    rewrite !andb_true_iff, !negb_true_iff, !nz_false in En. tauto.
Qed.

(** What the evidence was built from. *)
Lemma Build_shape e a scopeAvailable scope progress : exists nativeFall floor fallEndpoint fallDestination receipt,
  BuildVehicleExitLandingEvidence e a scopeAvailable scope progress
  = evidence_of a (actor_who a scopeAvailable scope) nativeFall floor fallEndpoint fallDestination receipt.
Proof. unfold BuildVehicleExitLandingEvidence. cbv zeta. repeat case_match; do 5 eexists; reflexivity. Qed.

Lemma evidence_state a who n floor fe fd r : let v := evidence_of a who n floor fe fd r in
  le_Who v = who /\ le_FallingFlagsPresent v = has_flags (ac_Flags a) falling_flags /\
  le_ActorInWorld v = ac_InWorld a /\ le_ActorAlive v = ac_Alive a /\ le_HasVehicle v = ac_HasVehicle a /\
  le_HasTransport v = ac_HasTransport a /\ le_GravityDisabled v = ac_GravityDisabled a /\
  le_NativeFlight v = ac_InFlight a /\ le_ControlledState v = ac_Controlled a.
Proof. unfold evidence_of. by destruct (default _ (ac_Motion a)) as [[??]?]. Qed.

Lemma evidence_receipt a who n floor fe fd p endpoint :
  let v := evidence_of a who n floor fe fd (Some (p, endpoint)) in
  le_ReceiptId v = pg_ReceiptId p /\ le_ReceiptArmedAtMs v = pg_ArmedAtMs p /\
  le_ReceiptSuperseded v = nz (pg_SupersededByReceiptId p) /\ le_ReceiptTerminal v = pg_Terminal p /\
  le_ReceiptTerminalOutcome v = pg_TerminalOutcome p /\ le_CurrentEndpointMatches v = endpoint /\
  (le_TerminalEndpointReached v = true -> exists sample, pg_LastSample p = Some sample /\
     ps_EndpointReached sample = true /\ le_TerminalFloorValid v = ps_FloorValid sample).
Proof.
  unfold evidence_of. destruct (default _ (ac_Motion a)) as [[??]?]. cbn.
  destruct (pg_LastSample p); naive_solver.
Qed.

Lemma evidence_fall a who floor fe fd s : ac_Spline a = Some s -> sl_Initialized s = true ->
  let v := evidence_of a who true floor fe fd None in
  le_SplineId v = sl_Id s /\ le_CurrentSplineFinalized v = sl_Finalized s /\
  le_NativeFloorValid v = floor.1.1 /\ le_NativeFloorGap v = floor.2 /\
  le_NativeFallEndpointMatches v = fe /\ le_NativeFallDestinationMatches v = fd.
Proof.
  intros Hs Hi. unfold evidence_of. destruct (default _ (ac_Motion a)) as [[??]?]. rewrite Hs. cbn.
  by rewrite Hi.
Qed.

(** The receipt of the evidence is the one that is bound. *)
Lemma Build_receipt e a scopeAvailable scope progress : ep_BoundReceiptId e <> 0 ->
  let v := BuildVehicleExitLandingEvidence e a scopeAvailable scope progress in
  le_ReceiptAvailable v = true -> let p := progress (ep_BoundReceiptId e) in
  exists floor, v = evidence_of a (actor_who a scopeAvailable scope) false floor false false
                (Some (p, at_point a (pg_SelectedX p, pg_SelectedY p, pg_SelectedZ p))).
Proof.
  intros Hb. unfold BuildVehicleExitLandingEvidence. cbv zeta. apply nz_true in Hb as ->. cbn [negb].
  destruct (negb _); [|eauto]. unfold evidence_of. by destruct (default _ (ac_Motion a)) as [[??]?].
Qed.

Lemma Resolve_walked e t log v : landing_ok e log ->
  v = BuildVehicleExitLandingEvidence e (ti_Actor t) (ti_ScopeAvailable t) (ti_Scope t) (ti_Progress t) ->
  clears (ResolveReceipt e v) = true -> walked e log t.
Proof.
  intros H Hv (Hb & Ha & Hid & Hx & Harm & Hsup & Hterm & Hout & _ & Hend & Hfl & Hcur)%ResolveReceipt_clears.
  destruct (lo_bound _ _ H Hb) as (_ & s & Hin & Es & Hmade & Hat & _). rewrite Hv in Ha.
  apply Build_receipt in Ha as [floor Ev]; [|done]. rewrite <- Hv in Ev.
  destruct (evidence_receipt (ti_Actor t) (actor_who (ti_Actor t) (ti_ScopeAvailable t) (ti_Scope t)) false
    floor false false (ti_Progress t (ep_BoundReceiptId e))
    (at_point (ti_Actor t) (pg_SelectedX (ti_Progress t (ep_BoundReceiptId e)),
       pg_SelectedY (ti_Progress t (ep_BoundReceiptId e)), pg_SelectedZ (ti_Progress t (ep_BoundReceiptId e)))))
    as (E1 & E2 & E3 & E4 & E5 & E6 & E7). rewrite <- Ev in *.
  destruct (E7 Hend) as (sample & Hs & Hr & Hf). exists s, sample. rewrite Es. cbv zeta.
  apply nz_false in Hsup || rewrite E3 in Hsup; rewrite ?nz_false in Hsup.
  split_and!; first [done | congruence | lia].
Qed.

Lemma Resolve_fell e t v :
  v = BuildVehicleExitLandingEvidence e (ti_Actor t) (ti_ScopeAvailable t) (ti_Scope t) (ti_Progress t) ->
  ep_BoundReceiptId e = 0 -> clears (ResolveNativeFall e v) = true -> fell e t.
Proof.
  intros Hv Hb (Ha & Hid & Hs & Hd & Hf & Hi & Hfl & He & Hg)%ResolveNativeFall_clears.
  unfold BuildVehicleExitLandingEvidence in Hv. rewrite Hb in Hv. cbn [nz] in Hv. cbv zeta in Hv.
  apply nz_true in Hid as Hid'. rewrite Hid' in Hv. cbn in Hv.
  destruct (ac_Spline (ti_Actor t)) as [s|] eqn:Es; [destruct (sl_Initialized s) eqn:Ei|].
  - destruct (evidence_fall (ti_Actor t) (actor_who (ti_Actor t) (ti_ScopeAvailable t) (ti_Scope t))
      (native_floor (ti_Actor t)) (at_point (ti_Actor t) (fall_destination (ep_Fall e)))
      (same_point (sl_FinalDestination s) (fall_destination (ep_Fall e))) s Es Ei) as (E1 & E2 & E3 & E4 & E5 & E6).
    rewrite <- Hv in *. exists s. split_and!; first [done | congruence].
  - subst v. cbn in Hd. unfold evidence_of in Hd. by destruct (default _ (ac_Motion (ti_Actor t))) as [[??]?].
  - subst v. cbn in Hd. unfold evidence_of in Hd. by destruct (default _ (ac_Motion (ti_Actor t))) as [[??]?].
Qed.

(** C8. The falling flags a vehicle left behind are cleared only for the bot that
    left it: the same bot, on the map, in the instance and in the scope of its
    exit, still falling by its flags, alive and on its own. It has either
    reached the end of a ground movement that was submitted for this exit, that
    was armed after the exit and was not superseded, or ended on the floor of
    the native fall that was started for this exit. *)
Theorem landing_cleared steps t : let '(e, log) := run steps in
  tr_SetFallFalse (ReconcileExit e t).1 = true ->
  let e1 := BindPendingVehicleExitReceipt e t in
  free_actor e1 t /\ (walked e1 log t \/ fell e1 t).
Proof.
  pose proof (landing_run_ok steps) as H. destruct (run steps) as [e log]. cbn [fst snd] in H. intros Hc. cbv zeta.
  unfold ReconcileExit in Hc. destruct (negb _); [done|].
  apply (BindPending_ok e t log) in H. set (e1 := BindPendingVehicleExitReceipt e t) in *.
  set (v := BuildVehicleExitLandingEvidence e1 _ _ _ _) in Hc.
  assert (Hr : clears (Resolve e1 v) = true).
  { destruct (bool_decide (rr_Decision (Resolve e1 v) = _)); [|done].
    by destruct (StartVehicleExitNativeFall _ _ _ _) as [[??]?]. }
  apply Resolve_clears in Hr as (Hp & Hpl & Hsa & Hsc & Hfl & Hw & Hal & Hv & Ht & Hg & Hn & Hct & Hwhy).
  split.
  - destruct (Build_shape e1 (ti_Actor t) (ti_ScopeAvailable t) (ti_Scope t) (ti_Progress t))
      as (n & floor & fe & fd & r & Es). fold v in Es.
    destruct (evidence_state (ti_Actor t) (actor_who (ti_Actor t) (ti_ScopeAvailable t) (ti_Scope t)) n floor fe fd r)
      as (E1 & E2 & E3 & E4 & E5 & E6 & E7 & E8 & E9). rewrite <- Es in *. rewrite E1 in *.
    apply same_place_eq in Hpl as (P1 & P2 & P3). cbn in *.
    setoid_rewrite SameEpisodeScope_eq in Hsc. unfold free_actor. rewrite <- Hsa in *.
    split_and!; first [done | congruence].
  - destruct Hwhy as [Hwhy | (Hb & _ & Hwhy)]; [left; by eapply Resolve_walked|right; by eapply Resolve_fell].
Qed.

(** A bot that left vehicle 9, walked two yards and stands there. *)
Definition toy_scope : Scope := mkScope 1 2 3 669 5.
Definition toy_progress (receiptId : Z) : Progress :=
  mkProgress true receiptId 7 669 5 toy_scope f32_zero f32_zero f32_zero true 44 300 true
    "selected_endpoint_reached" 0 (Some (mkSample receiptId true true true true true true)).
Definition toy_actor : Actor :=
  mkActor 7 669 5 true true false false false false false false MOVEMENTFLAG_FALLING
    (Some (mkSpline true 44 true false (f32_zero, f32_zero, f32_zero)))
    (Some (IDLE_MOTION_TYPE, MAX_MOTION_TYPE, MAX_MOTION_TYPE)) (f32_zero, f32_zero, f32_zero) f32_zero f32_zero.
Definition toy_tick (hasVehicle : bool) (nowMs : Z) : TickInput :=
  mkTick toy_actor (hasVehicle, 9) true toy_scope toy_progress toy_actor 0 nowMs.
Definition toy_steps : list Step :=
  [SObserve (toy_tick true 100); SObserve (toy_tick false 200); SLaunch (mkLaunch 21 7 669 5 250 toy_scope toy_progress)].

Lemma landing_cleared_witness : let '(e, log) := run toy_steps in
  tr_SetFallFalse (ReconcileExit e (toy_tick false 400)).1 = true /\
  walked (BindPendingVehicleExitReceipt e (toy_tick false 400)) log (toy_tick false 400).
Proof.
  assert (Hc : tr_SetFallFalse (ReconcileExit (run toy_steps).1 (toy_tick false 400)).1 = true) by by vm_compute.
  pose proof (landing_cleared toy_steps (toy_tick false 400)) as H.
  destruct (run toy_steps) as [e log] eqn:E. cbn [fst] in Hc. destruct (H Hc) as [_ [Hw | Hf]]; [by split|].
  exfalso. destruct Hf as (s & _ & Ha & _). vm_compute in E. injection E as <- <-. vm_compute in Ha. discriminate.
Defined.
