(* ===== verification/Rbac.v ===== *)
(** Who may do what: role based access control
    ([Accounts/RBAC.cpp], [Accounts/RBAC.h], the loading of its tables in
    [Accounts/AccountMgr.cpp], the statements of
    [LoginDatabase.cpp] and the lazy loading of [Server/WorldSession.cpp]). *)
From S2P Require Import Prelude.
From Stdlib Require Import ZArith Lia String.
From stdpp Require Import base gmap list list_numbers strings sorting.

Open Scope Z_scope.
Open Scope tc_scope.

(** ** The permissions and their links *)

Inductive RBACCommandResult : Type :=
| RBAC_OK | RBAC_CANT_ADD_ALREADY_ADDED | RBAC_CANT_REVOKE_NOT_IN_LIST | RBAC_IN_GRANTED_LIST
| RBAC_IN_DENIED_LIST | RBAC_ID_DOES_NOT_EXISTS.

#[export] Instance RBACCommandResult_eq_dec : EqDecision RBACCommandResult.
Proof. solve_decision. Defined.

Record RBACPermission : Type := mkPermission { pm_id : Z; pm_name : string; pm_perms : gset Z }.

Definition AddLinkedPermission (id : Z) (permission : RBACPermission) : RBACPermission :=
  mkPermission (pm_id permission) (pm_name permission) ({[id]} ∪ pm_perms permission).

(** A row of [_permissions] is a pointer, which [operator[]] makes null. *)
Record AccountMgr : Type := mkMgr {
  _permissions : gmap Z (option RBACPermission);
  _defaultPermissions : gmap Z (gset Z)
}.

Definition GetRBACPermission (mgr : AccountMgr) (permissionId : Z) : option RBACPermission :=
  mjoin (_permissions mgr !! permissionId).

Definition GetRBACDefaultPermissions (mgr : AccountMgr) (secLevel : Z) : gset Z :=
  default ∅ (_defaultPermissions mgr !! secLevel).

Definition ClearRBAC (mgr : AccountMgr) : AccountMgr := mkMgr ∅ ∅.

(** The rows of [rbac_permissions]. *)
Definition add_permission (permissions : gmap Z (option RBACPermission)) (row : Z * string)
    : gmap Z (option RBACPermission) :=
  <[row.1 := Some (mkPermission row.1 row.2 ∅)]> permissions.

(** The loop over [rbac_linked_permissions], with [permissionId] and whether
    [permission] points to its row; [None] where a null pointer is followed. *)
Fixpoint load_links (permissions : gmap Z (option RBACPermission)) (permissionId : Z) (points : bool)
    (rows : list (Z * Z)) : option (gmap Z (option RBACPermission)) :=
  match rows with
  | [] => Some permissions
  | (newId, linkedPermissionId) :: rows =>
      let '(permissions, points) :=
        if negb (permissionId =? newId) then
          (match permissions !! newId with Some _ => permissions | None => <[newId := None]> permissions end,
           bool_decide (is_Some (mjoin (permissions !! newId))))
        else (permissions, points) in
      if linkedPermissionId =? newId then load_links permissions newId points rows
      else
        match (if points then mjoin (permissions !! newId) else None) with
        | Some permission =>
            load_links (<[newId := Some (AddLinkedPermission linkedPermissionId permission)]> permissions)
              newId points rows
        | None => None
        end
  end.

(** A row of [rbac_default_permissions] of this realm; [secId] is a [uint8]. *)
Definition add_default (defaults : gmap Z (gset Z)) (row : Z * Z) : gmap Z (gset Z) :=
  <[u8 row.1 := {[row.2]} ∪ default ∅ (defaults !! u8 row.1)]> defaults.

(** The tables as the three queries answer; an empty one ends the load. *)
Definition LoadRBAC (mgr : AccountMgr) (permissionRows : list (Z * string)) (linkRows : list (Z * Z))
    (defaultRows : list (Z * Z)) : option AccountMgr :=
  let mgr := ClearRBAC mgr in
  let permissions := foldl add_permission (_permissions mgr) permissionRows in
  match permissionRows, linkRows with
  | [], _ => Some mgr
  | _, [] => Some (mkMgr permissions (_defaultPermissions mgr))
  | _, _ =>
      permissions ← load_links permissions 0 false linkRows;
      Some (mkMgr permissions (foldl add_default (_defaultPermissions mgr) defaultRows))
  end.

(** ** The table of what accounts were granted and denied *)

(** [rbac_account_permissions] by account, permission and realm. *)
Notation AccountPermissions := (gmap (Z * Z * Z) bool).

(** [LOGIN_SEL_RBAC_ACCOUNT_PERMISSIONS]: the permissions and whether they are
    granted, ordered by permission and realm. *)
Definition row_before (a b : Z * Z * Z * bool) : bool :=
  (a.1.1.2 <? b.1.1.2) || ((a.1.1.2 =? b.1.1.2) && (a.1.2 <? b.1.2)).

Definition row_matches (accountId realmId : Z) (row : Z * Z * Z * bool) : bool :=
  (row.1.1.1 =? accountId) && ((row.1.2 =? realmId) || (row.1.2 =? -1)).

Definition SelectAccountPermissions (db : AccountPermissions) (accountId realmId : Z) : list (Z * bool) :=
  (fun row => (row.1.1.2, row.2)) <$>
    stable_sort row_before (List.filter (row_matches accountId realmId) (map_to_list db)).

(** [LOGIN_INS_RBAC_ACCOUNT_PERMISSION]. *)
Definition InsertAccountPermission (accountId permissionId : Z) (granted : bool) (realmId : Z)
    (db : AccountPermissions) : AccountPermissions :=
  <[(accountId, permissionId, realmId) := granted]> db.

(** [LOGIN_DEL_RBAC_ACCOUNT_PERMISSION]. *)
Definition DeleteAccountPermission (accountId permissionId realmId : Z) (db : AccountPermissions)
    : AccountPermissions :=
  delete (accountId, permissionId, -1) (delete (accountId, permissionId, realmId) db).

(** ** What inherits *)

(** [*toCheck.begin()]. *)
Definition begin (perms : gset Z) : option Z :=
  match elements perms with [] => None | x :: l => Some (foldr Z.min x l) end.

(** One round of [ExpandPermissions]: [toCheck] and [permissions]. *)
Definition expand_step (mgr : AccountMgr) (state : gset Z * gset Z) : gset Z * gset Z :=
  let '(toCheck, permissions) := state in
  match begin toCheck with
  | None => state
  | Some permissionId =>
      let toCheck := toCheck ∖ {[permissionId]} in
      match GetRBACPermission mgr permissionId with
      | None => (toCheck, permissions)
      | Some permission =>
          let permissions := {[permissionId]} ∪ permissions in
          (toCheck ∪ (pm_perms permission ∖ permissions), permissions)
      end
  end.

Fixpoint expand_loop (fuel : nat) (mgr : AccountMgr) (state : gset Z * gset Z) : gset Z * gset Z :=
  match fuel with
  | O => state
  | S fuel => if bool_decide (state.1 = ∅) then state else expand_loop fuel mgr (expand_step mgr state)
  end.

(** The links of the permissions that are not expanded yet. *)
Definition link_count (mgr : AccountMgr) (permissionId : Z) : nat :=
  match GetRBACPermission mgr permissionId with Some p => size (pm_perms p) | None => 0 end.

Definition links_left (mgr : AccountMgr) (permissions : gset Z) : nat :=
  sum_list_with (link_count mgr) (elements (dom (_permissions mgr) ∖ permissions)).

Definition ExpandPermissions (mgr : AccountMgr) (permissions : gset Z) : gset Z :=
  (expand_loop (size permissions + links_left mgr ∅) mgr (permissions, ∅)).2.

(** ** An account's data *)

Record RBACData : Type := mkData {
  _id : Z;
  _realmId : Z;
  _secLevel : Z;
  _grantedPerms : gset Z;
  _deniedPerms : gset Z;
  _globalPerms : gset Z
}.

Definition RBACData_new (id realmId secLevel : Z) : RBACData := mkData id realmId secLevel ∅ ∅ ∅.

Definition HasPermission (permission : Z) (d : RBACData) : bool := bool_decide (permission ∈ _globalPerms d).
Definition HasGrantedPermission (permissionId : Z) (d : RBACData) : bool :=
  bool_decide (permissionId ∈ _grantedPerms d).
Definition HasDeniedPermission (permissionId : Z) (d : RBACData) : bool :=
  bool_decide (permissionId ∈ _deniedPerms d).

Definition set_lists (d : RBACData) (granted denied : gset Z) : RBACData :=
  mkData (_id d) (_realmId d) (_secLevel d) granted denied (_globalPerms d).

Definition AddGrantedPermission (permissionId : Z) (d : RBACData) : RBACData :=
  set_lists d ({[permissionId]} ∪ _grantedPerms d) (_deniedPerms d).
Definition RemoveGrantedPermission (permissionId : Z) (d : RBACData) : RBACData :=
  set_lists d (_grantedPerms d ∖ {[permissionId]}) (_deniedPerms d).
Definition AddDeniedPermission (permissionId : Z) (d : RBACData) : RBACData :=
  set_lists d (_grantedPerms d) ({[permissionId]} ∪ _deniedPerms d).
Definition RemoveDeniedPermission (permissionId : Z) (d : RBACData) : RBACData :=
  set_lists d (_grantedPerms d) (_deniedPerms d ∖ {[permissionId]}).

Definition RemovePermissions (permsFrom permsToRemove : gset Z) : gset Z := permsFrom ∖ permsToRemove.

Definition CalculateNewPermissions (mgr : AccountMgr) (d : RBACData) : RBACData :=
  mkData (_id d) (_realmId d) (_secLevel d) (_grantedPerms d) (_deniedPerms d)
    (RemovePermissions (ExpandPermissions mgr (_grantedPerms d)) (ExpandPermissions mgr (_deniedPerms d))).

Definition ClearData (d : RBACData) : RBACData := mkData (_id d) (_realmId d) (_secLevel d) ∅ ∅ ∅.

(** [SavePermission] when the realm is not 0. *)
Definition SavePermission (d : RBACData) (permission : Z) (granted : bool) (realmId : Z)
    (db : AccountPermissions) : AccountPermissions :=
  InsertAccountPermission (_id d) permission granted realmId db.

Definition GrantPermission (mgr : AccountMgr) (permissionId realmId : Z)
    (state : RBACData * AccountPermissions) : RBACCommandResult * (RBACData * AccountPermissions) :=
  let '(d, db) := state in
  match GetRBACPermission mgr permissionId with
  | None => (RBAC_ID_DOES_NOT_EXISTS, state)
  | Some _ =>
      if HasDeniedPermission permissionId d then (RBAC_IN_DENIED_LIST, state)
      else if HasGrantedPermission permissionId d then (RBAC_CANT_ADD_ALREADY_ADDED, state)
      else
        let d := AddGrantedPermission permissionId d in
        (RBAC_OK,
         if nz realmId
         then (CalculateNewPermissions mgr d, SavePermission d permissionId true realmId db)
         else (d, db))
  end.

Definition DenyPermission (mgr : AccountMgr) (permissionId realmId : Z)
    (state : RBACData * AccountPermissions) : RBACCommandResult * (RBACData * AccountPermissions) :=
  let '(d, db) := state in
  match GetRBACPermission mgr permissionId with
  | None => (RBAC_ID_DOES_NOT_EXISTS, state)
  | Some _ =>
      if HasGrantedPermission permissionId d then (RBAC_IN_GRANTED_LIST, state)
      else if HasDeniedPermission permissionId d then (RBAC_CANT_ADD_ALREADY_ADDED, state)
      else
        let d := AddDeniedPermission permissionId d in
        (RBAC_OK,
         if nz realmId
         then (CalculateNewPermissions mgr d, SavePermission d permissionId false realmId db)
         else (d, db))
  end.

Definition RevokePermission (mgr : AccountMgr) (permissionId realmId : Z)
    (state : RBACData * AccountPermissions) : RBACCommandResult * (RBACData * AccountPermissions) :=
  let '(d, db) := state in
  if negb (HasGrantedPermission permissionId d) && negb (HasDeniedPermission permissionId d)
  then (RBAC_CANT_REVOKE_NOT_IN_LIST, state)
  else
    let d := RemoveDeniedPermission permissionId (RemoveGrantedPermission permissionId d) in
    (RBAC_OK,
     if nz realmId
     then (CalculateNewPermissions mgr d, DeleteAccountPermission (_id d) permissionId realmId db)
     else (d, db)).

(** A row of the result, then the defaults of the security level: with realm 0,
    so nothing is written. *)
Definition load_row (mgr : AccountMgr) (d : RBACData) (row : Z * bool) : RBACData :=
  (if row.2 then GrantPermission mgr row.1 0 (d, ∅) else DenyPermission mgr row.1 0 (d, ∅)).2.1.

Definition load_default (mgr : AccountMgr) (d : RBACData) (permissionId : Z) : RBACData :=
  (GrantPermission mgr permissionId 0 (d, ∅)).2.1.

Definition LoadFromDBCallback (mgr : AccountMgr) (result : list (Z * bool)) (d : RBACData) : RBACData :=
  CalculateNewPermissions mgr
    (foldl (load_default mgr) (foldl (load_row mgr) d result)
       (elements (GetRBACDefaultPermissions mgr (_secLevel d)))).

Definition LoadFromDB (mgr : AccountMgr) (db : AccountPermissions) (d : RBACData) : RBACData :=
  let d := ClearData d in
  LoadFromDBCallback mgr (SelectAccountPermissions db (_id d) (_realmId d)) d.

Definition SetSecurityLevel (mgr : AccountMgr) (db : AccountPermissions) (id : Z) (d : RBACData) : RBACData :=
  LoadFromDB mgr db (mkData (_id d) (_realmId d) id (_grantedPerms d) (_deniedPerms d) (_globalPerms d)).

(** [AccountMgr::HasPermission] of an account that may be offline; its
    security level is read from the database. *)
Definition AccountHasPermission (mgr : AccountMgr) (db : AccountPermissions)
    (accountId permissionId realmId secLevel : Z) : bool :=
  if negb (nz accountId) then false
  else HasPermission permissionId (LoadFromDB mgr db (RBACData_new accountId realmId secLevel)).

(** ** A session's data, loaded when it is asked for *)

Record Session : Type := mkSession {
  ss_accountId : Z; ss_security : Z; ss_realmId : Z; ss_RBACData : option RBACData }.

Definition set_data (s : Session) (d : option RBACData) : Session :=
  mkSession (ss_accountId s) (ss_security s) (ss_realmId s) d.

Definition LoadPermissions (mgr : AccountMgr) (db : AccountPermissions) (s : Session) : Session :=
  set_data s (Some (LoadFromDB mgr db (RBACData_new (ss_accountId s) (ss_realmId s) (ss_security s)))).

Definition SessionHasPermission (mgr : AccountMgr) (db : AccountPermissions) (permission : Z) (s : Session)
    : bool * Session :=
  let s := match ss_RBACData s with None => LoadPermissions mgr db s | Some _ => s end in
  (match ss_RBACData s with Some d => HasPermission permission d | None => false end, s).

Definition InvalidateRBACData (s : Session) : Session := set_data s None.
