(* ===== verification/RbacSpec.v ===== *)
(** What [Rbac] promises: expansion is inheritance, an account may do what it
    is granted and not denied, and what is granted in a session is what a
    reload grants. *)
From S2P Require Import Prelude Rbac.
From Stdlib Require Import ZArith Lia String.
From stdpp Require Import base gmap list list_numbers relations sorting.

Open Scope Z_scope.
Open Scope tc_scope.

(** ** Inheritance *)

Definition known (mgr : AccountMgr) (p : Z) : Prop := is_Some (GetRBACPermission mgr p).

(** A permission has another one linked. *)
Definition link (mgr : AccountMgr) (a b : Z) : Prop :=
  exists permission, GetRBACPermission mgr a = Some permission /\ b ∈ pm_perms permission.

(** A permission that exists is reached over links from one of a set. *)
Definition inherits (mgr : AccountMgr) (from : gset Z) (p : Z) : Prop :=
  known mgr p /\ exists a, a ∈ from /\ rtc (link mgr) a p.

Lemma begin_elem (s : gset Z) x : begin s = Some x -> x ∈ s.
Proof.
  unfold begin. destruct (elements s) as [|y l] eqn:E; [done|]. intros [= <-].
  apply elem_of_elements. rewrite E. clear E. induction l as [|z l IH]; cbn; [set_solver|].
  destruct (Z.min_spec z (foldr Z.min y l)) as [[_ ->]|[_ ->]]; set_solver.
Qed.

Lemma begin_none (s : gset Z) : begin s = None -> s = ∅.
Proof.
  unfold begin. destruct (elements s) as [|y l] eqn:E; [|done]. intros _.
  by apply elements_empty_iff in E; apply leibniz_equiv.
Qed.

(** ** The expansion ends *)

Lemma known_dom mgr p : known mgr p -> p ∈ dom (_permissions mgr).
Proof.
  unfold known, GetRBACPermission. intros [x H]. apply elem_of_dom.
  destruct (_permissions mgr !! p); [done|by cbn in H].
Qed.

Lemma links_left_expand mgr p perms : known mgr p -> p ∉ perms ->
  links_left mgr perms = (link_count mgr p + links_left mgr ({[p]} ∪ perms))%nat.
Proof.
  intros Hk%known_dom Hp. unfold links_left.
  assert (E : dom (_permissions mgr) ∖ perms = {[p]} ∪ (dom (_permissions mgr) ∖ ({[p]} ∪ perms))).
  { apply leibniz_equiv. intros x. destruct (decide (x = p)); set_solver. }
  rewrite E at 1. rewrite elements_union_singleton by set_solver. done.
Qed.

(** What is still to be done. *)
Definition left_to_do (mgr : AccountMgr) (state : gset Z * gset Z) : nat :=
  size state.1 + links_left mgr state.2.

Lemma expand_step_decreases mgr state : state.1 ## state.2 -> state.1 <> ∅ ->
  (expand_step mgr state).1 ## (expand_step mgr state).2 /\
  (left_to_do mgr (expand_step mgr state) < left_to_do mgr state)%nat.
Proof.
  destruct state as [toCheck perms]. unfold expand_step, left_to_do. cbn [fst snd]. intros Hd Hne.
  destruct (begin toCheck) as [p|] eqn:Eb; [|by apply begin_none in Eb].
  apply begin_elem in Eb. assert (Hs : size toCheck = S (size (toCheck ∖ {[p]}))).
  { rewrite (union_difference_L {[p]} toCheck) at 1 by set_solver.
    rewrite size_union by set_solver. by rewrite size_singleton. }
  destruct (GetRBACPermission mgr p) as [permission|] eqn:Ep; cbn [fst snd]; [|split; [set_solver|lia]].
  split; [set_solver|]. rewrite (links_left_expand mgr p perms); [|by exists permission|set_solver].
  assert (Hl : link_count mgr p = size (pm_perms permission)) by (unfold link_count; by rewrite Ep).
  pose proof (size_union_alt (toCheck ∖ {[p]}) (pm_perms permission ∖ ({[p]} ∪ perms))) as Hu.
  pose proof (subseteq_size (pm_perms permission ∖ ({[p]} ∪ perms) ∖ (toCheck ∖ {[p]})) (pm_perms permission)
    ltac:(set_solver)). lia.
Qed.

Lemma expand_loop_ends mgr fuel state : state.1 ## state.2 -> (left_to_do mgr state <= fuel)%nat ->
  (expand_loop fuel mgr state).1 = ∅.
Proof.
  revert state. induction fuel as [|fuel IH]; intros state Hd Hf; cbn.
  - unfold left_to_do in Hf. apply leibniz_equiv, size_empty_iff. lia.
  - case_bool_decide as He; [done|]. destruct (expand_step_decreases mgr state Hd He) as [? ?].
    apply IH; [done|lia].
Qed.

(** ** The expansion is inheritance *)

(** What a round keeps: everything in hand is reached over links, the expanded
    ones exist, and their links and the existing ones that were asked for are in
    hand. *)
Record expanding (mgr : AccountMgr) (from : gset Z) (state : gset Z * gset Z) : Prop := {
  ex_reached : forall p, p ∈ state.1 ∪ state.2 -> exists a, a ∈ from /\ rtc (link mgr) a p;
  ex_known : forall p, p ∈ state.2 -> known mgr p;
  ex_asked : forall p, p ∈ from -> known mgr p -> p ∈ state.1 ∪ state.2;
  ex_closed : forall a b, a ∈ state.2 -> link mgr a b -> known mgr b -> b ∈ state.1 ∪ state.2
}.

Lemma expand_step_ok mgr from state : expanding mgr from state -> expanding mgr from (expand_step mgr state).
Proof.
  destruct state as [toCheck perms]. intros H. unfold expand_step.
  destruct (begin toCheck) as [p|] eqn:Eb; [|done]. apply begin_elem in Eb. destruct H as [H1 H2 H3 H4]. cbn in *.
  destruct (GetRBACPermission mgr p) as [permission|] eqn:Ep; split; cbn.
  - intros q Hq. destruct (decide (q ∈ toCheck ∪ perms)) as [Hin|Hin]; [auto|].
    destruct (H1 p ltac:(set_solver)) as (a & Ha & Hr). exists a. split; [done|].
    eapply rtc_r; [done|]. exists permission. split; [done|]. set_solver.
  - intros q Hq. destruct (decide (q = p)) as [->|]; [by exists permission|]. apply H2. set_solver.
  - intros q Hq Hk. specialize (H3 q Hq Hk). destruct (decide (q = p)); set_solver.
  - intros a b Ha Hl Hk. destruct (decide (a = p)) as [->|Hn].
    + destruct Hl as (x & Hx & Hb). rewrite Ep in Hx. injection Hx as <-.
      destruct (decide (b = p)), (decide (b ∈ perms)); set_solver.
    + pose proof (H4 a b ltac:(set_solver) Hl Hk). destruct (decide (b = p)); set_solver.
  - intros q Hq. apply H1. set_solver.
  - intros q Hq. apply H2. set_solver.
  - intros q Hq Hk. specialize (H3 q Hq Hk). assert (q <> p) by (intros ->; destruct Hk; congruence). set_solver.
  - intros a b Ha Hl Hk. specialize (H4 a b Ha Hl Hk). assert (b <> p) by (intros ->; destruct Hk; congruence).
    set_solver.
Qed.

Lemma expand_loop_ok mgr from fuel state : expanding mgr from state -> expanding mgr from (expand_loop fuel mgr state).
Proof.
  revert state. induction fuel as [|fuel IH]; intros state H; cbn; [done|].
  case_bool_decide; [done|]. by apply IH, expand_step_ok.
Qed.

Lemma expanding_done mgr from perms : expanding mgr from (∅, perms) ->
  forall p, p ∈ perms <-> inherits mgr from p.
Proof.
  intros [H1 H2 H3 H4] p. cbn in *. split.
  - intros Hp. split; [auto|]. apply H1. set_solver.
  - intros (Hk & a & Ha & Hr).
    assert (Hstart : a <> p \/ a = p) by lia.
    assert (Hka : known mgr a).
    { destruct (rtc_inv _ _ Hr) as [->|(b & (x & Hx & _) & _)]; [done|by exists x]. }
    specialize (H3 a Ha Hka). assert (Hin : a ∈ perms) by set_solver. clear Ha Hka H3 Hstart.
    induction Hr as [a|a b c Hab Hbc IH]; [done|]. apply IH; [done|].
    assert (Hkb : known mgr b).
    { destruct (rtc_inv _ _ Hbc) as [->|(d & (x & Hx & _) & _)]; [done|by exists x]. }
    specialize (H4 a b Hin Hab Hkb). set_solver.
Qed.

Lemma ExpandPermissions_spec mgr from p : p ∈ ExpandPermissions mgr from <-> inherits mgr from p.
Proof.
  unfold ExpandPermissions. set (fuel := (size from + links_left mgr ∅)%nat).
  pose proof (expand_loop_ends mgr fuel (from, ∅) ltac:(set_solver) ltac:(done)) as He.
  pose proof (expand_loop_ok mgr from fuel (from, ∅)) as Hok.
  destruct (expand_loop fuel mgr (from, ∅)) as [toCheck perms]. cbn in *. subst toCheck.
  apply expanding_done, Hok. split; cbn; [|set_solver..]. intros q Hq. exists q. split; [set_solver|done].
Qed.

(** ** The lists of an account *)

Section Account.
Context (mgr : AccountMgr).

(** Nothing is granted and denied, only existing permissions are listed, and
    the permissions in force are the computed ones. *)
Record lists_ok (d : RBACData) : Prop := {
  lk_disjoint : _grantedPerms d ## _deniedPerms d;
  lk_granted : forall p, p ∈ _grantedPerms d -> known mgr p;
  lk_denied : forall p, p ∈ _deniedPerms d -> known mgr p
}.

Definition computed (d : RBACData) : Prop := CalculateNewPermissions mgr d = d.

Lemma Calculate_lists_ok d : lists_ok d -> lists_ok (CalculateNewPermissions mgr d).
Proof. by intros []. Qed.

Lemma Calculate_computed d : computed (CalculateNewPermissions mgr d).
Proof. done. Qed.

Lemma Grant_lists p realm d db : lists_ok d -> lists_ok (GrantPermission mgr p realm (d, db)).2.1.
Proof.
  intros [H1 H2 H3]. unfold GrantPermission, HasDeniedPermission, HasGrantedPermission.
  destruct (GetRBACPermission mgr p) eqn:Ep; [|done].
  case_bool_decide; [done|]. case_bool_decide; [done|].
  destruct (nz realm); split; cbn; try done;
    first [by rewrite disjoint_union_l, disjoint_singleton_l
          |by intros q [->%elem_of_singleton|]%elem_of_union; [eexists|auto]].
Qed.

Lemma Deny_lists p realm d db : lists_ok d -> lists_ok (DenyPermission mgr p realm (d, db)).2.1.
Proof.
  intros [H1 H2 H3]. unfold DenyPermission, HasDeniedPermission, HasGrantedPermission.
  destruct (GetRBACPermission mgr p) eqn:Ep; [|done].
  case_bool_decide; [done|]. case_bool_decide; [done|].
  destruct (nz realm); split; cbn; try done;
    first [by rewrite disjoint_union_r, disjoint_singleton_r
          |by intros q [->%elem_of_singleton|]%elem_of_union; [eexists|auto]].
Qed.

Lemma Revoke_lists p realm d db : lists_ok d -> lists_ok (RevokePermission mgr p realm (d, db)).2.1.
Proof.
  intros [H1 H2 H3]. unfold RevokePermission. destruct (_ && _); [done|].
  destruct (nz realm); split; cbn; set_solver.
Qed.

(** ** What a load grants and denies *)

(** The first row of a permission. *)
Fixpoint first_row (p : Z) (rows : list (Z * bool)) : option bool :=
  match rows with
  | [] => None
  | (q, granted) :: rows => if q =? p then Some granted else first_row p rows
  end.

Lemma load_row_lists d row p : lists_ok d -> let d' := load_row mgr d row in
  (p ∈ _grantedPerms d' <-> p ∈ _grantedPerms d \/ p = row.1 /\ row.2 = true /\ known mgr p /\ p ∉ _deniedPerms d) /\
  (p ∈ _deniedPerms d' <-> p ∈ _deniedPerms d \/ p = row.1 /\ row.2 = false /\ known mgr p /\ p ∉ _grantedPerms d).
Proof.
  intros [Hd _ _]. destruct row as [q []]; unfold load_row, GrantPermission, DenyPermission,
    HasDeniedPermission, HasGrantedPermission, known; cbn [fst snd].
  all: destruct (GetRBACPermission mgr q) as [x|] eqn:Eq; cbn.
  2,4: split; (split; [tauto|]); intros [Hp|(-> & Ht & [y Hy] & Hn)]; done || congruence.
  all: case_bool_decide; [cbn; set_solver|]; case_bool_decide; cbn; [set_solver|].
  all: rewrite ?elem_of_union, ?elem_of_singleton; naive_solver.
Qed.

Lemma load_row_ok d row : lists_ok d -> lists_ok (load_row mgr d row).
Proof. intros H. unfold load_row. destruct row.2; [by apply Grant_lists|by apply Deny_lists]. Qed.

Lemma load_rows_lists rows d p : lists_ok d -> let d' := foldl (load_row mgr) d rows in
  lists_ok d' /\
  (p ∈ _grantedPerms d' <->
     p ∈ _grantedPerms d \/ first_row p rows = Some true /\ known mgr p /\ p ∉ _deniedPerms d) /\
  (p ∈ _deniedPerms d' <->
     p ∈ _deniedPerms d \/ first_row p rows = Some false /\ known mgr p /\ p ∉ _grantedPerms d).
Proof.
  revert d. induction rows as [|row rows IH]; intros d Hok; cbn -[load_row]; [naive_solver|].
  destruct (load_row_lists d row p Hok) as [Hg Hn].
  destruct (IH _ (load_row_ok d row Hok)) as (Hok' & IHg & IHn). split; [done|].
  rewrite IHg, IHn, Hg, Hn. clear. destruct row as [q granted]; cbn [fst snd].
  destruct (Z.eqb_spec q p) as [->|Hne]; [|intuition congruence].
  destruct (decide (p ∈ _deniedPerms d)), (decide (p ∈ _grantedPerms d)), granted; intuition congruence.
Qed.

(** What the loads keep of an account. *)
Definition same_account (d d' : RBACData) : Prop :=
  _id d' = _id d /\ _realmId d' = _realmId d /\ _secLevel d' = _secLevel d.

Lemma load_row_account d row : same_account d (load_row mgr d row).
Proof.
  unfold load_row, GrantPermission, DenyPermission. destruct row.2; destruct (GetRBACPermission mgr row.1);
    cbn; repeat case_match; done.
Qed.

Lemma foldl_account {A} (f : RBACData -> A -> RBACData) l d :
  (forall d x, same_account d (f d x)) -> same_account d (foldl f d l).
Proof.
  intros Hf. revert d. induction l as [|x l IH]; intros d; cbn; [done|].
  destruct (Hf d x) as (E1 & E2 & E3), (IH (f d x)) as (F1 & F2 & F3). split_and!; congruence.
Qed.

Lemma load_default_row d p : load_default mgr d p = load_row mgr d (p, true).
Proof. done. Qed.

Lemma load_defaults_lists perms d p : lists_ok d -> let d' := foldl (load_default mgr) d perms in
  lists_ok d' /\
  (p ∈ _grantedPerms d' <-> p ∈ _grantedPerms d \/ p ∈ perms /\ known mgr p /\ p ∉ _deniedPerms d) /\
  (p ∈ _deniedPerms d' <-> p ∈ _deniedPerms d).
Proof.
  intros Hok. assert (E : foldl (load_default mgr) d perms = foldl (load_row mgr) d ((fun q => (q, true)) <$> perms)).
  { clear. revert d. induction perms as [|q perms IH]; intros d; cbn; [done|]. by rewrite <- IH. }
  rewrite E. destruct (load_rows_lists ((fun q => (q, true)) <$> perms) d p Hok) as (? & Hg & Hn).
  split; [done|]. rewrite Hg, Hn.
  assert (F : first_row p ((fun q => (q, true)) <$> perms) = if decide (p ∈ perms) then Some true else None).
  { clear. induction perms as [|q perms IH]; [done|]. cbn. rewrite IH. destruct (Z.eqb_spec q p) as [->|Hne].
    - by rewrite decide_True by set_solver.
    - destruct (decide (p ∈ perms)); [rewrite decide_True by set_solver|rewrite decide_False by set_solver]; done. }
  rewrite F. destruct (decide (p ∈ perms)); naive_solver.
Qed.

(** What the table says of a permission in a realm: the row of all realms comes
    first. *)
Definition own_row (db : AccountPermissions) (accountId realmId p : Z) : option bool :=
  match db !! (accountId, p, -1) with Some b => Some b | None => db !! (accountId, p, realmId) end.

Lemma first_row_elem p rows b : first_row p rows = Some b -> (p, b) ∈ rows.
Proof.
  induction rows as [|[q c] rows IH]; cbn; [done|]. destruct (Z.eqb_spec q p) as [->|]; [|set_solver].
  intros [= ->]. set_solver.
Qed.

Lemma first_row_none p rows b : first_row p rows = None -> (p, b) ∉ rows.
Proof.
  induction rows as [|[q c] rows IH]; cbn; [set_solver|]. destruct (Z.eqb_spec q p); [done|].
  intros H%IH. rewrite not_elem_of_cons. split; [congruence|done].
Qed.

Definition row_le (a b : Z * Z * Z * bool) : Prop :=
  a.1.1.2 < b.1.1.2 \/ a.1.1.2 = b.1.1.2 /\ a.1.2 <= b.1.2.

Lemma rows_sorted l : StronglySorted row_le (stable_sort row_before l).
Proof.
  apply stable_sort_sorted; unfold row_le, row_before.
  - intros x y z. lia.
  - intros x y H. b2p. lia.
  - intros x y H. b2p. lia.
Qed.

Lemma first_row_least l p x c : StronglySorted row_le l -> x ∈ l -> x.1.1.2 = p ->
  first_row p ((fun row => (row.1.1.2, row.2)) <$> l) = Some c ->
  exists y, y ∈ l /\ y.1.1.2 = p /\ y.2 = c /\ y.1.2 <= x.1.2.
Proof.
  intros Hs Hx Hp. induction Hs as [|y l Hs IH Hy]; [set_solver|]. cbn.
  destruct (Z.eqb_spec y.1.1.2 p) as [E|E].
  - intros [= <-]. exists y. split_and!; [set_solver|done|done|].
    apply elem_of_cons in Hx as [->|Hx]; [lia|]. rewrite Forall_forall in Hy.
    specialize (Hy x Hx). unfold row_le in Hy. lia.
  - intros Hf. apply elem_of_cons in Hx as [->|Hx]; [done|].
    destruct (IH Hx Hf) as (z & Hz & ?). exists z. split; [set_solver|done].
Qed.

(** The rows a query selects. *)
Lemma selected_elem db accountId realmId k b :
  (k, b) ∈ stable_sort row_before (List.filter (row_matches accountId realmId) (map_to_list db)) <->
  db !! k = Some b /\ row_matches accountId realmId (k, b) = true.
Proof.
  rewrite stable_sort_perm, list_elem_of_In, filter_In, <- list_elem_of_In.
  by rewrite elem_of_map_to_list.
Qed.

Lemma row_matches_true accountId realmId a p r b :
  row_matches accountId realmId (a, p, r, b) = true <-> a = accountId /\ (r = realmId \/ r = -1).
Proof. unfold row_matches. cbn. b2p. tauto. Qed.

Lemma select_elem db accountId realmId p b :
  (p, b) ∈ SelectAccountPermissions db accountId realmId <->
  exists realm, (realm = realmId \/ realm = -1) /\ db !! (accountId, p, realm) = Some b.
Proof.
  unfold SelectAccountPermissions. rewrite list_elem_of_fmap. split.
  - intros ([[[a q] r] c] & [= -> ->] & (Hl & [-> Hr]%row_matches_true)%selected_elem). eauto.
  - intros (r & Hr & Hl). exists (accountId, p, r, b). split; [done|].
    apply selected_elem. by rewrite row_matches_true.
Qed.

Lemma select_first db accountId realmId p : 0 < realmId ->
  first_row p (SelectAccountPermissions db accountId realmId) = own_row db accountId realmId p.
Proof.
  intros Hr. unfold own_row.
  destruct (first_row p (SelectAccountPermissions db accountId realmId)) as [c|] eqn:Ef.
  - pose proof (first_row_elem _ _ _ Ef) as Hin. apply select_elem in Hin as (r & Hreal & Hc).
    destruct (db !! (accountId, p, -1)) as [b|] eqn:Eb.
    + assert (Hx : (accountId, p, -1, b) ∈
        stable_sort row_before (List.filter (row_matches accountId realmId) (map_to_list db))).
      { apply selected_elem. rewrite row_matches_true. auto. }
      destruct (first_row_least _ p _ c (rows_sorted _) Hx eq_refl Ef) as ([[[a q] s] e] & Hy & Eq & Ee & Hle).
      apply selected_elem in Hy as [Hy [-> [->| ->]]%row_matches_true]; cbn [fst snd] in Eq, Ee, Hle; [lia|congruence].
    + destruct Hreal as [->| ->]; congruence.
  - pose proof (fun b => first_row_none p _ b Ef) as Hn. setoid_rewrite select_elem in Hn.
    destruct (db !! (accountId, p, -1)) as [b|] eqn:Eb; [destruct (Hn b); eauto|].
    destruct (db !! (accountId, p, realmId)) as [b|] eqn:Er; [destruct (Hn b); eauto|done].
Qed.

(** What the tables grant and deny an account: its own row of a permission, or
    else the defaults of its level. *)
Definition table_grants (db : AccountPermissions) (d : RBACData) (p : Z) : Prop :=
  known mgr p /\ (own_row db (_id d) (_realmId d) p = Some true \/
    own_row db (_id d) (_realmId d) p = None /\ p ∈ GetRBACDefaultPermissions mgr (_secLevel d)).

Definition table_denies (db : AccountPermissions) (d : RBACData) (p : Z) : Prop :=
  known mgr p /\ own_row db (_id d) (_realmId d) p = Some false.

Lemma LoadFromDB_lists db d p : 0 < _realmId d -> let d' := LoadFromDB mgr db d in
  lists_ok d' /\ same_account d d' /\ computed d' /\
  (p ∈ _grantedPerms d' <-> table_grants db d p) /\ (p ∈ _deniedPerms d' <-> table_denies db d p).
Proof.
  intros Hr. unfold LoadFromDB, LoadFromDBCallback. cbv zeta.
  set (rows := SelectAccountPermissions _ _ _).
  assert (Hc : lists_ok (ClearData d)) by (split; cbn; set_solver).
  destruct (load_rows_lists rows (ClearData d) p Hc) as (H1 & G1 & N1).
  pose proof (foldl_account (load_row mgr) rows (ClearData d) load_row_account) as A1.
  set (d1 := foldl (load_row mgr) (ClearData d) rows) in *.
  set (perms := elements _).
  destruct (load_defaults_lists perms d1 p H1) as (H2 & G2 & N2).
  pose proof (foldl_account (load_default mgr) perms d1
    (fun d q => load_row_account d (q, true))) as A2.
  set (d2 := foldl (load_default mgr) d1 perms) in *.
  destruct A1 as (E1 & E2 & E3), A2 as (F1 & F2 & F3). cbn in E1, E2, E3.
  split_and!; [by apply Calculate_lists_ok|split_and!; cbn; congruence|done|..].
  - cbn [CalculateNewPermissions _grantedPerms]. rewrite G2, G1, N1. unfold rows, perms, table_grants.
    rewrite select_first, elem_of_elements by done. cbn [_id _realmId ClearData _grantedPerms _deniedPerms].
    destruct (own_row _ _ _ p) as [[]|]; set_solver.
  - cbn [CalculateNewPermissions _deniedPerms]. rewrite N2, N1. unfold rows, table_denies.
    rewrite select_first by done. cbn [_id _realmId ClearData _grantedPerms _deniedPerms]. set_solver.
Qed.

(** ** Histories of commands *)

Inductive Command : Type :=
| CGrant (permissionId realmId : Z) | CDeny (permissionId realmId : Z)
| CRevoke (permissionId realmId : Z) | CSecurity (level : Z) | CReload.

Definition command (state : RBACData * AccountPermissions) (c : Command) : RBACData * AccountPermissions :=
  let '(d, db) := state in
  match c with
  | CGrant p realm => (GrantPermission mgr p realm state).2
  | CDeny p realm => (DenyPermission mgr p realm state).2
  | CRevoke p realm => (RevokePermission mgr p realm state).2
  | CSecurity level => (SetSecurityLevel mgr db level d, db)
  | CReload => (LoadFromDB mgr db (RBACData_new (_id d) (_realmId d) (_secLevel d)), db)
  end.

(** An account of a realm is loaded, then the commands are run. *)
Definition run (accountId realmId secLevel : Z) (db : AccountPermissions) (commands : list Command)
    : RBACData * AccountPermissions :=
  foldl command (LoadFromDB mgr db (RBACData_new accountId realmId secLevel), db) commands.

(** The realms a command may name: one, or -1 for all. *)
Definition realm_given (c : Command) : Prop :=
  match c with
  | CGrant _ realm | CDeny _ realm | CRevoke _ realm => realm = -1 \/ 0 < realm
  | _ => True
  end.

Record account_ok (accountId realmId : Z) (d : RBACData) : Prop := {
  ao_lists : lists_ok d;
  ao_computed : computed d;
  ao_id : _id d = accountId;
  ao_realm : _realmId d = realmId
}.

Lemma LoadFromDB_ok db d accountId realmId : 0 < realmId -> _id d = accountId -> _realmId d = realmId ->
  account_ok accountId realmId (LoadFromDB mgr db d).
Proof.
  intros Hr Hi He. destruct (LoadFromDB_lists db d 0 ltac:(by rewrite He)) as (H1 & (E1 & E2 & _) & H3 & _).
  split; [done..|congruence|congruence].
Qed.

Lemma command_ok accountId realmId c d db : 0 < realmId -> realm_given c -> account_ok accountId realmId d ->
  account_ok accountId realmId (command (d, db) c).1.
Proof.
  intros Hr Hg [H1 H2 H3 H4].
  assert (Hz : forall realm, realm = -1 \/ 0 < realm -> nz realm = true)
    by (intros realm Hre; apply nz_true; lia).
  destruct c as [p realm|p realm|p realm|level|]; cbn [command].
  - pose proof (Grant_lists p realm d db H1) as Hl. unfold GrantPermission in *.
    destruct (GetRBACPermission mgr p); [|done]. do 2 (case_match; [done|]).
    rewrite Hz in * by done. by split.
  - pose proof (Deny_lists p realm d db H1) as Hl. unfold DenyPermission in *.
    destruct (GetRBACPermission mgr p); [|done]. do 2 (case_match; [done|]).
    rewrite Hz in * by done. by split.
  - pose proof (Revoke_lists p realm d db H1) as Hl. unfold RevokePermission in *.
    case_match; [done|]. rewrite Hz in * by done. by split.
  - by apply LoadFromDB_ok.
  - by apply LoadFromDB_ok.
Qed.

Lemma run_account_ok accountId realmId secLevel db commands : 0 < realmId -> Forall realm_given commands ->
  account_ok accountId realmId (run accountId realmId secLevel db commands).1.
Proof.
  intros Hr Hc. unfold run. induction commands as [|c commands IH] using rev_ind; [by apply LoadFromDB_ok|].
  apply Forall_app in Hc as [Hc Hc1]. rewrite foldl_app. cbn [foldl].
  destruct (foldl command _ commands) as [d db']. apply command_ok; [done|by inversion Hc1|auto].
Qed.

(** ** What a session has is what the tables say *)

Lemma own_row_insert_ne db accountId realmId realm p q b : q <> p ->
  own_row (<[(accountId, p, realm) := b]> db) accountId realmId q = own_row db accountId realmId q.
Proof. intros Hn. unfold own_row. by rewrite !lookup_insert_ne by congruence. Qed.

Lemma own_row_insert db accountId realmId realm p b : own_row db accountId realmId p = None ->
  realm = realmId \/ realm = -1 ->
  own_row (<[(accountId, p, realm) := b]> db) accountId realmId p = Some b.
Proof.
  unfold own_row. intros Hn Hr. destruct (db !! (accountId, p, -1)) as [|] eqn:E; [done|].
  destruct (decide (realm = -1)) as [->|H]; [by rewrite lookup_insert_eq|].
  rewrite lookup_insert_ne, E by congruence. destruct Hr as [->|]; [|done]. by rewrite lookup_insert_eq.
Qed.

Lemma own_row_delete db accountId realmId p :
  own_row (DeleteAccountPermission accountId p realmId db) accountId realmId p = None.
Proof.
  unfold own_row, DeleteAccountPermission. rewrite lookup_delete_eq.
  apply lookup_delete_None. right. apply lookup_delete_eq.
Qed.

Lemma own_row_delete_ne db accountId realmId realm p q : q <> p ->
  own_row (DeleteAccountPermission accountId p realm db) accountId realmId q = own_row db accountId realmId q.
Proof.
  intros Hn. unfold own_row, DeleteAccountPermission. by rewrite !lookup_delete_ne by congruence.
Qed.

Definition in_tables (d : RBACData) (db : AccountPermissions) : Prop :=
  forall p, (p ∈ _grantedPerms d <-> table_grants db d p) /\ (p ∈ _deniedPerms d <-> table_denies db d p).

(** A command that names the account's realm, or all realms to grant or to
    deny; no level has what it revokes by default. *)
Definition durable (realmId : Z) (c : Command) : Prop :=
  match c with
  | CGrant _ realm | CDeny _ realm => realm = realmId \/ realm = -1
  | CRevoke p realm => realm = realmId /\ forall level, p ∉ GetRBACDefaultPermissions mgr level
  | _ => True
  end.

Lemma LoadFromDB_in_tables db d : 0 < _realmId d -> in_tables (LoadFromDB mgr db d) db.
Proof.
  intros Hr p. destruct (LoadFromDB_lists db d p Hr) as (_ & (E1 & E2 & E3) & _ & Hg & Hn).
  unfold table_grants, table_denies in *. by rewrite E1, E2, E3.
Qed.

(** A permission that is in neither list has no row, and is no default. *)
Lemma not_listed d db p : in_tables d db -> known mgr p -> p ∉ _grantedPerms d -> p ∉ _deniedPerms d ->
  own_row db (_id d) (_realmId d) p = None.
Proof.
  intros Ht Hk Hg Hn. destruct (Ht p) as [Gp Np]. rewrite Gp in Hg. rewrite Np in Hn.
  unfold table_grants, table_denies in *. destruct (own_row _ _ _ p) as [[]|]; tauto.
Qed.

Lemma insert_in_tables d db p realm b (granted denied : gset Z) : in_tables d db -> known mgr p ->
  p ∉ _grantedPerms d -> p ∉ _deniedPerms d -> realm = _realmId d \/ realm = -1 ->
  granted = (if b : bool then {[p]} ∪ _grantedPerms d else _grantedPerms d) ->
  denied = (if b then _deniedPerms d else {[p]} ∪ _deniedPerms d) ->
  in_tables (CalculateNewPermissions mgr (set_lists d granted denied))
    (<[(_id d, p, realm) := b]> db).
Proof.
  intros Ht Hk Hg Hn Hr -> -> q. pose proof (not_listed d db p Ht Hk Hg Hn) as Ho.
  unfold table_grants, table_denies. cbn. destruct (decide (q = p)) as [->|Hq].
  - rewrite (own_row_insert db _ _ realm p b Ho Hr). destruct b; set_solver.
  - rewrite own_row_insert_ne by done. destruct (Ht q) as [Gq Nq]. unfold table_grants, table_denies in *.
    destruct b; set_solver.
Qed.

Lemma command_in_tables accountId realmId c d db : 0 < realmId -> account_ok accountId realmId d ->
  durable realmId c -> in_tables d db ->
  in_tables (command (d, db) c).1 (command (d, db) c).2.
Proof.
  intros Hr [Hl Hc Hi He] Hd Ht.
  assert (Hz : forall realm, realm = realmId \/ realm = -1 -> nz realm = true)
    by (intros realm Hre; apply nz_true; lia).
  destruct c as [p realm|p realm|p realm|level|]; cbn [command].
  - unfold GrantPermission, HasDeniedPermission, HasGrantedPermission.
    destruct (GetRBACPermission mgr p) eqn:Ep; [|done]. do 2 (case_bool_decide; [done|]).
    rewrite Hz by done. eapply (insert_in_tables d db p realm true); try done; [by eexists|by rewrite He].
  - unfold DenyPermission, HasDeniedPermission, HasGrantedPermission.
    destruct (GetRBACPermission mgr p) eqn:Ep; [|done]. do 2 (case_bool_decide; [done|]).
    rewrite Hz by done. eapply (insert_in_tables d db p realm false); try done; [by eexists|by rewrite He].
  - destruct Hd as [-> Hdef]. unfold RevokePermission. destruct (_ && _); [done|].
    rewrite Hz by auto. cbn. intros q. unfold table_grants, table_denies. cbn. rewrite He.
    destruct (Ht q) as [Gq Nq]. unfold table_grants, table_denies in Gq, Nq. rewrite He in Gq, Nq.
    destruct (decide (q = p)) as [->|Hq].
    + rewrite own_row_delete. specialize (Hdef (_secLevel d)). set_solver.
    + rewrite own_row_delete_ne by done. set_solver.
  - apply LoadFromDB_in_tables. cbn. lia.
  - apply LoadFromDB_in_tables. cbn. lia.
Qed.

Lemma command_other accountId realmId c d db : account_ok accountId realmId d ->
  forall k, k.1.1 <> accountId -> (command (d, db) c).2 !! k = db !! k.
Proof.
  intros [_ _ Hi _] [[a p] r] Ha. cbn in Ha.
  destruct c; cbn [command]; unfold GrantPermission, DenyPermission, RevokePermission; repeat case_match; try done;
    cbn; unfold SavePermission, InsertAccountPermission, DeleteAccountPermission; cbn;
    rewrite ?lookup_insert_ne, ?lookup_delete_ne by congruence; done.
Qed.

Lemma run_in_tables accountId realmId secLevel db commands : 0 < realmId ->
  Forall (durable realmId) commands ->
  let '(d, db') := run accountId realmId secLevel db commands in
  account_ok accountId realmId d /\ in_tables d db' /\ forall k, k.1.1 <> accountId -> db' !! k = db !! k.
Proof.
  intros Hr Hc. unfold run. induction commands as [|c commands IH] using rev_ind.
  { cbn. split_and!; [by apply LoadFromDB_ok|by apply LoadFromDB_in_tables|done]. }
  apply Forall_app in Hc as [Hc Hc1]. inversion_clear Hc1 as [|? ? Hd _]. rewrite foldl_app. cbn [foldl].
  specialize (IH Hc). destruct (foldl command _ commands) as [d db1]. destruct IH as (H1 & H2 & H3).
  assert (Hg : realm_given c) by (destruct c; cbn in *; lia || done).
  pose proof (command_ok accountId realmId c d db1 Hr Hg H1) as H1'.
  pose proof (command_in_tables accountId realmId c d db1 Hr H1 Hd H2) as H2'.
  pose proof (command_other accountId realmId c d db1 H1) as H3'.
  destruct (command (d, db1) c) as [d' db']. cbn [fst snd] in *. split_and!; [done..|].
  intros k Hk. rewrite H3', H3; done.
Qed.

(** Two loaded accounts with the same lists are the same. *)
Lemma same_lists d d' : same_account d d' -> computed d -> computed d' ->
  (forall p, p ∈ _grantedPerms d <-> p ∈ _grantedPerms d') ->
  (forall p, p ∈ _deniedPerms d <-> p ∈ _deniedPerms d') -> d' = d.
Proof.
  intros (E1 & E2 & E3) <- <- Hg Hn. unfold CalculateNewPermissions in *. cbn in *.
  assert (Eg : _grantedPerms d = _grantedPerms d') by (apply leibniz_equiv; exact Hg).
  assert (En : _deniedPerms d = _deniedPerms d') by (apply leibniz_equiv; exact Hn).
  by rewrite E1, E2, E3, Eg, En.
Qed.
End Account.

(** C11. An account may do exactly what it is granted, itself or by inheritance, and
    is not denied in the same way: after it was loaded, and after any commands
    on it, whatever the links, cycles included. Nothing is ever both granted and
    denied, and the expansion always ends. *)
Theorem permissions_in_force mgr accountId realmId secLevel db commands :
  0 < realmId -> Forall realm_given commands ->
  let d := (run mgr accountId realmId secLevel db commands).1 in
  _grantedPerms d ## _deniedPerms d /\
  forall p, HasPermission p d = true <-> inherits mgr (_grantedPerms d) p /\ ~ inherits mgr (_deniedPerms d) p.
Proof.
  intros Hr Hc d. destruct (run_account_ok mgr accountId realmId secLevel db commands Hr Hc) as [[H _ _] Hcomp _ _].
  fold d in H, Hcomp. split; [done|]. intros p. unfold HasPermission. rewrite bool_decide_eq_true.
  rewrite <- Hcomp. cbn. unfold RemovePermissions. by rewrite elem_of_difference, !ExpandPermissions_spec.
Qed.

(** C12. What a session has outlives it: after any commands that grant and deny in
    the account's own realm or in all realms, and revoke, in its own realm, only
    what no security level has by default ([durable]), loading the account again
    gives the very data it has, and an offline question the answer the session
    gives; the rows of no other account are touched. A default that is revoked is
    granted again at the next load. *)
Theorem permissions_persist mgr accountId realmId secLevel db commands :
  accountId <> 0 -> 0 < realmId -> Forall (durable mgr realmId) commands ->
  let '(d, db') := run mgr accountId realmId secLevel db commands in
  LoadFromDB mgr db' (RBACData_new accountId realmId (_secLevel d)) = d /\
  (forall p, AccountHasPermission mgr db' accountId p realmId (_secLevel d) = HasPermission p d) /\
  (forall other p realm, other <> accountId -> db' !! (other, p, realm) = db !! (other, p, realm)).
Proof.
  intros Ha Hr Hc. pose proof (run_in_tables mgr accountId realmId secLevel db commands Hr Hc) as H.
  destruct (run mgr accountId realmId secLevel db commands) as [d db']. destruct H as ([H1 H2 Hi He] & Ht & Ho).
  assert (E : LoadFromDB mgr db' (RBACData_new accountId realmId (_secLevel d)) = d).
  { set (new := RBACData_new accountId realmId (_secLevel d)).
    destruct (LoadFromDB_lists mgr db' new 0 Hr) as (_ & (E1 & E2 & E3) & Hcomp & _).
    apply (same_lists mgr); [by split_and!; cbn in *; congruence|done|done|..]; intros p;
      destruct (Ht p) as [Gp Np], (LoadFromDB_lists mgr db' new p Hr) as (_ & _ & _ & Gp' & Np');
      [rewrite Gp, Gp'|rewrite Np, Np']; unfold table_grants, table_denies; cbn; by rewrite Hi, He. }
  split_and!; [done| |].
  - intros p. unfold AccountHasPermission. apply nz_true in Ha as ->. cbn [negb]. by rewrite E.
  - intros other p realm Hne. by apply Ho.
Qed.

(** ** The tables of permissions *)

Definition entry (permissions : gmap Z (option RBACPermission)) (id : Z) : option RBACPermission :=
  mjoin (permissions !! id).

Lemma entry_insert permissions id x : entry (<[id := x]> permissions) id = x.
Proof. unfold entry. rewrite lookup_insert_eq. by destruct x. Qed.

Lemma entry_insert_ne permissions id id' x : id <> id' -> entry (<[id := x]> permissions) id' = entry permissions id'.
Proof. intros Hn. unfold entry. by rewrite lookup_insert_ne. Qed.

(** The links of the rows are added, to the permissions that were there. *)
Definition linked (rows : list (Z * Z)) (before after : gmap Z (option RBACPermission)) : Prop :=
  forall id, match entry before id with
    | None => entry after id = None
    | Some x => exists y, entry after id = Some y /\
        forall b, b ∈ pm_perms y <-> b ∈ pm_perms x \/ (id, b) ∈ rows /\ b <> id
    end.

Lemma load_links_spec rows : forall permissions permissionId points,
  (points = true /\ is_Some (entry permissions permissionId) \/ Forall (fun row => row.1 <> permissionId) rows) ->
  Forall (fun row => is_Some (entry permissions row.1)) rows ->
  exists permissions', load_links permissions permissionId points rows = Some permissions' /\
    linked rows permissions permissions'.
Proof.
  induction rows as [|[a b] rows IH]; intros permissions permissionId points Hp Hrows.
  { exists permissions. split; [done|]. intros id. destruct (entry permissions id) as [x|]; [|done].
    exists x. split; [done|]. set_solver. }
  inversion_clear Hrows as [|? ? Ha Hrows']. cbn [fst] in Ha. cbn [load_links].
  set (next := if negb (permissionId =? a) then _ else _).
  assert (En : next = (permissions, true)).
  { unfold next. destruct (Z.eqb_spec permissionId a) as [->|Hne]; cbn [negb].
    - destruct Hp as [[-> _]|Hp]; [done|]. by inversion_clear Hp.
    - unfold entry in Ha. rewrite bool_decide_eq_true_2 by done. by destruct (permissions !! a); [|destruct Ha]. }
  rewrite En. destruct Ha as [x Hx]. destruct (Z.eqb_spec b a) as [->|Hne].
  - destruct (IH permissions a true) as (permissions' & E & Hl); [left; split; [done|by exists x]|done|].
    exists permissions'. split; [done|]. intros id. specialize (Hl id). destruct (entry permissions id); [|done].
    destruct Hl as (y & Ey & Hy). exists y. split; [done|]. intros c. rewrite Hy. set_solver.
  - change (mjoin (permissions !! a)) with (entry permissions a). rewrite Hx.
    set (permissions1 := <[a := _]> permissions).
    destruct (IH permissions1 a true) as (permissions' & E & Hl).
    { left. split; [done|]. unfold permissions1. rewrite entry_insert. by eexists. }
    { eapply Forall_impl; [exact Hrows'|]. intros [c d] Hc. cbn in *. unfold permissions1.
      destruct (decide (a = c)) as [->|]; [rewrite entry_insert; by eexists|by rewrite entry_insert_ne]. }
    exists permissions'. split; [done|]. intros id. specialize (Hl id). unfold permissions1 in Hl.
    destruct (decide (a = id)) as [<-|Hid].
    + rewrite entry_insert in Hl. rewrite Hx. destruct Hl as (y & Ey & Hy). exists y. split; [done|].
      intros c. rewrite Hy. cbn. set_solver.
    + rewrite entry_insert_ne in Hl by done. destruct (entry permissions id); [|done].
      destruct Hl as (y & Ey & Hy). exists y. split; [done|]. intros c. rewrite Hy. set_solver.
Qed.

Lemma add_permissions_entry rows permissions id :
  entry (foldl add_permission permissions rows) id =
    match last (List.filter (fun row => row.1 =? id) rows) with
    | Some row => Some (mkPermission row.1 row.2 ∅)
    | None => entry permissions id
    end.
Proof.
  induction rows as [|row rows IH] using rev_ind; [done|]. rewrite foldl_app, List.filter_app. cbn.
  destruct (Z.eqb_spec row.1 id) as [E|E]; unfold add_permission at 1.
  - rewrite last_snoc, <- E. apply entry_insert.
  - rewrite app_nil_r, entry_insert_ne by done. exact IH.
Qed.

Lemma add_defaults_elem rows defaults level p :
  p ∈ default ∅ (foldl add_default defaults rows !! level) <->
  p ∈ default ∅ (defaults !! level) \/ exists secId, (secId, p) ∈ rows /\ u8 secId = level.
Proof.
  induction rows as [|row rows IH] using rev_ind; [set_solver|]. rewrite foldl_app. cbn. unfold add_default at 1.
  set (m := foldl add_default defaults rows) in *. setoid_rewrite elem_of_app. setoid_rewrite list_elem_of_singleton.
  destruct (decide (u8 row.1 = level)) as [<-|Hne].
  - rewrite lookup_insert_eq. cbn [from_option id]. unfold id. rewrite elem_of_union, elem_of_singleton, IH. destruct row as [s q]. cbn.
    split; [|naive_solver]. intros [->|[H|(s' & H & E)]]; eauto 10.
  - rewrite lookup_insert_ne, IH by done. destruct row as [s q]. cbn in *. naive_solver.
Qed.

Lemma last_filter_some (rows : list (Z * string)) id :
  is_Some (last (List.filter (fun row => row.1 =? id) rows)) <-> id ∈ rows.*1.
Proof.
  rewrite last_is_Some. split.
  - destruct (List.filter _ rows) as [|row l] eqn:E; [done|]. intros _.
    assert (H : row ∈ row :: l) by set_solver. rewrite <- E, list_elem_of_In, filter_In, <- list_elem_of_In in H.
    destruct H as [H <-%Z.eqb_eq]. by apply list_elem_of_fmap_2.
  - intros (row & -> & H)%list_elem_of_fmap E.
    assert (Hin : row ∈ List.filter (fun r => r.1 =? row.1) rows)
      by (rewrite list_elem_of_In, filter_In, <- list_elem_of_In; split; [done|apply Z.eqb_refl]).
    rewrite E in Hin. set_solver.
Qed.

(** Tables whose links are between listed permissions, none numbered 0, are
    loaded without following a null pointer, and give exactly the listed
    permissions, the links between different ones, and the defaults of each
    level. *)
Theorem LoadRBAC_tables mgr permissionRows linkRows defaultRows :
  linkRows <> [] -> Forall (fun row => row.1 ∈ permissionRows.*1 /\ row.1 <> 0) linkRows ->
  exists mgr', LoadRBAC mgr permissionRows linkRows defaultRows = Some mgr' /\
    (forall p, known mgr' p <-> p ∈ permissionRows.*1) /\
    (forall a b, link mgr' a b <-> (a, b) ∈ linkRows /\ a <> b) /\
    (forall level p, p ∈ GetRBACDefaultPermissions mgr' level <->
       exists secId, (secId, p) ∈ defaultRows /\ u8 secId = level).
Proof.
  intros Hne Hfk. set (permissions := foldl add_permission ∅ permissionRows).
  assert (Hk : forall id, is_Some (entry permissions id) <-> id ∈ permissionRows.*1).
  { intros id. unfold permissions. rewrite add_permissions_entry, <- last_filter_some.
    destruct (last _); [by split; eauto|]. unfold entry. rewrite lookup_empty. by split; intros [? [=]]. }
  assert (He : forall id x, entry permissions id = Some x -> pm_perms x = ∅).
  { intros id x. unfold permissions. rewrite add_permissions_entry.
    destruct (last _); [by intros [= <-]|]. unfold entry. by rewrite lookup_empty. }
  destruct (load_links_spec linkRows permissions 0 false) as (permissions' & E & Hl).
  { right. eapply Forall_impl; [exact Hfk|]. by intros row [_ H]. }
  { eapply Forall_impl; [exact Hfk|]. intros row [H _]. by apply Hk. }
  exists (mkMgr permissions' (foldl add_default ∅ defaultRows)).
  assert (Hload : LoadRBAC mgr permissionRows linkRows defaultRows
    = Some (mkMgr permissions' (foldl add_default ∅ defaultRows))).
  { unfold LoadRBAC. destruct linkRows as [|row links]; [done|]. destruct permissionRows as [|prow prows].
    - inversion_clear Hfk as [|? ? [Hin _]]. cbn in Hin. set_solver.
    - cbn [ClearRBAC _permissions _defaultPermissions]. fold permissions. by rewrite E. }
  split_and!; [done|..].
  - intros p. rewrite <- Hk. specialize (Hl p). unfold known, GetRBACPermission. cbn. fold (entry permissions' p).
    destruct (entry permissions p) as [x|]; [|by rewrite Hl]. destruct Hl as (y & -> & _). by split; eauto.
  - intros a b. specialize (Hl a). unfold link, GetRBACPermission. cbn. fold (entry permissions' a).
    destruct (entry permissions a) as [x|] eqn:Ex.
    + destruct Hl as (y & -> & Hy). rewrite (He a x Ex) in Hy. setoid_rewrite elem_of_empty in Hy. naive_solver.
    + rewrite Hl. split; [by intros (? & ? & _)|]. intros [Hin _]. rewrite Forall_forall in Hfk.
      destruct (Hfk _ Hin) as [[y Hy]%Hk _]. cbn in Hy. congruence.
  - intros level p. unfold GetRBACDefaultPermissions. cbn. rewrite add_defaults_elem, lookup_empty. set_solver.
Qed.

(** ** A small server *)

(** Role 1 has 2 linked, 2 has 3, and 3 has 1 again; 4 stands alone, and
    level 0 has it by default. *)
Definition sample_permissions : list (Z * string) :=
  [(1, "role"); (2, "commands"); (3, "teleport"); (4, "chat"); (5, "mute")]%string.
Definition sample_links : list (Z * Z) := [(1, 2); (2, 3); (3, 1); (5, 5)].
Definition sample_mgr : AccountMgr :=
  default (mkMgr ∅ ∅) (LoadRBAC (mkMgr ∅ ∅) sample_permissions sample_links [(0, 4)]).

Definition sample_commands : list Command := [CGrant 1 1; CDeny 5 (-1); CRevoke 1 1; CGrant 2 (-1); CReload].

Lemma LoadRBAC_tables_witness : exists mgr',
  LoadRBAC (mkMgr ∅ ∅) sample_permissions sample_links [(0, 4)] = Some mgr' /\ link mgr' 3 1.
Proof.
  destruct (LoadRBAC_tables (mkMgr ∅ ∅) sample_permissions sample_links [(0, 4)]) as (mgr' & E & _ & Hl & _).
  - done.
  - by repeat constructor; vm_compute; repeat constructor.
  - exists mgr'. split; [done|]. apply Hl. split; [|done]. unfold sample_links. by repeat constructor.
Defined.

Lemma permissions_in_force_witness :
  Forall realm_given sample_commands /\
  let d := (run sample_mgr 7 1 0 ∅ sample_commands).1 in
  HasPermission 3 d = true /\ inherits sample_mgr (_grantedPerms d) 3.
Proof.
  assert (H : Forall realm_given sample_commands) by (repeat constructor; lia).
  split; [exact H|]. cbv zeta.
  assert (H3 : HasPermission 3 (run sample_mgr 7 1 0 ∅ sample_commands).1 = true) by by vm_compute.
  split; [exact H3|]. destruct (permissions_in_force sample_mgr 7 1 0 ∅ sample_commands) as [_ Hp]; [lia|exact H|].
  by apply Hp.
Defined.

Lemma sample_defaults p level : p <> 4 -> p ∉ GetRBACDefaultPermissions sample_mgr level.
Proof.
  intros Hp. replace sample_mgr with (mkMgr (_permissions sample_mgr) (<[0 := {[4]}]> ∅)) by by vm_compute.
  unfold GetRBACDefaultPermissions. cbn [_defaultPermissions].
  destruct (decide (level = 0)) as [->|Hn]; [rewrite lookup_insert_eq|rewrite lookup_insert_ne, lookup_empty by done];
    cbn; set_solver.
Qed.

Lemma permissions_persist_witness :
  Forall (durable sample_mgr 1) sample_commands /\
  let '(d, db') := run sample_mgr 7 1 0 ∅ sample_commands in
  LoadFromDB sample_mgr db' (RBACData_new 7 1 (_secLevel d)) = d /\ HasPermission 4 d = true.
Proof.
  assert (H : Forall (durable sample_mgr 1) sample_commands).
  { repeat (constructor; cbn; auto). intros level. by apply sample_defaults. }
  split; [exact H|]. pose proof (permissions_persist sample_mgr 7 1 0 ∅ sample_commands) as Hp.
  destruct (run sample_mgr 7 1 0 ∅ sample_commands) as [d db'] eqn:E.
  split; [apply Hp; [lia|lia|exact H]|].
  assert (Ed : d = (run sample_mgr 7 1 0 ∅ sample_commands).1) by by rewrite E. rewrite Ed. by vm_compute.
Defined.

(** Revoking in all realms (-1, which a command names by default) what was
    granted in one realm answers that it is done, but a reload grants it
    again: the statement deletes the rows of realm -1 only. *)
Lemma revoked_everywhere_returns :
  let '(d, db) := run sample_mgr 7 1 0 ∅ [CGrant 3 1] in
  let '(result, (d', db')) := RevokePermission sample_mgr 3 (-1) (d, db) in
  result = RBAC_OK /\ HasPermission 3 d' = false /\ HasPermission 3 (LoadFromDB sample_mgr db' d') = true.
Proof. by vm_compute. Qed.

(** A grant for another realm is in force in this one until the reload. *)
Lemma foreign_grant_applies :
  let '(d, db) := run sample_mgr 7 1 0 ∅ [CGrant 3 2] in
  HasPermission 3 d = true /\ HasPermission 3 (LoadFromDB sample_mgr db d) = false.
Proof. by vm_compute. Qed.

(** The defaults are not loaded when there is no link at all. *)
Lemma defaults_need_links :
  LoadRBAC (mkMgr ∅ ∅) sample_permissions [] [(0, 4)] =
    Some (mkMgr (foldl add_permission ∅ sample_permissions) ∅).
Proof. done. Qed.
