(* ===== verification/EventMap.v ===== *)
(** The timers of scripts ([common/Utilities/EventMap.cpp], [EventMap.h]):
    events by their time in a multimap, each with an id, a group and a phase
    packed in one integer. *)
From S2P Require Import Prelude.
From Stdlib Require Import ZArith Lia.
From stdpp Require Import base gmap list sorting.

Open Scope Z_scope.
Open Scope tc_scope.

(** ** The map

    A row of the multimap is a time and the event data, whose bits 0 to 15 are
    the id, 16 to 23 the group and 24 to 31 the phase; rows are in the order of
    iteration. *)

Definition EventStore : Type := list (Z * Z).

Record EventMap : Type := mkMap { _time : Z; _phase : Z; _eventMap : EventStore; _lastEvent : Z }.

Definition EventMap_default : EventMap := mkMap 0 0 [] 0.

Definition set_store (m : EventMap) (store : EventStore) : EventMap :=
  mkMap (_time m) (_phase m) store (_lastEvent m).
Definition set_phase (m : EventMap) (phase : Z) : EventMap :=
  mkMap (_time m) phase (_eventMap m) (_lastEvent m).

(** A row goes after the rows of its time. *)
Definition store_insert (row : Z * Z) (store : EventStore) : EventStore :=
  sort_insert (fun a b => a.1 <=? b.1) row store.

Definition Reset (m : EventMap) : EventMap := mkMap 0 0 [] (_lastEvent m).

Definition Update (time : Z) (m : EventMap) : EventMap :=
  mkMap (_time m +32 time) (_phase m) (_eventMap m) (_lastEvent m).

Definition GetTimer (m : EventMap) : Z := _time m.
Definition GetPhaseMask (m : EventMap) : Z := _phase m.
Definition Empty (m : EventMap) : bool := match _eventMap m with [] => true | _ => false end.

Definition phase_bit (phase : Z) : Z := u8 (Z.shiftl 1 (phase - 1)).

Definition SetPhase (phase : Z) (m : EventMap) : EventMap :=
  if negb (nz phase) then set_phase m 0 else if phase <=? 8 then set_phase m (phase_bit phase) else m.

Definition AddPhase (phase : Z) (m : EventMap) : EventMap :=
  if nz phase && (phase <=? 8) then set_phase m (Z.lor (_phase m) (phase_bit phase)) else m.

(** [uint8(~(1 << (phase - 1)))]. *)
Definition RemovePhase (phase : Z) (m : EventMap) : EventMap :=
  if nz phase && (phase <=? 8)
  then set_phase m (Z.land (_phase m) (u8 (Z.lnot (Z.shiftl 1 (phase - 1))))) else m.

Definition ScheduleEvent (eventId time group phase : Z) (m : EventMap) : EventMap :=
  let eventId := if nz group && (group <=? 8) then Z.lor eventId (Z.shiftl 1 (group + 15)) else eventId in
  let eventId := if nz phase && (phase <=? 8) then Z.lor eventId (Z.shiftl 1 (phase + 23)) else eventId in
  set_store m (store_insert (_time m +32 time, eventId) (_eventMap m)).

(** The overloads with a range draw the time, and narrow the phase to a
    [uint8]. *)
Definition ScheduleEvent_between (eventId drawn group phase : Z) (m : EventMap) : EventMap :=
  ScheduleEvent eventId drawn group (u8 phase) m.

Definition Repeat (time : Z) (m : EventMap) : EventMap :=
  set_store m (store_insert (_time m +32 time, _lastEvent m) (_eventMap m)).

(** The loop: the event that is executed, and the rows that are left. *)
Fixpoint execute (now phase : Z) (store : EventStore) : option Z * EventStore :=
  match store with
  | [] => (None, [])
  | (time, data) :: rest =>
      if now <? time then (None, store)
      else if nz phase && nz (Z.land data 0xFF000000) && negb (nz (Z.land (Z.shiftr data 24) phase))
      then execute now phase rest
      else (Some data, rest)
  end.

Definition ExecuteEvent (m : EventMap) : Z * EventMap :=
  match execute (_time m) (_phase m) (_eventMap m) with
  | (None, store) => (0, set_store m store)
  | (Some data, store) => (Z.land data 0x0000FFFF, mkMap (_time m) (_phase m) store data)
  end.

Definition DelayEvents (delay : Z) (m : EventMap) : EventMap :=
  mkMap (if delay <? _time m then _time m -32 delay else 0) (_phase m) (_eventMap m) (_lastEvent m).

Definition in_group (group : Z) (row : Z * Z) : bool := nz (Z.land row.2 (Z.shiftl 1 (group + 15))).
Definition has_id (eventId : Z) (row : Z * Z) : bool := eventId =? Z.land row.2 0x0000FFFF.

Definition DelayEvents_group (delay group : Z) (m : EventMap) : EventMap :=
  if negb (nz group) || (8 <? group) || Empty m then m
  else
    let delayed := foldl (fun delayed row => store_insert (row.1 +32 delay, row.2) delayed) []
      (List.filter (in_group group) (_eventMap m)) in
    set_store m (foldl (fun store row => store_insert row store)
      (List.filter (fun row => negb (in_group group row)) (_eventMap m)) delayed).

Definition CancelEvent (eventId : Z) (m : EventMap) : EventMap :=
  if Empty m then m else set_store m (List.filter (fun row => negb (has_id eventId row)) (_eventMap m)).

Definition RescheduleEvent (eventId time group phase : Z) (m : EventMap) : EventMap :=
  ScheduleEvent eventId time group phase (CancelEvent eventId m).

Definition CancelEventGroup (group : Z) (m : EventMap) : EventMap :=
  if negb (nz group) || (8 <? group) || Empty m then m
  else set_store m (List.filter (fun row => negb (in_group group row)) (_eventMap m)).

Definition GetNextEventTime_of (eventId : Z) (m : EventMap) : Z :=
  match List.find (has_id eventId) (_eventMap m) with Some row => row.1 | None => 0 end.

Definition GetNextEventTime (m : EventMap) : Z :=
  match _eventMap m with [] => 0 | row :: _ => row.1 end.

Definition IsInPhase (phase : Z) (m : EventMap) : bool :=
  (phase <=? 8) && (negb (nz phase) || nz (Z.land (_phase m) (Z.shiftl 1 (phase - 1)))).

Definition GetTimeUntilEvent (eventId : Z) (m : EventMap) : Z :=
  match List.find (has_id eventId) (_eventMap m) with Some row => row.1 -32 _time m | None => u32_max end.
