(* ===== verification/EventMapSpec.v ===== *)
(** The event map keeps a script's events: it refines a timeline of typed
    events, and a script that polls it executes each event on time. *)
From Stdlib Require Import ZArith Lia.
From stdpp Require Import base gmap list sorting.
From S2P Require Import Prelude EventMap.

Open Scope Z_scope.
Open Scope tc_scope.

(** ** What a script means by it

    Events with an id, a group and a phase, of which 0 is none, in the order
    they fall due, and first come first served among those of one time; the
    phases the script is in are a set. *)

Record Event : Type := mkEvent { ev_due : Z; ev_id : Z; ev_group : Z; ev_phase : Z }.

Record Timeline : Type := mkTimeline {
  tl_now : Z; tl_phases : gset Z; tl_events : list Event; tl_last : Event }.

Definition Timeline_default : Timeline := mkTimeline 0 ∅ [] (mkEvent 0 0 0 0).

Definition one_to_eight (n : Z) : bool := (1 <=? n) && (n <=? 8).

Definition with_events (t : Timeline) (events : list Event) : Timeline :=
  mkTimeline (tl_now t) (tl_phases t) events (tl_last t).

Definition line_up (e : Event) (events : list Event) : list Event :=
  sort_insert (fun a b => ev_due a <=? ev_due b) e events.

(** An event without a phase, or of a phase the script is in, if it is in any. *)
Definition in_phase (t : Timeline) (e : Event) : bool :=
  (ev_phase e =? 0) || bool_decide (tl_phases t = ∅) || bool_decide (ev_phase e ∈ tl_phases t).

Definition is_due (t : Timeline) (e : Event) : bool := ev_due e <=? tl_now t.

(** The first due event that is in phase, and what is after it. *)
Fixpoint next_event (t : Timeline) (events : list Event) : option (Event * list Event) :=
  match events with
  | [] => None
  | e :: events => if is_due t e && in_phase t e then Some (e, events) else next_event t events
  end.

Inductive Call : Type :=
| CReset | CUpdate (time : Z) | CSetPhase (phase : Z) | CAddPhase (phase : Z) | CRemovePhase (phase : Z)
| CSchedule (eventId time group phase : Z) | CReschedule (eventId time group phase : Z) | CRepeat (time : Z)
| CExecute | CDelay (delay : Z) | CDelayGroup (delay group : Z) | CCancel (eventId : Z) | CCancelGroup (group : Z)
| CEmpty | CTimer | CNextTime | CNextTimeOf (eventId : Z) | CIsInPhase (phase : Z) | CTimeUntil (eventId : Z).

(** What the types of the arguments say, and that ids fit their bits. *)
Definition call_ok (c : Call) : bool :=
  match c with
  | CSetPhase n | CAddPhase n | CRemovePhase n | CDelay n | CDelayGroup _ n | CCancelGroup n | CIsInPhase n => 0 <=? n
  | CSchedule eventId _ group phase | CReschedule eventId _ group phase =>
      (0 <=? eventId) && (eventId <? 2 ^ 16) && (0 <=? group) && (0 <=? phase)
  | _ => true
  end.

Definition call (m : EventMap) (c : Call) : Z * EventMap :=
  match c with
  | CReset => (0, Reset m)
  | CUpdate time => (0, Update time m)
  | CSetPhase phase => (0, SetPhase phase m)
  | CAddPhase phase => (0, AddPhase phase m)
  | CRemovePhase phase => (0, RemovePhase phase m)
  | CSchedule eventId time group phase => (0, ScheduleEvent eventId time group phase m)
  | CReschedule eventId time group phase => (0, RescheduleEvent eventId time group phase m)
  | CRepeat time => (0, Repeat time m)
  | CExecute => ExecuteEvent m
  | CDelay delay => (0, DelayEvents delay m)
  | CDelayGroup delay group => (0, DelayEvents_group delay group m)
  | CCancel eventId => (0, CancelEvent eventId m)
  | CCancelGroup group => (0, CancelEventGroup group m)
  | CEmpty => (Z.b2z (Empty m), m)
  | CTimer => (GetTimer m, m)
  | CNextTime => (GetNextEventTime m, m)
  | CNextTimeOf eventId => (GetNextEventTime_of eventId m, m)
  | CIsInPhase phase => (Z.b2z (IsInPhase phase m), m)
  | CTimeUntil eventId => (GetTimeUntilEvent eventId m, m)
  end.

Fixpoint calls (m : EventMap) (cs : list Call) : list Z * EventMap :=
  match cs with
  | [] => ([], m)
  | c :: cs => let '(r, m) := call m c in let '(rs, m) := calls m cs in (r :: rs, m)
  end.

(** The same calls on the script's view. *)
Definition t_schedule (t : Timeline) (eventId time group phase : Z) : Timeline :=
  with_events t (line_up (mkEvent (tl_now t +32 time) eventId (if one_to_eight group then group else 0)
    (if one_to_eight phase then phase else 0)) (tl_events t)).

Definition t_cancel (t : Timeline) (eventId : Z) : Timeline :=
  with_events t (List.filter (fun e => negb (ev_id e =? eventId)) (tl_events t)).

Definition first_of (eventId : Z) (t : Timeline) : option Event :=
  List.find (fun e => eventId =? ev_id e) (tl_events t).

Definition t_call (t : Timeline) (c : Call) : Z * Timeline :=
  let phases s := mkTimeline (tl_now t) s (tl_events t) (tl_last t) in
  let at_time now := mkTimeline now (tl_phases t) (tl_events t) (tl_last t) in
  match c with
  | CReset => (0, mkTimeline 0 ∅ [] (tl_last t))
  | CUpdate time => (0, at_time (tl_now t +32 time))
  | CSetPhase phase =>
      (0, if phase =? 0 then phases ∅ else if one_to_eight phase then phases {[phase]} else t)
  | CAddPhase phase => (0, if one_to_eight phase then phases ({[phase]} ∪ tl_phases t) else t)
  | CRemovePhase phase => (0, if one_to_eight phase then phases (tl_phases t ∖ {[phase]}) else t)
  | CSchedule eventId time group phase => (0, t_schedule t eventId time group phase)
  | CReschedule eventId time group phase => (0, t_schedule (t_cancel t eventId) eventId time group phase)
  | CRepeat time =>
      let last := tl_last t in
      (0, with_events t (line_up (mkEvent (tl_now t +32 time) (ev_id last) (ev_group last) (ev_phase last))
            (tl_events t)))
  | CExecute =>
      match next_event t (tl_events t) with
      | Some (e, events) => (ev_id e, mkTimeline (tl_now t) (tl_phases t) events e)
      | None => (0, with_events t (List.filter (fun e => negb (is_due t e)) (tl_events t)))
      end
  | CDelay delay => (0, at_time (Z.max 0 (tl_now t - delay)))
  | CDelayGroup delay group =>
      (0, if one_to_eight group then
            let late e := mkEvent (ev_due e +32 delay) (ev_id e) (ev_group e) (ev_phase e) in
            let delayed := List.filter (fun e => ev_group e =? group) (tl_events t) in
            let others := List.filter (fun e => negb (ev_group e =? group)) (tl_events t) in
            with_events t (foldl (fun events e => line_up e events) others
              (foldl (fun events e => line_up (late e) events) [] delayed))
          else t)
  | CCancel eventId => (0, t_cancel t eventId)
  | CCancelGroup group =>
      (0, if one_to_eight group
          then with_events t (List.filter (fun e => negb (ev_group e =? group)) (tl_events t)) else t)
  | CEmpty => (Z.b2z (bool_decide (tl_events t = [])), t)
  | CTimer => (tl_now t, t)
  | CNextTime => (from_option ev_due 0 (head (tl_events t)), t)
  | CNextTimeOf eventId => (from_option ev_due 0 (first_of eventId t), t)
  | CIsInPhase phase => (Z.b2z (bool_decide (phase = 0 \/ phase ∈ tl_phases t)), t)
  | CTimeUntil eventId => (from_option (fun e => ev_due e -32 tl_now t) u32_max (first_of eventId t), t)
  end.

Fixpoint t_calls (t : Timeline) (cs : list Call) : list Z * Timeline :=
  match cs with
  | [] => ([], t)
  | c :: cs => let '(r, t) := t_call t c in let '(rs, t) := t_calls t cs in (r :: rs, t)
  end.

(** ** The packed fields *)

(** Bit tests on masks and single bits. *)
Lemma nz_land a b : 0 <= b ->
  nz (Z.land a b) = true <-> exists i, 0 <= i /\ Z.testbit a i = true /\ Z.testbit b i = true.
Proof.
  intros Hb0. rewrite nz_true. split.
  - intros H. assert (0 <= Z.land a b) by (apply Z.land_nonneg; auto). exists (Z.log2 (Z.land a b)).
    pose proof (Z.bit_log2 (Z.land a b) ltac:(lia)) as Hb. rewrite Z.land_spec, andb_true_iff in Hb.
    split; [apply Z.log2_nonneg|done].
  - intros (i & Hi & Ha & Hb) H. assert (Hl : Z.testbit (Z.land a b) i = false) by (rewrite H; apply Z.bits_0).
    by rewrite Z.land_spec, Ha, Hb in Hl.
Qed.

Lemma small_bit x n i : 0 <= x < 2 ^ n -> 0 <= n <= i -> Z.testbit x i = false.
Proof. intros Hx Hi. rewrite <- (Z.mod_small x (2 ^ n)) by done. apply Z.mod_pow2_bits_high. lia. Qed.

Lemma one_bit n i : 0 <= n -> Z.testbit (Z.shiftl 1 n) i = (n =? i).
Proof. intros Hn. rewrite Z.shiftl_1_l. by apply Z.pow2_bits_eqb. Qed.

Lemma nz_land_one a n : 0 <= n -> nz (Z.land a (Z.shiftl 1 n)) = Z.testbit a n.
Proof.
  intros Hn. apply eq_true_iff_eq. rewrite nz_land by (rewrite Z.shiftl_1_l; lia). setoid_rewrite one_bit; [|done]. setoid_rewrite Z.eqb_eq.
  split; [by intros (i & _ & H & ->)|]. intros H. by exists n.
Qed.

Record event_ok (e : Event) : Prop := {
  eo_id : 0 <= ev_id e < 2 ^ 16;
  eo_group : 0 <= ev_group e <= 8;
  eo_phase : 0 <= ev_phase e <= 8
}.

(** The event data of an event. *)
Definition packed (e : Event) : Z :=
  Z.lor (Z.lor (ev_id e) (if nz (ev_group e) then Z.shiftl 1 (ev_group e + 15) else 0))
    (if nz (ev_phase e) then Z.shiftl 1 (ev_phase e + 23) else 0).

Definition row (e : Event) : Z * Z := (ev_due e, packed e).

Lemma packed_bit e i : event_ok e ->
  Z.testbit (packed e) i = Z.testbit (ev_id e) i || (nz (ev_group e) && (ev_group e + 15 =? i))
    || (nz (ev_phase e) && (ev_phase e + 23 =? i)).
Proof.
  intros [_ Hg Hp]. unfold packed. rewrite !Z.lor_spec. f_equal; [f_equal|].
  - destruct (nz (ev_group e)); [apply one_bit; lia|apply Z.bits_0].
  - destruct (nz (ev_phase e)); [apply one_bit; lia|apply Z.bits_0].
Qed.

Lemma packed_id e : event_ok e -> Z.land (packed e) 0xFFFF = ev_id e.
Proof.
  intros Hok. pose proof Hok as [Hi Hg Hp]. apply Z.bits_inj'. intros i Hi0. rewrite Z.land_spec, packed_bit by done.
  change 0xFFFF with (Z.ones 16). destruct (Z_lt_le_dec i 16).
  - rewrite Z.ones_spec_low, andb_true_r by lia.
    destruct (Z.eqb_spec (ev_group e + 15) i) as [E|_]; [|destruct (Z.eqb_spec (ev_phase e + 23) i)]; cbn;
      rewrite ?andb_false_r, ?orb_false_r; try lia; [|done].
    assert (ev_group e = 0) as -> by lia. cbn. destruct (Z.eqb_spec (ev_phase e + 23) i); [lia|].
    by rewrite andb_false_r, !orb_false_r.
  - rewrite Z.ones_spec_high, andb_false_r by lia. symmetry. apply (small_bit _ 16); [exact Hi|lia].
Qed.

Lemma packed_group e g : event_ok e -> 1 <= g <= 8 -> in_group g (row e) = (ev_group e =? g).
Proof.
  intros Hok Hg. pose proof Hok as [Hi He Hp]. unfold in_group, row. cbn [snd].
  rewrite nz_land_one, packed_bit by (lia || done).
  rewrite (small_bit (ev_id e) 16 _ Hi) by lia. cbn [orb].
  replace (nz (ev_phase e) && (ev_phase e + 23 =? g + 15)) with false.
  2: { symmetry. apply andb_false_iff. destruct (Z.eqb_spec (ev_phase e + 23) (g + 15)); [left|by right].
       apply nz_false. lia. }
  rewrite orb_false_r.
  destruct (Z.eqb_spec (ev_group e) g) as [->|Hne].
  - rewrite Z.eqb_refl, andb_true_r. apply nz_true. lia.
  - rewrite (proj2 (Z.eqb_neq _ _)) by lia. apply andb_false_r.
Qed.

Lemma packed_has_phase e : event_ok e -> nz (Z.land (packed e) 0xFF000000) = nz (ev_phase e).
Proof.
  intros Hok. pose proof Hok as [Hi Hg Hp]. apply eq_true_iff_eq. rewrite nz_land, nz_true by done. split.
  - intros (i & Hi0 & Hb & Hm). change 0xFF000000 with (Z.shiftl (Z.ones 8) 24) in Hm.
    rewrite Z.shiftl_spec in Hm by done. rewrite packed_bit in Hb by done.
    assert (24 <= i < 32).
    { destruct (Z_lt_le_dec i 24); [by rewrite Z.testbit_neg_r in Hm by lia|].
      destruct (Z_lt_le_dec i 32); [lia|]. by rewrite Z.ones_spec_high in Hm by lia. }
    rewrite (small_bit _ 16 _ Hi), (proj2 (Z.eqb_neq (ev_group e + 15) i)), andb_false_r in Hb by lia. cbn in Hb.
    apply andb_true_iff in Hb as [Hb _]. by apply nz_true.
  - intros Hn. exists (ev_phase e + 23). rewrite packed_bit by done. apply nz_true in Hn as Hn'.
    rewrite Hn', Z.eqb_refl, orb_true_r. split_and!; [lia|done|].
    change 0xFF000000 with (Z.shiftl (Z.ones 8) 24). rewrite Z.shiftl_spec by lia. apply Z.ones_spec_low. lia.
Qed.

(** A phase mask and the phases it stands for. *)
Record mask_ok (mask : Z) (phases : gset Z) : Prop := {
  mk_range : 0 <= mask < 2 ^ 8;
  mk_bits : forall p, 1 <= p <= 8 -> Z.testbit mask (p - 1) = true <-> p ∈ phases;
  mk_phases : forall p, p ∈ phases -> 1 <= p <= 8
}.

Lemma mask_zero mask phases : mask_ok mask phases -> nz mask = false <-> phases = ∅.
Proof.
  intros [Hr Hb Hp]. rewrite nz_false. split.
  - intros ->. apply set_eq. intros p. split; [|set_solver]. intros Hin. pose proof (Hp p Hin) as Hr8.
    apply Hb in Hin; [|done]. by rewrite Z.bits_0 in Hin.
  - intros ->. apply Z.bits_inj'. intros i Hi. rewrite Z.bits_0. destruct (Z_lt_le_dec i 8).
    + apply not_true_iff_false. intros H. assert (i + 1 ∈ (∅ : gset Z)); [|set_solver].
      apply Hb; [lia|]. by replace (i + 1 - 1) with i by lia.
    + apply (small_bit _ 8); [exact Hr|lia].
Qed.

Lemma packed_in_phase e mask phases : event_ok e -> mask_ok mask phases ->
  nz (Z.land (Z.shiftr (packed e) 24) mask) = true <-> ev_phase e <> 0 /\ ev_phase e ∈ phases.
Proof.
  intros Hok [Hr Hb Hp]. pose proof Hok as [Hi Hg Hph]. rewrite nz_land by lia. split.
  - intros (i & Hi0 & Ht & Hm). rewrite Z.shiftr_spec, packed_bit in Ht by done.
    rewrite (small_bit _ 16 _ Hi), (proj2 (Z.eqb_neq (ev_group e + 15) (i + 24))), andb_false_r in Ht by lia.
    cbn in Ht. apply andb_true_iff in Ht as [Hn%nz_true Hei%Z.eqb_eq]. split; [done|]. apply Hb; [lia|].
    by replace (ev_phase e - 1) with i by lia.
  - intros [Hn Hin]. exists (ev_phase e - 1). rewrite Z.shiftr_spec, packed_bit by lia || done.
    replace (ev_phase e - 1 + 24) with (ev_phase e + 23) by lia. apply nz_true in Hn as Hn'.
    rewrite Hn', Z.eqb_refl, orb_true_r. split_and!; [lia|done|]. apply Hb; [lia|done].
Qed.

Lemma bit_mask_ok p : 1 <= p <= 8 -> mask_ok (phase_bit p) {[p]}.
Proof.
  intros Hp. unfold phase_bit. rewrite Z.shiftl_1_l, u8_small.
  2: { split; [lia|]. apply Z.pow_lt_mono_r; lia. }
  split.
  - split; [lia|]. apply Z.pow_lt_mono_r; lia.
  - intros q Hq. rewrite Z.pow2_bits_eqb, Z.eqb_eq, elem_of_singleton by lia. lia.
  - intros q Hq%elem_of_singleton. by subst.
Qed.

Lemma no_mask_ok : mask_ok 0 ∅.
Proof. split; [lia| |set_solver]. intros p Hp. rewrite Z.bits_0. set_solver. Qed.

Lemma mask_bound x : 0 <= x -> (forall i, 8 <= i -> Z.testbit x i = false) -> x < 2 ^ 8.
Proof.
  intros Hx Hb. destruct (Z.eq_dec x 0) as [->|Hn]; [lia|]. apply Z.log2_lt_pow2; [lia|].
  apply Z.nle_gt. intros Hl. apply Hb in Hl. rewrite Z.bit_log2 in Hl by lia. done.
Qed.

Lemma mask_union a b s t : mask_ok a s -> mask_ok b t -> mask_ok (Z.lor a b) (t ∪ s).
Proof.
  intros [Ra Ba Pa] [Rb Bb Pb]. split.
  - assert (0 <= Z.lor a b) by (apply Z.lor_nonneg; lia). split; [done|]. apply mask_bound; [done|].
    intros i Hi. rewrite Z.lor_spec, (small_bit a 8 _ Ra), (small_bit b 8 _ Rb); lia || done.
  - intros p Hp. rewrite Z.lor_spec, orb_true_iff, Ba, Bb, elem_of_union by done. tauto.
  - intros p [Hp|Hp]%elem_of_union; auto.
Qed.

Lemma mask_remove a s p : mask_ok a s -> 1 <= p <= 8 ->
  mask_ok (Z.land a (u8 (Z.lnot (Z.shiftl 1 (p - 1))))) (s ∖ {[p]}).
Proof.
  intros [Ra Ba Pa] Hp. split.
  - assert (0 <= Z.land a (u8 (Z.lnot (Z.shiftl 1 (p - 1))))) by (apply Z.land_nonneg; lia).
    split; [done|]. apply mask_bound; [done|]. intros i Hi. by rewrite Z.land_spec, (small_bit a 8 _ Ra) by lia.
  - intros q Hq. unfold u8.
    rewrite Z.land_spec, Z.mod_pow2_bits_low, Z.lnot_spec, one_bit, andb_true_iff, Ba, negb_true_iff, Z.eqb_neq by lia.
    rewrite elem_of_difference, elem_of_singleton. split; intros [? ?]; (split; [done|]); lia.
  - intros q [Hq _]%elem_of_difference. auto.
Qed.

(** ** The simulation *)

Notation due_sorted := (StronglySorted (fun a b : Event => ev_due a <= ev_due b)).

Record sim (m : EventMap) (t : Timeline) : Prop := {
  sim_time : _time m = tl_now t;
  sim_now : 0 <= tl_now t < 2 ^ 32;
  sim_phase : mask_ok (_phase m) (tl_phases t);
  sim_store : _eventMap m = row <$> tl_events t;
  sim_last : _lastEvent m = packed (tl_last t);
  sim_last_ok : event_ok (tl_last t);
  sim_events : Forall event_ok (tl_events t);
  sim_sorted : due_sorted (tl_events t)
}.

Lemma EventMap_sim_default : sim EventMap_default Timeline_default.
Proof. split; try done; [apply no_mask_ok|constructor..]. Qed.

(** A call changes one part of the map. *)
Lemma sim_at_time m t now : sim m t -> 0 <= now < 2 ^ 32 ->
  sim (mkMap now (_phase m) (_eventMap m) (_lastEvent m))
    (mkTimeline now (tl_phases t) (tl_events t) (tl_last t)).
Proof. intros H Hn. split; cbn; done || apply H. Qed.

Lemma sim_phases m t mask s : sim m t -> mask_ok mask s ->
  sim (set_phase m mask) (mkTimeline (tl_now t) s (tl_events t) (tl_last t)).
Proof. intros H Hs. split; cbn; done || apply H. Qed.

Lemma sim_with_events m t store events : sim m t ->
  store = row <$> events -> Forall event_ok events -> due_sorted events ->
  sim (set_store m store) (with_events t events).
Proof. intros H -> Ho Hs. split; cbn; done || apply H. Qed.

Lemma store_insert_row e events : row <$> line_up e events = store_insert (row e) (row <$> events).
Proof. apply sort_insert_map. by apply Forall_true. Qed.

Lemma line_up_ok e events : event_ok e -> Forall event_ok events -> Forall event_ok (line_up e events).
Proof. intros He Hs. unfold line_up. rewrite sort_insert_perm. by constructor. Qed.

Lemma line_up_sorted e events : due_sorted events -> due_sorted (line_up e events).
Proof. apply sort_insert_sorted; [intros a b c; lia|intros y; b2p; lia..]. Qed.

Lemma sim_insert m t e : sim m t -> event_ok e ->
  sim (set_store m (store_insert (row e) (_eventMap m))) (with_events t (line_up e (tl_events t))).
Proof.
  intros H He. apply sim_with_events; [done| | |].
  - by rewrite store_insert_row, (sim_store _ _ H).
  - apply line_up_ok; [done|apply H].
  - apply line_up_sorted, H.
Qed.

Lemma sim_filter m t f g : sim m t -> Forall (fun e => f (row e) = g e) (tl_events t) ->
  sim (set_store m (List.filter f (_eventMap m))) (with_events t (List.filter g (tl_events t))).
Proof.
  intros H Hf. apply sim_with_events; [done| | |].
  - rewrite (sim_store _ _ H). by apply filter_fmap.
  - apply filter_Forall, H.
  - apply filter_sorted, H.
Qed.

(** ** Each call *)

Lemma in_range n : 0 <= n -> nz n && (n <=? 8) = one_to_eight n.
Proof. intros Hn. apply eq_true_iff_eq. unfold one_to_eight. b2p. lia. Qed.

Lemma off_range n : 0 <= n -> negb (nz n) || (8 <? n) = negb (one_to_eight n).
Proof. intros Hn. apply eq_true_iff_eq. unfold one_to_eight. b2p. lia. Qed.

Lemma one_to_eight_spec n : one_to_eight n = true <-> 1 <= n <= 8.
Proof. unfold one_to_eight. b2p. lia. Qed.

(** The event of a call, with what is out of range dropped. *)
Definition new_event (due eventId group phase : Z) : Event :=
  mkEvent due eventId (if one_to_eight group then group else 0) (if one_to_eight phase then phase else 0).

Lemma new_event_ok due eventId group phase : 0 <= eventId < 2 ^ 16 -> event_ok (new_event due eventId group phase).
Proof.
  intros Hi. split; cbn; [done| |].
  - destruct (one_to_eight group) eqn:E; [apply one_to_eight_spec in E|]; lia.
  - destruct (one_to_eight phase) eqn:E; [apply one_to_eight_spec in E|]; lia.
Qed.

Lemma packed_new due eventId group phase : 0 <= group -> 0 <= phase ->
  packed (new_event due eventId group phase) =
    let eventId := if nz group && (group <=? 8) then Z.lor eventId (Z.shiftl 1 (group + 15)) else eventId in
    if nz phase && (phase <=? 8) then Z.lor eventId (Z.shiftl 1 (phase + 23)) else eventId.
Proof.
  intros Hg Hp. rewrite !in_range by done. unfold packed, new_event. cbn.
  destruct (one_to_eight group) eqn:Eg, (one_to_eight phase) eqn:Ep; rewrite ?one_to_eight_spec in *;
    rewrite ?(proj2 (nz_true group)), ?(proj2 (nz_true phase)) by lia; cbn; by rewrite ?Z.lor_0_r.
Qed.

Lemma ScheduleEvent_sim m t eventId time group phase : sim m t ->
  0 <= eventId < 2 ^ 16 -> 0 <= group -> 0 <= phase ->
  sim (ScheduleEvent eventId time group phase m) (t_schedule t eventId time group phase).
Proof.
  intros H Hi Hg Hp.
  pose proof (sim_insert m t (new_event (tl_now t +32 time) eventId group phase) H (new_event_ok _ _ _ _ Hi)) as Hs.
  unfold row in Hs. rewrite packed_new in Hs by done. unfold ScheduleEvent. by rewrite (sim_time _ _ H).
Qed.

Lemma has_id_row eventId e : event_ok e -> has_id eventId (row e) = (eventId =? ev_id e).
Proof. intros He. unfold has_id. cbn. by rewrite packed_id. Qed.

Lemma Empty_events m t : sim m t -> Empty m = bool_decide (tl_events t = []).
Proof. intros H. unfold Empty. rewrite (sim_store _ _ H). by destruct (tl_events t). Qed.

(** Nothing is left out of an empty map. *)
Lemma sim_empty m t f : sim m t -> Empty m = true -> sim m (with_events t (List.filter f (tl_events t))).
Proof.
  intros H He. rewrite (Empty_events _ _ H) in He. apply bool_decide_eq_true in He.
  destruct t. cbn in *. by subst.
Qed.

Lemma CancelEvent_sim m t eventId : sim m t -> sim (CancelEvent eventId m) (t_cancel t eventId).
Proof.
  intros H. unfold CancelEvent, t_cancel. destruct (Empty m) eqn:E; [by apply sim_empty|].
  apply sim_filter; [done|]. eapply Forall_impl; [apply H|]. intros e He. cbn. by rewrite has_id_row, Z.eqb_sym.
Qed.

Lemma in_group_rows m t group : sim m t -> 1 <= group <= 8 ->
  Forall (fun e => in_group group (row e) = (ev_group e =? group)) (tl_events t).
Proof. intros H Hg. eapply Forall_impl; [apply H|]. intros e He. by apply packed_group. Qed.

Lemma CancelEventGroup_sim m t group : sim m t -> 0 <= group ->
  sim (CancelEventGroup group m) (t_call t (CCancelGroup group)).2.
Proof.
  intros H Hg. unfold CancelEventGroup. rewrite off_range by done. cbn.
  destruct (one_to_eight group) eqn:E; cbn; [|done]. apply one_to_eight_spec in E.
  destruct (Empty m) eqn:Em; [by apply sim_empty|]. apply sim_filter; [done|].
  eapply Forall_impl; [by apply (in_group_rows m t group)|]. cbn. by intros e ->.
Qed.

(** ** Execution *)

Lemma next_event_late t events : Forall (fun e => is_due t e = false) events -> next_event t events = None.
Proof. induction 1 as [|e events He Hs IH]; cbn; [done|]. by rewrite He. Qed.

Lemma late_after t e events : is_due t e = false -> Forall (fun e' => ev_due e <= ev_due e') events ->
  Forall (fun e' => is_due t e' = false) events.
Proof. unfold is_due. intros He Hs. eapply Forall_impl; [exact Hs|]. cbn. intros e' Hl. b2p. lia. Qed.

(** The test of the loop is the negation of [in_phase]. *)
Lemma skips_out_of_phase t e mask : event_ok e -> mask_ok mask (tl_phases t) ->
  nz mask && nz (Z.land (packed e) 0xFF000000) && negb (nz (Z.land (Z.shiftr (packed e) 24) mask)) =
    negb (in_phase t e).
Proof.
  intros He Hm. rewrite packed_has_phase by done. apply eq_true_iff_eq. unfold in_phase.
  rewrite !andb_true_iff, !negb_true_iff, !orb_false_iff, <- !not_true_iff_false, packed_in_phase by done.
  rewrite !bool_decide_eq_true, Z.eqb_eq, !nz_true, <- (mask_zero _ _ Hm), nz_false.
  destruct (Z.eq_dec (ev_phase e) 0); tauto.
Qed.

Lemma execute_next t events mask : mask_ok mask (tl_phases t) -> Forall event_ok events -> due_sorted events ->
  execute (tl_now t) mask (row <$> events) =
    match next_event t events with
    | Some (e, rest) => (Some (packed e), row <$> rest)
    | None => (None, row <$> List.filter (fun e => negb (is_due t e)) events)
    end.
Proof.
  intros Hm Ho. induction Ho as [|e events He Ho IH]; intros Hs; [done|].
  inversion_clear Hs as [|? ? Hs' Hd]. cbn -[Z.land Z.shiftr]. rewrite (skips_out_of_phase t), Z.ltb_antisym by done.
  change (ev_due e <=? tl_now t) with (is_due t e). destruct (is_due t e) eqn:Ed; cbn.
  - destruct (in_phase t e); cbn; [done|]. by apply IH.
  - pose proof (late_after t e events Ed Hd) as Hl. rewrite next_event_late by done.
    rewrite filter_id; [done|]. eapply Forall_impl; [exact Hl|]. by intros ? ->.
Qed.

Lemma next_event_suffix t events e rest : next_event t events = Some (e, rest) ->
  exists skipped, events = skipped ++ e :: rest.
Proof.
  induction events as [|e' events IH]; cbn; [done|]. destruct (is_due t e' && in_phase t e'); intros H.
  - simplify_eq. by exists [].
  - apply IH in H as [skipped ->]. by exists (e' :: skipped).
Qed.

Lemma ExecuteEvent_sim m t : sim m t ->
  (ExecuteEvent m).1 = (t_call t CExecute).1 /\ sim (ExecuteEvent m).2 (t_call t CExecute).2.
Proof.
  intros H. unfold ExecuteEvent. rewrite (sim_store _ _ H), (sim_time _ _ H).
  rewrite execute_next by apply H. cbn. destruct (next_event t (tl_events t)) as [[e rest]|] eqn:E; cbn.
  - apply next_event_suffix in E as [skipped E]. pose proof (sim_events _ _ H) as Ho. rewrite E in Ho.
    apply Forall_app in Ho as [_ Ho]. inversion_clear Ho as [|? ? He Ho']. split; [by apply packed_id|].
    split; cbn; try done; try apply H.
    pose proof (sim_sorted _ _ H) as Hs. rewrite E in Hs. apply StronglySorted_app in Hs as (_ & _ & Hs).
    by inversion_clear Hs.
  - split; [done|]. apply sim_with_events; [done..|apply filter_Forall, H|apply filter_sorted, H].
Qed.

(** ** Delays *)

(** Inserting rows one after another is lining up their events. *)
Lemma insert_rows h (g : Event -> Event) events : forall acc,
  Forall (fun e => h (row e) = row (g e)) events ->
  foldl (fun store r => store_insert (h r) store) (row <$> acc) (row <$> events) =
    row <$> foldl (fun acc e => line_up (g e) acc) acc events.
Proof.
  induction events as [|e events IH]; intros acc Hs; cbn; [done|].
  inversion_clear Hs as [|? ? He Hs']. by rewrite He, <- store_insert_row, IH.
Qed.

Lemma line_up_all_ok (g : Event -> Event) events : forall acc,
  Forall (fun e => event_ok (g e)) events -> Forall event_ok acc -> due_sorted acc ->
  Forall event_ok (foldl (fun acc e => line_up (g e) acc) acc events) /\
  due_sorted (foldl (fun acc e => line_up (g e) acc) acc events).
Proof.
  induction events as [|e events IH]; intros acc Hs Ho Hd; cbn; [done|].
  inversion_clear Hs as [|? ? He Hs']. apply IH; [done|by apply line_up_ok|by apply line_up_sorted].
Qed.

Lemma DelayEvents_group_sim m t delay group : sim m t -> 0 <= group ->
  sim (DelayEvents_group delay group m) (t_call t (CDelayGroup delay group)).2.
Proof.
  intros H Hg. unfold DelayEvents_group. rewrite off_range by done. cbn.
  destruct (one_to_eight group) eqn:E; cbn; [|done]. apply one_to_eight_spec in E.
  destruct (Empty m) eqn:Em.
  { rewrite (Empty_events _ _ H) in Em. apply bool_decide_eq_true in Em. rewrite Em. cbn.
    destruct t. cbn in *. by subst. }
  pose proof (in_group_rows m t group H E) as Hr. rewrite (sim_store _ _ H).
  rewrite (filter_fmap row (in_group group) (fun e => ev_group e =? group)) by exact Hr.
  rewrite (filter_fmap row _ (fun e => negb (ev_group e =? group))).
  2: { eapply Forall_impl; [exact Hr|]. cbn. by intros e ->. }
  set (late e := mkEvent (ev_due e +32 delay) (ev_id e) (ev_group e) (ev_phase e)).
  pose proof (insert_rows (fun r => (r.1 +32 delay, r.2)) late (List.filter (fun e => ev_group e =? group) (tl_events t)) [])
    as Hl. cbn [fmap list_fmap] in Hl. rewrite Hl by (by apply Forall_true).
  rewrite (insert_rows id id) by (by apply Forall_true).
  destruct (line_up_all_ok late (List.filter (fun e => ev_group e =? group) (tl_events t)) []) as [Ho _].
  { apply filter_Forall. eapply Forall_impl; [apply H|]. intros e [? ? ?]. subst late. by split. }
  { constructor. } { constructor. }
  destruct (line_up_all_ok id (foldl (fun acc e => line_up (late e) acc) []
    (List.filter (fun e => ev_group e =? group) (tl_events t)))
    (List.filter (fun e => negb (ev_group e =? group)) (tl_events t))) as [Ho' Hd'].
  { done. } { apply filter_Forall, H. } { apply filter_sorted, H. }
  by apply sim_with_events.
Qed.

Lemma DelayEvents_sim m t delay : sim m t -> 0 <= delay -> sim (DelayEvents delay m) (t_call t (CDelay delay)).2.
Proof.
  intros H Hd. pose proof (sim_now _ _ H) as Hn. unfold DelayEvents. rewrite (sim_time _ _ H). cbn.
  replace (if delay <? tl_now t then tl_now t -32 delay else 0) with (Z.max 0 (tl_now t - delay)).
  - apply sim_at_time; [done|lia].
  - destruct (Z.ltb_spec delay (tl_now t)); [|lia]. wrap_small. lia.
Qed.

(** ** Any calls *)

Lemma SetPhase_sim m t phase : sim m t -> 0 <= phase -> sim (SetPhase phase m) (t_call t (CSetPhase phase)).2.
Proof.
  intros H Hp. unfold SetPhase. cbn. destruct (Z.eqb_spec phase 0) as [->|Hn]; cbn.
  - apply sim_phases; [done|apply no_mask_ok].
  - rewrite (proj2 (nz_true phase) Hn), <- (in_range phase Hp), (proj2 (nz_true phase) Hn). cbn.
    destruct (Z.leb_spec phase 8); [|done]. apply sim_phases; [done|]. apply bit_mask_ok. lia.
Qed.

Lemma AddPhase_sim m t phase : sim m t -> 0 <= phase -> sim (AddPhase phase m) (t_call t (CAddPhase phase)).2.
Proof.
  intros H Hp. unfold AddPhase. rewrite in_range by done. cbn. destruct (one_to_eight phase) eqn:E; [|done].
  apply one_to_eight_spec in E. apply sim_phases; [done|]. apply mask_union; [apply H|by apply bit_mask_ok].
Qed.

Lemma RemovePhase_sim m t phase : sim m t -> 0 <= phase ->
  sim (RemovePhase phase m) (t_call t (CRemovePhase phase)).2.
Proof.
  intros H Hp. unfold RemovePhase. rewrite in_range by done. cbn. destruct (one_to_eight phase) eqn:E; [|done].
  apply one_to_eight_spec in E. apply sim_phases; [done|]. apply mask_remove; [apply H|done].
Qed.

Lemma IsInPhase_sim m t phase : sim m t -> 0 <= phase ->
  IsInPhase phase m = bool_decide (phase = 0 \/ phase ∈ tl_phases t).
Proof.
  intros H Hp. pose proof (sim_phase _ _ H) as [Hr Hb Hs]. apply eq_true_iff_eq. rewrite bool_decide_eq_true.
  unfold IsInPhase. rewrite andb_true_iff, orb_true_iff, negb_true_iff, nz_false, Z.leb_le.
  destruct (Z.eq_dec phase 0) as [->|Hn]; [split; [tauto|]; intros _; split; [lia|by left]|].
  rewrite nz_land_one by lia. split.
  - intros [Hl [?|Ht]]; [done|]. right. by apply Hb in Ht; [|lia].
  - intros [?|Hin]; [done|]. pose proof (Hs _ Hin). split; [lia|]. right. by apply Hb.
Qed.

Lemma find_row m t eventId : sim m t ->
  List.find (has_id eventId) (_eventMap m) = row <$> first_of eventId t.
Proof.
  intros H. rewrite (sim_store _ _ H). unfold first_of.
  induction (sim_events _ _ H) as [|e events He Hs IH]; cbn; [done|]. rewrite has_id_row by done.
  by destruct (eventId =? ev_id e).
Qed.

Lemma call_sim m t c : sim m t -> call_ok c = true ->
  (call m c).1 = (t_call t c).1 /\ sim (call m c).2 (t_call t c).2.
Proof.
  intros H Hc. destruct c; cbn in Hc; b2p; try (split; [done|]); cbn [call fst snd].
  - split; cbn; try done; try apply H; [apply no_mask_ok|constructor..].
  - unfold Update. rewrite (sim_time _ _ H). apply sim_at_time; [done|apply u32_bound].
  - by apply SetPhase_sim.
  - by apply AddPhase_sim.
  - by apply RemovePhase_sim.
  - apply ScheduleEvent_sim; [done|lia..].
  - apply ScheduleEvent_sim; [by apply CancelEvent_sim|lia..].
  - unfold Repeat. rewrite (sim_time _ _ H), (sim_last _ _ H).
    apply (sim_insert m t (mkEvent _ (ev_id (tl_last t)) (ev_group (tl_last t)) (ev_phase (tl_last t)))); [done|].
    by destruct (sim_last_ok _ _ H).
  - by apply ExecuteEvent_sim.
  - by apply DelayEvents_sim.
  - by apply DelayEvents_group_sim.
  - by apply CancelEvent_sim.
  - by apply CancelEventGroup_sim.
  - cbn. by rewrite (Empty_events _ _ H).
  - cbn. by rewrite <- (sim_time _ _ H).
  - cbn. unfold GetNextEventTime. rewrite (sim_store _ _ H). by destruct (tl_events t).
  - cbn. unfold GetNextEventTime_of. rewrite (find_row _ _ _ H). by destruct (first_of eventId t).
  - cbn. by rewrite (IsInPhase_sim _ _ _ H).
  - cbn. unfold GetTimeUntilEvent. rewrite (find_row _ _ _ H), (sim_time _ _ H). by destruct (first_of eventId t).
Qed.

Lemma calls_sim cs : forall m t, sim m t -> Forall (fun c => call_ok c = true) cs ->
  (calls m cs).1 = (t_calls t cs).1 /\ sim (calls m cs).2 (t_calls t cs).2.
Proof.
  induction cs as [|c cs IH]; intros m t H Hc; [done|]. inversion_clear Hc as [|? ? Hc' Hcs].
  destruct (call_sim m t c H Hc') as [Hr Hs]. cbn.
  destruct (call m c) as [r m'], (t_call t c) as [r' t']. cbn in Hr, Hs. subst r'.
  destruct (IH _ _ Hs Hcs) as [Hrs Hss]. destruct (calls m' cs), (t_calls t' cs). cbn in *. by subst.
Qed.

(** C13. Whatever calls a script makes, it gets the answers of the timeline: ids,
    groups and phases never mix, due events come first come first served, and
    the phases are the set the script asked for. *)
Theorem EventMap_refines cs :
  Forall (fun c => call_ok c = true) cs ->
  (calls EventMap_default cs).1 = (t_calls Timeline_default cs).1.
Proof. intros H. by apply calls_sim; [apply EventMap_sim_default|]. Qed.

Definition sample_calls : list Call :=
  [CSchedule 1 100 0 0; CSchedule 2 50 8 1; CSchedule 3 50 1 2; CSchedule 4 50 0 0; CSetPhase 2; CUpdate 50;
   CExecute; CRepeat 70; CExecute; CExecute; CNextTime; CDelayGroup 5 1; CUpdate 75; CExecute; CIsInPhase 2; CIsInPhase 1;
   CTimeUntil 3; CExecute; CCancel 1; CEmpty].

Lemma EventMap_refines_witness :
  (calls EventMap_default sample_calls).1 = [0; 0; 0; 0; 0; 0; 3; 0; 4; 0; 100; 0; 0; 1; 1; 0; 0; 3; 0; 1].
Proof. rewrite EventMap_refines; [by vm_compute|]. by repeat constructor. Defined.

(** ** Polling

    The loop of a script's update: it executes events until there is none,
    and each may schedule others. *)

Fixpoint poll (fuel : nat) (handle : Z -> list Call) (m : EventMap) : option (list Z * EventMap) :=
  match fuel with
  | O => None
  | S fuel =>
      let '(eventId, m) := ExecuteEvent m in
      if nz eventId
      then '(fired, m) ← poll fuel handle (calls m (handle eventId)).2; Some (eventId :: fired, m)
      else Some ([], m)
  end.

(** The handlers schedule events for a later time, which does not wrap. *)
Definition schedules_later (now : Z) (c : Call) : bool :=
  call_ok c &&
  match c with
  | CSchedule _ time _ _ | CRepeat time => (1 <=? time) && (now + time <? 2 ^ 32)
  | _ => false
  end.

Definition due_now (t : Timeline) (e : Event) : bool := is_due t e && in_phase t e.

Notation not_due t := (List.filter (fun e => negb (is_due t e))).

Lemma next_event_filter t events :
  match next_event t events with
  | Some (e, rest) => List.filter (due_now t) events = e :: List.filter (due_now t) rest
  | None => List.filter (due_now t) events = []
  end.
Proof.
  induction events as [|e events IH]; cbn; [done|]. change (is_due t e && in_phase t e) with (due_now t e).
  by destruct (due_now t e).
Qed.

(** What is executed leaves every event that is not due. *)
Lemma next_event_not_due t events e rest : due_sorted events -> next_event t events = Some (e, rest) ->
  not_due t events = not_due t rest.
Proof.
  revert e rest. induction events as [|e' events IH]; intros e rest Hs; cbn; [done|].
  inversion_clear Hs as [|? ? Hs' Hd]. destruct (is_due t e') eqn:Ed; cbn.
  - destruct (in_phase t e'); intros H; [by simplify_eq|]. by apply (IH e).
  - intros H. rewrite next_event_late in H; [done|]. by apply (late_after t e').
Qed.

Lemma filter_line_up f e events : f e = false -> List.filter f (line_up e events) = List.filter f events.
Proof.
  intros He. unfold line_up. induction events as [|e' events IH]; cbn; [by rewrite He|].
  destruct (ev_due e' <=? ev_due e); cbn; [by rewrite IH|by rewrite He].
Qed.

Lemma filter_line_up_keeps f e events : List.filter f events ⊆+ List.filter f (line_up e events).
Proof.
  unfold line_up. induction events as [|e' events IH]; cbn; [apply submseteq_nil_l|].
  destruct (ev_due e' <=? ev_due e); cbn; [destruct (f e'); [by apply submseteq_skip|done]|].
  destruct (f e), (f e'); try done; by apply submseteq_cons.
Qed.

Definition same_moment (t t' : Timeline) : Prop := tl_now t' = tl_now t /\ tl_phases t' = tl_phases t.

Lemma due_now_same t t' e : same_moment t t' -> due_now t' e = due_now t e.
Proof. intros [Hn Hp]. unfold due_now, is_due, in_phase. by rewrite Hn, Hp. Qed.

(** A handler changes neither the moment nor what is due, and takes nothing away. *)
Lemma later_calls cs : forall t, 0 <= tl_now t -> Forall (fun c => schedules_later (tl_now t) c = true) cs ->
  same_moment t (t_calls t cs).2 /\
  List.filter (due_now t) (tl_events (t_calls t cs).2) = List.filter (due_now t) (tl_events t) /\
  not_due t (tl_events t) ⊆+ not_due t (tl_events (t_calls t cs).2).
Proof.
  induction cs as [|c cs IH]; intros t H0 Hc; [done|]. inversion_clear Hc as [|? ? Hc' Hcs].
  assert (exists e, (t_call t c).2 = with_events t (line_up e (tl_events t)) /\ is_due t e = false) as (e & Ec & He).
  { destruct c; unfold schedules_later in Hc'; cbn in Hc'; b2p; try done; try (by destruct Hc');
      cbn; unfold t_schedule; (eexists; split; [done|]); unfold is_due; cbn; wrap_small; apply Z.leb_gt; lia. }
  cbn. destruct (t_call t c) as [r t1]. cbn in Ec. subst t1. set (t1 := with_events t (line_up e (tl_events t))) in *.
  destruct (IH t1 H0 Hcs) as ([Hn Hp] & Hf & Hk). destruct (t_calls t1 cs) as [rs t2]. cbn [snd] in *.
  split; [done|]. split.
  - etrans; [exact Hf|]. apply filter_line_up. unfold due_now. by rewrite He.
  - etrans; [|exact Hk]. apply filter_line_up_keeps.
Qed.

Lemma poll_sim handle n : forall fuel m t, sim m t ->
  (forall eventId, Forall (fun c => schedules_later (tl_now t) c = true) (handle eventId)) ->
  Forall (fun e => ev_id e <> 0) (List.filter (due_now t) (tl_events t)) ->
  length (List.filter (due_now t) (tl_events t)) = n -> (n < fuel)%nat ->
  exists m' t', poll fuel handle m = Some (ev_id <$> List.filter (due_now t) (tl_events t), m') /\
    sim m' t' /\ same_moment t t' /\ Forall (fun e => is_due t e = false) (tl_events t') /\
    not_due t (tl_events t) ⊆+ tl_events t'.
Proof.
  induction n as [|n IH]; intros [|fuel] m t H Hh Hid Hn Hf; try lia;
    destruct (ExecuteEvent_sim m t H) as [Hr Hs]; cbn in Hr, Hs; cbn [poll];
    destruct (ExecuteEvent m) as [id m1]; pose proof (next_event_filter t (tl_events t)) as Hne;
    destruct (next_event t (tl_events t)) as [[e rest]|] eqn:E; rewrite Hne in *; try done; cbn in Hr, Hs; subst id.
  - cbn. eexists _, _. split; [done|]. split; [exact Hs|]. split; [done|]. cbn. split; [|done].
    apply Forall_forall. intros e He. apply list_elem_of_In, filter_In in He as [_ He]. by apply negb_true_iff.
  - inversion_clear Hid as [|? ? Hid1 Hid']. rewrite (proj2 (nz_true _) Hid1).
    set (t1 := mkTimeline (tl_now t) (tl_phases t) rest e) in *.
    assert (Hc : Forall (fun c => call_ok c = true) (handle (ev_id e))).
    { eapply Forall_impl; [apply Hh|]. intros c Hc. by apply andb_true_iff in Hc as [? _]. }
    destruct (calls_sim (handle (ev_id e)) m1 t1 Hs Hc) as [_ Hs2].
    destruct (later_calls (handle (ev_id e)) t1) as (Hm & Hd & Hk); [apply Hs|apply Hh|].
    set (t2 := (t_calls t1 (handle (ev_id e))).2) in *.
    assert (Hd2 : List.filter (due_now t2) (tl_events t2) = List.filter (due_now t) rest).
    { etrans; [|exact Hd]. apply filter_ext. intros x. by apply due_now_same. }
    destruct (IH fuel _ t2 Hs2) as (m' & t' & Hp & Hs' & Hm' & Hl & Hk').
    + intros i. destruct Hm as [-> _]. apply Hh.
    + by rewrite Hd2.
    + rewrite Hd2. cbn in Hn. lia.
    + lia.
    + exists m', t'. rewrite Hp, Hd2, (next_event_not_due t _ _ _ (sim_sorted _ _ H) E). cbn. destruct Hm as [Hn1 Hp1], Hm' as [Hn2 Hp2]. unfold is_due in *.
      split; [done|]. split; [done|]. split; [by split; etrans|]. rewrite Hn1 in Hl, Hk'. split; [done|].
      etrans; [exact Hk|exact Hk'].
Qed.

Notation after now := (List.filter (fun r : Z * Z => now <? r.1)).

(** C14. After any calls, polling executes exactly the events that are due and in
    phase, in the order of their times and each once, whatever the handlers
    schedule for later; it ends, no event that is due is left, and no event
    that was not due is lost. *)
Theorem poll_fires cs handle :
  let '(m, t) := ((calls EventMap_default cs).2, (t_calls Timeline_default cs).2) in
  Forall (fun c => call_ok c = true) cs ->
  Forall (fun e => ev_id e <> 0) (tl_events t) ->
  (forall eventId, Forall (fun c => schedules_later (_time m) c = true) (handle eventId)) ->
  exists m', poll (S (length (_eventMap m))) handle m = Some (ev_id <$> List.filter (due_now t) (tl_events t), m') /\
    _time m' = _time m /\ Forall (fun r => _time m < r.1) (_eventMap m') /\
    after (_time m) (_eventMap m) ⊆+ _eventMap m'.
Proof.
  intros Hc Hid Hh. destruct (calls_sim cs _ _ EventMap_sim_default Hc) as [_ Hs].
  set (m := (calls EventMap_default cs).2) in *. set (t := (t_calls Timeline_default cs).2) in *.
  rewrite (sim_time _ _ Hs) in *.
  destruct (poll_sim handle _ (S (length (_eventMap m))) m t Hs Hh (filter_Forall _ _ _ Hid) eq_refl)
    as (m' & t' & Hp & Hs' & [Hn _] & Hl & Hk).
  { rewrite (sim_store _ _ Hs), length_fmap. pose proof (filter_le (due_now t) (tl_events t)). lia. }
  exists m'. split; [done|]. rewrite (sim_time _ _ Hs'), (sim_store _ _ Hs), (sim_store _ _ Hs'). split; [done|]. split.
  - apply Forall_fmap. eapply Forall_impl; [exact Hl|]. intros e He. apply Z.leb_gt in He. exact He.
  - rewrite (filter_fmap row _ (fun e => negb (is_due t e))); [by apply fmap_submseteq|].
    apply Forall_true. intros e. apply Z.ltb_antisym.
Qed.

(** An event that repeats itself, one of another phase, two of one time, and
    one that is not due. *)
Lemma poll_fires_witness :
  exists m', poll 6 (fun eventId => if eventId =? 1 then [CRepeat 100] else [])
    (calls EventMap_default [CSchedule 1 10 0 0; CSchedule 2 20 0 1; CSchedule 3 20 3 2; CSchedule 4 20 0 0;
       CSchedule 5 21 0 0; CSetPhase 2; CUpdate 20]).2 = Some ([1; 3; 4], m') /\
    Forall (fun r => 20 < r.1) (_eventMap m').
Proof.
  destruct (poll_fires [CSchedule 1 10 0 0; CSchedule 2 20 0 1; CSchedule 3 20 3 2; CSchedule 4 20 0 0;
       CSchedule 5 21 0 0; CSetPhase 2; CUpdate 20] (fun eventId => if eventId =? 1 then [CRepeat 100] else []))
    as (m' & Hp & _ & Hl & _).
  - by repeat constructor.
  - by repeat constructor.
  - intros eventId. by destruct (eventId =? 1); repeat constructor.
  - exists m'. split; [|exact Hl]. etrans; [exact Hp|]. by vm_compute.
Defined.
