(* ===== verification/LfgRoles.v ===== *)
(** The roles of a dungeon group ([DungeonFinding/LFG.h],
    [LFGMgr::CheckGroupRoles]): whether players who offer several roles can
    fill a dungeon, and who plays what. *)
From Stdlib Require Import ZArith Lia.
From stdpp Require Import base gmap list sorting.
From S2P Require Import Prelude.

Open Scope Z_scope.
Open Scope tc_scope.

(** ** Roles *)

Definition PLAYER_ROLE_NONE : Z := 0.
Definition PLAYER_ROLE_LEADER : Z := 1.
Definition PLAYER_ROLE_TANK : Z := 2.
Definition PLAYER_ROLE_HEALER : Z := 4.
Definition PLAYER_ROLE_DAMAGE : Z := 8.

(** From a player's guid to the roles, a [uint8] of flags. *)
Notation LfgRolesMap := (gmap Z Z).

Record LFGDungeonData : Type := mkDungeon {
  dg_id : Z; dg_type : Z; requiredTanks : Z; requiredHealers : Z; requiredDamageDealers : Z }.

(** The sum of three [uint32]. *)
Definition GetMaxGroupSize (dungeon : LFGDungeonData) : Z :=
  requiredTanks dungeon +32 requiredHealers dungeon +32 requiredDamageDealers dungeon.

(** The guids of a map in the order of iteration. *)
Definition guids (roles : LfgRolesMap) : list Z := stable_sort Z.ltb (elements (dom roles : gset Z)).

Definition no_leader (role : Z) : Z := Z.ldiff role PLAYER_ROLE_LEADER.

(** ** [CheckGroupRoles] *)

(** A block of the loop's body returns from the function, or goes on. *)
Inductive Block : Type :=
| Return (result : bool) (roles : LfgRolesMap)
| GoOn (count : Z) (roles : LfgRolesMap).

Section CheckGroupRoles.
Context (check : LfgRolesMap -> option (bool * LfgRolesMap)) (dungeon : LFGDungeonData).

(** [if (role & bit)]: try without the role, or count it. *)
Definition check_bit (bit required : Z) (guid role count : Z) (groles : LfgRolesMap) : option Block :=
  if nz (Z.land role bit) then
    if negb (role =? bit) then
      '(result, groles) ← check (<[guid := u8 (groles !!! guid - bit)]> groles);
      Some (if result : bool then Return true groles
            else GoOn count (<[guid := u8 (groles !!! guid + bit)]> groles))
    else if count =? required then Some (Return false groles)
    else Some (GoOn (u8 (count + 1)) groles)
  else Some (GoOn count groles).

Fixpoint check_players (keys : list Z) (damage healer tank : Z) (groles : LfgRolesMap) :
    option (bool * LfgRolesMap) :=
  match keys with
  | [] => Some (tank + healer + damage =? u8 (Z.of_nat (size groles)), groles)
  | guid :: keys =>
      let role := no_leader (groles !!! guid) in
      if role =? PLAYER_ROLE_NONE then Some (false, groles) else
      block ← check_bit PLAYER_ROLE_DAMAGE (requiredDamageDealers dungeon) guid role damage groles;
      match block with
      | Return result groles => Some (result, groles)
      | GoOn damage groles =>
          block ← check_bit PLAYER_ROLE_HEALER (requiredHealers dungeon) guid role healer groles;
          match block with
          | Return result groles => Some (result, groles)
          | GoOn healer groles =>
              block ← check_bit PLAYER_ROLE_TANK (requiredTanks dungeon) guid role tank groles;
              match block with
              | Return result groles => Some (result, groles)
              | GoOn tank groles => check_players keys damage healer tank groles
              end
          end
      end
  end.
End CheckGroupRoles.

Fixpoint CheckGroupRoles_fuel (fuel : nat) (dungeon : LFGDungeonData) (groles : LfgRolesMap) :
    option (bool * LfgRolesMap) :=
  match fuel with
  | O => None
  | S fuel =>
      if bool_decide (groles = ∅) then Some (false, groles)
      else check_players (CheckGroupRoles_fuel fuel dungeon) dungeon (guids groles) 0 0 0 groles
  end.

(** Every nested call has one role less to try. *)
Definition CheckGroupRoles (groles : LfgRolesMap) (dungeon : LFGDungeonData) : option (bool * LfgRolesMap) :=
  CheckGroupRoles_fuel (S (3 * size groles)) dungeon groles.

Definition sample_dungeon : LFGDungeonData := mkDungeon 1 1 1 1 3.

Example sample_group :
  CheckGroupRoles (list_to_map [(1, 0xE); (2, 0xF); (3, 0xE); (4, 0x8); (5, 0xC)]) sample_dungeon =
    Some (true, list_to_map [(1, 2); (2, 5); (3, 8); (4, 8); (5, 8)]).
Proof. by vm_compute. Qed.

Example two_tanks :
  CheckGroupRoles (list_to_map [(1, 2); (2, 2)]) sample_dungeon = Some (false, list_to_map [(1, 2); (2, 2)]).
Proof. by vm_compute. Qed.
