(* ===== verification/LfgRolesSpec.v ===== *)
(** What [CheckGroupRoles] decides: whether each player can be given one of
    the roles offered within the requirements of the dungeon. *)
From Stdlib Require Import ZArith Lia.
From stdpp Require Import base gmap list sorting.
From S2P Require Import Prelude LfgRoles.

Open Scope Z_scope.
Open Scope tc_scope.

(** ** Assignments *)

Definition is_role (role : Z) : Prop := role = PLAYER_ROLE_TANK \/ role = PLAYER_ROLE_HEALER \/ role = PLAYER_ROLE_DAMAGE.

(** The required number of players of a role. *)
Definition required (dungeon : LFGDungeonData) (role : Z) : Z :=
  if role =? PLAYER_ROLE_TANK then requiredTanks dungeon
  else if role =? PLAYER_ROLE_HEALER then requiredHealers dungeon else requiredDamageDealers dungeon.

(** How many of some players are given a role. *)
Definition count_of (keys : list Z) (a : Z -> Z) (role : Z) : Z :=
  Z.of_nat (length (List.filter (fun guid => a guid =? role) keys)).

(** There are players, they offer known roles, each plays one that is offered, and no role has
    more players than the dungeon requires. *)
Record Fits (dungeon : LFGDungeonData) (groles : LfgRolesMap) (a : Z -> Z) : Prop := {
  ft_some : groles <> ∅;
  ft_offered : forall guid v, groles !! guid = Some v -> v < 16 /\ is_role (a guid) /\ Z.land v (a guid) <> 0;
  ft_count : forall role, is_role role -> count_of (guids groles) a role <= required dungeon role
}.

(** The roles after the assignment; the leader stays one. *)
Definition assign (groles : LfgRolesMap) (a : Z -> Z) : LfgRolesMap :=
  map_imap (fun guid v => Some (Z.lor (Z.land v PLAYER_ROLE_LEADER) (a guid))) groles.

Definition roles_ok (groles : LfgRolesMap) : Prop :=
  Z.of_nat (size groles) < 2 ^ 8 /\ map_Forall (fun _ v => 0 <= v < 2 ^ 8) groles.

(** ** The keys *)

Lemma elem_of_guids groles guid : guid ∈ guids groles <-> is_Some (groles !! guid).
Proof. unfold guids. by rewrite stable_sort_perm, elem_of_elements, elem_of_dom. Qed.

Lemma guids_nodup groles : NoDup (guids groles).
Proof. unfold guids. rewrite stable_sort_perm. apply NoDup_elements. Qed.

Lemma guids_size groles : length (guids groles) = size groles.
Proof. unfold guids. rewrite stable_sort_perm. by rewrite <- size_dom. Qed.

Lemma guids_insert groles guid v : is_Some (groles !! guid) -> guids (<[guid := v]> groles) = guids groles.
Proof. intros H. unfold guids. by rewrite dom_insert_lookup_L. Qed.

Lemma roles_ok_insert groles guid v : roles_ok groles -> is_Some (groles !! guid) -> 0 <= v < 2 ^ 8 ->
  roles_ok (<[guid := v]> groles).
Proof.
  intros [Hs Hv] H Hb. split; [by rewrite map_size_insert_Some by (by destruct H)|by apply map_Forall_insert_2].
Qed.

(** ** Offers *)

(** The number of roles a player offers. *)
Definition offers (v : Z) : nat := Z.to_nat (Z.b2z (Z.testbit v 1) + Z.b2z (Z.testbit v 2) + Z.b2z (Z.testbit v 3)).

Definition total_offers (groles : LfgRolesMap) : nat := sum_list_with (fun guid => offers (groles !!! guid)) (guids groles).

(** A fact about bytes is a finite check. *)
Lemma byte_cases (P : Z -> bool) : forallb P (seqZ 0 256) = true -> forall v, 0 <= v < 2 ^ 8 -> P v = true.
Proof.
  intros H v Hv. apply forallb_forall with (x := v) in H; [done|].
  apply list_elem_of_In, elem_of_seqZ. lia.
Qed.

(** Taking away a role of several, and what is left. *)
Definition removal_ok (b v : Z) : bool :=
  negb (nz (Z.land (no_leader v) b)) || (no_leader v =? b) ||
  (let v' := u8 (v - b) in
   (offers v' <? offers v)%nat && (u8 (v' + b) =? v) && (Z.land v' 1 =? Z.land v 1) && Bool.eqb (v' <? 16) (v <? 16) &&
   forallb (fun r => Bool.eqb (nz (Z.land v' r)) (nz (Z.land v r) && negb (r =? b)))
     [PLAYER_ROLE_TANK; PLAYER_ROLE_HEALER; PLAYER_ROLE_DAMAGE]).

(** A single role is the only one offered; with none nothing is; with several
    there is another beside each. *)
Definition choice_ok (v : Z) : bool :=
  let all := [PLAYER_ROLE_TANK; PLAYER_ROLE_HEALER; PLAYER_ROLE_DAMAGE] in
  let role := no_leader v in
  forallb (fun b =>
    (negb (role =? b) || (v <? 16) && (Z.lor (Z.land v 1) b =? v) && nz (Z.land v b) && nz (Z.land role b) &&
      forallb (fun r => Bool.eqb (nz (Z.land v r)) (r =? b)) all && forallb (fun r => Bool.eqb (nz (Z.land role r)) (r =? b)) all) &&
    (negb (role =? 0) || negb (nz (Z.land v b))) &&
    ((role =? b) || negb (v <? 16) || negb (nz (Z.land v b)) ||
      existsb (fun r => negb (r =? b) && nz (Z.land role r) && negb (role =? r)) all)) all.

Lemma removal v b : 0 <= v < 2 ^ 8 -> is_role b -> removal_ok b v = true.
Proof. intros Hv [->|[->| ->]]; (apply byte_cases; [by vm_compute|done]). Qed.

Lemma choice v : 0 <= v < 2 ^ 8 -> choice_ok v = true.
Proof. apply byte_cases. by vm_compute. Qed.

Lemma in_all b : is_role b -> In b [PLAYER_ROLE_TANK; PLAYER_ROLE_HEALER; PLAYER_ROLE_DAMAGE].
Proof. intros [->|[->| ->]]; cbn; auto. Qed.

Record Removed (v b v' : Z) : Prop := {
  rm_range : 0 <= v' < 2 ^ 8;
  rm_less : (offers v' < offers v)%nat;
  rm_back : u8 (v' + b) = v;
  rm_leader : Z.land v' 1 = Z.land v 1;
  rm_known : v' < 16 <-> v < 16;
  rm_offers : forall r, is_role r -> Z.land v' r <> 0 <-> Z.land v r <> 0 /\ r <> b
}.

Lemma remove_role v b : 0 <= v < 2 ^ 8 -> is_role b -> nz (Z.land (no_leader v) b) = true -> (no_leader v =? b) = false ->
  Removed v b (u8 (v - b)).
Proof.
  intros Hv Hb H1 H2. pose proof (removal v b Hv Hb) as H. unfold removal_ok in H.
  rewrite H1, H2 in H. cbn [negb orb] in H. rewrite !andb_true_iff in H. destruct H as ((((Hl & Hbk) & Hld) & Hk) & Hall).
  apply Nat.ltb_lt in Hl. b2p. apply eqb_prop in Hk. split; [apply u8_bound|done|done|done| |].
  - rewrite <- !Z.ltb_lt. by rewrite Hk.
  - intros r Hr. eapply forallb_forall in Hall; [|by apply in_all]. apply eqb_prop in Hall.
    rewrite <- !nz_true, Hall, andb_true_iff, negb_true_iff, Z.eqb_neq. done.
Qed.

Record Single (v b : Z) : Prop := {
  sg_known : v < 16;
  sg_role : Z.lor (Z.land v 1) b = v;
  sg_offered : Z.land v b <> 0;
  sg_only : forall r, is_role r -> Z.land v r <> 0 -> r = b;
  sg_skips : forall r, is_role r -> nz (Z.land (no_leader v) r) = (r =? b)
}.

Lemma single_role v b : 0 <= v < 2 ^ 8 -> is_role b -> no_leader v = b -> Single v b.
Proof.
  intros Hv Hb H. pose proof (choice v Hv) as Hc. unfold choice_ok in Hc.
  eapply forallb_forall in Hc; [|by apply in_all]. rewrite H, Z.eqb_refl in Hc. cbn [negb orb] in Hc.
  rewrite !andb_true_iff in Hc. destruct Hc as (((((((Hk & Hr) & Ho) & _) & Hall) & Hall') & _) & _). b2p.
  split; [done|done|done| |].
  - intros r Hr1 Hr2. eapply forallb_forall in Hall; [|by apply in_all]. apply eqb_prop in Hall.
    apply nz_true in Hr2. rewrite Hr2 in Hall. symmetry in Hall. by apply Z.eqb_eq in Hall.
  - intros r Hr1. rewrite H. eapply forallb_forall in Hall'; [|by apply in_all]. by apply eqb_prop in Hall'.
Qed.

Lemma no_role v r : 0 <= v < 2 ^ 8 -> is_role r -> no_leader v = 0 -> Z.land v r = 0.
Proof.
  intros Hv Hr H. pose proof (choice v Hv) as Hc. unfold choice_ok in Hc.
  eapply forallb_forall in Hc; [|by apply in_all]. rewrite H in Hc. rewrite !andb_true_iff in Hc.
  destruct Hc as ((_ & Hc) & _). cbn in Hc. apply negb_true_iff in Hc. by apply nz_false.
Qed.

Lemma another_role v b : 0 <= v < 16 -> is_role b -> Z.land v b <> 0 -> no_leader v <> b ->
  exists r, is_role r /\ r <> b /\ nz (Z.land (no_leader v) r) = true /\ (no_leader v =? r) = false.
Proof.
  intros Hv Hb H1 H2. pose proof (choice v ltac:(lia)) as Hc. unfold choice_ok in Hc.
  eapply forallb_forall in Hc; [|by apply in_all]. rewrite !andb_true_iff in Hc. destruct Hc as (_ & Hc).
  apply nz_true in H1. rewrite H1, (proj2 (Z.ltb_lt v 16)), (proj2 (Z.eqb_neq _ _)) in Hc by (done || lia).
  cbn [negb orb] in Hc. apply existsb_exists in Hc as (r & Hr & Hc). rewrite !andb_true_iff in Hc.
  destruct Hc as ((Hc1 & Hc2) & Hc3). apply negb_true_iff in Hc1, Hc3. apply Z.eqb_neq in Hc1. exists r. split; [|done].
  unfold is_role. cbn in Hr. intuition congruence.
Qed.

(** ** Counting *)

Lemma count_of_cons guid keys a r :
  count_of (guid :: keys) a r = (if a guid =? r then 1 else 0) + count_of keys a r.
Proof. unfold count_of. cbn. destruct (a guid =? r); cbn [length]; lia. Qed.

Lemma count_of_app l l' a r : count_of (l ++ l') a r = count_of l a r + count_of l' a r.
Proof. unfold count_of. rewrite List.filter_app, length_app. lia. Qed.

Lemma count_of_nonneg l a r : 0 <= count_of l a r.
Proof. unfold count_of. lia. Qed.

Lemma count_of_mono l f a r : Forall (fun guid => f guid = r -> a guid = r) l -> count_of l f r <= count_of l a r.
Proof.
  induction 1 as [|guid l H Hl IH]; [done|]. rewrite !count_of_cons.
  destruct (Z.eqb_spec (f guid) r) as [E|_]; [|destruct (a guid =? r); lia].
  rewrite (H E), Z.eqb_refl. lia.
Qed.

(** The players of the three roles are all of them when each has one. *)
Lemma count_roles l f :
  let sum := count_of l f PLAYER_ROLE_TANK + count_of l f PLAYER_ROLE_HEALER + count_of l f PLAYER_ROLE_DAMAGE in
  sum <= Z.of_nat (length l) /\ (sum = Z.of_nat (length l) <-> Forall (fun guid => is_role (f guid)) l).
Proof.
  induction l as [|guid l [IH1 IH2]]; cbn [length]; [split; [done|]; split; [constructor|done]|].
  rewrite !count_of_cons, Forall_cons, <- IH2. unfold is_role, PLAYER_ROLE_TANK, PLAYER_ROLE_HEALER, PLAYER_ROLE_DAMAGE in *.
  destruct (Z.eqb_spec (f guid) 2), (Z.eqb_spec (f guid) 4), (Z.eqb_spec (f guid) 8); lia.
Qed.

(** ** Removing an offer *)

Implicit Type groles : LfgRolesMap.

Lemma lookup_role groles guid v : groles !! guid = Some v -> groles !!! guid = v.
Proof. intros H. by rewrite lookup_total_alt, H. Qed.

Lemma sum_list_with_ext {A} (f g : A -> nat) l : Forall (fun x => f x = g x) l -> sum_list_with f l = sum_list_with g l.
Proof. induction 1 as [|x l H Hl IH]; cbn; [done|]. by rewrite H, IH. Qed.

Lemma total_offers_less groles guid v v' : groles !! guid = Some v -> (offers v' < offers v)%nat ->
  (total_offers (<[guid := v']> groles) < total_offers groles)%nat.
Proof.
  intros Hv Hl. unfold total_offers. rewrite guids_insert by done.
  assert (Hin : guid ∈ guids groles) by (by apply elem_of_guids). pose proof (guids_nodup groles) as Hnd.
  apply list_elem_of_split in Hin as (l1 & l2 & E). rewrite E in *.
  assert (Hne : forall guid', guid' ∈ l1 \/ guid' ∈ l2 -> guid' <> guid).
  { intros guid' H ->. apply NoDup_app in Hnd as (_ & Hd & Hnd). apply NoDup_cons in Hnd as [Hnd _].
    destruct H as [H|H]; [|done]. apply (Hd guid); [done|apply list_elem_of_here]. }
  rewrite !sum_list_with_app. cbn. rewrite lookup_total_insert_eq, (lookup_role _ _ _ Hv).
  rewrite !(sum_list_with_ext (fun guid' => offers (<[guid := v']> groles !!! guid')) (fun guid' => offers (groles !!! guid')));
    [lia|apply Forall_forall; intros x Hx; rewrite lookup_total_insert_ne; [done|]; apply not_eq_sym, Hne; auto..].
Qed.

Lemma total_offers_bound groles : (total_offers groles <= 3 * size groles)%nat.
Proof.
  unfold total_offers. rewrite <- guids_size. induction (guids groles) as [|guid l IH]; cbn; [lia|].
  assert (offers (groles !!! guid) <= 3)%nat; [|lia]. unfold offers.
  destruct (Z.testbit _ 1), (Z.testbit _ 2), (Z.testbit _ 3); cbn; lia.
Qed.

Section Remove.
Context (dungeon : LFGDungeonData) (groles : LfgRolesMap) (guid v b v' : Z).
Hypothesis Hv : groles !! guid = Some v.
Hypothesis Hrm : Removed v b v'.

Lemma Fits_removed a : Fits dungeon (<[guid := v']> groles) a <-> Fits dungeon groles a /\ a guid <> b.
Proof.
  assert (Hoff : forall w, v' < 16 /\ is_role w /\ Z.land v' w <> 0 <-> (v < 16 /\ is_role w /\ Z.land v w <> 0) /\ w <> b).
  { intros w. rewrite (rm_known _ _ _ Hrm). split.
    - intros (H1 & H2 & H3). apply (rm_offers _ _ _ Hrm) in H3; tauto.
    - intros [(H1 & H2 & H3) H4]. split; [done|]. split; [done|]. by apply (rm_offers _ _ _ Hrm). }
  assert (Hg : guids (<[guid := v']> groles) = guids groles) by (by apply guids_insert).
  split.
  - intros [_ Ho Hc]. assert (H := Ho guid v' (lookup_insert_eq _ _ _)). apply Hoff in H as [H Hne].
    split; [|done]. split; [by intros ->| |by rewrite Hg in Hc]. intros g w Hw. destruct (decide (g = guid)) as [->|Hgn].
    + rewrite Hv in Hw. by simplify_eq.
    + apply Ho. by rewrite lookup_insert_ne.
  - intros [[_ Ho Hc] Hne]. split; [apply insert_non_empty| |by rewrite Hg]. intros g w Hw. destruct (decide (g = guid)) as [->|Hgn].
    + rewrite lookup_insert_eq in Hw. simplify_eq. apply Hoff. split; [by apply Ho|done].
    + rewrite lookup_insert_ne in Hw by done. by apply Ho.
Qed.

Lemma assign_removed a : assign (<[guid := v']> groles) a = assign groles a.
Proof.
  apply map_eq. intros g. unfold assign. rewrite !map_lookup_imap. destruct (decide (g = guid)) as [->|Hgn].
  - rewrite lookup_insert_eq, Hv. cbn. unfold PLAYER_ROLE_LEADER. by rewrite (rm_leader _ _ _ Hrm).
  - by rewrite lookup_insert_ne.
Qed.
End Remove.

(** ** The search *)

(** An answer is an assignment, or there is none and nothing has changed. *)
Definition Verdict (dungeon : LFGDungeonData) (groles : LfgRolesMap) (answer : option (bool * LfgRolesMap)) : Prop :=
  match answer with
  | Some (true, groles') => exists a, Fits dungeon groles a /\ groles' = assign groles a
  | Some (false, groles') => groles' = groles /\ ~ exists a, Fits dungeon groles a
  | None => False
  end.

Section Search.
Context (check : LfgRolesMap -> option (bool * LfgRolesMap)) (dungeon : LFGDungeonData) (groles : LfgRolesMap).
Hypothesis Hok : roles_ok groles.
Hypothesis Hcheck : forall groles', roles_ok groles' -> (total_offers groles' < total_offers groles)%nat ->
  Verdict dungeon groles' (check groles').

Lemma several_block b required guid v count : is_role b -> groles !! guid = Some v -> no_leader v <> b ->
  let block := check_bit check b required guid (no_leader v) count groles in
  (exists a, Fits dungeon groles a /\ block = Some (Return true (assign groles a))) \/
  block = Some (GoOn count groles) /\
    (nz (Z.land (no_leader v) b) = true -> forall a, Fits dungeon groles a -> a guid = b).
Proof.
  intros Hb Hv Hne block. subst block. unfold check_bit. destruct (nz (Z.land (no_leader v) b)) eqn:E; [|right; by split].
  apply Z.eqb_neq in Hne. rewrite Hne. cbn [negb]. rewrite (lookup_role _ _ _ Hv).
  pose proof (map_Forall_lookup_1 _ _ _ _ (proj2 Hok) Hv) as Hrange. cbn in Hrange.
  pose proof (remove_role v b Hrange Hb E Hne) as Hrm. set (v' := u8 (v - b)) in *.
  assert (Hok' : roles_ok (<[guid := v']> groles)) by (apply roles_ok_insert; [done|done|apply Hrm]).
  pose proof (Hcheck _ Hok' (total_offers_less _ _ _ _ Hv (rm_less _ _ _ Hrm))) as H.
  destruct (check (<[guid := v']> groles)) as [[[] groles']|]; cbn in H |- *; [| |done].
  - destruct H as (a & Ha & ->). left. exists a. apply (Fits_removed dungeon groles guid v b v' Hv Hrm) in Ha as [Ha _].
    split; [done|]. by rewrite (assign_removed groles guid v b v' Hv Hrm).
  - destruct H as [-> Hn]. right. rewrite lookup_total_insert_eq, (rm_back _ _ _ Hrm), insert_insert_eq.
    split; [by rewrite insert_id|]. intros _ a Ha. destruct (Z.eq_dec (a guid) b) as [|Hab]; [done|].
    exfalso. apply Hn. exists a. by apply (Fits_removed dungeon groles guid v b v' Hv Hrm).
Qed.

Lemma single_block b b' required guid v count : is_role b' -> no_leader v = b -> Single v b ->
  check_bit check b' required guid b count groles =
    Some (if b =? b' then if count =? required then Return false groles else GoOn (u8 (count + 1)) groles
          else GoOn count groles).
Proof.
  intros Hb' Hv Hs. pose proof (sg_skips _ _ Hs b' Hb') as Hk. rewrite Hv, Z.eqb_sym in Hk. unfold check_bit.
  rewrite Hk. destruct (b =? b') eqn:E; cbn; [|done]. by destruct (count =? required).
Qed.

(** What a player plays who offers one role. *)
Let sole (guid : Z) : Z := no_leader (groles !!! guid).

Lemma Fits_sole a guid b : Fits dungeon groles a -> guid ∈ guids groles -> is_role b -> sole guid = b -> a guid = b.
Proof.
  intros Ha Hin Hb Hs. apply elem_of_guids in Hin as [v Hv]. unfold sole in Hs. rewrite (lookup_role _ _ _ Hv) in Hs.
  pose proof (map_Forall_lookup_1 _ _ _ _ (proj2 Hok) Hv) as Hrange. cbn in Hrange.
  destruct (ft_offered _ _ _ Ha guid v Hv) as (_ & Hr & Ho). by apply (sg_only _ _ (single_role v b Hrange Hb Hs)).
Qed.

(** The players that are counted, and what the others show. *)
Record Counted (done rest : list Z) (damage healer tank : Z) : Prop := {
  ct_guids : done ++ rest = guids groles;
  ct_damage : damage = count_of done sole PLAYER_ROLE_DAMAGE;
  ct_healer : healer = count_of done sole PLAYER_ROLE_HEALER;
  ct_tank : tank = count_of done sole PLAYER_ROLE_TANK;
  ct_within : forall r, is_role r -> count_of done sole r <= required dungeon r;
  ct_several : ~ Forall (fun guid => is_role (sole guid)) done -> ~ exists a, Fits dungeon groles a
}.

Lemma Counted_below done rest damage healer tank r : Counted done rest damage healer tank ->
  0 <= count_of done sole r < 2 ^ 8 - Z.of_nat (length rest).
Proof.
  intros H. pose proof (guids_size groles) as Hs. rewrite <- (ct_guids _ _ _ _ _ H), length_app in Hs.
  destruct Hok as [Hsize _]. split; [apply count_of_nonneg|]. pose proof (filter_le (fun guid => sole guid =? r) done).
  unfold count_of. lia.
Qed.

(** One player too many of a role. *)
Lemma Counted_full done guid rest damage healer tank b : Counted done (guid :: rest) damage healer tank ->
  is_role b -> sole guid = b -> count_of done sole b = required dungeon b -> ~ exists a, Fits dungeon groles a.
Proof.
  intros H Hb Hs Hc [a Ha]. pose proof (ft_count _ _ _ Ha b Hb) as Hcount.
  assert (Hall : Forall (fun g => sole g = b -> a g = b) (guids groles)).
  { apply Forall_forall. intros g Hg Hgs. by apply Fits_sole. }
  rewrite <- (ct_guids _ _ _ _ _ H) in Hcount, Hall. rewrite Forall_app, Forall_cons in Hall.
  destruct Hall as (Hd & Hg & _). apply count_of_mono in Hd. rewrite count_of_app, count_of_cons, (Hg Hs), Z.eqb_refl in Hcount.
  pose proof (count_of_nonneg rest a b). lia.
Qed.

Lemma Counted_snoc done guid rest damage healer tank damage' healer' tank' :
  Counted done (guid :: rest) damage healer tank ->
  (forall r, is_role r -> sole guid = r -> count_of done sole r <> required dungeon r) ->
  (~ is_role (sole guid) -> ~ exists a, Fits dungeon groles a) ->
  damage' = damage + (if sole guid =? PLAYER_ROLE_DAMAGE then 1 else 0) ->
  healer' = healer + (if sole guid =? PLAYER_ROLE_HEALER then 1 else 0) ->
  tank' = tank + (if sole guid =? PLAYER_ROLE_TANK then 1 else 0) ->
  Counted (done ++ [guid]) rest damage' healer' tank'.
Proof.
  intros H Hw Hs -> -> ->.
  assert (Hc : forall r, count_of (done ++ [guid]) sole r = count_of done sole r + (if sole guid =? r then 1 else 0)).
  { intros r. rewrite count_of_app, count_of_cons. change (count_of [] sole r) with 0. lia. }
  split; rewrite ?Hc; try (f_equal; by destruct H).
  - rewrite <- app_assoc. apply H.
  - intros r Hr. rewrite Hc. pose proof (ct_within _ _ _ _ _ H r Hr). destruct (Z.eqb_spec (sole guid) r) as [E|]; [|lia].
    specialize (Hw r Hr E). lia.
  - rewrite Forall_app, Forall_singleton. intros Hn. destruct (decide (Forall (fun g => is_role (sole g)) done)) as [Hd|Hd].
    + apply Hs. tauto.
    + by apply (ct_several _ _ _ _ _ H).
Qed.

Lemma Counted_end done damage healer tank : groles <> ∅ -> Counted done [] damage healer tank ->
  Verdict dungeon groles (Some (tank + healer + damage =? u8 (Z.of_nat (size groles)), groles)).
Proof.
  intros Hsome H. pose proof (ct_guids _ _ _ _ _ H) as Hg. rewrite app_nil_r in Hg.
  destruct (count_roles done sole) as [Hle Heq]. rewrite <- (ct_tank _ _ _ _ _ H), <- (ct_healer _ _ _ _ _ H), <- (ct_damage _ _ _ _ _ H) in Hle, Heq.
  rewrite Hg, guids_size in Hle, Heq. destruct Hok as [Hsize Hrange]. rewrite u8_small by lia.
  destruct (Z.eqb_spec (tank + healer + damage) (Z.of_nat (size groles))) as [E|E]; cbn.
  - apply Heq in E. exists sole. split; [split; [done| |]|].
    + intros guid v Hv. assert (Hr : is_role (sole guid)) by (rewrite Forall_forall in E; apply E, elem_of_guids; by exists v).
      unfold sole in *. rewrite (lookup_role _ _ _ Hv) in *.
      destruct (single_role v _ (map_Forall_lookup_1 _ _ _ _ Hrange Hv) Hr eq_refl). done.
    + rewrite <- Hg. apply H.
    + apply map_eq. intros guid. unfold assign. rewrite map_lookup_imap. destruct (groles !! guid) as [v|] eqn:Hv; cbn; [|done].
      assert (Hr : is_role (sole guid)) by (rewrite Forall_forall in E; apply E, elem_of_guids; by exists v).
      unfold sole, PLAYER_ROLE_LEADER in *. rewrite (lookup_role _ _ _ Hv) in *.
      by rewrite (sg_role _ _ (single_role v _ (map_Forall_lookup_1 _ _ _ _ Hrange Hv) Hr eq_refl)).
  - split; [done|]. apply (ct_several _ _ _ _ _ H). rewrite Hg. tauto.
Qed.

Local Ltac blocks :=
  cbn [required mbind option_bind Z.eqb Pos.eqb PLAYER_ROLE_NONE PLAYER_ROLE_TANK PLAYER_ROLE_HEALER PLAYER_ROLE_DAMAGE] in *.

(** A player of one role is counted or ends the search. *)
Lemma sole_player done guid rest damage healer tank v :
  Counted done (guid :: rest) damage healer tank -> groles !! guid = Some v -> is_role (no_leader v) ->
  (forall damage healer tank, Counted (done ++ [guid]) rest damage healer tank ->
    Verdict dungeon groles (check_players check dungeon rest damage healer tank groles)) ->
  Verdict dungeon groles (check_players check dungeon (guid :: rest) damage healer tank groles).
Proof.
  intros H Hv Hr Hnext. pose proof (lookup_role _ _ _ Hv) as Hv'. cbn [check_players]. rewrite Hv'.
  pose proof (map_Forall_lookup_1 _ _ _ _ (proj2 Hok) Hv) as Hrange. cbn in Hrange.
  assert (Hsole : sole guid = no_leader v) by (unfold sole; by rewrite Hv').
  pose proof (single_role v _ Hrange Hr eq_refl) as Hs.
  pose proof (Counted_full done guid rest damage healer tank (no_leader v) H Hr Hsole) as Hfull.
  pose proof (Counted_below done _ _ _ _ (no_leader v) H) as Hb. cbn [length] in Hb.
  assert (Hsnoc := fun d h t Hne => Counted_snoc done guid rest damage healer tank d h t H Hne
    (fun Hn => False_ind _ (Hn (eq_rect_r is_role Hr Hsole)))). rewrite Hsole in Hsnoc.
  destruct Hr as [E|[E|E]]; rewrite E in *; cbn [Z.eqb PLAYER_ROLE_TANK PLAYER_ROLE_HEALER PLAYER_ROLE_DAMAGE] in *.
  all: destruct H as [_ Hd Hh Ht _ _]; unfold PLAYER_ROLE_TANK, PLAYER_ROLE_HEALER, PLAYER_ROLE_DAMAGE in Hd, Hh, Ht, E, Hfull, Hb, Hsnoc |- *.
  all: repeat (rewrite (single_block _ _ _ _ v) by (done || (unfold is_role; auto)); blocks).
  1: destruct (Z.eqb_spec tank (requiredTanks dungeon)) as [Ef|Ef].
  3: destruct (Z.eqb_spec healer (requiredHealers dungeon)) as [Ef|Ef].
  5: destruct (Z.eqb_spec damage (requiredDamageDealers dungeon)) as [Ef|Ef].
  1, 3, 5: by (split; [done|apply Hfull; congruence]).
  all: repeat (rewrite (single_block _ _ _ _ v) by (done || (unfold is_role; auto)); blocks).
  all: rewrite u8_small by lia; apply Hnext, Hsnoc; blocks; [intros r _ <-; cbn; congruence|lia..].
Qed.

(** A player of several roles is tried without each, and then left out. *)
Lemma several_player done guid rest damage healer tank v :
  Counted done (guid :: rest) damage healer tank -> groles !! guid = Some v -> ~ is_role (no_leader v) ->
  (forall damage healer tank, Counted (done ++ [guid]) rest damage healer tank ->
    Verdict dungeon groles (check_players check dungeon rest damage healer tank groles)) ->
  Verdict dungeon groles (check_players check dungeon (guid :: rest) damage healer tank groles).
Proof.
  intros H Hv Hr Hnext. pose proof (lookup_role _ _ _ Hv) as Hv'. cbn [check_players]. rewrite Hv'.
  pose proof (map_Forall_lookup_1 _ _ _ _ (proj2 Hok) Hv) as Hrange. cbn in Hrange.
  destruct (Z.eqb_spec (no_leader v) PLAYER_ROLE_NONE) as [Hz|Hz].
  { split; [done|]. intros [a Ha]. destruct (ft_offered _ _ _ Ha guid v Hv) as (_ & Hra & Ho).
    by apply Ho, no_role. }
  assert (Hne : forall b, is_role b -> no_leader v <> b) by (intros b Hb E; by rewrite E in Hr).
  destruct (several_block PLAYER_ROLE_DAMAGE (requiredDamageDealers dungeon) guid v damage) as [(a & Ha & ->)|[-> Hd]];
    [by right; right|done|apply Hne; by right; right|by exists a|]. blocks.
  destruct (several_block PLAYER_ROLE_HEALER (requiredHealers dungeon) guid v healer) as [(a & Ha & ->)|[-> Hh]];
    [by right; left|done|apply Hne; by right; left|by exists a|]. blocks.
  destruct (several_block PLAYER_ROLE_TANK (requiredTanks dungeon) guid v tank) as [(a & Ha & ->)|[-> Ht]];
    [by left|done|apply Hne; by left|by exists a|]. blocks.
  assert (Hnone : ~ exists a, Fits dungeon groles a).
  { intros [a Ha]. destruct (ft_offered _ _ _ Ha guid v Hv) as (Hk & Hra & Ho).
    destruct (another_role v (a guid) ltac:(lia) Hra Ho (Hne _ Hra)) as (r & Hrr & Hrn & Hnz & _).
    destruct Hrr as [->|[->| ->]]; apply Hrn; symmetry; eauto. }
  assert (Hsole : sole guid = no_leader v) by (unfold sole; by rewrite Hv').
  apply Hnext, (Counted_snoc _ _ _ damage healer tank); rewrite ?Hsole; [done| |done|..].
  - intros r Hrr E. by apply Hne in E.
  - rewrite (proj2 (Z.eqb_neq _ _)) by (apply Hne; by right; right). lia.
  - rewrite (proj2 (Z.eqb_neq _ _)) by (apply Hne; by right; left). lia.
  - rewrite (proj2 (Z.eqb_neq _ _)) by (apply Hne; by left). lia.
Qed.

Lemma check_players_verdict rest : groles <> ∅ -> forall done damage healer tank, Counted done rest damage healer tank ->
  Verdict dungeon groles (check_players check dungeon rest damage healer tank groles).
Proof.
  intros Hsome. induction rest as [|guid rest IH]; intros done damage healer tank H; [by apply (Counted_end done)|].
  assert (Hin : guid ∈ guids groles) by (rewrite <- (ct_guids _ _ _ _ _ H); set_solver).
  apply elem_of_guids in Hin as [v Hv]. destruct (decide (is_role (no_leader v))) as [Hr|Hr].
  - eapply sole_player; eauto.
  - eapply several_player; eauto.
Qed.

End Search.

Definition dungeon_ok (dungeon : LFGDungeonData) : Prop := forall role, is_role role -> 0 <= required dungeon role.

Lemma CheckGroupRoles_verdict dungeon : dungeon_ok dungeon -> forall fuel groles, roles_ok groles ->
  (total_offers groles < fuel)%nat -> Verdict dungeon groles (CheckGroupRoles_fuel fuel dungeon groles).
Proof.
  intros Hd fuel. induction fuel as [|fuel IH]; intros groles Hok Hf; [lia|]. cbn.
  case_bool_decide as Hsome. { split; [done|]. by intros [a Ha]; destruct Ha. }
  apply (check_players_verdict _ _ _ Hok) with (done := []); [|done|].
  - intros groles' Hok' Hl. apply IH; [done|lia].
  - split; try done. intros Hn. by destruct Hn.
Qed.

Lemma CheckGroupRoles_decides dungeon groles : dungeon_ok dungeon -> roles_ok groles ->
  Verdict dungeon groles (CheckGroupRoles groles dungeon).
Proof.
  intros Hd Hok. apply CheckGroupRoles_verdict; [done|done|]. pose proof (total_offers_bound groles). lia.
Qed.

Lemma Verdict_cases dungeon groles result : Verdict dungeon groles result ->
  (exists a, Fits dungeon groles a /\ result = Some (true, assign groles a)) \/
  ~ (exists a, Fits dungeon groles a) /\ result = Some (false, groles).
Proof.
  destruct result as [[[] groles']|]; cbn; [| |done].
  - intros (a & Ha & ->). left. eauto.
  - intros [-> H]. by right.
Qed.

(** C22. [CheckGroupRoles] always answers, and says whether the players can fill
    roles of the dungeon: if some assignment of roles that are offered keeps
    within the required numbers, the roles become such an assignment; if not,
    they are left as they were. *)
Theorem CheckGroupRoles_spec dungeon groles : dungeon_ok dungeon -> roles_ok groles ->
  (exists a, Fits dungeon groles a) /\
    (exists a, Fits dungeon groles a /\ CheckGroupRoles groles dungeon = Some (true, assign groles a)) \/
  ~ (exists a, Fits dungeon groles a) /\ CheckGroupRoles groles dungeon = Some (false, groles).
Proof.
  intros Hd Hok. destruct (Verdict_cases _ _ _ (CheckGroupRoles_decides dungeon groles Hd Hok)) as [(a & Ha & E)|[Hn E]]; eauto 6.
Qed.

Definition sample_roles : LfgRolesMap := list_to_map [(1, 0xE); (2, 0xF); (3, 0xE); (4, 0x8); (5, 0xC)].

Lemma CheckGroupRoles_spec_witness : exists a, Fits sample_dungeon sample_roles a /\ a 1 = PLAYER_ROLE_TANK.
Proof.
  assert (Hd : dungeon_ok sample_dungeon) by (intros r [->|[->| ->]]; by vm_compute).
  assert (Hok : roles_ok sample_roles).
  { split; [by vm_compute|]. apply map_Forall_to_list. by repeat (constructor; [by vm_compute|]). }
  destruct (CheckGroupRoles_spec sample_dungeon sample_roles Hd Hok) as [[_ (a & Ha & E)]|[_ E]].
  - exists a. split; [done|].
    apply (f_equal (fun r => match r with Some (_, roles) => roles !! 1 | None => None end)) in E. revert E.
    unfold assign. rewrite map_lookup_imap. vm_compute. congruence.
  - exfalso. assert (Hx : CheckGroupRoles sample_roles sample_dungeon <> Some (false, sample_roles)) by by vm_compute.
    by apply Hx.
Defined.
