(* ===== verification/LfgQueue.v ===== *)
(** The queue of the dungeon finder ([DungeonFinding/LFGQueue.cpp], [.h]):
    players and groups who wait for a dungeon, the cache of combinations that
    were tried, and the search that makes proposals of them. *)
From Stdlib Require Import ZArith Lia String Ascii.
From stdpp Require Import base gmap list strings pretty sorting.
From S2P Require Import Prelude LfgRoles.

Open Scope Z_scope.
Open Scope tc_scope.

(** ** Guids *)

Definition GetHigh (guid : Z) : Z :=
  let temp := Z.land (Z.shiftr guid 48) 0xFFFF in
  if (temp =? 0xF101) || (temp =? 0xF102) then temp else Z.land (Z.shiftr temp 4) 0xFFF.

Definition IsGroup (guid : Z) : bool := GetHigh guid =? 0x1F5.

(** ** Data *)

Inductive LfgState : Type :=
| LFG_STATE_NONE | LFG_STATE_ROLECHECK | LFG_STATE_QUEUED | LFG_STATE_PROPOSAL
| LFG_STATE_DUNGEON | LFG_STATE_FINISHED_DUNGEON | LFG_STATE_RAIDBROWSER.

#[export] Instance LfgState_eq_dec : EqDecision LfgState.
Proof. solve_decision. Defined.

Inductive LfgAnswer : Type := LFG_ANSWER_PENDING | LFG_ANSWER_DENY | LFG_ANSWER_AGREE.

#[export] Instance LfgAnswer_eq_dec : EqDecision LfgAnswer.
Proof. solve_decision. Defined.

Inductive LfgCompatibility : Type :=
| LFG_COMPATIBILITY_PENDING
| LFG_INCOMPATIBLES_WRONG_GROUP_SIZE
| LFG_INCOMPATIBLES_TOO_MUCH_PLAYERS
| LFG_INCOMPATIBLES_MULTIPLE_LFG_GROUPS
| LFG_INCOMPATIBLES_HAS_IGNORES
| LFG_INCOMPATIBLES_NO_ROLES
| LFG_INCOMPATIBLES_NO_DUNGEONS
| LFG_COMPATIBLES_WITH_LESS_PLAYERS
| LFG_COMPATIBLES_BAD_STATES
| LFG_COMPATIBLES_MATCH.

#[export] Instance LfgCompatibility_eq_dec : EqDecision LfgCompatibility.
Proof. solve_decision. Defined.

(** [compatibles < LFG_COMPATIBLES_WITH_LESS_PLAYERS]. *)
Definition not_compatible (c : LfgCompatibility) : bool :=
  match c with
  | LFG_COMPATIBLES_WITH_LESS_PLAYERS | LFG_COMPATIBLES_BAD_STATES | LFG_COMPATIBLES_MATCH => false
  | _ => true
  end.

Notation LfgDungeonSet := (gset Z).

Record LfgCompatibilityData : Type := mkCompat { compatibility : LfgCompatibility; cd_roles : LfgRolesMap }.

Record LfgQueueData : Type := mkQueueData {
  joinTime : Z; qd_tanks : Z; qd_healers : Z; qd_dps : Z;
  qd_dungeons : LfgDungeonSet; qd_roles : LfgRolesMap; bestCompatible : string }.

Record LfgWaitTime : Type := mkWaitTime { wt_time : Z; wt_number : Z }.

Record LFGQueue : Type := mkQueue {
  QueueDataStore : gmap Z LfgQueueData;
  CompatibleMapStore : gmap string LfgCompatibilityData;
  currentQueueStore : list Z;
  newToQueueStore : list Z }.

Definition set_data (store : gmap Z LfgQueueData) (q : LFGQueue) : LFGQueue :=
  mkQueue store (CompatibleMapStore q) (currentQueueStore q) (newToQueueStore q).
Definition set_compatibles (store : gmap string LfgCompatibilityData) (q : LFGQueue) : LFGQueue :=
  mkQueue (QueueDataStore q) store (currentQueueStore q) (newToQueueStore q).
Definition set_current (l : list Z) (q : LFGQueue) : LFGQueue :=
  mkQueue (QueueDataStore q) (CompatibleMapStore q) l (newToQueueStore q).
Definition set_new (l : list Z) (q : LFGQueue) : LFGQueue :=
  mkQueue (QueueDataStore q) (CompatibleMapStore q) (currentQueueStore q) l.

Record LfgProposalPlayer : Type := mkProposalPlayer { pp_role : Z; pp_accept : LfgAnswer; pp_group : Z }.

Inductive LfgProposalState : Type := LFG_PROPOSAL_INITIATING | LFG_PROPOSAL_FAILED | LFG_PROPOSAL_SUCCESS.

#[export] Instance LfgProposalState_eq_dec : EqDecision LfgProposalState.
Proof. solve_decision. Defined.

(** The fields that nobody sets, [encounters] and [showorder], are left out. *)
Record LfgProposal : Type := mkProposal {
  pr_id : Z; pr_dungeonId : Z; pr_state : LfgProposalState; pr_group : Z; pr_leader : Z; pr_cancelTime : Z; pr_isNew : bool;
  pr_queues : list Z; pr_players : gmap Z LfgProposalPlayer }.

Definition LFG_TIME_PROPOSAL : Z := 45.

(** What the queue asks of the manager and the clock during an update. *)
Class LfgManager : Type := {
  GetLFGDungeon : Z -> option LFGDungeonData;
  HasIgnore : Z -> Z -> bool;
  IsLfgGroup : Z -> bool;
  GetState : Z -> LfgState;
  GetOldState : Z -> LfgState;
  GetGameTime : Z
}.

Section Queue.
Context `{Mgr : LfgManager}.

(** ** Keys of the cache *)

(** [o << guid.GetRawValue()] *)
Definition guid_str (guid : Z) : string := pretty (Z.to_N guid).

Fixpoint join_guids (guids : list Z) : string :=
  match guids with
  | [] => ""
  | [guid] => guid_str guid
  | guid :: guids => guid_str guid ++ "|" ++ join_guids guids
  end.

Definition in_order (s : gset Z) : list Z := stable_sort Z.ltb (elements s).

Definition ConcatenateGuids (check : list Z) : string := join_guids (in_order (list_to_set check)).

(** [s.find(sub) != npos] *)
Fixpoint contains (sub s : string) : bool :=
  String.prefix sub s || match s with EmptyString => false | String _ s => contains sub s end.

Fixpoint count_char (c : ascii) (s : string) : Z :=
  match s with EmptyString => 0 | String d s => (if Ascii.eqb d c then 1 else 0) + count_char c s end.

(** ** Entries *)

Definition InitializeGroupSetup (d : LfgQueueData) : LfgQueueData :=
  let setup tanks healers dps :=
    mkQueueData (joinTime d) tanks healers dps (qd_dungeons d) (qd_roles d) (bestCompatible d) in
  match in_order (qd_dungeons d) with
  | [] => setup 0 0 0
  | first :: _ =>
      match GetLFGDungeon first with
      | Some dungeon => setup (u8 (requiredTanks dungeon)) (u8 (requiredHealers dungeon)) (u8 (requiredDamageDealers dungeon))
      | None => setup 0 0 0
      end
  end.

Definition LfgQueueData_make (joinTime : Z) (dungeons : LfgDungeonSet) (roles : LfgRolesMap) : LfgQueueData :=
  InitializeGroupSetup (mkQueueData joinTime 0 0 0 dungeons roles "").

Definition LfgQueueData_default : LfgQueueData := LfgQueueData_make GetGameTime ∅ ∅.

(** One role less is needed. *)
Definition fill_role (d : LfgQueueData) (role : Z) : LfgQueueData :=
  if nz (Z.land role PLAYER_ROLE_TANK)
  then mkQueueData (joinTime d) (u8 (qd_tanks d - 1)) (qd_healers d) (qd_dps d) (qd_dungeons d) (qd_roles d) (bestCompatible d)
  else if nz (Z.land role PLAYER_ROLE_HEALER)
  then mkQueueData (joinTime d) (qd_tanks d) (u8 (qd_healers d - 1)) (qd_dps d) (qd_dungeons d) (qd_roles d) (bestCompatible d)
  else mkQueueData (joinTime d) (qd_tanks d) (qd_healers d) (u8 (qd_dps d - 1)) (qd_dungeons d) (qd_roles d) (bestCompatible d).

Definition set_best (key : string) (d : LfgQueueData) : LfgQueueData :=
  mkQueueData (joinTime d) (qd_tanks d) (qd_healers d) (qd_dps d) (qd_dungeons d) (qd_roles d) key.

Definition UpdateBestCompatibleInQueue (key : string) (roles : LfgRolesMap) (d : LfgQueueData) : LfgQueueData :=
  let storedSize := if str_empty (bestCompatible d) then 0 else u8 (count_char "|" (bestCompatible d) + 1) in
  let size := u8 (count_char "|" key + 1) in
  if size <=? storedSize then d
  else foldl fill_role (InitializeGroupSetup (set_best key d)) ((fun guid => roles !!! guid) <$> guids roles).

Definition items_compat (m : gmap string LfgCompatibilityData) : list (string * LfgCompatibilityData) :=
  stable_sort (fun a b => str_lt a.1 b.1) (map_to_list m).

Definition FindBestCompatibleInQueue (compatibles : gmap string LfgCompatibilityData) (guid : Z) (d : LfgQueueData) :
    LfgQueueData :=
  foldl (fun d '(key, data) =>
    if bool_decide (compatibility data = LFG_COMPATIBLES_WITH_LESS_PLAYERS) && contains (guid_str guid) key
    then UpdateBestCompatibleInQueue key (cd_roles data) d else d) d (items_compat compatibles).

(** ** The lists *)

(** [GuidList::remove] *)
Definition remove_guid (guid : Z) (l : list Z) : list Z := List.filter (fun g => negb (g =? guid)) l.

Definition AddToNewQueue (guid : Z) (q : LFGQueue) : LFGQueue := set_new (newToQueueStore q ++ [guid]) q.
Definition RemoveFromNewQueue (guid : Z) (q : LFGQueue) : LFGQueue := set_new (remove_guid guid (newToQueueStore q)) q.
Definition AddToCurrentQueue (guid : Z) (q : LFGQueue) : LFGQueue := set_current (currentQueueStore q ++ [guid]) q.
Definition AddToFrontCurrentQueue (guid : Z) (q : LFGQueue) : LFGQueue := set_current (guid :: currentQueueStore q) q.
Definition RemoveFromCurrentQueue (guid : Z) (q : LFGQueue) : LFGQueue :=
  set_current (remove_guid guid (currentQueueStore q)) q.

Definition AddToQueue (guid : Z) (reAdd : bool) (q : LFGQueue) : LFGQueue :=
  match QueueDataStore q !! guid with
  | None => q
  | Some _ => if reAdd then AddToFrontCurrentQueue guid q else AddToNewQueue guid q
  end.

Definition AddQueueData (guid joinTime : Z) (dungeons : LfgDungeonSet) (roles : LfgRolesMap) (q : LFGQueue) : LFGQueue :=
  AddToQueue guid false (set_data (<[guid := LfgQueueData_make joinTime dungeons roles]> (QueueDataStore q)) q).

Definition RemoveQueueData (guid : Z) (q : LFGQueue) : LFGQueue := set_data (delete guid (QueueDataStore q)) q.

Definition GetJoinTime (guid : Z) (q : LFGQueue) : Z :=
  match QueueDataStore q !! guid with Some d => joinTime d | None => 0 end.

(** ** The cache *)

Definition RemoveFromCompatibles (guid : Z) (q : LFGQueue) : LFGQueue :=
  set_compatibles (filter (fun '(key, _) => contains (guid_str guid) key = false) (CompatibleMapStore q)) q.

Definition SetCompatibles (key : string) (c : LfgCompatibility) (q : LFGQueue) : LFGQueue :=
  let roles := match CompatibleMapStore q !! key with Some data => cd_roles data | None => ∅ end in
  set_compatibles (<[key := mkCompat c roles]> (CompatibleMapStore q)) q.

Definition SetCompatibilityData (key : string) (data : LfgCompatibilityData) (q : LFGQueue) : LFGQueue :=
  set_compatibles (<[key := data]> (CompatibleMapStore q)) q.

Definition GetCompatibles (key : string) (q : LFGQueue) : LfgCompatibility :=
  match CompatibleMapStore q !! key with Some data => compatibility data | None => LFG_COMPATIBILITY_PENDING end.

(** Each entry of another guid whose best combination names the guid looks for
    the next best. *)
Definition forget_best (guid : Z) (compatibles : gmap string LfgCompatibilityData) (other : Z) (d : LfgQueueData) :
    LfgQueueData :=
  if negb (other =? guid) && contains (guid_str guid) (bestCompatible d)
  then FindBestCompatibleInQueue compatibles other (set_best "" d) else d.

Definition RemoveFromQueue (guid : Z) (q : LFGQueue) : LFGQueue :=
  let q := RemoveFromCompatibles guid (RemoveFromCurrentQueue guid (RemoveFromNewQueue guid q)) in
  set_data (delete guid (map_imap (fun other d => Some (forget_best guid (CompatibleMapStore q) other d)) (QueueDataStore q))) q.

(** ** The search

    It changes the queue, hands proposals to the manager, and draws random
    numbers; [None] is what the source has no meaning for. *)

Record Search : Type := mkSearch { sr_queue : LFGQueue; sr_proposals : list LfgProposal; sr_random : list Z }.

Definition M (A : Type) : Type := Search -> option (A * Search).

#[export] Instance M_ret : MRet M := fun A x s => Some (x, s).
#[export] Instance M_bind : MBind M := fun A B f m s => '(x, s) ← m s; f x s.

Definition undefined {A} : M A := fun _ => None.
Definition reads {A} (f : LFGQueue -> A) : M A := fun s => Some (f (sr_queue s), s).
Definition modify (f : LFGQueue -> LFGQueue) : M unit :=
  fun s => Some (tt, mkSearch (f (sr_queue s)) (sr_proposals s) (sr_random s)).
Definition AddProposal (p : LfgProposal) : M unit :=
  fun s => Some (tt, mkSearch (sr_queue s) (sr_proposals s ++ [p]) (sr_random s)).

(** [urand(0, n - 1)] *)
Definition draw (n : Z) : M Z := fun s =>
  match sr_random s with
  | [] => Some (0, s)
  | r :: random => Some (r mod n, mkSearch (sr_queue s) (sr_proposals s) random)
  end.

(** [QueueDataStore[guid]] *)
Definition queue_data (guid : Z) : M LfgQueueData :=
  data ← reads (fun q => QueueDataStore q !! guid);
  match data with
  | Some data => mret data
  | None => modify (fun q => set_data (<[guid := LfgQueueData_default]> (QueueDataStore q)) q);; mret LfgQueueData_default
  end.

Fixpoint intersect_dungeons (proposalDungeons : LfgDungeonSet) (check : list Z) : M LfgDungeonSet :=
  match check with
  | [] => mret proposalDungeons
  | guid :: check => data ← queue_data guid; intersect_dungeons (proposalDungeons ∩ qd_dungeons data) check
  end.

(** A random dungeon that exists. *)
Fixpoint pick_dungeon (fuel : nat) (proposalDungeons : LfgDungeonSet) : M (option (Z * LFGDungeonData)) :=
  match fuel with
  | O => undefined
  | S fuel =>
      if bool_decide (proposalDungeons = ∅) then mret None else
      i ← draw (Z.of_nat (size proposalDungeons));
      match in_order proposalDungeons !! Z.to_nat i with
      | None => undefined
      | Some dungeonId =>
          match GetLFGDungeon dungeonId with
          | Some dungeon => mret (Some (dungeonId, dungeon))
          | None => pick_dungeon fuel (proposalDungeons ∖ {[dungeonId]})
          end
      end
  end.

Record Counts : Type := mkCounts { numPlayers : Z; numLfgGroups : Z; proposalGroups : gmap Z Z; ct_group : Z }.

Definition count_entry (guid : Z) (data : LfgQueueData) (c : Counts) : Counts :=
  mkCounts (u8 (numPlayers c + Z.of_nat (size (qd_roles data))))
    (if IsLfgGroup guid then u8 (numLfgGroups c + 1) else numLfgGroups c)
    (foldl (fun groups player => <[player := if IsGroup guid then guid else 0]> groups) (proposalGroups c) (guids (qd_roles data)))
    (if IsLfgGroup guid && negb (nz (numLfgGroups c)) then guid else ct_group c).

(** The loop that counts players and looks for a group in a dungeon. *)
Fixpoint count_players (maxSize : Z) (check : list Z) (c : Counts) : M (option Counts) :=
  match check with
  | [] => mret (Some c)
  | guid :: check =>
      if (numLfgGroups c <? 1) && (numPlayers c <=? maxSize) then
        data ← reads (fun q => QueueDataStore q !! guid);
        match data with
        | None => modify (RemoveFromQueue guid);; mret None
        | Some data => count_players maxSize check (count_entry guid data c)
        end
      else mret (Some c)
  end.

(** A player joins those who ignore nobody among them. *)
Definition merge_player (roles : LfgRolesMap) (proposalRoles : LfgRolesMap) (player : Z) : LfgRolesMap :=
  if existsb (fun other => negb (player =? other) && HasIgnore player other) (guids proposalRoles) then proposalRoles
  else <[player := roles !!! player]> proposalRoles.

Fixpoint merge_roles (check : list Z) (proposalRoles : LfgRolesMap) : M LfgRolesMap :=
  match check with
  | [] => mret proposalRoles
  | guid :: check =>
      data ← queue_data guid;
      merge_roles check (foldl (merge_player (qd_roles data)) proposalRoles (guids (qd_roles data)))
  end.

Fixpoint update_best (key : string) (roles : LfgRolesMap) (check : list Z) : M unit :=
  match check with
  | [] => mret tt
  | guid :: check =>
      data ← reads (fun q => QueueDataStore q !! guid);
      match data with
      | None => undefined
      | Some data =>
          modify (fun q => set_data (<[guid := UpdateBestCompatibleInQueue key roles data]> (QueueDataStore q)) q);;
          update_best key roles check
      end
  end.

Definition AllQueued (check : list Z) : bool :=
  match check with [] => false | _ => forallb (fun guid => bool_decide (GetState guid = LFG_STATE_QUEUED)) check end.

(** The proposal's leader, one of those who offered to be, or any. *)
Fixpoint choose_leader (proposalRoles : LfgRolesMap) (players : list Z) (leader : bool) (proposalLeader : Z) : M Z :=
  match players with
  | [] => mret proposalLeader
  | player :: players =>
      if nz (Z.land (proposalRoles !!! player) PLAYER_ROLE_LEADER) then
        if negb leader || negb (nz proposalLeader) then choose_leader proposalRoles players true player
        else r ← draw 2; choose_leader proposalRoles players true (if nz r then player else proposalLeader)
      else if negb leader then
        if negb (nz proposalLeader) then choose_leader proposalRoles players leader player
        else r ← draw 2; choose_leader proposalRoles players leader (if nz r then player else proposalLeader)
      else choose_leader proposalRoles players leader proposalLeader
  end.

Definition proposal_player (isNew : bool) (group : Z) (groups : gmap Z Z) (player role : Z) : option LfgProposalPlayer :=
  gguid ← groups !! player;
  Some (mkProposalPlayer role (if negb isNew && nz gguid && (gguid =? group) then LFG_ANSWER_AGREE else LFG_ANSWER_PENDING) gguid).

Fixpoint proposal_players (isNew : bool) (c : Counts) (roles : LfgRolesMap) (players : list Z) (acc : gmap Z LfgProposalPlayer) :
    option (gmap Z LfgProposalPlayer) :=
  match players with
  | [] => Some acc
  | player :: players =>
      p ← proposal_player isNew (ct_group c) (proposalGroups c) player (roles !!! player);
      proposal_players isNew c roles players (<[player := p]> acc)
  end.

(** The end of [CheckCompatibility], of a full group. *)
Definition make_proposal (check : list Z) (dungeonId : Z) (c : Counts) (proposalRoles : LfgRolesMap) : M LfgCompatibility :=
  let strGuids := ConcatenateGuids check in
  let isNew := negb (numLfgGroups c =? 1) || negb (bool_decide (GetOldState (default 0 (head check)) = LFG_STATE_DUNGEON)) in
  if negb (AllQueued check)
  then modify (SetCompatibles strGuids LFG_COMPATIBLES_BAD_STATES);; mret LFG_COMPATIBLES_BAD_STATES
  else
    leader ← choose_leader proposalRoles (guids proposalRoles) false 0;
    match proposal_players isNew c proposalRoles (guids proposalRoles) ∅ with
    | None => undefined
    | Some players =>
        modify (fun q => foldl (fun q guid => RemoveFromCurrentQueue guid (RemoveFromNewQueue guid q)) q check);;
        AddProposal (mkProposal 0 dungeonId LFG_PROPOSAL_INITIATING (ct_group c) leader (GetGameTime + LFG_TIME_PROPOSAL) isNew check players);;
        modify (SetCompatibles strGuids LFG_COMPATIBLES_MATCH);;
        mret LFG_COMPATIBLES_MATCH
    end.

(** Roles, and whether there are enough players. *)
Definition check_roles (check : list Z) (dungeonId : Z) (dungeon : LFGDungeonData) (c : Counts) : M LfgCompatibility :=
  let strGuids := ConcatenateGuids check in
  let refuse c := modify (SetCompatibles strGuids c);; mret c in
  let finish proposalRoles :=
    if negb (numPlayers c =? GetMaxGroupSize dungeon) then
      update_best strGuids proposalRoles check;;
      modify (SetCompatibilityData strGuids (mkCompat LFG_COMPATIBLES_WITH_LESS_PLAYERS proposalRoles));;
      mret LFG_COMPATIBLES_WITH_LESS_PLAYERS
    else make_proposal check dungeonId c proposalRoles in
  if (1 <? length check)%nat then
    proposalRoles ← merge_roles check ∅;
    if nz (u8 (numPlayers c - Z.of_nat (size proposalRoles))) then refuse LFG_INCOMPATIBLES_HAS_IGNORES
    else match CheckGroupRoles proposalRoles dungeon with
         | None => undefined
         | Some (false, _) => refuse LFG_INCOMPATIBLES_NO_ROLES
         | Some (true, proposalRoles) => finish proposalRoles
         end
  else
    data ← queue_data (default 0 (head check));
    match CheckGroupRoles (qd_roles data) dungeon with
    | None => undefined
    | Some (_, proposalRoles) => finish proposalRoles
    end.

(** [CheckCompatibility] after its recursion: dungeons, sizes and groups. *)
Definition check_combination (check : list Z) : M LfgCompatibility :=
  let strGuids := ConcatenateGuids check in
  let refuse c := modify (SetCompatibles strGuids c);; mret c in
  data ← queue_data (default 0 (head check));
  proposalDungeons ← intersect_dungeons (qd_dungeons data) (tail check);
  picked ← pick_dungeon (S (size proposalDungeons)) proposalDungeons;
  match picked with
  | None => refuse LFG_INCOMPATIBLES_NO_DUNGEONS
  | Some (dungeonId, dungeon) =>
      if GetMaxGroupSize dungeon <? Z.of_nat (length check) then mret LFG_INCOMPATIBLES_WRONG_GROUP_SIZE else
      counts ← count_players (GetMaxGroupSize dungeon) check (mkCounts 0 0 ∅ 0);
      match counts with
      | None => mret LFG_COMPATIBILITY_PENDING
      | Some c =>
          if 1 <? numLfgGroups c then refuse LFG_INCOMPATIBLES_MULTIPLE_LFG_GROUPS
          else if GetMaxGroupSize dungeon <? numPlayers c then refuse LFG_INCOMPATIBLES_TOO_MUCH_PLAYERS
          else check_roles check dungeonId dungeon c
      end
  end.

Fixpoint CheckCompatibility (check : list Z) : M LfgCompatibility :=
  match check with
  | [] => mret LFG_INCOMPATIBLES_WRONG_GROUP_SIZE
  | _ :: rest =>
      if (2 <? length check)%nat then
        child ← CheckCompatibility rest;
        if not_compatible child then modify (SetCompatibles (ConcatenateGuids check) child);; mret child
        else check_combination check
      else check_combination check
  end.

(** The lists [check] and [all] are the caller's: what is left of [all] is
    returned with the result. *)
Fixpoint FindNewGroups (fuel : nat) (check all : list Z) : M (LfgCompatibility * list Z) :=
  match fuel with
  | O => undefined
  | S fuel =>
      let strGuids := ConcatenateGuids check in
      cached ← reads (GetCompatibles strGuids);
      compatibles ← (if bool_decide (cached = LFG_COMPATIBILITY_PENDING) then CheckCompatibility check else mret cached);
      if bool_decide (compatibles = LFG_COMPATIBLES_BAD_STATES) && AllQueued check
      then modify (SetCompatibles strGuids LFG_COMPATIBLES_MATCH);; mret (LFG_COMPATIBLES_MATCH, all)
      else if bool_decide (compatibles <> LFG_COMPATIBLES_WITH_LESS_PLAYERS) then mret (compatibles, all)
      else match_queued fuel compatibles check all
  end
with match_queued (fuel : nat) (compatibles : LfgCompatibility) (check all : list Z) : M (LfgCompatibility * list Z) :=
  match fuel with
  | O => undefined
  | S fuel =>
      match all with
      | [] => mret (compatibles, [])
      | guid :: all =>
          '(subcompatibility, all) ← FindNewGroups fuel (check ++ [guid]) all;
          if bool_decide (subcompatibility = LFG_COMPATIBLES_MATCH) then mret (LFG_COMPATIBLES_MATCH, all)
          else match_queued fuel compatibles check all
      end
  end.

Definition search_fuel (all : list Z) : nat := S (S (2 * length all)).

Fixpoint FindGroups_loop (fuel : nat) (proposals : Z) : M Z :=
  match fuel with
  | O => undefined
  | S fuel =>
      fresh ← reads newToQueueStore;
      match fresh with
      | [] => mret proposals
      | frontguid :: _ =>
          modify (RemoveFromNewQueue frontguid);;
          temporalList ← reads currentQueueStore;
          '(compatibles, _) ← FindNewGroups (search_fuel temporalList) [frontguid] temporalList;
          if bool_decide (compatibles = LFG_COMPATIBLES_MATCH) then FindGroups_loop fuel (u8 (proposals + 1))
          else modify (AddToCurrentQueue frontguid);; FindGroups_loop fuel proposals
      end
  end.

(** Each round takes a guid from the new queue. *)
Definition FindGroups (random : list Z) (q : LFGQueue) : option (Z * Search) :=
  FindGroups_loop (S (length (newToQueueStore q))) 0 (mkSearch q [] random).

End Queue.
