(* ===== verification/LfgQueueSpec.v ===== *)
(** What the queue's search does: it always answers, its proposals can be
    played, and nobody who waits is lost. *)
From Stdlib Require Import ZArith Lia String Ascii.
From stdpp Require Import base gmap list strings pretty sorting.
From S2P Require Import Prelude LfgRoles LfgRolesSpec LfgQueue.

Open Scope Z_scope.
Open Scope tc_scope.

(** ** Programs of the search

    [wp m Q s]: from [s] the program [m] answers, with a result and a state
    that satisfy [Q]. *)

Definition wp {A} (m : M A) (Q : A -> Search -> Prop) (s : Search) : Prop :=
  exists x s', m s = Some (x, s') /\ Q x s'.

Lemma wp_ret {A} (x : A) (Q : A -> Search -> Prop) s : Q x s -> wp (mret x) Q s.
Proof. intros H. by exists x, s. Qed.

Lemma wp_bind {A B} (m : M A) (f : A -> M B) Q s : wp m (fun x => wp (f x) Q) s -> wp (x ← m; f x) Q s.
Proof.
  intros (x & s' & E & y & s'' & E' & H). exists y, s''. split; [|done].
  unfold mbind, M_bind. rewrite E. cbn. exact E'.
Qed.

Lemma wp_weaken {A} (m : M A) (Q Q' : A -> Search -> Prop) s :
  wp m Q s -> (forall x s', Q x s' -> Q' x s') -> wp m Q' s.
Proof. intros (x & s' & E & H) HQ. exists x, s'. auto. Qed.

Lemma wp_reads {A} (f : LFGQueue -> A) (Q : A -> Search -> Prop) s : Q (f (sr_queue s)) s -> wp (reads f) Q s.
Proof. intros H. by exists (f (sr_queue s)), s. Qed.

Lemma wp_modify f (Q : () -> Search -> Prop) s :
  Q tt (mkSearch (f (sr_queue s)) (sr_proposals s) (sr_random s)) -> wp (modify f) Q s.
Proof. intros H. by eexists _, _. Qed.

Section Spec.
Context `{Mgr : LfgManager}.

(** ** What does not change

    The entries' dungeons and roles; an unknown guid has none. *)

Definition entry_dungeons (q : LFGQueue) (guid : Z) : LfgDungeonSet :=
  match QueueDataStore q !! guid with Some d => qd_dungeons d | None => ∅ end.
Definition entry_roles (q : LFGQueue) (guid : Z) : LfgRolesMap :=
  match QueueDataStore q !! guid with Some d => qd_roles d | None => ∅ end.

Definition queued (s : Search) (guid : Z) : Prop := is_Some (QueueDataStore (sr_queue s) !! guid).

Definition same_entries (q q' : LFGQueue) : Prop :=
  forall guid, entry_dungeons q' guid = entry_dungeons q guid /\ entry_roles q' guid = entry_roles q guid.

(** Steps that only fill in entries, note best combinations or draw numbers. *)
Record quiet (s s' : Search) : Prop := {
  qt_entries : same_entries (sr_queue s) (sr_queue s');
  qt_queued : forall guid, queued s guid -> queued s' guid;
  qt_cache : CompatibleMapStore (sr_queue s') = CompatibleMapStore (sr_queue s);
  qt_current : currentQueueStore (sr_queue s') = currentQueueStore (sr_queue s);
  qt_new : newToQueueStore (sr_queue s') = newToQueueStore (sr_queue s);
  qt_proposals : sr_proposals s' = sr_proposals s
}.

#[export] Instance quiet_refl : Reflexive quiet.
Proof. by split. Qed.

#[export] Instance quiet_trans : Transitive quiet.
Proof.
  intros s s' s'' [E Q C Cu N P] [E' Q' C' Cu' N' P']. split; try congruence; [|by auto].
  intros guid. destruct (E guid), (E' guid). split; congruence.
Qed.

(** Writing an entry with the same dungeons and roles. *)
Lemma quiet_insert s guid d :
  qd_dungeons d = entry_dungeons (sr_queue s) guid -> qd_roles d = entry_roles (sr_queue s) guid ->
  quiet s (mkSearch (set_data (<[guid := d]> (QueueDataStore (sr_queue s))) (sr_queue s)) (sr_proposals s) (sr_random s)).
Proof.
  intros Hd Hr. split; try done.
  - intros g. unfold entry_dungeons, entry_roles in *. cbn. destruct (decide (g = guid)) as [->|Hg].
    + by rewrite lookup_insert_eq.
    + by rewrite lookup_insert_ne.
  - intros g Hg. unfold queued in *. cbn. destruct (decide (g = guid)) as [->|Hne].
    + by rewrite lookup_insert_eq.
    + by rewrite lookup_insert_ne.
Qed.

Lemma wp_queue_data guid s (Q : LfgQueueData -> Search -> Prop) :
  (forall d s', quiet s s' -> queued s' guid -> qd_dungeons d = entry_dungeons (sr_queue s) guid ->
    qd_roles d = entry_roles (sr_queue s) guid -> Q d s') -> wp (queue_data guid) Q s.
Proof.
  intros HQ. unfold queue_data. apply wp_bind, wp_reads. destruct (QueueDataStore (sr_queue s) !! guid) as [d|] eqn:E.
  - apply wp_ret, HQ; [done|by exists d| |]; unfold entry_dungeons, entry_roles; by rewrite E.
  - apply wp_bind, wp_modify, wp_ret, HQ.
    + apply quiet_insert; unfold entry_dungeons, entry_roles; rewrite E; done.
    + unfold queued. cbn. by rewrite lookup_insert_eq.
    + unfold entry_dungeons. by rewrite E.
    + unfold entry_roles. by rewrite E.
Qed.

Lemma wp_intersect check : forall ds s (Q : LfgDungeonSet -> Search -> Prop),
  (forall ds' s', quiet s s' -> Forall (queued s') check ->
    (forall id, id ∈ ds' <-> id ∈ ds /\ Forall (fun guid => id ∈ entry_dungeons (sr_queue s) guid) check) -> Q ds' s') ->
  wp (intersect_dungeons ds check) Q s.
Proof.
  induction check as [|guid check IH]; intros ds s Q HQ; cbn.
  - apply wp_ret, HQ; [done|constructor|]. intros id. split; [by split; [|constructor]|by intros [? _]].
  - apply wp_bind, wp_queue_data. intros d s' Hq Hg Hd _. apply IH. intros ds' s'' Hq' Hc Hds. apply HQ.
    + by etrans.
    + constructor; [by apply (qt_queued _ _ Hq')|done].
    + intros id. rewrite Hds, elem_of_intersection, Hd, Forall_cons. destruct Hq as [E _ _ _ _ _].
      assert (Hall : Forall (fun g => id ∈ entry_dungeons (sr_queue s') g) check <-> Forall (fun g => id ∈ entry_dungeons (sr_queue s) g) check).
      { apply Forall_proper; [|done]. intros g. by destruct (E g) as [-> _]. }
      rewrite Hall. tauto.
Qed.

Lemma elem_of_in_order (ds : gset Z) id : id ∈ in_order ds <-> id ∈ ds.
Proof. unfold in_order. by rewrite stable_sort_perm, elem_of_elements. Qed.

Lemma in_order_length (ds : gset Z) : length (in_order ds) = size ds.
Proof. unfold in_order. by rewrite stable_sort_perm. Qed.

Lemma wp_draw n s (Q : Z -> Search -> Prop) : 0 < n -> (forall r s', quiet s s' -> 0 <= r < n -> Q r s') -> wp (draw n) Q s.
Proof.
  intros Hn HQ. unfold draw, wp. destruct (sr_random s) as [|r random].
  - eexists _, _. split; [done|]. apply HQ; [done|lia].
  - eexists _, _. split; [done|]. apply HQ; [by split|]. by apply Z.mod_pos_bound.
Qed.

Lemma wp_pick fuel : forall ds s (Q : option (Z * LFGDungeonData) -> Search -> Prop), (size ds < fuel)%nat ->
  (forall s', quiet s s' -> Q None s') ->
  (forall s' id dungeon, quiet s s' -> id ∈ ds -> GetLFGDungeon id = Some dungeon -> Q (Some (id, dungeon)) s') ->
  wp (pick_dungeon fuel ds) Q s.
Proof.
  induction fuel as [|fuel IH]; intros ds s Q Hf HN HS; [lia|]. cbn. case_bool_decide as He; [by apply wp_ret, HN|].
  assert (Hs : (0 < size ds)%nat).
  { destruct (size ds) eqn:E; [|lia]. apply size_empty_inv in E. by apply leibniz_equiv in E. }
  apply wp_bind, wp_draw; [lia|]. intros i s' Hq Hi.
  destruct (lookup_lt_is_Some_2 (in_order ds) (Z.to_nat i)) as [id Hid]; [rewrite in_order_length; lia|]. rewrite Hid.
  assert (Hin : id ∈ ds) by (by eapply elem_of_in_order, list_elem_of_lookup_2).
  destruct (GetLFGDungeon id) as [dungeon|] eqn:E.
  - apply wp_ret. by apply HS.
  - apply IH.
    + rewrite size_difference by set_solver. rewrite size_singleton. lia.
    + intros s'' Hq'. apply HN. by etrans.
    + intros s'' id' dungeon Hq' Hin' E'. apply HS; [by etrans|set_solver|done].
Qed.

(** ** Counting players *)

Definition total_players (q : LFGQueue) (check : list Z) : nat :=
  sum_list_with (fun guid => size (entry_roles q guid)) check.

Definition group_of (guid : Z) : Z := if IsGroup guid then guid else 0.

Lemma foldl_insert_lookup (x : Z) l : forall (m : gmap Z Z) p,
  foldl (fun m p => <[p := x]> m) m l !! p = if bool_decide (p ∈ l) then Some x else m !! p.
Proof.
  induction l as [|p' l IH]; intros m p; cbn; [done|]. rewrite IH. repeat case_bool_decide; try done.
  - set_solver.
  - assert (p = p') as -> by set_solver. by rewrite lookup_insert_eq.
  - rewrite lookup_insert_ne; [done|]. set_solver.
Qed.

(** Everybody is counted, or there are too many. *)
Record Counted_all (q : LFGQueue) (maxSize : Z) (check : list Z) (c c' : Counts) : Prop := {
  ca_groups : numLfgGroups c' = 0;
  ca_group : ct_group c' = ct_group c;
  ca_range : 0 <= numPlayers c' < 2 ^ 8;
  ca_total : numPlayers c' <= maxSize -> numPlayers c' = numPlayers c + Z.of_nat (total_players q check);
  ca_known : numPlayers c' <= maxSize -> forall player,
    is_Some (proposalGroups c !! player) \/ (exists guid, guid ∈ check /\ is_Some (entry_roles q guid !! player)) ->
    is_Some (proposalGroups c' !! player);
  ca_origin : forall player gguid, proposalGroups c' !! player = Some gguid ->
    proposalGroups c !! player = Some gguid \/
    exists guid, guid ∈ check /\ is_Some (entry_roles q guid !! player) /\ gguid = group_of guid
}.

Lemma Counted_all_cons q maxSize guid check d c c' : IsLfgGroup guid = false -> numLfgGroups c = 0 ->
  0 <= numPlayers c <= maxSize -> maxSize + Z.of_nat (size (entry_roles q guid)) < 2 ^ 8 -> qd_roles d = entry_roles q guid ->
  Counted_all q maxSize check (count_entry guid d c) c' -> Counted_all q maxSize (guid :: check) c c'.
Proof.
  intros Hg Hn Hr Hm Hd [G1 G2 R T K O]. unfold count_entry in *. rewrite Hg, Hd in *. cbn in G2, T, K, O.
  setoid_rewrite foldl_insert_lookup in K. setoid_rewrite foldl_insert_lookup in O. rewrite u8_small in T by lia.
  split; [done|done|done| | |].
  - intros Hle. rewrite (T Hle). unfold total_players. cbn. lia.
  - intros Hle player Hp. apply (K Hle). case_bool_decide as E; [left; done|].
    destruct Hp as [Hp|(g & Hg' & Hp)]; [by left|]. apply elem_of_cons in Hg' as [->|Hg'].
    + exfalso. by apply E, elem_of_guids.
    + right. eauto.
  - intros player gguid Hp. destruct (O player gguid Hp) as [Hp'|(g & Hg' & Hp' & ->)]; [|right; exists g; split; [by right|done]].
    case_bool_decide as E; [|by left]. right. exists guid. simplify_eq.
    split; [apply list_elem_of_here|]. split; [by apply elem_of_guids|done].
Qed.

Lemma wp_count maxSize check : forall c s (Q : option Counts -> Search -> Prop),
  Forall (queued s) check -> Forall (fun guid => IsLfgGroup guid = false) check ->
  Forall (fun guid => maxSize + Z.of_nat (size (entry_roles (sr_queue s) guid)) < 2 ^ 8) check ->
  numLfgGroups c = 0 -> 0 <= numPlayers c < 2 ^ 8 ->
  (forall c', Counted_all (sr_queue s) maxSize check c c' -> Q (Some c') s) ->
  wp (count_players maxSize check c) Q s.
Proof.
  induction check as [|guid check IH]; intros c s Q Hq Hl Hm Hn Hr HQ; cbn.
  - apply wp_ret, HQ. split; [done|done|done|cbn; lia| |by left].
    intros _ player [?|(g & Hg & _)]; [done|]. by apply not_elem_of_nil in Hg.
  - inversion_clear Hq as [|? ? Hq1 Hq2]. inversion_clear Hl as [|? ? Hl1 Hl2]. inversion_clear Hm as [|? ? Hm1 Hm2].
    rewrite Hn. cbn. destruct (Z.leb_spec (numPlayers c) maxSize).
    + apply wp_bind, wp_reads. destruct Hq1 as [d Hd]. rewrite Hd.
      assert (Hroles : qd_roles d = entry_roles (sr_queue s) guid) by (unfold entry_roles; by rewrite Hd).
      apply IH; [done..| | |].
      * unfold count_entry. cbn. by rewrite Hl1.
      * cbn. apply u8_bound.
      * intros c' Hc. apply HQ. apply (Counted_all_cons _ _ _ _ d); done || lia.
    + apply wp_ret, HQ. split; [done|done|done|lia|lia|by left].
Qed.

(** ** Merging roles *)

Definition friendly (roles : LfgRolesMap) : Prop :=
  forall p p', is_Some (roles !! p) -> is_Some (roles !! p') -> p <> p' -> HasIgnore p p' = false.

(** When the sizes add up, every player of [l] is new and ignores nobody. *)
Record Merged (roles acc merged : LfgRolesMap) (l : list Z) : Prop := {
  mg_fresh : Forall (fun p => acc !! p = None) l;
  mg_lookup : forall p v, merged !! p = Some v <-> acc !! p = Some v \/ p ∈ l /\ roles !! p = Some v;
  mg_friendly : friendly acc -> friendly merged
}.

Lemma merge_player_spec roles acc p : (forall p p', HasIgnore p p' = HasIgnore p' p) -> is_Some (roles !! p) ->
  (size (merge_player roles acc p) <= S (size acc))%nat /\
  (size (merge_player roles acc p) = S (size acc) -> Merged roles acc (merge_player roles acc p) [p]).
Proof.
  intros Hsym [v Hv]. unfold merge_player. destruct (existsb _ _) eqn:E; [split; [lia|intros; lia]|].
  rewrite (lookup_role _ _ _ Hv). destruct (acc !! p) as [w|] eqn:Ea.
  - rewrite map_size_insert_Some by done. split; [lia|intros; lia].
  - rewrite map_size_insert_None by done. split; [done|]. intros _. split; [by constructor| |].
    + intros p' v'. rewrite list_elem_of_singleton. destruct (decide (p' = p)) as [->|Hne].
      * rewrite lookup_insert_eq. naive_solver.
      * rewrite lookup_insert_ne by done. naive_solver.
    + intros Hf. assert (Hp : forall p', is_Some (acc !! p') -> p <> p' -> HasIgnore p p' = false).
      { intros p' Hp' Hne. apply existsb_none in E. rewrite Forall_forall in E.
        specialize (E p' (proj2 (elem_of_guids acc p') Hp')). apply andb_false_iff in E as [E|E]; [|done].
        apply negb_false_iff, Z.eqb_eq in E. done. }
      intros p1 p2 H1 H2 Hne. destruct (decide (p1 = p)) as [->|H1'], (decide (p2 = p)) as [->|H2'].
      * done.
      * apply Hp; [|done]. by rewrite lookup_insert_ne in H2.
      * rewrite Hsym. apply Hp; [|done]. by rewrite lookup_insert_ne in H1.
      * rewrite lookup_insert_ne in H1, H2 by done. by apply Hf.
Qed.

Lemma merge_players_spec roles l : forall acc, (forall p p', HasIgnore p p' = HasIgnore p' p) ->
  Forall (fun p => is_Some (roles !! p)) l ->
  (size (foldl (merge_player roles) acc l) <= size acc + length l)%nat /\
  (size (foldl (merge_player roles) acc l) = size acc + length l -> Merged roles acc (foldl (merge_player roles) acc l) l)%nat.
Proof.
  induction l as [|p l IH]; intros acc Hsym Hl; cbn [foldl length].
  - split; [lia|]. intros _. split; [done| |done]. intros p v. split; [by left|]. intros [?|[? _]]; [done|set_solver].
  - inversion_clear Hl as [|? ? Hp Hl']. destruct (merge_player_spec roles acc p Hsym Hp) as [H1 H2].
    destruct (IH (merge_player roles acc p) Hsym Hl') as [H3 H4]. split; [lia|]. intros Hs.
    destruct (H2 ltac:(lia)) as [F1 L1 R1]. destruct (H4 ltac:(lia)) as [F2 L2 R2]. split; [| |auto].
    + inversion_clear F1 as [|? ? Hf _]. constructor; [done|]. eapply Forall_impl; [exact F2|]. cbn. intros p' Hp'.
      destruct (acc !! p') eqn:E; [|done]. by rewrite (proj2 (L1 p' z)) in Hp' by auto.
    + intros p' v. rewrite L2, L1, list_elem_of_singleton, elem_of_cons. tauto.
Qed.

Definition merge_all (q : LFGQueue) (check : list Z) (acc : LfgRolesMap) : LfgRolesMap :=
  foldl (fun acc guid => foldl (merge_player (entry_roles q guid)) acc (guids (entry_roles q guid))) acc check.

Lemma merge_all_same q q' check : same_entries q q' -> forall acc, merge_all q' check acc = merge_all q check acc.
Proof.
  intros E. unfold merge_all. induction check as [|guid check IH]; intros acc; cbn; [done|].
  destruct (E guid) as [_ ->]. apply IH.
Qed.

Lemma wp_merge check : forall acc s (Q : LfgRolesMap -> Search -> Prop),
  (forall s', quiet s s' -> Q (merge_all (sr_queue s) check acc) s') -> wp (merge_roles check acc) Q s.
Proof.
  induction check as [|guid check IH]; intros acc s Q HQ; cbn; [by apply wp_ret, HQ|].
  apply wp_bind, wp_queue_data. intros d s' Hq _ _ Hr. rewrite Hr. apply IH. intros s'' Hq'.
  rewrite (merge_all_same (sr_queue s)) by apply Hq. apply HQ. by etrans.
Qed.

Record MergedAll (q : LFGQueue) (check : list Z) (acc merged : LfgRolesMap) : Prop := {
  ma_lookup : forall p v, merged !! p = Some v <->
    acc !! p = Some v \/ exists guid, guid ∈ check /\ entry_roles q guid !! p = Some v;
  ma_friendly : friendly acc -> friendly merged;
  ma_fresh : Forall (fun guid => entry_roles q guid ##ₘ acc) check;
  ma_apart : ForallOrdPairs (fun guid guid' => entry_roles q guid ##ₘ entry_roles q guid') check
}.

Lemma merge_all_spec q check : (forall p p', HasIgnore p p' = HasIgnore p' p) -> forall acc,
  (size (merge_all q check acc) <= size acc + total_players q check)%nat /\
  (size (merge_all q check acc) = size acc + total_players q check -> MergedAll q check acc (merge_all q check acc))%nat.
Proof.
  intros Hsym. induction check as [|guid check IH]; intros acc; cbn [merge_all foldl total_players sum_list_with].
  - split; [lia|]. intros _. split; [|done|constructor..]. intros p v. split; [by left|].
    intros [?|(g & Hg & _)]; [done|]. by apply not_elem_of_nil in Hg.
  - set (roles := entry_roles q guid). set (acc' := foldl (merge_player roles) acc (guids roles)).
    destruct (merge_players_spec roles (guids roles) acc Hsym) as [H1 H2].
    { apply Forall_forall. intros p. apply elem_of_guids. }
    destruct (IH acc') as [H3 H4]. unfold merge_all, total_players in H3, H4. rewrite guids_size in H1, H2. fold acc' in H1, H2.
    split; [lia|]. intros Hs. destruct (H2 ltac:(lia)) as [F1 L1 R1]. destruct (H4 ltac:(lia)) as [L2 R2 F2 A2].
    assert (L1' : forall p v, acc' !! p = Some v <-> acc !! p = Some v \/ roles !! p = Some v).
    { intros p v. rewrite L1. split; [tauto|]. intros [?|Hv]; [by left|]. right. split; [|done]. by apply elem_of_guids. }
    assert (Hfresh : forall m, m ##ₘ acc' -> m ##ₘ acc /\ roles ##ₘ m).
    { intros m Hm. rewrite !map_disjoint_spec in *. split; intros p v w Hv Hw; eapply Hm; try done; apply L1'; eauto. }
    split.
    + intros p v. rewrite L2, L1'. setoid_rewrite elem_of_cons. unfold roles. naive_solver.
    + auto.
    + constructor; [|eapply Forall_impl; [exact F2|]; intros g Hg; by apply Hfresh].
      apply map_disjoint_spec. intros p v w Hv Hw. rewrite Forall_forall in F1.
      rewrite (F1 p) in Hw; [done|]. by apply elem_of_guids.
    + constructor; [|done]. eapply Forall_impl; [exact F2|]. intros g Hg. by apply Hfresh.
Qed.

(** ** Noting the best combination *)

Lemma UpdateBest_same key roles d : qd_dungeons (UpdateBestCompatibleInQueue key roles d) = qd_dungeons d /\
  qd_roles (UpdateBestCompatibleInQueue key roles d) = qd_roles d.
Proof.
  unfold UpdateBestCompatibleInQueue. destruct (_ <=? _); [done|].
  assert (Hfill : forall l d', qd_dungeons (foldl fill_role d' l) = qd_dungeons d' /\ qd_roles (foldl fill_role d' l) = qd_roles d').
  { induction l as [|role l IH]; intros d'; cbn; [done|]. destruct (IH (fill_role d' role)) as [-> ->].
    unfold fill_role. by repeat destruct (nz _). }
  destruct (Hfill ((fun guid => roles !!! guid) <$> guids roles) (InitializeGroupSetup (set_best key d))) as [-> ->].
  unfold InitializeGroupSetup. destruct (in_order _); [done|]. by destruct (GetLFGDungeon _).
Qed.

Lemma wp_update_best key roles check : forall s (Q : () -> Search -> Prop), Forall (queued s) check ->
  (forall s', quiet s s' -> Q tt s') -> wp (update_best key roles check) Q s.
Proof.
  induction check as [|guid check IH]; intros s Q Hq HQ; cbn; [by apply wp_ret, HQ|].
  inversion_clear Hq as [|? ? [d Hd] Hq']. apply wp_bind, wp_reads. rewrite Hd. apply wp_bind, wp_modify.
  destruct (UpdateBest_same key roles d) as [Ed Er].
  match goal with |- wp _ _ ?s' => assert (Hs' : quiet s s') end.
  { apply quiet_insert; [rewrite Ed; unfold entry_dungeons|rewrite Er; unfold entry_roles]; by rewrite Hd. }
  apply IH.
  - eapply Forall_impl; [exact Hq'|]. intros g. apply Hs'.
  - intros s'' Hq''. apply HQ. by etrans.
Qed.

(** ** The leader and the players of a proposal *)

Definition offers_lead (roles : LfgRolesMap) (player : Z) : bool := nz (Z.land (roles !!! player) PLAYER_ROLE_LEADER).

Lemma wp_leader roles players : forall leader proposalLeader s (Q : Z -> Search -> Prop),
  (forall s' chosen, quiet s s' -> chosen = proposalLeader \/ chosen ∈ players ->
    (players <> [] -> leader = false -> proposalLeader = 0 -> chosen ∈ players) -> Q chosen s') ->
  wp (choose_leader roles players leader proposalLeader) Q s.
Proof.
  induction players as [|player players IH]; intros leader pl s Q HQ; cbn; [by apply wp_ret, HQ; [|left|]|].
  assert (Hnext : forall leader' pl' s', quiet s s' -> pl' = pl \/ pl' = player ->
    (leader = false -> pl = 0 -> pl' = player) -> wp (choose_leader roles players leader' pl') Q s').
  { intros leader' pl' s' Hq Hpl H0. apply IH. intros s'' chosen Hq' Hc _. apply HQ; [by etrans| |].
    - rewrite elem_of_cons. destruct Hc as [->|]; [|by auto]. destruct Hpl; auto.
    - intros _ Hl Hz. rewrite elem_of_cons. destruct Hc as [->|]; [|by auto]. left. by apply H0. }
  assert (Hdraw : forall r : Z, (if nz r then player else pl) = pl \/ (if nz r then player else pl) = player)
    by (intros r; destruct (nz r); auto).
  destruct (nz (Z.land _ _)).
  - destruct (negb leader || negb (nz pl)) eqn:E; [by apply Hnext; [|right|]|]. apply wp_bind, wp_draw; [lia|].
    intros r s' Hq _. apply Hnext; [done|done|]. by intros ->.
  - destruct leader; cbn; [by apply Hnext; [|left|]|]. destruct (nz pl) eqn:E; cbn; [|by apply Hnext; [|right|]].
    apply wp_bind, wp_draw; [lia|]. intros r s' Hq _. apply Hnext; [done|done|]. intros _ ->. done.
Qed.

Lemma proposal_players_spec isNew c roles l : forall acc,
  Forall (fun player => is_Some (proposalGroups c !! player)) l ->
  exists players, proposal_players isNew c roles l acc = Some players /\
    (forall player pp, players !! player = Some pp ->
      acc !! player = Some pp \/ player ∈ l /\ proposal_player isNew (ct_group c) (proposalGroups c) player (roles !!! player) = Some pp) /\
    (forall player, is_Some (players !! player) <-> is_Some (acc !! player) \/ player ∈ l).
Proof.
  induction l as [|player l IH]; intros acc Hl; cbn.
  - exists acc. split; [done|]. split; [by left|]. intros player. split; [by left|]. intros [?|Hp]; [done|].
    by apply not_elem_of_nil in Hp.
  - inversion_clear Hl as [|? ? [gguid Hg] Hl']. set (p := proposal_player _ _ _ _ _).
    assert (exists pp, p = Some pp) as [pp Hpp] by (unfold p, proposal_player; rewrite Hg; cbn; eauto). rewrite Hpp. cbn.
    destruct (IH (<[player := pp]> acc) Hl') as (players & -> & H1 & H2). exists players. split; [done|]. split.
    + intros player' pp' Hp. destruct (H1 player' pp' Hp) as [Ha|[Hin Hp']]; [|right; split; [by right|done]].
      destruct (decide (player' = player)) as [->|Hne].
      * rewrite lookup_insert_eq in Ha. simplify_eq. right. split; [apply list_elem_of_here|done].
      * rewrite lookup_insert_ne in Ha by done. by left.
    + intros player'. rewrite H2, elem_of_cons. destruct (decide (player' = player)) as [->|Hne].
      * rewrite lookup_insert_eq. naive_solver.
      * rewrite lookup_insert_ne by done. naive_solver.
Qed.

(** ** Proposals that can be played *)

(** The dungeon is one everybody waits for, everybody plays one of the roles
    they offer, each role has the number the dungeon requires, no player comes
    twice, and strangers do not ignore each other. *)
Record Playable (q : LFGQueue) (p : LfgProposal) : Prop := {
  pl_some : pr_queues p <> [];
  pl_entries : Forall (fun guid => pr_dungeonId p ∈ entry_dungeons q guid /\ GetState guid = LFG_STATE_QUEUED) (pr_queues p);
  pl_players : forall player, is_Some (pr_players p !! player) <->
    exists guid, guid ∈ pr_queues p /\ is_Some (entry_roles q guid !! player);
  pl_roles : exists dungeon a, GetLFGDungeon (pr_dungeonId p) = Some dungeon /\
    (forall guid player v pp, guid ∈ pr_queues p -> entry_roles q guid !! player = Some v -> pr_players p !! player = Some pp ->
      is_role (a player) /\ Z.land v (a player) <> 0 /\ pp_role pp = Z.lor (Z.land v PLAYER_ROLE_LEADER) (a player)) /\
    (forall role, is_role role -> count_of (in_order (dom (pr_players p))) a role = required dungeon role);
  pl_groups : forall player pp, pr_players p !! player = Some pp -> pp_accept pp = LFG_ANSWER_PENDING /\
    exists guid, guid ∈ pr_queues p /\ is_Some (entry_roles q guid !! player) /\ pp_group pp = group_of guid;
  pl_apart : ForallOrdPairs (fun guid guid' => entry_roles q guid ##ₘ entry_roles q guid') (pr_queues p);
  pl_friendly : (1 < length (pr_queues p))%nat -> forall player player', is_Some (pr_players p !! player) ->
    is_Some (pr_players p !! player') -> player <> player' -> HasIgnore player player' = false;
  pl_leader : is_Some (pr_players p !! pr_leader p)
}.

Lemma Playable_same q q' p : same_entries q q' -> Playable q' p -> Playable q p.
Proof.
  intros E [S En P R G A F L]. assert (Ed : forall g, entry_dungeons q' g = entry_dungeons q g) by (intros g; apply E).
  assert (Er : forall g, entry_roles q' g = entry_roles q g) by (intros g; apply E).
  setoid_rewrite Ed in En. setoid_rewrite Er in P. setoid_rewrite Er in R. setoid_rewrite Er in G. split; try done.
  clear - A Er. induction A as [|g l Hg Hl IH]; constructor; [|done]. eapply Forall_impl; [exact Hg|]. cbn. intros g'. by rewrite !Er.
Qed.

(** The guids that no proposal took. *)
Definition without (ps : list LfgProposal) (l : list Z) : list Z :=
  List.filter (fun guid => negb (existsb (fun p => bool_decide (guid ∈ pr_queues p)) ps)) l.

Lemma without_nil l : without [] l = l.
Proof. apply filter_id, Forall_true. done. Qed.

Lemma filter_filter {A} (f g : A -> bool) l : List.filter f (List.filter g l) = List.filter (fun x => g x && f x) l.
Proof. induction l as [|x l IH]; cbn; [done|]. destruct (g x); cbn; [destruct (f x); by rewrite IH|done]. Qed.

Lemma without_app ps ps' l : without ps' (without ps l) = without (ps ++ ps') l.
Proof.
  unfold without. rewrite filter_filter. apply List.filter_ext. intros guid. by rewrite existsb_app, negb_orb.
Qed.

(** What a check of [check] does: proposals of it or of parts of it. *)
Record Effect (check : list Z) (s s' : Search) (ps : list LfgProposal) : Prop := {
  ef_entries : same_entries (sr_queue s) (sr_queue s');
  ef_queued : forall guid, queued s guid -> queued s' guid;
  ef_proposals : sr_proposals s' = sr_proposals s ++ ps;
  ef_playable : Forall (fun p => Playable (sr_queue s) p /\ pr_queues p `suffix_of` check) ps;
  ef_current : currentQueueStore (sr_queue s') = without ps (currentQueueStore (sr_queue s));
  ef_new : newToQueueStore (sr_queue s') = without ps (newToQueueStore (sr_queue s));
  ef_cache : forall key, GetCompatibles key (sr_queue s') = GetCompatibles key (sr_queue s) \/
    exists l, l `suffix_of` check /\ l <> [] /\ key = ConcatenateGuids l /\
      (GetCompatibles key (sr_queue s') = LFG_COMPATIBLES_MATCH -> exists p, p ∈ ps /\ pr_queues p = l) /\
      (GetCompatibles key (sr_queue s') = LFG_COMPATIBLES_BAD_STATES -> AllQueued l = false)
}.

Definition Outcome (check : list Z) (s : Search) (r : LfgCompatibility) (s' : Search) : Prop :=
  exists ps, Effect check s s' ps /\
    (r = LFG_COMPATIBLES_MATCH <-> exists p, p ∈ ps /\ pr_queues p = check) /\
    (r = LFG_COMPATIBLES_BAD_STATES -> AllQueued check = false).

Lemma same_entries_trans q q' q'' : same_entries q q' -> same_entries q' q'' -> same_entries q q''.
Proof. intros E E' guid. destruct (E guid) as [<- <-]. apply E'. Qed.

Lemma Effect_trans check s s' s'' ps ps' : Effect check s s' ps -> Effect check s' s'' ps' -> Effect check s s'' (ps ++ ps').
Proof.
  intros [E Q P Pl C N Ca] [E' Q' P' Pl' C' N' Ca']. split.
  - by eapply same_entries_trans.
  - auto.
  - by rewrite P', P, app_assoc.
  - apply Forall_app. split; [done|]. eapply Forall_impl; [exact Pl'|]. intros p [Hp Hs]. split; [|done].
    by eapply Playable_same.
  - by rewrite C', C, without_app.
  - by rewrite N', N, without_app.
  - intros key. destruct (Ca' key) as [->|(l & Hl & Hn & Hk & Hm & Hb)].
    + destruct (Ca key) as [?|(l & Hl & Hn & Hk & Hm & Hb)]; [by left|]. right. exists l. split_and!; [done|done|done| |done].
      intros Hx. destruct (Hm Hx) as (p & Hp & <-). exists p. split; [|done]. apply elem_of_app. by left.
    + right. exists l. split_and!; [done|done|done| |done]. intros Hx. destruct (Hm Hx) as (p & Hp & <-). exists p.
      split; [|done]. apply elem_of_app. by right.
Qed.

Lemma Effect_quiet check s s' : quiet s s' -> Effect check s s' [].
Proof.
  intros [E Q C Cu N P]. split; rewrite ?without_nil, ?app_nil_r; try done.
  intros key. left. unfold GetCompatibles. by rewrite C.
Qed.

Lemma Effect_suffix check check' s s' ps : check `suffix_of` check' -> Effect check s s' ps -> Effect check' s s' ps.
Proof.
  intros Hs [E Q P Pl C N Ca]. split; try done.
  - eapply Forall_impl; [exact Pl|]. intros p [Hp Hl]. split; [done|by etrans].
  - intros key. destruct (Ca key) as [?|(l & Hl & H')]; [by left|]. right. exists l. split; [by etrans|done].
Qed.

Lemma GetCompatibles_insert key key' data q :
  GetCompatibles key' (set_compatibles (<[key := data]> (CompatibleMapStore q)) q) =
    if bool_decide (key' = key) then compatibility data else GetCompatibles key' q.
Proof.
  unfold GetCompatibles. cbn. case_bool_decide as E; [by rewrite E, lookup_insert_eq|by rewrite lookup_insert_ne].
Qed.

(** Writing a verdict to the cache. *)
Lemma Effect_cache check s data : check <> [] -> compatibility data <> LFG_COMPATIBLES_MATCH ->
  (compatibility data = LFG_COMPATIBLES_BAD_STATES -> AllQueued check = false) ->
  Effect check s (mkSearch (set_compatibles (<[ConcatenateGuids check := data]> (CompatibleMapStore (sr_queue s))) (sr_queue s))
    (sr_proposals s) (sr_random s)) [].
Proof.
  intros Hc Hm Hb. split; cbn; rewrite ?without_nil, ?app_nil_r; try done.
  intros key. rewrite GetCompatibles_insert. case_bool_decide as E; [|by left]. right. exists check.
  split_and!; [done|done|done|by intros ?|done].
Qed.

Lemma no_match r check : r <> LFG_COMPATIBLES_MATCH ->
  r = LFG_COMPATIBLES_MATCH <-> exists p : LfgProposal, p ∈ [] /\ pr_queues p = check.
Proof. intros Hm. split; [done|]. intros (p & Hp & _). by apply not_elem_of_nil in Hp. Qed.

Lemma wp_refuse check s r (Q : LfgCompatibility -> Search -> Prop) : check <> [] ->
  r <> LFG_COMPATIBLES_MATCH -> (r = LFG_COMPATIBLES_BAD_STATES -> AllQueued check = false) ->
  (forall s', Outcome check s r s' -> Q r s') ->
  wp (modify (SetCompatibles (ConcatenateGuids check) r);; mret r) Q s.
Proof.
  intros Hc Hm Hb HQ. apply wp_bind, wp_modify, wp_ret, HQ. exists [].
  split; [by apply Effect_cache|]. split; [|done]. by apply no_match.
Qed.

Lemma Outcome_quiet check s s' r s'' : quiet s s' -> Outcome check s' r s'' -> Outcome check s r s''.
Proof.
  intros Hq (ps & He & Hr). exists ps. split; [|done]. change ps with ([] ++ ps).
  eapply Effect_trans; [by apply Effect_quiet|done].
Qed.

(** ** Making a proposal *)

Lemma remove_all_spec check : forall q,
  let q' := foldl (fun q guid => RemoveFromCurrentQueue guid (RemoveFromNewQueue guid q)) q check in
  QueueDataStore q' = QueueDataStore q /\ CompatibleMapStore q' = CompatibleMapStore q /\
  currentQueueStore q' = List.filter (fun guid => negb (bool_decide (guid ∈ check))) (currentQueueStore q) /\
  newToQueueStore q' = List.filter (fun guid => negb (bool_decide (guid ∈ check))) (newToQueueStore q).
Proof.
  assert (Hstep : forall guid check l, List.filter (fun g => negb (bool_decide (g ∈ check))) (remove_guid guid l) =
    List.filter (fun g => negb (bool_decide (g ∈ guid :: check))) l).
  { intros guid check' l. unfold remove_guid. rewrite filter_filter. apply List.filter_ext. intros g.
    rewrite <- negb_orb. f_equal. apply eq_true_iff_eq. rewrite orb_true_iff, !bool_decide_eq_true, Z.eqb_eq, elem_of_cons. done. }
  induction check as [|guid check IH]; intros q; cbn [foldl].
  - split; [done|]. split; [done|]. by rewrite !filter_id by by apply Forall_true.
  - destruct (IH (RemoveFromCurrentQueue guid (RemoveFromNewQueue guid q))) as (-> & -> & -> & ->).
    split_and!; [done|done|apply Hstep..].
Qed.

Lemma without_one p l : without [p] l = List.filter (fun guid => negb (bool_decide (guid ∈ pr_queues p))) l.
Proof. unfold without. apply List.filter_ext. intros guid. cbn. by rewrite orb_false_r. Qed.

Lemma AllQueued_spec check : AllQueued check = true -> Forall (fun guid => GetState guid = LFG_STATE_QUEUED) check.
Proof.
  unfold AllQueued. destruct check as [|guid check]; [done|]. intros Hall. apply Forall_forall. intros g Hg.
  eapply forallb_forall in Hall; [|by apply list_elem_of_In]. by apply bool_decide_eq_true in Hall.
Qed.

Lemma wp_make_proposal check dungeonId c roles s (Q : LfgCompatibility -> Search -> Prop) :
  check <> [] -> numLfgGroups c = 0 -> roles <> ∅ ->
  Forall (fun player => is_Some (proposalGroups c !! player)) (guids roles) ->
  (forall p, pr_queues p = check -> pr_dungeonId p = dungeonId -> AllQueued check = true ->
    (forall player pp, pr_players p !! player = Some pp ->
      roles !! player = Some (pp_role pp) /\ pp_accept pp = LFG_ANSWER_PENDING /\ proposalGroups c !! player = Some (pp_group pp)) ->
    (forall player, is_Some (pr_players p !! player) <-> is_Some (roles !! player)) -> is_Some (roles !! pr_leader p) ->
    Playable (sr_queue s) p) ->
  (forall r s', Outcome check s r s' -> Q r s') -> wp (make_proposal check dungeonId c roles) Q s.
Proof.
  intros Hc Hl Hr Hg Hp HQ. unfold make_proposal. rewrite Hl. cbn [Z.eqb negb orb].
  destruct (AllQueued check) eqn:Eq; cbn [negb].
  2: { apply wp_refuse; [done|done|done|]. intros s'. apply HQ. }
  apply wp_bind, wp_leader. intros s' leader Hq _ Hin.
  assert (Hlead : leader ∈ guids roles).
  { apply Hin; [|done|done]. intros E. apply Hr, map_eq. intros p. rewrite lookup_empty. destruct (roles !! p) eqn:Ep; [|done].
    assert (p ∈ guids roles) as Hx by (by apply elem_of_guids). rewrite E in Hx. by apply not_elem_of_nil in Hx. }
  destruct (proposal_players_spec true c roles (guids roles) ∅ Hg) as (players & -> & Hlook & Hdom).
  apply wp_bind, wp_modify, wp_bind. eexists _, _. split; [done|]. apply wp_bind, wp_modify, wp_ret, HQ.
  set (p := mkProposal _ _ _ _ _ _ _ _ _). exists [p].
  assert (Hplay : Playable (sr_queue s) p).
  { apply Hp; [done|done|done| | |by apply elem_of_guids].
    - intros player pp Hpp. destruct (Hlook player pp Hpp) as [|[Hpl Hx]]; [done|]. unfold proposal_player in Hx.
      destruct (proposalGroups c !! player) as [gguid|]; [|done]. cbn in Hx. simplify_eq. cbn.
      apply elem_of_guids in Hpl as [v Hv]. by rewrite (lookup_role _ _ _ Hv).
    - intros player. cbn. rewrite Hdom, elem_of_guids, lookup_empty. split; [intros [[? ?]|?]; done|by right]. }
  destruct (remove_all_spec check (sr_queue s')) as (E1 & E2 & E3 & E4). destruct Hq as [Qe Qq Qc Qcu Qn Qp].
  split; [|split; [|done]]; [split; cbn|split; [|done]].
  - intros guid. destruct (Qe guid) as [<- <-]. unfold entry_dungeons, entry_roles. cbn. by rewrite E1.
  - intros guid Hgu. apply Qq in Hgu. unfold queued in *. cbn. by rewrite E1.
  - by rewrite Qp.
  - constructor; [|done]. by split.
  - by rewrite E3, Qcu, without_one.
  - by rewrite E4, Qn, without_one.
  - intros key. unfold SetCompatibles. rewrite GetCompatibles_insert. case_bool_decide as E.
    + right. exists check. split_and!; [done|done|done| |done]. intros _. exists p. split; [apply list_elem_of_here|done].
    + left. unfold GetCompatibles. by rewrite E2, Qc.
  - intros _. exists p. split; [apply list_elem_of_here|done].
Qed.

(** ** Sound queues

    What the manager ensures of dungeons and of those it lets join: dungeons
    require a few players, an entry fits in eight bits with any of its
    dungeons, a full entry was checked before it joined, and no entry is a
    group that is in a dungeon already. Ignoring goes both ways. *)
Record Sound (q : LFGQueue) : Prop := {
  sd_dungeon : forall id dungeon, GetLFGDungeon id = Some dungeon -> dungeon_ok dungeon /\
    requiredTanks dungeon + requiredHealers dungeon + requiredDamageDealers dungeon < 2 ^ 8;
  sd_ignore : forall p p', HasIgnore p p' = HasIgnore p' p;
  sd_entry : forall guid id dungeon, id ∈ entry_dungeons q guid -> GetLFGDungeon id = Some dungeon ->
    GetMaxGroupSize dungeon + Z.of_nat (size (entry_roles q guid)) < 2 ^ 8;
  sd_roles : forall guid, map_Forall (fun _ v => 0 <= v < 2 ^ 8) (entry_roles q guid);
  sd_alone : forall guid id dungeon, id ∈ entry_dungeons q guid -> GetLFGDungeon id = Some dungeon ->
    Z.of_nat (size (entry_roles q guid)) = GetMaxGroupSize dungeon -> exists a, Fits dungeon (entry_roles q guid) a;
  sd_waiting : forall guid id, id ∈ entry_dungeons q guid -> IsLfgGroup guid = false
}.

Lemma Sound_same q q' : same_entries q q' -> Sound q -> Sound q'.
Proof.
  intros E [D I En R A W]. assert (Ed : forall g, entry_dungeons q' g = entry_dungeons q g) by (intros g; apply E).
  assert (Er : forall g, entry_roles q' g = entry_roles q g) by (intros g; apply E).
  split; try done; intros guid id; rewrite ?Ed, ?Er; [apply En|apply R|apply A|apply W].
Qed.

Lemma max_size dungeon : dungeon_ok dungeon -> requiredTanks dungeon + requiredHealers dungeon + requiredDamageDealers dungeon < 2 ^ 8 ->
  GetMaxGroupSize dungeon = required dungeon PLAYER_ROLE_TANK + required dungeon PLAYER_ROLE_HEALER + required dungeon PLAYER_ROLE_DAMAGE /\
  0 <= GetMaxGroupSize dungeon < 2 ^ 8.
Proof.
  intros Hd Hs. pose proof (Hd PLAYER_ROLE_TANK (or_introl eq_refl)). pose proof (Hd PLAYER_ROLE_HEALER (or_intror (or_introl eq_refl))).
  pose proof (Hd PLAYER_ROLE_DAMAGE (or_intror (or_intror eq_refl))). unfold GetMaxGroupSize. cbn in *. wrap_small. lia.
Qed.

(** A full group has exactly the required numbers. *)
Lemma Fits_full dungeon groles a : Fits dungeon groles a -> roles_ok groles ->
  Z.of_nat (size groles) = required dungeon PLAYER_ROLE_TANK + required dungeon PLAYER_ROLE_HEALER + required dungeon PLAYER_ROLE_DAMAGE ->
  forall role, is_role role -> count_of (guids groles) a role = required dungeon role.
Proof.
  intros [_ Ho Hc] Hok Hs. pose proof (Hc PLAYER_ROLE_TANK (or_introl eq_refl)) as HT.
  pose proof (Hc PLAYER_ROLE_HEALER (or_intror (or_introl eq_refl))) as HH.
  pose proof (Hc PLAYER_ROLE_DAMAGE (or_intror (or_intror eq_refl))) as HD.
  destruct (count_roles (guids groles) a) as [_ Heq]. rewrite guids_size in Heq.
  assert (Hsum : count_of (guids groles) a PLAYER_ROLE_TANK + count_of (guids groles) a PLAYER_ROLE_HEALER +
    count_of (guids groles) a PLAYER_ROLE_DAMAGE = Z.of_nat (size groles)).
  { apply Heq, Forall_forall. intros guid [v Hv]%elem_of_guids. by apply (Ho guid v Hv). }
  intros role [->|[->| ->]]; lia.
Qed.

(** ** The check of a combination *)

(** What is known when the roles of [check] are looked at. *)
Record Combination (q : LFGQueue) (check : list Z) (id : Z) (dungeon : LFGDungeonData) (c : Counts) (m : LfgRolesMap) : Prop := {
  cm_some : check <> [];
  cm_dungeon : GetLFGDungeon id = Some dungeon;
  cm_entries : Forall (fun guid => id ∈ entry_dungeons q guid) check;
  cm_counted : Counted_all q (GetMaxGroupSize dungeon) check (mkCounts 0 0 ∅ 0) c;
  cm_within : numPlayers c <= GetMaxGroupSize dungeon;
  cm_lookup : forall p v, m !! p = Some v <-> exists guid, guid ∈ check /\ entry_roles q guid !! p = Some v;
  cm_size : Z.of_nat (size m) = numPlayers c;
  cm_apart : ForallOrdPairs (fun guid guid' => entry_roles q guid ##ₘ entry_roles q guid') check;
  cm_friendly : (1 < length check)%nat -> friendly m
}.

Lemma Combination_roles_ok q check id dungeon c m : Sound q -> Combination q check id dungeon c m -> roles_ok m.
Proof.
  intros Hs H. split; [rewrite (cm_size _ _ _ _ _ _ H); apply (ca_range _ _ _ _ _ (cm_counted _ _ _ _ _ _ H))|].
  intros p v Hv. apply (cm_lookup _ _ _ _ _ _ H) in Hv as (guid & _ & Hv). by apply (sd_roles _ Hs guid) in Hv.
Qed.

Lemma guids_assign m a : guids (assign m a) = guids m.
Proof.
  unfold guids. f_equal. assert (dom (assign m a) = (dom m : gset Z)) as ->; [|done]. apply set_eq. intros p.
  rewrite !elem_of_dom. unfold assign. rewrite map_lookup_imap. destruct (m !! p); cbn; [done|]. by rewrite !is_Some_alt.
Qed.

Lemma lookup_assign m a p v : assign m a !! p = Some v <-> exists w, m !! p = Some w /\ v = Z.lor (Z.land w PLAYER_ROLE_LEADER) (a p).
Proof. unfold assign. rewrite map_lookup_imap. destruct (m !! p); cbn; naive_solver. Qed.

Lemma Combination_same q q' check id dungeon c m : same_entries q q' ->
  Combination q check id dungeon c m -> Combination q' check id dungeon c m.
Proof.
  intros E [S D En [C1 C2 C3 C4 C5 C6] W L Sz A F].
  assert (Ed : forall g, entry_dungeons q' g = entry_dungeons q g) by (intros g; apply E).
  assert (Er : forall g, entry_roles q' g = entry_roles q g) by (intros g; apply E).
  assert (Et : total_players q' check = total_players q check).
  { unfold total_players. apply sum_list_with_ext, Forall_true. intros g. by rewrite Er. }
  split; try done.
  - eapply Forall_impl; [exact En|]. intros g. by rewrite Ed.
  - split; rewrite ?Et; try done; setoid_rewrite Er; done.
  - setoid_rewrite Er. done.
  - clear - A Er. induction A as [|g l Hg Hl IH]; constructor; [|done]. eapply Forall_impl; [exact Hg|]. cbn. intros g'. by rewrite !Er.
Qed.

(** The proposal of a full combination can be played. *)
Lemma Combination_playable q check id dungeon c m a p : Sound q -> Combination q check id dungeon c m -> Fits dungeon m a ->
  numPlayers c = GetMaxGroupSize dungeon -> pr_queues p = check -> pr_dungeonId p = id -> AllQueued check = true ->
  (forall player pp, pr_players p !! player = Some pp ->
    assign m a !! player = Some (pp_role pp) /\ pp_accept pp = LFG_ANSWER_PENDING /\ proposalGroups c !! player = Some (pp_group pp)) ->
  (forall player, is_Some (pr_players p !! player) <-> is_Some (assign m a !! player)) ->
  is_Some (assign m a !! pr_leader p) -> Playable q p.
Proof.
  intros Hs H Hf Hn Hq Hi Hall Hlook Hdom Hlead. destruct (sd_dungeon _ Hs id dungeon (cm_dungeon _ _ _ _ _ _ H)) as [Hd Hsum].
  destruct (max_size dungeon Hd Hsum) as [Hmax _].
  assert (Hm : forall player, is_Some (pr_players p !! player) <-> is_Some (m !! player)).
  { intros player. rewrite Hdom, <- !elem_of_guids. by rewrite guids_assign. }
  assert (Hkeys : in_order (dom (pr_players p)) = guids m).
  { unfold in_order, guids. f_equal. f_equal. apply set_eq. intros player. by rewrite !elem_of_dom, Hm. }
  split; rewrite ?Hq, ?Hi.
  - apply H.
  - apply Forall_and. split; [apply H|by apply AllQueued_spec].
  - intros player. rewrite Hm. split.
    + intros [v Hv]. apply (cm_lookup _ _ _ _ _ _ H) in Hv as (guid & Hg & Hv). eauto.
    + intros (guid & Hg & v & Hv). exists v. apply (cm_lookup _ _ _ _ _ _ H). eauto.
  - exists dungeon, a. split; [apply H|]. split.
    + intros guid player v pp Hg Hv Hp. assert (Hmv : m !! player = Some v) by (apply (cm_lookup _ _ _ _ _ _ H); eauto).
      destruct (ft_offered _ _ _ Hf player v Hmv) as (_ & Hr & Ho). split; [done|]. split; [done|].
      destruct (Hlook player pp Hp) as (Ha & _). apply lookup_assign in Ha as (w & Hw & ->). by simplify_eq.
    + rewrite Hkeys. apply Fits_full; [done|by eapply Combination_roles_ok|]. by rewrite (cm_size _ _ _ _ _ _ H), Hn.
  - intros player pp Hp. destruct (Hlook player pp Hp) as (_ & Hacc & Hg). split; [done|].
    destruct (ca_origin _ _ _ _ _ (cm_counted _ _ _ _ _ _ H) player _ Hg) as [Hx|(guid & Hgu & Hsome & ->)]; [done|]. eauto.
  - apply H.
  - intros Hlen player player' Hp Hp' Hne. apply (cm_friendly _ _ _ _ _ _ H Hlen); [by apply Hm|by apply Hm|done].
  - by apply Hdom.
Qed.

Lemma wp_finish check id dungeon c m roles s (Q : LfgCompatibility -> Search -> Prop) :
  Sound (sr_queue s) -> Forall (queued s) check -> Combination (sr_queue s) check id dungeon c m ->
  (numPlayers c = GetMaxGroupSize dungeon -> exists a, Fits dungeon m a /\ roles = assign m a) ->
  (forall r s', Outcome check s r s' -> Q r s') ->
  wp (if negb (numPlayers c =? GetMaxGroupSize dungeon) then
        update_best (ConcatenateGuids check) roles check;;
        modify (SetCompatibilityData (ConcatenateGuids check) (mkCompat LFG_COMPATIBLES_WITH_LESS_PLAYERS roles));;
        mret LFG_COMPATIBLES_WITH_LESS_PLAYERS
      else make_proposal check id c roles) Q s.
Proof.
  intros Hs Hq Hc Hfull HQ. destruct (Z.eqb_spec (numPlayers c) (GetMaxGroupSize dungeon)) as [E|E]; cbn [negb].
  - destruct (Hfull E) as (a & Ha & ->). apply wp_make_proposal; [apply Hc|apply (cm_counted _ _ _ _ _ _ Hc)| | | |done].
    + intros Ea. apply (ft_some _ _ _ Ha), map_eq. intros p. rewrite lookup_empty. destruct (m !! p) as [v|] eqn:Ep; [|done].
      assert (Hx : is_Some (assign m a !! p)) by (eexists; apply lookup_assign; eauto). rewrite Ea, lookup_empty in Hx.
      by destruct Hx.
    + rewrite guids_assign. apply Forall_forall. intros p [v Hv]%elem_of_guids.
      apply (ca_known _ _ _ _ _ (cm_counted _ _ _ _ _ _ Hc) (cm_within _ _ _ _ _ _ Hc)). right.
      apply (cm_lookup _ _ _ _ _ _ Hc) in Hv as (guid & Hg & Hv). eauto.
    + intros p Hpq Hpi Hall H1 H2 H3. by eapply (Combination_playable _ check id dungeon c m a).
  - apply wp_bind, wp_update_best; [done|]. intros s' Hs'. apply wp_bind, wp_modify, wp_ret, HQ.
    eapply Outcome_quiet; [exact Hs'|]. exists []. split; [by apply Effect_cache; [apply Hc| |]|].
    split; [|done]. by apply no_match.
Qed.

Lemma total_one q guid : total_players q [guid] = size (entry_roles q guid).
Proof. unfold total_players. cbn. lia. Qed.

(** A single entry was checked when it joined. *)
Lemma Combination_single q guid id dungeon c : GetLFGDungeon id = Some dungeon -> id ∈ entry_dungeons q guid ->
  Counted_all q (GetMaxGroupSize dungeon) [guid] (mkCounts 0 0 ∅ 0) c -> numPlayers c <= GetMaxGroupSize dungeon ->
  Combination q [guid] id dungeon c (entry_roles q guid).
Proof.
  intros Hd Hi Hc Hw. split; try done.
  - by constructor.
  - intros p v. setoid_rewrite list_elem_of_singleton. naive_solver.
  - rewrite (ca_total _ _ _ _ _ Hc Hw), total_one. cbn. lia.
  - by repeat constructor.
  - cbn. lia.
Qed.

Lemma Combination_merged q check id dungeon c : Sound q -> check <> [] -> GetLFGDungeon id = Some dungeon ->
  Forall (fun guid => id ∈ entry_dungeons q guid) check ->
  Counted_all q (GetMaxGroupSize dungeon) check (mkCounts 0 0 ∅ 0) c -> numPlayers c <= GetMaxGroupSize dungeon ->
  nz (u8 (numPlayers c - Z.of_nat (size (merge_all q check ∅)))) = false ->
  Combination q check id dungeon c (merge_all q check ∅).
Proof.
  intros Hs Hn Hd Hi Hc Hw Hz. pose proof (ca_total _ _ _ _ _ Hc Hw) as Ht. pose proof (ca_range _ _ _ _ _ Hc) as Hr.
  cbn in Ht. destruct (merge_all_spec q check (sd_ignore _ Hs) ∅) as [Hle Heq]. rewrite map_size_empty in Hle, Heq.
  rewrite u8_small in Hz by lia. apply nz_false in Hz. destruct (Heq ltac:(lia)) as [L F _ A]. split; try done.
  - intros p v. rewrite L, lookup_empty. naive_solver.
  - lia.
  - intros _. apply F. intros p p' [v Hv]. done.
Qed.

Lemma wp_check_roles check id dungeon c s (Q : LfgCompatibility -> Search -> Prop) :
  Sound (sr_queue s) -> check <> [] -> Forall (queued s) check -> GetLFGDungeon id = Some dungeon ->
  Forall (fun guid => id ∈ entry_dungeons (sr_queue s) guid) check ->
  Counted_all (sr_queue s) (GetMaxGroupSize dungeon) check (mkCounts 0 0 ∅ 0) c -> numPlayers c <= GetMaxGroupSize dungeon ->
  (forall r s', Outcome check s r s' -> Q r s') -> wp (check_roles check id dungeon c) Q s.
Proof.
  intros Hs Hn Hq Hd Hi Hc Hw HQ. destruct (sd_dungeon _ Hs id dungeon Hd) as [Hok _]. unfold check_roles.
  assert (HQ' : forall s', quiet s s' -> forall r s'', Outcome check s' r s'' -> Q r s'').
  { intros s' Hs' r s'' Ho. eapply HQ, Outcome_quiet; [exact Hs'|done]. }
  assert (Hsame : forall s', quiet s s' -> forall m, Combination (sr_queue s) check id dungeon c m ->
    Sound (sr_queue s') /\ Forall (queued s') check /\ Combination (sr_queue s') check id dungeon c m).
  { intros s' Hs' m Hm. pose proof (qt_entries _ _ Hs') as E. split; [by eapply Sound_same|]. split.
    - eapply Forall_impl; [exact Hq|]. intros g. apply Hs'.
    - by eapply Combination_same. }
  destruct (1 <? length check)%nat eqn:El.
  - apply wp_bind, wp_merge. intros s' Hs'. destruct (nz (u8 _)) eqn:Ez.
    + apply wp_refuse; [done|done|done|]. intros s''. by apply HQ'.
    + pose proof (Combination_merged _ _ _ _ _ Hs Hn Hd Hi Hc Hw Ez) as Hm. set (m := merge_all (sr_queue s) check ∅) in *.
      destruct (Hsame s' Hs' m Hm) as (Hs1 & Hq1 & Hm1).
      destruct (Verdict_cases _ _ _ (CheckGroupRoles_decides dungeon m Hok (Combination_roles_ok _ _ _ _ _ _ Hs Hm))) as [(a & Ha & ->)|[_ ->]].
      * eapply wp_finish; [done|done|exact Hm1|by eauto|by apply HQ'].
      * apply wp_refuse; [done|done|done|]. intros s''. by apply HQ'.
  - destruct check as [|guid [|guid' check]]; [done| |done]. change (default 0 (head [guid])) with guid. apply wp_bind, wp_queue_data.
    intros d s' Hs' _ _ Hr. rewrite Hr. inversion_clear Hi as [|? ? Hi1 _].
    pose proof (Combination_single _ _ _ _ _ Hd Hi1 Hc Hw) as Hm. destruct (Hsame s' Hs' _ Hm) as (Hs1 & Hq1 & Hm1).
    destruct (Verdict_cases _ _ _ (CheckGroupRoles_decides dungeon _ Hok (Combination_roles_ok _ _ _ _ _ _ Hs Hm))) as [(a & Ha & ->)|[Hno ->]].
    + eapply wp_finish; [done|done|exact Hm1|by eauto|by apply HQ'].
    + eapply wp_finish; [done|done|exact Hm1| |by apply HQ']. intros E. exfalso. apply Hno.
      eapply (sd_alone _ Hs); [exact Hi1|exact Hd|]. by rewrite (cm_size _ _ _ _ _ _ Hm).
Qed.

Lemma Outcome_nothing check s r : r <> LFG_COMPATIBLES_MATCH -> r <> LFG_COMPATIBLES_BAD_STATES -> Outcome check s r s.
Proof. intros H1 H2. exists []. split; [by apply Effect_quiet|]. split; [by apply no_match|done]. Qed.

Lemma wp_check_combination check s (Q : LfgCompatibility -> Search -> Prop) :
  Sound (sr_queue s) -> check <> [] -> (forall r s', Outcome check s r s' -> Q r s') -> wp (check_combination check) Q s.
Proof.
  intros Hs Hn HQ. unfold check_combination. destruct check as [|guid rest]; [done|].
  change (default 0 (head (guid :: rest))) with guid. cbn [tail]. set (check := guid :: rest) in *.
  apply wp_bind, wp_queue_data. intros d s1 Hq1 Hg Hd _. rewrite Hd.
  apply wp_bind, wp_intersect. intros ds s2 Hq2 Hr Hds. assert (Hq12 : quiet s s2) by by etrans.
  assert (HQ2 : forall s', quiet s2 s' -> forall r s'', Outcome check s' r s'' -> Q r s'').
  { intros s' Hs' r s'' Ho. eapply HQ, Outcome_quiet; [|done]. by etrans. }
  apply wp_bind, wp_pick; [lia| |].
  - intros s3 Hq3. apply wp_refuse; [done|done|done|]. intros s'. by apply HQ2.
  - intros s3 id dungeon Hq3 Hin Hdu. assert (Hq13 : quiet s s3) by by etrans.
    assert (Hs3 : Sound (sr_queue s3)) by (eapply Sound_same; [apply Hq13|done]).
    assert (Hall : Forall (fun g => id ∈ entry_dungeons (sr_queue s3) g) check).
    { apply Hds in Hin as [H1 H2]. constructor; [by destruct (qt_entries _ _ Hq13 guid) as [-> _]|].
      eapply Forall_impl; [exact H2|]. intros g Hg'. destruct (qt_entries _ _ Hq13 g) as [-> _].
      by destruct (qt_entries _ _ Hq1 g) as [<- _]. }
    assert (Hqueued : Forall (queued s3) check).
    { constructor; [apply (qt_queued _ _ Hq3), (qt_queued _ _ Hq2), Hg|]. eapply Forall_impl; [exact Hr|]. intros g. apply Hq3. }
    destruct (GetMaxGroupSize dungeon <? Z.of_nat (length check)).
    { apply wp_ret. eapply HQ2; [exact Hq3|]. by apply Outcome_nothing. }
    apply wp_bind, wp_count; [done| | |done|done|].
    + eapply Forall_impl; [exact Hall|]. intros g. apply (sd_waiting _ Hs3).
    + eapply Forall_impl; [exact Hall|]. intros g Hg'. exact (sd_entry _ Hs3 g id dungeon Hg' Hdu).
    + intros c Hc. rewrite (ca_groups _ _ _ _ _ Hc). cbn [Z.ltb Z.compare].
      destruct (Z.ltb_spec (GetMaxGroupSize dungeon) (numPlayers c)).
      * apply wp_refuse; [done|done|done|]. intros s'. by apply HQ2.
      * apply wp_check_roles; try done. by apply HQ2.
Qed.

(** The check of the rest comes first, and may make a proposal of its own. *)
Lemma wp_CheckCompatibility check : forall s (Q : LfgCompatibility -> Search -> Prop),
  Sound (sr_queue s) -> check <> [] -> (forall r s', Outcome check s r s' -> Q r s') -> wp (CheckCompatibility check) Q s.
Proof.
  induction check as [|guid rest IH]; intros s Q Hs Hn HQ; [done|]. cbn [CheckCompatibility].
  destruct (2 <? length (guid :: rest))%nat eqn:El; [|by apply wp_check_combination].
  apply Nat.ltb_lt in El. apply wp_bind, IH; [done|intros ->; cbn in El; lia|]. intros r s1 (ps & He & Hr).
  pose proof (Effect_suffix _ (guid :: rest) _ _ _ (suffix_cons_r _ _ _ (reflexivity rest)) He) as He'.
  assert (HQ1 : forall r' s', Outcome (guid :: rest) s1 r' s' -> Q r' s').
  { intros r' s' (ps' & He2 & Hm & Hb). apply HQ. exists (ps ++ ps'). split; [by eapply Effect_trans|]. split; [|done].
    rewrite Hm. setoid_rewrite elem_of_app. split; intros (p & Hp & Hq); exists p; [auto|]. destruct Hp as [Hp|]; [|done].
    pose proof (ef_playable _ _ _ _ He) as Hpl. rewrite Forall_forall in Hpl. destruct (Hpl p Hp) as [_ Hsuf].
    rewrite Hq in Hsuf. apply suffix_length in Hsuf. cbn in Hsuf. lia. }
  destruct (not_compatible r) eqn:Ec.
  - apply wp_refuse; [done|by intros ->|by intros ->|]. intros s'. apply HQ1.
  - apply wp_check_combination; [eapply Sound_same; [apply He|done]|done|done].
Qed.

(** ** Keys *)

Lemma guid_str_inj guid guid' : 0 <= guid -> 0 <= guid' -> guid_str guid = guid_str guid' -> guid = guid'.
Proof. intros H1 H2 E. apply (inj (R:=eq) (S:=eq) (pretty (A:=N)) (Z.to_N guid) (Z.to_N guid')) in E. lia. Qed.

Lemma join_guids_cons guid l : l <> [] -> join_guids (guid :: l) = (guid_str guid ++ String "|" (join_guids l))%string.
Proof. by destruct l. Qed.

Lemma guid_str_avoids guid : avoids "|" (guid_str guid) = true.
Proof. by apply pretty_avoids. Qed.

Lemma avoids_app c a b : avoids c (a ++ b) = avoids c a && avoids c b.
Proof.
  induction a as [|x a IH]; [done|]. change (negb (Ascii.eqb x c) && avoids c (a ++ b) = negb (Ascii.eqb x c) && avoids c a && avoids c b).
  by rewrite IH, andb_assoc.
Qed.

Lemma join_guids_inj l : forall l', Forall (Z.le 0) l -> Forall (Z.le 0) l' -> l <> [] -> l' <> [] ->
  join_guids l = join_guids l' -> l = l'.
Proof.
  assert (Hsep : forall guid s t, guid_str guid <> (s ++ String "|" t)%string).
  { intros guid s t E. pose proof (guid_str_avoids guid) as Ha. rewrite E, avoids_app in Ha. cbn in Ha. by rewrite andb_false_r in Ha. }
  induction l as [|guid l IH]; intros [|guid' l'] Hl Hl' Hn Hn' E; try done.
  inversion_clear Hl as [|? ? Hg Hl1]. inversion_clear Hl' as [|? ? Hg' Hl1'].
  destruct (decide (l = [])) as [->|Hne], (decide (l' = [])) as [->|Hne'].
  - cbn in E. by rewrite (guid_str_inj guid guid' Hg Hg' E).
  - rewrite (join_guids_cons guid') in E by done. by apply Hsep in E.
  - rewrite (join_guids_cons guid) in E by done. symmetry in E. by apply Hsep in E.
  - rewrite !join_guids_cons in E by done. apply sep_split in E as [E1 E2]; [|apply guid_str_avoids..].
    rewrite (guid_str_inj guid guid' Hg Hg' E1). f_equal. by apply IH.
Qed.

(** A key stands for a set of guids. *)
Lemma key_inj l l' : Forall (Z.le 0) l -> Forall (Z.le 0) l' -> l <> [] -> l' <> [] ->
  ConcatenateGuids l = ConcatenateGuids l' -> forall guid, guid ∈ l <-> guid ∈ l'.
Proof.
  assert (Hin : forall l guid, guid ∈ in_order (list_to_set l) <-> guid ∈ l).
  { intros l0 guid. by rewrite elem_of_in_order, elem_of_list_to_set. }
  assert (Hpos : forall l, Forall (Z.le 0) l -> Forall (Z.le 0) (in_order (list_to_set l))).
  { intros l0 H0. rewrite Forall_forall in *. intros guid Hg. by apply H0, Hin. }
  assert (Hsome : forall l, l <> [] -> in_order (list_to_set l) <> []).
  { intros [|g l0] Hn E; [done|]. assert (Hg : g ∈ in_order (list_to_set (g :: l0))) by (apply Hin, list_elem_of_here).
    rewrite E in Hg. by apply not_elem_of_nil in Hg. }
  intros Hl Hl' Hn Hn' E guid. rewrite <- (Hin l), <- (Hin l').
  by rewrite (join_guids_inj _ _ (Hpos _ Hl) (Hpos _ Hl') (Hsome _ Hn) (Hsome _ Hn') E).
Qed.

(** ** The search *)

Definition proposed (s : Search) (guid : Z) : Prop := exists p, p ∈ sr_proposals s /\ guid ∈ pr_queues p.

(** What any part of the search does. *)
Record Run (s s' : Search) (ps : list LfgProposal) : Prop := {
  rn_entries : same_entries (sr_queue s) (sr_queue s');
  rn_proposals : sr_proposals s' = sr_proposals s ++ ps;
  rn_playable : Forall (Playable (sr_queue s)) ps;
  rn_current : currentQueueStore (sr_queue s') = without ps (currentQueueStore (sr_queue s));
  rn_new : newToQueueStore (sr_queue s') = without ps (newToQueueStore (sr_queue s))
}.

Lemma Run_trans s s' s'' ps ps' : Run s s' ps -> Run s' s'' ps' -> Run s s'' (ps ++ ps').
Proof.
  intros [E P Pl C N] [E' P' Pl' C' N']. split.
  - by eapply same_entries_trans.
  - by rewrite P', P, app_assoc.
  - apply Forall_app. split; [done|]. eapply Forall_impl; [exact Pl'|]. intros p. by apply Playable_same.
  - by rewrite C', C, without_app.
  - by rewrite N', N, without_app.
Qed.

Lemma Run_refl s : Run s s [].
Proof. split; rewrite ?without_nil, ?app_nil_r; done. Qed.

Lemma Effect_run check s s' ps : Effect check s s' ps -> Run s s' ps.
Proof. intros [E Q P Pl C N Ca]. split; try done. eapply Forall_impl; [exact Pl|]. by intros p [? _]. Qed.

Lemma proposed_mono s s' ps guid : Run s s' ps -> proposed s guid -> proposed s' guid.
Proof. intros H (p & Hp & Hg). exists p. split; [|done]. rewrite (rn_proposals _ _ _ H), elem_of_app. by left. Qed.

(** The cache as it is when all of [waiting] are queued: a match stands for a
    proposal that was made. *)
Definition cache_ok (waiting : list Z) (s : Search) : Prop :=
  forall l, l <> [] -> (forall guid, guid ∈ l -> guid ∈ waiting) ->
    GetCompatibles (ConcatenateGuids l) (sr_queue s) <> LFG_COMPATIBLES_BAD_STATES /\
    (GetCompatibles (ConcatenateGuids l) (sr_queue s) = LFG_COMPATIBLES_MATCH -> forall guid, guid ∈ l -> proposed s guid).

Definition all_queued (waiting : list Z) : Prop := Forall (fun guid => 0 <= guid /\ GetState guid = LFG_STATE_QUEUED) waiting.

Lemma AllQueued_all l : l <> [] -> Forall (fun guid => GetState guid = LFG_STATE_QUEUED) l -> AllQueued l = true.
Proof.
  intros Hn Hl. unfold AllQueued. destruct l as [|g l]; [done|]. apply forallb_forall. intros x Hx.
  rewrite Forall_forall in Hl. apply bool_decide_eq_true, Hl. by apply list_elem_of_In.
Qed.

Lemma waiting_facts waiting l : all_queued waiting -> (forall guid, guid ∈ l -> guid ∈ waiting) ->
  Forall (Z.le 0) l /\ Forall (fun guid => GetState guid = LFG_STATE_QUEUED) l.
Proof. unfold all_queued. rewrite !Forall_forall. intros Hw Hl. split; intros guid Hg; by apply Hw, Hl. Qed.

Lemma Effect_cache_ok waiting check s s' ps : all_queued waiting -> (forall guid, guid ∈ check -> guid ∈ waiting) ->
  Effect check s s' ps -> cache_ok waiting s -> cache_ok waiting s'.
Proof.
  intros Hw Hc He Hok l Hn Hl. destruct (Hok l Hn Hl) as [H1 H2].
  destruct (ef_cache _ _ _ _ He (ConcatenateGuids l)) as [->|(l' & Hl' & Hn' & Hk & Hm & Hb)].
  - split; [done|]. intros E guid Hg. eapply proposed_mono; [by eapply Effect_run|]. by apply H2.
  - assert (Hl'w : forall guid, guid ∈ l' -> guid ∈ waiting).
    { intros guid Hg. apply Hc. destruct Hl' as [k ->]. apply elem_of_app. by right. }
    destruct (waiting_facts _ _ Hw Hl) as [Hp _], (waiting_facts _ _ Hw Hl'w) as [Hp' Hq']. split.
    + intros E. apply Hb in E. by rewrite AllQueued_all in E.
    + intros E guid Hg. destruct (Hm E) as (p & Hpp & Hq). exists p. split.
      * rewrite (ef_proposals _ _ _ _ He), elem_of_app. by right.
      * rewrite Hq. by apply (key_inj l l' Hp Hp' Hn Hn' Hk).
Qed.

(** ** The search loops *)

Record SearchPost (check all : list Z) (s : Search) (r : LfgCompatibility) (rest : list Z) (s' : Search) (ps : list LfgProposal) : Prop := {
  sp_run : Run s s' ps;
  sp_rest : rest `suffix_of` all;
  sp_within : Forall (fun p => forall guid, guid ∈ pr_queues p -> guid ∈ check ++ all) ps;
  sp_front : forall front, head check = Some front -> NoDup (check ++ all) ->
    (exists p, p ∈ ps /\ front ∈ pr_queues p) -> r = LFG_COMPATIBLES_MATCH;
  sp_cache : forall waiting, all_queued waiting -> (forall guid, guid ∈ check ++ all -> guid ∈ waiting) -> cache_ok waiting s ->
    cache_ok waiting s' /\ (r = LFG_COMPATIBLES_MATCH -> forall guid, guid ∈ check -> proposed s' guid)
}.

Lemma SearchPost_check check all s r s' ps : check <> [] -> Effect check s s' ps ->
  (r = LFG_COMPATIBLES_MATCH <-> exists p, p ∈ ps /\ pr_queues p = check) -> SearchPost check all s r all s' ps.
Proof.
  intros Hn He Hm. pose proof (ef_playable _ _ _ _ He) as Hpl. rewrite Forall_forall in Hpl. split.
  - by eapply Effect_run.
  - done.
  - apply Forall_forall. intros p Hp guid Hg. destruct (Hpl p Hp) as [_ [k ->]]. rewrite !elem_of_app. auto.
  - intros front Hf Hnd (p & Hp & Hg). apply Hm. exists p. split; [done|]. destruct (Hpl p Hp) as [_ [k Hk]].
    destruct k as [|g k]; [done|]. exfalso. rewrite Hk in Hf, Hnd. cbn in Hf. simplify_eq. cbn in Hnd.
    apply NoDup_cons in Hnd as [Hx _]. apply Hx. rewrite !elem_of_app. auto.
  - intros waiting Hw Hc Hok. split.
    + eapply Effect_cache_ok; [done| |done|done]. intros guid Hg. apply Hc, elem_of_app. by left.
    + intros E guid Hg. apply Hm in E as (p & Hp & Hq). exists p. rewrite (ef_proposals _ _ _ _ He), elem_of_app, Hq. auto.
Qed.

(** One more queued guid was tried, and then the rest. *)
Lemma SearchPost_next check guid all s r1 all1 s1 ps1 r rest s2 ps2 :
  SearchPost (check ++ [guid]) all s r1 all1 s1 ps1 -> r1 <> LFG_COMPATIBLES_MATCH -> check <> [] ->
  SearchPost check all1 s1 r rest s2 ps2 -> SearchPost check (guid :: all) s r rest s2 (ps1 ++ ps2).
Proof.
  intros [R1 S1 W1 F1 C1] Hr1 Hn [R2 S2 W2 F2 C2]. rewrite <- app_assoc in W1, F1, C1. cbn [app] in W1, F1, C1.
  assert (Hsub : forall g, g ∈ check ++ all1 -> g ∈ check ++ guid :: all).
  { intros g. rewrite !elem_of_app, elem_of_cons. destruct S1 as [k ->]. rewrite elem_of_app. tauto. }
  split.
  - by eapply Run_trans.
  - etrans; [exact S2|]. etrans; [exact S1|]. by apply suffix_cons_r.
  - apply Forall_app. split; [done|]. eapply Forall_impl; [exact W2|]. intros p Hp g Hg. apply Hsub, Hp, Hg.
  - intros front Hf Hnd (p & Hp & Hg). apply elem_of_app in Hp as [Hp|Hp].
    + exfalso. apply Hr1, (F1 front); [|done|by exists p]. destruct check; [done|]. exact Hf.
    + apply (F2 front Hf); [|by exists p]. eapply sublist_NoDup; [exact Hnd|]. apply sublist_app; [done|].
      destruct S1 as [k ->]. by apply sublist_cons, sublist_inserts_l.
  - intros waiting Hw Hc Hok. destruct (C1 waiting Hw Hc Hok) as [Hok1 _]. apply C2; [done|auto|done].
Qed.

Lemma SearchPost_none check s c : c <> LFG_COMPATIBLES_MATCH -> SearchPost check [] s c [] s [].
Proof.
  intros Hc. split; [apply Run_refl|done|done| |].
  - intros front _ _ (p & Hp & _). by apply not_elem_of_nil in Hp.
  - done.
Qed.

(** A result that was cached. *)
Lemma SearchPost_cached check all s c : check <> [] -> GetCompatibles (ConcatenateGuids check) (sr_queue s) = c ->
  SearchPost check all s c all s [].
Proof.
  intros Hn Hc. split; [apply Run_refl|done|done| |].
  - intros front _ _ (p & Hp & _). by apply not_elem_of_nil in Hp.
  - intros waiting Hw Hsub Hok. split; [done|]. intros E. apply Hok; [done| |congruence].
    intros guid Hg. apply Hsub, elem_of_app. by left.
Qed.

(** A combination that was in bad states is called a match. *)
Lemma SearchPost_bad check all s c s1 ps : SearchPost check all s c all s1 ps ->
  (forall waiting, all_queued waiting -> (forall guid, guid ∈ check -> guid ∈ waiting) -> cache_ok waiting s -> False) ->
  SearchPost check all s LFG_COMPATIBLES_MATCH all
    (mkSearch (SetCompatibles (ConcatenateGuids check) LFG_COMPATIBLES_MATCH (sr_queue s1)) (sr_proposals s1) (sr_random s1)) ps.
Proof.
  intros [[E P Pl C N] S1 W F Ca] Hb. split; [by split|done|done|done|].
  intros waiting Hw Hsub Hok. exfalso. apply (Hb waiting Hw); [|done]. intros guid Hg. apply Hsub, elem_of_app. by left.
Qed.

(** The loop goes on after the check of [check] itself. *)
Lemma SearchPost_again check all s c s1 ps1 r rest s2 ps2 : SearchPost check all s c all s1 ps1 ->
  c <> LFG_COMPATIBLES_MATCH -> SearchPost check all s1 r rest s2 ps2 -> SearchPost check all s r rest s2 (ps1 ++ ps2).
Proof.
  intros [R1 S1 W1 F1 C1] Hc [R2 S2 W2 F2 C2]. split.
  - by eapply Run_trans.
  - done.
  - by apply Forall_app.
  - intros front Hf Hnd (p & Hp & Hg). apply elem_of_app in Hp as [Hp|Hp]; [|by apply (F2 front); [..|by exists p]].
    exfalso. apply Hc, (F1 front); [done|done|by exists p].
  - intros waiting Hw Hsub Hok. destruct (C1 waiting Hw Hsub Hok) as [Hok1 _]. by apply C2.
Qed.

Lemma SearchPost_match check guid all s all1 s1 ps : check <> [] ->
  SearchPost (check ++ [guid]) all s LFG_COMPATIBLES_MATCH all1 s1 ps ->
  SearchPost check (guid :: all) s LFG_COMPATIBLES_MATCH all1 s1 ps.
Proof.
  intros Hn [R S1 W F C]. rewrite <- app_assoc in W, F, C. split; [done|by apply suffix_cons_r|done|done|].
  intros waiting Hw Hsub Hok. destruct (C waiting Hw Hsub Hok) as [Hok1 Hm]. split; [done|].
  intros _ g Hg. apply Hm; [done|]. apply elem_of_app. by left.
Qed.

Lemma wp_search fuel : forall check, check <> [] ->
  (forall all s (Q : LfgCompatibility * list Z -> Search -> Prop), (2 * length all + 2 <= fuel)%nat -> Sound (sr_queue s) ->
    (forall r rest s' ps, SearchPost check all s r rest s' ps -> Q (r, rest) s') -> wp (FindNewGroups fuel check all) Q s) /\
  (forall all s c (Q : LfgCompatibility * list Z -> Search -> Prop), (2 * length all + 1 <= fuel)%nat -> Sound (sr_queue s) ->
    c <> LFG_COMPATIBLES_MATCH ->
    (forall r rest s' ps, SearchPost check all s r rest s' ps -> Q (r, rest) s') -> wp (match_queued fuel c check all) Q s).
Proof.
  induction fuel as [|fuel IH]; intros check Hn; (split; [intros all s Q Hf Hs HQ|intros all s c Q Hf Hs Hcm HQ]); try lia; cbn.
  - apply wp_bind, wp_reads.
    assert (Hend : forall c s1 ps, SearchPost check all s c all s1 ps -> Sound (sr_queue s1) ->
      (c = LFG_COMPATIBLES_BAD_STATES -> forall waiting, all_queued waiting -> (forall guid, guid ∈ check -> guid ∈ waiting) ->
        cache_ok waiting s -> False) ->
      wp (if bool_decide (c = LFG_COMPATIBLES_BAD_STATES) && AllQueued check
          then modify (SetCompatibles (ConcatenateGuids check) LFG_COMPATIBLES_MATCH);; mret (LFG_COMPATIBLES_MATCH, all)
          else if bool_decide (c <> LFG_COMPATIBLES_WITH_LESS_PLAYERS) then mret (c, all)
          else match_queued fuel c check all) Q s1).
    { intros c s1 ps Hp Hs1 Hb. destruct (bool_decide (c = LFG_COMPATIBLES_BAD_STATES) && AllQueued check) eqn:Eb.
      - apply andb_true_iff in Eb as [Eb%bool_decide_eq_true _]. apply wp_bind, wp_modify, wp_ret, (HQ _ _ _ ps).
        exact (SearchPost_bad _ _ _ _ _ _ Hp (Hb Eb)).
      - clear Eb. case_bool_decide as El; [by apply wp_ret, (HQ _ _ _ ps)|]. subst c.
        destruct (IH check Hn) as [_ IH2]. apply IH2; [lia|done|done|]. intros r rest s2 ps2 Hp2.
        apply (HQ _ _ _ (ps ++ ps2)). by eapply SearchPost_again. }
    apply wp_bind. case_bool_decide as Ec.
    + apply wp_CheckCompatibility; [done|done|]. intros r s1 (ps & He & Hm & Hb). apply (Hend r s1 ps).
      * by apply SearchPost_check.
      * eapply Sound_same; [apply He|done].
      * intros E waiting Hw Hc _. apply Hb in E. destruct (waiting_facts waiting check Hw Hc) as [_ Hq].
        by rewrite AllQueued_all in E.
    + apply wp_ret, (Hend _ s []); [by apply SearchPost_cached|done|].
      intros E waiting Hw Hc Hok. by destruct (Hok check Hn Hc).
  - destruct all as [|guid all]; [apply wp_ret, (HQ _ _ _ []); by apply SearchPost_none|]. cbn [length] in Hf.
    destruct (IH (check ++ [guid])) as [IH1 _]; [by destruct check|]. apply wp_bind, IH1; [lia|done|].
    intros r1 all1 s1 ps1 Hp1. case_bool_decide as Er.
    + subst r1. apply wp_ret, (HQ _ _ _ ps1). by apply SearchPost_match.
    + destruct (IH check Hn) as [_ IH2]. apply IH2; [|eapply Sound_same; [apply Hp1|done]|done|].
      * pose proof (suffix_length _ _ (sp_rest _ _ _ _ _ _ _ Hp1)). lia.
      * intros r rest s2 ps2 Hp2. apply (HQ _ _ _ (ps1 ++ ps2)). by eapply SearchPost_next.
Qed.

(** ** Nobody is lost *)

Lemma elem_of_without ps l guid : guid ∈ without ps l <-> guid ∈ l /\ ~ exists p, p ∈ ps /\ guid ∈ pr_queues p.
Proof.
  unfold without. rewrite list_elem_of_In, filter_In, <- list_elem_of_In, negb_true_iff, <- not_true_iff_false, existsb_elem.
  setoid_rewrite bool_decide_eq_true. done.
Qed.

Lemma filter_sublist {A} (f : A -> bool) l : List.filter f l `sublist_of` l.
Proof. induction l as [|x l IH]; cbn; [done|]. destruct (f x); by constructor. Qed.

(** Each of [waiting] waits in one list, or is in a proposal. *)
Record Waiting (waiting : list Z) (s : Search) : Prop := {
  wt_nodup : NoDup (newToQueueStore (sr_queue s) ++ currentQueueStore (sr_queue s));
  wt_only : forall guid, guid ∈ newToQueueStore (sr_queue s) ++ currentQueueStore (sr_queue s) ->
    guid ∈ waiting /\ ~ proposed s guid;
  wt_all : forall guid, guid ∈ waiting ->
    guid ∈ newToQueueStore (sr_queue s) ++ currentQueueStore (sr_queue s) \/ proposed s guid;
  wt_cache : cache_ok waiting s
}.

Definition taken (s : Search) (front : Z) : Search :=
  mkSearch (RemoveFromNewQueue front (sr_queue s)) (sr_proposals s) (sr_random s).
Definition put_back (s : Search) (front : Z) : Search :=
  mkSearch (AddToCurrentQueue front (sr_queue s)) (sr_proposals s) (sr_random s).

Section Step.
Context (waiting : list Z) (s s2 : Search) (front : Z) (fresh rest : list Z) (r : LfgCompatibility) (ps : list LfgProposal).
Hypothesis Hw : Waiting waiting s.
Hypothesis Hqueued : all_queued waiting.
Hypothesis Hnew : newToQueueStore (sr_queue s) = front :: fresh.
Hypothesis Hpost : SearchPost [front] (currentQueueStore (sr_queue s)) (taken s front) r rest s2 ps.

Lemma step_lists : front ∉ fresh ++ currentQueueStore (sr_queue s) /\ NoDup (fresh ++ currentQueueStore (sr_queue s)) /\
  newToQueueStore (sr_queue s2) = without ps fresh /\
  currentQueueStore (sr_queue s2) = without ps (currentQueueStore (sr_queue s)).
Proof.
  pose proof (wt_nodup _ _ Hw) as Hnd. rewrite Hnew in Hnd. cbn in Hnd. apply NoDup_cons in Hnd as [Hf Hnd].
  split; [done|]. split; [done|]. rewrite (rn_new _ _ _ (sp_run _ _ _ _ _ _ _ Hpost)), (rn_current _ _ _ (sp_run _ _ _ _ _ _ _ Hpost)).
  cbn. split; [|done]. f_equal. unfold remove_guid. rewrite Hnew. cbn. rewrite Z.eqb_refl. cbn. apply filter_id, Forall_forall.
  intros guid Hg. apply negb_true_iff, Z.eqb_neq. intros ->. apply Hf, elem_of_app. by left.
Qed.

Lemma step_proposed guid : proposed s2 guid <-> proposed s guid \/ exists p, p ∈ ps /\ guid ∈ pr_queues p.
Proof.
  unfold proposed. rewrite (rn_proposals _ _ _ (sp_run _ _ _ _ _ _ _ Hpost)). cbn. setoid_rewrite elem_of_app. naive_solver.
Qed.

Lemma step_cache : cache_ok waiting s2 /\ (r = LFG_COMPATIBLES_MATCH -> proposed s2 front).
Proof.
  destruct (sp_cache _ _ _ _ _ _ _ Hpost waiting Hqueued) as [H1 H2].
  - intros guid Hg. apply (wt_only _ _ Hw). rewrite Hnew, !elem_of_app, elem_of_cons. cbn in Hg.
    apply elem_of_cons in Hg as [->|Hg]; auto.
  - intros l Hn Hl. destruct (wt_cache _ _ Hw l Hn Hl) as [H1 H2]. by split.
  - split; [done|]. intros E. apply H2; [done|apply list_elem_of_here].
Qed.

Lemma step_only guid : guid ∈ newToQueueStore (sr_queue s2) ++ currentQueueStore (sr_queue s2) ->
  guid ∈ waiting /\ ~ proposed s2 guid.
Proof.
  destruct step_lists as (_ & _ & -> & ->). rewrite elem_of_app, !elem_of_without, step_proposed. intros Hg.
  destruct (wt_only _ _ Hw guid) as [H1 H2]; [rewrite Hnew, !elem_of_app, elem_of_cons; tauto|]. split; [done|]. tauto.
Qed.

Lemma step_all guid : guid ∈ waiting ->
  guid ∈ newToQueueStore (sr_queue s2) ++ currentQueueStore (sr_queue s2) \/ guid = front \/ proposed s2 guid.
Proof.
  destruct step_lists as (_ & _ & -> & ->). rewrite elem_of_app, !elem_of_without, step_proposed. intros Hg.
  destruct (wt_all _ _ Hw guid Hg) as [H1|H1]; [|auto]. rewrite Hnew, elem_of_app, elem_of_cons in H1.
  destruct (existsb (fun p => bool_decide (guid ∈ pr_queues p)) ps) eqn:E.
  - apply existsb_elem in E as (p & Hp & Hx). apply bool_decide_eq_true in Hx. right; right; right; eauto.
  - assert (~ exists p, p ∈ ps /\ guid ∈ pr_queues p); [|tauto]. intros (p & Hp & Hx). apply not_true_iff_false in E.
    apply E, existsb_elem. exists p. by rewrite bool_decide_eq_true.
Qed.

Lemma step_nodup : NoDup (newToQueueStore (sr_queue s2) ++ currentQueueStore (sr_queue s2)) /\
  front ∉ newToQueueStore (sr_queue s2) ++ currentQueueStore (sr_queue s2).
Proof.
  destruct step_lists as (Hf & Hnd & -> & ->). split.
  - eapply sublist_NoDup; [exact Hnd|]. apply sublist_app; apply filter_sublist.
  - intros Hx. apply Hf. revert Hx. rewrite !elem_of_app, !elem_of_without. tauto.
Qed.

Lemma Waiting_match : r = LFG_COMPATIBLES_MATCH -> Waiting waiting s2.
Proof.
  intros E. destruct step_cache as [Hc Hm]. split; [apply step_nodup|apply step_only| |done].
  intros guid Hg. destruct (step_all guid Hg) as [?|[->|?]]; auto.
Qed.

Lemma Waiting_put_back : r <> LFG_COMPATIBLES_MATCH -> Waiting waiting (put_back s2 front).
Proof.
  intros Hr. destruct step_cache as [Hc _], step_nodup as [Hnd Hf], step_lists as (Hf0 & Hnd0 & _).
  assert (Hp : ~ proposed s2 front).
  { rewrite step_proposed. intros [Hx|Hx].
    - apply (wt_only _ _ Hw front); [|done]. rewrite Hnew. apply list_elem_of_here.
    - apply Hr, (sp_front _ _ _ _ _ _ _ Hpost front); [done| |done]. cbn. apply NoDup_cons.
      apply not_elem_of_app in Hf0 as [_ ?]. split; [done|]. by apply NoDup_app in Hnd0 as (_ & _ & ?). }
  split; cbn.
  - rewrite app_assoc. apply NoDup_app. split; [done|]. split; [|apply NoDup_singleton].
    intros guid Hg ->%list_elem_of_singleton. done.
  - intros guid. rewrite app_assoc, elem_of_app, list_elem_of_singleton. intros [Hg| ->]; [by apply step_only|].
    split; [|done]. apply (wt_only _ _ Hw front). rewrite Hnew. apply list_elem_of_here.
  - intros guid Hg. rewrite app_assoc, elem_of_app, list_elem_of_singleton. destruct (step_all guid Hg) as [?|[->|?]]; auto.
  - exact Hc.
Qed.
End Step.

Lemma wp_FindGroups_loop fuel : forall n s (Q : Z -> Search -> Prop),
  (length (newToQueueStore (sr_queue s)) < fuel)%nat -> Sound (sr_queue s) ->
  (forall n' s', newToQueueStore (sr_queue s') = [] ->
    (exists ps, sr_proposals s' = sr_proposals s ++ ps /\ Forall (Playable (sr_queue s)) ps) ->
    (forall waiting, all_queued waiting -> Waiting waiting s -> Waiting waiting s') -> Q n' s') ->
  wp (FindGroups_loop fuel n) Q s.
Proof.
  induction fuel as [|fuel IH]; intros n s Q Hf Hs HQ; [lia|]. cbn [FindGroups_loop]. apply wp_bind, wp_reads.
  destruct (newToQueueStore (sr_queue s)) as [|front fresh] eqn:En.
  { apply wp_ret, HQ; [done| |done]. exists []. by rewrite app_nil_r. }
  apply wp_bind, wp_modify. fold (taken s front). apply wp_bind, wp_reads.
  change (currentQueueStore (sr_queue (taken s front))) with (currentQueueStore (sr_queue s)).
  destruct (wp_search (search_fuel (currentQueueStore (sr_queue s))) [front]) as [Hsearch _]; [done|].
  assert (Ht : same_entries (sr_queue s) (sr_queue (taken s front))) by done.
  apply wp_bind, Hsearch; [unfold search_fuel; lia|by eapply Sound_same|]. intros r rest s2 ps Hpost.
  pose proof (sp_run _ _ _ _ _ _ _ Hpost) as Hrun. pose proof (same_entries_trans _ _ _ Ht (rn_entries _ _ _ Hrun)) as He.
  assert (Hs2 : Sound (sr_queue s2)) by (eapply Sound_same; [exact He|exact Hs]).
  assert (Hlen : (length (newToQueueStore (sr_queue s2)) < fuel)%nat).
  { rewrite (rn_new _ _ _ Hrun). cbn. rewrite En. unfold remove_guid. cbn. rewrite Z.eqb_refl. cbn.
    pose proof (filter_le (fun g => negb (g =? front)) fresh).
    pose proof (filter_le (fun guid => negb (existsb (fun p => bool_decide (guid ∈ pr_queues p)) ps)) (List.filter (fun g => negb (g =? front)) fresh)).
    unfold without. cbn in Hf. lia. }
  assert (Hend : forall s3, sr_proposals s3 = sr_proposals s2 -> same_entries (sr_queue s2) (sr_queue s3) ->
    (exists ps', sr_proposals s3 = sr_proposals s ++ ps' /\ Forall (Playable (sr_queue s)) ps') /\
    forall ps', Forall (Playable (sr_queue s3)) ps' -> Forall (Playable (sr_queue s)) ps').
  { intros s3 E3 He3. split; [exists ps; rewrite E3; split; [apply Hrun|]; eapply Forall_impl; [apply Hrun|]; intros p; by apply Playable_same|].
    intros ps' Hps. eapply Forall_impl; [exact Hps|]. intros p. apply Playable_same. eapply same_entries_trans; [exact He|done]. }
  case_bool_decide as Er.
  - apply IH; [done|done|]. intros n' s' H1 (ps' & Hp & Hpl) H3. destruct (Hend s2 eq_refl (fun _ => conj eq_refl eq_refl)) as [(ps0 & E0 & Hps0) Hback].
    apply HQ; [done| |].
    + exists (ps0 ++ ps'). rewrite Hp, E0, app_assoc. split; [done|]. apply Forall_app. split; [done|by apply Hback].
    + intros waiting Hq Hw. apply H3; [done|]. by eapply Waiting_match.
  - apply wp_bind, wp_modify. fold (put_back s2 front). apply IH; [done|eapply Sound_same; [|exact Hs2]; done|].
    intros n' s' H1 (ps' & Hp & Hpl) H3.
    destruct (Hend (put_back s2 front) eq_refl (fun _ => conj eq_refl eq_refl)) as [(ps0 & E0 & Hps0) Hback]. apply HQ; [done| |].
    + exists (ps0 ++ ps'). rewrite Hp, E0, app_assoc. split; [done|]. apply Forall_app. split; [done|by apply Hback].
    + intros waiting Hq Hw. apply H3; [done|]. by eapply Waiting_put_back.
Qed.

(** ** The theorems *)

(** C16. The search of a sound queue always answers, and every proposal it makes
    can be played. *)
Theorem FindGroups_proposals random q : Sound q ->
  exists n s, FindGroups random q = Some (n, s) /\ Forall (Playable q) (sr_proposals s).
Proof.
  intros Hs. apply (wp_FindGroups_loop (S (length (newToQueueStore q))) 0 (mkSearch q [] random)
    (fun _ s => Forall (Playable q) (sr_proposals s))); [cbn; lia|exact Hs|].
  intros n s _ (ps & E & Hps) _. by rewrite E.
Qed.

(** A cache from which nobody who waits is said to be matched. *)
Definition cache_fresh (q : LFGQueue) : Prop :=
  forall l, l <> [] -> (forall guid, guid ∈ l -> guid ∈ newToQueueStore q ++ currentQueueStore q) ->
    GetCompatibles (ConcatenateGuids l) q <> LFG_COMPATIBLES_BAD_STATES /\
    GetCompatibles (ConcatenateGuids l) q <> LFG_COMPATIBLES_MATCH.

(** C15. When all who wait are in the queued state and the cache says of no
    combination of them that it is matched or that somebody in it is not queued
    ([cache_fresh]), the search leaves each of them either in the queue or in a
    proposal, never both and never neither, and the cache as fresh as it was for
    those who still wait. With a stale cache a player can be lost
    ([bad_states_lose_players]). *)
Theorem FindGroups_loses_nobody random q : Sound q ->
  let waiting := newToQueueStore q ++ currentQueueStore q in
  NoDup waiting -> all_queued waiting -> cache_fresh q ->
  exists n s, FindGroups random q = Some (n, s) /\ newToQueueStore (sr_queue s) = [] /\
    NoDup (currentQueueStore (sr_queue s)) /\
    (forall guid, guid ∈ waiting <-> guid ∈ currentQueueStore (sr_queue s) \/ guid ∈ waiting /\ proposed s guid) /\
    (forall guid, guid ∈ currentQueueStore (sr_queue s) -> ~ proposed s guid) /\ cache_fresh (sr_queue s).
Proof.
  intros Hs waiting Hnd Hq Hc.
  assert (Hw : Waiting waiting (mkSearch q [] random)).
  { split; [done| |by left|].
    - intros guid Hg. split; [done|]. intros (p & Hp & _). by apply not_elem_of_nil in Hp.
    - intros l Hn Hl. destruct (Hc l Hn Hl) as [H1 H2]. by split. }
  destruct (wp_FindGroups_loop (S (length (newToQueueStore q))) 0 (mkSearch q [] random)
    (fun _ s => newToQueueStore (sr_queue s) = [] /\ Waiting waiting s)) as (n & s & E & Hnew & [Wn Wo Wa Wc]);
    [cbn; lia|exact Hs|by auto|].
  rewrite Hnew in Wn, Wo, Wa. cbn in Wn, Wo, Wa. exists n, s. split; [done|]. split; [done|]. split; [done|]. split; [|split].
  - intros guid. split; [|by intros [Hg|[Hg _]]; [apply Wo|]]. intros Hg. destruct (Wa guid Hg); auto.
  - intros guid Hg. by apply Wo.
  - intros l Hn Hl. rewrite Hnew in Hl. cbn in Hl. destruct (Wc l Hn) as [H1 H2]; [intros guid Hg; by apply Wo, Hl|].
    split; [done|]. intros Em. destruct l as [|guid l]; [done|]. apply (Wo guid); [apply Hl, list_elem_of_here|].
    apply (H2 Em). apply list_elem_of_here.
Qed.

End Spec.

(** ** A small queue *)

Definition sample_manager : LfgManager := {|
  GetLFGDungeon := fun id => if id =? 1 then Some sample_dungeon else None;
  HasIgnore := fun _ _ => false;
  IsLfgGroup := fun _ => false;
  GetState := fun _ => LFG_STATE_QUEUED;
  GetOldState := fun _ => LFG_STATE_NONE;
  GetGameTime := 1000
|}.

Definition waits (roles : list (Z * Z)) : LfgQueueData :=
  LfgQueueData_make (Mgr := sample_manager) 900 {[1]} (list_to_map roles).

(** A group of two, a tank who leads, and three who can hurt. *)
Definition sample_group_guid : Z := 0x1F50000000000007.
Definition sample_queue : LFGQueue := mkQueue
  (list_to_map [(sample_group_guid, waits [(21, 0xC); (22, 0x8)]); (1, waits [(1, 0xB)]); (2, waits [(2, 0x8)]); (3, waits [(3, 0xA)])])
  ∅ [sample_group_guid; 1] [2; 3].

Lemma sample_sound : @Sound sample_manager sample_queue.
Proof.
  assert (Hall : map_Forall (fun _ d => qd_dungeons d = {[1]} /\ (size (qd_roles d) <= 2)%nat /\
    map_Forall (fun _ v => 0 <= v < 256) (qd_roles d)) (QueueDataStore sample_queue)) by (apply (bool_decide_unpack _); by vm_compute).
  assert (Hd : forall id dungeon, GetLFGDungeon (LfgManager := sample_manager) id = Some dungeon -> dungeon = sample_dungeon).
  { cbn. intros id dungeon. by destruct (id =? 1); intros; simplify_eq. }
  split.
  - intros id dungeon ->%Hd. split; [|done]. intros role [->|[->| ->]]; by vm_compute.
  - done.
  - intros guid id dungeon _ ->%Hd. unfold entry_roles. destruct (QueueDataStore sample_queue !! guid) as [d|] eqn:E; [|done].
    destruct (Hall guid d E) as (_ & Hs & _). change (GetMaxGroupSize sample_dungeon) with 5. lia.
  - intros guid. unfold entry_roles. destruct (QueueDataStore sample_queue !! guid) as [d|] eqn:E; [|done]. apply (Hall guid d E).
  - intros guid id dungeon _ ->%Hd. unfold entry_roles. destruct (QueueDataStore sample_queue !! guid) as [d|] eqn:E; [|done].
    destruct (Hall guid d E) as (_ & Hs & _). change (GetMaxGroupSize sample_dungeon) with 5. lia.
  - done.
Qed.

Lemma FindGroups_proposals_witness : exists n s p, @FindGroups sample_manager [] sample_queue = Some (n, s) /\
  sr_proposals s = [p] /\ @Playable sample_manager sample_queue p /\ pr_leader p = 1.
Proof.
  destruct (@FindGroups_proposals sample_manager [] sample_queue sample_sound) as (n & s & E & Hp).
  assert (Hs : pr_leader <$> sr_proposals s = [1]).
  { pose proof (f_equal (fun r => match r with Some (_, s') => pr_leader <$> sr_proposals s' | None => [] end) E) as E'.
    cbn beta iota in E'. rewrite <- E'. by vm_compute. }
  destruct (sr_proposals s) as [|p [|]] eqn:Ep; [discriminate Hs| |discriminate Hs].
  injection Hs as Hs. inversion_clear Hp as [|? ? Hp1 _]. exists n, s, p. exact (conj E (conj Ep (conj Hp1 Hs))).
Defined.

Lemma FindGroups_loses_nobody_witness : exists n s, @FindGroups sample_manager [] sample_queue = Some (n, s) /\
  currentQueueStore (sr_queue s) = [] /\ proposed s 1 /\ @cache_fresh (sr_queue s).
Proof.
  destruct (@FindGroups_loses_nobody sample_manager [] sample_queue sample_sound) as (n & s & E & _ & _ & Hw & Hc & Hf).
  - apply (bool_decide_unpack _). by vm_compute.
  - by repeat constructor.
  - intros l _ _. unfold GetCompatibles. change (CompatibleMapStore sample_queue) with (∅ : gmap string LfgCompatibilityData).
    by rewrite lookup_empty.
  - assert (Hs : currentQueueStore (sr_queue s) = []).
    { pose proof (f_equal (fun r => match r with Some (_, s') => currentQueueStore (sr_queue s') | None => [1] end) E) as E'.
      cbn beta iota in E'. rewrite <- E'. by vm_compute. }
    exists n, s. split; [exact E|]. split; [exact Hs|]. split; [|exact Hf].
    assert (Hin : 1 ∈ newToQueueStore sample_queue ++ currentQueueStore sample_queue) by (apply list_elem_of_In; cbn; auto).
    destruct (proj1 (Hw 1) Hin) as [Hx|[_ Hx]]; [|exact Hx]. rewrite Hs in Hx. destruct (not_elem_of_nil 1 Hx).
Defined.

(** ** Groups that look for a replacement

    The loop that counts players stops at the first group that is in a dungeon
    already, so whoever comes after it in the list is not counted, and looks
    like a player who is ignored. Four in a dungeon and the fifth they need: *)
Definition refill_manager : LfgManager := {|
  GetLFGDungeon := fun id => if id =? 1 then Some sample_dungeon else None;
  HasIgnore := fun _ _ => false;
  IsLfgGroup := fun guid => guid =? sample_group_guid;
  GetState := fun _ => LFG_STATE_QUEUED;
  GetOldState := fun guid => if guid =? sample_group_guid then LFG_STATE_DUNGEON else LFG_STATE_NONE;
  GetGameTime := 1000
|}.

Definition refill_queue (current new : list Z) : LFGQueue := mkQueue
  (list_to_map [(sample_group_guid, waits [(21, 0x5); (22, 0x8); (23, 0x8); (24, 0x8)]); (1, waits [(1, 0x2)])]) ∅ current new.

Lemma group_is_not_refilled :
  match @FindGroups refill_manager [] (refill_queue [1] [sample_group_guid]) with
  | Some (n, s) => n = 0 /\ GetCompatibles (ConcatenateGuids [sample_group_guid; 1]) (sr_queue s) = LFG_INCOMPATIBLES_HAS_IGNORES
  | None => False
  end.
Proof. by vm_compute. Qed.

(** With the player first the two match, but the proposal is of a new group,
    since the old state is that of the player: *)
Lemma group_is_made_new :
  match @FindGroups refill_manager [] (refill_queue [sample_group_guid] [1]) with
  | Some (n, s) => n = 1 /\ pr_isNew <$> sr_proposals s = [true] /\ pr_group <$> sr_proposals s = [sample_group_guid]
  | None => False
  end.
Proof. by vm_compute. Qed.

(** ** Matches without a proposal

    A full combination that was found while somebody was not queued is later
    called a match, but no proposal is made of it, and the one who was tried
    is in no list any more. *)
Lemma bad_states_lose_players :
  let key := ConcatenateGuids [3; sample_group_guid; 1; 2] in
  let q := mkQueue (QueueDataStore sample_queue) {[key := mkCompat LFG_COMPATIBLES_BAD_STATES ∅]} [sample_group_guid; 1; 2] [3] in
  match @FindGroups sample_manager [] q with
  | Some (n, s) => n = 1 /\ sr_proposals s = [] /\ currentQueueStore (sr_queue s) = [sample_group_guid; 1; 2] /\
      newToQueueStore (sr_queue s) = []
  | None => False
  end.
Proof. by vm_compute. Qed.
