(* ===== verification/LfgTimers.v ===== *)
(** Wait times of the dungeon finder ([LFGQueue::UpdateWaitTime...],
    [LFGQueue::UpdateQueueTimers]): running averages of how long those who
    found a group had waited, and what those who wait are told. *)
From Stdlib Require Import ZArith Lia String Ascii.
From stdpp Require Import base gmap list strings.
From S2P Require Import Prelude LfgRoles LfgQueue.

Open Scope Z_scope.
Open Scope tc_scope.

(** [int32(x)] *)
Definition s32 (x : Z) : Z := (x + 2 ^ 31) mod 2 ^ 32 - 2 ^ 31.

(** ** Averages *)

Definition LfgWaitTime_default : LfgWaitTime := mkWaitTime (-1) 0.

(** By dungeon. A dungeon that was only read has the default, as one that was
    never looked at. *)
Notation LfgWaitTimesContainer := (gmap Z LfgWaitTime).

Definition wait_of (store : LfgWaitTimesContainer) (dungeonId : Z) : LfgWaitTime :=
  default LfgWaitTime_default (store !! dungeonId).

(** The body of the four functions; the division is of [uint32], and has no
    meaning when the counter has wrapped to zero. *)
Definition add_wait (waitTime : Z) (wt : LfgWaitTime) : option LfgWaitTime :=
  let old_number := wt_number wt in
  let number := old_number +32 1 in
  if number =? 0 then None
  else Some (mkWaitTime (s32 (u32 (u32 (u32 (wt_time wt) * old_number) + u32 waitTime) / number)) number).

Definition update_wait (waitTime dungeonId : Z) (store : LfgWaitTimesContainer) : option LfgWaitTimesContainer :=
  wt ← add_wait waitTime (wait_of store dungeonId); Some (<[dungeonId := wt]> store).

Record WaitTimes : Type := mkWaitTimes {
  waitTimesAvgStore : LfgWaitTimesContainer; waitTimesTankStore : LfgWaitTimesContainer;
  waitTimesHealerStore : LfgWaitTimesContainer; waitTimesDpsStore : LfgWaitTimesContainer }.

Definition WaitTimes_empty : WaitTimes := mkWaitTimes ∅ ∅ ∅ ∅.

Definition UpdateWaitTimeAvg (waitTime dungeonId : Z) (w : WaitTimes) : option WaitTimes :=
  store ← update_wait waitTime dungeonId (waitTimesAvgStore w);
  Some (mkWaitTimes store (waitTimesTankStore w) (waitTimesHealerStore w) (waitTimesDpsStore w)).
Definition UpdateWaitTimeTank (waitTime dungeonId : Z) (w : WaitTimes) : option WaitTimes :=
  store ← update_wait waitTime dungeonId (waitTimesTankStore w);
  Some (mkWaitTimes (waitTimesAvgStore w) store (waitTimesHealerStore w) (waitTimesDpsStore w)).
Definition UpdateWaitTimeHealer (waitTime dungeonId : Z) (w : WaitTimes) : option WaitTimes :=
  store ← update_wait waitTime dungeonId (waitTimesHealerStore w);
  Some (mkWaitTimes (waitTimesAvgStore w) (waitTimesTankStore w) store (waitTimesDpsStore w)).
Definition UpdateWaitTimeDps (waitTime dungeonId : Z) (w : WaitTimes) : option WaitTimes :=
  store ← update_wait waitTime dungeonId (waitTimesDpsStore w);
  Some (mkWaitTimes (waitTimesAvgStore w) (waitTimesTankStore w) (waitTimesHealerStore w) store).

(** ** What those who wait are told *)

Record LfgQueueStatusData : Type := mkStatus {
  qs_queueId : Z; qs_dungeonId : Z; qs_waitTime : Z; qs_waitTimeAvg : Z; qs_waitTimeTank : Z; qs_waitTimeHealer : Z;
  qs_waitTimeDps : Z; qs_queuedTime : Z; qs_tanks : Z; qs_healers : Z; qs_dps : Z }.

Record LfgQueueRoleData : Type := mkRoleData { currentDps : Z; currentHealers : Z; currentTanks : Z }.

Notation LfgQueueRoleContainer := (gmap Z LfgQueueRoleData).

Definition LfgQueueRoleData_default : LfgQueueRoleData := mkRoleData 0 0 0.

(** All roles of an entry. *)
Definition roles_offered (roles : LfgRolesMap) : Z :=
  no_leader (foldl (fun role guid => Z.lor role (roles !!! guid)) PLAYER_ROLE_NONE (guids roles)).

Definition count_roles_of (role : Z) (d : LfgQueueRoleData) : LfgQueueRoleData :=
  let one bit := if nz (Z.land role bit) then 1 else 0 in
  mkRoleData (currentDps d +32 one PLAYER_ROLE_DAMAGE) (currentHealers d +32 one PLAYER_ROLE_HEALER)
    (currentTanks d +32 one PLAYER_ROLE_TANK).

(** [switch (role)] *)
Definition wait_for_role (w : WaitTimes) (dungeonId role : Z) : Z :=
  if role =? PLAYER_ROLE_NONE then -1
  else if role =? PLAYER_ROLE_TANK then wt_time (wait_of (waitTimesTankStore w) dungeonId)
  else if role =? PLAYER_ROLE_HEALER then wt_time (wait_of (waitTimesHealerStore w) dungeonId)
  else if role =? PLAYER_ROLE_DAMAGE then wt_time (wait_of (waitTimesDpsStore w) dungeonId)
  else wt_time (wait_of (waitTimesAvgStore w) dungeonId).

Section Timers.
Context `{Mgr : LfgManager}.

Definition status_of (queueId currTime : Z) (w : WaitTimes) (dungeonId : Z) (d : LfgQueueData) : LfgQueueStatusData :=
  let time store := wt_time (wait_of store dungeonId) in
  mkStatus queueId dungeonId (wait_for_role w dungeonId (roles_offered (qd_roles d)))
    (time (waitTimesAvgStore w)) (time (waitTimesTankStore w)) (time (waitTimesHealerStore w)) (time (waitTimesDpsStore w))
    (u32 (currTime - joinTime d)) (qd_tanks d) (qd_healers d) (qd_dps d).

(** One entry: its dungeon is the first of its set, which must have one. *)
Definition update_timer (queueId currTime : Z) (w : WaitTimes) (guid : Z) (q : LFGQueue) (perDungeon : LfgQueueRoleContainer) :
    option (LFGQueue * LfgQueueRoleContainer * list (Z * LfgQueueStatusData)) :=
  d ← QueueDataStore q !! guid;
  dungeonId ← head (in_order (qd_dungeons d));
  let role := roles_offered (qd_roles d) in
  let perDungeon :=
    if nz (Z.land role (PLAYER_ROLE_TANK + PLAYER_ROLE_HEALER + PLAYER_ROLE_DAMAGE))
    then <[dungeonId := count_roles_of role (default LfgQueueRoleData_default (perDungeon !! dungeonId))]> perDungeon
    else perDungeon in
  let d := if str_empty (bestCompatible d) then FindBestCompatibleInQueue (CompatibleMapStore q) guid d else d in
  Some (set_data (<[guid := d]> (QueueDataStore q)) q, perDungeon,
    (fun player => (player, status_of queueId currTime w dungeonId d)) <$> guids (qd_roles d)).

Fixpoint update_timers (queueId currTime : Z) (w : WaitTimes) (entries : list Z) (q : LFGQueue) (perDungeon : LfgQueueRoleContainer) :
    option (LFGQueue * LfgQueueRoleContainer * list (Z * LfgQueueStatusData)) :=
  match entries with
  | [] => Some (q, perDungeon, [])
  | guid :: entries =>
      '(q, perDungeon, sent) ← update_timer queueId currTime w guid q perDungeon;
      '(q, perDungeon, rest) ← update_timers queueId currTime w entries q perDungeon;
      Some (q, perDungeon, sent ++ rest)
  end.

(** The entries are visited in the order of their guids. *)
Definition UpdateQueueTimers (queueId currTime : Z) (w : WaitTimes) (q : LFGQueue) (rolesPerDungeonId : LfgQueueRoleContainer) :
    option (LFGQueue * LfgQueueRoleContainer * list (Z * LfgQueueStatusData)) :=
  update_timers queueId currTime w (in_order (dom (QueueDataStore q))) q rolesPerDungeonId.

End Timers.

(** ** The averages stay between the shortest and the longest wait *)

Fixpoint add_waits (waits : list Z) (wt : LfgWaitTime) : option LfgWaitTime :=
  match waits with
  | [] => Some wt
  | wait :: waits => wt ← add_wait wait wt; add_waits waits wt
  end.

Lemma s32_small x : 0 <= x < 2 ^ 31 -> s32 x = x.
Proof. intros H. unfold s32. rewrite Z.mod_small; lia. Qed.

(** [sum] is that of the waits so far. *)
Definition average_ok (lo hi sum : Z) (wt : LfgWaitTime) : Prop :=
  lo <= wt_time wt <= hi /\ wt_time wt * wt_number wt <= sum.

Lemma add_wait_step lo hi sum wait wt : 0 <= lo <= wait -> wait <= hi < 2 ^ 31 ->
  0 <= sum -> sum + wait < 2 ^ 32 -> 0 <= wt_number wt -> wt_number wt + 1 < 2 ^ 32 ->
  (wt_number wt = 0 \/ average_ok lo hi sum wt) ->
  exists wt', add_wait wait wt = Some wt' /\ wt_number wt' = wt_number wt + 1 /\ average_ok lo hi (sum + wait) wt'.
Proof.
  intros Hw Hh Hs0 Hs Hn Hn1 Ht. destruct wt as [t n]. unfold average_ok in *. cbn in *. unfold add_wait. cbn.
  rewrite (u32_small (n + 1)) by lia.
  replace (n + 1 =? 0) with false by lia. eexists. split; [done|]. cbn. split; [done|].
  rewrite (u32_small wait) by lia.
  assert (E : exists s, u32 (u32 (u32 t * n) + wait) = s /\ lo * (n + 1) <= s <= hi * (n + 1) /\ s <= sum + wait).
  { destruct (decide (n = 0)) as [->|].
    - exists wait. rewrite Z.mul_0_r. change (u32 0) with 0. rewrite u32_small by lia. lia.
    - destruct Ht as [|[Ht Htn]]; [done|]. assert (0 <= t * n) by nia. assert (t * n <= hi * n) by nia.
      assert (lo * n <= t * n) by nia. exists (t * n + wait).
      rewrite (u32_small t) by lia. rewrite (u32_small (t * n)) by lia. rewrite u32_small by lia. nia. }
  destruct E as (s & -> & (H1 & H2) & H3). assert (lo <= s / (n + 1)) by (apply Z.div_le_lower_bound; lia).
  assert (s / (n + 1) <= hi) by (apply Z.div_le_upper_bound; lia). rewrite s32_small by lia.
  pose proof (Z.mul_div_le s (n + 1) ltac:(lia)). lia.
Qed.

Definition sum_of (waits : list Z) : Z := foldr Z.add 0 waits.

Lemma sum_of_nonneg lo hi waits : 0 <= lo -> Forall (fun wait => lo <= wait <= hi) waits -> 0 <= sum_of waits.
Proof. intros Hlo. unfold sum_of. induction 1; cbn; lia. Qed.

Lemma add_waits_bounds lo hi waits : 0 <= lo -> hi < 2 ^ 31 -> Forall (fun wait => lo <= wait <= hi) waits ->
  forall sum wt, 0 <= sum -> sum + sum_of waits < 2 ^ 32 -> 0 <= wt_number wt ->
  wt_number wt + Z.of_nat (length waits) < 2 ^ 32 -> (wt_number wt = 0 \/ average_ok lo hi sum wt) ->
  exists wt', add_waits waits wt = Some wt' /\ wt_number wt' = wt_number wt + Z.of_nat (length waits) /\
    (wt_number wt' = 0 \/ average_ok lo hi (sum + sum_of waits) wt').
Proof.
  intros Hlo Hhi. induction 1 as [|wait waits Hw Hws IH]; intros sum wt Hs0 Hs Hn Hl Ht; cbn [add_waits].
  - exists wt. cbn in *. rewrite !Z.add_0_r. auto.
  - pose proof (sum_of_nonneg lo hi waits Hlo Hws). cbn [sum_of foldr length] in *. fold (sum_of waits) in *.
    destruct (add_wait_step lo hi sum wait wt) as (wt' & -> & Hn' & Ht'); [lia..|done|]. cbn.
    destruct (IH (sum + wait) wt') as (wt2 & -> & Hn2 & Ht2); [lia..|by right|].
    exists wt2. split; [done|]. split; [lia|]. by rewrite Z.add_assoc.
Qed.

(** C21. While the waits of a dungeon fit 31 bits each, and add up to, and number,
    less than 32 bits, its average is between the shortest and the longest of
    them and not above their mean, and its count is their number. *)
Theorem wait_average_bounds waits lo hi : waits <> [] -> 0 <= lo -> hi < 2 ^ 31 -> Forall (fun wait => lo <= wait <= hi) waits ->
  Z.of_nat (length waits) < 2 ^ 32 -> sum_of waits < 2 ^ 32 ->
  exists wt, add_waits waits LfgWaitTime_default = Some wt /\ wt_number wt = Z.of_nat (length waits) /\
    lo <= wt_time wt <= hi /\ wt_time wt * wt_number wt <= sum_of waits.
Proof.
  intros Hne Hlo Hhi Hall Hlen Hsum.
  destruct (add_waits_bounds lo hi waits Hlo Hhi Hall 0 LfgWaitTime_default) as (wt & H1 & H2 & H3); [done|done|done|done|by left|].
  exists wt. split; [done|]. split; [done|]. destruct H3 as [H3|]; [|done]. destruct waits; [done|]. cbn in H2. lia.
Qed.

Lemma wait_average_bounds_witness : exists wt,
  add_waits [2147483647; 0; 0] LfgWaitTime_default = Some wt /\ 0 <= wt_time wt <= 2147483647.
Proof.
  destruct (wait_average_bounds [2147483647; 0; 0] 0 2147483647) as (wt & H1 & _ & H2 & _);
    [discriminate|lia|lia|repeat constructor; lia|cbn; lia|cbn; lia|]. exists wt. exact (conj H1 H2).
Defined.

(** Past that the sum wraps, and the average is below every wait. *)
Lemma average_wraps : add_wait 1800 (mkWaitTime 1800 2386100) = Some (mkWaitTime 0 2386101).
Proof. by vm_compute. Qed.
