(* ===== verification/LfgMgr.v ===== *)
(** The manager of the dungeon finder ([DungeonFinding/LFGMgr.cpp],
    [LFGPlayerData.cpp], [LFGGroupData.cpp]): the data of players and groups,
    role checks, proposals, votes to kick, and the update of a tick. *)
From Stdlib Require Import ZArith Lia String Ascii.
From stdpp Require Import base gmap list strings.
From S2P Require Import Prelude LfgRoles LfgQueue LfgTimers.

Open Scope Z_scope.
Open Scope tc_scope.

(** ** Data *)

Record RideTicket : Type := mkTicket { rt_RequesterGuid : Z; rt_Id : Z; rt_Time : Z }.

Definition RideTicket_default : RideTicket := mkTicket 0 0 0.

Record LfgPlayerData : Type := mkPlayer {
  m_Ticket : RideTicket; m_State : LfgState; m_OldState : LfgState; m_Team : Z; m_Group : Z; m_Roles : Z;
  m_Comment : string; m_SelectedDungeons : LfgDungeonSet; m_EnligibleForShortageRewards : bool }.

Definition LfgPlayerData_default : LfgPlayerData :=
  mkPlayer RideTicket_default LFG_STATE_NONE LFG_STATE_NONE 0 0 0 "" ∅ false.

Definition LFG_GROUP_MAX_KICKS : Z := 3.

Record LfgGroupData : Type := mkGroup {
  gr_State : LfgState; gr_OldState : LfgState; gr_Leader : Z; gr_Players : gset Z;
  gr_Dungeon : Z; gr_KicksLeft : Z; gr_VoteKickActive : bool }.

Definition LfgGroupData_default : LfgGroupData :=
  mkGroup LFG_STATE_NONE LFG_STATE_NONE 0 ∅ 0 LFG_GROUP_MAX_KICKS false.

Inductive LfgRoleCheckState : Type :=
| LFG_ROLECHECK_DEFAULT | LFG_ROLECHECK_FINISHED | LFG_ROLECHECK_INITIALITING | LFG_ROLECHECK_MISSING_ROLE
| LFG_ROLECHECK_WRONG_ROLES | LFG_ROLECHECK_ABORTED | LFG_ROLECHECK_NO_ROLE.

#[export] Instance LfgRoleCheckState_eq_dec : EqDecision LfgRoleCheckState.
Proof. solve_decision. Defined.

Record LfgRoleCheck : Type := mkRoleCheck {
  rc_cancelTime : Z; rc_roles : LfgRolesMap; rc_state : LfgRoleCheckState; rc_dungeons : LfgDungeonSet;
  rc_rDungeonId : Z; rc_leader : Z }.

Record LfgPlayerBoot : Type := mkBoot {
  pb_cancelTime : Z; pb_inProgress : bool; pb_votes : gmap Z LfgAnswer; pb_victim : Z; pb_reason : string }.

Inductive LfgUpdateType : Type :=
| LFG_UPDATETYPE_DEFAULT | LFG_UPDATETYPE_LEADER_UNK1 | LFG_UPDATETYPE_LEAVE_RAIDBROWSER | LFG_UPDATETYPE_JOIN_RAIDBROWSER
| LFG_UPDATETYPE_ROLECHECK_ABORTED | LFG_UPDATETYPE_JOIN_QUEUE | LFG_UPDATETYPE_ROLECHECK_FAILED
| LFG_UPDATETYPE_REMOVED_FROM_QUEUE | LFG_UPDATETYPE_PROPOSAL_FAILED | LFG_UPDATETYPE_PROPOSAL_DECLINED
| LFG_UPDATETYPE_GROUP_FOUND | LFG_UPDATETYPE_ADDED_TO_QUEUE | LFG_UPDATETYPE_PROPOSAL_BEGIN | LFG_UPDATETYPE_UPDATE_STATUS
| LFG_UPDATETYPE_GROUP_MEMBER_OFFLINE | LFG_UPDATETYPE_GROUP_DISBAND_UNK16 | LFG_UPDATETYPE_JOIN_QUEUE_INITIAL
| LFG_UPDATETYPE_DUNGEON_FINISHED | LFG_UPDATETYPE_PARTY_ROLE_NOT_AVAILABLE | LFG_UPDATETYPE_JOIN_LFG_OBJECT_FAILED.

#[export] Instance LfgUpdateType_eq_dec : EqDecision LfgUpdateType.
Proof. solve_decision. Defined.

Record LfgUpdateData : Type := mkUpdate { ud_type : LfgUpdateType; ud_dungeons : LfgDungeonSet; ud_comment : string }.

Inductive LfgJoinResult : Type :=
| LFG_JOIN_OK | LFG_JOIN_FAILED | LFG_JOIN_GROUPFULL | LFG_JOIN_INTERNAL_ERROR | LFG_JOIN_NOT_MEET_REQS
| LFG_JOIN_MIXED_RAID_DUNGEON | LFG_JOIN_MULTI_REALM | LFG_JOIN_DISCONNECTED | LFG_JOIN_PARTY_INFO_FAILED
| LFG_JOIN_DUNGEON_INVALID | LFG_JOIN_DESERTER | LFG_JOIN_PARTY_DESERTER | LFG_JOIN_RANDOM_COOLDOWN
| LFG_JOIN_PARTY_RANDOM_COOLDOWN | LFG_JOIN_TOO_MUCH_MEMBERS | LFG_JOIN_USING_BG_SYSTEM | LFG_JOIN_ROLE_CHECK_FAILED.

#[export] Instance LfgJoinResult_eq_dec : EqDecision LfgJoinResult.
Proof. solve_decision. Defined.

(** What a player is sent, if connected, and who is teleported to the dungeon. *)
Inductive LfgMessage : Type :=
| SendLfgUpdateStatus (guid : Z) (data : LfgUpdateData) (party : bool)
| SendLfgRoleChosen (guid pguid roles : Z)
| SendLfgRoleCheckUpdate (guid : Z) (roleCheck : LfgRoleCheck)
| SendLfgJoinResult (guid : Z) (result : LfgJoinResult) (state : LfgRoleCheckState)
| SendLfgUpdateProposal (guid : Z) (proposal : LfgProposal)
| SendLfgBootProposalUpdate (guid : Z) (boot : LfgPlayerBoot)
| SendLfgQueueStatus (guid : Z) (status : LfgQueueStatusData)
| SendLfgOfferContinue (guid dungeon : Z)
| TeleportPlayer (guid : Z).

(** The wait times of a queue are beside it, and what was sent is kept. *)
Record LFGMgr : Type := mkMgr {
  m_QueueTimer : Z; m_lfgProposalId : Z; m_options : Z;
  QueuesStore : gmap Z LFGQueue; WaitTimesStore : gmap Z WaitTimes; ShortageRoleMaskStore : gmap Z Z;
  RoleChecksStore : gmap Z LfgRoleCheck; ProposalsStore : gmap Z LfgProposal; BootsStore : gmap Z LfgPlayerBoot;
  PlayersStore : gmap Z LfgPlayerData; GroupsStore : gmap Z LfgGroupData; sent : list LfgMessage }.

Definition LFGMgr_default (options : Z) : LFGMgr := mkMgr 0 0 options ∅ ∅ ∅ ∅ ∅ ∅ ∅ ∅ [].

Definition set_timer (x : Z) (s : LFGMgr) : LFGMgr :=
  mkMgr x (m_lfgProposalId s) (m_options s) (QueuesStore s) (WaitTimesStore s) (ShortageRoleMaskStore s)
    (RoleChecksStore s) (ProposalsStore s) (BootsStore s) (PlayersStore s) (GroupsStore s) (sent s).
Definition set_queues (x : gmap Z LFGQueue) (s : LFGMgr) : LFGMgr :=
  mkMgr (m_QueueTimer s) (m_lfgProposalId s) (m_options s) x (WaitTimesStore s) (ShortageRoleMaskStore s)
    (RoleChecksStore s) (ProposalsStore s) (BootsStore s) (PlayersStore s) (GroupsStore s) (sent s).
Definition set_waits (x : gmap Z WaitTimes) (s : LFGMgr) : LFGMgr :=
  mkMgr (m_QueueTimer s) (m_lfgProposalId s) (m_options s) (QueuesStore s) x (ShortageRoleMaskStore s)
    (RoleChecksStore s) (ProposalsStore s) (BootsStore s) (PlayersStore s) (GroupsStore s) (sent s).
Definition set_shortages (x : gmap Z Z) (s : LFGMgr) : LFGMgr :=
  mkMgr (m_QueueTimer s) (m_lfgProposalId s) (m_options s) (QueuesStore s) (WaitTimesStore s) x
    (RoleChecksStore s) (ProposalsStore s) (BootsStore s) (PlayersStore s) (GroupsStore s) (sent s).
Definition set_checks (x : gmap Z LfgRoleCheck) (s : LFGMgr) : LFGMgr :=
  mkMgr (m_QueueTimer s) (m_lfgProposalId s) (m_options s) (QueuesStore s) (WaitTimesStore s) (ShortageRoleMaskStore s)
    x (ProposalsStore s) (BootsStore s) (PlayersStore s) (GroupsStore s) (sent s).
Definition set_proposals (id : Z) (x : gmap Z LfgProposal) (s : LFGMgr) : LFGMgr :=
  mkMgr (m_QueueTimer s) id (m_options s) (QueuesStore s) (WaitTimesStore s) (ShortageRoleMaskStore s)
    (RoleChecksStore s) x (BootsStore s) (PlayersStore s) (GroupsStore s) (sent s).
Definition set_boots (x : gmap Z LfgPlayerBoot) (s : LFGMgr) : LFGMgr :=
  mkMgr (m_QueueTimer s) (m_lfgProposalId s) (m_options s) (QueuesStore s) (WaitTimesStore s) (ShortageRoleMaskStore s)
    (RoleChecksStore s) (ProposalsStore s) x (PlayersStore s) (GroupsStore s) (sent s).
Definition set_players (x : gmap Z LfgPlayerData) (s : LFGMgr) : LFGMgr :=
  mkMgr (m_QueueTimer s) (m_lfgProposalId s) (m_options s) (QueuesStore s) (WaitTimesStore s) (ShortageRoleMaskStore s)
    (RoleChecksStore s) (ProposalsStore s) (BootsStore s) x (GroupsStore s) (sent s).
Definition set_groups (x : gmap Z LfgGroupData) (s : LFGMgr) : LFGMgr :=
  mkMgr (m_QueueTimer s) (m_lfgProposalId s) (m_options s) (QueuesStore s) (WaitTimesStore s) (ShortageRoleMaskStore s)
    (RoleChecksStore s) (ProposalsStore s) (BootsStore s) (PlayersStore s) x (sent s).
Definition send (x : LfgMessage) (s : LFGMgr) : LFGMgr :=
  mkMgr (m_QueueTimer s) (m_lfgProposalId s) (m_options s) (QueuesStore s) (WaitTimesStore s) (ShortageRoleMaskStore s)
    (RoleChecksStore s) (ProposalsStore s) (BootsStore s) (PlayersStore s) (GroupsStore s) (sent s ++ [x]).

(** *** Players *)

Definition player_SetOld (state : LfgState) (d : LfgPlayerData) : LfgPlayerData :=
  mkPlayer (m_Ticket d) (m_State d) state (m_Team d) (m_Group d) (m_Roles d) (m_Comment d) (m_SelectedDungeons d)
    (m_EnligibleForShortageRewards d).
Definition player_Enter (state : LfgState) (d : LfgPlayerData) : LfgPlayerData :=
  mkPlayer (m_Ticket d) state (m_OldState d) (m_Team d) (m_Group d) (m_Roles d) (m_Comment d) (m_SelectedDungeons d)
    (m_EnligibleForShortageRewards d).
Definition player_Choose (roles : Z) (comment : string) (dungeons : LfgDungeonSet) (d : LfgPlayerData) : LfgPlayerData :=
  mkPlayer (m_Ticket d) (m_State d) (m_OldState d) (m_Team d) (m_Group d) roles comment dungeons
    (m_EnligibleForShortageRewards d).

(** [LfgPlayerData::SetState]; the cases fall through. *)
Definition player_SetState (state : LfgState) (d : LfgPlayerData) : LfgPlayerData :=
  match state with
  | LFG_STATE_NONE | LFG_STATE_FINISHED_DUNGEON => player_Enter state (player_SetOld state (player_Choose 0 "" ∅ d))
  | LFG_STATE_DUNGEON => player_Enter state (player_SetOld state d)
  | _ => player_Enter state d
  end.

(** [LfgPlayerData::RestoreState] *)
Definition player_RestoreState (d : LfgPlayerData) : LfgPlayerData :=
  let d := if bool_decide (m_OldState d = LFG_STATE_NONE) then player_Choose 0 (m_Comment d) ∅ d else d in
  player_Enter (m_OldState d) d.

(** *** Groups *)

Definition group_Enter (state old : LfgState) (d : LfgGroupData) : LfgGroupData :=
  mkGroup state old (gr_Leader d) (gr_Players d) (gr_Dungeon d) (gr_KicksLeft d) (gr_VoteKickActive d).
Definition group_SetDungeon (dungeon : Z) (d : LfgGroupData) : LfgGroupData :=
  mkGroup (gr_State d) (gr_OldState d) (gr_Leader d) (gr_Players d) dungeon (gr_KicksLeft d) (gr_VoteKickActive d).
Definition group_SetKicks (kicks : Z) (active : bool) (d : LfgGroupData) : LfgGroupData :=
  mkGroup (gr_State d) (gr_OldState d) (gr_Leader d) (gr_Players d) (gr_Dungeon d) kicks active.
Definition group_SetMembers (leader : Z) (players : gset Z) (d : LfgGroupData) : LfgGroupData :=
  mkGroup (gr_State d) (gr_OldState d) leader players (gr_Dungeon d) (gr_KicksLeft d) (gr_VoteKickActive d).

(** [LfgGroupData::SetState]; the cases fall through. *)
Definition group_SetState (state : LfgState) (d : LfgGroupData) : LfgGroupData :=
  match state with
  | LFG_STATE_NONE =>
      group_Enter state state (group_SetKicks LFG_GROUP_MAX_KICKS (gr_VoteKickActive d) (group_SetDungeon 0 d))
  | LFG_STATE_FINISHED_DUNGEON | LFG_STATE_DUNGEON => group_Enter state state d
  | _ => group_Enter state (gr_OldState d) d
  end.

Definition group_RestoreState (d : LfgGroupData) : LfgGroupData := group_Enter (gr_OldState d) (gr_OldState d) d.

Definition DecreaseKicks (d : LfgGroupData) : LfgGroupData :=
  if nz (gr_KicksLeft d) then group_SetKicks (gr_KicksLeft d - 1) (gr_VoteKickActive d) d else d.

(** *** The stores

    Reading an entry that is missing creates the default one, which is read as
    the missing one is; the model leaves it out. *)

Definition player_data (guid : Z) (s : LFGMgr) : LfgPlayerData := default LfgPlayerData_default (PlayersStore s !! guid).
Definition group_data (guid : Z) (s : LFGMgr) : LfgGroupData := default LfgGroupData_default (GroupsStore s !! guid).
Definition on_player (guid : Z) (f : LfgPlayerData -> LfgPlayerData) (s : LFGMgr) : LFGMgr :=
  set_players (<[guid := f (player_data guid s)]> (PlayersStore s)) s.
Definition on_group (guid : Z) (f : LfgGroupData -> LfgGroupData) (s : LFGMgr) : LFGMgr :=
  set_groups (<[guid := f (group_data guid s)]> (GroupsStore s)) s.

Definition GetState (guid : Z) (s : LFGMgr) : LfgState :=
  if IsGroup guid then gr_State (group_data guid s) else m_State (player_data guid s).
Definition GetOldState (guid : Z) (s : LFGMgr) : LfgState :=
  if IsGroup guid then gr_OldState (group_data guid s) else m_OldState (player_data guid s).
Definition SetState (guid : Z) (state : LfgState) (s : LFGMgr) : LFGMgr :=
  if IsGroup guid then on_group guid (group_SetState state) s else on_player guid (player_SetState state) s.
Definition RestoreState (guid : Z) (s : LFGMgr) : LFGMgr :=
  if IsGroup guid then on_group guid group_RestoreState s else on_player guid player_RestoreState s.

Definition GetRoles (guid : Z) (s : LFGMgr) : Z := m_Roles (player_data guid s).
Definition GetComment (guid : Z) (s : LFGMgr) : string := m_Comment (player_data guid s).
Definition GetSelectedDungeons (guid : Z) (s : LFGMgr) : LfgDungeonSet := m_SelectedDungeons (player_data guid s).
Definition GetTeam (guid : Z) (s : LFGMgr) : Z := m_Team (player_data guid s).
Definition GetGroup (guid : Z) (s : LFGMgr) : Z := m_Group (player_data guid s).
Definition GetPlayers (guid : Z) (s : LFGMgr) : gset Z := gr_Players (group_data guid s).
Definition GetLeader (guid : Z) (s : LFGMgr) : Z := gr_Leader (group_data guid s).
(** [asId] *)
Definition GetDungeon (guid : Z) (s : LFGMgr) : Z := Z.land (gr_Dungeon (group_data guid s)) 0x00FFFFFF.

Definition SetRoles (guid roles : Z) : LFGMgr -> LFGMgr :=
  on_player guid (fun d => player_Choose roles (m_Comment d) (m_SelectedDungeons d) d).
Definition SetComment (guid : Z) (comment : string) : LFGMgr -> LFGMgr :=
  on_player guid (fun d => player_Choose (m_Roles d) comment (m_SelectedDungeons d) d).
Definition SetSelectedDungeons (guid : Z) (dungeons : LfgDungeonSet) : LFGMgr -> LFGMgr :=
  on_player guid (fun d => player_Choose (m_Roles d) (m_Comment d) dungeons d).
Definition SetTicket (guid : Z) (ticket : RideTicket) : LFGMgr -> LFGMgr :=
  on_player guid (fun d => mkPlayer ticket (m_State d) (m_OldState d) (m_Team d) (m_Group d) (m_Roles d) (m_Comment d)
    (m_SelectedDungeons d) (m_EnligibleForShortageRewards d)).
Definition SetGroup (guid group : Z) : LFGMgr -> LFGMgr :=
  on_player guid (fun d => mkPlayer (m_Ticket d) (m_State d) (m_OldState d) (m_Team d) group (m_Roles d) (m_Comment d)
    (m_SelectedDungeons d) (m_EnligibleForShortageRewards d)).
Definition SetEnligibleForShortageRewards (guid : Z) (enligible : bool) : LFGMgr -> LFGMgr :=
  on_player guid (fun d => mkPlayer (m_Ticket d) (m_State d) (m_OldState d) (m_Team d) (m_Group d) (m_Roles d) (m_Comment d)
    (m_SelectedDungeons d) enligible).
Definition SetDungeon (guid dungeon : Z) : LFGMgr -> LFGMgr := on_group guid (group_SetDungeon dungeon).
(** Only asked of groups, which it asserts. *)
Definition SetVoteKick (gguid : Z) (active : bool) : LFGMgr -> LFGMgr :=
  on_group gguid (fun d => group_SetKicks (gr_KicksLeft d) active d).
Definition DecreaseKicksLeft (gguid : Z) : LFGMgr -> LFGMgr := on_group gguid DecreaseKicks.

(** [guid &&] is not needed: an empty guid is no group. *)
Definition IsLfgGroup (guid : Z) (s : LFGMgr) : bool :=
  nz guid && IsGroup guid && negb (bool_decide (gr_OldState (group_data guid s) = LFG_STATE_NONE)).

(** *** The queue of a guid *)

Definition LFGQueue_empty : LFGQueue := mkQueue ∅ ∅ [] [].

Definition GetQueueId (guid : Z) (s : LFGMgr) : Z :=
  if IsGroup guid then
    let pguid := default 0 (head (in_order (GetPlayers guid s))) in
    if nz pguid then GetTeam pguid s else GetTeam guid s
  else GetTeam guid s.

Definition queue_at (id : Z) (s : LFGMgr) : LFGQueue := default LFGQueue_empty (QueuesStore s !! id).
Definition on_queue (id : Z) (f : LFGQueue -> LFGQueue) (s : LFGMgr) : LFGMgr :=
  set_queues (<[id := f (queue_at id s)]> (QueuesStore s)) s.
Definition waits_at (id : Z) (s : LFGMgr) : WaitTimes := default WaitTimes_empty (WaitTimesStore s !! id).

(** ** The rest of the server

    Dungeons and ignores, whether a group is one of the dungeon or the raid
    finder, and what the group manager does: [form_group] makes a group of the
    players of a proposal in the given order, or adds them to its group, and
    returns the guid of the group, and the server stops when none of them is
    there; [remove_from_group] kicks a player. Both call back into the manager, and may change it. *)
Class LfgServer : Type := {
  sv_dungeon : Z -> option LFGDungeonData;
  sv_random_dungeons : list Z;
  sv_ignores : Z -> Z -> bool;
  sv_lfg_group : Z -> bool;
  sv_lfr_group : Z -> bool;
  form_group : LfgProposal -> list Z -> LFGMgr -> option (Z * LFGMgr);
  remove_from_group : Z -> Z -> LFGMgr -> LFGMgr
}.

Section Manager.
Context `{Server : LfgServer}.

(** What a queue asks of the manager. *)
Definition manager (now : Z) (s : LFGMgr) : LfgManager := {|
  GetLFGDungeon := sv_dungeon;
  HasIgnore := sv_ignores;
  LfgQueue.IsLfgGroup := fun guid => IsLfgGroup guid s;
  LfgQueue.GetState := fun guid => GetState guid s;
  LfgQueue.GetOldState := fun guid => GetOldState guid s;
  GetGameTime := now
|}.

Definition queue_AddQueueData (now guid : Z) (dungeons : LfgDungeonSet) (roles : LfgRolesMap) (s : LFGMgr) : LFGMgr :=
  on_queue (GetQueueId guid s) (AddQueueData (Mgr := manager now s) guid now dungeons roles) s.
Definition queue_Remove (id now guid : Z) (s : LFGMgr) : LFGMgr :=
  on_queue id (RemoveFromQueue (Mgr := manager now s) guid) s.

Definition status (type : LfgUpdateType) (dungeons : LfgDungeonSet) (comment : string) : LfgUpdateData :=
  mkUpdate type dungeons comment.
(** [LfgUpdateData(type)] *)
Definition bare (type : LfgUpdateType) : LfgUpdateData := mkUpdate type ∅ "".

(** ** Role checks *)

Definition set_check_state (state : LfgRoleCheckState) (rc : LfgRoleCheck) : LfgRoleCheck :=
  mkRoleCheck (rc_cancelTime rc) (rc_roles rc) state (rc_dungeons rc) (rc_rDungeonId rc) (rc_leader rc).
Definition set_check_roles (roles : LfgRolesMap) (rc : LfgRoleCheck) : LfgRoleCheck :=
  mkRoleCheck (rc_cancelTime rc) roles (rc_state rc) (rc_dungeons rc) (rc_rDungeonId rc) (rc_leader rc).

(** The dungeons shown to the players. *)
Definition check_dungeons (rc : LfgRoleCheck) : LfgDungeonSet :=
  if nz (rc_rDungeonId rc) then {[rc_rDungeonId rc]} else rc_dungeons rc.

Definition check_dungeon (rc : LfgRoleCheck) : option LFGDungeonData :=
  first ← head (in_order (check_dungeons rc)); sv_dungeon first.

Definition all_chosen (roles : LfgRolesMap) : bool :=
  forallb (fun guid => negb (roles !!! guid =? PLAYER_ROLE_NONE)) (guids roles).

(** The new state of the check, from the answer of [guid]. *)
Definition choose_role (guid roles : Z) (rc : LfgRoleCheck) : option LfgRoleCheck :=
  if negb (nz guid) then Some (set_check_state LFG_ROLECHECK_ABORTED rc)
  else if roles <? PLAYER_ROLE_TANK then Some (set_check_state LFG_ROLECHECK_NO_ROLE rc)
  else
    let rc := set_check_roles (<[guid := roles]> (rc_roles rc)) rc in
    if all_chosen (rc_roles rc) then
      match check_dungeon rc with
      | None => Some (set_check_state LFG_ROLECHECK_WRONG_ROLES rc)
      | Some dungeon =>
          '(fits, _) ← CheckGroupRoles (rc_roles rc) dungeon;
          Some (set_check_state (if fits : bool then LFG_ROLECHECK_FINISHED else LFG_ROLECHECK_WRONG_ROLES) rc)
      end
    else Some rc.

(** What the check does for one of its players. *)
Definition notify_check (chosen : option (Z * Z)) (rc : LfgRoleCheck) (s : LFGMgr) (pguid : Z) : LFGMgr :=
  let s := match chosen with Some (guid, roles) => send (SendLfgRoleChosen pguid guid roles) s | None => s end in
  let s := send (SendLfgRoleCheckUpdate pguid rc) s in
  match rc_state rc with
  | LFG_ROLECHECK_INITIALITING => s
  | LFG_ROLECHECK_FINISHED =>
      let s := SetRoles pguid (rc_roles rc !!! pguid) (SetState pguid LFG_STATE_QUEUED s) in
      send (SendLfgUpdateStatus pguid (status LFG_UPDATETYPE_ADDED_TO_QUEUE (check_dungeons rc) (GetComment pguid s)) true) s
  | _ =>
      let s := if rc_leader rc =? pguid then send (SendLfgJoinResult pguid LFG_JOIN_ROLE_CHECK_FAILED (rc_state rc)) s else s in
      RestoreState pguid (send (SendLfgUpdateStatus pguid (bare LFG_UPDATETYPE_ROLECHECK_FAILED) true) s)
  end.

(** [guid] is 0 when somebody left. *)
Definition UpdateRoleCheck (now gguid guid roles : Z) (s : LFGMgr) : option LFGMgr :=
  if negb (nz gguid) then Some s else
  match RoleChecksStore s !! gguid with
  | None => Some s
  | Some rc =>
      let sendRoleChosen := negb (bool_decide (rc_state rc = LFG_ROLECHECK_DEFAULT)) && nz guid in
      rc ← choose_role guid roles rc;
      let s := set_checks (<[gguid := rc]> (RoleChecksStore s)) s in
      let s := foldl (notify_check (if sendRoleChosen then Some (guid, roles) else None) rc) s (guids (rc_roles rc)) in
      Some (match rc_state rc with
            | LFG_ROLECHECK_FINISHED =>
                let s := queue_AddQueueData now gguid (rc_dungeons rc) (rc_roles rc) (SetState gguid LFG_STATE_QUEUED s) in
                set_checks (delete gguid (RoleChecksStore s)) s
            | LFG_ROLECHECK_INITIALITING => s
            | _ => let s := RestoreState gguid s in set_checks (delete gguid (RoleChecksStore s)) s
            end)
  end.

(** The part of [Update] for role checks that took too long. *)
Definition LFG_TIME_ROLECHECK : Z := 45 * 1000.

Definition expire_player (rc : LfgRoleCheck) (s : LFGMgr) (guid : Z) : LFGMgr :=
  let s := send (SendLfgRoleCheckUpdate guid rc) (RestoreState guid s) in
  if guid =? rc_leader rc then send (SendLfgJoinResult guid LFG_JOIN_ROLE_CHECK_FAILED LFG_ROLECHECK_MISSING_ROLE) s else s.

Definition expire_check (currTime : Z) (s : LFGMgr) (gguid : Z) : LFGMgr :=
  match RoleChecksStore s !! gguid with
  | None => s
  | Some rc =>
      if currTime <? rc_cancelTime rc then s else
      let rc := set_check_state LFG_ROLECHECK_MISSING_ROLE rc in
      let s := RestoreState gguid (foldl (expire_player rc) s (guids (rc_roles rc))) in
      set_checks (delete gguid (RoleChecksStore s)) s
  end.

(** ** Proposals *)

(** [AddProposal] *)
Definition store_proposal (s : LFGMgr) (p : LfgProposal) : LFGMgr :=
  let id := m_lfgProposalId s +32 1 in
  set_proposals id (<[id := mkProposal id (pr_dungeonId p) (pr_state p) (pr_group p) (pr_leader p) (pr_cancelTime p)
    (pr_isNew p) (pr_queues p) (pr_players p)]> (ProposalsStore s)) s.

Definition set_proposal_players (state : LfgProposalState) (players : gmap Z LfgProposalPlayer) (p : LfgProposal) : LfgProposal :=
  mkProposal (pr_id p) (pr_dungeonId p) state (pr_group p) (pr_leader p) (pr_cancelTime p) (pr_isNew p) (pr_queues p) players.

Definition set_accept (answer : LfgAnswer) (pp : LfgProposalPlayer) : LfgProposalPlayer :=
  mkProposalPlayer (pp_role pp) answer (pp_group pp).

(** The players of a proposal, in order. *)
Definition players_of (p : LfgProposal) : list (Z * LfgProposalPlayer) :=
  omap (fun guid => pp ← pr_players p !! guid; Some (guid, pp)) (in_order (dom (pr_players p))).

(** Who had not answered when the time was up did not accept. *)
Definition mark_unanswered (type : LfgUpdateType) (pp : LfgProposalPlayer) : LfgProposalPlayer :=
  if bool_decide (type = LFG_UPDATETYPE_PROPOSAL_FAILED) && bool_decide (pp_accept pp = LFG_ANSWER_PENDING)
  then set_accept LFG_ANSWER_DENY pp else pp.

Definition refuses (type : LfgUpdateType) (pp : LfgProposalPlayer) : bool :=
  negb (bool_decide (pp_accept pp = LFG_ANSWER_AGREE)) &&
  (bool_decide (pp_accept pp = LFG_ANSWER_DENY) || bool_decide (type = LFG_UPDATETYPE_PROPOSAL_FAILED)).

(** [it->second.group ? it->second.group : it->first] *)
Definition entry_guid (guid : Z) (pp : LfgProposalPlayer) : Z := if nz (pp_group pp) then pp_group pp else guid.

Definition to_remove (type : LfgUpdateType) (p : LfgProposal) : gset Z :=
  list_to_set ((fun '(guid, pp) => entry_guid guid pp) <$> List.filter (fun '(_, pp) => refuses type pp) (players_of p)).

Definition notify_removed (type : LfgUpdateType) (removed : gset Z) (p : LfgProposal) (s : LFGMgr) (player : Z * LfgProposalPlayer) :
    LFGMgr :=
  let '(guid, pp) := player in
  let gguid := entry_guid guid pp in
  let s := send (SendLfgUpdateProposal guid p) s in
  if bool_decide (gguid ∈ removed) then
    let updateData := bare (if bool_decide (pp_accept pp = LFG_ANSWER_DENY) then type else LFG_UPDATETYPE_REMOVED_FROM_QUEUE) in
    let s := RestoreState guid s in
    if negb (gguid =? guid) then send (SendLfgUpdateStatus guid updateData true) (RestoreState (pp_group pp) s)
    else send (SendLfgUpdateStatus guid updateData false) s
  else
    let s := SetState guid LFG_STATE_QUEUED s in
    let s := if negb (gguid =? guid) then SetState gguid LFG_STATE_QUEUED s else s in
    let updateData := status LFG_UPDATETYPE_ADDED_TO_QUEUE (GetSelectedDungeons guid s) (GetComment guid s) in
    send (SendLfgUpdateStatus guid updateData (negb (gguid =? guid))) s.

(** A proposal without players has no queue. *)
Definition RemoveProposal (now id : Z) (type : LfgUpdateType) (s : LFGMgr) : option LFGMgr :=
  p ← ProposalsStore s !! id;
  let p := set_proposal_players LFG_PROPOSAL_FAILED (mark_unanswered type <$> pr_players p) p in
  let removed := to_remove type p in
  let p := set_proposal_players LFG_PROPOSAL_FAILED
    ((fun pp => if refuses type pp then set_accept LFG_ANSWER_DENY pp else pp) <$> pr_players p) p in
  let s := foldl (notify_removed type removed p) s (players_of p) in
  first ← head (in_order (dom (pr_players p)));
  let queueId := GetQueueId first s in
  let s := foldl (fun s guid => queue_Remove queueId now guid s) s (in_order removed) in
  let queues := foldl (fun queues guid => remove_guid guid queues) (pr_queues p) (in_order removed) in
  let s := foldl (fun s guid => on_queue queueId (AddToQueue guid true) s) s queues in
  Some (set_proposals (m_lfgProposalId s) (delete id (ProposalsStore s)) s).

(** [MakeNewGroup]: the leader first, then tanks, healers and the others; a
    player with any other role stops the server. *)
Definition of_role (p : LfgProposal) (role : Z) : list Z :=
  fst <$> List.filter (fun '(guid, pp) => negb (guid =? pr_leader p) && (no_leader (pp_role pp) =? role)) (players_of p).

Definition group_order (p : LfgProposal) : list Z :=
  List.filter (fun guid => guid =? pr_leader p) (fst <$> players_of p) ++
  of_role p PLAYER_ROLE_TANK ++ of_role p PLAYER_ROLE_HEALER ++ of_role p PLAYER_ROLE_DAMAGE.

Definition known_roles (p : LfgProposal) : bool :=
  forallb (fun '(guid, pp) => (guid =? pr_leader p) ||
    existsb (Z.eqb (no_leader (pp_role pp))) [PLAYER_ROLE_TANK; PLAYER_ROLE_HEALER; PLAYER_ROLE_DAMAGE]) (players_of p).

(** [id + (type << 24)] *)
Definition Entry (dungeon : LFGDungeonData) : Z := dg_id dungeon +32 Z.shiftl (dg_type dungeon) 24.

Definition MakeNewGroup (p : LfgProposal) (s : LFGMgr) : option LFGMgr :=
  if negb (known_roles p) then None else
  dungeon ← sv_dungeon (pr_dungeonId p);
  let toTeleport := List.filter (fun guid => pr_isNew p || negb (GetGroup guid s =? pr_group p)) (fst <$> players_of p) in
  '(gguid, s) ← form_group p (group_order p) s;
  let s := SetState gguid LFG_STATE_DUNGEON (SetDungeon gguid (Entry dungeon) s) in
  Some (foldl (fun s guid => send (TeleportPlayer guid) s) s toTeleport).

(** [int32((joinTime - queue.GetJoinTime(guid)) / IN_MILLISECONDS)] *)
Definition wait_time (now joined : Z) : Z := s32 (Z.quot (now - joined) 1000).

(** One player of a proposal that succeeded. *)
Definition accept_player (now queueId : Z) (sendUpdate : bool) (updateData : LfgUpdateData) (p : LfgProposal)
    (player : Z * LfgProposalPlayer) (s : LFGMgr) : option LFGMgr :=
  let '(pguid, pp) := player in
  dungeonId ← head (in_order (GetSelectedDungeons pguid s));
  let s := if sendUpdate then send (SendLfgUpdateProposal pguid p) s else s in
  let waitTime := wait_time now (GetJoinTime (entry_guid pguid pp) (queue_at queueId s)) in
  let s := send (SendLfgUpdateStatus pguid updateData (nz (pp_group pp))) s in
  let role := no_leader (GetRoles pguid s) in
  waits ← (if role =? PLAYER_ROLE_DAMAGE then UpdateWaitTimeDps waitTime dungeonId (waits_at queueId s)
           else if role =? PLAYER_ROLE_HEALER then UpdateWaitTimeHealer waitTime dungeonId (waits_at queueId s)
           else if role =? PLAYER_ROLE_TANK then UpdateWaitTimeTank waitTime dungeonId (waits_at queueId s)
           else UpdateWaitTimeAvg waitTime dungeonId (waits_at queueId s));
  Some (SetState pguid LFG_STATE_DUNGEON (set_waits (<[queueId := waits]> (WaitTimesStore s)) s)).

Fixpoint accept_players (now queueId : Z) (sendUpdate : bool) (updateData : LfgUpdateData) (p : LfgProposal)
    (players : list (Z * LfgProposalPlayer)) (s : LFGMgr) : option LFGMgr :=
  match players with
  | [] => Some s
  | player :: players =>
      s ← accept_player now queueId sendUpdate updateData p player s;
      accept_players now queueId sendUpdate updateData p players s
  end.

Definition all_agree (p : LfgProposal) : bool :=
  forallb (fun '(_, pp) => bool_decide (pp_accept pp = LFG_ANSWER_AGREE)) (players_of p).

Definition UpdateProposal (now id guid : Z) (accept : bool) (s : LFGMgr) : option LFGMgr :=
  match ProposalsStore s !! id with
  | None => Some s
  | Some p =>
      match pr_players p !! guid with
      | None => Some s
      | Some pp =>
          let pp := set_accept (if accept then LFG_ANSWER_AGREE else LFG_ANSWER_DENY) pp in
          let p := set_proposal_players (pr_state p) (<[guid := pp]> (pr_players p)) p in
          let s := set_proposals (m_lfgProposalId s) (<[id := p]> (ProposalsStore s)) s in
          if negb accept then RemoveProposal now id LFG_UPDATETYPE_PROPOSAL_DECLINED s
          else if negb (all_agree p) then
            Some (foldl (fun s player => send (SendLfgUpdateProposal player.1 p) s) s (players_of p))
          else
            let sendUpdate := negb (bool_decide (pr_state p = LFG_PROPOSAL_SUCCESS)) in
            let p := set_proposal_players LFG_PROPOSAL_SUCCESS (pr_players p) p in
            let s := set_proposals (m_lfgProposalId s) (<[id := p]> (ProposalsStore s)) s in
            let queueId := GetQueueId guid s in
            let updateData := status LFG_UPDATETYPE_GROUP_FOUND (GetSelectedDungeons guid s) (GetComment guid s) in
            s ← accept_players now queueId sendUpdate updateData p (players_of p) s;
            let s := foldl (fun s guid => queue_Remove queueId now guid s) s (pr_queues p) in
            s ← MakeNewGroup p s;
            Some (set_proposals (m_lfgProposalId s) (delete id (ProposalsStore s)) s)
      end
  end.

(** ** Votes to kick *)

Definition LFG_TIME_BOOT : Z := 120.
Definition LFG_GROUP_KICK_VOTES_NEEDED : Z := 4.
Definition LFR_GROUP_KICK_VOTES_NEEDED : Z := 15.

Definition set_boot (inProgress : bool) (votes : gmap Z LfgAnswer) (boot : LfgPlayerBoot) : LfgPlayerBoot :=
  mkBoot (pb_cancelTime boot) inProgress votes (pb_victim boot) (pb_reason boot).

(** A vote that is still in the store keeps its answers. *)
Definition InitBoot (now gguid kicker victim : Z) (reason : string) (s : LFGMgr) : LFGMgr :=
  let s := SetVoteKick gguid true s in
  let players := in_order (GetPlayers gguid s) in
  let votes := default ∅ (pb_votes <$> BootsStore s !! gguid) in
  let votes := foldl (fun votes guid => <[guid := LFG_ANSWER_PENDING]> votes) votes players in
  let boot := mkBoot (now + LFG_TIME_BOOT) true (<[kicker := LFG_ANSWER_AGREE]> (<[victim := LFG_ANSWER_DENY]> votes)) victim reason in
  foldl (fun s guid => send (SendLfgBootProposalUpdate guid boot) s) (set_boots (<[gguid := boot]> (BootsStore s)) s) players.

Definition count_votes (votes : gmap Z LfgAnswer) (p : LfgAnswer -> bool) : Z :=
  u8 (Z.of_nat (length (List.filter p (snd <$> map_to_list votes)))).

Definition votesNum (votes : gmap Z LfgAnswer) : Z :=
  count_votes votes (fun answer => negb (bool_decide (answer = LFG_ANSWER_PENDING))).
Definition agreeNum (votes : gmap Z LfgAnswer) : Z := count_votes votes (fun answer => bool_decide (answer = LFG_ANSWER_AGREE)).

Definition votes_needed (gguid : Z) : Z :=
  if sv_lfr_group gguid then LFR_GROUP_KICK_VOTES_NEEDED else LFG_GROUP_KICK_VOTES_NEEDED.

(** All who have a vote but the victim. *)
Definition notify_boot (boot : LfgPlayerBoot) (s : LFGMgr) : LFGMgr :=
  foldl (fun s pguid => if negb (pguid =? pb_victim boot) then send (SendLfgBootProposalUpdate pguid boot) s else s) s
    (in_order (dom (pb_votes boot))).

(** [boot.votes\[guid\]] adds a vote for who has none, an [LfgAnswer] of zero. *)
Definition UpdateBoot (guid : Z) (accept : bool) (s : LFGMgr) : LFGMgr :=
  let gguid := GetGroup guid s in
  if negb (nz gguid) then s else
  match BootsStore s !! gguid with
  | None => s
  | Some boot =>
      match pb_votes boot !! guid with
      | None => set_boots (<[gguid := set_boot (pb_inProgress boot) (<[guid := LFG_ANSWER_DENY]> (pb_votes boot)) boot]> (BootsStore s)) s
      | Some LFG_ANSWER_PENDING =>
          let votes := <[guid := if accept then LFG_ANSWER_AGREE else LFG_ANSWER_DENY]> (pb_votes boot) in
          let needed := votes_needed gguid in
          if (agreeNum votes <? needed) && (votesNum votes - agreeNum votes <? needed)
          then set_boots (<[gguid := set_boot (pb_inProgress boot) votes boot]> (BootsStore s)) s
          else
            let boot := set_boot false votes boot in
            let s := notify_boot boot (set_boots (<[gguid := boot]> (BootsStore s)) s) in
            let s := SetVoteKick gguid false s in
            let s := if agreeNum votes =? needed then DecreaseKicksLeft gguid (remove_from_group gguid (pb_victim boot) s) else s in
            set_boots (delete gguid (BootsStore s)) s
      | Some _ => s
      end
  end.

(** The part of [Update] for votes that took too long. *)
Definition expire_boot (currTime : Z) (s : LFGMgr) (gguid : Z) : LFGMgr :=
  match BootsStore s !! gguid with
  | None => s
  | Some boot =>
      if pb_cancelTime boot <? currTime then
        let boot := set_boot false (pb_votes boot) boot in
        let s := SetVoteKick gguid false (notify_boot boot (set_boots (<[gguid := boot]> (BootsStore s)) s)) in
        set_boots (delete gguid (BootsStore s)) s
      else s
  end.

(** ** Leaving *)

Definition leave_queue (now guid gguid : Z) (type : LfgUpdateType) (s : LFGMgr) : LFGMgr :=
  if nz gguid then
    let oldState := GetOldState gguid s in
    let in_dungeon := bool_decide (oldState = LFG_STATE_DUNGEON) || bool_decide (oldState = LFG_STATE_FINISHED_DUNGEON) in
    let newState := if sv_lfg_group gguid && nz (GetDungeon gguid s) && in_dungeon then oldState else LFG_STATE_NONE in
    let s := SetState gguid newState (queue_Remove (GetQueueId gguid s) now gguid s) in
    foldl (fun s player => send (SendLfgUpdateStatus player (bare type) true) (SetState player newState s)) s
      (in_order (GetPlayers gguid s))
  else
    SetState guid LFG_STATE_NONE (send (SendLfgUpdateStatus guid (bare type) false) (queue_Remove (GetQueueId guid s) now guid s)).

(** The first proposal that the player is in. *)
Definition proposal_of (pguid : Z) (s : LFGMgr) : option Z :=
  head (List.filter (fun id => match ProposalsStore s !! id with Some p => bool_decide (is_Some (pr_players p !! pguid)) | None => false end)
    (in_order (dom (ProposalsStore s)))).

Definition deny_proposal (now pguid : Z) (s : LFGMgr) : option LFGMgr :=
  match proposal_of pguid s with
  | None => Some s
  | Some id =>
      p ← ProposalsStore s !! id;
      let p := set_proposal_players (pr_state p) (alter (set_accept LFG_ANSWER_DENY) pguid (pr_players p)) p in
      RemoveProposal now id LFG_UPDATETYPE_PROPOSAL_DECLINED (set_proposals (m_lfgProposalId s) (<[id := p]> (ProposalsStore s)) s)
  end.

Definition LeaveLfg (now guid : Z) (disconnected : bool) (s : LFGMgr) : option LFGMgr :=
  let gguid := if IsGroup guid then guid else GetGroup guid s in
  s ← match GetState guid s with
      | LFG_STATE_QUEUED => Some (leave_queue now guid gguid LFG_UPDATETYPE_REMOVED_FROM_QUEUE s)
      | LFG_STATE_RAIDBROWSER => Some (leave_queue now guid gguid LFG_UPDATETYPE_LEAVE_RAIDBROWSER s)
      | LFG_STATE_ROLECHECK => if nz gguid then UpdateRoleCheck now gguid 0 PLAYER_ROLE_NONE s else Some s
      | LFG_STATE_PROPOSAL => deny_proposal now (if gguid =? guid then GetLeader gguid s else guid) s
      | LFG_STATE_NONE => Some s
      | LFG_STATE_DUNGEON | LFG_STATE_FINISHED_DUNGEON =>
          Some (if negb (guid =? gguid) && negb disconnected then SetState guid LFG_STATE_NONE s else s)
      end;
  Some (SetEnligibleForShortageRewards guid false s).

(** ** The update of a tick *)

Fixpoint expire_proposals (currTime : Z) (ids : list Z) (s : LFGMgr) : option LFGMgr :=
  match ids with
  | [] => Some s
  | id :: ids =>
      s ← match ProposalsStore s !! id with
          | Some p => if pr_cancelTime p <? currTime then RemoveProposal currTime id LFG_UPDATETYPE_PROPOSAL_FAILED s else Some s
          | None => Some s
          end;
      expire_proposals currTime ids s
  end.

(** [FindGroups] of each queue; its proposals are stored as they are made. *)
Fixpoint find_groups (currTime : Z) (ids : list Z) (random : list Z) (s : LFGMgr) : option LFGMgr :=
  match ids with
  | [] => Some s
  | id :: ids =>
      '(_, search) ← FindGroups (Mgr := manager currTime s) random (queue_at id s);
      let s := foldl store_proposal (on_queue id (fun _ => sr_queue search) s) (sr_proposals search) in
      find_groups currTime ids (sr_random search) s
  end.

Definition announce_player (p : LfgProposal) (s : LFGMgr) (guid : Z) : LFGMgr :=
  let s := SetState guid LFG_STATE_PROPOSAL s in
  let gguid := GetGroup guid s in
  let s := if nz gguid then SetState gguid LFG_STATE_PROPOSAL s else s in
  let updateData := status LFG_UPDATETYPE_PROPOSAL_BEGIN (GetSelectedDungeons guid s) (GetComment guid s) in
  send (SendLfgUpdateProposal guid p) (send (SendLfgUpdateStatus guid updateData (nz gguid)) s).

(** From the proposal that was made last to the end of the store. A proposal
    that succeeded at once would be erased under the loop. *)
Fixpoint announce (currTime : Z) (ids : list Z) (s : LFGMgr) : option LFGMgr :=
  match ids with
  | [] => Some s
  | id :: ids =>
      p ← ProposalsStore s !! id;
      if bool_decide (pr_state p = LFG_PROPOSAL_SUCCESS) then None
      else announce currTime ids (foldl (announce_player p) s (in_order (dom (pr_players p))))
  end.

Definition announced (s : LFGMgr) : list Z :=
  match ProposalsStore s !! m_lfgProposalId s with
  | None => []
  | Some _ => List.filter (fun id => m_lfgProposalId s <=? id) (in_order (dom (ProposalsStore s)))
  end.

Definition LFG_QUEUEUPDATE_INTERVAL : Z := 15 * 1000.
Definition LFG_OPTION_ENABLE_DUNGEON_FINDER : Z := 1.
Definition LFG_OPTION_ENABLE_RAID_BROWSER : Z := 2.
Definition LFG_OPTION_ENABLE_SHORTAGE_REWARDS : Z := 4.

Definition isOptionEnabled (option : Z) (s : LFGMgr) : bool := nz (Z.land (m_options s) option).

Fixpoint update_queues (currTime : Z) (ids : list Z) (perDungeon : LfgQueueRoleContainer) (s : LFGMgr) :
    option (LfgQueueRoleContainer * LFGMgr) :=
  match ids with
  | [] => Some (perDungeon, s)
  | id :: ids =>
      '(q, perDungeon, messages) ← UpdateQueueTimers (Mgr := manager currTime s) id currTime (waits_at id s) (queue_at id s) perDungeon;
      let s := foldl (fun s '(guid, data) => send (SendLfgQueueStatus guid data) s) (on_queue id (fun _ => q) s) messages in
      update_queues currTime ids perDungeon s
  end.

(** Roles that are short; the counts are sums of [uint32]. *)
Definition shortage_mask (perDungeon : LfgQueueRoleContainer) : Z :=
  let total f := foldl (fun n d => n +32 f d) 0 (snd <$> map_to_list perDungeon) in
  let dps := total currentDps / 3 in
  let healers := total currentHealers in
  let tanks := total currentTanks in
  (if (tanks <=? dps) || (tanks <=? healers) then PLAYER_ROLE_TANK else 0) +
  (if (healers <=? dps) || (healers <=? tanks) then PLAYER_ROLE_HEALER else 0) +
  (if (dps <? tanks) && (dps <? healers) then PLAYER_ROLE_DAMAGE else 0).

Definition update_shortages (perDungeon : LfgQueueRoleContainer) (s : LFGMgr) : LFGMgr :=
  if isOptionEnabled LFG_OPTION_ENABLE_SHORTAGE_REWARDS s
  then set_shortages (foldl (fun masks id => <[id := shortage_mask perDungeon]> masks) (ShortageRoleMaskStore s) sv_random_dungeons) s
  else s.

Definition update_timers_part (diff currTime : Z) (s : LFGMgr) : option LFGMgr :=
  if LFG_QUEUEUPDATE_INTERVAL <? m_QueueTimer s then
    '(perDungeon, s) ← update_queues currTime (in_order (dom (QueuesStore s))) ∅ (set_timer 0 s);
    Some (update_shortages perDungeon s)
  else Some (set_timer (m_QueueTimer s +32 diff) s).

Definition Update (diff currTime : Z) (random : list Z) (s : LFGMgr) : option LFGMgr :=
  if negb (isOptionEnabled (LFG_OPTION_ENABLE_DUNGEON_FINDER + LFG_OPTION_ENABLE_RAID_BROWSER) s) then Some s else
  let s := foldl (expire_check currTime) s (in_order (dom (RoleChecksStore s))) in
  s ← expire_proposals currTime (in_order (dom (ProposalsStore s))) s;
  let s := foldl (expire_boot currTime) s (in_order (dom (BootsStore s))) in
  let lastProposalId := m_lfgProposalId s in
  s ← find_groups currTime (in_order (dom (QueuesStore s))) random s;
  s ← (if negb (lastProposalId =? m_lfgProposalId s) then announce currTime (announced s) s else Some s);
  update_timers_part diff currTime s.

End Manager.
