(* ===== verification/LfgJoin.v ===== *)
(** Joining the dungeon finder ([LFGMgr::JoinLfg],
    [LFGMgr::GetCompatibleDungeons]) and what happens to a group that uses it
    ([DungeonFinding/LFGScripts.cpp]). *)
From Stdlib Require Import ZArith Lia String Ascii.
From stdpp Require Import base gmap list strings.
From S2P Require Import Prelude LfgRoles LfgQueue LfgTimers LfgMgr.

Open Scope Z_scope.
Open Scope tc_scope.

(** ** What is read of a player who joins *)

Record Joiner : Type := mkJoiner {
  jn_guid : Z; jn_permission : bool; jn_in_battleground : bool; jn_deserter : bool; jn_cooldown : bool;
  jn_frozen : bool; jn_class : Z }.

(** A group with those of its members who are online. *)
Record JoinGroup : Type := mkJoinGroup { jg_guid : Z; jg_lfg : bool; jg_count : Z; jg_online : list Joiner }.

Definition CLASS_WARRIOR : Z := 1.
Definition CLASS_PALADIN : Z := 2.
Definition CLASS_PRIEST : Z := 5.
Definition CLASS_DEATH_KNIGHT : Z := 6.
Definition CLASS_SHAMAN : Z := 7.
Definition CLASS_DRUID : Z := 11.

Definition CanPerformSelectedRoles (playerClass roles : Z) : bool :=
  let one_of := existsb (Z.eqb playerClass) in
  if nz (Z.land roles PLAYER_ROLE_TANK) && negb (one_of [CLASS_DEATH_KNIGHT; CLASS_DRUID; CLASS_PALADIN; CLASS_WARRIOR]) then false
  else if nz (Z.land roles PLAYER_ROLE_HEALER) && negb (one_of [CLASS_PALADIN; CLASS_DRUID; CLASS_PRIEST; CLASS_SHAMAN]) then false
  else true.

Definition LFG_TYPE_DUNGEON : Z := 1.
Definition LFG_TYPE_RAID : Z := 2.
Definition LFG_TYPE_HEROIC : Z := 5.
Definition LFG_TYPE_RANDOM : Z := 6.
Definition LFG_LOCKSTATUS_RAID_LOCKED : Z := 6.
Definition MAXGROUPSIZE : Z := 5.

(** What a player is locked out of, by entry, the instance a player is bound
    to in a dungeon, the dungeons behind a random one, and who is online. *)
Class LfgLocks : Type := {
  GetLockedDungeons : Z -> list (Z * Z);
  GetBoundInstance : Z -> Z -> option Z;
  GetDungeonsByRandom : Z -> LfgDungeonSet;
  FindConnectedPlayer : Z -> bool
}.

Section Join.
Context `{Server : LfgServer} `{Locks : LfgLocks}.

(** ** [GetCompatibleDungeons], without the lock map shown to the client *)

(** Both are looked up by assertions. *)
Definition continue_locked (guid dungeonId : Z) (lockedDungeons : gmap Z Z) : option (bool * gmap Z Z) :=
  _ ← sv_dungeon dungeonId;
  if negb (FindConnectedPlayer guid) then None else
  Some (match GetBoundInstance guid dungeonId with
        | None => (true, lockedDungeons)
        | Some instance =>
            (match lockedDungeons !! dungeonId with Some other => negb (other =? instance) | None => false end,
             <[dungeonId := instance]> lockedDungeons)
        end).

Fixpoint remove_locked (isContinue : bool) (guid : Z) (locks : list (Z * Z)) (dungeons : LfgDungeonSet) (lockedDungeons : gmap Z Z) :
    option (LfgDungeonSet * gmap Z Z) :=
  match locks with
  | [] => Some (dungeons, lockedDungeons)
  | (entry, lockStatus) :: locks =>
      if bool_decide (dungeons = ∅) then Some (dungeons, lockedDungeons) else
      let dungeonId := Z.land entry 0x00FFFFFF in
      if bool_decide (dungeonId ∈ dungeons) then
        '(eraseDungeon, lockedDungeons) ← (if (lockStatus =? LFG_LOCKSTATUS_RAID_LOCKED) && isContinue
                                           then continue_locked guid dungeonId lockedDungeons else Some (true, lockedDungeons));
        remove_locked isContinue guid locks (if eraseDungeon : bool then dungeons ∖ {[dungeonId]} else dungeons) lockedDungeons
      else remove_locked isContinue guid locks dungeons lockedDungeons
  end.

Fixpoint GetCompatibleDungeons (isContinue : bool) (players : list Z) (dungeons : LfgDungeonSet) (lockedDungeons : gmap Z Z) :
    option LfgDungeonSet :=
  match players with
  | [] => Some dungeons
  | guid :: players =>
      if bool_decide (dungeons = ∅) then Some dungeons else
      '(dungeons, lockedDungeons) ← remove_locked isContinue guid (GetLockedDungeons guid) dungeons lockedDungeons;
      GetCompatibleDungeons isContinue players dungeons lockedDungeons
  end.

(** ** [JoinLfg] *)

(** The loop over the members of the group. *)
Definition check_member (isContinue : bool) (plrg : Joiner) : LfgJoinResult :=
  if jn_deserter plrg then LFG_JOIN_PARTY_DESERTER
  else if negb isContinue && jn_cooldown plrg then LFG_JOIN_PARTY_RANDOM_COOLDOWN
  else if jn_in_battleground plrg then LFG_JOIN_USING_BG_SYSTEM
  else if negb (jn_permission plrg) then LFG_JOIN_INTERNAL_ERROR
  else LFG_JOIN_OK.

Fixpoint check_members (isContinue : bool) (members : list Joiner) (memberCount : Z) (players : gset Z) : LfgJoinResult * Z * gset Z :=
  match members with
  | [] => (LFG_JOIN_OK, memberCount, players)
  | plrg :: members =>
      let players := players ∪ {[jn_guid plrg]} in
      match check_member isContinue plrg with
      | LFG_JOIN_OK => check_members isContinue members (u8 (memberCount + 1)) players
      | result => (result, u8 (memberCount + 1), players)
      end
  end.

(** Restrictions of the player and of the group, and who would play. *)
Definition check_joiner (isContinue : bool) (player : Joiner) (grp : option JoinGroup) (roles : Z) (dungeons : LfgDungeonSet) :
    LfgJoinResult * gset Z :=
  if negb (jn_permission player) then (LFG_JOIN_NOT_MEET_REQS, ∅)
  else if jn_in_battleground player then (LFG_JOIN_USING_BG_SYSTEM, ∅)
  else if jn_deserter player then (LFG_JOIN_DESERTER, ∅)
  else if negb isContinue && jn_cooldown player then (LFG_JOIN_RANDOM_COOLDOWN, ∅)
  else if bool_decide (dungeons = ∅) then (LFG_JOIN_NOT_MEET_REQS, ∅)
  else if jn_frozen player then (LFG_JOIN_NOT_MEET_REQS, ∅)
  else if negb (CanPerformSelectedRoles (jn_class player) roles) then (LFG_JOIN_INTERNAL_ERROR, ∅)
  else match grp with
       | None => (LFG_JOIN_OK, {[jn_guid player]})
       | Some grp =>
           if MAXGROUPSIZE <? jg_count grp then (LFG_JOIN_TOO_MUCH_MEMBERS, ∅) else
           let '(result, memberCount, players) := check_members isContinue (jg_online grp) 0 ∅ in
           if bool_decide (result = LFG_JOIN_OK) && negb (memberCount =? jg_count grp) then (LFG_JOIN_DISCONNECTED, players)
           else (result, players)
       end.

Record DungeonKinds : Type := mkKinds { isDungeon : bool; isRaid : bool; rDungeonId : Z; kd_result : LfgJoinResult }.

(** One dungeon of the loop; a raid after a dungeon, or a dungeon after a
    raid, is refused. *)
Definition check_kind (dungeons : LfgDungeonSet) (k : DungeonKinds) (id : Z) : DungeonKinds :=
  if negb (bool_decide (kd_result k = LFG_JOIN_OK)) then k else
  match dg_type <$> sv_dungeon id with
  | Some type =>
      let mixed (b : bool) r := if b then LFG_JOIN_MIXED_RAID_DUNGEON else r in
      if type =? LFG_TYPE_RAID then mkKinds (isDungeon k) true (rDungeonId k) (mixed (isDungeon k) LFG_JOIN_OK)
      else if type =? LFG_TYPE_RANDOM then
        if (1 <? size dungeons)%nat
        then mkKinds true (isRaid k) (rDungeonId k) (mixed (isRaid k) LFG_JOIN_DUNGEON_INVALID)
        else mkKinds true (isRaid k) (default 0 (head (in_order dungeons))) (mixed (isRaid k) LFG_JOIN_OK)
      else if (type =? LFG_TYPE_HEROIC) || (type =? LFG_TYPE_DUNGEON)
      then mkKinds true (isRaid k) (rDungeonId k) (mixed (isRaid k) LFG_JOIN_OK)
      else mkKinds (isDungeon k) (isRaid k) (rDungeonId k) LFG_JOIN_DUNGEON_INVALID
  | None => mkKinds (isDungeon k) (isRaid k) (rDungeonId k) LFG_JOIN_DUNGEON_INVALID
  end.

Definition check_kinds (dungeons : LfgDungeonSet) : DungeonKinds :=
  foldl (check_kind dungeons) (mkKinds false false 0 LFG_JOIN_OK) (in_order dungeons).

(** The dungeons that are left, and which kind they are. *)
Definition check_dungeons_of (isContinue : bool) (grp : bool) (players : gset Z) (dungeons : LfgDungeonSet) :
    option (DungeonKinds * LfgDungeonSet) :=
  let k := check_kinds dungeons in
  if negb (bool_decide (kd_result k = LFG_JOIN_OK)) then Some (k, dungeons) else
  let dungeons := if nz (rDungeonId k) then GetDungeonsByRandom (rDungeonId k) else dungeons in
  dungeons ← GetCompatibleDungeons isContinue (in_order players) dungeons ∅;
  Some (if bool_decide (dungeons = ∅)
        then mkKinds (isDungeon k) (isRaid k) (rDungeonId k) (if grp then LFG_JOIN_INTERNAL_ERROR else LFG_JOIN_NOT_MEET_REQS)
        else k, dungeons).

(** A role check starts; the roles of one that is in the store stay. *)
Definition start_role_check (now : Z) (isContinue : bool) (guid roles : Z) (grp : JoinGroup) (rDungeonId : Z)
    (dungeons : LfgDungeonSet) (comment : string) (ticket : RideTicket) (s : LFGMgr) : option LFGMgr :=
  let gguid := jg_guid grp in
  let shown := if nz rDungeonId then {[rDungeonId]} else dungeons in
  let s := SetState gguid LFG_STATE_ROLECHECK s in
  let s := foldl (fun s plrg =>
      let pguid := jn_guid plrg in
      let s := SetTicket pguid ticket (SetState pguid LFG_STATE_ROLECHECK
        (send (SendLfgUpdateStatus pguid (status LFG_UPDATETYPE_JOIN_QUEUE shown comment) true) s)) in
      if isContinue then s else SetSelectedDungeons pguid shown s) s (jg_online grp) in
  let old := default ∅ (rc_roles <$> RoleChecksStore s !! gguid) in
  let rc := mkRoleCheck (now + LFG_TIME_ROLECHECK) (foldl (fun m plrg => <[jn_guid plrg := 0]> m) old (jg_online grp))
    LFG_ROLECHECK_INITIALITING dungeons rDungeonId guid in
  UpdateRoleCheck now gguid guid roles (set_checks (<[gguid := rc]> (RoleChecksStore s)) s).

Definition queue_player (now : Z) (isContinue isRaid : bool) (guid roles rDungeonId : Z) (dungeons : LfgDungeonSet)
    (comment : string) (ticket : RideTicket) (s : LFGMgr) : LFGMgr :=
  let s := queue_AddQueueData now guid dungeons {[guid := roles]} s in
  let shown := if negb isContinue && nz rDungeonId then {[rDungeonId]} else dungeons in
  let s := if isContinue then s else SetSelectedDungeons guid shown s in
  let s := SetRoles guid roles (SetTicket guid ticket s) in
  let s := send (SendLfgUpdateStatus guid (status LFG_UPDATETYPE_JOIN_QUEUE_INITIAL shown comment) false) s in
  let s := SetState guid (if isRaid then LFG_STATE_RAIDBROWSER else LFG_STATE_QUEUED) s in
  let type := if isRaid then LFG_UPDATETYPE_JOIN_RAIDBROWSER else LFG_UPDATETYPE_ADDED_TO_QUEUE in
  let s := send (SendLfgUpdateStatus guid (status type shown comment) false) s in
  send (SendLfgJoinResult guid LFG_JOIN_OK LFG_ROLECHECK_DEFAULT) s.

Definition JoinLfg (now : Z) (player : Joiner) (grp : option JoinGroup) (roles : Z) (dungeons : LfgDungeonSet)
    (comment : string) (s : LFGMgr) : option LFGMgr :=
  if bool_decide (dungeons = ∅) then Some s else
  let guid := jn_guid player in
  let gguid := default guid (jg_guid <$> grp) in
  let isContinue := match grp with
                    | Some grp => jg_lfg grp && negb (bool_decide (GetState gguid s = LFG_STATE_FINISHED_DUNGEON))
                    | None => false
                    end in
  let dungeons := if isContinue then {[GetDungeon gguid s]} else dungeons in
  let s := if bool_decide (GetState gguid s = LFG_STATE_QUEUED) then queue_Remove (GetQueueId gguid s) now gguid s else s in
  let '(result, players) := check_joiner isContinue player grp roles dungeons in
  checked ← (if bool_decide (result = LFG_JOIN_OK)
             then check_dungeons_of isContinue (bool_decide (is_Some grp)) players dungeons
             else Some (mkKinds false false 0 result, dungeons));
  let '(k, dungeons) := checked in
  if negb (bool_decide (kd_result k = LFG_JOIN_OK)) then Some (send (SendLfgJoinResult guid (kd_result k) LFG_ROLECHECK_DEFAULT) s) else
  let s := SetComment guid comment s in
  let short := nz (Z.land (default 0 (ShortageRoleMaskStore s !! rDungeonId k)) roles) in
  let s := if nz (rDungeonId k) && negb (bool_decide (is_Some grp)) && short then SetEnligibleForShortageRewards guid true s else s in
  let ticket := mkTicket guid (GetQueueId gguid s) (s32 now) in
  match grp with
  | Some grp => start_role_check now isContinue guid roles grp (rDungeonId k) dungeons comment ticket s
  | None => Some (queue_player now isContinue (isRaid k) guid roles (rDungeonId k) dungeons comment ticket s)
  end.

(** ** Groups *)

Definition SetLeader (gguid leader : Z) : LFGMgr -> LFGMgr := on_group gguid (fun d => group_SetMembers leader (gr_Players d) d).
Definition AddPlayerToGroup (gguid guid : Z) : LFGMgr -> LFGMgr :=
  on_group gguid (fun d => group_SetMembers (gr_Leader d) (gr_Players d ∪ {[guid]}) d).
Definition RemovePlayerFromGroup (gguid guid : Z) : LFGMgr -> LFGMgr :=
  on_group gguid (fun d => group_SetMembers (gr_Leader d) (gr_Players d ∖ {[guid]}) d).

Definition SetupGroupMember (guid gguid : Z) (s : LFGMgr) : LFGMgr :=
  let s := SetSelectedDungeons guid {[GetDungeon gguid s]} s in
  AddPlayerToGroup gguid guid (SetGroup guid gguid (SetState guid (GetState gguid s) s)).

Definition RemoveGroupData (guid : Z) (s : LFGMgr) : LFGMgr :=
  match GroupsStore s !! guid with
  | None => s
  | Some data =>
      let state := GetState guid s in
      let s := foldl (fun s player =>
          let s := SetGroup player 0 s in
          if bool_decide (state = LFG_STATE_PROPOSAL) then s
          else send (SendLfgUpdateStatus player (bare LFG_UPDATETYPE_REMOVED_FROM_QUEUE) true) (SetState player LFG_STATE_NONE s))
        s (in_order (gr_Players data)) in
      set_groups (delete guid (GroupsStore s)) s
  end.

(** The scripts of the group events; they do nothing when the finder is off. *)
Definition enabled (s : LFGMgr) : bool :=
  isOptionEnabled (LFG_OPTION_ENABLE_DUNGEON_FINDER + LFG_OPTION_ENABLE_RAID_BROWSER) s.

Definition OnAddMember (now gguid leader guid : Z) (s : LFGMgr) : option LFGMgr :=
  if negb (enabled s) then Some s else
  s ← (if leader =? guid then Some (SetLeader gguid guid s)
       else
         let gstate := GetState gguid s in
         let state := GetState guid s in
         s ← (if bool_decide (state = LFG_STATE_QUEUED) then LeaveLfg now guid false s else Some s);
         if bool_decide (gstate = LFG_STATE_QUEUED) then LeaveLfg now gguid false s else Some s);
  Some (AddPlayerToGroup gguid guid (SetGroup guid gguid s)).

Inductive RemoveMethod : Type :=
| GROUP_REMOVEMETHOD_DEFAULT | GROUP_REMOVEMETHOD_KICK | GROUP_REMOVEMETHOD_LEAVE | GROUP_REMOVEMETHOD_KICK_LFG.

#[export] Instance RemoveMethod_eq_dec : EqDecision RemoveMethod.
Proof. solve_decision. Defined.

(** What it does to the manager, and who is told; auras and teleports are the
    player's. *)
Definition OnRemoveMember (now gguid guid : Z) (method : RemoveMethod) (kicker : Z) (reason : string) (s : LFGMgr) : option LFGMgr :=
  if negb (enabled s) then Some s
  else if sv_lfg_group gguid && bool_decide (method = GROUP_REMOVEMETHOD_KICK) then Some (InitBoot now gguid kicker guid reason s)
  else if bool_decide (GetState gguid s = LFG_STATE_PROPOSAL) && bool_decide (method = GROUP_REMOVEMETHOD_DEFAULT)
  then Some (RemovePlayerFromGroup gguid guid (SetGroup guid 0 s))
  else
    let state := GetState gguid s in
    s ← LeaveLfg now guid false s;
    let s := RemovePlayerFromGroup gguid guid (SetGroup guid 0 s) in
    let s := send (SendLfgUpdateStatus guid (bare LFG_UPDATETYPE_LEADER_UNK1) true) s in
    Some (if sv_lfg_group gguid && negb (bool_decide (state = LFG_STATE_FINISHED_DUNGEON))
          then send (SendLfgOfferContinue (GetLeader gguid s) (gr_Dungeon (group_data gguid s))) s else s).

Definition OnDisband (gguid : Z) (s : LFGMgr) : LFGMgr := if enabled s then RemoveGroupData gguid s else s.
Definition OnChangeLeader (gguid leader : Z) (s : LFGMgr) : LFGMgr := if enabled s then SetLeader gguid leader s else s.
Definition OnInviteMember (now gguid leader : Z) (s : LFGMgr) : option LFGMgr :=
  if enabled s && nz leader && negb (nz gguid) then LeaveLfg now leader false s else Some s.

(** [in_group]: the player has a group. *)
Definition OnLogout (now guid : Z) (in_group disconnected : bool) (s : LFGMgr) : option LFGMgr :=
  if negb (enabled s) then Some s
  else if negb in_group then LeaveLfg now guid false s
  else if disconnected then LeaveLfg now guid true s else Some s.

(** The groups of both sides may be allowed to mix, in one queue. *)
Definition SetTeam (two_sides : bool) (guid team : Z) : LFGMgr -> LFGMgr :=
  on_player guid (fun d => mkPlayer (m_Ticket d) (m_State d) (m_OldState d) (if two_sides then 0 else team) (m_Group d) (m_Roles d)
    (m_Comment d) (m_SelectedDungeons d) (m_EnligibleForShortageRewards d)).

Definition OnLogin (two_sides : bool) (guid team : Z) (group : option Z) (s : LFGMgr) : LFGMgr :=
  if negb (enabled s) then s else
  SetTeam two_sides guid team (match group with
                               | Some gguid2 => if GetGroup guid s =? gguid2 then s else SetupGroupMember guid gguid2 s
                               | None => s
                               end).

(** The part of [FinishDungeon] that the manager keeps; rewards are the player's. *)
Definition finish_player (s : LFGMgr) (guid : Z) : LFGMgr :=
  if bool_decide (GetState guid s = LFG_STATE_FINISHED_DUNGEON) then s else
  let s := SetState guid LFG_STATE_FINISHED_DUNGEON s in
  send (SendLfgUpdateStatus guid (status LFG_UPDATETYPE_DUNGEON_FINISHED (GetSelectedDungeons guid s) (GetComment guid s)) true) s.

Definition FinishDungeon (gguid dungeonId : Z) (s : LFGMgr) : LFGMgr :=
  if negb (GetDungeon gguid s =? dungeonId) then s
  else if bool_decide (GetState gguid s = LFG_STATE_FINISHED_DUNGEON) then s
  else let s := SetState gguid LFG_STATE_FINISHED_DUNGEON s in foldl finish_player s (in_order (GetPlayers gguid s)).

End Join.
