(* ===== verification/LfgMgrBase.v ===== *)
(** What single steps of the manager leave alone, and loops over players. *)
From Stdlib Require Import ZArith Lia String Ascii.
From stdpp Require Import base gmap list strings.
From S2P Require Import Prelude LfgRoles LfgRolesSpec LfgQueue LfgQueueSpec LfgTimers LfgMgr.

Open Scope Z_scope.
Open Scope tc_scope.

(** ** Everything but players, groups and messages *)

Record stores_kept (s s' : LFGMgr) : Prop := {
  sk_id : m_lfgProposalId s' = m_lfgProposalId s;
  sk_options : m_options s' = m_options s;
  sk_queues : QueuesStore s' = QueuesStore s;
  sk_waits : WaitTimesStore s' = WaitTimesStore s;
  sk_checks : RoleChecksStore s' = RoleChecksStore s;
  sk_proposals : ProposalsStore s' = ProposalsStore s;
  sk_boots : BootsStore s' = BootsStore s
}.

#[export] Instance stores_kept_refl : Reflexive stores_kept.
Proof. by split. Qed.

#[export] Instance stores_kept_trans : Transitive stores_kept.
Proof. intros s s' s'' [] []. split; congruence. Qed.

(** Teams, group membership and the players of groups: what decides the queue
    of a guid. *)
Record places_kept (s s' : LFGMgr) : Prop := {
  pk_team : forall guid, GetTeam guid s' = GetTeam guid s;
  pk_group : forall guid, GetGroup guid s' = GetGroup guid s;
  pk_players : forall guid, GetPlayers guid s' = GetPlayers guid s
}.

#[export] Instance places_kept_refl : Reflexive places_kept.
Proof. by split. Qed.

#[export] Instance places_kept_trans : Transitive places_kept.
Proof. intros s s' s'' [] []. split; congruence. Qed.

Lemma places_queue s s' guid : places_kept s s' -> GetQueueId guid s' = GetQueueId guid s.
Proof. intros [T _ P]. unfold GetQueueId. rewrite P, !T. done. Qed.

Lemma queue_at_kept s s' id : stores_kept s s' -> queue_at id s' = queue_at id s.
Proof. intros H. unfold queue_at. by rewrite (sk_queues _ _ H). Qed.

(** ** Writing the data of a player or of a group *)

Lemma player_data_on guid f s p : player_data p (on_player guid f s) = if decide (p = guid) then f (player_data guid s) else player_data p s.
Proof. unfold player_data, on_player. cbn. case_decide as E; [by rewrite E, lookup_insert_eq|by rewrite lookup_insert_ne]. Qed.

Lemma group_data_on guid f s g : group_data g (on_group guid f s) = if decide (g = guid) then f (group_data guid s) else group_data g s.
Proof. unfold group_data, on_group. cbn. case_decide as E; [by rewrite E, lookup_insert_eq|by rewrite lookup_insert_ne]. Qed.

Lemma queue_at_on id f s id' : queue_at id' (on_queue id f s) = if decide (id' = id) then f (queue_at id s) else queue_at id' s.
Proof. unfold queue_at, on_queue. cbn. case_decide as E; [by rewrite E, lookup_insert_eq|by rewrite lookup_insert_ne]. Qed.

Lemma stores_on_player guid f s : stores_kept s (on_player guid f s).
Proof. by split. Qed.

Lemma stores_on_group guid f s : stores_kept s (on_group guid f s).
Proof. by split. Qed.

Lemma stores_send m s : stores_kept s (send m s).
Proof. by split. Qed.

(** ** Changes of state only *)

Definition same_place (d d' : LfgPlayerData) : Prop := m_Team d' = m_Team d /\ m_Group d' = m_Group d.
Definition same_members (d d' : LfgGroupData) : Prop := gr_Players d' = gr_Players d /\ gr_Leader d' = gr_Leader d.

Lemma player_SetState_place state d : same_place d (player_SetState state d).
Proof. by destruct state. Qed.

Lemma player_RestoreState_place d : same_place d (player_RestoreState d).
Proof. unfold player_RestoreState. by case_bool_decide. Qed.

Lemma group_SetState_members state d : same_members d (group_SetState state d).
Proof. by destruct state. Qed.

Lemma places_on_player guid f s : same_place (player_data guid s) (f (player_data guid s)) -> places_kept s (on_player guid f s).
Proof.
  intros [T G]. split; intros g; unfold GetTeam, GetGroup, GetPlayers.
  - rewrite player_data_on. case_decide as E; [by rewrite E|done].
  - rewrite player_data_on. case_decide as E; [by rewrite E|done].
  - done.
Qed.

Lemma places_on_group guid f s : same_members (group_data guid s) (f (group_data guid s)) -> places_kept s (on_group guid f s).
Proof.
  intros [P _]. split; intros g; unfold GetTeam, GetGroup, GetPlayers; [done|done|].
  rewrite group_data_on. case_decide as E; [by rewrite E|done].
Qed.

Lemma places_send m s : places_kept s (send m s).
Proof. by split. Qed.

Lemma SetState_kept guid state s : stores_kept s (SetState guid state s) /\ places_kept s (SetState guid state s).
Proof.
  unfold SetState. destruct (IsGroup guid); (split; [by split|]).
  - apply places_on_group, group_SetState_members.
  - apply places_on_player, player_SetState_place.
Qed.

Lemma RestoreState_kept guid s : stores_kept s (RestoreState guid s) /\ places_kept s (RestoreState guid s).
Proof.
  unfold RestoreState. destruct (IsGroup guid); (split; [by split|]).
  - by apply places_on_group.
  - apply places_on_player, player_RestoreState_place.
Qed.

(** ** Reading states *)

Lemma player_SetState_state state d : m_State (player_SetState state d) = state.
Proof. by destruct state. Qed.

Lemma player_RestoreState_state d : m_State (player_RestoreState d) = m_OldState d.
Proof. unfold player_RestoreState. by case_bool_decide. Qed.

Lemma group_SetState_state state d : gr_State (group_SetState state d) = state.
Proof. by destruct state. Qed.

Lemma GetState_send m s guid : GetState guid (send m s) = GetState guid s.
Proof. done. Qed.

Lemma GetState_SetState guid state s g : GetState g (SetState guid state s) = if decide (g = guid) then state else GetState g s.
Proof.
  unfold GetState, SetState. destruct (decide (g = guid)) as [->|Hne].
  - destruct (IsGroup guid).
    + rewrite group_data_on, decide_True by done. apply group_SetState_state.
    + rewrite player_data_on, decide_True by done. apply player_SetState_state.
  - destruct (IsGroup g), (IsGroup guid); rewrite ?group_data_on, ?player_data_on, ?decide_False by done; done.
Qed.

Lemma GetState_RestoreState guid s g :
  GetState g (RestoreState guid s) = if decide (g = guid) then GetOldState guid s else GetState g s.
Proof.
  unfold GetState, GetOldState, RestoreState. destruct (decide (g = guid)) as [->|Hne].
  - destruct (IsGroup guid).
    + rewrite group_data_on, decide_True by done. done.
    + rewrite player_data_on, decide_True by done. apply player_RestoreState_state.
  - destruct (IsGroup g), (IsGroup guid); rewrite ?group_data_on, ?player_data_on, ?decide_False by done; done.
Qed.

Lemma player_RestoreState_old d : m_OldState (player_RestoreState d) = m_OldState d.
Proof. unfold player_RestoreState. by case_bool_decide. Qed.

Lemma GetOldState_RestoreState guid s g : GetOldState g (RestoreState guid s) = GetOldState g s.
Proof.
  unfold GetOldState, RestoreState. destruct (IsGroup guid) eqn:E.
  - destruct (IsGroup g); [|done]. rewrite group_data_on. by case_decide as Eg; [rewrite Eg|].
  - destruct (IsGroup g); [done|]. rewrite player_data_on. case_decide as Eg; [|done]. by rewrite Eg, player_RestoreState_old.
Qed.

Lemma player_SetState_queued d : m_OldState (player_SetState LFG_STATE_QUEUED d) = m_OldState d.
Proof. done. Qed.

(** ** Loops over players *)

(** Each step changes the data of one player. *)
Lemma foldl_players (f : LFGMgr -> Z -> LFGMgr) (h : Z -> LfgPlayerData -> LfgPlayerData) l :
  (forall s p, p ∈ l -> stores_kept s (f s p) /\ GroupsStore (f s p) = GroupsStore s /\
    forall q, player_data q (f s p) = if decide (q = p) then h p (player_data p s) else player_data q s) ->
  NoDup l -> forall s, stores_kept s (foldl f s l) /\ GroupsStore (foldl f s l) = GroupsStore s /\
    forall q, player_data q (foldl f s l) = if decide (q ∈ l) then h q (player_data q s) else player_data q s.
Proof.
  induction l as [|p l IH]; intros Hf Hnd s; cbn [foldl].
  - split; [done|]. split; [done|]. intros q. rewrite decide_False; [done|]. apply not_elem_of_nil.
  - apply NoDup_cons in Hnd as [Hp Hnd]. destruct (Hf s p (list_elem_of_here _ _)) as (H1 & H2 & H3).
    destruct (IH (fun s q Hq => Hf s q (list_elem_of_further _ _ _ Hq)) Hnd (f s p)) as (H4 & H5 & H6).
    split; [by etrans|]. split; [congruence|]. intros q. rewrite H6, H3.
    destruct (decide (q ∈ l)) as [Hq|Hq].
    + rewrite (decide_False (P := q = p)) by (intros ->; done). by rewrite decide_True by by right.
    + destruct (decide (q = p)) as [->|Hne]; [by rewrite decide_True by left|].
      rewrite decide_False; [done|]. rewrite elem_of_cons. tauto.
Qed.

Lemma in_order_NoDup (x : gset Z) : NoDup (in_order x).
Proof. unfold in_order. rewrite stable_sort_perm. apply NoDup_elements. Qed.
