(* ===== verification/LfgJoinSpec.v ===== *)
(** Who may join the dungeon finder, for which dungeons, and what a request that
    is refused leaves behind. *)
From Stdlib Require Import ZArith Lia String Ascii.
From stdpp Require Import base gmap list strings.
From S2P Require Import Prelude LfgRoles LfgRolesSpec LfgQueue LfgQueueSpec LfgTimers LfgMgr LfgMgrBase LfgJoin.

Open Scope Z_scope.
Open Scope tc_scope.

Section JoinSpec.
Context `{Server : LfgServer} `{Locks : LfgLocks}.

(** ** Dungeons without locks *)

(** Someone is locked out of the dungeon; locks are listed by entry. *)
Definition locked (guid id : Z) : Prop := exists entry status, (entry, status) ∈ GetLockedDungeons guid /\ Z.land entry 0x00FFFFFF = id.

Lemma remove_locked_new guid locks : forall dungeons lockedDungeons, exists left,
  remove_locked false guid locks dungeons lockedDungeons = Some (left, lockedDungeons) /\
  forall id, id ∈ left <-> id ∈ dungeons /\ forall entry status, (entry, status) ∈ locks -> Z.land entry 0x00FFFFFF <> id.
Proof.
  induction locks as [|[entry status] locks IH]; intros dungeons L; cbn [remove_locked].
  - exists dungeons. split; [done|]. intros id. split; [|by intros [H _]]. intros H. split; [done|].
    intros entry status Hin. by apply not_elem_of_nil in Hin.
  - case_bool_decide as He.
    { exists dungeons. split; [done|]. intros id. rewrite He. split; [by intros ?%elem_of_empty|]. by intros [?%elem_of_empty _]. }
    rewrite andb_false_r. case_bool_decide as Hin; cbn [mbind option_bind].
    + destruct (IH (dungeons ∖ {[Z.land entry 0x00FFFFFF]}) L) as (left & -> & Hl). exists left. split; [done|]. intros id. rewrite Hl.
      rewrite elem_of_difference, elem_of_singleton. setoid_rewrite elem_of_cons. split.
      * intros [[H1 H2] H3]. split; [done|]. intros e st [[= -> ->]|H]; [congruence|by apply (H3 e st)].
      * intros [H1 H2]. split; [split; [done|]|]; [intros ->; apply (H2 entry status); [by left|done]|]. intros e st H. apply (H2 e st). by right.
    + destruct (IH dungeons L) as (left & -> & Hl). exists left. split; [done|]. intros id. rewrite Hl. setoid_rewrite elem_of_cons.
      split.
      * intros [H1 H2]. split; [done|]. intros e st [[= -> ->]|H]; [congruence|by apply (H2 e st)].
      * intros [H1 H2]. split; [done|]. intros e st H. apply (H2 e st). by right.
Qed.

(** A new request keeps the dungeons that nobody is locked out of. *)
Lemma GetCompatibleDungeons_new players : forall dungeons lockedDungeons, exists left,
  GetCompatibleDungeons false players dungeons lockedDungeons = Some left /\
  forall id, id ∈ left <-> id ∈ dungeons /\ forall guid, guid ∈ players -> ~ locked guid id.
Proof.
  induction players as [|guid players IH]; intros dungeons L; cbn [GetCompatibleDungeons].
  - exists dungeons. split; [done|]. intros id. split; [|by intros [H _]]. intros H. split; [done|]. intros guid Hin.
    by apply not_elem_of_nil in Hin.
  - case_bool_decide as He.
    { exists dungeons. split; [done|]. intros id. rewrite He. split; [by intros ?%elem_of_empty|]. by intros [?%elem_of_empty _]. }
    destruct (remove_locked_new guid (GetLockedDungeons guid) dungeons L) as (left1 & -> & H1). cbn [mbind option_bind].
    destruct (IH left1 L) as (left & -> & H2). exists left. split; [done|]. intros id. rewrite H2, H1.
    setoid_rewrite elem_of_cons. unfold locked at 2. split.
    + intros [[Hd Hg] Hp]. split; [done|]. intros g [->|Hin]; [|by apply Hp]. intros (e & st & Hin & He'). by apply (Hg e st).
    + intros [Hd Hp]. split; [split; [done|]|]; [|intros g Hin; apply Hp; by right].
      intros e st Hin He'. apply (Hp guid); [by left|]. by exists e, st.
Qed.

(** ** Kinds of dungeons *)

Definition type_of (id : Z) : option Z := dg_type <$> sv_dungeon id.
Definition raid (id : Z) : Prop := type_of id = Some LFG_TYPE_RAID.
Definition random (id : Z) : Prop := type_of id = Some LFG_TYPE_RANDOM.
Definition plain (id : Z) : Prop := type_of id = Some LFG_TYPE_HEROIC \/ type_of id = Some LFG_TYPE_DUNGEON.

(** Dungeons that may be asked for together. *)
Definition may_mix (dungeons : LfgDungeonSet) : Prop :=
  (forall id, id ∈ dungeons -> raid id) \/ (forall id, id ∈ dungeons -> plain id) \/ (exists id, dungeons = {[id]} /\ random id).

(** Why some of the dungeons [l] may not be asked for. *)
Definition bad (dungeons : LfgDungeonSet) (l : list Z) : Prop :=
  (exists id, id ∈ l /\ ~ (raid id \/ plain id \/ random id)) \/
  (exists id id', id ∈ l /\ id' ∈ l /\ raid id /\ (plain id' \/ random id')) \/
  (exists id, id ∈ l /\ random id /\ (1 < size dungeons)%nat).

(** What the loop knows after the dungeons [l]. *)
Record kinds_of (dungeons : LfgDungeonSet) (l : list Z) (k : DungeonKinds) : Prop := {
  ko_raid : isRaid k = true <-> exists id, id ∈ l /\ raid id;
  ko_dungeon : isDungeon k = true <-> exists id, id ∈ l /\ (plain id \/ random id);
  ko_known : forall id, id ∈ l -> raid id \/ plain id \/ random id;
  ko_pure : isRaid k = false \/ isDungeon k = false;
  ko_random : (rDungeonId k = 0 /\ forall id, id ∈ l -> ~ random id) \/
    (rDungeonId k = default 0 (head (in_order dungeons)) /\ (exists id, id ∈ l /\ random id) /\ (size dungeons <= 1)%nat)
}.

Lemma bad_more dungeons l id : bad dungeons l -> bad dungeons (l ++ [id]).
Proof.
  intros [(x & H1 & H2)|[(x & y & H1 & H2 & H3)|(x & H1 & H2)]]; [left; exists x|right; left; exists x, y|right; right; exists x];
    rewrite ?elem_of_app; tauto.
Qed.

Lemma exists_app (P : Z -> Prop) l id : (exists x, x ∈ l ++ [id] /\ P x) <-> (exists x, x ∈ l /\ P x) \/ P id.
Proof.
  setoid_rewrite elem_of_app. setoid_rewrite list_elem_of_singleton. split.
  - intros (x & [H|H] & HP); [left; by exists x|right; by rewrite <- H].
  - intros [(x & H & HP)|HP]; [exists x; tauto|exists id; tauto].
Qed.

(** A raid, and a dungeon that is none, after the others. *)
Lemma kinds_raid dungeons l k id : kinds_of dungeons l k -> raid id ->
  let result := if isDungeon k then LFG_JOIN_MIXED_RAID_DUNGEON else LFG_JOIN_OK in
  result = LFG_JOIN_OK /\ kinds_of dungeons (l ++ [id]) (mkKinds (isDungeon k) true (rDungeonId k) result) \/
  result <> LFG_JOIN_OK /\ bad dungeons (l ++ [id]).
Proof.
  intros [R D Kn Pu Z] Hr. assert (Hn : ~ (plain id \/ random id)).
  { unfold raid, plain, random in *. rewrite Hr. intros [[[=]|[=]]|[=]]. }
  destruct (isDungeon k) eqn:Ed; cbn.
  - right. split; [done|]. right. left. destruct (proj1 D eq_refl) as (id' & H1 & H2). exists id, id'.
    rewrite !elem_of_app, !list_elem_of_singleton. tauto.
  - left. split; [done|]. split; cbn.
    + rewrite exists_app. tauto.
    + rewrite exists_app, <- D. split; [done|]. by intros [|].
    + intros x [Hx|Hx%list_elem_of_singleton]%elem_of_app; [by apply Kn|]. subst x. by left.
    + by right.
    + destruct Z as [[Z1 Z2]|(Z1 & Z2 & Z3)]; [left|right].
      * split; [done|]. intros x [Hx|Hx%list_elem_of_singleton]%elem_of_app; [by apply Z2|]. subst x. tauto.
      * rewrite exists_app. tauto.
Qed.

Lemma kinds_other dungeons l k id r : kinds_of dungeons l k -> plain id \/ random id ->
  (random id -> r = default 0 (head (in_order dungeons)) /\ (size dungeons <= 1)%nat) -> (~ random id -> r = rDungeonId k) ->
  let result := if isRaid k then LFG_JOIN_MIXED_RAID_DUNGEON else LFG_JOIN_OK in
  result = LFG_JOIN_OK /\ kinds_of dungeons (l ++ [id]) (mkKinds true (isRaid k) r result) \/
  result <> LFG_JOIN_OK /\ bad dungeons (l ++ [id]).
Proof.
  intros [R D Kn Pu Z] Hp Hr1 Hr2. assert (Hn : ~ raid id).
  { unfold raid, plain, random in *. intros Hr. rewrite Hr in Hp. destruct Hp as [[[=]|[=]]|[=]]. }
  destruct (isRaid k) eqn:Ed; cbn.
  - right. split; [done|]. right. left. destruct (proj1 R eq_refl) as (id' & H1 & H2). exists id', id.
    rewrite !elem_of_app, !list_elem_of_singleton. tauto.
  - left. split; [done|]. split; cbn.
    + rewrite exists_app, <- R. split; [done|]. by intros [|].
    + rewrite exists_app. tauto.
    + intros x [Hx|Hx%list_elem_of_singleton]%elem_of_app; [by apply Kn|]. subst x. by right.
    + by left.
    + destruct (decide (random id)) as [Hrand|Hrand]; [right; destruct (Hr1 Hrand); rewrite exists_app; split_and!; auto|]. rewrite (Hr2 Hrand).
      destruct Z as [[Z1 Z2]|(Z1 & Z2 & Z3)]; [left|right].
      * split; [done|]. intros x [Hx|Hx%list_elem_of_singleton]%elem_of_app; [by apply Z2|]. by subst x.
      * rewrite exists_app. tauto.
Qed.

Lemma check_kind_spec dungeons l k id : kinds_of dungeons l k -> kd_result k = LFG_JOIN_OK ->
  let k' := check_kind dungeons k id in
  kd_result k' = LFG_JOIN_OK /\ kinds_of dungeons (l ++ [id]) k' \/ kd_result k' <> LFG_JOIN_OK /\ bad dungeons (l ++ [id]).
Proof.
  intros K Ek. unfold check_kind. rewrite (bool_decide_eq_true_2 _ Ek). cbn [negb].
  assert (Hin : id ∈ l ++ [id]) by (apply elem_of_app; right; left).
  assert (Hbad : ~ (raid id \/ plain id \/ random id) -> bad dungeons (l ++ [id])) by (intros H; left; by exists id).
  fold (type_of id). destruct (type_of id) as [type|] eqn:Et.
  2:{ right. split; [done|]. apply Hbad. unfold raid, plain, random. rewrite Et. intros [[=]|[[[=]|[=]]|[=]]]. }
  destruct (Z.eqb_spec type LFG_TYPE_RAID) as [->|H1]; [by apply kinds_raid|].
  destruct (Z.eqb_spec type LFG_TYPE_RANDOM) as [->|H2].
  { assert (Hr : random id) by done. destruct (Nat.ltb_spec 1 (size dungeons)) as [Hs|Hs].
    - right. split; [by destruct (isRaid k)|]. right. right. by exists id.
    - apply kinds_other; [done|by right|done|done]. }
  destruct ((type =? LFG_TYPE_HEROIC) || (type =? LFG_TYPE_DUNGEON)) eqn:Ep.
  - assert (Hp : plain id).
    { unfold plain. rewrite Et. apply orb_true_iff in Ep as [E%Z.eqb_eq|E%Z.eqb_eq]; rewrite E; auto. }
    assert (Hn : ~ random id) by (unfold random; rewrite Et; intros [=]; done).
    apply kinds_other; [done|by left|done|done].
  - right. split; [done|]. apply Hbad. unfold raid, plain, random. rewrite Et. apply orb_false_iff in Ep as [E1%Z.eqb_neq E2%Z.eqb_neq].
    intros [[=]|[[[=]|[=]]|[=]]]; done.
Qed.

Lemma check_kinds_from dungeons l : let k := foldl (check_kind dungeons) (mkKinds false false 0 LFG_JOIN_OK) l in
  kd_result k = LFG_JOIN_OK /\ kinds_of dungeons l k \/ kd_result k <> LFG_JOIN_OK /\ bad dungeons l.
Proof.
  induction l as [|id l IH] using rev_ind; cbn zeta.
  - left. split; [done|]. split; cbn.
    + split; [done|]. intros (x & H%not_elem_of_nil & _). done.
    + split; [done|]. intros (x & H%not_elem_of_nil & _). done.
    + intros x H%not_elem_of_nil. done.
    + by left.
    + left. split; [done|]. intros x H%not_elem_of_nil. done.
  - rewrite foldl_snoc. set (k := foldl _ _ l) in *. destruct IH as [[Ek K]|[Ek B]]; [by apply check_kind_spec|].
    right. unfold check_kind. rewrite (bool_decide_eq_false_2 _ Ek). cbn [negb]. split; [done|]. by apply bad_more.
Qed.

(** ** A player alone *)

Definition is_random (id : Z) : bool := bool_decide (type_of id = Some LFG_TYPE_RANDOM).

(** The random dungeon that is asked for, if it is one. *)
Definition random_of (dungeons : LfgDungeonSet) : Z :=
  match in_order dungeons with [id] => if is_random id then id else 0 | _ => 0 end.

(** What the player would go to. *)
Definition asked (dungeons : LfgDungeonSet) : LfgDungeonSet :=
  if nz (random_of dungeons) then GetDungeonsByRandom (random_of dungeons) else dungeons.

Definition may_join (player : Joiner) (roles : Z) : bool :=
  jn_permission player && negb (jn_in_battleground player) && negb (jn_deserter player) && negb (jn_cooldown player) &&
  negb (jn_frozen player) && CanPerformSelectedRoles (jn_class player) roles.

Lemma kinds_exclude id : (raid id -> ~ plain id /\ ~ random id) /\ (plain id -> ~ random id).
Proof.
  unfold raid, plain, random. split.
  - intros ->. split; [intros [[=]|[=]]|intros [=]].
  - intros [-> | ->] [=].
Qed.

Lemma singleton_of dungeons id : id ∈ dungeons -> (size dungeons <= 1)%nat -> dungeons = {[id]} /\ in_order dungeons = [id].
Proof.
  intros Hid Hs. rewrite <- in_order_length in Hs. assert (E : in_order dungeons = [id]).
  { rewrite <- elem_of_in_order in Hid. destruct (in_order dungeons) as [|x [|]]; [by apply not_elem_of_nil in Hid| |cbn in Hs; lia].
    by apply list_elem_of_singleton in Hid as ->. }
  split; [|done]. apply leibniz_equiv. intros x. by rewrite <- elem_of_in_order, E, list_elem_of_singleton, elem_of_singleton.
Qed.

Lemma bad_may_not_mix dungeons : bad dungeons (in_order dungeons) -> ~ may_mix dungeons.
Proof.
  intros B M. destruct B as [(x & Hx & B)|[(x & y & Hx & Hy & Hr & Ho)|(x & Hx & Hr & Hs)]]; rewrite ?elem_of_in_order in *.
  - destruct M as [M|[M|(id & -> & M)]]; [apply B; left; by apply M|apply B; right; left; by apply M|].
    apply elem_of_singleton in Hx as ->. tauto.
  - destruct (kinds_exclude x) as [Ex1 Ex2], (kinds_exclude y) as [Ey1 Ey2]. specialize (Ex1 Hr).
    destruct M as [M|[M|(id & -> & M)]]; [specialize (Ey1 (M y Hy)); tauto|by apply (proj1 Ex1), M|].
    apply elem_of_singleton in Hx as ->. tauto.
  - destruct (kinds_exclude x) as [Ex1 Ex2]. destruct M as [M|[M|(id & -> & M)]]; [by apply (Ex1 (M x Hx))|by apply (Ex2 (M x Hx))|].
    rewrite size_singleton in Hs. lia.
Qed.

Lemma check_kinds_spec dungeons : let k := check_kinds dungeons in
  (kd_result k = LFG_JOIN_OK /\ may_mix dungeons /\ rDungeonId k = random_of dungeons /\
   (dungeons <> ∅ -> isRaid k = true <-> forall id, id ∈ dungeons -> raid id)) \/
  (kd_result k <> LFG_JOIN_OK /\ ~ may_mix dungeons).
Proof.
  unfold check_kinds. set (k := foldl _ _ _).
  destruct (check_kinds_from dungeons (in_order dungeons)) as [[E [R D Kn Pu Z]]|[E B]]; fold k in E |- *;
    [left|right; split; [done|by apply bad_may_not_mix]]. fold k in R, D, Pu, Z.
  setoid_rewrite elem_of_in_order in R. setoid_rewrite elem_of_in_order in D. setoid_rewrite elem_of_in_order in Kn.
  setoid_rewrite elem_of_in_order in Z. clearbody k.
  assert (Hall : isRaid k = true -> forall id, id ∈ dungeons -> raid id).
  { intros Hr id Hid. destruct Pu as [Pu|Pu]; [congruence|]. destruct (Kn id Hid) as [|Ho]; [done|].
    rewrite (proj2 D) in Pu; [done|]. by exists id. }
  split; [done|]. split; [|split].
  - destruct (isRaid k) eqn:Er; [left; by apply Hall|]. destruct Z as [[_ Z2]|(_ & (x & Hx & Hr) & Hs)].
    + right. left. intros id Hid. destruct (Kn id Hid) as [Hr|[Hp|Hr]]; [|done|by apply Z2 in Hr].
      discriminate (proj2 R). by exists id.
    + right. right. exists x. split; [by apply singleton_of|done].
  - destruct Z as [[-> Z2]|(-> & (x & Hx & Hr) & Hs)].
    + unfold random_of. destruct (in_order dungeons) as [|x [|]] eqn:Eo; [done| |done]. unfold is_random.
      rewrite bool_decide_eq_false_2; [done|]. apply Z2. rewrite <- elem_of_in_order, Eo. left.
    + destruct (singleton_of dungeons x Hx Hs) as [_ Eo]. unfold random_of. rewrite Eo. unfold is_random. by rewrite bool_decide_eq_true_2.
  - intros Hne. split; [apply Hall|]. intros H. apply R. apply set_choose_L in Hne as [id Hid]. exists id. auto.
Qed.

Lemma check_joiner_alone player roles dungeons : dungeons <> ∅ ->
  (may_join player roles = true /\ check_joiner false player None roles dungeons = (LFG_JOIN_OK, {[jn_guid player]})) \/
  (may_join player roles = false /\ exists result, check_joiner false player None roles dungeons = (result, ∅) /\ result <> LFG_JOIN_OK).
Proof.
  intros Hd. unfold check_joiner, may_join. rewrite (bool_decide_eq_false_2 _ Hd). cbn [negb andb].
  destruct (jn_permission player); cbn; [|right; eauto].
  destruct (jn_in_battleground player); cbn; [right; eauto|]. destruct (jn_deserter player); cbn; [right; eauto|].
  destruct (jn_cooldown player); cbn; [right; eauto|]. destruct (jn_frozen player); cbn; [right; eauto|].
  destruct (CanPerformSelectedRoles _ _); cbn; [left|right]; eauto.
Qed.

(** The player waits in the queue [t], last of all, for [available], and shows
    for it as [state] with the roles chosen; nobody else is touched. *)
Record Joined (now t guid roles : Z) (available shown : LfgDungeonSet) (comment : string) (state : LfgState) (s s' : LFGMgr) : Prop := {
  jd_data : QueueDataStore (queue_at t s') = <[guid := LfgQueueData_make (Mgr := manager now s) now available {[guid := roles]}]> (QueueDataStore (queue_at t s));
  jd_new : newToQueueStore (queue_at t s') = newToQueueStore (queue_at t s) ++ [guid];
  jd_current : currentQueueStore (queue_at t s') = currentQueueStore (queue_at t s);
  jd_cache : CompatibleMapStore (queue_at t s') = CompatibleMapStore (queue_at t s);
  jd_queues : forall id, id <> t -> queue_at id s' = queue_at id s;
  jd_state : GetState guid s' = state;
  jd_roles : GetRoles guid s' = roles;
  jd_comment : GetComment guid s' = comment;
  jd_selected : GetSelectedDungeons guid s' = shown;
  jd_others : forall g, g <> guid -> player_data g s' = player_data g s;
  jd_groups : GroupsStore s' = GroupsStore s;
  jd_checks : RoleChecksStore s' = RoleChecksStore s;
  jd_proposals : ProposalsStore s' = ProposalsStore s;
  jd_boots : BootsStore s' = BootsStore s
}.

Lemma AddQueueData_fields `{Mgr : LfgManager} guid now dungeons roles q : let q' := AddQueueData guid now dungeons roles q in
  QueueDataStore q' = <[guid := LfgQueueData_make now dungeons roles]> (QueueDataStore q) /\
  newToQueueStore q' = newToQueueStore q ++ [guid] /\ currentQueueStore q' = currentQueueStore q /\
  CompatibleMapStore q' = CompatibleMapStore q.
Proof. unfold AddQueueData, AddToQueue. cbn. by rewrite lookup_insert_eq. Qed.

Lemma queue_player_joined now (raiding : bool) guid roles rd dungeons comment ticket s : IsGroup guid = false ->
  Joined now (GetQueueId guid s) guid roles dungeons (if nz rd then {[rd]} else dungeons) (GetComment guid s)
    (if raiding then LFG_STATE_RAIDBROWSER else LFG_STATE_QUEUED) s (queue_player now false raiding guid roles rd dungeons comment ticket s).
Proof.
  intros Hg. set (s' := queue_player now false raiding guid roles rd dungeons comment ticket s).
  set (shown := if nz rd then {[rd]} else dungeons).
  assert (Hq : QueuesStore s' = QueuesStore (queue_AddQueueData now guid dungeons {[guid := roles]} s))
    by (unfold s', queue_player, SetState; by rewrite Hg).
  assert (Hqa : forall id, queue_at id s' = queue_at id (queue_AddQueueData now guid dungeons {[guid := roles]} s))
    by (intros id; unfold queue_at; by rewrite Hq).
  assert (Ht : queue_at (GetQueueId guid s) s' = AddQueueData (Mgr := manager now s) guid now dungeons {[guid := roles]} (queue_at (GetQueueId guid s) s)).
  { rewrite Hqa. unfold queue_AddQueueData. by rewrite queue_at_on, decide_True. }
  destruct (AddQueueData_fields (Mgr := manager now s) guid now dungeons {[guid := roles]} (queue_at (GetQueueId guid s) s)) as (A1 & A2 & A3 & A4).
  assert (Hp : exists d, PlayersStore s' = <[guid := player_SetState (if raiding then LFG_STATE_RAIDBROWSER else LFG_STATE_QUEUED) d]> (PlayersStore s) /\
    m_Roles d = roles /\ m_Comment d = GetComment guid s /\ m_SelectedDungeons d = shown).
  { unfold s', queue_player, SetState. rewrite Hg. cbn [negb andb]. fold shown. cbn. eexists. rewrite !insert_insert_eq. split; [done|].
    repeat change (player_data guid (send ?m ?x)) with (player_data guid x).
    unfold SetRoles, SetTicket, SetSelectedDungeons. by repeat (rewrite player_data_on, decide_True by done; cbn). }
  destruct Hp as (d & Hp & D1 & D2 & D3).
  assert (Hd : forall g, player_data g s' = if decide (g = guid) then player_SetState (if raiding then LFG_STATE_RAIDBROWSER else LFG_STATE_QUEUED) d else player_data g s).
  { intros g. unfold player_data. rewrite Hp. case_decide as E; [by rewrite E, lookup_insert_eq|by rewrite lookup_insert_ne]. }
  split; rewrite ?Ht; try done.
  - intros id Hid. rewrite Hqa. unfold queue_AddQueueData. by rewrite queue_at_on, decide_False.
  - unfold GetState. rewrite Hg, Hd, decide_True by done. by destruct raiding.
  - unfold GetRoles. rewrite Hd, decide_True by done. by destruct raiding.
  - unfold GetComment. rewrite Hd, decide_True by done. by destruct raiding.
  - unfold GetSelectedDungeons. rewrite Hd, decide_True by done. by destruct raiding.
  - intros g Hne. by rewrite Hd, decide_False.
  - unfold s', queue_player, SetState. by rewrite Hg.
  - unfold s', queue_player, SetState. by rewrite Hg.
  - unfold s', queue_player, SetState. by rewrite Hg.
  - unfold s', queue_player, SetState. by rewrite Hg.
Qed.

Lemma Joined_from now t guid roles available shown comment state f s s' : same_place (player_data guid s) (f (player_data guid s)) ->
  Joined now t guid roles available shown comment state (on_player guid f s) s' ->
  Joined now t guid roles available shown comment state s s'.
Proof.
  intros Hf [J1 J2 J3 J4 J5 J6 J7 J8 J9 J10 J11 J12 J13 J14]. split; try done.
  intros g Hg. rewrite J10 by done. by rewrite player_data_on, decide_False.
Qed.

Lemma on_player_twice guid f g s : on_player guid g (on_player guid f s) = on_player guid (fun d => g (f d)) s.
Proof. unfold on_player, player_data. cbn. by rewrite lookup_insert_eq, insert_insert_eq. Qed.

(** What is left of a place in the queue when one asks again. *)
Definition asked_again (now guid : Z) (s : LFGMgr) : LFGMgr :=
  if bool_decide (GetState guid s = LFG_STATE_QUEUED) then queue_Remove (GetQueueId guid s) now guid s else s.

(** C18. A player without a group who asks for dungeons gets an answer. If nothing
    forbids the player to join, the dungeons may be asked for together, and the
    player is not locked out of all that they stand for, the player waits for
    exactly those that are left, last in the queue of the side, with the roles
    chosen, as somebody who looks for a raid if all are raids. Otherwise the
    player is told why, and nothing else happens, but that a place in the queue
    from before is lost. *)
Theorem join_alone now player roles dungeons comment s : IsGroup (jn_guid player) = false -> dungeons <> ∅ ->
  let guid := jn_guid player in
  exists s' available, JoinLfg now player None roles dungeons comment s = Some s' /\
    (forall id, id ∈ available <-> id ∈ asked dungeons /\ ~ locked guid id) /\
    ((may_join player roles = true /\ may_mix dungeons /\ available <> ∅ /\
      exists state, (state = LFG_STATE_RAIDBROWSER /\ (forall id, id ∈ dungeons -> raid id) \/
                     state = LFG_STATE_QUEUED /\ ~ (forall id, id ∈ dungeons -> raid id)) /\
        Joined now (GetQueueId guid s) guid roles available (if nz (random_of dungeons) then {[random_of dungeons]} else available)
          comment state (asked_again now guid s) s') \/
     (~ (may_join player roles = true /\ may_mix dungeons /\ available <> ∅) /\
      exists result, result <> LFG_JOIN_OK /\ s' = send (SendLfgJoinResult guid result LFG_ROLECHECK_DEFAULT) (asked_again now guid s))).
Proof.
  intros Hg Hd guid. destruct (GetCompatibleDungeons_new [guid] (asked dungeons) ∅) as (left & EL & HL).
  assert (HL' : forall id, id ∈ left <-> id ∈ asked dungeons /\ ~ locked guid id).
  { intros id. rewrite HL. split; intros [H1 H2]; (split; [done|]); [apply H2; left|]. by intros g ->%list_elem_of_singleton. }
  unfold JoinLfg. rewrite (bool_decide_eq_false_2 _ Hd). cbn [default fmap option_fmap option_map].
  change (default (jn_guid player) _) with guid. fold (asked_again now guid s). set (s0 := asked_again now guid s).
  destruct (check_joiner_alone player roles dungeons Hd) as [[Hj ->]|(Hj & result & -> & Hr)].
  2:{ rewrite (bool_decide_eq_false_2 _ Hr). cbn [mbind option_bind kd_result]. rewrite (bool_decide_eq_false_2 _ Hr). cbn [negb].
      eexists _, left. split; [done|]. split; [done|]. right. split; [|by exists result]. intros (H & _). congruence. }
  rewrite (bool_decide_eq_true_2 (LFG_JOIN_OK = LFG_JOIN_OK)) by done. change (bool_decide (is_Some (@None JoinGroup))) with false.
  unfold check_dungeons_of. destruct (check_kinds_spec dungeons) as [(Ek & Hm & Er & Hraid)|(Ek & Hm)].
  2:{ rewrite (bool_decide_eq_false_2 _ Ek). cbn [mbind option_bind negb]. rewrite (bool_decide_eq_false_2 _ Ek). cbn [negb].
      eexists _, left.
    split; [done|]. split; [done|]. right. split; [tauto|]. by eexists. }
  rewrite (bool_decide_eq_true_2 _ Ek). cbn [negb]. rewrite Er. fold (asked dungeons).
  assert (Eg : in_order {[jn_guid player]} = [guid]) by (apply (singleton_of {[guid]} guid); [by apply elem_of_singleton|by rewrite size_singleton]).
  rewrite Eg, EL. cbn [mbind option_bind]. destruct (decide (left = ∅)) as [El|El];
    [rewrite (bool_decide_eq_true_2 _ El)|rewrite (bool_decide_eq_false_2 _ El)]; cbn [kd_result rDungeonId isRaid].
  { rewrite (bool_decide_eq_false_2 (LFG_JOIN_NOT_MEET_REQS = LFG_JOIN_OK)) by done. cbn [negb]. eexists _, left.
    split; [done|]. split; [done|]. right. split; [tauto|]. by exists LFG_JOIN_NOT_MEET_REQS. }
  rewrite (bool_decide_eq_true_2 _ Ek). cbn [negb]. rewrite Er. eexists _, left. split; [done|]. split; [done|]. left.
  split; [done|]. split; [done|]. split; [done|]. exists (if isRaid (check_kinds dungeons) then LFG_STATE_RAIDBROWSER else LFG_STATE_QUEUED).
  split.
  { destruct (isRaid (check_kinds dungeons)); [left|right]; (split; [done|]); [by apply Hraid|]. intros H. by apply Hraid in H. }
  fold guid. change (if bool_decide (GetState guid s = LFG_STATE_QUEUED) then _ else s) with s0.
  match goal with |- Joined _ _ _ _ _ _ _ _ _ (queue_player _ _ _ _ _ _ _ _ ?ticket ?x) => set (s1 := x); generalize ticket end.
  intros ticket. assert (H1 : exists f, s1 = on_player guid f s0 /\ forall d, same_place d (f d) /\ m_Comment (f d) = comment).
  { unfold s1. destruct (_ && _ && _); [|by exists (fun d => player_Choose (m_Roles d) comment (m_SelectedDungeons d) d)].
    unfold SetEnligibleForShortageRewards, SetComment. rewrite on_player_twice. eexists. by split. }
  destruct H1 as (f & -> & Hf). destruct (Hf (player_data guid s0)) as [Hf1 Hf2].
  assert (Et : GetQueueId guid (on_player guid f s0) = GetQueueId guid s).
  { rewrite (places_queue _ _ _ (places_on_player guid f s0 Hf1)). unfold s0, asked_again. by case_bool_decide. }
  apply (Joined_from _ _ _ _ _ _ _ _ f); [done|]. rewrite <- Et. replace comment with (GetComment guid (on_player guid f s0)) at 1.
  - by apply queue_player_joined.
  - unfold GetComment. by rewrite player_data_on, decide_True.
Qed.

End JoinSpec.

(** ** One who asks, and two who ask at once *)

(** Any tank may play the dungeon alone. *)
Definition solo_server : LfgServer := {|
  sv_dungeon := fun id => if id =? 1 then Some (mkDungeon 1 LFG_TYPE_DUNGEON 1 0 0) else None;
  sv_random_dungeons := [];
  sv_ignores := fun _ _ => false;
  sv_lfg_group := fun _ => false;
  sv_lfr_group := fun _ => false;
  form_group := fun _ _ s => Some (0x1F50000000000099, s);
  remove_from_group := fun _ _ s => s
|}.

Definition open_locks : LfgLocks := {|
  GetLockedDungeons := fun _ => [];
  GetBoundInstance := fun _ _ => None;
  GetDungeonsByRandom := fun _ => ∅;
  FindConnectedPlayer := fun _ => true
|}.

Definition warrior (guid : Z) (deserter : bool) : Joiner := mkJoiner guid true false deserter false false CLASS_WARRIOR.

Definition ask (player : Joiner) (s : LFGMgr) : option LFGMgr :=
  JoinLfg (Server := solo_server) (Locks := open_locks) 900 player None PLAYER_ROLE_TANK {[1]} "" s.

(** Where a player stands. *)
Definition standing (guid : Z) (s : LFGMgr) : LfgState * list Z := (GetState guid s, newToQueueStore (queue_at (GetQueueId guid s) s)).

Lemma join_alone_witness : exists s', ask (warrior 1 false) (LFGMgr_default 1) = Some s' /\ standing 1 s' = (LFG_STATE_QUEUED, [1]).
Proof.
  destruct (join_alone (Server := solo_server) (Locks := open_locks) 900 (warrior 1 false) PLAYER_ROLE_TANK {[1]} "" (LFGMgr_default 1))
    as (s' & available & E & _ & H).
  - by vm_compute.
  - intros H. apply (f_equal size) in H. by vm_compute in H.
  - exists s'. split; [exact E|]. pose proof (f_equal (fun r => standing 1 (default (LFGMgr_default 1) r)) E) as Es.
    change (standing 1 s' = (LFG_STATE_QUEUED, [1])). etrans; [exact (eq_sym Es)|]. vm_compute. reflexivity.
Defined.

(** Who asks again and may not is in the queue by state only. *)
Lemma refused_again_is_lost : (s ← ask (warrior 1 false) (LFGMgr_default 1); s ← ask (warrior 1 true) s; Some (standing 1 s)) =
  Some (LFG_STATE_QUEUED, []).
Proof. vm_compute. reflexivity. Qed.

(** Of two who find their groups in one update, one of each side, only the
    second is told. *)
Definition two_sides : option LFGMgr :=
  s ← ask (warrior 1 false) (LFGMgr_default 1);
  s ← ask (warrior 2 false) (SetTeam false 2 1 s);
  Update (Server := solo_server) 100 901 [] s.

Lemma first_proposal_unannounced :
  (s ← two_sides; Some (in_order (dom (ProposalsStore s)), GetState 1 s, GetState 2 s)) =
  Some ([1; 2], LFG_STATE_QUEUED, LFG_STATE_PROPOSAL).
Proof. vm_compute. reflexivity. Qed.
