(* ===== verification/LfgRoleCheckSpec.v ===== *)
(** What a role check comes to: the group is queued with the roles everybody
    chose, or everything is as it was before. *)
From Stdlib Require Import ZArith Lia String Ascii.
From stdpp Require Import base gmap list strings.
From S2P Require Import Prelude LfgRoles LfgRolesSpec LfgQueue LfgTimers LfgMgr LfgMgrBase.

Open Scope Z_scope.
Open Scope tc_scope.

Section RoleCheck.
Context `{Server : LfgServer}.

(** ** Answers

    A player and the roles chosen; the guid 0 when somebody left. *)

Definition refused (answer : Z * Z) : bool := negb (nz answer.1) || (answer.2 <? PLAYER_ROLE_TANK).

Definition record_answer (roles : LfgRolesMap) (answer : Z * Z) : LfgRolesMap :=
  if refused answer then roles else <[answer.1 := answer.2]> roles.

Definition recorded (rc : LfgRoleCheck) (answers : list (Z * Z)) : LfgRolesMap := foldl record_answer (rc_roles rc) answers.

Definition complete (roles : LfgRolesMap) : Prop := map_Forall (fun _ v => v <> PLAYER_ROLE_NONE) roles.

(** Nobody refused, and somebody has not answered. *)
Definition undecided (rc : LfgRoleCheck) (answers : list (Z * Z)) : Prop :=
  Forall (fun answer => refused answer = false) answers /\ (answers <> [] -> ~ complete (recorded rc answers)).

Definition can_fill (rc : LfgRoleCheck) (roles : LfgRolesMap) : Prop :=
  exists dungeon a, check_dungeon rc = Some dungeon /\ Fits dungeon roles a.

Fixpoint answer_all (now gguid : Z) (answers : list (Z * Z)) (s : LFGMgr) : option LFGMgr :=
  match answers with
  | [] => Some s
  | (guid, roles) :: answers => s ← UpdateRoleCheck now gguid guid roles s; answer_all now gguid answers s
  end.

(** ** Outcomes *)

Definition untouched (roles : LfgRolesMap) (gguid : Z) (s s' : LFGMgr) : Prop :=
  forall guid, guid <> gguid -> roles !! guid = None -> GetState guid s' = GetState guid s.

Record Queued (now gguid : Z) (dungeons : LfgDungeonSet) (roles : LfgRolesMap) (s s' : LFGMgr) : Prop := {
  qd_group : GetState gguid s' = LFG_STATE_QUEUED;
  qd_members : forall guid v, roles !! guid = Some v -> GetState guid s' = LFG_STATE_QUEUED /\ GetRoles guid s' = v;
  qd_others : untouched roles gguid s s';
  qd_entry : exists d, QueueDataStore (queue_at (GetQueueId gguid s) s') !! gguid = Some d /\
    qd_roles d = roles /\ qd_dungeons d = dungeons /\ joinTime d = now;
  qd_new : newToQueueStore (queue_at (GetQueueId gguid s) s') = newToQueueStore (queue_at (GetQueueId gguid s) s) ++ [gguid];
  qd_current : currentQueueStore (queue_at (GetQueueId gguid s) s') = currentQueueStore (queue_at (GetQueueId gguid s) s);
  qd_queues : forall id, id <> GetQueueId gguid s -> queue_at id s' = queue_at id s
}.

Record Restored (gguid : Z) (roles : LfgRolesMap) (s s' : LFGMgr) : Prop := {
  rs_group : GetState gguid s' = GetOldState gguid s;
  rs_members : forall guid, is_Some (roles !! guid) -> GetState guid s' = GetOldState guid s;
  rs_others : untouched roles gguid s s';
  rs_queues : QueuesStore s' = QueuesStore s
}.

(** ** The loop that notifies the players *)

Definition queue_member (roles : LfgRolesMap) (guid : Z) (d : LfgPlayerData) : LfgPlayerData :=
  player_Choose (roles !!! guid) (m_Comment d) (m_SelectedDungeons d) (player_SetState LFG_STATE_QUEUED d).

Definition check_change (rc : LfgRoleCheck) (guid : Z) (d : LfgPlayerData) : LfgPlayerData :=
  match rc_state rc with
  | LFG_ROLECHECK_INITIALITING => d
  | LFG_ROLECHECK_FINISHED => queue_member (rc_roles rc) guid d
  | _ => player_RestoreState d
  end.

Lemma notify_check_step chosen rc s p : IsGroup p = false ->
  stores_kept s (notify_check chosen rc s p) /\ GroupsStore (notify_check chosen rc s p) = GroupsStore s /\
  forall q, player_data q (notify_check chosen rc s p) = if decide (q = p) then check_change rc p (player_data p s) else player_data q s.
Proof.
  intros Hp. unfold notify_check, check_change. set (s0 := match chosen with Some _ => _ | None => s end).
  assert (H0 : stores_kept s s0 /\ GroupsStore s0 = GroupsStore s /\ PlayersStore s0 = PlayersStore s)
    by (unfold s0; by destruct chosen as [[]|]).
  destruct H0 as (K & G & P). assert (Hd : forall q, player_data q s0 = player_data q s) by (intros q; unfold player_data; by rewrite P).
  assert (Hrest : forall s1, stores_kept s0 s1 -> GroupsStore s1 = GroupsStore s0 -> (forall q, player_data q s1 = player_data q s0) ->
    stores_kept s (RestoreState p s1) /\ GroupsStore (RestoreState p s1) = GroupsStore s /\
    forall q, player_data q (RestoreState p s1) = if decide (q = p) then player_RestoreState (player_data p s) else player_data q s).
  { intros s1 K1 G1 P1. unfold RestoreState. rewrite Hp. split; [|split].
    - etrans; [exact K|]. etrans; [exact K1|apply stores_on_player].
    - cbn. congruence.
    - intros q. by rewrite player_data_on, !P1, !Hd. }
  destruct (rc_state rc).
  4,5,6,7: apply Hrest; by destruct (rc_leader rc =? p).
  - apply Hrest; by destruct (rc_leader rc =? p).
  - unfold SetState. rewrite Hp. split; [|split]; [|done|].
    + by destruct K.
    + intros q. unfold SetRoles. cbn [player_data send]. etrans; [apply player_data_on|].
      rewrite !player_data_on. case_decide as E; [|by rewrite <- Hd].
      rewrite decide_True by done. by rewrite <- Hd.
  - split; [by destruct K|]. split; [done|]. intros q. case_decide as E; [rewrite E|]; apply Hd.
Qed.

Lemma notify_check_all chosen rc s : map_Forall (fun guid _ => IsGroup guid = false) (rc_roles rc) ->
  let s' := foldl (notify_check chosen rc) s (guids (rc_roles rc)) in
  stores_kept s s' /\ GroupsStore s' = GroupsStore s /\
  forall guid, player_data guid s' = if decide (is_Some (rc_roles rc !! guid)) then check_change rc guid (player_data guid s) else player_data guid s.
Proof.
  intros Hg. destruct (foldl_players (notify_check chosen rc) (check_change rc) (guids (rc_roles rc))) with (s := s) as (H1 & H2 & H3).
  - intros s0 p [v Hp]%elem_of_guids. by apply notify_check_step, (Hg p v).
  - apply guids_nodup.
  - split; [done|]. split; [done|]. intros guid. rewrite H3.
    destruct (decide (guid ∈ _)) as [E|E]; rewrite elem_of_guids in E; [by rewrite decide_True|by rewrite decide_False].
Qed.

(** ** One answer *)

Lemma all_chosen_spec roles : all_chosen roles = true <-> complete roles.
Proof.
  unfold all_chosen, complete. rewrite forallb_forall. split.
  - intros H guid v Hv. specialize (H guid). rewrite <- list_elem_of_In, elem_of_guids, (lookup_role _ _ _ Hv) in H.
    apply Z.eqb_neq, negb_true_iff, H. by exists v.
  - intros H guid. rewrite <- list_elem_of_In, elem_of_guids. intros [v Hv]. rewrite (lookup_role _ _ _ Hv).
    apply negb_true_iff, Z.eqb_neq. by apply (H guid).
Qed.

(** What is asked of a check and its answers: players, roles of eight bits,
    not too many, and a dungeon whose numbers are not negative. *)
Record check_ok (rc : LfgRoleCheck) (answers : list (Z * Z)) : Prop := {
  co_roles : map_Forall (fun guid v => IsGroup guid = false /\ 0 <= v < 2 ^ 8) (rc_roles rc);
  co_answers : Forall (fun answer => IsGroup answer.1 = false /\ 0 <= answer.2 < 2 ^ 8) answers;
  co_size : Z.of_nat (size (rc_roles rc) + length answers) < 2 ^ 8;
  co_dungeon : forall dungeon, check_dungeon rc = Some dungeon -> dungeon_ok dungeon
}.

Lemma check_ok_next rc answer answers : check_ok rc (answer :: answers) ->
  check_ok (set_check_roles (record_answer (rc_roles rc) answer) rc) answers.
Proof.
  intros [R A S D]. inversion_clear A as [|? ? A1 A2]. split; [|done| |done]; cbn [rc_roles set_check_roles]; unfold record_answer.
  - destruct (refused answer); [done|]. by apply map_Forall_insert_2.
  - cbn [length] in S. destruct (refused answer); [lia|].
    destruct (rc_roles rc !! answer.1) eqn:E; [rewrite map_size_insert_Some by done|rewrite map_size_insert_None by done]; lia.
Qed.

Lemma check_ok_roles rc answers : check_ok rc answers -> roles_ok (rc_roles rc).
Proof. intros [R _ S _]. split; [lia|]. intros guid v Hv. by apply (R guid v). Qed.

(** The check that an answer leads to. *)
Lemma choose_role_spec guid roles answers rc : check_ok rc ((guid, roles) :: answers) ->
  rc_state rc = LFG_ROLECHECK_INITIALITING ->
  exists rc', choose_role guid roles rc = Some rc' /\ rc_roles rc' = record_answer (rc_roles rc) (guid, roles) /\
    rc_dungeons rc' = rc_dungeons rc /\ rc_leader rc' = rc_leader rc /\
    match rc_state rc' with
    | LFG_ROLECHECK_INITIALITING =>
        rc' = set_check_roles (rc_roles rc') rc /\ refused (guid, roles) = false /\ ~ complete (rc_roles rc')
    | LFG_ROLECHECK_FINISHED => refused (guid, roles) = false /\ complete (rc_roles rc') /\ can_fill rc (rc_roles rc')
    | _ => refused (guid, roles) = true \/ complete (rc_roles rc') /\ ~ can_fill rc (rc_roles rc')
    end.
Proof.
  intros Hok Hst. pose proof (check_ok_roles _ _ (check_ok_next _ _ _ Hok)) as Hroles. cbn [rc_roles set_check_roles] in Hroles.
  unfold choose_role, record_answer, refused in *. cbn [fst snd] in *. destruct (nz guid) eqn:Eg; cbn [negb orb] in *.
  2: { eexists. split; [done|]. cbn. auto. }
  destruct (roles <? PLAYER_ROLE_TANK) eqn:Er.
  { eexists. split; [done|]. cbn. auto. }
  destruct (all_chosen _) eqn:Ec; cbn [rc_roles set_check_roles] in Ec.
  2: { eexists. split; [done|]. split_and!; try done. cbn [rc_state set_check_roles]. rewrite Hst. split; [done|]. split; [done|].
       cbn. intros Hc%all_chosen_spec. congruence. }
  apply all_chosen_spec in Ec. change (check_dungeon (set_check_roles _ rc)) with (check_dungeon rc).
  destruct (check_dungeon rc) as [dungeon|] eqn:Ed.
  2: { eexists. split; [done|]. split_and!; try done. right. split; [done|]. intros (d & a & Hd & _). by rewrite Ed in Hd. }
  destruct (Verdict_cases _ _ _ (CheckGroupRoles_decides dungeon _ (co_dungeon _ _ Hok _ Ed) Hroles)) as [(a & Ha & E)|[Hn E]];
    cbn [rc_roles set_check_roles]; rewrite E; (eexists; split; [done|]; split_and!; try done).
  - cbn. split; [done|]. split; [done|]. by exists dungeon, a.
  - right. split; [done|]. intros (d & a & Hd & Ha). apply Hn. exists a. rewrite Ed in Hd. by simplify_eq.
Qed.

(** What an open check leaves alone. *)
Definition quiet_step (s s' : LFGMgr) : Prop :=
  (forall guid, player_data guid s' = player_data guid s) /\ GroupsStore s' = GroupsStore s /\ QueuesStore s' = QueuesStore s.

Lemma quiet_states s s' : quiet_step s s' ->
  (forall guid, GetState guid s' = GetState guid s) /\ (forall guid, GetOldState guid s' = GetOldState guid s) /\
  (forall guid, GetQueueId guid s' = GetQueueId guid s) /\ (forall id, queue_at id s' = queue_at id s).
Proof.
  intros (P & G & Q). unfold GetState, GetOldState, GetQueueId, GetPlayers, GetTeam, queue_at, group_data.
  split_and!; intros guid; by rewrite ?P, ?G, ?Q.
Qed.

Lemma Queued_quiet now gguid dungeons roles s s1 s' : quiet_step s s1 -> Queued now gguid dungeons roles s1 s' ->
  Queued now gguid dungeons roles s s'.
Proof.
  intros Hq [H1 H2 H3 H4 H5 H6 H7]. destruct (quiet_states _ _ Hq) as (ES & EO & EQ & ED). rewrite EQ in H4, H5, H6, H7.
  split; try done.
  - intros guid Hne Hg. by rewrite H3, ES.
  - by rewrite H5, ED.
  - by rewrite H6, ED.
  - intros id Hid. by rewrite H7, ED.
Qed.

Lemma Restored_quiet gguid roles s s1 s' : quiet_step s s1 -> Restored gguid roles s1 s' -> Restored gguid roles s s'.
Proof.
  intros Hq [H1 H2 H3 H4]. destruct (quiet_states _ _ Hq) as (ES & EO & _). split.
  - by rewrite H1, EO.
  - intros guid Hg. by rewrite H2, EO.
  - intros guid Hne Hg. by rewrite H3, ES.
  - rewrite H4. apply Hq.
Qed.

Lemma AddQueueData_entry now guid dungeons roles s : let s' := queue_AddQueueData now guid dungeons roles s in
  let id := GetQueueId guid s in
  (exists d, QueueDataStore (queue_at id s') !! guid = Some d /\ qd_roles d = roles /\ qd_dungeons d = dungeons /\ joinTime d = now) /\
  newToQueueStore (queue_at id s') = newToQueueStore (queue_at id s) ++ [guid] /\
  currentQueueStore (queue_at id s') = currentQueueStore (queue_at id s) /\
  forall id', id' <> id -> queue_at id' s' = queue_at id' s.
Proof.
  intros s' id. set (d := @LfgQueueData_make (manager now s) now dungeons roles).
  assert (Hd : qd_roles d = roles /\ qd_dungeons d = dungeons /\ joinTime d = now).
  { unfold d, LfgQueueData_make, InitializeGroupSetup. destruct (in_order _); [done|]. by destruct (GetLFGDungeon _). }
  set (q := set_data (<[guid := d]> (QueueDataStore (queue_at id s))) (queue_at id s)).
  assert (Eq : queue_at id s' = set_new (newToQueueStore (queue_at id s) ++ [guid]) q).
  { unfold s', queue_AddQueueData, on_queue, queue_at at 1. cbn [QueuesStore set_queues]. fold id.
    rewrite lookup_insert_eq. cbn [default from_option]. unfold AddQueueData, AddToQueue. fold d. fold q.
    replace (QueueDataStore q !! guid) with (Some d) by (symmetry; apply lookup_insert_eq). done. }
  split_and!; rewrite ?Eq; try done.
  - exists d. split; [apply lookup_insert_eq|exact Hd].
  - intros id' Hne. unfold s', queue_AddQueueData, on_queue, queue_at at 1. cbn [QueuesStore set_queues].
    rewrite lookup_insert_ne; [done|]. intros E. by apply Hne.
Qed.

(** *** After the loop *)

Section Loop.
Context (now gguid : Z) (rc : LfgRoleCheck) (s s1 : LFGMgr).
Hypothesis Hgg : IsGroup gguid = true.
Hypothesis Hm : map_Forall (fun guid _ => IsGroup guid = false) (rc_roles rc).
Hypothesis HK : QueuesStore s1 = QueuesStore s.
Hypothesis HG : GroupsStore s1 = GroupsStore s.
Hypothesis HP : forall guid, player_data guid s1 =
  if decide (is_Some (rc_roles rc !! guid)) then check_change rc guid (player_data guid s) else player_data guid s.

Lemma loop_others guid : rc_roles rc !! guid = None -> GetState guid s1 = GetState guid s.
Proof. intros E. unfold GetState, group_data. rewrite HG, HP, E. by rewrite decide_False by by intros []. Qed.

Lemma loop_members guid v : rc_roles rc !! guid = Some v -> player_data guid s1 = check_change rc guid (player_data guid s).
Proof. intros Hv. by rewrite HP, decide_True by by exists v. Qed.

Lemma loop_group : GetOldState gguid s1 = GetOldState gguid s.
Proof. unfold GetOldState, group_data. by rewrite HG, Hgg. Qed.

Lemma loop_places : places_kept s s1.
Proof.
  assert (Hpl : forall g d, same_place d (check_change rc g d)).
  { intros g d. unfold check_change. destruct (rc_state rc); try done; apply player_RestoreState_place. }
  split; intros g; unfold GetTeam, GetGroup, GetPlayers, group_data; rewrite ?HP, ?HG; try done;
    (destruct (decide _); [apply Hpl|done]).
Qed.

(** The check failed. *)
Lemma loop_restores : rc_state rc <> LFG_ROLECHECK_INITIALITING -> rc_state rc <> LFG_ROLECHECK_FINISHED ->
  Restored gguid (rc_roles rc) s (RestoreState gguid s1).
Proof.
  intros H1 H2. assert (Hold : forall g v, rc_roles rc !! g = Some v -> GetState g s1 = GetOldState g s).
  { intros g v Hv. unfold GetState, GetOldState. rewrite (Hm g v Hv), (loop_members g v Hv). unfold check_change.
    destruct (rc_state rc); try done; apply player_RestoreState_state. }
  split.
  - rewrite GetState_RestoreState, decide_True by done. apply loop_group.
  - intros g [v Hv]. rewrite GetState_RestoreState. case_decide as E; [rewrite E; apply loop_group|by eapply Hold].
  - intros g Hne Hg. rewrite GetState_RestoreState, decide_False by done. by apply loop_others.
  - by rewrite (sk_queues _ _ (proj1 (RestoreState_kept gguid s1))).
Qed.

(** The check is finished. *)
Lemma loop_queues : rc_state rc = LFG_ROLECHECK_FINISHED ->
  Queued now gguid (rc_dungeons rc) (rc_roles rc) s
    (queue_AddQueueData now gguid (rc_dungeons rc) (rc_roles rc) (SetState gguid LFG_STATE_QUEUED s1)).
Proof.
  intros Hst. destruct (SetState_kept gguid LFG_STATE_QUEUED s1) as [K2 P2]. set (s2 := SetState gguid LFG_STATE_QUEUED s1) in *.
  assert (Eid : GetQueueId gguid s2 = GetQueueId gguid s) by (rewrite (places_queue _ _ _ P2); exact (places_queue _ _ _ loop_places)).
  assert (Eqs : forall id, queue_at id s2 = queue_at id s)
    by (intros id; rewrite (queue_at_kept _ _ _ K2); unfold queue_at; by rewrite HK).
  destruct (AddQueueData_entry now gguid (rc_dungeons rc) (rc_roles rc) s2) as (A1 & A2 & A3 & A4).
  rewrite Eid in A1, A2, A3, A4. set (s3 := queue_AddQueueData now gguid (rc_dungeons rc) (rc_roles rc) s2) in *.
  assert (HSt : forall g, GetState g s3 = if decide (g = gguid) then LFG_STATE_QUEUED else GetState g s1)
    by (intros g; exact (GetState_SetState gguid LFG_STATE_QUEUED s1 g)).
  assert (Hin : forall g v, rc_roles rc !! g = Some v -> player_data g s1 = queue_member (rc_roles rc) g (player_data g s)).
  { intros g v Hv. rewrite (loop_members g v Hv). unfold check_change. by rewrite Hst. }
  split.
  - by rewrite HSt, decide_True.
  - intros g v Hv. split.
    + rewrite HSt. case_decide; [done|]. unfold GetState. by rewrite (Hm g v Hv), (Hin g v Hv).
    + change (m_Roles (player_data g s2) = v). unfold s2, SetState. rewrite Hgg.
      change (m_Roles (player_data g s1) = v). rewrite (Hin g v Hv). cbn. by apply lookup_role.
  - intros g Hne Hg. rewrite HSt, decide_False by done. by apply loop_others.
  - exact A1.
  - rewrite <- (Eqs (GetQueueId gguid s)). exact A2.
  - rewrite <- (Eqs (GetQueueId gguid s)). exact A3.
  - intros id Hid. rewrite <- Eqs. by apply A4.
Qed.
End Loop.

(** Forgetting the check changes nothing else. *)
Lemma Queued_forget now gguid dungeons roles s s' checks : Queued now gguid dungeons roles s s' ->
  Queued now gguid dungeons roles s (set_checks checks s').
Proof. intros [H1 H2 H3 H4 H5 H6 H7]. by split. Qed.

Lemma Restored_forget gguid roles s s' checks : Restored gguid roles s s' -> Restored gguid roles s (set_checks checks s').
Proof. intros [H1 H2 H3 H4]. by split. Qed.

(** What one answer to an open check does. *)
Lemma role_check_step now gguid rc guid roles answers s : IsGroup gguid = true -> check_ok rc ((guid, roles) :: answers) ->
  RoleChecksStore s !! gguid = Some rc -> rc_state rc = LFG_ROLECHECK_INITIALITING ->
  let roles' := record_answer (rc_roles rc) (guid, roles) in
  exists s', UpdateRoleCheck now gguid guid roles s = Some s' /\
    ((refused (guid, roles) = false /\ ~ complete roles' /\ RoleChecksStore s' !! gguid = Some (set_check_roles roles' rc) /\ quiet_step s s') \/
     RoleChecksStore s' !! gguid = None /\
     (refused (guid, roles) = false /\ complete roles' /\ can_fill rc roles' /\ Queued now gguid (rc_dungeons rc) roles' s s' \/
      (refused (guid, roles) = true \/ complete roles' /\ ~ can_fill rc roles') /\ Restored gguid roles' s s')).
Proof.
  intros Hgg Hok Hs Hst roles'. destruct (choose_role_spec _ _ _ _ Hok Hst) as (rc' & E & Er & Ed & El & Hrc).
  assert (Hm : map_Forall (fun guid _ => IsGroup guid = false) (rc_roles rc')).
  { rewrite Er. intros p v Hv. by apply (co_roles _ _ (check_ok_next _ _ _ Hok) p v). }
  assert (Hnz : nz gguid = true) by (unfold nz; by destruct (Z.eqb_spec gguid 0) as [->|]).
  unfold UpdateRoleCheck. rewrite Hnz, Hs. cbn [negb]. rewrite E. cbn [mbind option_bind].
  match goal with |- context [foldl (notify_check ?c rc') ?s0 _] => set (s0' := s0); set (ch := c) end.
  destruct (notify_check_all ch rc' s0' Hm) as (K & G & P). set (s1 := foldl (notify_check ch rc') s0' (guids (rc_roles rc'))) in *.
  pose proof (fun H1 H2 => Restored_forget _ _ _ _ (delete gguid (RoleChecksStore (RestoreState gguid s1)))
    (loop_restores gguid rc' s s1 Hgg Hm (sk_queues _ _ K) G P H1 H2)) as HR.
  pose proof (fun H => Queued_forget _ _ _ _ _ _ (delete gguid (RoleChecksStore
    (queue_AddQueueData now gguid (rc_dungeons rc') (rc_roles rc') (SetState gguid LFG_STATE_QUEUED s1))))
    (loop_queues now gguid rc' s s1 Hgg Hm (sk_queues _ _ K) G P H)) as HQ.
  eexists. split; [done|]. rewrite Er in Hrc, HR, HQ. fold roles' in Hrc, HR, HQ.
  destruct (rc_state rc') eqn:Ers; try (right; split; [apply lookup_delete_eq|]; right; by split; [|apply HR]).
  - right. split; [apply lookup_delete_eq|]. left. rewrite Ed in HQ. specialize (HQ eq_refl). rewrite Ed, Er. tauto.
  - destruct Hrc as (Hrc & R & C). left. split; [done|]. split; [done|]. split.
    + rewrite (sk_checks _ _ K). unfold s0'. cbn. by rewrite lookup_insert_eq, Hrc.
    + split; [|split; [exact G|exact (sk_queues _ _ K)]]. intros g. rewrite P. unfold check_change. rewrite Ers.
      by destruct (decide _).
Qed.

(** ** All answers *)

(** Answers to a check that is over change nothing. *)
Lemma answer_closed now gguid answers s : RoleChecksStore s !! gguid = None -> answer_all now gguid answers s = Some s.
Proof.
  intros H. induction answers as [|[guid roles] answers IH]; cbn; [done|]. unfold UpdateRoleCheck. rewrite H.
  by destruct (negb (nz gguid)).
Qed.

Lemma recorded_next rc answer answers :
  recorded (set_check_roles (record_answer (rc_roles rc) answer) rc) answers = recorded rc (answer :: answers).
Proof. done. Qed.

(** Who has chosen stays so. *)
Lemma complete_grows roles answer : complete roles -> complete (record_answer roles answer).
Proof.
  intros H. unfold record_answer. destruct (refused answer) eqn:E; [done|]. apply map_Forall_insert_2; [|done].
  unfold refused in E. apply orb_false_iff in E as [_ E]. apply Z.ltb_ge in E. unfold PLAYER_ROLE_TANK, PLAYER_ROLE_NONE in *. lia.
Qed.

Lemma undecided_cons rc answer answers : refused answer = false -> ~ complete (record_answer (rc_roles rc) answer) ->
  undecided (set_check_roles (record_answer (rc_roles rc) answer) rc) answers -> undecided rc (answer :: answers).
Proof.
  intros Hr Hc [H1 H2]. split; [by constructor|]. intros _. rewrite <- recorded_next.
  destruct answers as [|a answers]; [exact Hc|by apply H2].
Qed.

(** C19. A role check is open as long as nobody refuses and somebody has not
    answered, and until then it changes nothing. The answer that ends it either
    completes roles that can fill the dungeon, and the group and everybody in
    it is queued with exactly those roles, last in the queue; or it is a
    refusal, or the roles that were chosen cannot fill the dungeon, and the
    group and everybody in it is in the state of before, and the queue is
    untouched. Whatever is answered after that changes nothing. *)
Theorem role_check_outcome now gguid rc answers s : IsGroup gguid = true -> check_ok rc answers ->
  RoleChecksStore s !! gguid = Some rc -> rc_state rc = LFG_ROLECHECK_INITIALITING ->
  exists s', answer_all now gguid answers s = Some s' /\
    ((undecided rc answers /\ RoleChecksStore s' !! gguid = Some (set_check_roles (recorded rc answers) rc) /\ quiet_step s s') \/
     exists before last after, answers = before ++ last :: after /\ undecided rc before /\ RoleChecksStore s' !! gguid = None /\
       let roles := recorded rc (before ++ [last]) in
       (refused last = false /\ complete roles /\ can_fill rc roles /\ Queued now gguid (rc_dungeons rc) roles s s' \/
        (refused last = true \/ complete roles /\ ~ can_fill rc roles) /\ Restored gguid roles s s')).
Proof.
  intros Hgg. revert rc s. induction answers as [|[guid roles] answers IH]; intros rc s Hok Hs Hst; cbn [answer_all].
  { exists s. split; [done|]. left. split; [by split|]. split; [|done]. rewrite Hs. by destruct rc. }
  destruct (role_check_step now gguid rc guid roles answers s Hgg Hok Hs Hst) as (s1 & E & [(R & C & Hs1 & Hq)|(Hs1 & Hend)]);
    rewrite E; cbn [mbind option_bind].
  - destruct (IH _ s1 (check_ok_next _ _ _ Hok) Hs1 Hst) as (s' & E' & [(U & Hs' & Hq')|(before & last & after & Ea & U & Hs' & Hend)]);
      exists s'; (split; [exact E'|]).
    + left. split; [by apply undecided_cons|]. split; [exact Hs'|].
      destruct Hq as (P1 & G1 & Q1), Hq' as (P2 & G2 & Q2). split; [intros g; by rewrite P2|split; congruence].
    + right. exists ((guid, roles) :: before), last, after. split; [by rewrite Ea|]. split; [by apply undecided_cons|].
      split; [exact Hs'|]. cbn zeta. cbn [app]. rewrite <- recorded_next.
      destruct Hend as [(H1 & H2 & H3 & H4)|(H1 & H2)]; [left|right].
      * split; [done|]. split; [done|]. split; [exact H3|]. by eapply Queued_quiet.
      * split; [exact H1|]. by eapply Restored_quiet.
  - exists s1. split; [by apply answer_closed|]. right. exists [], (guid, roles), answers. split; [done|].
    split; [by split|]. split; [done|]. exact Hend.
Qed.

End RoleCheck.

(** ** A group of three *)

Definition sample_server : LfgServer := {|
  sv_dungeon := fun id => if id =? 1 then Some sample_dungeon else None;
  sv_random_dungeons := [];
  sv_ignores := fun _ _ => false;
  sv_lfg_group := fun _ => false;
  sv_lfr_group := fun _ => false;
  form_group := fun p _ s => Some (0x1F50000000000099, s);
  remove_from_group := fun _ _ s => s
|}.

Definition party : Z := 0x1F50000000000005.

Definition party_check : LfgRoleCheck :=
  mkRoleCheck 45945 (list_to_map [(1, 0); (2, 0); (3, 0)]) LFG_ROLECHECK_INITIALITING {[1]} 0 1.

Definition party_state : LFGMgr := set_checks {[party := party_check]} (LFGMgr_default 1).

Definition party_answers : list (Z * Z) := [(1, 3); (3, 8); (2, 4); (1, 8)].

Lemma role_check_outcome_witness : exists s', answer_all (Server := sample_server) 945 party party_answers party_state = Some s' /\
  GetState 3 s' = LFG_STATE_QUEUED /\ newToQueueStore (queue_at 0 s') = [party].
Proof.
  destruct (role_check_outcome (Server := sample_server) 945 party party_check party_answers party_state)
    as (s' & E & [(U & _)|(before & last & after & Ea & U & _ & Hend)]).
  - by vm_compute.
  - split.
    + apply map_Forall_to_list. by repeat (constructor; [by vm_compute|]).
    + by repeat (constructor; [by vm_compute|]).
    + by vm_compute.
    + intros dungeon Hd. injection Hd as <-. intros role [->|[->| ->]]; by vm_compute.
  - by vm_compute.
  - done.
  - exfalso. apply (proj2 U); [done|]. apply (bool_decide_unpack _). by vm_compute.
  - exists s'. split; [exact E|].
    pose proof (f_equal (fun r => match r with Some s => (GetState 3 s, newToQueueStore (queue_at 0 s)) | None => (LFG_STATE_NONE, []) end) E) as Es.
    cbn beta iota in Es. injection Es as E1 E2. rewrite <- E1, <- E2. split; by vm_compute.
Defined.
