(* ===== verification/LfgVoteSpec.v ===== *)
(** What a vote to kick comes to: who was kicked was voted out by as many
    members as it takes, each by the first thing they said. *)
From Stdlib Require Import ZArith Lia String Ascii.
From stdpp Require Import base gmap list strings.
From S2P Require Import Prelude LfgRoles LfgRolesSpec LfgQueue LfgQueueSpec LfgTimers LfgMgr LfgMgrBase.

Open Scope Z_scope.
Open Scope tc_scope.

(** ** Counting votes *)

Definition count (p : LfgAnswer -> bool) (votes : gmap Z LfgAnswer) : nat := length (List.filter p (snd <$> map_to_list votes)).

Definition agrees (answer : LfgAnswer) : bool := bool_decide (answer = LFG_ANSWER_AGREE).
Definition denies (answer : LfgAnswer) : bool := bool_decide (answer = LFG_ANSWER_DENY).

Lemma filter_perm {A} (p : A -> bool) l l' : l ≡ₚ l' -> List.filter p l ≡ₚ List.filter p l'.
Proof.
  induction 1; cbn; [done| | |by etrans].
  - destruct (p x); by rewrite ?IHPermutation.
  - destruct (p x), (p y); try done. constructor.
Qed.

Lemma count_insert_new p votes guid answer : votes !! guid = None ->
  count p (<[guid := answer]> votes) = ((if p answer then 1 else 0) + count p votes)%nat.
Proof.
  intros H. unfold count. rewrite (filter_perm p _ (snd <$> (guid, answer) :: map_to_list votes)).
  - cbn. by destruct (p answer).
  - by rewrite map_to_list_insert.
Qed.

Lemma count_insert_over p votes guid answer old : votes !! guid = Some old ->
  (count p (<[guid := answer]> votes) + (if p old then 1 else 0) = (if p answer then 1 else 0) + count p votes)%nat.
Proof.
  intros H. assert (Hn : delete guid votes !! guid = None) by apply lookup_delete_eq.
  pose proof (count_insert_new p (delete guid votes) guid answer Hn) as H1.
  pose proof (count_insert_new p (delete guid votes) guid old Hn) as H2.
  rewrite insert_delete_eq in H1, H2. rewrite (insert_id votes guid old H) in H2. lia.
Qed.

Lemma count_size p votes : (count p votes <= size votes)%nat.
Proof. unfold count. rewrite filter_le, length_fmap. by rewrite length_map_to_list. Qed.

Lemma count_split votes :
  (count (fun answer => negb (bool_decide (answer = LFG_ANSWER_PENDING))) votes = count agrees votes + count denies votes)%nat.
Proof. unfold count. induction (snd <$> map_to_list votes) as [|answer l IH]; [done|]. cbn [List.filter]. unfold agrees at 1, denies at 1. destruct answer; repeat (case_bool_decide; [try done|try done]); cbn [negb length]; lia. Qed.

(** ** Ballots *)

(** What [guid] said first. *)
Definition first_word (said : list (Z * bool)) (guid : Z) : option bool :=
  snd <$> head (List.filter (fun word => word.1 =? guid) said).

(** The vote of [guid] after all was said: the kicker agrees and the victim
    does not, the first word of a member is final, and somebody who was no
    member when the vote began counts as against. *)
Definition ballot (players : gset Z) (kicker victim : Z) (said : list (Z * bool)) (guid : Z) : option LfgAnswer :=
  if guid =? kicker then Some LFG_ANSWER_AGREE
  else if guid =? victim then Some LFG_ANSWER_DENY
  else if bool_decide (guid ∈ players) then
    Some (match first_word said guid with
          | Some true => LFG_ANSWER_AGREE
          | Some false => LFG_ANSWER_DENY
          | None => LFG_ANSWER_PENDING
          end)
  else (fun _ => LFG_ANSWER_DENY) <$> first_word said guid.

Definition cast (votes : gmap Z LfgAnswer) (word : Z * bool) : gmap Z LfgAnswer :=
  match votes !! word.1 with
  | Some LFG_ANSWER_PENDING => <[word.1 := if word.2 then LFG_ANSWER_AGREE else LFG_ANSWER_DENY]> votes
  | None => <[word.1 := LFG_ANSWER_DENY]> votes
  | Some _ => votes
  end.

Lemma first_word_snoc said word guid : first_word (said ++ [word]) guid =
  match first_word said guid with Some b => Some b | None => if word.1 =? guid then Some word.2 else None end.
Proof.
  unfold first_word. rewrite List.filter_app. cbn. destruct (List.filter _ said) as [|w l]; [|done]. cbn. by destruct (word.1 =? guid).
Qed.

Lemma cast_ballot players kicker victim said votes word : (forall guid, votes !! guid = ballot players kicker victim said guid) ->
  forall guid, cast votes word !! guid = ballot players kicker victim (said ++ [word]) guid.
Proof.
  intros H guid. destruct word as [who yes]. unfold cast. cbn [fst snd]. specialize (H guid) as Hg. specialize (H who) as Hw.
  assert (Hother : guid <> who -> ballot players kicker victim (said ++ [(who, yes)]) guid = votes !! guid).
  { intros Hne. rewrite Hg. unfold ballot. rewrite first_word_snoc. cbn [fst snd]. apply not_eq_sym, Z.eqb_neq in Hne. rewrite Hne.
    by destruct (first_word said guid). }
  destruct (decide (guid = who)) as [->|Hne].
  - clear Hother Hg. unfold ballot in Hw |- *. rewrite first_word_snoc, Hw. cbn [fst snd]. rewrite Z.eqb_refl.
    destruct (who =? kicker); [by rewrite Hw|]. destruct (who =? victim); [by rewrite Hw|].
    destruct (bool_decide (who ∈ players)); destruct (first_word said who) as [[]|]; cbn in *; try done;
      by rewrite lookup_insert_eq; destruct yes.
  - rewrite (Hother Hne). destruct (votes !! who) as [[]|]; by rewrite ?lookup_insert_ne by done.
Qed.

Lemma cast_size votes word : (size (cast votes word) <= S (size votes))%nat.
Proof.
  unfold cast. destruct (votes !! word.1) as [[]|] eqn:E; try lia.
  - rewrite map_size_insert_Some by done. lia.
  - rewrite map_size_insert_None by done. lia.
Qed.

Section Votes.
Context `{Server : LfgServer}.

(** ** One vote *)

Definition same_people (s s' : LFGMgr) : Prop := PlayersStore s' = PlayersStore s /\ GroupsStore s' = GroupsStore s.

Lemma same_people_trans s s' s'' : same_people s s' -> same_people s' s'' -> same_people s s''.
Proof. intros [] []. split; congruence. Qed.

Lemma notify_boot_kept boot s : stores_kept s (notify_boot boot s) /\ same_people s (notify_boot boot s).
Proof.
  unfold notify_boot. generalize (in_order (dom (pb_votes boot))) as l. intros l. revert s.
  induction l as [|p l IH]; intros s; cbn [foldl]; [by split|].
  destruct (IH (if negb (p =? pb_victim boot) then send (SendLfgBootProposalUpdate p boot) s else s)) as (H1 & H2 & H3).
  destruct (negb (p =? pb_victim boot)); [|done]. split; [etrans; [apply stores_send|done]|done].
Qed.

(** The vote is over: the flag of the group is cleared, and the victim is
    kicked when enough agree. *)
Definition vote_over (gguid victim : Z) (votes : gmap Z LfgAnswer) (s s' : LFGMgr) : Prop :=
  exists s1, PlayersStore s1 = PlayersStore s /\
    (forall g, group_data g s1 = if decide (g = gguid) then group_SetKicks (gr_KicksLeft (group_data g s)) false (group_data g s) else group_data g s) /\
    let s2 := if Z.of_nat (count agrees votes) =? votes_needed gguid
              then DecreaseKicksLeft gguid (remove_from_group gguid victim s1) else s1 in
    s' = set_boots (delete gguid (BootsStore s2)) s2.

Lemma counts_small votes : Z.of_nat (size votes) < 2 ^ 8 ->
  agreeNum votes = Z.of_nat (count agrees votes) /\ votesNum votes - agreeNum votes = Z.of_nat (count denies votes).
Proof.
  intros Hs. pose proof (count_size agrees votes) as H1. pose proof (count_split votes) as H2.
  pose proof (count_size (fun answer => negb (bool_decide (answer = LFG_ANSWER_PENDING))) votes) as H3.
  unfold agreeNum, votesNum, count_votes. fold (count agrees votes) (count (fun answer => negb (bool_decide (answer = LFG_ANSWER_PENDING))) votes).
  change (fun answer : LfgAnswer => bool_decide (answer = LFG_ANSWER_AGREE)) with agrees. fold (count agrees votes).
  rewrite !u8_small by lia. lia.
Qed.

Lemma count_cast_agrees votes word : (count agrees (cast votes word) <= S (count agrees votes))%nat.
Proof.
  unfold cast. destruct (votes !! word.1) as [answer|] eqn:E.
  - destruct answer; try lia. pose proof (count_insert_over agrees votes word.1 (if word.2 then LFG_ANSWER_AGREE else LFG_ANSWER_DENY) _ E).
    destruct (agrees (if word.2 then _ else _)), (agrees LFG_ANSWER_PENDING); lia.
  - rewrite count_insert_new by done. destruct (agrees LFG_ANSWER_DENY) eqn:Ed; [by apply bool_decide_eq_true in Ed|lia].
Qed.

Lemma UpdateBoot_step gguid boot who yes s : IsGroup gguid = true -> GetGroup who s = gguid -> BootsStore s !! gguid = Some boot ->
  Z.of_nat (S (size (pb_votes boot))) < 2 ^ 8 -> Z.of_nat (count agrees (pb_votes boot)) < votes_needed gguid ->
  let votes := cast (pb_votes boot) (who, yes) in
  let s' := UpdateBoot who yes s in
  (exists boot', BootsStore s' !! gguid = Some boot' /\ pb_votes boot' = votes /\ pb_victim boot' = pb_victim boot /\
     same_people s s' /\ Z.of_nat (count agrees votes) < votes_needed gguid) \/
  vote_over gguid (pb_victim boot) votes s s' /\ BootsStore s' !! gguid = None /\
    (Z.of_nat (count agrees votes) = votes_needed gguid \/
     Z.of_nat (count agrees votes) < votes_needed gguid /\ votes_needed gguid <= Z.of_nat (count denies votes)).
Proof.
  intros Hgg Hg Hb Hs Hn votes s'. assert (Hnz : nz gguid = true) by (unfold nz; by destruct (Z.eqb_spec gguid 0) as [->|]).
  pose proof (cast_size (pb_votes boot) (who, yes)) as Hsz. fold votes in Hsz. destruct (counts_small votes ltac:(lia)) as [Ea Ed].
  pose proof (count_cast_agrees (pb_votes boot) (who, yes)) as Hle. fold votes in Hle.
  unfold s', UpdateBoot. rewrite Hg, Hnz, Hb. cbn [negb]. unfold votes, cast in *. cbn [fst snd] in *.
  destruct (pb_votes boot !! who) as [answer|] eqn:Ev.
  2: { left. eexists. split; [apply lookup_insert_eq|]. split_and!; try done.
       rewrite count_insert_new by done. destruct (agrees LFG_ANSWER_DENY) eqn:E; [by apply bool_decide_eq_true in E|lia]. }
  destruct answer; [|left; by exists boot..]. rewrite Ed, Ea.
  set (vs := <[who := _]> (pb_votes boot)) in *. clearbody vs. destruct (_ && _) eqn:Et.
  - apply andb_true_iff in Et as [Et _]. apply Z.ltb_lt in Et. left. eexists. split; [apply lookup_insert_eq|].
    by split_and!.
  - right. destruct (notify_boot_kept (set_boot false vs boot) (set_boots (<[gguid := set_boot false vs boot]> (BootsStore s)) s)) as (K & P & G).
    set (s0 := notify_boot _ _) in *. split.
    + exists (SetVoteKick gguid false s0). split; [exact P|]. split; [|done]. intros g. unfold SetVoteKick. rewrite group_data_on.
      assert (Hgd : forall g', group_data g' s0 = group_data g' s) by (intros g'; unfold group_data; by rewrite G).
      case_decide as Eg; [rewrite Eg|]; by rewrite !Hgd.
    + split; [apply lookup_delete_eq|]. apply andb_false_iff in Et. rewrite !Z.ltb_ge in Et. lia.
Qed.

(** ** All votes *)

Definition say_all (said : list (Z * bool)) (s : LFGMgr) : LFGMgr := foldl (fun s word => UpdateBoot word.1 word.2 s) s said.

Lemma same_people_group s s' who : same_people s s' -> GetGroup who s' = GetGroup who s.
Proof. intros [P _]. unfold GetGroup, player_data. by rewrite P. Qed.

Lemma votes_run gguid players kicker victim said : forall heard boot s, IsGroup gguid = true ->
  Forall (fun word => GetGroup word.1 s = gguid) said -> BootsStore s !! gguid = Some boot -> pb_victim boot = victim ->
  (forall guid, pb_votes boot !! guid = ballot players kicker victim heard guid) ->
  Z.of_nat (size (pb_votes boot) + length said) < 2 ^ 8 -> Z.of_nat (count agrees (pb_votes boot)) < votes_needed gguid ->
  (exists boot', BootsStore (say_all said s) !! gguid = Some boot' /\ same_people s (say_all said s) /\
     (forall guid, pb_votes boot' !! guid = ballot players kicker victim (heard ++ said) guid) /\
     Z.of_nat (count agrees (pb_votes boot')) < votes_needed gguid) \/
  exists before last after votes, said = before ++ last :: after /\
    (forall guid, votes !! guid = ballot players kicker victim (heard ++ before ++ [last]) guid) /\
    BootsStore (say_all (before ++ [last]) s) !! gguid = None /\ vote_over gguid victim votes s (say_all (before ++ [last]) s) /\
    (Z.of_nat (count agrees votes) = votes_needed gguid \/
     Z.of_nat (count agrees votes) < votes_needed gguid /\ votes_needed gguid <= Z.of_nat (count denies votes)).
Proof.
  induction said as [|[who yes] said IH]; intros heard boot s Hgg Hf Hb Hv Hvotes Hs Hn.
  { left. exists boot. rewrite app_nil_r. by split_and!. }
  inversion_clear Hf as [|? ? Hw Hf']. cbn [fst length] in Hw, Hs.
  pose proof (cast_ballot _ _ _ _ _ (who, yes) Hvotes) as Hc.
  destruct (UpdateBoot_step gguid boot who yes s Hgg Hw Hb ltac:(lia) Hn) as [(boot' & Hb' & Hvs & Hvi & Hp & Hn')|(Hover & Hb' & Hend)].
  - destruct (IH (heard ++ [(who, yes)]) boot' (UpdateBoot who yes s)) as [(b & H1 & H2 & H3 & H4)|(before & last & after & votes & E & H1 & H2 & H3 & H4)];
      try done.
    + eapply Forall_impl; [exact Hf'|]. intros word. by rewrite (same_people_group _ _ _ Hp).
    + by rewrite Hvi.
    + intros guid. by rewrite Hvs.
    + rewrite Hvs. pose proof (cast_size (pb_votes boot) (who, yes)). lia.
    + by rewrite Hvs.
    + left. exists b. split; [exact H1|]. split; [exact (same_people_trans _ _ _ Hp H2)|]. split; [|done].
      intros guid. rewrite H3, <- app_assoc. done.
    + right. exists ((who, yes) :: before), last, after, votes. split; [by rewrite E|]. split; [intros guid; rewrite H1, <- app_assoc; done|].
      split; [exact H2|]. split; [|done]. destruct H3 as (s1 & P & G & H3). exists s1. split; [by rewrite P; destruct Hp|].
      split; [|exact H3]. intros g. rewrite G. destruct Hp as [_ Gp]. unfold group_data. by rewrite Gp.
  - right. exists [], (who, yes), said, (cast (pb_votes boot) (who, yes)). split; [done|]. split; [exact Hc|].
    split; [exact Hb'|]. split; [by rewrite <- Hv|done].
Qed.

Lemma pending_votes l : forall votes, count agrees votes = 0%nat ->
  let votes' := foldl (fun votes guid => <[guid := LFG_ANSWER_PENDING]> votes) votes l in
  count agrees votes' = 0%nat /\ (size votes' <= size votes + length l)%nat /\
  forall guid, votes' !! guid = if bool_decide (guid ∈ l) then Some LFG_ANSWER_PENDING else votes !! guid.
Proof.
  induction l as [|p l IH]; intros votes Hc; cbn [foldl length].
  { split; [done|]. split; [lia|]. intros guid. rewrite bool_decide_eq_false_2; [done|]. apply not_elem_of_nil. }
  assert (Hc' : count agrees (<[p := LFG_ANSWER_PENDING]> votes) = 0%nat /\ (size (<[p := LFG_ANSWER_PENDING]> votes) <= S (size votes))%nat).
  { destruct (votes !! p) eqn:E.
    - pose proof (count_insert_over agrees votes p LFG_ANSWER_PENDING _ E) as H. rewrite map_size_insert_Some by done.
      destruct (agrees LFG_ANSWER_PENDING) eqn:Ea; [by apply bool_decide_eq_true in Ea|]. destruct (agrees l0); lia.
    - rewrite count_insert_new, map_size_insert_None by done.
      destruct (agrees LFG_ANSWER_PENDING) eqn:Ea; [by apply bool_decide_eq_true in Ea|]. lia. }
  destruct Hc' as [Hc1 Hc2]. destruct (IH _ Hc1) as (H1 & H2 & H3). split; [exact H1|]. split; [lia|].
  intros guid. rewrite H3. destruct (decide (guid = p)) as [->|Hne].
  - rewrite lookup_insert_eq, (bool_decide_eq_true_2 (p ∈ p :: l)) by left. by destruct (bool_decide (p ∈ l)).
  - rewrite lookup_insert_ne by done. erewrite bool_decide_ext; [done|]. rewrite elem_of_cons. tauto.
Qed.

Lemma count_insert_le votes guid answer :
  (count agrees (<[guid := answer]> votes) <= (if agrees answer then 1 else 0) + count agrees votes)%nat /\
  (size (<[guid := answer]> votes) <= S (size votes))%nat.
Proof.
  destruct (votes !! guid) as [old|] eqn:E.
  - pose proof (count_insert_over agrees votes guid answer old E). rewrite map_size_insert_Some by done. lia.
  - rewrite count_insert_new, map_size_insert_None by done. lia.
Qed.

(** How a vote begins. *)
Lemma InitBoot_starts now gguid kicker victim reason s : BootsStore s !! gguid = None ->
  let start := InitBoot now gguid kicker victim reason s in
  exists boot, BootsStore start !! gguid = Some boot /\ pb_victim boot = victim /\ PlayersStore start = PlayersStore s /\
    (forall guid, pb_votes boot !! guid = ballot (GetPlayers gguid s) kicker victim [] guid) /\
    (size (pb_votes boot) <= size (GetPlayers gguid s) + 2)%nat /\ (count agrees (pb_votes boot) <= 1)%nat.
Proof.
  intros Hb start. set (players := GetPlayers gguid s).
  assert (Hpl : GetPlayers gguid (SetVoteKick gguid true s) = players).
  { unfold players, GetPlayers, SetVoteKick. by rewrite group_data_on, decide_True. }
  unfold start, InitBoot. rewrite Hpl. cbn [BootsStore SetVoteKick on_group set_groups]. rewrite Hb.
  cbn [fmap option_fmap option_map default from_option]. set (votes0 := foldl (fun votes guid => <[guid := LFG_ANSWER_PENDING]> votes) (∅ : gmap Z LfgAnswer) (in_order players)).
  assert (H0 : count agrees ∅ = 0%nat) by (unfold count; by rewrite map_to_list_empty).
  destruct (pending_votes (in_order players) ∅ H0) as (H1 & H2 & H3). fold votes0 in H1, H2, H3.
  rewrite map_size_empty, in_order_length in H2. set (boot := mkBoot _ _ _ _ _). exists boot.
  assert (Hstore : forall l s0, BootsStore s0 !! gguid = Some boot /\ PlayersStore s0 = PlayersStore s ->
    let s1 := foldl (fun s guid => send (SendLfgBootProposalUpdate guid boot) s) s0 l in
    BootsStore s1 !! gguid = Some boot /\ PlayersStore s1 = PlayersStore s).
  { induction l as [|p l IH]; intros s0 Hs0; [exact Hs0|]. by apply IH. }
  edestruct Hstore as [E1 E2]; [|split; [exact E1|]; split; [done|]; split; [exact E2|]].
  - split; [apply lookup_insert_eq|done].
  - split; [|split].
    + intros guid. cbn [pb_votes boot]. unfold ballot.
      destruct (Z.eqb_spec guid kicker) as [->|Hk]; [by rewrite lookup_insert_eq|]. rewrite lookup_insert_ne by done.
      destruct (Z.eqb_spec guid victim) as [->|Hv]; [by rewrite lookup_insert_eq|]. rewrite lookup_insert_ne by done.
      rewrite H3. erewrite bool_decide_ext by apply elem_of_in_order. done.
    + cbn [pb_votes boot]. pose proof (count_insert_le (<[victim := LFG_ANSWER_DENY]> votes0) kicker LFG_ANSWER_AGREE).
      pose proof (count_insert_le votes0 victim LFG_ANSWER_DENY). lia.
    + cbn [pb_votes boot]. pose proof (count_insert_le (<[victim := LFG_ANSWER_DENY]> votes0) kicker LFG_ANSWER_AGREE).
      pose proof (count_insert_le votes0 victim LFG_ANSWER_DENY) as Hd.
      assert (Ed : agrees LFG_ANSWER_DENY = false) by by apply bool_decide_eq_false. rewrite Ed in Hd.
      destruct (agrees LFG_ANSWER_AGREE); lia.
Qed.

(** C20. A vote to kick goes on while fewer than the needed number agree, and until
    then it moves nobody. It ends with the answer that brings the members who
    agree, or those who do not, to that number; only in the first case is
    anybody removed, that is the victim, once, and the group has a kick less.
    Everybody's first word counts and no other. *)
Theorem vote_outcome now gguid kicker victim reason said s : IsGroup gguid = true -> BootsStore s !! gguid = None ->
  Forall (fun word => GetGroup word.1 s = gguid) said -> Z.of_nat (size (GetPlayers gguid s) + 2 + length said) < 2 ^ 8 ->
  let players := GetPlayers gguid s in
  let start := InitBoot now gguid kicker victim reason s in
  (exists boot, BootsStore (say_all said start) !! gguid = Some boot /\ same_people start (say_all said start) /\
     (forall guid, pb_votes boot !! guid = ballot players kicker victim said guid) /\
     Z.of_nat (count agrees (pb_votes boot)) < votes_needed gguid) \/
  exists before last after votes, said = before ++ last :: after /\
    (forall guid, votes !! guid = ballot players kicker victim (before ++ [last]) guid) /\
    BootsStore (say_all (before ++ [last]) start) !! gguid = None /\
    vote_over gguid victim votes start (say_all (before ++ [last]) start) /\
    (Z.of_nat (count agrees votes) = votes_needed gguid \/
     Z.of_nat (count agrees votes) < votes_needed gguid /\ votes_needed gguid <= Z.of_nat (count denies votes)).
Proof.
  intros Hgg Hb Hf Hs players start. destruct (InitBoot_starts now gguid kicker victim reason s Hb) as (boot & E & Ev & Ep & Hv & Hsz & Hn).
  apply (votes_run gguid players kicker victim said [] boot start); try done.
  - eapply Forall_impl; [exact Hf|]. intros word. unfold GetGroup, player_data. fold start in Ep. by rewrite Ep.
  - lia.
  - unfold votes_needed, LFR_GROUP_KICK_VOTES_NEEDED, LFG_GROUP_KICK_VOTES_NEEDED. destruct (sv_lfr_group gguid); lia.
Qed.

End Votes.

(** ** A group of five *)

Definition five : Z := 0x1F50000000000006.

Definition voters_server (kicked : Z -> LFGMgr -> LFGMgr) : LfgServer := {|
  sv_dungeon := fun _ => None;
  sv_random_dungeons := [];
  sv_ignores := fun _ _ => false;
  sv_lfg_group := fun _ => true;
  sv_lfr_group := fun _ => false;
  form_group := fun p _ s => Some (0, s);
  remove_from_group := fun _ => kicked
|}.

Definition five_state : LFGMgr :=
  let member guid := mkPlayer RideTicket_default LFG_STATE_DUNGEON LFG_STATE_DUNGEON 0 five 0 "" ∅ false in
  set_groups {[five := mkGroup LFG_STATE_DUNGEON LFG_STATE_DUNGEON 1 (list_to_set [1; 2; 3; 4; 5]) 1 3 false]}
    (set_players (list_to_map ((fun guid => (guid, member guid)) <$> [1; 2; 3; 4; 5; 6])) (LFGMgr_default 1)).

Definition leaves (guid : Z) : LFGMgr -> LFGMgr := on_player guid (player_SetState LFG_STATE_NONE).

Lemma vote_outcome_witness :
  let said := [(2, true); (5, false); (2, true); (3, true); (4, true)] in
  exists before last after votes, said = before ++ last :: after /\
    vote_over (Server := voters_server leaves) five 5 votes (InitBoot 100 five 1 5 "" five_state)
      (say_all (Server := voters_server leaves) (before ++ [last]) (InitBoot 100 five 1 5 "" five_state)).
Proof.
  intros said. destruct (vote_outcome (Server := voters_server leaves) 100 five 1 5 "" said five_state)
    as [(boot & E & _)|(before & last & after & votes & E & _ & _ & H & _)].
  - by vm_compute.
  - by vm_compute.
  - by repeat (constructor; [by vm_compute|]).
  - by vm_compute.
  - exfalso. assert (Hn : BootsStore (say_all (Server := voters_server leaves) said (InitBoot 100 five 1 5 "" five_state)) !! five = None)
      by by vm_compute. rewrite Hn in E. discriminate E.
  - exists before, last, after, votes. exact (conj E H).
Defined.

(** Somebody who joined after the vote began (6) is counted as against by the
    first thing they say, and cannot correct it. *)
Lemma newcomer_is_against :
  let s := say_all (Server := voters_server leaves) [(6, true); (6, true)] (InitBoot 100 five 1 5 "" five_state) in
  (fun boot => pb_votes boot !! 6) <$> BootsStore s !! five = Some (Some LFG_ANSWER_DENY).
Proof. by vm_compute. Qed.
