(* ===== verification/LfgProposalSpec.v ===== *)
(** How a proposal ends: who is taken out of the queue, and who is back in it,
    or plays. *)
From Stdlib Require Import ZArith Lia String Ascii.
From stdpp Require Import base gmap list strings pretty.
From S2P Require Import Prelude LfgRoles LfgRolesSpec LfgQueue LfgQueueSpec LfgTimers LfgMgr LfgMgrBase.

Open Scope Z_scope.
Open Scope tc_scope.

(** ** Keys that name a guid *)

Lemma prefix_app a b : String.prefix a (a ++ b) = true.
Proof.
  induction a as [|c a IH]; [by destruct b|]. change (String c a ++ b)%string with (String c (a ++ b)). cbn [String.prefix].
  by destruct (ascii_dec c c).
Qed.

Lemma contains_app sub a b : contains sub b = true -> contains sub (a ++ b) = true.
Proof.
  intros H. induction a as [|c a IH]; [done|]. change ((String c a ++ b)%string) with (String c (a ++ b)%string).
  cbn [contains]. by rewrite IH, orb_true_r.
Qed.

Lemma contains_prefix sub b : contains sub (sub ++ b) = true.
Proof.
  pose proof (prefix_app sub b) as H. destruct (sub ++ b)%string; cbn [contains]; by rewrite H.
Qed.

Lemma contains_join guid l : guid ∈ l -> contains (guid_str guid) (join_guids l) = true.
Proof.
  induction l as [|g l IH]; [by intros ?%not_elem_of_nil|]. intros [->|H]%elem_of_cons.
  - destruct l; cbn [join_guids]; [rewrite <- (app_nil_str (guid_str g)) at 2|]; apply contains_prefix.
  - destruct l as [|g' l]; [by apply not_elem_of_nil in H|]. cbn [join_guids]. apply contains_app, contains_app. by apply IH.
Qed.

Lemma contains_key guid l : guid ∈ l -> contains (guid_str guid) (ConcatenateGuids l) = true.
Proof. intros H. apply contains_join. rewrite elem_of_in_order. by apply elem_of_list_to_set. Qed.

Lemma pretty_go_some x s : s <> EmptyString -> pretty_N_go x s <> EmptyString.
Proof.
  revert s. induction (N.lt_wf_0 x) as [x _ IH]. intros s Hs.
  assert (x = 0 \/ 0 < x)%N as [->|Hx] by lia; [by rewrite pretty_N_go_0|].
  rewrite pretty_N_go_step by done. apply IH; [apply N.div_lt; lia|done].
Qed.

Lemma guid_str_some guid : contains (guid_str guid) "" = false.
Proof.
  assert (H : guid_str guid <> ""%string).
  { unfold guid_str, pretty, pretty_N. case_decide; [done|]. rewrite pretty_N_go_step by lia. by apply pretty_go_some. }
  cbn [contains]. destruct (guid_str guid); [done|]. done.
Qed.

(** ** Leaving the queue *)

Section Remove.
Context `{Mgr : LfgManager}.

(** Nothing in the queue speaks of the guid any more, and nothing else has
    changed but what entries note as their best combination. *)
Record forgotten (guid : Z) (q q' : LFGQueue) : Prop := {
  fg_new : newToQueueStore q' = remove_guid guid (newToQueueStore q);
  fg_current : currentQueueStore q' = remove_guid guid (currentQueueStore q);
  fg_data : QueueDataStore q' !! guid = None;
  fg_others : forall g, g <> guid -> (is_Some (QueueDataStore q' !! g) <-> is_Some (QueueDataStore q !! g)) /\
    entry_dungeons q' g = entry_dungeons q g /\ entry_roles q' g = entry_roles q g;
  fg_cache : forall key, CompatibleMapStore q' !! key =
    if contains (guid_str guid) key then None else CompatibleMapStore q !! key;
  fg_best : forall g d, QueueDataStore q' !! g = Some d -> contains (guid_str guid) (bestCompatible d) = false
}.

Lemma UpdateBest_best key roles d : bestCompatible (UpdateBestCompatibleInQueue key roles d) = bestCompatible d \/
  bestCompatible (UpdateBestCompatibleInQueue key roles d) = key.
Proof.
  unfold UpdateBestCompatibleInQueue. destruct (_ <=? _); [by left|]. right.
  assert (Hfill : forall l d', bestCompatible (foldl fill_role d' l) = bestCompatible d').
  { induction l as [|role l IH]; intros d'; cbn; [done|]. rewrite IH. unfold fill_role. by repeat destruct (nz _). }
  rewrite Hfill. unfold InitializeGroupSetup. destruct (in_order _); [done|]. by destruct (GetLFGDungeon _).
Qed.

(** The best combination is one of the cache. *)
Lemma FindBest_spec compatibles guid d : let d' := FindBestCompatibleInQueue compatibles guid d in
  qd_dungeons d' = qd_dungeons d /\ qd_roles d' = qd_roles d /\
  (bestCompatible d' = bestCompatible d \/ is_Some (compatibles !! bestCompatible d')).
Proof.
  unfold FindBestCompatibleInQueue. assert (Hin : forall kv, kv ∈ items_compat compatibles -> is_Some (compatibles !! kv.1)).
  { intros [k v]. unfold items_compat. rewrite stable_sort_perm. intros H%elem_of_map_to_list. by exists v. }
  revert Hin. generalize (items_compat compatibles) as l. intros l. revert d. induction l as [|[k v] l IH]; intros d Hin; cbn [foldl].
  - auto.
  - destruct (IH (if bool_decide (compatibility v = LFG_COMPATIBLES_WITH_LESS_PLAYERS) && contains (guid_str guid) k
                  then UpdateBestCompatibleInQueue k (cd_roles v) d else d)) as (H1 & H2 & H3); [intros kv Hkv; apply Hin; by right|].
    cbn [foldl] in *. destruct (_ && _); [|auto]. destruct (UpdateBest_same k (cd_roles v) d) as [E1 E2].
    split; [congruence|]. split; [congruence|]. destruct H3 as [H3|H3]; [|by right]. rewrite H3.
    destruct (UpdateBest_best k (cd_roles v) d) as [->| ->]; [by left|]. right. apply (Hin (k, v)). left.
Qed.

Lemma RemoveFromQueue_forgotten guid q : forgotten guid q (RemoveFromQueue guid q).
Proof.
  set (compatibles := CompatibleMapStore (RemoveFromQueue guid q)).
  assert (Hcache : forall key, compatibles !! key = if contains (guid_str guid) key then None else CompatibleMapStore q !! key).
  { intros key. unfold compatibles. cbn. destruct (contains (guid_str guid) key) eqn:E.
    - apply map_lookup_filter_None. right. intros v _. cbn. by rewrite E.
    - destruct (CompatibleMapStore q !! key) as [v|] eqn:Ev.
      + apply map_lookup_filter_Some. split; [exact Ev|exact E].
      + apply map_lookup_filter_None. by left. }
  assert (Hdata : forall g, QueueDataStore (RemoveFromQueue guid q) !! g =
    if decide (g = guid) then None else forget_best guid compatibles g <$> QueueDataStore q !! g).
  { intros g. unfold RemoveFromQueue. cbn [QueueDataStore set_data]. case_decide as E.
    - rewrite E. apply lookup_delete_eq.
    - rewrite lookup_delete_ne by done. rewrite map_lookup_imap. cbn. by destruct (QueueDataStore q !! g). }
  assert (Hforget : forall g d, g <> guid -> qd_dungeons (forget_best guid compatibles g d) = qd_dungeons d /\
    qd_roles (forget_best guid compatibles g d) = qd_roles d /\
    contains (guid_str guid) (bestCompatible (forget_best guid compatibles g d)) = false).
  { intros g d Hne. unfold forget_best. apply Z.eqb_neq in Hne. rewrite Hne. cbn [negb andb].
    destruct (contains (guid_str guid) (bestCompatible d)) eqn:E; [|done].
    destruct (FindBest_spec compatibles g (set_best "" d)) as (H1 & H2 & H3). split; [done|]. split; [done|].
    destruct H3 as [->|[v H3]]; [apply guid_str_some|]. rewrite Hcache in H3. destruct (contains _ _) eqn:Ec in H3; [done|exact Ec]. }
  split; [done|done|by rewrite Hdata, decide_True| |exact Hcache|].
  - intros g Hne. unfold entry_dungeons, entry_roles. rewrite Hdata, decide_False by done.
    destruct (QueueDataStore q !! g) as [d|]; [|done]. unfold fmap, option_fmap, option_map.
    destruct (Hforget g d Hne) as (-> & -> & _). done.
  - intros g d. rewrite Hdata. case_decide as E; [done|]. intros (d0 & E0 & ->)%fmap_Some. by apply Hforget.
Qed.
End Remove.

Definition leave_out (removed : list Z) (l : list Z) : list Z := List.filter (fun g => negb (bool_decide (g ∈ removed))) l.

Lemma leave_out_cons g removed l : leave_out removed (remove_guid g l) = leave_out (g :: removed) l.
Proof.
  unfold leave_out, remove_guid. rewrite filter_filter. apply List.filter_ext. intros g'. rewrite <- negb_orb. f_equal.
  apply eq_true_iff_eq. rewrite orb_true_iff, !bool_decide_eq_true, Z.eqb_eq, elem_of_cons. done.
Qed.

Lemma leave_out_nil l : leave_out [] l = l.
Proof. apply filter_id, Forall_true. intros g. rewrite bool_decide_eq_false_2; [done|]. apply not_elem_of_nil. Qed.

Lemma elem_of_leave_out removed l g : g ∈ leave_out removed l <-> g ∈ l /\ g ∉ removed.
Proof.
  unfold leave_out. rewrite list_elem_of_In, filter_In, <- list_elem_of_In, negb_true_iff, bool_decide_eq_false. done.
Qed.

(** Several guids leave. *)
Record forgotten_all (removed : list Z) (q q' : LFGQueue) : Prop := {
  fa_new : newToQueueStore q' = leave_out removed (newToQueueStore q);
  fa_current : currentQueueStore q' = leave_out removed (currentQueueStore q);
  fa_data : forall g, g ∈ removed -> QueueDataStore q' !! g = None;
  fa_others : forall g, g ∉ removed -> (is_Some (QueueDataStore q' !! g) <-> is_Some (QueueDataStore q !! g)) /\
    entry_dungeons q' g = entry_dungeons q g /\ entry_roles q' g = entry_roles q g;
  fa_cache : forall key, CompatibleMapStore q' !! key =
    if existsb (fun g => contains (guid_str g) key) removed then None else CompatibleMapStore q !! key
}.

Lemma forgotten_all_nil q : forgotten_all [] q q.
Proof. split; rewrite ?leave_out_nil; try done. intros g H. by apply not_elem_of_nil in H. Qed.

Lemma forgotten_all_cons g removed q q' q'' : forgotten g q q' -> forgotten_all removed q' q'' -> forgotten_all (g :: removed) q q''.
Proof.
  intros [N C D O Ca _] [N' C' D' O' Ca']. split.
  - by rewrite N', N, leave_out_cons.
  - by rewrite C', C, leave_out_cons.
  - intros x Hx. destruct (decide (x ∈ removed)) as [Hr|Hr]; [by apply D'|]. assert (x = g) as -> by set_solver.
    destruct (O' g Hr) as [[H _] _]. rewrite D in H. destruct (QueueDataStore q'' !! g) as [d|] eqn:E; [|done].
    by destruct H; [exists d|].
  - intros x [Hx Hr]%not_elem_of_cons. destruct (O x Hx) as (H1 & H2 & H3), (O' x Hr) as (H4 & H5 & H6).
    split; [by rewrite H4|]. split; congruence.
  - intros key. rewrite Ca', Ca. cbn. by destruct (contains (guid_str g) key), (existsb _ removed).
Qed.

Section Proposal.
Context `{Server : LfgServer}.

(** ** Queue operations of the manager *)

(** All but the queues is as it was. *)
Definition queues_only (s s' : LFGMgr) : Prop := s' = set_queues (QueuesStore s') s.

Lemma queues_only_trans s s' s'' : queues_only s s' -> queues_only s' s'' -> queues_only s s''.
Proof. unfold queues_only. intros E E'. rewrite E', E. done. Qed.

Lemma remove_all_queue id now removed : forall s, let s' := foldl (fun s guid => queue_Remove id now guid s) s removed in
  queues_only s s' /\ forgotten_all removed (queue_at id s) (queue_at id s') /\ forall id', id' <> id -> queue_at id' s' = queue_at id' s.
Proof.
  induction removed as [|g removed IH]; intros s; cbn [foldl].
  - split; [by destruct s|]. split; [apply forgotten_all_nil|done].
  - destruct (IH (queue_Remove id now g s)) as (H1 & H2 & H3). split; [exact (queues_only_trans s (queue_Remove id now g s) _ eq_refl H1)|]. split.
    + eapply forgotten_all_cons; [|exact H2]. unfold queue_Remove. rewrite queue_at_on, decide_True by done.
      apply RemoveFromQueue_forgotten.
    + intros id' Hne. rewrite H3 by done. unfold queue_Remove. by rewrite queue_at_on, decide_False.
Qed.

(** Those who still have data are put in front, one before the other. *)
Lemma readd_all id kept : forall s, (forall g, g ∈ kept -> is_Some (QueueDataStore (queue_at id s) !! g)) ->
  let s' := foldl (fun s guid => on_queue id (AddToQueue guid true) s) s kept in
  queues_only s s' /\ queue_at id s' = set_current (rev kept ++ currentQueueStore (queue_at id s)) (queue_at id s) /\
  forall id', id' <> id -> queue_at id' s' = queue_at id' s.
Proof.
  induction kept as [|g kept IH]; intros s Hd; cbn [foldl].
  - split; [by destruct s|]. split; [by destruct (queue_at id s)|done].
  - assert (E : queue_at id (on_queue id (AddToQueue g true) s) = AddToFrontCurrentQueue g (queue_at id s)).
    { rewrite queue_at_on, decide_True by done. unfold AddToQueue. destruct (Hd g) as [d ->]; [left|done]. }
    destruct (IH (on_queue id (AddToQueue g true) s)) as (H1 & H2 & H3).
    { intros g' Hg'. rewrite E. apply Hd. by right. }
    split; [exact (queues_only_trans s (on_queue id (AddToQueue g true) s) _ eq_refl H1)|]. split.
    + rewrite H2, E. cbn. by rewrite <- app_assoc.
    + intros id' Hne. rewrite H3 by done. by rewrite queue_at_on, decide_False.
Qed.

Lemma remove_guids removed l : foldl (fun queues guid => remove_guid guid queues) l removed = leave_out removed l.
Proof. revert l. induction removed as [|g removed IH]; intros l; cbn; [by rewrite leave_out_nil|]. by rewrite IH, leave_out_cons. Qed.

(** ** The players of a proposal *)

Lemma elem_of_players p guid pp : (guid, pp) ∈ players_of p <-> pr_players p !! guid = Some pp.
Proof.
  unfold players_of. rewrite list_elem_of_omap. split.
  - intros (g & _ & H). destruct (pr_players p !! g) eqn:E; [|done]. cbn in H. by simplify_eq.
  - intros H. exists guid. rewrite elem_of_in_order, elem_of_dom, H. by split.
Qed.

Lemma players_keys p : fst <$> players_of p = in_order (dom (pr_players p)).
Proof.
  unfold players_of. assert (H : forall guid, guid ∈ in_order (dom (pr_players p)) -> is_Some (pr_players p !! guid))
    by (intros guid; rewrite elem_of_in_order; apply elem_of_dom).
  induction (in_order (dom (pr_players p))) as [|guid l IH]; [done|]. cbn.
  destruct (H guid) as [pp E]; [left|]. rewrite E. cbn. f_equal. apply IH. intros g Hg. apply H. by right.
Qed.

(** Players are no groups, and their groups are. *)
Definition people (players : gmap Z LfgProposalPlayer) : Prop :=
  map_Forall (fun guid pp => IsGroup guid = false /\ (pp_group pp = 0 \/ IsGroup (pp_group pp) = true)) players.

Lemma entry_group guid pp : IsGroup guid = false -> pp_group pp = 0 \/ IsGroup (pp_group pp) = true ->
  (entry_guid guid pp =? guid = true /\ entry_guid guid pp = guid) \/
  (entry_guid guid pp =? guid = false /\ entry_guid guid pp = pp_group pp /\ IsGroup (pp_group pp) = true).
Proof.
  intros Hg H. unfold entry_guid. destruct (nz (pp_group pp)) eqn:E; [|left; split; [apply Z.eqb_refl|done]].
  right. destruct H as [H|H]; [by rewrite H in E|]. split; [|done]. apply Z.eqb_neq. congruence.
Qed.

Lemma GetOldState_SetState_queued guid s g : GetOldState g (SetState guid LFG_STATE_QUEUED s) = GetOldState g s.
Proof.
  unfold GetOldState, SetState. destruct (IsGroup guid) eqn:E.
  - destruct (IsGroup g); [|done]. rewrite group_data_on. by case_decide as Eg; [rewrite Eg|].
  - destruct (IsGroup g); [done|]. rewrite player_data_on. by case_decide as Eg; [rewrite Eg|].
Qed.

(** ** What the players of a removed proposal see of themselves *)

(** States change to [f]; what they would be restored to does not. *)
Record states_set (P : Z -> Prop) (f : Z -> LfgState) (s s' : LFGMgr) : Prop := {
  ss_stores : stores_kept s s';
  ss_places : places_kept s s';
  ss_old : forall x, GetOldState x s' = GetOldState x s;
  ss_set : forall x, P x -> GetState x s' = f x;
  ss_rest : forall x, ~ P x -> GetState x s' = GetState x s
}.

Lemma states_send m s : states_set (fun _ => False) (fun _ => LFG_STATE_NONE) s (send m s).
Proof. by split. Qed.

Lemma states_restore guid s : states_set (eq guid) (fun x => GetOldState x s) s (RestoreState guid s).
Proof.
  destruct (RestoreState_kept guid s) as [K P]. split; [done|done|apply GetOldState_RestoreState| |].
  - intros x <-. by rewrite GetState_RestoreState, decide_True.
  - intros x Hx. by rewrite GetState_RestoreState, decide_False by congruence.
Qed.

Lemma states_queued guid s : states_set (eq guid) (fun _ => LFG_STATE_QUEUED) s (SetState guid LFG_STATE_QUEUED s).
Proof.
  destruct (SetState_kept guid LFG_STATE_QUEUED s) as [K P]. split; [done|done|apply GetOldState_SetState_queued| |].
  - intros x <-. by rewrite GetState_SetState, decide_True.
  - intros x Hx. by rewrite GetState_SetState, decide_False by congruence.
Qed.

Lemma states_then P f s s' Q g s'' R h : states_set P f s s' -> states_set Q g s' s'' ->
  (forall x, R x <-> P x \/ Q x) -> (forall x, Q x -> h x = g x) -> (forall x, P x -> ~ Q x -> h x = f x) ->
  (forall x, Decision (Q x)) -> states_set R h s s''.
Proof.
  intros [S1 P1 O1 F1 R1] [S2 P2 O2 F2 R2] HR H2 H1 Hdec. split; [by etrans|by etrans|intros x; by rewrite O2| |].
  - intros x Hx. destruct (decide (Q x)) as [Hq|Hq]; [by rewrite F2, H2|]. apply HR in Hx as [Hx|Hx]; [|done].
    by rewrite R2, F1, H1.
  - intros x Hx. rewrite R2, R1; [done|..]; rewrite HR in Hx; tauto.
Qed.

Lemma states_sent P f m s s' : states_set P f s s' -> states_set P f s (send m s').
Proof. intros [S1 P1 O1 F1 R1]. split; [by destruct S1|by destruct P1|done|done|done]. Qed.

Lemma states_after_send P f m s s' : states_set P f (send m s) s' -> states_set P f s s'.
Proof. intros [S1 P1 O1 F1 R1]. split; [by destruct S1|by destruct P1|done|done|done]. Qed.

Lemma notify_removed_states type removed p s guid pp : IsGroup guid = false -> pp_group pp = 0 \/ IsGroup (pp_group pp) = true ->
  states_set (fun x => x ∈ [guid; entry_guid guid pp])
    (fun x => if bool_decide (entry_guid guid pp ∈ removed) then GetOldState x s else LFG_STATE_QUEUED) s
    (notify_removed type removed p s (guid, pp)).
Proof.
  intros Hg Hpp. destruct (entry_group guid pp Hg Hpp) as [[E1 E2]|(E1 & E2 & E3)]; unfold notify_removed;
    rewrite E1, ?E2; cbn [negb]; case_bool_decide as Er; apply states_sent, (states_after_send _ _ (SendLfgUpdateProposal guid p)).
  - destruct (states_restore guid (send (SendLfgUpdateProposal guid p) s)) as [S P O F R]. split; try done.
    + intros x Hx. apply F. set_solver.
    + intros x Hx. apply R. set_solver.
  - destruct (states_queued guid (send (SendLfgUpdateProposal guid p) s)) as [S P O F R]. split; try done.
    + intros x Hx. apply F. set_solver.
    + intros x Hx. apply R. set_solver.
  - eapply (states_then _ _ _ _ _ _ _ _ _ (states_restore guid _) (states_restore (pp_group pp) _)).
    + intros x. rewrite !elem_of_cons, elem_of_nil. naive_solver.
    + intros x <-. by rewrite GetOldState_RestoreState.
    + done.
    + intros x. apply _.
  - eapply (states_then _ _ _ _ _ _ _ _ _ (states_queued guid _) (states_queued (pp_group pp) _)).
    + intros x. rewrite !elem_of_cons, elem_of_nil. naive_solver.
    + done.
    + done.
    + intros x. apply _.
Qed.

(** The entry of a player or group of the proposal. *)
Definition entry_at (players : gmap Z LfgProposalPlayer) (x : Z) : Z :=
  match players !! x with Some pp => entry_guid x pp | None => x end.

Fixpoint touched (l : list (Z * LfgProposalPlayer)) : list Z :=
  match l with [] => [] | (guid, pp) :: l => guid :: entry_guid guid pp :: touched l end.

Lemma elem_of_touched l x : x ∈ touched l <-> exists guid pp, (guid, pp) ∈ l /\ (x = guid \/ x = entry_guid guid pp).
Proof.
  induction l as [|[guid pp] l IH]; cbn.
  - split; [by intros ?%not_elem_of_nil|]. by intros (g & pp & Hx%not_elem_of_nil & _).
  - rewrite !elem_of_cons, IH. setoid_rewrite elem_of_cons. naive_solver.
Qed.

Lemma entry_at_touched players guid pp x : people players -> players !! guid = Some pp ->
  x ∈ [guid; entry_guid guid pp] -> entry_at players x = entry_guid guid pp.
Proof.
  intros Hp Hg. destruct (Hp guid pp Hg) as [Hn Hgr]. rewrite !elem_of_cons, elem_of_nil. intros [->|[->|[]]].
  - unfold entry_at. by rewrite Hg.
  - destruct (entry_group guid pp Hn Hgr) as [[_ E2]|(_ & E2 & E3)]; rewrite E2.
    + unfold entry_at. by rewrite Hg.
    +  unfold entry_at. destruct (players !! pp_group pp) as [pp'|] eqn:Ep; [|done].
      destruct (Hp _ _ Ep) as [Hn' _]. congruence.
Qed.

Lemma notify_removed_all type removed p players l : people players -> (forall guid pp, (guid, pp) ∈ l -> players !! guid = Some pp) ->
  forall s, states_set (fun x => x ∈ touched l)
    (fun x => if bool_decide (entry_at players x ∈ removed) then GetOldState x s else LFG_STATE_QUEUED) s
    (foldl (notify_removed type removed p) s l).
Proof.
  intros Hp. induction l as [|[guid pp] l IH]; intros Hl s; cbn [foldl].
  - split; try done. intros x Hx. by apply not_elem_of_nil in Hx.
  - destruct (Hp guid pp (Hl _ _ (list_elem_of_here _ _))) as [Hn Hgr].
    pose proof (notify_removed_states type removed p s guid pp Hn Hgr) as H1.
    eapply (states_then _ _ _ _ _ _ _ _ _ H1 (IH (fun g q Hq => Hl g q (list_elem_of_further _ _ _ Hq)) _)).
    + intros x. cbn [touched]. rewrite !elem_of_cons, elem_of_nil. tauto.
    + intros x _. by rewrite (ss_old _ _ _ _ H1).
    + intros x Hx _. rewrite (entry_at_touched players guid pp); [done|done|apply Hl; left|done].
    + intros x. apply _.
Qed.

(** ** A proposal that fails *)

(** Somebody of the entry said no, or said nothing and the time was up. *)
Definition declined (type : LfgUpdateType) (p : LfgProposal) (g : Z) : Prop :=
  exists guid pp, pr_players p !! guid = Some pp /\ entry_guid guid pp = g /\
    (pp_accept pp = LFG_ANSWER_DENY \/ pp_accept pp = LFG_ANSWER_PENDING /\ type = LFG_UPDATETYPE_PROPOSAL_FAILED).

(** [x] is the entry [g] of the proposal, or one of its players. *)
Definition involves (p : LfgProposal) (x g : Z) : Prop :=
  exists guid pp, pr_players p !! guid = Some pp /\ entry_guid guid pp = g /\ (x = guid \/ x = g).

(** The players of the proposal are those of its entries, which all wait in
    the queue [t]. *)
Record Formed (t : Z) (p : LfgProposal) (s : LFGMgr) : Prop := {
  fm_some : pr_players p <> ∅;
  fm_people : people (pr_players p);
  fm_entries : forall g, g ∈ pr_queues p <-> exists guid pp, pr_players p !! guid = Some pp /\ entry_guid guid pp = g;
  fm_queue : forall guid, is_Some (pr_players p !! guid) -> GetQueueId guid s = t;
  fm_data : forall g, g ∈ pr_queues p -> is_Some (QueueDataStore (queue_at t s) !! g)
}.

(** The entries in [removed] are out of the queue, the others are in front of
    those who wait, and everybody's state is that of their entry. *)
Record Failed (t : Z) (p : LfgProposal) (removed : list Z) (s s' : LFGMgr) : Prop := {
  fl_new : newToQueueStore (queue_at t s') = leave_out removed (newToQueueStore (queue_at t s));
  fl_current : currentQueueStore (queue_at t s') =
    rev (leave_out removed (pr_queues p)) ++ leave_out removed (currentQueueStore (queue_at t s));
  fl_removed : forall g, g ∈ removed -> QueueDataStore (queue_at t s') !! g = None /\
    forall l, g ∈ l -> GetCompatibles (ConcatenateGuids l) (queue_at t s') = LFG_COMPATIBILITY_PENDING;
  fl_kept : forall g, g ∉ removed ->
    (is_Some (QueueDataStore (queue_at t s') !! g) <-> is_Some (QueueDataStore (queue_at t s) !! g)) /\
    entry_dungeons (queue_at t s') g = entry_dungeons (queue_at t s) g /\
    entry_roles (queue_at t s') g = entry_roles (queue_at t s) g;
  fl_restored : forall x g, involves p x g -> g ∈ removed -> GetState x s' = GetOldState x s;
  fl_queued : forall x g, involves p x g -> g ∉ removed -> GetState x s' = LFG_STATE_QUEUED;
  fl_others : forall x, (forall g, ~ involves p x g) -> GetState x s' = GetState x s;
  fl_queues : forall id, id <> t -> queue_at id s' = queue_at id s
}.

Definition answered (type : LfgUpdateType) (pp : LfgProposalPlayer) : LfgProposalPlayer :=
  let pp := mark_unanswered type pp in if refuses type pp then set_accept LFG_ANSWER_DENY pp else pp.

Lemma answered_group type pp : pp_group (answered type pp) = pp_group pp.
Proof. unfold answered, mark_unanswered. by destruct (_ && _); cbn; destruct (refuses _ _). Qed.

Lemma refuses_spec type pp : refuses type (mark_unanswered type pp) = true <->
  pp_accept pp = LFG_ANSWER_DENY \/ pp_accept pp = LFG_ANSWER_PENDING /\ type = LFG_UPDATETYPE_PROPOSAL_FAILED.
Proof.
  unfold refuses, mark_unanswered. destruct pp as [role [] group]; cbn [pp_accept set_accept];
    destruct (decide (type = LFG_UPDATETYPE_PROPOSAL_FAILED)) as [E|E];
    rewrite ?(bool_decide_eq_true_2 _ E), ?(bool_decide_eq_false_2 _ E); cbn; naive_solver.
Qed.

Lemma to_remove_spec type p g :
  g ∈ to_remove type (set_proposal_players LFG_PROPOSAL_FAILED (mark_unanswered type <$> pr_players p) p) <-> declined type p g.
Proof.
  unfold to_remove, declined. rewrite elem_of_list_to_set, list_elem_of_fmap. split.
  - intros ([guid pp] & -> & H). rewrite list_elem_of_In, filter_In, <- list_elem_of_In in H. destruct H as [H1 H2].
    apply elem_of_players in H1. cbn in H1. apply lookup_fmap_Some in H1 as (pp0 & <- & H1). exists guid, pp0.
    split; [done|]. split; [|by apply refuses_spec]. unfold entry_guid, mark_unanswered. by destruct (_ && _).
  - intros (guid & pp & H1 & <- & H2). exists (guid, mark_unanswered type pp). split.
    + unfold entry_guid, mark_unanswered. by destruct (_ && _).
    + rewrite list_elem_of_In, filter_In, <- list_elem_of_In. split; [|by apply refuses_spec].
      apply elem_of_players. cbn. by rewrite lookup_fmap, H1.
Qed.

(** The proposal as it is shown to the players. *)
Definition failed_proposal (type : LfgUpdateType) (p : LfgProposal) : LfgProposal :=
  set_proposal_players LFG_PROPOSAL_FAILED
    ((fun pp => if refuses type pp then set_accept LFG_ANSWER_DENY pp else pp) <$> (mark_unanswered type <$> pr_players p)) p.

Lemma failed_players type p guid : pr_players (failed_proposal type p) !! guid = answered type <$> pr_players p !! guid.
Proof. cbn. rewrite !lookup_fmap. by destruct (pr_players p !! guid). Qed.

Lemma failed_involves type p x g : involves (failed_proposal type p) x g <-> involves p x g.
Proof.
  unfold involves. setoid_rewrite failed_players. split.
  - intros (guid & pp & (pp0 & E & ->)%fmap_Some & <- & Hx). exists guid, pp0. unfold entry_guid in *. by rewrite answered_group in *.
  - intros (guid & pp & E & <- & Hx). exists guid, (answered type pp). rewrite E. unfold entry_guid in *. by rewrite answered_group.
Qed.

(** The states after everybody was notified. *)
Lemma notify_failed type p removed s : people (pr_players p) ->
  let s1 := foldl (notify_removed type removed (failed_proposal type p)) s (players_of (failed_proposal type p)) in
  stores_kept s s1 /\ places_kept s s1 /\
  (forall x g, involves p x g -> GetState x s1 = if bool_decide (g ∈ removed) then GetOldState x s else LFG_STATE_QUEUED) /\
  (forall x, (forall g, ~ involves p x g) -> GetState x s1 = GetState x s).
Proof.
  intros Hp. set (p2 := failed_proposal type p). assert (Hp2 : people (pr_players p2)).
  { intros guid pp. unfold p2. rewrite failed_players. intros (pp0 & E & ->)%fmap_Some. rewrite answered_group. by apply Hp. }
  destruct (notify_removed_all type removed p2 (pr_players p2) (players_of p2) Hp2
    (fun guid pp => proj1 (elem_of_players p2 guid pp)) s) as [K P O F R].
  assert (Htouch : forall x, x ∈ touched (players_of p2) <-> exists g, involves p x g).
  { intros x. rewrite elem_of_touched. setoid_rewrite <- (failed_involves type). unfold involves. fold p2.
    setoid_rewrite elem_of_players. naive_solver. }
  split; [done|]. split; [done|]. split.
  - intros x g Hx. rewrite F by (apply Htouch; by exists g). apply (failed_involves type) in Hx as (guid & pp & E & <- & Hx).
    fold p2 in E. rewrite (entry_at_touched _ guid pp); [done|done|done|]. rewrite !elem_of_cons. tauto.
  - intros x Hx. apply R. rewrite Htouch. by intros [g Hg%Hx].
Qed.

Definition removed_of (type : LfgUpdateType) (p : LfgProposal) : gset Z :=
  to_remove type (set_proposal_players LFG_PROPOSAL_FAILED (mark_unanswered type <$> pr_players p) p).

(** The queue after those who declined left and the others came back. *)
Lemma requeue now t p removed s : (forall g, g ∈ pr_queues p -> is_Some (QueueDataStore (queue_at t s) !! g)) ->
  let s2 := foldl (fun s guid => queue_Remove t now guid s) s removed in
  let s3 := foldl (fun s guid => on_queue t (AddToQueue guid true) s) s2 (leave_out removed (pr_queues p)) in
  queues_only s s3 /\ (exists q, forgotten_all removed (queue_at t s) q /\
    queue_at t s3 = set_current (rev (leave_out removed (pr_queues p)) ++ currentQueueStore q) q) /\
  forall id, id <> t -> queue_at id s3 = queue_at id s.
Proof.
  intros Hd s2. destruct (remove_all_queue t now removed s) as (Q1 & FA & O1). fold s2 in Q1, FA, O1. clearbody s2.
  destruct (readd_all t (leave_out removed (pr_queues p)) s2) as (Q2 & RA & O2).
  { intros g [Hg Hr]%elem_of_leave_out. apply (fa_others _ _ _ FA); [done|]. by apply Hd. }
  split; [by eapply queues_only_trans|]. split; [by exists (queue_at t s2)|].
  intros id Hid. by rewrite O2, O1.
Qed.

Lemma RemoveProposal_fails now id type t p s : ProposalsStore s !! id = Some p -> Formed t p s ->
  exists s' removed, RemoveProposal now id type s = Some s' /\ (forall g, g ∈ removed <-> declined type p g) /\
    ProposalsStore s' = delete id (ProposalsStore s) /\ Failed t p removed s s'.
Proof.
  intros Hid [Hsome Hpeople Hent Hq Hdata]. unfold RemoveProposal. rewrite Hid. cbn [mbind option_bind].
  change (to_remove type _) with (removed_of type p).
  change (set_proposal_players LFG_PROPOSAL_FAILED _ (set_proposal_players _ _ p)) with (failed_proposal type p).
  set (removed := in_order (removed_of type p)).
  assert (Hrem : forall g, g ∈ removed <-> declined type p g)
    by (intros g; unfold removed; rewrite elem_of_in_order; apply to_remove_spec).
  destruct (notify_failed type p (removed_of type p) s Hpeople) as (K & P & F & R).
  set (s1 := foldl _ s (players_of _)) in *. clearbody s1.
  assert (Hkeys : forall guid, guid ∈ in_order (dom (pr_players (failed_proposal type p))) <-> is_Some (pr_players p !! guid)).
  { intros guid. rewrite elem_of_in_order, elem_of_dom, failed_players. apply fmap_is_Some. }
  destruct (in_order (dom (pr_players (failed_proposal type p)))) as [|first rest] eqn:Ef.
  { exfalso. apply Hsome, map_eq. intros guid. rewrite lookup_empty. destruct (pr_players p !! guid) eqn:E; [|done].
    destruct (not_elem_of_nil guid). apply Hkeys. by rewrite E. }
  cbn [head mbind option_bind]. assert (Et : GetQueueId first s1 = t).
  { rewrite (places_queue _ _ _ P). apply Hq, Hkeys. left. }
  rewrite Et, remove_guids. change (pr_queues (failed_proposal type p)) with (pr_queues p).
  destruct (requeue now t p removed s1) as (Q & (q & [FN FC FD FO FK] & Eq) & QO).
  { intros g Hg. rewrite (queue_at_kept _ _ _ K). by apply Hdata. }
  fold removed. rewrite (queue_at_kept _ _ _ K) in FN, FC, FK. setoid_rewrite (queue_at_kept _ _ t K) in FO. set (s3 := foldl _ (foldl _ s1 removed) _) in *. clearbody s3.
  assert (HS : forall x, GetState x s3 = GetState x s1) by (intros x; rewrite Q; reflexivity).
  eexists _, removed. split; [reflexivity|]. split; [exact Hrem|].
  split; [cbn; rewrite Q; cbn; by rewrite (sk_proposals _ _ K)|].
  assert (Hd : forall g, g ∈ removed_of type p <-> g ∈ removed) by (intros g; unfold removed; by rewrite elem_of_in_order).
  assert (Ed : forall g, QueueDataStore (queue_at t s3) !! g = QueueDataStore q !! g) by (intros g; by rewrite Eq).
  split.
  - change (newToQueueStore (queue_at t s3) = leave_out removed (newToQueueStore (queue_at t s))). by rewrite Eq.
  - change (currentQueueStore (queue_at t s3) = rev (leave_out removed (pr_queues p)) ++ leave_out removed (currentQueueStore (queue_at t s))).
    rewrite Eq. cbn. by rewrite FC.
  - intros g Hg. split; [change (QueueDataStore (queue_at t s3) !! g = None); rewrite Ed; by apply FD|].
    intros l Hl. change (GetCompatibles (ConcatenateGuids l) (queue_at t s3) = LFG_COMPATIBILITY_PENDING).
    rewrite Eq. unfold GetCompatibles. cbn. rewrite FK. replace (existsb _ removed) with true; [done|].
    symmetry. apply existsb_elem. exists g. split; [done|]. by apply contains_key.
  - intros g Hg. destruct (FO g Hg) as (H1 & H2 & H3).
    change (queue_at t (set_proposals _ _ s3)) with (queue_at t s3). by rewrite Eq.
  - intros x g Hx Hg. change (GetState x s3 = GetOldState x s). rewrite HS, (F x g Hx). by rewrite bool_decide_eq_true_2 by by apply Hd.
  - intros x g Hx Hg. change (GetState x s3 = LFG_STATE_QUEUED). rewrite HS, (F x g Hx). by rewrite bool_decide_eq_false_2 by by rewrite Hd.
  - intros x Hx. change (GetState x s3 = GetState x s). rewrite HS. by apply R.
  - intros i Hi. change (queue_at i s3 = queue_at i s). rewrite QO by done. by rewrite (queue_at_kept _ _ _ K).
Qed.

(** ** A proposal that succeeds *)

(** No counter of the wait times is about to wrap. *)
Definition store_ok (n : Z) (store : LfgWaitTimesContainer) : Prop :=
  map_Forall (fun _ wt => 0 <= wt_number wt /\ wt_number wt + n < 2 ^ 32) store.

Record waits_ok (n : Z) (w : WaitTimes) : Prop := {
  wk_avg : store_ok n (waitTimesAvgStore w); wk_tank : store_ok n (waitTimesTankStore w);
  wk_healer : store_ok n (waitTimesHealerStore w); wk_dps : store_ok n (waitTimesDpsStore w)
}.

Lemma store_ok_less n n' store : n' <= n -> store_ok n store -> store_ok n' store.
Proof. intros Hn H id wt Hid. specialize (H id wt Hid). cbn in *. lia. Qed.

Lemma update_wait_ok n wait id store : 0 <= n < 2 ^ 31 -> store_ok (n + 1) store ->
  exists store', update_wait wait id store = Some store' /\ store_ok n store'.
Proof.
  intros Hn H. unfold update_wait, add_wait, wait_of.
  assert (Hd : 0 <= wt_number (default LfgWaitTime_default (store !! id)) /\ wt_number (default LfgWaitTime_default (store !! id)) + (n + 1) < 2 ^ 32).
  { destruct (store !! id) as [wt|] eqn:E; cbn; [by apply (H id wt)|lia]. }
  set (wt := default _ _) in *. rewrite u32_small by lia. replace (wt_number wt + 1 =? 0) with false by lia.
  eexists. split; [done|]. apply map_Forall_insert_2; [cbn; lia|]. eapply store_ok_less; [|exact H]. lia.
Qed.

Lemma update_waits_ok (b1 b2 b3 : bool) n wait id w : 0 <= n < 2 ^ 31 -> waits_ok (n + 1) w ->
  exists w', (if b1 then UpdateWaitTimeDps wait id w else if b2 then UpdateWaitTimeHealer wait id w
              else if b3 then UpdateWaitTimeTank wait id w else UpdateWaitTimeAvg wait id w) = Some w' /\ waits_ok n w'.
Proof.
  intros Hn [A T H D]. assert (Hl : n <= n + 1) by lia.
  destruct b1; [|destruct b2; [|destruct b3]]; unfold UpdateWaitTimeDps, UpdateWaitTimeHealer, UpdateWaitTimeTank, UpdateWaitTimeAvg.
  - destruct (update_wait_ok n wait id _ Hn D) as (s' & -> & Hs). eexists. split; [done|]. split; by eauto using store_ok_less.
  - destruct (update_wait_ok n wait id _ Hn H) as (s' & -> & Hs). eexists. split; [done|]. split; by eauto using store_ok_less.
  - destruct (update_wait_ok n wait id _ Hn T) as (s' & -> & Hs). eexists. split; [done|]. split; by eauto using store_ok_less.
  - destruct (update_wait_ok n wait id _ Hn A) as (s' & -> & Hs). eexists. split; [done|]. split; by eauto using store_ok_less.
Qed.

(** The states of the players, and the queues. *)
Record moved_in (l : list (Z * LfgProposalPlayer)) (s s' : LFGMgr) : Prop := {
  mi_queues : QueuesStore s' = QueuesStore s;
  mi_proposals : m_lfgProposalId s' = m_lfgProposalId s /\ ProposalsStore s' = ProposalsStore s;
  mi_groups : GroupsStore s' = GroupsStore s;
  mi_places : places_kept s s';
  mi_selected : forall guid, GetSelectedDungeons guid s' = GetSelectedDungeons guid s;
  mi_players : forall guid, guid ∈ fst <$> l -> GetState guid s' = LFG_STATE_DUNGEON;
  mi_others : forall guid, guid ∉ fst <$> l -> GetState guid s' = GetState guid s
}.

Lemma accept_player_in now t sendUpdate data p n guid pp s : IsGroup guid = false -> GetSelectedDungeons guid s <> ∅ ->
  0 <= n < 2 ^ 31 -> waits_ok (n + 1) (waits_at t s) ->
  exists s', accept_player now t sendUpdate data p (guid, pp) s = Some s' /\ moved_in [(guid, pp)] s s' /\ waits_ok n (waits_at t s').
Proof.
  intros Hg Hd Hn Hw. unfold accept_player. destruct (in_order (GetSelectedDungeons guid s)) as [|id rest] eqn:E.
  { exfalso. apply Hd, leibniz_equiv. intros x. rewrite <- elem_of_in_order, E. split; [by intros ?%not_elem_of_nil|set_solver]. }
  cbn [head mbind option_bind]. set (s1 := send _ _).
  assert (H1 : waits_at t s1 = waits_at t s /\ QueuesStore s1 = QueuesStore s /\ m_lfgProposalId s1 = m_lfgProposalId s /\
    ProposalsStore s1 = ProposalsStore s /\ GroupsStore s1 = GroupsStore s /\ PlayersStore s1 = PlayersStore s)
    by (unfold s1; by destruct sendUpdate).
  destruct H1 as (W & Q & I & P & G & Pl). clearbody s1. rewrite W.
  match goal with |- context [(if ?b1 then UpdateWaitTimeDps ?w ?i _ else if ?b2 then _ else if ?b3 then _ else _)] =>
    destruct (update_waits_ok b1 b2 b3 n w i (waits_at t s) Hn Hw) as (w' & Ew & Hw') end.
  rewrite Ew. cbn [mbind option_bind]. eexists. split; [done|]. unfold SetState. rewrite Hg. split.
  - assert (Hpd : forall x, player_data x s1 = player_data x s) by (intros x; unfold player_data; by rewrite Pl).
    split; try done.
    + split; intros x; unfold GetTeam, GetGroup, GetPlayers, group_data; cbn; rewrite ?G; try done;
        rewrite player_data_on; case_decide as Ex; rewrite ?Ex; apply (f_equal _ (Hpd _)).
    + intros x. unfold GetSelectedDungeons. rewrite player_data_on. case_decide as Ex; rewrite ?Ex; apply (f_equal _ (Hpd _)).
    + intros x Hx%list_elem_of_singleton. cbn in Hx. subst x. unfold GetState. by rewrite Hg, player_data_on, decide_True.
    + intros x Hx. change (x ∉ [guid]) in Hx. rewrite list_elem_of_singleton in Hx. unfold GetState. rewrite player_data_on, decide_False by done.
      unfold group_data. cbn. rewrite G. destruct (IsGroup x); [done|]. apply (f_equal _ (Hpd _)).
  - unfold waits_at at 1. cbn. by rewrite lookup_insert_eq.
Qed.

Lemma accept_players_in now t sendUpdate data p l : forall s, Forall (fun '(guid, _) => IsGroup guid = false) l ->
  Forall (fun '(guid, _) => GetSelectedDungeons guid s <> ∅) l -> Z.of_nat (length l) < 2 ^ 31 ->
  waits_ok (Z.of_nat (length l)) (waits_at t s) ->
  exists s', accept_players now t sendUpdate data p l s = Some s' /\ moved_in l s s'.
Proof.
  induction l as [|[guid pp] l IH]; intros s Hg Hd Hn Hw; cbn [accept_players].
  - exists s. split; [done|]. split; try done. intros guid H. by apply not_elem_of_nil in H.
  - inversion_clear Hg as [|? ? Hg1 Hg2]. inversion_clear Hd as [|? ? Hd1 Hd2]. cbn [length] in Hn, Hw.
    destruct (accept_player_in now t sendUpdate data p (Z.of_nat (length l)) guid pp s Hg1 Hd1) as (s1 & -> & M & W);
      [lia|by replace (Z.of_nat (length l) + 1) with (Z.of_nat (S (length l))) by lia|]. cbn [mbind option_bind].
    destruct M as [M1 [M2 M3] M4 M5 M6 M7 M8].
    destruct (IH s1) as (s' & -> & [N1 [N2 N3] N4 N5 N6 N7 N8]); [done| |lia|done|].
    { eapply Forall_impl; [exact Hd2|]. intros [g q]. by rewrite M6. }
    exists s'. split; [done|]. split; [congruence|split; congruence|congruence|by etrans|intros x; by rewrite N6| |].
    + intros x. cbn. rewrite elem_of_cons. intros Hx. destruct (decide (x ∈ fst <$> l)) as [Hl|Hl]; [by apply N7|].
      rewrite N8 by done. apply M7. cbn. destruct Hx as [->|]; [left|done].
    + intros x. cbn. rewrite elem_of_cons. intros Hx. rewrite N8 by tauto. apply M8. cbn. rewrite list_elem_of_singleton. tauto.
Qed.

(** ** Making the group *)

(** Who goes first: the leader, then tanks, healers and the others. Nobody is
    forgotten and nobody comes twice. *)
Lemma group_order_players p : known_roles p = true -> group_order p ≡ₚ fst <$> players_of p.
Proof.
  unfold known_roles, group_order, of_role. induction (players_of p) as [|[guid pp] l IH]; [done|]. cbn [forallb fmap list_fmap].
  intros [Hr Hl]%andb_true_iff. etrans; [|apply perm_skip, (IH Hl)]. clear IH Hl. cbn [List.filter fst].
  destruct (guid =? pr_leader p); cbn [negb andb orb fmap list_fmap fst] in *; [done|].
  cbn [existsb] in Hr. unfold PLAYER_ROLE_TANK, PLAYER_ROLE_HEALER, PLAYER_ROLE_DAMAGE in *.
  destruct (no_leader (pp_role pp) =? 2) eqn:E2, (no_leader (pp_role pp) =? 4) eqn:E4, (no_leader (pp_role pp) =? 8) eqn:E8;
    cbn [fmap list_fmap fst app]; try lia; try done; by repeat rewrite <- Permutation_middle.
Qed.

(** ** Answers *)

Fixpoint answer_all (now id : Z) (answers : list (Z * bool)) (s : LFGMgr) : option LFGMgr :=
  match answers with
  | [] => Some s
  | (guid, accept) :: answers => s ← UpdateProposal now id guid accept s; answer_all now id answers s
  end.

(** The players with what was said. *)
Definition with_answers (said : list (Z * bool)) (players : gmap Z LfgProposalPlayer) : gmap Z LfgProposalPlayer :=
  map_imap (fun guid pp => Some (if bool_decide ((guid, true) ∈ said) then set_accept LFG_ANSWER_AGREE pp else pp)) players.

Definition told (said : list (Z * bool)) (p : LfgProposal) : LfgProposal :=
  set_proposal_players (pr_state p) (with_answers said (pr_players p)) p.

Definition is_player (p : LfgProposal) (guid : Z) : Prop := is_Some (pr_players p !! guid).

Definition unanimous (p : LfgProposal) (said : list (Z * bool)) : Prop :=
  forall guid pp, pr_players p !! guid = Some pp -> pp_accept pp = LFG_ANSWER_AGREE \/ (guid, true) ∈ said.

(** No player refused, and a player who spoke was not the last to agree. *)
Definition undecided (p : LfgProposal) (said : list (Z * bool)) : Prop :=
  (forall guid, is_player p guid -> (guid, false) ∉ said) /\
  ((exists guid, is_player p guid /\ (guid, true) ∈ said) -> ~ unanimous p said).

(** Only what the players said is noted. *)
Record Waiting (id : Z) (p : LfgProposal) (said : list (Z * bool)) (s s' : LFGMgr) : Prop := {
  wt_id : m_lfgProposalId s' = m_lfgProposalId s;
  wt_proposals : ProposalsStore s' = <[id := told said p]> (ProposalsStore s);
  wt_queues : QueuesStore s' = QueuesStore s;
  wt_waits : WaitTimesStore s' = WaitTimesStore s;
  wt_players : PlayersStore s' = PlayersStore s;
  wt_groups : GroupsStore s' = GroupsStore s
}.

(** Everybody of the proposal has left the queue for the dungeon. *)
Record Together (t : Z) (p : LfgProposal) (s s' : LFGMgr) : Prop := {
  tg_queue : forgotten_all (pr_queues p) (queue_at t s) (queue_at t s');
  tg_queues : forall id, id <> t -> queue_at id s' = queue_at id s;
  tg_players : forall guid, is_player p guid -> GetState guid s' = LFG_STATE_DUNGEON;
  tg_others : forall guid, ~ is_player p guid -> GetState guid s' = GetState guid s;
  tg_groups : GroupsStore s' = GroupsStore s
}.

(** The group [g] enters the dungeon, and those who were not in it are
    teleported. *)
Record Entered (id g : Z) (dungeon : LFGDungeonData) (newcomers : list Z) (s s' : LFGMgr) : Prop := {
  en_state : GetState g s' = LFG_STATE_DUNGEON;
  en_dungeon : gr_Dungeon (group_data g s') = Entry dungeon;
  en_others : forall x, x <> g -> GetState x s' = GetState x s;
  en_queues : QueuesStore s' = QueuesStore s;
  en_proposals : ProposalsStore s' = delete id (ProposalsStore s);
  en_teleported : sent s' = sent s ++ (TeleportPlayer <$> newcomers)
}.

(** Who has to be teleported. *)
Definition newcomers_of (p : LfgProposal) (s : LFGMgr) : list Z :=
  List.filter (fun guid => pr_isNew p || negb (GetGroup guid s =? pr_group p)) (in_order (dom (pr_players p))).

Lemma lookup_with_answers said players guid : with_answers said players !! guid =
  (fun pp => if bool_decide ((guid, true) ∈ said) then set_accept LFG_ANSWER_AGREE pp else pp) <$> players !! guid.
Proof. unfold with_answers. rewrite map_lookup_imap. by destruct (players !! guid). Qed.

Lemma with_answers_nil players : with_answers [] players = players.
Proof.
  apply map_eq. intros guid. rewrite lookup_with_answers, bool_decide_eq_false_2 by apply not_elem_of_nil.
  apply option_fmap_id.
Qed.

Lemma told_stranger said p word : ~ is_player p word.1 -> told (said ++ [word]) p = told said p.
Proof.
  intros Hw. unfold told. f_equal. apply map_eq. intros guid. rewrite !lookup_with_answers.
  destruct (pr_players p !! guid) as [pp|] eqn:E; [|done]. cbn. f_equal. erewrite bool_decide_ext; [done|].
  rewrite elem_of_app, list_elem_of_singleton. split; [|by left]. intros [H|<-]; [done|]. destruct Hw. by exists pp.
Qed.

Lemma told_yes said p guid pp : pr_players p !! guid = Some pp ->
  <[guid := set_accept LFG_ANSWER_AGREE pp]> (with_answers said (pr_players p)) = with_answers (said ++ [(guid, true)]) (pr_players p).
Proof.
  intros E. apply map_eq. intros x. rewrite lookup_with_answers. destruct (decide (x = guid)) as [->|Hne].
  - rewrite lookup_insert_eq, E. cbn. rewrite bool_decide_eq_true_2; [done|]. apply elem_of_app. right. left.
  - rewrite lookup_insert_ne, lookup_with_answers by done. destruct (pr_players p !! x); [|done]. cbn. f_equal.
    erewrite bool_decide_ext; [done|]. rewrite elem_of_app, list_elem_of_singleton. split; [by left|]. intros [H|[=]]; done.
Qed.

Lemma all_agree_told p said : all_agree (told said p) = true <-> unanimous p said.
Proof.
  unfold all_agree, unanimous. rewrite forallb_forall. split.
  - intros H guid pp E. specialize (H (guid, if bool_decide ((guid, true) ∈ said) then set_accept LFG_ANSWER_AGREE pp else pp)).
    case_bool_decide as Hs; [by right|]. left. refine (bool_decide_eq_true_1 _ (H _)). apply list_elem_of_In, elem_of_players. cbn.
    by rewrite lookup_with_answers, E; cbn; rewrite bool_decide_eq_false_2.
  - intros H [guid pp] Hin. apply list_elem_of_In, elem_of_players in Hin. cbn in Hin.
    rewrite lookup_with_answers in Hin. apply fmap_Some in Hin as (pp0 & E & ->). apply bool_decide_eq_true.
    case_bool_decide as Hs; [done|]. by destruct (H guid pp0 E).
Qed.

(** *** Proposals and managers that differ in answers only *)

Record like (s s' : LFGMgr) : Prop := {
  lk_queues : QueuesStore s' = QueuesStore s;
  lk_players : PlayersStore s' = PlayersStore s;
  lk_groups : GroupsStore s' = GroupsStore s
}.

Lemma like_state s s' x : like s s' -> GetState x s' = GetState x s /\ GetOldState x s' = GetOldState x s.
Proof. intros [_ P G]. unfold GetState, GetOldState, player_data, group_data. by rewrite P, G. Qed.

Lemma like_queue s s' id : like s s' -> queue_at id s' = queue_at id s.
Proof. intros [Q _ _]. unfold queue_at. by rewrite Q. Qed.

Lemma like_places s s' : like s s' -> places_kept s s'.
Proof. intros [_ P G]. split; intros x; unfold GetTeam, GetGroup, GetPlayers, player_data, group_data; by rewrite ?P, ?G. Qed.

Lemma Waiting_like id p said s s' : Waiting id p said s s' -> like s s'.
Proof. intros []. by split. Qed.

Definition same_entries (p p' : LfgProposal) : Prop :=
  pr_queues p' = pr_queues p /\ forall guid, pp_group <$> pr_players p' !! guid = pp_group <$> pr_players p !! guid.

Lemma same_entries_sym p p' : same_entries p p' -> same_entries p' p.
Proof. intros [Q H]. split; [done|]. intros guid. by rewrite H. Qed.

Lemma same_entries_at p p' guid pp : same_entries p p' -> pr_players p !! guid = Some pp ->
  exists pp', pr_players p' !! guid = Some pp' /\ pp_group pp' = pp_group pp /\ entry_guid guid pp' = entry_guid guid pp.
Proof.
  intros [_ H] E. specialize (H guid). rewrite E in H. cbn in H. apply fmap_Some in H as (pp' & E' & Hg). exists pp'.
  unfold entry_guid. by rewrite E', Hg.
Qed.

Lemma same_entries_exists p p' (P : Z -> Z -> Prop) : same_entries p p' ->
  (exists guid pp, pr_players p !! guid = Some pp /\ P guid (entry_guid guid pp)) ->
  exists guid pp, pr_players p' !! guid = Some pp /\ P guid (entry_guid guid pp).
Proof.
  intros H (guid & pp & E & HP). destruct (same_entries_at p p' guid pp H E) as (pp' & E' & _ & Hg). exists guid, pp'. by rewrite Hg.
Qed.

Lemma same_involves p p' x g : same_entries p p' -> involves p' x g <-> involves p x g.
Proof.
  intros H. unfold involves. split; apply (same_entries_exists _ _ (fun guid e => e = g /\ (x = guid \/ x = g)));
    [by apply same_entries_sym|done].
Qed.

Lemma Formed_like t p p' s s' : same_entries p p' -> like s s' -> Formed t p s -> Formed t p' s'.
Proof.
  intros H L [Hsome Hpeople Hent Hq Hdata]. pose proof (same_entries_sym p p' H) as H'. split.
  - intros Hn. apply Hsome, map_eq. intros guid. rewrite lookup_empty. destruct (pr_players p !! guid) as [pp|] eqn:E; [|done].
    destruct (same_entries_at p p' guid pp H E) as (pp' & E' & _). by rewrite Hn in E'.
  - intros guid pp' E'. destruct (same_entries_at p' p guid pp' H' E') as (pp & E & Hg & _). rewrite <- Hg. by apply (Hpeople guid).
  - intros g. rewrite (proj1 H), Hent. split; by apply (same_entries_exists _ _ (fun guid e => e = g)).
  - intros guid [pp' E']. destruct (same_entries_at p' p guid pp' H' E') as (pp & E & _).
    rewrite (places_queue _ _ _ (like_places _ _ L)). apply Hq. by exists pp.
  - intros g. rewrite (proj1 H), (like_queue _ _ t L). apply Hdata.
Qed.

Lemma Failed_like t p p' removed s s1 s' : same_entries p p' -> like s s1 -> Failed t p' removed s1 s' -> Failed t p removed s s'.
Proof.
  intros H L [F1 F2 F3 F4 F5 F6 F7 F8].
  rewrite (like_queue _ _ t L) in F1, F2. setoid_rewrite (like_queue _ _ t L) in F4. rewrite (proj1 H) in F2.
  assert (HI : forall x g, involves p' x g <-> involves p x g) by (intros x g; by apply same_involves).
  split; [done|done|done|done| | | |].
  - intros x g Hx Hg. rewrite <- (proj2 (like_state _ _ x L)). apply (F5 x g); [by apply HI|done].
  - intros x g Hx Hg. apply (F6 x g); [by apply HI|done].
  - intros x Hx. rewrite <- (proj1 (like_state _ _ x L)). apply F7. intros g Hg. by apply (Hx g), HI.
  - intros i Hi. by rewrite F8, (like_queue _ _ i L).
Qed.

Lemma same_told said p : same_entries p (told said p).
Proof. split; [done|]. intros guid. cbn. rewrite lookup_with_answers. destruct (pr_players p !! guid); [|done]. cbn. by case_bool_decide. Qed.

Lemma same_answer p guid answer pp state : pr_players p !! guid = Some pp ->
  same_entries p (set_proposal_players state (<[guid := set_accept answer pp]> (pr_players p)) p).
Proof.
  intros E. split; [done|]. intros x. cbn. destruct (decide (x = guid)) as [->|Hne]; [by rewrite lookup_insert_eq, E|].
  by rewrite lookup_insert_ne.
Qed.

Lemma entries_trans p p' p'' : same_entries p p' -> same_entries p' p'' -> same_entries p p''.
Proof. intros [Q H] [Q' H']. split; [congruence|]. intros guid. by rewrite H', H. Qed.

(** *** One answer *)

Lemma foldl_send {A} (m : A -> LfgMessage) l : forall s, let s' := foldl (fun s x => send (m x) s) s l in
  stores_kept s s' /\ like s s' /\ sent s' = sent s ++ (m <$> l).
Proof.
  induction l as [|x l IH]; intros s; cbn [foldl fmap list_fmap].
  - rewrite app_nil_r. by split_and!; split.
  - destruct (IH (send (m x) s)) as ([] & [] & E). split; [by split|]. split; [by split|]. rewrite E. cbn. by rewrite <- app_assoc.
Qed.

(** Nobody has refused yet. *)
Definition hopeful (p : LfgProposal) : Prop := map_Forall (fun _ pp => pp_accept pp <> LFG_ANSWER_DENY) (pr_players p).

Lemma hopeful_told p said guid pp : hopeful p -> pr_players (told said p) !! guid = Some pp -> pp_accept pp <> LFG_ANSWER_DENY.
Proof.
  intros H. cbn. rewrite lookup_with_answers. intros (pp0 & E & ->)%fmap_Some. case_bool_decide; [done|]. by apply (H guid).
Qed.

Lemma answer_no now id t p said guid pp s0 s : Formed t p s0 -> hopeful p -> Waiting id p said s0 s ->
  pr_players p !! guid = Some pp ->
  exists s' removed, UpdateProposal now id guid false s = Some s' /\ (forall g, g ∈ removed <-> g = entry_guid guid pp) /\
    ProposalsStore s' = delete id (ProposalsStore s0) /\ Failed t p removed s0 s'.
Proof.
  intros Hf Hh W E. unfold UpdateProposal. rewrite (wt_proposals _ _ _ _ _ W), lookup_insert_eq.
  destruct (same_entries_at p (told said p) guid pp (same_told said p) E) as (pp1 & E1 & _ & Eg). rewrite E1. cbn [negb].
  set (p1 := set_proposal_players _ _ _). set (s1 := set_proposals _ _ s).
  assert (H1 : same_entries p p1) by (eapply entries_trans; [apply same_told|by apply same_answer]).
  assert (L : like s0 s1) by (destruct W; by split).
  destruct (RemoveProposal_fails now id LFG_UPDATETYPE_PROPOSAL_DECLINED t p1 s1) as (s' & removed & -> & Hrem & Hst & HF).
  { apply lookup_insert_eq. } { by eapply Formed_like. }
  exists s', removed. split; [done|]. split; [|split; [|by eapply Failed_like]].
  - intros g. rewrite Hrem, <- Eg. unfold declined. cbn [pr_players p1 set_proposal_players]. split.
    + intros (x & q & Ex & <- & Hq). destruct (decide (x = guid)) as [->|Hne].
      * unfold p1 in Ex. cbn in Ex. rewrite lookup_insert_eq in Ex. by simplify_eq.
      * unfold p1 in Ex. cbn [pr_players set_proposal_players] in Ex. rewrite lookup_insert_ne in Ex by done.
        destruct Hq as [Hq|[_ [=]]]. by destruct (hopeful_told p said x q Hh Ex).
    + intros ->. exists guid, (set_accept LFG_ANSWER_DENY pp1). unfold p1. cbn. rewrite lookup_insert_eq. by split_and!; try left.
  - rewrite Hst. cbn. by rewrite !delete_insert_eq.
Qed.

Lemma yes_proposal p said guid pp1 : pr_players (told said p) !! guid = Some pp1 ->
  <[guid := set_accept LFG_ANSWER_AGREE pp1]> (pr_players (told said p)) = with_answers (said ++ [(guid, true)]) (pr_players p).
Proof.
  cbn. intros E. rewrite lookup_with_answers in E. apply fmap_Some in E as (pp & E & ->). rewrite <- (told_yes said p guid pp E).
  f_equal. by case_bool_decide.
Qed.

Lemma answer_yes now id p said guid s0 s : Waiting id p said s0 s -> is_player p guid -> ~ unanimous p (said ++ [(guid, true)]) ->
  exists s', UpdateProposal now id guid true s = Some s' /\ Waiting id p (said ++ [(guid, true)]) s0 s'.
Proof.
  intros W [pp E] Hn. unfold UpdateProposal. rewrite (wt_proposals _ _ _ _ _ W), lookup_insert_eq.
  destruct (same_entries_at p (told said p) guid pp (same_told said p) E) as (pp1 & E1 & _ & Eg). rewrite E1. cbn [negb].
  rewrite (yes_proposal p said guid pp1 E1).
  change (set_proposal_players _ _ (told said p)) with (told (said ++ [(guid, true)]) p).
  destruct (all_agree (told (said ++ [(guid, true)]) p)) eqn:Ha; [by apply all_agree_told in Ha|]. cbn [negb].
  eexists. split; [done|]. match goal with |- Waiting _ _ _ _ (foldl ?f ?s1 ?l) =>
    destruct (foldl_send (fun player => SendLfgUpdateProposal player.1 (told (said ++ [(guid, true)]) p)) l s1) as (K & L & _) end.
  destruct W as [W1 W2 W3 W4 W5 W6], K as [K1 _ K3 K4 _ K6 _], L as [_ L2 L3]. cbn in K1, K3, K4, K6, L2, L3.
  split; [by rewrite K1| |by rewrite K3|by rewrite K4|by rewrite L2|by rewrite L3].
  by rewrite K6, insert_insert_eq.
Qed.

Lemma answer_stranger now id p said guid accept s0 s : Waiting id p said s0 s -> ~ is_player p guid ->
  UpdateProposal now id guid accept s = Some s /\ Waiting id p (said ++ [(guid, accept)]) s0 s.
Proof.
  intros W Hn. split.
  - unfold UpdateProposal. rewrite (wt_proposals _ _ _ _ _ W), lookup_insert_eq. cbn. rewrite lookup_with_answers.
    destruct (pr_players p !! guid) as [pp|] eqn:E; [|done]. destruct Hn. by exists pp.
  - destruct W as [W1 W2 W3 W4 W5 W6]. split; [done| |done|done|done|done]. by rewrite told_stranger.
Qed.

Lemma answer_ended now id guid accept s : ProposalsStore s !! id = None -> UpdateProposal now id guid accept s = Some s.
Proof. intros E. unfold UpdateProposal. by rewrite E. Qed.

Lemma answer_all_ended now id answers s : ProposalsStore s !! id = None -> answer_all now id answers s = Some s.
Proof.
  intros E. induction answers as [|[guid accept] answers IH]; [done|]. cbn. by rewrite answer_ended.
Qed.

(** *** The last answer *)

(** The proposal that succeeded. *)
Definition agreed (said : list (Z * bool)) (p : LfgProposal) : LfgProposal :=
  set_proposal_players LFG_PROPOSAL_SUCCESS (with_answers said (pr_players p)) p.

(** What a proposal needs to become a group: dungeons that were chosen, roles
    that are known, somebody who is there when the group is made, and no
    counter of waiting times about to wrap. *)
Record Ready (t : Z) (p : LfgProposal) (dungeon : LFGDungeonData) (s : LFGMgr) : Prop := {
  rd_selected : forall guid, is_player p guid -> GetSelectedDungeons guid s <> ∅;
  rd_size : Z.of_nat (size (pr_players p)) < 2 ^ 31;
  rd_waits : waits_ok (Z.of_nat (size (pr_players p))) (waits_at t s);
  rd_roles : known_roles p = true;
  rd_dungeon : sv_dungeon (pr_dungeonId p) = Some dungeon;
  rd_online : forall said s', is_Some (form_group (agreed said p) (group_order p) s')
}.

Definition with_answer (said : list (Z * bool)) (player : Z * LfgProposalPlayer) : Z * LfgProposalPlayer :=
  (player.1, if bool_decide ((player.1, true) ∈ said) then set_accept LFG_ANSWER_AGREE player.2 else player.2).

Lemma with_answers_dom said players : dom (with_answers said players) = dom players.
Proof.
  apply leibniz_equiv. intros guid. rewrite !elem_of_dom, lookup_with_answers. apply fmap_is_Some.
Qed.

Lemma players_agreed said p : players_of (agreed said p) = with_answer said <$> players_of p.
Proof.
  unfold players_of. cbn [agreed set_proposal_players pr_players]. rewrite with_answers_dom.
  induction (in_order (dom (pr_players p))) as [|guid l IH]; [done|]. cbn. rewrite lookup_with_answers.
  destruct (pr_players p !! guid) as [pp|]; cbn; [|done]. by rewrite IH.
Qed.

Lemma filter_map_keys {A} (f : A -> A) (key : A -> Z) (b : A -> bool) l :
  (forall x, b (f x) = b x) -> (forall x, key (f x) = key x) -> key <$> List.filter b (f <$> l) = key <$> List.filter b l.
Proof.
  intros Hb Hk. induction l as [|x l IH]; [done|]. cbn. rewrite Hb. destruct (b x); cbn; by rewrite IH, ?Hk.
Qed.

Lemma agreed_keys said p : fst <$> players_of (agreed said p) = fst <$> players_of p.
Proof. rewrite players_agreed, <- list_fmap_compose. by apply list_fmap_ext. Qed.

Lemma agreed_order said p : group_order (agreed said p) = group_order p.
Proof.
  unfold group_order, of_role. rewrite agreed_keys, players_agreed.
  assert (H : forall role (b : Z * LfgProposalPlayer -> bool),
    b = (fun '(guid, pp) => negb (guid =? pr_leader p) && (no_leader (pp_role pp) =? role)) ->
    fst <$> List.filter b (with_answer said <$> players_of p) = fst <$> List.filter b (players_of p)).
  { intros role b ->. apply filter_map_keys; [|done]. intros [guid pp]. cbn. by case_bool_decide. }
  by rewrite !(H _ _ eq_refl).
Qed.

Lemma agreed_roles said p : known_roles (agreed said p) = known_roles p.
Proof.
  unfold known_roles. change (pr_leader (agreed said p)) with (pr_leader p). rewrite players_agreed. induction (players_of p) as [|[guid pp] l IH]; [done|].
  rewrite fmap_cons. cbn [forallb with_answer fst snd]. rewrite IH. by case_bool_decide.
Qed.

Lemma players_size p : length (players_of p) = size (pr_players p).
Proof.
  rewrite <- (length_fmap fst), players_keys. unfold in_order. rewrite stable_sort_perm. by rewrite <- size_dom.
Qed.

Lemma form_enters id dungeon newcomers g s2 :
  let s3 := foldl (fun s guid => send (TeleportPlayer guid) s) (SetState g LFG_STATE_DUNGEON (SetDungeon g (Entry dungeon) s2)) newcomers in
  Entered id g dungeon newcomers s2 (set_proposals (m_lfgProposalId s3) (delete id (ProposalsStore s3)) s3).
Proof.
  intros s3. set (s' := SetState _ _ _) in s3. destruct (foldl_send TeleportPlayer newcomers s') as (K & L & Hs).
  fold s3 in K, L, Hs. clearbody s3. assert (HS : forall x, GetState x s3 = GetState x s') by (intros x; by apply like_state).
  set (s4 := SetDungeon g (Entry dungeon) s2) in s'. assert (H4 : forall x, GetState x s4 = GetState x s2).
  { intros x. unfold s4, SetDungeon, GetState. rewrite group_data_on. by case_decide as E; [rewrite E|]. }
  split.
  - change (GetState g s3 = LFG_STATE_DUNGEON). rewrite HS. unfold s'. by rewrite GetState_SetState, decide_True.
  - change (gr_Dungeon (group_data g s3) = Entry dungeon). unfold group_data. rewrite (lk_groups _ _ L). fold (group_data g s').
    unfold s', SetState. destruct (IsGroup g); [rewrite group_data_on, decide_True by done; cbn|];
      unfold s4, SetDungeon; change (group_data g (on_player g ?f ?s)) with (group_data g s); by rewrite group_data_on, decide_True.
  - intros x Hx. change (GetState x s3 = GetState x s2). rewrite HS. unfold s'. by rewrite GetState_SetState, decide_False.
  - change (QueuesStore s3 = QueuesStore s2). rewrite (lk_queues _ _ L). unfold s', SetState. by destruct (IsGroup g).
  - cbn. rewrite (sk_proposals _ _ K). unfold s', SetState. by destruct (IsGroup g).
  - change (sent s3 = sent s2 ++ (TeleportPlayer <$> newcomers)). rewrite Hs. unfold s', SetState. by destruct (IsGroup g).
Qed.

(** What the manager does for a proposal once everybody agreed. *)
Lemma accept_all now t sendUpdate data p1 p dungeon s0 s : (forall guid, is_player p1 guid <-> is_player p guid) ->
  pr_players p1 <> ∅ -> people (pr_players p1) -> size (pr_players p1) = size (pr_players p) -> Ready t p dungeon s0 ->
  like s0 s -> WaitTimesStore s = WaitTimesStore s0 ->
  exists s', accept_players now t sendUpdate data p1 (players_of p1) s = Some s' /\ moved_in (players_of p1) s s'.
Proof.
  intros Hp Hsome Hpeople Hsize [R1 R2 R3 R4 R5] L W. apply accept_players_in.
  - apply Forall_forall. intros [guid pp] Hin%elem_of_players. by apply (Hpeople guid pp).
  - apply Forall_forall. intros [guid pp] Hin%elem_of_players. unfold GetSelectedDungeons, player_data. rewrite (lk_players _ _ L).
    apply (R1 guid), Hp. by exists pp.
  - by rewrite players_size, Hsize.
  - unfold waits_at in *. by rewrite players_size, Hsize, W.
Qed.

Lemma answer_last now id t p dungeon said guid s0 s : Formed t p s0 -> Ready t p dungeon s0 -> Waiting id p said s0 s ->
  is_player p guid -> unanimous p (said ++ [(guid, true)]) ->
  exists s1, UpdateProposal now id guid true s =
      ('(g, s2) ← form_group (agreed (said ++ [(guid, true)]) p) (group_order p) s1;
       let s3 := foldl (fun s guid => send (TeleportPlayer guid) s) (SetState g LFG_STATE_DUNGEON (SetDungeon g (Entry dungeon) s2))
         (newcomers_of p s0) in
       Some (set_proposals (m_lfgProposalId s3) (delete id (ProposalsStore s3)) s3)) /\
    Together t p s0 s1.
Proof.
  intros Hf Hr W [pp E] Hu. unfold UpdateProposal. rewrite (wt_proposals _ _ _ _ _ W), lookup_insert_eq.
  destruct (same_entries_at p (told said p) guid pp (same_told said p) E) as (pp1 & E1 & _ & _). rewrite E1. cbn [negb].
  rewrite (yes_proposal p said guid pp1 E1).
  change (set_proposal_players _ _ (told said p)) with (told (said ++ [(guid, true)]) p).
  rewrite (proj2 (all_agree_told p (said ++ [(guid, true)])) Hu). cbn [negb].
  change (set_proposal_players LFG_PROPOSAL_SUCCESS _ _) with (agreed (said ++ [(guid, true)]) p).
  set (p1 := agreed _ p). set (s_a := set_proposals (m_lfgProposalId _) _ (set_proposals _ _ s)).
  assert (L : like s0 s_a) by (destruct W; by split).
  assert (Hse : same_entries p p1) by exact (same_told (said ++ [(guid, true)]) p).
  assert (Hf1 : Formed t p1 s0) by (eapply Formed_like; [exact Hse| |exact Hf]; by split).
  assert (Hpl : forall x, is_player p1 x <-> is_player p x).
  { intros x. unfold is_player, p1. cbn. rewrite lookup_with_answers. apply fmap_is_Some. }
  assert (Et : GetQueueId guid s_a = t).
  { rewrite (places_queue _ _ _ (like_places _ _ L)). apply Hf. by exists pp. }
  rewrite Et. set (data := status _ _ _). destruct (accept_all now t (negb (bool_decide (pr_state (told (said ++ [(guid, true)]) p) = LFG_PROPOSAL_SUCCESS))) data p1 p dungeon s0 s_a Hpl)
    as (s_b & -> & [M1 [M2 M3] M4 M5 M6 M7 M8]); [apply Hf1|apply Hf1| |exact Hr|exact L|exact (wt_waits _ _ _ _ _ W)|].
  { rewrite <- !size_dom. unfold p1. cbn. by rewrite with_answers_dom. }
  cbn [mbind option_bind]. change (pr_queues p1) with (pr_queues p).
  destruct (remove_all_queue t now (pr_queues p) s_b) as (Q1 & FA & QO). set (s1 := foldl _ s_b (pr_queues p)) in *. clearbody s1.
  exists s1. split.
  - unfold MakeNewGroup, p1. rewrite agreed_roles, (rd_roles _ _ _ _ Hr). cbn [negb].
    change (pr_dungeonId (agreed _ p)) with (pr_dungeonId p). rewrite (rd_dungeon _ _ _ _ Hr). cbn [mbind option_bind].
    rewrite agreed_order, agreed_keys, players_keys. unfold newcomers_of.
    change (pr_isNew (agreed _ p)) with (pr_isNew p). change (pr_group (agreed _ p)) with (pr_group p).
    replace (List.filter (fun x => pr_isNew p || negb (GetGroup x s1 =? pr_group p)) (in_order (dom (pr_players p))))
      with (List.filter (fun x => pr_isNew p || negb (GetGroup x s0 =? pr_group p)) (in_order (dom (pr_players p)))).
    + by destruct (form_group _ _ _) as [[g s2]|].
    + apply List.filter_ext. intros x. rewrite Q1. change (GetGroup x (set_queues _ s_b)) with (GetGroup x s_b).
      by rewrite (pk_group _ _ M5), (pk_group _ _ (like_places _ _ L)).
  - assert (HQ : forall i, queue_at i s_b = queue_at i s0) by (intros i; unfold queue_at; by rewrite M1, (lk_queues _ _ L)).
    assert (HS : forall x, GetState x s1 = GetState x s_b) by (intros x; by rewrite Q1).
    assert (Hin : forall x, x ∈ fst <$> players_of p1 <-> is_player p x).
    { intros x. rewrite players_keys, elem_of_in_order, elem_of_dom. apply Hpl. }
    split.
    + by rewrite <- HQ.
    + intros i Hi. by rewrite QO, HQ.
    + intros x Hx. rewrite HS. by apply M7, Hin.
    + intros x Hx. rewrite HS, M8 by by rewrite Hin. by apply like_state.
    + rewrite Q1. cbn. by rewrite M4, (lk_groups _ _ L).
Qed.

(** ** How a proposal ends *)

(** What has come of the proposal when [answers] were given: it is open, a
    player refused, or all agreed. What is said after the end changes nothing. *)
Inductive Outcome (id t : Z) (p : LfgProposal) (dungeon : LFGDungeonData) (s s' : LFGMgr) : list (Z * bool) -> Prop :=
| StillOpen answers : undecided p answers -> Waiting id p answers s s' -> Outcome id t p dungeon s s' answers
| TurnedDown before guid pp after removed :
    undecided p before -> pr_players p !! guid = Some pp -> (forall g, g ∈ removed <-> g = entry_guid guid pp) ->
    ProposalsStore s' = delete id (ProposalsStore s) -> Failed t p removed s s' ->
    Outcome id t p dungeon s s' (before ++ (guid, false) :: after)
| Played before guid after s1 g s2 :
    undecided p before -> is_player p guid -> unanimous p (before ++ [(guid, true)]) -> Together t p s s1 ->
    form_group (agreed (before ++ [(guid, true)]) p) (group_order p) s1 = Some (g, s2) ->
    Entered id g dungeon (newcomers_of p s) s2 s' ->
    Outcome id t p dungeon s s' (before ++ (guid, true) :: after).

Lemma undecided_stranger p said word : ~ is_player p word.1 -> undecided p said -> undecided p (said ++ [word]).
Proof.
  intros Hw [H1 H2]. split.
  - intros guid Hg [H|H%list_elem_of_singleton]%elem_of_app; [by apply (H1 guid)|]. destruct Hw. by rewrite <- H.
  - intros (guid & Hg & Hin) Hu. apply H2.
    + exists guid. split; [done|]. apply elem_of_app in Hin as [Hin|Hin%list_elem_of_singleton]; [done|]. destruct Hw. by rewrite <- Hin.
    + intros x pp E. destruct (Hu x pp E) as [Hx|[Hx|Hx%list_elem_of_singleton]%elem_of_app]; [by left|by right|].
      destruct Hw. rewrite <- Hx. by exists pp.
Qed.

Lemma undecided_yes p said guid : undecided p said -> ~ unanimous p (said ++ [(guid, true)]) -> undecided p (said ++ [(guid, true)]).
Proof.
  intros [H1 _] Hn. split; [|done]. intros x Hx [H|[=]%list_elem_of_singleton]%elem_of_app. by apply (H1 x).
Qed.

Lemma outcome_from now id t p dungeon s0 answers : Formed t p s0 -> hopeful p -> Ready t p dungeon s0 ->
  forall said s, undecided p said -> Waiting id p said s0 s ->
  exists s', answer_all now id answers s = Some s' /\ Outcome id t p dungeon s0 s' (said ++ answers).
Proof.
  intros Hf Hh Hr. induction answers as [|[guid accept] answers IH]; intros said s Hu W; cbn [answer_all].
  - exists s. split; [done|]. rewrite app_nil_r. by apply StillOpen.
  - assert (Hnext : forall s', undecided p (said ++ [(guid, accept)]) -> Waiting id p (said ++ [(guid, accept)]) s0 s' ->
      exists s'', answer_all now id answers s' = Some s'' /\ Outcome id t p dungeon s0 s'' (said ++ (guid, accept) :: answers)).
    { intros s' Hu' W'. destruct (IH _ _ Hu' W') as (s'' & E & HO). exists s''. by rewrite <- app_assoc in HO. }
    destruct (pr_players p !! guid) as [pp|] eqn:E; [assert (Hg : is_player p guid) by (by exists pp); destruct accept|].
    + destruct (all_agree (told (said ++ [(guid, true)]) p)) eqn:Ha.
      * apply all_agree_told in Ha. destruct (answer_last now id t p dungeon said guid s0 s Hf Hr W Hg Ha) as (s1 & -> & HT).
        destruct (rd_online _ _ _ _ Hr (said ++ [(guid, true)]) s1) as [[g s2] Eg]. rewrite Eg. cbn [mbind option_bind].
        pose proof (form_enters id dungeon (newcomers_of p s0) g s2) as HE. cbn zeta in HE |- *.
        set (s' := set_proposals _ _ _) in *. exists s'. split; [|by apply (Played _ _ _ _ _ _ said guid answers s1 g s2)].
        apply answer_all_ended. rewrite (en_proposals _ _ _ _ _ _ HE). apply lookup_delete_eq.
      * assert (Hn : ~ unanimous p (said ++ [(guid, true)])) by (rewrite <- all_agree_told; by rewrite Ha).
        destruct (answer_yes now id p said guid s0 s W Hg Hn) as (s' & -> & W'). cbn [mbind option_bind].
        apply Hnext; [by apply undecided_yes|done].
    + destruct (answer_no now id t p said guid pp s0 s Hf Hh W E) as (s' & removed & -> & Hrem & Hst & HF). cbn [mbind option_bind].
      exists s'. split; [|by apply (TurnedDown _ _ _ _ _ _ said guid pp answers removed)].
      apply answer_all_ended. rewrite Hst. apply lookup_delete_eq.
    + assert (Hg : ~ is_player p guid) by (intros [pp Hpp]; congruence).
      destruct (answer_stranger now id p said guid accept s0 s W Hg) as [-> W']. cbn [mbind option_bind].
      apply Hnext; [by apply undecided_stranger|done].
Qed.

(** C17. A proposal ends as its players answer. As long as nobody refused and
    somebody has yet to agree, nothing changes but what is noted of the
    answers. The first refusal takes the entry of that player out of the queue
    and out of every cached combination, restores the states of its players,
    and puts the other entries in front of the queue, with what they had asked
    for. When the last one agrees all entries leave the queue, the players are
    made one group, in the order of their roles and each of them once, and it
    enters the dungeon. What is said later is ignored. *)
Theorem proposal_outcome now id t p dungeon answers s : ProposalsStore s !! id = Some p -> Formed t p s -> hopeful p ->
  Ready t p dungeon s ->
  (exists s', answer_all now id answers s = Some s' /\ Outcome id t p dungeon s s' answers) /\
  group_order p ≡ₚ in_order (dom (pr_players p)).
Proof.
  intros E Hf Hh Hr. split.
  - apply (outcome_from now id t p dungeon s answers Hf Hh Hr [] s).
    + split; [intros guid _ H; by apply not_elem_of_nil in H|]. intros (guid & _ & H). by apply not_elem_of_nil in H.
    + split; try done. unfold told. rewrite with_answers_nil. rewrite insert_id; [done|]. rewrite E. by destruct p.
  - rewrite <- players_keys. apply group_order_players, (rd_roles _ _ _ _ Hr).
Qed.

End Proposal.

(** ** A party of two and a player *)

Definition trio_server : LfgServer := {|
  sv_dungeon := fun id => if id =? 1 then Some (mkDungeon 1 1 1 1 1) else None;
  sv_random_dungeons := [];
  sv_ignores := fun _ _ => false;
  sv_lfg_group := fun _ => false;
  sv_lfr_group := fun _ => false;
  form_group := fun _ _ s => Some (0x1F50000000000099, s);
  remove_from_group := fun _ _ s => s
|}.

Definition pair : Z := 0x1F50000000000005.

Definition trio : LfgProposal :=
  mkProposal 7 1 LFG_PROPOSAL_INITIATING 0 1 99 true [pair; 3]
    (list_to_map [(1, mkProposalPlayer 3 LFG_ANSWER_PENDING pair); (2, mkProposalPlayer 4 LFG_ANSWER_PENDING pair);
                  (3, mkProposalPlayer 8 LFG_ANSWER_PENDING 0)]).

Definition trio_state : LFGMgr :=
  let waits guid := mkQueueData 900 1 1 3 {[1]} {[guid := 8]} "" in
  set_queues {[0 := mkQueue (list_to_map [(pair, waits 1); (3, waits 3); (4, waits 4)]) ∅ [4; pair] [3]]}
    (set_players (list_to_map ((fun guid => (guid, player_Choose 8 "" {[1]} LfgPlayerData_default)) <$> [1; 2; 3]))
      (set_proposals 7 {[7 := trio]} (LFGMgr_default 1))).

Definition trio_answers : list (Z * bool) := [(1, true); (9, false); (3, true); (2, true); (3, false)].

Lemma trio_players guid pp : pr_players trio !! guid = Some pp <->
  (guid, pp) ∈ [(1, mkProposalPlayer 3 LFG_ANSWER_PENDING pair); (2, mkProposalPlayer 4 LFG_ANSWER_PENDING pair);
                (3, mkProposalPlayer 8 LFG_ANSWER_PENDING 0)].
Proof. symmetry. apply elem_of_list_to_map. cbn. apply (bool_decide_unpack _). by vm_compute. Qed.

Lemma trio_forall (P : Z -> LfgProposalPlayer -> Prop) : P 1 (mkProposalPlayer 3 LFG_ANSWER_PENDING pair) ->
  P 2 (mkProposalPlayer 4 LFG_ANSWER_PENDING pair) -> P 3 (mkProposalPlayer 8 LFG_ANSWER_PENDING 0) ->
  forall guid pp, pr_players trio !! guid = Some pp -> P guid pp.
Proof.
  intros H1 H2 H3 guid pp. rewrite trio_players, !elem_of_cons. intros [[= -> ->]|[[= -> ->]|[[= -> ->]|[]%not_elem_of_nil]]]; done.
Qed.

Lemma trio_formed : Formed 0 trio trio_state.
Proof.
  split.
  - intros H. apply (f_equal (fun m => m !! 1)) in H. by vm_compute in H.
  - unfold people, map_Forall. apply trio_forall; (split; [reflexivity|]); [by right|by right|by left].
  - intros g. split.
    + intros [->|[->|[]%not_elem_of_nil]%elem_of_cons]%elem_of_cons.
      * exists 1, (mkProposalPlayer 3 LFG_ANSWER_PENDING pair). by vm_compute.
      * exists 3, (mkProposalPlayer 8 LFG_ANSWER_PENDING 0). by vm_compute.
    + intros (guid & pp & E & <-). revert guid pp E. apply trio_forall; vm_compute; by repeat constructor.
  - intros guid [pp E]. revert guid pp E. by apply trio_forall.
  - intros g [->|[->|[]%not_elem_of_nil]%elem_of_cons]%elem_of_cons; vm_compute; by eexists.
Qed.

Lemma trio_ready : Ready (Server := trio_server) 0 trio (mkDungeon 1 1 1 1 1) trio_state.
Proof.
  split.
  - intros guid [pp E] H. assert (Hin : 1 ∈ GetSelectedDungeons guid trio_state).
    { clear H. revert guid pp E. apply trio_forall; apply (bool_decide_unpack _); by vm_compute. }
    rewrite H in Hin. by apply elem_of_empty in Hin.
  - by vm_compute.
  - split; apply map_Forall_empty.
  - by vm_compute.
  - done.
  - intros said s'. by eexists.
Qed.

Lemma proposal_outcome_witness : exists s', answer_all (Server := trio_server) 945 7 trio_answers trio_state = Some s' /\
  Outcome (Server := trio_server) 7 0 trio (mkDungeon 1 1 1 1 1) trio_state s' trio_answers /\
  currentQueueStore (queue_at 0 s') = [4] /\ GetState 3 s' = LFG_STATE_DUNGEON.
Proof.
  destruct (proposal_outcome (Server := trio_server) 945 7 0 trio (mkDungeon 1 1 1 1 1) trio_answers trio_state)
    as ((s' & E & HO) & _).
  - by vm_compute.
  - apply trio_formed.
  - unfold hopeful, map_Forall. by apply trio_forall.
  - apply trio_ready.
  - exists s'. split; [exact E|]. split; [exact HO|].
    pose proof (f_equal (fun r => match r with Some s => (currentQueueStore (queue_at 0 s), GetState 3 s) | None => ([], LFG_STATE_NONE) end) E) as Es.
    cbn beta iota in Es. match type of Es with ?l = _ => assert (Ev : l = ([4], LFG_STATE_DUNGEON)) by (vm_compute; reflexivity) end.
    rewrite Ev in Es. injection Es as E1 E2. exact (conj (eq_sym E1) (eq_sym E2)).
Defined.
