(* ===== verification/ByteBuffer.v ===== *)
(** Packet buffers: [src/src/server/shared/Packets/ByteBuffer.h] and
    [ByteBuffer.cpp].

    A buffer is a vector of bytes with a read and a write position, and one
    byte that is being filled, or being taken apart, bit by bit. An operation
    is a step of a state monad that may fail: by an exception of the buffer, by
    a failed [ASSERT], or by behaviour the language leaves undefined. Bytes are
    integers from 0 to 255, floating point numbers are their bit patterns, and
    a [size_t] is a 64-bit integer. *)
From Stdlib Require Import ZArith Lia.
From stdpp Require Import base list tactics.
From S2P Require Import Prelude.

Open Scope Z_scope.

(** ** Failures *)

(** What the language leaves undefined, where the code can reach it. *)
Inductive undefined :=
  | NullPointer
  | OutOfArray
  | ShiftTooWide
  | FloatToInt.

(** [ByteBufferPositionException] keeps the arguments of its constructor: the
    direction, the position, and the two sizes in the order they are passed. *)
Inductive failure :=
  | ByteBufferPositionException (add : bool) (pos size valueSize : Z)
  | ByteBufferException
  | AssertionFailed
  | Undefined (why : undefined).

Inductive result (A : Type) :=
  | Done (x : A)
  | Failed (f : failure).
Arguments Done {A} x.
Arguments Failed {A} f.

(** ** The buffer *)

Record ByteBuffer := {
  _rpos : Z;
  _wpos : Z;
  _bitpos : Z;
  _curbitval : Z;
  _storage : list Z
}.

Definition InitialBitPos : Z := 8.

(** The default constructor; the reserved capacity is not observable. *)
Definition ByteBuffer_new : ByteBuffer :=
  {| _rpos := 0; _wpos := 0; _bitpos := InitialBitPos; _curbitval := 0; _storage := [] |}.

(** The buffer of a received packet. *)
Definition ByteBuffer_received (buffer : list Z) : ByteBuffer :=
  {| _rpos := 0; _wpos := 0; _bitpos := InitialBitPos; _curbitval := 0; _storage := buffer |}.

Definition size (b : ByteBuffer) : Z := Z.of_nat (length (_storage b)).
Definition empty (b : ByteBuffer) : bool := match _storage b with [] => true | _ => false end.

Definition with_rpos (p : Z) (b : ByteBuffer) : ByteBuffer :=
  {| _rpos := p; _wpos := _wpos b; _bitpos := _bitpos b; _curbitval := _curbitval b;
     _storage := _storage b |}.
Definition with_wpos (p : Z) (b : ByteBuffer) : ByteBuffer :=
  {| _rpos := _rpos b; _wpos := p; _bitpos := _bitpos b; _curbitval := _curbitval b;
     _storage := _storage b |}.
Definition with_bits (p v : Z) (b : ByteBuffer) : ByteBuffer :=
  {| _rpos := _rpos b; _wpos := _wpos b; _bitpos := p; _curbitval := v;
     _storage := _storage b |}.
Definition with_storage (l : list Z) (b : ByteBuffer) : ByteBuffer :=
  {| _rpos := _rpos b; _wpos := _wpos b; _bitpos := _bitpos b; _curbitval := _curbitval b;
     _storage := l |}.

(** ** Steps on a buffer *)

Definition packet (A : Type) : Type := ByteBuffer -> result (A * ByteBuffer).

#[export] Instance packet_ret : MRet packet := fun A x b => Done (x, b).
#[export] Instance packet_bind : MBind packet := fun A B f m b =>
  match m b with
  | Done (x, b') => f x b'
  | Failed e => Failed e
  end.

Definition fail {A} (e : failure) : packet A := fun _ => Failed e.
Definition ASSERT (cond : bool) : packet unit := if cond then mret tt else fail AssertionFailed.
Definition here : packet ByteBuffer := fun b => Done (b, b).
Definition update (f : ByteBuffer -> ByteBuffer) : packet unit := fun b => Done (tt, f b).

(** ** Writing *)

Definition max_size : Z := 10000000.

(** [resize] to hold [newSize] bytes and [memcpy] to the write position. *)
Definition overwrite (pos : nat) (src l : list Z) : list Z :=
  let l := l ++ repeat 0 (pos + length src - length l) in
  take pos l ++ src ++ drop (pos + length src) l.

(** [append], once the pending bits are flushed. The sum of the write position
    and the length is taken not to wrap: a vector of that size cannot exist. *)
Definition append_flushed (src : list Z) : packet unit :=
  update (fun b => with_wpos (_wpos b + Z.of_nat (length src))
                     (with_storage (overwrite (Z.to_nat (_wpos b)) src (_storage b)) b)).

(** The checks [append] starts with. *)
Definition append_checks (src : list Z) : packet unit :=
  ASSERT (negb (Nat.eqb (length src) 0));;
  b ← here;
  ASSERT (size b <? max_size).

(** The call of [append] in [FlushBits] finds the bit position reset. *)
Definition FlushBits : packet unit :=
  b ← here;
  if _bitpos b =? 8 then mret tt else
    let value := _curbitval b in
    update (with_bits 8 value);;
    append_checks [value];;
    append_flushed [value];;
    update (fun b => with_bits (_bitpos b) 0 b).

Definition append (src : list Z) : packet unit :=
  append_checks src;;
  FlushBits;;
  append_flushed src.

(** [EndianConvert] on a little-endian host keeps the bytes in order, the least
    significant first. *)
Fixpoint le_bytes (n : nat) (v : Z) : list Z :=
  match n with
  | O => []
  | S n => v mod 256 :: le_bytes n (v / 256)
  end.

Definition append_u8 (v : Z) : packet unit := append (le_bytes 1 v).
Definition append_u16 (v : Z) : packet unit := append (le_bytes 2 v).
Definition append_u32 (v : Z) : packet unit := append (le_bytes 4 v).
Definition append_u64 (v : Z) : packet unit := append (le_bytes 8 v).

(** A signed number is stored as its two's complement. *)
Definition append_i8 (v : Z) : packet unit := append_u8 v.
Definition append_i32 (v : Z) : packet unit := append_u32 v.

(** A [float] is stored as its bit pattern. *)
Definition append_float (bits : Z) : packet unit := append_u32 bits.

Definition append_bool (v : bool) : packet unit := append_u8 (if v then 1 else 0).

(** [operator<<(std::string const&)]: the characters and a terminating zero. *)
Definition append_string (s : list Z) : packet unit :=
  match s with [] => mret tt | _ => append s end;;
  append_u8 0.

Definition WriteString (s : list Z) : packet unit :=
  match s with [] => mret tt | _ => append s end.

(** ** Writing bits *)

(** The shift [1 << _bitpos] of an [int]. *)
Definition bit_at (pos : Z) : packet Z :=
  if (0 <=? pos) && (pos <? 31) then mret (Z.shiftl 1 pos) else fail (Undefined ShiftTooWide).

Definition WriteBit (bit : Z) : packet bool :=
  update (fun b => with_bits (_bitpos b -64 1) (_curbitval b) b);;
  b ← here;
  (if nz bit then
     mask ← bit_at (_bitpos b);
     update (with_bits (_bitpos b) (u8 (Z.lor (_curbitval b) mask)))
   else mret tt);;
  b ← here;
  (if _bitpos b =? 0 then
     update (with_bits 8 (_curbitval b));;
     append [_curbitval b];;
     update (fun b => with_bits (_bitpos b) 0 b)
   else mret tt);;
  mret (nz bit).

(** The loop of [WriteBits] over the full bytes; its result is the number of
    bits left. At most [fuel] rounds, which the number of bits bounds. *)
Fixpoint WriteBits_bytes (fuel : nat) (value bits : Z) : packet Z :=
  match fuel with
  | O => mret bits
  | S fuel =>
      if 8 <=? bits then
        append_u8 (Z.shiftr value (bits - 8));;
        WriteBits_bytes fuel value (bits - 8)
      else mret bits
  end.

(** The first mask of [WriteBits] is [(1 << bits) - 1] of an [int]. *)
Definition WriteBits (value bits : Z) : packet unit :=
  if (bits <? 0) || (31 <=? bits) then fail (Undefined ShiftTooWide) else
  let value := Z.land value (Z.shiftl 1 bits - 1) in
  let value := Z.land value (Z.shiftl 1 bits - 1) in
  b ← here;
  if _bitpos b <? bits then
    let first := u8 (Z.lor (_curbitval b) (Z.shiftr value (bits - _bitpos b))) in
    let bits := bits - _bitpos b in
    update (with_bits 8 first);;
    append [first];;
    bits ← WriteBits_bytes (Z.to_nat bits) value bits;
    update (with_bits (8 - bits) (u8 (Z.shiftl (Z.land value (Z.shiftl 1 bits - 1)) (8 - bits))))
  else
    let pos := _bitpos b - bits in
    update (with_bits pos (u8 (Z.lor (_curbitval b) (Z.shiftl value pos))));;
    b ← here;
    if _bitpos b =? 0 then
      update (with_bits 8 (_curbitval b));;
      append [_curbitval b];;
      update (fun b => with_bits (_bitpos b) 0 b)
    else mret tt.

Definition WriteByteSeq (b : Z) : packet unit :=
  if nz b then append_u8 (Z.lxor b 1) else mret tt.

(** ** Overwriting *)

Definition put (pos : Z) (src : list Z) : packet unit :=
  b ← here;
  ASSERT (pos +64 Z.of_nat (length src) <=? size b);;
  ASSERT (negb (Nat.eqb (length src) 0));;
  update (with_storage (overwrite (Z.to_nat pos) src (_storage b))).

(** Sets or clears bit [7 - bit] of byte [wp]. *)
Definition put_bit (wp : nat) (bit : Z) (on : bool) (l : list Z) : list Z :=
  alter (fun byte => if on then Z.lor byte (Z.shiftl 1 (7 - bit))
                     else Z.land byte (255 - Z.shiftl 1 (7 - bit))) wp l.

Fixpoint PutBits_from (pos value : Z) (bitCount : Z) (i : Z) (n : nat) (l : list Z) : list Z :=
  match n with
  | O => l
  | S n =>
      PutBits_from pos value bitCount (i + 1) n
        (put_bit (Z.to_nat ((pos + i) / 8)) ((pos + i) mod 8)
           (Z.testbit value (bitCount - i - 1)) l)
  end.

(** The value has 64 bits: a count above that shifts too far. *)
Definition PutBits (pos value bitCount : Z) : packet unit :=
  b ← here;
  ASSERT (pos +64 bitCount <=? size b * 8);;
  ASSERT (nz bitCount);;
  if 64 <? bitCount then fail (Undefined ShiftTooWide) else
  update (with_storage (PutBits_from pos value bitCount 0 (Z.to_nat bitCount) (_storage b))).

(** ** Reading *)

Fixpoint le_value (l : list Z) : Z :=
  match l with
  | [] => 0
  | x :: l => x + 256 * le_value l
  end.

(** [read(uint8* dest, size_t len)], and [read<T>()] before the conversion of
    the bytes. *)
Definition read_bytes (len : nat) : packet (list Z) :=
  b ← here;
  if size b <? _rpos b +64 Z.of_nat len then
    fail (ByteBufferPositionException false (_rpos b) (Z.of_nat len) (size b))
  else
    update (with_rpos (_rpos b +64 Z.of_nat len));;
    mret (take len (drop (Z.to_nat (_rpos b)) (_storage b))).

Definition read_u8 : packet Z := l ← read_bytes 1; mret (le_value l).
Definition read_u16 : packet Z := l ← read_bytes 2; mret (le_value l).
Definition read_u32 : packet Z := l ← read_bytes 4; mret (le_value l).
Definition read_u64 : packet Z := l ← read_bytes 8; mret (le_value l).

(** The value of a byte read as a signed one. *)
Definition i8 (x : Z) : Z := if x <? 128 then x else x - 256.
Definition i32 (x : Z) : Z := if x <? 2 ^ 31 then x else x - 2 ^ 32.

Definition read_i8 : packet Z := x ← read_u8; mret (i8 x).
Definition read_i32 : packet Z := x ← read_u32; mret (i32 x).

(** [read<float>()]: any bit pattern. *)
Definition read_float : packet Z := read_u32.

(** [std::isfinite] of a [float] and of a [double]. *)
Definition isfinite (bits : Z) : bool := negb ((bits / 2 ^ 23) mod 2 ^ 8 =? 255).
Definition isfinite_double (bits : Z) : bool := negb ((bits / 2 ^ 52) mod 2 ^ 11 =? 2047).

(** [operator>>(float&)] and [operator>>(double&)]. *)
Definition get_float : packet Z :=
  x ← read_float;
  if isfinite x then mret x else fail ByteBufferException.
Definition get_double : packet Z :=
  x ← read_u64;
  if isfinite_double x then mret x else fail ByteBufferException.

(** [operator>>(bool&)]: a positive [char]. *)
Definition get_bool : packet bool := x ← read_i8; mret (0 <? x).

(** [operator>>(std::string&)]: up to a zero or the end of the data. *)
Fixpoint get_string_from (n : nat) (value : list Z) : packet (list Z) :=
  match n with
  | O => mret value
  | S n =>
      b ← here;
      if _rpos b <? size b then
        c ← read_u8;
        if c =? 0 then mret value else get_string_from n (value ++ [c])
      else mret value
  end.
Definition get_string : packet (list Z) := b ← here; get_string_from (S (length (_storage b))) [].

(** The characters of a C string: those before its first zero. *)
Fixpoint c_string (l : list Z) : list Z :=
  match l with
  | [] => []
  | c :: l => if c =? 0 then [] else c :: c_string l
  end.

(** [ReadString]: the characters up to the first zero among [len] bytes. *)
Definition ReadString (len : Z) : packet (list Z) :=
  if len =? 0 then mret [] else
  l ← read_bytes (Z.to_nat len);
  mret (c_string l).

Definition read_skip (skip : Z) : packet unit :=
  b ← here;
  if size b <? _rpos b +64 skip then
    fail (ByteBufferPositionException false (_rpos b) skip (size b))
  else update (with_rpos (_rpos b +64 skip)).

(** ** Reading bits *)

Definition ReadBit : packet bool :=
  b ← here;
  (if 8 <=? _bitpos b then
     l ← read_bytes 1;
     update (with_bits 0 (le_value l))
   else mret tt);;
  update (fun b => with_bits (_bitpos b + 1) (_curbitval b) b);;
  b ← here;
  mret (nz (Z.land (Z.shiftr (_curbitval b) (8 - _bitpos b)) 1)).

(** The loop of [ReadBits], from bit [n - 1] down to bit 0. *)
Fixpoint ReadBits_from (n : nat) (value : Z) : packet Z :=
  match n with
  | O => mret value
  | S i =>
      bit ← ReadBit;
      if (32 <=? Z.of_nat i) then fail (Undefined ShiftTooWide) else
      ReadBits_from i (Z.lor value (u32 (Z.shiftl (Z.b2z bit) (Z.of_nat i))))
  end.

Definition ReadBits (bits : Z) : packet Z := ReadBits_from (Z.to_nat bits) 0.

(** [ReadByteSeq]: the new value of the byte. *)
Definition ReadByteSeq (b : Z) : packet Z :=
  if nz b then x ← read_u8; mret (Z.lxor b x) else mret b.

(** ** Packed identifiers *)

(** Byte [i] of an identifier. *)
Definition guid_byte (guid : Z) (i : nat) : Z := Z.land (Z.shiftr guid (Z.of_nat i * 8)) 255.

(** The mask and the bytes [appendPackGUID] collects from byte [i] on, which at
    most [fuel] rounds empty: a 64-bit number has eight bytes. *)
Fixpoint pack_guid_from (fuel : nat) (i : Z) (guid mask : Z) (bytes : list Z) : Z * list Z :=
  match fuel with
  | O => (mask, bytes)
  | S fuel =>
      if guid =? 0 then (mask, bytes) else
      let '(mask, bytes) :=
        if nz (Z.land guid 255) then (u8 (Z.lor mask (Z.shiftl 1 i)), bytes ++ [Z.land guid 255])
        else (mask, bytes) in
      pack_guid_from fuel (i + 1) (Z.shiftr guid 8) mask bytes
  end.

Definition appendPackGUID (guid : Z) : packet unit :=
  let '(mask, bytes) := pack_guid_from 8 0 guid 0 [] in
  append (mask :: bytes).

Fixpoint readPackGUID_from (n : nat) (i : Z) (guidmark guid : Z) : packet Z :=
  match n with
  | O => mret guid
  | S n =>
      guid ←
        (if Z.testbit guidmark i then
           b ← here;
           if size b <? _rpos b +64 1 then
             fail (ByteBufferPositionException false (_rpos b) 1 (size b))
           else
             bit ← read_u8;
             mret (Z.lor guid (Z.shiftl bit (i * 8)))
         else mret guid);
      readPackGUID_from n (i + 1) guidmark guid
  end.

Definition readPackGUID : packet Z :=
  b ← here;
  if size b <? _rpos b +64 1 then
    fail (ByteBufferPositionException false (_rpos b) 1 (size b))
  else
    guidmark ← read_u8;
    readPackGUID_from 8 0 guidmark 0.

(** ** Positions and whole buffers *)

Definition rfinish : packet unit := update (fun b => with_rpos (_wpos b) b).

Definition bitwpos (b : ByteBuffer) : Z := u64 (_wpos b * 8 + 8 - _bitpos b).

Definition set_bitwpos (newPos : Z) : packet Z :=
  update (fun b => with_bits (8 - newPos mod 8) (_curbitval b) (with_wpos (newPos / 8) b));;
  b ← here;
  mret (bitwpos b).

(** The bit position and the pending bits stay as they are. *)
Definition clear : packet unit :=
  update (fun b => with_wpos 0 (with_rpos 0 (with_storage [] b))).

Definition resize (newsize : Z) : packet unit :=
  update (fun b =>
    let l := take (Z.to_nat newsize) (_storage b) in
    let l := l ++ repeat 0 (Z.to_nat newsize - length l) in
    with_wpos (Z.of_nat (length l)) (with_rpos 0 (with_storage l b))).

Definition contents : packet (list Z) :=
  b ← here;
  if empty b then fail ByteBufferException else mret (_storage b).

(** [append(ByteBuffer const&)]: as many bytes as the other's write position. *)
Definition append_buffer (buffer : ByteBuffer) : packet unit :=
  if nz (_wpos buffer) then
    if empty buffer then fail ByteBufferException
    else if size buffer <? _wpos buffer then fail (Undefined OutOfArray)
    else append (take (Z.to_nat (_wpos buffer)) (_storage buffer))
  else mret tt.

(** [operator=(ByteBuffer&&)]: the assigned buffer keeps its own bit position
    and pending bits. *)
Definition move_assign (left right : ByteBuffer) : ByteBuffer * ByteBuffer :=
  ({| _rpos := _rpos right; _wpos := _wpos right; _bitpos := _bitpos left;
      _curbitval := _curbitval left; _storage := _storage right |},
   {| _rpos := 0; _wpos := 0; _bitpos := _bitpos right; _curbitval := _curbitval right;
      _storage := [] |}).
