(* ===== verification/BitStream.v ===== *)
(** What a packet buffer holds, as a stream of bits and bytes.

    A packet is the list of the items written to it, each one bit or one byte.
    [written] is the buffer after any list of items: each run of bits starts a
    byte, and a byte closes the run before it. [reads] is what a reader of a
    buffer gets: it takes bits from the byte it opened last, across any bytes
    read in between. The two agree on a packet with one run of bits. *)
From Stdlib Require Import ZArith Lia Bool.
From stdpp Require Import base list tactics.
From S2P Require Import Prelude ByteBuffer.

Open Scope Z_scope.

(** ** Bits and numbers *)

(** The number with the given bits, the most significant first. *)
Definition bits_value (l : list bool) : Z := fold_left (fun v b => 2 * v + Z.b2z b) l 0.

(** The [n] lowest bits of a number, the most significant first. *)
Fixpoint bits_of (n : nat) (v : Z) : list bool :=
  match n with
  | O => []
  | S n => bits_of n (v / 2) ++ [Z.odd v]
  end.

Lemma bits_value_app l1 l2 :
  bits_value (l1 ++ l2) = bits_value l1 * 2 ^ Z.of_nat (length l2) + bits_value l2.
Proof.
  unfold bits_value. rewrite fold_left_app. generalize (fold_left (fun v b => 2 * v + Z.b2z b) l1 0).
  induction l2 as [|b l2 IH] using rev_ind; intros v; [cbn; lia|].
  rewrite !fold_left_app, IH, length_app, Nat2Z.inj_add. cbn [fold_left length].
  rewrite Z.pow_add_r by lia. lia.
Qed.

Lemma bits_value_snoc l b : bits_value (l ++ [b]) = 2 * bits_value l + Z.b2z b.
Proof. unfold bits_value. by rewrite fold_left_app. Qed.

Lemma bits_value_bound l : 0 <= bits_value l < 2 ^ Z.of_nat (length l).
Proof.
  induction l as [|b l IH] using rev_ind; [cbn; lia|].
  rewrite bits_value_snoc, length_app, Nat2Z.inj_add, Z.pow_add_r by lia.
  destruct b; cbn; lia.
Qed.

Lemma length_bits_of n v : length (bits_of n v) = n.
Proof. revert v. induction n as [|n IH]; intros v; [done|]. cbn. rewrite length_app, IH. cbn. lia. Qed.

Lemma bits_of_value n v : bits_value (bits_of n v) = v mod 2 ^ Z.of_nat n.
Proof.
  revert v. induction n as [|n IH]; intros v; [cbn; by rewrite Z.mod_1_r|].
  cbn [bits_of]. rewrite bits_value_snoc, IH, Nat2Z.inj_succ, Z.pow_succ_r by lia.
  rewrite Z.rem_mul_r by lia. pose proof (Zmod_odd v). destruct (Z.odd v); cbn; lia.
Qed.

Lemma bits_of_add n m v : bits_of (n + m) v = bits_of n (v / 2 ^ Z.of_nat m) ++ bits_of m v.
Proof.
  revert v. induction m as [|m IH]; intros v.
  - rewrite Nat.add_0_r, Z.div_1_r. by rewrite app_nil_r.
  - rewrite Nat.add_succ_r. cbn [bits_of]. rewrite IH, app_assoc. do 2 f_equal.
    rewrite Nat2Z.inj_succ, Z.pow_succ_r, Z.div_div by lia. done.
Qed.

(** ** Items *)

Inductive item := IBit (b : bool) | IByte (x : Z).

(** The items written, as complete bytes and the bits of the byte begun. *)
Definition enc_item (s : list Z * list bool) (i : item) : list Z * list bool :=
  let '(data, pend) := s in
  match i with
  | IBit b =>
      if Nat.eqb (length pend) 7 then (data ++ [bits_value (pend ++ [b])], [])
      else (data, pend ++ [b])
  | IByte x => (data ++ (match pend with [] => [] | _ => [bits_value pend * 2 ^ (8 - Z.of_nat (length pend))] end)
                  ++ [x], [])
  end.

Definition enc (l : list item) : list Z * list bool := fold_left enc_item l ([], []).

Lemma enc_app l1 l2 : enc (l1 ++ l2) = fold_left enc_item l2 (enc l1).
Proof. apply fold_left_app. Qed.

Lemma enc_item_pend s i : (length s.2 < 8)%nat -> (length (enc_item s i).2 < 8)%nat.
Proof.
  destruct s as [d p], i as [b|x]; cbn; [|lia].
  destruct (Nat.eqb_spec (length p) 7); cbn; [lia|]. rewrite length_app. cbn. lia.
Qed.

Lemma enc_pend l : (length (enc l).2 < 8)%nat.
Proof.
  induction l as [|i l IH] using rev_ind; [cbn; lia|]. rewrite enc_app. by apply enc_item_pend.
Qed.

Lemma enc_item_size s i : (length s.1 <= length (enc_item s i).1 <= length s.1 + 2)%nat.
Proof.
  destruct s as [d p], i as [b|x]; cbn; [destruct (Nat.eqb _ 7)|destruct p]; cbn;
    rewrite ?length_app; cbn; lia.
Qed.

Lemma enc_size l : (length (enc l).1 <= 2 * length l)%nat.
Proof.
  induction l as [|i l IH] using rev_ind; [cbn; lia|]. rewrite enc_app, length_app. cbn.
  pose proof (enc_item_size (enc l) i). lia.
Qed.

(** ** The buffer that holds the items *)

(** The buffer whose complete bytes are [s.1] and whose pending bits are
    [s.2]. *)
Definition buffer_of (s : list Z * list bool) : ByteBuffer :=
  {| _rpos := 0; _wpos := Z.of_nat (length s.1);
     _bitpos := 8 - Z.of_nat (length s.2);
     _curbitval := bits_value s.2 * 2 ^ (8 - Z.of_nat (length s.2));
     _storage := s.1 |}.

Definition written (l : list item) : ByteBuffer := buffer_of (enc l).

(** The items of [n] bits of a number, and of bytes. *)
Definition Bits (n : nat) (v : Z) : list item := IBit <$> bits_of n v.
Definition Bytes (l : list Z) : list item := IByte <$> l.

(** What a step adds to a packet that has room for it. *)
Definition writes {A} (m : packet A) (l : list item) (x : A) : Prop :=
  forall before, Z.of_nat (2 * (length before + length l + 1)) < max_size ->
    m (written before) = Done (x, written (before ++ l)).

Lemma writes_ret {A} (x : A) : writes (mret x) [] x.
Proof. intros before _. by rewrite app_nil_r. Qed.

Lemma writes_bind {A B} (m : packet A) (f : A -> packet B) l1 l2 x y :
  writes m l1 x -> writes (f x) l2 y -> writes (m ≫= f) (l1 ++ l2) y.
Proof.
  intros H1 H2 before Hl. rewrite length_app in Hl.
  unfold mbind, packet_bind. rewrite H1 by lia. rewrite H2 by (rewrite length_app; lia).
  by rewrite app_assoc.
Qed.

Lemma bind_done {A B} (m : packet A) (f : A -> packet B) b x b' :
  m b = Done (x, b') -> (m ≫= f) b = f x b'.
Proof. intros H. unfold mbind, packet_bind. by rewrite H. Qed.

Lemma overwrite_end src l : overwrite (length l) src l = l ++ src.
Proof.
  unfold overwrite. replace (length l + length src - length l)%nat with (length src) by lia.
  rewrite (take_app_length' l) by done.
  rewrite drop_ge by (rewrite length_app, repeat_length; lia). by rewrite app_nil_r.
Qed.

Lemma append_flushed_written src data :
  append_flushed src (buffer_of (data, [])) = Done (tt, buffer_of (data ++ src, [])).
Proof.
  unfold append_flushed, update, buffer_of. cbn [_wpos _storage fst snd].
  rewrite Nat2Z.id, overwrite_end. unfold with_wpos, with_storage. cbn.
  by rewrite length_app, Nat2Z.inj_add.
Qed.

Lemma append_checks_written src data pend :
  src <> [] -> Z.of_nat (length data) < max_size ->
  append_checks src (buffer_of (data, pend)) = Done (tt, buffer_of (data, pend)).
Proof.
  intros Hs Hd. unfold append_checks, ASSERT, mbind, packet_bind, here, size.
  destruct src as [|x src]; [done|]. cbn [length Nat.eqb negb mret packet_ret buffer_of _storage fst].
  by rewrite (proj2 (Z.ltb_lt _ _) Hd).
Qed.

(** A write of bytes closes the run of bits. *)
Lemma FlushBits_written data pend :
  (length pend < 8)%nat -> Z.of_nat (length data) < max_size ->
  FlushBits (buffer_of (data, pend)) =
  Done (tt, buffer_of (data ++ match pend with [] => [] | _ =>
                         [bits_value pend * 2 ^ (8 - Z.of_nat (length pend))] end, [])).
Proof.
  intros Hp Hd. unfold FlushBits. rewrite (bind_done _ _ _ _ _ eq_refl).
  destruct pend as [|p pend]; [by rewrite app_nil_r|].
  change (_bitpos (buffer_of (data, p :: pend))) with (8 - Z.of_nat (length (p :: pend))).
  rewrite (proj2 (Z.eqb_neq _ 8)) by (cbn [length]; lia). cbv zeta.
  set (v := _curbitval _). rewrite (bind_done _ _ _ _ _ eq_refl).
  assert (Hc : append_checks [v] (with_bits 8 v (buffer_of (data, p :: pend)))
               = Done (tt, with_bits 8 v (buffer_of (data, p :: pend)))).
  { unfold append_checks, ASSERT, mbind, packet_bind, here, size. cbn [length Nat.eqb negb mret packet_ret].
    change (_storage _) with data. by rewrite (proj2 (Z.ltb_lt _ _) Hd). }
  rewrite (bind_done _ _ _ _ _ Hc). rewrite (bind_done _ _ _ _ _ eq_refl). unfold update.
  cbn [buffer_of with_bits with_wpos with_storage _rpos _wpos _bitpos _curbitval _storage fst snd length].
  rewrite Nat2Z.id, overwrite_end. unfold buffer_of. cbn [fst snd length]. rewrite length_app, Nat2Z.inj_add.
  reflexivity.
Qed.

Lemma enc_bytes l src : src <> [] ->
  enc (l ++ Bytes src) =
  ((enc l).1 ++ match (enc l).2 with [] => [] | _ =>
      [bits_value (enc l).2 * 2 ^ (8 - Z.of_nat (length (enc l).2))] end ++ src, []).
Proof.
  intros Hs. rewrite enc_app. destruct (enc l) as [data pend]. cbn [fst snd].
  destruct src as [|x src]; [done|]. unfold Bytes. cbn [fmap list_fmap fold_left enc_item].
  replace (data ++ (match pend with [] => [] | _ => [bits_value pend * 2 ^ (8 - Z.of_nat (length pend))] end) ++ x :: src)
    with ((data ++ (match pend with [] => [] | _ => [bits_value pend * 2 ^ (8 - Z.of_nat (length pend))] end) ++ [x]) ++ src)
    by (rewrite <- !app_assoc; done).
  generalize (data ++ (match pend with [] => [] | _ => [bits_value pend * 2 ^ (8 - Z.of_nat (length pend))] end) ++ [x]).
  clear. induction src as [|y src IH]; intros d; [by rewrite app_nil_r|].
  cbn [fmap list_fmap fold_left enc_item]. rewrite IH, <- app_assoc. done.
Qed.

Lemma writes_append src : src <> [] -> writes (append src) (Bytes src) tt.
Proof.
  intros Hs before Hl. unfold written. rewrite (enc_bytes _ _ Hs).
  pose proof (enc_size before). pose proof (enc_pend before).
  destruct (enc before) as [data pend]. cbn [fst snd] in *.
  unfold append. erewrite bind_done by (apply append_checks_written; [done|lia]).
  erewrite bind_done by (apply FlushBits_written; lia).
  rewrite append_flushed_written. by rewrite <- app_assoc.
Qed.

(** A buffer with no pending bits, whose bit byte may still hold an old value. *)
Definition aligned (data : list Z) (cur : Z) : ByteBuffer :=
  {| _rpos := 0; _wpos := Z.of_nat (length data); _bitpos := 8; _curbitval := cur; _storage := data |}.

Lemma append_aligned src data cur :
  src <> [] -> Z.of_nat (length data) < max_size ->
  append src (aligned data cur) = Done (tt, aligned (data ++ src) cur).
Proof.
  intros Hs Hd. unfold append.
  assert (Hc : append_checks src (aligned data cur) = Done (tt, aligned data cur)).
  { unfold append_checks, ASSERT, mbind, packet_bind, here, size.
    destruct src as [|x src]; [done|]. cbn [length Nat.eqb negb mret packet_ret].
    change (_storage _) with data. by rewrite (proj2 (Z.ltb_lt _ _) Hd). }
  rewrite (bind_done _ _ _ _ _ Hc).
  rewrite (bind_done _ _ _ tt (aligned data cur)) by done.
  unfold append_flushed, update, aligned, with_wpos, with_storage. cbn [_rpos _wpos _bitpos _curbitval _storage].
  by rewrite Nat2Z.id, overwrite_end, length_app, Nat2Z.inj_add.
Qed.

Lemma buffer_of_aligned data : buffer_of (data, []) = aligned data 0.
Proof. done. Qed.

(** Bits below and above a position do not meet. *)
Lemma land_low a n c : 0 <= n -> 0 <= c < 2 ^ n -> Z.land (a * 2 ^ n) c = 0.
Proof.
  intros Hn Hc. destruct (Z.eq_dec c 0) as [->|Hz]; [apply Z.land_0_r|].
  apply Z.bits_inj'. intros i Hi. rewrite Z.land_spec, Z.bits_0.
  destruct (Z.lt_ge_cases i n); [by rewrite Z.mul_pow2_bits_low by lia|].
  rewrite (Z.bits_above_log2 c), andb_false_r; [done|lia|].
  apply Z.log2_lt_pow2; [lia|]. apply (Z.lt_le_trans _ (2 ^ n)); [lia|].
  apply Z.pow_le_mono_r; lia.
Qed.

Lemma lor_low a n c : 0 <= n -> 0 <= c < 2 ^ n -> Z.lor (a * 2 ^ n) c = a * 2 ^ n + c.
Proof.
  intros Hn Hc. pose proof (land_low a n c Hn Hc).
  by rewrite Z.add_nocarry_lxor, Z.lxor_lor.
Qed.

(** The pending byte with [new] bits more, that fit it. *)
Lemma pending_more pend new :
  (length pend + length new <= 8)%nat ->
  u8 (Z.lor (bits_value pend * 2 ^ (8 - Z.of_nat (length pend)))
            (bits_value new * 2 ^ (8 - Z.of_nat (length (pend ++ new))))) =
  bits_value (pend ++ new) * 2 ^ (8 - Z.of_nat (length (pend ++ new))).
Proof.
  intros Hl. rewrite length_app, Nat2Z.inj_add.
  set (k := 8 - (Z.of_nat (length pend) + Z.of_nat (length new))).
  assert (Hk : 8 - Z.of_nat (length pend) = Z.of_nat (length new) + k) by lia.
  pose proof (bits_value_bound new) as Hn. pose proof (bits_value_bound (pend ++ new)) as Ha.
  assert (0 <= k) by lia. assert (0 < 2 ^ k) by (apply Z.pow_pos_nonneg; lia).
  rewrite lor_low.
  - rewrite bits_value_app, Hk, Z.pow_add_r by lia. rewrite u8_small; [lia|].
    rewrite bits_value_app, length_app, Nat2Z.inj_add in Ha.
    assert (2 ^ (Z.of_nat (length pend) + Z.of_nat (length new)) * 2 ^ k = 2 ^ 8)
      by (rewrite <- Z.pow_add_r by lia; f_equal; lia). nia.
  - lia.
  - rewrite Hk, Z.pow_add_r by lia. nia.
Qed.

Lemma enc_bits_fit l new data pend :
  enc l = (data, pend) -> (length pend + length new < 8)%nat ->
  enc (l ++ (IBit <$> new)) = (data, pend ++ new).
Proof.
  intros E. rewrite enc_app, E. clear E. revert pend.
  induction new as [|b new IH]; intros pend H; [by rewrite app_nil_r|].
  cbn [fmap list_fmap fold_left enc_item length] in *.
  rewrite (proj2 (Nat.eqb_neq _ _)) by lia.
  rewrite IH by (rewrite length_app; cbn; lia). by rewrite <- app_assoc.
Qed.

Lemma enc_bits_fill l new data pend :
  enc l = (data, pend) -> (length pend + length new = 8)%nat -> (length pend < 8)%nat ->
  enc (l ++ (IBit <$> new)) = (data ++ [bits_value (pend ++ new)], []).
Proof.
  intros E H H8. destruct new as [|b new] using rev_ind; [cbn in H; lia|].
  rewrite length_app in H. cbn in H. rewrite fmap_app, app_assoc, enc_app.
  rewrite (enc_bits_fit _ _ _ _ E) by lia. cbn [fmap list_fmap fold_left enc_item].
  rewrite (proj2 (Nat.eqb_eq _ _)) by (rewrite length_app; lia). by rewrite <- app_assoc.
Qed.

Lemma bit_at_done pos : 0 <= pos < 31 -> bit_at pos = mret (2 ^ pos).
Proof.
  intros H. unfold bit_at. rewrite (proj2 (Z.leb_le _ _)), (proj2 (Z.ltb_lt _ _)) by lia.
  cbn [andb]. by rewrite Z.shiftl_mul_pow2, Z.mul_1_l by lia.
Qed.

(** The buffer after [data] whose pending byte has the bits [pend]. *)
Definition pending (data : list Z) (pend : list bool) : ByteBuffer :=
  {| _rpos := 0; _wpos := Z.of_nat (length data); _bitpos := 8 - Z.of_nat (length pend);
     _curbitval := bits_value pend * 2 ^ (8 - Z.of_nat (length pend)); _storage := data |}.

(** One bit more is set in the pending byte, or not. *)
Lemma pending_bit data pend v : (length pend < 8)%nat ->
  let pos := 7 - Z.of_nat (length pend) in
  let cur := bits_value pend * 2 ^ (8 - Z.of_nat (length pend)) in
  (if nz v then mask ← bit_at pos; update (with_bits pos (u8 (Z.lor cur mask))) else mret tt)
    (with_bits pos cur (pending data pend))
  = Done (tt, with_bits pos (bits_value (pend ++ [nz v]) * 2 ^ pos) (pending data pend)).
Proof.
  intros Hp pos cur. pose proof (pending_more pend [nz v]) as Hm. rewrite length_app in Hm. cbn [length] in Hm.
  replace (8 - Z.of_nat (length pend + 1)) with pos in Hm by lia. specialize (Hm ltac:(lia)).
  unfold bits_value at 2 in Hm. cbn [fold_left] in Hm. fold cur in Hm.
  destruct (nz v); cbn [Z.b2z] in Hm; rewrite Z.mul_0_r, Z.add_0_l in Hm.
  - rewrite bit_at_done by lia. rewrite (bind_done _ _ _ _ _ eq_refl).
    rewrite Z.mul_1_l in Hm. by rewrite Hm.
  - rewrite Z.mul_0_l, Z.lor_0_r, u8_small in Hm; [by rewrite <- Hm|].
    pose proof (bits_value_bound pend) as Hb. unfold cur.
    assert (0 < 2 ^ (8 - Z.of_nat (length pend))) by (apply Z.pow_pos_nonneg; lia).
    assert (2 ^ Z.of_nat (length pend) * 2 ^ (8 - Z.of_nat (length pend)) = 2 ^ 8)
      by (rewrite <- Z.pow_add_r by lia; f_equal; lia). nia.
Qed.

Lemma writes_WriteBit v : writes (WriteBit v) [IBit (nz v)] (nz v).
Proof.
  intros before Hl. unfold written. pose proof (enc_size before) as Hsz. pose proof (enc_pend before) as Hp.
  destruct (enc before) as [data pend] eqn:E. cbn [fst snd] in *.
  set (k := Z.of_nat (length pend)).
  unfold WriteBit. rewrite (bind_done _ _ _ _ _ eq_refl).
  assert (Hpos : (8 - k) -64 1 = 7 - k) by (rewrite u64_small; lia).
  cbn [buffer_of with_bits _rpos _wpos _bitpos _curbitval _storage fst snd].
  change (Z.of_nat (length pend)) with k. rewrite Hpos. rewrite (bind_done _ _ _ _ _ eq_refl).
  set (cur := bits_value (pend ++ [nz v]) * 2 ^ (7 - k)).
  set (next := {| _rpos := 0; _wpos := Z.of_nat (length data); _bitpos := 7 - k; _curbitval := cur; _storage := data |}).
  rewrite (bind_done _ _ _ tt next) by apply (pending_bit data pend v Hp).
  rewrite (bind_done _ _ _ _ _ eq_refl). cbn [next _bitpos _curbitval]. fold next.
  destruct (Nat.eq_dec (length pend) 7%nat) as [H7|H7].
  - rewrite (proj2 (Z.eqb_eq _ _)) by lia. change [IBit (nz v)] with (IBit <$> [nz v]).
    assert (Hc : cur = bits_value (pend ++ [nz v])) by (unfold cur; replace (7 - k) with 0 by lia; lia).
    change (update (with_bits 8 cur) next) with (Done (tt, aligned data cur)).
    rewrite (bind_done _ _ _ tt (aligned (data ++ [cur]) 0)).
    2:{ rewrite (bind_done _ _ _ tt (aligned data cur)) by done.
        rewrite (bind_done _ _ _ _ _ (append_aligned [cur] data cur ltac:(done) ltac:(lia))). done. }
    rewrite (enc_bits_fill _ [nz v] _ _ E) by (cbn; lia). rewrite <- Hc. done.
  - rewrite (proj2 (Z.eqb_neq _ _)) by lia. rewrite (bind_done _ _ _ tt next) by done.
    change [IBit (nz v)] with (IBit <$> [nz v]). rewrite (enc_bits_fit _ [nz v] _ _ E) by (cbn; lia).
    unfold mret, packet_ret, buffer_of, next. cbn [fst snd]. rewrite length_app. cbn [length].
    replace (8 - Z.of_nat (length pend + 1)) with (7 - k) by lia. done.
Qed.

Lemma bits_of_mod m n v : (m <= n)%nat -> bits_of m (v mod 2 ^ Z.of_nat n) = bits_of m v.
Proof.
  revert n v. induction m as [|m IH]; intros n v H; [done|].
  destruct n as [|n]; [lia|]. cbn [bits_of]. rewrite Nat2Z.inj_succ, Z.pow_succ_r by lia. f_equal.
  - rewrite Z.rem_mul_r, Z.add_comm, Z.mul_comm, Z.div_add_l by lia.
    rewrite (Z.div_small (v mod 2)), Z.add_0_r by (apply Z.mod_pos_bound; lia). apply IH. lia.
  - f_equal. rewrite Z.rem_mul_r by lia. rewrite Z.odd_add_mul_2.
    by rewrite (Zmod_odd v); destruct (Z.odd v).
Qed.

Lemma land_mask v n : 0 <= n -> Z.land v (Z.shiftl 1 n - 1) = v mod 2 ^ n.
Proof.
  intros Hn. rewrite <- Z.land_ones by done. done.
Qed.

(** The loop of [WriteBits] appends the full bytes of the bits it has left. *)
Lemma WriteBits_bytes_spec v cur m : forall fuel l data,
  (m <= fuel)%nat -> enc l = (data, []) -> Z.of_nat (length data + m) < max_size ->
  exists data', WriteBits_bytes fuel v (Z.of_nat m) (aligned data cur)
                = Done (Z.of_nat (m mod 8), aligned data' cur)
    /\ enc (l ++ Bits m v) = (data', bits_of (m mod 8) v).
Proof.
  induction (lt_wf m) as [m _ IH]. intros fuel l data Hf E Hd.
  destruct (Nat.lt_ge_cases m 8) as [H8|H8].
  - exists data. rewrite Nat.mod_small by done. split.
    + destruct fuel as [|fuel]; [done|]. cbn [WriteBits_bytes]. by rewrite (proj2 (Z.leb_gt _ _)) by lia.
    + apply (enc_bits_fit _ _ _ [] E). rewrite length_bits_of. cbn. lia.
  - destruct fuel as [|fuel]; [lia|]. cbn [WriteBits_bytes]. rewrite (proj2 (Z.leb_le _ _)) by lia.
    replace (Z.of_nat m - 8) with (Z.of_nat (m - 8)) by lia.
    set (x := Z.shiftr v (Z.of_nat (m - 8)) mod 256).
    rewrite (bind_done _ _ _ tt (aligned (data ++ [x]) cur)) by (apply (append_aligned [x]); [done|lia]).
    destruct (IH (m - 8)%nat ltac:(lia) fuel (l ++ Bits 8 (v / 2 ^ Z.of_nat (m - 8))) (data ++ [x])) as (data' & E1 & E2).
    + lia.
    + unfold Bits. rewrite (enc_bits_fill _ _ _ [] E) by (rewrite ?length_bits_of; cbn; lia).
      cbn [app]. rewrite bits_of_value. unfold x. by rewrite Z.shiftr_div_pow2 by lia.
    + rewrite length_app. cbn. lia.
    + assert (Hm : ((m - 8) mod 8 = m mod 8)%nat).
      { replace m with (m - 8 + 1 * 8)%nat at 2 by lia. by rewrite Nat.Div0.mod_add. }
      exists data'. rewrite E1, Hm. split; [done|]. rewrite <- Hm, <- E2, <- app_assoc.
      unfold Bits. rewrite <- fmap_app. do 2 f_equal. rewrite <- bits_of_add. f_equal. f_equal. lia.
Qed.

(** [WriteBits] when the bits do not fit the pending byte. *)
Lemma WriteBits_over v n data pend before :
  enc before = (data, pend) -> (length pend < 8)%nat -> (8 - length pend < n <= 30)%nat ->
  0 <= v < 2 ^ Z.of_nat n -> Z.of_nat (length data + n + 1) < max_size ->
  WriteBits v (Z.of_nat n) (buffer_of (data, pend)) = Done (tt, written (before ++ Bits n v)).
Proof.
  intros E Hp Hn Hv Hd. unfold WriteBits. rewrite (proj2 (Z.ltb_ge _ _)), (proj2 (Z.leb_gt _ _)) by lia. cbn [orb].
  rewrite !land_mask, Z.mod_mod, (Z.mod_small v) by lia. rewrite (bind_done _ _ _ _ _ eq_refl).
  cbn [buffer_of _bitpos _curbitval fst snd]. rewrite (proj2 (Z.ltb_lt _ _)) by lia.
  set (k := length pend) in *. set (m := (n - (8 - k))%nat).
  replace (Z.of_nat n - (8 - Z.of_nat k)) with (Z.of_nat m) by lia. cbv zeta.
  assert (Hb : bits_of n v = bits_of (8 - k) (v / 2 ^ Z.of_nat m) ++ bits_of m v)
    by (rewrite <- bits_of_add; f_equal; lia).
  set (new := bits_of (8 - k) (v / 2 ^ Z.of_nat m)) in *.
  assert (Hf : u8 (Z.lor (bits_value pend * 2 ^ (8 - Z.of_nat k)) (Z.shiftr v (Z.of_nat m))) = bits_value (pend ++ new)).
  { pose proof (pending_more pend new) as Hm.
    assert (Ln : length new = (8 - k)%nat) by apply length_bits_of.
    assert (L : length (pend ++ new) = 8%nat) by (rewrite length_app, Ln; lia).
    rewrite L in Hm. change (8 - Z.of_nat 8) with 0 in Hm. rewrite Z.pow_0_r, !Z.mul_1_r in Hm.
    rewrite <- Hm by lia. fold k. unfold new.
    rewrite bits_of_value, Z.mod_small; [by rewrite Z.shiftr_div_pow2 by lia|].
    split; [apply Z.div_pos; lia|]. apply Z.div_lt_upper_bound; [lia|]. rewrite <- Z.pow_add_r by lia.
    replace (Z.of_nat m + Z.of_nat (8 - k)) with (Z.of_nat n) by lia. lia. }
  fold k. rewrite Hf. set (first := bits_value (pend ++ new)) in *.
  rewrite (bind_done _ _ _ tt (aligned data first)) by done.
  rewrite (bind_done _ _ _ _ _ (append_aligned [first] data first ltac:(done) ltac:(lia))).
  rewrite Nat2Z.id.
  destruct (WriteBits_bytes_spec v first m m (before ++ (IBit <$> new)) (data ++ [first])) as (data' & E1 & E2);
    [lia| |rewrite length_app; cbn; lia|].
  { apply (enc_bits_fill _ _ _ _ E); unfold new; rewrite ?length_bits_of; lia. }
  rewrite (bind_done _ _ _ _ _ E1). pose proof (Nat.mod_upper_bound m 8 ltac:(lia)).
  unfold written. unfold Bits. rewrite Hb, fmap_app, app_assoc. fold (Bits m v). rewrite E2.
  unfold update, with_bits, aligned, buffer_of. cbn [_rpos _wpos _storage fst snd].
  rewrite length_bits_of, bits_of_value, land_mask, Z.shiftl_mul_pow2 by lia.
  rewrite u8_small; [done|].
  pose proof (Z.mod_pos_bound v (2 ^ Z.of_nat (m mod 8)) ltac:(lia)).
  assert (2 ^ Z.of_nat (m mod 8) * 2 ^ (8 - Z.of_nat (m mod 8)) = 2 ^ 8) by (rewrite <- Z.pow_add_r by lia; f_equal; lia).
  assert (0 < 2 ^ (8 - Z.of_nat (m mod 8))) by (apply Z.pow_pos_nonneg; lia). nia.
Qed.

(** [WriteBits] when they do. *)
Lemma WriteBits_fit v n data pend before :
  enc before = (data, pend) -> (length pend < 8)%nat -> (n <= 8 - length pend)%nat ->
  0 <= v < 2 ^ Z.of_nat n -> Z.of_nat (length data + 1) < max_size ->
  WriteBits v (Z.of_nat n) (buffer_of (data, pend)) = Done (tt, written (before ++ Bits n v)).
Proof.
  intros E Hp Hn Hv Hd. unfold WriteBits. rewrite (proj2 (Z.ltb_ge _ _)), (proj2 (Z.leb_gt _ _)) by lia. cbn [orb].
  rewrite !land_mask, Z.mod_mod, (Z.mod_small v) by lia. rewrite (bind_done _ _ _ _ _ eq_refl).
  cbn [buffer_of _bitpos _curbitval fst snd]. rewrite (proj2 (Z.ltb_ge _ _)) by lia. cbv zeta.
  set (k := length pend) in *.
  assert (Hf : u8 (Z.lor (bits_value pend * 2 ^ (8 - Z.of_nat k)) (Z.shiftl v (8 - Z.of_nat k - Z.of_nat n)))
               = bits_value (pend ++ bits_of n v) * 2 ^ (8 - Z.of_nat k - Z.of_nat n)).
  { pose proof (pending_more pend (bits_of n v)) as Hm. rewrite length_app, length_bits_of in Hm.
    replace (8 - Z.of_nat (length pend + n)) with (8 - Z.of_nat k - Z.of_nat n) in Hm by lia.
    rewrite <- Hm by lia. by rewrite bits_of_value, Z.mod_small, Z.shiftl_mul_pow2 by lia. }
  fold k. rewrite Hf. clear Hf. set (pos := 8 - Z.of_nat k - Z.of_nat n).
  set (cur := bits_value (pend ++ bits_of n v) * 2 ^ pos).
  set (next := {| _rpos := 0; _wpos := Z.of_nat (length data); _bitpos := pos; _curbitval := cur; _storage := data |}).
  rewrite (bind_done _ _ _ tt next) by done. rewrite (bind_done _ _ _ _ _ eq_refl). cbn [next _bitpos _curbitval]. fold next.
  destruct (Nat.eq_dec n (8 - k)%nat) as [H8|H8].
  - rewrite (proj2 (Z.eqb_eq _ _)) by lia. rewrite (bind_done _ _ _ tt (aligned data cur)) by done.
    rewrite (bind_done _ _ _ _ _ (append_aligned [cur] data cur ltac:(done) ltac:(lia))).
    unfold written, Bits. rewrite (enc_bits_fill _ _ _ _ E) by (rewrite ?length_bits_of; lia).
    replace cur with (bits_value (pend ++ bits_of n v)); [done|]. unfold cur. replace pos with 0 by lia. lia.
  - rewrite (proj2 (Z.eqb_neq _ _)) by lia. unfold written, Bits.
    rewrite (enc_bits_fit _ _ _ _ E) by (rewrite length_bits_of; lia).
    unfold mret, packet_ret, buffer_of, next. cbn [fst snd]. rewrite length_app, length_bits_of.
    replace (8 - Z.of_nat (length pend + n)) with pos by lia. done.
Qed.

Lemma writes_WriteBits v n : (n <= 30)%nat -> writes (WriteBits v (Z.of_nat n)) (Bits n v) tt.
Proof.
  intros Hn before Hl. unfold Bits in Hl. rewrite length_fmap, length_bits_of in Hl.
  pose proof (enc_size before) as Hsz. pose proof (enc_pend before) as Hp.
  assert (E1 : forall b, WriteBits v (Z.of_nat n) b = WriteBits (v mod 2 ^ Z.of_nat n) (Z.of_nat n) b).
  { intros b. unfold WriteBits. by rewrite !land_mask, !Z.mod_mod by lia. }
  assert (E2 : Bits n v = Bits n (v mod 2 ^ Z.of_nat n)) by (unfold Bits; by rewrite bits_of_mod).
  assert (Hv : 0 <= v mod 2 ^ Z.of_nat n < 2 ^ Z.of_nat n) by (apply Z.mod_pos_bound; lia).
  rewrite E1, E2. unfold written at 1. destruct (enc before) as [data pend] eqn:E. cbn [fst snd] in *.
  destruct (Nat.le_gt_cases n (8 - length pend)); [apply WriteBits_fit|apply WriteBits_over]; auto; lia.
Qed.

(** Any list of bits, one by one. *)
Fixpoint WriteBit_each (l : list bool) : packet unit :=
  match l with
  | [] => mret tt
  | b :: l => WriteBit (Z.b2z b);; WriteBit_each l
  end.

Lemma writes_WriteBit_each l : writes (WriteBit_each l) (IBit <$> l) tt.
Proof.
  induction l as [|b l IH]; [apply writes_ret|].
  cbn [WriteBit_each]. change (IBit <$> b :: l) with ([IBit b] ++ (IBit <$> l)).
  apply (writes_bind _ _ _ _ b); [|done]. pose proof (writes_WriteBit (Z.b2z b)) as H.
  by destruct b.
Qed.

(** C26. C. On any packet being written that has room, [WriteBits] of [n] bits,
    through the pending byte, the full bytes and the rest, writes what [WriteBit]
    writes for each of the [n] lowest bits of the value, the most significant
    first; the bits above are ignored. That is for up to 30 bits: for 31 and more
    the shift of the first mask has no defined value. *)
Theorem WriteBits_bit_by_bit :
  (forall v n before, (n <= 30)%nat ->
    Z.of_nat (2 * (length before + n + 1)) < max_size ->
    WriteBits v (Z.of_nat n) (written before) = WriteBit_each (bits_of n v) (written before)
    /\ WriteBits v (Z.of_nat n) (written before) = Done (tt, written (before ++ Bits n v)))
  /\ (forall v n b, 31 <= n -> WriteBits v n b = Failed (Undefined ShiftTooWide)).
Proof.
  split.
  - intros v n before Hn Hl.
    assert (Hr : Z.of_nat (2 * (length before + length (Bits n v) + 1)) < max_size)
      by (unfold Bits; rewrite length_fmap, length_bits_of; lia).
    rewrite (writes_WriteBits v n Hn before Hr). split; [|done].
    symmetry. by apply writes_WriteBit_each.
  - intros v n b Hn. unfold WriteBits. by rewrite (proj2 (Z.leb_le _ _)), orb_true_r by lia.
Qed.

(** Eleven bits after three. *)
Lemma WriteBits_bit_by_bit_witness :
  let before := Bits 3 5 in
  WriteBits 1234 11 (written before) = WriteBit_each (bits_of 11 1234) (written before)
  /\ WriteBits 1 31 (written before) = Failed (Undefined ShiftTooWide).
Proof.
  intros before. split.
  - apply (proj1 WriteBits_bit_by_bit 1234 11%nat before); [lia|vm_compute; reflexivity].
  - apply (proj2 WriteBits_bit_by_bit); lia.
Defined.

Lemma length_le_bytes n v : length (le_bytes n v) = n.
Proof. revert v. induction n as [|n IH]; intros v; [done|]. cbn. by rewrite IH. Qed.

Lemma le_bytes_value n v : le_value (le_bytes n v) = v mod 2 ^ (8 * Z.of_nat n).
Proof.
  revert v. induction n as [|n IH]; intros v; [cbn; by rewrite Z.mod_1_r|].
  cbn [le_bytes le_value]. rewrite IH. replace (8 * Z.of_nat (S n)) with (8 + 8 * Z.of_nat n) by lia.
  rewrite Z.pow_add_r by lia. by rewrite Z.rem_mul_r by lia.
Qed.

Lemma writes_le n v : n <> O -> writes (append (le_bytes n v)) (Bytes (le_bytes n v)) tt.
Proof. intros Hn. apply writes_append. by destruct n. Qed.

Lemma writes_WriteByteSeq b : 0 <= b < 256 ->
  writes (WriteByteSeq b) (if nz b then [IByte (Z.lxor b 1)] else []) tt.
Proof.
  intros Hb. unfold WriteByteSeq. destruct (nz b) eqn:E; [|apply writes_ret].
  replace [IByte (Z.lxor b 1)] with (Bytes (le_bytes 1 (Z.lxor b 1))); [by apply writes_le|].
  cbn. f_equal. f_equal. apply Z.mod_small. split.
  - apply Z.lxor_nonneg; lia.
  - destruct (Z.eq_dec (Z.lxor b 1) 0) as [->|Hz]; [lia|].
    assert (0 <= Z.lxor b 1) by (apply Z.lxor_nonneg; lia).
    apply (Z.log2_lt_pow2 _ 8); [lia|]. pose proof (Z.log2_lxor b 1 ltac:(lia) ltac:(lia)).
    change (Z.log2 1) with 0 in *. pose proof (Z.log2_nonneg b).
    destruct (Z.eq_dec b 0) as [->|]; [cbn in *; lia|]. pose proof (proj1 (Z.log2_lt_pow2 b 8 ltac:(lia)) ltac:(lia)). lia.
Qed.
