(* ===== verification/BitReader.v ===== *)
(** What a reader gets out of a packet buffer, and that it is what was written. *)
From Stdlib Require Import ZArith Lia Bool.
From stdpp Require Import base list tactics.
From S2P Require Import Prelude ByteBuffer BitStream.

Open Scope Z_scope.

(** The items a reader can take, when it has the bits [p] left of the byte it
    opened last and the bytes [d] ahead. *)
Inductive yields : list bool -> list Z -> list item -> Prop :=
  | yields_nil p : yields p [] []
  | yields_bit b p d l : yields p d l -> yields (b :: p) d (IBit b :: l)
  | yields_open x b p d l : bits_of 8 x = b :: p -> yields p d l -> yields [] (x :: d) (IBit b :: l)
  | yields_byte x p d l : yields p d l -> yields p (x :: d) (IByte x :: l).

(** A buffer in that position. *)
Record reading (p : list bool) (d : list Z) (b : ByteBuffer) : Prop := {
  rd_data : drop (Z.to_nat (_rpos b)) (_storage b) = d;
  rd_rpos : 0 <= _rpos b <= size b;
  rd_size : size b < max_size;
  rd_bitpos : _bitpos b = 8 - Z.of_nat (length p);
  rd_pend : (length p <= 8)%nat;
  rd_bits : p = bits_of (length p) (_curbitval b)
}.

Definition reads (l : list item) (b : ByteBuffer) : Prop := exists p d, reading p d b /\ yields p d l.

(** A step that takes the items [l] off a packet and returns [x]. *)
Definition takes {A} (m : packet A) (l : list item) (x : A) : Prop :=
  forall rest b, reads (l ++ rest) b -> exists b', m b = Done (x, b') /\ reads rest b'.

Lemma takes_ret {A} (x : A) : takes (mret x) [] x.
Proof. intros rest b H. by exists b. Qed.

Lemma takes_bind {A B} (m : packet A) (f : A -> packet B) l1 l2 x y :
  takes m l1 x -> takes (f x) l2 y -> takes (m ≫= f) (l1 ++ l2) y.
Proof.
  intros H1 H2 rest b H. rewrite <- app_assoc in H.
  destruct (H1 _ _ H) as (b1 & E1 & R1). destruct (H2 _ _ R1) as (b2 & E2 & R2).
  exists b2. split; [|done]. unfold mbind, packet_bind. by rewrite E1.
Qed.

Lemma takes_bind_ret {A B} (m : packet A) (f : A -> packet B) l x y :
  takes m l x -> f x = mret y -> takes (m ≫= f) l y.
Proof.
  intros H1 H2. rewrite <- (app_nil_r l). eapply takes_bind; [done|]. rewrite H2. apply takes_ret.
Qed.

(** ** Bytes *)

Lemma yields_bytes p d l rest :
  yields p d (Bytes l ++ rest) -> exists d', d = l ++ d' /\ yields p d' rest.
Proof.
  revert d. induction l as [|x l IH]; intros d H; [by exists d|].
  cbn in H. inversion H as [| | |x' p' d' l' H1]; subst.
  destruct (IH _ H1) as (d'' & -> & H2). by exists d''.
Qed.

Lemma read_bytes_reading p l d b :
  reading p (l ++ d) b -> exists b', read_bytes (length l) b = Done (l, b') /\ reading p d b'.
Proof.
  intros [Hd Hr Hs Hb Hp Hc].
  assert (Hl : _rpos b + Z.of_nat (length l) <= size b).
  { apply (f_equal length) in Hd. rewrite length_drop, length_app in Hd. unfold size in *. lia. }
  assert (W : _rpos b +64 Z.of_nat (length l) = _rpos b + Z.of_nat (length l))
    by (apply u64_small; change max_size with 10000000 in Hs; lia).
  exists (with_rpos (_rpos b + Z.of_nat (length l)) b). split.
  - unfold read_bytes. rewrite (bind_done _ _ _ _ _ eq_refl), W, (proj2 (Z.ltb_ge _ _)) by lia.
    rewrite (bind_done _ _ _ _ _ eq_refl), Hd, take_app_length. done.
  - split; try done; cbn [with_rpos _rpos _storage].
    + rewrite Z2Nat.inj_add, Nat2Z.id, <- drop_drop, Hd by lia. by rewrite drop_app_length.
    + split; [lia|]. exact Hl.
Qed.

Lemma takes_read_bytes l : takes (read_bytes (length l)) (Bytes l) l.
Proof.
  intros rest b (p & d & R & Y). destruct (yields_bytes _ _ _ _ Y) as (d' & -> & Y').
  destruct (read_bytes_reading _ _ _ _ R) as (b' & E & R'). exists b'. split; [done|]. by exists p, d'.
Qed.

Lemma le_value_bytes n v : 0 <= v < 2 ^ (8 * Z.of_nat n) -> le_value (le_bytes n v) = v.
Proof. intros H. rewrite le_bytes_value. by apply Z.mod_small. Qed.

Lemma takes_read_le n v : 0 <= v < 2 ^ (8 * Z.of_nat n) ->
  takes (l ← read_bytes n; mret (le_value l)) (Bytes (le_bytes n v)) v.
Proof.
  intros H. eapply takes_bind_ret.
  - rewrite <- (length_le_bytes n v) at 1. apply takes_read_bytes.
  - cbn beta. by rewrite le_value_bytes.
Qed.

Lemma takes_read_u8 v : 0 <= v < 256 -> takes read_u8 [IByte v] v.
Proof.
  intros H. pose proof (takes_read_le 1 v H) as T. cbn in T. by rewrite Z.mod_small in T.
Qed.

Lemma takes_read_u32 v : 0 <= v < 2 ^ 32 -> takes read_u32 (Bytes (le_bytes 4 v)) v.
Proof. apply (takes_read_le 4). Qed.

Lemma takes_get_float v : 0 <= v < 2 ^ 32 -> isfinite v = true -> takes get_float (Bytes (le_bytes 4 v)) v.
Proof.
  intros H Hf. eapply takes_bind_ret; [by apply takes_read_u32|]. cbn beta. by rewrite Hf.
Qed.

Lemma takes_read_i8 v : -128 <= v < 128 -> takes read_i8 [IByte (v mod 256)] v.
Proof.
  intros H. eapply takes_bind_ret; [apply takes_read_u8, Z.mod_pos_bound; lia|].
  cbn beta. f_equal. unfold i8. destruct (Z.lt_ge_cases v 0).
  - replace (v mod 256) with (v + 256) by (apply Z.mod_unique with (-1); lia).
    rewrite (proj2 (Z.ltb_ge _ _)); lia.
  - rewrite Z.mod_small by lia. rewrite (proj2 (Z.ltb_lt _ _)); lia.
Qed.

(** A byte of an identifier whose presence is known. *)
Lemma takes_ReadByteSeq b : 0 <= b < 256 ->
  takes (ReadByteSeq (Z.b2z (nz b))) (if nz b then [IByte (Z.lxor b 1)] else []) b.
Proof.
  intros Hb. unfold ReadByteSeq. destruct (nz b) eqn:E; cbn [Z.b2z].
  - change (nz 1) with true. cbn match.
    assert (Hx : 0 <= Z.lxor b 1 < 256).
    { split; [apply Z.lxor_nonneg; lia|]. destruct (Z.eq_dec (Z.lxor b 1) 0) as [->|Hz]; [lia|].
      assert (0 <= Z.lxor b 1) by (apply Z.lxor_nonneg; lia).
      apply (Z.log2_lt_pow2 _ 8); [lia|]. pose proof (Z.log2_lxor b 1 ltac:(lia) ltac:(lia)).
      change (Z.log2 1) with 0 in *. apply nz_true in E.
      pose proof (proj1 (Z.log2_lt_pow2 b 8 ltac:(lia)) ltac:(lia)). pose proof (Z.log2_nonneg b). lia. }
    eapply takes_bind_ret; [by apply takes_read_u8|]. cbn beta. f_equal.
    by rewrite Z.lxor_comm, Z.lxor_assoc, Z.lxor_nilpotent, Z.lxor_0_r.
  - apply nz_false in E. subst. apply takes_ret.
Qed.

(** ** Bits *)

Lemma bits_of_head n v : bits_of (S n) v = Z.odd (v / 2 ^ Z.of_nat n) :: bits_of n v.
Proof.
  change (S n) with (1 + n)%nat. rewrite (bits_of_add 1 n). cbn. done.
Qed.

Lemma nz_bit v n : 0 <= n -> nz (Z.land (Z.shiftr v n) 1) = Z.odd (v / 2 ^ n).
Proof.
  intros Hn. rewrite Z.shiftr_div_pow2 by done. change 1 with (Z.ones 1).
  rewrite Z.land_ones by lia. change (2 ^ 1) with 2. rewrite Zmod_odd. by destruct (Z.odd _).
Qed.

(** [ReadBit] on a buffer that has bits left of the byte it opened. *)
Lemma ReadBit_more b p d buf :
  reading (b :: p) d buf ->
  exists buf', (update (fun b => with_bits (_bitpos b + 1) (_curbitval b) b);;
                b ← here; mret (nz (Z.land (Z.shiftr (_curbitval b) (8 - _bitpos b)) 1))) buf
               = Done (b, buf') /\ reading p d buf'.
Proof.
  intros [Hd Hr Hs Hb Hp Hc]. cbn [length] in *.
  exists (with_bits (_bitpos buf + 1) (_curbitval buf) buf). split.
  - rewrite (bind_done _ _ _ _ _ eq_refl). rewrite (bind_done _ _ _ _ _ eq_refl).
    cbn [with_bits _curbitval _bitpos]. rewrite Hb.
    replace (8 - (8 - Z.of_nat (S (length p)) + 1)) with (Z.of_nat (length p)) by lia.
    rewrite nz_bit by lia. rewrite bits_of_head in Hc. by injection Hc as -> _.
  - split; try done; cbn [with_bits _curbitval _bitpos].
    + rewrite Hb. lia.
    + lia.
    + rewrite bits_of_head in Hc. by injection Hc.
Qed.

Lemma takes_ReadBit b : takes ReadBit [IBit b] b.
Proof.
  intros rest buf (p & d & R & Y). cbn in Y. unfold ReadBit. rewrite (bind_done _ _ _ _ _ eq_refl).
  inversion Y as [|b' p' d' l' Y'|x b' p' d' l' Hx Y'|]; subst.
  - destruct (ReadBit_more _ _ _ _ R) as (buf' & E & R'). exists buf'. split; [|by exists p', d].
    rewrite (rd_bitpos _ _ _ R). cbn [length]. rewrite (proj2 (Z.leb_gt _ _)) by lia.
    rewrite (bind_done _ _ _ tt buf) by done. exact E.
  - rewrite (rd_bitpos _ _ _ R). cbn [length]. rewrite (proj2 (Z.leb_le _ _)) by lia.
    destruct (read_bytes_reading [] [x] d' buf R) as (buf1 & E1 & R1).
    change (length [x]) with 1%nat in E1.
    assert (R2 : reading (b :: p') d' (with_bits 0 x buf1)).
    { destruct R1 as [Hd1 Hr1 Hs1 Hb1 Hp1 Hc1].
      assert (L : length (b :: p') = 8%nat) by (rewrite <- Hx; apply length_bits_of).
      split; try done; rewrite ?L; cbn [with_bits _bitpos _curbitval]; [lia|lia|by symmetry]. }
    destruct (ReadBit_more _ _ _ _ R2) as (buf2 & E2 & R3). exists buf2. split; [|by exists p', d'].
    rewrite (bind_done _ _ _ tt (with_bits 0 x buf1)); [exact E2|].
    rewrite (bind_done _ _ _ _ _ E1). cbn [le_value]. by rewrite Z.add_0_r.
Qed.

Lemma takes_ReadBits_from n v : forall value, (n <= 32)%nat ->
  0 <= value -> value mod 2 ^ Z.of_nat n = 0 ->
  takes (ReadBits_from n value) (Bits n v) (value + v mod 2 ^ Z.of_nat n).
Proof.
  induction n as [|n IH]; intros value Hn Hv Hm.
  - rewrite Z.mod_1_r, Z.add_0_r. apply takes_ret.
  - unfold Bits. rewrite bits_of_head. cbn [ReadBits_from]. set (b := Z.odd (v / 2 ^ Z.of_nat n)).
    change (IBit <$> b :: bits_of n v) with ([IBit b] ++ Bits n v).
    eapply takes_bind; [apply takes_ReadBit|]. cbn beta. rewrite (proj2 (Z.leb_gt _ _)) by lia.
    rewrite Nat2Z.inj_succ, Z.pow_succ_r in * by lia.
    assert (Hw : Z.lor value (u32 (Z.shiftl (Z.b2z b) (Z.of_nat n))) = value + Z.b2z b * 2 ^ Z.of_nat n).
    { rewrite Z.shiftl_mul_pow2 by lia. rewrite u32_small.
      - apply Z.mod_divide in Hm; [|lia]. destruct Hm as [q ->].
        replace (q * (2 * 2 ^ Z.of_nat n)) with (q * 2 ^ (Z.of_nat n + 1)) by (rewrite Z.pow_add_r by lia; lia).
        apply lor_low; [lia|]. rewrite Z.pow_add_r by lia. destruct b; cbn; lia.
      - assert (2 ^ Z.of_nat n <= 2 ^ 31) by (apply Z.pow_le_mono_r; lia). destruct b; cbn [Z.b2z]; lia. }
    rewrite Hw. replace (value + v mod (2 * 2 ^ Z.of_nat n))
      with (value + Z.b2z b * 2 ^ Z.of_nat n + v mod 2 ^ Z.of_nat n).
    + apply IH; [lia|destruct b; cbn; lia|]. rewrite Z.mod_add by lia.
      apply Z.mod_divide in Hm; [|lia]. destruct Hm as [q ->].
      rewrite Z.mul_assoc. apply Z.mod_mul. lia.
    + rewrite (Z.mul_comm 2), Z.rem_mul_r by lia. rewrite Zmod_odd. fold b. destruct b; cbn [Z.b2z]; lia.
Qed.

Lemma takes_ReadBits n v : (n <= 32)%nat -> 0 <= v < 2 ^ Z.of_nat n ->
  takes (ReadBits (Z.of_nat n)) (Bits n v) v.
Proof.
  intros Hn Hv. unfold ReadBits. rewrite Nat2Z.id.
  replace v with (0 + v mod 2 ^ Z.of_nat n) at 2 by (rewrite Z.mod_small; lia).
  by apply takes_ReadBits_from.
Qed.

(** ** A packet with one run of bits *)

Lemma yields_bits l d rest : forall p,
  yields p d rest -> yields (l ++ p) d ((IBit <$> l) ++ rest).
Proof. induction l as [|b l IH]; intros p H; [done|]. cbn. constructor. by apply IH. Qed.

Lemma yields_all_bytes l d rest p : yields p d rest -> yields p (l ++ d) (Bytes l ++ rest).
Proof. intros H. induction l as [|x l IH]; [done|]. cbn. by constructor. Qed.

Lemma bits_of_bits_value l : bits_of (length l) (bits_value l) = l.
Proof.
  induction l as [|b l IH] using rev_ind; [done|].
  rewrite length_app, Nat.add_comm. cbn [length Nat.add bits_of]. rewrite bits_value_snoc.
  replace ((2 * bits_value l + Z.b2z b) / 2) with (bits_value l)
    by (apply Z.div_unique with (Z.b2z b); destruct b; cbn; lia).
  rewrite IH, Z.add_comm, Z.odd_add_mul_2. by destruct b.
Qed.

(** The byte of at most eight bits, the missing ones zero. *)
Lemma bits_of_byte l : (length l <= 8)%nat ->
  bits_of 8 (bits_value l * 2 ^ (8 - Z.of_nat (length l))) = l ++ repeat false (8 - length l).
Proof.
  intros H.
  assert (Hr : forall n, bits_value (repeat false n) = 0).
  { induction n as [|n IH]; [done|]. replace (S n) with (n + 1)%nat by lia.
    rewrite repeat_app. cbn [repeat]. by rewrite bits_value_snoc, IH. }
  rewrite <- (bits_of_bits_value (l ++ repeat false (8 - length l))).
  rewrite bits_value_app, Hr, Z.add_0_r, length_app, repeat_length.
  f_equal; [lia|]. do 2 f_equal. lia.
Qed.

Lemma enc_prefix l d d0 p :
  fold_left enc_item l (d ++ d0, p) =
  (d ++ (fold_left enc_item l (d0, p)).1, (fold_left enc_item l (d0, p)).2).
Proof.
  revert d0 p. induction l as [|i l IH]; intros d0 p; [done|].
  cbn [fold_left]. destruct i as [b|x]; cbn [enc_item].
  - destruct (Nat.eqb (length p) 7); [rewrite <- app_assoc|]; apply IH.
  - rewrite <- app_assoc. apply IH.
Qed.

(** Bits and then bytes, at least one of them unless the bits fill theirs. *)
Lemma yields_enc_bits : forall n l rest, (length l <= n)%nat ->
  rest <> [] \/ (enc (IBit <$> l)).2 = [] ->
  yields [] (enc ((IBit <$> l) ++ Bytes rest)).1 ((IBit <$> l) ++ Bytes rest).
Proof.
  induction n as [n IH] using lt_wf_ind; intros l rest Hn Hr.
  assert (Hbytes : forall p, yields p rest (Bytes rest)).
  { intros p. pose proof (yields_all_bytes rest [] [] p (yields_nil p)) as Y. by rewrite !app_nil_r in Y. }
  destruct (Nat.lt_ge_cases (length l) 8) as [H8|H8].
  - assert (E : enc (IBit <$> l) = ([], l)) by (apply (enc_bits_fit [] l [] [] eq_refl); cbn; lia).
    destruct l as [|b l].
    { cbn [fmap list_fmap app]. destruct rest as [|x rest]; [constructor|].
      rewrite <- (app_nil_l (Bytes _)) at 1. rewrite (enc_bytes []) by done. cbn [enc fold_left fst snd app]. apply Hbytes. }
    destruct Hr as [Hr|Hr]; [|by rewrite E in Hr].
    rewrite (enc_bytes _ _ Hr), E. cbn [fst snd app].
    pose proof (bits_of_byte (b :: l) ltac:(lia)) as Hb.
    change ((IBit <$> b :: l) ++ Bytes rest) with (IBit b :: (IBit <$> l) ++ Bytes rest).
    eapply yields_open; [exact Hb|]. by apply yields_bits.
  - rewrite <- (take_drop 8 l), fmap_app, <- app_assoc.
    set (l1 := take 8 l). set (l2 := drop 8 l).
    assert (L1 : length l1 = 8%nat) by (unfold l1; rewrite length_take; lia).
    assert (E : enc (IBit <$> l1) = ([bits_value l1], [])) by (apply (enc_bits_fill [] l1 [] [] eq_refl); cbn; lia).
    assert (Ep : forall k, enc ((IBit <$> l1) ++ k) = (bits_value l1 :: (enc k).1, (enc k).2)).
    { intros k. rewrite enc_app, E. apply (enc_prefix k [bits_value l1] []). }
    rewrite Ep. cbn [fst].
    assert (Y : yields [] (enc ((IBit <$> l2) ++ Bytes rest)).1 ((IBit <$> l2) ++ Bytes rest)).
    { apply (IH (length l2)); [unfold l2; rewrite length_drop; lia|lia|].
      destruct Hr as [Hr|Hr]; [by left|right]. rewrite <- (take_drop 8 l), fmap_app in Hr. fold l1 l2 in Hr.
      rewrite Ep in Hr. done. }
    pose proof (bits_of_byte l1 ltac:(lia)) as Hb. rewrite L1 in Hb. cbn [Nat.sub repeat] in Hb.
    change (8 - Z.of_nat 8) with 0 in Hb. rewrite Z.pow_0_r, Z.mul_1_r, app_nil_r in Hb.
    clearbody l1. destruct l1 as [|b l1']; [done|]. cbn [fmap list_fmap app].
    eapply yields_open; [exact Hb|].
    pose proof (yields_bits l1' _ _ [] Y) as Y'. by rewrite app_nil_r in Y'.
Qed.

(** Bytes, one run of bits, bytes: what was written is what is read. *)
Lemma written_reads l1 bits l2 :
  l2 <> [] \/ (enc (IBit <$> bits)).2 = [] ->
  Z.of_nat (2 * (length l1 + length bits + length l2)) < max_size ->
  reads (Bytes l1 ++ (IBit <$> bits) ++ Bytes l2)
    (ByteBuffer_received (_storage (written (Bytes l1 ++ (IBit <$> bits) ++ Bytes l2)))).
Proof.
  intros H Hs. exists [], (enc (Bytes l1 ++ (IBit <$> bits) ++ Bytes l2)).1. split.
  - pose proof (enc_size (Bytes l1 ++ (IBit <$> bits) ++ Bytes l2)) as Hz.
    unfold Bytes in *. rewrite !length_app, !length_fmap in Hz.
    split; try done; unfold size; cbn [ByteBuffer_received written buffer_of _rpos _storage length]; lia.
  - pose proof (yields_enc_bits _ bits l2 (le_n _) H) as Y.
    destruct l1 as [|x l1]; [exact Y|].
    rewrite enc_app. pose proof (enc_bytes [] (x :: l1) ltac:(done)) as E1.
    rewrite app_nil_l in E1. rewrite E1. change (enc []) with (@nil Z, @nil bool). cbn [fst snd].
    change ([] ++ [] ++ x :: l1) with (x :: l1).
    pose proof (enc_prefix ((IBit <$> bits) ++ Bytes l2) (x :: l1) [] []) as P.
    rewrite app_nil_r in P. rewrite P. cbn [fst]. by apply yields_all_bytes.
Qed.
