(* ===== verification/MovementStructures.v ===== *)
(** The layouts of the movement packets:
    [src/src/server/game/Movement/MovementStructures.h] and
    [MovementStructures.cpp], with the opcodes that select them
    ([src/src/server/game/Server/Protocol/Opcodes.h]).

    A layout is a sequence of elements; the reader and the writer of movement
    packets interpret it. The tables end with [MSEEnd], as in the source. *)
From Stdlib Require Import ZArith.
From stdpp Require Import base list.

Open Scope Z_scope.

Inductive MovementStatusElements :=
  | MSEHasGuidByte0
  | MSEHasGuidByte1
  | MSEHasGuidByte2
  | MSEHasGuidByte3
  | MSEHasGuidByte4
  | MSEHasGuidByte5
  | MSEHasGuidByte6
  | MSEHasGuidByte7
  | MSEHasMovementFlags
  | MSEHasMovementFlags2
  | MSEHasTimestamp
  | MSEHasOrientation
  | MSEHasTransportData
  | MSEHasTransportGuidByte0
  | MSEHasTransportGuidByte1
  | MSEHasTransportGuidByte2
  | MSEHasTransportGuidByte3
  | MSEHasTransportGuidByte4
  | MSEHasTransportGuidByte5
  | MSEHasTransportGuidByte6
  | MSEHasTransportGuidByte7
  | MSEHasTransportTime2
  | MSEHasVehicleId
  | MSEHasPitch
  | MSEHasFallData
  | MSEHasFallDirection
  | MSEHasSplineElevation
  | MSEHasSpline
  | MSEHasHeightChangeFailed
  | MSEGuidByte0
  | MSEGuidByte1
  | MSEGuidByte2
  | MSEGuidByte3
  | MSEGuidByte4
  | MSEGuidByte5
  | MSEGuidByte6
  | MSEGuidByte7
  | MSEMovementFlags
  | MSEMovementFlags2
  | MSETimestamp
  | MSEPositionX
  | MSEPositionY
  | MSEPositionZ
  | MSEOrientation
  | MSETransportGuidByte0
  | MSETransportGuidByte1
  | MSETransportGuidByte2
  | MSETransportGuidByte3
  | MSETransportGuidByte4
  | MSETransportGuidByte5
  | MSETransportGuidByte6
  | MSETransportGuidByte7
  | MSETransportPositionX
  | MSETransportPositionY
  | MSETransportPositionZ
  | MSETransportOrientation
  | MSETransportSeat
  | MSETransportTime
  | MSETransportTime2
  | MSETransportVehicleId
  | MSEPitch
  | MSEFallTime
  | MSEFallVerticalSpeed
  | MSEFallCosAngle
  | MSEFallSinAngle
  | MSEFallHorizontalSpeed
  | MSESplineElevation
  | MSECounter
  | MSEZeroBit
  | MSEOneBit
  | MSEFlushBits
  | MSEEnd
  | MSEExtraElement
  | MSEExtraFloat
  | MSEExtraInt8
  | MSEExtraTwoBits.

Scheme Equality for MovementStatusElements.

(** The values of the enumeration. *)
Definition element_value (e : MovementStatusElements) : nat :=
  match e with
  | MSEHasGuidByte0 => 0
  | MSEHasGuidByte1 => 1
  | MSEHasGuidByte2 => 2
  | MSEHasGuidByte3 => 3
  | MSEHasGuidByte4 => 4
  | MSEHasGuidByte5 => 5
  | MSEHasGuidByte6 => 6
  | MSEHasGuidByte7 => 7
  | MSEHasMovementFlags => 8
  | MSEHasMovementFlags2 => 9
  | MSEHasTimestamp => 10
  | MSEHasOrientation => 11
  | MSEHasTransportData => 12
  | MSEHasTransportGuidByte0 => 13
  | MSEHasTransportGuidByte1 => 14
  | MSEHasTransportGuidByte2 => 15
  | MSEHasTransportGuidByte3 => 16
  | MSEHasTransportGuidByte4 => 17
  | MSEHasTransportGuidByte5 => 18
  | MSEHasTransportGuidByte6 => 19
  | MSEHasTransportGuidByte7 => 20
  | MSEHasTransportTime2 => 21
  | MSEHasVehicleId => 22
  | MSEHasPitch => 23
  | MSEHasFallData => 24
  | MSEHasFallDirection => 25
  | MSEHasSplineElevation => 26
  | MSEHasSpline => 27
  | MSEHasHeightChangeFailed => 28
  | MSEGuidByte0 => 29
  | MSEGuidByte1 => 30
  | MSEGuidByte2 => 31
  | MSEGuidByte3 => 32
  | MSEGuidByte4 => 33
  | MSEGuidByte5 => 34
  | MSEGuidByte6 => 35
  | MSEGuidByte7 => 36
  | MSEMovementFlags => 37
  | MSEMovementFlags2 => 38
  | MSETimestamp => 39
  | MSEPositionX => 40
  | MSEPositionY => 41
  | MSEPositionZ => 42
  | MSEOrientation => 43
  | MSETransportGuidByte0 => 44
  | MSETransportGuidByte1 => 45
  | MSETransportGuidByte2 => 46
  | MSETransportGuidByte3 => 47
  | MSETransportGuidByte4 => 48
  | MSETransportGuidByte5 => 49
  | MSETransportGuidByte6 => 50
  | MSETransportGuidByte7 => 51
  | MSETransportPositionX => 52
  | MSETransportPositionY => 53
  | MSETransportPositionZ => 54
  | MSETransportOrientation => 55
  | MSETransportSeat => 56
  | MSETransportTime => 57
  | MSETransportTime2 => 58
  | MSETransportVehicleId => 59
  | MSEPitch => 60
  | MSEFallTime => 61
  | MSEFallVerticalSpeed => 62
  | MSEFallCosAngle => 63
  | MSEFallSinAngle => 64
  | MSEFallHorizontalSpeed => 65
  | MSESplineElevation => 66
  | MSECounter => 67
  | MSEZeroBit => 68
  | MSEOneBit => 69
  | MSEFlushBits => 70
  | MSEEnd => 71
  | MSEExtraElement => 72
  | MSEExtraFloat => 73
  | MSEExtraInt8 => 74
  | MSEExtraTwoBits => 75
  end.

(** ** Opcodes *)

Definition MSG_MOVE_FALL_LAND : Z := 0x380A.
Definition MSG_MOVE_HEARTBEAT : Z := 0x3914.
Definition MSG_MOVE_JUMP : Z := 0x7A06.
Definition MSG_MOVE_SET_FACING : Z := 0x7914.
Definition MSG_MOVE_SET_PITCH : Z := 0x7312.
Definition MSG_MOVE_START_ASCEND : Z := 0x390A.
Definition MSG_MOVE_START_BACKWARD : Z := 0x330A.
Definition MSG_MOVE_START_DESCEND : Z := 0x3800.
Definition MSG_MOVE_START_FORWARD : Z := 0x7814.
Definition MSG_MOVE_START_PITCH_DOWN : Z := 0x3908.
Definition MSG_MOVE_START_PITCH_UP : Z := 0x3304.
Definition MSG_MOVE_START_STRAFE_LEFT : Z := 0x3A16.
Definition MSG_MOVE_START_STRAFE_RIGHT : Z := 0x3A02.
Definition MSG_MOVE_START_SWIM : Z := 0x3206.
Definition MSG_MOVE_START_TURN_LEFT : Z := 0x700C.
Definition MSG_MOVE_START_TURN_RIGHT : Z := 0x7000.
Definition MSG_MOVE_STOP : Z := 0x320A.
Definition MSG_MOVE_STOP_ASCEND : Z := 0x7B00.
Definition MSG_MOVE_STOP_PITCH : Z := 0x7216.
Definition MSG_MOVE_STOP_STRAFE : Z := 0x3002.
Definition MSG_MOVE_STOP_SWIM : Z := 0x3802.
Definition MSG_MOVE_STOP_TURN : Z := 0x331E.
Definition CMSG_MOVE_CHNG_TRANSPORT : Z := 0x3102.
Definition CMSG_MOVE_SPLINE_DONE : Z := 0x790E.
Definition CMSG_MOVE_NOT_ACTIVE_MOVER : Z := 0x7A1A.
Definition CMSG_DISMISS_CONTROLLED_VEHICLE : Z := 0x3218.
Definition CMSG_FORCE_MOVE_ROOT_ACK : Z := 0x701E.
Definition CMSG_FORCE_MOVE_UNROOT_ACK : Z := 0x7808.
Definition CMSG_MOVE_FALL_RESET : Z := 0x310A.
Definition CMSG_MOVE_FEATHER_FALL_ACK : Z := 0x3110.
Definition CMSG_MOVE_FORCE_FLIGHT_SPEED_CHANGE_ACK : Z := 0x7314.
Definition CMSG_MOVE_FORCE_RUN_BACK_SPEED_CHANGE_ACK : Z := 0x3216.
Definition CMSG_MOVE_FORCE_RUN_SPEED_CHANGE_ACK : Z := 0x7818.
Definition CMSG_MOVE_FORCE_SWIM_SPEED_CHANGE_ACK : Z := 0x7A10.
Definition CMSG_MOVE_FORCE_SWIM_BACK_SPEED_CHANGE_ACK : Z := 0x7A16.
Definition CMSG_MOVE_FORCE_FLIGHT_BACK_SPEED_CHANGE_ACK : Z := 0x310E.
Definition CMSG_MOVE_FORCE_WALK_SPEED_CHANGE_ACK : Z := 0x7210.
Definition CMSG_MOVE_GRAVITY_DISABLE_ACK : Z := 0x3118.
Definition CMSG_MOVE_GRAVITY_ENABLE_ACK : Z := 0x700A.
Definition CMSG_MOVE_HOVER_ACK : Z := 0x3318.
Definition CMSG_MOVE_KNOCK_BACK_ACK : Z := 0x721C.
Definition CMSG_MOVE_SET_CAN_FLY : Z := 0x720E.
Definition CMSG_MOVE_SET_CAN_FLY_ACK : Z := 0x790C.
Definition CMSG_MOVE_SET_CAN_TRANSITION_BETWEEN_SWIM_AND_FLY_ACK : Z := 0x3014.
Definition CMSG_MOVE_SET_COLLISION_HEIGHT_ACK : Z := 0x7114.
Definition SMSG_MOVE_SET_COLLISION_HEIGHT : Z := 0x11B0.
Definition SMSG_MOVE_UPDATE_COLLISION_HEIGHT : Z := 0x59A3.
Definition CMSG_MOVE_WATER_WALK_ACK : Z := 0x3B00.
Definition MSG_MOVE_SET_RUN_MODE : Z := 0x791A.
Definition MSG_MOVE_SET_WALK_MODE : Z := 0x7002.
Definition SMSG_MOVE_UPDATE : Z := 0x79A2.
Definition SMSG_MOVE_UPDATE_FLIGHT_SPEED : Z := 0x30B1.
Definition SMSG_MOVE_UPDATE_RUN_SPEED : Z := 0x14A6.
Definition SMSG_MOVE_UPDATE_KNOCK_BACK : Z := 0x3DB2.
Definition SMSG_MOVE_UPDATE_RUN_BACK_SPEED : Z := 0x3DA6.
Definition SMSG_MOVE_UPDATE_SWIM_SPEED : Z := 0x59B5.
Definition SMSG_MOVE_UPDATE_SWIM_BACK_SPEED : Z := 0x30B5.
Definition SMSG_MOVE_UPDATE_WALK_SPEED : Z := 0x54A2.
Definition SMSG_SPLINE_MOVE_SET_WALK_SPEED : Z := 0x34A5.
Definition SMSG_SPLINE_MOVE_SET_RUN_SPEED : Z := 0x51B7.
Definition SMSG_SPLINE_MOVE_SET_RUN_BACK_SPEED : Z := 0x3DB3.
Definition SMSG_SPLINE_MOVE_SET_SWIM_SPEED : Z := 0x39A4.
Definition SMSG_SPLINE_MOVE_SET_SWIM_BACK_SPEED : Z := 0x59A1.
Definition SMSG_SPLINE_MOVE_SET_TURN_RATE : Z := 0x78B5.
Definition SMSG_SPLINE_MOVE_SET_FLIGHT_SPEED : Z := 0x39A0.
Definition SMSG_SPLINE_MOVE_SET_FLIGHT_BACK_SPEED : Z := 0x38B3.
Definition SMSG_SPLINE_MOVE_SET_PITCH_RATE : Z := 0x14B0.
Definition SMSG_MOVE_SET_WALK_SPEED : Z := 0x1DA4.
Definition SMSG_MOVE_SET_RUN_SPEED : Z := 0x3DB5.
Definition SMSG_MOVE_SET_RUN_BACK_SPEED : Z := 0x71B1.
Definition SMSG_MOVE_SET_SWIM_SPEED : Z := 0x15A7.
Definition SMSG_MOVE_SET_SWIM_BACK_SPEED : Z := 0x5CA6.
Definition SMSG_MOVE_SET_TURN_RATE : Z := 0x30A5.
Definition SMSG_MOVE_SET_FLIGHT_SPEED : Z := 0x71A6.
Definition SMSG_MOVE_SET_FLIGHT_BACK_SPEED : Z := 0x30A2.
Definition SMSG_MOVE_SET_PITCH_RATE : Z := 0x75B0.
Definition SMSG_SPLINE_MOVE_SET_WALK_MODE : Z := 0x54B6.
Definition SMSG_SPLINE_MOVE_SET_RUN_MODE : Z := 0x75A7.
Definition SMSG_SPLINE_MOVE_GRAVITY_DISABLE : Z := 0x5DB5.
Definition SMSG_SPLINE_MOVE_GRAVITY_ENABLE : Z := 0x3CA6.
Definition SMSG_SPLINE_MOVE_SET_HOVER : Z := 0x14B6.
Definition SMSG_SPLINE_MOVE_UNSET_HOVER : Z := 0x7DA5.
Definition SMSG_SPLINE_MOVE_START_SWIM : Z := 0x31A5.
Definition SMSG_SPLINE_MOVE_STOP_SWIM : Z := 0x1DA2.
Definition SMSG_SPLINE_MOVE_SET_FLYING : Z := 0x31B5.
Definition SMSG_SPLINE_MOVE_UNSET_FLYING : Z := 0x58A6.
Definition SMSG_SPLINE_MOVE_SET_WATER_WALK : Z := 0x50A2.
Definition SMSG_SPLINE_MOVE_SET_LAND_WALK : Z := 0x3DA7.
Definition SMSG_SPLINE_MOVE_SET_FEATHER_FALL : Z := 0x3DA5.
Definition SMSG_SPLINE_MOVE_SET_NORMAL_FALL : Z := 0x38B2.
Definition SMSG_SPLINE_MOVE_ROOT : Z := 0x51B4.
Definition SMSG_SPLINE_MOVE_UNROOT : Z := 0x75B6.
Definition SMSG_MOVE_SET_CAN_FLY : Z := 0x3DA1.
Definition SMSG_MOVE_UNSET_CAN_FLY : Z := 0x15A2.
Definition SMSG_MOVE_SET_HOVER : Z := 0x5CB3.
Definition SMSG_MOVE_UNSET_HOVER : Z := 0x51B3.
Definition SMSG_MOVE_WATER_WALK : Z := 0x75B1.
Definition SMSG_MOVE_LAND_WALK : Z := 0x34B7.
Definition SMSG_MOVE_FEATHER_FALL : Z := 0x79B0.
Definition SMSG_MOVE_NORMAL_FALL : Z := 0x51B6.
Definition SMSG_MOVE_ROOT : Z := 0x7DA0.
Definition SMSG_MOVE_UNROOT : Z := 0x7DB4.
Definition CMSG_CHANGE_SEATS_ON_CONTROLLED_VEHICLE : Z := 0x7310.
Definition CMSG_CAST_SPELL : Z := 0x4C07.
Definition CMSG_PET_CAST_SPELL : Z := 0x6337.
Definition CMSG_USE_ITEM : Z := 0x2C06.
Definition SMSG_MOVE_GRAVITY_DISABLE : Z := 0x75B2.
Definition SMSG_MOVE_GRAVITY_ENABLE : Z := 0x30B3.
Definition SMSG_MOVE_UPDATE_FLIGHT_BACK_SPEED : Z := 0x74A0.
Definition SMSG_MOVE_SET_CAN_TRANSITION_BETWEEN_SWIM_AND_FLY : Z := 0x59A2.
Definition SMSG_MOVE_UNSET_CAN_TRANSITION_BETWEEN_SWIM_AND_FLY : Z := 0x7DB2.
Definition CMSG_MOVE_FORCE_TURN_RATE_CHANGE_ACK : Z := 0x7316.
Definition CMSG_MOVE_FORCE_PITCH_RATE_CHANGE_ACK : Z := 0x3100.

(** ** Sequences *)

Definition MovementUpdate : list MovementStatusElements :=
  [MSEHasFallData; MSEHasGuidByte3; MSEHasGuidByte6; MSEHasMovementFlags2; MSEHasSpline;
   MSEHasTimestamp; MSEHasGuidByte0; MSEHasGuidByte1; MSEMovementFlags2; MSEHasGuidByte7;
   MSEHasMovementFlags; MSEHasOrientation; MSEHasGuidByte2; MSEHasSplineElevation;
   MSEHasHeightChangeFailed; MSEHasGuidByte4; MSEHasFallDirection; MSEHasGuidByte5;
   MSEHasTransportData; MSEMovementFlags; MSEHasTransportGuidByte3; MSEHasVehicleId;
   MSEHasTransportGuidByte6; MSEHasTransportGuidByte1; MSEHasTransportGuidByte7;
   MSEHasTransportGuidByte0; MSEHasTransportGuidByte4; MSEHasTransportTime2;
   MSEHasTransportGuidByte5; MSEHasTransportGuidByte2; MSEHasPitch; MSEFlushBits; MSEGuidByte5;
   MSEFallHorizontalSpeed; MSEFallSinAngle; MSEFallCosAngle; MSEFallVerticalSpeed; MSEFallTime;
   MSESplineElevation; MSEGuidByte7; MSEPositionY; MSEGuidByte3; MSETransportVehicleId;
   MSETransportGuidByte6; MSETransportSeat; MSETransportGuidByte5; MSETransportPositionX;
   MSETransportGuidByte1; MSETransportOrientation; MSETransportGuidByte2; MSETransportTime2;
   MSETransportGuidByte0; MSETransportPositionZ; MSETransportGuidByte7; MSETransportGuidByte4;
   MSETransportGuidByte3; MSETransportPositionY; MSETransportTime; MSEGuidByte4; MSEPositionX;
   MSEGuidByte6; MSEPositionZ; MSETimestamp; MSEGuidByte2; MSEPitch; MSEGuidByte0;
   MSEOrientation; MSEGuidByte1; MSEEnd].

Definition MovementFallLand : list MovementStatusElements :=
  [MSEPositionX; MSEPositionY; MSEPositionZ; MSEHasTransportData; MSEHasGuidByte7;
   MSEHasGuidByte1; MSEHasMovementFlags2; MSEHasGuidByte3; MSEHasSplineElevation;
   MSEHasOrientation; MSEHasGuidByte6; MSEHasTimestamp; MSEZeroBit; MSEHasPitch;
   MSEHasGuidByte4; MSEHasSpline; MSEHasGuidByte5; MSEHasMovementFlags; MSEHasFallData;
   MSEHasGuidByte0; MSEHasGuidByte2; MSEHasTransportGuidByte0; MSEHasTransportGuidByte5;
   MSEHasTransportGuidByte3; MSEHasTransportGuidByte2; MSEHasVehicleId; MSEHasTransportTime2;
   MSEHasTransportGuidByte6; MSEHasTransportGuidByte4; MSEHasTransportGuidByte1;
   MSEHasTransportGuidByte7; MSEMovementFlags2; MSEMovementFlags; MSEHasFallDirection;
   MSEGuidByte1; MSEGuidByte7; MSEGuidByte4; MSEGuidByte3; MSEGuidByte6; MSEGuidByte0;
   MSEGuidByte2; MSEGuidByte5; MSETransportTime; MSETransportPositionZ; MSETransportPositionY;
   MSETransportPositionX; MSETransportGuidByte5; MSETransportVehicleId; MSETransportGuidByte1;
   MSETransportSeat; MSETransportTime2; MSETransportGuidByte4; MSETransportOrientation;
   MSETransportGuidByte0; MSETransportGuidByte7; MSETransportGuidByte3; MSETransportGuidByte6;
   MSETransportGuidByte2; MSEFallVerticalSpeed; MSEFallTime; MSEFallSinAngle;
   MSEFallHorizontalSpeed; MSEFallCosAngle; MSESplineElevation; MSETimestamp; MSEPitch;
   MSEOrientation; MSEEnd].

Definition MovementHeartBeat : list MovementStatusElements :=
  [MSEPositionZ; MSEPositionX; MSEPositionY; MSEHasPitch; MSEHasTimestamp; MSEHasFallData;
   MSEHasMovementFlags2; MSEHasTransportData; MSEHasGuidByte7; MSEHasGuidByte1;
   MSEHasGuidByte0; MSEHasGuidByte4; MSEHasGuidByte2; MSEHasOrientation; MSEHasGuidByte5;
   MSEHasGuidByte3; MSEHasSplineElevation; MSEHasSpline; MSEZeroBit; MSEHasGuidByte6;
   MSEHasMovementFlags; MSEHasVehicleId; MSEHasTransportGuidByte4; MSEHasTransportGuidByte2;
   MSEHasTransportTime2; MSEHasTransportGuidByte5; MSEHasTransportGuidByte7;
   MSEHasTransportGuidByte6; MSEHasTransportGuidByte0; MSEHasTransportGuidByte3;
   MSEHasTransportGuidByte1; MSEHasFallDirection; MSEMovementFlags; MSEMovementFlags2;
   MSEGuidByte3; MSEGuidByte6; MSEGuidByte1; MSEGuidByte7; MSEGuidByte2; MSEGuidByte5;
   MSEGuidByte0; MSEGuidByte4; MSETransportPositionZ; MSETransportSeat;
   MSETransportOrientation; MSETransportGuidByte4; MSETransportPositionY; MSETransportTime;
   MSETransportPositionX; MSETransportGuidByte5; MSETransportGuidByte1; MSETransportGuidByte3;
   MSETransportGuidByte7; MSETransportVehicleId; MSETransportTime2; MSETransportGuidByte2;
   MSETransportGuidByte0; MSETransportGuidByte6; MSEOrientation; MSEFallVerticalSpeed;
   MSEFallTime; MSEFallHorizontalSpeed; MSEFallCosAngle; MSEFallSinAngle; MSEPitch;
   MSESplineElevation; MSETimestamp; MSEEnd].

Definition MovementJump : list MovementStatusElements :=
  [MSEPositionY; MSEPositionX; MSEPositionZ; MSEHasTimestamp; MSEHasGuidByte5;
   MSEHasMovementFlags; MSEHasGuidByte4; MSEHasGuidByte6; MSEHasMovementFlags2;
   MSEHasGuidByte0; MSEHasTransportData; MSEHasGuidByte3; MSEHasPitch; MSEHasGuidByte7;
   MSEHasFallData; MSEHasSpline; MSEHasOrientation; MSEHasGuidByte1; MSEHasSplineElevation;
   MSEZeroBit; MSEHasGuidByte2; MSEHasTransportGuidByte3; MSEHasTransportGuidByte7;
   MSEHasTransportGuidByte6; MSEHasTransportGuidByte0; MSEHasTransportGuidByte5;
   MSEHasTransportGuidByte1; MSEHasTransportGuidByte4; MSEHasVehicleId; MSEHasTransportTime2;
   MSEHasTransportGuidByte2; MSEHasFallDirection; MSEMovementFlags; MSEMovementFlags2;
   MSEGuidByte6; MSEGuidByte5; MSEGuidByte4; MSEGuidByte0; MSEGuidByte2; MSEGuidByte3;
   MSEGuidByte7; MSEGuidByte1; MSETransportGuidByte1; MSETransportGuidByte7;
   MSETransportPositionX; MSETransportGuidByte4; MSETransportVehicleId; MSETransportGuidByte0;
   MSETransportOrientation; MSETransportTime2; MSETransportTime; MSETransportGuidByte6;
   MSETransportPositionZ; MSETransportSeat; MSETransportPositionY; MSETransportGuidByte3;
   MSETransportGuidByte2; MSETransportGuidByte5; MSEPitch; MSETimestamp; MSEFallSinAngle;
   MSEFallCosAngle; MSEFallHorizontalSpeed; MSEFallVerticalSpeed; MSEFallTime;
   MSESplineElevation; MSEOrientation; MSEEnd].

Definition MovementSetFacing : list MovementStatusElements :=
  [MSEPositionX; MSEPositionY; MSEPositionZ; MSEHasGuidByte6; MSEHasTransportData;
   MSEHasGuidByte4; MSEHasSpline; MSEHasGuidByte0; MSEHasOrientation; MSEHasTimestamp;
   MSEHasPitch; MSEHasMovementFlags2; MSEHasGuidByte5; MSEHasGuidByte7; MSEHasGuidByte2;
   MSEHasFallData; MSEHasSplineElevation; MSEHasMovementFlags; MSEHasGuidByte3; MSEZeroBit;
   MSEHasGuidByte1; MSEHasVehicleId; MSEHasTransportGuidByte3; MSEHasTransportGuidByte7;
   MSEHasTransportGuidByte5; MSEHasTransportGuidByte2; MSEHasTransportGuidByte6;
   MSEHasTransportGuidByte0; MSEHasTransportTime2; MSEHasTransportGuidByte4;
   MSEHasTransportGuidByte1; MSEHasFallDirection; MSEMovementFlags2; MSEMovementFlags;
   MSEGuidByte6; MSEGuidByte7; MSEGuidByte2; MSEGuidByte0; MSEGuidByte4; MSEGuidByte1;
   MSEGuidByte5; MSEGuidByte3; MSETransportGuidByte0; MSETransportPositionX;
   MSETransportGuidByte1; MSETransportTime2; MSETransportGuidByte4; MSETransportPositionZ;
   MSETransportOrientation; MSETransportGuidByte2; MSETransportVehicleId;
   MSETransportGuidByte3; MSETransportSeat; MSETransportPositionY; MSETransportGuidByte5;
   MSETransportGuidByte6; MSETransportTime; MSETransportGuidByte7; MSEFallHorizontalSpeed;
   MSEFallCosAngle; MSEFallSinAngle; MSEFallTime; MSEFallVerticalSpeed; MSESplineElevation;
   MSEOrientation; MSETimestamp; MSEPitch; MSEEnd].

Definition MovementSetPitch : list MovementStatusElements :=
  [MSEPositionX; MSEPositionZ; MSEPositionY; MSEHasFallData; MSEHasMovementFlags;
   MSEHasGuidByte1; MSEHasOrientation; MSEHasGuidByte7; MSEHasGuidByte3; MSEHasMovementFlags2;
   MSEHasTransportData; MSEHasSplineElevation; MSEHasGuidByte6; MSEHasPitch; MSEHasGuidByte4;
   MSEHasSpline; MSEHasGuidByte2; MSEZeroBit; MSEHasTimestamp; MSEHasGuidByte0;
   MSEHasGuidByte5; MSEHasTransportGuidByte3; MSEHasTransportGuidByte6;
   MSEHasTransportGuidByte2; MSEHasTransportGuidByte4; MSEHasTransportGuidByte0;
   MSEHasTransportGuidByte1; MSEHasTransportGuidByte5; MSEHasVehicleId;
   MSEHasTransportGuidByte7; MSEHasTransportTime2; MSEMovementFlags2; MSEMovementFlags;
   MSEHasFallDirection; MSEGuidByte3; MSEGuidByte7; MSEGuidByte1; MSEGuidByte6; MSEGuidByte0;
   MSEGuidByte5; MSEGuidByte2; MSEGuidByte4; MSETransportGuidByte4; MSETransportGuidByte3;
   MSETransportGuidByte6; MSETransportOrientation; MSETransportGuidByte1;
   MSETransportVehicleId; MSETransportTime; MSETransportGuidByte2; MSETransportPositionZ;
   MSETransportGuidByte0; MSETransportTime2; MSETransportPositionY; MSETransportGuidByte5;
   MSETransportSeat; MSETransportGuidByte7; MSETransportPositionX; MSEFallVerticalSpeed;
   MSEFallTime; MSEFallHorizontalSpeed; MSEFallSinAngle; MSEFallCosAngle; MSEPitch;
   MSESplineElevation; MSETimestamp; MSEOrientation; MSEEnd].

Definition MovementStartBackward : list MovementStatusElements :=
  [MSEPositionX; MSEPositionZ; MSEPositionY; MSEHasTransportData; MSEHasGuidByte3;
   MSEHasGuidByte0; MSEHasGuidByte2; MSEHasTimestamp; MSEHasGuidByte7; MSEHasPitch; MSEZeroBit;
   MSEHasMovementFlags; MSEHasOrientation; MSEHasSpline; MSEHasMovementFlags2; MSEHasFallData;
   MSEHasGuidByte5; MSEHasGuidByte1; MSEHasGuidByte4; MSEHasGuidByte6; MSEHasSplineElevation;
   MSEHasTransportGuidByte3; MSEHasTransportGuidByte1; MSEHasTransportTime2;
   MSEHasTransportGuidByte2; MSEHasTransportGuidByte7; MSEHasTransportGuidByte0;
   MSEHasTransportGuidByte6; MSEHasTransportGuidByte5; MSEHasTransportGuidByte4;
   MSEHasVehicleId; MSEMovementFlags; MSEMovementFlags2; MSEHasFallDirection; MSEGuidByte6;
   MSEGuidByte7; MSEGuidByte4; MSEGuidByte1; MSEGuidByte5; MSEGuidByte0; MSEGuidByte2;
   MSEGuidByte3; MSETransportPositionZ; MSETransportGuidByte2; MSETransportVehicleId;
   MSETransportGuidByte0; MSETransportGuidByte5; MSETransportPositionY; MSETransportGuidByte1;
   MSETransportPositionX; MSETransportTime2; MSETransportGuidByte4; MSETransportOrientation;
   MSETransportSeat; MSETransportGuidByte7; MSETransportTime; MSETransportGuidByte6;
   MSETransportGuidByte3; MSEPitch; MSETimestamp; MSEFallHorizontalSpeed; MSEFallCosAngle;
   MSEFallSinAngle; MSEFallVerticalSpeed; MSEFallTime; MSEOrientation; MSESplineElevation;
   MSEEnd].

Definition MovementStartForward : list MovementStatusElements :=
  [MSEPositionY; MSEPositionZ; MSEPositionX; MSEHasGuidByte5; MSEHasGuidByte2; MSEHasGuidByte0;
   MSEZeroBit; MSEHasMovementFlags; MSEHasGuidByte7; MSEHasGuidByte3; MSEHasGuidByte1;
   MSEHasOrientation; MSEHasGuidByte6; MSEHasSpline; MSEHasSplineElevation; MSEHasGuidByte4;
   MSEHasTransportData; MSEHasTimestamp; MSEHasPitch; MSEHasMovementFlags2; MSEHasFallData;
   MSEMovementFlags; MSEHasTransportGuidByte3; MSEHasTransportGuidByte4;
   MSEHasTransportGuidByte6; MSEHasTransportGuidByte2; MSEHasTransportGuidByte5;
   MSEHasTransportGuidByte0; MSEHasTransportGuidByte7; MSEHasTransportGuidByte1;
   MSEHasVehicleId; MSEHasTransportTime2; MSEHasFallDirection; MSEMovementFlags2; MSEGuidByte2;
   MSEGuidByte4; MSEGuidByte6; MSEGuidByte1; MSEGuidByte7; MSEGuidByte3; MSEGuidByte5;
   MSEGuidByte0; MSEFallVerticalSpeed; MSEFallHorizontalSpeed; MSEFallSinAngle;
   MSEFallCosAngle; MSEFallTime; MSETransportGuidByte3; MSETransportPositionY;
   MSETransportPositionZ; MSETransportGuidByte1; MSETransportGuidByte4; MSETransportGuidByte7;
   MSETransportOrientation; MSETransportGuidByte2; MSETransportPositionX;
   MSETransportGuidByte5; MSETransportVehicleId; MSETransportTime; MSETransportGuidByte6;
   MSETransportGuidByte0; MSETransportSeat; MSETransportTime2; MSESplineElevation; MSEPitch;
   MSEOrientation; MSETimestamp; MSEEnd].

Definition MovementStartStrafeLeft : list MovementStatusElements :=
  [MSEPositionZ; MSEPositionX; MSEPositionY; MSEHasSplineElevation; MSEHasGuidByte5;
   MSEHasPitch; MSEHasGuidByte6; MSEHasTimestamp; MSEHasGuidByte1; MSEZeroBit; MSEHasGuidByte4;
   MSEHasGuidByte0; MSEHasGuidByte2; MSEHasFallData; MSEHasOrientation; MSEHasGuidByte3;
   MSEHasMovementFlags2; MSEHasGuidByte7; MSEHasSpline; MSEHasMovementFlags;
   MSEHasTransportData; MSEHasFallDirection; MSEHasTransportTime2; MSEHasTransportGuidByte7;
   MSEHasVehicleId; MSEHasTransportGuidByte3; MSEHasTransportGuidByte1;
   MSEHasTransportGuidByte6; MSEHasTransportGuidByte5; MSEHasTransportGuidByte2;
   MSEHasTransportGuidByte4; MSEHasTransportGuidByte0; MSEMovementFlags; MSEMovementFlags2;
   MSEGuidByte2; MSEGuidByte6; MSEGuidByte3; MSEGuidByte1; MSEGuidByte0; MSEGuidByte7;
   MSEGuidByte4; MSEGuidByte5; MSEFallCosAngle; MSEFallHorizontalSpeed; MSEFallSinAngle;
   MSEFallTime; MSEFallVerticalSpeed; MSETransportSeat; MSETransportGuidByte2;
   MSETransportTime2; MSETransportGuidByte3; MSETransportPositionZ; MSETransportVehicleId;
   MSETransportGuidByte0; MSETransportGuidByte7; MSETransportPositionY; MSETransportGuidByte5;
   MSETransportGuidByte1; MSETransportOrientation; MSETransportTime; MSETransportGuidByte6;
   MSETransportGuidByte4; MSETransportPositionX; MSETimestamp; MSEOrientation; MSEPitch;
   MSESplineElevation; MSEEnd].

Definition MovementStartStrafeRight : list MovementStatusElements :=
  [MSEPositionY; MSEPositionX; MSEPositionZ; MSEHasPitch; MSEHasGuidByte1; MSEHasOrientation;
   MSEHasGuidByte4; MSEHasSpline; MSEZeroBit; MSEHasGuidByte5; MSEHasFallData;
   MSEHasSplineElevation; MSEHasTimestamp; MSEHasMovementFlags; MSEHasGuidByte2;
   MSEHasGuidByte7; MSEHasGuidByte6; MSEHasGuidByte3; MSEHasMovementFlags2;
   MSEHasTransportData; MSEHasGuidByte0; MSEHasTransportGuidByte7; MSEHasTransportGuidByte2;
   MSEHasTransportGuidByte3; MSEHasTransportGuidByte5; MSEHasTransportGuidByte0;
   MSEHasTransportTime2; MSEHasTransportGuidByte6; MSEHasTransportGuidByte1;
   MSEHasTransportGuidByte4; MSEHasVehicleId; MSEMovementFlags2; MSEMovementFlags;
   MSEHasFallDirection; MSEGuidByte7; MSEGuidByte5; MSEGuidByte3; MSEGuidByte1; MSEGuidByte2;
   MSEGuidByte4; MSEGuidByte6; MSEGuidByte0; MSETransportGuidByte5; MSETransportGuidByte1;
   MSETransportGuidByte6; MSETransportPositionY; MSETransportOrientation;
   MSETransportGuidByte0; MSETransportGuidByte2; MSETransportSeat; MSETransportPositionX;
   MSETransportVehicleId; MSETransportTime; MSETransportGuidByte4; MSETransportGuidByte7;
   MSETransportTime2; MSETransportPositionZ; MSETransportGuidByte3; MSEPitch; MSEOrientation;
   MSEFallSinAngle; MSEFallCosAngle; MSEFallHorizontalSpeed; MSEFallTime; MSEFallVerticalSpeed;
   MSETimestamp; MSESplineElevation; MSEEnd].

Definition MovementStartTurnLeft : list MovementStatusElements :=
  [MSEPositionY; MSEPositionX; MSEPositionZ; MSEZeroBit; MSEHasGuidByte1; MSEHasOrientation;
   MSEHasSpline; MSEHasMovementFlags; MSEHasGuidByte4; MSEHasGuidByte2; MSEHasMovementFlags2;
   MSEHasGuidByte5; MSEHasGuidByte7; MSEHasTransportData; MSEHasGuidByte6;
   MSEHasSplineElevation; MSEHasGuidByte0; MSEHasGuidByte3; MSEHasPitch; MSEHasTimestamp;
   MSEHasFallData; MSEMovementFlags2; MSEHasTransportGuidByte3; MSEHasTransportGuidByte1;
   MSEHasTransportGuidByte0; MSEHasTransportTime2; MSEHasTransportGuidByte2; MSEHasVehicleId;
   MSEHasTransportGuidByte4; MSEHasTransportGuidByte7; MSEHasTransportGuidByte5;
   MSEHasTransportGuidByte6; MSEHasFallDirection; MSEMovementFlags; MSEGuidByte0; MSEGuidByte4;
   MSEGuidByte7; MSEGuidByte5; MSEGuidByte6; MSEGuidByte3; MSEGuidByte2; MSEGuidByte1;
   MSEFallCosAngle; MSEFallSinAngle; MSEFallHorizontalSpeed; MSEFallVerticalSpeed; MSEFallTime;
   MSETransportGuidByte0; MSETransportPositionX; MSETransportTime; MSETransportSeat;
   MSETransportPositionZ; MSETransportGuidByte4; MSETransportOrientation;
   MSETransportGuidByte2; MSETransportGuidByte6; MSETransportGuidByte1; MSETransportGuidByte3;
   MSETransportPositionY; MSETransportVehicleId; MSETransportTime2; MSETransportGuidByte5;
   MSETransportGuidByte7; MSETimestamp; MSEPitch; MSEOrientation; MSESplineElevation; MSEEnd].

Definition MovementStartTurnRight : list MovementStatusElements :=
  [MSEPositionX; MSEPositionZ; MSEPositionY; MSEHasGuidByte3; MSEHasGuidByte5;
   MSEHasMovementFlags; MSEHasSpline; MSEHasGuidByte0; MSEHasOrientation; MSEHasTransportData;
   MSEHasGuidByte7; MSEZeroBit; MSEHasMovementFlags2; MSEHasGuidByte1; MSEHasTimestamp;
   MSEHasGuidByte6; MSEHasGuidByte2; MSEHasGuidByte4; MSEHasSplineElevation; MSEHasPitch;
   MSEHasFallData; MSEHasTransportGuidByte1; MSEHasTransportTime2; MSEHasTransportGuidByte6;
   MSEHasTransportGuidByte0; MSEHasTransportGuidByte3; MSEHasTransportGuidByte5;
   MSEHasTransportGuidByte2; MSEHasTransportGuidByte4; MSEHasTransportGuidByte7;
   MSEHasVehicleId; MSEMovementFlags2; MSEMovementFlags; MSEHasFallDirection; MSEGuidByte5;
   MSEGuidByte0; MSEGuidByte7; MSEGuidByte3; MSEGuidByte2; MSEGuidByte1; MSEGuidByte4;
   MSEGuidByte6; MSETransportPositionY; MSETransportGuidByte0; MSETransportGuidByte4;
   MSETransportGuidByte1; MSETransportGuidByte6; MSETransportGuidByte2; MSETransportSeat;
   MSETransportOrientation; MSETransportGuidByte5; MSETransportVehicleId;
   MSETransportPositionZ; MSETransportPositionX; MSETransportTime; MSETransportGuidByte7;
   MSETransportGuidByte3; MSETransportTime2; MSEFallHorizontalSpeed; MSEFallCosAngle;
   MSEFallSinAngle; MSEFallTime; MSEFallVerticalSpeed; MSEPitch; MSEOrientation;
   MSESplineElevation; MSETimestamp; MSEEnd].

Definition MovementStop : list MovementStatusElements :=
  [MSEPositionX; MSEPositionY; MSEPositionZ; MSEHasGuidByte3; MSEHasGuidByte6;
   MSEHasSplineElevation; MSEHasSpline; MSEHasOrientation; MSEHasGuidByte7;
   MSEHasMovementFlags; MSEHasGuidByte5; MSEHasFallData; MSEHasMovementFlags2;
   MSEHasTransportData; MSEHasTimestamp; MSEHasGuidByte4; MSEHasGuidByte1; MSEZeroBit;
   MSEHasGuidByte2; MSEHasGuidByte0; MSEHasPitch; MSEHasTransportGuidByte7;
   MSEHasTransportGuidByte4; MSEHasTransportGuidByte1; MSEHasTransportGuidByte5;
   MSEHasTransportTime2; MSEHasVehicleId; MSEHasTransportGuidByte3; MSEHasTransportGuidByte6;
   MSEHasTransportGuidByte0; MSEHasTransportGuidByte2; MSEMovementFlags; MSEMovementFlags2;
   MSEHasFallDirection; MSEGuidByte6; MSEGuidByte3; MSEGuidByte0; MSEGuidByte4; MSEGuidByte2;
   MSEGuidByte1; MSEGuidByte5; MSEGuidByte7; MSETransportGuidByte4; MSETransportGuidByte7;
   MSETransportTime; MSETransportSeat; MSETransportPositionZ; MSETransportVehicleId;
   MSETransportGuidByte2; MSETransportGuidByte0; MSETransportPositionY; MSETransportGuidByte1;
   MSETransportGuidByte3; MSETransportTime2; MSETransportPositionX; MSETransportOrientation;
   MSETransportGuidByte5; MSETransportGuidByte6; MSETimestamp; MSEOrientation; MSEPitch;
   MSESplineElevation; MSEFallSinAngle; MSEFallCosAngle; MSEFallHorizontalSpeed;
   MSEFallVerticalSpeed; MSEFallTime; MSEEnd].

Definition MovementStopStrafe : list MovementStatusElements :=
  [MSEPositionY; MSEPositionZ; MSEPositionX; MSEHasPitch; MSEHasTimestamp; MSEHasGuidByte2;
   MSEHasFallData; MSEHasGuidByte7; MSEHasSplineElevation; MSEHasGuidByte3; MSEHasOrientation;
   MSEHasMovementFlags2; MSEHasTransportData; MSEHasMovementFlags; MSEHasSpline;
   MSEHasGuidByte0; MSEZeroBit; MSEHasGuidByte6; MSEHasGuidByte5; MSEHasGuidByte1;
   MSEHasGuidByte4; MSEHasTransportGuidByte7; MSEHasTransportGuidByte0;
   MSEHasTransportGuidByte4; MSEHasTransportGuidByte2; MSEHasTransportGuidByte6;
   MSEHasTransportGuidByte5; MSEHasTransportTime2; MSEHasTransportGuidByte1;
   MSEHasTransportGuidByte3; MSEHasVehicleId; MSEMovementFlags; MSEHasFallDirection;
   MSEMovementFlags2; MSEGuidByte2; MSEGuidByte7; MSEGuidByte3; MSEGuidByte4; MSEGuidByte5;
   MSEGuidByte6; MSEGuidByte1; MSEGuidByte0; MSETransportSeat; MSETransportGuidByte6;
   MSETransportPositionZ; MSETransportVehicleId; MSETransportGuidByte1; MSETransportGuidByte3;
   MSETransportGuidByte2; MSETransportGuidByte4; MSETransportGuidByte5; MSETransportTime;
   MSETransportOrientation; MSETransportPositionX; MSETransportGuidByte0;
   MSETransportPositionY; MSETransportTime2; MSETransportGuidByte7; MSEFallSinAngle;
   MSEFallHorizontalSpeed; MSEFallCosAngle; MSEFallTime; MSEFallVerticalSpeed;
   MSESplineElevation; MSEOrientation; MSEPitch; MSETimestamp; MSEEnd].

Definition MovementStopTurn : list MovementStatusElements :=
  [MSEPositionX; MSEPositionZ; MSEPositionY; MSEHasGuidByte5; MSEHasGuidByte4; MSEHasFallData;
   MSEZeroBit; MSEHasGuidByte1; MSEHasGuidByte0; MSEHasSpline; MSEHasMovementFlags;
   MSEHasGuidByte2; MSEHasGuidByte6; MSEHasPitch; MSEHasTransportData; MSEHasGuidByte3;
   MSEHasSplineElevation; MSEHasTimestamp; MSEHasMovementFlags2; MSEHasOrientation;
   MSEHasGuidByte7; MSEHasTransportGuidByte2; MSEHasTransportGuidByte7; MSEHasVehicleId;
   MSEHasTransportGuidByte4; MSEHasTransportTime2; MSEHasTransportGuidByte5;
   MSEHasTransportGuidByte0; MSEHasTransportGuidByte3; MSEHasTransportGuidByte6;
   MSEHasTransportGuidByte1; MSEHasFallDirection; MSEMovementFlags; MSEMovementFlags2;
   MSEGuidByte3; MSEGuidByte2; MSEGuidByte6; MSEGuidByte4; MSEGuidByte0; MSEGuidByte7;
   MSEGuidByte1; MSEGuidByte5; MSESplineElevation; MSETransportPositionX;
   MSETransportGuidByte5; MSETransportSeat; MSETransportGuidByte2; MSETransportGuidByte3;
   MSETransportOrientation; MSETransportTime2; MSETransportVehicleId; MSETransportGuidByte7;
   MSETransportGuidByte1; MSETransportGuidByte0; MSETransportGuidByte4; MSETransportPositionY;
   MSETransportPositionZ; MSETransportTime; MSETransportGuidByte6; MSEFallTime;
   MSEFallHorizontalSpeed; MSEFallSinAngle; MSEFallCosAngle; MSEFallVerticalSpeed;
   MSETimestamp; MSEPitch; MSEOrientation; MSEEnd].

Definition MovementStartAscend : list MovementStatusElements :=
  [MSEPositionX; MSEPositionY; MSEPositionZ; MSEHasGuidByte0; MSEHasGuidByte1; MSEHasGuidByte7;
   MSEZeroBit; MSEHasGuidByte5; MSEHasTransportData; MSEHasGuidByte2; MSEHasSplineElevation;
   MSEHasFallData; MSEHasSpline; MSEHasGuidByte3; MSEHasMovementFlags2; MSEHasGuidByte6;
   MSEHasMovementFlags; MSEHasPitch; MSEHasTimestamp; MSEHasOrientation; MSEHasGuidByte4;
   MSEMovementFlags; MSEHasTransportGuidByte0; MSEHasTransportGuidByte2; MSEHasVehicleId;
   MSEHasTransportGuidByte6; MSEHasTransportGuidByte1; MSEHasTransportGuidByte4;
   MSEHasTransportTime2; MSEHasTransportGuidByte5; MSEHasTransportGuidByte3;
   MSEHasTransportGuidByte7; MSEMovementFlags2; MSEHasFallDirection; MSEGuidByte6;
   MSEGuidByte3; MSEGuidByte1; MSEGuidByte4; MSEGuidByte2; MSEGuidByte0; MSEGuidByte5;
   MSEGuidByte7; MSETransportGuidByte3; MSETransportGuidByte5; MSETransportGuidByte4;
   MSETransportSeat; MSETransportGuidByte2; MSETransportOrientation; MSETransportPositionY;
   MSETransportGuidByte7; MSETransportTime2; MSETransportPositionZ; MSETransportVehicleId;
   MSETransportGuidByte6; MSETransportTime; MSETransportGuidByte0; MSETransportGuidByte1;
   MSETransportPositionX; MSEFallSinAngle; MSEFallCosAngle; MSEFallHorizontalSpeed;
   MSEFallTime; MSEFallVerticalSpeed; MSEOrientation; MSEPitch; MSETimestamp;
   MSESplineElevation; MSEEnd].

Definition MovementStartDescend : list MovementStatusElements :=
  [MSEPositionY; MSEPositionZ; MSEPositionX; MSEHasGuidByte0; MSEHasPitch; MSEHasFallData;
   MSEHasGuidByte4; MSEHasOrientation; MSEHasTimestamp; MSEHasMovementFlags2;
   MSEHasMovementFlags; MSEHasGuidByte6; MSEZeroBit; MSEHasGuidByte1; MSEHasTransportData;
   MSEHasSpline; MSEHasSplineElevation; MSEHasGuidByte5; MSEHasGuidByte3; MSEHasGuidByte7;
   MSEHasGuidByte2; MSEHasTransportGuidByte0; MSEHasTransportGuidByte1;
   MSEHasTransportGuidByte2; MSEHasVehicleId; MSEHasTransportGuidByte7;
   MSEHasTransportGuidByte4; MSEHasTransportGuidByte6; MSEHasTransportTime2;
   MSEHasTransportGuidByte3; MSEHasTransportGuidByte5; MSEMovementFlags2; MSEMovementFlags;
   MSEHasFallDirection; MSEGuidByte2; MSEGuidByte7; MSEGuidByte6; MSEGuidByte0; MSEGuidByte1;
   MSEGuidByte5; MSEGuidByte4; MSEGuidByte3; MSEPitch; MSETransportPositionZ; MSETransportSeat;
   MSETransportVehicleId; MSETransportGuidByte6; MSETransportTime2; MSETransportGuidByte1;
   MSETransportTime; MSETransportGuidByte4; MSETransportPositionY; MSETransportPositionX;
   MSETransportGuidByte7; MSETransportGuidByte3; MSETransportGuidByte5; MSETransportGuidByte2;
   MSETransportOrientation; MSETransportGuidByte0; MSEFallTime; MSEFallCosAngle;
   MSEFallSinAngle; MSEFallHorizontalSpeed; MSEFallVerticalSpeed; MSETimestamp; MSEOrientation;
   MSESplineElevation; MSEEnd].

Definition MovementStartSwim : list MovementStatusElements :=
  [MSEPositionZ; MSEPositionX; MSEPositionY; MSEHasGuidByte3; MSEHasSplineElevation;
   MSEHasGuidByte4; MSEHasGuidByte7; MSEZeroBit; MSEHasPitch; MSEHasGuidByte0;
   MSEHasOrientation; MSEHasMovementFlags; MSEHasFallData; MSEHasGuidByte5;
   MSEHasTransportData; MSEHasMovementFlags2; MSEHasTimestamp; MSEHasGuidByte6;
   MSEHasGuidByte1; MSEHasSpline; MSEHasGuidByte2; MSEHasTransportGuidByte2;
   MSEHasTransportGuidByte3; MSEHasTransportGuidByte7; MSEHasTransportGuidByte5;
   MSEHasTransportGuidByte4; MSEHasTransportGuidByte0; MSEHasTransportTime2;
   MSEHasTransportGuidByte6; MSEHasTransportGuidByte1; MSEHasVehicleId; MSEMovementFlags;
   MSEHasFallDirection; MSEMovementFlags2; MSEGuidByte0; MSEGuidByte2; MSEGuidByte1;
   MSEGuidByte5; MSEGuidByte4; MSEGuidByte6; MSEGuidByte3; MSEGuidByte7; MSEPitch;
   MSETransportTime2; MSETransportGuidByte2; MSETransportPositionY; MSETransportGuidByte3;
   MSETransportTime; MSETransportPositionX; MSETransportOrientation; MSETransportVehicleId;
   MSETransportGuidByte6; MSETransportGuidByte5; MSETransportGuidByte4; MSETransportPositionZ;
   MSETransportGuidByte1; MSETransportGuidByte7; MSETransportGuidByte0; MSETransportSeat;
   MSEFallSinAngle; MSEFallHorizontalSpeed; MSEFallCosAngle; MSEFallVerticalSpeed; MSEFallTime;
   MSEOrientation; MSETimestamp; MSESplineElevation; MSEEnd].

Definition MovementStopSwim : list MovementStatusElements :=
  [MSEPositionX; MSEPositionY; MSEPositionZ; MSEHasSpline; MSEHasPitch; MSEHasGuidByte5;
   MSEHasGuidByte3; MSEHasGuidByte7; MSEHasSplineElevation; MSEHasMovementFlags;
   MSEHasGuidByte4; MSEHasMovementFlags2; MSEHasGuidByte2; MSEHasGuidByte6;
   MSEHasTransportData; MSEHasOrientation; MSEZeroBit; MSEHasTimestamp; MSEHasGuidByte1;
   MSEHasGuidByte0; MSEHasFallData; MSEHasVehicleId; MSEHasTransportGuidByte4;
   MSEHasTransportGuidByte6; MSEHasTransportGuidByte3; MSEHasTransportGuidByte7;
   MSEHasTransportGuidByte1; MSEHasTransportGuidByte0; MSEHasTransportTime2;
   MSEHasTransportGuidByte2; MSEHasTransportGuidByte5; MSEMovementFlags; MSEMovementFlags2;
   MSEHasFallDirection; MSEGuidByte0; MSEGuidByte4; MSEGuidByte3; MSEGuidByte6; MSEGuidByte7;
   MSEGuidByte1; MSEGuidByte5; MSEGuidByte2; MSETransportVehicleId; MSETransportGuidByte4;
   MSETransportTime; MSETransportPositionZ; MSETransportSeat; MSETransportGuidByte3;
   MSETransportGuidByte2; MSETransportPositionY; MSETransportGuidByte7; MSETransportGuidByte1;
   MSETransportGuidByte6; MSETransportGuidByte5; MSETransportTime2; MSETransportPositionX;
   MSETransportGuidByte0; MSETransportOrientation; MSEFallVerticalSpeed; MSEFallSinAngle;
   MSEFallHorizontalSpeed; MSEFallCosAngle; MSEFallTime; MSETimestamp; MSEPitch;
   MSEOrientation; MSESplineElevation; MSEEnd].

Definition MovementStopAscend : list MovementStatusElements :=
  [MSEPositionZ; MSEPositionY; MSEPositionX; MSEHasGuidByte3; MSEHasGuidByte2; MSEHasFallData;
   MSEHasGuidByte7; MSEHasOrientation; MSEHasPitch; MSEHasSpline; MSEZeroBit; MSEHasGuidByte1;
   MSEHasGuidByte4; MSEHasMovementFlags; MSEHasGuidByte0; MSEHasGuidByte6;
   MSEHasSplineElevation; MSEHasTransportData; MSEHasMovementFlags2; MSEHasTimestamp;
   MSEHasGuidByte5; MSEHasTransportTime2; MSEHasVehicleId; MSEHasTransportGuidByte1;
   MSEHasTransportGuidByte3; MSEHasTransportGuidByte2; MSEHasTransportGuidByte5;
   MSEHasTransportGuidByte7; MSEHasTransportGuidByte4; MSEHasTransportGuidByte6;
   MSEHasTransportGuidByte0; MSEMovementFlags2; MSEMovementFlags; MSEHasFallDirection;
   MSEGuidByte7; MSEGuidByte5; MSEGuidByte4; MSEGuidByte3; MSEGuidByte2; MSEGuidByte1;
   MSEGuidByte0; MSEGuidByte6; MSETransportGuidByte5; MSETransportPositionY;
   MSETransportGuidByte7; MSETransportGuidByte2; MSETransportGuidByte6; MSETransportTime2;
   MSETransportVehicleId; MSETransportOrientation; MSETransportGuidByte3;
   MSETransportGuidByte4; MSETransportSeat; MSETransportGuidByte1; MSETransportTime;
   MSETransportGuidByte0; MSETransportPositionX; MSETransportPositionZ; MSEFallTime;
   MSEFallVerticalSpeed; MSEFallSinAngle; MSEFallCosAngle; MSEFallHorizontalSpeed; MSEPitch;
   MSESplineElevation; MSETimestamp; MSEOrientation; MSEEnd].

Definition MovementStopPitch : list MovementStatusElements :=
  [MSEPositionX; MSEPositionZ; MSEPositionY; MSEHasGuidByte0; MSEHasGuidByte5; MSEHasGuidByte3;
   MSEHasFallData; MSEHasGuidByte2; MSEHasGuidByte4; MSEHasGuidByte7; MSEHasPitch;
   MSEHasSpline; MSEHasOrientation; MSEZeroBit; MSEHasMovementFlags2; MSEHasSplineElevation;
   MSEHasGuidByte6; MSEHasGuidByte1; MSEHasTimestamp; MSEHasTransportData; MSEHasMovementFlags;
   MSEHasTransportGuidByte7; MSEHasTransportGuidByte0; MSEHasTransportGuidByte5;
   MSEHasTransportGuidByte2; MSEHasVehicleId; MSEHasTransportGuidByte6;
   MSEHasTransportGuidByte3; MSEHasTransportTime2; MSEHasTransportGuidByte4;
   MSEHasTransportGuidByte1; MSEHasFallDirection; MSEMovementFlags2; MSEMovementFlags;
   MSEGuidByte1; MSEGuidByte7; MSEGuidByte0; MSEGuidByte6; MSEGuidByte4; MSEGuidByte3;
   MSEGuidByte5; MSEGuidByte2; MSETimestamp; MSEFallHorizontalSpeed; MSEFallCosAngle;
   MSEFallSinAngle; MSEFallVerticalSpeed; MSEFallTime; MSETransportGuidByte5;
   MSETransportGuidByte2; MSETransportTime2; MSETransportPositionX; MSETransportOrientation;
   MSETransportGuidByte6; MSETransportGuidByte3; MSETransportGuidByte1; MSETransportPositionZ;
   MSETransportVehicleId; MSETransportGuidByte0; MSETransportGuidByte4; MSETransportTime;
   MSETransportPositionY; MSETransportSeat; MSETransportGuidByte7; MSESplineElevation;
   MSEOrientation; MSEPitch; MSEEnd].

Definition MovementStartPitchDown : list MovementStatusElements :=
  [MSEPositionX; MSEPositionZ; MSEPositionY; MSEHasMovementFlags; MSEHasGuidByte7;
   MSEHasGuidByte6; MSEHasPitch; MSEZeroBit; MSEHasGuidByte1; MSEHasGuidByte4; MSEHasTimestamp;
   MSEHasSplineElevation; MSEHasMovementFlags2; MSEHasTransportData; MSEHasGuidByte0;
   MSEHasGuidByte5; MSEHasGuidByte3; MSEHasSpline; MSEHasOrientation; MSEHasFallData;
   MSEHasGuidByte2; MSEHasTransportGuidByte1; MSEHasTransportGuidByte5; MSEHasVehicleId;
   MSEHasTransportGuidByte7; MSEHasTransportGuidByte4; MSEHasTransportGuidByte6;
   MSEHasTransportTime2; MSEHasTransportGuidByte0; MSEHasTransportGuidByte3;
   MSEHasTransportGuidByte2; MSEMovementFlags2; MSEHasFallDirection; MSEMovementFlags;
   MSEGuidByte3; MSEGuidByte7; MSEGuidByte0; MSEGuidByte5; MSEGuidByte2; MSEGuidByte6;
   MSEGuidByte4; MSEGuidByte1; MSETransportVehicleId; MSETransportGuidByte3; MSETransportTime2;
   MSETransportGuidByte5; MSETransportGuidByte1; MSETransportPositionY; MSETransportGuidByte6;
   MSETransportGuidByte4; MSETransportTime; MSETransportPositionZ; MSETransportPositionX;
   MSETransportGuidByte0; MSETransportSeat; MSETransportGuidByte2; MSETransportGuidByte7;
   MSETransportOrientation; MSEFallCosAngle; MSEFallHorizontalSpeed; MSEFallSinAngle;
   MSEFallVerticalSpeed; MSEFallTime; MSEPitch; MSEOrientation; MSESplineElevation;
   MSETimestamp; MSEEnd].

Definition MovementStartPitchUp : list MovementStatusElements :=
  [MSEPositionZ; MSEPositionY; MSEPositionX; MSEHasGuidByte4; MSEHasMovementFlags;
   MSEHasMovementFlags2; MSEHasSpline; MSEHasGuidByte2; MSEHasGuidByte6; MSEHasGuidByte3;
   MSEZeroBit; MSEHasSplineElevation; MSEHasFallData; MSEHasGuidByte0; MSEHasTransportData;
   MSEHasGuidByte1; MSEHasGuidByte5; MSEHasPitch; MSEHasTimestamp; MSEHasOrientation;
   MSEHasGuidByte7; MSEMovementFlags2; MSEHasTransportGuidByte7; MSEHasTransportGuidByte3;
   MSEHasTransportGuidByte1; MSEHasTransportTime2; MSEHasTransportGuidByte4; MSEHasVehicleId;
   MSEHasTransportGuidByte0; MSEHasTransportGuidByte6; MSEHasTransportGuidByte5;
   MSEHasTransportGuidByte2; MSEMovementFlags; MSEHasFallDirection; MSEGuidByte0; MSEGuidByte3;
   MSEGuidByte4; MSEGuidByte6; MSEGuidByte7; MSEGuidByte1; MSEGuidByte5; MSEGuidByte2;
   MSETransportPositionX; MSETransportGuidByte1; MSETransportGuidByte3; MSETransportGuidByte2;
   MSETransportGuidByte0; MSETransportTime; MSETransportPositionZ; MSETransportOrientation;
   MSETransportGuidByte7; MSETransportTime2; MSETransportSeat; MSETransportGuidByte6;
   MSETransportGuidByte5; MSETransportVehicleId; MSETransportPositionY; MSETransportGuidByte4;
   MSEFallTime; MSEFallSinAngle; MSEFallCosAngle; MSEFallHorizontalSpeed; MSEFallVerticalSpeed;
   MSEOrientation; MSESplineElevation; MSEPitch; MSETimestamp; MSEEnd].

Definition MoveChngTransport : list MovementStatusElements :=
  [MSEPositionY; MSEPositionX; MSEPositionZ; MSEHasGuidByte4; MSEHasGuidByte0; MSEHasGuidByte2;
   MSEHasTransportData; MSEHasSpline; MSEHasOrientation; MSEHasGuidByte6; MSEHasTimestamp;
   MSEHasGuidByte5; MSEHasGuidByte7; MSEHasPitch; MSEZeroBit; MSEHasGuidByte3;
   MSEHasSplineElevation; MSEHasGuidByte1; MSEHasFallData; MSEHasMovementFlags;
   MSEHasMovementFlags2; MSEHasTransportGuidByte3; MSEHasVehicleId; MSEHasTransportGuidByte4;
   MSEHasTransportGuidByte1; MSEHasTransportGuidByte6; MSEHasTransportGuidByte2;
   MSEHasTransportTime2; MSEHasTransportGuidByte0; MSEHasTransportGuidByte7;
   MSEHasTransportGuidByte5; MSEMovementFlags; MSEMovementFlags2; MSEHasFallDirection;
   MSEGuidByte7; MSEGuidByte5; MSEGuidByte1; MSEGuidByte2; MSEGuidByte6; MSEGuidByte4;
   MSEGuidByte0; MSEGuidByte3; MSETransportPositionY; MSETransportSeat; MSETransportGuidByte1;
   MSETransportGuidByte0; MSETransportGuidByte2; MSETransportGuidByte3; MSETransportGuidByte6;
   MSETransportPositionZ; MSETransportPositionX; MSETransportVehicleId; MSETransportTime;
   MSETransportGuidByte7; MSETransportGuidByte5; MSETransportGuidByte4;
   MSETransportOrientation; MSETransportTime2; MSEFallTime; MSEFallHorizontalSpeed;
   MSEFallSinAngle; MSEFallCosAngle; MSEFallVerticalSpeed; MSEOrientation; MSEPitch;
   MSESplineElevation; MSETimestamp; MSEEnd].

Definition MoveSplineDone : list MovementStatusElements :=
  [MSEPositionY; MSEPositionX; MSEPositionZ; MSEHasGuidByte6; MSEHasOrientation;
   MSEHasFallData; MSEHasTimestamp; MSEHasGuidByte2; MSEHasSplineElevation; MSEHasGuidByte4;
   MSEHasTransportData; MSEHasGuidByte3; MSEHasMovementFlags; MSEHasGuidByte0; MSEZeroBit;
   MSEHasGuidByte1; MSEHasGuidByte5; MSEHasPitch; MSEHasSpline; MSEHasMovementFlags2;
   MSEHasGuidByte7; MSEHasTransportGuidByte1; MSEHasTransportGuidByte7;
   MSEHasTransportGuidByte5; MSEHasTransportGuidByte3; MSEHasTransportGuidByte4;
   MSEHasTransportGuidByte6; MSEHasTransportTime2; MSEHasTransportGuidByte2; MSEHasVehicleId;
   MSEHasTransportGuidByte0; MSEHasFallDirection; MSEMovementFlags2; MSEMovementFlags;
   MSEGuidByte7; MSEGuidByte4; MSEGuidByte5; MSEGuidByte6; MSEGuidByte0; MSEGuidByte1;
   MSEGuidByte2; MSEGuidByte3; MSEFallVerticalSpeed; MSEFallCosAngle; MSEFallSinAngle;
   MSEFallHorizontalSpeed; MSEFallTime; MSEPitch; MSEOrientation; MSETransportGuidByte1;
   MSETransportVehicleId; MSETransportGuidByte7; MSETransportTime; MSETransportPositionY;
   MSETransportPositionX; MSETransportPositionZ; MSETransportSeat; MSETransportOrientation;
   MSETransportGuidByte0; MSETransportTime2; MSETransportGuidByte2; MSETransportGuidByte3;
   MSETransportGuidByte5; MSETransportGuidByte6; MSETransportGuidByte4; MSETimestamp;
   MSESplineElevation; MSEEnd].

Definition MoveNotActiveMover : list MovementStatusElements :=
  [MSEPositionZ; MSEPositionX; MSEPositionY; MSEHasMovementFlags2; MSEHasTransportData;
   MSEHasGuidByte6; MSEHasSplineElevation; MSEHasGuidByte3; MSEZeroBit; MSEHasTimestamp;
   MSEHasGuidByte0; MSEHasOrientation; MSEHasGuidByte5; MSEHasPitch; MSEHasGuidByte1;
   MSEHasGuidByte4; MSEHasGuidByte7; MSEHasSpline; MSEHasGuidByte2; MSEHasFallData;
   MSEHasMovementFlags; MSEHasTransportGuidByte4; MSEHasTransportGuidByte0;
   MSEHasTransportGuidByte1; MSEHasTransportGuidByte6; MSEHasTransportGuidByte2;
   MSEHasVehicleId; MSEHasTransportGuidByte5; MSEHasTransportGuidByte7; MSEHasTransportTime2;
   MSEHasTransportGuidByte3; MSEHasFallDirection; MSEMovementFlags; MSEMovementFlags2;
   MSEGuidByte1; MSEGuidByte0; MSEGuidByte4; MSEGuidByte2; MSEGuidByte7; MSEGuidByte5;
   MSEGuidByte6; MSEGuidByte3; MSEFallVerticalSpeed; MSEFallSinAngle; MSEFallCosAngle;
   MSEFallHorizontalSpeed; MSEFallTime; MSETransportVehicleId; MSETransportGuidByte1;
   MSETransportTime2; MSETransportOrientation; MSETransportGuidByte0; MSETransportSeat;
   MSETransportGuidByte4; MSETransportGuidByte6; MSETransportGuidByte3; MSETransportGuidByte5;
   MSETransportPositionY; MSETransportPositionX; MSETransportGuidByte2; MSETransportPositionZ;
   MSETransportGuidByte7; MSETransportTime; MSETimestamp; MSESplineElevation; MSEPitch;
   MSEOrientation; MSEEnd].

Definition DismissControlledVehicle : list MovementStatusElements :=
  [MSEPositionY; MSEPositionZ; MSEPositionX; MSEHasSplineElevation; MSEHasFallData;
   MSEHasTransportData; MSEHasGuidByte4; MSEHasGuidByte7; MSEHasMovementFlags2;
   MSEHasGuidByte2; MSEHasOrientation; MSEHasGuidByte0; MSEHasGuidByte6; MSEHasPitch;
   MSEHasTimestamp; MSEHasGuidByte1; MSEZeroBit; MSEHasSpline; MSEHasGuidByte3;
   MSEHasMovementFlags; MSEHasGuidByte5; MSEHasTransportGuidByte5; MSEHasVehicleId;
   MSEHasTransportGuidByte2; MSEHasTransportGuidByte0; MSEHasTransportGuidByte7;
   MSEHasTransportGuidByte3; MSEHasTransportGuidByte4; MSEHasTransportGuidByte1;
   MSEHasTransportGuidByte6; MSEHasTransportTime2; MSEMovementFlags2; MSEHasFallDirection;
   MSEMovementFlags; MSEGuidByte6; MSEGuidByte3; MSEGuidByte1; MSEGuidByte5; MSEGuidByte2;
   MSEGuidByte4; MSEGuidByte7; MSEGuidByte0; MSETimestamp; MSETransportVehicleId;
   MSETransportGuidByte4; MSETransportGuidByte7; MSETransportTime2; MSETransportGuidByte6;
   MSETransportTime; MSETransportPositionZ; MSETransportGuidByte0; MSETransportPositionX;
   MSETransportGuidByte3; MSETransportSeat; MSETransportPositionY; MSETransportOrientation;
   MSETransportGuidByte1; MSETransportGuidByte5; MSETransportGuidByte2; MSEFallTime;
   MSEFallHorizontalSpeed; MSEFallCosAngle; MSEFallSinAngle; MSEFallVerticalSpeed;
   MSEOrientation; MSESplineElevation; MSEPitch; MSEEnd].

Definition MovementSetRunMode : list MovementStatusElements :=
  [MSEPositionY; MSEPositionX; MSEPositionZ; MSEHasTimestamp; MSEHasMovementFlags2;
   MSEHasGuidByte1; MSEHasSpline; MSEHasMovementFlags; MSEHasGuidByte7; MSEHasTransportData;
   MSEZeroBit; MSEHasGuidByte0; MSEHasGuidByte3; MSEHasSplineElevation; MSEHasGuidByte5;
   MSEHasPitch; MSEHasGuidByte6; MSEHasGuidByte4; MSEHasFallData; MSEHasOrientation;
   MSEHasGuidByte2; MSEHasTransportGuidByte6; MSEHasTransportGuidByte4; MSEHasVehicleId;
   MSEHasTransportGuidByte5; MSEHasTransportGuidByte3; MSEHasTransportGuidByte1;
   MSEHasTransportTime2; MSEHasTransportGuidByte7; MSEHasTransportGuidByte0;
   MSEHasTransportGuidByte2; MSEHasFallDirection; MSEMovementFlags2; MSEMovementFlags;
   MSEGuidByte3; MSEGuidByte6; MSEGuidByte0; MSEGuidByte7; MSEGuidByte4; MSEGuidByte1;
   MSEGuidByte5; MSEGuidByte2; MSEPitch; MSETransportTime2; MSETransportGuidByte3;
   MSETransportPositionX; MSETransportSeat; MSETransportGuidByte5; MSETransportGuidByte1;
   MSETransportPositionZ; MSETransportGuidByte2; MSETransportGuidByte7;
   MSETransportOrientation; MSETransportGuidByte4; MSETransportTime; MSETransportVehicleId;
   MSETransportGuidByte0; MSETransportPositionY; MSETransportGuidByte6; MSEFallSinAngle;
   MSEFallHorizontalSpeed; MSEFallCosAngle; MSEFallTime; MSEFallVerticalSpeed;
   MSESplineElevation; MSETimestamp; MSEOrientation; MSEEnd].

Definition MovementSetWalkMode : list MovementStatusElements :=
  [MSEPositionY; MSEPositionX; MSEPositionZ; MSEHasGuidByte6; MSEHasSpline; MSEHasTimestamp;
   MSEHasGuidByte0; MSEHasGuidByte1; MSEHasMovementFlags; MSEHasPitch; MSEHasGuidByte7;
   MSEHasSplineElevation; MSEHasGuidByte4; MSEHasOrientation; MSEHasTransportData;
   MSEHasGuidByte2; MSEHasGuidByte5; MSEHasGuidByte3; MSEZeroBit; MSEHasMovementFlags2;
   MSEHasFallData; MSEHasTransportGuidByte2; MSEHasTransportGuidByte0;
   MSEHasTransportGuidByte6; MSEHasTransportGuidByte1; MSEHasTransportGuidByte3;
   MSEHasTransportTime2; MSEHasTransportGuidByte5; MSEHasVehicleId; MSEHasTransportGuidByte4;
   MSEHasTransportGuidByte7; MSEHasFallDirection; MSEMovementFlags; MSEMovementFlags2;
   MSEGuidByte5; MSEGuidByte6; MSEGuidByte4; MSEGuidByte7; MSEGuidByte3; MSEGuidByte0;
   MSEGuidByte2; MSEGuidByte1; MSETransportGuidByte2; MSETransportGuidByte5; MSETransportSeat;
   MSETransportPositionZ; MSETransportGuidByte3; MSETransportGuidByte6; MSETransportGuidByte0;
   MSETransportTime; MSETransportGuidByte4; MSETransportTime2; MSETransportOrientation;
   MSETransportPositionX; MSETransportVehicleId; MSETransportGuidByte7; MSETransportPositionY;
   MSETransportGuidByte1; MSEFallCosAngle; MSEFallHorizontalSpeed; MSEFallSinAngle;
   MSEFallVerticalSpeed; MSEFallTime; MSESplineElevation; MSEPitch; MSETimestamp;
   MSEOrientation; MSEEnd].

Definition MovementSetCanFly : list MovementStatusElements :=
  [MSEPositionZ; MSEPositionX; MSEPositionY; MSEHasTransportData; MSEHasGuidByte1;
   MSEHasGuidByte6; MSEHasGuidByte4; MSEHasGuidByte2; MSEHasFallData; MSEHasGuidByte0;
   MSEHasMovementFlags; MSEHasGuidByte3; MSEHasMovementFlags2; MSEHasGuidByte5;
   MSEHasTimestamp; MSEHasSplineElevation; MSEHasSpline; MSEHasOrientation; MSEHasGuidByte7;
   MSEZeroBit; MSEHasPitch; MSEHasTransportGuidByte3; MSEHasTransportTime2;
   MSEHasTransportGuidByte6; MSEHasTransportGuidByte0; MSEHasTransportGuidByte7;
   MSEHasTransportGuidByte4; MSEHasVehicleId; MSEHasTransportGuidByte1;
   MSEHasTransportGuidByte2; MSEHasTransportGuidByte5; MSEMovementFlags2; MSEHasFallDirection;
   MSEMovementFlags; MSEGuidByte2; MSEGuidByte0; MSEGuidByte4; MSEGuidByte7; MSEGuidByte5;
   MSEGuidByte1; MSEGuidByte3; MSEGuidByte6; MSETransportPositionZ; MSETransportGuidByte3;
   MSETransportGuidByte5; MSETransportGuidByte4; MSETransportSeat; MSETransportPositionX;
   MSETransportGuidByte2; MSETransportTime2; MSETransportPositionY; MSETransportGuidByte1;
   MSETransportTime; MSETransportGuidByte7; MSETransportGuidByte0; MSETransportOrientation;
   MSETransportGuidByte6; MSETransportVehicleId; MSESplineElevation; MSEFallSinAngle;
   MSEFallCosAngle; MSEFallHorizontalSpeed; MSEFallVerticalSpeed; MSEFallTime; MSEPitch;
   MSETimestamp; MSEOrientation; MSEEnd].

Definition MovementSetCanTransitionBetweenSwimAndFlyAck : list MovementStatusElements :=
  [MSEPositionZ; MSEPositionY; MSECounter; MSEPositionX; MSEHasGuidByte3; MSEHasOrientation;
   MSEHasTransportData; MSEHasMovementFlags; MSEHasMovementFlags2; MSEHasSplineElevation;
   MSEHasTimestamp; MSEHasSpline; MSEZeroBit; MSEHasFallData; MSEHasGuidByte5; MSEHasGuidByte0;
   MSEHasGuidByte1; MSEHasGuidByte4; MSEHasGuidByte6; MSEHasGuidByte2; MSEHasPitch;
   MSEHasGuidByte7; MSEHasTransportGuidByte4; MSEHasTransportGuidByte2; MSEHasTransportTime2;
   MSEHasTransportGuidByte0; MSEHasTransportGuidByte3; MSEHasTransportGuidByte6;
   MSEHasTransportGuidByte5; MSEHasVehicleId; MSEHasTransportGuidByte7;
   MSEHasTransportGuidByte1; MSEMovementFlags2; MSEHasFallDirection; MSEMovementFlags;
   MSEGuidByte3; MSEGuidByte2; MSEGuidByte0; MSEGuidByte4; MSEGuidByte1; MSEGuidByte5;
   MSEGuidByte7; MSEGuidByte6; MSEFallTime; MSEFallHorizontalSpeed; MSEFallCosAngle;
   MSEFallSinAngle; MSEFallVerticalSpeed; MSETransportPositionY; MSETransportPositionZ;
   MSETransportGuidByte5; MSETransportGuidByte1; MSETransportGuidByte4; MSETransportTime;
   MSETransportSeat; MSETransportGuidByte3; MSETransportGuidByte0; MSETransportGuidByte2;
   MSETransportGuidByte7; MSETransportPositionX; MSETransportTime2; MSETransportGuidByte6;
   MSETransportOrientation; MSETransportVehicleId; MSEPitch; MSEOrientation; MSETimestamp;
   MSESplineElevation; MSEEnd].

Definition MovementUpdateSwimSpeed : list MovementStatusElements :=
  [MSEHasMovementFlags; MSEHasGuidByte2; MSEHasSpline; MSEHasTimestamp; MSEMovementFlags;
   MSEHasFallData; MSEHasGuidByte3; MSEHasTransportData; MSEZeroBit; MSEHasGuidByte7;
   MSEHasFallDirection; MSEHasTransportGuidByte4; MSEHasTransportGuidByte5;
   MSEHasTransportGuidByte3; MSEHasTransportTime2; MSEHasTransportGuidByte2; MSEHasVehicleId;
   MSEHasTransportGuidByte0; MSEHasTransportGuidByte1; MSEHasTransportGuidByte6;
   MSEHasTransportGuidByte7; MSEHasMovementFlags2; MSEHasGuidByte6; MSEHasSplineElevation;
   MSEHasGuidByte0; MSEHasGuidByte4; MSEHasGuidByte5; MSEHasOrientation; MSEHasPitch;
   MSEMovementFlags2; MSEHasGuidByte1; MSEFlushBits; MSETransportGuidByte2;
   MSETransportPositionX; MSETransportVehicleId; MSETransportTime2; MSETransportGuidByte6;
   MSETransportOrientation; MSETransportGuidByte0; MSETransportGuidByte4;
   MSETransportPositionY; MSETransportTime; MSETransportGuidByte1; MSETransportGuidByte7;
   MSETransportPositionZ; MSETransportSeat; MSETransportGuidByte3; MSETransportGuidByte5;
   MSEPositionX; MSEFallCosAngle; MSEFallHorizontalSpeed; MSEFallSinAngle; MSEFallTime;
   MSEFallVerticalSpeed; MSEGuidByte7; MSETimestamp; MSEPositionY; MSESplineElevation;
   MSEPositionZ; MSEExtraElement; MSEGuidByte4; MSEOrientation; MSEGuidByte2; MSEGuidByte3;
   MSEGuidByte0; MSEGuidByte6; MSEGuidByte1; MSEGuidByte5; MSEPitch; MSEEnd].

Definition MovementUpdateRunSpeed : list MovementStatusElements :=
  [MSEPositionZ; MSEPositionX; MSEPositionY; MSEExtraElement; MSEHasGuidByte6;
   MSEHasMovementFlags2; MSEHasPitch; MSEHasGuidByte2; MSEHasGuidByte5; MSEHasSplineElevation;
   MSEHasSpline; MSEHasMovementFlags; MSEHasTimestamp; MSEHasGuidByte1; MSEMovementFlags2;
   MSEHasGuidByte3; MSEMovementFlags; MSEHasGuidByte7; MSEHasGuidByte0; MSEHasOrientation;
   MSEHasTransportData; MSEHasTransportGuidByte5; MSEHasTransportTime2; MSEHasVehicleId;
   MSEHasTransportGuidByte7; MSEHasTransportGuidByte4; MSEHasTransportGuidByte2;
   MSEHasTransportGuidByte3; MSEHasTransportGuidByte6; MSEHasTransportGuidByte1;
   MSEHasTransportGuidByte0; MSEHasFallData; MSEHasFallDirection; MSEHasGuidByte4; MSEZeroBit;
   MSEFlushBits; MSETransportGuidByte4; MSETransportGuidByte5; MSETransportPositionX;
   MSETransportOrientation; MSETransportGuidByte1; MSETransportGuidByte0;
   MSETransportGuidByte6; MSETransportTime; MSETransportGuidByte7; MSETransportSeat;
   MSETransportTime2; MSETransportPositionY; MSETransportGuidByte3; MSETransportGuidByte2;
   MSETransportVehicleId; MSETransportPositionZ; MSETimestamp; MSEFallCosAngle;
   MSEFallHorizontalSpeed; MSEFallSinAngle; MSEFallVerticalSpeed; MSEFallTime; MSEPitch;
   MSEGuidByte6; MSESplineElevation; MSEGuidByte5; MSEGuidByte7; MSEGuidByte4; MSEOrientation;
   MSEGuidByte0; MSEGuidByte3; MSEGuidByte2; MSEGuidByte1; MSEEnd].

Definition MovementUpdateFlightSpeed : list MovementStatusElements :=
  [MSEPositionY; MSEExtraElement; MSEPositionX; MSEPositionZ; MSEHasMovementFlags;
   MSEHasGuidByte4; MSEZeroBit; MSEHasGuidByte5; MSEHasGuidByte1; MSEMovementFlags;
   MSEHasFallData; MSEHasGuidByte2; MSEHasOrientation; MSEHasPitch; MSEHasSplineElevation;
   MSEHasGuidByte7; MSEHasTimestamp; MSEHasTransportData; MSEHasTransportGuidByte3;
   MSEHasTransportGuidByte5; MSEHasTransportGuidByte1; MSEHasTransportGuidByte0;
   MSEHasTransportGuidByte6; MSEHasTransportGuidByte4; MSEHasTransportGuidByte2;
   MSEHasVehicleId; MSEHasTransportGuidByte7; MSEHasTransportTime2; MSEHasGuidByte6;
   MSEHasGuidByte3; MSEHasMovementFlags2; MSEHasSpline; MSEMovementFlags2; MSEHasFallDirection;
   MSEHasGuidByte0; MSEFlushBits; MSESplineElevation; MSEPitch; MSEGuidByte0; MSEGuidByte5;
   MSETransportOrientation; MSETransportTime; MSETransportGuidByte5; MSETransportGuidByte4;
   MSETransportGuidByte6; MSETransportPositionZ; MSETransportGuidByte7; MSETransportGuidByte0;
   MSETransportGuidByte2; MSETransportGuidByte3; MSETransportPositionY; MSETransportVehicleId;
   MSETransportTime2; MSETransportGuidByte1; MSETransportSeat; MSETransportPositionX;
   MSEFallCosAngle; MSEFallHorizontalSpeed; MSEFallSinAngle; MSEFallVerticalSpeed; MSEFallTime;
   MSEGuidByte1; MSEGuidByte6; MSETimestamp; MSEGuidByte7; MSEGuidByte2; MSEGuidByte4;
   MSEOrientation; MSEGuidByte3; MSEEnd].

Definition MovementSetCollisionHeight : list MovementStatusElements :=
  [MSEExtraElement; MSEHasGuidByte6; MSEHasGuidByte1; MSEHasGuidByte4; MSEHasGuidByte7;
   MSEHasGuidByte5; MSEHasGuidByte2; MSEHasGuidByte0; MSEHasGuidByte3; MSEFlushBits;
   MSEGuidByte6; MSEGuidByte0; MSEGuidByte4; MSEGuidByte3; MSEGuidByte5; MSECounter;
   MSEGuidByte1; MSEGuidByte2; MSEGuidByte7; MSEExtraElement; MSEEnd].

Definition MovementUpdateCollisionHeight : list MovementStatusElements :=
  [MSEPositionZ; MSEExtraElement; MSEPositionX; MSEPositionY; MSEHasGuidByte6; MSEHasGuidByte7;
   MSEHasSplineElevation; MSEHasTransportData; MSEHasTransportGuidByte6;
   MSEHasTransportGuidByte4; MSEHasTransportGuidByte3; MSEHasTransportGuidByte7;
   MSEHasTransportGuidByte5; MSEHasVehicleId; MSEHasTransportGuidByte1;
   MSEHasTransportGuidByte0; MSEHasTransportGuidByte2; MSEHasTransportTime2; MSEHasGuidByte3;
   MSEHasOrientation; MSEHasGuidByte4; MSEHasGuidByte5; MSEHasTimestamp; MSEHasFallData;
   MSEHasGuidByte0; MSEHasPitch; MSEHasHeightChangeFailed; MSEHasGuidByte2;
   MSEHasMovementFlags; MSEHasFallDirection; MSEHasGuidByte1; MSEHasMovementFlags2;
   MSEHasSpline; MSEMovementFlags2; MSEMovementFlags; MSEFlushBits; MSEGuidByte3;
   MSETransportGuidByte7; MSETransportTime; MSETransportGuidByte4; MSETransportVehicleId;
   MSETransportTime2; MSETransportGuidByte5; MSETransportOrientation; MSETransportPositionX;
   MSETransportGuidByte6; MSETransportGuidByte0; MSETransportPositionY; MSETransportGuidByte2;
   MSETransportPositionZ; MSETransportGuidByte3; MSETransportGuidByte1; MSETransportSeat;
   MSEPitch; MSEGuidByte6; MSEFallCosAngle; MSEFallSinAngle; MSEFallHorizontalSpeed;
   MSEFallVerticalSpeed; MSEFallTime; MSEGuidByte7; MSEOrientation; MSEGuidByte0; MSEGuidByte5;
   MSEGuidByte4; MSESplineElevation; MSETimestamp; MSEGuidByte2; MSEGuidByte1; MSEEnd].

Definition MovementForceRunSpeedChangeAck : list MovementStatusElements :=
  [MSECounter; MSEPositionX; MSEExtraElement; MSEPositionZ; MSEPositionY; MSEHasGuidByte2;
   MSEHasGuidByte4; MSEHasGuidByte1; MSEHasGuidByte7; MSEHasOrientation; MSEHasFallData;
   MSEHasGuidByte0; MSEHasSpline; MSEHasTransportData; MSEHasTimestamp; MSEHasMovementFlags2;
   MSEHasGuidByte6; MSEZeroBit; MSEHasSplineElevation; MSEHasPitch; MSEHasGuidByte5;
   MSEHasMovementFlags; MSEHasGuidByte3; MSEHasVehicleId; MSEHasTransportGuidByte5;
   MSEHasTransportTime2; MSEHasTransportGuidByte3; MSEHasTransportGuidByte2;
   MSEHasTransportGuidByte0; MSEHasTransportGuidByte7; MSEHasTransportGuidByte6;
   MSEHasTransportGuidByte1; MSEHasTransportGuidByte4; MSEMovementFlags; MSEHasFallDirection;
   MSEMovementFlags2; MSEGuidByte6; MSEGuidByte4; MSEGuidByte1; MSEGuidByte3; MSEGuidByte5;
   MSEGuidByte2; MSEGuidByte7; MSEGuidByte0; MSETransportPositionZ; MSETransportGuidByte6;
   MSETransportGuidByte1; MSETransportPositionY; MSETransportGuidByte0; MSETransportGuidByte5;
   MSETransportTime2; MSETransportPositionX; MSETransportTime; MSETransportGuidByte7;
   MSETransportOrientation; MSETransportGuidByte3; MSETransportVehicleId;
   MSETransportGuidByte2; MSETransportSeat; MSETransportGuidByte4; MSEFallVerticalSpeed;
   MSEFallHorizontalSpeed; MSEFallSinAngle; MSEFallCosAngle; MSEFallTime; MSESplineElevation;
   MSEPitch; MSETimestamp; MSEOrientation; MSEEnd].

Definition MovementSetCollisionHeightAck : list MovementStatusElements :=
  [MSEExtraElement; MSEPositionX; MSEPositionZ; MSECounter; MSEPositionY; MSEHasGuidByte6;
   MSEHasGuidByte4; MSEExtraElement; MSEHasPitch; MSEHasGuidByte5; MSEHasHeightChangeFailed;
   MSEHasGuidByte2; MSEHasGuidByte1; MSEHasFallData; MSEHasGuidByte3; MSEHasSpline;
   MSEHasGuidByte7; MSEHasMovementFlags; MSEHasTransportData; MSEHasTimestamp;
   MSEHasSplineElevation; MSEHasMovementFlags2; MSEHasOrientation; MSEHasGuidByte0;
   MSEHasTransportGuidByte4; MSEHasTransportGuidByte3; MSEHasTransportTime2; MSEHasVehicleId;
   MSEHasTransportGuidByte5; MSEHasTransportGuidByte1; MSEHasTransportGuidByte7;
   MSEHasTransportGuidByte2; MSEHasTransportGuidByte6; MSEHasTransportGuidByte0;
   MSEMovementFlags2; MSEMovementFlags; MSEHasFallDirection; MSEGuidByte0; MSEGuidByte3;
   MSEGuidByte1; MSEGuidByte5; MSEGuidByte7; MSEGuidByte6; MSEGuidByte2; MSEGuidByte4;
   MSETransportPositionX; MSETransportGuidByte4; MSETransportTime2; MSETransportGuidByte0;
   MSETransportOrientation; MSETransportPositionY; MSETransportGuidByte7; MSETransportSeat;
   MSETransportGuidByte5; MSETransportGuidByte2; MSETransportTime; MSETransportGuidByte6;
   MSETransportGuidByte3; MSETransportGuidByte1; MSETransportVehicleId; MSETransportPositionZ;
   MSEFallVerticalSpeed; MSEFallTime; MSEFallCosAngle; MSEFallSinAngle; MSEFallHorizontalSpeed;
   MSETimestamp; MSESplineElevation; MSEOrientation; MSEPitch; MSEEnd].

Definition MovementForceFlightSpeedChangeAck : list MovementStatusElements :=
  [MSECounter; MSEPositionZ; MSEPositionX; MSEPositionY; MSEExtraElement; MSEHasGuidByte4;
   MSEHasGuidByte5; MSEZeroBit; MSEHasMovementFlags; MSEHasSplineElevation; MSEHasGuidByte3;
   MSEHasMovementFlags2; MSEHasGuidByte7; MSEHasTransportData; MSEHasGuidByte0; MSEHasFallData;
   MSEHasTimestamp; MSEHasPitch; MSEHasSpline; MSEHasOrientation; MSEHasGuidByte6;
   MSEHasGuidByte2; MSEHasGuidByte1; MSEHasTransportGuidByte6; MSEHasTransportGuidByte1;
   MSEHasTransportGuidByte7; MSEHasTransportTime2; MSEHasTransportGuidByte0; MSEHasVehicleId;
   MSEHasTransportGuidByte3; MSEHasTransportGuidByte2; MSEHasTransportGuidByte5;
   MSEHasTransportGuidByte4; MSEHasFallDirection; MSEMovementFlags2; MSEMovementFlags;
   MSEGuidByte5; MSEGuidByte6; MSEGuidByte1; MSEGuidByte7; MSEGuidByte3; MSEGuidByte0;
   MSEGuidByte2; MSEGuidByte4; MSETransportGuidByte6; MSETransportGuidByte0; MSETransportSeat;
   MSETransportTime2; MSETransportOrientation; MSETransportGuidByte1; MSETransportGuidByte5;
   MSETransportVehicleId; MSETransportGuidByte2; MSETransportPositionZ; MSETransportGuidByte7;
   MSETransportGuidByte3; MSETransportGuidByte4; MSETransportPositionX; MSETransportTime;
   MSETransportPositionY; MSETimestamp; MSESplineElevation; MSEFallSinAngle; MSEFallCosAngle;
   MSEFallHorizontalSpeed; MSEFallTime; MSEFallVerticalSpeed; MSEPitch; MSEOrientation; MSEEnd].

Definition MovementSetCanFlyAck : list MovementStatusElements :=
  [MSEPositionY; MSECounter; MSEPositionX; MSEPositionZ; MSEHasGuidByte3; MSEHasTimestamp;
   MSEHasGuidByte4; MSEHasGuidByte0; MSEHasOrientation; MSEHasFallData; MSEHasGuidByte2;
   MSEHasGuidByte5; MSEHasSplineElevation; MSEHasMovementFlags2; MSEZeroBit; MSEHasGuidByte7;
   MSEHasSpline; MSEHasGuidByte6; MSEHasGuidByte1; MSEHasMovementFlags; MSEHasTransportData;
   MSEHasPitch; MSEHasTransportGuidByte3; MSEHasTransportGuidByte1; MSEHasTransportGuidByte2;
   MSEHasVehicleId; MSEHasTransportTime2; MSEHasTransportGuidByte0; MSEHasTransportGuidByte5;
   MSEHasTransportGuidByte7; MSEHasTransportGuidByte4; MSEHasTransportGuidByte6;
   MSEMovementFlags2; MSEMovementFlags; MSEHasFallDirection; MSEGuidByte1; MSEGuidByte0;
   MSEGuidByte2; MSEGuidByte3; MSEGuidByte7; MSEGuidByte6; MSEGuidByte4; MSEGuidByte5;
   MSETransportTime2; MSETransportGuidByte6; MSETransportTime; MSETransportVehicleId;
   MSETransportGuidByte7; MSETransportPositionZ; MSETransportGuidByte3; MSETransportPositionY;
   MSETransportGuidByte5; MSETransportPositionX; MSETransportGuidByte2;
   MSETransportOrientation; MSETransportSeat; MSETransportGuidByte1; MSETransportGuidByte0;
   MSETransportGuidByte4; MSEFallTime; MSEFallSinAngle; MSEFallHorizontalSpeed;
   MSEFallCosAngle; MSEFallVerticalSpeed; MSEPitch; MSEOrientation; MSETimestamp;
   MSESplineElevation; MSEEnd].

Definition MoveForceSwimBackSpeedChangeAck : list MovementStatusElements :=
  [MSEExtraElement; MSEPositionX; MSEPositionZ; MSEPositionY; MSECounter; MSEHasGuidByte7;
   MSEHasTransportData; MSEHasGuidByte6; MSEHasPitch; MSEHasOrientation; MSEHasGuidByte2;
   MSEHasMovementFlags; MSEHasGuidByte0; MSEHasGuidByte5; MSEHasGuidByte3; MSEHasSpline;
   MSEHasTimestamp; MSEZeroBit; MSEHasMovementFlags2; MSEHasGuidByte4; MSEHasGuidByte1;
   MSEHasSplineElevation; MSEHasFallData; MSEHasTransportGuidByte6; MSEHasTransportGuidByte3;
   MSEHasTransportGuidByte4; MSEHasTransportGuidByte7; MSEHasVehicleId;
   MSEHasTransportGuidByte1; MSEHasTransportGuidByte0; MSEHasTransportTime2;
   MSEHasTransportGuidByte5; MSEHasTransportGuidByte2; MSEMovementFlags; MSEMovementFlags2;
   MSEHasFallDirection; MSEGuidByte0; MSEGuidByte7; MSEGuidByte4; MSEGuidByte6; MSEGuidByte1;
   MSEGuidByte2; MSEGuidByte5; MSEGuidByte3; MSEFallSinAngle; MSEFallCosAngle;
   MSEFallHorizontalSpeed; MSEFallVerticalSpeed; MSEFallTime; MSETransportGuidByte4;
   MSETransportGuidByte6; MSETransportGuidByte1; MSETransportPositionY;
   MSETransportOrientation; MSETransportPositionZ; MSETransportGuidByte7;
   MSETransportVehicleId; MSETransportTime; MSETransportGuidByte3; MSETransportGuidByte2;
   MSETransportSeat; MSETransportGuidByte0; MSETransportTime2; MSETransportPositionX;
   MSETransportGuidByte5; MSETimestamp; MSESplineElevation; MSEPitch; MSEOrientation; MSEEnd].

Definition MoveForceFlightBackSpeedChangeAck : list MovementStatusElements :=
  [MSEPositionY; MSEPositionZ; MSECounter; MSEPositionX; MSEExtraElement;
   MSEHasSplineElevation; MSEHasPitch; MSEHasFallData; MSEHasSpline; MSEHasGuidByte7;
   MSEHasGuidByte4; MSEZeroBit; MSEHasGuidByte1; MSEHasOrientation; MSEHasMovementFlags;
   MSEHasGuidByte5; MSEHasGuidByte3; MSEHasTransportData; MSEHasGuidByte6;
   MSEHasMovementFlags2; MSEHasGuidByte2; MSEHasGuidByte0; MSEHasTimestamp;
   MSEHasTransportGuidByte2; MSEHasTransportGuidByte5; MSEHasTransportGuidByte1;
   MSEHasVehicleId; MSEHasTransportGuidByte0; MSEHasTransportGuidByte7;
   MSEHasTransportGuidByte6; MSEHasTransportGuidByte3; MSEHasTransportTime2;
   MSEHasTransportGuidByte4; MSEMovementFlags2; MSEMovementFlags; MSEHasFallDirection;
   MSEGuidByte7; MSEGuidByte0; MSEGuidByte5; MSEGuidByte6; MSEGuidByte3; MSEGuidByte2;
   MSEGuidByte4; MSEGuidByte1; MSETransportGuidByte2; MSETransportGuidByte0; MSETransportTime;
   MSETransportGuidByte3; MSETransportOrientation; MSETransportGuidByte1;
   MSETransportPositionX; MSETransportPositionZ; MSETransportGuidByte4; MSETransportGuidByte7;
   MSETransportVehicleId; MSETransportGuidByte5; MSETransportTime2; MSETransportPositionY;
   MSETransportSeat; MSETransportGuidByte6; MSEFallCosAngle; MSEFallSinAngle;
   MSEFallHorizontalSpeed; MSEFallVerticalSpeed; MSEFallTime; MSETimestamp; MSEPitch;
   MSEOrientation; MSESplineElevation; MSEEnd].

Definition MovementForceSwimSpeedChangeAck : list MovementStatusElements :=
  [MSEPositionX; MSECounter; MSEExtraElement; MSEPositionY; MSEPositionZ; MSEHasGuidByte4;
   MSEHasOrientation; MSEHasPitch; MSEHasTransportData; MSEHasMovementFlags;
   MSEHasMovementFlags2; MSEHasGuidByte1; MSEHasGuidByte3; MSEHasFallData; MSEHasGuidByte2;
   MSEHasGuidByte7; MSEHasTimestamp; MSEZeroBit; MSEHasGuidByte5; MSEHasGuidByte6;
   MSEHasSplineElevation; MSEHasSpline; MSEHasGuidByte0; MSEHasTransportGuidByte1;
   MSEHasTransportGuidByte4; MSEHasTransportGuidByte0; MSEHasTransportGuidByte5;
   MSEHasTransportGuidByte7; MSEHasTransportGuidByte3; MSEHasTransportTime2; MSEHasVehicleId;
   MSEHasTransportGuidByte6; MSEHasTransportGuidByte2; MSEMovementFlags2; MSEHasFallDirection;
   MSEMovementFlags; MSEGuidByte2; MSEGuidByte0; MSEGuidByte6; MSEGuidByte5; MSEGuidByte1;
   MSEGuidByte3; MSEGuidByte4; MSEGuidByte7; MSETransportGuidByte0; MSETransportVehicleId;
   MSETransportTime2; MSETransportPositionX; MSETransportGuidByte7; MSETransportSeat;
   MSETransportPositionY; MSETransportGuidByte5; MSETransportPositionZ;
   MSETransportOrientation; MSETransportTime; MSETransportGuidByte2; MSETransportGuidByte6;
   MSETransportGuidByte3; MSETransportGuidByte1; MSETransportGuidByte4; MSEFallTime;
   MSEFallSinAngle; MSEFallCosAngle; MSEFallHorizontalSpeed; MSEFallVerticalSpeed;
   MSEOrientation; MSEPitch; MSESplineElevation; MSETimestamp; MSEEnd].

Definition MovementForceWalkSpeedChangeAck : list MovementStatusElements :=
  [MSEPositionZ; MSEPositionY; MSEExtraElement; MSEPositionX; MSECounter; MSEHasGuidByte0;
   MSEHasMovementFlags2; MSEHasTimestamp; MSEHasGuidByte4; MSEHasGuidByte5; MSEHasGuidByte2;
   MSEHasMovementFlags; MSEHasFallData; MSEHasOrientation; MSEHasSpline; MSEZeroBit;
   MSEHasGuidByte3; MSEHasGuidByte1; MSEHasSplineElevation; MSEHasTransportData;
   MSEHasGuidByte7; MSEHasGuidByte6; MSEHasPitch; MSEHasTransportTime2;
   MSEHasTransportGuidByte5; MSEHasTransportGuidByte1; MSEHasTransportGuidByte6;
   MSEHasVehicleId; MSEHasTransportGuidByte2; MSEHasTransportGuidByte0;
   MSEHasTransportGuidByte4; MSEHasTransportGuidByte7; MSEHasTransportGuidByte3;
   MSEMovementFlags; MSEMovementFlags2; MSEHasFallDirection; MSEGuidByte5; MSEGuidByte6;
   MSEGuidByte7; MSEGuidByte2; MSEGuidByte1; MSEGuidByte3; MSEGuidByte4; MSEGuidByte0;
   MSEFallVerticalSpeed; MSEFallCosAngle; MSEFallHorizontalSpeed; MSEFallSinAngle; MSEFallTime;
   MSETransportPositionZ; MSETransportGuidByte7; MSETransportGuidByte5; MSETransportPositionX;
   MSETransportGuidByte0; MSETransportTime; MSETransportVehicleId; MSETransportPositionY;
   MSETransportGuidByte2; MSETransportGuidByte4; MSETransportGuidByte1; MSETransportGuidByte3;
   MSETransportOrientation; MSETransportSeat; MSETransportGuidByte6; MSETransportTime2;
   MSESplineElevation; MSETimestamp; MSEOrientation; MSEPitch; MSEEnd].

Definition MovementForceRunBackSpeedChangeAck : list MovementStatusElements :=
  [MSEExtraElement; MSECounter; MSEPositionX; MSEPositionZ; MSEPositionY; MSEHasGuidByte2;
   MSEHasGuidByte4; MSEHasTimestamp; MSEHasTransportData; MSEHasGuidByte1; MSEHasGuidByte0;
   MSEHasGuidByte5; MSEHasGuidByte3; MSEHasOrientation; MSEHasFallData; MSEHasMovementFlags2;
   MSEHasMovementFlags; MSEHasGuidByte7; MSEHasSpline; MSEHasPitch; MSEHasGuidByte6;
   MSEHasSplineElevation; MSEZeroBit; MSEHasTransportGuidByte3; MSEHasTransportTime2;
   MSEHasTransportGuidByte7; MSEHasTransportGuidByte0; MSEHasTransportGuidByte2;
   MSEHasTransportGuidByte1; MSEHasVehicleId; MSEHasTransportGuidByte4;
   MSEHasTransportGuidByte6; MSEHasTransportGuidByte5; MSEMovementFlags; MSEMovementFlags2;
   MSEHasFallDirection; MSEGuidByte0; MSEGuidByte7; MSEGuidByte2; MSEGuidByte4; MSEGuidByte3;
   MSEGuidByte6; MSEGuidByte5; MSEGuidByte1; MSEFallTime; MSEFallHorizontalSpeed;
   MSEFallSinAngle; MSEFallCosAngle; MSEFallVerticalSpeed; MSETransportGuidByte5;
   MSETransportSeat; MSETransportGuidByte6; MSETransportGuidByte1; MSETransportGuidByte0;
   MSETransportGuidByte2; MSETransportPositionY; MSETransportVehicleId; MSETransportPositionX;
   MSETransportOrientation; MSETransportGuidByte3; MSETransportTime; MSETransportTime2;
   MSETransportGuidByte4; MSETransportPositionZ; MSETransportGuidByte7; MSETimestamp;
   MSESplineElevation; MSEOrientation; MSEPitch; MSEEnd].

Definition MovementUpdateRunBackSpeed : list MovementStatusElements :=
  [MSEHasGuidByte1; MSEHasGuidByte2; MSEHasGuidByte4; MSEHasGuidByte3; MSEHasGuidByte6;
   MSEHasGuidByte0; MSEZeroBit; MSEHasMovementFlags; MSEHasGuidByte5; MSEHasOrientation;
   MSEMovementFlags; MSEHasFallDirection; MSEHasTransportGuidByte5; MSEHasTransportGuidByte3;
   MSEHasTransportGuidByte1; MSEHasTransportGuidByte6; MSEHasTransportGuidByte7;
   MSEHasTransportGuidByte2; MSEHasTransportGuidByte4; MSEHasTransportGuidByte0;
   MSEHasGuidByte7; MSEFlushBits; MSETransportPositionX; MSETransportGuidByte2;
   MSETransportGuidByte5; MSETransportGuidByte4; MSETransportGuidByte6; MSETransportGuidByte0;
   MSETransportGuidByte3; MSETransportPositionY; MSETransportGuidByte7; MSETransportPositionZ;
   MSETransportTime; MSETransportSeat; MSETransportGuidByte1; MSETransportOrientation;
   MSEGuidByte4; MSEFallTime; MSEFallHorizontalSpeed; MSEFallSinAngle; MSEFallCosAngle;
   MSEFallVerticalSpeed; MSETimestamp; MSEGuidByte1; MSEOrientation; MSEGuidByte0;
   MSEGuidByte5; MSEGuidByte3; MSEPositionX; MSEPositionY; MSEPitch; MSEGuidByte7;
   MSEExtraElement; MSEGuidByte2; MSEGuidByte6; MSEPositionZ; MSEEnd].

Definition MovementUpdateWalkSpeed : list MovementStatusElements :=
  [MSEHasOrientation; MSEZeroBit; MSEHasGuidByte3; MSEHasGuidByte2; MSEHasTransportGuidByte6;
   MSEHasTransportGuidByte3; MSEHasTransportGuidByte2; MSEHasTransportGuidByte0;
   MSEHasTransportGuidByte4; MSEHasTransportGuidByte7; MSEHasTransportGuidByte1;
   MSEHasTransportGuidByte5; MSEHasGuidByte7; MSEHasGuidByte5; MSEHasGuidByte1;
   MSEHasGuidByte0; MSEHasMovementFlags; MSEHasGuidByte6; MSEHasFallDirection;
   MSEMovementFlags; MSEHasGuidByte4; MSEFlushBits; MSEPitch; MSETransportGuidByte6;
   MSETransportGuidByte0; MSETransportGuidByte4; MSETransportGuidByte2; MSETransportPositionX;
   MSETransportGuidByte7; MSETransportTime; MSETransportPositionZ; MSETransportSeat;
   MSETransportGuidByte5; MSETransportOrientation; MSETransportGuidByte1;
   MSETransportPositionY; MSETransportGuidByte3; MSEFallVerticalSpeed; MSEFallHorizontalSpeed;
   MSEFallSinAngle; MSEFallCosAngle; MSEFallTime; MSEGuidByte1; MSEGuidByte4; MSEGuidByte2;
   MSEGuidByte6; MSEGuidByte7; MSETimestamp; MSEOrientation; MSEPositionY; MSEGuidByte0;
   MSEPositionZ; MSEPositionX; MSEGuidByte3; MSEGuidByte5; MSEExtraElement; MSEEnd].

Definition ForceMoveRootAck : list MovementStatusElements :=
  [MSEPositionY; MSEPositionZ; MSECounter; MSEPositionX; MSEHasGuidByte3; MSEHasTimestamp;
   MSEHasTransportData; MSEHasPitch; MSEHasGuidByte2; MSEHasOrientation; MSEHasSplineElevation;
   MSEHasFallData; MSEHasSpline; MSEHasGuidByte4; MSEHasGuidByte0; MSEHasGuidByte6;
   MSEHasGuidByte1; MSEHasGuidByte7; MSEHasMovementFlags2; MSEHasMovementFlags; MSEZeroBit;
   MSEHasGuidByte5; MSEHasTransportGuidByte6; MSEHasTransportGuidByte0;
   MSEHasTransportGuidByte7; MSEHasTransportGuidByte3; MSEHasTransportGuidByte1;
   MSEHasTransportGuidByte2; MSEHasTransportTime2; MSEHasTransportGuidByte4; MSEHasVehicleId;
   MSEHasTransportGuidByte5; MSEMovementFlags2; MSEMovementFlags; MSEHasFallDirection;
   MSEGuidByte5; MSEGuidByte3; MSEGuidByte1; MSEGuidByte7; MSEGuidByte4; MSEGuidByte0;
   MSEGuidByte6; MSEGuidByte2; MSETransportGuidByte5; MSETransportGuidByte4;
   MSETransportOrientation; MSETransportPositionZ; MSETransportVehicleId; MSETransportTime2;
   MSETransportGuidByte7; MSETransportGuidByte2; MSETransportGuidByte0; MSETransportTime;
   MSETransportGuidByte6; MSETransportGuidByte3; MSETransportPositionX; MSETransportGuidByte1;
   MSETransportPositionY; MSETransportSeat; MSETimestamp; MSEFallVerticalSpeed;
   MSEFallHorizontalSpeed; MSEFallCosAngle; MSEFallSinAngle; MSEFallTime; MSEOrientation;
   MSESplineElevation; MSEPitch; MSEEnd].

Definition ForceMoveUnrootAck : list MovementStatusElements :=
  [MSECounter; MSEPositionZ; MSEPositionY; MSEPositionX; MSEHasGuidByte7;
   MSEHasSplineElevation; MSEHasSpline; MSEHasGuidByte5; MSEHasGuidByte4; MSEZeroBit;
   MSEHasTimestamp; MSEHasMovementFlags; MSEHasOrientation; MSEHasPitch; MSEHasGuidByte3;
   MSEHasGuidByte1; MSEHasTransportData; MSEHasMovementFlags2; MSEHasGuidByte2;
   MSEHasGuidByte0; MSEHasFallData; MSEHasGuidByte6; MSEHasFallDirection;
   MSEHasTransportGuidByte0; MSEHasVehicleId; MSEHasTransportGuidByte6; MSEHasTransportTime2;
   MSEHasTransportGuidByte3; MSEHasTransportGuidByte5; MSEHasTransportGuidByte7;
   MSEHasTransportGuidByte2; MSEHasTransportGuidByte4; MSEHasTransportGuidByte1;
   MSEMovementFlags2; MSEMovementFlags; MSEGuidByte7; MSEGuidByte1; MSEGuidByte0; MSEGuidByte6;
   MSEGuidByte2; MSEGuidByte4; MSEGuidByte5; MSEGuidByte3; MSETransportGuidByte6;
   MSETransportPositionZ; MSETransportGuidByte2; MSETransportGuidByte3; MSETransportPositionY;
   MSETransportVehicleId; MSETransportGuidByte5; MSETransportSeat; MSETransportGuidByte0;
   MSETransportTime; MSETransportTime2; MSETransportGuidByte4; MSETransportOrientation;
   MSETransportPositionX; MSETransportGuidByte1; MSETransportGuidByte7; MSEFallSinAngle;
   MSEFallHorizontalSpeed; MSEFallCosAngle; MSEFallVerticalSpeed; MSEFallTime; MSETimestamp;
   MSESplineElevation; MSEOrientation; MSEPitch; MSEEnd].

Definition MoveUpdateSwimBackSpeed : list MovementStatusElements :=
  [MSEHasGuidByte7; MSEHasGuidByte2; MSEHasTransportData; MSEHasGuidByte1;
   MSEHasTransportGuidByte2; MSEHasTransportGuidByte1; MSEHasTransportGuidByte0;
   MSEHasTransportGuidByte7; MSEHasTransportGuidByte3; MSEHasTransportGuidByte4;
   MSEHasTransportGuidByte6; MSEHasTransportTime2; MSEHasTransportGuidByte5; MSEHasVehicleId;
   MSEHasPitch; MSEHasOrientation; MSEZeroBit; MSEHasGuidByte5; MSEHasGuidByte3;
   MSEHasGuidByte6; MSEHasGuidByte4; MSEHasSpline; MSEHasMovementFlags; MSEHasGuidByte0;
   MSEHasFallData; MSEHasFallDirection; MSEMovementFlags; MSEHasTimestamp;
   MSEHasSplineElevation; MSEHasMovementFlags2; MSEMovementFlags2; MSEFlushBits; MSEGuidByte0;
   MSEGuidByte4; MSEPositionY; MSETransportGuidByte7; MSETransportVehicleId;
   MSETransportGuidByte6; MSETransportGuidByte4; MSETransportGuidByte2; MSETransportGuidByte3;
   MSETransportOrientation; MSETransportGuidByte5; MSETransportTime; MSETransportGuidByte0;
   MSETransportGuidByte1; MSETransportPositionX; MSETransportPositionZ; MSETransportTime2;
   MSETransportPositionY; MSETransportSeat; MSEFallSinAngle; MSEFallCosAngle;
   MSEFallHorizontalSpeed; MSEFallVerticalSpeed; MSEFallTime; MSEPitch; MSEGuidByte2;
   MSEGuidByte7; MSEExtraElement; MSESplineElevation; MSEPositionZ; MSEGuidByte3; MSEPositionX;
   MSETimestamp; MSEGuidByte5; MSEOrientation; MSEGuidByte6; MSEGuidByte1; MSEEnd].

Definition MovementFallReset : list MovementStatusElements :=
  [MSEPositionZ; MSEPositionX; MSEPositionY; MSEHasGuidByte1; MSEHasTimestamp;
   MSEHasMovementFlags; MSEZeroBit; MSEHasGuidByte6; MSEHasSplineElevation; MSEHasPitch;
   MSEHasGuidByte3; MSEHasTransportData; MSEHasGuidByte2; MSEHasMovementFlags2;
   MSEHasOrientation; MSEHasGuidByte4; MSEHasGuidByte5; MSEHasSpline; MSEHasGuidByte7;
   MSEHasGuidByte0; MSEHasFallData; MSEHasTransportGuidByte0; MSEHasTransportGuidByte1;
   MSEHasTransportGuidByte5; MSEHasTransportGuidByte4; MSEHasTransportTime2;
   MSEHasTransportGuidByte2; MSEHasVehicleId; MSEHasTransportGuidByte6;
   MSEHasTransportGuidByte7; MSEHasTransportGuidByte3; MSEHasFallDirection; MSEMovementFlags2;
   MSEMovementFlags; MSEGuidByte4; MSEGuidByte0; MSEGuidByte1; MSEGuidByte7; MSEGuidByte5;
   MSEGuidByte2; MSEGuidByte3; MSEGuidByte6; MSETransportPositionX; MSETransportGuidByte7;
   MSETransportGuidByte2; MSETransportGuidByte3; MSETransportGuidByte5; MSETransportPositionY;
   MSETransportPositionZ; MSETransportSeat; MSETransportTime2; MSETransportGuidByte6;
   MSETransportVehicleId; MSETransportTime; MSETransportGuidByte0; MSETransportOrientation;
   MSETransportGuidByte4; MSETransportGuidByte1; MSEFallVerticalSpeed; MSEFallSinAngle;
   MSEFallCosAngle; MSEFallHorizontalSpeed; MSEFallTime; MSEOrientation; MSETimestamp;
   MSESplineElevation; MSEPitch; MSEEnd].

Definition MovementFeatherFallAck : list MovementStatusElements :=
  [MSEPositionZ; MSECounter; MSEPositionY; MSEPositionX; MSEZeroBit; MSEHasGuidByte3;
   MSEHasSplineElevation; MSEHasGuidByte1; MSEHasPitch; MSEHasGuidByte2; MSEHasSpline;
   MSEHasTimestamp; MSEHasGuidByte5; MSEHasFallData; MSEHasOrientation; MSEHasTransportData;
   MSEHasGuidByte7; MSEHasMovementFlags2; MSEHasGuidByte6; MSEHasMovementFlags;
   MSEHasGuidByte0; MSEHasGuidByte4; MSEHasTransportGuidByte6; MSEHasVehicleId;
   MSEHasTransportGuidByte2; MSEHasTransportGuidByte4; MSEHasTransportGuidByte7;
   MSEHasTransportGuidByte3; MSEHasTransportGuidByte5; MSEHasTransportTime2;
   MSEHasTransportGuidByte1; MSEHasTransportGuidByte0; MSEHasFallDirection; MSEMovementFlags2;
   MSEMovementFlags; MSEGuidByte6; MSEGuidByte1; MSEGuidByte7; MSEGuidByte0; MSEGuidByte5;
   MSEGuidByte4; MSEGuidByte3; MSEGuidByte2; MSETransportVehicleId; MSETransportOrientation;
   MSETransportPositionZ; MSETransportGuidByte7; MSETransportGuidByte5; MSETransportGuidByte2;
   MSETransportPositionX; MSETransportGuidByte1; MSETransportGuidByte6; MSETransportTime2;
   MSETransportTime; MSETransportPositionY; MSETransportGuidByte4; MSETransportGuidByte0;
   MSETransportSeat; MSETransportGuidByte3; MSETimestamp; MSESplineElevation; MSEOrientation;
   MSEFallVerticalSpeed; MSEFallSinAngle; MSEFallHorizontalSpeed; MSEFallCosAngle; MSEFallTime;
   MSEPitch; MSEEnd].

Definition MovementGravityDisableAck : list MovementStatusElements :=
  [MSEPositionZ; MSEPositionY; MSECounter; MSEPositionX; MSEHasGuidByte3; MSEHasTransportData;
   MSEHasGuidByte4; MSEHasGuidByte5; MSEHasMovementFlags; MSEHasOrientation; MSEHasSpline;
   MSEHasGuidByte6; MSEHasGuidByte0; MSEHasGuidByte7; MSEHasSplineElevation; MSEHasTimestamp;
   MSEHasPitch; MSEHasMovementFlags2; MSEZeroBit; MSEHasGuidByte2; MSEHasFallData;
   MSEHasGuidByte1; MSEHasTransportGuidByte2; MSEHasVehicleId; MSEHasTransportGuidByte0;
   MSEHasTransportGuidByte1; MSEHasTransportGuidByte5; MSEHasTransportGuidByte3;
   MSEHasTransportGuidByte7; MSEHasTransportGuidByte6; MSEHasTransportGuidByte4;
   MSEHasTransportTime2; MSEMovementFlags; MSEMovementFlags2; MSEHasFallDirection;
   MSEGuidByte0; MSEGuidByte2; MSEGuidByte1; MSEGuidByte3; MSEGuidByte5; MSEGuidByte7;
   MSEGuidByte4; MSEGuidByte6; MSETransportPositionZ; MSETransportGuidByte2;
   MSETransportGuidByte5; MSETransportGuidByte3; MSETransportGuidByte4; MSETransportPositionY;
   MSETransportTime; MSETransportSeat; MSETransportGuidByte6; MSETransportGuidByte1;
   MSETransportGuidByte0; MSETransportOrientation; MSETransportTime2; MSETransportPositionX;
   MSETransportGuidByte7; MSETransportVehicleId; MSEFallSinAngle; MSEFallCosAngle;
   MSEFallHorizontalSpeed; MSEFallTime; MSEFallVerticalSpeed; MSEOrientation;
   MSESplineElevation; MSETimestamp; MSEPitch; MSEEnd].

Definition MovementGravityEnableAck : list MovementStatusElements :=
  [MSEPositionZ; MSEPositionX; MSECounter; MSEPositionY; MSEHasSplineElevation;
   MSEHasMovementFlags2; MSEHasGuidByte6; MSEHasOrientation; MSEZeroBit; MSEHasGuidByte5;
   MSEHasSpline; MSEHasGuidByte3; MSEHasTransportData; MSEHasPitch; MSEHasGuidByte1;
   MSEHasTimestamp; MSEHasGuidByte2; MSEHasGuidByte4; MSEHasGuidByte7; MSEHasMovementFlags;
   MSEHasFallData; MSEHasGuidByte0; MSEHasVehicleId; MSEHasTransportGuidByte0;
   MSEHasTransportGuidByte1; MSEHasTransportGuidByte3; MSEHasTransportGuidByte7;
   MSEHasTransportGuidByte2; MSEHasTransportGuidByte5; MSEHasTransportTime2;
   MSEHasTransportGuidByte4; MSEHasTransportGuidByte6; MSEHasFallDirection; MSEMovementFlags;
   MSEMovementFlags2; MSEGuidByte5; MSEGuidByte4; MSEGuidByte1; MSEGuidByte7; MSEGuidByte0;
   MSEGuidByte2; MSEGuidByte3; MSEGuidByte6; MSEFallTime; MSEFallHorizontalSpeed;
   MSEFallCosAngle; MSEFallSinAngle; MSEFallVerticalSpeed; MSETransportGuidByte1;
   MSETransportPositionX; MSETransportVehicleId; MSETransportOrientation;
   MSETransportGuidByte2; MSETransportGuidByte0; MSETransportGuidByte7; MSETransportGuidByte6;
   MSETransportSeat; MSETransportGuidByte3; MSETransportGuidByte4; MSETransportPositionZ;
   MSETransportTime2; MSETransportGuidByte5; MSETransportTime; MSETransportPositionY;
   MSESplineElevation; MSEOrientation; MSEPitch; MSETimestamp; MSEEnd].

Definition MovementHoverAck : list MovementStatusElements :=
  [MSECounter; MSEPositionZ; MSEPositionY; MSEPositionX; MSEHasGuidByte4; MSEHasTransportData;
   MSEHasGuidByte2; MSEHasTimestamp; MSEHasSpline; MSEHasMovementFlags; MSEHasGuidByte1;
   MSEHasPitch; MSEHasGuidByte0; MSEHasGuidByte6; MSEHasGuidByte7; MSEHasGuidByte5; MSEZeroBit;
   MSEHasFallData; MSEHasMovementFlags2; MSEHasSplineElevation; MSEHasOrientation;
   MSEHasGuidByte3; MSEHasTransportGuidByte4; MSEHasTransportGuidByte6; MSEHasVehicleId;
   MSEHasTransportGuidByte1; MSEHasTransportGuidByte0; MSEHasTransportGuidByte3;
   MSEHasTransportGuidByte2; MSEHasTransportGuidByte5; MSEHasTransportGuidByte7;
   MSEHasTransportTime2; MSEMovementFlags; MSEMovementFlags2; MSEHasFallDirection;
   MSEGuidByte1; MSEGuidByte4; MSEGuidByte7; MSEGuidByte2; MSEGuidByte5; MSEGuidByte6;
   MSEGuidByte3; MSEGuidByte0; MSETimestamp; MSEFallSinAngle; MSEFallCosAngle;
   MSEFallHorizontalSpeed; MSEFallTime; MSEFallVerticalSpeed; MSEOrientation;
   MSETransportGuidByte1; MSETransportVehicleId; MSETransportGuidByte2; MSETransportGuidByte7;
   MSETransportGuidByte3; MSETransportGuidByte4; MSETransportSeat; MSETransportPositionX;
   MSETransportPositionZ; MSETransportOrientation; MSETransportTime; MSETransportGuidByte0;
   MSETransportPositionY; MSETransportGuidByte5; MSETransportTime2; MSETransportGuidByte6;
   MSESplineElevation; MSEPitch; MSEEnd].

Definition MovementKnockBackAck : list MovementStatusElements :=
  [MSEPositionY; MSEPositionZ; MSECounter; MSEPositionX; MSEHasGuidByte6; MSEHasOrientation;
   MSEHasPitch; MSEHasSplineElevation; MSEHasGuidByte3; MSEHasGuidByte4; MSEHasGuidByte1;
   MSEHasGuidByte2; MSEHasSpline; MSEHasGuidByte7; MSEZeroBit; MSEHasMovementFlags2;
   MSEHasTimestamp; MSEHasGuidByte0; MSEHasMovementFlags; MSEHasTransportData; MSEHasGuidByte5;
   MSEHasFallData; MSEMovementFlags; MSEHasTransportGuidByte4; MSEHasTransportGuidByte1;
   MSEHasTransportTime2; MSEHasTransportGuidByte0; MSEHasVehicleId; MSEHasTransportGuidByte6;
   MSEHasTransportGuidByte2; MSEHasTransportGuidByte3; MSEHasTransportGuidByte5;
   MSEHasTransportGuidByte7; MSEMovementFlags2; MSEHasFallDirection; MSEGuidByte4;
   MSEGuidByte5; MSEGuidByte1; MSEGuidByte6; MSEGuidByte0; MSEGuidByte3; MSEGuidByte2;
   MSEGuidByte7; MSEFallSinAngle; MSEFallHorizontalSpeed; MSEFallCosAngle; MSEFallTime;
   MSEFallVerticalSpeed; MSETimestamp; MSETransportPositionY; MSETransportGuidByte4;
   MSETransportTime2; MSETransportGuidByte7; MSETransportOrientation; MSETransportGuidByte6;
   MSETransportTime; MSETransportGuidByte3; MSETransportGuidByte1; MSETransportVehicleId;
   MSETransportGuidByte2; MSETransportPositionZ; MSETransportGuidByte0; MSETransportGuidByte5;
   MSETransportPositionX; MSETransportSeat; MSEPitch; MSESplineElevation; MSEOrientation;
   MSEEnd].

Definition MovementWaterWalkAck : list MovementStatusElements :=
  [MSEPositionY; MSEPositionZ; MSECounter; MSEPositionX; MSEHasTimestamp; MSEHasPitch;
   MSEHasGuidByte5; MSEHasGuidByte0; MSEHasGuidByte7; MSEHasOrientation; MSEHasGuidByte1;
   MSEHasMovementFlags2; MSEHasGuidByte2; MSEHasMovementFlags; MSEHasGuidByte3;
   MSEHasTransportData; MSEHasGuidByte6; MSEHasFallData; MSEHasGuidByte4; MSEZeroBit;
   MSEHasSplineElevation; MSEHasSpline; MSEHasTransportGuidByte0; MSEHasTransportGuidByte1;
   MSEHasTransportGuidByte6; MSEHasTransportGuidByte2; MSEHasTransportGuidByte7;
   MSEHasTransportGuidByte5; MSEHasTransportTime2; MSEHasTransportGuidByte3; MSEHasVehicleId;
   MSEHasTransportGuidByte4; MSEMovementFlags; MSEHasFallDirection; MSEMovementFlags2;
   MSEGuidByte2; MSEGuidByte7; MSEGuidByte3; MSEGuidByte5; MSEGuidByte6; MSEGuidByte0;
   MSEGuidByte4; MSEGuidByte1; MSETransportPositionX; MSETransportGuidByte1;
   MSETransportVehicleId; MSETransportGuidByte0; MSETransportOrientation;
   MSETransportGuidByte7; MSETransportPositionY; MSETransportTime2; MSETransportTime;
   MSETransportGuidByte5; MSETransportSeat; MSETransportPositionZ; MSETransportGuidByte3;
   MSETransportGuidByte2; MSETransportGuidByte6; MSETransportGuidByte4; MSESplineElevation;
   MSEFallCosAngle; MSEFallHorizontalSpeed; MSEFallSinAngle; MSEFallVerticalSpeed; MSEFallTime;
   MSEOrientation; MSETimestamp; MSEPitch; MSEEnd].

Definition MovementUpdateKnockBack : list MovementStatusElements :=
  [MSEZeroBit; MSEHasGuidByte4; MSEHasMovementFlags; MSEHasGuidByte1; MSEHasGuidByte0;
   MSEHasGuidByte3; MSEHasGuidByte2; MSEHasGuidByte7; MSEHasTransportGuidByte7;
   MSEHasTransportGuidByte5; MSEHasTransportGuidByte1; MSEHasTransportGuidByte6;
   MSEHasTransportGuidByte2; MSEHasTransportGuidByte4; MSEHasTransportGuidByte0;
   MSEHasTransportGuidByte3; MSEHasGuidByte5; MSEHasGuidByte6; MSEMovementFlags;
   MSEHasFallDirection; MSEHasOrientation; MSEFlushBits; MSEOrientation; MSEFallSinAngle;
   MSEFallHorizontalSpeed; MSEFallCosAngle; MSEFallTime; MSEFallVerticalSpeed; MSEGuidByte3;
   MSETransportGuidByte5; MSETransportGuidByte7; MSETransportSeat; MSETransportGuidByte3;
   MSETransportGuidByte6; MSETransportPositionZ; MSETransportGuidByte1; MSETransportPositionY;
   MSETransportPositionX; MSETransportGuidByte2; MSETransportGuidByte0;
   MSETransportOrientation; MSETransportTime; MSETransportGuidByte4; MSEPitch; MSEPositionZ;
   MSETimestamp; MSEPositionX; MSEGuidByte4; MSEGuidByte6; MSEGuidByte7; MSEGuidByte2;
   MSEGuidByte1; MSEPositionY; MSEGuidByte0; MSEGuidByte5; MSEEnd].

Definition SplineMoveSetWalkSpeed : list MovementStatusElements :=
  [MSEHasGuidByte0; MSEHasGuidByte6; MSEHasGuidByte7; MSEHasGuidByte3; MSEHasGuidByte5;
   MSEHasGuidByte1; MSEHasGuidByte2; MSEHasGuidByte4; MSEGuidByte0; MSEGuidByte4; MSEGuidByte7;
   MSEGuidByte1; MSEGuidByte5; MSEGuidByte3; MSEExtraElement; MSEGuidByte6; MSEGuidByte2;
   MSEEnd].

Definition SplineMoveSetRunSpeed : list MovementStatusElements :=
  [MSEHasGuidByte4; MSEHasGuidByte0; MSEHasGuidByte5; MSEHasGuidByte7; MSEHasGuidByte6;
   MSEHasGuidByte3; MSEHasGuidByte1; MSEHasGuidByte2; MSEGuidByte0; MSEGuidByte7; MSEGuidByte6;
   MSEGuidByte5; MSEGuidByte3; MSEGuidByte4; MSEExtraElement; MSEGuidByte2; MSEGuidByte1;
   MSEEnd].

Definition SplineMoveSetRunBackSpeed : list MovementStatusElements :=
  [MSEHasGuidByte1; MSEHasGuidByte2; MSEHasGuidByte6; MSEHasGuidByte0; MSEHasGuidByte3;
   MSEHasGuidByte7; MSEHasGuidByte5; MSEHasGuidByte4; MSEGuidByte1; MSEExtraElement;
   MSEGuidByte2; MSEGuidByte4; MSEGuidByte0; MSEGuidByte3; MSEGuidByte6; MSEGuidByte5;
   MSEGuidByte7; MSEEnd].

Definition SplineMoveSetSwimSpeed : list MovementStatusElements :=
  [MSEHasGuidByte4; MSEHasGuidByte2; MSEHasGuidByte5; MSEHasGuidByte0; MSEHasGuidByte7;
   MSEHasGuidByte6; MSEHasGuidByte3; MSEHasGuidByte1; MSEGuidByte5; MSEGuidByte6; MSEGuidByte1;
   MSEGuidByte0; MSEGuidByte2; MSEGuidByte4; MSEExtraElement; MSEGuidByte7; MSEGuidByte3;
   MSEEnd].

Definition SplineMoveSetSwimBackSpeed : list MovementStatusElements :=
  [MSEHasGuidByte0; MSEHasGuidByte1; MSEHasGuidByte3; MSEHasGuidByte6; MSEHasGuidByte4;
   MSEHasGuidByte5; MSEHasGuidByte7; MSEHasGuidByte2; MSEGuidByte5; MSEGuidByte3; MSEGuidByte1;
   MSEGuidByte0; MSEGuidByte7; MSEGuidByte6; MSEExtraElement; MSEGuidByte4; MSEGuidByte2;
   MSEEnd].

Definition SplineMoveSetTurnRate : list MovementStatusElements :=
  [MSEHasGuidByte2; MSEHasGuidByte4; MSEHasGuidByte6; MSEHasGuidByte1; MSEHasGuidByte3;
   MSEHasGuidByte5; MSEHasGuidByte7; MSEHasGuidByte0; MSEExtraElement; MSEGuidByte1;
   MSEGuidByte5; MSEGuidByte3; MSEGuidByte2; MSEGuidByte7; MSEGuidByte4; MSEGuidByte6;
   MSEGuidByte0; MSEEnd].

Definition SplineMoveSetFlightSpeed : list MovementStatusElements :=
  [MSEHasGuidByte7; MSEHasGuidByte4; MSEHasGuidByte0; MSEHasGuidByte1; MSEHasGuidByte3;
   MSEHasGuidByte6; MSEHasGuidByte5; MSEHasGuidByte2; MSEGuidByte0; MSEGuidByte5; MSEGuidByte4;
   MSEGuidByte7; MSEGuidByte3; MSEGuidByte2; MSEGuidByte1; MSEGuidByte6; MSEExtraElement;
   MSEEnd].

Definition SplineMoveSetFlightBackSpeed : list MovementStatusElements :=
  [MSEHasGuidByte2; MSEHasGuidByte1; MSEHasGuidByte6; MSEHasGuidByte5; MSEHasGuidByte0;
   MSEHasGuidByte3; MSEHasGuidByte4; MSEHasGuidByte7; MSEGuidByte5; MSEExtraElement;
   MSEGuidByte6; MSEGuidByte1; MSEGuidByte0; MSEGuidByte2; MSEGuidByte3; MSEGuidByte7;
   MSEGuidByte4; MSEEnd].

Definition SplineMoveSetPitchRate : list MovementStatusElements :=
  [MSEHasGuidByte3; MSEHasGuidByte5; MSEHasGuidByte6; MSEHasGuidByte1; MSEHasGuidByte0;
   MSEHasGuidByte4; MSEHasGuidByte7; MSEHasGuidByte2; MSEGuidByte1; MSEGuidByte5; MSEGuidByte7;
   MSEGuidByte0; MSEGuidByte6; MSEGuidByte3; MSEGuidByte2; MSEExtraElement; MSEGuidByte4;
   MSEEnd].

Definition MoveSetWalkSpeed : list MovementStatusElements :=
  [MSEHasGuidByte0; MSEHasGuidByte4; MSEHasGuidByte5; MSEHasGuidByte2; MSEHasGuidByte3;
   MSEHasGuidByte1; MSEHasGuidByte6; MSEHasGuidByte7; MSEGuidByte6; MSEGuidByte1; MSEGuidByte5;
   MSEExtraElement; MSEGuidByte2; MSECounter; MSEGuidByte4; MSEGuidByte0; MSEGuidByte7;
   MSEGuidByte3; MSEEnd].

Definition MoveSetRunSpeed : list MovementStatusElements :=
  [MSEHasGuidByte6; MSEHasGuidByte1; MSEHasGuidByte5; MSEHasGuidByte2; MSEHasGuidByte7;
   MSEHasGuidByte0; MSEHasGuidByte3; MSEHasGuidByte4; MSEGuidByte5; MSEGuidByte3; MSEGuidByte1;
   MSEGuidByte4; MSECounter; MSEExtraElement; MSEGuidByte6; MSEGuidByte0; MSEGuidByte7;
   MSEGuidByte2; MSEEnd].

Definition MoveSetRunBackSpeed : list MovementStatusElements :=
  [MSEHasGuidByte0; MSEHasGuidByte6; MSEHasGuidByte2; MSEHasGuidByte1; MSEHasGuidByte3;
   MSEHasGuidByte4; MSEHasGuidByte5; MSEHasGuidByte7; MSEGuidByte5; MSECounter;
   MSEExtraElement; MSEGuidByte0; MSEGuidByte4; MSEGuidByte7; MSEGuidByte3; MSEGuidByte1;
   MSEGuidByte2; MSEGuidByte6; MSEEnd].

Definition MoveSetSwimSpeed : list MovementStatusElements :=
  [MSEHasGuidByte5; MSEHasGuidByte4; MSEHasGuidByte7; MSEHasGuidByte3; MSEHasGuidByte2;
   MSEHasGuidByte0; MSEHasGuidByte1; MSEHasGuidByte6; MSEGuidByte0; MSECounter; MSEGuidByte6;
   MSEGuidByte3; MSEGuidByte5; MSEGuidByte2; MSEExtraElement; MSEGuidByte1; MSEGuidByte7;
   MSEGuidByte4; MSEEnd].

Definition MoveSetSwimBackSpeed : list MovementStatusElements :=
  [MSEHasGuidByte4; MSEHasGuidByte2; MSEHasGuidByte3; MSEHasGuidByte6; MSEHasGuidByte5;
   MSEHasGuidByte1; MSEHasGuidByte0; MSEHasGuidByte7; MSECounter; MSEGuidByte0; MSEGuidByte3;
   MSEGuidByte4; MSEGuidByte6; MSEGuidByte5; MSEGuidByte1; MSEExtraElement; MSEGuidByte7;
   MSEGuidByte2; MSEEnd].

Definition MoveSetTurnRate : list MovementStatusElements :=
  [MSEHasGuidByte7; MSEHasGuidByte2; MSEHasGuidByte1; MSEHasGuidByte0; MSEHasGuidByte4;
   MSEHasGuidByte5; MSEHasGuidByte6; MSEHasGuidByte3; MSEGuidByte5; MSEGuidByte7; MSEGuidByte2;
   MSEExtraElement; MSEGuidByte3; MSEGuidByte1; MSEGuidByte0; MSECounter; MSEGuidByte6;
   MSEGuidByte4; MSEEnd].

Definition MoveSetFlightSpeed : list MovementStatusElements :=
  [MSEHasGuidByte0; MSEHasGuidByte5; MSEHasGuidByte1; MSEHasGuidByte6; MSEHasGuidByte3;
   MSEHasGuidByte2; MSEHasGuidByte7; MSEHasGuidByte4; MSEGuidByte0; MSEGuidByte1; MSEGuidByte7;
   MSEGuidByte5; MSEExtraElement; MSECounter; MSEGuidByte2; MSEGuidByte6; MSEGuidByte3;
   MSEGuidByte4; MSEEnd].

Definition MoveSetFlightBackSpeed : list MovementStatusElements :=
  [MSEHasGuidByte1; MSEHasGuidByte2; MSEHasGuidByte6; MSEHasGuidByte4; MSEHasGuidByte7;
   MSEHasGuidByte3; MSEHasGuidByte0; MSEHasGuidByte5; MSEGuidByte3; MSECounter; MSEGuidByte6;
   MSEExtraElement; MSEGuidByte1; MSEGuidByte2; MSEGuidByte4; MSEGuidByte0; MSEGuidByte5;
   MSEGuidByte7; MSEEnd].

Definition MoveSetPitchRate : list MovementStatusElements :=
  [MSEHasGuidByte1; MSEHasGuidByte2; MSEHasGuidByte6; MSEHasGuidByte7; MSEHasGuidByte0;
   MSEHasGuidByte3; MSEHasGuidByte5; MSEHasGuidByte4; MSEExtraElement; MSEGuidByte6;
   MSEGuidByte4; MSEGuidByte0; MSECounter; MSEGuidByte1; MSEGuidByte2; MSEGuidByte7;
   MSEGuidByte3; MSEGuidByte5; MSEEnd].

Definition SplineMoveSetWalkMode : list MovementStatusElements :=
  [MSEHasGuidByte7; MSEHasGuidByte6; MSEHasGuidByte5; MSEHasGuidByte1; MSEHasGuidByte3;
   MSEHasGuidByte4; MSEHasGuidByte2; MSEHasGuidByte0; MSEGuidByte4; MSEGuidByte2; MSEGuidByte1;
   MSEGuidByte6; MSEGuidByte5; MSEGuidByte0; MSEGuidByte7; MSEGuidByte3; MSEEnd].

Definition SplineMoveSetRunMode : list MovementStatusElements :=
  [MSEHasGuidByte5; MSEHasGuidByte6; MSEHasGuidByte3; MSEHasGuidByte7; MSEHasGuidByte2;
   MSEHasGuidByte0; MSEHasGuidByte4; MSEHasGuidByte1; MSEGuidByte7; MSEGuidByte0; MSEGuidByte4;
   MSEGuidByte6; MSEGuidByte5; MSEGuidByte1; MSEGuidByte2; MSEGuidByte3; MSEEnd].

Definition SplineMoveGravityDisable : list MovementStatusElements :=
  [MSEHasGuidByte7; MSEHasGuidByte3; MSEHasGuidByte4; MSEHasGuidByte2; MSEHasGuidByte5;
   MSEHasGuidByte1; MSEHasGuidByte0; MSEHasGuidByte6; MSEGuidByte7; MSEGuidByte1; MSEGuidByte3;
   MSEGuidByte4; MSEGuidByte6; MSEGuidByte2; MSEGuidByte5; MSEGuidByte0; MSEEnd].

Definition SplineMoveGravityEnable : list MovementStatusElements :=
  [MSEHasGuidByte5; MSEHasGuidByte4; MSEHasGuidByte7; MSEHasGuidByte1; MSEHasGuidByte3;
   MSEHasGuidByte6; MSEHasGuidByte2; MSEHasGuidByte0; MSEGuidByte7; MSEGuidByte3; MSEGuidByte4;
   MSEGuidByte2; MSEGuidByte1; MSEGuidByte6; MSEGuidByte0; MSEGuidByte5; MSEEnd].

Definition SplineMoveSetHover : list MovementStatusElements :=
  [MSEHasGuidByte3; MSEHasGuidByte7; MSEHasGuidByte0; MSEHasGuidByte1; MSEHasGuidByte4;
   MSEHasGuidByte6; MSEHasGuidByte2; MSEHasGuidByte5; MSEGuidByte2; MSEGuidByte4; MSEGuidByte3;
   MSEGuidByte1; MSEGuidByte7; MSEGuidByte0; MSEGuidByte5; MSEGuidByte6; MSEEnd].

Definition SplineMoveUnsetHover : list MovementStatusElements :=
  [MSEHasGuidByte6; MSEHasGuidByte7; MSEHasGuidByte4; MSEHasGuidByte0; MSEHasGuidByte3;
   MSEHasGuidByte1; MSEHasGuidByte5; MSEHasGuidByte2; MSEGuidByte4; MSEGuidByte5; MSEGuidByte3;
   MSEGuidByte0; MSEGuidByte2; MSEGuidByte7; MSEGuidByte6; MSEGuidByte1; MSEEnd].

Definition SplineMoveStartSwim : list MovementStatusElements :=
  [MSEHasGuidByte1; MSEHasGuidByte6; MSEHasGuidByte0; MSEHasGuidByte7; MSEHasGuidByte3;
   MSEHasGuidByte5; MSEHasGuidByte2; MSEHasGuidByte4; MSEGuidByte3; MSEGuidByte7; MSEGuidByte2;
   MSEGuidByte5; MSEGuidByte6; MSEGuidByte4; MSEGuidByte1; MSEGuidByte0; MSEEnd].

Definition SplineMoveStopSwim : list MovementStatusElements :=
  [MSEHasGuidByte4; MSEHasGuidByte1; MSEHasGuidByte5; MSEHasGuidByte3; MSEHasGuidByte0;
   MSEHasGuidByte7; MSEHasGuidByte2; MSEHasGuidByte6; MSEGuidByte6; MSEGuidByte0; MSEGuidByte7;
   MSEGuidByte2; MSEGuidByte3; MSEGuidByte1; MSEGuidByte5; MSEGuidByte4; MSEEnd].

Definition SplineMoveSetFlying : list MovementStatusElements :=
  [MSEHasGuidByte0; MSEHasGuidByte4; MSEHasGuidByte1; MSEHasGuidByte6; MSEHasGuidByte7;
   MSEHasGuidByte2; MSEHasGuidByte3; MSEHasGuidByte5; MSEGuidByte7; MSEGuidByte0; MSEGuidByte5;
   MSEGuidByte6; MSEGuidByte4; MSEGuidByte1; MSEGuidByte3; MSEGuidByte2; MSEEnd].

Definition SplineMoveUnsetFlying : list MovementStatusElements :=
  [MSEHasGuidByte5; MSEHasGuidByte0; MSEHasGuidByte4; MSEHasGuidByte7; MSEHasGuidByte2;
   MSEHasGuidByte3; MSEHasGuidByte1; MSEHasGuidByte6; MSEGuidByte7; MSEGuidByte2; MSEGuidByte3;
   MSEGuidByte4; MSEGuidByte5; MSEGuidByte1; MSEGuidByte6; MSEGuidByte0; MSEEnd].

Definition SplineMoveSetWaterWalk : list MovementStatusElements :=
  [MSEHasGuidByte6; MSEHasGuidByte1; MSEHasGuidByte4; MSEHasGuidByte2; MSEHasGuidByte3;
   MSEHasGuidByte7; MSEHasGuidByte5; MSEHasGuidByte0; MSEGuidByte0; MSEGuidByte6; MSEGuidByte3;
   MSEGuidByte7; MSEGuidByte4; MSEGuidByte2; MSEGuidByte5; MSEGuidByte1; MSEEnd].

Definition SplineMoveSetLandWalk : list MovementStatusElements :=
  [MSEHasGuidByte5; MSEHasGuidByte0; MSEHasGuidByte4; MSEHasGuidByte6; MSEHasGuidByte7;
   MSEHasGuidByte2; MSEHasGuidByte3; MSEHasGuidByte1; MSEGuidByte5; MSEGuidByte7; MSEGuidByte3;
   MSEGuidByte4; MSEGuidByte1; MSEGuidByte2; MSEGuidByte0; MSEGuidByte6; MSEEnd].

Definition SplineMoveSetFeatherFall : list MovementStatusElements :=
  [MSEHasGuidByte3; MSEHasGuidByte2; MSEHasGuidByte7; MSEHasGuidByte5; MSEHasGuidByte4;
   MSEHasGuidByte6; MSEHasGuidByte1; MSEHasGuidByte0; MSEGuidByte1; MSEGuidByte4; MSEGuidByte7;
   MSEGuidByte6; MSEGuidByte2; MSEGuidByte0; MSEGuidByte5; MSEGuidByte3; MSEEnd].

Definition SplineMoveSetNormalFall : list MovementStatusElements :=
  [MSEHasGuidByte3; MSEHasGuidByte5; MSEHasGuidByte1; MSEHasGuidByte0; MSEHasGuidByte7;
   MSEHasGuidByte6; MSEHasGuidByte2; MSEHasGuidByte4; MSEGuidByte7; MSEGuidByte6; MSEGuidByte2;
   MSEGuidByte0; MSEGuidByte5; MSEGuidByte4; MSEGuidByte3; MSEGuidByte1; MSEEnd].

Definition SplineMoveRoot : list MovementStatusElements :=
  [MSEHasGuidByte5; MSEHasGuidByte4; MSEHasGuidByte6; MSEHasGuidByte1; MSEHasGuidByte3;
   MSEHasGuidByte7; MSEHasGuidByte2; MSEHasGuidByte0; MSEGuidByte2; MSEGuidByte1; MSEGuidByte7;
   MSEGuidByte3; MSEGuidByte5; MSEGuidByte0; MSEGuidByte6; MSEGuidByte4; MSEEnd].

Definition SplineMoveUnroot : list MovementStatusElements :=
  [MSEHasGuidByte0; MSEHasGuidByte1; MSEHasGuidByte6; MSEHasGuidByte5; MSEHasGuidByte3;
   MSEHasGuidByte2; MSEHasGuidByte7; MSEHasGuidByte4; MSEGuidByte6; MSEGuidByte3; MSEGuidByte1;
   MSEGuidByte5; MSEGuidByte2; MSEGuidByte0; MSEGuidByte7; MSEGuidByte4; MSEEnd].

Definition MoveSetCanFly : list MovementStatusElements :=
  [MSEHasGuidByte1; MSEHasGuidByte6; MSEHasGuidByte5; MSEHasGuidByte0; MSEHasGuidByte7;
   MSEHasGuidByte4; MSEHasGuidByte2; MSEHasGuidByte3; MSEGuidByte6; MSEGuidByte3; MSECounter;
   MSEGuidByte2; MSEGuidByte1; MSEGuidByte4; MSEGuidByte7; MSEGuidByte0; MSEGuidByte5; MSEEnd].

Definition MoveUnsetCanFly : list MovementStatusElements :=
  [MSEHasGuidByte1; MSEHasGuidByte4; MSEHasGuidByte2; MSEHasGuidByte5; MSEHasGuidByte0;
   MSEHasGuidByte3; MSEHasGuidByte6; MSEHasGuidByte7; MSEGuidByte4; MSEGuidByte6; MSECounter;
   MSEGuidByte1; MSEGuidByte0; MSEGuidByte2; MSEGuidByte3; MSEGuidByte5; MSEGuidByte7; MSEEnd].

Definition MoveSetHover : list MovementStatusElements :=
  [MSEHasGuidByte1; MSEHasGuidByte4; MSEHasGuidByte2; MSEHasGuidByte3; MSEHasGuidByte0;
   MSEHasGuidByte5; MSEHasGuidByte6; MSEHasGuidByte7; MSEGuidByte5; MSEGuidByte4; MSEGuidByte1;
   MSEGuidByte2; MSEGuidByte3; MSEGuidByte6; MSEGuidByte0; MSEGuidByte7; MSECounter; MSEEnd].

Definition MoveUnsetHover : list MovementStatusElements :=
  [MSEHasGuidByte4; MSEHasGuidByte6; MSEHasGuidByte3; MSEHasGuidByte1; MSEHasGuidByte2;
   MSEHasGuidByte7; MSEHasGuidByte5; MSEHasGuidByte0; MSEGuidByte4; MSEGuidByte5; MSEGuidByte3;
   MSEGuidByte6; MSEGuidByte7; MSEGuidByte1; MSEGuidByte2; MSEGuidByte0; MSECounter; MSEEnd].

Definition MoveWaterWalk : list MovementStatusElements :=
  [MSEHasGuidByte4; MSEHasGuidByte7; MSEHasGuidByte6; MSEHasGuidByte0; MSEHasGuidByte1;
   MSEHasGuidByte3; MSEHasGuidByte5; MSEHasGuidByte2; MSEGuidByte0; MSEGuidByte5; MSEGuidByte2;
   MSECounter; MSEGuidByte7; MSEGuidByte3; MSEGuidByte4; MSEGuidByte1; MSEGuidByte6; MSEEnd].

Definition MoveLandWalk : list MovementStatusElements :=
  [MSEHasGuidByte5; MSEHasGuidByte1; MSEHasGuidByte6; MSEHasGuidByte2; MSEHasGuidByte3;
   MSEHasGuidByte4; MSEHasGuidByte0; MSEHasGuidByte7; MSEGuidByte6; MSEGuidByte1; MSEGuidByte7;
   MSEGuidByte5; MSEGuidByte4; MSEGuidByte0; MSEGuidByte3; MSEGuidByte2; MSECounter; MSEEnd].

Definition MoveFeatherFall : list MovementStatusElements :=
  [MSEHasGuidByte3; MSEHasGuidByte1; MSEHasGuidByte7; MSEHasGuidByte0; MSEHasGuidByte4;
   MSEHasGuidByte2; MSEHasGuidByte5; MSEHasGuidByte6; MSEGuidByte5; MSEGuidByte7; MSEGuidByte2;
   MSECounter; MSEGuidByte0; MSEGuidByte3; MSEGuidByte4; MSEGuidByte1; MSEGuidByte6; MSEEnd].

Definition MoveNormalFall : list MovementStatusElements :=
  [MSECounter; MSEHasGuidByte3; MSEHasGuidByte0; MSEHasGuidByte1; MSEHasGuidByte5;
   MSEHasGuidByte7; MSEHasGuidByte4; MSEHasGuidByte6; MSEHasGuidByte2; MSEGuidByte2;
   MSEGuidByte7; MSEGuidByte1; MSEGuidByte4; MSEGuidByte5; MSEGuidByte0; MSEGuidByte3;
   MSEGuidByte6; MSEEnd].

Definition MoveRoot : list MovementStatusElements :=
  [MSEHasGuidByte2; MSEHasGuidByte7; MSEHasGuidByte6; MSEHasGuidByte0; MSEHasGuidByte5;
   MSEHasGuidByte4; MSEHasGuidByte1; MSEHasGuidByte3; MSEGuidByte1; MSEGuidByte0; MSEGuidByte2;
   MSEGuidByte5; MSECounter; MSEGuidByte3; MSEGuidByte4; MSEGuidByte7; MSEGuidByte6; MSEEnd].

Definition MoveUnroot : list MovementStatusElements :=
  [MSEHasGuidByte0; MSEHasGuidByte1; MSEHasGuidByte3; MSEHasGuidByte7; MSEHasGuidByte5;
   MSEHasGuidByte2; MSEHasGuidByte4; MSEHasGuidByte6; MSEGuidByte3; MSEGuidByte6; MSEGuidByte1;
   MSECounter; MSEGuidByte2; MSEGuidByte0; MSEGuidByte7; MSEGuidByte4; MSEGuidByte5; MSEEnd].

Definition ChangeSeatsOnControlledVehicle : list MovementStatusElements :=
  [MSEPositionY; MSEPositionX; MSEPositionZ; MSEExtraElement; MSEHasMovementFlags;
   MSEHasTransportData; MSEHasGuidByte2; MSEHasGuidByte6; MSEHasGuidByte4; MSEExtraElement;
   MSEExtraElement; MSEHasOrientation; MSEZeroBit; MSEExtraElement; MSEHasGuidByte7;
   MSEExtraElement; MSEHasTimestamp; MSEHasSplineElevation; MSEHasGuidByte5; MSEExtraElement;
   MSEHasMovementFlags2; MSEHasPitch; MSEExtraElement; MSEHasGuidByte0; MSEExtraElement;
   MSEHasFallData; MSEHasGuidByte1; MSEHasSpline; MSEMovementFlags; MSEExtraElement;
   MSEHasGuidByte3; MSEHasTransportGuidByte3; MSEHasTransportGuidByte0;
   MSEHasTransportGuidByte7; MSEHasTransportGuidByte5; MSEHasVehicleId;
   MSEHasTransportGuidByte1; MSEHasTransportGuidByte2; MSEHasTransportTime2;
   MSEHasTransportGuidByte4; MSEHasTransportGuidByte6; MSEMovementFlags2; MSEHasFallDirection;
   MSEExtraElement; MSEGuidByte7; MSEGuidByte5; MSEExtraElement; MSEExtraElement; MSEGuidByte6;
   MSEExtraElement; MSEExtraElement; MSEGuidByte3; MSEExtraElement; MSEGuidByte0;
   MSEExtraElement; MSEGuidByte4; MSEGuidByte1; MSEExtraElement; MSEGuidByte2; MSEPitch;
   MSEFallCosAngle; MSEFallSinAngle; MSEFallHorizontalSpeed; MSEFallTime; MSEFallVerticalSpeed;
   MSETransportGuidByte2; MSETransportTime2; MSETransportVehicleId; MSETransportGuidByte0;
   MSETransportTime; MSETransportSeat; MSETransportPositionX; MSETransportOrientation;
   MSETransportGuidByte7; MSETransportGuidByte4; MSETransportGuidByte3; MSETransportGuidByte5;
   MSETransportPositionZ; MSETransportGuidByte1; MSETransportGuidByte6; MSETransportPositionY;
   MSESplineElevation; MSEOrientation; MSETimestamp; MSEEnd].

Definition CastSpellEmbeddedMovement : list MovementStatusElements :=
  [MSEPositionZ; MSEPositionY; MSEPositionX; MSEHasFallData; MSEHasTimestamp;
   MSEHasOrientation; MSEZeroBit; MSEHasSpline; MSEHasGuidByte6; MSEHasGuidByte4;
   MSEHasMovementFlags2; MSEHasGuidByte3; MSEHasGuidByte5; MSEHasSplineElevation; MSEHasPitch;
   MSEHasGuidByte7; MSEHasTransportData; MSEHasGuidByte2; MSEHasMovementFlags; MSEHasGuidByte1;
   MSEHasGuidByte0; MSEHasTransportGuidByte6; MSEHasTransportGuidByte2;
   MSEHasTransportGuidByte5; MSEHasTransportTime2; MSEHasTransportGuidByte7;
   MSEHasTransportGuidByte4; MSEHasVehicleId; MSEHasTransportGuidByte0;
   MSEHasTransportGuidByte1; MSEHasTransportGuidByte3; MSEMovementFlags2; MSEMovementFlags;
   MSEHasFallDirection; MSEGuidByte1; MSEGuidByte4; MSEGuidByte7; MSEGuidByte3; MSEGuidByte0;
   MSEGuidByte2; MSEGuidByte5; MSEGuidByte6; MSETransportSeat; MSETransportOrientation;
   MSETransportTime; MSETransportGuidByte6; MSETransportGuidByte5; MSETransportVehicleId;
   MSETransportPositionX; MSETransportGuidByte4; MSETransportPositionZ; MSETransportGuidByte2;
   MSETransportGuidByte0; MSETransportTime2; MSETransportGuidByte1; MSETransportGuidByte3;
   MSETransportPositionY; MSETransportGuidByte7; MSEOrientation; MSESplineElevation;
   MSEFallTime; MSEFallHorizontalSpeed; MSEFallSinAngle; MSEFallCosAngle; MSEFallVerticalSpeed;
   MSETimestamp; MSEPitch; MSEEnd].

Definition MoveGravityDisable : list MovementStatusElements :=
  [MSEHasGuidByte0; MSEHasGuidByte1; MSEHasGuidByte5; MSEHasGuidByte7; MSEHasGuidByte6;
   MSEHasGuidByte4; MSEHasGuidByte3; MSEHasGuidByte2; MSEGuidByte7; MSEGuidByte2; MSEGuidByte0;
   MSECounter; MSEGuidByte5; MSEGuidByte1; MSEGuidByte3; MSEGuidByte4; MSEGuidByte6; MSEEnd].

Definition MoveGravityEnable : list MovementStatusElements :=
  [MSEHasGuidByte1; MSEHasGuidByte4; MSEHasGuidByte7; MSEHasGuidByte5; MSEHasGuidByte2;
   MSEHasGuidByte0; MSEHasGuidByte3; MSEHasGuidByte6; MSEGuidByte3; MSECounter; MSEGuidByte7;
   MSEGuidByte6; MSEGuidByte4; MSEGuidByte0; MSEGuidByte1; MSEGuidByte5; MSEGuidByte2; MSEEnd].

Definition MoveUpdateFlightBackSpeed : list MovementStatusElements :=
  [MSEPositionY; MSEExtraElement; MSEPositionX; MSEPositionZ; MSEHasGuidByte6; MSEHasGuidByte4;
   MSEHasPitch; MSEHasGuidByte7; MSEHasGuidByte1; MSEHasTransportData; MSEHasVehicleId;
   MSEHasTransportGuidByte4; MSEHasTransportGuidByte7; MSEHasTransportGuidByte6;
   MSEHasTransportGuidByte0; MSEOneBit; MSEHasTransportGuidByte2; MSEHasTransportGuidByte3;
   MSEHasTransportGuidByte5; MSEHasTransportTime2; MSEHasTransportGuidByte1; MSEHasGuidByte5;
   MSEHasGuidByte0; MSEHasTimestamp; MSEHasMovementFlags; MSEMovementFlags; MSEHasGuidByte3;
   MSEHasMovementFlags2; MSEZeroBit; MSEHasSplineElevation; MSEMovementFlags2; MSEHasGuidByte2;
   MSEHasFallData; MSEHasOrientation; MSEHasFallDirection; MSEFlushBits; MSEFallCosAngle;
   MSEFallSinAngle; MSEFallVerticalSpeed; MSEFallTime; MSEFallHorizontalSpeed;
   MSETransportPositionX; MSETransportTime; MSETransportOrientation; MSETransportGuidByte5;
   MSETransportPositionZ; MSETransportVehicleId; MSETransportGuidByte7; MSETransportGuidByte1;
   MSETransportGuidByte3; MSETransportGuidByte6; MSETransportGuidByte0; MSETransportGuidByte2;
   MSETransportPositionY; MSETransportGuidByte4; MSEGuidByte1; MSEGuidByte4; MSEOrientation;
   MSEGuidByte5; MSETimestamp; MSESplineElevation; MSEGuidByte6; MSEPitch; MSEGuidByte3;
   MSEGuidByte2; MSEGuidByte0; MSEGuidByte7; MSEEnd].

Definition MoveSetCanTransitionBetweenSwimAndFly : list MovementStatusElements :=
  [MSEHasGuidByte4; MSEHasGuidByte5; MSEHasGuidByte7; MSEHasGuidByte0; MSEHasGuidByte2;
   MSEHasGuidByte6; MSEHasGuidByte1; MSEHasGuidByte3; MSEGuidByte0; MSEGuidByte6; MSEGuidByte1;
   MSEGuidByte2; MSEGuidByte5; MSEGuidByte4; MSEGuidByte7; MSECounter; MSEGuidByte3; MSEEnd].

Definition MoveUnsetCanTransitionBetweenSwimAndFly : list MovementStatusElements :=
  [MSEHasGuidByte3; MSEHasGuidByte4; MSEHasGuidByte7; MSEHasGuidByte0; MSEHasGuidByte6;
   MSEHasGuidByte1; MSEHasGuidByte5; MSEHasGuidByte2; MSEGuidByte5; MSEGuidByte2; MSEGuidByte7;
   MSEGuidByte0; MSECounter; MSEGuidByte6; MSEGuidByte4; MSEGuidByte3; MSEGuidByte1; MSEEnd].

(** The cases of [GetMovementStatusElementsSequence]. *)
Definition movement_sequences : list (Z * list MovementStatusElements) :=
  [(MSG_MOVE_FALL_LAND, MovementFallLand);
   (MSG_MOVE_HEARTBEAT, MovementHeartBeat);
   (MSG_MOVE_JUMP, MovementJump);
   (MSG_MOVE_SET_FACING, MovementSetFacing);
   (MSG_MOVE_SET_PITCH, MovementSetPitch);
   (MSG_MOVE_START_ASCEND, MovementStartAscend);
   (MSG_MOVE_START_BACKWARD, MovementStartBackward);
   (MSG_MOVE_START_DESCEND, MovementStartDescend);
   (MSG_MOVE_START_FORWARD, MovementStartForward);
   (MSG_MOVE_START_PITCH_DOWN, MovementStartPitchDown);
   (MSG_MOVE_START_PITCH_UP, MovementStartPitchUp);
   (MSG_MOVE_START_STRAFE_LEFT, MovementStartStrafeLeft);
   (MSG_MOVE_START_STRAFE_RIGHT, MovementStartStrafeRight);
   (MSG_MOVE_START_SWIM, MovementStartSwim);
   (MSG_MOVE_START_TURN_LEFT, MovementStartTurnLeft);
   (MSG_MOVE_START_TURN_RIGHT, MovementStartTurnRight);
   (MSG_MOVE_STOP, MovementStop);
   (MSG_MOVE_STOP_ASCEND, MovementStopAscend);
   (MSG_MOVE_STOP_PITCH, MovementStopPitch);
   (MSG_MOVE_STOP_STRAFE, MovementStopStrafe);
   (MSG_MOVE_STOP_SWIM, MovementStopSwim);
   (MSG_MOVE_STOP_TURN, MovementStopTurn);
   (CMSG_MOVE_CHNG_TRANSPORT, MoveChngTransport);
   (CMSG_MOVE_SPLINE_DONE, MoveSplineDone);
   (CMSG_MOVE_NOT_ACTIVE_MOVER, MoveNotActiveMover);
   (CMSG_DISMISS_CONTROLLED_VEHICLE, DismissControlledVehicle);
   (CMSG_FORCE_MOVE_ROOT_ACK, ForceMoveRootAck);
   (CMSG_FORCE_MOVE_UNROOT_ACK, ForceMoveUnrootAck);
   (CMSG_MOVE_FALL_RESET, MovementFallReset);
   (CMSG_MOVE_FEATHER_FALL_ACK, MovementFeatherFallAck);
   (CMSG_MOVE_FORCE_FLIGHT_SPEED_CHANGE_ACK, MovementForceFlightSpeedChangeAck);
   (CMSG_MOVE_FORCE_RUN_BACK_SPEED_CHANGE_ACK, MovementForceRunBackSpeedChangeAck);
   (CMSG_MOVE_FORCE_RUN_SPEED_CHANGE_ACK, MovementForceRunSpeedChangeAck);
   (CMSG_MOVE_FORCE_SWIM_SPEED_CHANGE_ACK, MovementForceSwimSpeedChangeAck);
   (CMSG_MOVE_FORCE_SWIM_BACK_SPEED_CHANGE_ACK, MoveForceSwimBackSpeedChangeAck);
   (CMSG_MOVE_FORCE_FLIGHT_BACK_SPEED_CHANGE_ACK, MoveForceFlightBackSpeedChangeAck);
   (CMSG_MOVE_FORCE_WALK_SPEED_CHANGE_ACK, MovementForceWalkSpeedChangeAck);
   (CMSG_MOVE_GRAVITY_DISABLE_ACK, MovementGravityDisableAck);
   (CMSG_MOVE_GRAVITY_ENABLE_ACK, MovementGravityEnableAck);
   (CMSG_MOVE_HOVER_ACK, MovementHoverAck);
   (CMSG_MOVE_KNOCK_BACK_ACK, MovementKnockBackAck);
   (CMSG_MOVE_SET_CAN_FLY, MovementSetCanFly);
   (CMSG_MOVE_SET_CAN_FLY_ACK, MovementSetCanFlyAck);
   (CMSG_MOVE_SET_CAN_TRANSITION_BETWEEN_SWIM_AND_FLY_ACK, MovementSetCanTransitionBetweenSwimAndFlyAck);
   (CMSG_MOVE_SET_COLLISION_HEIGHT_ACK, MovementSetCollisionHeightAck);
   (SMSG_MOVE_SET_COLLISION_HEIGHT, MovementSetCollisionHeight);
   (SMSG_MOVE_UPDATE_COLLISION_HEIGHT, MovementUpdateCollisionHeight);
   (CMSG_MOVE_WATER_WALK_ACK, MovementWaterWalkAck);
   (MSG_MOVE_SET_RUN_MODE, MovementSetRunMode);
   (MSG_MOVE_SET_WALK_MODE, MovementSetWalkMode);
   (SMSG_MOVE_UPDATE, MovementUpdate);
   (SMSG_MOVE_UPDATE_FLIGHT_SPEED, MovementUpdateFlightSpeed);
   (SMSG_MOVE_UPDATE_RUN_SPEED, MovementUpdateRunSpeed);
   (SMSG_MOVE_UPDATE_KNOCK_BACK, MovementUpdateKnockBack);
   (SMSG_MOVE_UPDATE_RUN_BACK_SPEED, MovementUpdateRunBackSpeed);
   (SMSG_MOVE_UPDATE_SWIM_SPEED, MovementUpdateSwimSpeed);
   (SMSG_MOVE_UPDATE_SWIM_BACK_SPEED, MoveUpdateSwimBackSpeed);
   (SMSG_MOVE_UPDATE_WALK_SPEED, MovementUpdateWalkSpeed);
   (SMSG_SPLINE_MOVE_SET_WALK_SPEED, SplineMoveSetWalkSpeed);
   (SMSG_SPLINE_MOVE_SET_RUN_SPEED, SplineMoveSetRunSpeed);
   (SMSG_SPLINE_MOVE_SET_RUN_BACK_SPEED, SplineMoveSetRunBackSpeed);
   (SMSG_SPLINE_MOVE_SET_SWIM_SPEED, SplineMoveSetSwimSpeed);
   (SMSG_SPLINE_MOVE_SET_SWIM_BACK_SPEED, SplineMoveSetSwimBackSpeed);
   (SMSG_SPLINE_MOVE_SET_TURN_RATE, SplineMoveSetTurnRate);
   (SMSG_SPLINE_MOVE_SET_FLIGHT_SPEED, SplineMoveSetFlightSpeed);
   (SMSG_SPLINE_MOVE_SET_FLIGHT_BACK_SPEED, SplineMoveSetFlightBackSpeed);
   (SMSG_SPLINE_MOVE_SET_PITCH_RATE, SplineMoveSetPitchRate);
   (SMSG_MOVE_SET_WALK_SPEED, MoveSetWalkSpeed);
   (SMSG_MOVE_SET_RUN_SPEED, MoveSetRunSpeed);
   (SMSG_MOVE_SET_RUN_BACK_SPEED, MoveSetRunBackSpeed);
   (SMSG_MOVE_SET_SWIM_SPEED, MoveSetSwimSpeed);
   (SMSG_MOVE_SET_SWIM_BACK_SPEED, MoveSetSwimBackSpeed);
   (SMSG_MOVE_SET_TURN_RATE, MoveSetTurnRate);
   (SMSG_MOVE_SET_FLIGHT_SPEED, MoveSetFlightSpeed);
   (SMSG_MOVE_SET_FLIGHT_BACK_SPEED, MoveSetFlightBackSpeed);
   (SMSG_MOVE_SET_PITCH_RATE, MoveSetPitchRate);
   (SMSG_SPLINE_MOVE_SET_WALK_MODE, SplineMoveSetWalkMode);
   (SMSG_SPLINE_MOVE_SET_RUN_MODE, SplineMoveSetRunMode);
   (SMSG_SPLINE_MOVE_GRAVITY_DISABLE, SplineMoveGravityDisable);
   (SMSG_SPLINE_MOVE_GRAVITY_ENABLE, SplineMoveGravityEnable);
   (SMSG_SPLINE_MOVE_SET_HOVER, SplineMoveSetHover);
   (SMSG_SPLINE_MOVE_UNSET_HOVER, SplineMoveUnsetHover);
   (SMSG_SPLINE_MOVE_START_SWIM, SplineMoveStartSwim);
   (SMSG_SPLINE_MOVE_STOP_SWIM, SplineMoveStopSwim);
   (SMSG_SPLINE_MOVE_SET_FLYING, SplineMoveSetFlying);
   (SMSG_SPLINE_MOVE_UNSET_FLYING, SplineMoveUnsetFlying);
   (SMSG_SPLINE_MOVE_SET_WATER_WALK, SplineMoveSetWaterWalk);
   (SMSG_SPLINE_MOVE_SET_LAND_WALK, SplineMoveSetLandWalk);
   (SMSG_SPLINE_MOVE_SET_FEATHER_FALL, SplineMoveSetFeatherFall);
   (SMSG_SPLINE_MOVE_SET_NORMAL_FALL, SplineMoveSetNormalFall);
   (SMSG_SPLINE_MOVE_ROOT, SplineMoveRoot);
   (SMSG_SPLINE_MOVE_UNROOT, SplineMoveUnroot);
   (SMSG_MOVE_SET_CAN_FLY, MoveSetCanFly);
   (SMSG_MOVE_UNSET_CAN_FLY, MoveUnsetCanFly);
   (SMSG_MOVE_SET_HOVER, MoveSetHover);
   (SMSG_MOVE_UNSET_HOVER, MoveUnsetHover);
   (SMSG_MOVE_WATER_WALK, MoveWaterWalk);
   (SMSG_MOVE_LAND_WALK, MoveLandWalk);
   (SMSG_MOVE_FEATHER_FALL, MoveFeatherFall);
   (SMSG_MOVE_NORMAL_FALL, MoveNormalFall);
   (SMSG_MOVE_ROOT, MoveRoot);
   (SMSG_MOVE_UNROOT, MoveUnroot);
   (CMSG_CHANGE_SEATS_ON_CONTROLLED_VEHICLE, ChangeSeatsOnControlledVehicle);
   (CMSG_CAST_SPELL, CastSpellEmbeddedMovement);
   (CMSG_PET_CAST_SPELL, CastSpellEmbeddedMovement);
   (CMSG_USE_ITEM, CastSpellEmbeddedMovement);
   (SMSG_MOVE_GRAVITY_DISABLE, MoveGravityDisable);
   (SMSG_MOVE_GRAVITY_ENABLE, MoveGravityEnable);
   (SMSG_MOVE_UPDATE_FLIGHT_BACK_SPEED, MoveUpdateFlightBackSpeed);
   (SMSG_MOVE_SET_CAN_TRANSITION_BETWEEN_SWIM_AND_FLY, MoveSetCanTransitionBetweenSwimAndFly);
   (SMSG_MOVE_UNSET_CAN_TRANSITION_BETWEEN_SWIM_AND_FLY, MoveUnsetCanTransitionBetweenSwimAndFly)].

Definition GetMovementStatusElementsSequence (opcode : Z) : option (list MovementStatusElements) :=
  (fun c => c.2.2) <$> list_find (fun c => c.1 = opcode) movement_sequences.
