(* ===== verification/MovementInfo.v ===== *)
(** The state a movement packet carries:
    [src/src/server/game/Entities/Object/MovementInfo.h], with the parts of
    [Position.h], [Position.cpp], [ObjectGuid.h] and the vendored
    [src/dep/g3dlite/include/G3D/g3dmath.h] it uses.

    A [float] of the state is its 32-bit pattern, as it travels; arithmetic
    decodes it to the standard's [spec_float] and encodes the result. Of the
    results that are not a number only the fact is modelled, not their
    payload. *)
From Stdlib Require Import ZArith Lia.
From Corelib Require Import SpecFloat.
From stdpp Require Import base list.
From S2P Require Import Prelude Doubles ByteBuffer.

Open Scope Z_scope.

(** ** Patterns and values *)

Definition f32_of_bits (x : Z) : f32 :=
  let s := Z.testbit x 31 in
  let e := (x / 2 ^ 23) mod 2 ^ 8 in
  let m := x mod 2 ^ 23 in
  if e =? 255 then (if m =? 0 then S754_infinity s else S754_nan)
  else match (if e =? 0 then m else m + 2 ^ 23) with
       | Zpos p => S754_finite s p (if e =? 0 then -149 else e - 150)
       | _ => S754_zero s
       end.

Definition sign_bit (s : bool) : Z := if s then 2 ^ 31 else 0.

Definition f32_to_bits (x : f32) : Z :=
  match x with
  | S754_zero s => sign_bit s
  | S754_infinity s => sign_bit s + 255 * 2 ^ 23
  | S754_nan => 255 * 2 ^ 23 + 2 ^ 22
  | S754_finite s m e =>
      sign_bit s + (if Zpos m <? 2 ^ 23 then Zpos m else (e + 150) * 2 ^ 23 + (Zpos m - 2 ^ 23))
  end.

(** The conversion of a [float] to a [double]. *)
Definition f64_of_f32 (x : f32) : f64 :=
  match x with
  | S754_finite s m e => binary_normalize 53 1024 (cond_Zopp s (Zpos m)) e s
  | S754_zero s => S754_zero s
  | S754_infinity s => S754_infinity s
  | S754_nan => S754_nan
  end.

Definition f64_add : f64 -> f64 -> f64 := SFadd 53 1024.
Definition f64_sub : f64 -> f64 -> f64 := SFsub 53 1024.
Definition f64_mul : f64 -> f64 -> f64 := SFmul 53 1024.
Definition f64_le : f64 -> f64 -> bool := SFleb.
Definition f64_eq : f64 -> f64 -> bool := SFeqb.

(** ** The standard library and G3D *)

(** [M_PI], and the [float] nearest to it. *)
Definition M_PI : f64 := decimal_to_f64 false 314159265358979323846 (-20).
Definition pi32 : f32 := f32_of_f64 M_PI.

(** [std::fmod] of two [float]s: the exact remainder, with the sign of the
    dividend. *)
Definition f32_fmod (x y : f32) : f32 :=
  match x, y with
  | S754_nan, _ | _, S754_nan | S754_infinity _, _ | _, S754_zero _ => S754_nan
  | S754_finite s m e, S754_finite _ n f =>
      if f32_lt (f32_abs x) (f32_abs y) then x else
      let g := Z.min e f in
      match (Zpos m * 2 ^ (e - g)) mod (Zpos n * 2 ^ (f - g)) with
      | Zpos r => binary_normalize 24 128 (cond_Zopp s (Zpos r)) g s
      | _ => S754_zero s
      end
  | _, _ => x
  end.

(** [fuzzyEpsilon32] and [fuzzyEpsilon64]. *)
Definition fuzzyEpsilon32 : f32 := f32_of_f64 (decimal_to_f64 false 1 (-5)).
Definition fuzzyEpsilon64 : f64 := decimal_to_f64 false 5 (-7).

Definition eps32 (a : f32) : f32 :=
  let aa := f32_add (f32_abs a) (f32_of_Z 1) in
  match aa with
  | S754_infinity false => fuzzyEpsilon32
  | _ => f32_mul fuzzyEpsilon32 aa
  end.

Definition eps64 (a : f64) : f64 :=
  let aa := f64_add (SFabs a) (f64_of_Z 1) in
  match aa with
  | S754_infinity false => fuzzyEpsilon64
  | _ => f64_mul fuzzyEpsilon64 aa
  end.

(** [fuzzyEq] of two [float]s. The difference is compared as a [double], which
    keeps its order. *)
Definition fuzzyEq (a b : f32) : bool :=
  f32_eq a b || f32_le (f32_abs (f32_sub a b)) (eps32 a).

(** [fuzzyNe] exists for [double]s only. *)
Definition fuzzyNe (a b : f32) : bool :=
  let a := f64_of_f32 a in
  let b := f64_of_f32 b in
  negb (f64_eq a b || f64_le (SFabs (f64_sub a b)) (eps64 a)).

(** [int(floor(x))], undefined when an [int] cannot hold it. *)
Definition iFloor (x : f64) : option Z :=
  match x with
  | S754_zero _ => Some 0
  | S754_finite s m e =>
      let n := cond_Zopp s (Zpos m) in
      let v := if 0 <=? e then n * 2 ^ e else n / 2 ^ (- e) in
      if (- 2 ^ 31 <=? v) && (v <? 2 ^ 31) then Some v else None
  | _ => None
  end.

(** [wrap] of [float]s. *)
Definition wrap (t lo hi : f32) : option f32 :=
  if f32_le lo t && f32_lt t hi then Some t
  else
    let interval := f32_sub hi lo in
    match iFloor (f64_of_f32 (f32_div (f32_sub t lo) interval)) with
    | Some k => Some (f32_sub t (f32_mul interval (f32_of_Z k)))
    | None => None
    end.

(** ** Positions *)

Definition two_pi : f32 := f32_mul (f32_of_Z 2) pi32.

(** [Position::NormalizeOrientation]. *)
Definition NormalizeOrientation (o : f32) : f32 :=
  if f32_lt o f32_zero then
    let m := f32_mul o (f32_of_Z (-1)) in
    let m := f32_fmod m two_pi in
    f32_add (SFopp m) two_pi
  else f32_fmod o two_pi.

(** On patterns. What is not below [two_pi] goes through [fmod]; a pattern that
    is no number stays one. *)
Definition normalize_bits (o : Z) : Z :=
  match f32_of_bits o with
  | S754_nan => Z.lor o (2 ^ 22)
  | x => f32_to_bits (NormalizeOrientation x)
  end.

Record Position := {
  m_positionX : Z;
  m_positionY : Z;
  m_positionZ : Z;
  m_orientation : Z
}.

(** [Relocate(0, 0, 0, 0)]. *)
Definition Position_zero : Position :=
  {| m_positionX := 0; m_positionY := 0; m_positionZ := 0; m_orientation := 0 |}.

Definition set_X (v : Z) (p : Position) : Position :=
  {| m_positionX := v; m_positionY := m_positionY p; m_positionZ := m_positionZ p;
     m_orientation := m_orientation p |}.
Definition set_Y (v : Z) (p : Position) : Position :=
  {| m_positionX := m_positionX p; m_positionY := v; m_positionZ := m_positionZ p;
     m_orientation := m_orientation p |}.
Definition set_Z (v : Z) (p : Position) : Position :=
  {| m_positionX := m_positionX p; m_positionY := m_positionY p; m_positionZ := v;
     m_orientation := m_orientation p |}.
Definition SetOrientation (v : Z) (p : Position) : Position :=
  {| m_positionX := m_positionX p; m_positionY := m_positionY p; m_positionZ := m_positionZ p;
     m_orientation := normalize_bits v |}.

(** ** Movement flags *)

Definition MOVEMENTFLAG_NONE : Z := 0x00000000.
Definition MOVEMENTFLAG_FORWARD : Z := 0x00000001.
Definition MOVEMENTFLAG_BACKWARD : Z := 0x00000002.
Definition MOVEMENTFLAG_STRAFE_LEFT : Z := 0x00000004.
Definition MOVEMENTFLAG_STRAFE_RIGHT : Z := 0x00000008.
Definition MOVEMENTFLAG_LEFT : Z := 0x00000010.
Definition MOVEMENTFLAG_RIGHT : Z := 0x00000020.
Definition MOVEMENTFLAG_PITCH_UP : Z := 0x00000040.
Definition MOVEMENTFLAG_PITCH_DOWN : Z := 0x00000080.
Definition MOVEMENTFLAG_WALKING : Z := 0x00000100.
Definition MOVEMENTFLAG_DISABLE_GRAVITY : Z := 0x00000200.
Definition MOVEMENTFLAG_ROOT : Z := 0x00000400.
Definition MOVEMENTFLAG_FALLING : Z := 0x00000800.
Definition MOVEMENTFLAG_FALLING_FAR : Z := 0x00001000.
Definition MOVEMENTFLAG_PENDING_STOP : Z := 0x00002000.
Definition MOVEMENTFLAG_PENDING_STRAFE_STOP : Z := 0x00004000.
Definition MOVEMENTFLAG_PENDING_FORWARD : Z := 0x00008000.
Definition MOVEMENTFLAG_PENDING_BACKWARD : Z := 0x00010000.
Definition MOVEMENTFLAG_PENDING_STRAFE_LEFT : Z := 0x00020000.
Definition MOVEMENTFLAG_PENDING_STRAFE_RIGHT : Z := 0x00040000.
Definition MOVEMENTFLAG_PENDING_ROOT : Z := 0x00080000.
Definition MOVEMENTFLAG_SWIMMING : Z := 0x00100000.
Definition MOVEMENTFLAG_ASCENDING : Z := 0x00200000.
Definition MOVEMENTFLAG_DESCENDING : Z := 0x00400000.
Definition MOVEMENTFLAG_CAN_FLY : Z := 0x00800000.
Definition MOVEMENTFLAG_FLYING : Z := 0x01000000.
Definition MOVEMENTFLAG_SPLINE_ELEVATION : Z := 0x02000000.
Definition MOVEMENTFLAG_WATERWALKING : Z := 0x04000000.
Definition MOVEMENTFLAG_FALLING_SLOW : Z := 0x08000000.
Definition MOVEMENTFLAG_HOVER : Z := 0x10000000.
Definition MOVEMENTFLAG_DISABLE_COLLISION : Z := 0x20000000.

Definition MOVEMENTFLAG_MASK_MOVING : Z :=
  Z.lor (Z.lor (Z.lor (Z.lor (Z.lor (Z.lor (Z.lor (Z.lor
    MOVEMENTFLAG_FORWARD MOVEMENTFLAG_BACKWARD) MOVEMENTFLAG_STRAFE_LEFT) MOVEMENTFLAG_STRAFE_RIGHT)
    MOVEMENTFLAG_FALLING) MOVEMENTFLAG_FALLING_FAR) MOVEMENTFLAG_ASCENDING) MOVEMENTFLAG_DESCENDING)
    MOVEMENTFLAG_SPLINE_ELEVATION.

Definition MOVEMENTFLAG2_ALWAYS_ALLOW_PITCHING : Z := 0x00000010.

(** ** The state *)

Record TransportInfo := {
  tr_guid : Z;
  tr_pos : Position;
  tr_seat : Z;
  tr_time : Z;
  tr_time2 : Z;
  tr_vehicleId : Z
}.

(** [TransportInfo::Reset]. *)
Definition TransportInfo_reset : TransportInfo :=
  {| tr_guid := 0; tr_pos := Position_zero; tr_seat := -1; tr_time := 0; tr_time2 := 0;
     tr_vehicleId := 0 |}.

Definition set_tr_guid (v : _) (x : TransportInfo) : TransportInfo :=
  {| tr_guid := v; tr_pos := tr_pos x; tr_seat := tr_seat x; tr_time := tr_time x;
     tr_time2 := tr_time2 x; tr_vehicleId := tr_vehicleId x |}.
Definition set_tr_pos (v : _) (x : TransportInfo) : TransportInfo :=
  {| tr_guid := tr_guid x; tr_pos := v; tr_seat := tr_seat x; tr_time := tr_time x;
     tr_time2 := tr_time2 x; tr_vehicleId := tr_vehicleId x |}.
Definition set_tr_seat (v : _) (x : TransportInfo) : TransportInfo :=
  {| tr_guid := tr_guid x; tr_pos := tr_pos x; tr_seat := v; tr_time := tr_time x;
     tr_time2 := tr_time2 x; tr_vehicleId := tr_vehicleId x |}.
Definition set_tr_time (v : _) (x : TransportInfo) : TransportInfo :=
  {| tr_guid := tr_guid x; tr_pos := tr_pos x; tr_seat := tr_seat x; tr_time := v;
     tr_time2 := tr_time2 x; tr_vehicleId := tr_vehicleId x |}.
Definition set_tr_time2 (v : _) (x : TransportInfo) : TransportInfo :=
  {| tr_guid := tr_guid x; tr_pos := tr_pos x; tr_seat := tr_seat x; tr_time := tr_time x;
     tr_time2 := v; tr_vehicleId := tr_vehicleId x |}.
Definition set_tr_vehicleId (v : _) (x : TransportInfo) : TransportInfo :=
  {| tr_guid := tr_guid x; tr_pos := tr_pos x; tr_seat := tr_seat x; tr_time := tr_time x;
     tr_time2 := tr_time2 x; tr_vehicleId := v |}.

Record JumpInfo := {
  fallTime : Z;
  zspeed : Z;
  sinAngle : Z;
  cosAngle : Z;
  xyspeed : Z
}.

(** [JumpInfo::Reset]. *)
Definition JumpInfo_reset : JumpInfo :=
  {| fallTime := 0; zspeed := 0; sinAngle := 0; cosAngle := 0; xyspeed := 0 |}.

Definition set_fallTime (v : _) (x : JumpInfo) : JumpInfo :=
  {| fallTime := v; zspeed := zspeed x; sinAngle := sinAngle x; cosAngle := cosAngle x;
     xyspeed := xyspeed x |}.
Definition set_zspeed (v : _) (x : JumpInfo) : JumpInfo :=
  {| fallTime := fallTime x; zspeed := v; sinAngle := sinAngle x; cosAngle := cosAngle x;
     xyspeed := xyspeed x |}.
Definition set_sinAngle (v : _) (x : JumpInfo) : JumpInfo :=
  {| fallTime := fallTime x; zspeed := zspeed x; sinAngle := v; cosAngle := cosAngle x;
     xyspeed := xyspeed x |}.
Definition set_cosAngle (v : _) (x : JumpInfo) : JumpInfo :=
  {| fallTime := fallTime x; zspeed := zspeed x; sinAngle := sinAngle x; cosAngle := v;
     xyspeed := xyspeed x |}.
Definition set_xyspeed (v : _) (x : JumpInfo) : JumpInfo :=
  {| fallTime := fallTime x; zspeed := zspeed x; sinAngle := sinAngle x; cosAngle := cosAngle x;
     xyspeed := v |}.

Record MovementInfo := {
  mi_guid : Z;
  mi_flags : Z;
  mi_flags2 : Z;
  mi_pos : Position;
  mi_time : Z;
  movementCounter : Z;
  transport : TransportInfo;
  pitch : Z;
  jump : JumpInfo;
  splineElevation : Z;
  heightChangeFailed : bool
}.

(** The constructor. *)
Definition MovementInfo_new : MovementInfo :=
  {| mi_guid := 0; mi_flags := 0; mi_flags2 := 0; mi_pos := Position_zero; mi_time := 0;
     movementCounter := 0; transport := TransportInfo_reset; pitch := 0; jump := JumpInfo_reset;
     splineElevation := 0; heightChangeFailed := false |}.

Definition set_mi_guid (v : _) (x : MovementInfo) : MovementInfo :=
  {| mi_guid := v; mi_flags := mi_flags x; mi_flags2 := mi_flags2 x; mi_pos := mi_pos x;
     mi_time := mi_time x; movementCounter := movementCounter x; transport := transport x; pitch := pitch x;
     jump := jump x; splineElevation := splineElevation x; heightChangeFailed := heightChangeFailed x |}.
Definition set_mi_flags (v : _) (x : MovementInfo) : MovementInfo :=
  {| mi_guid := mi_guid x; mi_flags := v; mi_flags2 := mi_flags2 x; mi_pos := mi_pos x;
     mi_time := mi_time x; movementCounter := movementCounter x; transport := transport x; pitch := pitch x;
     jump := jump x; splineElevation := splineElevation x; heightChangeFailed := heightChangeFailed x |}.
Definition set_mi_flags2 (v : _) (x : MovementInfo) : MovementInfo :=
  {| mi_guid := mi_guid x; mi_flags := mi_flags x; mi_flags2 := v; mi_pos := mi_pos x;
     mi_time := mi_time x; movementCounter := movementCounter x; transport := transport x; pitch := pitch x;
     jump := jump x; splineElevation := splineElevation x; heightChangeFailed := heightChangeFailed x |}.
Definition set_mi_pos (v : _) (x : MovementInfo) : MovementInfo :=
  {| mi_guid := mi_guid x; mi_flags := mi_flags x; mi_flags2 := mi_flags2 x; mi_pos := v;
     mi_time := mi_time x; movementCounter := movementCounter x; transport := transport x; pitch := pitch x;
     jump := jump x; splineElevation := splineElevation x; heightChangeFailed := heightChangeFailed x |}.
Definition set_mi_time (v : _) (x : MovementInfo) : MovementInfo :=
  {| mi_guid := mi_guid x; mi_flags := mi_flags x; mi_flags2 := mi_flags2 x; mi_pos := mi_pos x;
     mi_time := v; movementCounter := movementCounter x; transport := transport x; pitch := pitch x;
     jump := jump x; splineElevation := splineElevation x; heightChangeFailed := heightChangeFailed x |}.
Definition set_movementCounter (v : _) (x : MovementInfo) : MovementInfo :=
  {| mi_guid := mi_guid x; mi_flags := mi_flags x; mi_flags2 := mi_flags2 x; mi_pos := mi_pos x;
     mi_time := mi_time x; movementCounter := v; transport := transport x; pitch := pitch x;
     jump := jump x; splineElevation := splineElevation x; heightChangeFailed := heightChangeFailed x |}.
Definition set_transport (v : _) (x : MovementInfo) : MovementInfo :=
  {| mi_guid := mi_guid x; mi_flags := mi_flags x; mi_flags2 := mi_flags2 x; mi_pos := mi_pos x;
     mi_time := mi_time x; movementCounter := movementCounter x; transport := v; pitch := pitch x;
     jump := jump x; splineElevation := splineElevation x; heightChangeFailed := heightChangeFailed x |}.
Definition set_pitch (v : _) (x : MovementInfo) : MovementInfo :=
  {| mi_guid := mi_guid x; mi_flags := mi_flags x; mi_flags2 := mi_flags2 x; mi_pos := mi_pos x;
     mi_time := mi_time x; movementCounter := movementCounter x; transport := transport x; pitch := v;
     jump := jump x; splineElevation := splineElevation x; heightChangeFailed := heightChangeFailed x |}.
Definition set_jump (v : _) (x : MovementInfo) : MovementInfo :=
  {| mi_guid := mi_guid x; mi_flags := mi_flags x; mi_flags2 := mi_flags2 x; mi_pos := mi_pos x;
     mi_time := mi_time x; movementCounter := movementCounter x; transport := transport x; pitch := pitch x;
     jump := v; splineElevation := splineElevation x; heightChangeFailed := heightChangeFailed x |}.
Definition set_splineElevation (v : _) (x : MovementInfo) : MovementInfo :=
  {| mi_guid := mi_guid x; mi_flags := mi_flags x; mi_flags2 := mi_flags2 x; mi_pos := mi_pos x;
     mi_time := mi_time x; movementCounter := movementCounter x; transport := transport x; pitch := pitch x;
     jump := jump x; splineElevation := v; heightChangeFailed := heightChangeFailed x |}.
Definition set_heightChangeFailed (v : _) (x : MovementInfo) : MovementInfo :=
  {| mi_guid := mi_guid x; mi_flags := mi_flags x; mi_flags2 := mi_flags2 x; mi_pos := mi_pos x;
     mi_time := mi_time x; movementCounter := movementCounter x; transport := transport x; pitch := pitch x;
     jump := jump x; splineElevation := splineElevation x; heightChangeFailed := v |}.

Definition AddMovementFlag (flag : Z) (mi : MovementInfo) : MovementInfo :=
  set_mi_flags (Z.lor (mi_flags mi) flag) mi.

(** [flags &= ~flag]. *)
Definition RemoveMovementFlag (flag : Z) (mi : MovementInfo) : MovementInfo :=
  set_mi_flags (Z.ldiff (mi_flags mi) flag) mi.

Definition HasMovementFlag (flag : Z) (mi : MovementInfo) : bool := nz (Z.land (mi_flags mi) flag).
Definition HasExtraMovementFlag (flag : Z) (mi : MovementInfo) : bool := nz (Z.land (mi_flags2 mi) flag).

(** ** The bytes of an identifier *)

(** The union's [_bytes], least significant first. *)
Definition guid_bytes (guid : Z) : list Z := le_bytes 8 guid.
Definition guid_of_bytes (bytes : list Z) : Z := le_value bytes.

(** [operator[]]: an [ASSERT] on the index. *)
Definition guid_get (bytes : list Z) (index : nat) : packet Z :=
  ASSERT (index <? 8)%nat;; mret (nth index bytes 0).
Definition guid_set (index : nat) (v : Z) (bytes : list Z) : packet (list Z) :=
  ASSERT (index <? 8)%nat;; mret (<[index := v]> bytes).
