(* ===== verification/MovementPackets.v ===== *)
(** Reading and writing movement packets: [Player::ReadMovementInfo] and
    [Player::ValidateMovementInfo] ([src/src/server/game/Entities/Player/Player.cpp]),
    [Unit::WriteMovementInfo] ([src/src/server/game/Entities/Unit/Unit.cpp]) and
    [Movement::ExtraMovementStatusElement]
    ([src/src/server/game/Movement/MovementStructures.cpp]).

    The world around is a record of what the code asks of it. *)
From Stdlib Require Import ZArith.
From Corelib Require Import SpecFloat.
From stdpp Require Import base list.
From S2P Require Import Prelude Doubles ByteBuffer MovementStructures MovementInfo.

Open Scope Z_scope.

(** ** Extra elements *)

Record ExtraMovementStatusElement := {
  ex_elements : list MovementStatusElements;
  ex_index : nat;
  ex_guid : list Z;
  ex_floatData : Z;
  ex_byteData : Z
}.

Definition Extra (elements : list MovementStatusElements) : ExtraMovementStatusElement :=
  {| ex_elements := elements; ex_index := 0; ex_guid := guid_bytes 0; ex_floatData := 0;
     ex_byteData := 0 |}.

Definition ResetIndex (x : ExtraMovementStatusElement) : ExtraMovementStatusElement :=
  {| ex_elements := ex_elements x; ex_index := 0; ex_guid := ex_guid x;
     ex_floatData := ex_floatData x; ex_byteData := ex_byteData x |}.

Definition ex_step (x : ExtraMovementStatusElement) : ExtraMovementStatusElement :=
  {| ex_elements := ex_elements x; ex_index := S (ex_index x); ex_guid := ex_guid x;
     ex_floatData := ex_floatData x; ex_byteData := ex_byteData x |}.
Definition set_ex_guid (v : list Z) (x : ExtraMovementStatusElement) : ExtraMovementStatusElement :=
  {| ex_elements := ex_elements x; ex_index := ex_index x; ex_guid := v;
     ex_floatData := ex_floatData x; ex_byteData := ex_byteData x |}.
Definition set_ex_float (v : Z) (x : ExtraMovementStatusElement) : ExtraMovementStatusElement :=
  {| ex_elements := ex_elements x; ex_index := ex_index x; ex_guid := ex_guid x;
     ex_floatData := v; ex_byteData := ex_byteData x |}.
Definition set_ex_byte (v : Z) (x : ExtraMovementStatusElement) : ExtraMovementStatusElement :=
  {| ex_elements := ex_elements x; ex_index := ex_index x; ex_guid := ex_guid x;
     ex_floatData := ex_floatData x; ex_byteData := v |}.

(** [element - first], for an element of a block of the enumeration. *)
Definition offset (element first : MovementStatusElements) : nat :=
  Nat.sub (element_value element) (element_value first).

(** [_elements[_index++]], past the end of the array undefined. *)
Definition next_element (x : ExtraMovementStatusElement) :
    packet (MovementStatusElements * ExtraMovementStatusElement) :=
  match nth_error (ex_elements x) (ex_index x) with
  | Some e => mret (e, ex_step x)
  | None => fail (Undefined OutOfArray)
  end.

Definition ReadNextElement (x : ExtraMovementStatusElement) : packet ExtraMovementStatusElement :=
  '(element, x) ← next_element x;
  match element with
  | MSEHasGuidByte0 | MSEHasGuidByte1 | MSEHasGuidByte2 | MSEHasGuidByte3 | MSEHasGuidByte4 | MSEHasGuidByte5 | MSEHasGuidByte6 | MSEHasGuidByte7 =>
      bit ← ReadBit;
      guid ← guid_set (offset element MSEHasGuidByte0) (Z.b2z bit) (ex_guid x);
      mret (set_ex_guid guid x)
  | MSEGuidByte0 | MSEGuidByte1 | MSEGuidByte2 | MSEGuidByte3 | MSEGuidByte4 | MSEGuidByte5 | MSEGuidByte6 | MSEGuidByte7 =>
      byte ← guid_get (ex_guid x) (offset element MSEGuidByte0);
      byte ← ReadByteSeq byte;
      guid ← guid_set (offset element MSEGuidByte0) byte (ex_guid x);
      mret (set_ex_guid guid x)
  | MSEExtraFloat => v ← get_float; mret (set_ex_float v x)
  | MSEExtraInt8 => v ← read_i8; mret (set_ex_byte v x)
  | MSEExtraTwoBits => v ← ReadBits 2; mret (set_ex_byte v x)
  | _ => fail AssertionFailed
  end.

Definition WriteNextElement (x : ExtraMovementStatusElement) : packet ExtraMovementStatusElement :=
  '(element, x) ← next_element x;
  match element with
  | MSEHasGuidByte0 | MSEHasGuidByte1 | MSEHasGuidByte2 | MSEHasGuidByte3 | MSEHasGuidByte4 | MSEHasGuidByte5 | MSEHasGuidByte6 | MSEHasGuidByte7 =>
      byte ← guid_get (ex_guid x) (offset element MSEHasGuidByte0);
      _ ← WriteBit byte;
      mret x
  | MSEGuidByte0 | MSEGuidByte1 | MSEGuidByte2 | MSEGuidByte3 | MSEGuidByte4 | MSEGuidByte5 | MSEGuidByte6 | MSEGuidByte7 =>
      byte ← guid_get (ex_guid x) (offset element MSEGuidByte0);
      WriteByteSeq byte;;
      mret x
  | MSEExtraFloat => append_float (ex_floatData x);; mret x
  | MSEExtraInt8 => append_i8 (ex_byteData x);; mret x
  | MSEExtraTwoBits => WriteBits (ex_byteData x) 2;; mret x
  | _ => fail AssertionFailed
  end.

(** [extras->...] through a pointer that may be null. *)
Definition through {A} (f : A -> packet A) (extras : option A) : packet (option A) :=
  match extras with
  | Some x => x ← f x; mret (Some x)
  | None => fail (Undefined NullPointer)
  end.

(** ** Validation *)

(** The auras of the mover that [ValidateMovementInfo] asks for. *)
Record MoverAuras := {
  SPELL_AURA_HOVER : bool;
  SPELL_AURA_WATER_WALK : bool;
  SPELL_AURA_GHOST : bool;
  SPELL_AURA_FLY : bool;
  SPELL_AURA_MOD_INCREASE_MOUNTED_FLIGHT_SPEED : bool
}.

(** What the player's side of the world answers: the unit with a given
    identifier, if it exists; the flags of the vehicle the player (or the unit
    the player charms) is in; whether that unit has a feather fall aura; and
    whether the account is an ordinary one. *)
Record PlayerWorld := {
  pw_mover : Z -> option MoverAuras;
  pw_vehicle : option Z;
  pw_feather_fall : bool;
  pw_sec_player : bool
}.

Definition VEHICLE_FLAG_FIXED_POSITION : Z := 0x00200000.

Definition REMOVE_VIOLATING_FLAGS (check : bool) (maskToRemove : Z) (mi : MovementInfo) : MovementInfo :=
  if check then RemoveMovementFlag maskToRemove mi else mi.

(** The checks, in order, on a packet whose mover exists. *)
Definition validate_flags (w : PlayerWorld) (mover : MoverAuras) (mi : MovementInfo) : MovementInfo :=
  let mi := if match pw_vehicle w with None => true | Some flags => negb (nz (Z.land flags VEHICLE_FLAG_FIXED_POSITION)) end
            then REMOVE_VIOLATING_FLAGS (HasMovementFlag MOVEMENTFLAG_ROOT mi) MOVEMENTFLAG_ROOT mi
            else mi in
  let mi := REMOVE_VIOLATING_FLAGS
    (HasMovementFlag MOVEMENTFLAG_ROOT mi && HasMovementFlag MOVEMENTFLAG_MASK_MOVING mi)
    MOVEMENTFLAG_MASK_MOVING mi in
  let mi := REMOVE_VIOLATING_FLAGS
    (HasMovementFlag MOVEMENTFLAG_HOVER mi && negb (SPELL_AURA_HOVER mover)) MOVEMENTFLAG_HOVER mi in
  let mi := REMOVE_VIOLATING_FLAGS
    (HasMovementFlag MOVEMENTFLAG_ASCENDING mi && HasMovementFlag MOVEMENTFLAG_DESCENDING mi)
    (Z.lor MOVEMENTFLAG_ASCENDING MOVEMENTFLAG_DESCENDING) mi in
  let mi := REMOVE_VIOLATING_FLAGS
    (HasMovementFlag MOVEMENTFLAG_LEFT mi && HasMovementFlag MOVEMENTFLAG_RIGHT mi)
    (Z.lor MOVEMENTFLAG_LEFT MOVEMENTFLAG_RIGHT) mi in
  let mi := REMOVE_VIOLATING_FLAGS
    (HasMovementFlag MOVEMENTFLAG_STRAFE_LEFT mi && HasMovementFlag MOVEMENTFLAG_STRAFE_RIGHT mi)
    (Z.lor MOVEMENTFLAG_STRAFE_LEFT MOVEMENTFLAG_STRAFE_RIGHT) mi in
  let mi := REMOVE_VIOLATING_FLAGS
    (HasMovementFlag MOVEMENTFLAG_PITCH_UP mi && HasMovementFlag MOVEMENTFLAG_PITCH_DOWN mi)
    (Z.lor MOVEMENTFLAG_PITCH_UP MOVEMENTFLAG_PITCH_DOWN) mi in
  let mi := REMOVE_VIOLATING_FLAGS
    (HasMovementFlag MOVEMENTFLAG_FORWARD mi && HasMovementFlag MOVEMENTFLAG_BACKWARD mi)
    (Z.lor MOVEMENTFLAG_FORWARD MOVEMENTFLAG_BACKWARD) mi in
  let mi := REMOVE_VIOLATING_FLAGS
    (HasMovementFlag MOVEMENTFLAG_WATERWALKING mi && negb (SPELL_AURA_WATER_WALK mover)
     && negb (SPELL_AURA_GHOST mover)) MOVEMENTFLAG_WATERWALKING mi in
  let mi := REMOVE_VIOLATING_FLAGS
    (HasMovementFlag MOVEMENTFLAG_FALLING_SLOW mi && negb (pw_feather_fall w))
    MOVEMENTFLAG_FALLING_SLOW mi in
  let mi := REMOVE_VIOLATING_FLAGS
    (HasMovementFlag (Z.lor MOVEMENTFLAG_FLYING MOVEMENTFLAG_CAN_FLY) mi && pw_sec_player w
     && negb (SPELL_AURA_FLY mover) && negb (SPELL_AURA_MOD_INCREASE_MOUNTED_FLIGHT_SPEED mover))
    (Z.lor MOVEMENTFLAG_FLYING MOVEMENTFLAG_CAN_FLY) mi in
  let mi := REMOVE_VIOLATING_FLAGS
    (HasMovementFlag (Z.lor MOVEMENTFLAG_DISABLE_GRAVITY MOVEMENTFLAG_CAN_FLY) mi
     && HasMovementFlag MOVEMENTFLAG_FALLING mi) MOVEMENTFLAG_FALLING mi in
  let mi := REMOVE_VIOLATING_FLAGS
    (HasMovementFlag MOVEMENTFLAG_SPLINE_ELEVATION mi
     && fuzzyEq (f32_of_bits (splineElevation mi)) f32_zero) MOVEMENTFLAG_SPLINE_ELEVATION mi in
  if fuzzyNe (f32_of_bits (splineElevation mi)) f32_zero
  then AddMovementFlag MOVEMENTFLAG_SPLINE_ELEVATION mi else mi.

Definition ValidateMovementInfo (w : PlayerWorld) (mi : MovementInfo) : MovementInfo :=
  if mi_guid mi =? 0 then mi else
  match pw_mover w (mi_guid mi) with
  | None => mi
  | Some mover => validate_flags w mover mi
  end.

(** ** Reading *)

(** The locals of [ReadMovementInfo]. *)
Record ReadState := {
  r_hasMovementFlags : bool;
  r_hasMovementFlags2 : bool;
  r_hasTimestamp : bool;
  r_hasOrientation : bool;
  r_hasTransportData : bool;
  r_hasTransportTime2 : bool;
  r_hasTransportVehicleId : bool;
  r_hasPitch : bool;
  r_hasFallData : bool;
  r_hasFallDirection : bool;
  r_hasSplineElevation : bool;
  r_guid : list Z;
  r_tguid : list Z;
  r_mi : MovementInfo;
  r_extras : option ExtraMovementStatusElement
}.

Definition ReadState_new (mi : MovementInfo) (extras : option ExtraMovementStatusElement) : ReadState :=
  {| r_hasMovementFlags := false; r_hasMovementFlags2 := false; r_hasTimestamp := false;
     r_hasOrientation := false; r_hasTransportData := false; r_hasTransportTime2 := false;
     r_hasTransportVehicleId := false; r_hasPitch := false; r_hasFallData := false;
     r_hasFallDirection := false; r_hasSplineElevation := false; r_guid := guid_bytes 0;
     r_tguid := guid_bytes 0; r_mi := mi; r_extras := extras |}.

Definition set_r_hasMovementFlags (v : _) (x : ReadState) : ReadState :=
  {| r_hasMovementFlags := v; r_hasMovementFlags2 := r_hasMovementFlags2 x; r_hasTimestamp := r_hasTimestamp x;
     r_hasOrientation := r_hasOrientation x; r_hasTransportData := r_hasTransportData x; r_hasTransportTime2 := r_hasTransportTime2 x;
     r_hasTransportVehicleId := r_hasTransportVehicleId x; r_hasPitch := r_hasPitch x; r_hasFallData := r_hasFallData x;
     r_hasFallDirection := r_hasFallDirection x; r_hasSplineElevation := r_hasSplineElevation x; r_guid := r_guid x;
     r_tguid := r_tguid x; r_mi := r_mi x; r_extras := r_extras x |}.
Definition set_r_hasMovementFlags2 (v : _) (x : ReadState) : ReadState :=
  {| r_hasMovementFlags := r_hasMovementFlags x; r_hasMovementFlags2 := v; r_hasTimestamp := r_hasTimestamp x;
     r_hasOrientation := r_hasOrientation x; r_hasTransportData := r_hasTransportData x; r_hasTransportTime2 := r_hasTransportTime2 x;
     r_hasTransportVehicleId := r_hasTransportVehicleId x; r_hasPitch := r_hasPitch x; r_hasFallData := r_hasFallData x;
     r_hasFallDirection := r_hasFallDirection x; r_hasSplineElevation := r_hasSplineElevation x; r_guid := r_guid x;
     r_tguid := r_tguid x; r_mi := r_mi x; r_extras := r_extras x |}.
Definition set_r_hasTimestamp (v : _) (x : ReadState) : ReadState :=
  {| r_hasMovementFlags := r_hasMovementFlags x; r_hasMovementFlags2 := r_hasMovementFlags2 x; r_hasTimestamp := v;
     r_hasOrientation := r_hasOrientation x; r_hasTransportData := r_hasTransportData x; r_hasTransportTime2 := r_hasTransportTime2 x;
     r_hasTransportVehicleId := r_hasTransportVehicleId x; r_hasPitch := r_hasPitch x; r_hasFallData := r_hasFallData x;
     r_hasFallDirection := r_hasFallDirection x; r_hasSplineElevation := r_hasSplineElevation x; r_guid := r_guid x;
     r_tguid := r_tguid x; r_mi := r_mi x; r_extras := r_extras x |}.
Definition set_r_hasOrientation (v : _) (x : ReadState) : ReadState :=
  {| r_hasMovementFlags := r_hasMovementFlags x; r_hasMovementFlags2 := r_hasMovementFlags2 x; r_hasTimestamp := r_hasTimestamp x;
     r_hasOrientation := v; r_hasTransportData := r_hasTransportData x; r_hasTransportTime2 := r_hasTransportTime2 x;
     r_hasTransportVehicleId := r_hasTransportVehicleId x; r_hasPitch := r_hasPitch x; r_hasFallData := r_hasFallData x;
     r_hasFallDirection := r_hasFallDirection x; r_hasSplineElevation := r_hasSplineElevation x; r_guid := r_guid x;
     r_tguid := r_tguid x; r_mi := r_mi x; r_extras := r_extras x |}.
Definition set_r_hasTransportData (v : _) (x : ReadState) : ReadState :=
  {| r_hasMovementFlags := r_hasMovementFlags x; r_hasMovementFlags2 := r_hasMovementFlags2 x; r_hasTimestamp := r_hasTimestamp x;
     r_hasOrientation := r_hasOrientation x; r_hasTransportData := v; r_hasTransportTime2 := r_hasTransportTime2 x;
     r_hasTransportVehicleId := r_hasTransportVehicleId x; r_hasPitch := r_hasPitch x; r_hasFallData := r_hasFallData x;
     r_hasFallDirection := r_hasFallDirection x; r_hasSplineElevation := r_hasSplineElevation x; r_guid := r_guid x;
     r_tguid := r_tguid x; r_mi := r_mi x; r_extras := r_extras x |}.
Definition set_r_hasTransportTime2 (v : _) (x : ReadState) : ReadState :=
  {| r_hasMovementFlags := r_hasMovementFlags x; r_hasMovementFlags2 := r_hasMovementFlags2 x; r_hasTimestamp := r_hasTimestamp x;
     r_hasOrientation := r_hasOrientation x; r_hasTransportData := r_hasTransportData x; r_hasTransportTime2 := v;
     r_hasTransportVehicleId := r_hasTransportVehicleId x; r_hasPitch := r_hasPitch x; r_hasFallData := r_hasFallData x;
     r_hasFallDirection := r_hasFallDirection x; r_hasSplineElevation := r_hasSplineElevation x; r_guid := r_guid x;
     r_tguid := r_tguid x; r_mi := r_mi x; r_extras := r_extras x |}.
Definition set_r_hasTransportVehicleId (v : _) (x : ReadState) : ReadState :=
  {| r_hasMovementFlags := r_hasMovementFlags x; r_hasMovementFlags2 := r_hasMovementFlags2 x; r_hasTimestamp := r_hasTimestamp x;
     r_hasOrientation := r_hasOrientation x; r_hasTransportData := r_hasTransportData x; r_hasTransportTime2 := r_hasTransportTime2 x;
     r_hasTransportVehicleId := v; r_hasPitch := r_hasPitch x; r_hasFallData := r_hasFallData x;
     r_hasFallDirection := r_hasFallDirection x; r_hasSplineElevation := r_hasSplineElevation x; r_guid := r_guid x;
     r_tguid := r_tguid x; r_mi := r_mi x; r_extras := r_extras x |}.
Definition set_r_hasPitch (v : _) (x : ReadState) : ReadState :=
  {| r_hasMovementFlags := r_hasMovementFlags x; r_hasMovementFlags2 := r_hasMovementFlags2 x; r_hasTimestamp := r_hasTimestamp x;
     r_hasOrientation := r_hasOrientation x; r_hasTransportData := r_hasTransportData x; r_hasTransportTime2 := r_hasTransportTime2 x;
     r_hasTransportVehicleId := r_hasTransportVehicleId x; r_hasPitch := v; r_hasFallData := r_hasFallData x;
     r_hasFallDirection := r_hasFallDirection x; r_hasSplineElevation := r_hasSplineElevation x; r_guid := r_guid x;
     r_tguid := r_tguid x; r_mi := r_mi x; r_extras := r_extras x |}.
Definition set_r_hasFallData (v : _) (x : ReadState) : ReadState :=
  {| r_hasMovementFlags := r_hasMovementFlags x; r_hasMovementFlags2 := r_hasMovementFlags2 x; r_hasTimestamp := r_hasTimestamp x;
     r_hasOrientation := r_hasOrientation x; r_hasTransportData := r_hasTransportData x; r_hasTransportTime2 := r_hasTransportTime2 x;
     r_hasTransportVehicleId := r_hasTransportVehicleId x; r_hasPitch := r_hasPitch x; r_hasFallData := v;
     r_hasFallDirection := r_hasFallDirection x; r_hasSplineElevation := r_hasSplineElevation x; r_guid := r_guid x;
     r_tguid := r_tguid x; r_mi := r_mi x; r_extras := r_extras x |}.
Definition set_r_hasFallDirection (v : _) (x : ReadState) : ReadState :=
  {| r_hasMovementFlags := r_hasMovementFlags x; r_hasMovementFlags2 := r_hasMovementFlags2 x; r_hasTimestamp := r_hasTimestamp x;
     r_hasOrientation := r_hasOrientation x; r_hasTransportData := r_hasTransportData x; r_hasTransportTime2 := r_hasTransportTime2 x;
     r_hasTransportVehicleId := r_hasTransportVehicleId x; r_hasPitch := r_hasPitch x; r_hasFallData := r_hasFallData x;
     r_hasFallDirection := v; r_hasSplineElevation := r_hasSplineElevation x; r_guid := r_guid x;
     r_tguid := r_tguid x; r_mi := r_mi x; r_extras := r_extras x |}.
Definition set_r_hasSplineElevation (v : _) (x : ReadState) : ReadState :=
  {| r_hasMovementFlags := r_hasMovementFlags x; r_hasMovementFlags2 := r_hasMovementFlags2 x; r_hasTimestamp := r_hasTimestamp x;
     r_hasOrientation := r_hasOrientation x; r_hasTransportData := r_hasTransportData x; r_hasTransportTime2 := r_hasTransportTime2 x;
     r_hasTransportVehicleId := r_hasTransportVehicleId x; r_hasPitch := r_hasPitch x; r_hasFallData := r_hasFallData x;
     r_hasFallDirection := r_hasFallDirection x; r_hasSplineElevation := v; r_guid := r_guid x;
     r_tguid := r_tguid x; r_mi := r_mi x; r_extras := r_extras x |}.
Definition set_r_guid (v : _) (x : ReadState) : ReadState :=
  {| r_hasMovementFlags := r_hasMovementFlags x; r_hasMovementFlags2 := r_hasMovementFlags2 x; r_hasTimestamp := r_hasTimestamp x;
     r_hasOrientation := r_hasOrientation x; r_hasTransportData := r_hasTransportData x; r_hasTransportTime2 := r_hasTransportTime2 x;
     r_hasTransportVehicleId := r_hasTransportVehicleId x; r_hasPitch := r_hasPitch x; r_hasFallData := r_hasFallData x;
     r_hasFallDirection := r_hasFallDirection x; r_hasSplineElevation := r_hasSplineElevation x; r_guid := v;
     r_tguid := r_tguid x; r_mi := r_mi x; r_extras := r_extras x |}.
Definition set_r_tguid (v : _) (x : ReadState) : ReadState :=
  {| r_hasMovementFlags := r_hasMovementFlags x; r_hasMovementFlags2 := r_hasMovementFlags2 x; r_hasTimestamp := r_hasTimestamp x;
     r_hasOrientation := r_hasOrientation x; r_hasTransportData := r_hasTransportData x; r_hasTransportTime2 := r_hasTransportTime2 x;
     r_hasTransportVehicleId := r_hasTransportVehicleId x; r_hasPitch := r_hasPitch x; r_hasFallData := r_hasFallData x;
     r_hasFallDirection := r_hasFallDirection x; r_hasSplineElevation := r_hasSplineElevation x; r_guid := r_guid x;
     r_tguid := v; r_mi := r_mi x; r_extras := r_extras x |}.
Definition set_r_mi (v : _) (x : ReadState) : ReadState :=
  {| r_hasMovementFlags := r_hasMovementFlags x; r_hasMovementFlags2 := r_hasMovementFlags2 x; r_hasTimestamp := r_hasTimestamp x;
     r_hasOrientation := r_hasOrientation x; r_hasTransportData := r_hasTransportData x; r_hasTransportTime2 := r_hasTransportTime2 x;
     r_hasTransportVehicleId := r_hasTransportVehicleId x; r_hasPitch := r_hasPitch x; r_hasFallData := r_hasFallData x;
     r_hasFallDirection := r_hasFallDirection x; r_hasSplineElevation := r_hasSplineElevation x; r_guid := r_guid x;
     r_tguid := r_tguid x; r_mi := v; r_extras := r_extras x |}.
Definition set_r_extras (v : _) (x : ReadState) : ReadState :=
  {| r_hasMovementFlags := r_hasMovementFlags x; r_hasMovementFlags2 := r_hasMovementFlags2 x; r_hasTimestamp := r_hasTimestamp x;
     r_hasOrientation := r_hasOrientation x; r_hasTransportData := r_hasTransportData x; r_hasTransportTime2 := r_hasTransportTime2 x;
     r_hasTransportVehicleId := r_hasTransportVehicleId x; r_hasPitch := r_hasPitch x; r_hasFallData := r_hasFallData x;
     r_hasFallDirection := r_hasFallDirection x; r_hasSplineElevation := r_hasSplineElevation x; r_guid := r_guid x;
     r_tguid := r_tguid x; r_mi := r_mi x; r_extras := v |}.

(** Updates of the record being filled. *)
Definition mi_update (f : MovementInfo -> MovementInfo) (st : ReadState) : ReadState :=
  set_r_mi (f (r_mi st)) st.
Definition pos_update (f : Position -> Position) : MovementInfo -> MovementInfo :=
  fun mi => set_mi_pos (f (mi_pos mi)) mi.
Definition transport_update (f : TransportInfo -> TransportInfo) : MovementInfo -> MovementInfo :=
  fun mi => set_transport (f (transport mi)) mi.
Definition tr_pos_update (f : Position -> Position) : TransportInfo -> TransportInfo :=
  fun t => set_tr_pos (f (tr_pos t)) t.
Definition jump_update (f : JumpInfo -> JumpInfo) : MovementInfo -> MovementInfo :=
  fun mi => set_jump (f (jump mi)) mi.

(** [if (cond) data >> field]. *)
Definition field (cond : bool) (rd : packet Z) (set : Z -> ReadState -> ReadState) (st : ReadState) :
    packet ReadState :=
  if cond then v ← rd; mret (set v st) else mret st.

(** [G3D::wrap(data.read<float>(), -pi, pi)]. *)
Definition read_pitch : packet Z :=
  v ← read_float;
  match wrap (f32_of_bits v) (SFopp pi32) pi32 with
  | Some x => mret (f32_to_bits x)
  | None => fail (Undefined FloatToInt)
  end.

(** One round of the loop of [ReadMovementInfo]. *)
Definition read_element (element : MovementStatusElements) (st : ReadState) : packet ReadState :=
  match element with
  | MSEHasGuidByte0 | MSEHasGuidByte1 | MSEHasGuidByte2 | MSEHasGuidByte3 | MSEHasGuidByte4 | MSEHasGuidByte5 | MSEHasGuidByte6 | MSEHasGuidByte7 =>
      bit ← ReadBit;
      guid ← guid_set (offset element MSEHasGuidByte0) (Z.b2z bit) (r_guid st);
      mret (set_r_guid guid st)
  | MSEHasTransportGuidByte0 | MSEHasTransportGuidByte1 | MSEHasTransportGuidByte2 | MSEHasTransportGuidByte3 | MSEHasTransportGuidByte4 | MSEHasTransportGuidByte5 | MSEHasTransportGuidByte6 | MSEHasTransportGuidByte7 =>
      if r_hasTransportData st then
        bit ← ReadBit;
        guid ← guid_set (offset element MSEHasTransportGuidByte0) (Z.b2z bit) (r_tguid st);
        mret (set_r_tguid guid st)
      else mret st
  | MSEGuidByte0 | MSEGuidByte1 | MSEGuidByte2 | MSEGuidByte3 | MSEGuidByte4 | MSEGuidByte5 | MSEGuidByte6 | MSEGuidByte7 =>
      byte ← guid_get (r_guid st) (offset element MSEGuidByte0);
      byte ← ReadByteSeq byte;
      guid ← guid_set (offset element MSEGuidByte0) byte (r_guid st);
      mret (set_r_guid guid st)
  | MSETransportGuidByte0 | MSETransportGuidByte1 | MSETransportGuidByte2 | MSETransportGuidByte3 | MSETransportGuidByte4 | MSETransportGuidByte5 | MSETransportGuidByte6 | MSETransportGuidByte7 =>
      if r_hasTransportData st then
        byte ← guid_get (r_tguid st) (offset element MSETransportGuidByte0);
        byte ← ReadByteSeq byte;
        guid ← guid_set (offset element MSETransportGuidByte0) byte (r_tguid st);
        mret (set_r_tguid guid st)
      else mret st
  | MSEHasMovementFlags => bit ← ReadBit; mret (set_r_hasMovementFlags (negb bit) st)
  | MSEHasMovementFlags2 => bit ← ReadBit; mret (set_r_hasMovementFlags2 (negb bit) st)
  | MSEHasTimestamp => bit ← ReadBit; mret (set_r_hasTimestamp (negb bit) st)
  | MSEHasOrientation => bit ← ReadBit; mret (set_r_hasOrientation (negb bit) st)
  | MSEHasTransportData => bit ← ReadBit; mret (set_r_hasTransportData bit st)
  | MSEHasTransportTime2 =>
      if r_hasTransportData st then bit ← ReadBit; mret (set_r_hasTransportTime2 bit st) else mret st
  | MSEHasVehicleId =>
      if r_hasTransportData st then bit ← ReadBit; mret (set_r_hasTransportVehicleId bit st) else mret st
  | MSEHasPitch => bit ← ReadBit; mret (set_r_hasPitch (negb bit) st)
  | MSEHasFallData => bit ← ReadBit; mret (set_r_hasFallData bit st)
  | MSEHasFallDirection =>
      if r_hasFallData st then bit ← ReadBit; mret (set_r_hasFallDirection bit st) else mret st
  | MSEHasSplineElevation => bit ← ReadBit; mret (set_r_hasSplineElevation (negb bit) st)
  | MSEHasSpline => _ ← ReadBit; mret st
  | MSEHasHeightChangeFailed => _ ← ReadBit; mret st
  | MSEMovementFlags =>
      field (r_hasMovementFlags st) (ReadBits 30) (fun v => mi_update (set_mi_flags v)) st
  | MSEMovementFlags2 =>
      field (r_hasMovementFlags2 st) (ReadBits 12) (fun v => mi_update (set_mi_flags2 v)) st
  | MSETimestamp => field (r_hasTimestamp st) read_u32 (fun v => mi_update (set_mi_time v)) st
  | MSEPositionX => field true get_float (fun v => mi_update (pos_update (set_X v))) st
  | MSEPositionY => field true get_float (fun v => mi_update (pos_update (set_Y v))) st
  | MSEPositionZ => field true get_float (fun v => mi_update (pos_update (set_Z v))) st
  | MSEOrientation =>
      field (r_hasOrientation st) read_float (fun v => mi_update (pos_update (SetOrientation v))) st
  | MSETransportPositionX =>
      field (r_hasTransportData st) get_float
        (fun v => mi_update (transport_update (tr_pos_update (set_X v)))) st
  | MSETransportPositionY =>
      field (r_hasTransportData st) get_float
        (fun v => mi_update (transport_update (tr_pos_update (set_Y v)))) st
  | MSETransportPositionZ =>
      field (r_hasTransportData st) get_float
        (fun v => mi_update (transport_update (tr_pos_update (set_Z v)))) st
  | MSETransportOrientation =>
      field (r_hasTransportData st) read_float
        (fun v => mi_update (transport_update (tr_pos_update (SetOrientation v)))) st
  | MSETransportSeat =>
      field (r_hasTransportData st) read_i8 (fun v => mi_update (transport_update (set_tr_seat v))) st
  | MSETransportTime =>
      field (r_hasTransportData st) read_u32 (fun v => mi_update (transport_update (set_tr_time v))) st
  | MSETransportTime2 =>
      field (r_hasTransportData st && r_hasTransportTime2 st) read_u32
        (fun v => mi_update (transport_update (set_tr_time2 v))) st
  | MSETransportVehicleId =>
      field (r_hasTransportData st && r_hasTransportVehicleId st) read_u32
        (fun v => mi_update (transport_update (set_tr_vehicleId v))) st
  | MSEPitch => field (r_hasPitch st) read_pitch (fun v => mi_update (set_pitch v)) st
  | MSEFallTime =>
      field (r_hasFallData st) read_u32 (fun v => mi_update (jump_update (set_fallTime v))) st
  | MSEFallVerticalSpeed =>
      field (r_hasFallData st) get_float (fun v => mi_update (jump_update (set_zspeed v))) st
  | MSEFallCosAngle =>
      field (r_hasFallData st && r_hasFallDirection st) get_float
        (fun v => mi_update (jump_update (set_cosAngle v))) st
  | MSEFallSinAngle =>
      field (r_hasFallData st && r_hasFallDirection st) get_float
        (fun v => mi_update (jump_update (set_sinAngle v))) st
  | MSEFallHorizontalSpeed =>
      field (r_hasFallData st && r_hasFallDirection st) get_float
        (fun v => mi_update (jump_update (set_xyspeed v))) st
  | MSESplineElevation =>
      field (r_hasSplineElevation st) get_float (fun v => mi_update (set_splineElevation v)) st
  | MSECounter => field true read_u32 (fun v => mi_update (set_movementCounter v)) st
  | MSEZeroBit | MSEOneBit => _ ← ReadBit; mret st
  | MSEExtraElement =>
      extras ← through ReadNextElement (r_extras st);
      mret (set_r_extras extras st)
  | _ => fail AssertionFailed
  end.

(** The loop, up to [MSEEnd]; a sequence without it would run off the table. *)
Fixpoint read_elements (sequence : list MovementStatusElements) (st : ReadState) : packet ReadState :=
  match sequence with
  | [] => fail (Undefined OutOfArray)
  | MSEEnd :: _ => mret st
  | element :: sequence => st ← read_element element st; read_elements sequence st
  end.

Definition ReadMovementInfo (w : PlayerWorld) (opcode : Z) (mi : MovementInfo)
    (extras : option ExtraMovementStatusElement) :
    packet (MovementInfo * option ExtraMovementStatusElement) :=
  match GetMovementStatusElementsSequence opcode with
  | None => mret (mi, extras)
  | Some sequence =>
      st ← read_elements sequence (ReadState_new mi extras);
      let mi := set_mi_guid (guid_of_bytes (r_guid st)) (r_mi st) in
      let mi := transport_update (set_tr_guid (guid_of_bytes (r_tguid st))) mi in
      mret (ValidateMovementInfo w mi, r_extras st)
  end.

(** ** Writing *)

(** A unit as [WriteMovementInfo] sees it: its identifier, its position, the
    identifier of the vehicle or transport it is on (zero for none), whether a
    spline moves it, and its movement record. *)
Record UnitView := {
  un_guid : Z;
  un_pos : Position;
  un_transGuid : Z;
  un_splineEnabled : bool;
  un_info : MovementInfo
}.

Definition w_hasMovementFlags (u : UnitView) : bool := nz (mi_flags (un_info u)).
Definition w_hasMovementFlags2 (u : UnitView) : bool := nz (mi_flags2 (un_info u)).
Definition w_hasTimestamp (u : UnitView) : bool := true.
Definition w_hasOrientation (u : UnitView) : bool :=
  negb (fuzzyEq (f32_of_bits (m_orientation (un_pos u))) f32_zero).
Definition w_hasTransportData (u : UnitView) : bool := nz (un_transGuid u).
Definition w_hasTransportTime2 (u : UnitView) : bool :=
  w_hasTransportData u && nz (tr_time2 (transport (un_info u))).
Definition w_hasTransportVehicleId (u : UnitView) : bool :=
  w_hasTransportData u && nz (tr_vehicleId (transport (un_info u))).
Definition w_hasPitch (u : UnitView) : bool :=
  HasMovementFlag (Z.lor MOVEMENTFLAG_SWIMMING MOVEMENTFLAG_FLYING) (un_info u)
  || HasExtraMovementFlag MOVEMENTFLAG2_ALWAYS_ALLOW_PITCHING (un_info u).
Definition w_hasFallDirection (u : UnitView) : bool := HasMovementFlag MOVEMENTFLAG_FALLING (un_info u).
Definition w_hasFallData (u : UnitView) : bool :=
  w_hasFallDirection u || nz (fallTime (jump (un_info u))).
Definition w_hasSplineElevation (u : UnitView) : bool :=
  HasMovementFlag MOVEMENTFLAG_SPLINE_ELEVATION (un_info u).
Definition w_tguid (u : UnitView) : Z := if w_hasTransportData u then un_transGuid u else 0.

Definition write_bit (bit : bool) : packet unit := _ ← WriteBit (Z.b2z bit); mret tt.
Definition when (cond : bool) (m : packet unit) : packet unit := if cond then m else mret tt.

(** One round of the loop of [WriteMovementInfo]. *)
Definition write_element (u : UnitView) (counter : option Z) (element : MovementStatusElements)
    (extras : option ExtraMovementStatusElement) : packet (option ExtraMovementStatusElement) :=
  let mi := un_info u in
  let done (m : packet unit) := m;; mret extras in
  match element with
  | MSEHasGuidByte0 | MSEHasGuidByte1 | MSEHasGuidByte2 | MSEHasGuidByte3 | MSEHasGuidByte4 | MSEHasGuidByte5 | MSEHasGuidByte6 | MSEHasGuidByte7 =>
      done (byte ← guid_get (guid_bytes (un_guid u)) (offset element MSEHasGuidByte0); _ ← WriteBit byte; mret tt)
  | MSEHasTransportGuidByte0 | MSEHasTransportGuidByte1 | MSEHasTransportGuidByte2 | MSEHasTransportGuidByte3 | MSEHasTransportGuidByte4 | MSEHasTransportGuidByte5 | MSEHasTransportGuidByte6 | MSEHasTransportGuidByte7 =>
      done (when (w_hasTransportData u)
        (byte ← guid_get (guid_bytes (w_tguid u)) (offset element MSEHasTransportGuidByte0);
         _ ← WriteBit byte; mret tt))
  | MSEGuidByte0 | MSEGuidByte1 | MSEGuidByte2 | MSEGuidByte3 | MSEGuidByte4 | MSEGuidByte5 | MSEGuidByte6 | MSEGuidByte7 =>
      done (byte ← guid_get (guid_bytes (un_guid u)) (offset element MSEGuidByte0); WriteByteSeq byte)
  | MSETransportGuidByte0 | MSETransportGuidByte1 | MSETransportGuidByte2 | MSETransportGuidByte3 | MSETransportGuidByte4 | MSETransportGuidByte5 | MSETransportGuidByte6 | MSETransportGuidByte7 =>
      done (when (w_hasTransportData u)
        (byte ← guid_get (guid_bytes (w_tguid u)) (offset element MSETransportGuidByte0); WriteByteSeq byte))
  | MSEHasMovementFlags => done (write_bit (negb (w_hasMovementFlags u)))
  | MSEHasMovementFlags2 => done (write_bit (negb (w_hasMovementFlags2 u)))
  | MSEHasTimestamp => done (write_bit (negb (w_hasTimestamp u)))
  | MSEHasOrientation => done (write_bit (negb (w_hasOrientation u)))
  | MSEHasTransportData => done (write_bit (w_hasTransportData u))
  | MSEHasTransportTime2 => done (when (w_hasTransportData u) (write_bit (w_hasTransportTime2 u)))
  | MSEHasVehicleId => done (when (w_hasTransportData u) (write_bit (w_hasTransportVehicleId u)))
  | MSEHasPitch => done (write_bit (negb (w_hasPitch u)))
  | MSEHasFallData => done (write_bit (w_hasFallData u))
  | MSEHasFallDirection => done (when (w_hasFallData u) (write_bit (w_hasFallDirection u)))
  | MSEHasSplineElevation => done (write_bit (negb (w_hasSplineElevation u)))
  | MSEHasSpline => done (write_bit (un_splineEnabled u))
  | MSEHasHeightChangeFailed => done (write_bit (heightChangeFailed mi))
  | MSEMovementFlags => done (when (w_hasMovementFlags u) (WriteBits (mi_flags mi) 30))
  | MSEMovementFlags2 => done (when (w_hasMovementFlags2 u) (WriteBits (mi_flags2 mi) 12))
  | MSETimestamp => done (when (w_hasTimestamp u) (append_u32 (mi_time mi)))
  | MSEPositionX => done (append_float (m_positionX (un_pos u)))
  | MSEPositionY => done (append_float (m_positionY (un_pos u)))
  | MSEPositionZ => done (append_float (m_positionZ (un_pos u)))
  | MSEOrientation => done (when (w_hasOrientation u) (append_float (m_orientation (un_pos u))))
  | MSETransportPositionX =>
      done (when (w_hasTransportData u) (append_float (m_positionX (tr_pos (transport mi)))))
  | MSETransportPositionY =>
      done (when (w_hasTransportData u) (append_float (m_positionY (tr_pos (transport mi)))))
  | MSETransportPositionZ =>
      done (when (w_hasTransportData u) (append_float (m_positionZ (tr_pos (transport mi)))))
  | MSETransportOrientation =>
      done (when (w_hasTransportData u) (append_float (m_orientation (tr_pos (transport mi)))))
  | MSETransportSeat => done (when (w_hasTransportData u) (append_i8 (tr_seat (transport mi))))
  | MSETransportTime => done (when (w_hasTransportData u) (append_u32 (tr_time (transport mi))))
  | MSETransportTime2 =>
      done (when (w_hasTransportData u && w_hasTransportTime2 u) (append_u32 (tr_time2 (transport mi))))
  | MSETransportVehicleId =>
      done (when (w_hasTransportData u && w_hasTransportVehicleId u) (append_u32 (tr_vehicleId (transport mi))))
  | MSEPitch => done (when (w_hasPitch u) (append_float (pitch mi)))
  | MSEFallTime => done (when (w_hasFallData u) (append_u32 (fallTime (jump mi))))
  | MSEFallVerticalSpeed => done (when (w_hasFallData u) (append_float (zspeed (jump mi))))
  | MSEFallCosAngle =>
      done (when (w_hasFallData u && w_hasFallDirection u) (append_float (cosAngle (jump mi))))
  | MSEFallSinAngle =>
      done (when (w_hasFallData u && w_hasFallDirection u) (append_float (sinAngle (jump mi))))
  | MSEFallHorizontalSpeed =>
      done (when (w_hasFallData u && w_hasFallDirection u) (append_float (xyspeed (jump mi))))
  | MSESplineElevation => done (when (w_hasSplineElevation u) (append_float (splineElevation mi)))
  | MSECounter => done (append_u32 (match counter with Some c => c | None => 0 end))
  | MSEZeroBit => done (write_bit false)
  | MSEOneBit => done (write_bit true)
  | MSEFlushBits => done FlushBits
  | MSEExtraElement => through WriteNextElement extras
  | _ => fail AssertionFailed
  end.

Fixpoint write_elements (u : UnitView) (counter : option Z) (sequence : list MovementStatusElements)
    (extras : option ExtraMovementStatusElement) : packet (option ExtraMovementStatusElement) :=
  match sequence with
  | [] => fail (Undefined OutOfArray)
  | MSEEnd :: _ => mret extras
  | element :: sequence =>
      extras ← write_element u counter element extras;
      write_elements u counter sequence extras
  end.

Definition WriteMovementInfo (u : UnitView) (opcode : Z) (extras : option ExtraMovementStatusElement)
    (movementCounter : option Z) : packet (option ExtraMovementStatusElement) :=
  match GetMovementStatusElementsSequence opcode with
  | None => mret extras
  | Some sequence => write_elements u movementCounter sequence extras
  end.

(** ** Handlers

    The opcodes a client sends with a movement packet, the handler each is
    bound to, and how the handler reads the packet: into a new record, with the
    extra elements it declares. *)
Inductive movement_handler :=
  | HandleChangeSeatsOnControlledVehicle
  | HandleDismissControlledVehicle
  | HandleMoveRootAck
  | HandleMoveUnRootAck
  | HandleMovementOpcodes
  | HandleFeatherFallAck
  | HandleForceSpeedChangeAck
  | HandleMoveGravityDisableAck
  | HandleMoveHoverAck
  | HandleMoveKnockBackAck
  | HandleMoveNotActiveMover
  | HandleMoveSetCanFlyAckOpcode
  | HandleMoveSetCanTransitionBetweenSwinAndFlyAck
  | HandleSetCollisionHeightAck
  | HandleMoveSplineDoneOpcode
  | HandleMoveWaterWalkAck.

Definition client_handlers : list (Z * movement_handler) :=
  [(CMSG_CHANGE_SEATS_ON_CONTROLLED_VEHICLE, HandleChangeSeatsOnControlledVehicle);
   (CMSG_DISMISS_CONTROLLED_VEHICLE, HandleDismissControlledVehicle);
   (CMSG_FORCE_MOVE_ROOT_ACK, HandleMoveRootAck);
   (CMSG_FORCE_MOVE_UNROOT_ACK, HandleMoveUnRootAck);
   (CMSG_MOVE_CHNG_TRANSPORT, HandleMovementOpcodes);
   (CMSG_MOVE_FALL_RESET, HandleMovementOpcodes);
   (CMSG_MOVE_FEATHER_FALL_ACK, HandleFeatherFallAck);
   (CMSG_MOVE_FORCE_FLIGHT_BACK_SPEED_CHANGE_ACK, HandleForceSpeedChangeAck);
   (CMSG_MOVE_FORCE_FLIGHT_SPEED_CHANGE_ACK, HandleForceSpeedChangeAck);
   (CMSG_MOVE_FORCE_PITCH_RATE_CHANGE_ACK, HandleForceSpeedChangeAck);
   (CMSG_MOVE_FORCE_RUN_BACK_SPEED_CHANGE_ACK, HandleForceSpeedChangeAck);
   (CMSG_MOVE_FORCE_RUN_SPEED_CHANGE_ACK, HandleForceSpeedChangeAck);
   (CMSG_MOVE_FORCE_SWIM_BACK_SPEED_CHANGE_ACK, HandleForceSpeedChangeAck);
   (CMSG_MOVE_FORCE_SWIM_SPEED_CHANGE_ACK, HandleForceSpeedChangeAck);
   (CMSG_MOVE_FORCE_TURN_RATE_CHANGE_ACK, HandleForceSpeedChangeAck);
   (CMSG_MOVE_FORCE_WALK_SPEED_CHANGE_ACK, HandleForceSpeedChangeAck);
   (CMSG_MOVE_GRAVITY_DISABLE_ACK, HandleMoveGravityDisableAck);
   (CMSG_MOVE_GRAVITY_ENABLE_ACK, HandleMoveGravityDisableAck);
   (CMSG_MOVE_HOVER_ACK, HandleMoveHoverAck);
   (CMSG_MOVE_KNOCK_BACK_ACK, HandleMoveKnockBackAck);
   (CMSG_MOVE_NOT_ACTIVE_MOVER, HandleMoveNotActiveMover);
   (CMSG_MOVE_SET_CAN_FLY, HandleMovementOpcodes);
   (CMSG_MOVE_SET_CAN_FLY_ACK, HandleMoveSetCanFlyAckOpcode);
   (CMSG_MOVE_SET_CAN_TRANSITION_BETWEEN_SWIM_AND_FLY_ACK, HandleMoveSetCanTransitionBetweenSwinAndFlyAck);
   (CMSG_MOVE_SET_COLLISION_HEIGHT_ACK, HandleSetCollisionHeightAck);
   (CMSG_MOVE_SPLINE_DONE, HandleMoveSplineDoneOpcode);
   (CMSG_MOVE_WATER_WALK_ACK, HandleMoveWaterWalkAck)].

Definition both_handlers : list (Z * movement_handler) :=
  [(MSG_MOVE_FALL_LAND, HandleMovementOpcodes);
   (MSG_MOVE_HEARTBEAT, HandleMovementOpcodes);
   (MSG_MOVE_JUMP, HandleMovementOpcodes);
   (MSG_MOVE_SET_FACING, HandleMovementOpcodes);
   (MSG_MOVE_SET_PITCH, HandleMovementOpcodes);
   (MSG_MOVE_SET_RUN_MODE, HandleMovementOpcodes);
   (MSG_MOVE_SET_WALK_MODE, HandleMovementOpcodes);
   (MSG_MOVE_START_ASCEND, HandleMovementOpcodes);
   (MSG_MOVE_START_BACKWARD, HandleMovementOpcodes);
   (MSG_MOVE_START_DESCEND, HandleMovementOpcodes);
   (MSG_MOVE_START_FORWARD, HandleMovementOpcodes);
   (MSG_MOVE_START_PITCH_DOWN, HandleMovementOpcodes);
   (MSG_MOVE_START_PITCH_UP, HandleMovementOpcodes);
   (MSG_MOVE_START_STRAFE_LEFT, HandleMovementOpcodes);
   (MSG_MOVE_START_STRAFE_RIGHT, HandleMovementOpcodes);
   (MSG_MOVE_START_SWIM, HandleMovementOpcodes);
   (MSG_MOVE_START_TURN_LEFT, HandleMovementOpcodes);
   (MSG_MOVE_START_TURN_RIGHT, HandleMovementOpcodes);
   (MSG_MOVE_STOP, HandleMovementOpcodes);
   (MSG_MOVE_STOP_ASCEND, HandleMovementOpcodes);
   (MSG_MOVE_STOP_PITCH, HandleMovementOpcodes);
   (MSG_MOVE_STOP_STRAFE, HandleMovementOpcodes);
   (MSG_MOVE_STOP_SWIM, HandleMovementOpcodes);
   (MSG_MOVE_STOP_TURN, HandleMovementOpcodes)].

(** [accessoryGuid] of [HandleChangeSeatsOnControlledVehicle]. *)
Definition accessoryGuid : list MovementStatusElements :=
  [MSEExtraInt8;
   MSEHasGuidByte2; MSEHasGuidByte4; MSEHasGuidByte7; MSEHasGuidByte6; MSEHasGuidByte5;
   MSEHasGuidByte0; MSEHasGuidByte1; MSEHasGuidByte3;
   MSEGuidByte6; MSEGuidByte1; MSEGuidByte2; MSEGuidByte5; MSEGuidByte3; MSEGuidByte0;
   MSEGuidByte4; MSEGuidByte7].

(** [speedElement] of [HandleForceSpeedChangeAck]. *)
Definition speedElement : list MovementStatusElements := [MSEExtraFloat].

(** [extraElements] of [HandleSetCollisionHeightAck]. *)
Definition heightElements : list MovementStatusElements := [MSEExtraFloat; MSEExtraTwoBits].

Definition handler_elements (h : movement_handler) : option (list MovementStatusElements) :=
  match h with
  | HandleForceSpeedChangeAck => Some speedElement
  | HandleSetCollisionHeightAck => Some heightElements
  | HandleChangeSeatsOnControlledVehicle => Some accessoryGuid
  | _ => None
  end.

(** [HandleMoveSplineDoneOpcode] skips a number before the movement data. *)
Definition handler_skip (h : movement_handler) : packet unit :=
  match h with
  | HandleMoveSplineDoneOpcode => read_skip 4
  | _ => mret tt
  end.

Definition handler_read (w : PlayerWorld) (h : movement_handler) (opcode : Z) :
    packet (MovementInfo * option ExtraMovementStatusElement) :=
  handler_skip h;;
  ReadMovementInfo w opcode MovementInfo_new (Extra <$> handler_elements h).
