(* ===== verification/MovementView.v ===== *)
(** What the writer of a movement packet puts into it, element by element, and
    what its reader has learnt after any number of elements. *)
From Stdlib Require Import ZArith Lia Bool.
From Corelib Require Import SpecFloat.
From stdpp Require Import base list tactics.
From S2P Require Import Prelude Doubles ByteBuffer BitStream BitReader MovementStructures MovementInfo MovementPackets.

Open Scope Z_scope.

(** ** Slots

    The elements of a sequence, its extra elements replaced by those they stand
    for. *)
Inductive slot :=
  | Own (e : MovementStatusElements)
  | Ext (e : MovementStatusElements).

Definition slot_beq (a b : slot) : bool :=
  match a, b with
  | Own x, Own y | Ext x, Ext y => MovementStatusElements_beq x y
  | _, _ => false
  end.

Definition has (s : slot) (seen : list slot) : bool := existsb (slot_beq s) seen.

Fixpoint slots (sequence extra : list MovementStatusElements) : option (list slot) :=
  match sequence with
  | [] => None
  | MSEEnd :: _ => Some []
  | MSEExtraElement :: sequence =>
      match extra with
      | x :: extra => cons (Ext x) <$> slots sequence extra
      | [] => None
      end
  | e :: sequence => cons (Own e) <$> slots sequence extra
  end.

(** ** What is written *)

(** The data of the extra elements a writer passes along. *)
Record ExtraData := { xd_guid : Z; xd_float : Z; xd_byte : Z }.

(** Everything a packet is written from. *)
Record Source := {
  src_unit : UnitView;
  src_counter : option Z;
  src_extra : ExtraData
}.

Definition guid_at (guid : Z) (i : nat) : Z := nth i (guid_bytes guid) 0.

Definition emit_mark (guid : Z) (i : nat) : list item := [IBit (nz (guid_at guid i))].
Definition emit_byte (guid : Z) (i : nat) : list item :=
  if nz (guid_at guid i) then [IByte (Z.lxor (guid_at guid i) 1)] else [].
Definition emit_when (cond : bool) (l : list item) : list item := if cond then l else [].
Definition emit_u32 (v : Z) : list item := Bytes (le_bytes 4 v).
Definition emit_i8 (v : Z) : list item := [IByte (v mod 256)].

Definition emit_own (r : Source) (e : MovementStatusElements) : list item :=
  let u := src_unit r in
  let mi := un_info u in
  let t := w_hasTransportData u in
  match e with
  | MSEHasGuidByte0 | MSEHasGuidByte1 | MSEHasGuidByte2 | MSEHasGuidByte3 | MSEHasGuidByte4 | MSEHasGuidByte5 | MSEHasGuidByte6 | MSEHasGuidByte7 =>
      emit_mark (un_guid u) (offset e MSEHasGuidByte0)
  | MSEHasTransportGuidByte0 | MSEHasTransportGuidByte1 | MSEHasTransportGuidByte2 | MSEHasTransportGuidByte3 | MSEHasTransportGuidByte4 | MSEHasTransportGuidByte5 | MSEHasTransportGuidByte6 | MSEHasTransportGuidByte7 =>
      emit_when t (emit_mark (w_tguid u) (offset e MSEHasTransportGuidByte0))
  | MSEGuidByte0 | MSEGuidByte1 | MSEGuidByte2 | MSEGuidByte3 | MSEGuidByte4 | MSEGuidByte5 | MSEGuidByte6 | MSEGuidByte7 =>
      emit_byte (un_guid u) (offset e MSEGuidByte0)
  | MSETransportGuidByte0 | MSETransportGuidByte1 | MSETransportGuidByte2 | MSETransportGuidByte3 | MSETransportGuidByte4 | MSETransportGuidByte5 | MSETransportGuidByte6 | MSETransportGuidByte7 =>
      emit_when t (emit_byte (w_tguid u) (offset e MSETransportGuidByte0))
  | MSEHasMovementFlags => [IBit (negb (w_hasMovementFlags u))]
  | MSEHasMovementFlags2 => [IBit (negb (w_hasMovementFlags2 u))]
  | MSEHasTimestamp => [IBit (negb (w_hasTimestamp u))]
  | MSEHasOrientation => [IBit (negb (w_hasOrientation u))]
  | MSEHasTransportData => [IBit t]
  | MSEHasTransportTime2 => emit_when t [IBit (w_hasTransportTime2 u)]
  | MSEHasVehicleId => emit_when t [IBit (w_hasTransportVehicleId u)]
  | MSEHasPitch => [IBit (negb (w_hasPitch u))]
  | MSEHasFallData => [IBit (w_hasFallData u)]
  | MSEHasFallDirection => emit_when (w_hasFallData u) [IBit (w_hasFallDirection u)]
  | MSEHasSplineElevation => [IBit (negb (w_hasSplineElevation u))]
  | MSEHasSpline => [IBit (un_splineEnabled u)]
  | MSEHasHeightChangeFailed => [IBit (heightChangeFailed mi)]
  | MSEMovementFlags => emit_when (w_hasMovementFlags u) (Bits 30 (mi_flags mi))
  | MSEMovementFlags2 => emit_when (w_hasMovementFlags2 u) (Bits 12 (mi_flags2 mi))
  | MSETimestamp => emit_when (w_hasTimestamp u) (emit_u32 (mi_time mi))
  | MSEPositionX => emit_u32 (m_positionX (un_pos u))
  | MSEPositionY => emit_u32 (m_positionY (un_pos u))
  | MSEPositionZ => emit_u32 (m_positionZ (un_pos u))
  | MSEOrientation => emit_when (w_hasOrientation u) (emit_u32 (m_orientation (un_pos u)))
  | MSETransportPositionX => emit_when t (emit_u32 (m_positionX (tr_pos (transport mi))))
  | MSETransportPositionY => emit_when t (emit_u32 (m_positionY (tr_pos (transport mi))))
  | MSETransportPositionZ => emit_when t (emit_u32 (m_positionZ (tr_pos (transport mi))))
  | MSETransportOrientation => emit_when t (emit_u32 (m_orientation (tr_pos (transport mi))))
  | MSETransportSeat => emit_when t (emit_i8 (tr_seat (transport mi)))
  | MSETransportTime => emit_when t (emit_u32 (tr_time (transport mi)))
  | MSETransportTime2 => emit_when (t && w_hasTransportTime2 u) (emit_u32 (tr_time2 (transport mi)))
  | MSETransportVehicleId =>
      emit_when (t && w_hasTransportVehicleId u) (emit_u32 (tr_vehicleId (transport mi)))
  | MSEPitch => emit_when (w_hasPitch u) (emit_u32 (pitch mi))
  | MSEFallTime => emit_when (w_hasFallData u) (emit_u32 (fallTime (jump mi)))
  | MSEFallVerticalSpeed => emit_when (w_hasFallData u) (emit_u32 (zspeed (jump mi)))
  | MSEFallCosAngle => emit_when (w_hasFallData u && w_hasFallDirection u) (emit_u32 (cosAngle (jump mi)))
  | MSEFallSinAngle => emit_when (w_hasFallData u && w_hasFallDirection u) (emit_u32 (sinAngle (jump mi)))
  | MSEFallHorizontalSpeed =>
      emit_when (w_hasFallData u && w_hasFallDirection u) (emit_u32 (xyspeed (jump mi)))
  | MSESplineElevation => emit_when (w_hasSplineElevation u) (emit_u32 (splineElevation mi))
  | MSECounter => emit_u32 (match src_counter r with Some c => c | None => 0 end)
  | MSEZeroBit => [IBit false]
  | MSEOneBit => [IBit true]
  | _ => []
  end.

Definition emit_ext (r : Source) (e : MovementStatusElements) : list item :=
  let x := src_extra r in
  match e with
  | MSEHasGuidByte0 | MSEHasGuidByte1 | MSEHasGuidByte2 | MSEHasGuidByte3 | MSEHasGuidByte4 | MSEHasGuidByte5 | MSEHasGuidByte6 | MSEHasGuidByte7 =>
      emit_mark (xd_guid x) (offset e MSEHasGuidByte0)
  | MSEGuidByte0 | MSEGuidByte1 | MSEGuidByte2 | MSEGuidByte3 | MSEGuidByte4 | MSEGuidByte5 | MSEGuidByte6 | MSEGuidByte7 =>
      emit_byte (xd_guid x) (offset e MSEGuidByte0)
  | MSEExtraFloat => emit_u32 (xd_float x)
  | MSEExtraInt8 => emit_i8 (xd_byte x)
  | MSEExtraTwoBits => Bits 2 (xd_byte x)
  | _ => []
  end.

Definition emit (r : Source) (s : slot) : list item :=
  match s with Own e => emit_own r e | Ext e => emit_ext r e end.

(** ** What is known *)

Definition guid_marks : list (MovementStatusElements * MovementStatusElements) :=
  [(MSEHasGuidByte0, MSEGuidByte0); (MSEHasGuidByte1, MSEGuidByte1);
   (MSEHasGuidByte2, MSEGuidByte2); (MSEHasGuidByte3, MSEGuidByte3);
   (MSEHasGuidByte4, MSEGuidByte4); (MSEHasGuidByte5, MSEGuidByte5);
   (MSEHasGuidByte6, MSEGuidByte6); (MSEHasGuidByte7, MSEGuidByte7)].
Definition transport_guid_marks : list (MovementStatusElements * MovementStatusElements) :=
  [(MSEHasTransportGuidByte0, MSETransportGuidByte0);
   (MSEHasTransportGuidByte1, MSETransportGuidByte1);
   (MSEHasTransportGuidByte2, MSETransportGuidByte2);
   (MSEHasTransportGuidByte3, MSETransportGuidByte3);
   (MSEHasTransportGuidByte4, MSETransportGuidByte4);
   (MSEHasTransportGuidByte5, MSETransportGuidByte5);
   (MSEHasTransportGuidByte6, MSETransportGuidByte6);
   (MSEHasTransportGuidByte7, MSETransportGuidByte7)].


(** The bytes of an identifier, as far as they are known: a byte that was only
    announced is 1. *)
Definition known_guid (wrap : MovementStatusElements -> slot) (known : list slot) (guid : Z)
    (marks : list (MovementStatusElements * MovementStatusElements)) : list Z :=
  imap (fun i m =>
    if has (wrap m.2) known then guid_at guid i
    else if has (wrap m.1) known then Z.b2z (nz (guid_at guid i)) else 0) marks.

(** A field of the packet: the value of its source once its element was seen
    and when it is sent, and the initial value otherwise. *)
Definition known (s : MovementStatusElements) (seen : list slot) (sent : bool) (value initial : Z) : Z :=
  if has (Own s) seen && sent then value else initial.

Definition known_position (seen : list slot) (u : UnitView) : Position :=
  {| m_positionX := known MSEPositionX seen true (m_positionX (un_pos u)) 0;
     m_positionY := known MSEPositionY seen true (m_positionY (un_pos u)) 0;
     m_positionZ := known MSEPositionZ seen true (m_positionZ (un_pos u)) 0;
     m_orientation := known MSEOrientation seen (w_hasOrientation u)
                        (normalize_bits (m_orientation (un_pos u))) 0 |}.

Definition known_transport (seen : list slot) (u : UnitView) : TransportInfo :=
  let t := w_hasTransportData u in
  let tr := transport (un_info u) in
  {| tr_guid := 0;
     tr_pos :=
       {| m_positionX := known MSETransportPositionX seen t (m_positionX (tr_pos tr)) 0;
          m_positionY := known MSETransportPositionY seen t (m_positionY (tr_pos tr)) 0;
          m_positionZ := known MSETransportPositionZ seen t (m_positionZ (tr_pos tr)) 0;
          m_orientation := known MSETransportOrientation seen t
                             (normalize_bits (m_orientation (tr_pos tr))) 0 |};
     tr_seat := known MSETransportSeat seen t (tr_seat tr) (-1);
     tr_time := known MSETransportTime seen t (tr_time tr) 0;
     tr_time2 := known MSETransportTime2 seen (t && w_hasTransportTime2 u) (tr_time2 tr) 0;
     tr_vehicleId := known MSETransportVehicleId seen (t && w_hasTransportVehicleId u)
                       (tr_vehicleId tr) 0 |}.

Definition known_jump (seen : list slot) (u : UnitView) : JumpInfo :=
  let j := jump (un_info u) in
  let f := w_hasFallData u in
  let d := w_hasFallData u && w_hasFallDirection u in
  {| fallTime := known MSEFallTime seen f (fallTime j) 0;
     zspeed := known MSEFallVerticalSpeed seen f (zspeed j) 0;
     sinAngle := known MSEFallSinAngle seen d (sinAngle j) 0;
     cosAngle := known MSEFallCosAngle seen d (cosAngle j) 0;
     xyspeed := known MSEFallHorizontalSpeed seen d (xyspeed j) 0 |}.

(** The pitch, wrapped as the reader does. *)
Definition wrap_bits (v : Z) : Z :=
  match wrap (f32_of_bits v) (SFopp pi32) pi32 with Some x => f32_to_bits x | None => 0 end.

Definition known_info (seen : list slot) (r : Source) : MovementInfo :=
  let u := src_unit r in
  let mi := un_info u in
  {| mi_guid := 0;
     mi_flags := known MSEMovementFlags seen (w_hasMovementFlags u) (mi_flags mi) 0;
     mi_flags2 := known MSEMovementFlags2 seen (w_hasMovementFlags2 u) (mi_flags2 mi) 0;
     mi_pos := known_position seen u;
     mi_time := known MSETimestamp seen (w_hasTimestamp u) (mi_time mi) 0;
     movementCounter := known MSECounter seen true (match src_counter r with Some c => c | None => 0 end) 0;
     transport := known_transport seen u;
     pitch := known MSEPitch seen (w_hasPitch u) (wrap_bits (pitch mi)) 0;
     jump := known_jump seen u;
     splineElevation := known MSESplineElevation seen (w_hasSplineElevation u) (splineElevation mi) 0;
     heightChangeFailed := false |}.

(** The extra elements read so far, of a reader that expects [elements]. *)
Definition known_extra (seen : list slot) (x : ExtraData) (elements : list MovementStatusElements) :
    ExtraMovementStatusElement :=
  {| ex_elements := elements;
     ex_index := length (List.filter (fun s => match s with Ext _ => true | _ => false end) seen);
     ex_guid := known_guid Ext seen (xd_guid x) guid_marks;
     ex_floatData := if has (Ext MSEExtraFloat) seen then xd_float x else 0;
     ex_byteData := if has (Ext MSEExtraInt8) seen || has (Ext MSEExtraTwoBits) seen
                    then xd_byte x else 0 |}.

(** The state of the reader once it has seen the given slots. *)
Definition view (r : Source) (elements : option (list MovementStatusElements)) (seen : list slot) :
    ReadState :=
  let u := src_unit r in
  {| r_hasMovementFlags := has (Own MSEHasMovementFlags) seen && w_hasMovementFlags u;
     r_hasMovementFlags2 := has (Own MSEHasMovementFlags2) seen && w_hasMovementFlags2 u;
     r_hasTimestamp := has (Own MSEHasTimestamp) seen && w_hasTimestamp u;
     r_hasOrientation := has (Own MSEHasOrientation) seen && w_hasOrientation u;
     r_hasTransportData := has (Own MSEHasTransportData) seen && w_hasTransportData u;
     r_hasTransportTime2 := has (Own MSEHasTransportTime2) seen && w_hasTransportTime2 u;
     r_hasTransportVehicleId := has (Own MSEHasVehicleId) seen && w_hasTransportVehicleId u;
     r_hasPitch := has (Own MSEHasPitch) seen && w_hasPitch u;
     r_hasFallData := has (Own MSEHasFallData) seen && w_hasFallData u;
     r_hasFallDirection := has (Own MSEHasFallDirection) seen && (w_hasFallData u && w_hasFallDirection u);
     r_hasSplineElevation := has (Own MSEHasSplineElevation) seen && w_hasSplineElevation u;
     r_guid := known_guid Own seen (un_guid u) guid_marks;
     r_tguid := known_guid Own seen (w_tguid u) transport_guid_marks;
     r_mi := known_info seen r;
     r_extras := known_extra seen (src_extra r) <$> elements |}.
