(* ===== verification/MovementReadSpec.v ===== *)
(** The reader of movement packets takes off a packet what its writer put
    there, and learns it. *)
From Stdlib Require Import ZArith Lia Bool.
From Corelib Require Import SpecFloat.
From stdpp Require Import base list tactics.
From S2P Require Import Prelude Doubles ByteBuffer BitStream BitReader MovementStructures MovementInfo MovementPackets MovementView.

Open Scope Z_scope.

(** ** Sequences that can be read back

    A slot can follow those seen when every presence bit it depends on was
    seen, and it is no byte of an identifier seen before. *)
Definition fresh_own (marks : list (MovementStatusElements * MovementStatusElements))
    (wrap : MovementStatusElements -> slot) (i : nat) (seen : list slot) : bool :=
  match nth_error marks i with Some m => negb (has (wrap m.2) seen) | None => false end.

Definition announced (marks : list (MovementStatusElements * MovementStatusElements))
    (wrap : MovementStatusElements -> slot) (i : nat) (seen : list slot) : bool :=
  match nth_error marks i with
  | Some m => has (wrap m.1) seen && negb (has (wrap m.2) seen)
  | None => false
  end.

Definition own_ok (seen : list slot) (e : MovementStatusElements) : bool :=
  let t := has (Own MSEHasTransportData) seen in
  let f := has (Own MSEHasFallData) seen in
  match e with
  | MSEHasGuidByte0 | MSEHasGuidByte1 | MSEHasGuidByte2 | MSEHasGuidByte3 | MSEHasGuidByte4 | MSEHasGuidByte5 | MSEHasGuidByte6 | MSEHasGuidByte7 =>
      fresh_own guid_marks Own (offset e MSEHasGuidByte0) seen
  | MSEHasTransportGuidByte0 | MSEHasTransportGuidByte1 | MSEHasTransportGuidByte2 | MSEHasTransportGuidByte3 | MSEHasTransportGuidByte4 | MSEHasTransportGuidByte5 | MSEHasTransportGuidByte6 | MSEHasTransportGuidByte7 =>
      t && fresh_own transport_guid_marks Own (offset e MSEHasTransportGuidByte0) seen
  | MSEGuidByte0 | MSEGuidByte1 | MSEGuidByte2 | MSEGuidByte3 | MSEGuidByte4 | MSEGuidByte5 | MSEGuidByte6 | MSEGuidByte7 =>
      announced guid_marks Own (offset e MSEGuidByte0) seen
  | MSETransportGuidByte0 | MSETransportGuidByte1 | MSETransportGuidByte2 | MSETransportGuidByte3 | MSETransportGuidByte4 | MSETransportGuidByte5 | MSETransportGuidByte6 | MSETransportGuidByte7 =>
      t && announced transport_guid_marks Own (offset e MSETransportGuidByte0) seen
  | MSEHasTransportTime2 | MSEHasVehicleId | MSETransportPositionX | MSETransportPositionY
  | MSETransportPositionZ | MSETransportOrientation | MSETransportSeat | MSETransportTime => t
  | MSEHasFallDirection | MSEFallTime | MSEFallVerticalSpeed => f
  | MSEFallCosAngle | MSEFallSinAngle | MSEFallHorizontalSpeed => f && has (Own MSEHasFallDirection) seen
  | MSEMovementFlags => has (Own MSEHasMovementFlags) seen
  | MSEMovementFlags2 => has (Own MSEHasMovementFlags2) seen
  | MSETimestamp => has (Own MSEHasTimestamp) seen
  | MSEOrientation => has (Own MSEHasOrientation) seen
  | MSETransportTime2 => t && has (Own MSEHasTransportTime2) seen
  | MSETransportVehicleId => t && has (Own MSEHasVehicleId) seen
  | MSEPitch => has (Own MSEHasPitch) seen
  | MSESplineElevation => has (Own MSEHasSplineElevation) seen
  | MSEFlushBits | MSEEnd | MSEExtraElement | MSEExtraFloat | MSEExtraInt8 | MSEExtraTwoBits => false
  | _ => true
  end.

Definition ext_ok (seen : list slot) (e : MovementStatusElements) : bool :=
  match e with
  | MSEHasGuidByte0 | MSEHasGuidByte1 | MSEHasGuidByte2 | MSEHasGuidByte3 | MSEHasGuidByte4 | MSEHasGuidByte5 | MSEHasGuidByte6 | MSEHasGuidByte7 =>
      fresh_own guid_marks Ext (offset e MSEHasGuidByte0) seen
  | MSEGuidByte0 | MSEGuidByte1 | MSEGuidByte2 | MSEGuidByte3 | MSEGuidByte4 | MSEGuidByte5 | MSEGuidByte6 | MSEGuidByte7 =>
      announced guid_marks Ext (offset e MSEGuidByte0) seen
  | MSEExtraFloat | MSEExtraInt8 | MSEExtraTwoBits => true
  | _ => false
  end.

Definition slot_ok (seen : list slot) (s : slot) : bool :=
  match s with Own e => own_ok seen e | Ext e => ext_ok seen e end.

(** ** Values a packet can carry *)

Definition is_u32 (v : Z) : Prop := 0 <= v < 2 ^ 32.
Definition finite_float (v : Z) : Prop := is_u32 v /\ isfinite v = true.

Record unit_ok (u : UnitView) : Prop := {
  ok_flags : 0 <= mi_flags (un_info u) < 2 ^ 30;
  ok_flags2 : 0 <= mi_flags2 (un_info u) < 2 ^ 12;
  ok_time : is_u32 (mi_time (un_info u));
  ok_x : finite_float (m_positionX (un_pos u));
  ok_y : finite_float (m_positionY (un_pos u));
  ok_z : finite_float (m_positionZ (un_pos u));
  ok_o : is_u32 (m_orientation (un_pos u));
  ok_tx : finite_float (m_positionX (tr_pos (transport (un_info u))));
  ok_ty : finite_float (m_positionY (tr_pos (transport (un_info u))));
  ok_tz : finite_float (m_positionZ (tr_pos (transport (un_info u))));
  ok_to : is_u32 (m_orientation (tr_pos (transport (un_info u))));
  ok_seat : -128 <= tr_seat (transport (un_info u)) < 128;
  ok_ttime : is_u32 (tr_time (transport (un_info u)));
  ok_ttime2 : is_u32 (tr_time2 (transport (un_info u)));
  ok_vehicle : is_u32 (tr_vehicleId (transport (un_info u)));
  ok_pitch : is_u32 (pitch (un_info u));
  ok_wrap : wrap (f32_of_bits (pitch (un_info u))) (SFopp pi32) pi32 <> None;
  ok_fall : is_u32 (fallTime (jump (un_info u)));
  ok_zspeed : finite_float (zspeed (jump (un_info u)));
  ok_sin : finite_float (sinAngle (jump (un_info u)));
  ok_cos : finite_float (cosAngle (jump (un_info u)));
  ok_xyspeed : finite_float (xyspeed (jump (un_info u)));
  ok_spline : finite_float (splineElevation (un_info u))
}.

Record source_ok (r : Source) : Prop := {
  ok_unit : unit_ok (src_unit r);
  ok_counter : is_u32 (match src_counter r with Some c => c | None => 0 end);
  ok_xfloat : finite_float (xd_float (src_extra r));
  ok_xbyte : 0 <= xd_byte (src_extra r) < 4
}.

(** ** Steps *)

Lemma guid_at_bound g i : 0 <= guid_at g i < 256.
Proof.
  unfold guid_at, guid_bytes. generalize 8%nat. intros n. revert g i.
  induction n as [|n IH]; intros g i; cbn [le_bytes]; [destruct i; cbn; lia|].
  destruct i as [|i]; cbn [nth]; [apply Z.mod_pos_bound; lia|apply IH].
Qed.

(** The marks and the bytes of identifiers. *)
Lemma takes_mark {A} (f : list Z -> A) b i l : (i < 8)%nat ->
  takes (bit ← ReadBit; guid ← guid_set i (Z.b2z bit) l; mret (f guid)) [IBit b] (f (<[i := Z.b2z b]> l)).
Proof.
  intros Hi. eapply takes_bind_ret; [apply takes_ReadBit|]. unfold guid_set.
  by rewrite (proj2 (Nat.ltb_lt _ _) Hi).
Qed.

Lemma takes_byte {A} (f : list Z -> A) v i l : (i < 8)%nat ->
  0 <= v < 256 -> nth i l 0 = Z.b2z (nz v) ->
  takes (byte ← guid_get l i; byte ← ReadByteSeq byte; guid ← guid_set i byte l; mret (f guid))
    (if nz v then [IByte (Z.lxor v 1)] else []) (f (<[i := v]> l)).
Proof.
  intros Hi Hv Hn. unfold guid_get. rewrite (proj2 (Nat.ltb_lt _ _) Hi).
  rewrite <- (app_nil_l (if nz v then _ else _)). eapply takes_bind; [apply takes_ret|].
  rewrite Hn. eapply takes_bind_ret; [by apply takes_ReadByteSeq|]. unfold guid_set.
  by rewrite (proj2 (Nat.ltb_lt _ _) Hi).
Qed.

(** An optional part. *)
Lemma takes_if {A} (c : bool) (m : packet A) l (x y : A) :
  (c = true -> takes m l x) -> (c = false -> x = y) ->
  takes (if c then m else mret y) (emit_when c l) x.
Proof.
  intros H1 H2. destruct c; [by apply H1|]. rewrite H2 by done. apply takes_ret.
Qed.

Lemma takes_field c rd set st l v st' :
  (c = true -> takes rd l v) -> (c = true -> set v st = st') -> (c = false -> st = st') ->
  takes (field c rd set st) (emit_when c l) st'.
Proof.
  intros H1 H2 H3. unfold field. apply takes_if; [|intros Hc; by rewrite H3].
  intros Hc. eapply takes_bind_ret; [by apply H1|]. by rewrite H2.
Qed.

Lemma takes_bit {A} (f : bool -> A) b x : f b = x ->
  takes (bit ← ReadBit; mret (f bit)) [IBit b] x.
Proof. intros <-. eapply takes_bind_ret; [apply takes_ReadBit|done]. Qed.

Lemma takes_pitch v : is_u32 v -> wrap (f32_of_bits v) (SFopp pi32) pi32 <> None ->
  takes read_pitch (emit_u32 v) (wrap_bits v).
Proof.
  intros Hv Hw. eapply takes_bind_ret; [by apply takes_read_u32|]. cbn beta.
  unfold wrap_bits. by destruct (wrap _ _ _).
Qed.

Lemma guid_at_0 i : guid_at 0 i = 0.
Proof. do 8 (destruct i as [|i]; [done|]). by destruct i. Qed.

Lemma same_if {A} (b : bool) (x : A) : (if b then x else x) = x.
Proof. by destruct b. Qed.

Lemma w_tguid_none u : w_hasTransportData u = false -> w_tguid u = 0.
Proof. intros H. unfold w_tguid. by rewrite H. Qed.

Lemma w_time2_none u : w_hasTransportData u = false -> w_hasTransportTime2 u = false.
Proof. intros H. unfold w_hasTransportTime2. by rewrite H. Qed.

Lemma w_vehicle_none u : w_hasTransportData u = false -> w_hasTransportVehicleId u = false.
Proof. intros H. unfold w_hasTransportVehicleId. by rewrite H. Qed.

Section Steps.
Context (r : Source) (elements : option (list MovementStatusElements)) (Hr : source_ok r).
Notation u := (src_unit r).
Notation V := (view r elements).

(** Compares two views that differ in one slot. *)
Ltac same_view :=
  unfold view, known_info, known_position, known_transport, known_jump, known_extra, known_guid, known, has in *;
  cbn -[guid_at normalize_bits wrap_bits] in *;
  repeat match goal with
    | H : w_hasTransportData _ = false |- _ =>
        rewrite ?(w_tguid_none _ H), ?(w_time2_none _ H), ?(w_vehicle_none _ H), ?H; clear H
    | H : ?x = true |- _ => rewrite ?H; clear H
    | H : ?x = false |- _ => rewrite ?H; clear H
    end;
  cbn -[guid_at normalize_bits wrap_bits];
  rewrite ?guid_at_0, ?andb_false_r; cbn [Z.b2z nz Z.eqb negb]; rewrite ?same_if; reflexivity.

(** The presence flags the reader knows are those of the writer. *)
Lemma flag_MovementFlags seen : has (Own MSEHasMovementFlags) seen = true -> r_hasMovementFlags (V seen) = w_hasMovementFlags u.
Proof. intros H. cbn. by rewrite H. Qed.
Lemma flag_MovementFlags2 seen : has (Own MSEHasMovementFlags2) seen = true -> r_hasMovementFlags2 (V seen) = w_hasMovementFlags2 u.
Proof. intros H. cbn. by rewrite H. Qed.
Lemma flag_Timestamp seen : has (Own MSEHasTimestamp) seen = true -> r_hasTimestamp (V seen) = w_hasTimestamp u.
Proof. intros H. cbn. by rewrite H. Qed.
Lemma flag_Orientation seen : has (Own MSEHasOrientation) seen = true -> r_hasOrientation (V seen) = w_hasOrientation u.
Proof. intros H. cbn. by rewrite H. Qed.
Lemma flag_TransportData seen : has (Own MSEHasTransportData) seen = true -> r_hasTransportData (V seen) = w_hasTransportData u.
Proof. intros H. cbn. by rewrite H. Qed.
Lemma flag_TransportTime2 seen : has (Own MSEHasTransportTime2) seen = true -> r_hasTransportTime2 (V seen) = w_hasTransportTime2 u.
Proof. intros H. cbn. by rewrite H. Qed.
Lemma flag_VehicleId seen : has (Own MSEHasVehicleId) seen = true -> r_hasTransportVehicleId (V seen) = w_hasTransportVehicleId u.
Proof. intros H. cbn. by rewrite H. Qed.
Lemma flag_Pitch seen : has (Own MSEHasPitch) seen = true -> r_hasPitch (V seen) = w_hasPitch u.
Proof. intros H. cbn. by rewrite H. Qed.
Lemma flag_FallData seen : has (Own MSEHasFallData) seen = true -> r_hasFallData (V seen) = w_hasFallData u.
Proof. intros H. cbn. by rewrite H. Qed.
Lemma flag_SplineElevation seen : has (Own MSEHasSplineElevation) seen = true -> r_hasSplineElevation (V seen) = w_hasSplineElevation u.
Proof. intros H. cbn. by rewrite H. Qed.
Lemma flag_FallDirection seen : has (Own MSEHasFallDirection) seen = true ->
  r_hasFallDirection (V seen) = w_hasFallData u && w_hasFallDirection u.
Proof. intros H. cbn. by rewrite H. Qed.

Ltac rewrite_flags :=
  rewrite ?flag_MovementFlags, ?flag_MovementFlags2, ?flag_Timestamp, ?flag_Orientation, ?flag_TransportData, ?flag_TransportTime2, ?flag_VehicleId, ?flag_Pitch, ?flag_FallData, ?flag_SplineElevation, ?flag_FallDirection by assumption.

Ltac split_ok H :=
  repeat match type of H with
    | _ && _ = true => let H1 := fresh "H" in apply andb_true_iff in H as [H1 H]; try split_ok H1
    end.

Lemma read_mark e seen :
  In e [MSEHasGuidByte0; MSEHasGuidByte1; MSEHasGuidByte2; MSEHasGuidByte3;
        MSEHasGuidByte4; MSEHasGuidByte5; MSEHasGuidByte6; MSEHasGuidByte7] ->
  own_ok seen e = true -> takes (read_element e (V seen)) (emit_own r e) (V (Own e :: seen)).
Proof.
  intros Hin Hok. repeat destruct Hin as [<-|Hin]; try done;
    cbn [own_ok offset element_value Nat.sub fresh_own nth_error guid_marks snd] in Hok;
    apply negb_true_iff in Hok;
    cbn [read_element emit_own offset element_value Nat.sub];
    match goal with |- takes _ (emit_mark _ ?i) ?v =>
      replace v with (set_r_guid (<[i := Z.b2z (nz (guid_at (un_guid u) i))]> (r_guid (V seen))) (V seen));
      [apply (takes_mark (fun guid => set_r_guid guid (V seen))); lia|] end.
  all: same_view.
Qed.

Lemma read_transport_mark e seen :
  In e [MSEHasTransportGuidByte0; MSEHasTransportGuidByte1; MSEHasTransportGuidByte2;
        MSEHasTransportGuidByte3; MSEHasTransportGuidByte4; MSEHasTransportGuidByte5;
        MSEHasTransportGuidByte6; MSEHasTransportGuidByte7] ->
  own_ok seen e = true -> takes (read_element e (V seen)) (emit_own r e) (V (Own e :: seen)).
Proof.
  intros Hin Hok. repeat destruct Hin as [<-|Hin]; try done;
    cbn [own_ok offset element_value Nat.sub fresh_own nth_error transport_guid_marks snd] in Hok;
    apply andb_true_iff in Hok as [Ht Hok]; apply negb_true_iff in Hok;
    cbn [read_element emit_own offset element_value Nat.sub]; rewrite_flags;
    (apply takes_if; intros Hc;
    [match goal with |- takes _ (emit_mark _ ?i) ?v =>
      replace v with (set_r_tguid (<[i := Z.b2z (nz (guid_at (w_tguid u) i))]> (r_tguid (V seen))) (V seen));
      [apply (takes_mark (fun guid => set_r_tguid guid (V seen))); lia|] end|]).
  all: same_view.
Qed.

Lemma read_byte e seen :
  In e [MSEGuidByte0; MSEGuidByte1; MSEGuidByte2; MSEGuidByte3;
        MSEGuidByte4; MSEGuidByte5; MSEGuidByte6; MSEGuidByte7] ->
  own_ok seen e = true -> takes (read_element e (V seen)) (emit_own r e) (V (Own e :: seen)).
Proof.
  intros Hin Hok. repeat destruct Hin as [<-|Hin]; try done;
    cbn [own_ok offset element_value Nat.sub announced nth_error guid_marks fst snd] in Hok;
    apply andb_true_iff in Hok as [Hh Hok]; apply negb_true_iff in Hok;
    cbn [read_element emit_own offset element_value Nat.sub];
    match goal with |- takes _ (emit_byte _ ?i) ?v =>
      replace v with (set_r_guid (<[i := guid_at (un_guid u) i]> (r_guid (V seen))) (V seen));
      [apply (takes_byte (fun guid => set_r_guid guid (V seen))); [lia|apply guid_at_bound|]|] end.
  all: same_view.
Qed.

Lemma read_transport_byte e seen :
  In e [MSETransportGuidByte0; MSETransportGuidByte1; MSETransportGuidByte2;
        MSETransportGuidByte3; MSETransportGuidByte4; MSETransportGuidByte5;
        MSETransportGuidByte6; MSETransportGuidByte7] ->
  own_ok seen e = true -> takes (read_element e (V seen)) (emit_own r e) (V (Own e :: seen)).
Proof.
  intros Hin Hok. repeat destruct Hin as [<-|Hin]; try done;
    cbn [own_ok offset element_value Nat.sub announced nth_error transport_guid_marks fst snd] in Hok;
    apply andb_true_iff in Hok as [Ht Hok]; apply andb_true_iff in Hok as [Hh Hok];
    apply negb_true_iff in Hok;
    cbn [read_element emit_own offset element_value Nat.sub]; rewrite_flags;
    (apply takes_if; intros Hc;
    [match goal with |- takes _ (emit_byte _ ?i) ?v =>
      replace v with (set_r_tguid (<[i := guid_at (w_tguid u) i]> (r_tguid (V seen))) (V seen));
      [apply (takes_byte (fun guid => set_r_tguid guid (V seen))); [lia|apply guid_at_bound|]|] end|]).
  all: same_view.
Qed.

Lemma read_flag e seen :
  In e [MSEHasMovementFlags; MSEHasMovementFlags2; MSEHasTimestamp; MSEHasOrientation;
        MSEHasTransportData; MSEHasPitch; MSEHasFallData; MSEHasSplineElevation;
        MSEHasSpline; MSEHasHeightChangeFailed; MSEZeroBit; MSEOneBit] ->
  takes (read_element e (V seen)) (emit_own r e) (V (Own e :: seen)).
Proof.
  intros Hin. repeat destruct Hin as [<-|Hin]; try done; cbn [read_element emit_own];
    apply takes_bit; rewrite ?negb_involutive; same_view.
Qed.

Lemma read_sub_flag e seen :
  In e [MSEHasTransportTime2; MSEHasVehicleId; MSEHasFallDirection] ->
  own_ok seen e = true -> takes (read_element e (V seen)) (emit_own r e) (V (Own e :: seen)).
Proof.
  intros Hin Hok. repeat destruct Hin as [<-|Hin]; try done; cbn [own_ok] in Hok;
    cbn [read_element emit_own]; rewrite_flags; (apply takes_if; intros Hc; [apply takes_bit|]).
  all: same_view.
Qed.

(** What a field is read as. *)
Ltac read_value :=
  let Hu := fresh in pose proof (ok_unit _ Hr) as Hu; pose proof (ok_counter _ Hr); destruct Hu;
  lazymatch goal with
  | |- takes (ReadBits 30) _ _ => apply (takes_ReadBits 30); [lia|assumption]
  | |- takes (ReadBits 12) _ _ => apply (takes_ReadBits 12); [lia|assumption]
  | H : finite_float ?v |- takes get_float (emit_u32 ?v) _ => apply takes_get_float; apply H
  | |- takes read_pitch _ _ => apply takes_pitch; assumption
  | |- takes read_i8 _ _ => apply takes_read_i8; assumption
  | |- _ => apply takes_read_u32; assumption
  end.

Ltac read_fields :=
  cbn [read_element emit_own]; rewrite_flags; rewrite ?andb_assoc, ?andb_diag;
  try match goal with |- takes (field true _ _ _) ?l _ => change l with (emit_when true l) end;
  (eapply takes_field; [intros _; read_value| |]); intros Hc; try discriminate Hc; same_view.

Lemma read_field e seen :
  In e [MSEMovementFlags; MSEMovementFlags2; MSETimestamp; MSEPositionX; MSEPositionY; MSEPositionZ;
        MSEOrientation; MSEPitch; MSESplineElevation; MSECounter] ->
  own_ok seen e = true -> takes (read_element e (V seen)) (emit_own r e) (V (Own e :: seen)).
Proof.
  intros Hin Hok. repeat destruct Hin as [<-|Hin]; try done; cbn [own_ok] in Hok; read_fields.
Qed.

Lemma read_fall e seen :
  In e [MSEFallTime; MSEFallVerticalSpeed; MSEFallCosAngle; MSEFallSinAngle; MSEFallHorizontalSpeed] ->
  own_ok seen e = true -> takes (read_element e (V seen)) (emit_own r e) (V (Own e :: seen)).
Proof.
  intros Hin Hok. repeat destruct Hin as [<-|Hin]; try done; cbn [own_ok] in Hok;
    rewrite ?andb_true_iff in Hok; destruct_and?; read_fields.
Qed.

Lemma read_transport e seen :
  In e [MSETransportPositionX; MSETransportPositionY; MSETransportPositionZ; MSETransportOrientation;
        MSETransportSeat; MSETransportTime; MSETransportTime2; MSETransportVehicleId] ->
  own_ok seen e = true -> takes (read_element e (V seen)) (emit_own r e) (V (Own e :: seen)).
Proof.
  intros Hin Hok. repeat destruct Hin as [<-|Hin]; try done; cbn [own_ok] in Hok;
    rewrite ?andb_true_iff in Hok; destruct_and?; read_fields.
Qed.

Lemma read_own e seen :
  own_ok seen e = true -> takes (read_element e (V seen)) (emit_own r e) (V (Own e :: seen)).
Proof.
  intros Hok.
  destruct e; try discriminate Hok;
    first [ apply read_mark; [by cbn; tauto|exact Hok]
          | apply read_transport_mark; [by cbn; tauto|exact Hok]
          | apply read_byte; [by cbn; tauto|exact Hok]
          | apply read_transport_byte; [by cbn; tauto|exact Hok]
          | apply read_flag; by cbn; tauto
          | apply read_sub_flag; [by cbn; tauto|exact Hok]
          | apply read_field; [by cbn; tauto|exact Hok]
          | apply read_fall; [by cbn; tauto|exact Hok]
          | apply read_transport; [by cbn; tauto|exact Hok] ].
Qed.
End Steps.

(** ** Extra elements *)

Section Extras.
Context (r : Source) (els : list MovementStatusElements) (Hr : source_ok r).
Notation x := (src_extra r).
Notation K := (fun seen => known_extra seen x els).

Ltac same_extra :=
  unfold known_extra, known_guid, has in *; cbn -[guid_at] in *;
  repeat match goal with
    | H : ?x = true |- _ => rewrite ?H; clear H
    | H : ?x = false |- _ => rewrite ?H; clear H
    end;
  cbn -[guid_at]; rewrite ?orb_true_r; reflexivity.

Definition reads_next e seen : Prop :=
  nth_error els (ex_index (K seen)) = Some e ->
  takes (ReadNextElement (K seen)) (emit_ext r e) (K (Ext e :: seen)).

Lemma next_known e seen {A} (f : _ -> packet A) l y :
  nth_error els (ex_index (K seen)) = Some e ->
  takes (f (e, ex_step (K seen))) l y -> takes ('p ← next_element (K seen); f p) l y.
Proof.
  intros Hn H. rewrite <- (app_nil_l l). eapply takes_bind; [|exact H].
  unfold next_element. cbn [ex_elements known_extra] in *. rewrite Hn. apply takes_ret.
Qed.

Lemma read_ext_mark e seen :
  In e [MSEHasGuidByte0; MSEHasGuidByte1; MSEHasGuidByte2; MSEHasGuidByte3;
        MSEHasGuidByte4; MSEHasGuidByte5; MSEHasGuidByte6; MSEHasGuidByte7] ->
  ext_ok seen e = true -> reads_next e seen.
Proof.
  intros Hin Hok Hn. apply (next_known e); [exact Hn|]. clear Hn.
  repeat destruct Hin as [<-|Hin]; try done;
    cbn [ext_ok offset element_value Nat.sub fresh_own nth_error guid_marks snd] in Hok;
    apply negb_true_iff in Hok;
    cbn [emit_ext offset element_value Nat.sub];
    match goal with |- takes _ (emit_mark _ ?i) ?v =>
      replace v with (set_ex_guid (<[i := Z.b2z (nz (guid_at (xd_guid x) i))]> (ex_guid (K seen))) (ex_step (K seen)));
      [apply (takes_mark (fun guid => set_ex_guid guid (ex_step (K seen)))); lia|] end.
  all: same_extra.
Qed.

Lemma read_ext_byte e seen :
  In e [MSEGuidByte0; MSEGuidByte1; MSEGuidByte2; MSEGuidByte3;
        MSEGuidByte4; MSEGuidByte5; MSEGuidByte6; MSEGuidByte7] ->
  ext_ok seen e = true -> reads_next e seen.
Proof.
  intros Hin Hok Hn. apply (next_known e); [exact Hn|]. clear Hn.
  repeat destruct Hin as [<-|Hin]; try done;
    cbn [ext_ok offset element_value Nat.sub announced nth_error guid_marks fst snd] in Hok;
    apply andb_true_iff in Hok as [Hh Hok]; apply negb_true_iff in Hok;
    cbn [emit_ext offset element_value Nat.sub];
    match goal with |- takes _ (emit_byte _ ?i) ?v =>
      replace v with (set_ex_guid (<[i := guid_at (xd_guid x) i]> (ex_guid (K seen))) (ex_step (K seen)));
      [apply (takes_byte (fun guid => set_ex_guid guid (ex_step (K seen)))); [lia|apply guid_at_bound|]|] end.
  all: same_extra.
Qed.

Lemma read_ext e seen : ext_ok seen e = true -> reads_next e seen.
Proof.
  intros Hok.
  destruct e; try discriminate Hok;
    try (apply read_ext_mark; [by cbn; tauto|exact Hok]);
    try (apply read_ext_byte; [by cbn; tauto|exact Hok]);
    intros Hn; (eapply next_known; [exact Hn|]); clear Hn; cbn [emit_ext];
    pose proof (ok_xbyte _ Hr).
  - eapply takes_bind_ret; [apply takes_get_float; apply (ok_xfloat _ Hr)|same_extra].
  - eapply takes_bind_ret; [apply takes_read_i8; lia|same_extra].
  - eapply takes_bind_ret; [apply (takes_ReadBits 2); [lia|done]|same_extra].
Qed.
End Extras.

(** ** The loop *)

Fixpoint all_ok (seen ss : list slot) : bool :=
  match ss with
  | [] => true
  | s :: ss => slot_ok seen s && all_ok (s :: seen) ss
  end.

(** The extra elements a reader has not reached. *)
Definition left_extra (elements : option (list MovementStatusElements)) (seen : list slot) :
    list MovementStatusElements :=
  match elements with
  | Some els => drop (length (List.filter (fun s => match s with Ext _ => true | _ => false end) seen)) els
  | None => []
  end.

Lemma slots_own e sequence extra :
  e <> MSEEnd -> e <> MSEExtraElement ->
  slots (e :: sequence) extra = cons (Own e) <$> slots sequence extra.
Proof. by destruct e. Qed.

Lemma read_elements_cons e sequence st :
  e <> MSEEnd -> read_elements (e :: sequence) st = (st ← read_element e st; read_elements sequence st).
Proof. by destruct e. Qed.

Lemma takes_extra r els seen e :
  source_ok r -> ext_ok seen e = true ->
  nth_error els (ex_index (known_extra seen (src_extra r) els)) = Some e ->
  takes (read_element MSEExtraElement (view r (Some els) seen)) (emit_ext r e)
    (view r (Some els) (Ext e :: seen)).
Proof.
  intros Hr Hok Hn. cbn [read_element view r_extras].
  eapply takes_bind_ret; [|reflexivity]. cbn [through].
  eapply takes_bind_ret; [by apply read_ext|].
  unfold view, known_info, known_position, known_transport, known_jump, known, known_guid, has.
  cbn -[guid_at normalize_bits wrap_bits known_extra]. reflexivity.
Qed.

Lemma read_elements_spec r elements : source_ok r -> forall sequence ss seen,
  slots sequence (left_extra elements seen) = Some ss -> all_ok seen ss = true ->
  takes (read_elements sequence (view r elements seen)) (concat (emit r <$> ss))
    (view r elements (rev ss ++ seen)).
Proof.
  intros Hr sequence. induction sequence as [|e sequence IH]; intros ss seen Hs Hok; [done|].
  destruct (MovementStatusElements_eq_dec e MSEEnd) as [->|He].
  { injection Hs as <-. apply takes_ret. }
  rewrite read_elements_cons by done.
  destruct (MovementStatusElements_eq_dec e MSEExtraElement) as [->|Hx].
  - cbn [slots] in Hs. destruct (left_extra elements seen) as [|x extra] eqn:El; [done|].
    apply fmap_Some in Hs as (ss' & Hs & ->). cbn [all_ok] in Hok. apply andb_true_iff in Hok as [H1 H2].
    destruct elements as [els|]; [|done]. cbn [left_extra] in El.
    cbn [fmap list_fmap concat emit]. eapply takes_bind.
    + apply takes_extra; [done|exact H1|]. cbn [known_extra ex_index].
      rewrite <- (Nat.add_0_r (length _)), <- List.nth_error_skipn. by rewrite El.
    + cbn [rev]. rewrite <- app_assoc. apply IH; [|done].
      cbn [left_extra app List.filter length]. rewrite <- Nat.add_1_r, <- drop_drop, El. exact Hs.
  - rewrite slots_own in Hs by done. apply fmap_Some in Hs as (ss' & Hs & ->).
    cbn [all_ok] in Hok. apply andb_true_iff in Hok as [H1 H2].
    cbn [fmap list_fmap concat emit]. eapply takes_bind; [by apply read_own|].
    cbn [rev]. rewrite <- app_assoc. apply IH; [|done]. by destruct elements.
Qed.
