(* ===== verification/MovementWriteSpec.v ===== *)
(** The writer of movement packets writes the items of its sequence. *)
From Stdlib Require Import ZArith Lia Bool.
From Corelib Require Import SpecFloat.
From stdpp Require Import base list tactics.
From S2P Require Import Prelude Doubles ByteBuffer BitStream BitReader MovementStructures MovementInfo MovementPackets MovementView MovementReadSpec.

Open Scope Z_scope.

(** ** Steps *)

Lemma writes_then {A B} (m : packet A) (x : A) l (y : B) :
  writes m l x -> writes (_ ← m; mret y) l y.
Proof. intros H. rewrite <- (app_nil_r l). eapply writes_bind; [done|apply writes_ret]. Qed.

Lemma writes_map {A B} (f : A -> B) (m : packet A) x l :
  writes m l x -> writes (y ← m; mret (f y)) l (f x).
Proof.
  intros H. rewrite <- (app_nil_r l).
  exact (writes_bind m (fun y => mret (f y)) l [] x (f x) H (writes_ret _)).
Qed.

Lemma writes_when c m l : writes m l tt -> writes (when c m) (emit_when c l) tt.
Proof. intros H. destruct c; [done|apply writes_ret]. Qed.

Lemma writes_write_bit b : writes (write_bit b) [IBit b] tt.
Proof.
  eapply writes_then. pose proof (writes_WriteBit (Z.b2z b)) as H. by destruct b.
Qed.

Lemma writes_u32 v : writes (append_u32 v) (emit_u32 v) tt.
Proof. by apply writes_le. Qed.

Lemma writes_i8 v : writes (append_i8 v) (emit_i8 v) tt.
Proof. apply (writes_le 1). done. Qed.

Lemma guid_get_bytes guid i : (i < 8)%nat -> guid_get (guid_bytes guid) i = mret (guid_at guid i).
Proof. intros H. unfold guid_get. by rewrite (proj2 (Nat.ltb_lt _ _) H). Qed.

Lemma writes_mark guid i : (i < 8)%nat ->
  writes (byte ← guid_get (guid_bytes guid) i; _ ← WriteBit byte; mret tt) (emit_mark guid i) tt.
Proof.
  intros H. rewrite guid_get_bytes by done. rewrite <- (app_nil_l (emit_mark guid i)).
  eapply writes_bind; [apply writes_ret|]. eapply writes_then, writes_WriteBit.
Qed.

Lemma writes_byte guid i : (i < 8)%nat ->
  writes (byte ← guid_get (guid_bytes guid) i; WriteByteSeq byte) (emit_byte guid i) tt.
Proof.
  intros H. rewrite guid_get_bytes by done. rewrite <- (app_nil_l (emit_byte guid i)).
  eapply writes_bind; [apply writes_ret|]. apply writes_WriteByteSeq, guid_at_bound.
Qed.

Create HintDb packet_writes.
#[export] Hint Resolve writes_when writes_write_bit writes_u32 writes_i8 : packet_writes.
#[export] Hint Extern 1 (writes (append_float _) _ _) => apply writes_u32 : packet_writes.
#[export] Hint Extern 1 (writes (WriteBits _ 30) _ _) => apply (writes_WriteBits _ 30); lia : packet_writes.
#[export] Hint Extern 1 (writes (WriteBits _ 12) _ _) => apply (writes_WriteBits _ 12); lia : packet_writes.
#[export] Hint Extern 1 (writes (WriteBits _ 2) _ _) => apply (writes_WriteBits _ 2); lia : packet_writes.
#[export] Hint Extern 1 (writes (mbind _ (guid_get _ _)) (emit_mark _ _) _) =>
  apply writes_mark; cbn; lia : packet_writes.
#[export] Hint Extern 1 (writes (mbind _ (guid_get _ _)) (emit_byte _ _) _) =>
  apply writes_byte; cbn; lia : packet_writes.

Lemma write_own r e extras seen : own_ok seen e = true ->
  writes (write_element (src_unit r) (src_counter r) e extras) (emit_own r e) extras.
Proof.
  intros Hok. destruct e; try discriminate Hok; cbn [write_element emit_own];
    eapply writes_then; auto with packet_writes.
Qed.

(** The extra elements of a writer, [k] of them written. *)
Definition sender_extra (x : ExtraData) (els : list MovementStatusElements) (k : nat) :
    ExtraMovementStatusElement :=
  {| ex_elements := els; ex_index := k; ex_guid := guid_bytes (xd_guid x);
     ex_floatData := xd_float x; ex_byteData := xd_byte x |}.

Lemma write_ext r e els k seen : ext_ok seen e = true -> nth_error els k = Some e ->
  writes (WriteNextElement (sender_extra (src_extra r) els k)) (emit_ext r e)
    (sender_extra (src_extra r) els (S k)).
Proof.
  intros Hok Hn. rewrite <- (app_nil_l (emit_ext r e)).
  eapply writes_bind with (x := (e, sender_extra (src_extra r) els (S k))).
  { unfold next_element. cbn [sender_extra ex_elements ex_index]. rewrite Hn. apply writes_ret. }
  destruct e; try discriminate Hok; cbn [emit_ext].
  1-8: eapply (writes_bind _ _ [] _ (guid_at (xd_guid (src_extra r)) _) _);
    [cbn [sender_extra ex_guid]; rewrite guid_get_bytes by (cbn; lia); apply writes_ret|
     eapply writes_then, writes_WriteBit].
  1-8: eapply (writes_bind _ _ [] _ (guid_at (xd_guid (src_extra r)) _) _);
    [cbn [sender_extra ex_guid]; rewrite guid_get_bytes by (cbn; lia); apply writes_ret|
     eapply writes_then, writes_WriteByteSeq, guid_at_bound].
  all: eapply writes_then; auto with packet_writes.
Qed.

(** ** The loop *)

Definition sender (r : Source) (elements : option (list MovementStatusElements)) (k : nat) :
    option ExtraMovementStatusElement :=
  (fun els => sender_extra (src_extra r) els k) <$> elements.

Definition from (elements : option (list MovementStatusElements)) (k : nat) :
    list MovementStatusElements :=
  match elements with Some els => drop k els | None => [] end.

Lemma write_elements_cons u c e sequence x :
  e <> MSEEnd ->
  write_elements u c (e :: sequence) x = (x ← write_element u c e x; write_elements u c sequence x).
Proof. by destruct e. Qed.

Lemma write_elements_spec r elements : forall sequence ss k seen,
  slots sequence (from elements k) = Some ss -> all_ok seen ss = true ->
  exists k', writes (write_elements (src_unit r) (src_counter r) sequence (sender r elements k))
               (concat (emit r <$> ss)) (sender r elements k').
Proof.
  intros sequence. induction sequence as [|e sequence IH]; intros ss k seen Hs Hok; [done|].
  destruct (MovementStatusElements_eq_dec e MSEEnd) as [->|He].
  { injection Hs as <-. exists k. apply writes_ret. }
  rewrite write_elements_cons by done.
  destruct (MovementStatusElements_eq_dec e MSEExtraElement) as [->|Hx].
  - cbn [slots] in Hs. destruct (from elements k) as [|x extra] eqn:El; [done|].
    apply fmap_Some in Hs as (ss' & Hs & ->). cbn [all_ok] in Hok. apply andb_true_iff in Hok as [H1 H2].
    destruct elements as [els|]; [|done]. cbn [from] in El.
    destruct (IH ss' (S k) (Ext x :: seen)) as (k' & W); [|done|].
    { cbn [from]. rewrite <- Nat.add_1_r, <- drop_drop, El. exact Hs. }
    exists k'. cbn [fmap list_fmap concat emit]. eapply writes_bind; [|exact W].
    cbn [write_element sender fmap option_fmap option_map through].
    apply (writes_map Some). eapply write_ext; [exact H1|].
    rewrite <- (Nat.add_0_r k), <- List.nth_error_skipn. by rewrite El.
  - rewrite slots_own in Hs by done. apply fmap_Some in Hs as (ss' & Hs & ->).
    cbn [all_ok] in Hok. apply andb_true_iff in Hok as [H1 H2].
    destruct (IH ss' k (Own e :: seen) Hs H2) as (k' & W). exists k'.
    cbn [fmap list_fmap concat emit]. eapply writes_bind; [by eapply write_own|done].
Qed.
