(* ===== verification/MovementRoundTrip.v ===== *)
(** Every layout a client can send is read back as it was written. *)
From Stdlib Require Import ZArith Lia Bool.
From Corelib Require Import SpecFloat.
From stdpp Require Import base list tactics.
From S2P Require Import Prelude Doubles ByteBuffer BitStream BitReader MovementStructures MovementInfo MovementPackets MovementView MovementReadSpec MovementWriteSpec.

Open Scope Z_scope.

(** ** The shape of a layout *)

Definition is_bits (s : slot) : bool :=
  match s with
  | Own e =>
      match e with
      | MSEGuidByte0 | MSEGuidByte1 | MSEGuidByte2 | MSEGuidByte3 | MSEGuidByte4 | MSEGuidByte5 | MSEGuidByte6 | MSEGuidByte7
      | MSETransportGuidByte0 | MSETransportGuidByte1 | MSETransportGuidByte2 | MSETransportGuidByte3 | MSETransportGuidByte4 | MSETransportGuidByte5 | MSETransportGuidByte6 | MSETransportGuidByte7
      | MSETimestamp | MSEPositionX | MSEPositionY | MSEPositionZ | MSEOrientation
      | MSETransportPositionX | MSETransportPositionY | MSETransportPositionZ
      | MSETransportOrientation | MSETransportSeat | MSETransportTime | MSETransportTime2
      | MSETransportVehicleId | MSEPitch | MSEFallTime | MSEFallVerticalSpeed | MSEFallCosAngle
      | MSEFallSinAngle | MSEFallHorizontalSpeed | MSESplineElevation | MSECounter => false
      | _ => true
      end
  | Ext e =>
      match e with
      | MSEGuidByte0 | MSEGuidByte1 | MSEGuidByte2 | MSEGuidByte3 | MSEGuidByte4 | MSEGuidByte5 | MSEGuidByte6 | MSEGuidByte7
      | MSEExtraFloat | MSEExtraInt8 => false
      | _ => true
      end
  end.

(** A slot that always writes bytes. *)
Definition is_sure (s : slot) : bool :=
  match s with
  | Own (MSETimestamp | MSEPositionX | MSEPositionY | MSEPositionZ | MSECounter) => true
  | Ext (MSEExtraFloat | MSEExtraInt8) => true
  | _ => false
  end.

Fixpoint span (p : slot -> bool) (l : list slot) : list slot * list slot :=
  match l with
  | [] => ([], [])
  | s :: l' => if p s then let '(a, b) := span p l' in (s :: a, b) else ([], l)
  end.

(** Bytes, one run of bits, and bytes that are sure to come. *)
Definition shape_ok (ss : list slot) : bool :=
  let '(a, rest) := span (fun s => negb (is_bits s)) ss in
  let '(b, c) := span is_bits rest in
  forallb (fun s => negb (is_bits s)) c && existsb is_sure c.

(** The elements that carry the state, and those of the extra data. *)
Definition full_elements : list MovementStatusElements :=
  (snd <$> guid_marks) ++ (snd <$> transport_guid_marks) ++
  [MSEMovementFlags; MSEMovementFlags2; MSETimestamp; MSEPositionX; MSEPositionY; MSEPositionZ;
   MSEOrientation; MSETransportPositionX; MSETransportPositionY; MSETransportPositionZ;
   MSETransportOrientation; MSETransportSeat; MSETransportTime; MSETransportTime2;
   MSETransportVehicleId; MSEPitch; MSEFallTime; MSEFallVerticalSpeed; MSEFallCosAngle;
   MSEFallSinAngle; MSEFallHorizontalSpeed; MSESplineElevation].

Definition ext_elements : list MovementStatusElements :=
  (fst <$> guid_marks) ++ (snd <$> guid_marks) ++ [MSEExtraFloat; MSEExtraInt8; MSEExtraTwoBits].

Definition ext_count (seen : list slot) : nat :=
  length (List.filter (fun s => match s with Ext _ => true | _ => false end) seen).

Definition ext_ok_all (els : list MovementStatusElements) (seen : list slot) : bool :=
  Nat.eqb (ext_count seen) (length els) &&
  forallb (fun e => Bool.eqb (has (Ext e) seen) (has (Ext e) (Ext <$> els))) ext_elements.

(** Whether a layout has a movement counter. *)
Definition counts (sequence : list MovementStatusElements) : bool :=
  existsb (MovementStatusElements_beq MSECounter) sequence.

Definition layout_ok (sequence : list MovementStatusElements)
    (elements : option (list MovementStatusElements)) : bool :=
  match slots sequence (from elements 0) with
  | Some ss =>
      all_ok [] ss && shape_ok ss && (length ss <=? 100)%nat
      && forallb (fun e => has (Own e) (rev ss)) full_elements
      && Bool.eqb (has (Own MSECounter) (rev ss)) (counts sequence)
      && match elements with Some els => ext_ok_all els (rev ss) | None => true end
  | None => false
  end.

(** ** What is written has that shape *)

Lemma emit_bits r s : is_bits s = true -> exists l, emit r s = IBit <$> l /\ (length l <= 30)%nat.
Proof.
  assert (H1 : forall b, exists l, [IBit b] = IBit <$> l /\ (length l <= 30)%nat) by (intros b; exists [b]; cbn; split; [done|lia]).
  assert (H0 : exists l, @nil item = IBit <$> l /\ (length l <= 30)%nat) by (exists []; cbn; split; [done|lia]).
  assert (Hn : forall n v, (n <= 30)%nat -> exists l, Bits n v = IBit <$> l /\ (length l <= 30)%nat)
    by (intros n v Hn; exists (bits_of n v); rewrite length_bits_of; done).
  intros H. destruct s as [e|e]; destruct e; try discriminate H; cbn [emit emit_own emit_ext];
    unfold emit_mark, emit_when; repeat case_match; auto with lia.
Qed.

Lemma emit_bytes r s : is_bits s = false -> exists l, emit r s = Bytes l /\ (length l <= 30)%nat.
Proof.
  assert (H4 : forall v, exists l, emit_u32 v = Bytes l /\ (length l <= 30)%nat)
    by (intros v; exists (le_bytes 4 v); rewrite length_le_bytes; split; [done|lia]).
  assert (H0 : exists l, @nil item = Bytes l /\ (length l <= 30)%nat) by (exists []; cbn; split; [done|lia]).
  assert (H1 : forall v, exists l, [IByte v] = Bytes l /\ (length l <= 30)%nat)
    by (intros v; exists [v]; cbn; split; [done|lia]).
  intros H. destruct s as [e|e]; destruct e; try discriminate H; cbn [emit emit_own emit_ext];
    unfold emit_byte, emit_when, emit_i8; repeat case_match; auto.
Qed.

Lemma span_app p l : span p l = ((span p l).1, (span p l).2) /\ l = (span p l).1 ++ (span p l).2
  /\ forallb p (span p l).1 = true.
Proof.
  induction l as [|s l (E & IH & Hp)]; [done|]. cbn [span]. destruct (p s) eqn:Es; [|done].
  rewrite E. cbn [fst snd]. repeat split; [by cbn; rewrite IH at 1|]. cbn [forallb]. by rewrite Es, Hp.
Qed.

Lemma emit_all_bits r ss : forallb is_bits ss = true ->
  exists l, concat (emit r <$> ss) = IBit <$> l /\ (length l <= 30 * length ss)%nat.
Proof.
  induction ss as [|s ss IH]; [by exists []|]. cbn [forallb]. intros H. apply andb_true_iff in H as [H1 H2].
  destruct (IH H2) as (l2 & E2 & L2), (emit_bits r s H1) as (l1 & E1 & L1).
  exists (l1 ++ l2). cbn [fmap list_fmap concat]. rewrite E1, fmap_app, length_app. cbn [length].
  unfold fmap in E2. split; [f_equal; exact E2|lia].
Qed.

Lemma emit_all_bytes r ss : forallb (fun s => negb (is_bits s)) ss = true ->
  exists l, concat (emit r <$> ss) = Bytes l /\ (length l <= 30 * length ss)%nat.
Proof.
  induction ss as [|s ss IH]; [by exists []|]. cbn [forallb]. intros H. apply andb_true_iff in H as [H1 H2].
  apply negb_true_iff in H1.
  destruct (IH H2) as (l2 & E2 & L2), (emit_bytes r s H1) as (l1 & E1 & L1).
  exists (l1 ++ l2). cbn [fmap list_fmap concat]. unfold Bytes in *. rewrite E1, fmap_app, length_app. cbn [length].
  split; [f_equal; exact E2|lia].
Qed.

Lemma emit_sure r ss : existsb is_sure ss = true -> concat (emit r <$> ss) <> [].
Proof.
  intros H. apply existsb_exists in H as (s & Hs & Hsure).
  assert (Hn : emit r s <> []) by (destruct s as [[]|[]]; done).
  apply in_split in Hs as (l1 & l2 & ->). rewrite fmap_app, concat_app. cbn [fmap list_fmap concat].
  destruct (emit r s); [done|]. by destruct (concat _).
Qed.

(** The items of a packet, behind some bytes. *)
Lemma shape_items r ss pre : shape_ok ss = true -> (length ss <= 100)%nat -> (length pre <= 8)%nat ->
  exists a b c, Bytes pre ++ concat (emit r <$> ss) = Bytes a ++ (IBit <$> b) ++ Bytes c /\ c <> []
    /\ (length a + length b + length c <= 3008)%nat.
Proof.
  intros H Hl Hp. unfold shape_ok in H.
  destruct (span_app (fun s => negb (is_bits s)) ss) as (E1 & S1 & A1). rewrite E1 in H.
  set (sa := (span (fun s => negb (is_bits s)) ss).1) in *.
  set (rest := (span (fun s => negb (is_bits s)) ss).2) in *.
  destruct (span_app is_bits rest) as (E2 & S2 & A2). rewrite E2 in H.
  set (sb := (span is_bits rest).1) in *. set (sc := (span is_bits rest).2) in *.
  apply andb_true_iff in H as [H1 H2].
  destruct (emit_all_bytes r sa A1) as (a & Ea & La), (emit_all_bits r sb A2) as (b & Eb & Lb),
    (emit_all_bytes r sc H1) as (c & Ec & Lc).
  assert (L : (length ss = length sa + (length sb + length sc))%nat)
    by (rewrite S1 at 1; rewrite length_app, S2; by rewrite length_app).
  exists (pre ++ a), b, c. repeat split.
  - rewrite S1, S2, !fmap_app, !concat_app, Ea, Eb, Ec. unfold Bytes. rewrite fmap_app, <- app_assoc. done.
  - pose proof (emit_sure r sc H2) as Hs. rewrite Ec in Hs. by intros ->.
  - rewrite length_app. lia.
Qed.

(** ** What is sent *)

(** The record a reader gets of a unit: the orientation when it is not near
    zero, the transport when there is one, the rest of the fall when there is
    one, the pitch and the elevation when the flags call for them. [counted] is
    whether the layout has a movement counter. *)
Definition sent_info (r : Source) (counted : bool) : MovementInfo :=
  let u := src_unit r in
  let mi := un_info u in
  let tr := transport mi in
  let j := jump mi in
  {| mi_guid := un_guid u;
     mi_flags := mi_flags mi;
     mi_flags2 := mi_flags2 mi;
     mi_pos :=
       {| m_positionX := m_positionX (un_pos u);
          m_positionY := m_positionY (un_pos u);
          m_positionZ := m_positionZ (un_pos u);
          m_orientation := if w_hasOrientation u then normalize_bits (m_orientation (un_pos u)) else 0 |};
     mi_time := mi_time mi;
     movementCounter := if counted then match src_counter r with Some c => c | None => 0 end else 0;
     transport :=
       if w_hasTransportData u then
         {| tr_guid := un_transGuid u;
            tr_pos :=
              {| m_positionX := m_positionX (tr_pos tr);
                 m_positionY := m_positionY (tr_pos tr);
                 m_positionZ := m_positionZ (tr_pos tr);
                 m_orientation := normalize_bits (m_orientation (tr_pos tr)) |};
            tr_seat := tr_seat tr;
            tr_time := tr_time tr;
            tr_time2 := tr_time2 tr;
            tr_vehicleId := tr_vehicleId tr |}
       else TransportInfo_reset;
     pitch := if w_hasPitch u then wrap_bits (pitch mi) else 0;
     jump :=
       if w_hasFallData u then
         {| fallTime := fallTime j;
            zspeed := zspeed j;
            sinAngle := if w_hasFallDirection u then sinAngle j else 0;
            cosAngle := if w_hasFallDirection u then cosAngle j else 0;
            xyspeed := if w_hasFallDirection u then xyspeed j else 0 |}
       else JumpInfo_reset;
     splineElevation := if w_hasSplineElevation u then splineElevation mi else 0;
     heightChangeFailed := false |}.

(** The extra data, once all the extra elements are read. *)
Definition sent_extra (x : ExtraData) (els : list MovementStatusElements) : ExtraMovementStatusElement :=
  known_extra (Ext <$> els) x els.

Lemma eight (l : list Z) : length l = 8%nat ->
  [nth 0 l 0; nth 1 l 0; nth 2 l 0; nth 3 l 0; nth 4 l 0; nth 5 l 0; nth 6 l 0; nth 7 l 0] = l.
Proof. intros H. do 8 (destruct l as [|? l]; [done|]). by destruct l. Qed.

Lemma guid_of_all g : 0 <= g < 2 ^ 64 ->
  guid_of_bytes [guid_at g 0; guid_at g 1; guid_at g 2; guid_at g 3;
                 guid_at g 4; guid_at g 5; guid_at g 6; guid_at g 7] = g.
Proof.
  intros H. unfold guid_at. rewrite eight by apply length_le_bytes.
  by apply (le_value_bytes 8).
Qed.

Lemma nz_if v : (if nz v then v else 0) = v.
Proof. destruct (nz v) eqn:E; [done|]. by apply nz_false in E. Qed.

(** Every element seen, the reader's record is the one sent. *)
Lemma view_full r elements seen :
  0 <= un_guid (src_unit r) < 2 ^ 64 -> 0 <= un_transGuid (src_unit r) < 2 ^ 64 ->
  forallb (fun e => has (Own e) seen) full_elements = true ->
  transport_update (set_tr_guid (guid_of_bytes (r_tguid (view r elements seen))))
    (set_mi_guid (guid_of_bytes (r_guid (view r elements seen))) (r_mi (view r elements seen)))
  = sent_info r (has (Own MSECounter) seen).
Proof.
  intros Hg Ht H.
  unfold full_elements, guid_marks, transport_guid_marks in H.
  cbn [fmap list_fmap fst snd app forallb] in H. rewrite !andb_true_iff in H. destruct_and! H.
  assert (Et : guid_of_bytes (r_tguid (view r elements seen)) = w_tguid (src_unit r)).
  { cbn -[guid_at guid_of_bytes has].
    repeat match goal with H : has _ _ = true |- _ => rewrite H; clear H end.
    apply guid_of_all. unfold w_tguid. by destruct (w_hasTransportData _). }
  assert (Eg : guid_of_bytes (r_guid (view r elements seen)) = un_guid (src_unit r)).
  { cbn -[guid_at guid_of_bytes has].
    repeat match goal with H : has _ _ = true |- _ => rewrite H; clear H end. by apply guid_of_all. }
  rewrite Et, Eg. unfold sent_info, view, known_info, known_position, known_transport, known_jump, known.
  cbn -[has]. repeat match goal with H : has _ _ = true |- _ => rewrite H; clear H end. cbn [andb].
  rewrite ?andb_true_r.
  unfold transport_update, set_tr_guid, set_mi_guid, set_transport.
  cbn [mi_guid mi_flags mi_flags2 mi_pos mi_time movementCounter transport pitch jump splineElevation
       heightChangeFailed tr_guid tr_pos tr_seat tr_time tr_time2 tr_vehicleId].
  unfold w_hasMovementFlags, w_hasMovementFlags2, w_hasTimestamp, w_tguid, w_hasTransportTime2,
    w_hasTransportVehicleId. rewrite !nz_if.
  destruct (w_hasTransportData _), (w_hasFallData _), (w_hasFallDirection _); cbn [andb]; rewrite ?nz_if; reflexivity.
Qed.

Lemma extra_full x els seen : ext_ok_all els seen = true -> known_extra seen x els = sent_extra x els.
Proof.
  intros H. apply andb_true_iff in H as [Hc H]. apply Nat.eqb_eq in Hc.
  assert (Hn : ext_count (Ext <$> els) = length els)
    by (clear; unfold ext_count; induction els as [|e els IH]; [done|]; cbn; by rewrite IH).
  unfold ext_elements, guid_marks in H. cbn [fmap list_fmap fst snd app forallb] in H.
  fold (Ext <$> els) in H. rewrite !andb_true_iff, !eqb_true_iff in H. destruct_and! H.
  unfold sent_extra, known_extra. fold (ext_count seen) (ext_count (Ext <$> els)). rewrite Hc, Hn.
  unfold known_guid, guid_marks. cbn -[has guid_at fmap].
  repeat match goal with H : has _ _ = _ |- _ => rewrite H; clear H end. reflexivity.
Qed.

Lemma takes_read_skip l n : n = Z.of_nat (length l) -> takes (read_skip n) (Bytes l) tt.
Proof.
  intros -> rest b H. destruct (takes_read_bytes l rest b H) as (b' & E & R). exists b'. split; [|done].
  unfold read_bytes, mbind, packet_bind, here in E. unfold read_skip, mbind, packet_bind, here.
  destruct (size b <? _); [done|]. unfold update, mret, packet_ret in *. by injection E as _ <-.
Qed.

Lemma reads_end b : reads [] b -> _rpos b = size b.
Proof.
  intros (p & d & R & Y). inversion Y; subst. destruct R as [Hd Hr _ _ _ _].
  apply (f_equal length) in Hd. rewrite length_drop in Hd. unfold size in *. cbn in Hd. lia.
Qed.

(** ** Handlers *)

(** What a packet of the handler has before the movement data. *)
Definition handler_prefix (h : movement_handler) (unk : Z) : packet unit :=
  match h with
  | HandleMoveSplineDoneOpcode => append_u32 unk
  | _ => mret tt
  end.

Definition prefix_bytes (h : movement_handler) (unk : Z) : list Z :=
  match h with HandleMoveSplineDoneOpcode => le_bytes 4 unk | _ => [] end.

Lemma writes_prefix h unk : writes (handler_prefix h unk) (Bytes (prefix_bytes h unk)) tt.
Proof. destruct h; try apply writes_ret. apply writes_u32. Qed.

Lemma takes_skip h unk : takes (handler_skip h) (Bytes (prefix_bytes h unk)) tt.
Proof. destruct h; try apply takes_ret. by apply takes_read_skip. Qed.

Lemma layouts_ok :
  forallb (fun c : Z * movement_handler =>
    match GetMovementStatusElementsSequence c.1 with
    | Some sequence => layout_ok sequence (handler_elements c.2)
    | None => true
    end) (client_handlers ++ both_handlers) = true.
Proof. vm_compute. reflexivity. Qed.

Lemma layout_of op h sequence :
  In (op, h) (client_handlers ++ both_handlers) -> GetMovementStatusElementsSequence op = Some sequence ->
  layout_ok sequence (handler_elements h) = true.
Proof.
  intros Hin Hs. pose proof (proj1 (forallb_forall _ _) layouts_ok _ Hin) as H. cbn [fst snd] in H.
  by rewrite Hs in H.
Qed.

(** The loop of a handler on a packet of its layout. *)
Lemma layout_roundtrip sequence elements r :
  layout_ok sequence elements = true -> source_ok r ->
  exists ss, shape_ok ss = true /\ (length ss <= 100)%nat
    /\ (exists x, writes (write_elements (src_unit r) (src_counter r) sequence (sender r elements 0))
                    (concat (emit r <$> ss)) x)
    /\ takes (read_elements sequence (ReadState_new MovementInfo_new (Extra <$> elements)))
         (concat (emit r <$> ss)) (view r elements (rev ss))
    /\ forallb (fun e => has (Own e) (rev ss)) full_elements = true
    /\ has (Own MSECounter) (rev ss) = counts sequence
    /\ (forall els, elements = Some els -> ext_ok_all els (rev ss) = true).
Proof.
  intros H Hr. unfold layout_ok in H. destruct (slots sequence (from elements 0)) as [ss|] eqn:Es; [|done].
  rewrite !andb_true_iff in H. destruct H as [[[[[H1 H2] H3] H4] H5] H6].
  exists ss. split; [done|]. split; [by apply Nat.leb_le|].
  destruct (write_elements_spec r elements sequence ss 0 [] Es H1) as (k' & W).
  split; [by eexists|]. split; [|split; [done|split; [by apply eqb_prop|by intros els ->]]].
  rewrite <- (app_nil_r (rev ss)).
  replace (ReadState_new MovementInfo_new (Extra <$> elements)) with (view r elements [])
    by (by destruct elements).
  apply read_elements_spec; [done| |done]. by destruct elements.
Qed.

(** C23. C. For every movement opcode a client may send, with the handler that the
    opcode table names: the packet that [WriteMovementInfo] makes of a unit,
    after the count the vehicle handler skips, is read back by the handler to the
    last byte, without an exception, whatever the unit, its identifiers and the
    extra data of the handler are, as long as its numbers have their widths and
    its coordinates are finite. The record read is the one of the unit, with the
    angles normalised and without what the unit does not have (no transport, no
    fall, no pitch, no elevation), after the validation of its flags; the extra
    data are the ones sent. *)
Theorem movement_roundtrip w op h sequence r unk :
  In (op, h) (client_handlers ++ both_handlers) ->
  GetMovementStatusElementsSequence op = Some sequence ->
  source_ok r -> 0 <= un_guid (src_unit r) < 2 ^ 64 -> 0 <= un_transGuid (src_unit r) < 2 ^ 64 ->
  exists x out b,
    (handler_prefix h unk;; WriteMovementInfo (src_unit r) op (sender r (handler_elements h) 0) (src_counter r))
      ByteBuffer_new = Done (x, out) /\
    handler_read w h op (ByteBuffer_received (_storage out))
      = Done ((ValidateMovementInfo w (sent_info r (counts sequence)),
               sent_extra (src_extra r) <$> handler_elements h), b) /\
    _rpos b = size b.
Proof.
  intros Hin Hs Hr Hg Ht.
  destruct (layout_roundtrip sequence (handler_elements h) r (layout_of _ _ _ Hin Hs) Hr)
    as (ss & Hsh & Hlen & [x W] & T & Hfull & Hcount & Hext).
  assert (Lp : (length (prefix_bytes h unk) <= 8)%nat) by (destruct h; cbn; lia).
  destruct (shape_items r ss _ Hsh Hlen Lp) as (a & b & c & Ei & Hc & Hl).
  pose proof (writes_bind _ (fun _ => write_elements (src_unit r) (src_counter r) sequence (sender r (handler_elements h) 0))
    _ _ tt x (writes_prefix h unk) W) as W'. rewrite Ei in W'.
  exists x, (written (Bytes a ++ (IBit <$> b) ++ Bytes c)).
  assert (T' : takes (handler_read w h op) (Bytes a ++ (IBit <$> b) ++ Bytes c)
    (ValidateMovementInfo w (sent_info r (counts sequence)), sent_extra (src_extra r) <$> handler_elements h)).
  { rewrite <- Ei. eapply takes_bind; [apply takes_skip|]. unfold ReadMovementInfo. rewrite Hs.
    eapply takes_bind_ret; [exact T|]. cbv zeta. rewrite (view_full r _ _ Hg Ht Hfull), Hcount.
    do 2 f_equal. cbn [view r_extras]. destruct (handler_elements h) as [els|]; [|done].
    cbn [fmap option_fmap option_map]. by rewrite (extra_full _ _ _ (Hext _ eq_refl)). }
  destruct (T' [] (ByteBuffer_received (_storage (written (Bytes a ++ (IBit <$> b) ++ Bytes c))))) as (b' & E & R).
  { rewrite app_nil_r. apply written_reads; [by left|]. change max_size with 10000000. lia. }
  exists b'. split; [|split; [exact E|by apply reads_end]].
  unfold WriteMovementInfo. rewrite Hs. apply (W' []).
  unfold Bytes. rewrite !length_app, !length_fmap. cbn [length]. change max_size with 10000000. lia.
Qed.

(** ** An example *)

Definition no_auras : MoverAuras :=
  {| SPELL_AURA_HOVER := false; SPELL_AURA_WATER_WALK := false; SPELL_AURA_GHOST := false;
     SPELL_AURA_FLY := false; SPELL_AURA_MOD_INCREASE_MOUNTED_FLIGHT_SPEED := false |}.

Definition plain_world : PlayerWorld :=
  {| pw_mover := fun _ => Some no_auras; pw_vehicle := None; pw_feather_fall := false;
     pw_sec_player := true |}.

(** A swimming unit on a transport, looking down: the identifier has zero
    bytes, the orientation is 1, the pitch -1/2. *)
Definition swimmer : UnitView :=
  {| un_guid := 0xF130000A00000102;
     un_pos := {| m_positionX := 0xC1200000; m_positionY := 0x3F000000; m_positionZ := 0;
                  m_orientation := 0x3F800000 |};
     un_transGuid := 0x1FC0000000000007;
     un_splineEnabled := false;
     un_info :=
       {| mi_guid := 0xF130000A00000102; mi_flags := Z.lor MOVEMENTFLAG_SWIMMING MOVEMENTFLAG_FORWARD;
          mi_flags2 := 0x410; mi_pos := Position_zero; mi_time := 123456; movementCounter := 0;
          transport :=
            {| tr_guid := 0; tr_pos := Position_zero; tr_seat := -1; tr_time := 77; tr_time2 := 0;
               tr_vehicleId := 300 |};
          pitch := 0xBF000000; jump := JumpInfo_reset; splineElevation := 0;
          heightChangeFailed := true |} |}.

Definition swimmer_source : Source :=
  {| src_unit := swimmer; src_counter := Some 9;
     src_extra := {| xd_guid := 0; xd_float := 0x40000000; xd_byte := 2 |} |}.

Lemma swimmer_ok : source_ok swimmer_source.
Proof.
  split; [split|..]; try (vm_compute; done); try (vm_compute; split; [split; done|done]).
Qed.

Lemma movement_roundtrip_witness :
  exists x out b,
    (handler_prefix HandleSetCollisionHeightAck 0;;
     WriteMovementInfo (src_unit swimmer_source) CMSG_MOVE_SET_COLLISION_HEIGHT_ACK
       (sender swimmer_source (handler_elements HandleSetCollisionHeightAck) 0) (src_counter swimmer_source))
      ByteBuffer_new = Done (x, out) /\
    handler_read plain_world HandleSetCollisionHeightAck CMSG_MOVE_SET_COLLISION_HEIGHT_ACK
      (ByteBuffer_received (_storage out))
      = Done ((ValidateMovementInfo plain_world
                 (sent_info swimmer_source (counts MovementSetCollisionHeightAck)),
               sent_extra (src_extra swimmer_source) <$> handler_elements HandleSetCollisionHeightAck), b) /\
    _rpos b = size b.
Proof.
  apply (movement_roundtrip plain_world CMSG_MOVE_SET_COLLISION_HEIGHT_ACK HandleSetCollisionHeightAck
           MovementSetCollisionHeightAck swimmer_source 0).
  - repeat (first [left; reflexivity|right]).
  - vm_compute; reflexivity.
  - exact swimmer_ok.
  - vm_compute; split; [discriminate|reflexivity].
  - vm_compute; split; [discriminate|reflexivity].
Defined.
