(* ===== verification/MovementSafety.v ===== *)
(** Whatever bytes a client sends, reading a movement packet ends in one of the
    exceptions the session catches or in a record; the one exception is a pitch
    too large to wrap. *)
From Stdlib Require Import ZArith Lia Bool.
From Corelib Require Import SpecFloat.
From stdpp Require Import base list tactics.
From S2P Require Import Prelude Doubles ByteBuffer BitStream BitReader MovementStructures MovementInfo MovementPackets MovementView MovementReadSpec MovementWriteSpec MovementRoundTrip.

Open Scope Z_scope.

(** ** Steps that fail only by exceptions *)

(** A buffer being read: the position is inside the data. *)
Definition inside (b : ByteBuffer) : Prop :=
  0 <= _rpos b <= size b /\ size b < max_size /\ 0 <= _bitpos b <= 8.

(** The exceptions of a buffer. *)
Definition thrown (f : failure) : Prop :=
  (exists pos len size, f = ByteBufferPositionException false pos len size) \/ f = ByteBufferException.

(** [m] throws one of them, converts a pitch out of range, or returns a value
    that satisfies [P]; the data stay as they are. *)
Definition tame {A} (m : packet A) (P : A -> Prop) : Prop :=
  forall b, inside b ->
    match m b with
    | Done (x, b') => P x /\ inside b' /\ _storage b' = _storage b
    | Failed f => thrown f \/ f = Undefined FloatToInt
    end.

Lemma tame_ret {A} (x : A) (P : A -> Prop) : P x -> tame (mret x) P.
Proof. intros H b Hb. done. Qed.

Lemma tame_bind {A B} (m : packet A) (f : A -> packet B) P Q :
  tame m P -> (forall x, P x -> tame (f x) Q) -> tame (m ≫= f) Q.
Proof.
  intros Hm Hf b Hb. specialize (Hm b Hb). unfold mbind, packet_bind.
  destruct (m b) as [[x b']|e]; [|done]. destruct Hm as (Hx & Hb' & E).
  specialize (Hf x Hx b' Hb'). destruct (f x b') as [[y b'']|e]; [|done].
  by rewrite <- E.
Qed.

Lemma tame_weaken {A} (m : packet A) (P Q : A -> Prop) : tame m P -> (forall x, P x -> Q x) -> tame m Q.
Proof.
  intros H HPQ b Hb. specialize (H b Hb). destruct (m b) as [[x b']|e]; [|done].
  destruct H as (Hx & H). split; [by apply HPQ|done].
Qed.

Lemma tame_read_bytes n : (n <= 8)%nat -> tame (read_bytes n) (fun _ => True).
Proof.
  intros Hn b (Hr & Hs & Hb). unfold read_bytes. rewrite (bind_done _ _ _ _ _ eq_refl).
  rewrite u64_small by (change max_size with 10000000 in Hs; lia).
  destruct (Z.ltb_spec (size b) (_rpos b + Z.of_nat n)); [left; left; by eexists _, _, _|].
  rewrite (bind_done _ _ _ _ _ eq_refl). unfold mret, packet_ret.
  split; [done|]. split; [|done]. unfold inside, size in *. cbn [with_rpos _rpos _storage _bitpos]. lia.
Qed.

Lemma tame_read_value n : (n <= 8)%nat -> tame (l ← read_bytes n; mret (le_value l)) (fun _ => True).
Proof. intros Hn. eapply tame_bind; [by apply tame_read_bytes|]. intros l _. by apply tame_ret. Qed.

Lemma tame_read_u8 : tame read_u8 (fun _ => True).
Proof. apply tame_read_value. lia. Qed.

Lemma tame_read_u32 : tame read_u32 (fun _ => True).
Proof. apply tame_read_value. lia. Qed.

Lemma tame_read_i8 : tame read_i8 (fun _ => True).
Proof. eapply tame_bind; [apply tame_read_u8|]. intros x _. by apply tame_ret. Qed.

Lemma tame_get_float : tame get_float (fun _ => True).
Proof.
  eapply tame_bind; [apply tame_read_u32|]. intros x _. destruct (isfinite x); [by apply tame_ret|].
  intros b _. left. by right.
Qed.

Lemma tame_read_pitch : tame read_pitch (fun _ => True).
Proof.
  eapply tame_bind; [apply tame_read_u32|]. intros x _.
  destruct (wrap _ _ _); [by apply tame_ret|]. intros b _. by right.
Qed.

Lemma tame_ReadBit : tame ReadBit (fun _ => True).
Proof.
  assert (H : forall b, inside b -> _bitpos b < 8 ->
    match (update (fun b => with_bits (_bitpos b + 1) (_curbitval b) b);;
           b ← here; mret (nz (Z.land (Z.shiftr (_curbitval b) (8 - _bitpos b)) 1))) b with
    | Done (_, b') => True /\ inside b' /\ _storage b' = _storage b
    | Failed f => thrown f \/ f = Undefined FloatToInt
    end).
  { intros b (Hr & Hs & Hb) H8. rewrite (bind_done _ _ _ _ _ eq_refl), (bind_done _ _ _ _ _ eq_refl).
    unfold mret, packet_ret. split; [done|]. split; [|done].
    unfold inside, size in *. cbn [with_bits _rpos _storage _bitpos]. lia. }
  intros b Hin. unfold ReadBit. rewrite (bind_done _ _ _ _ _ eq_refl).
  destruct (Z.leb_spec 8 (_bitpos b)) as [H8|H8].
  - unfold mbind at 1, packet_bind at 1. pose proof (tame_read_bytes 1 ltac:(lia) b Hin) as T.
    unfold mbind at 1, packet_bind at 1. destruct (read_bytes 1 b) as [[l b1]|e]; [|done].
    destruct T as (_ & I1 & E1). unfold update at 1. rewrite <- E1.
    apply (H (with_bits 0 (le_value l) b1)); [|cbn; lia].
    destruct I1 as (? & ? & ?). unfold inside, size in *. cbn [with_bits _rpos _storage _bitpos]. lia.
  - rewrite (bind_done _ _ _ tt b) by done. by apply H.
Qed.

Lemma tame_ReadBits_from n value : (n <= 32)%nat -> tame (ReadBits_from n value) (fun _ => True).
Proof.
  revert value. induction n as [|n IH]; intros value Hn; [by apply tame_ret|].
  cbn [ReadBits_from]. eapply tame_bind; [apply tame_ReadBit|]. intros bit _.
  rewrite (proj2 (Z.leb_gt _ _)) by lia. apply IH. lia.
Qed.

Lemma tame_ReadBits n : 0 <= n <= 32 -> tame (ReadBits n) (fun _ => True).
Proof. intros H. apply tame_ReadBits_from. lia. Qed.

Lemma tame_ReadByteSeq v : tame (ReadByteSeq v) (fun _ => True).
Proof.
  unfold ReadByteSeq. destruct (nz v); [|by apply tame_ret].
  eapply tame_bind; [apply tame_read_u8|]. intros x _. by apply tame_ret.
Qed.

Lemma tame_guid_get l i : (i < 8)%nat -> tame (guid_get l i) (fun _ => True).
Proof. intros H. unfold guid_get. rewrite (proj2 (Nat.ltb_lt _ _) H). by apply tame_ret. Qed.

Lemma tame_guid_set l i v : (i < 8)%nat -> tame (guid_set i v l) (fun _ => True).
Proof. intros H. unfold guid_set. rewrite (proj2 (Nat.ltb_lt _ _) H). by apply tame_ret. Qed.

(** [tame_steps] goes through the steps of a reader. *)
Create HintDb tame_db.
#[export] Hint Resolve tame_read_u8 tame_read_u32 tame_read_i8 tame_get_float tame_read_pitch
  tame_ReadBit tame_ReadByteSeq : tame_db.
#[export] Hint Extern 1 (tame (ReadBits _) _) => apply tame_ReadBits; lia : tame_db.
#[export] Hint Extern 1 (tame (guid_get _ _) _) => apply tame_guid_get; cbn; lia : tame_db.
#[export] Hint Extern 1 (tame (guid_set _ _ _) _) => apply tame_guid_set; cbn; lia : tame_db.
#[export] Hint Extern 1 (tame read_float _) => apply tame_read_u32 : tame_db.

(** ** Elements *)

(** The extra elements a state has left. *)
Definition extras_at (elements : option (list MovementStatusElements)) (k : nat) (st : ReadState) : Prop :=
  match elements with
  | Some els => exists x, r_extras st = Some x /\ ex_elements x = els /\ ex_index x = k
  | None => True
  end.

Ltac tame_steps :=
  repeat (first [apply tame_ret | (eapply tame_bind; [by auto with tame_db|]); intros ? _]).

Lemma tame_field c rd set st (P : ReadState -> Prop) :
  tame rd (fun _ => True) -> P st -> (forall v, P (set v st)) -> tame (field c rd set st) P.
Proof.
  intros Hr H1 H2. unfold field. destruct c; [|by apply tame_ret].
  eapply tame_bind; [done|]. intros v _. by apply tame_ret.
Qed.

Lemma read_own_tame elements k seen e st :
  own_ok seen e = true -> extras_at elements k st -> tame (read_element e st) (extras_at elements k).
Proof.
  intros Hok Hx.
  assert (Hs : forall st', r_extras st' = r_extras st -> extras_at elements k st')
    by (intros st' E; unfold extras_at in *; by rewrite E).
  destruct e; try discriminate Hok; cbn [read_element];
    try (apply tame_field; [by auto with tame_db|done|intros v; by apply Hs]);
    try match goal with |- tame (if ?c then _ else _) _ => destruct c end;
    tame_steps; by apply Hs.
Qed.

Lemma read_ext_tame seen e x : ext_ok seen e = true -> nth_error (ex_elements x) (ex_index x) = Some e ->
  tame (ReadNextElement x) (fun x' => ex_elements x' = ex_elements x /\ ex_index x' = S (ex_index x)).
Proof.
  intros Hok Hn. unfold ReadNextElement.
  eapply (tame_bind _ _ (fun p => p = (e, ex_step x))).
  { unfold next_element. rewrite Hn. by apply tame_ret. }
  intros p ->. destruct e; try discriminate Hok; tame_steps; done.
Qed.

Lemma read_elements_tame elements : forall sequence ss k seen st,
  slots sequence (from elements k) = Some ss -> all_ok seen ss = true -> extras_at elements k st ->
  tame (read_elements sequence st) (fun _ => True).
Proof.
  intros sequence. induction sequence as [|e sequence IH]; intros ss k seen st Hs Hok Hx; [done|].
  destruct (MovementStatusElements_eq_dec e MSEEnd) as [->|He]; [by apply tame_ret|].
  rewrite read_elements_cons by done.
  destruct (MovementStatusElements_eq_dec e MSEExtraElement) as [->|Hne].
  - cbn [slots] in Hs. destruct (from elements k) as [|y extra] eqn:El; [done|].
    apply fmap_Some in Hs as (ss' & Hs & ->). cbn [all_ok] in Hok. apply andb_true_iff in Hok as [H1 H2].
    destruct elements as [els|]; [|done]. cbn [from] in El. destruct Hx as (x & Ex & Eels & Ek).
    eapply (tame_bind _ _ (extras_at (Some els) (S k))).
    + cbn [read_element]. rewrite Ex. cbn [through].
      eapply (tame_bind _ _ (fun o => exists x', o = Some x' /\ ex_elements x' = els /\ ex_index x' = S k)).
      * eapply tame_bind; [eapply read_ext_tame; [exact H1|]|].
        { rewrite Eels, Ek, <- (Nat.add_0_r k), <- List.nth_error_skipn. by rewrite El. }
        intros x' [E1 E2]. apply tame_ret. exists x'. by rewrite E1, E2, Ek.
      * intros o Ho. by apply tame_ret.
    + intros st' Hst'. apply (IH ss' (S k) (Ext y :: seen)); [|done|done].
      cbn [from]. rewrite <- Nat.add_1_r, <- drop_drop, El. exact Hs.
  - rewrite slots_own in Hs by done. apply fmap_Some in Hs as (ss' & Hs & ->).
    cbn [all_ok] in Hok. apply andb_true_iff in Hok as [H1 H2].
    eapply tame_bind; [by eapply read_own_tame|]. intros st' Hst'. by eapply IH.
Qed.

(** ** Handlers *)

Lemma handler_read_tame w op h : In (op, h) (client_handlers ++ both_handlers) ->
  tame (handler_read w h op) (fun _ => True).
Proof.
  intros Hin. unfold handler_read. eapply (tame_bind _ _ (fun _ => True)).
  { destruct h; try by apply tame_ret. intros b (Hr & Hs & Hb).
    unfold handler_skip, read_skip. rewrite (bind_done _ _ _ _ _ eq_refl).
    rewrite u64_small by (change max_size with 10000000 in Hs; lia).
    destruct (Z.ltb_spec (size b) (_rpos b + 4)); [left; left; by eexists _, _, _|].
    split; [done|]. split; [|done]. unfold inside, size in *. cbn [with_rpos _rpos _storage _bitpos]. lia. }
  intros [] _. unfold ReadMovementInfo. destruct (GetMovementStatusElementsSequence op) as [sequence|] eqn:Es; [|by apply tame_ret].
  pose proof (layout_of _ _ _ Hin Es) as H. unfold layout_ok in H.
  destruct (slots sequence (from (handler_elements h) 0)) as [ss|] eqn:E; [|done].
  rewrite !andb_true_iff in H. destruct H as [[[[[H1 _] _] _] _] _].
  eapply tame_bind; [|intros st _; by apply tame_ret].
  eapply read_elements_tame; [exact E|exact H1|].
  unfold extras_at. destruct (handler_elements h) as [els|]; [|done]. by eexists.
Qed.

(** A heartbeat whose pitch is 10^30. *)
Definition steep : UnitView :=
  {| un_guid := un_guid swimmer; un_pos := un_pos swimmer; un_transGuid := 0; un_splineEnabled := false;
     un_info := set_pitch 0x7149F2CA (un_info swimmer) |}.

Definition steep_packet : list Z :=
  match WriteMovementInfo steep MSG_MOVE_HEARTBEAT None None ByteBuffer_new with
  | Done (_, b) => _storage b
  | Failed _ => []
  end.

(** C24. C. Whatever bytes a client sends as a movement packet, its handler either
    reads a record, with the read position inside the data and the data as they
    were, or ends in an exception of the buffer, which the session catches: there
    is no access outside a table or the data, no null extra element, no failed
    assertion and no shift too wide. The one step without a defined result is the
    wrapping of the pitch: a heartbeat with the finite pitch 10^30 makes [iFloor]
    convert a number no [int] can hold. *)
Theorem client_packet_outcomes :
  (forall w op h data,
    In (op, h) (client_handlers ++ both_handlers) -> Z.of_nat (length data) < max_size ->
    match handler_read w h op (ByteBuffer_received data) with
    | Done (_, b) => 0 <= _rpos b <= Z.of_nat (length data) /\ _storage b = data
    | Failed f =>
        (exists pos len size, f = ByteBufferPositionException false pos len size)
        \/ f = ByteBufferException \/ f = Undefined FloatToInt
    end)
  /\ (forall w, handler_read w HandleMovementOpcodes MSG_MOVE_HEARTBEAT (ByteBuffer_received steep_packet)
                = Failed (Undefined FloatToInt)).
Proof.
  split.
  - intros w op h data Hin Hl. pose proof (handler_read_tame w op h Hin (ByteBuffer_received data)) as T.
    destruct (handler_read w h op (ByteBuffer_received data)) as [[x b]|f].
    + destruct T as (_ & (Hr & _) & E).
      { unfold inside, size. cbn [ByteBuffer_received _rpos _storage _bitpos]. unfold InitialBitPos. lia. }
      rewrite <- E at 1. split; [|exact E]. unfold size in Hr. rewrite E in Hr. rewrite E. exact Hr.
    + destruct T as [[H|H]|H]; [|by left|by right; left|by right; right].
      unfold inside, size. cbn [ByteBuffer_received _rpos _storage _bitpos]. unfold InitialBitPos. lia.
  - intros w. vm_compute. reflexivity.
Qed.

(** A heartbeat cut off after two bytes. *)
Lemma client_packet_outcomes_witness :
  match handler_read plain_world HandleMovementOpcodes MSG_MOVE_HEARTBEAT (ByteBuffer_received [1; 2]) with
  | Done (_, b) => 0 <= _rpos b <= Z.of_nat (length [1; 2]) /\ _storage b = [1; 2]
  | Failed f =>
      (exists pos len size, f = ByteBufferPositionException false pos len size)
      \/ f = ByteBufferException \/ f = Undefined FloatToInt
  end
  /\ handler_read plain_world HandleMovementOpcodes MSG_MOVE_HEARTBEAT (ByteBuffer_received steep_packet)
     = Failed (Undefined FloatToInt).
Proof.
  split.
  - apply (proj1 client_packet_outcomes plain_world MSG_MOVE_HEARTBEAT HandleMovementOpcodes [1; 2]).
    + repeat (first [left; reflexivity|right]).
    + vm_compute; reflexivity.
  - apply (proj2 client_packet_outcomes).
Defined.
