(* ===== verification/MovementValidSpec.v ===== *)
(** What the validation of a client's movement flags guarantees. *)
From Stdlib Require Import ZArith Lia Bool.
From Corelib Require Import SpecFloat.
From stdpp Require Import base list tactics.
From S2P Require Import Prelude Doubles ByteBuffer MovementStructures MovementInfo MovementPackets.

Open Scope Z_scope.

(** ** Sets of flags *)

(** [mi'] has no flag that [mi] has not, and is [mi] in everything else. *)
Definition fewer (mi' mi : MovementInfo) : Prop :=
  exists removed, mi' = set_mi_flags (Z.ldiff (mi_flags mi) removed) mi.

Lemma fewer_refl mi : fewer mi mi.
Proof. exists 0. rewrite Z.ldiff_0_r. by destruct mi. Qed.

Lemma fewer_trans a b c : fewer a b -> fewer b c -> fewer a c.
Proof.
  intros [x ->] [y ->]. exists (Z.lor y x). destruct c. unfold set_mi_flags. cbn.
  f_equal. apply Z.bits_inj'. intros n Hn. rewrite !Z.ldiff_spec, Z.lor_spec.
  destruct (Z.testbit _ n), (Z.testbit y n), (Z.testbit x n); done.
Qed.

Lemma nz_land_ldiff f r a : nz (Z.land (Z.ldiff f r) a) = true -> nz (Z.land f a) = true.
Proof.
  intros H. apply nz_true in H. apply nz_true. intros E. apply H.
  apply Z.bits_inj'. intros n Hn. apply (f_equal (fun z => Z.testbit z n)) in E.
  rewrite Z.land_spec, Z.bits_0 in *. rewrite Z.ldiff_spec.
  destruct (Z.testbit f n), (Z.testbit a n); try done; by rewrite ?andb_false_r.
Qed.

Lemma nz_lor x y : nz (Z.lor x y) = nz x || nz y.
Proof.
  destruct (nz (Z.lor x y)) eqn:E; symmetry.
  - apply nz_true in E. apply orb_true_iff. rewrite !nz_true. rewrite Z.lor_eq_0_iff in E. lia.
  - apply nz_false, Z.lor_eq_0_iff in E as [-> ->]. done.
Qed.

(** A flag that is gone stays gone. *)
Lemma fewer_flag a mi' mi : fewer mi' mi -> HasMovementFlag a mi' = true -> HasMovementFlag a mi = true.
Proof. intros [r ->]. apply nz_land_ldiff. Qed.

Lemma fewer_false a mi' mi : fewer mi' mi -> HasMovementFlag a mi = false -> HasMovementFlag a mi' = false.
Proof. intros H E. destruct (HasMovementFlag a mi') eqn:E'; [|done]. by rewrite (fewer_flag _ _ _ H E') in E. Qed.

Lemma fewer_spline mi' mi : fewer mi' mi -> splineElevation mi' = splineElevation mi.
Proof. by intros [r ->]. Qed.

(** A flag within the removed mask is gone. *)
Lemma removed_flag a m mi : Z.ldiff a m = 0 -> HasMovementFlag a (RemoveMovementFlag m mi) = false.
Proof.
  intros H. unfold HasMovementFlag, RemoveMovementFlag. cbn. apply nz_false.
  apply Z.bits_inj'. intros n Hn. apply (f_equal (fun z => Z.testbit z n)) in H.
  rewrite Z.ldiff_spec, Z.bits_0 in H. rewrite Z.land_spec, Z.ldiff_spec, Z.bits_0.
  revert H. by destruct (Z.testbit (mi_flags mi) n), (Z.testbit a n), (Z.testbit m n).
Qed.

(** A flag outside the added mask is as it was, the added one is there. *)
Lemma has_add a m mi : Z.land a m = 0 -> HasMovementFlag a (AddMovementFlag m mi) = HasMovementFlag a mi.
Proof.
  intros H. unfold HasMovementFlag, AddMovementFlag. cbn. f_equal.
  apply Z.bits_inj'. intros n Hn. apply (f_equal (fun z => Z.testbit z n)) in H.
  rewrite Z.land_spec, Z.bits_0 in H. rewrite !Z.land_spec, Z.lor_spec.
  revert H. by destruct (Z.testbit (mi_flags mi) n), (Z.testbit a n), (Z.testbit m n).
Qed.

Lemma added_flag m mi : m <> 0 -> HasMovementFlag m (AddMovementFlag m mi) = true.
Proof.
  intros H. apply nz_true. cbn. intros E. apply H. apply Z.bits_inj'. intros n Hn.
  apply (f_equal (fun z => Z.testbit z n)) in E.
  rewrite Z.land_spec, Z.lor_spec, Z.bits_0 in E. rewrite Z.bits_0.
  revert E. by destruct (Z.testbit (mi_flags mi) n), (Z.testbit m n).
Qed.

(** ** The checks as data *)

Definition flag_check := (MovementInfo -> bool) * Z : Type.

(** The flags are removed where the check says so, one check after the other. *)
Definition apply_check (mi : MovementInfo) (c : flag_check) : MovementInfo := REMOVE_VIOLATING_FLAGS (c.1 mi) c.2 mi.

Definition apply_checks (cs : list flag_check) (mi : MovementInfo) : MovementInfo := foldl apply_check mi cs.

(** A check that fails on [mi] fails on all that has fewer flags, and fails once
    its mask is removed. *)
Definition settles (c : flag_check) : Prop :=
  (forall mi' mi, fewer mi' mi -> c.1 mi = false -> c.1 mi' = false)
  /\ (forall mi, c.1 (RemoveMovementFlag c.2 mi) = false).

Lemma apply_check_fewer c mi : fewer (apply_check mi c) mi.
Proof. unfold apply_check, REMOVE_VIOLATING_FLAGS. destruct (c.1 mi); [by exists c.2|apply fewer_refl]. Qed.

Lemma apply_checks_fewer cs mi : fewer (apply_checks cs mi) mi.
Proof.
  revert mi. induction cs as [|c cs IH]; intros mi; cbn; [apply fewer_refl|].
  eapply fewer_trans; [apply IH|apply apply_check_fewer].
Qed.

Lemma apply_check_settles c mi : settles c -> c.1 (apply_check mi c) = false.
Proof. intros [_ Hr]. unfold apply_check, REMOVE_VIOLATING_FLAGS. destruct (c.1 mi) eqn:E; [apply Hr|done]. Qed.

(** After all of them, every check fails. *)
Lemma apply_checks_settles cs mi : Forall settles cs -> Forall (fun c => c.1 (apply_checks cs mi) = false) cs.
Proof.
  intros H. revert mi. induction H as [|c cs Hc Hcs IH]; intros mi; constructor; [|apply IH].
  apply (proj1 Hc _ (apply_check mi c)); [exact (apply_checks_fewer cs (apply_check mi c))|].
  by apply apply_check_settles.
Qed.

Lemma apply_checks_none cs mi : Forall (fun c => c.1 mi = false) cs -> apply_checks cs mi = mi.
Proof.
  intros H. induction H as [|c cs Hc Hcs IH]; [done|]. cbn. unfold apply_check at 2.
  by rewrite Hc.
Qed.

Lemma apply_checks_cons c cs mi : apply_checks (c :: cs) mi = apply_checks cs (apply_check mi c).
Proof. done. Qed.

Lemma apply_checks_app cs cs' mi : apply_checks (cs ++ cs') mi = apply_checks cs' (apply_checks cs mi).
Proof. apply foldl_app. Qed.

Lemma apply_check_skip c mi : c.1 mi = false -> apply_check mi c = mi.
Proof. intros H. unfold apply_check. by rewrite H. Qed.

Section Validation.
Context (w : PlayerWorld) (mover : MoverAuras).

Definition not_fixed : bool :=
  match pw_vehicle w with None => true | Some flags => negb (nz (Z.land flags VEHICLE_FLAG_FIXED_POSITION)) end.

Definition flagged (a : Z) (mi : MovementInfo) : bool := HasMovementFlag a mi.

Definition both (a b : Z) : flag_check := (fun mi => flagged a mi && flagged b mi, Z.lor a b).

Definition only (a : Z) (forbidden : bool) : flag_check := (fun mi => flagged a mi && forbidden, a).

Definition root_moves : flag_check :=
  (fun mi => flagged MOVEMENTFLAG_ROOT mi && flagged MOVEMENTFLAG_MASK_MOVING mi, MOVEMENTFLAG_MASK_MOVING).

Definition plain_checks : list flag_check :=
  [only MOVEMENTFLAG_HOVER (negb (SPELL_AURA_HOVER mover));
   both MOVEMENTFLAG_ASCENDING MOVEMENTFLAG_DESCENDING;
   both MOVEMENTFLAG_LEFT MOVEMENTFLAG_RIGHT;
   both MOVEMENTFLAG_STRAFE_LEFT MOVEMENTFLAG_STRAFE_RIGHT;
   both MOVEMENTFLAG_PITCH_UP MOVEMENTFLAG_PITCH_DOWN;
   both MOVEMENTFLAG_FORWARD MOVEMENTFLAG_BACKWARD;
   only MOVEMENTFLAG_WATERWALKING (negb (SPELL_AURA_WATER_WALK mover) && negb (SPELL_AURA_GHOST mover));
   only MOVEMENTFLAG_FALLING_SLOW (negb (pw_feather_fall w));
   only (Z.lor MOVEMENTFLAG_FLYING MOVEMENTFLAG_CAN_FLY)
     (pw_sec_player w && negb (SPELL_AURA_FLY mover)
      && negb (SPELL_AURA_MOD_INCREASE_MOUNTED_FLIGHT_SPEED mover));
   (fun mi => flagged (Z.lor MOVEMENTFLAG_DISABLE_GRAVITY MOVEMENTFLAG_CAN_FLY) mi && flagged MOVEMENTFLAG_FALLING mi,
    MOVEMENTFLAG_FALLING)].

Definition raised (mi : MovementInfo) : bool := fuzzyNe (f32_of_bits (splineElevation mi)) f32_zero.

Definition flat (mi : MovementInfo) : bool := fuzzyEq (f32_of_bits (splineElevation mi)) f32_zero.

Definition spline_check : flag_check :=
  (fun mi => flagged MOVEMENTFLAG_SPLINE_ELEVATION mi && flat mi, MOVEMENTFLAG_SPLINE_ELEVATION).

Definition flag_checks : list flag_check :=
  only MOVEMENTFLAG_ROOT not_fixed :: root_moves :: plain_checks ++ [spline_check].

(** The flag that is added at the end. *)
Definition finish (mi : MovementInfo) : MovementInfo :=
  if raised mi then AddMovementFlag MOVEMENTFLAG_SPLINE_ELEVATION mi else mi.

Lemma let_check (X mi : MovementInfo) (B : MovementInfo -> MovementInfo) c cs :
  X = apply_check mi c -> (forall m, B m = finish (apply_checks cs m)) ->
  (let m := X in B m) = finish (apply_checks (c :: cs) mi).
Proof. intros -> H. apply H. Qed.

Ltac one_check :=
  lazymatch goal with
  | |- (let m := ?X in @?B m) = finish (apply_checks (?c :: ?cs) ?mi) => apply (let_check X mi B c cs)
  end.

(** The function is its checks, one after the other. *)
Lemma validate_checks mi : validate_flags w mover mi = finish (apply_checks flag_checks mi).
Proof.
  unfold flag_checks, plain_checks. cbn [app]. cbv beta delta [validate_flags].
  one_check; [|intros m1].
  { unfold apply_check, only, flagged, not_fixed. cbn [fst snd].
    destruct (match pw_vehicle w with None => _ | Some _ => _ end); [by rewrite andb_true_r|].
    by rewrite andb_false_r. }
  do 12 (one_check; [unfold apply_check, only, both; cbn [fst snd]; by rewrite ?andb_assoc|intros ?]).
  done.
Qed.

(** ** Every check settles *)

Lemma both_settles a b : settles (both a b).
Proof.
  split; unfold both, flagged; cbn [fst snd].
  - intros mi' mi H E. apply andb_false_iff in E as [E|E]; rewrite (fewer_false _ _ _ H E); [done|apply andb_false_r].
  - intros mi. rewrite removed_flag; [done|]. apply Z.bits_inj'. intros n Hn.
    rewrite Z.ldiff_spec, Z.lor_spec, Z.bits_0. by destruct (Z.testbit a n), (Z.testbit b n).
Qed.

(** A check of two conjuncts, the mask being one of them. *)
Lemma conj_settles a m (q : MovementInfo -> bool) : Z.ldiff a m = 0 ->
  (forall mi' mi, fewer mi' mi -> q mi = false -> q mi' = false) -> settles (fun mi => flagged a mi && q mi, m).
Proof.
  intros Ha Hq. split; cbn [fst snd].
  - intros mi' mi H E. apply andb_false_iff in E as [E|E].
    + unfold flagged in *. by rewrite (fewer_false _ _ _ H E).
    + by rewrite (Hq _ _ H E), andb_false_r.
  - intros mi. unfold flagged. by rewrite removed_flag.
Qed.

Lemma flagged_fewer a mi' mi : fewer mi' mi -> flagged a mi = false -> flagged a mi' = false.
Proof. apply fewer_false. Qed.

Lemma only_settles a forbidden : settles (only a forbidden).
Proof. apply (conj_settles a a (fun _ => forbidden)); [apply Z.ldiff_diag|done]. Qed.

Lemma swap_settles (p q : MovementInfo -> bool) m :
  settles (fun mi => q mi && p mi, m) -> settles (fun mi => p mi && q mi, m).
Proof.
  intros [H1 H2]. split; cbn [fst snd] in *.
  - intros mi' mi H. rewrite andb_comm, (andb_comm (p mi')). by apply H1.
  - intros mi. rewrite andb_comm. apply H2.
Qed.

Lemma flag_checks_settle : Forall settles flag_checks.
Proof.
  unfold flag_checks, plain_checks. cbn [app].
  repeat (apply Forall_cons_2; [|]); try apply Forall_nil_2;
    try apply only_settles; try apply both_settles.
  - apply swap_settles, conj_settles; [done|]. intros mi' mi. apply flagged_fewer.
  - apply swap_settles, conj_settles; [done|]. intros mi' mi. apply flagged_fewer.
  - apply conj_settles; [done|]. intros mi' mi H. unfold flat. by rewrite (fewer_spline _ _ H).
Qed.

(** ** The rules *)

(** What may not be found in a validated record. The check on rooted movers
    comes before [SPLINE_ELEVATION] is added, so that a rooted mover may keep this
    one flag of the mask. *)
Definition violations (mi : MovementInfo) : list bool :=
  [flagged MOVEMENTFLAG_ROOT mi && not_fixed;
   flagged MOVEMENTFLAG_ROOT mi
     && flagged (Z.ldiff MOVEMENTFLAG_MASK_MOVING MOVEMENTFLAG_SPLINE_ELEVATION) mi;
   flagged MOVEMENTFLAG_ROOT mi && flagged MOVEMENTFLAG_SPLINE_ELEVATION mi && negb (raised mi);
   flagged MOVEMENTFLAG_HOVER mi && negb (SPELL_AURA_HOVER mover);
   flagged MOVEMENTFLAG_ASCENDING mi && flagged MOVEMENTFLAG_DESCENDING mi;
   flagged MOVEMENTFLAG_LEFT mi && flagged MOVEMENTFLAG_RIGHT mi;
   flagged MOVEMENTFLAG_STRAFE_LEFT mi && flagged MOVEMENTFLAG_STRAFE_RIGHT mi;
   flagged MOVEMENTFLAG_PITCH_UP mi && flagged MOVEMENTFLAG_PITCH_DOWN mi;
   flagged MOVEMENTFLAG_FORWARD mi && flagged MOVEMENTFLAG_BACKWARD mi;
   flagged MOVEMENTFLAG_WATERWALKING mi
     && (negb (SPELL_AURA_WATER_WALK mover) && negb (SPELL_AURA_GHOST mover));
   flagged MOVEMENTFLAG_FALLING_SLOW mi && negb (pw_feather_fall w);
   flagged (Z.lor MOVEMENTFLAG_FLYING MOVEMENTFLAG_CAN_FLY) mi
     && (pw_sec_player w && negb (SPELL_AURA_FLY mover)
         && negb (SPELL_AURA_MOD_INCREASE_MOUNTED_FLIGHT_SPEED mover));
   flagged (Z.lor MOVEMENTFLAG_DISABLE_GRAVITY MOVEMENTFLAG_CAN_FLY) mi && flagged MOVEMENTFLAG_FALLING mi;
   flagged MOVEMENTFLAG_SPLINE_ELEVATION mi && flat mi && negb (raised mi);
   raised mi && negb (flagged MOVEMENTFLAG_SPLINE_ELEVATION mi)].

Definition permitted (mi : MovementInfo) : bool := forallb negb (violations mi).

(** The mask of a rooted mover, and what it leaves. *)
Lemma mask_split mi :
  flagged MOVEMENTFLAG_MASK_MOVING mi
  = flagged (Z.ldiff MOVEMENTFLAG_MASK_MOVING MOVEMENTFLAG_SPLINE_ELEVATION) mi
    || flagged MOVEMENTFLAG_SPLINE_ELEVATION mi.
Proof.
  unfold flagged, HasMovementFlag.
  assert (E : MOVEMENTFLAG_MASK_MOVING
              = Z.lor (Z.ldiff MOVEMENTFLAG_MASK_MOVING MOVEMENTFLAG_SPLINE_ELEVATION) MOVEMENTFLAG_SPLINE_ELEVATION)
    by reflexivity.
  rewrite E at 1. rewrite Z.land_lor_distr_r. apply nz_lor.
Qed.

Lemma root_still (root : bool) mi : root && flagged MOVEMENTFLAG_MASK_MOVING mi = false ->
  root && flagged (Z.ldiff MOVEMENTFLAG_MASK_MOVING MOVEMENTFLAG_SPLINE_ELEVATION) mi = false
  /\ root && flagged MOVEMENTFLAG_SPLINE_ELEVATION mi = false.
Proof. rewrite mask_split. by destruct root; [apply orb_false_iff|]. Qed.

Lemma no_violation mi : permitted mi = true <-> Forall (fun v => v = false) (violations mi).
Proof.
  unfold permitted. induction (violations mi) as [|v l IH]; cbn [forallb]; [done|].
  rewrite andb_true_iff, negb_true_iff, IH. split; [intros [? ?]; by constructor|by inversion 1].
Qed.

(** The last step changes nothing but the flags, and adds one flag at most. *)
Lemma finish_fewer mi' mi : fewer mi' mi ->
  mi_guid (finish mi') = mi_guid mi /\ finish mi' = set_mi_flags (mi_flags (finish mi')) mi
  /\ Z.ldiff (mi_flags (finish mi')) (Z.lor (mi_flags mi) MOVEMENTFLAG_SPLINE_ELEVATION) = 0.
Proof.
  intros [r ->]. unfold finish. destruct (raised _).
  all: split; [done|]; split; [done|]; apply Z.bits_inj'; intros n Hn.
  all: cbn; rewrite Z.ldiff_spec, ?Z.lor_spec, Z.ldiff_spec, Z.bits_0.
  all: by destruct (Z.testbit (mi_flags mi) n), (Z.testbit r n), (Z.testbit MOVEMENTFLAG_SPLINE_ELEVATION n).
Qed.

(** The flag added at the end changes no other. *)
Lemma flagged_add a mi : Z.land a MOVEMENTFLAG_SPLINE_ELEVATION = 0 ->
  flagged a (AddMovementFlag MOVEMENTFLAG_SPLINE_ELEVATION mi) = flagged a mi.
Proof. apply has_add. Qed.

Lemma raised_add m : raised (AddMovementFlag MOVEMENTFLAG_SPLINE_ELEVATION m) = raised m.
Proof. unfold raised. f_equal. Qed.

(** The flags are compared as they are written. *)
#[local] Strategy 1000 [andb HasMovementFlag flagged raised flat].

Lemma validated_permitted mi : permitted (finish (apply_checks flag_checks mi)) = true.
Proof.
  apply no_violation. pose proof (apply_checks_settles flag_checks mi flag_checks_settle) as H.
  set (m := apply_checks flag_checks mi) in *. clearbody m.
  unfold flag_checks, plain_checks, only, both, root_moves, spline_check in H. cbn [app] in H.
  repeat (apply Forall_cons_1 in H as [? H]). cbn [fst snd] in *. clear H.
  match goal with E : _ && flagged MOVEMENTFLAG_MASK_MOVING _ = false |- _ => apply root_still in E as [? ?] end.
  unfold finish. destruct (raised m) eqn:R; unfold violations.
  - pose proof (added_flag MOVEMENTFLAG_SPLINE_ELEVATION m ltac:(done)) as S.
    fold (flagged MOVEMENTFLAG_SPLINE_ELEVATION (AddMovementFlag MOVEMENTFLAG_SPLINE_ELEVATION m)) in S.
    repeat (apply Forall_cons_2; [|]); try apply Forall_nil_2;
      rewrite ?raised_add, ?R, ?S, ?andb_false_r; rewrite ?flagged_add by reflexivity; assumption || reflexivity.
  - repeat (apply Forall_cons_2; [|]); try apply Forall_nil_2; rewrite ?R; cbn [negb];
      rewrite ?andb_true_r, ?andb_false_l; assumption || reflexivity.
Qed.

(** The flag of an elevated spline is added back. *)
Lemma add_back mi r :
  flagged (Z.ldiff r MOVEMENTFLAG_SPLINE_ELEVATION) mi = false -> flagged MOVEMENTFLAG_SPLINE_ELEVATION mi = true ->
  AddMovementFlag MOVEMENTFLAG_SPLINE_ELEVATION (RemoveMovementFlag r mi) = mi.
Proof.
  intros Hr Hs.
  assert (E : Z.lor (Z.ldiff (mi_flags mi) r) MOVEMENTFLAG_SPLINE_ELEVATION = mi_flags mi); cycle 1.
  { destruct mi. unfold AddMovementFlag, RemoveMovementFlag, set_mi_flags in *. cbn in *. by rewrite E. }
  unfold flagged, HasMovementFlag in *. apply nz_false in Hr. apply nz_true in Hs.
  change MOVEMENTFLAG_SPLINE_ELEVATION with (2 ^ 25) in *.
  apply Z.bits_inj'. intros n Hn. apply (f_equal (fun z => Z.testbit z n)) in Hr.
  rewrite Z.land_spec, Z.ldiff_spec, Z.bits_0 in Hr. rewrite Z.lor_spec, Z.ldiff_spec.
  rewrite Z.pow2_bits_eqb in * by lia. destruct (Z.eqb_spec 25 n) as [E|_].
  - subst n. rewrite orb_true_r. symmetry. apply not_false_iff_true. intros F. apply Hs.
    apply Z.bits_inj'. intros k Hk. rewrite Z.land_spec, Z.bits_0, Z.pow2_bits_eqb by lia.
    destruct (Z.eqb_spec 25 k) as [Ek|_]; [by rewrite <- Ek, F|apply andb_false_r].
  - revert Hr. by destruct (Z.testbit (mi_flags mi) n), (Z.testbit r n).
Qed.

Lemma remove_again c mi : c.2 = MOVEMENTFLAG_SPLINE_ELEVATION ->
  AddMovementFlag MOVEMENTFLAG_SPLINE_ELEVATION (apply_check mi c)
  = AddMovementFlag MOVEMENTFLAG_SPLINE_ELEVATION mi.
Proof.
  intros E. unfold apply_check, REMOVE_VIOLATING_FLAGS. rewrite E. destruct (c.1 mi); [|done].
  assert (E' : forall f, Z.lor (Z.ldiff f MOVEMENTFLAG_SPLINE_ELEVATION) MOVEMENTFLAG_SPLINE_ELEVATION
                         = Z.lor f MOVEMENTFLAG_SPLINE_ELEVATION).
  { intros f. apply Z.bits_inj'. intros n Hn. rewrite !Z.lor_spec, Z.ldiff_spec.
    by destruct (Z.testbit f n), (Z.testbit MOVEMENTFLAG_SPLINE_ELEVATION n). }
  destruct mi. unfold AddMovementFlag, RemoveMovementFlag, set_mi_flags. cbn. by rewrite E'.
Qed.

Lemma plain_settle : Forall settles plain_checks.
Proof.
  pose proof flag_checks_settle as H. unfold flag_checks in H.
  apply Forall_cons_1 in H as [_ H]. apply Forall_cons_1 in H as [_ H]. by apply Forall_app in H as [H _].
Qed.

(** A rooted mover keeps the flag of an elevated spline. *)
Lemma root_restored mi :
  flagged MOVEMENTFLAG_ROOT mi && flagged (Z.ldiff MOVEMENTFLAG_MASK_MOVING MOVEMENTFLAG_SPLINE_ELEVATION) mi = false ->
  flagged MOVEMENTFLAG_SPLINE_ELEVATION mi = true ->
  AddMovementFlag MOVEMENTFLAG_SPLINE_ELEVATION (apply_check mi root_moves) = mi.
Proof.
  intros H S. unfold apply_check, REMOVE_VIOLATING_FLAGS, root_moves. cbn [fst snd].
  destruct (flagged MOVEMENTFLAG_ROOT mi); cbn [andb] in *.
  - rewrite mask_split, H, S. cbn [orb]. by apply add_back.
  - rewrite <- (add_back mi 0) at 2; [|apply nz_false, Z.land_0_r|done]. unfold RemoveMovementFlag. rewrite Z.ldiff_0_r. by destruct mi.
Qed.

(** A record that breaks no rule passes unchanged. *)
Lemma permitted_unchanged mi : permitted mi = true -> finish (apply_checks flag_checks mi) = mi.
Proof.
  intros H. apply no_violation in H. unfold violations in H.
  repeat (apply Forall_cons_1 in H as [? H]). clear H.
  assert (P : Forall (fun c => c.1 mi = false) plain_checks).
  { unfold plain_checks, only, both. repeat (apply Forall_cons_2; [assumption|]). apply Forall_nil_2. }
  remember (raised mi) as up eqn:R. symmetry in R. destruct up.
  - assert (S : flagged MOVEMENTFLAG_SPLINE_ELEVATION mi = true) by by apply negb_false_iff.
    unfold flag_checks. rewrite apply_checks_cons, apply_check_skip by assumption.
    rewrite apply_checks_cons, apply_checks_app.
    set (mi1 := apply_check mi root_moves).
    assert (F : fewer mi1 mi) by apply apply_check_fewer.
    assert (A : AddMovementFlag MOVEMENTFLAG_SPLINE_ELEVATION mi1 = mi).
    { apply root_restored; assumption. }
    rewrite (apply_checks_none plain_checks mi1).
    2:{ pose proof plain_settle as Q. rewrite Forall_forall in *. intros c Hc.
        exact (proj1 (Q c Hc) _ _ F (P c Hc)). }
    unfold finish. replace (raised _) with true.
    + cbn [apply_checks foldl]. by rewrite remove_again.
    + rewrite <- R. unfold raised.
      by rewrite (fewer_spline _ _ (fewer_trans _ _ _ (apply_checks_fewer [spline_check] mi1) F)).
  - unfold finish. rewrite apply_checks_none; [by rewrite R|]. cbn [negb] in *.
    rewrite !andb_true_r in *. unfold flag_checks. apply Forall_cons_2; [assumption|].
    apply Forall_cons_2.
    + unfold root_moves. cbn [fst]. rewrite mask_split. by destruct (flagged MOVEMENTFLAG_ROOT mi); [apply orb_false_iff|].
    + apply Forall_app. split; [done|]. apply Forall_cons_2; [assumption|apply Forall_nil_2].
Qed.
End Validation.

(** ** The function *)

(** A mover whose vehicle holds it, and nothing else. *)
Definition rooted_world : PlayerWorld :=
  {| pw_mover := fun _ => Some {| SPELL_AURA_HOVER := false; SPELL_AURA_WATER_WALK := false;
       SPELL_AURA_GHOST := false; SPELL_AURA_FLY := false;
       SPELL_AURA_MOD_INCREASE_MOUNTED_FLIGHT_SPEED := false |};
     pw_vehicle := Some VEHICLE_FLAG_FIXED_POSITION; pw_feather_fall := false; pw_sec_player := true |}.

(** A packet of this mover: rooted, walking forward, with an elevation of 1.0. *)
Definition rooted_packet : MovementInfo :=
  set_splineElevation 0x3f800000 (set_mi_flags (Z.lor MOVEMENTFLAG_ROOT MOVEMENTFLAG_FORWARD)
    (set_mi_guid 1 MovementInfo_new)).

(** C25. C. Where the packet names a unit that exists, the validated record breaks
    none of the rules of [violations] (opposite directions, hovering, walking on
    water, slow fall and flight without what allows them, falling while flying,
    root of a mover whose vehicle does not hold it, and the agreement of the
    spline flag with the elevation); the records that pass unchanged are exactly
    the ones that break none, so that validating twice changes nothing more; all
    that is not a flag is as the client sent it, and no flag but
    [SPLINE_ELEVATION] appears. Without a unit nothing changes. The rule that a
    rooted mover has none of the moving flags does not hold: the last step adds
    [SPLINE_ELEVATION], a moving flag, after it was checked. *)
Theorem validated_movement :
  (forall w mi,
    let r := ValidateMovementInfo w mi in
    match (if mi_guid mi =? 0 then None else pw_mover w (mi_guid mi)) with
    | None => r = mi
    | Some mover =>
        permitted w mover r = true
        /\ (r = mi <-> permitted w mover mi = true)
        /\ ValidateMovementInfo w r = r
        /\ r = set_mi_flags (mi_flags r) mi
        /\ Z.ldiff (mi_flags r) (Z.lor (mi_flags mi) MOVEMENTFLAG_SPLINE_ELEVATION) = 0
    end)
  /\ HasMovementFlag MOVEMENTFLAG_ROOT (ValidateMovementInfo rooted_world rooted_packet)
     && HasMovementFlag MOVEMENTFLAG_MASK_MOVING (ValidateMovementInfo rooted_world rooted_packet) = true.
Proof.
  split; [|vm_compute; reflexivity]. intros w mi r. unfold r, ValidateMovementInfo. clear r.
  destruct (mi_guid mi =? 0) eqn:G; [done|]. destruct (pw_mover w (mi_guid mi)) as [mover|] eqn:M; [|done].
  rewrite validate_checks. pose proof (validated_permitted w mover mi) as P.
  destruct (finish_fewer _ _ (apply_checks_fewer (flag_checks w mover) mi)) as (Hg & Hr & Hf).
  split; [exact P|]. split; [|split; [|by split]].
  - split; [intros E; by rewrite <- E|apply permitted_unchanged].
  - rewrite Hg, G, M, validate_checks. by apply permitted_unchanged.
Qed.
