(* ===== verification/CombatManager.v ===== *)
(** Combat states between units: [src/src/server/game/Combat/CombatManager.h]
    and [CombatManager.cpp].

    A reference is an object in a store, by its address, and two managers point
    to it. A call is a step of a state monad that may fail: by a failed
    [ASSERT], or by use of a reference or of an iterator that is no longer
    valid. The AI of a unit is told when its unit enters or leaves combat and
    may then call back: what it calls is a parameter, any list of calls for
    any notice and state. A unit is its identifier; what the managers ask of a
    unit is a record of facts, which may change between calls. *)
From Stdlib Require Import ZArith.
From stdpp Require Import base gmap list.
From S2P Require Import Prelude.

Open Scope Z_scope.

(** ** Units *)

Record UnitFacts := {
  IsInWorld : bool;
  IsAlive : bool;
  GetMap : Z;
  UNIT_STATE_EVADE : bool;
  UNIT_STATE_IN_FLIGHT : bool;
  IsGameMaster : option bool;
  IsControlledByPlayer : bool;
  TYPEID_UNIT : bool;
  TYPEID_PLAYER : bool;
  IsImmuneToPC : bool;
  IsImmuneToNPC : bool;
  UNIT_FLAG_PLAYER_CONTROLLED : bool;
  HasAI : bool;
  GetCharmerOrOwner : option Z
}.

(** [IsGameMaster] is that of the player who is, charms or owns the unit, if
    there is one. A range is the bit pattern of a [float]. *)
Record Facts := {
  unit_facts : Z -> UnitFacts;
  IsInPhase : Z -> Z -> bool;
  IsFriendlyTo : Z -> Z -> bool;
  IsWithinDistInMap : Z -> Z -> Z -> bool
}.

Definition gm (u : UnitFacts) : bool := match IsGameMaster u with Some b => b | None => false end.

Definition CanBeginCombat (f : Facts) (a b : Z) : bool :=
  let ua := unit_facts f a in
  let ub := unit_facts f b in
  if a =? b then false
  else if negb (IsInWorld ua) || negb (IsInWorld ub) then false
  else if negb (IsAlive ua) || negb (IsAlive ub) then false
  else if negb (GetMap ua =? GetMap ub) then false
  else if negb (IsInPhase f a b) then false
  else if UNIT_STATE_EVADE ua || UNIT_STATE_EVADE ub then false
  else if UNIT_STATE_IN_FLIGHT ua || UNIT_STATE_IN_FLIGHT ub then false
  else if IsFriendlyTo f a b || IsFriendlyTo f b a then false
  else if gm ua || gm ub then false
  else true.

(** ** References and managers *)

Record CombatReference := {
  cr_first : Z;
  cr_second : Z;
  cr_isPvP : bool;
  cr_suppressFirst : bool;
  cr_suppressSecond : bool;
  cr_combatTimer : Z
}.

Definition PVP_COMBAT_TIMEOUT : Z := 5000.

Definition GetOther (r : CombatReference) (me : Z) : Z :=
  if cr_first r =? me then cr_second r else cr_first r.

Definition IsSuppressedFor (r : CombatReference) (who : Z) : bool :=
  if who =? cr_first r then cr_suppressFirst r else cr_suppressSecond r.

Definition set_suppressFirst (v : bool) (r : CombatReference) : CombatReference :=
  {| cr_first := cr_first r; cr_second := cr_second r; cr_isPvP := cr_isPvP r;
     cr_suppressFirst := v; cr_suppressSecond := cr_suppressSecond r; cr_combatTimer := cr_combatTimer r |}.
Definition set_suppressSecond (v : bool) (r : CombatReference) : CombatReference :=
  {| cr_first := cr_first r; cr_second := cr_second r; cr_isPvP := cr_isPvP r;
     cr_suppressFirst := cr_suppressFirst r; cr_suppressSecond := v; cr_combatTimer := cr_combatTimer r |}.
Definition set_combatTimer (v : Z) (r : CombatReference) : CombatReference :=
  {| cr_first := cr_first r; cr_second := cr_second r; cr_isPvP := cr_isPvP r;
     cr_suppressFirst := cr_suppressFirst r; cr_suppressSecond := cr_suppressSecond r; cr_combatTimer := v |}.

(** [_pveRefs] and [_pvpRefs]: the address of a reference, by the other unit. *)
Record CombatManager := {
  _pveRefs : gmap Z Z;
  _pvpRefs : gmap Z Z
}.

Definition CombatManager_new : CombatManager := {| _pveRefs := ∅; _pvpRefs := ∅ |}.

(** What the managers tell the rest of the server. *)
Inductive Notice :=
  | ClearThreat (owner target : Z)
  | RemoveMeFromThreatLists (owner : Z)
  | ClearAllThreat (owner : Z)
  | AtEnterCombat (who : Z)
  | AtEngage (who : Z) (target : option Z)
  | AtExitCombat (who : Z)
  | AtDisengage (who : Z)
  | UpdatePetCombatState (master : Z)
  | JustEnteredCombat (me other : Z)
  | JustExitedCombat (me : Z).

(** The store of references, the managers, and the units that have the flag
    [UNIT_FLAG_IN_COMBAT]. *)
Record World := {
  cw_facts : Facts;
  cw_refs : gmap Z CombatReference;
  cw_next : Z;
  cw_managers : gmap Z CombatManager;
  cw_inCombat : gset Z;
  cw_log : list Notice
}.

Definition World_new (f : Facts) : World :=
  {| cw_facts := f; cw_refs := ∅; cw_next := 0; cw_managers := ∅; cw_inCombat := ∅; cw_log := [] |}.

Definition set_facts (f : Facts) (w : World) : World :=
  {| cw_facts := f; cw_refs := cw_refs w; cw_next := cw_next w; cw_managers := cw_managers w;
     cw_inCombat := cw_inCombat w; cw_log := cw_log w |}.
Definition set_store (r : gmap Z CombatReference) (w : World) : World :=
  {| cw_facts := cw_facts w; cw_refs := r; cw_next := cw_next w; cw_managers := cw_managers w;
     cw_inCombat := cw_inCombat w; cw_log := cw_log w |}.
Definition set_next (n : Z) (w : World) : World :=
  {| cw_facts := cw_facts w; cw_refs := cw_refs w; cw_next := n; cw_managers := cw_managers w;
     cw_inCombat := cw_inCombat w; cw_log := cw_log w |}.
Definition set_managers (m : gmap Z CombatManager) (w : World) : World :=
  {| cw_facts := cw_facts w; cw_refs := cw_refs w; cw_next := cw_next w; cw_managers := m;
     cw_inCombat := cw_inCombat w; cw_log := cw_log w |}.
Definition set_inCombat (s : gset Z) (w : World) : World :=
  {| cw_facts := cw_facts w; cw_refs := cw_refs w; cw_next := cw_next w; cw_managers := cw_managers w;
     cw_inCombat := s; cw_log := cw_log w |}.
Definition add_log (n : Notice) (w : World) : World :=
  {| cw_facts := cw_facts w; cw_refs := cw_refs w; cw_next := cw_next w; cw_managers := cw_managers w;
     cw_inCombat := cw_inCombat w; cw_log := cw_log w ++ [n] |}.

(** A unit always has a manager. *)
Definition manager (u : Z) (w : World) : CombatManager := default CombatManager_new (cw_managers w !! u).

Definition refs_of (pvp : bool) (u : Z) (w : World) : gmap Z Z :=
  if pvp then _pvpRefs (manager u w) else _pveRefs (manager u w).

Definition set_refs (pvp : bool) (u : Z) (m : gmap Z Z) (w : World) : World :=
  let mgr := manager u w in
  set_managers (<[u := if pvp then {| _pveRefs := _pveRefs mgr; _pvpRefs := m |}
                       else {| _pveRefs := m; _pvpRefs := _pvpRefs mgr |}]> (cw_managers w)) w.

Definition IsInCombat (u : Z) (w : World) : bool := bool_decide (u ∈ cw_inCombat w).

Definition IsInCombatWith (u who : Z) (w : World) : bool :=
  bool_decide (is_Some (refs_of false u w !! who)) || bool_decide (is_Some (refs_of true u w !! who)).

(** ** Steps *)

Inductive Failure :=
  | AssertionFailed
  | UseAfterFree
  | InvalidIterator
  | OutOfFuel.

Inductive Outcome (A : Type) :=
  | Done (x : A)
  | Failed (f : Failure).
Arguments Done {A} x.
Arguments Failed {A} f.

Definition combat (A : Type) : Type := World -> Outcome (A * World).

#[export] Instance combat_ret : MRet combat := fun A x w => Done (x, w).
#[export] Instance combat_bind : MBind combat := fun A B f m w =>
  match m w with
  | Done (x, w') => f x w'
  | Failed e => Failed e
  end.

Definition fail {A} (e : Failure) : combat A := fun _ => Failed e.
Definition world : combat World := fun w => Done (w, w).
Definition modify (f : World -> World) : combat unit := fun w => Done (tt, f w).
Definition log (n : Notice) : combat unit := modify (add_log n).
Definition when (b : bool) (m : combat unit) : combat unit := if b then m else mret tt.

Definition deref (a : Z) : combat CombatReference := fun w =>
  match cw_refs w !! a with
  | Some r => Done (r, w)
  | None => Failed UseAfterFree
  end.

Definition alter_ref (f : CombatReference -> CombatReference) (a : Z) : combat unit :=
  r ← deref a; modify (fun w => set_store (<[a := f r]> (cw_refs w)) w).

Definition delete_ref (a : Z) : combat unit :=
  _ ← deref a; modify (fun w => set_store (delete a (cw_refs w)) w).

(** [new]: an address that was never used. *)
Definition new_ref (r : CombatReference) : combat Z :=
  w ← world;
  modify (fun w => set_next (cw_next w + 1) (set_store (<[cw_next w := r]> (cw_refs w)) w));;
  mret (cw_next w).

(** ** The combat state of a unit *)

(** The addresses of a map, in the order it is iterated. *)
Definition addresses (m : gmap Z Z) : list Z := (map_to_list m).*2.

(** The first reference of the list that is not suppressed for [u]. *)
Fixpoint first_active (u : Z) (l : list Z) : combat (option CombatReference) :=
  match l with
  | [] => mret None
  | a :: l => r ← deref a; if negb (IsSuppressedFor r u) then mret (Some r) else first_active u l
  end.

Definition HasCombat_in (pvp : bool) (u : Z) : combat bool :=
  w ← world;
  r ← first_active u (addresses (refs_of pvp u w));
  mret (bool_decide (is_Some r)).

Definition HasPvECombat : Z -> combat bool := HasCombat_in false.
Definition HasPvPCombat : Z -> combat bool := HasCombat_in true.

Definition HasCombat (u : Z) : combat bool :=
  pve ← HasPvECombat u;
  if pve : bool then mret true else HasPvPCombat u.

Fixpoint any_active_player (u : Z) (l : list Z) : combat bool :=
  match l with
  | [] => mret false
  | a :: l =>
      r ← deref a;
      w ← world;
      if negb (IsSuppressedFor r u) && TYPEID_PLAYER (unit_facts (cw_facts w) (GetOther r u))
      then mret true else any_active_player u l
  end.

Definition HasPvECombatWithPlayers (u : Z) : combat bool :=
  w ← world; any_active_player u (addresses (refs_of false u w)).

Definition GetAnyTarget (u : Z) : combat (option Z) :=
  w ← world;
  r ← first_active u (addresses (refs_of false u w));
  match r with
  | Some r => mret (Some (GetOther r u))
  | None =>
      r ← first_active u (addresses (refs_of true u w));
      mret ((fun r => GetOther r u) <$> r)
  end.

Definition UpdateOwnerCombatState (u : Z) : combat bool :=
  combatState ← HasCombat u;
  w ← world;
  if Bool.eqb combatState (IsInCombat u w) then mret false else
  let facts := unit_facts (cw_facts w) u in
  (if combatState : bool then
     modify (fun w => set_inCombat ({[u]} ∪ cw_inCombat w) w);;
     log (AtEnterCombat u);;
     when (negb (TYPEID_UNIT facts)) (t ← GetAnyTarget u; log (AtEngage u t))
   else
     modify (fun w => set_inCombat (cw_inCombat w ∖ {[u]}) w);;
     log (AtExitCombat u);;
     when (negb (TYPEID_UNIT facts)) (log (AtDisengage u)));;
  match GetCharmerOrOwner facts with
  | Some master => log (UpdatePetCombatState master)
  | None => mret tt
  end;;
  mret true.

Definition PurgeReference (u guid : Z) (pvp : bool) : combat unit :=
  modify (fun w => set_refs pvp u (delete guid (refs_of pvp u w)) w).

Definition PutReference (u guid a : Z) : combat unit :=
  r ← deref a;
  w ← world;
  if bool_decide (is_Some (refs_of (cr_isPvP r) u w !! guid)) then fail AssertionFailed
  else modify (fun w => set_refs (cr_isPvP r) u (<[guid := a]> (refs_of (cr_isPvP r) u w)) w).

Definition Suppress (a who : Z) : combat unit :=
  alter_ref (fun r => if who =? cr_first r then set_suppressFirst true r else set_suppressSecond true r) a.

(** [~CombatManager] *)
Definition destroy (u : Z) : combat unit :=
  w ← world;
  if bool_decide (refs_of false u w = ∅) && bool_decide (refs_of true u w = ∅)
  then mret tt else fail AssertionFailed.

(** ** The operations

    [notify] is what happens when an AI is told something. *)
Section Operations.
Context (notify : Notice -> combat unit).

Definition has_ai (u : Z) : combat bool := w ← world; mret (HasAI (unit_facts (cw_facts w) u)).

Definition ExitedAI (u : Z) : combat unit := ai ← has_ai u; when ai (notify (JustExitedCombat u)).

Definition NotifyAICombat (me other : Z) : combat unit :=
  ai ← has_ai me; when ai (notify (JustEnteredCombat me other)).

Definition EndCombat (a : Z) : combat unit :=
  r ← deref a;
  log (ClearThreat (cr_first r) (cr_second r));;
  log (ClearThreat (cr_second r) (cr_first r));;
  PurgeReference (cr_first r) (cr_second r) (cr_isPvP r);;
  PurgeReference (cr_second r) (cr_first r) (cr_isPvP r);;
  needFirstAI ← UpdateOwnerCombatState (cr_first r);
  needSecondAI ← UpdateOwnerCombatState (cr_second r);
  when needFirstAI (ExitedAI (cr_first r));;
  when needSecondAI (r ← deref a; ExitedAI (cr_second r));;
  delete_ref a.

Definition Refresh (a : Z) : combat unit :=
  r ← deref a;
  needFirstAI ←
    (if cr_suppressFirst r then
       alter_ref (set_suppressFirst false) a;; UpdateOwnerCombatState (cr_first r)
     else mret false);
  r ← deref a;
  needSecondAI ←
    (if cr_suppressSecond r then
       alter_ref (set_suppressSecond false) a;; UpdateOwnerCombatState (cr_second r)
     else mret false);
  when needFirstAI (r ← deref a; NotifyAICombat (cr_first r) (cr_second r));;
  when needSecondAI (r ← deref a; NotifyAICombat (cr_second r) (cr_first r)).

Definition SuppressFor (a who : Z) : combat unit :=
  Suppress a who;;
  exited ← UpdateOwnerCombatState who;
  when exited (ExitedAI who).

(** [PvPCombatReference::Update] *)
Definition ref_Update (a tdiff : Z) : combat bool :=
  r ← deref a;
  if cr_combatTimer r <=? tdiff then mret false
  else alter_ref (set_combatTimer (cr_combatTimer r - tdiff)) a;; mret true.

Definition RefreshTimer : Z -> combat unit := alter_ref (set_combatTimer PVP_COMBAT_TIMEOUT).

(** *** Loops over a map that the body may change

    An iterator stands at a key. Erasing the key it stands at, other than by
    [it = erase(it)], or inserting any, which may rehash the map, invalidates
    it. *)

(** The first of the keys left that the map still has. *)
Definition next_key (m : gmap Z Z) (ks : list Z) : option Z :=
  head (filter (fun k => is_Some (m !! k)) ks).

Definition keys (m : gmap Z Z) : list Z := (map_to_list m).*1.

(** The [while] loops that erase a reference that [gone] and then end it. *)
Fixpoint erase_loop (gone : Z -> combat bool) (pvp : bool) (u : Z) (ks : list Z) (it : option Z) : combat unit :=
  match ks with
  | [] => mret tt
  | k :: ks =>
      if negb (bool_decide (it = Some k)) then erase_loop gone pvp u ks it
      else
        w ← world;
        match refs_of pvp u w !! k with
        | None => fail InvalidIterator
        | Some a =>
            out ← gone a;
            if out : bool then
              modify (fun w => set_refs pvp u (delete k (refs_of pvp u w)) w);;
              before ← world;
              EndCombat a;;
              after ← world;
              if bool_decide (dom (refs_of pvp u after) ⊆ dom (refs_of pvp u before))
              then erase_loop gone pvp u ks (next_key (refs_of pvp u before) ks)
              else fail InvalidIterator
            else
              w ← world;
              erase_loop gone pvp u ks (next_key (refs_of pvp u w) ks)
        end
  end.

Definition erase_all (gone : Z -> combat bool) (pvp : bool) (u : Z) : combat unit :=
  w ← world;
  let m := refs_of pvp u w in
  erase_loop gone pvp u (keys m) (head (keys m)).

(** A [for] over the map, whose iterator stays at a key during the body. *)
Fixpoint range_loop (body : Z -> Z -> combat unit) (pvp : bool) (u : Z) (ks : list Z) (it : option Z) : combat unit :=
  match ks with
  | [] => mret tt
  | k :: ks =>
      if negb (bool_decide (it = Some k)) then range_loop body pvp u ks it
      else
        before ← world;
        match refs_of pvp u before !! k with
        | None => fail InvalidIterator
        | Some a =>
            body k a;;
            after ← world;
            if bool_decide (dom (refs_of pvp u after) ⊆ dom (refs_of pvp u before))
               && bool_decide (is_Some (refs_of pvp u after !! k))
            then range_loop body pvp u ks (next_key (refs_of pvp u after) ks)
            else fail InvalidIterator
        end
  end.

Definition range_all (body : Z -> Z -> combat unit) (pvp : bool) (u : Z) : combat unit :=
  w ← world;
  let m := refs_of pvp u w in
  range_loop body pvp u (keys m) (head (keys m)).

(** *** The manager of [owner] *)

(** [ref->first == _owner && !ref->Update(tdiff)] *)
Definition timed_out (owner tdiff a : Z) : combat bool :=
  r ← deref a;
  if cr_first r =? owner then alive ← ref_Update a tdiff; mret (negb alive) else mret false.

Definition Update (owner tdiff : Z) : combat unit := erase_all (timed_out owner tdiff) true owner.

Definition SetInCombatWith (owner who : Z) (addSecondUnitSuppressed : bool) : combat bool :=
  w ← world;
  match refs_of true owner w !! who with
  | Some a => RefreshTimer a;; Refresh a;; mret true
  | None =>
      match refs_of false owner w !! who with
      | Some a => Refresh a;; mret true
      | None =>
          let f := cw_facts w in
          if negb (CanBeginCombat f owner who) then mret false else
          a ← new_ref
            {| cr_first := owner; cr_second := who;
               cr_isPvP := IsControlledByPlayer (unit_facts f owner) && IsControlledByPlayer (unit_facts f who);
               cr_suppressFirst := false; cr_suppressSecond := false;
               cr_combatTimer := PVP_COMBAT_TIMEOUT |};
          when addSecondUnitSuppressed (Suppress a who);;
          PutReference owner who a;;
          PutReference who owner a;;
          needSelfAI ← UpdateOwnerCombatState owner;
          needOtherAI ← UpdateOwnerCombatState who;
          when needSelfAI (NotifyAICombat owner who);;
          when needOtherAI (NotifyAICombat who owner);;
          w ← world;
          mret (IsInCombatWith owner who w)
      end
  end.

(** The body of both loops of [InheritCombatStatesFrom]. *)
Definition inherit (owner who guid a : Z) : combat unit :=
  w ← world;
  if IsInCombatWith owner guid w then mret tt else
  r ← deref a;
  let target := GetOther r who in
  let facts := unit_facts (cw_facts w) in
  let controlled := UNIT_FLAG_PLAYER_CONTROLLED (facts target) in
  if (IsImmuneToPC (facts owner) && controlled) || (IsImmuneToNPC (facts owner) && negb controlled)
  then mret tt
  else _ ← SetInCombatWith owner target false; mret tt.

Definition InheritCombatStatesFrom (owner who : Z) : combat unit :=
  range_all (inherit owner who) false who;;
  range_all (inherit owner who) true who.

Definition out_of_range (range a : Z) : combat bool :=
  r ← deref a;
  w ← world;
  mret (negb (IsWithinDistInMap (cw_facts w) (cr_first r) (cr_second r) range)).

Definition EndCombatBeyondRange (owner range : Z) (includingPvP : bool) : combat unit :=
  erase_all (out_of_range range) false owner;;
  when includingPvP (erase_all (out_of_range range) true owner).

Definition invalid_for (owner a : Z) : combat bool :=
  r ← deref a;
  w ← world;
  mret (negb (CanBeginCombat (cw_facts w) owner (GetOther r owner))).

Definition RevalidateCombat (owner : Z) : combat unit :=
  erase_all (invalid_for owner) false owner;;
  erase_all (invalid_for owner) true owner.

(** A null filter lets every unit through. *)
Definition UnitFilter : Type := option (Z -> bool).
Definition passes (filter : UnitFilter) (u : Z) : bool :=
  match filter with Some f => f u | None => true end.

Fixpoint suppress_each (owner : Z) (filter : UnitFilter) (l : list Z) : combat unit :=
  match l with
  | [] => mret tt
  | a :: l =>
      r ← deref a;
      when (passes filter (GetOther r owner)) (Suppress a owner);;
      suppress_each owner filter l
  end.

Definition SuppressPvPCombat (owner : Z) (filter : UnitFilter) : combat unit :=
  w ← world;
  suppress_each owner filter (addresses (refs_of true owner w));;
  exited ← UpdateOwnerCombatState owner;
  when exited (ExitedAI owner).

Fixpoint refs_to_remove (owner : Z) (filter : UnitFilter) (l : list Z) : combat (list Z) :=
  match l with
  | [] => mret []
  | a :: l =>
      r ← deref a;
      rest ← refs_to_remove owner filter l;
      mret (if passes filter (GetOther r owner) then a :: rest else rest)
  end.

Fixpoint end_each (l : list Z) : combat unit :=
  match l with
  | [] => mret tt
  | a :: l => EndCombat a;; end_each l
  end.

Definition end_all (pvp : bool) (owner : Z) (filter : UnitFilter) : combat unit :=
  w ← world;
  l ← refs_to_remove owner filter (addresses (refs_of pvp owner w));
  end_each l.

Definition EndAllPvECombat (owner : Z) (filter : UnitFilter) : combat unit :=
  log (RemoveMeFromThreatLists owner);;
  log (ClearAllThreat owner);;
  end_all false owner filter.

Definition EndAllPvPCombat (owner : Z) (filter : UnitFilter) : combat unit := end_all true owner filter.

Definition EndAllCombat (owner : Z) (filter : UnitFilter) : combat unit :=
  EndAllPvECombat owner filter;; EndAllPvPCombat owner filter.

(** *** Calls

    What the rest of the server, and an AI, may ask of the managers. A
    reference is reached through the maps of a manager. [FactsChange] is the
    world changing. *)
Inductive Call :=
  | CallSetInCombatWith (owner who : Z) (addSecondUnitSuppressed : bool)
  | CallEndCombat (pvp : bool) (owner who : Z)
  | CallSuppressFor (pvp : bool) (owner who : Z)
  | CallInheritCombatStatesFrom (owner who : Z)
  | CallEndCombatBeyondRange (owner range : Z) (includingPvP : bool)
  | CallSuppressPvPCombat (owner : Z) (filter : UnitFilter)
  | CallEndAllPvECombat (owner : Z) (filter : UnitFilter)
  | CallEndAllPvPCombat (owner : Z) (filter : UnitFilter)
  | CallRevalidateCombat (owner : Z)
  | CallUpdate (owner tdiff : Z)
  | FactsChange (f : Facts).

(** The reference [owner] has with [who], if any. *)
Definition on_ref (pvp : bool) (owner who : Z) (m : Z -> combat unit) : combat unit :=
  w ← world;
  match refs_of pvp owner w !! who with
  | Some a => m a
  | None => mret tt
  end.

Definition perform (c : Call) : combat unit :=
  match c with
  | CallSetInCombatWith owner who suppressed => _ ← SetInCombatWith owner who suppressed; mret tt
  | CallEndCombat pvp owner who => on_ref pvp owner who EndCombat
  | CallSuppressFor pvp owner who => on_ref pvp owner who (fun a => SuppressFor a owner)
  | CallInheritCombatStatesFrom owner who => InheritCombatStatesFrom owner who
  | CallEndCombatBeyondRange owner range includingPvP => EndCombatBeyondRange owner range includingPvP
  | CallSuppressPvPCombat owner filter => SuppressPvPCombat owner filter
  | CallEndAllPvECombat owner filter => EndAllPvECombat owner filter
  | CallEndAllPvPCombat owner filter => EndAllPvPCombat owner filter
  | CallRevalidateCombat owner => RevalidateCombat owner
  | CallUpdate owner tdiff => Update owner tdiff
  | FactsChange f => modify (set_facts f)
  end.
End Operations.

Fixpoint perform_each (m : Call -> combat unit) (cs : list Call) : combat unit :=
  match cs with
  | [] => mret tt
  | c :: cs => m c;; perform_each m cs
  end.

(** A call with the AIs at work: what an AI answers to a notice in a state is a
    list of calls, made then and there. [fuel] bounds how deep AIs answer each
    other. *)
Fixpoint run (fuel : nat) (ai : Notice -> World -> list Call) (c : Call) : combat unit :=
  match fuel with
  | O => fail OutOfFuel
  | S fuel =>
      perform (fun n => log n;; w ← world; perform_each (run fuel ai) (ai n w)) c
  end.

Definition history (fuel : nat) (ai : Notice -> World -> list Call) (cs : list Call) : combat unit :=
  perform_each (run fuel ai) cs.
