(* ===== verification/CombatLinks.v ===== *)
(** What holds of the combat references between any two calls: two managers
    and the store agree, and the combat flag says whether a unit has a
    reference that counts for it. *)
From Stdlib Require Import ZArith Lia.
From stdpp Require Import base gmap list tactics.
From S2P Require Import Prelude CombatManager.

Open Scope Z_scope.

(** ** The invariant *)

(** [r] is the reference of [u] with [v]. *)
Definition relates (r : CombatReference) (pvp : bool) (u v : Z) : Prop :=
  cr_isPvP r = pvp /\ u <> v /\
  ((cr_first r = u /\ cr_second r = v) \/ (cr_first r = v /\ cr_second r = u)).

(** [u] has a reference that is not suppressed for it. *)
Definition active (u : Z) (w : World) : Prop :=
  exists pvp v a r, refs_of pvp u w !! v = Some a /\ cw_refs w !! a = Some r /\ IsSuppressedFor r u = false.

(** [dying] are the references that are taken out of the maps and not yet
    deleted. *)
Record Linked (dying : gset Z) (w : World) : Prop := {
  li_entry : forall pvp u v a, refs_of pvp u w !! v = Some a ->
    a ∉ dying /\ exists r, cw_refs w !! a = Some r /\ relates r pvp u v;
  li_held : forall a r, cw_refs w !! a = Some r -> a ∉ dying ->
    cr_first r <> cr_second r
    /\ refs_of (cr_isPvP r) (cr_first r) w !! cr_second r = Some a
    /\ refs_of (cr_isPvP r) (cr_second r) w !! cr_first r = Some a;
  li_one : forall u v a, refs_of true u w !! v = Some a -> refs_of false u w !! v = None;
  li_dying : forall a, a ∈ dying -> is_Some (cw_refs w !! a);
  li_fresh : forall a, is_Some (cw_refs w !! a) -> a < cw_next w
}.

(** The flags are right, but for the units of [s]. *)
Definition flags_but (s : gset Z) (w : World) : Prop :=
  forall u, u ∉ s -> (u ∈ cw_inCombat w <-> active u w).

Record Consistent (dying : gset Z) (w : World) : Prop := {
  co_links : Linked dying w;
  co_flags : flags_but ∅ w
}.

(** ** Maps of the managers *)

Lemma refs_of_set p u m p' u' w :
  refs_of p' u' (set_refs p u m w) = if decide (p' = p /\ u' = u) then m else refs_of p' u' w.
Proof.
  unfold refs_of, set_refs, manager, set_managers. cbn [cw_managers].
  destruct (decide (u' = u)) as [->|Hu].
  - rewrite lookup_insert_eq. cbn. destruct p, p'; case_decide; naive_solver.
  - rewrite lookup_insert_ne by congruence. case_decide; [naive_solver|done].
Qed.

Lemma refs_of_set_eq p u m w : refs_of p u (set_refs p u m w) = m.
Proof. rewrite refs_of_set. by case_decide; [|naive_solver]. Qed.

(** Two worlds with the same references and managers. *)
Definition same_links (w w' : World) : Prop :=
  cw_facts w' = cw_facts w /\ cw_refs w' = cw_refs w /\ cw_next w' = cw_next w /\ cw_managers w' = cw_managers w.

Lemma same_links_refl w : same_links w w.
Proof. done. Qed.

Lemma same_links_trans w1 w2 w3 : same_links w1 w2 -> same_links w2 w3 -> same_links w1 w3.
Proof. unfold same_links. intuition congruence. Qed.

Lemma same_refs_of w w' p u : same_links w w' -> refs_of p u w' = refs_of p u w.
Proof. intros (_ & _ & _ & E). unfold refs_of, manager. by rewrite E. Qed.

Lemma same_active w w' u : same_links w w' -> (active u w' <-> active u w).
Proof. intros S. unfold active. pose proof S as (_ & E & _ & _). setoid_rewrite E. by setoid_rewrite (same_refs_of _ _ _ _ S). Qed.

Lemma same_linked d w w' : same_links w w' -> Linked d w -> Linked d w'.
Proof.
  intros S L. pose proof S as (_ & E & N & _).
  split; intros *; rewrite ?E, ?N, ?(same_refs_of _ _ _ _ S); apply L.
Qed.

(** A unit's references are in the store. *)
Definition live_entries (u : Z) (w : World) : Prop :=
  forall p v a, refs_of p u w !! v = Some a -> is_Some (cw_refs w !! a).

Lemma linked_live d w u : Linked d w -> live_entries u w.
Proof. intros L p v a E. apply (li_entry _ _ L) in E as (_ & r & E & _). by eexists. Qed.

Lemma elem_of_addresses m a : a ∈ addresses m <-> exists v, m !! v = Some a.
Proof.
  unfold addresses. rewrite list_elem_of_fmap. split.
  - intros ([v b] & -> & H). exists v. by apply elem_of_map_to_list.
  - intros [v H]. exists (v, a). by rewrite elem_of_map_to_list.
Qed.

(** ** The flag of a unit *)

Lemma step_bind {A B} (m : combat A) (f : A -> combat B) w x w' :
  m w = Done (x, w') -> (m ≫= f) w = f x w'.
Proof. intros E. unfold mbind, combat_bind. by rewrite E. Qed.

Lemma first_active_done u l w : (forall a, a ∈ l -> is_Some (cw_refs w !! a)) ->
  exists o, first_active u l w = Done (o, w) /\
    (is_Some o <-> exists a r, a ∈ l /\ cw_refs w !! a = Some r /\ IsSuppressedFor r u = false).
Proof.
  induction l as [|a l IH]; intros H; cbn [first_active].
  - exists None. split; [done|]. split; [by intros []|]. intros (a & r & Ha & _). by apply elem_of_nil in Ha.
  - destruct (H a (list_elem_of_here a l)) as [r E]. unfold mbind, combat_bind, deref at 1. rewrite E.
    destruct (IsSuppressedFor r u) eqn:S; cbn [negb].
    + destruct IH as (o & Ho & Hi); [intros b Hb; apply H; by right|]. exists o. split; [done|]. rewrite Hi.
      split; intros (b & r' & Hb & Er & Hs); exists b, r'; [split; [by right|done]|].
      apply elem_of_cons in Hb as [->|Hb]; [congruence|done].
    + exists (Some r). split; [done|]. split; [|done]. intros _. exists a, r. split; [left|]; done.
Qed.

Lemma HasCombat_in_done p u w : live_entries u w ->
  exists b, HasCombat_in p u w = Done (b, w) /\
    (b = true <-> exists v a r, refs_of p u w !! v = Some a /\ cw_refs w !! a = Some r /\ IsSuppressedFor r u = false).
Proof.
  intros Hl. destruct (first_active_done u (addresses (refs_of p u w)) w) as (o & Ho & Hi).
  { intros a Ha. apply elem_of_addresses in Ha as [v Ha]. by eapply Hl. }
  exists (bool_decide (is_Some o)). unfold HasCombat_in, mbind, combat_bind, world. rewrite Ho.
  split; [done|]. rewrite bool_decide_eq_true, Hi. split.
  - intros (a & r & Ha & Hr). apply elem_of_addresses in Ha as [v Ha]. by exists v, a, r.
  - intros (v & a & r & Ha & Hr). exists a, r. split; [|done]. apply elem_of_addresses. by exists v.
Qed.

Lemma HasCombat_done u w : live_entries u w ->
  exists b, HasCombat u w = Done (b, w) /\ (b = true <-> active u w).
Proof.
  intros Hl. destruct (HasCombat_in_done false u w Hl) as (b & E & Hb).
  destruct (HasCombat_in_done true u w Hl) as (c & E' & Hc).
  unfold HasCombat, HasPvECombat, HasPvPCombat, mbind, combat_bind. rewrite E. destruct b.
  - exists true. split; [done|]. split; [|done]. intros _. destruct (proj1 Hb eq_refl) as (v & a & r & H). by exists false, v, a, r.
  - exists c. rewrite E'. split; [done|]. rewrite Hc. split.
    + intros (v & a & r & H). by exists true, v, a, r.
    + intros ([|] & v & a & r & H); [by exists v, a, r|]. discriminate (proj2 Hb). by exists v, a, r.
Qed.

Lemma GetAnyTarget_done u w : live_entries u w -> exists t, GetAnyTarget u w = Done (t, w).
Proof.
  intros Hl. unfold GetAnyTarget, mbind, combat_bind, world.
  destruct (first_active_done u (addresses (refs_of false u w)) w) as (o & -> & _).
  { intros a Ha. apply elem_of_addresses in Ha as [v Ha]. by eapply Hl. }
  destruct o; [by eexists|].
  destruct (first_active_done u (addresses (refs_of true u w)) w) as (o & -> & _).
  { intros a Ha. apply elem_of_addresses in Ha as [v Ha]. by eapply Hl. }
  by eexists.
Qed.

(** What [UpdateOwnerCombatState] does: the flag of one unit is made right. *)
Definition flag_updated (u : Z) (w w' : World) : Prop :=
  same_links w w' /\ (u ∈ cw_inCombat w' <-> active u w)
  /\ (forall v, v <> u -> (v ∈ cw_inCombat w' <-> v ∈ cw_inCombat w)).

(** A step that changes no link and no flag. *)
Definition silent (m : combat unit) (w : World) : Prop :=
  exists w', m w = Done (tt, w') /\ same_links w w' /\ cw_inCombat w' = cw_inCombat w.

Lemma silent_log n w : silent (log n) w.
Proof. by eexists. Qed.

Lemma silent_when b m w : silent m w -> silent (when b m) w.
Proof. intros H. destruct b; [done|]. by exists w. Qed.

Lemma silent_engage u w : live_entries u w -> silent (t ← GetAnyTarget u; log (AtEngage u t)) w.
Proof.
  intros Hl. destruct (GetAnyTarget_done u w Hl) as [t E]. unfold silent. rewrite (step_bind _ _ _ _ _ E). by eexists.
Qed.

Lemma silent_master o w : silent (match o with Some master => log (UpdatePetCombatState master) | None => mret tt end) w.
Proof. destruct o; by eexists. Qed.

Lemma UpdateOwnerCombatState_done u w : live_entries u w ->
  exists b w', UpdateOwnerCombatState u w = Done (b, w') /\ flag_updated u w w'.
Proof.
  intros Hl. destruct (HasCombat_done u w Hl) as (c & Ec & Hc).
  unfold UpdateOwnerCombatState. rewrite (step_bind _ _ _ _ _ Ec), (step_bind _ _ _ _ _ eq_refl).
  destruct (Bool.eqb c (IsInCombat u w)) eqn:Eb.
  { exists false, w. apply eqb_prop in Eb. split; [done|]. split; [done|]. split; [|done].
    rewrite <- Hc, Eb. unfold IsInCombat. by rewrite bool_decide_eq_true. }
  set (f := unit_facts (cw_facts w) u).
  set (s := if c then {[u]} ∪ cw_inCombat w else cw_inCombat w ∖ {[u]}).
  set (w1 := add_log (if c then AtEnterCombat u else AtExitCombat u) (set_inCombat s w)).
  assert (Q : silent (when (negb (TYPEID_UNIT f))
    (if c then t ← GetAnyTarget u; log (AtEngage u t) else log (AtDisengage u))) w1)
    by (apply silent_when; destruct c; [by apply silent_engage|apply silent_log]).
  destruct Q as (w2 & E2 & S2 & I2). destruct (silent_master (GetCharmerOrOwner f) w2) as (w3 & E3 & S3 & I3).
  exists true, w3. split.
  - rewrite (step_bind _ _ _ tt w2); [by rewrite (step_bind _ _ _ _ _ E3)|].
    destruct c; rewrite !(step_bind _ _ _ _ _ eq_refl); exact E2.
  - split; [eapply same_links_trans; [|exact S3]; eapply same_links_trans; [|exact S2]; done|].
    rewrite I3, I2. cbn. subst s. split; [|intros v Hv; destruct c; set_solver].
    rewrite <- Hc. destruct c; set_solver.
Qed.

(** After an update the flags are right but for those that were wrong before,
    less the unit. *)
Lemma flag_updated_but s u w w' : flag_updated u w w' -> flags_but ({[u]} ∪ s) w -> flags_but s w'.
Proof.
  intros (S & Hu & Ho) F v Hv. rewrite (same_active _ _ _ S).
  destruct (decide (v = u)) as [->|Hn]; [done|]. rewrite (Ho v Hn). apply F. set_solver.
Qed.

Lemma flag_updated_live u v w w' : flag_updated u w w' -> live_entries v w -> live_entries v w'.
Proof.
  intros (S & _) H p x a. rewrite (same_refs_of _ _ _ _ S). destruct S as (_ & -> & _). apply H.
Qed.

(** ** Taking a reference out *)

(** All is linked, but that the maps of the two units of [a] need not have it. *)
Record LinkedBut (dying : gset Z) (a : Z) (r : CombatReference) (w : World) : Prop := {
  lb_ref : cw_refs w !! a = Some r;
  lb_alive : a ∉ dying;
  lb_units : cr_first r <> cr_second r;
  lb_entry : forall pvp u v b, refs_of pvp u w !! v = Some b ->
    b ∉ dying /\ exists r', cw_refs w !! b = Some r' /\ relates r' pvp u v;
  lb_own : forall b, (refs_of (cr_isPvP r) (cr_first r) w !! cr_second r = Some b
                      \/ refs_of (cr_isPvP r) (cr_second r) w !! cr_first r = Some b) -> b = a;
  lb_held : forall b r', cw_refs w !! b = Some r' -> b ∉ dying -> b <> a ->
    cr_first r' <> cr_second r'
    /\ refs_of (cr_isPvP r') (cr_first r') w !! cr_second r' = Some b
    /\ refs_of (cr_isPvP r') (cr_second r') w !! cr_first r' = Some b;
  lb_one : forall u v b, refs_of true u w !! v = Some b -> refs_of false u w !! v = None;
  lb_dying : forall b, b ∈ dying -> is_Some (cw_refs w !! b);
  lb_fresh : forall b, is_Some (cw_refs w !! b) -> b < cw_next w
}.

(** The two [PurgeReference] of [EndCombat]. *)
Definition purge (r : CombatReference) (w : World) : World :=
  let w1 := set_refs (cr_isPvP r) (cr_first r) (delete (cr_second r) (refs_of (cr_isPvP r) (cr_first r) w)) w in
  set_refs (cr_isPvP r) (cr_second r) (delete (cr_first r) (refs_of (cr_isPvP r) (cr_second r) w1)) w1.

Definition is_pair (r : CombatReference) (p : bool) (u v : Z) : bool :=
  Bool.eqb p (cr_isPvP r)
  && ((u =? cr_first r) && (v =? cr_second r) || (u =? cr_second r) && (v =? cr_first r)).

Lemma purge_lookup r w p u v : cr_first r <> cr_second r ->
  refs_of p u (purge r w) !! v = if is_pair r p u v then None else refs_of p u w !! v.
Proof.
  intros Hd. unfold purge, is_pair. rewrite !refs_of_set.
  destruct (Bool.eqb_spec p (cr_isPvP r)) as [->|Hp]; cbn [andb];
    [|repeat case_decide; try done; naive_solver].
  destruct (Z.eqb_spec u (cr_first r)) as [Ef|Hf], (Z.eqb_spec u (cr_second r)) as [Es|Hs];
    cbn [andb orb]; try congruence.
  - rewrite decide_False, decide_True by intuition congruence. subst u. rewrite orb_false_r, lookup_delete.
    case_decide; destruct (Z.eqb_spec v (cr_second r)); done || congruence.
  - rewrite decide_True, decide_False by intuition congruence. subst u. rewrite lookup_delete.
    case_decide; destruct (Z.eqb_spec v (cr_first r)); done || congruence.
  - by rewrite !decide_False by intuition congruence.
Qed.

Lemma purge_store r w : cw_refs (purge r w) = cw_refs w /\ cw_next (purge r w) = cw_next w
  /\ cw_inCombat (purge r w) = cw_inCombat w /\ cw_facts (purge r w) = cw_facts w.
Proof. done. Qed.

Lemma relates_pair r p u v : relates r p u v -> is_pair r p u v = true.
Proof.
  intros (<- & _ & [[<- <-]|[<- <-]]); unfold is_pair; rewrite Bool.eqb_reflx, !Z.eqb_refl; cbn; [done|].
  by rewrite orb_true_r.
Qed.

Lemma is_pair_relates r p u v : cr_first r <> cr_second r -> is_pair r p u v = true -> relates r p u v.
Proof.
  intros Hd. unfold is_pair, relates. rewrite andb_true_iff, orb_true_iff, !andb_true_iff, !Z.eqb_eq.
  intros [Hp H]. apply eqb_prop in Hp. subst p. split; [done|]. destruct H as [[-> ->]|[-> ->]]; auto.
Qed.

Lemma purged_linked d a r w : LinkedBut d a r w -> Linked ({[a]} ∪ d) (purge r w).
Proof.
  intros L. pose proof (lb_units _ _ _ _ L) as Hd. destruct (purge_store r w) as (E & N & _).
  split.
  - intros p u v b. rewrite purge_lookup, E by done. destruct (is_pair r p u v) eqn:P; [done|].
    intros Hb. destruct (lb_entry _ _ _ _ L _ _ _ _ Hb) as (Hdy & r' & Er & Hr). split; [|by exists r'].
    intros Hin. assert (b = a) as -> by set_solver. rewrite (lb_ref _ _ _ _ L) in Er. injection Er as <-.
    by rewrite (relates_pair _ _ _ _ Hr) in P.
  - intros b r'. rewrite E. intros Er Hb.
    destruct (lb_held _ _ _ _ L b r' Er) as (Hn & H1 & H2); [set_solver|set_solver|].
    split; [done|]. rewrite !purge_lookup by done.
    assert (P : forall u v, refs_of (cr_isPvP r') u w !! v = Some b -> is_pair r (cr_isPvP r') u v = false).
    { intros u v Hu. apply not_true_iff_false. intros P. apply is_pair_relates in P; [|done].
      destruct P as (Hp & _ & [[E1 E2]|[E1 E2]]); rewrite <- Hp, <- E1, <- E2 in Hu;
        assert (b = a) as -> by (apply (lb_own _ _ _ _ L); auto); set_solver. }
    by rewrite !P.
  - intros u v b. rewrite !purge_lookup by done. destruct (is_pair r true u v) eqn:P; [done|].
    intros Hb. rewrite (lb_one _ _ _ _ L _ _ _ Hb). by destruct (is_pair r false u v).
  - intros b Hb. rewrite E. apply elem_of_union in Hb as [Hb|Hb]; [|by apply (lb_dying _ _ _ _ L)].
    apply elem_of_singleton in Hb as ->. rewrite (lb_ref _ _ _ _ L). by eexists.
  - intros b. rewrite E, N. apply (lb_fresh _ _ _ _ L).
Qed.
