(* ===== verification/CombatKeeps.v ===== *)
(** Every call on the combat managers keeps them consistent, whatever the AIs
    it tells call back. *)
From Stdlib Require Import ZArith Lia.
From stdpp Require Import base gmap list tactics.
From S2P Require Import Prelude CombatManager CombatLinks.

Open Scope Z_scope.

(** ** Triples *)

(** From a world of [P] the step fails by no assertion, and leads to [Q]. *)
Definition leads {A} (P : World -> Prop) (m : combat A) (Q : A -> World -> Prop) : Prop :=
  forall w, P w -> match m w with Done (x, w') => Q x w' | Failed f => f <> AssertionFailed end.

Definition keeps {A} (d : gset Z) (m : combat A) : Prop := leads (Consistent d) m (fun _ => Consistent d).

Lemma leads_ret {A} (x : A) (P : World -> Prop) (Q : A -> World -> Prop) : (forall w, P w -> Q x w) -> leads P (mret x) Q.
Proof. intros H w. apply H. Qed.

Lemma leads_bind {A B} (m : combat A) (f : A -> combat B) P Q R :
  leads P m Q -> (forall x, leads (Q x) (f x) R) -> leads P (m ≫= f) R.
Proof.
  intros Hm Hf w Hw. specialize (Hm w Hw). unfold mbind, combat_bind.
  destruct (m w) as [[x w']|e]; [|done]. exact (Hf x w' Hm).
Qed.

Lemma leads_weaken {A} (m : combat A) (P P' : World -> Prop) (Q Q' : A -> World -> Prop) :
  leads P' m Q' -> (forall w, P w -> P' w) -> (forall x w, Q' x w -> Q x w) -> leads P m Q.
Proof.
  intros Hm HP HQ w Hw. specialize (Hm w (HP w Hw)). destruct (m w) as [[x w']|e]; [|done]. by apply HQ.
Qed.

(** The world as it is at some point. *)
Lemma leads_world {B} (f : World -> combat B) P R :
  (forall w, P w -> leads (fun w' => w' = w) (f w) R) -> leads P (w ← world; f w) R.
Proof. intros H w Hw. exact (H w Hw w eq_refl). Qed.

Lemma leads_at {A} (m : combat A) (P : World -> Prop) Q : (forall w, P w -> leads (fun w' => w' = w) m Q) -> leads P m Q.
Proof. intros H w Hw. exact (H w Hw w eq_refl). Qed.

Lemma leads_from {A} (m : combat A) (P : World -> Prop) Q w : P w -> leads P m Q -> leads (fun w' => w' = w) m Q.
Proof. intros Hw H w' ->. by apply H. Qed.

Lemma leads_when (b : bool) m (P : World -> Prop) : leads P m (fun _ => P) -> leads P (when b m) (fun _ => P).
Proof. intros H. destruct b; [done|]. by apply leads_ret. Qed.

Lemma leads_modify f (P Q : World -> Prop) : (forall w, P w -> Q (f w)) -> leads P (modify f) (fun _ => Q).
Proof. intros H w Hw. by apply H. Qed.

Lemma leads_deref a (P : World -> Prop) : leads P (deref a) (fun r w => P w /\ cw_refs w !! a = Some r).
Proof. intros w Hw. unfold deref. by destruct (cw_refs w !! a) eqn:E. Qed.

Lemma keeps_ret {A} d (x : A) : keeps d (mret x).
Proof. by apply leads_ret. Qed.

Lemma keeps_bind {A B} d (m : combat A) (f : A -> combat B) : keeps d m -> (forall x, keeps d (f x)) -> keeps d (m ≫= f).
Proof. apply leads_bind. Qed.

Lemma keeps_when d b m : keeps d m -> keeps d (when b m).
Proof. apply leads_when. Qed.

Lemma keeps_deref d a : keeps d (deref a).
Proof. eapply leads_weaken; [apply leads_deref|done|]. by intros x w [H _]. Qed.

Lemma keeps_world d : keeps d world.
Proof. by intros w Hw. Qed.

(** A step that changes neither links nor flags. *)
Lemma same_consistent d w w' : same_links w w' -> cw_inCombat w' = cw_inCombat w -> Consistent d w -> Consistent d w'.
Proof.
  intros S I [L F]. split; [by eapply same_linked|]. intros u Hu. rewrite I, (same_active _ _ _ S). by apply F.
Qed.

Lemma keeps_log d n : keeps d (log n).
Proof. apply leads_modify. intros w H. by eapply same_consistent; [..|exact H]. Qed.

Lemma keeps_facts d f : keeps d (modify (set_facts f)).
Proof. apply leads_modify. intros w [[] F]. split; [by split|done]. Qed.

(** ** Flags *)

Lemma leads_update d s u :
  leads (fun w => Linked d w /\ flags_but ({[u]} ∪ s) w) (UpdateOwnerCombatState u)
    (fun _ w => Linked d w /\ flags_but s w).
Proof.
  intros w [L F]. destruct (UpdateOwnerCombatState_done u w (linked_live _ _ _ L)) as (b & w' & -> & U).
  split; [by eapply same_linked; [apply U|]|by eapply flag_updated_but].
Qed.

Lemma consistent_iff d w : Consistent d w <-> Linked d w /\ flags_but ∅ w.
Proof. split; [by intros []|by intros []]. Qed.

Lemma leads_update_last d u :
  leads (fun w => Linked d w /\ flags_but {[u]} w) (UpdateOwnerCombatState u) (fun _ => Consistent d).
Proof.
  eapply leads_weaken; [apply (leads_update d ∅ u)|..].
  - intros w. by rewrite union_empty_r_L.
  - intros x w. by rewrite consistent_iff.
Qed.

(** ** Changes of a reference *)

(** The units of a reference and its kind stay. *)
Definition same_units (f : CombatReference -> CombatReference) : Prop :=
  forall r, cr_first (f r) = cr_first r /\ cr_second (f r) = cr_second r /\ cr_isPvP (f r) = cr_isPvP r.

Lemma same_units_relates f r p u v : same_units f -> relates (f r) p u v <-> relates r p u v.
Proof. intros H. unfold relates. by destruct (H r) as (-> & -> & ->). Qed.

Definition with_ref (f : CombatReference -> CombatReference) (a : Z) (r : CombatReference) (w : World) : World :=
  set_store (<[a := f r]> (cw_refs w)) w.

Lemma with_ref_linked d f a r w : same_units f -> cw_refs w !! a = Some r -> Linked d w -> Linked d (with_ref f a r w).
Proof.
  intros Hf Ea L. assert (K : forall b, is_Some (cw_refs (with_ref f a r w) !! b) <-> is_Some (cw_refs w !! b)).
  { intros b. cbn. rewrite lookup_insert. case_decide as E; [|done]. subst b. rewrite Ea. split; by eexists. }
  split.
  - intros p u v b Hb. destruct (li_entry _ _ L p u v b Hb) as (Hd & r' & E & Hr). split; [done|].
    cbn. rewrite lookup_insert. case_decide as Eb; [|by exists r']. subst b.
    exists (f r). split; [done|]. rewrite same_units_relates by done. by assert (r = r') as -> by congruence.
  - intros b r' E Hd. cbn in E. rewrite lookup_insert in E.
    assert (exists r0, cw_refs w !! b = Some r0 /\ (r' = r0 \/ r' = f r0)) as (r0 & E0 & H0).
    { case_decide as Eb; [subst b; injection E as <-; exists r; auto|exists r'; auto]. }
    pose proof (li_held _ _ L b r0 E0 Hd) as H. destruct (Hf r0) as (F1 & F2 & F3).
    destruct H0 as [->| ->]; [exact H|]. rewrite F1, F2, F3. exact H.
  - apply (li_one _ _ L).
  - intros b Hb. rewrite K. by apply (li_dying _ _ L).
  - intros b Hb. apply (li_fresh _ _ L). by apply K.
Qed.

(** The flags of units for which the reference is suppressed as before. *)
Lemma with_ref_active d f a r w u : same_units f -> Linked d w -> cw_refs w !! a = Some r ->
  (u = cr_first r \/ u = cr_second r -> IsSuppressedFor (f r) u = IsSuppressedFor r u) ->
  active u (with_ref f a r w) <-> active u w.
Proof.
  intros Hf L Ea Hs.
  assert (K : forall p v, refs_of p u w !! v = Some a -> IsSuppressedFor (f r) u = IsSuppressedFor r u).
  { intros p v Hb. destruct (li_entry _ _ L _ _ _ _ Hb) as (_ & r' & E & _ & _ & Hr).
    assert (r' = r) as -> by congruence. apply Hs. intuition congruence. }
  unfold active. split; intros (p & v & b & r' & Hb & E & S).
  - cbn in E. rewrite lookup_insert in E. case_decide as Eb; [|by exists p, v, b, r'].
    subst b. injection E as <-. rewrite (K _ _ Hb) in S. by exists p, v, a, r.
  - exists p, v, b. destruct (decide (a = b)) as [<-|Hn].
    + assert (r' = r) as -> by congruence. exists (f r). split; [done|]. cbn. rewrite lookup_insert_eq.
      split; [done|]. by rewrite (K _ _ Hb).
    + exists r'. split; [done|]. cbn. by rewrite lookup_insert_ne.
Qed.

(** A change that only concerns the suppression for [who]. *)
Lemma leads_alter d s who f a r : same_units f ->
  (forall u, u <> who -> u = cr_first r \/ u = cr_second r -> IsSuppressedFor (f r) u = IsSuppressedFor r u) ->
  leads (fun w => (Linked d w /\ flags_but s w) /\ cw_refs w !! a = Some r) (alter_ref f a)
    (fun _ w => (Linked d w /\ flags_but ({[who]} ∪ s) w) /\ cw_refs w !! a = Some (f r)).
Proof.
  intros Hf Hs. unfold alter_ref. eapply leads_bind; [apply leads_deref|]. intros r'.
  apply leads_modify. intros w [[[L F] E] E']. assert (r' = r) as -> by congruence.
  split; [|apply lookup_insert_eq]. split; [by apply with_ref_linked|].
  intros u Hu. change (u ∈ cw_inCombat w <-> active u (with_ref f a r w)).
  rewrite (with_ref_active d); [apply F; set_solver|done..|]. apply Hs. set_solver.
Qed.

(** A change that concerns no suppression. *)
Lemma keeps_alter d f a : same_units f -> (forall r u, IsSuppressedFor (f r) u = IsSuppressedFor r u) ->
  keeps d (alter_ref f a).
Proof.
  intros Hf Hs. unfold alter_ref. eapply leads_bind; [apply leads_deref|]. intros r.
  apply leads_modify. intros w [[L F] E]. split; [by apply with_ref_linked|].
  intros u Hu. change (u ∈ cw_inCombat w <-> active u (with_ref f a r w)).
  rewrite (with_ref_active d) by auto. by apply F.
Qed.

(** ** Ending a combat *)

Lemma live_linked_but d a r w : Linked d w -> cw_refs w !! a = Some r -> a ∉ d -> LinkedBut d a r w.
Proof.
  intros L E Ha. destruct (li_held _ _ L a r E Ha) as (Hn & H1 & H2).
  split; try done; try apply L.
  - intros b [Hb|Hb]; congruence.
  - intros b r' Eb Hb _. by apply (li_held _ _ L).
Qed.

(** The manager may have erased its entry before. *)
Lemma erased_linked_but d a r w p u k : Linked d w -> refs_of p u w !! k = Some a -> cw_refs w !! a = Some r ->
  LinkedBut d a r (set_refs p u (delete k (refs_of p u w)) w).
Proof.
  intros L Hk E. destruct (li_entry _ _ L _ _ _ _ Hk) as (Ha & r' & Er & Hr).
  assert (r' = r) as -> by congruence. destruct (live_linked_but d a r w L E Ha) as [_ _ Hu Hent Hown Hheld Hone Hdy Hfr].
  set (w' := set_refs p u _ w).
  assert (Hin : forall p' u' v' b, refs_of p' u' w' !! v' = Some b -> refs_of p' u' w !! v' = Some b).
  { intros p' u' v' b. unfold w'. rewrite refs_of_set. case_decide as H; [|done]. destruct H as [-> ->].
    rewrite lookup_delete_Some. tauto. }
  assert (Hof : forall p' u' v' b, refs_of p' u' w !! v' = Some b -> b <> a -> refs_of p' u' w' !! v' = Some b).
  { intros p' u' v' b Hb Hn. unfold w'. rewrite refs_of_set. case_decide as H; [|done]. destruct H as [-> ->].
    rewrite lookup_delete_ne; [done|]. intros <-. congruence. }
  split; try done.
  - intros p' u' v' b Hb. apply (Hent p' u' v' b). by apply Hin.
  - intros b [Hb|Hb]; apply Hown; [left|right]; by apply Hin.
  - intros b r' Eb Hb Hn. destruct (Hheld b r' Eb Hb Hn) as (H0 & H1 & H2). auto.
  - intros u' v' b Hb. apply Hin, Hone in Hb. destruct (refs_of false u' w' !! v') eqn:E'; [|done].
    apply Hin in E'. congruence.
Qed.

(** The flags of units other than the two are not concerned. *)
Lemma purge_active r w u : cr_first r <> cr_second r -> u <> cr_first r -> u <> cr_second r ->
  active u (purge r w) <-> active u w.
Proof.
  intros Hd H1 H2. unfold active. change (cw_refs (purge r w)) with (cw_refs w).
  assert (E : forall p v, refs_of p u (purge r w) !! v = refs_of p u w !! v).
  { intros p v. rewrite purge_lookup by done. unfold is_pair.
    rewrite (proj2 (Z.eqb_neq _ _) H1), (proj2 (Z.eqb_neq _ _) H2). by rewrite andb_false_r. }
  by setoid_rewrite E.
Qed.

(** What [EndCombat] does before it tells the AIs. *)
Lemma EndCombat_start notify d a r w :
  LinkedBut d a r w -> flags_but ({[cr_first r]} ∪ {[cr_second r]}) w ->
  exists w' b1 b2,
    EndCombat notify a w = (when b1 (ExitedAI notify (cr_first r));;
                            when b2 (r ← deref a; ExitedAI notify (cr_second r));; delete_ref a) w'
    /\ Consistent ({[a]} ∪ d) w' /\ same_links (purge r w) w'.
Proof.
  intros LB F. pose proof (lb_ref _ _ _ _ LB) as E. pose proof (lb_units _ _ _ _ LB) as Hd.
  set (w0 := add_log (ClearThreat (cr_second r) (cr_first r)) (add_log (ClearThreat (cr_first r) (cr_second r)) w)).
  set (w1 := purge r w0).
  assert (S1 : same_links (purge r w) w1) by done.
  assert (L1 : Linked ({[a]} ∪ d) w1) by (apply (same_linked _ (purge r w)); [done|by apply purged_linked]).
  assert (F1 : flags_but ({[cr_first r]} ∪ {[cr_second r]}) w1).
  { intros u Hu. change (u ∈ cw_inCombat w <-> active u w1).
    rewrite (same_active _ _ _ S1), purge_active by set_solver. by apply F. }
  destruct (UpdateOwnerCombatState_done (cr_first r) w1 (linked_live _ _ _ L1)) as (b1 & w2 & E2 & U2).
  assert (L2 : Linked ({[a]} ∪ d) w2) by (eapply same_linked; [apply U2|done]).
  destruct (UpdateOwnerCombatState_done (cr_second r) w2 (linked_live _ _ _ L2)) as (b2 & w3 & E3 & U3).
  exists w3, b1, b2. split; [|split].
  - unfold EndCombat. rewrite (step_bind _ _ _ r w) by (unfold deref; by rewrite E).
    rewrite !(step_bind _ _ _ _ _ eq_refl). rewrite (step_bind _ _ w1 _ _ E2).
    by rewrite (step_bind _ _ _ _ _ E3).
  - split; [by eapply same_linked; [apply U3|]|]. eapply flag_updated_but; [exact U3|].
    rewrite union_empty_r_L. eapply flag_updated_but; [exact U2|done].
  - eapply same_links_trans; [exact S1|]. eapply same_links_trans; [apply U2|apply U3].
Qed.

(** A dying reference is deleted. *)
Lemma deleted_consistent d a w : a ∉ d -> Consistent ({[a]} ∪ d) w ->
  exists w', delete_ref a w = Done (tt, w') /\ w' = set_store (delete a (cw_refs w)) w /\ Consistent d w'.
Proof.
  intros Ha [L F]. destruct (li_dying _ _ L a ltac:(set_solver)) as [r E].
  eexists. split; [|split; [reflexivity|]].
  { unfold delete_ref. by rewrite (step_bind _ _ _ r w) by (unfold deref; by rewrite E). }
  set (w' := set_store _ w).
  assert (K : forall b, b ∉ {[a]} ∪ d -> cw_refs w' !! b = cw_refs w !! b).
  { intros b Hb. cbn. apply lookup_delete_ne. set_solver. }
  assert (N : forall p u v b, refs_of p u w' !! v = Some b -> cw_refs w' !! b = cw_refs w !! b).
  { intros p u v b Hb. apply K. by apply (li_entry _ _ L p u v). }
  split; [split|].
  - intros p u v b Hb. destruct (li_entry _ _ L p u v b Hb) as (Hd & r' & Er & Hr). split; [set_solver|].
    exists r'. by rewrite K.
  - intros b r' Eb Hd. cbn in Eb. apply lookup_delete_Some in Eb as [Hn Eb]. apply (li_held _ _ L b r' Eb). set_solver.
  - apply (li_one _ _ L).
  - intros b Hb. cbn. rewrite lookup_delete_ne by set_solver. apply (li_dying _ _ L). set_solver.
  - intros b Hb. apply (li_fresh _ _ L). cbn in Hb. destruct Hb as [x Hb]. apply lookup_delete_Some in Hb as [_ Hb]. by eexists.
  - intros u Hu. change (u ∈ cw_inCombat w <-> active u w'). rewrite (F u Hu). unfold active.
    split; intros (p & v & b & r' & Hb & Er & Hs); exists p, v, b, r'; (split; [exact Hb|split; [|exact Hs]]).
    + by rewrite (N p u v b Hb).
    + by rewrite (N p u v b Hb) in Er.
Qed.

(** ** Beginning a combat *)

(** The world with a new reference in both managers. *)
Definition add_pair (r : CombatReference) (w : World) : World :=
  let a := cw_next w in
  let w0 := set_next (a + 1) (set_store (<[a := r]> (cw_refs w)) w) in
  let w1 := set_refs (cr_isPvP r) (cr_first r) (<[cr_second r := a]> (refs_of (cr_isPvP r) (cr_first r) w)) w0 in
  set_refs (cr_isPvP r) (cr_second r) (<[cr_first r := a]> (refs_of (cr_isPvP r) (cr_second r) w1)) w1.

Lemma add_pair_lookup r w p u v : cr_first r <> cr_second r ->
  refs_of p u (add_pair r w) !! v = if is_pair r p u v then Some (cw_next w) else refs_of p u w !! v.
Proof.
  intros Hd. unfold add_pair, is_pair. rewrite !refs_of_set.
  change (refs_of p u (set_next _ _)) with (refs_of p u w).
  destruct (Bool.eqb_spec p (cr_isPvP r)) as [->|Hp]; cbn [andb];
    [|repeat case_decide; try done; naive_solver].
  destruct (Z.eqb_spec u (cr_first r)) as [Ef|Hf], (Z.eqb_spec u (cr_second r)) as [Es|Hs];
    cbn [andb orb]; try congruence.
  - rewrite decide_False, decide_True by intuition congruence. subst u. rewrite orb_false_r, lookup_insert.
    case_decide; destruct (Z.eqb_spec v (cr_second r)); done || congruence.
  - rewrite decide_True, decide_False by intuition congruence. subst u.
    rewrite lookup_insert. change (refs_of _ _ (set_next _ _)) with (refs_of (cr_isPvP r) (cr_second r) w).
    case_decide; destruct (Z.eqb_spec v (cr_first r)); done || congruence.
  - by rewrite !decide_False by intuition congruence.
Qed.

(** Combat is mutual. *)
Lemma linked_sym d w p u v a : Linked d w -> refs_of p u w !! v = Some a -> refs_of p v w !! u = Some a.
Proof.
  intros L H. destruct (li_entry _ _ L _ _ _ _ H) as (Ha & r & E & <- & _ & Hr).
  destruct (li_held _ _ L a r E Ha) as (_ & H1 & H2). by destruct Hr as [[<- <-]|[<- <-]].
Qed.

Lemma linked_none d w p u v : Linked d w -> refs_of p u w !! v = None -> refs_of p v w !! u = None.
Proof.
  intros L H. destruct (refs_of p v w !! u) as [a|] eqn:E; [|done].
  apply (linked_sym _ _ _ _ _ _ L) in E. congruence.
Qed.

Lemma add_pair_linked d r w : Linked d w -> cr_first r <> cr_second r ->
  (forall p, refs_of p (cr_first r) w !! cr_second r = None) -> Linked d (add_pair r w).
Proof.
  intros L Hd H0. set (a := cw_next w).
  assert (H0' : forall p, refs_of p (cr_second r) w !! cr_first r = None) by (intros p; by eapply linked_none).
  assert (Na : cw_refs w !! a = None).
  { destruct (cw_refs w !! a) eqn:E; [|done]. pose proof (li_fresh _ _ L a ltac:(by eexists)). unfold a in *. lia. }
  change (cw_refs (add_pair r w)) with (<[a := r]> (cw_refs w)) in *.
  assert (E : forall b x, cw_refs w !! b = Some x -> cw_refs (add_pair r w) !! b = Some x).
  { intros b x Hb. cbn. rewrite lookup_insert_ne; [done|]. fold a. intros <-. congruence. }
  assert (Ea : cw_refs (add_pair r w) !! a = Some r) by apply lookup_insert_eq.
  assert (Da : a ∉ d) by (intros Hin; apply (li_dying _ _ L) in Hin as [x Hx]; congruence).
  split.
  - intros p u v b. rewrite add_pair_lookup by done. destruct (is_pair r p u v) eqn:P.
    + intros [= <-]. split; [done|]. exists r. split; [exact Ea|]. by apply is_pair_relates.
    + intros Hb. destruct (li_entry _ _ L p u v b Hb) as (Hdy & r' & Er & Hr). split; [done|]. exists r'. auto.
  - intros b r' Eb Hb. rewrite !add_pair_lookup by done.
    assert (b = a /\ r' = r \/ b <> a /\ cw_refs w !! b = Some r') as [[-> ->]|[Hba Eb']].
    { cbn in Eb. fold a in Eb. rewrite lookup_insert in Eb. case_decide; [left; by split; congruence|by right]. }
    { split; [done|]. unfold is_pair. rewrite !Z.eqb_refl, Bool.eqb_reflx. cbn. by rewrite orb_true_r. }
    destruct (li_held _ _ L b r' Eb' Hb) as (Hn & H1 & H2). split; [done|].
    assert (P : forall u v, refs_of (cr_isPvP r') u w !! v = Some b -> is_pair r (cr_isPvP r') u v = false).
    { intros u v Hu. apply not_true_iff_false. intros P. apply is_pair_relates in P; [|done].
      destruct P as (Hp & _ & [[E1 E2]|[E1 E2]]); rewrite <- E1, <- E2 in Hu; [rewrite H0 in Hu|rewrite H0' in Hu]; done. }
    by rewrite !P.
  - intros u v b. rewrite !add_pair_lookup by done. unfold is_pair.
    set (q := (u =? cr_first r) && (v =? cr_second r) || (u =? cr_second r) && (v =? cr_first r)).
    assert (Hq : q = true -> forall p, refs_of p u w !! v = None).
    { unfold q. rewrite orb_true_iff, !andb_true_iff, !Z.eqb_eq. intros [[-> ->]|[-> ->]] p; [apply H0|apply H0']. }
    destruct q; rewrite ?andb_true_r, ?andb_false_r; [|apply (li_one _ _ L)].
    rewrite !Hq by done. by destruct (cr_isPvP r).
  - intros b Hb. destruct (li_dying _ _ L b Hb) as [x Hx]. exists x. auto.
  - intros b [x Hb]. cbn in Hb. fold a in Hb. rewrite lookup_insert in Hb. cbn. fold a. case_decide; [lia|].
    pose proof (li_fresh _ _ L b ltac:(by eexists)). unfold a. lia.
Qed.

Lemma add_pair_active r w u : cr_first r <> cr_second r -> u <> cr_first r -> u <> cr_second r ->
  (forall p v a, refs_of p u w !! v = Some a -> a <> cw_next w) ->
  active u (add_pair r w) <-> active u w.
Proof.
  intros Hd H1 H2 Hf.
  assert (E : forall p v, refs_of p u (add_pair r w) !! v = refs_of p u w !! v).
  { intros p v. rewrite add_pair_lookup by done. unfold is_pair.
    rewrite (proj2 (Z.eqb_neq _ _) H1), (proj2 (Z.eqb_neq _ _) H2). by rewrite andb_false_r. }
  unfold active. setoid_rewrite E. split; intros (p & v & b & r' & Hb & Er & Hs); exists p, v, b, r'; split; auto.
  - cbn in Er. rewrite lookup_insert_ne in Er; [done|]. intros <-. by apply (Hf _ _ _ Hb).
  - cbn. rewrite lookup_insert_ne; [done|]. intros <-. by apply (Hf _ _ _ Hb).
Qed.

(** ** Steps that tell no AI *)

Lemma flags_but_weaken s w : flags_but ∅ w -> flags_but s w.
Proof. intros F u Hu. apply F. set_solver. Qed.

(** One half of [Refresh]: [f] clears the suppression for [u]. *)
Lemma keeps_unsuppress d f a r u (b : bool) : same_units f ->
  (forall v, v <> u -> v = cr_first r \/ v = cr_second r -> IsSuppressedFor (f r) v = IsSuppressedFor r v) ->
  leads (fun w => Consistent d w /\ cw_refs w !! a = Some r)
    (if b then alter_ref f a;; UpdateOwnerCombatState u else mret false) (fun _ => Consistent d).
Proof.
  intros Hf Hs. destruct b; [|by apply leads_ret; intros w []].
  eapply leads_bind; [|intros ?; apply leads_update_last].
  eapply leads_weaken; [by apply (leads_alter d ∅ u f a r)|..].
  - intros w. by rewrite consistent_iff.
  - intros ? w [H _]. by rewrite union_empty_r_L in H.
Qed.

Lemma suppressFirst_other b r v : v <> cr_first r -> IsSuppressedFor (set_suppressFirst b r) v = IsSuppressedFor r v.
Proof. intros H. unfold IsSuppressedFor. cbn. by rewrite (proj2 (Z.eqb_neq _ _) H). Qed.

Lemma suppressSecond_other b r v : v = cr_first r -> IsSuppressedFor (set_suppressSecond b r) v = IsSuppressedFor r v.
Proof. intros ->. unfold IsSuppressedFor. cbn. by rewrite Z.eqb_refl. Qed.

Lemma keeps_RefreshTimer d a : keeps d (RefreshTimer a).
Proof. by apply keeps_alter. Qed.

Lemma suppress_other who r v : v <> who -> who = cr_first r \/ who = cr_second r ->
  v = cr_first r \/ v = cr_second r ->
  IsSuppressedFor (if who =? cr_first r then set_suppressFirst true r else set_suppressSecond true r) v = IsSuppressedFor r v.
Proof.
  intros Hv Hw Hr. destruct (Z.eqb_spec who (cr_first r)) as [E|E].
  - apply suppressFirst_other. congruence.
  - apply suppressSecond_other. intuition congruence.
Qed.

Lemma same_units_suppress who :
  same_units (fun r => if who =? cr_first r then set_suppressFirst true r else set_suppressSecond true r).
Proof. intros r. by destruct (who =? cr_first r). Qed.

(** [who] has the reference [a]. *)
Definition has_ref (p : bool) (who a : Z) (w : World) : Prop := exists v, refs_of p who w !! v = Some a.

Lemma leads_Suppress d s p who a l :
  leads (fun w => (Linked d w /\ flags_but ({[who]} ∪ s) w) /\ has_ref p who a w /\ Forall (fun b => has_ref p who b w) l)
    (Suppress a who)
    (fun _ w => (Linked d w /\ flags_but ({[who]} ∪ s) w) /\ Forall (fun b => has_ref p who b w) l).
Proof.
  intros w (C & [v Hv] & Hl). destruct (li_entry _ _ (proj1 C) _ _ _ _ Hv) as (_ & r & E & _ & _ & Hr).
  pose proof (leads_alter d ({[who]} ∪ s) who _ a r (same_units_suppress who)
    (fun u Hu Hu' => suppress_other who r u Hu ltac:(intuition congruence) Hu') w (conj C E)) as H.
  unfold Suppress. unfold alter_ref in *.
  rewrite (step_bind _ _ _ r w) in * by (unfold deref; by rewrite E).
  destruct H as [H _]. split; [|done]. by rewrite union_assoc_L, union_idemp_L in H.
Qed.

Lemma leads_suppress_each d p owner filter l :
  leads (fun w => (Linked d w /\ flags_but {[owner]} w) /\ Forall (fun a => has_ref p owner a w) l)
    (suppress_each owner filter l) (fun _ w => Linked d w /\ flags_but {[owner]} w).
Proof.
  induction l as [|a l IH]; cbn [suppress_each]; [apply leads_ret; by intros w []|].
  eapply leads_bind; [apply leads_deref|]. intros r. eapply leads_bind; [|intros ?; exact IH].
  destruct (passes filter (GetOther r owner)); cbn [when].
  - eapply leads_weaken; [apply (leads_Suppress d ∅ p owner a l)|..].
    + intros w [[C H] _]. rewrite union_empty_r_L. split; [done|]. by apply Forall_cons_1 in H.
    + intros ? w H. by rewrite union_empty_r_L in H.
  - apply leads_ret. intros w [[C H] _]. split; [done|]. by apply Forall_cons_1 in H as [_ H].
Qed.

(** The new reference, as it is put into the managers. *)
Definition fresh_ref (f : Facts) (owner who : Z) (suppressed : bool) : CombatReference :=
  {| cr_first := owner; cr_second := who;
     cr_isPvP := IsControlledByPlayer (unit_facts f owner) && IsControlledByPlayer (unit_facts f who);
     cr_suppressFirst := false; cr_suppressSecond := suppressed; cr_combatTimer := PVP_COMBAT_TIMEOUT |}.

(** The steps up to the two [PutReference]. *)
Lemma new_pair {B} d owner who supp (k : combat B) w :
  Linked d w -> owner <> who -> (forall p, refs_of p owner w !! who = None) ->
  (a ← new_ref (fresh_ref (cw_facts w) owner who false);
   when supp (Suppress a who);; PutReference owner who a;; PutReference who owner a;; k) w
  = k (add_pair (fresh_ref (cw_facts w) owner who supp) w).
Proof.
  intros L Hd H0. pose proof (fun p => linked_none d w p owner who L (H0 p)) as H1.
  set (r := fresh_ref (cw_facts w) owner who supp). set (a := cw_next w).
  set (w0 := set_next (a + 1) (set_store (<[a := r]> (cw_refs w)) w)).
  rewrite (step_bind _ _ _ _ _ eq_refl). fold a. rewrite (step_bind _ _ _ tt w0).
  2:{ unfold w0, r. destruct supp; cbn [when]; [|done]. unfold Suppress, alter_ref.
      rewrite (step_bind _ _ _ (fresh_ref (cw_facts w) owner who false) _)
        by (unfold deref; cbn; by rewrite lookup_insert_eq).
      cbn [cr_first fresh_ref]. rewrite (proj2 (Z.eqb_neq _ _)) by congruence.
      unfold modify, set_store. cbn. by rewrite insert_insert_eq. }
  assert (Er : forall w', cw_refs w' = cw_refs w0 -> deref a w' = Done (r, w')).
  { intros w' E. unfold deref. rewrite E. unfold w0. cbn. by rewrite lookup_insert_eq. }
  set (w1 := set_refs (cr_isPvP r) owner (<[who := a]> (refs_of (cr_isPvP r) owner w)) w0).
  rewrite (step_bind _ _ _ tt w1).
  2:{ unfold PutReference. rewrite (step_bind _ _ _ _ _ (Er w0 eq_refl)), (step_bind _ _ _ _ _ eq_refl).
      rewrite bool_decide_eq_false_2; [done|]. change (refs_of (cr_isPvP r) owner w0) with (refs_of (cr_isPvP r) owner w).
      rewrite H0. by intros []. }
  rewrite (step_bind _ _ _ tt (add_pair r w)); [done|].
  unfold PutReference. rewrite (step_bind _ _ _ _ _ (Er w1 eq_refl)), (step_bind _ _ _ _ _ eq_refl).
  rewrite bool_decide_eq_false_2; [done|]. unfold w1. rewrite refs_of_set, decide_False by (intros [_ ?]; congruence).
  change (refs_of (cr_isPvP r) who w0) with (refs_of (cr_isPvP r) who w). rewrite H1. by intros [].
Qed.

Lemma CanBeginCombat_distinct f a b : CanBeginCombat f a b = true -> a <> b.
Proof. unfold CanBeginCombat. by destruct (Z.eqb_spec a b). Qed.

Lemma add_pair_flags d owner who supp w : Consistent d w -> owner <> who ->
  flags_but ({[owner]} ∪ {[who]}) (add_pair (fresh_ref (cw_facts w) owner who supp) w).
Proof.
  intros [L F] Hd u Hu. set (r := fresh_ref _ _ _ _). change (u ∈ cw_inCombat w <-> active u (add_pair r w)).
  rewrite add_pair_active; [by apply F|done|cbn; set_solver|cbn; set_solver|].
  intros p v a Ha ->. destruct (li_entry _ _ L _ _ _ _ Ha) as (_ & r' & E & _).
  pose proof (li_fresh _ _ L (cw_next w) ltac:(by eexists)). lia.
Qed.

(** A test that may change references, but no map. *)
Definition tests (d : gset Z) (gone : Z -> combat bool) : Prop :=
  forall a w, Consistent d w ->
    match gone a w with
    | Done (_, w') => Consistent d w' /\ cw_managers w' = cw_managers w
    | Failed f => f <> AssertionFailed
    end.

Lemma keeps_range_loop d body p u : (forall k a, keeps d (body k a)) ->
  forall ks it, keeps d (range_loop body p u ks it).
Proof.
  intros Hb ks. induction ks as [|k ks IH]; intros it; cbn [range_loop]; [apply keeps_ret|].
  destruct (negb _); [apply IH|]. apply leads_world. intros w C. apply (leads_from _ _ _ w C).
  destruct (refs_of p u w !! k) as [a|]; [|by intros w' _].
  apply keeps_bind; [apply Hb|intros ?]. apply keeps_bind; [apply keeps_world|intros after].
  destruct (_ && _); [apply IH|]. by intros w'.
Qed.

Lemma tests_out_of_range d range : tests d (out_of_range range).
Proof. intros a w C. unfold out_of_range, mbind, combat_bind, deref. by destruct (cw_refs w !! a). Qed.

Lemma tests_invalid_for d owner : tests d (invalid_for owner).
Proof. intros a w C. unfold invalid_for, mbind, combat_bind, deref. by destruct (cw_refs w !! a). Qed.

Lemma tests_timed_out d owner tdiff : tests d (timed_out owner tdiff).
Proof.
  intros a w C. destruct (cw_refs w !! a) as [r|] eqn:E; unfold timed_out.
  2:{ unfold mbind, combat_bind, deref. by rewrite E. }
  assert (D : deref a w = Done (r, w)) by (unfold deref; by rewrite E).
  rewrite (step_bind _ _ _ _ _ D). destruct (cr_first r =? owner); [|done]. unfold ref_Update.
  unfold mbind at 1, combat_bind. rewrite (step_bind _ _ _ _ _ D). destruct (cr_combatTimer r <=? tdiff); [done|].
  pose proof (keeps_alter d (set_combatTimer (cr_combatTimer r - tdiff)) a ltac:(done) ltac:(done) w C) as K.
  unfold alter_ref in *. rewrite (step_bind _ _ _ _ _ D) in K.
  by rewrite (step_bind _ _ _ tt (with_ref (set_combatTimer (cr_combatTimer r - tdiff)) a r w))
    by (by rewrite (step_bind _ _ _ _ _ D)).
Qed.

Lemma leads_refs_to_remove d owner filter l : (forall a, a ∈ l -> a ∉ d) ->
  leads (Consistent d) (refs_to_remove owner filter l) (fun l' w => Consistent d w /\ forall a, a ∈ l' -> a ∉ d).
Proof.
  induction l as [|a l IH]; intros H; cbn [refs_to_remove].
  - apply leads_ret. intros w C. split; [done|]. by intros a Ha%elem_of_nil.
  - apply leads_bind with (Q := fun _ => Consistent d); [apply keeps_deref|intros r].
    eapply leads_bind; [apply IH; intros b Hb; apply H; by right|]. intros rest. apply leads_ret.
    intros w [C Hr]. split; [done|]. destruct (passes _ _); [|done].
    intros b [->|Hb]%elem_of_cons; [apply H; left|by apply Hr].
Qed.

Section Keeps.
Context (notify : Notice -> combat unit) (Hn : forall d n, keeps d (notify n)).

Lemma keeps_ExitedAI d u : keeps d (ExitedAI notify u).
Proof. apply keeps_bind; [by intros w Hw|]. intros ai. apply keeps_when, Hn. Qed.

Lemma keeps_NotifyAI d me other : keeps d (NotifyAICombat notify me other).
Proof. apply keeps_bind; [by intros w Hw|]. intros ai. apply keeps_when, Hn. Qed.

Lemma leads_EndCombat d a r :
  leads (fun w => LinkedBut d a r w /\ flags_but ({[cr_first r]} ∪ {[cr_second r]}) w)
    (EndCombat notify a) (fun _ => Consistent d).
Proof.
  intros w [LB F]. destruct (EndCombat_start notify d a r w LB F) as (w' & b1 & b2 & -> & C & _).
  revert w' C. apply leads_bind with (Q := fun _ => Consistent ({[a]} ∪ d)).
  { apply leads_when, keeps_ExitedAI. }
  intros ?. apply leads_bind with (Q := fun _ => Consistent ({[a]} ∪ d)).
  { apply leads_when. apply keeps_bind; [apply keeps_deref|]. intros ?. apply keeps_ExitedAI. }
  intros ? w' C. destruct (deleted_consistent d a w' (lb_alive _ _ _ _ LB) C) as (w2 & -> & _ & C2). done.
Qed.

Lemma keeps_EndCombat d a : a ∉ d -> keeps d (EndCombat notify a).
Proof.
  intros Ha w [L F]. destruct (cw_refs w !! a) as [r|] eqn:E.
  - apply (leads_EndCombat d a r). split; [by apply live_linked_but|by apply flags_but_weaken].
  - unfold EndCombat, mbind, combat_bind, deref at 1. by rewrite E.
Qed.

(** With the entry of one manager erased before. *)
Lemma keeps_erase_EndCombat d p u k a w : Consistent d w -> refs_of p u w !! k = Some a ->
  leads (fun w' => w' = set_refs p u (delete k (refs_of p u w)) w) (EndCombat notify a) (fun _ => Consistent d).
Proof.
  intros [L F] Hk. destruct (li_entry _ _ L _ _ _ _ Hk) as (Ha & r & E & Hr).
  intros w' ->. apply (leads_EndCombat d a r). split; [by apply erased_linked_but|].
  intros v Hv. change (v ∈ cw_inCombat w <-> active v (set_refs p u (delete k (refs_of p u w)) w)).
  rewrite (F v) by set_solver. unfold active. change (cw_refs (set_refs _ _ _ w)) with (cw_refs w).
  assert (u <> v) by (destruct Hr as (_ & _ & [[? ?]|[? ?]]); set_solver).
  assert (E' : forall p', refs_of p' v (set_refs p u (delete k (refs_of p u w)) w) = refs_of p' v w)
    by (intros p'; rewrite refs_of_set, decide_False; [done|naive_solver]).
  by setoid_rewrite E'.
Qed.

(** *** Refreshing *)

Lemma keeps_Refresh d a : keeps d (Refresh notify a).
Proof.
  unfold Refresh. eapply leads_bind; [apply leads_deref|]. intros r.
  eapply leads_bind; [apply keeps_unsuppress; [done|]; intros v Hv _; by apply suppressFirst_other|]. intros b1.
  eapply leads_bind; [apply leads_deref|]. intros r2.
  eapply leads_bind; [apply keeps_unsuppress; [done|]|intros b2].
  { intros v Hv [H|H]; [by apply suppressSecond_other|congruence]. }
  apply keeps_bind; intros; apply keeps_when; (apply keeps_bind; [apply keeps_deref|intros ?; apply keeps_NotifyAI]).
Qed.

(** *** Suppressing *)

Lemma keeps_SuppressFor d p a who :
  leads (fun w => Consistent d w /\ has_ref p who a w) (SuppressFor notify a who) (fun _ => Consistent d).
Proof.
  unfold SuppressFor. eapply leads_bind.
  { eapply leads_weaken; [apply (leads_Suppress d ∅ p who a [])|..].
    - intros w [[L F] H]. split; [split; [done|]|by split]. by apply flags_but_weaken.
    - intros ? w [H _]. rewrite union_empty_r_L in H. exact H. }
  intros ?. eapply leads_bind; [apply leads_update_last|]. intros exited. apply keeps_when, keeps_ExitedAI.
Qed.

Lemma keeps_SuppressPvPCombat d owner filter : keeps d (SuppressPvPCombat notify owner filter).
Proof.
  apply leads_world. intros w [L F]. eapply leads_bind.
  { apply (leads_from _ _ _ w) with (2 := leads_suppress_each d true owner filter _).
    split; [split; [done|by apply flags_but_weaken]|]. apply Forall_forall. intros a Ha. by apply list_elem_of_In, elem_of_addresses in Ha. }
  intros ?. eapply leads_bind; [apply leads_update_last|]. intros exited. apply keeps_when, keeps_ExitedAI.
Qed.

(** *** Setting in combat *)

Lemma keeps_notify_both d owner who b1 b2 :
  keeps d (when b1 (NotifyAICombat notify owner who);; when b2 (NotifyAICombat notify who owner);;
           w ← world; mret (IsInCombatWith owner who w)).
Proof.
  apply keeps_bind; [apply keeps_when, keeps_NotifyAI|intros ?].
  apply keeps_bind; [apply keeps_when, keeps_NotifyAI|intros ?].
  apply keeps_bind; [apply keeps_world|intros ?; apply keeps_ret].
Qed.

Lemma keeps_SetInCombatWith d owner who supp : keeps d (SetInCombatWith notify owner who supp).
Proof.
  apply leads_world. intros w C.
  destruct (refs_of true owner w !! who) as [a|] eqn:Et.
  { apply (leads_from _ _ _ w C). apply keeps_bind; [apply keeps_RefreshTimer|intros ?].
    apply keeps_bind; [apply keeps_Refresh|intros ?; apply keeps_ret]. }
  destruct (refs_of false owner w !! who) as [a|] eqn:Ef.
  { apply (leads_from _ _ _ w C). apply keeps_bind; [apply keeps_Refresh|intros ?; apply keeps_ret]. }
  cbv zeta. destruct (CanBeginCombat (cw_facts w) owner who) eqn:B; cbn [negb].
  2:{ apply leads_ret. by intros w' ->. }
  apply CanBeginCombat_distinct in B. intros w' ->.
  assert (H0 : forall p, refs_of p owner w !! who = None) by (intros []; done).
  pose proof (fun k : combat bool => new_pair d owner who supp k w (co_links _ _ C) B H0) as E.
  unfold fresh_ref at 1 in E. rewrite E. clear E.
  assert (Q : leads (fun w' => w' = add_pair (fresh_ref (cw_facts w) owner who supp) w)
    (needSelfAI ← UpdateOwnerCombatState owner; needOtherAI ← UpdateOwnerCombatState who;
     when needSelfAI (NotifyAICombat notify owner who);; when needOtherAI (NotifyAICombat notify who owner);;
     w ← world; mret (IsInCombatWith owner who w)) (fun _ => Consistent d)).
  { eapply leads_bind; [|intros b1; eapply leads_bind; [apply leads_update_last|intros b2; apply keeps_notify_both]].
    eapply leads_weaken; [apply (leads_update d {[who]} owner)|..]; [|done].
    intros w' ->. split; [apply add_pair_linked; [apply C|done|done]|by apply add_pair_flags with d]. }
  by apply Q.
Qed.

(** *** Loops *)

Lemma keeps_erase_loop d gone p u : tests d gone -> forall ks it, keeps d (erase_loop notify gone p u ks it).
Proof.
  intros Hg ks. induction ks as [|k ks IH]; intros it; cbn [erase_loop]; [apply keeps_ret|].
  destruct (negb _); [apply IH|]. apply leads_world. intros w C.
  destruct (refs_of p u w !! k) as [a|] eqn:Hk; [|by intros w' ->].
  eapply leads_bind with (Q := fun _ w' => Consistent d w' /\ cw_managers w' = cw_managers w).
  { intros w' ->. specialize (Hg a w C). by destruct (gone a w) as [[]|]. }
  intros out. destruct out.
  2:{ eapply leads_weaken with (P' := Consistent d) (Q' := fun _ => Consistent d); [|by intros w' []|done].
      apply keeps_bind; [apply keeps_world|intros ?; apply IH]. }
  apply leads_at. intros w1 [C1 M1].
  assert (Hk1 : refs_of p u w1 !! k = Some a) by (unfold refs_of, manager in *; by rewrite M1).
  eapply leads_bind with (Q := fun _ w' => w' = set_refs p u (delete k (refs_of p u w1)) w1).
  { apply leads_modify. by intros w' ->. }
  intros ?. apply leads_world. intros before ->.
  eapply leads_bind; [by apply keeps_erase_EndCombat with (w := w1)|intros ?].
  apply leads_world. intros after C2. apply (leads_from _ _ _ after C2).
  case_bool_decide; [apply IH|]. by intros w'.
Qed.

Lemma keeps_erase_all d gone p u : tests d gone -> keeps d (erase_all notify gone p u).
Proof.
  intros Hg. apply leads_world. intros w C. apply (leads_from _ _ _ w C). by apply keeps_erase_loop.
Qed.

Lemma keeps_inherit d owner who k a : keeps d (inherit notify owner who k a).
Proof.
  unfold inherit. apply keeps_bind; [apply keeps_world|intros w]. destruct (IsInCombatWith _ _ _); [apply keeps_ret|].
  apply keeps_bind; [apply keeps_deref|intros r]. cbv zeta. destruct (_ || _); [apply keeps_ret|].
  apply keeps_bind; [apply keeps_SetInCombatWith|intros ?; apply keeps_ret].
Qed.

(** *** Ending many *)

Lemma keeps_end_each d l : (forall a, a ∈ l -> a ∉ d) -> keeps d (end_each notify l).
Proof.
  induction l as [|a l IH]; intros H; cbn [end_each]; [apply keeps_ret|].
  apply keeps_bind; [apply keeps_EndCombat, H; left|intros ?]. apply IH. intros b Hb. apply H. by right.
Qed.

Lemma keeps_end_all d p owner filter : keeps d (end_all notify p owner filter).
Proof.
  apply leads_world. intros w C. apply (leads_from _ _ _ w C).
  eapply leads_bind; [apply leads_refs_to_remove|].
  { intros a Ha. apply elem_of_addresses in Ha as [v Hv]. by apply (li_entry _ _ (co_links _ _ C)) in Hv as [? _]. }
  intros l w' [C' Hl]. by apply keeps_end_each.
Qed.

(** ** Calls *)

Lemma keeps_on_ref d p owner who m :
  (forall a, leads (fun w => Consistent d w /\ has_ref p owner a w) (m a) (fun _ => Consistent d)) ->
  keeps d (on_ref p owner who m).
Proof.
  intros H. apply leads_world. intros w C. destruct (refs_of p owner w !! who) as [a|] eqn:E.
  - apply (leads_from _ (fun w => Consistent d w /\ has_ref p owner a w)); [|apply H]. split; [done|by exists who].
  - apply leads_ret. by intros w' ->.
Qed.

Lemma keeps_perform d c : keeps d (perform notify c).
Proof.
  destruct c; cbn [perform].
  - apply keeps_bind; [apply keeps_SetInCombatWith|intros ?; apply keeps_ret].
  - apply keeps_on_ref. intros a w [C [v Hv]]. apply keeps_EndCombat; [|done].
    by apply (li_entry _ _ (co_links _ _ C)) in Hv as [? _].
  - apply keeps_on_ref. intros a. apply keeps_SuppressFor.
  - apply keeps_bind; [|intros ?]; (apply keeps_bind; [apply keeps_world|intros ?]);
      apply keeps_range_loop; intros; apply keeps_inherit.
  - apply keeps_bind; [|intros ?; apply keeps_when]; apply keeps_erase_all, tests_out_of_range.
  - apply keeps_SuppressPvPCombat.
  - apply keeps_bind; [apply keeps_log|intros ?]. apply keeps_bind; [apply keeps_log|intros ?]. apply keeps_end_all.
  - apply keeps_end_all.
  - apply keeps_bind; [|intros ?]; apply keeps_erase_all, tests_invalid_for.
  - apply keeps_erase_all, tests_timed_out.
  - apply keeps_facts.
Qed.
End Keeps.

Lemma keeps_each d m cs : (forall c, keeps d (m c)) -> keeps d (perform_each m cs).
Proof.
  intros H. induction cs as [|c cs IH]; cbn [perform_each]; [apply keeps_ret|].
  apply keeps_bind; [apply H|by intros ?].
Qed.

Lemma keeps_run fuel ai : forall d c, keeps d (run fuel ai c).
Proof.
  induction fuel as [|fuel IH]; intros d c; cbn [run]; [by intros w _|].
  apply keeps_perform. intros d' n. apply keeps_bind; [apply keeps_log|intros ?].
  apply keeps_bind; [apply keeps_world|intros w]. by apply keeps_each.
Qed.

Lemma empty_consistent f : Consistent ∅ (World_new f).
Proof.
  assert (E : forall p u v, refs_of p u (World_new f) !! v = None) by (intros [] u v; apply lookup_empty).
  split; [split|].
  - intros p u v a. by rewrite E.
  - intros a r H. cbn in H. by rewrite lookup_empty in H.
  - intros u v a. by rewrite E.
  - intros a H. by apply elem_of_empty in H.
  - intros a [r H]. cbn in H. by rewrite lookup_empty in H.
  - intros u _. split; [set_solver|]. intros (p & v & a & r & H & _). by rewrite E in H.
Qed.
