(* ===== verification/CombatQuiet.v ===== *)
(** The combat managers when the AIs only listen: every call returns, and what
    it does is said exactly. *)
From Stdlib Require Import ZArith Lia Bool.
From stdpp Require Import base gmap list tactics.
From S2P Require Import Prelude CombatManager CombatLinks CombatKeeps.

Open Scope Z_scope.

(** ** AIs that only listen *)

Definition quiet : Call -> combat unit := perform log.

Lemma log_keeps d n : keeps d (log n).
Proof. apply keeps_log. Qed.

Lemma silent_ExitedAI u w : silent (ExitedAI log u) w.
Proof. unfold silent, ExitedAI. rewrite (step_bind _ _ _ _ _ eq_refl). apply silent_when, silent_log. Qed.

Lemma silent_NotifyAI me other w : silent (NotifyAICombat log me other) w.
Proof. unfold silent, NotifyAICombat. rewrite (step_bind _ _ _ _ _ eq_refl). apply silent_when, silent_log. Qed.

Lemma silent_then {A} (m : combat unit) (k : combat A) w : silent m w ->
  exists w', (m;; k) w = k w' /\ same_links w w' /\ cw_inCombat w' = cw_inCombat w.
Proof. intros (w' & E & S & I). exists w'. by rewrite (step_bind _ _ _ _ _ E). Qed.

(** The step returns, and leads from [P] to [Q]. *)
Definition returns {A} (P : World -> Prop) (m : combat A) (Q : A -> World -> Prop) : Prop :=
  forall w, P w -> exists x w', m w = Done (x, w') /\ Q x w'.

Lemma returns_ret {A} (x : A) (P : World -> Prop) (Q : A -> World -> Prop) : (forall w, P w -> Q x w) -> returns P (mret x) Q.
Proof. intros H w Hw. exists x, w. auto. Qed.

Lemma returns_bind {A B} (m : combat A) (f : A -> combat B) P Q R :
  returns P m Q -> (forall x, returns (Q x) (f x) R) -> returns P (m ≫= f) R.
Proof.
  intros Hm Hf w Hw. destruct (Hm w Hw) as (x & w' & E & H). rewrite (step_bind _ _ _ _ _ E). exact (Hf x w' H).
Qed.

Lemma returns_world {B} (f : World -> combat B) P R :
  (forall w, P w -> returns (fun w' => w' = w) (f w) R) -> returns P (w ← world; f w) R.
Proof. intros H w Hw. exact (H w Hw w eq_refl). Qed.

Lemma returns_from {A} (m : combat A) (P : World -> Prop) Q w : P w -> returns P m Q -> returns (fun w' => w' = w) m Q.
Proof. intros Hw H w' ->. by apply H. Qed.

Lemma returns_weaken {A} (m : combat A) (P P' : World -> Prop) (Q Q' : A -> World -> Prop) :
  returns P' m Q' -> (forall w, P w -> P' w) -> (forall x w, Q' x w -> Q x w) -> returns P m Q.
Proof. intros H HP HQ w Hw. destruct (H w (HP w Hw)) as (x & w' & E & HQ'). exists x, w'. auto. Qed.

(** What is kept, is kept by what returns. *)
Lemma kept {A} d (m : combat A) w x w' : keeps d m -> Consistent d w -> m w = Done (x, w') -> Consistent d w'.
Proof. intros K C E. specialize (K w C). by rewrite E in K. Qed.

(** ** One pair *)

Lemma EndCombat_quiet d a r w :
  LinkedBut d a r w -> flags_but ({[cr_first r]} ∪ {[cr_second r]}) w ->
  exists w', EndCombat log a w = Done (tt, w') /\ Consistent d w'
    /\ cw_refs w' = delete a (cw_refs w) /\ cw_facts w' = cw_facts w
    /\ forall p u, refs_of p u w' = refs_of p u (purge r w).
Proof.
  intros LB F. destruct (EndCombat_start log d a r w LB F) as (w1 & b1 & b2 & E & C & S).
  rewrite E. clear E.
  destruct (silent_then (when b1 (ExitedAI log (cr_first r)))
    (when b2 (r ← deref a; ExitedAI log (cr_second r));; delete_ref a) w1) as (w2 & -> & S2 & I2).
  { apply silent_when, silent_ExitedAI. }
  assert (C2 : Consistent ({[a]} ∪ d) w2) by (by eapply same_consistent).
  assert (E2 : cw_refs w2 !! a = Some r).
  { destruct S2 as (_ & -> & _). destruct S as (_ & -> & _). apply (lb_ref _ _ _ _ LB). }
  destruct (silent_then (when b2 (r ← deref a; ExitedAI log (cr_second r))) (delete_ref a) w2) as (w3 & -> & S3 & I3).
  { apply silent_when. unfold silent. rewrite (step_bind _ _ _ r w2) by (unfold deref; by rewrite E2). apply silent_ExitedAI. }
  assert (C3 : Consistent ({[a]} ∪ d) w3) by (by eapply same_consistent).
  destruct (deleted_consistent d a w3 (lb_alive _ _ _ _ LB) C3) as (w4 & -> & -> & C4).
  assert (S' : same_links (purge r w) w3) by (eapply same_links_trans; [eapply same_links_trans|]; eassumption).
  exists (set_store (delete a (cw_refs w3)) w3). split; [done|]. split; [done|]. pose proof S' as (Hf & Hr & _). split.
  - cbn. by rewrite Hr.
  - split; [exact Hf|]. intros p u. exact (same_refs_of _ _ p u S').
Qed.

(** A live reference that no map is about to lose. *)
Lemma EndCombat_live d a r w : Consistent d w -> cw_refs w !! a = Some r -> a ∉ d ->
  exists w', EndCombat log a w = Done (tt, w') /\ Consistent d w'
    /\ cw_refs w' = delete a (cw_refs w) /\ cw_facts w' = cw_facts w
    /\ forall p u, refs_of p u w' = refs_of p u (purge r w).
Proof.
  intros [L F] E Ha. apply EndCombat_quiet; [by apply live_linked_but|by apply flags_but_weaken].
Qed.

(** A change of flags of one reference, with an update. *)
Lemma unsuppress_quiet d f a r u (b : bool) w : same_units f ->
  (forall v, v <> u -> v = cr_first r \/ v = cr_second r -> IsSuppressedFor (f r) v = IsSuppressedFor r v) ->
  Consistent d w -> cw_refs w !! a = Some r ->
  exists x w', (if b then alter_ref f a;; UpdateOwnerCombatState u else mret false) w = Done (x, w')
    /\ Consistent d w' /\ cw_refs w' = (if b then <[a := f r]> (cw_refs w) else cw_refs w)
    /\ cw_managers w' = cw_managers w /\ cw_facts w' = cw_facts w.
Proof.
  intros Hf Hs C E. pose proof (keeps_unsuppress d f a r u b Hf Hs w (conj C E)) as K.
  destruct b; [|by exists false, w].
  assert (E1 : alter_ref f a w = Done (tt, with_ref f a r w)).
  { unfold alter_ref. by rewrite (step_bind _ _ _ r w) by (unfold deref; by rewrite E). }
  rewrite (step_bind _ _ _ _ _ E1) in *.
  destruct (UpdateOwnerCombatState_done u (with_ref f a r w)) as (x & w' & E' & (Hfa & Hr & _ & Hm) & _).
  { eapply linked_live, with_ref_linked; [done|done|apply C]. }
  rewrite E' in *. exists x, w'. rewrite Hr, Hm, Hfa. done.
Qed.

(** A refreshed reference. *)
Definition refreshed (r : CombatReference) : CombatReference :=
  set_suppressSecond false (set_suppressFirst false r).

Lemma Refresh_quiet d a r w : Consistent d w -> cw_refs w !! a = Some r ->
  exists w', Refresh log a w = Done (tt, w') /\ Consistent d w' /\ cw_refs w' = <[a := refreshed r]> (cw_refs w)
    /\ cw_managers w' = cw_managers w /\ cw_facts w' = cw_facts w.
Proof.
  intros C E. unfold Refresh. rewrite (step_bind _ _ _ r w) by (unfold deref; by rewrite E).
  destruct (unsuppress_quiet d (set_suppressFirst false) a r (cr_first r) (cr_suppressFirst r) w) as (b1 & w1 & E1 & C1 & R1 & M1 & F1);
    [done|intros v Hv _; by apply suppressFirst_other|done|done|].
  rewrite (step_bind _ _ _ _ _ E1). set (r1 := set_suppressFirst false r).
  assert (H1 : cw_refs w1 !! a = Some r1 /\ cw_refs w1 = <[a := r1]> (cw_refs w)).
  { rewrite R1. unfold r1. destruct (cr_suppressFirst r) eqn:Es; [by rewrite lookup_insert_eq|].
    assert (set_suppressFirst false r = r) as -> by (destruct r; cbn in *; by subst). by rewrite insert_id. }
  destruct H1 as [H1 R1']. rewrite (step_bind _ _ _ r1 w1) by (unfold deref; by rewrite H1).
  destruct (unsuppress_quiet d (set_suppressSecond false) a r1 (cr_second r1) (cr_suppressSecond r1) w1) as (b2 & w2 & E2 & C2 & R2 & M2 & F2);
    [done|intros v Hv [H|H]; [by apply suppressSecond_other|congruence]|done|done|].
  rewrite (step_bind _ _ _ _ _ E2).
  assert (H2 : cw_refs w2 !! a = Some (refreshed r) /\ cw_refs w2 = <[a := refreshed r]> (cw_refs w)).
  { rewrite R2. change (cr_suppressSecond r1) with (cr_suppressSecond r). destruct (cr_suppressSecond r) eqn:Es.
    - rewrite R1', insert_insert_eq. split; [apply lookup_insert_eq|done].
    - assert (refreshed r = r1) as -> by (unfold refreshed, r1; destruct r; cbn in *; by subst). done. }
  destruct H2 as [H2 R2'].
  destruct (silent_then (when b1 (r ← deref a; NotifyAICombat log (cr_first r) (cr_second r)))
    (when b2 (r ← deref a; NotifyAICombat log (cr_second r) (cr_first r))) w2) as (w3 & -> & S3 & I3).
  { apply silent_when. unfold silent. rewrite (step_bind _ _ _ (refreshed r) w2) by (unfold deref; by rewrite H2). apply silent_NotifyAI. }
  assert (Q : silent (when b2 (r ← deref a; NotifyAICombat log (cr_second r) (cr_first r))) w3).
  { apply silent_when. unfold silent. rewrite (step_bind _ _ _ (refreshed r) w3); [apply silent_NotifyAI|].
    unfold deref. destruct S3 as (_ & -> & _). by rewrite H2. }
  destruct Q as (w4 & -> & S4 & I4). exists w4. split; [done|].
  pose proof (same_links_trans _ _ _ S3 S4) as (Hf & Hr & _ & Hm). rewrite Hr, Hm, Hf, R2', M2, M1, F2, F1.
  split; [|done]. eapply same_consistent; [exact S4|done|]. by eapply same_consistent.
Qed.

(** ** Setting in combat *)

(** A pair of units, in any order. *)
Definition pair_of (owner who u v : Z) : Prop := (u = owner /\ v = who) \/ (u = who /\ v = owner).

(** What [SetInCombatWith] leaves: [r] relates the two, [suppressed] says
    whether it counts for [who]. *)
Definition engaged (owner who : Z) (suppressed : bool) (w : World) : Prop :=
  exists p a r, refs_of p owner w !! who = Some a /\ cw_refs w !! a = Some r
    /\ IsSuppressedFor r owner = false /\ IsSuppressedFor r who = suppressed
    /\ (p = true -> cr_combatTimer r = PVP_COMBAT_TIMEOUT).

Lemma in_combat_with_refs u v w :
  IsInCombatWith u v w = true <-> exists p a, refs_of p u w !! v = Some a.
Proof.
  unfold IsInCombatWith. rewrite orb_true_iff, !bool_decide_eq_true. split.
  - intros [[a H]|[a H]]; by eexists _, a.
  - intros ([|] & a & H); [right|left]; by eexists.
Qed.

Lemma same_managers_refs w w' p u : cw_managers w' = cw_managers w -> refs_of p u w' = refs_of p u w.
Proof. intros E. unfold refs_of, manager. by rewrite E. Qed.

Lemma refreshed_active r u : IsSuppressedFor (refreshed r) u = false.
Proof. unfold IsSuppressedFor, refreshed. cbn. by destruct (u =? cr_first r). Qed.

Lemma refresh_known d p owner who a w : Consistent d w -> refs_of p owner w !! who = Some a ->
  exists w', Refresh log a w = Done (tt, w') /\ Consistent d w' /\ cw_managers w' = cw_managers w
    /\ cw_facts w' = cw_facts w
    /\ ((p = true -> exists r, cw_refs w !! a = Some r /\ cr_combatTimer r = PVP_COMBAT_TIMEOUT) -> engaged owner who false w').
Proof.
  intros C H. destruct (li_entry _ _ (co_links _ _ C) _ _ _ _ H) as (_ & r & E & _).
  destruct (Refresh_quiet d a r w C E) as (w' & E' & C' & R & M & F). exists w'. do 4 (split; [done|]).
  intros Ht. exists p, a, (refreshed r). rewrite (same_managers_refs _ _ _ _ M), R, lookup_insert_eq, !refreshed_active.
  do 4 (split; [done|]). intros Hp. destruct (Ht Hp) as (r' & E2 & T). by assert (r' = r) as -> by congruence.
Qed.

Lemma RefreshTimer_quiet d a r w : Consistent d w -> cw_refs w !! a = Some r ->
  RefreshTimer a w = Done (tt, with_ref (set_combatTimer PVP_COMBAT_TIMEOUT) a r w)
  /\ Consistent d (with_ref (set_combatTimer PVP_COMBAT_TIMEOUT) a r w).
Proof.
  intros C E. assert (Q : RefreshTimer a w = Done (tt, with_ref (set_combatTimer PVP_COMBAT_TIMEOUT) a r w)).
  { unfold RefreshTimer, alter_ref. by rewrite (step_bind _ _ _ r w) by (unfold deref; by rewrite E). }
  split; [done|]. exact (kept _ _ _ _ _ (keeps_RefreshTimer d a) C Q).
Qed.

(** The end of [SetInCombatWith] for two units that were not in combat. *)
Lemma begin_quiet d owner who supp w : Consistent d w -> owner <> who ->
  (forall p, refs_of p owner w !! who = None) ->
  let r := fresh_ref (cw_facts w) owner who supp in
  exists w',
    (needSelfAI ← UpdateOwnerCombatState owner; needOtherAI ← UpdateOwnerCombatState who;
     when needSelfAI (NotifyAICombat log owner who);; when needOtherAI (NotifyAICombat log who owner);;
     w ← world; mret (IsInCombatWith owner who w)) (add_pair r w) = Done (true, w')
    /\ same_links (add_pair r w) w'.
Proof.
  intros C Hd H0 r. assert (L : Linked d (add_pair r w)) by (apply add_pair_linked; [apply C|done|done]).
  destruct (UpdateOwnerCombatState_done owner _ (linked_live _ _ _ L)) as (b1 & w1 & E1 & U1).
  assert (L1 : Linked d w1) by (eapply same_linked; [apply U1|done]).
  destruct (UpdateOwnerCombatState_done who w1 (linked_live _ _ _ L1)) as (b2 & w2 & E2 & U2).
  rewrite (step_bind _ _ _ _ _ E1), (step_bind _ _ _ _ _ E2).
  destruct (silent_then (when b1 (NotifyAICombat log owner who))
    (when b2 (NotifyAICombat log who owner);; w ← world; mret (IsInCombatWith owner who w)) w2) as (w3 & -> & S3 & _);
    [apply silent_when, silent_NotifyAI|].
  destruct (silent_then (when b2 (NotifyAICombat log who owner)) (w ← world; mret (IsInCombatWith owner who w)) w3)
    as (w4 & -> & S4 & _); [apply silent_when, silent_NotifyAI|].
  assert (S : same_links (add_pair r w) w4).
  { eapply same_links_trans; [apply U1|]. eapply same_links_trans; [apply U2|]. by eapply same_links_trans. }
  exists w4. split; [|done]. rewrite (step_bind _ _ _ _ _ eq_refl).
  assert (Q : IsInCombatWith owner who w4 = true); [|by unfold mret, combat_ret; rewrite Q].
  apply in_combat_with_refs. exists (cr_isPvP r), (cw_next w). rewrite (same_refs_of _ _ _ _ S), add_pair_lookup by done.
  unfold is_pair. by rewrite Bool.eqb_reflx, !Z.eqb_refl.
Qed.

Lemma SetInCombatWith_quiet d owner who supp w : Consistent d w ->
  exists b w', SetInCombatWith log owner who supp w = Done (b, w') /\ Consistent d w' /\ cw_facts w' = cw_facts w
    /\ b = IsInCombatWith owner who w || CanBeginCombat (cw_facts w) owner who
    /\ (if b : bool then engaged owner who (supp && negb (IsInCombatWith owner who w)) w' else w' = w)
    /\ (forall p u v, ~ pair_of owner who u v -> refs_of p u w' !! v = refs_of p u w !! v).
Proof.
  intros C. unfold SetInCombatWith. rewrite (step_bind _ _ _ _ _ eq_refl).
  destruct (refs_of true owner w !! who) as [a|] eqn:Et.
  { assert (I : IsInCombatWith owner who w = true) by (apply in_combat_with_refs; by exists true, a). rewrite I.
    destruct (li_entry _ _ (co_links _ _ C) _ _ _ _ Et) as (_ & r & E & _).
    destruct (RefreshTimer_quiet d a r w C E) as [E1 C1]. rewrite (step_bind _ _ _ _ _ E1).
    destruct (refresh_known d true owner who a (with_ref (set_combatTimer PVP_COMBAT_TIMEOUT) a r w) C1 Et)
      as (w' & E2 & C2 & M2 & F2 & H2).
    rewrite (step_bind _ _ _ _ _ E2). exists true, w'. do 4 (split; [done|]). rewrite andb_false_r. split.
    - apply H2. intros _. eexists. split; [apply lookup_insert_eq|done].
    - intros p u v _. by rewrite (same_managers_refs _ _ _ _ M2). }
  destruct (refs_of false owner w !! who) as [a|] eqn:Ef.
  { assert (I : IsInCombatWith owner who w = true) by (apply in_combat_with_refs; by exists false, a). rewrite I.
    destruct (refresh_known d false owner who a w C Ef) as (w' & E2 & C2 & M2 & F2 & H2).
    rewrite (step_bind _ _ _ _ _ E2). exists true, w'. do 4 (split; [done|]). rewrite andb_false_r. split; [by apply H2|].
    intros p u v _. by rewrite (same_managers_refs _ _ _ _ M2). }
  assert (I : IsInCombatWith owner who w = false).
  { apply not_true_iff_false. rewrite in_combat_with_refs. intros ([|] & a & H); congruence. }
  rewrite I. cbv zeta. destruct (CanBeginCombat (cw_facts w) owner who) eqn:B; cbn [negb orb]; [|by exists false, w].
  assert (H0 : forall p, refs_of p owner w !! who = None) by (intros []; done).
  pose proof (CanBeginCombat_distinct _ _ _ B) as Hd.
  pose proof (fun k : combat bool => new_pair d owner who supp k w (co_links _ _ C) Hd H0) as E.
  destruct (begin_quiet d owner who supp w C Hd H0) as (w' & E2 & S). set (r := fresh_ref (cw_facts w) owner who supp) in *.
  exists true, w'. unfold fresh_ref at 1 in E. rewrite E, E2. split; [done|]. split.
  { apply (kept d (SetInCombatWith log owner who supp) w true w'); [by apply keeps_SetInCombatWith, log_keeps|done|].
    unfold SetInCombatWith. rewrite (step_bind _ _ _ _ _ eq_refl), Et, Ef. cbv zeta. rewrite B. cbn [negb]. by rewrite E, E2. }
  split; [apply S|]. split; [done|]. rewrite andb_true_r. split.
  - exists (cr_isPvP r), (cw_next w), r. rewrite (same_refs_of _ _ _ _ S), add_pair_lookup by done. pose proof S as (_ & -> & _).
    unfold is_pair. rewrite Bool.eqb_reflx, !Z.eqb_refl. cbn. rewrite lookup_insert_eq.
    do 2 (split; [done|]). unfold IsSuppressedFor. cbn. rewrite Z.eqb_refl, (proj2 (Z.eqb_neq _ _)) by congruence. done.
  - intros p u v Hp. rewrite (same_refs_of _ _ _ _ S), add_pair_lookup by done.
    destruct (is_pair r p u v) eqn:P; [|done]. apply is_pair_relates in P as (_ & _ & P); [|done].
    exfalso. apply Hp. unfold pair_of. cbn in P. intuition congruence.
Qed.
