(* ===== verification/CombatEnds.v ===== *)
(** Calls that end many combats, when AIs call nothing back: what they leave of
    each pair of units. *)
From Stdlib Require Import ZArith Lia.
From stdpp Require Import base gmap list tactics.
From S2P Require Import Prelude CombatManager CombatLinks CombatKeeps CombatQuiet.

Open Scope Z_scope.

(** ** The reference between two units *)

Definition between (p : bool) (u v : Z) (w : World) : option CombatReference :=
  a ← refs_of p u w !! v; cw_refs w !! a.

Lemma between_entry d p u v a w : Linked d w -> refs_of p u w !! v = Some a ->
  exists r, cw_refs w !! a = Some r /\ between p u v w = Some r /\ relates r p u v /\ a ∉ d.
Proof.
  intros L E. destruct (li_entry _ _ L _ _ _ _ E) as (Ha & r & Er & Hr).
  exists r. unfold between. by rewrite E.
Qed.

Lemma between_some p u v r w : between p u v w = Some r ->
  exists a, refs_of p u w !! v = Some a /\ cw_refs w !! a = Some r.
Proof. unfold between. destruct (refs_of p u w !! v) as [a|]; [|done]. by exists a. Qed.

(** A live reference is found from both sides. *)
Lemma held_relates d a r p u v w : Linked d w -> cw_refs w !! a = Some r -> a ∉ d -> relates r p u v ->
  refs_of p u w !! v = Some a.
Proof.
  intros L E Ha (<- & _ & H). destruct (li_held _ _ L a r E Ha) as (_ & H1 & H2).
  by destruct H as [[<- <-]|[<- <-]].
Qed.

Definition keeps_units (G : CombatReference -> option CombatReference) : Prop :=
  forall r r', G r = Some r' -> forall p u v, relates r' p u v <-> relates r p u v.

(** What happens to every reference of the store happens between every pair. *)
Lemma between_store w w' G : Linked ∅ w -> Linked ∅ w' -> keeps_units G ->
  (forall a, cw_refs w' !! a = cw_refs w !! a ≫= G) ->
  forall p u v, between p u v w' = between p u v w ≫= G.
Proof.
  intros L L' HG E p u v.
  assert (B : forall b r', between p u v w' = Some r' -> refs_of p u w' !! v = Some b ->
    exists r, refs_of p u w !! v = Some b /\ cw_refs w !! b = Some r /\ G r = Some r').
  { intros b r' H Hb. destruct (between_entry _ _ _ _ _ _ L' Hb) as (r2 & E2 & B2 & Hr & _).
    assert (r2 = r') as -> by congruence. rewrite E in E2. apply bind_Some in E2 as (r & Er & Eg).
    exists r. split; [|done]. apply (held_relates ∅ b r); [done|done|set_solver|]. by apply (HG r r'). }
  destruct (between p u v w) as [r|] eqn:Hr; cbn [mbind option_bind].
  - apply between_some in Hr as (a & Ha & Er). destruct (between_entry _ _ _ _ _ _ L Ha) as (r0 & E0 & _ & Hr & _).
    assert (r0 = r) as -> by congruence. destruct (G r) as [r'|] eqn:Eg.
    + unfold between. assert (Es : cw_refs w' !! a = Some r') by (rewrite E, Er; exact Eg).
      rewrite (held_relates ∅ a r' p u v w' L' Es); [exact Es|set_solver|]. by apply (HG r r').
    + destruct (between p u v w') as [r'|] eqn:H'; [|done]. pose proof (between_some _ _ _ _ _ H') as (b & Hb & _).
      destruct (B b r' eq_refl Hb) as (r2 & ? & ? & ?). congruence.
  - destruct (between p u v w') as [r'|] eqn:H'; [|done]. pose proof (between_some _ _ _ _ _ H') as (b & Hb & _).
    destruct (B b r' eq_refl Hb) as (r2 & Hw & E2 & _). unfold between in Hr. rewrite Hw in Hr. cbn in Hr. congruence.
Qed.

(** ** Ending those of a list *)

Lemma end_each_quiet l : forall w, Consistent ∅ w -> NoDup l -> (forall a, a ∈ l -> is_Some (cw_refs w !! a)) ->
  exists w', end_each log l w = Done (tt, w') /\ Consistent ∅ w' /\ cw_facts w' = cw_facts w
    /\ forall a, cw_refs w' !! a = if decide (a ∈ l) then None else cw_refs w !! a.
Proof.
  induction l as [|a l IH]; intros w C Hn H; cbn [end_each].
  { exists w. do 3 (split; [done|]). intros a. by rewrite decide_False by (apply not_elem_of_nil). }
  apply list.NoDup_cons in Hn as [Ha Hn]. destruct (H a ltac:(left)) as [r E].
  destruct (EndCombat_live ∅ a r w C E ltac:(set_solver)) as (w1 & E1 & C1 & R1 & F1 & _).
  rewrite (step_bind _ _ _ _ _ E1). destruct (IH w1 C1 Hn) as (w2 & E2 & C2 & F2 & R2).
  { intros b Hb. rewrite R1, lookup_delete_ne by (intros ->; done). apply H. by right. }
  exists w2. split; [done|]. split; [done|]. split; [congruence|]. intros b. rewrite R2, R1.
  destruct (decide (b = a)) as [->|Hb]; [rewrite lookup_delete_eq, (decide_True _ _ (list_elem_of_here _ _)); by case_decide|].
  rewrite lookup_delete_ne by done. repeat case_decide; set_solver.
Qed.

(** The addresses of a manager are those of its references. *)
Lemma address_relates d p u a w : Linked d w ->
  (a ∈ addresses (refs_of p u w) <-> exists r v, cw_refs w !! a = Some r /\ a ∉ d /\ relates r p u v).
Proof.
  intros L. rewrite elem_of_addresses. split.
  - intros [v E]. destruct (li_entry _ _ L _ _ _ _ E) as (Ha & r & Er & Hr). by exists r, v.
  - intros (r & v & Er & Ha & Hr). exists v. by eapply held_relates.
Qed.

Lemma relates_other r p u v : relates r p u v -> GetOther r u = v.
Proof.
  intros (_ & Hn & [[<- <-]|[<- <-]]); unfold GetOther; [by rewrite Z.eqb_refl|].
  by rewrite (proj2 (Z.eqb_neq _ _)) by done.
Qed.

Lemma address_once d p u v v' a w : Linked d w -> refs_of p u w !! v = Some a -> refs_of p u w !! v' = Some a -> v = v'.
Proof.
  intros L E E'. destruct (li_entry _ _ L _ _ _ _ E) as (_ & r & Er & Hr).
  destruct (li_entry _ _ L _ _ _ _ E') as (_ & r' & Er' & Hr'). assert (r' = r) as -> by congruence.
  apply relates_other in Hr, Hr'. congruence.
Qed.

Lemma addresses_distinct d p u w : Linked d w -> NoDup (addresses (refs_of p u w)).
Proof.
  intros L. unfold addresses. apply NoDup_fmap_2_strong; [|apply NoDup_map_to_list].
  intros [v a] [v' a'] H H' E. cbn in E. subst a'. apply elem_of_map_to_list in H, H'.
  f_equal. by eapply address_once.
Qed.

(** [owner] is one of the two. *)
Definition involves (owner : Z) (p : bool) (r : CombatReference) : bool :=
  Bool.eqb (cr_isPvP r) p && ((cr_first r =? owner) || (cr_second r =? owner)).

Lemma involves_relates d owner p a r w : Linked d w -> cw_refs w !! a = Some r -> a ∉ d ->
  (involves owner p r = true <-> exists v, relates r p owner v).
Proof.
  intros L E Ha. destruct (li_held _ _ L a r E Ha) as (Hn & _). unfold involves, relates.
  rewrite andb_true_iff, orb_true_iff, Bool.eqb_true_iff, !Z.eqb_eq. split.
  - intros [<- [<-|<-]]; [exists (cr_second r)|exists (cr_first r)]; intuition congruence.
  - intros [v (<- & _ & H)]. intuition congruence.
Qed.

(** ** [end_all] *)

Lemma refs_to_remove_done owner filter l w : (forall a, a ∈ l -> is_Some (cw_refs w !! a)) -> NoDup l ->
  exists out, refs_to_remove owner filter l w = Done (out, w) /\ NoDup out
    /\ forall a, a ∈ out <-> a ∈ l /\ exists r, cw_refs w !! a = Some r /\ passes filter (GetOther r owner) = true.
Proof.
  induction l as [|a l IH]; intros H Hn; cbn [refs_to_remove].
  { exists []. split; [done|]. split; [constructor|]. set_solver. }
  apply list.NoDup_cons in Hn as [Ha Hn]. destruct (H a ltac:(left)) as [r E].
  rewrite (step_bind _ _ _ r w) by (unfold deref; by rewrite E).
  destruct IH as (out & Eo & No & Ho); [intros b Hb; apply H; by right|done|].
  rewrite (step_bind _ _ _ _ _ Eo). exists (if passes filter (GetOther r owner) then a :: out else out).
  split; [done|]. destruct (passes filter (GetOther r owner)) eqn:P; split; try done.
  - apply list.NoDup_cons. split; [rewrite Ho; tauto|done].
  - intros b. rewrite !elem_of_cons, Ho. split; [|naive_solver]. intros [->|[? ?]]; [|auto]. split; [by left|by exists r].
  - intros b. rewrite elem_of_cons, Ho. split; [naive_solver|]. intros [[->|Hb] (r' & E' & P')]; [|eauto].
    assert (r' = r) as -> by congruence. congruence.
Qed.

(** What is left of a reference. *)
Definition unless (test : CombatReference -> bool) (r : CombatReference) : option CombatReference :=
  if test r then None else Some r.

Lemma unless_units test : keeps_units (unless test).
Proof. intros r r'. unfold unless. destruct (test r); [done|]. by intros [= ->]. Qed.

Lemma end_all_quiet pvp owner filter w : Consistent ∅ w ->
  exists w', end_all log pvp owner filter w = Done (tt, w') /\ Consistent ∅ w' /\ cw_facts w' = cw_facts w
    /\ forall p u v, between p u v w'
         = between p u v w ≫= unless (fun r => involves owner pvp r && passes filter (GetOther r owner)).
Proof.
  intros C. pose proof (co_links _ _ C) as L. unfold end_all. rewrite (step_bind _ _ _ _ _ eq_refl).
  destruct (refs_to_remove_done owner filter (addresses (refs_of pvp owner w)) w) as (l & E & Hn & Hl);
    [|by eapply addresses_distinct|].
  { intros a Ha. apply (address_relates _ _ _ _ _ L) in Ha as (r & v & Er & _). by exists r. }
  rewrite (step_bind _ _ _ _ _ E). destruct (end_each_quiet l w C Hn) as (w' & E' & C' & F' & R').
  { intros a Ha. apply Hl in Ha as (_ & r & Er & _). by exists r. }
  exists w'. do 3 (split; [done|]). apply between_store; [done|apply C'|apply unless_units|].
  intros a. rewrite R'. destruct (cw_refs w !! a) as [r|] eqn:Er; cbn [mbind option_bind]; [|by case_decide].
  pose proof (involves_relates ∅ owner pvp a r w L Er ltac:(set_solver)) as Hi.
  unfold unless. case_decide as Ha.
  - apply Hl in Ha as (Ha & r' & E2 & P). assert (r' = r) as -> by congruence. rewrite P.
    apply (address_relates _ _ _ _ _ L) in Ha as (r' & v & E3 & _ & Hr). assert (r' = r) as -> by congruence.
    by rewrite (proj2 Hi) by (by exists v).
  - destruct (involves owner pvp r) eqn:I; [|done]. destruct (passes filter (GetOther r owner)) eqn:P; [|done].
    destruct Ha. apply Hl. split; [|by exists r]. apply (address_relates _ _ _ _ _ L).
    destruct (proj1 Hi eq_refl) as [v Hv]. exists r, v. split; [done|]. split; [set_solver|done].
Qed.

(** ** The erasing loops *)

(** [gone] answers [test] and changes the references that stay by [f]. *)
Definition answers (F : Facts) (gone : Z -> combat bool) (test : CombatReference -> bool)
    (f : CombatReference -> CombatReference) : Prop :=
  forall a r w, Consistent ∅ w -> cw_facts w = F -> cw_refs w !! a = Some r ->
  exists w', gone a w = Done (test r, w') /\ Consistent ∅ w' /\ cw_facts w' = F
    /\ cw_managers w' = cw_managers w
    /\ cw_refs w' = if test r then cw_refs w else <[a := f r]> (cw_refs w).

Lemma next_key_head m ks : (forall k, k ∈ ks -> is_Some (m !! k)) -> next_key m ks = head ks.
Proof.
  destruct ks as [|k ks]; [done|]. intros H. unfold next_key. cbn. by rewrite decide_True by (apply H; left).
Qed.

(** The entry is erased and the combat ended. *)
Lemma erase_EndCombat_quiet p u k a r w : Consistent ∅ w -> refs_of p u w !! k = Some a -> cw_refs w !! a = Some r ->
  exists w', EndCombat log a (set_refs p u (delete k (refs_of p u w)) w) = Done (tt, w') /\ Consistent ∅ w'
    /\ cw_refs w' = delete a (cw_refs w) /\ cw_facts w' = cw_facts w
    /\ refs_of p u w' = delete k (refs_of p u w).
Proof.
  intros C Hk E. set (w0 := set_refs p u _ w). pose proof (co_links _ _ C) as L.
  destruct (between_entry _ _ _ _ _ _ L Hk) as (r' & Er & _ & Hr & _). assert (r' = r) as -> by congruence.
  assert (LB : LinkedBut ∅ a r w0) by (by apply erased_linked_but).
  destruct (EndCombat_quiet ∅ a r w0 LB) as (w' & E' & C' & R' & F' & M').
  { intros v Hv. change (v ∈ cw_inCombat w <-> active v w0). rewrite (co_flags _ _ C v) by set_solver.
    assert (u <> v) by (destruct Hr as (_ & _ & [[? ?]|[? ?]]); set_solver).
    assert (Ev : forall p', refs_of p' v w0 = refs_of p' v w)
      by (intros p'; unfold w0; rewrite refs_of_set, decide_False; [done|naive_solver]).
    unfold active. change (cw_refs w0) with (cw_refs w). by setoid_rewrite Ev. }
  exists w'. do 4 (split; [done|]). rewrite M'. apply map_eq. intros v.
  rewrite purge_lookup by apply LB. unfold w0. rewrite refs_of_set_eq.
  destruct (is_pair r p u v) eqn:P; [|done]. apply is_pair_relates in P; [|apply LB].
  apply relates_other in Hr, P. assert (v = k) as -> by congruence. by rewrite lookup_delete_eq.
Qed.

(** What the loop leaves at an address that it comes to. *)
Definition settle (test : CombatReference -> bool) (f : CombatReference -> CombatReference)
    (r : CombatReference) : option CombatReference :=
  if test r then None else Some (f r).

(** One round of the loop. *)
Lemma erase_round F gone test f p u k a ks w : answers F gone test f -> Consistent ∅ w -> cw_facts w = F ->
  refs_of p u w !! k = Some a -> k ∉ ks -> (forall k', k' ∈ ks -> is_Some (refs_of p u w !! k')) ->
  exists w', erase_loop log gone p u (k :: ks) (Some k) w = erase_loop log gone p u ks (head ks) w'
    /\ Consistent ∅ w' /\ cw_facts w' = F
    /\ (forall k', k' <> k -> refs_of p u w' !! k' = refs_of p u w !! k')
    /\ (forall b, cw_refs w' !! b = if decide (b = a) then cw_refs w !! a ≫= settle test f else cw_refs w !! b).
Proof.
  intros Hg C HF Hk Hn Hks. destruct (between_entry _ _ _ _ _ _ (co_links _ _ C) Hk) as (r & E & _).
  cbn [erase_loop]. rewrite bool_decide_true by done. cbn [negb]. rewrite (step_bind _ _ _ _ _ eq_refl), Hk.
  destruct (Hg a r w C HF E) as (w1 & Eg & C1 & F1 & M1 & R1). rewrite (step_bind _ _ _ _ _ Eg).
  pose proof (same_managers_refs _ _ p u M1) as R. unfold settle. destruct (test r) eqn:T.
  - rewrite (step_bind _ _ _ _ _ eq_refl), (step_bind _ _ _ _ _ eq_refl).
    assert (Hk1 : refs_of p u w1 !! k = Some a) by (by rewrite R). assert (E1 : cw_refs w1 !! a = Some r) by (by rewrite R1).
    destruct (erase_EndCombat_quiet p u k a r w1 C1 Hk1 E1) as (w2 & E2 & C2 & R2 & F2 & M2).
    rewrite (step_bind _ _ _ _ _ E2), (step_bind _ _ _ _ _ eq_refl). rewrite refs_of_set_eq, M2, bool_decide_true by done.
    rewrite next_key_head by (intros k' H; rewrite lookup_delete_ne by (intros ->; done); rewrite R; by apply Hks).
    exists w2. split; [done|]. split; [done|]. split; [congruence|]. split.
    + intros k' H. by rewrite M2, lookup_delete_ne, R.
    + intros b. rewrite R2, R1, E. cbn [mbind option_bind]. rewrite T. case_decide as Hb.
      * subst b. apply lookup_delete_eq.
      * by rewrite lookup_delete_ne.
  - rewrite (step_bind _ _ _ _ _ eq_refl). rewrite next_key_head by (intros k' H; rewrite R; by apply Hks).
    exists w1. do 3 (split; [done|]). split; [by intros k' _; rewrite R|].
    intros b. rewrite R1, E. cbn [mbind option_bind]. rewrite T. case_decide as Hb.
    + subst b. apply lookup_insert_eq.
    + by rewrite lookup_insert_ne.
Qed.

Lemma erase_loop_quiet F gone test f p u : answers F gone test f ->
  forall kas w, Consistent ∅ w -> cw_facts w = F -> NoDup kas.*1 -> NoDup kas.*2 ->
  (forall k a, (k, a) ∈ kas -> refs_of p u w !! k = Some a) ->
  exists w', erase_loop log gone p u kas.*1 (head kas.*1) w = Done (tt, w') /\ Consistent ∅ w' /\ cw_facts w' = F
    /\ forall a, cw_refs w' !! a = if decide (a ∈ kas.*2) then cw_refs w !! a ≫= settle test f else cw_refs w !! a.
Proof.
  intros Hg kas. induction kas as [|[k a] kas IH]; intros w C HF Hn Hn2 H; cbn [fmap list_fmap fst snd head] in *.
  { exists w. do 3 (split; [done|]). intros b. by rewrite decide_False by (apply not_elem_of_nil). }
  apply list.NoDup_cons in Hn as [Hk Hn], Hn2 as [Ha Hn2].
  destruct (erase_round F gone test f p u k a kas.*1 w Hg C HF) as (w1 & -> & C1 & F1 & R1 & S1); [|done|..].
  { apply H. left. }
  { intros k' H'. apply list_elem_of_fmap in H' as ([k2 b] & -> & H'). exists b. apply H. by right. }
  destruct (IH w1 C1 F1 Hn Hn2) as (w2 & E2 & C2 & F2 & S2).
  { intros k' b Hb. rewrite R1; [apply H; by right|]. intros ->. apply Hk. apply list_elem_of_fmap. by exists (k, b). }
  exists w2. do 3 (split; [done|]). intros b. rewrite S2, S1.
  destruct (decide (b = a)) as [->|Hb]; [|repeat case_decide; set_solver].
  rewrite (decide_False _ _ Ha). by rewrite decide_True by left.
Qed.

(** References of [owner] settle, others stay. *)
Definition settle_own (owner : Z) (p : bool) test f (r : CombatReference) : option CombatReference :=
  if involves owner p r then settle test f r else Some r.

Lemma settle_own_units owner p test f : same_units f -> keeps_units (settle_own owner p test f).
Proof.
  intros Hf r r'. unfold settle_own, settle. destruct (involves _ _ _); [destruct (test r); [done|]|]; intros [= <-]; [|done].
  intros p' u v. by apply same_units_relates.
Qed.

Lemma erase_all_quiet gone test f p owner w : answers (cw_facts w) gone test f -> same_units f -> Consistent ∅ w ->
  exists w', erase_all log gone p owner w = Done (tt, w') /\ Consistent ∅ w' /\ cw_facts w' = cw_facts w
    /\ forall q u v, between q u v w' = between q u v w ≫= settle_own owner p test f.
Proof.
  intros Hg Hf C. pose proof (co_links _ _ C) as L. unfold erase_all, keys. rewrite (step_bind _ _ _ _ _ eq_refl). cbv zeta.
  destruct (erase_loop_quiet (cw_facts w) gone test f p owner Hg (map_to_list (refs_of p owner w)) w C eq_refl)
    as (w' & E & C' & F' & R').
  - apply NoDup_fst_map_to_list.
  - by eapply addresses_distinct.
  - intros k a. apply elem_of_map_to_list.
  - exists w'. do 3 (split; [done|]). apply between_store; [done|apply C'|by apply settle_own_units|].
    intros a. rewrite R'. destruct (cw_refs w !! a) as [r|] eqn:Er; cbn [mbind option_bind]; [|by case_decide].
    pose proof (involves_relates ∅ owner p a r w L Er ltac:(set_solver)) as Hi.
    unfold settle_own. case_decide as Ha.
    + apply (address_relates _ _ _ _ _ L) in Ha as (r' & v & E3 & _ & Hr). assert (r' = r) as -> by congruence.
      by rewrite (proj2 Hi) by (by exists v).
    + destruct (involves owner p r) eqn:I; [|done]. destruct Ha. apply (address_relates _ _ _ _ _ L).
      destruct (proj1 Hi eq_refl) as [v Hv]. exists r, v. split; [done|]. split; [set_solver|done].
Qed.

(** *** The three tests *)

Definition aged (owner tdiff : Z) (r : CombatReference) : CombatReference :=
  if cr_first r =? owner then set_combatTimer (cr_combatTimer r - tdiff) r else r.

Lemma aged_units owner tdiff : same_units (aged owner tdiff).
Proof. intros r. unfold aged. by destruct (cr_first r =? owner). Qed.

Lemma answers_timed_out F owner tdiff :
  answers F (timed_out owner tdiff) (fun r => (cr_first r =? owner) && (cr_combatTimer r <=? tdiff)) (aged owner tdiff).
Proof.
  intros a r w C HF E. assert (D : deref a w = Done (r, w)) by (unfold deref; by rewrite E).
  unfold timed_out, aged. rewrite (step_bind _ _ _ _ _ D). destruct (cr_first r =? owner); cbn [andb].
  2:{ exists w. do 4 (split; [done|]). by rewrite insert_id. }
  unfold ref_Update. destruct (cr_combatTimer r <=? tdiff) eqn:T.
  - assert (Q : (r ← deref a; if cr_combatTimer r <=? tdiff then mret false
                  else alter_ref (set_combatTimer (cr_combatTimer r - tdiff)) a;; mret true) w = Done (false, w))
      by (by rewrite (step_bind _ _ _ _ _ D), T).
    rewrite (step_bind _ _ _ _ _ Q). by exists w.
  - set (w' := with_ref (set_combatTimer (cr_combatTimer r - tdiff)) a r w).
    assert (A : alter_ref (set_combatTimer (cr_combatTimer r - tdiff)) a w = Done (tt, w'))
      by (unfold alter_ref; by rewrite (step_bind _ _ _ _ _ D)).
    assert (Q : (r ← deref a; if cr_combatTimer r <=? tdiff then mret false
                  else alter_ref (set_combatTimer (cr_combatTimer r - tdiff)) a;; mret true) w = Done (true, w'))
      by (by rewrite (step_bind _ _ _ _ _ D), T, (step_bind _ _ _ _ _ A)).
    rewrite (step_bind _ _ _ _ _ Q). exists w'. split; [done|]. split; [|done].
    refine (kept _ _ _ _ _ _ C A). by apply keeps_alter.
Qed.

Lemma answers_out_of_range F range :
  answers F (out_of_range range) (fun r => negb (IsWithinDistInMap F (cr_first r) (cr_second r) range)) id.
Proof.
  intros a r w C <- E. unfold out_of_range. rewrite (step_bind _ _ _ r w) by (unfold deref; by rewrite E).
  rewrite (step_bind _ _ _ _ _ eq_refl). exists w. do 4 (split; [done|]). destruct (negb _); [done|]. by rewrite insert_id.
Qed.

Lemma answers_invalid_for F owner :
  answers F (invalid_for owner) (fun r => negb (CanBeginCombat F owner (GetOther r owner))) id.
Proof.
  intros a r w C <- E. unfold invalid_for. rewrite (step_bind _ _ _ r w) by (unfold deref; by rewrite E).
  rewrite (step_bind _ _ _ _ _ eq_refl). exists w. do 4 (split; [done|]). destruct (negb _); [done|]. by rewrite insert_id.
Qed.
