(* ===== verification/CombatSpec.v ===== *)
(** The promises of [CombatManager.h]: what holds of every world the managers
    can be in, what each call does to each pair of units, and where a call-back
    of an AI breaks a call. *)
From Stdlib Require Import ZArith Lia.
From stdpp Require Import base gmap list tactics.
From S2P Require Import Prelude CombatManager CombatLinks CombatKeeps CombatQuiet CombatEnds.

Open Scope Z_scope.

(** ** Every world *)

Lemma history_keeps fuel ai cs : keeps ∅ (history fuel ai cs).
Proof. apply keeps_each. intros c. apply keeps_run. Qed.

Lemma history_consistent fuel ai cs f w : history fuel ai cs (World_new f) = Done (tt, w) -> Consistent ∅ w.
Proof. intros E. exact (kept _ _ _ _ _ (history_keeps fuel ai cs) (empty_consistent f) E). Qed.

Lemma active_between d u w : Linked d w ->
  (active u w <-> exists p v r, between p u v w = Some r /\ IsSuppressedFor r u = false).
Proof.
  intros L. unfold active. split.
  - intros (p & v & a & r & Ha & Er & S). exists p, v, r. unfold between. rewrite Ha. done.
  - intros (p & v & r & H & S). apply between_some in H as (a & Ha & Er). by exists p, v, a, r.
Qed.

Lemma in_combat_between d u w : Consistent d w ->
  (IsInCombat u w = true <-> exists p v r, between p u v w = Some r /\ IsSuppressedFor r u = false).
Proof.
  intros [L F]. unfold IsInCombat. rewrite bool_decide_eq_true, <- (active_between _ _ _ L). apply F, not_elem_of_empty.
Qed.

Lemma in_combat_with_between d u v w : Linked d w ->
  (IsInCombatWith u v w = true <-> exists p r, between p u v w = Some r).
Proof.
  intros L. rewrite in_combat_with_refs. split.
  - intros (p & a & H). apply (between_entry _ _ _ _ _ _ L) in H as (r & _ & H & _). by exists p, r.
  - intros (p & r & H). apply between_some in H as (a & H & _). by exists p, a.
Qed.

Lemma between_both d p u v r w : Linked d w -> between p u v w = Some r ->
  between p v u w = Some r /\ cr_isPvP r = p /\ u <> v /\ GetOther r u = v /\ GetOther r v = u
  /\ between (negb p) u v w = None.
Proof.
  intros L H. apply between_some in H as (a & Ha & Er).
  destruct (between_entry _ _ _ _ _ _ L Ha) as (r' & E & _ & Hr & Hd). assert (r' = r) as -> by congruence.
  assert (Hr' : relates r p v u) by (destruct Hr as (? & ? & ?); split; [done|]; intuition congruence).
  split; [|split; [apply Hr|split; [apply Hr|split; [by eapply relates_other|split; [by eapply relates_other|]]]]].
  - unfold between. by rewrite (held_relates d a r p v u w L E Hd Hr').
  - unfold between. destruct p; cbn [negb].
    + by rewrite (li_one _ _ L _ _ _ Ha).
    + destruct (refs_of true u w !! v) eqn:E'; [|done]. apply (li_one _ _ L) in E'. congruence.
Qed.

(** C9. What the managers promise in every state that any calls can lead to,
    whatever the AIs that are told of it call back in the middle of a call: a
    unit is in combat if and only if it has a reference that is not suppressed
    for it; a reference found for one unit under the other is found for the
    other under the one, is of the kind of its map, relates two distinct units
    and is the only one between them; no entry dangles and no reference is
    leaked. No assertion of [PutReference] ever fails: a call may only fail by
    use of a reference that an AI ended or of an iterator it invalidated. *)
Theorem combat_consistent (fuel : nat) (ai : Notice -> World -> list Call) (cs : list Call) (f : Facts) :
  match history fuel ai cs (World_new f) with
  | Done (_, w) =>
      (forall u, IsInCombat u w = true <-> exists p v r, between p u v w = Some r /\ IsSuppressedFor r u = false)
      /\ (forall p u v r, between p u v w = Some r ->
            between p v u w = Some r /\ cr_isPvP r = p /\ u <> v /\ GetOther r u = v /\ GetOther r v = u
            /\ between (negb p) u v w = None)
      /\ (forall p u v a, refs_of p u w !! v = Some a -> is_Some (cw_refs w !! a))
      /\ (forall a r, cw_refs w !! a = Some r -> refs_of (cr_isPvP r) (cr_first r) w !! cr_second r = Some a)
  | Failed e => e <> AssertionFailed
  end.
Proof.
  pose proof (history_keeps fuel ai cs _ (empty_consistent f)) as K.
  destruct (history fuel ai cs (World_new f)) as [[x w]|e]; [|done]. pose proof (co_links _ _ K) as L.
  split; [intros u; by eapply in_combat_between|]. split; [by intros p u v r; eapply between_both|]. split.
  - intros p u v a H. destruct (li_entry _ _ L _ _ _ _ H) as (_ & r & E & _). by exists r.
  - intros a r E. by apply (li_held _ _ L a r E).
Qed.

(** ** Setting in combat *)

(** Units that may all fight each other, and have an AI. *)
Definition creature : UnitFacts :=
  {| IsInWorld := true; IsAlive := true; GetMap := 0; UNIT_STATE_EVADE := false; UNIT_STATE_IN_FLIGHT := false;
     IsGameMaster := None; IsControlledByPlayer := false; TYPEID_UNIT := true; TYPEID_PLAYER := false;
     IsImmuneToPC := false; IsImmuneToNPC := false; UNIT_FLAG_PLAYER_CONTROLLED := false; HasAI := true;
     GetCharmerOrOwner := None |}.

Definition gladiator : UnitFacts :=
  {| IsInWorld := true; IsAlive := true; GetMap := 0; UNIT_STATE_EVADE := false; UNIT_STATE_IN_FLIGHT := false;
     IsGameMaster := Some false; IsControlledByPlayer := true; TYPEID_UNIT := false; TYPEID_PLAYER := true;
     IsImmuneToPC := false; IsImmuneToNPC := false; UNIT_FLAG_PLAYER_CONTROLLED := true; HasAI := false;
     GetCharmerOrOwner := None |}.

(** Units below ten are creatures. *)
Definition arena : Facts :=
  {| unit_facts := fun u => if u <? 10 then creature else gladiator;
     IsInPhase := fun _ _ => true; IsFriendlyTo := fun _ _ => false; IsWithinDistInMap := fun _ _ _ => true |}.

Definition no_ai : Notice -> World -> list Call := fun _ _ => [].

(** [SetInCombatWith] with AIs that call nothing back, from any state the
    managers can be in: it always returns, and what it returns is the combat
    state between the two afterwards, as seen from either: true exactly when
    they were in combat or may begin one. If so the first unit is in combat,
    the second too unless the combat is new and suppressed for it, and the
    timer of a reference between two players' units starts again. No other pair
    changes, and if it returns false nothing does. *)
Theorem SetInCombatWith_spec fuel ai cs f w owner who addSecondUnitSuppressed :
  history fuel ai cs (World_new f) = Done (tt, w) ->
  let known := IsInCombatWith owner who w in
  let b := known || CanBeginCombat (cw_facts w) owner who in
  exists w', SetInCombatWith log owner who addSecondUnitSuppressed w = Done (b, w')
    /\ IsInCombatWith owner who w' = b /\ IsInCombatWith who owner w' = b
    /\ (b = true -> exists p r, between p owner who w' = Some r
          /\ IsInCombat owner w' = true /\ IsSuppressedFor r who = addSecondUnitSuppressed && negb known
          /\ (p = true -> cr_combatTimer r = PVP_COMBAT_TIMEOUT))
    /\ (b = false -> w' = w)
    /\ (forall p u v, ~ pair_of owner who u v -> refs_of p u w' !! v = refs_of p u w !! v).
Proof.
  intros H known b. apply history_consistent in H.
  destruct (SetInCombatWith_quiet ∅ owner who addSecondUnitSuppressed w H) as (b' & w' & E & C & _ & Hb & He & Ho).
  fold known in He, Hb. fold b in Hb. subst b'. pose proof (co_links _ _ C) as L. exists w'. split; [done|].
  assert (Hin : b = true -> exists p r, between p owner who w' = Some r
      /\ IsInCombat owner w' = true /\ IsSuppressedFor r who = addSecondUnitSuppressed && negb known
      /\ (p = true -> cr_combatTimer r = PVP_COMBAT_TIMEOUT)).
  { intros Hb. rewrite Hb in He. destruct He as (p & a & r & Ha & Er & S1 & S2 & T). exists p, r.
    assert (Hr : between p owner who w' = Some r) by (unfold between; by rewrite Ha).
    split; [done|]. split; [|done]. apply (in_combat_between _ _ _ C). by exists p, who, r. }
  assert (Hsym : IsInCombatWith who owner w' = IsInCombatWith owner who w').
  { apply eq_true_iff_eq. rewrite !(in_combat_with_between _ _ _ _ L).
    split; intros (p & r & Hr); exists p, r; by apply (between_both _ _ _ _ _ _ L Hr). }
  assert (Hw : IsInCombatWith owner who w' = b).
  { destruct b eqn:Eb.
    - destruct (Hin eq_refl) as (p & r & Hr & _). apply (in_combat_with_between _ _ _ _ L). by exists p, r.
    - subst w'. unfold b in Eb. by apply orb_false_iff in Eb as [Eb _]. }
  split; [done|]. split; [congruence|]. split; [done|]. split; [intros Eb; by rewrite Eb in He|done].
Qed.

Lemma SetInCombatWith_spec_witness : exists w w',
  history 1 no_ai [CallSetInCombatWith 1 11 false; CallEndCombat false 11 1; CallSetInCombatWith 1 2 true] (World_new arena)
    = Done (tt, w)
  /\ SetInCombatWith log 1 11 true w = Done (true, w') /\ IsInCombatWith 11 1 w' = true.
Proof.
  destruct (history 1 no_ai [CallSetInCombatWith 1 11 false; CallEndCombat false 11 1; CallSetInCombatWith 1 2 true]
    (World_new arena)) as [[[] w]|e] eqn:E; [|vm_compute in E; discriminate].
  destruct (SetInCombatWith_spec _ _ _ _ w 1 11 true E) as (w' & E1 & _ & E2 & _).
  assert (B : IsInCombatWith 1 11 w || CanBeginCombat (cw_facts w) 1 11 = true).
  { vm_compute in E. injection E as <-. vm_compute. reflexivity. }
  exists w, w'. rewrite B in E1, E2. auto.
Defined.

(** ** Ending *)

(** What a call that ends combats leaves of each reference. *)
Definition ended_by (f : Facts) (c : Call) (r : CombatReference) : bool :=
  match c with
  | CallEndCombat pvp owner who => involves owner pvp r && (GetOther r owner =? who)
  | CallEndAllPvECombat owner filter => involves owner false r && passes filter (GetOther r owner)
  | CallEndAllPvPCombat owner filter => involves owner true r && passes filter (GetOther r owner)
  | CallEndCombatBeyondRange owner range includingPvP =>
      (involves owner false r || includingPvP && involves owner true r)
      && negb (IsWithinDistInMap f (cr_first r) (cr_second r) range)
  | CallRevalidateCombat owner =>
      (involves owner false r || involves owner true r) && negb (CanBeginCombat f owner (GetOther r owner))
  | CallUpdate owner tdiff => cr_isPvP r && (cr_first r =? owner) && (cr_combatTimer r <=? tdiff)
  | _ => false
  end.

Definition left_by (f : Facts) (c : Call) (r : CombatReference) : option CombatReference :=
  if ended_by f c r then None else
  Some (match c with CallUpdate owner tdiff => if cr_isPvP r then aged owner tdiff r else r | _ => r end).

Definition ends (c : Call) : bool :=
  match c with
  | CallEndCombat _ _ _ | CallEndAllPvECombat _ _ | CallEndAllPvPCombat _ _
  | CallEndCombatBeyondRange _ _ _ | CallRevalidateCombat _ | CallUpdate _ _ => true
  | _ => false
  end.

Definition leaves (c : Call) (w : World) : Prop :=
  exists w', quiet c w = Done (tt, w') /\ Consistent ∅ w' /\ cw_facts w' = cw_facts w
    /\ forall p u v, between p u v w' = between p u v w ≫= left_by (cw_facts w) c.

Lemma bind_same (o : option CombatReference) (G G' : CombatReference -> option CombatReference) : (forall r, G r = G' r) -> o ≫= G = o ≫= G'.
Proof. intros H. destruct o; [apply H|done]. Qed.

Lemma EndCombat_leaves pvp owner who w : Consistent ∅ w -> leaves (CallEndCombat pvp owner who) w.
Proof.
  intros C. pose proof (co_links _ _ C) as L. unfold leaves, quiet. cbn [perform]. unfold on_ref.
  rewrite (step_bind _ _ _ _ _ eq_refl).
  assert (T : forall b r, cw_refs w !! b = Some r ->
    ended_by (cw_facts w) (CallEndCombat pvp owner who) r = true <-> refs_of pvp owner w !! who = Some b).
  { intros b r E. unfold ended_by. rewrite andb_true_iff, (involves_relates ∅ owner pvp b r w L E ltac:(set_solver)), Z.eqb_eq.
    split.
    - intros [[v Hr] Ho]. rewrite (relates_other _ _ _ _ Hr) in Ho. subst v.
      by apply (held_relates ∅ b r _ _ _ w L E ltac:(set_solver)).
    - intros H. destruct (li_entry _ _ L _ _ _ _ H) as (_ & r' & E' & Hr). assert (r' = r) as -> by congruence.
      split; [by exists who|by eapply relates_other]. }
  assert (U : keeps_units (left_by (cw_facts w) (CallEndCombat pvp owner who))) by apply unless_units.
  destruct (refs_of pvp owner w !! who) as [a|] eqn:H.
  - destruct (li_entry _ _ L _ _ _ _ H) as (Ha & r & E & _).
    destruct (EndCombat_live ∅ a r w C E Ha) as (w' & E' & C' & R' & F' & _).
    exists w'. do 3 (split; [done|]). apply between_store; [done|apply C'|done|]. intros b. rewrite R'.
    destruct (cw_refs w !! b) as [r'|] eqn:Eb; cbn [mbind option_bind];
      [|destruct (decide (b = a)) as [->|]; [congruence|by rewrite lookup_delete_ne]].
    unfold left_by. specialize (T b r' Eb). destruct (decide (b = a)) as [->|Hn].
    + rewrite (proj2 T eq_refl). apply lookup_delete_eq.
    + rewrite lookup_delete_ne by done. destruct (ended_by _ _ r'); [|done]. assert (Some a = Some b) by tauto. congruence.
  - exists w. do 3 (split; [done|]). apply between_store; [done..|]. intros b.
    destruct (cw_refs w !! b) as [r|] eqn:Eb; [|done]. cbn [mbind option_bind]. unfold left_by.
    specialize (T b r Eb). destruct (ended_by _ _ r); [|done]. by assert (None = Some b) by tauto.
Qed.

(** Notices to the threat managers change no reference. *)
Lemma log_consistent n w : Consistent ∅ w -> Consistent ∅ (add_log n w).
Proof. intros C. exact (kept _ _ _ _ _ (keeps_log ∅ n) C eq_refl). Qed.

Lemma EndAll_leaves (pvp : bool) owner filter w : Consistent ∅ w ->
  leaves (if pvp then CallEndAllPvPCombat owner filter else CallEndAllPvECombat owner filter) w.
Proof.
  intros C. unfold leaves, quiet. destruct pvp; cbn [perform].
  - exact (end_all_quiet true owner filter w C).
  - unfold EndAllPvECombat. rewrite !(step_bind _ _ _ _ _ eq_refl).
    exact (end_all_quiet false owner filter _ (log_consistent _ _ (log_consistent _ _ C))).
Qed.

(** Both loops over the references of [owner]. *)
Lemma erase_both_quiet gone test owner (pvp : bool) w :
  (forall F, answers F gone (test F) id) -> Consistent ∅ w ->
  exists w', (erase_all log gone false owner;; when pvp (erase_all log gone true owner)) w = Done (tt, w')
    /\ Consistent ∅ w' /\ cw_facts w' = cw_facts w
    /\ forall p u v, between p u v w' = between p u v w
         ≫= unless (fun r => (involves owner false r || pvp && involves owner true r) && test (cw_facts w) r).
Proof.
  intros Hg C. destruct (erase_all_quiet gone _ id false owner w (Hg (cw_facts w))) as (w1 & E1 & C1 & F1 & B1); [done..|].
  rewrite (step_bind _ _ _ _ _ E1). destruct pvp; cbn [when andb].
  - destruct (erase_all_quiet gone (test (cw_facts w)) id true owner w1) as (w2 & E2 & C2 & F2 & B2); [rewrite F1; apply Hg|done..|].
    exists w2. split; [done|]. split; [done|]. split; [congruence|]. intros p u v. rewrite B2, B1, option_bind_assoc.
    apply bind_same. intros r. unfold settle_own, settle, unless, compose, id, involves. 
    destruct (cr_isPvP r) eqn:P; cbn [Bool.eqb andb orb mbind option_bind]; rewrite ?P; cbn [Bool.eqb andb orb];
      (destruct (_ || _); cbn [andb]; [|cbn; by rewrite ?P]); destruct (test _ r); cbn; by rewrite ?P.
  - exists w1. do 3 (split; [done|]). intros p u v. rewrite B1. apply bind_same. intros r.
    unfold settle_own, settle, unless, id. rewrite orb_false_r. by destruct (involves _ _ _).
Qed.

Lemma Update_leaves owner tdiff w : Consistent ∅ w -> leaves (CallUpdate owner tdiff) w.
Proof.
  intros C. unfold leaves, quiet. cbn [perform]. unfold Update.
  destruct (erase_all_quiet _ _ _ true owner w (answers_timed_out (cw_facts w) owner tdiff) (aged_units owner tdiff) C)
    as (w' & E & C' & F & B). exists w'. do 3 (split; [done|]). intros p u v. rewrite B. apply bind_same. intros r.
  unfold settle_own, settle, left_by, ended_by, involves, aged.
  destruct (cr_isPvP r), (cr_first r =? owner), (cr_second r =? owner), (cr_combatTimer r <=? tdiff); reflexivity.
Qed.

Lemma ends_leaves c w : Consistent ∅ w -> ends c = true -> leaves c w.
Proof.
  intros C He. destruct c; try discriminate He.
  - by apply EndCombat_leaves.
  - exact (erase_both_quiet _ _ owner includingPvP w (fun F => answers_out_of_range F range) C).
  - by apply (EndAll_leaves false).
  - by apply (EndAll_leaves true).
  - exact (erase_both_quiet _ _ owner true w (fun F => answers_invalid_for F owner) C).
  - by apply Update_leaves.
Qed.

(** Every call that ends combats, with AIs that call nothing back, from any
    state the managers can be in: it always returns, no iterator of its loops is
    invalidated by the ends it makes, and between each pair of units it leaves
    exactly what [left_by] says of the one reference that was there. [EndCombat]
    ends that reference, [EndAllPvECombat] and [EndAllPvPCombat] those of their
    kind that pass the filter, [EndCombatBeyondRange] those out of range,
    [RevalidateCombat] those that could not begin any more, and [Update] the
    references between players' units that the owner began and that have timed
    out, the others of these being aged. *)
Theorem ending_calls fuel ai cs f w c : history fuel ai cs (World_new f) = Done (tt, w) -> ends c = true ->
  exists w', quiet c w = Done (tt, w')
    /\ (forall p u v, between p u v w' = between p u v w ≫= left_by (cw_facts w) c)
    /\ (forall u, IsInCombat u w' = true <->
          exists p v r r', between p u v w = Some r /\ left_by (cw_facts w) c r = Some r' /\ IsSuppressedFor r' u = false).
Proof.
  intros H He. apply history_consistent in H. destruct (ends_leaves c w H He) as (w' & E & C & _ & B).
  exists w'. split; [done|]. split; [done|]. intros u. rewrite (in_combat_between _ _ _ C).
  split.
  - intros (p & v & r' & H' & S). rewrite B in H'. apply bind_Some in H' as (r & Hr & Hl). by exists p, v, r, r'.
  - intros (p & v & r & r' & Hr & Hl & S). exists p, v, r'. by rewrite B, Hr.
Qed.

Lemma ending_calls_witness : exists w w',
  history 1 no_ai [CallSetInCombatWith 11 12 false; CallSetInCombatWith 11 1 false] (World_new arena) = Done (tt, w)
  /\ quiet (CallUpdate 11 5000) w = Done (tt, w') /\ between true 12 11 w' = None /\ IsInCombat 11 w' = true.
Proof.
  destruct (history 1 no_ai [CallSetInCombatWith 11 12 false; CallSetInCombatWith 11 1 false] (World_new arena))
    as [[[] w]|e] eqn:E; [|vm_compute in E; discriminate].
  destruct (ending_calls _ _ _ _ w (CallUpdate 11 5000) E eq_refl) as (w' & E1 & B & I). exists w, w'.
  assert (T : between true 12 11 w ≫= left_by (cw_facts w) (CallUpdate 11 5000) = None
    /\ (between false 11 1 w ≫= left_by (cw_facts w) (CallUpdate 11 5000)
        = Some {| cr_first := 11; cr_second := 1; cr_isPvP := false; cr_suppressFirst := false;
                  cr_suppressSecond := false; cr_combatTimer := 5000 |})).
  { vm_compute in E. injection E as <-. split; vm_compute; reflexivity. }
  destruct T as [T1 T2]. split; [reflexivity|]. split; [exact E1|]. split; [by rewrite B|].
  apply bind_Some in T2 as (r & R1 & R2). apply I. exists false, 1, r. eexists. split; [exact R1|]. split; [exact R2|reflexivity].
Defined.

(** *** Timing out *)

(** The time that has passed for the references that [owner] began. *)
Fixpoint elapsed (owner : Z) (us : list (Z * Z)) : Z :=
  match us with
  | [] => 0
  | (o, tdiff) :: us => (if o =? owner then tdiff else 0) + elapsed owner us
  end.

Definition updates (us : list (Z * Z)) : list Call := (fun '(o, tdiff) => CallUpdate o tdiff) <$> us.

Lemma elapsed_nonneg owner us : Forall (fun '(_, tdiff) => 0 <= tdiff) us -> 0 <= elapsed owner us.
Proof. induction 1 as [|[o t] us]; cbn; [lia|]. case_match; lia. Qed.

Lemma updates_age us : forall w, Consistent ∅ w -> Forall (fun '(_, tdiff) => 0 <= tdiff) us ->
  exists w', perform_each quiet (updates us) w = Done (tt, w') /\ Consistent ∅ w' /\
    forall u v, match between true u v w with
                | Some r => 0 < cr_combatTimer r ->
                    between true u v w' = if elapsed (cr_first r) us <? cr_combatTimer r
                      then Some (set_combatTimer (cr_combatTimer r - elapsed (cr_first r) us) r) else None
                | None => between true u v w' = None
                end.
Proof.
  induction us as [|[o t] us IH]; intros w C Hp; cbn [updates fmap list_fmap perform_each elapsed].
  { exists w. do 2 (split; [done|]). intros u v. destruct (between true u v w) as [r|]; [|done].
    intros Ht. rewrite (proj2 (Z.ltb_lt _ _) Ht), Z.sub_0_r. by destruct r. }
  apply list.Forall_cons in Hp as [Ht Hp]. destruct (Update_leaves o t w C) as (w1 & E1 & C1 & F1 & B1).
  rewrite (step_bind _ _ _ _ _ E1). destruct (IH w1 C1 Hp) as (w2 & E2 & C2 & B2). exists w2. split; [done|]. split; [done|].
  intros u v. specialize (B1 true u v). specialize (B2 u v).
  destruct (between true u v w) as [r|] eqn:Hr; cbn [mbind option_bind] in B1; [|by rewrite B1 in B2]. intros Hc.
  assert (P : cr_isPvP r = true) by (eapply between_both; [apply C|done]). unfold left_by, ended_by, aged in B1.
  rewrite P in B1. cbn [andb] in B1. pose proof (elapsed_nonneg (cr_first r) us Hp).
  rewrite (Z.eqb_sym o). destruct (cr_first r =? o); cbn [andb] in B1.
  - destruct (Z.leb_spec (cr_combatTimer r) t) as [Hl|Hl]; rewrite B1 in B2.
    + by rewrite (proj2 (Z.ltb_ge _ _)) by lia.
    + cbn [set_combatTimer cr_combatTimer cr_first] in B2. rewrite B2 by lia.
      destruct (Z.ltb_spec (elapsed (cr_first r) us) (cr_combatTimer r - t)), (Z.ltb_spec (t + elapsed (cr_first r) us) (cr_combatTimer r));
        try lia; [|done]. by rewrite Z.sub_add_distr.
  - rewrite B1 in B2. by apply B2.
Qed.

(** Combat between players' units times out, and on time: over any updates of
    any managers, while no AI calls back and nobody sets the two in combat
    again, the reference between two units is still there as long as the time
    that passed in the updates of the unit that began it is less than its timer,
    and is gone, for both, as soon as it is not. The updates of the other unit
    do not age it. *)
Theorem pvp_times_out fuel ai cs f w u v r us : history fuel ai cs (World_new f) = Done (tt, w) ->
  between true u v w = Some r -> 0 < cr_combatTimer r -> Forall (fun '(_, tdiff) => 0 <= tdiff) us ->
  let t := elapsed (cr_first r) us in
  let left := if t <? cr_combatTimer r then Some (set_combatTimer (cr_combatTimer r - t) r) else None in
  exists w', perform_each quiet (updates us) w = Done (tt, w')
    /\ between true u v w' = left /\ between true v u w' = left.
Proof.
  intros H Hr Ht Hp t left. apply history_consistent in H. destruct (updates_age us w H Hp) as (w' & E & C & B).
  exists w'. split; [done|]. pose proof (proj1 (between_both _ _ _ _ _ _ (co_links _ _ H) Hr)) as Hr'.
  pose proof (B u v) as B1. pose proof (B v u) as B2. rewrite Hr in B1. rewrite Hr' in B2. split; [by apply B1|by apply B2].
Qed.

(** *** Leaving the world *)

(** A unit that ends all its combats may be destroyed: the assertions of the
    destructor hold, and it is not in combat. *)
Theorem EndAllCombat_destroyable fuel ai cs f w u : history fuel ai cs (World_new f) = Done (tt, w) ->
  exists w', (EndAllCombat log u None;; destroy u) w = Done (tt, w') /\ IsInCombat u w' = false.
Proof.
  intros H. apply history_consistent in H. unfold EndAllCombat.
  destruct (EndAll_leaves false u None w H) as (w1 & E1 & C1 & F1 & B1).
  destruct (EndAll_leaves true u None w1 C1) as (w2 & E2 & C2 & _ & B2). pose proof (co_links _ _ C2) as L.
  cbn [quiet perform] in E1, E2. unfold quiet in E1, E2. cbn [perform] in E1, E2.
  assert (N : forall p v, refs_of p u w2 !! v = None).
  { intros p v. destruct (refs_of p u w2 !! v) as [a|] eqn:Ha; [|done].
    destruct (between_entry _ _ _ _ _ _ L Ha) as (r & Er & Hr & Hrel & _). rewrite B2 in Hr.
    apply bind_Some in Hr as (r1 & Hr1 & L2). rewrite B1 in Hr1. apply bind_Some in Hr1 as (r0 & _ & L1).
    unfold left_by, ended_by in L1, L2. cbn [passes] in L1, L2. rewrite andb_true_r in L1, L2.
    destruct (involves u false r0) eqn:I0; [done|]. injection L1 as ->. destruct (involves u true r1) eqn:I1; [done|].
    injection L2 as ->.
    assert (I : involves u p r = true) by (apply (involves_relates ∅ u p a r w2 L Er); [set_solver|by exists v]).
    destruct p; congruence. }
  exists w2. split.
  - assert (Q : (EndAllPvECombat log u None;; EndAllPvPCombat log u None) w = Done (tt, w2))
      by (by rewrite (step_bind _ _ _ _ _ E1)).
    rewrite (step_bind _ _ _ _ _ Q). unfold destroy. rewrite (step_bind _ _ _ _ _ eq_refl).
    by rewrite !bool_decide_true by (apply map_empty, N).
  - apply not_true_iff_false. rewrite (in_combat_between _ _ _ C2). intros (p & v & r & Hr & _).
    unfold between in Hr. by rewrite N in Hr.
Qed.

(** ** Where call-backs break a call *)

(** An AI that ends the combat as it enters it, after having left one before. *)
Definition fleeing : Notice -> World -> list Call := fun n w =>
  match n with
  | JustEnteredCombat me other =>
      if existsb (fun n => match n with JustExitedCombat u => u =? me | _ => false end) (cw_log w)
      then [CallEndCombat false me other] else []
  | _ => []
  end.

(** A spell in flight suppresses a combat for either side until it lands. *)
Definition suppressed_both : list Call :=
  [CallSetInCombatWith 1 2 false; CallSuppressFor false 1 2; CallSuppressFor false 2 1].

(** [Refresh] tells the first AI, which ends the combat and so deletes the
    reference, and then reads the second unit from it. *)
Lemma Refresh_after_free :
  history 3 fleeing (suppressed_both ++ [CallSetInCombatWith 1 2 false]) (World_new arena) = Failed UseAfterFree.
Proof. vm_compute. reflexivity. Qed.

(** An AI that, when it leaves combat, ends what combats unit 1 has. *)
Definition calling_off : Notice -> World -> list Call := fun n w =>
  match n with JustExitedCombat _ => [CallEndAllPvECombat 1 None] | _ => [] end.

(** [EndAllPvECombat] collects the references first: one that an AI ends in
    between is ended again after it was deleted. *)
Lemma EndAllPvECombat_after_free :
  history 6 calling_off [CallSetInCombatWith 1 2 false; CallSetInCombatWith 1 3 false; CallEndAllPvECombat 1 None]
    (World_new arena) = Failed UseAfterFree.
Proof. vm_compute. reflexivity. Qed.

(** The result of [SetInCombatWith] is not always the combat state between the
    two afterwards: a refresh answers true even if the AI it told has ended the
    combat. *)
Lemma SetInCombatWith_answers_true : exists w w',
  history 3 fleeing [CallSetInCombatWith 1 2 false; CallSuppressFor false 1 2] (World_new arena) = Done (tt, w)
  /\ SetInCombatWith (fun n => log n;; w ← world; perform_each (run 3 fleeing) (fleeing n w)) 1 2 false w = Done (true, w')
  /\ IsInCombatWith 1 2 w' = false.
Proof.
  destruct (history 3 fleeing [CallSetInCombatWith 1 2 false; CallSuppressFor false 1 2] (World_new arena))
    as [[[] w]|e] eqn:E; [|vm_compute in E; discriminate].
  exists w. vm_compute in E. injection E as <-. eexists. split; [reflexivity|].
  split; vm_compute; reflexivity.
Qed.
